(* ===== verification/_CoqProject ===== *)
-Q . S2P
Prelude.v
Helper.v
Bitmap.v
TimerQueue.v
TimerWheel.v
Tree.v
Asm.v
RcuMap.v
Wire.v
Frag.v
Packet.v
Stats.v
Meter.v
Tcp.v
Fqdn.v
PolicyRules.v
PolicyCfg.v
PolicyDecision.v
PolicyLookup.v
Parser.v
ParserLaw.v
ParserRun.v
ParserTac.v
ParsersUdp.v
ParsersTcp.v
ParsersRpc.v
ParsersDb.v
Parsers.v
Kafka.v
Dns.v
DnsThm.v
DnsResp.v
Asn1.v
Ssl.v
SslThm.v
SslFollow.v
Reports.v
Session.v
SessionLaw.v
SessionRun.v
SessionThm.v
