(* ===== verification/Prelude.v ===== *)
(** * Verification of the data path of NeuVector (src/dp)

    dp is the process that inspects the packets of the containers of a host.  A thread
    receives frames, finds their headers (dpi/dpi_packet.c), puts IP fragments together
    (dpi/dpi_frag.c), tracks the session a packet belongs to (dpi/dpi_session.c), finds out
    which application protocol it speaks (dpi/dpi_parser.c and dpi/parsers/), and decides by
    the policy of the endpoint whether it may pass (dpi/dpi_policy.c), also for
    peers given by domain name.  All this is built on a handful of containers in utils/: a
    timer wheel and timer queues, a binary tree with parent links, a cache of segments
    for reassembly, a wrapper of a lock-free hash map, bitmaps, and string helpers.

    The development translates this code into Rocq functions and proves what the parts
    promise to each other.  One file models one part; definitions have the names of the C
    functions, and one C function that is long is cut into named steps.

    ** The files

    - Prelude: record update, machine integers as [Z] with explicit wrap-around (u8 .. u64,
      s32), flag words, case analysis on translated conditions, lists.
    - Helper (utils/helper.h, helper.c): [Seq] compares 32-bit sequence numbers; [Hash] is
      sdbm; [Bytes] big- and little-endian access; [Scan] the token scanners; [CString]
      strlcpy and lower_string.
    - Bitmap (utils/bitmap.c, bits.h): word bitmaps with search for a free bit, byte masks.
    - TimerQueue (utils/timer_queue.c) and TimerWheel (utils/timer_wheel.c): the wheel is
      specified by a map of absolute deadlines; [TimerWorld] is the interface through which
      callbacks change the rest of the thread while the wheel rolls.
    - Tree (utils/tree.c): nodes in a store, linked left, right and to the parent.  The class
      OrderedTree states what the tree promises, and Tree is its instance.
    - Asm (utils/asm.c): the reassembly cache, proved against OrderedTree only.
    - RcuMap (utils/rcu_map.c): the map; cds_lfht of liburcu is modelled by its documented
      sequential behaviour.
    - Wire (dpi/dpi_packet.h, dpi_packet.c): the packet being processed, loads and stores
      with bounds, Internet checksums, actions and threats of a packet.
    - Frag (dpi/dpi_frag.c): IPv4 reassembly, on Asm, RcuMap, TimerWheel and Wire.
    - Packet (dpi/dpi_packet.c): parsing of Ethernet, IPv4, IPv6, TCP, UDP and ICMP headers
      and TCP options, on Wire and Frag.
    - Stats (dpi/dpi_packet.c, ctrl.c): counters of endpoints and threads in rings of
      five-second slots, and the messages that report them.
    - Meter (dpi/dpi_meter.c): flood and session meters, on RcuMap and TimerWheel; single
      precision is that of the Standard Library's SpecFloat.
    - Tcp (dpi/dpi_session.c): the tracker of TCP packets: states, windows, retransmission,
      reassembly and timers of a session, on Asm, TimerWheel and Wire.
    - Fqdn (dpi/dpi_policy.c): names, their codes and addresses, wildcards, deletion.
    - PolicyRules (dpi/dpi_policy.c): exact and range rules of a policy, how they are
      installed and looked up.
    - PolicyCfg (dpi/dpi_policy.c): configuration messages, policy handles with their
      reference counts, the endpoints that use them.
    - PolicyDecision: the abstract policy (the first rule of the list that applies) and the
      refinement theorem that configuration and lookup implement it.
    - PolicyLookup (dpi/dpi_policy.c): the decision on a packet and on a session, the cache
      of unknown addresses, reevaluation when the policy changes.
    - Parser (dpi/dpi_parser.c, dpi_entry.c): the framework of the protocol parsers: which
      parsers of a session are hired, fired or final, the data they keep, the walk over
      them for a packet, the applications of an endpoint.  Parsers run in a state and
      error monad [M] over the [world] of a packet, its session and its endpoint.
    - ParserLaw: the invariant of that world, and what a parser must promise ([runs_well],
      [starts_well]); ParserRun: the class [Lawful] of parser tables, and the theorems of
      the framework for any lawful table, by induction on histories of a session.
    - ParserTac: what the parsers share (loads, the object of a parser) and their tactics.
    - ParsersUdp (echo, DHCP, NTP, TFTP), ParsersTcp (SSH, Redis, MongoDB, Cassandra),
      ParsersRpc (Spark, ZooKeeper, gRPC), ParsersDb (PostgreSQL, Couchbase and the SQL
      injection check; PCRE is a parameter): each file of dpi/parsers is a Section with
      its object, its functions and the proof that it keeps its promise.
    - Parsers: the table of these parsers, which is [Lawful], and its theorems.
    - Kafka (dpi/parsers/dpi_kafka.c): requests followed by a cursor with early returns.
    - Dns (dpi/parsers/dpi_dns.c): names with compression pointers, questions, answers, the
      mapping of answers to the domain-name table (Fqdn), and the parsers for TCP and UDP;
      [name_at] says what a name is.  DnsThm: what the parser guarantees for any packet;
      DnsResp: what it does with a well-formed response.
    - Asn1 (utils/asn1.c): the reader of DER elements, with an encoder of object identifiers.
    - Ssl (dpi/parsers/dpi_ssl.c): records of SSLv2, SSLv3 and TLS, handshakes and their
      certificates (read with Asn1), and the parser.  SslThm: what it guarantees for any
      packet; SslFollow: the records of a final session, as a program on records.
    - Reports (ctrl.c): [Ring] is the ring of threat logs between a data thread and the
      control thread, [Connect] the connection maps of a thread with their rate limiter;
      both are step relations in which the two threads interleave.
    - Session (dpi/dpi_session.c, dpi_log.c, dpi_packet.c, dpi_msg.c): the sessions of a
      thread: their maps, creation under policy (PolicyLookup), meters (Meter) and
      statistics (Stats), lookup, the trackers of UDP, ICMP and other IP, reports
      (Reports), release by timer (TimerWheel) and by request, the listing, and
      dpi_inspect_ethernet, which drives them for a packet.
    - SessionLaw: the invariant of the table and what each operation does to it;
      SessionRun: packets, timeouts and requests as a whole; SessionThm: the histories of
      a thread ([shist]) and the properties.

    ** How code becomes definitions

    Memory that is shared by address (tree nodes, clips, trackers, policy handles, map
    nodes) is a finite map from addresses to records, so aliasing and use after free are
    visible: an access to a freed object or outside a buffer makes a function return
    [None].  Theorems about such functions show that they return [Some], so they are at
    once proofs of termination and memory safety.  Error returns are values of the C type.
    Thread-local state (maps, timer wheel, counters) is a record that is passed along.
    Integers are kept at their width where they can wrap.  malloc succeeds, except for the
    data of the parsers, where it fails as a parameter [avail] says.  Some parsers read a few
    bytes behind the packet: their theorems ask for a buffer with that much slack, and for a
    zero byte in it where the code copies a C string out of the packet.

    Loops whose length depends on data take fuel.  The callers pass enough: the number of
    nodes for walks over a tree, the number of bytes for header walks, the number of
    entries due for a roll of the timer wheel, 320 rounds for a DNS name (63 pointers, 256
    bytes of text); the theorems prove that it suffices.

    Invariants are records of propositions: [ot_rep] of a tree and the list it stands for,
    [ainv] of a cache and its clips in order, [inv] of the wheel and its deadlines, [wf] of
    a map, [finv] of all reassembly state of a thread, [minv] of its meters, [tracks] of
    statistics and the history they count, [ginv] of policy handles and endpoints, [sinv]
    of sessions, maps, timers, counters and meters.  A
    component's lemmas show that each of its operations preserves its invariant; the
    components above use only those.

    ** What the theorems show

    - Policy: a packet of a configured endpoint is decided by the first rule of the list
      that applies to it; over any sequence of messages policy handles are neither used
      after free nor leaked; a message changes exactly the endpoints it lists;
      reevaluation reports exactly the changes to a violation.
    - Names: codes are unique, answers are associated with the right records, deletion
      ends and removes exactly what is marked.
    - Packets: parsing any frame is memory safe and leaves headers and payload in order;
      TCP options and header checksums are read back as written.
    - Reassembly: fragments in any order give the datagram; any fragments keep the state
      consistent; the cache copies exactly the contiguous bytes and stays inside its
      target; trackers are sent, discarded or timed out once.
    - TCP: the reachable pairs of states, by induction on histories; the handshake.
    - Statistics: over any history the reported totals and windows are the sums of what
      happened, at the width of the fields; which slot is missed or counted twice is stated.
    - Meters: session meters count exactly the open sessions and refuse from the limit on,
      as long as no meter times out while it counts; SYNs are dropped exactly above the rate.
    - Protocol parsers: over any history of a session no parser reads outside the packet
      buffer or touches freed data and all data is freed at the end; the session, the
      endpoint and the object of each parser stay well typed; after each packet the flags
      of the session say how many parsers are left.  Kafka requests are read in bounds,
      but for produce requests, where a negative length is shown to lead outside.
    - DNS: get_dns_name decodes exactly the names there are; the parser stays inside the
      packet and its arrays but for names with an extension label, for which an overrun is
      exhibited; a packet associates an address with a name only if it answers a question
      for it, and a response does associate the addresses it gives.
    - SSL: the parser stays inside the packet and ten bytes behind it but for certificates
      longer than the packet, for which an overrun is exhibited; a session becomes final
      only with a version and a record of each side; whole records of a final session are
      followed to their end and exactly the Heartbleed requests are reported.  The ASN.1
      reader stays inside its buffer and reads object identifiers back as DER encodes them.
    - Reports: threat logs are sent once, whole and in order; bytes, sessions and
      violations of connections are sent or still in the maps, whatever the interleaving.
    - Sessions: after any history each session is on its map and on the wheel and is
      counted once, and every packet, timeout and request returns; a session lives its
      timeout from its last packet and is then released; an answer finds the session of
      its question; metered sessions stay below the limit; requests delete and list
      exactly the sessions they name.
    - Containers: removal and insertion keep the tree in order and destruction frees each
      node once; the wheel implements deadlines and fires what is due; add, lookup and
      delete of the map are inverse.

    ** Not modelled

    Packet and control I/O (pkt.c, ring.c, nfq.c, main.c, and ctrl.c but for statistics and
    reports), the text of logs and debug output, the parsers of HTTP, TNS, TDS and
    MySQL, the signature engine (PCRE, Hyperscan), IPv6 reassembly (its trackers are deleted
    from the map of the IPv4 ones, which liburcu's documentation does not define), and
    allocation failure outside the parsers and the creation of sessions.

    The histories of the session table have no TCP packets: Tcp.v follows one TCP session
    by itself.  In dpi_inspect_ethernet of Session.v the parsers, the reevaluation of
    policy and the pattern match, which Parser.v and PolicyLookup.v model on their own
    state, are one parameter [inspect]; the theorems hold for any that leaves the
    addresses, direction, meter and caches of the session alone.  What connect_report
    returns may depend on all reports before.  The one wheel of a thread is split by the
    kind of its entries: each component rolls its own.

    Threads are sequential but for Reports: the maps of a thread are its own, and readers
    of the shared policy run under RCU, whose grace periods are not modelled. *)

From stdpp Require Export base tactics numbers list gmap strings sorting.
From Stdlib Require Export ZArith Lia.

Global Open Scope Z_scope.

(** ** Record update

    [r <| f := v |>] is the record [r] with field [f] set to [v], and
    [r <| f ::= g |>] applies [g] to the field.  A record type becomes
    updatable by declaring one [Eta] instance, its eta-expansion. *)

Class Eta (R : Type) := eta : R -> R.

Class Setter {R T : Type} (proj : R -> T) := set : (T -> T) -> R -> R.
Arguments set {R T} proj {Setter} _ _ /.

Ltac solve_setter :=
  match goal with
  | |- @Setter ?R ?T ?proj =>
      let e := constr:(_ : Eta R) in
      let e := eval hnf in e in
      match eval pattern proj in e with
      | ?abs _ => let s := eval cbv beta in (fun f : T -> T => abs (fun r : R => f (proj r))) in
                  exact s
      end
  end.

#[export] Hint Extern 1 (Setter _) => solve_setter : typeclass_instances.

Declare Scope dp_scope.
Delimit Scope dp_scope with dp.
Global Open Scope dp_scope.

#[warnings="-postfix-notation-not-level-1"]
Notation "r <| f := v |>" := (set f (fun _ => v) r)
  (at level 12, left associativity, f at level 9, v at level 200) : dp_scope.
#[warnings="-postfix-notation-not-level-1"]
Notation "r <| f ::= g |>" := (set f g r)
  (at level 12, left associativity, f at level 9, g at level 200) : dp_scope.

(** ** Machine integers

    A [uintN_t] value is a [Z] in [0, 2^N); [u8] .. [u64] are the conversions
    to those types (reduction modulo 2^N), [s32] the conversion to [int]. *)

Definition u8 (z : Z) : Z := z mod 2 ^ 8.
Definition u16 (z : Z) : Z := z mod 2 ^ 16.
Definition u24 (z : Z) : Z := z mod 2 ^ 24.
Definition u32 (z : Z) : Z := z mod 2 ^ 32.
Definition u64 (z : Z) : Z := z mod 2 ^ 64.
Definition s32 (z : Z) : Z := if u32 z <? 2 ^ 31 then u32 z else u32 z - 2 ^ 32.

Definition is_u8 (z : Z) : Prop := 0 <= z < 2 ^ 8.
Definition is_u16 (z : Z) : Prop := 0 <= z < 2 ^ 16.
Definition is_u32 (z : Z) : Prop := 0 <= z < 2 ^ 32.

(** Linear arithmetic over wrapped values: unfold the conversions and turn
    every [mod] and [/] by a constant into its defining equations. *)
Ltac ulia :=
  unfold u8, u16, u24, u32, u64, is_u8, is_u16, is_u32 in *;
  Z.to_euclidean_division_equations; lia.

Lemma u8_range z : is_u8 (u8 z). Proof. ulia. Qed.
Lemma u16_range z : is_u16 (u16 z). Proof. ulia. Qed.
Lemma u32_range z : is_u32 (u32 z). Proof. ulia. Qed.

Lemma u8_id z : is_u8 z -> u8 z = z. Proof. intros; apply Z.mod_small; ulia. Qed.
Lemma u16_id z : is_u16 z -> u16 z = z. Proof. intros; apply Z.mod_small; ulia. Qed.
Lemma u32_id z : is_u32 z -> u32 z = z. Proof. intros; apply Z.mod_small; ulia. Qed.

Lemma u32_add_l a b : u32 (u32 a + b) = u32 (a + b).
Proof. apply Zplus_mod_idemp_l. Qed.
Lemma u32_add_r a b : u32 (a + u32 b) = u32 (a + b).
Proof. apply Zplus_mod_idemp_r. Qed.
Lemma u32_sub_l a b : u32 (u32 a - b) = u32 (a - b).
Proof. apply Zminus_mod_idemp_l. Qed.
Lemma u32_sub_r a b : u32 (a - u32 b) = u32 (a - b).
Proof. apply Zminus_mod_idemp_r. Qed.
Lemma u32_u32 a : u32 (u32 a) = u32 a.
Proof. apply Zmod_mod. Qed.

Lemma s32_cases z :
  (u32 z < 2 ^ 31 /\ s32 z = u32 z) \/ (2 ^ 31 <= u32 z /\ s32 z = u32 z - 2 ^ 32).
Proof. unfold s32. destruct (Z.ltb_spec (u32 z) (2 ^ 31)); auto. Qed.

Lemma s32_id z : - 2 ^ 31 <= z < 2 ^ 31 -> s32 z = z.
Proof. intros H. destruct (s32_cases z) as [[? ->]|[? ->]]; ulia. Qed.

Create HintDb dp discriminated.
#[export] Hint Resolve u8_range u16_range u32_range : dp.
Create Rewrite HintDb u32.
#[export] Hint Rewrite u32_add_l u32_add_r u32_sub_l u32_sub_r u32_u32 : u32.

(** Memory as C sees it: [NULL] is address 0. *)
Definition NULL : Z := 0.

(** Flag words: [FLAGS_SET], [FLAGS_UNSET] and [FLAGS_TEST] of utils/bits.h
    at a field of [w] bits. *)
Definition FLAGS_SET (f b : Z) : Z := Z.lor f b.
Definition FLAGS_UNSET (w f b : Z) : Z := Z.land f (Z.lnot b mod 2 ^ w).
Definition FLAGS_TEST (f b : Z) : bool := negb (Z.land f b =? 0).

(** ** Case analysis on the boolean tests of a translated condition *)

Ltac break_bool :=
  repeat match goal with
  | H : _ && _ = true |- _ => apply andb_true_iff in H; destruct H
  | H : _ && _ = false |- _ => apply andb_false_iff in H; destruct H
  | H : _ || _ = true |- _ => apply orb_true_iff in H; destruct H
  | H : _ || _ = false |- _ => apply orb_false_iff in H; destruct H
  | H : negb _ = true |- _ => apply negb_true_iff in H
  | H : negb _ = false |- _ => apply negb_false_iff in H
  | H : (_ =? _) = true |- _ => apply Z.eqb_eq in H
  | H : (_ =? _) = false |- _ => apply Z.eqb_neq in H
  | H : (_ <? _) = true |- _ => apply Z.ltb_lt in H
  | H : (_ <? _) = false |- _ => apply Z.ltb_ge in H
  | H : (_ <=? _) = true |- _ => apply Z.leb_le in H
  | H : (_ <=? _) = false |- _ => apply Z.leb_gt in H
  end.

(** ** Lists *)

Section lists.
Context {A : Type}.
Implicit Types (l : list A) (P : A -> bool).

(** [find P l] is the first element of [l] on which [P] holds. *)
Fixpoint find_first P l : option A :=
  match l with
  | [] => None
  | x :: l => if P x then Some x else find_first P l
  end.

Lemma find_first_None P l : find_first P l = None <-> forall x, x ∈ l -> P x = false.
Proof.
  induction l as [|y l IH]; simpl.
  - split; [by intros _ x ?%elem_of_nil|done].
  - destruct (P y) eqn:E.
    + split; [done|]. intros H. rewrite H in E; [done|apply list_elem_of_here].
    + rewrite IH. setoid_rewrite elem_of_cons. naive_solver.
Qed.

Lemma find_first_Some P l x :
  find_first P l = Some x ->
  exists l1 l2, l = l1 ++ x :: l2 /\ P x = true /\ forall y, y ∈ l1 -> P y = false.
Proof.
  induction l as [|y l IH]; simpl; [done|].
  destruct (P y) eqn:E; intros H.
  - simplify_eq. exists [], l. split_and!; [done|done|]. by intros ? ?%elem_of_nil.
  - destruct (IH H) as (l1 & l2 & -> & HP & Hl1). exists (y :: l1), l2.
    split_and!; [done|done|]. intros z [->|Hz]%elem_of_cons; auto.
Qed.

Lemma find_first_app P l k :
  find_first P (l ++ k) =
  match find_first P l with Some x => Some x | None => find_first P k end.
Proof. induction l as [|y l IH]; simpl; [done|]. by destruct (P y). Qed.

Lemma find_first_ext P Q l :
  (forall x, x ∈ l -> P x = Q x) -> find_first P l = find_first Q l.
Proof.
  induction l as [|y l IH]; simpl; intros H; [done|].
  rewrite <- (H y) by apply list_elem_of_here.
  rewrite IH; [done|]. intros; apply H. by apply list_elem_of_further.
Qed.

Lemma find_first_elem P l x : find_first P l = Some x -> x ∈ l /\ P x = true.
Proof.
  intros (l1 & l2 & -> & ? & ?)%find_first_Some. split; [|done].
  apply elem_of_app. right. apply list_elem_of_here.
Qed.
End lists.

Lemma existsb_find {A} (P : A -> bool) l : existsb P l = bool_decide (is_Some (find_first P l)).
Proof.
  induction l as [|x l IH]; simpl; [done|]. destruct (P x); simpl; [done|].
  by rewrite IH.
Qed.

Section filters.
Context {A : Type} (P : A -> Prop) `{!forall x, Decision (P x)}.

Lemma filter_all l : Forall P l -> filter P l = l.
Proof. induction 1; [done|]. rewrite filter_cons_True by done. by f_equal. Qed.

Lemma filter_none l : Forall (fun x => ~ P x) l -> filter P l = [].
Proof. induction 1; [done|]. by rewrite filter_cons_False. Qed.
End filters.

(** A list in strictly increasing order of a key falls into the elements below,
    at and above any value; at most one is at it. *)
Lemma sorted_cut {A} (key : A -> Z) (l : list A) (k : Z) :
  StronglySorted (fun a b => key a < key b) l ->
  exists l1 m l2, l = l1 ++ m ++ l2 /\ (length m <= 1)%nat /\
    Forall (fun a => key a < k) l1 /\ Forall (fun a => key a = k) m /\
    Forall (fun a => k < key a) l2.
Proof.
  induction 1 as [|x l Hs IH Hx].
  - exists [], [], []. simpl. split_and!; auto using Forall_nil_2.
  - destruct (Z.lt_trichotomy (key x) k) as [Hlt|[Heq|Hgt]].
    + destruct IH as (l1 & m & l2 & -> & ? & ? & ? & ?). exists (x :: l1), m, l2.
      split_and!; try done. by constructor.
    + exists [], [x], l. simpl. split_and!; auto using Forall_nil_2, Forall_cons_2.
      eapply Forall_impl; [exact Hx|]. simpl. lia.
    + exists [], [], (x :: l). simpl. split_and!; auto using Forall_nil_2.
      constructor; [lia|]. eapply Forall_impl; [exact Hx|]. simpl. lia.
Qed.

Lemma StronglySorted_app_iff {A} (R : A -> A -> Prop) l1 l2 :
  StronglySorted R (l1 ++ l2) <->
  StronglySorted R l1 /\ StronglySorted R l2 /\ Forall (fun x => Forall (R x) l2) l1.
Proof.
  induction l1 as [|x l1 IH]; simpl.
  - split; [intros; split_and!; [constructor|done|constructor]|tauto].
  - split.
    + intros H. inversion H as [|? ? Hs Hx]; subst. apply IH in Hs as (? & ? & ?).
      apply Forall_app in Hx as [? ?]. split_and!; [by constructor|done|by constructor].
    + intros (H1 & H2 & H3). inversion H1; subst. apply Forall_cons in H3 as [? ?].
      constructor; [by apply IH|by apply Forall_app].
Qed.

Lemma elem_of_lfilter {A} (P : A -> bool) (l : list A) x : x ∈ List.filter P l <-> x ∈ l /\ P x = true.
Proof. rewrite !list_elem_of_In. apply filter_In. Qed.

Lemma NoDup_fmap_filter {A B} (f : A -> B) (P : A -> bool) l : NoDup (f <$> l) -> NoDup (f <$> List.filter P l).
Proof.
  induction l as [|x l IH]; [done|]. simpl. intros [Hx N]%NoDup_cons.
  destruct (P x); [|by apply IH]. simpl. apply NoDup_cons. split; [|by apply IH].
  intros (y & Hy & [Hin _]%elem_of_lfilter)%list_elem_of_fmap. apply Hx. rewrite Hy.
  by apply list_elem_of_fmap_2.
Qed.
