(* ===== verification/Helper.v ===== *)
(** * utils/helper.h, utils/helper.c: sequence numbers, hashing, text scanning

    [Seq] models the 32-bit modular comparisons that order TCP sequence numbers
    and IP fragments; [Hash] the [sdbm_hash] used by every map; [Bytes] the
    big/little endian field readers; [Scan] the line, string and token scanners
    the protocol parsers are built on; [CString] the bounded string copy.
    A byte is a [Z] in [0, 256) and the region [ptr, ptr + len) a [list Z]. *)

From S2P Require Import Prelude.

(** ** Modular sequence numbers *)

Module Seq.

Definition u32_distance (u1 u2 : Z) : Z := u32 (u2 - u1).
Definition u32_lt (u1 u2 : Z) : bool := s32 (u32 (u1 - u2)) <? 0.
Definition u32_lte (u1 u2 : Z) : bool := s32 (u32 (u1 - u2)) <=? 0.
Definition u32_gt (u1 u2 : Z) : bool := 0 <? s32 (u32 (u1 - u2)).
Definition u32_gte (u1 u2 : Z) : bool := 0 <=? s32 (u32 (u1 - u2)).

(** u1 <= u < u2 *)
Definition u32_between (u u1 u2 : Z) : bool := u32 (u - u1) <? u32 (u2 - u1).

(** [u1, u2) overlap [u3, u4): a plain unsigned comparison. *)
Definition u32_overlap (u1 u2 u3 u4 : Z) : bool := (u1 <? u4) && (u3 <? u2).

(** Two positions of an unbounded stream that are less than half the sequence
    space apart; [a] and [b] are the true offsets, the code sees [u32 a], [u32 b]. *)
Definition near (a b : Z) : Prop := - 2 ^ 31 < a - b < 2 ^ 31.

Lemma s32_sub_near a b : near a b -> s32 (u32 (u32 a - u32 b)) = a - b.
Proof.
  intros H. autorewrite with u32.
  destruct (s32_cases (a - b)) as [[? E]|[? E]]; unfold s32, near in *;
    rewrite u32_u32; destruct (Z.ltb_spec (u32 (a - b)) (2 ^ 31)); ulia.
Qed.

Lemma u32_lt_near a b : near a b -> u32_lt (u32 a) (u32 b) = (a <? b).
Proof. intros H. unfold u32_lt. rewrite s32_sub_near by done. lia. Qed.
Lemma u32_lte_near a b : near a b -> u32_lte (u32 a) (u32 b) = (a <=? b).
Proof. intros H. unfold u32_lte. rewrite s32_sub_near by done. lia. Qed.
Lemma u32_gt_near a b : near a b -> u32_gt (u32 a) (u32 b) = (b <? a).
Proof. intros H. unfold u32_gt. rewrite s32_sub_near by done. lia. Qed.
Lemma u32_gte_near a b : near a b -> u32_gte (u32 a) (u32 b) = (b <=? a).
Proof. intros H. unfold u32_gte. rewrite s32_sub_near by done. lia. Qed.

(** on the sequence numbers of two stream positions less than 2^31 apart,
    the five comparisons of helper.h agree with the order and the distance of
    the positions themselves, also across a wrap-around of the 32-bit space. *)
Theorem u32_compare_window (a b : Z) :
  near a b ->
  u32_lt (u32 a) (u32 b) = (a <? b) /\
  u32_lte (u32 a) (u32 b) = (a <=? b) /\
  u32_gt (u32 a) (u32 b) = (b <? a) /\
  u32_gte (u32 a) (u32 b) = (b <=? a) /\
  (a <= b -> u32_distance (u32 a) (u32 b) = b - a).
Proof.
  intros H. rewrite u32_lt_near, u32_lte_near, u32_gt_near, u32_gte_near by done.
  split_and!; try done. intros Hab. unfold u32_distance. autorewrite with u32.
  unfold near in H. ulia.
Qed.

(** The comparison is right across the wrap: 2^32 - 5 precedes 2^32 + 7. *)
Lemma u32_compare_window_witness :
  near (2 ^ 32 - 5) (2 ^ 32 + 7) /\
  u32_lt (u32 (2 ^ 32 - 5)) (u32 (2 ^ 32 + 7)) = true.
Proof.
  assert (H : near (2 ^ 32 - 5) (2 ^ 32 + 7)) by (unfold near; lia).
  split; [exact H|]. exact (proj1 (u32_compare_window _ _ H)).
Defined.

(** [u32_between] is membership in the modular half-open interval, provided the
    interval is shorter than the whole space. *)
Lemma u32_between_spec u u1 u2 :
  u1 <= u2 < u1 + 2 ^ 32 -> u1 <= u < u1 + 2 ^ 32 ->
  u32_between (u32 u) (u32 u1) (u32 u2) = (u <? u2).
Proof.
  intros H1 H2. unfold u32_between. autorewrite with u32.
  rewrite (u32_id (u - u1)), (u32_id (u2 - u1)) by ulia. lia.
Qed.

Lemma u32_overlap_spec u1 u2 u3 u4 :
  u1 < u2 -> u3 < u4 ->
  u32_overlap u1 u2 u3 u4 = true <-> exists x, u1 <= x < u2 /\ u3 <= x < u4.
Proof.
  intros H1 H2. unfold u32_overlap. split.
  - intros ?; break_bool. exists (Z.max u1 u3). lia.
  - intros (x & ? & ?). apply andb_true_intro; split; apply Z.ltb_lt; lia.
Qed.

End Seq.

(** ** Hashing *)

Module Hash.

(** One round: hash = *a + (hash << 6) + (hash << 16) - hash, on uint32_t. *)
Definition sdbm_step (hash a : Z) : Z :=
  u32 (u32 (a + u32 (Z.shiftl hash 6)) + u32 (Z.shiftl hash 16) - hash).

Definition sdbm_hash (a : list Z) : Z := foldl sdbm_step 0 a.

Lemma sdbm_hash_range a : is_u32 (sdbm_hash a).
Proof.
  unfold sdbm_hash. assert (H : is_u32 0) by ulia. revert H. generalize 0.
  induction a as [|x a IH]; simpl; intros h Hh; [done|].
  apply IH. unfold sdbm_step. auto with dp.
Qed.

(** The hash is polynomial evaluation at 65599 modulo 2^32. *)
Lemma sdbm_step_poly h a : sdbm_step h a = u32 (a + 65599 * h).
Proof.
  unfold sdbm_step. rewrite !Z.shiftl_mul_pow2 by lia. autorewrite with u32.
  replace (u32 _) with (u32 ((a + h * 2 ^ 6) + h * 2 ^ 16 - h)).
  { f_equal. lia. }
  rewrite <- (u32_sub_l (a + h * 2 ^ 6 + h * 2 ^ 16)).
  rewrite <- (u32_add_l (a + _)), <- (u32_add_r a).
  rewrite <- (u32_add_r _ (h * 2 ^ 16)). autorewrite with u32. done.
Qed.

End Hash.

(** ** Byte order readers *)

Module Bytes.

(** Memory read: byte [i] of the region, 0 beyond it (callers check bounds). *)
Definition byte_at (l : list Z) (i : Z) : Z := default 0 (l !! Z.to_nat i).

Definition GET_BIG_INT16 (l : list Z) (v : Z) : Z :=
  Z.lor (Z.shiftl (byte_at l v) 8) (byte_at l (v + 1)).
Definition GET_BIG_INT24 (l : list Z) (v : Z) : Z :=
  Z.lor (Z.lor (Z.shiftl (byte_at l v) 16) (Z.shiftl (byte_at l (v + 1)) 8))
        (byte_at l (v + 2)).
(** On the 32-bit [int] of the macro's operands, as the unsigned value. *)
Definition GET_BIG_INT32 (l : list Z) (v : Z) : Z :=
  Z.lor (Z.lor (Z.lor (Z.shiftl (byte_at l v) 24) (Z.shiftl (byte_at l (v + 1)) 16))
               (Z.shiftl (byte_at l (v + 2)) 8))
        (byte_at l (v + 3)).
Definition GET_LITTLE_INT16 (l : list Z) (v : Z) : Z :=
  Z.lor (byte_at l v) (Z.shiftl (byte_at l (v + 1)) 8).
Definition GET_LITTLE_INT24 (l : list Z) (v : Z) : Z :=
  Z.lor (Z.lor (byte_at l v) (Z.shiftl (byte_at l (v + 1)) 8))
        (Z.shiftl (byte_at l (v + 2)) 16).

(** On the little-endian hosts dp runs on, htons/htonl reverse the bytes. *)
Definition htons (z : Z) : Z := Z.lor (Z.shiftl (z mod 256) 8) (Z.shiftr z 8 mod 256).
Definition ntohs := htons.
Definition htonl (z : Z) : Z :=
  Z.lor (Z.lor (Z.shiftl (z mod 256) 24) (Z.shiftl (Z.shiftr z 8 mod 256) 16))
        (Z.lor (Z.shiftl (Z.shiftr z 16 mod 256) 8) (Z.shiftr z 24 mod 256)).
Definition ntohl := htonl.

Definition htonll (value : Z) : Z :=
  let high_part := htonl (u32 (Z.shiftr value 32)) in
  let low_part := htonl (u32 (Z.land value 0xFFFFFFFF)) in
  Z.lor (u64 (Z.shiftl low_part 32)) high_part.

Lemma lor_disjoint_add a b n : 0 <= n -> 0 <= b < 2 ^ n -> Z.lor (Z.shiftl a n) b = a * 2 ^ n + b.
Proof.
  intros Hn Hb. rewrite <- Z.shiftl_mul_pow2 by lia.
  assert (Z.land (Z.shiftl a n) b = 0) as E.
  { apply Z.bits_inj'. intros i Hi. rewrite Z.land_spec, Z.bits_0.
    destruct (Z.lt_ge_cases i n).
    - by rewrite Z.shiftl_spec_low.
    - rewrite <- (Z.mod_small b (2 ^ n)) by lia.
      rewrite Z.mod_pow2_bits_high by lia. apply andb_false_r. }
  rewrite <- Z.lxor_lor by done. by rewrite <- Z.add_nocarry_lxor.
Qed.

Lemma htonl_arith z :
  htonl z = ((z mod 256 * 256 + z / 2 ^ 8 mod 256) * 256 + z / 2 ^ 16 mod 256) * 256
            + z / 2 ^ 24 mod 256.
Proof.
  unfold htonl. rewrite !Z.shiftr_div_pow2 by lia.
  set (a := z mod 256). set (b := z / 2 ^ 8 mod 256).
  set (c := z / 2 ^ 16 mod 256). set (d := z / 2 ^ 24 mod 256).
  assert (0 <= b < 256 /\ 0 <= c < 256 /\ 0 <= d < 256) as (? & ? & ?)
    by (unfold b, c, d; split_and!; apply Z.mod_pos_bound; lia).
  rewrite (lor_disjoint_add c d 8) by lia.
  replace (Z.lor (Z.shiftl a 24) (Z.shiftl b 16)) with (Z.shiftl (Z.lor (Z.shiftl a 8) b) 16)
    by (rewrite Z.shiftl_lor, Z.shiftl_shiftl by lia; done).
  rewrite (lor_disjoint_add a b 8), lor_disjoint_add by lia. lia.
Qed.

Lemma digit_div q d : 0 <= d < 256 -> (q * 256 + d) / 256 = q.
Proof. intros. rewrite Z.div_add_l by lia. rewrite Z.div_small; lia. Qed.
Lemma digit_mod q d : 0 <= d < 256 -> (q * 256 + d) mod 256 = d.
Proof. intros. rewrite Z.add_comm, Z.mod_add by lia. apply Z.mod_small; lia. Qed.

Lemma htonl_digits a b c d :
  0 <= a < 256 -> 0 <= b < 256 -> 0 <= c < 256 -> 0 <= d < 256 ->
  htonl (((a * 256 + b) * 256 + c) * 256 + d) = ((d * 256 + c) * 256 + b) * 256 + a.
Proof.
  intros. rewrite htonl_arith.
  replace (2 ^ 16) with (256 * 256) by lia. replace (2 ^ 24) with (256 * (256 * 256)) by lia.
  change (2 ^ 8) with 256. rewrite <- !Z.div_div by lia.
  rewrite !digit_div, !digit_mod by lia. rewrite (Z.mod_small a) by lia. done.
Qed.

(** Byte reversal is an involution, so [ntohl] undoes [htonl] and preserves
    distinctness: comparing [ntohl] values is comparing addresses. *)
Lemma ntohl_htonl z : is_u32 z -> ntohl (htonl z) = z.
Proof.
  intros H. unfold ntohl. rewrite (htonl_arith z).
  rewrite htonl_digits by (apply Z.mod_pos_bound; lia).
  replace (2 ^ 16) with (256 * 256) by lia. replace (2 ^ 24) with (256 * (256 * 256)) by lia.
  change (2 ^ 8) with 256. rewrite <- !Z.div_div by lia.
  unfold is_u32 in H.
  rewrite (Z.mod_small (z / 256 / 256 / 256)).
  2:{ rewrite !Z.div_div by lia. split; [apply Z.div_pos; lia|].
      apply Z.div_lt_upper_bound; lia. }
  pose proof (Z.div_mod z 256). pose proof (Z.div_mod (z / 256) 256).
  pose proof (Z.div_mod (z / 256 / 256) 256). lia.
Qed.

Lemma htonl_range z : is_u32 (htonl z).
Proof.
  rewrite htonl_arith.
  pose proof (Z.mod_pos_bound z 256). pose proof (Z.mod_pos_bound (z / 2 ^ 8) 256).
  pose proof (Z.mod_pos_bound (z / 2 ^ 16) 256). pose proof (Z.mod_pos_bound (z / 2 ^ 24) 256).
  unfold is_u32. lia.
Qed.

End Bytes.

(** ** Text scanning *)

Module Scan.

Definition CR : Z := 13.
Definition LF : Z := 10.
Definition SP : Z := 32.

(** [consume_string]: the offset of the first NUL of the region, if any. *)
Fixpoint consume_string_loop (bytes : list Z) (l : Z) : option Z :=
  match bytes with
  | [] => None
  | c :: bytes => if c =? 0 then Some l else consume_string_loop bytes (l + 1)
  end.
Definition consume_string (bytes : list Z) : option Z := consume_string_loop bytes 0.

(** [consume_line]: the offset just after the first LF, and the number of
    end-of-line characters (that LF and the CRs just before it). *)
Fixpoint consume_line_loop (bytes : list Z) (l n : Z) : option Z * Z :=
  match bytes with
  | [] => (None, 0)
  | c :: bytes =>
      if c =? CR then consume_line_loop bytes (l + 1) (n + 1)
      else if c =? LF then (Some (l + 1), n + 1)
      else consume_line_loop bytes (l + 1) 0
  end.
Definition consume_line (bytes : list Z) : option Z * Z := consume_line_loop bytes 0 0.

Definition CONSUME_TOKEN_SKIP_LINE : Z := 1.

(** [consume_tokens] calls [func] on every space-delimited token, in order, with
    the token's bytes and index, until the region ends or [func] returns
    [CONSUME_TOKEN_SKIP_LINE].  [token] holds the bytes from the token's start
    up to the scan position while a token is open. *)
Section tokens.
Context {P : Type} (func : P -> list Z -> Z -> P * Z).

Fixpoint consume_tokens_loop (bytes : list Z) (token : option (list Z)) (idx : Z)
    (param : P) : P :=
  match bytes with
  | [] => match token with
          | Some t => fst (func param t idx)
          | None => param
          end
  | c :: bytes =>
      if c =? SP then
        match token with
        | Some t =>
            let '(param, ret) := func param t idx in
            if ret =? CONSUME_TOKEN_SKIP_LINE then param
            else consume_tokens_loop bytes None (idx + 1) param
        | None => consume_tokens_loop bytes None idx param
        end
      else
        consume_tokens_loop bytes (Some (default [] token ++ [c])) idx param
  end.

Definition consume_tokens (bytes : list Z) (param : P) : P :=
  consume_tokens_loop bytes None 0 param.
End tokens.

(** *** Reference definitions *)

(** Split at every space, empty pieces included. *)
Fixpoint split_sp (l : list Z) : list (list Z) :=
  match l with
  | [] => [[]]
  | c :: l =>
      if c =? SP then [] :: split_sp l
      else match split_sp l with
           | w :: ws => (c :: w) :: ws
           | [] => [[c]]
           end
  end.

Definition nonempty (w : list Z) : bool := match w with [] => false | _ => true end.
Definition words (l : list Z) : list (list Z) := List.filter nonempty (split_sp l).

(** A handler that records every call as (index, token) and never stops. *)
Definition collect (acc : list (Z * list Z)) (t : list Z) (idx : Z) : list (Z * list Z) * Z :=
  (acc ++ [(idx, t)], 0).

Fixpoint number (idx : Z) (ws : list (list Z)) : list (Z * list Z) :=
  match ws with
  | [] => []
  | w :: ws => (idx, w) :: number (idx + 1) ws
  end.

Lemma split_sp_nonnil l : split_sp l <> [].
Proof. destruct l as [|c l]; simpl; [done|]. destruct (c =? SP); [done|]. by destruct (split_sp l). Qed.

Lemma consume_tokens_loop_collect bytes token idx acc :
  (forall t, token = Some t -> t <> []) ->
  consume_tokens_loop collect bytes token idx acc =
  acc ++ number idx (List.filter nonempty
           (match split_sp bytes with
            | w :: ws => (default [] token ++ w) :: ws
            | [] => [default [] token]
            end)).
Proof.
  revert token idx acc. induction bytes as [|c bytes IH]; intros token idx acc Htok; simpl.
  - destruct token as [t|]; simpl.
    + rewrite app_nil_r. destruct t; [by destruct (Htok [])|done].
    + by rewrite app_nil_r.
  - destruct (c =? SP) eqn:E.
    + destruct token as [t|]; simpl.
      * rewrite IH by done. rewrite app_nil_r. simpl.
        destruct t as [|b t]; [by destruct (Htok [])|]. simpl.
        rewrite <- app_assoc. simpl.
        destruct (split_sp bytes) eqn:Es; [by destruct (split_sp_nonnil bytes)|done].
      * rewrite IH by done.
        destruct (split_sp bytes) eqn:Es; [by destruct (split_sp_nonnil bytes)|done].
    + rewrite IH by (intros t [= <-]; by destruct (default [] token)).
      destruct (split_sp bytes) eqn:Es; [by destruct (split_sp_nonnil bytes)|].
      simpl. by rewrite <- app_assoc.
Qed.

(** The tokens handed to the callback are exactly the non-empty space-separated
    words of the region, in order and numbered from 0. *)
Theorem consume_tokens_words bytes :
  consume_tokens collect bytes [] = number 0 (words bytes).
Proof.
  unfold consume_tokens, words. rewrite consume_tokens_loop_collect by done. simpl.
  destruct (split_sp bytes) eqn:Es; [by destruct (split_sp_nonnil bytes)|done].
Qed.

Lemma consume_line_loop_spec bytes l n :
  match consume_line_loop bytes l n with
  | (None, e) => e = 0 /\ LF ∉ bytes
  | (Some r, e) => exists pre rest m,
      bytes = pre ++ LF :: rest /\ (LF ∉ pre) /\ r = l + Z.of_nat (length pre) + 1 /\
      e = m + 1 /\
      ((pre = replicate (length pre) CR /\ m = n + Z.of_nat (length pre)) \/
       exists body k, pre = body ++ replicate k CR /\ m = Z.of_nat k /\
                      exists b c, body = b ++ [c] /\ c <> CR)
  end.
Proof.
  revert l n. induction bytes as [|c bytes IH]; intros l n; simpl.
  { split; [done|]. by intros ?%elem_of_nil. }
  destruct (c =? CR) eqn:Ecr; [|destruct (c =? LF) eqn:Elf]; break_bool; subst.
  - specialize (IH (l + 1) (n + 1)). destruct (consume_line_loop _ _ _) as [[r|] e].
    + destruct IH as (pre & rest & m & -> & Hin & -> & -> & H).
      exists (CR :: pre), rest, m. split_and!; [done| |simpl; lia|done|].
      { intros [?|?]%elem_of_cons; done. }
      destruct H as [[Hp ->]|(body & k & -> & -> & b & d & -> & Hd)].
      * left. simpl. split; [by rewrite <- Hp|lia].
      * right. exists (CR :: b ++ [d]), k. split_and!; [done|done|]. by exists (CR :: b), d.
    + destruct IH as [-> ?]. split; [done|]. by intros [?|?]%elem_of_cons.
  - exists [], bytes, n. split_and!; [done|by intros ?%elem_of_nil|simpl; lia|done|].
    left. simpl. split; [done|lia].
  - specialize (IH (l + 1) 0). destruct (consume_line_loop _ _ _) as [[r|] e].
    + destruct IH as (pre & rest & m & -> & Hin & -> & -> & H).
      exists (c :: pre), rest, m. split_and!; [done| |simpl; lia|done|].
      { intros [?|?]%elem_of_cons; done. }
      right. destruct H as [[Hp ->]|(body & k & -> & -> & b & d & -> & Hd)].
      * exists [c], (length pre). split_and!; [by rewrite Hp at 1|lia|]. by exists [], c.
      * exists (c :: b ++ [d]), k. split_and!; [done|done|]. by exists (c :: b), d.
    + destruct IH as [-> ?]. split; [done|]. by intros [?|?]%elem_of_cons.
Qed.

(** [consume_line] finds the first LF: it returns [None] exactly when there is
    none; otherwise the line it consumes is [body], followed by all the CRs that
    precede the LF, and [eol_chars] counts those CRs and the LF. *)
Theorem consume_line_spec bytes :
  match consume_line bytes with
  | (None, e) => e = 0 /\ LF ∉ bytes
  | (Some r, e) => exists body k rest,
      bytes = body ++ replicate k CR ++ LF :: rest /\
      (LF ∉ body) /\ last body <> Some CR /\
      e = Z.of_nat k + 1 /\ r = Z.of_nat (length body) + e
  end.
Proof.
  unfold consume_line. pose proof (consume_line_loop_spec bytes 0 0) as H.
  destruct (consume_line_loop bytes 0 0) as [[r|] e]; [|done].
  destruct H as (pre & rest & m & -> & Hin & -> & -> & [[Hp ->]|H]).
  - exists [], (length pre), rest. simpl. rewrite <- Hp.
    split_and!; try done; try lia. by intros ?%elem_of_nil.
  - destruct H as (body & k & -> & -> & b & c & -> & Hc).
    exists (b ++ [c]), k, rest. rewrite <- app_assoc. rewrite last_snoc.
    rewrite !length_app, length_replicate in *.
    split_and!; [done| |congruence|done|lia].
    intros ?. apply Hin. apply elem_of_app. by left.
Qed.

End Scan.

(** ** Bounded string copy *)

Module CString.

(** The copying do-while loop, which stops after a NUL or when [--n] reaches 0,
    entered with [n <> 0]; both cursors are at offset [i].  [None] is an access outside
    [dst] or [src]. The result is the buffer, the offset reached and [n]. *)
Fixpoint strlcpy_copy (n : nat) (dst src : list Z) (i : nat) : option (list Z * nat * nat) :=
  match n with
  | O => Some (dst, i, O)
  | S n' =>
      match src !! i with
      | None => None
      | Some c =>
          if decide (i < length dst)%nat then
            let dst := <[i := c]> dst in
            if c =? 0 then Some (dst, S i, n) else strlcpy_copy n' dst src (S i)
          else None
      end
  end.

(** The loop that walks the rest of the source from offset [i]: the offset after
    its NUL. *)
Fixpoint skip_nul (src : list Z) (i : nat) (rest : list Z) : option nat :=
  match rest with
  | [] => None
  | c :: rest => if c =? 0 then Some (S i) else skip_nul src (S i) rest
  end.

Definition strlcpy (dst src : list Z) (siz : nat) : option (list Z * Z) :=
  match
    (match siz with
     | O => Some (dst, O, O)
     | S O => Some (dst, O, O)
     | S n => strlcpy_copy n dst src O
     end)
  with
  | None => None
  | Some (dst, i, n) =>
      if decide (n = O) then
        match
          (match siz with
           | O => Some dst
           | _ => if decide (i < length dst)%nat then Some (<[i := 0]> dst) else None
           end), skip_nul src i (drop i src)
        with
        | Some dst, Some s => Some (dst, Z.of_nat s - 1)
        | _, _ => None
        end
      else Some (dst, Z.of_nat i - 1)
  end.

(** [lower_string]: the loop up to the NUL, ASCII capitals shifted by 32. *)
Definition to_lower (c : Z) : Z := if (65 <=? c) && (c <=? 90) then u8 (c + 32) else c.
Fixpoint lower_string (s : list Z) : list Z :=
  match s with
  | [] => []
  | c :: s => if c =? 0 then c :: s else to_lower c :: lower_string s
  end.

(** The C string [s] (no NUL inside) stored in memory with its terminator. *)
Definition cstr (s tail : list Z) : list Z := s ++ 0 :: tail.

Lemma skip_nul_cstr src i s tail :
  Forall (fun c => c <> 0) s ->
  skip_nul src i (cstr s tail) = Some (i + length s + 1)%nat.
Proof.
  unfold cstr. revert i. induction s as [|c s IH]; intros i Hs; simpl.
  - f_equal. lia.
  - apply Forall_cons in Hs as [Hc Hs]. apply Z.eqb_neq in Hc. rewrite Hc.
    rewrite IH by done. f_equal. lia.
Qed.

Lemma cstr_lookup s tail i :
  (i < length s)%nat -> exists c, cstr s tail !! i = Some c /\ s !! i = Some c.
Proof.
  intros Hi. destruct (lookup_lt_is_Some_2 s i Hi) as [c Hc].
  exists c. split; [|done]. unfold cstr. by rewrite lookup_app_l.
Qed.

(** After copying the first [i] characters of [s]. *)
Definition copied (dst s : list Z) (i : nat) : list Z := take i s ++ drop i dst.

Lemma copied_S dst s i c :
  (i < length dst)%nat -> s !! i = Some c -> <[i := c]> (copied dst s i) = copied dst s (S i).
Proof.
  intros Hi Hc. unfold copied. pose proof (lookup_lt_Some _ _ _ Hc).
  rewrite (take_S_r _ _ c) by done.
  destruct (lookup_lt_is_Some_2 dst i Hi) as [d Hd].
  rewrite (drop_S dst d i) by done.
  rewrite insert_app_r_alt by (rewrite length_take; lia).
  rewrite length_take, Nat.min_l, Nat.sub_diag by lia. simpl.
  by rewrite <- app_assoc.
Qed.

Lemma copied_length dst s i : (i <= length dst)%nat -> (i <= length s)%nat ->
  length (copied dst s i) = length dst.
Proof. intros. unfold copied. rewrite length_app, length_take, length_drop. lia. Qed.

Lemma strlcpy_copy_spec n dst s tail i :
  Forall (fun c => c <> 0) s -> (i <= length s)%nat -> (i + n < length dst)%nat ->
  strlcpy_copy n (copied dst s i) (cstr s tail) i =
  if decide (i + n <= length s)%nat then Some (copied dst s (i + n), (i + n)%nat, O)
  else Some (<[length s := 0]> (copied dst s (length s)),
             S (length s), (n - (length s - i))%nat).
Proof.
  intros Hs. revert i. induction n as [|n IH]; intros i Hi Hd; simpl.
  - rewrite decide_True by lia. by rewrite Nat.add_0_r.
  - rewrite copied_length by lia.
    destruct (decide (i < length s)%nat) as [Hlt|Hge].
    + destruct (cstr_lookup s tail i Hlt) as (c & -> & Hc).
      rewrite decide_True by lia.
      rewrite Forall_lookup in Hs. pose proof (Hs _ _ Hc) as Hne.
      apply Z.eqb_neq in Hne. rewrite Hne, copied_S by (done || lia).
      rewrite IH by lia. replace (S i + n)%nat with (i + S n)%nat by lia.
      destruct (decide (i + S n <= length s)%nat); [done|]. do 2 f_equal. lia.
    + assert (i = length s) as -> by lia.
      unfold cstr at 1. rewrite lookup_app_r, Nat.sub_diag by lia. simpl.
      rewrite decide_True, decide_False by lia. do 2 f_equal.
Qed.

(** for a NUL-terminated source and a destination of at least [siz] bytes,
    [strlcpy] never reads or writes out of bounds, returns strlen(src), and
    leaves in the destination the longest prefix of the source that fits in
    [siz - 1] characters followed by a NUL, the bytes behind it untouched;
    with [siz = 0] it writes nothing. *)
Theorem strlcpy_spec (dst s tail : list Z) (siz : nat) :
  Forall (fun c => c <> 0) s -> (siz <= length dst)%nat ->
  strlcpy dst (cstr s tail) siz =
  Some (match siz with
        | O => dst
        | S n => take (n `min` length s) s ++ 0 :: drop (S (n `min` length s)) dst
        end, Z.of_nat (length s)).
Proof.
  intros Hs Hd.
  assert (Hcut : forall k, (k <= length s)%nat -> (k < length dst)%nat ->
            <[k := 0]> (copied dst s k) = take k s ++ 0 :: drop (S k) dst).
  { intros k Hk1 Hk2. unfold copied. destruct (lookup_lt_is_Some_2 dst k Hk2) as [d Hd'].
    rewrite (drop_S dst d k) by done.
    rewrite insert_app_r_alt by (rewrite length_take; lia).
    by rewrite length_take, Nat.min_l, Nat.sub_diag by lia. }
  destruct siz as [|[|n]]; unfold strlcpy.
  - rewrite decide_True by done. rewrite drop_0, skip_nul_cstr by done. do 2 f_equal. lia.
  - rewrite decide_True by done. rewrite decide_True by lia.
    rewrite drop_0, skip_nul_cstr by done. pose proof (Hcut O) as H0.
    unfold copied in H0. simpl in H0. rewrite drop_0 in H0. rewrite H0 by lia.
    do 2 f_equal. lia.
  - pose proof (strlcpy_copy_spec (S n) dst s tail 0 Hs) as Hc.
    unfold copied in Hc at 1. rewrite take_0, drop_0 in Hc. cbn [app] in Hc. rewrite (Hc ltac:(lia) ltac:(lia)).
    destruct (decide (0 + S n <= length s)%nat) as [Hle|Hgt].
    + rewrite decide_True by done. rewrite copied_length by lia.
      rewrite decide_True by lia.
      replace (drop (0 + S n) (cstr s tail)) with (cstr (drop (S n) s) tail)
        by (unfold cstr; by rewrite drop_app_le by lia).
      rewrite skip_nul_cstr by (by apply Forall_drop).
      rewrite length_drop, Nat.min_l, Hcut by lia. do 2 f_equal. lia.
    + rewrite decide_False by lia. rewrite Nat.min_r, Hcut by lia. do 2 f_equal. lia.
Qed.

Lemma strlcpy_spec_witness :
  strlcpy [9; 9; 9; 9; 9] (cstr [97; 98; 99; 100] [7]) 4 = Some ([97; 98; 99; 0; 9], 4).
Proof.
  rewrite (strlcpy_spec [9; 9; 9; 9; 9] [97; 98; 99; 100] [7] 4).
  - reflexivity.
  - repeat constructor; lia.
  - simpl; lia.
Defined.

End CString.
