(* ===== verification/Bitmap.v ===== *)
(** * utils/bitmap.c and utils/bits.h: bit sets

    [Bitmap] is the heap-allocated bitmap that hands out FQDN codes
    (dpi_policy.c); its words are [uint32_t] values and an array access outside
    [0, words) is [None].  [Bits] is the byte-array bit mask of bits.h
    (parser_bits of a session, the bad TCP flag table) with its [BITOP] wrapper. *)

From S2P Require Import Prelude.

Module Bitmap.

Definition bitmap_shift : Z := 5.
Definition bitmap_mask : Z := 31.
Definition bitmap_wordlength : Z := 32.

Record bitmap := Bitmap { bits : Z; words : Z; array : list Z }.
#[export] Instance eta_bitmap : Eta bitmap := fun b => Bitmap (bits b) (words b) (array b).

(** b->array[i] *)
Definition word_get (b : bitmap) (i : Z) : option Z :=
  if 0 <=? i then array b !! Z.to_nat i else None.
Definition word_put (b : bitmap) (i w : Z) : option bitmap :=
  if (0 <=? i) && (i <? Z.of_nat (length (array b)))
  then Some (b <| array ::= <[Z.to_nat i := w]> |>) else None.

Definition bitmap_set (b : bitmap) (n : Z) : option bitmap :=
  let word := Z.shiftr n bitmap_shift in
  let position := Z.land n bitmap_mask in
  w ← word_get b word;
  word_put b word (Z.lor w (u32 (Z.shiftl 1 position))).

Definition bitmap_clear (b : bitmap) (n : Z) : option bitmap :=
  let word := Z.shiftr n bitmap_shift in
  let position := Z.land n bitmap_mask in
  w ← word_get b word;
  word_put b word (Z.land w (u32 (Z.lnot (u32 (Z.shiftl 1 position))))).

Definition bitmap_is_set (b : bitmap) (n : Z) : option Z :=
  let word := Z.shiftr n bitmap_shift in
  let position := Z.land n bitmap_mask in
  w ← word_get b word;
  Some (Z.land (Z.shiftr w position) 1).

(** The loop of get_one_pos_from_word, after `w = w >> start`.  A 32-bit [w]
    becomes 0 within 32 shifts, so 33 iterations are never used up. *)
Fixpoint get_one_pos_loop (fuel : nat) (w start : Z) : Z :=
  match fuel with
  | O => -1
  | S fuel =>
      if 0 <? w then
        if Z.land w 1 =? 0 then get_one_pos_loop fuel (Z.shiftr w 1) (start + 1)
        else start
      else -1
  end.
Definition get_one_pos_from_word (w start : Z) : Z :=
  get_one_pos_loop 33 (Z.shiftr w start) start.

(** `while (i < limit) { ...; i++; }`: both word loops of bitmap_get_next_zero,
    the first with limit [words], the second with limit [word + 1]. *)
Fixpoint scan_words (fuel : nat) (b : bitmap) (i limit : Z) : option Z :=
  match fuel with
  | O => Some (-1)
  | S fuel =>
      if i <? limit then
        w ← word_get b i;
        let tmp := u32 (Z.lnot w) in
        let ret := get_one_pos_from_word tmp 0 + Z.shiftl i bitmap_shift in
        if negb (tmp =? 0) && (ret <? bits b) then Some ret
        else scan_words fuel b (i + 1) limit
      else Some (-1)
  end.

Definition bitmap_get_next_zero (b : bitmap) (n : Z) : option Z :=
  let n := if (n <? 0) || (bits b <=? n) then 0 else n in
  let word := Z.shiftr n bitmap_shift in
  let position := Z.land n bitmap_mask in
  w ← word_get b word;
  let idx := get_one_pos_from_word (u32 (Z.lnot w)) position in
  let ret := idx + Z.shiftl word bitmap_shift in
  if (0 <=? idx) && (ret <? bits b) then Some ret
  else
    ret ← scan_words (Z.to_nat (words b)) b (word + 1) (words b);
    if ret =? -1 then scan_words (Z.to_nat (word + 1)) b 0 (word + 1)
    else Some ret.

Definition bitmap_allocate (nbits : Z) : bitmap :=
  let nwords := (nbits + bitmap_wordlength - 1) ÷ bitmap_wordlength in
  Bitmap nbits nwords (replicate (Z.to_nat nwords) 0).

(** ** Invariant and abstract view: a bitmap is a set of indices *)

Record wf (b : bitmap) : Prop := {
  wf_bits : 0 < bits b;
  wf_words : 32 * (words b - 1) < bits b <= 32 * words b;
  wf_length : Z.of_nat (length (array b)) = words b;
  wf_word : Forall is_u32 (array b)
}.

Definition bit (b : bitmap) (i : Z) : bool :=
  Z.testbit (default 0 (word_get b (i / 32))) (i mod 32).

Lemma shift5 n : Z.shiftr n bitmap_shift = n / 32.
Proof. by rewrite Z.shiftr_div_pow2. Qed.
Lemma mask5 n : Z.land n bitmap_mask = n mod 32.
Proof. unfold bitmap_mask. change 31 with (Z.ones 5). by rewrite Z.land_ones. Qed.

Lemma word_get_wf b i : wf b -> 0 <= i < words b ->
  exists w, word_get b i = Some w /\ is_u32 w.
Proof.
  intros W Hi. unfold word_get. rewrite (proj2 (Z.leb_le 0 i)) by lia.
  destruct (lookup_lt_is_Some_2 (array b) (Z.to_nat i)) as [w Hw].
  { pose proof (wf_length b W). lia. }
  exists w. split; [done|]. pose proof (wf_word b W) as F.
  rewrite Forall_lookup in F. by eapply F.
Qed.

Lemma word_of_index b i : wf b -> 0 <= i < bits b -> 0 <= i / 32 < words b.
Proof. intros W Hi. pose proof (wf_words b W). ulia. Qed.

Lemma u32_testbit z i : 0 <= i -> Z.testbit (u32 z) i = (i <? 32) && Z.testbit z i.
Proof.
  intros Hi. unfold u32. destruct (Z.ltb_spec i 32).
  - by rewrite Z.mod_pow2_bits_low.
  - by rewrite Z.mod_pow2_bits_high by lia.
Qed.

Lemma u32_above w i : is_u32 w -> 32 <= i -> Z.testbit w i = false.
Proof.
  intros Hw Hi. rewrite <- (u32_id w Hw). rewrite u32_testbit by lia.
  by destruct (Z.ltb_spec i 32); [lia|].
Qed.

(** *** The first one bit of a word *)

Lemma get_one_pos_loop_spec fuel w s :
  0 <= w < 2 ^ Z.of_nat fuel ->
  let r := get_one_pos_loop (S fuel) w s in
  (r = -1 /\ w = 0) \/
  (s <= r /\ Z.testbit w (r - s) = true /\
   forall j, 0 <= j < r - s -> Z.testbit w j = false).
Proof.
  revert w s. induction fuel as [|fuel IH]; intros w s Hw.
  - left. assert (w = 0) as -> by (simpl in Hw; lia). done.
  - remember (S fuel) as n. cbn [get_one_pos_loop].
    destruct (Z.ltb_spec 0 w); [|left; split; [done|lia]].
    rewrite (Z.land_ones w 1 ltac:(lia) : Z.land w 1 = w mod 2), Zmod_odd. right.
    destruct (Z.odd w) eqn:Eodd; simpl (if _ =? 0 then _ else _).
    + rewrite Z.sub_diag, Z.bit0_odd. split_and!; [lia|done|lia].
    + assert (Z.shiftr w 1 = w / 2) as Esh by by rewrite Z.shiftr_div_pow2.
      assert (w mod 2 = 0) as Emod by (by rewrite Zmod_odd, Eodd).
      assert (0 <= Z.shiftr w 1 < 2 ^ Z.of_nat fuel) as Hw'.
      { rewrite Esh. subst n. rewrite Nat2Z.inj_succ, Z.pow_succ_r in Hw by lia. ulia. }
      destruct (IH (Z.shiftr w 1) (s + 1) Hw') as [[_ E0]|(Hr & Hb & Hz)].
      { rewrite Esh in E0. ulia. }
      subst n. set (r := get_one_pos_loop _ _ _) in *.
      split_and!; [lia| |].
      * rewrite Z.shiftr_spec in Hb by lia. by replace (r - s) with (r - (s + 1) + 1) by lia.
      * intros j Hj. destruct (decide (j = 0)) as [->|]; [by rewrite Z.bit0_odd|].
        specialize (Hz (j - 1)). rewrite Z.shiftr_spec in Hz by lia.
        replace (j - 1 + 1) with j in Hz by lia. apply Hz. lia.
Qed.

(** [get_one_pos_from_word w start] is the first one bit of [w] at or above
    [start], or -1. *)
Lemma get_one_pos_spec w start :
  is_u32 w -> 0 <= start ->
  let r := get_one_pos_from_word w start in
  (r = -1 /\ forall j, start <= j -> Z.testbit w j = false) \/
  (start <= r < 32 /\ Z.testbit w r = true /\
   forall j, start <= j < r -> Z.testbit w j = false).
Proof.
  intros Hw Hs. unfold get_one_pos_from_word.
  assert (0 <= Z.shiftr w start < 2 ^ Z.of_nat 32) as Hb.
  { rewrite Z.shiftr_div_pow2 by lia. unfold is_u32 in Hw.
    pose proof (Z.pow_pos_nonneg 2 start). split; [apply Z.div_pos; lia|].
    change (Z.of_nat 32) with 32. apply Z.div_lt_upper_bound; [lia|]. nia. }
  destruct (get_one_pos_loop_spec 32 _ start Hb) as [[-> E]|(Hr & Ht & Hz)].
  - left. split; [done|]. intros j Hj.
    replace j with (j - start + start) by lia.
    by rewrite <- Z.shiftr_spec, E, Z.bits_0 by lia.
  - right. set (r := get_one_pos_loop _ _ _) in *.
    rewrite Z.shiftr_spec in Ht by lia. replace (r - start + start) with r in Ht by lia.
    split_and!; [lia| |done|].
    + destruct (Z.lt_ge_cases r 32); [done|]. by rewrite u32_above in Ht.
    + intros j Hj. replace j with (j - start + start) by lia.
      rewrite <- Z.shiftr_spec by lia. apply Hz. lia.
Qed.

(** *** Zero bits, word by word *)

(** [first_zero b lo hi r]: [r] is the first clear bit of [lo, hi). *)
Definition all_set (b : bitmap) (lo hi : Z) : Prop := forall j, lo <= j < hi -> bit b j = true.
Definition first_zero (b : bitmap) (lo hi r : Z) : Prop :=
  lo <= r < hi /\ bit b r = false /\ all_set b lo r.

Lemma all_set_split b lo mid hi : all_set b lo mid -> all_set b mid hi -> all_set b lo hi.
Proof. intros H1 H2 j Hj. destruct (Z.lt_ge_cases j mid); [apply H1|apply H2]; lia. Qed.

Lemma bit_word b k w j : 0 <= j < 32 -> word_get b k = Some w ->
  bit b (32 * k + j) = Z.testbit w j.
Proof.
  intros Hj Hw. unfold bit.
  replace ((32 * k + j) / 32) with k by ulia. replace ((32 * k + j) mod 32) with j by ulia.
  by rewrite Hw.
Qed.

(** The search of one word from position [p], as the source does it. *)
Lemma word_zero_spec b k w p :
  wf b -> word_get b k = Some w -> is_u32 w -> 0 <= k -> 0 <= p < 32 ->
  let idx := get_one_pos_from_word (u32 (Z.lnot w)) p in
  let ret := idx + 32 * k in
  ((0 <=? idx) && (ret <? bits b) = true /\
     first_zero b (32 * k + p) (Z.min (32 * k + 32) (bits b)) ret) \/
  ((0 <=? idx) && (ret <? bits b) = false /\
     all_set b (32 * k + p) (Z.min (32 * k + 32) (bits b))).
Proof.
  intros W Hw Hu Hk Hp idx ret.
  assert (Hbit : forall j, 0 <= j < 32 ->
            Z.testbit (u32 (Z.lnot w)) j = negb (bit b (32 * k + j))).
  { intros j Hj. rewrite (bit_word b k w j) by done.
    rewrite u32_testbit by lia. rewrite (proj2 (Z.ltb_lt j 32)) by lia.
    by rewrite Z.lnot_spec by lia. }
  destruct (get_one_pos_spec (u32 (Z.lnot w)) p ltac:(auto with dp) ltac:(lia))
    as [[E Hnone]|(Hr & Ht & Hz)]; fold idx in E || fold idx in Hr, Ht, Hz.
  - right. rewrite E. split; [done|]. intros j Hj.
    specialize (Hnone (j - 32 * k) ltac:(lia)). rewrite Hbit in Hnone by lia.
    replace (32 * k + (j - 32 * k)) with j in Hnone by lia. by destruct (bit b j).
  - assert (Hset : all_set b (32 * k + p) ret).
    { intros j Hj. specialize (Hz (j - 32 * k) ltac:(lia)). rewrite Hbit in Hz by lia.
      replace (32 * k + (j - 32 * k)) with j in Hz by lia. by destruct (bit b j). }
    rewrite Hbit in Ht by lia. apply negb_true_iff in Ht.
    replace (32 * k + idx) with ret in Ht by lia.
    rewrite (proj2 (Z.leb_le 0 idx)) by lia. simpl.
    destruct (Z.ltb_spec ret (bits b)) as [Hlt|Hge].
    + left. split; [done|]. split_and!; [lia|lia|done|done].
    + right. split; [done|]. intros j Hj. apply Hset. lia.
Qed.

(** *** The word loops *)

Lemma scan_words_spec fuel b i limit :
  wf b -> 0 <= i -> limit <= words b -> limit - i <= Z.of_nat fuel ->
  exists r, scan_words fuel b i limit = Some r /\
    ((r = -1 /\ all_set b (32 * i) (Z.min (32 * limit) (bits b))) \/
     first_zero b (32 * i) (Z.min (32 * limit) (bits b)) r).
Proof.
  intros W. revert i. induction fuel as [|fuel IH]; intros i Hi Hl Hf; simpl.
  { exists (-1). split; [done|]. left. split; [done|]. intros j Hj. lia. }
  destruct (Z.ltb_spec i limit) as [Hlt|Hge].
  2:{ exists (-1). split; [done|]. left. split; [done|]. intros j Hj. lia. }
  destruct (word_get_wf b i W ltac:(lia)) as (w & Hw & Hu). rewrite Hw. simpl.
  rewrite Z.shiftl_mul_pow2, Z.mul_comm by (unfold bitmap_shift; lia).
  change (2 ^ bitmap_shift) with 32.
  pose proof (word_zero_spec b i w 0 W Hw Hu ltac:(lia) ltac:(lia)) as Hz.
  set (tmp := u32 (Z.lnot w)) in *. set (idx := get_one_pos_from_word tmp 0) in *.
  rewrite Z.add_0_r in Hz.
  destruct Hz as [[Hc Hfz]|[Hc Hall]].
  - apply andb_true_iff in Hc as [Hidx Hret].
    assert ((tmp =? 0) = false) as ->.
    { apply Z.eqb_neq. intros E. unfold idx in Hidx. rewrite E in Hidx. done. }
    rewrite Hret. simpl. eexists. split; [done|]. right.
    destruct Hfz as (? & ? & ?). split_and!; [lia|lia|done|done].
  - assert (negb (tmp =? 0) && (idx + 32 * i <? bits b) = false) as ->.
    { destruct (Z.eqb_spec tmp 0) as [E|E]; [done|]. simpl.
      apply andb_false_iff in Hc as [Hidx|]; [|done].
      destruct (get_one_pos_spec tmp 0 ltac:(unfold tmp; auto with dp) ltac:(lia))
        as [[E1 Hnone]|(Hr & _)]; fold idx in E1 || fold idx in Hr.
      - exfalso. apply E. apply Z.bits_inj'. intros n Hn. rewrite Z.bits_0. by apply Hnone.
      - apply Z.leb_gt in Hidx. lia. }
    destruct (IH (i + 1) ltac:(lia) Hl ltac:(lia)) as (r & -> & Hr).
    exists r. split; [done|]. replace (32 * (i + 1)) with (32 * i + 32) in Hr by lia.
    assert (Hjoin : forall hi, all_set b (32 * i + 32) hi -> hi <= bits b ->
                               all_set b (32 * i) hi).
    { intros hi Hs Hhi j Hj. destruct (Z.lt_ge_cases j (32 * i + 32)).
      - apply Hall. lia.
      - apply Hs. lia. }
    destruct Hr as [[-> Hr]|(Hr & Hb & Hs)].
    + left. split; [done|]. apply Hjoin; [done|lia].
    + right. split_and!; [lia|lia|done|]. apply Hjoin; [done|lia].
Qed.

Lemma next_zero_sound (b : bitmap) (n : Z) :
  wf b ->
  let n0 := if (n <? 0) || (bits b <=? n) then 0 else n in
  exists r, bitmap_get_next_zero b n = Some r /\
    ((r = -1 /\ all_set b 0 (bits b)) \/
     first_zero b n0 (bits b) r \/
     (all_set b n0 (bits b) /\ first_zero b 0 n0 r)).
Proof.
  intros W n0.
  assert (Hn0 : 0 <= n0 < bits b).
  { unfold n0. pose proof (wf_bits b W). destruct (Z.ltb_spec n 0), (Z.leb_spec (bits b) n);
      simpl; lia. }
  unfold bitmap_get_next_zero. fold n0. rewrite shift5, mask5.
  pose proof (word_of_index b n0 W Hn0) as Hk. pose proof (wf_words b W) as Hwords.
  set (k := n0 / 32) in *. set (p := n0 mod 32).
  assert (Hp : 0 <= p < 32) by (apply Z.mod_pos_bound; lia).
  assert (En0 : 32 * k + p = n0) by (unfold k, p; pose proof (Z.div_mod n0 32); lia).
  destruct (word_get_wf b k W Hk) as (w & Hw & Hu). rewrite Hw. simpl.
  rewrite Z.shiftl_mul_pow2, Z.mul_comm by (unfold bitmap_shift; lia).
  change (2 ^ bitmap_shift) with 32.
  destruct (word_zero_spec b k w p W Hw Hu ltac:(lia) Hp) as [[-> Hf]|[-> Hall]].
  { eexists. split; [done|]. right. left. rewrite En0 in Hf.
    destruct Hf as (? & ? & ?). split_and!; [lia|lia|done|done]. }
  rewrite En0 in Hall.
  destruct (scan_words_spec (Z.to_nat (words b)) b (k + 1) (words b) W)
    as (r & -> & Hr); [lia|lia|lia|]. simpl.
  assert (Hjoin : forall hi, all_set b (32 * (k + 1)) hi -> hi <= bits b -> all_set b n0 hi).
  { intros hi Hs Hhi j Hj. destruct (Z.lt_ge_cases j (32 * (k + 1))).
    - apply Hall. lia.
    - apply Hs. lia. }
  destruct Hr as [[-> Hr]|(Hr & Hb & Hs)]; simpl.
  - destruct (scan_words_spec (Z.to_nat (k + 1)) b 0 (k + 1) W)
      as (r & -> & Hr2); [lia|lia|lia|].
    eexists. split; [done|]. rewrite Z.mul_0_r in Hr2.
    assert (Htail : all_set b n0 (bits b)).
    { apply Hjoin; [|lia]. intros j Hj. apply Hr. lia. }
    destruct Hr2 as [[-> Hr2]|(Hr2 & Hb & Hs)].
    + left. split; [done|]. apply (all_set_split b 0 n0); [|done].
      intros j Hj. apply Hr2. lia.
    + right. right. split; [done|]. split_and!; [lia| |done|done].
      destruct (Z.lt_ge_cases r n0); [done|]. rewrite Htail in Hb by lia. done.
  - rewrite (proj2 (Z.eqb_neq r (-1))) by lia. eexists. split; [done|].
    right. left. split_and!; [lia|lia|done|]. apply Hjoin; [done|lia].
Qed.

(** on a well-formed bitmap [bitmap_get_next_zero] always returns; it
    returns -1 exactly when every bit is set, and otherwise the first clear
    bit at or after the start position [n] (0 when [n] is out of range),
    continuing from bit 0 when there is none up to the end. *)
Theorem bitmap_get_next_zero_spec (b : bitmap) (n : Z) :
  wf b ->
  let n0 := if (n <? 0) || (bits b <=? n) then 0 else n in
  exists r, bitmap_get_next_zero b n = Some r /\
    ((r = -1 /\ all_set b 0 (bits b)) \/
     first_zero b n0 (bits b) r \/
     (all_set b n0 (bits b) /\ first_zero b 0 n0 r)).
Proof. exact (next_zero_sound b n). Qed.

(** *** Single-bit operations *)

Lemma bitmap_upd_spec b n f :
  wf b -> 0 <= n < bits b ->
  (forall w, is_u32 w -> is_u32 (f w)) ->
  exists w b', word_get b (n / 32) = Some w /\
    word_put b (n / 32) (f w) = Some b' /\ wf b' /\ bits b' = bits b /\
    forall i, 0 <= i < bits b ->
      bit b' i = if i / 32 =? n / 32 then Z.testbit (f w) (i mod 32) else bit b i.
Proof.
  intros W Hn Hf. pose proof (word_of_index b n W Hn) as Hk.
  destruct (word_get_wf b _ W Hk) as (w & Hw & Hu). pose proof (wf_length b W) as Hlen.
  exists w. unfold word_put.
  rewrite (proj2 (Z.leb_le 0 _)), (proj2 (Z.ltb_lt (n / 32) _)) by lia.
  eexists. split_and!; [done|done| |done|].
  - destruct W as [W1 W2 W3 W4]. constructor; simpl; [done|done|by rewrite length_insert|].
    apply Forall_insert; auto.
  - intros i Hi. pose proof (word_of_index b i W Hi).
    unfold bit, word_get. simpl. rewrite (proj2 (Z.leb_le 0 (i / 32))) by lia.
    destruct (Z.eqb_spec (i / 32) (n / 32)) as [->|Hne].
    + rewrite list_lookup_insert_eq by lia. done.
    + rewrite list_lookup_insert_ne by lia. done.
Qed.

Lemma same_bit i n : 0 <= n -> (i / 32 =? n / 32) && (i mod 32 =? n mod 32) = (i =? n).
Proof.
  intros Hn. pose proof (Z.div_mod i 32). pose proof (Z.div_mod n 32).
  destruct (Z.eqb_spec (i / 32) (n / 32)), (Z.eqb_spec (i mod 32) (n mod 32)),
    (Z.eqb_spec i n); simpl; try done; subst; lia.
Qed.

Lemma pow2_u32 p : 0 <= p < 32 -> u32 (Z.shiftl 1 p) = 2 ^ p.
Proof.
  intros Hp. rewrite Z.shiftl_mul_pow2, Z.mul_1_l by lia. apply u32_id.
  split; [apply Z.pow_nonneg; lia|]. apply Z.pow_lt_mono_r; lia.
Qed.

Lemma lor_u32 a b : is_u32 a -> is_u32 b -> is_u32 (Z.lor a b).
Proof.
  intros Ha Hb. rewrite <- (u32_id a Ha), <- (u32_id b Hb).
  unfold u32. rewrite <- !Z.land_ones by lia. rewrite <- Z.land_lor_distr_l.
  rewrite Z.land_ones by lia. apply u32_range.
Qed.
Lemma land_u32 a b : is_u32 a -> is_u32 (Z.land a b).
Proof.
  intros Ha. rewrite <- (u32_id a Ha). unfold u32. rewrite <- Z.land_ones by lia.
  rewrite <- Z.land_assoc, (Z.land_comm _ b), Z.land_assoc, Z.land_ones by lia.
  apply u32_range.
Qed.

Lemma set_clear_sound (b : bitmap) (n : Z) :
  wf b -> 0 <= n < bits b ->
  (exists b', bitmap_set b n = Some b' /\ wf b' /\ bits b' = bits b /\
     forall i, 0 <= i < bits b -> bit b' i = (i =? n) || bit b i) /\
  (exists b', bitmap_clear b n = Some b' /\ wf b' /\ bits b' = bits b /\
     forall i, 0 <= i < bits b -> bit b' i = negb (i =? n) && bit b i) /\
  bitmap_is_set b n = Some (Z.b2z (bit b n)).
Proof.
  intros W Hn. unfold bitmap_set, bitmap_clear, bitmap_is_set.
  rewrite shift5, mask5. set (p := n mod 32).
  assert (Hp : 0 <= p < 32) by (apply Z.mod_pos_bound; lia).
  rewrite pow2_u32 by done.
  assert (Hpow : is_u32 (2 ^ p)).
  { rewrite <- pow2_u32 by done. auto with dp. }
  assert (Hm : forall i, 0 <= i mod 32 < 32) by (intros; apply Z.mod_pos_bound; lia).
  split_and!.
  - destruct (bitmap_upd_spec b n (fun w => Z.lor w (2 ^ p)) W Hn)
      as (w & b' & Hw & Hput & W' & Hb & Hbit); [auto using lor_u32|].
    rewrite Hw. exists b'. split_and!; try done. intros i Hi. rewrite Hbit by done.
    rewrite <- (same_bit i n) by lia. fold p. unfold bit.
    rewrite Z.lor_spec, Z.pow2_bits_eqb by lia.
    destruct (Z.eqb_spec (i / 32) (n / 32)) as [->|]; [|done].
    rewrite Hw, (Z.eqb_sym p). simpl. apply orb_comm.
  - destruct (bitmap_upd_spec b n (fun w => Z.land w (u32 (Z.lnot (2 ^ p)))) W Hn)
      as (w & b' & Hw & Hput & W' & Hb & Hbit); [auto using land_u32|].
    rewrite Hw. exists b'. split_and!; try done. intros i Hi. rewrite Hbit by done.
    rewrite <- (same_bit i n) by lia. fold p. unfold bit. specialize (Hm i).
    rewrite Z.land_spec, u32_testbit, Z.lnot_spec, Z.pow2_bits_eqb by lia.
    rewrite (proj2 (Z.ltb_lt (i mod 32) 32)) by lia.
    destruct (Z.eqb_spec (i / 32) (n / 32)) as [->|]; [|done].
    rewrite Hw, (Z.eqb_sym p). simpl. apply andb_comm.
  - destruct (word_get_wf b (n / 32) W (word_of_index b n W Hn)) as (w & Hw & Hu).
    unfold bit. rewrite Hw. simpl. f_equal. fold p.
    rewrite (Z.land_ones _ 1 ltac:(lia) : Z.land (Z.shiftr w p) 1 = Z.shiftr w p mod 2).
    rewrite Z.shiftr_div_pow2 by lia. by rewrite <- Z.testbit_spec' by lia.
Qed.

(** setting (clearing) bit [n] of a well-formed bitmap succeeds, keeps it
    well-formed, makes exactly that bit 1 (0) and leaves every other bit, and
    [bitmap_is_set] reads back the bit. *)
Theorem bitmap_set_clear_spec (b : bitmap) (n : Z) :
  wf b -> 0 <= n < bits b ->
  (exists b', bitmap_set b n = Some b' /\ wf b' /\ bits b' = bits b /\
     forall i, 0 <= i < bits b -> bit b' i = (i =? n) || bit b i) /\
  (exists b', bitmap_clear b n = Some b' /\ wf b' /\ bits b' = bits b /\
     forall i, 0 <= i < bits b -> bit b' i = negb (i =? n) && bit b i) /\
  bitmap_is_set b n = Some (Z.b2z (bit b n)).
Proof. exact (set_clear_sound b n). Qed.

Lemma bitmap_allocate_wf n : 0 < n -> wf (bitmap_allocate n).
Proof.
  intros Hn. unfold bitmap_allocate, bitmap_wordlength.
  assert (Hq : (n + 32 - 1) ÷ 32 = (n + 31) / 32) by (rewrite Z.quot_div_nonneg by lia; f_equal; lia).
  rewrite Hq. constructor; simpl; [done|ulia| |].
  - rewrite length_replicate. ulia.
  - apply Forall_replicate. ulia.
Qed.

Lemma bitmap_allocate_clear n i : 0 <= i -> bit (bitmap_allocate n) i = false.
Proof.
  intros Hi. unfold bit, word_get, bitmap_allocate. simpl.
  rewrite (proj2 (Z.leb_le 0 _)) by (apply Z.div_pos; lia).
  destruct (replicate _ 0 !! _) as [w|] eqn:E; simpl; [|apply Z.bits_0].
  apply lookup_replicate in E as [-> _]. apply Z.bits_0.
Qed.

(** A 40-bit map with bits 0..3 set: from 38 the search finds 38, and after
    setting 38 and 39 it wraps to 4. *)
Definition sample : option bitmap :=
  foldl (fun ob n => b ← ob; bitmap_set b n) (Some (bitmap_allocate 40)) [0; 1; 2; 3].

Lemma bitmap_get_next_zero_witness :
  wf (bitmap_allocate 40) /\
  exists r, bitmap_get_next_zero (bitmap_allocate 40) 38 = Some r /\ r = 38.
Proof.
  assert (W : wf (bitmap_allocate 40)) by (apply bitmap_allocate_wf; lia).
  split; [exact W|].
  destruct (bitmap_get_next_zero_spec (bitmap_allocate 40) 38 W) as (r & Hr & _).
  exists r. split; [exact Hr|]. vm_compute in Hr. injection Hr as <-. reflexivity.
Defined.

Lemma bitmap_set_clear_witness :
  exists b', bitmap_set (bitmap_allocate 40) 39 = Some b' /\ bit b' 39 = true.
Proof.
  destruct (bitmap_set_clear_spec (bitmap_allocate 40) 39) as ((b' & Hs & _ & _ & Hbit) & _).
  - apply bitmap_allocate_wf; lia.
  - simpl; lia.
  - exists b'. split; [exact Hs|]. rewrite Hbit by (simpl; lia). reflexivity.
Defined.

Example next_zero_wraps :
  (b ← sample; b ← bitmap_set b 38; b ← bitmap_set b 39; bitmap_get_next_zero b 38) = Some 4.
Proof. vm_compute. reflexivity. Qed.

End Bitmap.

(** ** bits.h *)

Module Bits.

Definition BITMASK_ARRAY_INDEX (x : Z) : Z := Z.shiftr x 3.
Definition BITMASK_BIT (x : Z) : Z := Z.land x 7.
Definition BITMASK_MASK (x : Z) : Z := Z.shiftl 1 (BITMASK_BIT x).
Definition BITMASK_ARRAY_SIZE (x : Z) : Z := BITMASK_ARRAY_INDEX (x + 7).

(** A mask array; [None] is an access outside it. *)
Definition byte_get (v : list Z) (i : Z) : option Z :=
  if 0 <=? i then v !! Z.to_nat i else None.
Definition byte_put (v : list Z) (i c : Z) : option (list Z) :=
  if (0 <=? i) && (i <? Z.of_nat (length v)) then Some (<[Z.to_nat i := c]> v) else None.

Definition BITMASK_SET (v : list Z) (bit : Z) : option (list Z) :=
  c ← byte_get v (BITMASK_ARRAY_INDEX bit);
  byte_put v (BITMASK_ARRAY_INDEX bit) (u8 (Z.lor c (BITMASK_MASK bit))).
Definition BITMASK_UNSET (v : list Z) (bit : Z) : option (list Z) :=
  c ← byte_get v (BITMASK_ARRAY_INDEX bit);
  byte_put v (BITMASK_ARRAY_INDEX bit) (u8 (Z.land c (Z.lnot (BITMASK_MASK bit)))).
Definition BITMASK_TEST (v : list Z) (bit : Z) : option bool :=
  c ← byte_get v (BITMASK_ARRAY_INDEX bit);
  Some (negb (Z.land c (BITMASK_MASK bit) =? 0)).

Fixpoint any_test_loop (fuel : nat) (v : list Z) (i size : Z) : option bool :=
  match fuel with
  | O => Some false
  | S fuel =>
      if i <? BITMASK_ARRAY_SIZE size then
        c ← byte_get v i;
        if negb (c =? 0) then Some true else any_test_loop fuel v (i + 1) size
      else Some false
  end.
Definition BITMASK_ANY_TEST (v : list Z) (size : Z) : option bool :=
  any_test_loop (Z.to_nat (BITMASK_ARRAY_SIZE size)) v 0 size.

Fixpoint range_test_loop (fuel : nat) (a : list Z) (i max : Z) : option bool :=
  match fuel with
  | O => Some false
  | S fuel =>
      if i <? max then
        t ← BITMASK_TEST a i;
        if t : bool then Some true else range_test_loop fuel a (i + 1) max
      else Some false
  end.
Definition BITMASK_RANGE_TEST (a : list Z) (min max : Z) : option bool :=
  range_test_loop (Z.to_nat (max - min)) a min max.

(** memset over the first BITMASK_ARRAY_SIZE(numbits) bytes. *)
Definition mask_memset (a : list Z) (c numbits : Z) : option (list Z) :=
  let n := Z.to_nat (BITMASK_ARRAY_SIZE numbits) in
  if decide (n <= length a)%nat then Some (replicate n c ++ drop n a) else None.
Definition BITMASK_SET_ALL (a : list Z) (numbits : Z) : option (list Z) :=
  mask_memset a 0xff numbits.
Definition BITMASK_CLEAR_ALL (a : list Z) (numbits : Z) : option (list Z) :=
  mask_memset a 0 numbits.

(** The abstract view: membership of [i]. *)
Definition mask_bit (v : list Z) (i : Z) : bool :=
  Z.testbit (default 0 (byte_get v (i / 8))) (i mod 8).

Lemma index8 x : BITMASK_ARRAY_INDEX x = x / 8.
Proof. unfold BITMASK_ARRAY_INDEX. by rewrite Z.shiftr_div_pow2. Qed.
Lemma bit8 x : BITMASK_BIT x = x mod 8.
Proof. exact (Z.land_ones x 3 ltac:(lia)). Qed.
Lemma mask8 x : BITMASK_MASK x = 2 ^ (x mod 8).
Proof.
  unfold BITMASK_MASK. rewrite bit8, Z.shiftl_mul_pow2; [lia|].
  apply Z.mod_pos_bound; lia.
Qed.

Definition capacity (v : list Z) : Z := 8 * Z.of_nat (length v).

Lemma byte_get_cap v i : 0 <= i < capacity v -> exists c, byte_get v (i / 8) = Some c.
Proof.
  intros Hi. unfold byte_get, capacity in *.
  rewrite (proj2 (Z.leb_le 0 _)) by (apply Z.div_pos; lia).
  apply lookup_lt_is_Some_2. ulia.
Qed.

Lemma mask_test_spec v i : 0 <= i < capacity v -> BITMASK_TEST v i = Some (mask_bit v i).
Proof.
  intros Hi. unfold BITMASK_TEST, mask_bit. rewrite index8, mask8.
  destruct (byte_get_cap v i Hi) as [c ->]. simpl. f_equal.
  pose proof (Z.mod_pos_bound i 8 ltac:(lia)) as Hm.
  destruct (Z.testbit c (i mod 8)) eqn:E.
  - apply negb_true_iff, Z.eqb_neq. intros H0. apply (f_equal (fun z => Z.testbit z (i mod 8))) in H0.
    rewrite Z.land_spec, E, Z.pow2_bits_true, Z.bits_0 in H0 by lia. done.
  - apply negb_false_iff, Z.eqb_eq. apply Z.bits_inj'. intros n Hn.
    rewrite Z.land_spec, Z.pow2_bits_eqb, Z.bits_0 by lia.
    destruct (Z.eqb_spec (i mod 8) n) as [<-|]; [by rewrite E|apply andb_false_r].
Qed.

Lemma u8_testbit z i : 0 <= i < 8 -> Z.testbit (u8 z) i = Z.testbit z i.
Proof. intros Hi. unfold u8. by rewrite Z.mod_pow2_bits_low by lia. Qed.

Lemma mask_upd_spec v n f :
  0 <= n < capacity v ->
  exists c v', byte_get v (n / 8) = Some c /\ byte_put v (n / 8) (f c) = Some v' /\
    length v' = length v /\
    forall i, 0 <= i < capacity v ->
      mask_bit v' i = if i / 8 =? n / 8 then Z.testbit (f c) (i mod 8) else mask_bit v i.
Proof.
  intros Hn. destruct (byte_get_cap v n Hn) as [c Hc]. exists c. unfold byte_put.
  unfold capacity in *.
  rewrite (proj2 (Z.leb_le 0 _)), (proj2 (Z.ltb_lt (n / 8) _)) by ulia.
  eexists. split_and!; [done|done|by rewrite length_insert|].
  intros i Hi. unfold mask_bit, byte_get. rewrite (proj2 (Z.leb_le 0 (i / 8))) by ulia.
  destruct (Z.eqb_spec (i / 8) (n / 8)) as [->|Hne].
  - rewrite list_lookup_insert_eq by ulia. done.
  - rewrite list_lookup_insert_ne by ulia. done.
Qed.

Lemma same_bit8 i n : (i / 8 =? n / 8) && (i mod 8 =? n mod 8) = (i =? n).
Proof.
  pose proof (Z.div_mod i 8). pose proof (Z.div_mod n 8).
  destruct (Z.eqb_spec (i / 8) (n / 8)), (Z.eqb_spec (i mod 8) (n mod 8)),
    (Z.eqb_spec i n); simpl; try done; subst; lia.
Qed.

Lemma mask_set_spec v n :
  0 <= n < capacity v ->
  exists v', BITMASK_SET v n = Some v' /\ length v' = length v /\
    forall i, 0 <= i < capacity v -> mask_bit v' i = (i =? n) || mask_bit v i.
Proof.
  intros Hn. unfold BITMASK_SET. rewrite index8, mask8.
  destruct (mask_upd_spec v n (fun c => u8 (Z.lor c (2 ^ (n mod 8)))) Hn)
    as (c & v' & Hc & Hp & Hl & Hb).
  rewrite Hc. exists v'. split_and!; [done|done|]. intros i Hi. rewrite Hb by done.
  rewrite <- (same_bit8 i n). pose proof (Z.mod_pos_bound i 8 ltac:(lia)).
  pose proof (Z.mod_pos_bound n 8 ltac:(lia)).
  rewrite u8_testbit, Z.lor_spec, Z.pow2_bits_eqb by lia. unfold mask_bit.
  destruct (Z.eqb_spec (i / 8) (n / 8)) as [->|]; [|done].
  rewrite Hc, (Z.eqb_sym (n mod 8)). apply orb_comm.
Qed.

Lemma mask_unset_spec v n :
  0 <= n < capacity v ->
  exists v', BITMASK_UNSET v n = Some v' /\ length v' = length v /\
    forall i, 0 <= i < capacity v -> mask_bit v' i = negb (i =? n) && mask_bit v i.
Proof.
  intros Hn. unfold BITMASK_UNSET. rewrite index8, mask8.
  destruct (mask_upd_spec v n (fun c => u8 (Z.land c (Z.lnot (2 ^ (n mod 8))))) Hn)
    as (c & v' & Hc & Hp & Hl & Hb).
  rewrite Hc. exists v'. split_and!; [done|done|]. intros i Hi. rewrite Hb by done.
  rewrite <- (same_bit8 i n). pose proof (Z.mod_pos_bound i 8 ltac:(lia)).
  pose proof (Z.mod_pos_bound n 8 ltac:(lia)).
  rewrite u8_testbit, Z.land_spec, Z.lnot_spec, Z.pow2_bits_eqb by lia. unfold mask_bit.
  destruct (Z.eqb_spec (i / 8) (n / 8)) as [->|]; [|done].
  rewrite Hc, (Z.eqb_sym (n mod 8)). apply andb_comm.
Qed.

End Bits.
