(* ===== verification/TimerQueue.v ===== *)
(** * utils/timer_queue.c: a FIFO of nodes that expire after a fixed idle time

    The circular list is the [list] of its nodes from head to tail; a node is
    identified by its address.  The [remove] callback is recorded as the list of
    nodes it was called on, in order. *)

From S2P Require Import Prelude.

Module TimerQueue.

Record timer_node := Node { addr : Z; last : Z }.
Record timer_queue := Queue { head : list timer_node; count : Z; timeout : Z }.
#[export] Instance eta_node : Eta timer_node := fun n => Node (addr n) (last n).
#[export] Instance eta_queue : Eta timer_queue := fun q => Queue (head q) (count q) (timeout q).

(** cds_list_del and cds_list_add_tail *)
Definition list_del (n : timer_node) (l : list timer_node) : list timer_node :=
  List.filter (fun m => negb (addr m =? addr n)) l.
Definition list_add_tail (n : timer_node) (l : list timer_node) : list timer_node := l ++ [n].

Definition timer_queue_init (tmo : Z) : timer_queue := Queue [] 0 tmo.

Definition timer_queue_touch (q : timer_queue) (n : timer_node) (now : Z) : timer_queue :=
  let n := n <| last := now |> in
  q <| head ::= list_del n |> <| head ::= list_add_tail n |>.

Definition timer_queue_remove (q : timer_queue) (n : timer_node) : timer_queue :=
  q <| head ::= list_del n |> <| count ::= fun c => u32 (c - 1) |>.

Definition timer_queue_append (q : timer_queue) (n : timer_node) (now : Z) : timer_queue :=
  let n := n <| last := now |> in
  q <| head ::= list_add_tail n |> <| count ::= fun c => u32 (c + 1) |>.

(** The safe iteration of timer_queue_trim.  Every node before the cursor has
    been unlinked or moved to the tail, so the cursor is always the first node of
    the list; [next] is read before the body runs, so the walk also stops when
    the node just moved to the tail was the only one.  [None]: out of fuel. *)
Fixpoint trim_loop (fuel : nat) (q : timer_queue) (now cnt : Z) (removed : list timer_node)
    : option (timer_queue * Z * list timer_node) :=
  match fuel with
  | O => None
  | S fuel =>
      match head q with
      | [] => Some (q, cnt, removed)
      | itr :: rest =>
          if now <? last itr then
            let q := timer_queue_touch q itr now in
            match rest with
            | [] => Some (q, cnt, removed)
            | _ => trim_loop fuel q now cnt removed
            end
          else if now <? u32 (last itr + timeout q) then Some (q, cnt, removed)
          else trim_loop fuel (timer_queue_remove q itr) now (u32 (cnt + 1)) (removed ++ [itr])
      end
  end.
Definition timer_queue_trim (q : timer_queue) (now : Z)
    : option (timer_queue * Z * list timer_node) :=
  trim_loop (2 * length (head q) + 1) q now 0 [].

Fixpoint purge_loop (nodes : list timer_node) (q : timer_queue) (cnt : Z)
    (removed : list timer_node) : timer_queue * Z * list timer_node :=
  match nodes with
  | [] => (q, cnt, removed)
  | itr :: nodes =>
      purge_loop nodes (timer_queue_remove q itr) (u32 (cnt + 1)) (removed ++ [itr])
  end.
Definition timer_queue_purge (q : timer_queue) : timer_queue * Z * list timer_node :=
  purge_loop (head q) q 0 [].

(** ** Invariant *)

Record wf (q : timer_queue) : Prop := {
  wf_nodup : NoDup (addr <$> head q);
  wf_count : count q = Z.of_nat (length (head q));
  wf_small : Z.of_nat (length (head q)) < 2 ^ 32
}.

Lemma list_del_notin n l : addr n ∉ (addr <$> l) -> list_del n l = l.
Proof.
  induction l as [|m l IH]; simpl; [done|]. rewrite not_elem_of_cons. intros [H1 H2].
  rewrite (proj2 (Z.eqb_neq _ _)) by congruence. simpl. by rewrite IH.
Qed.

Lemma list_del_head n m l : addr m = addr n -> NoDup (addr <$> m :: l) -> list_del n (m :: l) = l.
Proof.
  intros E. simpl. rewrite NoDup_cons. intros [H1 H2].
  rewrite (proj2 (Z.eqb_eq _ _)) by done. simpl. apply list_del_notin. by rewrite <- E.
Qed.

Lemma touch_head q n rest now : head q = n :: rest -> NoDup (addr <$> head q) ->
  timer_queue_touch q n now = q <| head := rest ++ [n <| last := now |>] |>.
Proof.
  intros E N. unfold timer_queue_touch, list_add_tail. simpl. rewrite E in *.
  by rewrite (list_del_head (Node (addr n) now) n rest).
Qed.

Lemma remove_head q n rest : head q = n :: rest -> NoDup (addr <$> head q) ->
  timer_queue_remove q n = q <| head := rest |> <| count ::= fun c => u32 (c - 1) |>.
Proof.
  intros E N. unfold timer_queue_remove. simpl. rewrite E in *. by rewrite list_del_head.
Qed.

Lemma remove_head_wf q n rest : head q = n :: rest -> wf q -> wf (timer_queue_remove q n).
Proof.
  intros E [N C S]. rewrite (remove_head q n rest) by done. rewrite E in *.
  apply NoDup_cons in N as [_ N]. simpl in *.
  constructor; simpl; [done| |lia]. rewrite C, u32_id by (unfold is_u32; lia). lia.
Qed.

Lemma touch_head_wf q n rest now : head q = n :: rest -> wf q -> wf (timer_queue_touch q n now).
Proof.
  intros E [N C S]. rewrite (touch_head q n rest) by done. rewrite E in *.
  constructor; simpl.
  - rewrite fmap_app. simpl. apply NoDup_cons in N as [Hn N]. apply NoDup_app.
    split_and!; [done| |apply NoDup_singleton].
    intros x Hx ->%list_elem_of_singleton. done.
  - rewrite C, length_app. simpl. lia.
  - rewrite length_app. simpl in *. lia.
Qed.

(** The nodes the walk may still have to move: those stamped in the future. *)
Definition future (now : Z) (l : list timer_node) : nat :=
  length (List.filter (fun n => now <? last n) l).

Lemma future_app now l k : future now (l ++ k) = (future now l + future now k)%nat.
Proof. unfold future. by rewrite List.filter_app, length_app. Qed.

Lemma future_le now l : (future now l <= length l)%nat.
Proof. unfold future. apply List.filter_length_le. Qed.

Lemma trim_loop_total fuel q now cnt removed :
  wf q -> (length (head q) + future now (head q) < fuel)%nat ->
  exists q' cnt' removed', trim_loop fuel q now cnt removed = Some (q', cnt', removed') /\ wf q'.
Proof.
  revert q cnt removed. induction fuel as [|fuel IH]; intros q cnt removed W Hf; [lia|].
  simpl. destruct (head q) as [|itr rest] eqn:E; [by do 3 eexists|].
  destruct (Z.ltb_spec now (last itr)) as [Hlt|Hge].
  - pose proof (touch_head_wf q itr rest now E W) as W'.
    destruct rest as [|r rest]; [by do 3 eexists|].
    apply IH; [done|].
    assert (head (timer_queue_touch q itr now) = (r :: rest) ++ [Node (addr itr) now]) as ->
      by (rewrite (touch_head q itr (r :: rest)) by (done || apply W); done).
    rewrite future_app, length_app. unfold future in *. simpl in Hf |- *.
    rewrite (proj2 (Z.ltb_lt now (last itr))) in Hf by done. rewrite Z.ltb_irrefl.
    simpl in *. lia.
  - destruct (now <? u32 (last itr + timeout q)); [by do 3 eexists|].
    apply IH; [by eapply remove_head_wf|].
    assert (head (timer_queue_remove q itr) = rest) as ->
      by (rewrite (remove_head q itr rest) by (done || apply W); done).
    unfold future in *. simpl in Hf |- *.
    rewrite (proj2 (Z.ltb_ge now (last itr))) in Hf by done. simpl in Hf. lia.
Qed.

(** [timer_queue_trim] always terminates, whatever the stamps of the nodes
    (also after the clock went backwards), and keeps the list duplicate-free
    with [count] its length. *)
Theorem timer_queue_trim_total (q : timer_queue) (now : Z) :
  wf q ->
  exists q' cnt removed, timer_queue_trim q now = Some (q', cnt, removed) /\ wf q'.
Proof.
  intros W. apply trim_loop_total; [done|].
  pose proof (future_le now (head q)). lia.
Qed.

(** ** Expiry in order *)

Definition expired (tmo now : Z) (n : timer_node) : Prop := last n + tmo <= now.
#[export] Instance expired_dec tmo now n : Decision (expired tmo now n) :=
  Z.le_dec _ _.

Lemma trim_loop_monotone fuel q now cnt removed dead live :
  wf q -> head q = dead ++ live ->
  Forall (fun n => 0 <= last n <= now /\ last n + timeout q < 2 ^ 32) (head q) ->
  Forall (expired (timeout q) now) dead ->
  (forall n, list.head live = Some n -> ~ expired (timeout q) now n) ->
  0 <= timeout q -> 0 <= cnt -> cnt + Z.of_nat (length dead) < 2 ^ 32 ->
  (length dead < fuel)%nat ->
  trim_loop fuel q now cnt removed =
  Some (q <| head := live |> <| count := Z.of_nat (length live) |>,
        cnt + Z.of_nat (length dead), removed ++ dead).
Proof.
  revert fuel q cnt removed. induction dead as [|d dead IH];
    intros fuel q cnt removed W Hh Hb Hd Hl Ht Hc Hc2 Hf;
    (destruct fuel as [|fuel]; [simpl in Hf; lia|]); cbn [trim_loop]; rewrite Hh; simpl app.
  - pose proof (wf_count q W) as Hcnt. rewrite Hh in Hcnt, Hb. simpl in Hcnt, Hb.
    assert (Eq : q <| head := live |> <| count := Z.of_nat (length live) |> = q).
    { destruct q; simpl in *. by subst. }
    rewrite Eq, app_nil_r, Z.add_0_r.
    destruct live as [|n live]; [done|].
    apply Forall_cons in Hb as [Hn _]. specialize (Hl n eq_refl). unfold expired in Hl.
    rewrite (proj2 (Z.ltb_ge now (last n))), u32_id by (unfold is_u32; lia).
    by rewrite (proj2 (Z.ltb_lt now _)) by lia.
  - apply Forall_cons in Hd as [Hd1 Hd]. rewrite Hh in Hb. simpl in Hb.
    apply Forall_cons in Hb as [Hn Hb]. unfold expired in Hd1.
    rewrite (proj2 (Z.ltb_ge now (last d))), u32_id by (unfold is_u32; lia).
    rewrite (proj2 (Z.ltb_ge now _)) by lia.
    pose proof (remove_head_wf q d (dead ++ live) Hh W) as W'.
    pose proof (wf_nodup q W) as N.
    rewrite (remove_head q d (dead ++ live) Hh N) in W' |- *.
    simpl in Hc2, Hf. rewrite IH; simpl; try done; try lia.
    + do 2 f_equal.
      * rewrite u32_id by (unfold is_u32; lia). f_equal. lia.
      * by rewrite <- app_assoc.
    + rewrite u32_id by (unfold is_u32; lia). lia.
    + rewrite u32_id by (unfold is_u32; lia). lia.
Qed.

(** when no stamp is ahead of the clock and the queue is in stamp order (as
    append and touch at the current time keep it), [timer_queue_trim] hands
    exactly the expired nodes to the callback, oldest first, keeps exactly the
    others in order, and returns how many it removed. *)
Theorem timer_queue_trim_expires (q : timer_queue) (now : Z) :
  wf q -> 0 <= timeout q ->
  Forall (fun n => 0 <= last n <= now /\ last n + timeout q < 2 ^ 32) (head q) ->
  Sorted (fun n m => last n <= last m) (head q) ->
  let dead := filter (expired (timeout q) now) (head q) in
  let live := filter (fun n => ~ expired (timeout q) now n) (head q) in
  timer_queue_trim q now =
  Some (q <| head := live |> <| count := Z.of_nat (length live) |>,
        Z.of_nat (length dead), dead).
Proof.
  intros W Ht Hb Hs dead live.
  assert (Hsplit : head q = dead ++ live).
  { unfold dead, live. clear W Hb dead live.
    apply Sorted_StronglySorted in Hs; [|intros ???; lia].
    induction Hs as [|n l Hs IH Hle]; [done|].
    destruct (decide (expired (timeout q) now n)) as [He|He].
    - rewrite filter_cons_True, filter_cons_False by auto. simpl. by rewrite <- IH.
    - rewrite filter_cons_False, filter_cons_True by auto.
      assert (Hn : Forall (fun m => ~ expired (timeout q) now m) l).
      { eapply Forall_impl; [exact Hle|]. unfold expired in *. simpl. lia. }
      by rewrite filter_none, filter_all by done. }
  assert (Hlen : (length dead <= length (head q))%nat) by apply length_filter.
  pose proof (wf_small q W).
  unfold timer_queue_trim. rewrite (trim_loop_monotone _ q now 0 [] dead live); try done; try lia.
  - apply Forall_forall. intros n [? _]%list_elem_of_filter. done.
  - intros n Hn. assert (n ∈ live) as [? _]%list_elem_of_filter by by apply head_Some_elem_of.
    done.
Qed.

(** A queue with timeout 10 holding nodes stamped 0, 3 and 9: at time 14 the
    first two have expired. *)
Definition sample : timer_queue := Queue [Node 1 0; Node 2 3; Node 3 9] 3 10.

Lemma sample_wf : wf sample.
Proof.
  constructor; simpl; [|done|lia]. apply (bool_decide_unpack _). by vm_compute.
Qed.

(** Stamps ahead of the clock: node 1 is re-stamped and moved behind node 2. *)
Definition sample_back : timer_queue := Queue [Node 1 5; Node 2 0] 2 10.

Lemma timer_queue_trim_total_witness :
  wf sample_back /\
  exists q' cnt removed, timer_queue_trim sample_back 1 = Some (q', cnt, removed) /\
    head q' = [Node 2 0; Node 1 1].
Proof.
  assert (W : wf sample_back).
  { constructor; simpl; [|done|lia]. apply (bool_decide_unpack _). by vm_compute. }
  split; [exact W|].
  destruct (timer_queue_trim_total sample_back 1 W) as (q' & cnt & removed & E & _).
  exists q', cnt, removed. split; [exact E|]. vm_compute in E. injection E as <- _ _. reflexivity.
Defined.

Lemma timer_queue_trim_expires_witness :
  timer_queue_trim sample 14 =
  Some (Queue [Node 3 9] 1 10, 2, [Node 1 0; Node 2 3]).
Proof.
  rewrite (timer_queue_trim_expires sample 14 sample_wf).
  - vm_compute. reflexivity.
  - simpl; lia.
  - simpl. repeat constructor; simpl; lia.
  - simpl. repeat constructor; simpl; lia.
Defined.

End TimerQueue.
