(* ===== verification/TimerWheel.v ===== *)
(** * utils/timer_wheel.c: the timer wheel of a dp thread

    Every session, meter, fragment track and cache entry of a thread hangs on one
    wheel of [MAX_TIMER_SLOTS] one-second slots.  An entry is embedded in the
    object it times; here it is named by a value of type [E] and its fields are
    kept in [entries].  A callback is a value of type [CB] and what it does to the
    thread is given by the [TimerWorld] interface: callbacks run in the middle of
    [timer_wheel_roll] and may change the wheel.

    The specification of the wheel is a map of absolute deadlines, related to it
    by [inv]: insertion adds a deadline, rolling to [now] runs the callbacks of
    the entries whose deadline has passed, and of no others. *)

From S2P Require Import Prelude.

Module TimerWheel.

Definition MAX_TIMER_SLOTS : Z := 3600.

Record timer_entry {CB : Type} := Entry {
  callback : option CB;      (** NULL when not on the wheel *)
  expire_slot : Z;           (** uint16_t *)
  timeout : Z                (** uint16_t *)
}.
Arguments timer_entry CB : clear implicits.
Arguments Entry {CB} _ _ _.
#[export] Instance eta_entry CB : Eta (timer_entry CB) :=
  fun n => Entry (callback n) (expire_slot n) (timeout n).

(** The wheel and the entries it can hold.  A slot that is absent from [slots] is
    an empty list. *)
Record timer_wheel {E CB : Type} `{Countable E} := Wheel {
  slots : gmap Z (list E);
  count : Z;
  current : Z;
  entries : gmap E (timer_entry CB)
}.
Arguments timer_wheel E CB {_ _}.
Arguments Wheel {E CB _ _} _ _ _ _.
#[export] Instance eta_wheel E CB `{Countable E} : Eta (timer_wheel E CB) :=
  fun w => Wheel (slots w) (count w) (current w) (entries w).

Section wheel.
Context {E CB : Type} `{Countable E}.
Implicit Types (w : timer_wheel E CB) (n : E) (now : Z).

Definition entry_zero : timer_entry CB := Entry None 0 0.
Definition entry w n : timer_entry CB := default entry_zero (entries w !! n).
Definition entry_upd (f : timer_entry CB -> timer_entry CB) n w : timer_wheel E CB :=
  w <| entries ::= <[n := f (entry w n)]> |>.

Definition slot w (k : Z) : list E := default [] (slots w !! k).

(** cds_list_add_tail(&n->link, &w->slots[k]) and cds_list_del(&n->link) *)
Definition link_tail (k : Z) n w : timer_wheel E CB :=
  w <| slots ::= <[k := slot w k ++ [n]]> |>.
Definition unlink n w : timer_wheel E CB :=
  w <| slots ::= fmap (filter (fun m => m <> n)) |>.

Definition timer_wheel_init w : timer_wheel E CB :=
  w <| slots := ∅ |> <| current := 0 |> <| count := 0 |>.

Definition timer_wheel_start w now : timer_wheel E CB := w <| current := now |>.
Definition timer_wheel_started w : bool := 0 <? current w.

Definition timer_wheel_entry_init w n : timer_wheel E CB :=
  entry_upd (fun e => e <| expire_slot := u16 (-1) |> <| callback := None |>) n w.

Definition timer_wheel_entry_insert w n now : timer_wheel E CB :=
  let expire_at := u32 (now + timeout (entry w n)) in
  let k := u16 (expire_at mod MAX_TIMER_SLOTS) in
  let w := entry_upd (fun e => e <| expire_slot := k |>) n w in
  (link_tail k n w) <| count ::= fun c => u32 (c + 1) |>.

Definition timer_wheel_entry_remove w n : timer_wheel E CB :=
  let w := (unlink n w) <| count ::= fun c => u32 (c - 1) |> in
  entry_upd (fun e => e <| callback := None |>) n w.

Definition timer_wheel_entry_refresh w n now : timer_wheel E CB :=
  let fn := callback (entry w n) in
  let w := timer_wheel_entry_remove w n in
  let w := entry_upd (fun e => e <| callback := fn |>) n w in
  timer_wheel_entry_insert w n now.

Definition timer_wheel_entry_start w n (cb : CB) (tmo now : Z) : timer_wheel E CB :=
  let tmo := if MAX_TIMER_SLOTS <=? tmo then 0 else tmo in
  let w := entry_upd (fun e => e <| callback := Some cb |> <| timeout := tmo |>) n w in
  timer_wheel_entry_insert w n now.

Definition timer_wheel_entry_set_callback w n (cb : CB) : timer_wheel E CB :=
  entry_upd (fun e => e <| callback := Some cb |>) n w.

Definition timer_wheel_entry_set_timeout w n (tmo : Z) : timer_wheel E CB :=
  if MAX_TIMER_SLOTS <=? tmo then w else entry_upd (fun e => e <| timeout := tmo |>) n w.

Definition timer_wheel_entry_is_active w n : bool :=
  match callback (entry w n) with Some _ => true | None => false end.

Definition get_expire_at (e : timer_entry CB) now : Z :=
  let s := u16 (now mod MAX_TIMER_SLOTS) in
  if (match callback e with None => true | _ => false end) || (s <=? expire_slot e)
  then u32 (now + expire_slot e - s)
  else u32 (now + expire_slot e + MAX_TIMER_SLOTS - s).

Definition timer_wheel_entry_get_idle (e : timer_entry CB) now : Z :=
  u16 (now - (get_expire_at e now - timeout e)).
Definition timer_wheel_entry_get_life (e : timer_entry CB) now : Z :=
  u16 (get_expire_at e now - now).
End wheel.

(** What [timer_wheel_roll] needs of the thread it runs in: where the wheel is,
    and what each callback does. *)
Class TimerWorld (W E CB : Type) `{Countable E} := {
  wheel : W -> timer_wheel E CB;
  wheel_upd : (timer_wheel E CB -> timer_wheel E CB) -> W -> W;
  run_callback : CB -> E -> W -> W;
  wheel_wheel_upd f w : wheel (wheel_upd f w) = f (wheel w)
}.

Section roll.
Context {W E CB : Type} `{Countable E} `{!TimerWorld W E CB}.
Implicit Types (w : W).

(** `while (!cds_list_empty(head)) { ... }` on slot [k].  [None]: out of fuel, or
    a NULL callback would be called. *)
Fixpoint drain_slot (fuel : nat) (k : Z) w (cnt : Z) : option (W * Z) :=
  match slot (wheel w) k with
  | [] => Some (w, cnt)
  | itr :: _ =>
      match fuel with
      | O => None
      | S fuel =>
          match callback (entry (wheel w) itr) with
          | None => None
          | Some fn =>
              let w := wheel_upd (fun t => timer_wheel_entry_remove t itr) w in
              let w := run_callback fn itr w in
              drain_slot fuel k w (u32 (cnt + 1))
          end
      end
  end.

(** `for (s = w->current; s < m; s ++)`; [n] bounds the iterations. *)
Fixpoint roll_slots (n fuel : nat) (s m : Z) w (cnt : Z) : option (W * Z) :=
  match n with
  | O => Some (w, cnt)
  | S n =>
      if s <? m then
        match drain_slot fuel (s mod MAX_TIMER_SLOTS) w cnt with
        | None => None
        | Some (w, cnt) => roll_slots n fuel (u32 (s + 1)) m w cnt
        end
      else Some (w, cnt)
  end.

Definition timer_wheel_roll (fuel : nat) (now : Z) w : option (W * Z) :=
  let cur := current (wheel w) in
  if now <? cur then Some (w, 0)
  else
    let m := Z.min now (u32 (cur + MAX_TIMER_SLOTS)) in
    match roll_slots (Z.to_nat (m - cur)) fuel cur m w 0 with
    | None => None
    | Some (w, cnt) => Some (wheel_upd (fun t => t <| current := now |>) w, cnt)
    end.
End roll.

(** ** The abstract wheel: absolute deadlines *)

Section deadlines.
Context {E CB : Type} `{Countable E}.
Implicit Types (w : timer_wheel E CB) (dl : gmap E Z) (n : E) (c now D : Z).

(** [inv c w dl]: the entries on the wheel are those of [dl], each in the slot
    of its deadline, and all deadlines lie in the 3600 seconds from [c] on. *)
Record inv c w dl : Prop := {
  inv_base : 0 <= c;
  inv_entry n D : dl !! n = Some D ->
    c <= D < c + MAX_TIMER_SLOTS /\
    expire_slot (entry w n) = D mod MAX_TIMER_SLOTS /\
    callback (entry w n) <> None /\
    n ∈ slot w (D mod MAX_TIMER_SLOTS);
  inv_slot k n : n ∈ slot w k -> exists D, dl !! n = Some D /\ k = D mod MAX_TIMER_SLOTS;
  inv_nodup k : NoDup (slot w k);
  inv_count : count w = u32 (Z.of_nat (size dl))
}.

Lemma slot_link_tail k n w k' :
  slot (link_tail k n w) k' = if decide (k = k') then slot w k ++ [n] else slot w k'.
Proof.
  unfold slot, link_tail. simpl. rewrite lookup_insert. by case_decide.
Qed.

Lemma slot_unlink n w k : slot (unlink n w) k = filter (fun m => m <> n) (slot w k).
Proof. unfold slot, unlink. simpl. rewrite lookup_fmap. by destruct (slots w !! k). Qed.

Lemma slot_entry_upd f n w k : slot (entry_upd f n w) k = slot w k.
Proof. done. Qed.

Lemma entry_entry_upd f n w n' :
  entry (entry_upd f n w) n' = if decide (n = n') then f (entry w n) else entry w n'.
Proof.
  unfold entry at 1, entry_upd. simpl. rewrite lookup_insert. by case_decide.
Qed.

Lemma slot_remove w n k :
  slot (timer_wheel_entry_remove w n) k = filter (fun m => m <> n) (slot w k).
Proof. apply (slot_unlink n w k). Qed.

Lemma entry_remove w n n' :
  entry (timer_wheel_entry_remove w n) n' =
  if decide (n = n') then (entry w n) <| callback := None |> else entry w n'.
Proof. unfold timer_wheel_entry_remove. rewrite entry_entry_upd. done. Qed.

Lemma slot_insert w n now k :
  let k0 := u16 (u32 (now + timeout (entry w n)) mod MAX_TIMER_SLOTS) in
  slot (timer_wheel_entry_insert w n now) k = if decide (k0 = k) then slot w k0 ++ [n] else slot w k.
Proof. intros k0. exact (slot_link_tail k0 n (entry_upd (set expire_slot (fun _ => k0)) n w) k). Qed.

Lemma entry_insert w n now n' :
  let k0 := u16 (u32 (now + timeout (entry w n)) mod MAX_TIMER_SLOTS) in
  entry (timer_wheel_entry_insert w n now) n' =
  if decide (n = n') then (entry w n) <| expire_slot := k0 |> else entry w n'.
Proof. intros k0. apply (entry_entry_upd (fun e => e <| expire_slot := k0 |>) n w n'). Qed.

Lemma insert_slot_of w n now :
  0 <= now -> 0 <= timeout (entry w n) -> now + timeout (entry w n) < 2 ^ 32 ->
  u16 (u32 (now + timeout (entry w n)) mod MAX_TIMER_SLOTS) =
  (now + timeout (entry w n)) mod MAX_TIMER_SLOTS.
Proof.
  intros. rewrite u32_id by (unfold is_u32; lia). apply u16_id.
  pose proof (Z.mod_pos_bound (now + timeout (entry w n)) MAX_TIMER_SLOTS).
  unfold is_u16, MAX_TIMER_SLOTS in *. lia.
Qed.

(** Inserting an entry that is off the wheel and has a callback. *)
Lemma insert_inv c w dl n now :
  inv c w dl -> dl !! n = None -> callback (entry w n) <> None ->
  0 <= now -> 0 <= timeout (entry w n) -> now + timeout (entry w n) < 2 ^ 32 ->
  c <= now + timeout (entry w n) < c + MAX_TIMER_SLOTS ->
  inv c (timer_wheel_entry_insert w n now) (<[n := now + timeout (entry w n)]> dl).
Proof.
  intros I Hn Hcb Hnow Ht H32 Hd. pose proof (insert_slot_of w n now Hnow Ht H32) as Hk.
  assert (Hoff : forall k, n ∉ slot w k).
  { intros k Hin. destruct (inv_slot _ _ _ I k n Hin) as (D & HD & _). congruence. }
  constructor.
  - apply I.
  - intros n' D HD. rewrite entry_insert, slot_insert, Hk.
    rewrite lookup_insert in HD. destruct (decide (n = n')) as [<-|Hne]; simplify_eq.
    + rewrite decide_True by done. split_and!; [lia|lia|done|done|].
      apply elem_of_app. right. by apply list_elem_of_singleton.
    + destruct (inv_entry _ _ _ I n' D HD) as (? & ? & ? & ?).
      split_and!; [lia|lia|done|done|]. case_decide as Hs; [|done].
      apply elem_of_app. left. by rewrite Hs.
  - intros k n'. rewrite slot_insert, Hk. intros Hin.
    destruct (decide (n = n')) as [<-|Hne].
    + exists (now + timeout (entry w n)). rewrite lookup_insert_eq. split; [done|].
      case_decide; [done|]. by destruct (Hoff k).
    + rewrite lookup_insert_ne by done. apply (inv_slot _ _ _ I).
      case_decide as Hs; [|done]. rewrite <- Hs.
      apply elem_of_app in Hin as [?|?%list_elem_of_singleton]; [done|congruence].
  - intros k. rewrite slot_insert, Hk. case_decide; [|apply I].
    apply NoDup_app. split_and!; [apply I| |apply NoDup_singleton].
    intros x Hx ->%list_elem_of_singleton. by destruct (Hoff _ Hx).
  - change (u32 (count w + 1) = u32 (Z.of_nat (size (<[n:=now + timeout (entry w n)]> dl)))).
    rewrite map_size_insert_None by done. rewrite (inv_count _ _ _ I), u32_add_l. f_equal. lia.
Qed.

Lemma remove_inv c w dl n D :
  inv c w dl -> dl !! n = Some D -> inv c (timer_wheel_entry_remove w n) (delete n dl).
Proof.
  intros I Hn. constructor.
  - apply I.
  - intros n' D' [Hne HD]%lookup_delete_Some. rewrite entry_remove, slot_remove.
    rewrite decide_False by done. destruct (inv_entry _ _ _ I n' D' HD) as (? & ? & ? & ?).
    split_and!; try done; try lia. by apply list_elem_of_filter.
  - intros k n'. rewrite slot_remove. intros [Hne Hin]%list_elem_of_filter.
    rewrite lookup_delete_ne by done. by apply (inv_slot _ _ _ I).
  - intros k. rewrite slot_remove. apply NoDup_filter, I.
  - change (u32 (count w - 1) = u32 (Z.of_nat (size (delete n dl)))).
    rewrite map_size_delete, Hn. simpl. rewrite (inv_count _ _ _ I), u32_sub_l. f_equal.
    assert (size dl <> 0)%nat by (intros ->%map_size_empty_inv; by rewrite lookup_empty in Hn).
    lia.
Qed.

(** An update of an entry that keeps its slot and leaves it callable. *)
Lemma entry_upd_inv c w dl n f :
  inv c w dl -> (forall e, expire_slot (f e) = expire_slot e) ->
  (dl !! n <> None -> callback (f (entry w n)) <> None) ->
  inv c (entry_upd f n w) dl.
Proof.
  intros I Hf Hc. constructor; try apply I.
  intros n' D HD. rewrite entry_entry_upd, slot_entry_upd.
  destruct (inv_entry _ _ _ I n' D HD) as (? & ? & ? & ?).
  case_decide; subst; split_and!; try done; try lia.
  - by rewrite Hf.
  - apply Hc. congruence.
Qed.

(** An entry off the wheel may be written at will. *)
Lemma entry_upd_off c w dl n f : inv c w dl -> dl !! n = None -> inv c (entry_upd f n w) dl.
Proof.
  intros V Hn. constructor; try apply V. intros m D Hm. rewrite entry_entry_upd, decide_False.
  - by apply (inv_entry _ _ _ V).
  - intros ->. congruence.
Qed.

Lemma refresh_inv c w dl n D now :
  inv c w dl -> dl !! n = Some D ->
  0 <= now -> 0 <= timeout (entry w n) -> now + timeout (entry w n) < 2 ^ 32 ->
  c <= now + timeout (entry w n) < c + MAX_TIMER_SLOTS ->
  inv c (timer_wheel_entry_refresh w n now) (<[n := now + timeout (entry w n)]> dl).
Proof.
  intros I Hn ? ? ? ?. unfold timer_wheel_entry_refresh.
  destruct (inv_entry _ _ _ I n D Hn) as (_ & _ & Hcb & _).
  set (w1 := timer_wheel_entry_remove w n).
  set (w2 := entry_upd (fun e => e <| callback := callback (entry w n) |>) n w1).
  assert (I2 : inv c w2 (delete n dl)).
  { apply entry_upd_inv; [by eapply remove_inv|done|]. by rewrite lookup_delete_eq. }
  assert (He : entry w2 n = entry w n).
  { unfold w2, w1. rewrite entry_entry_upd, entry_remove, !decide_True by done.
    by destruct (entry w n). }
  rewrite <- (insert_delete_eq dl n). rewrite <- He.
  apply insert_inv; rewrite ?He; try done. by rewrite lookup_delete_eq.
Qed.

Lemma start_inv c w dl n cb tmo now :
  inv c w dl -> dl !! n = None -> 0 <= now -> 0 <= tmo < MAX_TIMER_SLOTS ->
  now + tmo < 2 ^ 32 -> c <= now + tmo < c + MAX_TIMER_SLOTS ->
  inv c (timer_wheel_entry_start w n cb tmo now) (<[n := now + tmo]> dl).
Proof.
  intros I Hn ? ? ? ?. unfold timer_wheel_entry_start.
  rewrite (proj2 (Z.leb_gt MAX_TIMER_SLOTS tmo)) by lia.
  set (w1 := entry_upd _ n w).
  assert (He : entry w1 n = Entry (Some cb) (expire_slot (entry w n)) tmo).
  { unfold w1. by rewrite entry_entry_upd, decide_True. }
  assert (Ht : timeout (entry w1 n) = tmo) by by rewrite He.
  assert (I1 : inv c w1 dl) by (apply entry_upd_inv; [done|done|by rewrite Hn]).
  clearbody w1. replace (now + tmo) with (now + timeout (entry w1 n)) by lia.
  apply insert_inv; try done; try lia. by rewrite He.
Qed.

(** Nothing is due at [c]: the base can move on. *)
Lemma inv_step c w dl : inv c w dl -> slot w (c mod MAX_TIMER_SLOTS) = [] -> inv (c + 1) w dl.
Proof.
  intros I Hs. constructor; try apply I; [pose proof (inv_base _ _ _ I); lia|].
  intros n D HD. destruct (inv_entry _ _ _ I n D HD) as (? & ? & ? & Hin).
  split_and!; try done; try lia. destruct (decide (D = c)) as [->|]; [|lia].
  rewrite Hs in Hin. by apply elem_of_nil in Hin.
Qed.

Lemma inv_current c w dl now : inv c w dl -> inv c (w <| current := now |>) dl.
Proof. by intros [? ? ? ? ?]. Qed.

(** The base can move past a stretch in which nothing is due. *)
Lemma inv_base_le c c' w dl : inv c w dl -> c <= c' ->
  (forall n D, dl !! n = Some D -> c' <= D) -> inv c' w dl.
Proof.
  intros I ? Hd. constructor; try apply I; [pose proof (inv_base _ _ _ I); lia|].
  intros n D HD. destruct (inv_entry _ _ _ I n D HD) as (? & ? & ? & ?).
  specialize (Hd n D HD). split_and!; try done; lia.
Qed.

(** The entries of [dl] that are due before [now]. *)
Definition overdue now dl : gmap E Z := filter (fun p => p.2 < now) dl.

Lemma overdue_remove now dl dl' n D :
  dl !! n = Some D -> D < now ->
  (forall m D', dl' !! m = Some D' -> (m <> n /\ dl !! m = Some D') \/ now <= D') ->
  (size (overdue now dl') < size (overdue now dl))%nat.
Proof.
  intros Hn HD Hd.
  assert (Hsub : overdue now dl' ⊆ delete n (overdue now dl)).
  { apply map_subseteq_spec. intros m D' [Hm Hlt]%map_lookup_filter_Some. simpl in Hlt.
    destruct (Hd m D' Hm) as [[Hne Hm']|]; [|lia].
    rewrite lookup_delete_ne by done. by apply map_lookup_filter_Some. }
  apply map_subseteq_size in Hsub. rewrite map_size_delete in Hsub.
  assert (Ho : overdue now dl !! n = Some D) by (by apply map_lookup_filter_Some).
  rewrite Ho in Hsub. simpl in Hsub.
  assert (size (overdue now dl) <> 0)%nat
    by (intros Hz%map_size_empty_inv; by rewrite Hz, lookup_empty in Ho).
  lia.
Qed.

Lemma get_expire_at_spec c w dl n D now :
  inv c w dl -> dl !! n = Some D -> 0 <= now -> now <= D < now + MAX_TIMER_SLOTS ->
  D < 2 ^ 32 -> get_expire_at (entry w n) now = D.
Proof.
  intros I Hn H0 HD H32. destruct (inv_entry _ _ _ I n D Hn) as (_ & Hs & Hc & _).
  unfold get_expire_at. rewrite Hs. destruct (callback (entry w n)); [|done]. simpl.
  unfold MAX_TIMER_SLOTS in *.
  rewrite (u16_id (now mod 3600)) by (unfold is_u16; pose proof (Z.mod_pos_bound now 3600); lia).
  pose proof (Z.mod_pos_bound now 3600). pose proof (Z.mod_pos_bound D 3600).
  pose proof (Z_div_mod_eq_full now 3600). pose proof (Z_div_mod_eq_full D 3600).
  destruct (Z.leb_spec (now mod 3600) (D mod 3600)); rewrite u32_id by (unfold is_u32; nia); nia.
Qed.

End deadlines.


(** ** Rolling *)

Section roll_spec.
Context {W E CB : Type} `{Countable E} `{!TimerWorld W E CB}.
Context (I : W -> gmap E Z -> Prop) (c now : Z).

(** What the wheel asks of the callbacks: on an entry that was due before [now],
    just taken off the wheel, they keep the thread's invariant and the wheel,
    may cancel or postpone other entries, and start nothing that is due before
    [now]. *)
Definition callbacks_ok : Prop := forall w dl s n D fn,
  I w dl -> c <= s < now -> inv s (wheel w) dl -> dl !! n = Some D -> D < now ->
  callback (entry (wheel w) n) = Some fn ->
  let w' := run_callback fn n (wheel_upd (fun t => timer_wheel_entry_remove t n) w) in
  exists dl', I w' dl' /\ inv s (wheel w') dl' /\
    forall m D', dl' !! m = Some D' -> (m <> n /\ dl !! m = Some D') \/ now <= D'.

Context (Hcb : callbacks_ok).
Context (HI : forall w dl t, I w dl -> I (wheel_upd (fun x => x <| current := t |>) w) dl).

Definition in_window (dl : gmap E Z) : Prop :=
  forall n D, dl !! n = Some D -> D < c + MAX_TIMER_SLOTS \/ now <= D.

Lemma inv_slot_due s (w : W) dl n l :
  inv s (wheel w) dl -> slot (wheel w) (s mod MAX_TIMER_SLOTS) = n :: l -> dl !! n = Some s.
Proof.
  intros V Hs. destruct (inv_slot _ _ _ V (s mod MAX_TIMER_SLOTS) n) as (D & HD & Hk).
  { rewrite Hs. apply list_elem_of_here. }
  destruct (inv_entry _ _ _ V n D HD) as (Hr & _).
  pose proof (inv_base _ _ _ V). unfold MAX_TIMER_SLOTS in *.
  pose proof (Z_div_mod_eq_full s 3600). pose proof (Z_div_mod_eq_full D 3600).
  assert (D = s) by nia. by subst.
Qed.

Lemma drain_slot_spec fuel s w dl cnt :
  I w dl -> c <= s < now -> inv s (wheel w) dl -> in_window dl ->
  (size (overdue now dl) <= fuel)%nat ->
  exists w' cnt' dl', drain_slot fuel (s mod MAX_TIMER_SLOTS) w cnt = Some (w', cnt') /\
    I w' dl' /\ inv (s + 1) (wheel w') dl' /\ in_window dl' /\ (size (overdue now dl') <= fuel)%nat.
Proof.
  revert w dl cnt. induction fuel as [|fuel IH]; intros w dl cnt HW Hs V Hw Hf;
    cbn [drain_slot]; destruct (slot _ _) as [|n l] eqn:Hsl.
  - exists w, cnt, dl. split_and!; [done|done|by apply inv_step|done|done].
  - pose proof (inv_slot_due s w dl n l V Hsl) as Hn.
    assert (Ho : overdue now dl !! n = Some s) by (apply map_lookup_filter_Some; split; [done|simpl; lia]).
    assert (overdue now dl = ∅) as Hz by (apply map_size_empty_inv; lia).
    by rewrite Hz, lookup_empty in Ho.
  - exists w, cnt, dl. split_and!; [done|done|by apply inv_step|done|done].
  - pose proof (inv_slot_due s w dl n l V Hsl) as Hn.
    destruct (inv_entry _ _ _ V n s Hn) as (_ & _ & Hc & _).
    destruct (callback (entry (wheel w) n)) as [fn|] eqn:Hfn; [|done].
    destruct (Hcb w dl s n s fn HW Hs V Hn ltac:(lia) Hfn) as (dl' & HW' & V' & Hd).
    pose proof (overdue_remove now dl dl' n s Hn ltac:(lia) Hd).
    assert (Hw' : in_window dl').
    { intros m D' [[_ Hm]|]%Hd; [by eapply Hw|by right]. }
    edestruct (IH _ dl' (u32 (cnt + 1)) HW' Hs V' Hw') as (w2 & cnt2 & dl2 & -> & ? & ? & ? & ?);
      [lia|].
    exists w2, cnt2, dl2. split_and!; [done|done|done|done|lia].
Qed.

Lemma roll_slots_spec k fuel s m w dl cnt :
  I w dl -> c <= s -> m = s + Z.of_nat k -> m <= now -> m < 2 ^ 32 ->
  inv s (wheel w) dl -> in_window dl -> (size (overdue now dl) <= fuel)%nat ->
  exists w' cnt' dl', roll_slots k fuel s m w cnt = Some (w', cnt') /\
    I w' dl' /\ inv m (wheel w') dl' /\ in_window dl'.
Proof.
  revert s w dl cnt. induction k as [|k IH]; intros s w dl cnt HW Hs Hm Hmn H32 V Hw Hf;
    cbn [roll_slots].
  - replace m with s by lia. by exists w, cnt, dl.
  - rewrite (proj2 (Z.ltb_lt s m)) by lia.
    destruct (drain_slot_spec fuel s w dl cnt HW) as (w1 & cnt1 & dl1 & -> & HW1 & V1 & Hw1 & Hf1);
      [lia|done|done|done|].
    pose proof (inv_base _ _ _ V). rewrite u32_id by (unfold is_u32; lia).
    eapply IH; [done|lia|lia|done|done|exact V1|done|done].
Qed.

Lemma timer_wheel_roll_spec fuel w dl :
  I w dl -> current (wheel w) = c -> c <= now < 2 ^ 32 -> c + MAX_TIMER_SLOTS < 2 ^ 32 ->
  inv c (wheel w) dl -> (size (overdue now dl) <= fuel)%nat ->
  exists w' cnt dl', timer_wheel_roll fuel now w = Some (w', cnt) /\
    I w' dl' /\ current (wheel w') = now /\ inv now (wheel w') dl'.
Proof.
  intros HW Hc Hn H32 V Hf. pose proof (inv_base _ _ _ V) as Hc0. unfold timer_wheel_roll.
  rewrite Hc, (proj2 (Z.ltb_ge now c)) by lia.
  rewrite u32_id by (unfold is_u32, MAX_TIMER_SLOTS in *; lia).
  set (m := Z.min now (c + MAX_TIMER_SLOTS)).
  assert (Hw : in_window dl) by (intros n D HD; left; apply (inv_entry _ _ _ V n D HD)).
  destruct (roll_slots_spec (Z.to_nat (m - c)) fuel c m w dl 0)
    as (w1 & cnt & dl1 & -> & HW1 & V1 & Hw1); try done; try (unfold m, MAX_TIMER_SLOTS in *; lia).
  exists (wheel_upd (fun t => t <| current := now |>) w1), cnt, dl1.
  rewrite wheel_wheel_upd. split_and!; [done|by apply HI|done|].
  apply inv_current. apply (inv_base_le m); [done|unfold m; lia|].
  intros n D HD. destruct (inv_entry _ _ _ V1 n D HD) as (? & _).
  destruct (Hw1 n D HD); [unfold m in *; lia|done].
Qed.
End roll_spec.

(** C35: rolling the wheel from [c] to [now] terminates (the fuel needed is the
    number of overdue entries), calls only callbacks of entries that were due
    before [now], and leaves a wheel on which everything that is still pending is
    due at [now] or later, provided the callbacks start nothing that is due before
    [now].  A NULL callback is never called.  [I] is whatever the thread wants to
    keep across its callbacks. *)
Theorem timer_wheel_roll_drains {W E CB : Type} `{Countable E} `{!TimerWorld W E CB}
    (I : W -> gmap E Z -> Prop) (c now : Z) (fuel : nat) (w : W) (dl : gmap E Z) :
  callbacks_ok I c now ->
  (forall w dl t, I w dl -> I (wheel_upd (fun x => x <| current := t |>) w) dl) ->
  I w dl -> current (wheel w) = c -> c <= now < 2 ^ 32 -> c + MAX_TIMER_SLOTS < 2 ^ 32 ->
  inv c (wheel w) dl -> (size (overdue now dl) <= fuel)%nat ->
  exists w' cnt dl', timer_wheel_roll fuel now w = Some (w', cnt) /\
    I w' dl' /\ current (wheel w') = now /\ inv now (wheel w') dl' /\
    (forall n D, dl' !! n = Some D -> now <= D).
Proof.
  intros Hcb HI HW Hc Hn H32 V Hf.
  destruct (timer_wheel_roll_spec I c now Hcb HI fuel w dl) as (w' & cnt & dl' & ? & ? & ? & V');
    try done.
  exists w', cnt, dl'. split_and!; try done. intros n D HD. apply (inv_entry _ _ _ V' n D HD).
Qed.

(** ** A thread whose callbacks only take note *)

Module Recorder.
Section recorder.
Context {E : Type} `{Countable E}.
Record recorder := Rec { rec_wheel : timer_wheel E unit; trace : list E }.
#[export] Instance recorder_world : TimerWorld recorder E unit := {|
  wheel := rec_wheel;
  wheel_upd f r := Rec (f (rec_wheel r)) (trace r);
  run_callback _ n r := Rec (rec_wheel r) (trace r ++ [n]);
  wheel_wheel_upd f r := eq_refl
|}.

(** [dl0] is split between the entries that have fired and the pending ones. *)
Definition split_of (dl0 : gmap E Z) now (r : recorder) (dl : gmap E Z) : Prop :=
  NoDup (trace r) /\ dl ⊆ dl0 /\
  (forall n, n ∈ trace r <-> exists D, dl0 !! n = Some D /\ dl !! n = None) /\
  (forall n, n ∈ trace r -> exists D, dl0 !! n = Some D /\ D < now).

Lemma recorder_ok dl0 c now : callbacks_ok (split_of dl0 now) c now.
Proof.
  intros r dl s n D fn (Hnd & Hsub & Hiff & Hlt) Hs V Hn HD Hfn. simpl.
  exists (delete n dl). split_and!; [|by eapply remove_inv|].
  - split_and!; simpl.
    + apply NoDup_app. split_and!; [done| |apply NoDup_singleton].
      intros x Hx ->%list_elem_of_singleton. apply Hiff in Hx as (? & _ & ?). congruence.
    + transitivity dl; [apply delete_subseteq|done].
    + intros m. rewrite elem_of_app, list_elem_of_singleton, Hiff. split.
      * intros [(D' & ? & ?)| ->].
        -- exists D'. split; [done|]. apply lookup_delete_None. by right.
        -- exists D. split; [by eapply lookup_weaken|]. apply lookup_delete_eq.
      * intros (D' & ? & [->|?]%lookup_delete_None); [by right|left; by exists D'].
    + intros m [?| ->%list_elem_of_singleton]%elem_of_app; [by apply Hlt|].
      exists D. split; [by eapply lookup_weaken|done].
  - intros m D' [? ?]%lookup_delete_Some. left. split; [by apply not_eq_sym|done].
Qed.
End recorder.
Arguments recorder E {_ _}.

(** with callbacks that only take note, [timer_wheel_roll] fires every entry
    that was due before [now] exactly once and no other, counts nothing else as
    pending, and keeps all remaining entries with their deadlines. *)
Theorem timer_wheel_roll_exact {E : Type} `{Countable E}
    (c now : Z) (fuel : nat) (w : timer_wheel E unit) (dl : gmap E Z) :
  current w = c -> c <= now < 2 ^ 32 -> c + MAX_TIMER_SLOTS < 2 ^ 32 ->
  inv c w dl -> (size (overdue now dl) <= fuel)%nat ->
  exists w' fired cnt, timer_wheel_roll fuel now (Rec w []) = Some (Rec w' fired, cnt) /\
    NoDup fired /\
    (forall n, n ∈ fired <-> exists D, dl !! n = Some D /\ D < now) /\
    inv now w' (filter (fun p => now <= p.2) dl).
Proof.
  intros Hc Hn H32 V Hf.
  destruct (timer_wheel_roll_spec (split_of dl now) c now (recorder_ok dl c now)) with
    (fuel := fuel) (w := Rec w []) (dl := dl) as ([w' fired] & cnt & dl' & Hr & Hsp & _ & V');
    try done.
  { split_and!; simpl; [constructor|done| |by intros ? ?%elem_of_nil].
    intros n. rewrite elem_of_nil. split; [done|]. intros (? & ? & ?). congruence. }
  destruct Hsp as (Hnd & Hsub & Hiff & Hlt). simpl in *.
  assert (dl' = filter (fun p => now <= p.2) dl) as Heq.
  { apply map_eq. intros n. apply option_eq. intros D. rewrite map_lookup_filter_Some. simpl.
    split.
    - intros HD. split; [by eapply lookup_weaken|]. apply (inv_entry _ _ _ V' n D HD).
    - intros [HD Hle]. destruct (dl' !! n) as [D'|] eqn:E'.
      + pose proof (lookup_weaken _ _ _ _ E' Hsub). congruence.
      + destruct (Hlt n) as (D' & ? & ?); [apply Hiff; by exists D|]. simplify_eq. lia. }
  exists w', fired, cnt. subst dl'. split_and!; try done.
  intros n. split; [apply Hlt|]. intros (D & HD & Hlt'). apply Hiff. exists D. split; [done|].
  apply map_lookup_filter_None. right. intros D' HD'. simplify_eq. simpl. lia.
Qed.
End Recorder.

(** ** The operations refine the map of deadlines *)

Inductive wheel_op {E CB : Type} :=
  | OpStart (n : E) (cb : CB) (tmo : Z)
  | OpRemove (n : E)
  | OpRefresh (n : E).
Arguments wheel_op : clear implicits.

Section ops.
Context {E CB : Type} `{Countable E}.
Implicit Types (w : timer_wheel E CB) (dl : gmap E Z) (op : wheel_op E CB).

Definition run_op now op w : timer_wheel E CB :=
  match op with
  | OpStart n cb tmo => timer_wheel_entry_start w n cb tmo now
  | OpRemove n => timer_wheel_entry_remove w n
  | OpRefresh n => timer_wheel_entry_refresh w n now
  end.

(** The abstract effect: deadlines and the timeout each entry was started with. *)
Definition spec_op now op (st : gmap E Z * gmap E Z) : gmap E Z * gmap E Z :=
  let '(dl, tm) := st in
  match op with
  | OpStart n _ tmo => (<[n := now + tmo]> dl, <[n := tmo]> tm)
  | OpRemove n => (delete n dl, tm)
  | OpRefresh n => (<[n := now + default 0 (tm !! n)]> dl, tm)
  end.

(** How the dp code uses the wheel: an entry is started when it is off the
    wheel, and removed or refreshed only when it is on it. *)
Definition op_legal op dl : Prop :=
  match op with
  | OpStart n _ tmo => dl !! n = None /\ 0 <= tmo < MAX_TIMER_SLOTS
  | OpRemove n | OpRefresh n => is_Some (dl !! n)
  end.

Definition refines c w (st : gmap E Z * gmap E Z) : Prop :=
  inv c w st.1 /\
  (forall n D, st.1 !! n = Some D -> timeout (entry w n) = default 0 (st.2 !! n)) /\
  (forall n, 0 <= default 0 (st.2 !! n) < MAX_TIMER_SLOTS).

(** The timeouts of the entries after an operation. *)
Lemma timeout_insert w n now m :
  timeout (entry (timer_wheel_entry_insert w n now) m) = timeout (entry w m).
Proof. rewrite entry_insert. case_decide; subst; done. Qed.

Lemma timeout_remove w n m :
  timeout (entry (timer_wheel_entry_remove w n) m) = timeout (entry w m).
Proof. rewrite entry_remove. case_decide; subst; done. Qed.

Lemma timeout_refresh w n now m :
  timeout (entry (timer_wheel_entry_refresh w n now) m) = timeout (entry w m).
Proof.
  unfold timer_wheel_entry_refresh. rewrite timeout_insert, entry_entry_upd.
  case_decide; subst; simpl; apply timeout_remove.
Qed.

Lemma timeout_start w n cb tmo now m : 0 <= tmo < MAX_TIMER_SLOTS ->
  timeout (entry (timer_wheel_entry_start w n cb tmo now) m) =
  if decide (n = m) then tmo else timeout (entry w m).
Proof.
  intros. unfold timer_wheel_entry_start.
  rewrite (proj2 (Z.leb_gt MAX_TIMER_SLOTS tmo)) by lia.
  rewrite timeout_insert, entry_entry_upd. by case_decide.
Qed.
End ops.

(** C40: started, removed and refreshed at a tick [now] close to the wheel's own
    clock [c] (so that no deadline wraps around the 3600 slots), the entries of
    the wheel behave as a map from entries to absolute deadlines. *)
Theorem wheel_op_refines {E CB : Type} `{Countable E} (c now : Z) (op : wheel_op E CB)
    (w : timer_wheel E CB) (st : gmap E Z * gmap E Z) :
  refines c w st -> op_legal op st.1 -> c <= now -> now + MAX_TIMER_SLOTS < 2 ^ 32 ->
  (forall n D, (spec_op now op st).1 !! n = Some D -> D < c + MAX_TIMER_SLOTS) ->
  refines c (run_op now op w) (spec_op now op st).
Proof.
  destruct st as [dl tm]. intros (V & Ht & Hr) Hl Hcn H32 Hw. pose proof (inv_base _ _ _ V).
  unfold refines in *. destruct op as [n cb tmo|n|n]; simpl in *.
  - destruct Hl as [Hn Htm].
    specialize (Hw n (now + tmo) ltac:(apply lookup_insert_eq)). split_and!.
    + apply start_inv; try done; lia.
    + intros m D Hm. rewrite timeout_start by done. rewrite lookup_insert in *.
      case_decide; subst; [done|by eapply Ht].
    + intros m. rewrite lookup_insert. case_decide; [done|apply Hr].
  - destruct Hl as [D Hn]. split_and!; [by eapply remove_inv| |done].
    intros m D' [_ Hm]%lookup_delete_Some. rewrite timeout_remove. by eapply Ht.
  - destruct Hl as [D Hn]. rewrite <- (Ht n D Hn). pose proof (Hr n) as Hrn.
    rewrite <- (Ht n D Hn) in Hw, Hrn.
    specialize (Hw n _ ltac:(apply lookup_insert_eq)). split_and!; [|..|done].
    + eapply refresh_inv; try done; lia.
    + intros m D' Hm. rewrite timeout_refresh. apply lookup_insert_Some in Hm as [[<- _]|[_ Hm]];
        by eapply Ht.
Qed.

(** the life and idle times the code reports: an entry due at [D] has
    [D - now] seconds left, and was last refreshed [now - (D - timeout)] seconds
    ago. *)
Theorem get_life_idle_spec {E CB : Type} `{Countable E} (c now D : Z) (n : E)
    (w : timer_wheel E CB) (dl : gmap E Z) :
  inv c w dl -> dl !! n = Some D -> 0 <= now -> now <= D < now + MAX_TIMER_SLOTS ->
  D < 2 ^ 32 -> 0 <= timeout (entry w n) < MAX_TIMER_SLOTS -> D <= now + timeout (entry w n) ->
  timer_wheel_entry_get_life (entry w n) now = D - now /\
  timer_wheel_entry_get_idle (entry w n) now = now - (D - timeout (entry w n)).
Proof.
  intros V Hn H0 HD H32 Ht Hle. unfold timer_wheel_entry_get_life, timer_wheel_entry_get_idle.
  rewrite (get_expire_at_spec c w dl n D now) by done. unfold MAX_TIMER_SLOTS in *.
  split; apply u16_id; unfold is_u16; lia.
Qed.

(** ** Instances *)

Import Recorder.

Definition sample0 : timer_wheel Z unit := Wheel ∅ 0 100 ∅.
Lemma sample0_inv : inv 100 sample0 ∅.
Proof.
  constructor; [lia|by intros ? ? ?|..|done].
  - by intros k n Hn%elem_of_nil.
  - intros k. apply NoDup_nil_2.
Defined.
Definition sample2 : timer_wheel Z unit :=
  timer_wheel_entry_start (timer_wheel_entry_start sample0 1 tt 5 100) 2 tt 3599 100.
Definition sample2_dl : gmap Z Z := <[2 := 3699]> (<[1 := 105]> ∅).
Lemma sample2_inv : inv 100 sample2 sample2_dl.
Proof.
  apply (start_inv 100 _ _ 2 tt 3599 100); try (done || (unfold MAX_TIMER_SLOTS; lia)).
  apply (start_inv 100 _ _ 1 tt 5 100); try (done || (unfold MAX_TIMER_SLOTS; lia)).
  exact sample0_inv.
Qed.

Lemma timer_wheel_roll_drains_witness :
  exists w' cnt, timer_wheel_roll 1 200 (Recorder.Rec sample2 []) = Some (w', cnt) /\
    current (wheel w') = 200.
Proof.
  destruct (timer_wheel_roll_drains (Recorder.split_of sample2_dl 200) 100 200 1
              (Recorder.Rec sample2 []) sample2_dl) as (w' & cnt & dl' & Hr & _ & Hc & _).
  - apply Recorder.recorder_ok.
  - intros w dl t Hw. exact Hw.
  - split_and!; [constructor|reflexivity| |by intros ? ?%elem_of_nil].
    intros n. rewrite elem_of_nil. split; [done|]. intros (? & ? & ?). congruence.
  - reflexivity.
  - lia.
  - unfold MAX_TIMER_SLOTS; lia.
  - exact sample2_inv.
  - vm_compute. lia.
  - exists w', cnt. split; [exact Hr|exact Hc].
Defined.

Lemma timer_wheel_roll_exact_witness :
  exists w' cnt, timer_wheel_roll 1 200 (Recorder.Rec sample2 []) = Some (Recorder.Rec w' [1], cnt) /\
    inv 200 w' (filter (fun p => 200 <= p.2) sample2_dl).
Proof.
  destruct (Recorder.timer_wheel_roll_exact 100 200 1 sample2 sample2_dl)
    as (w' & fired & cnt & Hr & _ & _ & V).
  - reflexivity.
  - lia.
  - unfold MAX_TIMER_SLOTS; lia.
  - exact sample2_inv.
  - vm_compute. lia.
  - exists w', cnt. split; [|exact V]. rewrite Hr. do 2 f_equal.
    vm_compute in Hr. injection Hr as <- <- _. reflexivity.
Defined.

Definition sample2_st : gmap Z Z * gmap Z Z := (sample2_dl, <[2 := 3599]> (<[1 := 5]> ∅)).

Lemma wheel_op_refines_witness :
  (spec_op (CB:=unit) 110 (OpRefresh 1) sample2_st).1 !! 1 = Some 115 /\
  refines 100 (run_op 110 (OpRefresh 1) sample2) (spec_op (CB:=unit) 110 (OpRefresh 1) sample2_st).
Proof.
  split; [reflexivity|].
  apply (wheel_op_refines 100 110 (OpRefresh 1) sample2 sample2_st).
  - split_and!; [exact sample2_inv|..].
    + intros n D Hn. unfold sample2_st, fst, sample2_dl in Hn.
      apply lookup_insert_Some in Hn as [[<- _]|[_ [[<- _]|[_ Hn]]%lookup_insert_Some]]; done.
    + intros n. unfold sample2_st, snd. rewrite !lookup_insert, lookup_empty. unfold MAX_TIMER_SLOTS.
      repeat case_decide; simpl; lia.
  - by exists 105.
  - lia.
  - unfold MAX_TIMER_SLOTS; lia.
  - intros n D Hn. unfold MAX_TIMER_SLOTS. unfold spec_op, sample2_st, fst, sample2_dl in Hn.
    change (default 0 _) with 5 in Hn.
    apply lookup_insert_Some in Hn as [[_ <-]|[_ [[_ <-]|[_ [[_ <-]|[_ Hn]]%lookup_insert_Some]]%lookup_insert_Some]];
      done || lia.
Defined.

Lemma get_life_idle_witness :
  timer_wheel_entry_get_life (entry sample2 1) 102 = 3 /\
  timer_wheel_entry_get_idle (entry sample2 1) 102 = 2.
Proof.
  apply (get_life_idle_spec 100 102 105 1 sample2 sample2_dl sample2_inv);
    vm_compute; try done; lia.
Defined.

End TimerWheel.
