(* ===== verification/Tree.v ===== *)
(** * utils/tree.c: the pointer-linked binary search tree

    The tree is unbalanced and intrusive: a node is the first member of the object
    it belongs to and carries its three links and the side it hangs on.  The model
    keeps that: [nodes] maps addresses to nodes, a link is an address, and every
    operation of the source is a sequence of reads and writes of that memory.
    Reading an address that holds no node is [None] (an invalid access), and so is
    running out of fuel; the theorems show that neither happens on a tree.

    The specification is the in-order list of addresses: [rep st l]. *)

From S2P Require Import Prelude.

(** ** The interface the users of the tree rely on

    [ot_rep t l]: the nodes of [t] in order are [l].  [cuts cmp x l1 l2] says that
    [x] belongs between [l1] and [l2]. *)

Definition cuts (cmp : Z -> Z -> Z) (x : Z) (l1 l2 : list Z) : Prop :=
  Forall (fun y => 0 < cmp x y) l1 /\ Forall (fun y => cmp x y < 0) l2.

Class OrderedTree (T : Type) := {
  ot_init : T;
  ot_insert (cmp : Z -> Z -> Z) (t : T) (x : Z) : option (T * Z);
  ot_remove (t : T) (x : Z) : option T;
  ot_find (cmp : Z -> Z -> Z) (t : T) (x : Z) : option Z;
  ot_first (t : T) : option Z;
  ot_next (t : T) (x : Z) : option Z;
  ot_destroy (t : T) : option (T * list Z);
  ot_traverse (t : T) : option (list Z);
  ot_count (t : T) : Z;
  ot_rep : T -> list Z -> Prop;

  ot_init_rep : ot_rep ot_init [];
  ot_rep_nodup t l : ot_rep t l -> NoDup l;
  ot_rep_pos t l : ot_rep t l -> Forall (fun x => 0 < x) l;
  ot_insert_new cmp t l1 l2 x :
    ot_rep t (l1 ++ l2) -> cuts cmp x l1 l2 -> 0 < x -> x ∉ l1 ++ l2 ->
    exists t', ot_insert cmp t x = Some (t', x) /\ ot_rep t' (l1 ++ x :: l2);
  ot_insert_dup cmp t l1 y l2 x :
    ot_rep t (l1 ++ y :: l2) -> cuts cmp x l1 l2 -> cmp x y = 0 -> 0 < x ->
    x ∉ l1 ++ y :: l2 ->
    exists t', ot_insert cmp t x = Some (t', NULL) /\ ot_rep t' (l1 ++ y :: l2);
  ot_remove_rep t l1 x l2 :
    ot_rep t (l1 ++ x :: l2) -> exists t', ot_remove t x = Some t' /\ ot_rep t' (l1 ++ l2);
  ot_find_none cmp t l1 l2 x :
    ot_rep t (l1 ++ l2) -> cuts cmp x l1 l2 -> ot_find cmp t x = Some NULL;
  ot_find_some cmp t l1 y l2 x :
    ot_rep t (l1 ++ y :: l2) -> cuts cmp x l1 l2 -> cmp x y = 0 -> ot_find cmp t x = Some y;
  ot_first_rep t x l : ot_rep t (x :: l) -> ot_first t = Some x;
  ot_next_rep t l1 x l2 : ot_rep t (l1 ++ x :: l2) -> ot_next t x = Some (default NULL (head l2));
  ot_destroy_rep t l :
    ot_rep t l -> exists t' freed, ot_destroy t = Some (t', freed) /\ ot_rep t' [] /\ freed ≡ₚ l;
  ot_traverse_rep t l : ot_rep t l -> ot_traverse t = Some l;
  ot_count_rep t l : ot_rep t l -> ot_count t = u32 (Z.of_nat (length l))
}.

Module Tree.

Definition ARM_LEFT : Z := 0.
Definition ARM_PARENT : Z := 1.
Definition ARM_RIGHT : Z := 2.
Definition ARM_MIDDLE : Z := ARM_PARENT.

Definition shift (result : Z) : Z :=
  if 0 <? result then ARM_RIGHT else if result <? 0 then ARM_LEFT else ARM_PARENT.

Definition opposite (arm : Z) : Z := u8 (ARM_MIDDLE - (arm - ARM_MIDDLE)).

Record tree_node := TNode { link_left : Z; link_parent : Z; link_right : Z; arm : Z }.
#[export] Instance eta_tree_node : Eta tree_node :=
  fun n => TNode (link_left n) (link_parent n) (link_right n) (arm n).

Definition links (n : tree_node) (a : Z) : Z :=
  if a =? ARM_LEFT then link_left n else if a =? ARM_RIGHT then link_right n else link_parent n.
Definition set_link (a v : Z) (n : tree_node) : tree_node :=
  if a =? ARM_LEFT then n <| link_left := v |>
  else if a =? ARM_RIGHT then n <| link_right := v |>
  else n <| link_parent := v |>.

(** [tree_t] with the memory its nodes live in. *)
Record tree := TreeT { root : Z; tree_count : Z; nodes : gmap Z tree_node }.
#[export] Instance eta_tree : Eta tree := fun t => TreeT (root t) (tree_count t) (nodes t).

(** `n->f = ...` *)
Definition node_upd (n : Z) (f : tree_node -> tree_node) (t : tree) : option tree :=
  x ← nodes t !! n; Some (t <| nodes ::= <[n := f x]> |>).
Definition node_set (n : Z) (x : tree_node) (t : tree) : tree := t <| nodes ::= <[n := x]> |>.

Section ops.
Context (cmp : Z -> Z -> Z).
Implicit Types (t : tree) (n : Z) (fuel : nat).

(** The loops of the source follow links of the tree: no walk is longer than the
    number of nodes. *)
Definition walk_fuel t : nat := S (size (nodes t)).

(** find: the node, its parent and the side, NULL and the place for it otherwise. *)
Fixpoint find_loop fuel t (cur target last cur_arm : Z) : option (Z * Z * Z) :=
  if cur =? NULL then Some (cur, last, cur_arm)
  else
    let next_arm := shift (cmp target cur) in
    if next_arm =? ARM_MIDDLE then Some (cur, last, cur_arm)
    else
      match fuel with
      | O => None
      | S fuel => x ← nodes t !! cur; find_loop fuel t (links x next_arm) target cur next_arm
      end.
Definition find fuel t node target : option (Z * Z * Z) :=
  find_loop fuel t node target NULL ARM_MIDDLE.

Definition tree_count_node t : Z := tree_count t.

(** Where `tree_node_t **pparent` points. *)
Inductive pparent := PRoot | PLink (n a : Z).
Definition store (p : pparent) (v : Z) t : option tree :=
  match p with
  | PRoot => Some (t <| root := v |>)
  | PLink n a => node_upd n (set_link a v) t
  end.

Definition replace (pp : pparent) (new_node old_node : Z) t : option tree :=
  old ← nodes t !! old_node;
  let t := node_set new_node old t in
  t ← store pp new_node t;
  t ← (if link_left old =? NULL then Some t
       else node_upd (link_left old) (set_link ARM_PARENT new_node) t);
  if link_right old =? NULL then Some t
  else node_upd (link_right old) (set_link ARM_PARENT new_node) t.

Definition pparent_of n t : option pparent :=
  x ← nodes t !! n;
  Some (if link_parent x =? NULL then PRoot else PLink (link_parent x) (arm x)).

(** swap: [px] is the address of the local variable x. *)
Definition swap (px n1 n2 : Z) t : option tree :=
  pp ← pparent_of n1 t;
  t ← replace pp px n1 t;
  pp ← pparent_of n2 t;
  t ← replace pp n1 n2 t;
  pp ← pparent_of px t;
  t ← replace pp n2 px t;
  Some (t <| nodes ::= delete px |>).

Fixpoint follow_loop fuel t node (a : Z) : option Z :=
  x ← nodes t !! node;
  if links x a =? NULL then Some node
  else match fuel with O => None | S fuel => follow_loop fuel t (links x a) a end.
Definition follow t node (a : Z) : option Z :=
  if node =? NULL then Some node else follow_loop (walk_fuel t) t node a.

Fixpoint climb_loop fuel t node (a : Z) : option Z :=
  x ← nodes t !! node;
  if link_parent x =? NULL then Some NULL
  else if a =? arm x then
    match fuel with O => None | S fuel => climb_loop fuel t (link_parent x) a end
  else Some (link_parent x).
Definition sibling t node (a : Z) : option Z :=
  if node =? NULL then Some node
  else
    x ← nodes t !! node;
    if negb (links x a =? NULL) then follow t (links x a) (opposite a)
    else climb_loop (walk_fuel t) t node a.

Definition tree_init_node n t : tree := node_set n (TNode NULL NULL NULL ARM_MIDDLE) t.
Definition tree_init t : tree := t <| root := NULL |> <| tree_count := 0 |>.

Definition tree_first_node t node : option Z := follow t node ARM_LEFT.
Definition tree_last_node t node : option Z := follow t node ARM_RIGHT.
Definition tree_next_node t node : option Z := sibling t node ARM_RIGHT.
Definition tree_prev_node t node : option Z := sibling t node ARM_LEFT.

Definition tree_insert_node t node : option (tree * Z) :=
  let t := tree_init_node node t in
  '(old_node, parent, a) ← find (walk_fuel t) t (root t) node;
  if negb (old_node =? NULL) then Some (t, NULL)
  else
    t ← (if parent =? NULL then Some (t <| root := node |>)
         else
           t ← node_upd parent (set_link a node) t;
           t ← node_upd node (set_link ARM_PARENT parent) t;
           node_upd node (fun x => x <| arm := a |>) t);
    Some (t <| tree_count ::= fun c => u32 (c + 1) |>, node).

(** The local variable of swap lives at an address no node has. *)
Definition stack_x : Z := -1.

Definition tree_remove_node t node : option tree :=
  x ← nodes t !! node;
  t ← (if negb (link_left x =? NULL) && negb (link_right x =? NULL) then
         prev ← tree_prev_node t node; swap stack_x node prev t
       else Some t);
  x ← nodes t !! node;
  let pp := if link_parent x =? NULL then PRoot else PLink (link_parent x) (arm x) in
  let a := if negb (link_left x =? NULL) then ARM_LEFT else ARM_RIGHT in
  let p := links x a in
  t ← (if p =? NULL then Some t
       else
         t ← node_upd p (set_link ARM_PARENT (link_parent x)) t;
         node_upd p (fun y => y <| arm := arm x |>) t);
  t ← store pp p t;
  Some (t <| tree_count ::= fun c => u32 (c - 1) |>).

Fixpoint tree_find_loop fuel t (p target : Z) : option Z :=
  if p =? NULL then Some p
  else
    let a := shift (cmp target p) in
    if a =? ARM_MIDDLE then Some p
    else
      match fuel with
      | O => None
      | S fuel => x ← nodes t !! p; tree_find_loop fuel t (links x a) target
      end.
Definition tree_find_node t target : option Z := tree_find_loop (walk_fuel t) t (root t) target.

(** `tree_first_node((tree_node_t * )(&root))`, as asm.c calls it: the tree's own
    first member is taken for a left link, so an empty tree yields its own address
    [self]. *)
Definition first_of_tree (self : Z) t : option Z :=
  if root t =? NULL then Some self else tree_first_node t (root t).

(** tree_traverse: the nodes `each` is called on, in order. *)
Fixpoint traverse_loop fuel t (p : Z) : option (list Z) :=
  if p =? NULL then Some []
  else
    match fuel with
    | O => None
    | S fuel => q ← tree_next_node t p; rest ← traverse_loop fuel t q; Some (p :: rest)
    end.
Definition tree_traverse t : option (list Z) :=
  p ← tree_first_node t (root t); traverse_loop (walk_fuel t) t p.

(** tree_destroy: `remove` frees the object, so its node is gone afterwards. *)
Fixpoint descend_loop fuel t (q : Z) : option Z :=
  x ← nodes t !! q;
  if link_right x =? NULL then Some q
  else
    match fuel with
    | O => None
    | S fuel => q ← follow t (link_right x) ARM_LEFT; descend_loop fuel t q
    end.
Fixpoint destroy_loop fuel t (p : Z) (freed : list Z) : option (tree * list Z) :=
  if p =? NULL then Some (t, freed)
  else
    match fuel with
    | O => None
    | S fuel =>
        q ← descend_loop (walk_fuel t) t p;
        x ← nodes t !! q;
        let p := link_parent x in
        t ← (if p =? NULL then Some t
             else
               y ← nodes t !! p;
               node_upd p (set_link (if link_left y =? q then ARM_LEFT else ARM_RIGHT) NULL) t);
        destroy_loop fuel (t <| nodes ::= delete q |>) p (freed ++ [q])
    end.
Definition tree_destroy t : option (tree * list Z) :=
  p ← tree_first_node t (root t);
  '(t, freed) ← destroy_loop (walk_fuel t) t p [];
  Some (tree_init t, freed).
End ops.

(** ** Shapes and the memory that represents them *)

Inductive shape := Leaf | Node (l : shape) (n : Z) (r : shape).
#[export] Instance shape_eq_dec : EqDecision shape.
Proof. solve_decision. Defined.

Definition root_of (s : shape) : Z := match s with Leaf => NULL | Node _ n _ => n end.
Fixpoint inorder (s : shape) : list Z :=
  match s with Leaf => [] | Node l n r => inorder l ++ n :: inorder r end.

Section repr.
Implicit Types (h : gmap Z tree_node) (s : shape) (p a : Z).

Fixpoint repr h p a s : Prop :=
  match s with
  | Leaf => True
  | Node l n r =>
      n <> NULL /\ h !! n = Some (TNode (root_of l) p (root_of r) a) /\
      repr h n ARM_LEFT l /\ repr h n ARM_RIGHT r
  end.

(** A shape with a hole: the path from the hole to the root. *)
Inductive frame := FL (n : Z) (r : shape) | FR (l : shape) (n : Z).

Fixpoint plug (c : list frame) s : shape :=
  match c with
  | [] => s
  | FL n r :: c => plug c (Node s n r)
  | FR l n :: c => plug c (Node l n s)
  end.
Definition ctx_parent (c : list frame) : Z :=
  match c with [] => NULL | FL n _ :: _ | FR _ n :: _ => n end.
Definition ctx_arm (c : list frame) : Z :=
  match c with [] => ARM_MIDDLE | FL _ _ :: _ => ARM_LEFT | FR _ _ :: _ => ARM_RIGHT end.
Fixpoint cl (c : list frame) : list Z :=
  match c with [] => [] | FL _ _ :: c => cl c | FR l n :: c => cl c ++ inorder l ++ [n] end.
Fixpoint cr (c : list frame) : list Z :=
  match c with [] => [] | FL n r :: c => n :: inorder r ++ cr c | FR _ _ :: c => cr c end.

Fixpoint crepr h (c : list frame) (hole : Z) : Prop :=
  match c with
  | [] => True
  | FL n r :: c =>
      n <> NULL /\ h !! n = Some (TNode hole (ctx_parent c) (root_of r) (ctx_arm c)) /\
      repr h n ARM_RIGHT r /\ crepr h c n
  | FR l n :: c =>
      n <> NULL /\ h !! n = Some (TNode (root_of l) (ctx_parent c) hole (ctx_arm c)) /\
      repr h n ARM_LEFT l /\ crepr h c n
  end.

Lemma inorder_plug c s : inorder (plug c s) = cl c ++ inorder s ++ cr c.
Proof.
  revert s. induction c as [|[n r|l n] c IH]; intros s; simpl.
  - by rewrite app_nil_r.
  - rewrite IH. simpl. by rewrite <- app_assoc.
  - rewrite IH. simpl. by rewrite <- !app_assoc.
Qed.

Lemma plug_app c d s : plug (c ++ d) s = plug d (plug c s).
Proof. revert s. induction c as [|[] c IH]; intros s; simpl; auto. Qed.

Lemma cl_app c d : cl (c ++ d) = cl d ++ cl c.
Proof.
  induction c as [|[] c IH]; simpl; [by rewrite app_nil_r|done|]. by rewrite IH, <- app_assoc.
Qed.
Lemma cr_app c d : cr (c ++ d) = cr c ++ cr d.
Proof. induction c as [|[] c IH]; simpl; [done| |done]. by rewrite IH, <- app_assoc. Qed.

Lemma repr_plug h c s :
  repr h NULL ARM_MIDDLE (plug c s) <->
  crepr h c (root_of s) /\ repr h (ctx_parent c) (ctx_arm c) s.
Proof.
  revert s. induction c as [|[n r|l n] c IH]; intros s; simpl.
  - tauto.
  - rewrite IH. simpl. tauto.
  - rewrite IH. simpl. tauto.
Qed.

Lemma repr_ext h h' p a s :
  (forall x, x ∈ inorder s -> h' !! x = h !! x) -> repr h p a s -> repr h' p a s.
Proof.
  revert p a. induction s as [|l IHl n r IHr]; intros p a He; simpl; [done|].
  simpl in He. intros (? & Hn & ? & ?). split_and!; [done| | |].
  - rewrite He; [done|]. set_solver.
  - apply IHl; [|done]. intros; apply He; set_solver.
  - apply IHr; [|done]. intros; apply He; set_solver.
Qed.

Lemma crepr_ext h h' c hole :
  (forall x, x ∈ cl c ++ cr c -> h' !! x = h !! x) -> crepr h c hole -> crepr h' c hole.
Proof.
  revert hole. induction c as [|[n r|l n] c IH]; intros hole He; simpl; [done|..];
    simpl in He; intros (? & Hn & ? & ?); split_and!; try done.
  - rewrite He; [done|]. set_solver.
  - eapply repr_ext; [|done]. intros; apply He; set_solver.
  - apply IH; [|done]. intros; apply He; set_solver.
  - rewrite He; [done|]. set_solver.
  - eapply repr_ext; [|done]. intros; apply He; set_solver.
  - apply IH; [|done]. intros; apply He; set_solver.
Qed.

(** Every node of a represented shape is a non-NULL address in memory. *)
Lemma repr_dom h p a s : repr h p a s -> forall x, x ∈ inorder s -> x <> NULL /\ is_Some (h !! x).
Proof.
  revert p a. induction s as [|l IHl n r IHr]; intros p a; simpl.
  - by intros _ x ?%elem_of_nil.
  - intros (? & ? & Hl & Hr) x [?|[->|?]%elem_of_cons]%elem_of_app; eauto.
Qed.

Lemma repr_size h p a s : repr h p a s -> NoDup (inorder s) -> (length (inorder s) <= size h)%nat.
Proof.
  intros R N. rewrite <- (size_list_to_set (C:=gset Z)) by done. rewrite <- size_dom.
  apply subseteq_size. intros x Hx%elem_of_list_to_set.
  apply elem_of_dom. by eapply repr_dom.
Qed.

Lemma repr_root_pos h p a s : repr h p a s -> s <> Leaf -> root_of s <> NULL.
Proof. destruct s; simpl; [done|tauto]. Qed.

Lemma root_of_in s : root_of s <> NULL -> root_of s ∈ inorder s.
Proof. destruct s; simpl; [done|]. set_solver. Qed.

(** Hanging a subtree elsewhere: only the back link and side of its root change. *)
Definition reparent p a s h : gmap Z tree_node :=
  match s with
  | Leaf => h
  | Node l n r => <[n := TNode (root_of l) p (root_of r) a]> h
  end.

Lemma reparent_repr h p a p' a' s :
  repr h p a s -> NoDup (inorder s) -> repr (reparent p' a' s h) p' a' s.
Proof.
  destruct s as [|l n r]; simpl; [done|]. intros (? & ? & Hl & Hr) N.
  apply NoDup_app in N as (? & Hd & [Hn ?]%NoDup_cons).
  assert (n ∉ inorder l) by (intros ?; eapply Hd; [done|set_solver]).
  split_and!; [done|by rewrite lookup_insert_eq|..]; (eapply repr_ext; [|done]);
    intros x Hx; rewrite lookup_insert_ne; try done; set_solver.
Qed.

(** Hanging a node in the hole: the link of the innermost frame. *)
Definition rehang (hole : Z) (c : list frame) h : gmap Z tree_node :=
  match c with
  | [] => h
  | FL n r :: c => <[n := TNode hole (ctx_parent c) (root_of r) (ctx_arm c)]> h
  | FR l n :: c => <[n := TNode (root_of l) (ctx_parent c) hole (ctx_arm c)]> h
  end.

Lemma rehang_crepr h c hole hole' :
  crepr h c hole -> NoDup (cl c ++ cr c) -> crepr (rehang hole' c h) c hole'.
Proof.
  destruct c as [|[n r|l n] c]; simpl; [done|..]; intros (? & ? & Hs & Hc) N;
    (split_and!; [done|by rewrite lookup_insert_eq|..]).
  - eapply repr_ext; [|done]. intros x Hx. rewrite lookup_insert_ne; [done|].
    intros ->. apply NoDup_app in N as (_ & _ & [Hn _]%NoDup_cons). set_solver.
  - eapply crepr_ext; [|done]. intros x Hx. rewrite lookup_insert_ne; [done|].
    intros ->. apply NoDup_app in N as (_ & Hd & [Hn _]%NoDup_cons). set_solver.
  - eapply repr_ext; [|done]. intros x Hx. rewrite lookup_insert_ne; [done|].
    intros ->. rewrite app_assoc in N. rewrite <- !app_assoc in N.
    apply NoDup_app in N as (_ & _ & (_ & Hd & _)%NoDup_app). set_solver.
  - eapply crepr_ext; [|done]. intros x Hx. rewrite lookup_insert_ne; [done|].
    intros ->. rewrite <- !app_assoc in N.
    apply NoDup_app in N as (_ & Hd & (_ & _ & [Hn _]%NoDup_cons)%NoDup_app). set_solver.
Qed.
End repr.

(** ** Searching *)

Section search.
Context (cmp : Z -> Z -> Z).
Implicit Types (t : tree) (s : shape) (c : list frame).

Lemma app_split {A} (l r l1 l2 : list A) : l ++ r = l1 ++ l2 ->
  (exists k, l1 = l ++ k /\ r = k ++ l2) \/ (exists k, l = l1 ++ k /\ l2 = k ++ r).
Proof. intros [?|?]%app_eq_inv; [by right|by left]. Qed.

Lemma cuts_right x l n r l1 l2 :
  l ++ n :: r = l1 ++ l2 -> cuts cmp x l1 l2 -> 0 <= cmp x n ->
  exists k, l1 = l ++ n :: k /\ r = k ++ l2.
Proof.
  intros E [H1 H2] Hn. apply app_split in E as [(k & -> & Hk)|(k & -> & Hk)].
  - destruct k as [|y k]; simpl in Hk; simplify_eq; [|by exists k].
    apply Forall_cons in H2 as [? _]. lia.
  - subst l2. apply Forall_app in H2 as [_ [? _]%Forall_cons]. lia.
Qed.

Lemma cuts_left x l n r l1 l2 :
  l ++ n :: r = l1 ++ l2 -> cuts cmp x l1 l2 -> cmp x n <= 0 ->
  exists k, l = l1 ++ k /\ l2 = k ++ n :: r.
Proof.
  intros E [H1 H2] Hn. apply app_split in E as [(k & -> & Hk)|(k & -> & ->)]; [|by exists k].
  destruct k as [|y k]; simpl in Hk; simplify_eq.
  - exists []. by rewrite !app_nil_r.
  - apply Forall_app in H1 as [_ [? _]%Forall_cons]. lia.
Qed.

Lemma shift_spec z :
  (0 < z /\ shift z = ARM_RIGHT) \/ (z < 0 /\ shift z = ARM_LEFT) \/ (z = 0 /\ shift z = ARM_MIDDLE).
Proof.
  unfold shift. destruct (Z.ltb_spec 0 z); [by left|]. right.
  destruct (Z.ltb_spec z 0); [by left|]. right. split; [lia|done].
Qed.

(** A target that is not in the tree: the search ends in the hole where it belongs. *)
Lemma find_loop_none fuel t s c x p a l1 l2 :
  repr (nodes t) p a s -> inorder s = l1 ++ l2 -> cuts cmp x l1 l2 ->
  (length (inorder s) <= fuel)%nat ->
  exists d, plug d Leaf = s /\ cl d = l1 /\ cr d = l2 /\
    find_loop cmp fuel t (root_of s) x (ctx_parent c) (ctx_arm c) =
    Some (NULL, ctx_parent (d ++ c), ctx_arm (d ++ c)).
Proof.
  revert fuel c p a l1 l2. induction s as [|l IHl n r IHr]; intros fuel c p a l1 l2 R E H Hf;
    simpl in *.
  - symmetry in E. apply app_nil in E as [-> ->]. exists []. by destruct fuel.
  - destruct R as (Hn & Hh & Rl & Rr). rewrite length_app in Hf. simpl in Hf.
    destruct fuel as [|fuel]; [lia|]. cbn [find_loop].
    rewrite (proj2 (Z.eqb_neq n NULL)) by (unfold NULL in *; lia). rewrite Hh. simpl.
    destruct (shift_spec (cmp x n)) as [[Hz ->]|[[Hz ->]|[Hz _]]]; simpl.
    + destruct (cuts_right x _ _ _ _ _ E H) as (k & -> & Er); [lia|].
      destruct (IHr fuel (FR l n :: c) _ _ k l2 Rr Er) as (d & <- & <- & <- & Hfind); [|lia|].
      { destruct H as [H1 ?]. split; [|done]. by apply Forall_app in H1 as [_ [_ ?]%Forall_cons]. }
      exists (d ++ [FR l n]). rewrite plug_app. simpl. rewrite <- app_assoc.
      split_and!; [done| | |exact Hfind]; [|by rewrite cr_app, app_nil_r].
      rewrite cl_app. simpl. by rewrite <- app_assoc.
    + destruct (cuts_left x _ _ _ _ _ E H) as (k & El & ->); [lia|].
      destruct (IHl fuel (FL n r :: c) _ _ l1 k Rl El) as (d & <- & <- & <- & Hfind); [|lia|].
      { destruct H as [? H2]. split; [done|]. by apply Forall_app in H2 as [? _]. }
      exists (d ++ [FL n r]). rewrite plug_app. simpl. rewrite <- app_assoc.
      split_and!; [done| | |exact Hfind]; [by rewrite cl_app|].
      rewrite cr_app. simpl. by rewrite app_nil_r.
    + destruct (app_split _ _ _ _ E) as [(k & -> & Hk)|(k & _ & ->)].
      * destruct k as [|y k]; simpl in Hk; simplify_eq; destruct H as [Hl1 Hl2].
        -- apply Forall_cons in Hl2 as [? _]. lia.
        -- apply Forall_app in Hl1 as [_ [? _]%Forall_cons]. lia.
      * destruct H as [_ [_ [? _]%Forall_cons]%Forall_app]. lia.
Qed.

Lemma find_loop_some fuel t s x y p a last la l1 l2 :
  repr (nodes t) p a s -> inorder s = l1 ++ y :: l2 -> cuts cmp x l1 l2 -> cmp x y = 0 ->
  (length (inorder s) <= fuel)%nat ->
  exists last' la', find_loop cmp fuel t (root_of s) x last la = Some (y, last', la').
Proof.
  revert fuel p a last la l1 l2.
  induction s as [|l IHl n r IHr]; intros fuel p a last la l1 l2 R E [H1 H2] Hy Hf; simpl in *.
  { by destruct l1. }
  destruct R as (Hn & Hh & Rl & Rr). rewrite length_app in Hf. simpl in Hf.
  destruct fuel as [|fuel]; [lia|]. cbn [find_loop].
  rewrite (proj2 (Z.eqb_neq n NULL)) by (unfold NULL in *; lia). rewrite Hh. simpl.
  apply app_split in E as [(k & -> & Hk)|(k & El & Hk)].
  - destruct k as [|z k]; simpl in Hk; simplify_eq.
    + rewrite Hy. simpl. by do 2 eexists.
    + apply Forall_app in H1 as [_ [Hz H1]%Forall_cons].
      destruct (shift_spec (cmp x z)) as [[? ->]|[[? _]|[? _]]]; simpl; try lia.
      eapply IHr; [done|done|done|done|lia].
  - destruct k as [|z k]; simpl in Hk; simplify_eq.
    + rewrite Hy. simpl. by do 2 eexists.
    + apply Forall_app in H2 as [H2 [Hz ?]%Forall_cons].
      destruct (shift_spec (cmp x n)) as [[? _]|[[? ->]|[? _]]]; simpl; try lia.
      eapply IHl; [done|done|done|done|lia].
Qed.

Lemma tree_find_loop_find fuel t p x last la :
  tree_find_loop cmp fuel t p x = (fun r => r.1.1) <$> find_loop cmp fuel t p x last la.
Proof.
  revert p last la. induction fuel as [|fuel IH]; intros p last la; simpl;
    (destruct (p =? NULL); [done|]); (destruct (shift _ =? _); [done|]); [done|].
  destruct (nodes t !! p); simpl; [apply IH|done].
Qed.
End search.

(** ** Trees in memory *)

Section trees.
Implicit Types (t : tree) (s : shape) (c d : list frame).

Record is_tree t s : Prop := {
  it_repr : repr (nodes t) NULL ARM_MIDDLE s;
  it_root : root t = root_of s;
  it_nodup : NoDup (inorder s);
  it_count : tree_count t = u32 (Z.of_nat (length (inorder s)))
}.

Definition rep t (l : list Z) : Prop := exists s, is_tree t s /\ inorder s = l /\ Forall (fun x => 0 < x) l.

(** Writing through `pparent` hangs a node in the hole of a context. *)
Definition pp_of c : pparent :=
  match c with [] => PRoot | _ => PLink (ctx_parent c) (ctx_arm c) end.
Definition hang v c t : tree :=
  match c with [] => t <| root := v |> | _ => t <| nodes ::= rehang v c |> end.

Lemma store_hang t c hole v : crepr (nodes t) c hole -> store (pp_of c) v t = Some (hang v c t).
Proof.
  destruct c as [|[n r|l n] c]; simpl; [done|..]; intros (_ & Hn & _); unfold node_upd;
    rewrite Hn; done.
Qed.

Lemma root_of_plug c s s' : c <> [] -> root_of (plug c s) = root_of (plug c s').
Proof.
  revert s s'. induction c as [|[n r|l n] c IH]; intros s s' Hc; [done|..]; simpl;
    destruct c; try done; by apply IH.
Qed.

Lemma ctx_parent_in c : c <> [] -> ctx_parent c ∈ cl c ++ cr c.
Proof. destruct c as [|[] c]; simpl; intros; [done|set_solver|set_solver]. Qed.

Lemma crepr_parent h c hole : crepr h c hole -> c <> [] -> ctx_parent c <> NULL.
Proof. destruct c as [|[] c]; simpl; intros; [done|tauto|tauto]. Qed.

Lemma crepr_pp h c hole : crepr h c hole ->
  (if ctx_parent c =? NULL then PRoot else PLink (ctx_parent c) (ctx_arm c)) = pp_of c.
Proof.
  intros H. destruct c as [|f c]; [done|].
  pose proof (crepr_parent h (f :: c) hole H ltac:(done)).
  rewrite (proj2 (Z.eqb_neq (ctx_parent (f :: c)) NULL)) by (unfold NULL in *; lia). done.
Qed.

(** A subtree and a context around it make a tree. *)
Lemma hang_is_tree t c s s0 cnt :
  repr (nodes t) (ctx_parent c) (ctx_arm c) s -> crepr (nodes t) c (root_of s0) ->
  (c <> [] -> root t = root_of (plug c s0)) ->
  NoDup (inorder (plug c s)) -> cnt = u32 (Z.of_nat (length (inorder (plug c s)))) ->
  is_tree ((hang (root_of s) c t) <| tree_count := cnt |>) (plug c s).
Proof.
  intros R C Hr N Hcnt. constructor; [|destruct c; simpl|done|done].
  - pose proof N as N'. rewrite inorder_plug in N'.
    assert (Hdis : forall x, x ∈ inorder s -> x ∉ cl c ++ cr c).
    { apply NoDup_app in N' as (_ & H1 & (_ & H2 & _)%NoDup_app). intros x Hx [?|?]%elem_of_app.
      - by eapply H1; [|apply elem_of_app; left].
      - by eapply H2. }
    apply repr_plug. destruct c as [|f c]; [done|].
    change (nodes _) with (rehang (root_of s) (f :: c) (nodes t)). split.
    + eapply rehang_crepr; [done|].
      apply NoDup_app in N' as (? & H1 & (_ & H2 & ?)%NoDup_app). apply NoDup_app.
      split_and!; try done. intros x Hx ?. eapply H1; [done|]. apply elem_of_app. by right.
    + eapply repr_ext; [|done]. intros x Hx%Hdis.
      destruct f as [n r|l n]; simpl in *; rewrite lookup_insert_ne; try done; set_solver.
  - done.
  - rewrite (Hr ltac:(done)). by apply (root_of_plug (f :: c)).
Qed.

Lemma is_tree_ext t t' s :
  is_tree t s -> (forall x, x ∈ inorder s -> nodes t' !! x = nodes t !! x) ->
  root t' = root t -> tree_count t' = tree_count t -> is_tree t' s.
Proof.
  intros [R Hr N C] He Hr' Hc. constructor; [by eapply repr_ext|congruence|done|congruence].
Qed.

Lemma is_tree_pos t s x : is_tree t s -> x ∈ inorder s -> x <> NULL.
Proof. intros [R _ _ _] Hx. by eapply repr_dom. Qed.

Lemma is_tree_fuel t s : is_tree t s -> (length (inorder s) <= walk_fuel t)%nat.
Proof. intros [R _ N _]. pose proof (repr_size _ _ _ _ R N). unfold walk_fuel. lia. Qed.

Context (cmp : Z -> Z -> Z).

Lemma init_node_is_tree t s x : is_tree t s -> x ∉ inorder s -> is_tree (tree_init_node x t) s.
Proof.
  intros I Hx. eapply is_tree_ext; [done| |done|done].
  intros y Hy. simpl. rewrite lookup_insert_ne; [done|]. by intros ->.
Qed.

Lemma insert_new t l1 l2 x :
  rep t (l1 ++ l2) -> cuts cmp x l1 l2 -> 0 < x -> x ∉ l1 ++ l2 ->
  exists t', tree_insert_node cmp t x = Some (t', x) /\ rep t' (l1 ++ x :: l2).
Proof.
  intros (s & I & E & Hpos) H Hx Hin. rewrite <- E in Hin.
  pose proof (init_node_is_tree t s x I Hin) as I1. unfold tree_insert_node.
  set (t1 := tree_init_node x t) in *. pose proof (is_tree_fuel t1 s I1) as Hf.
  destruct I1 as [R1 Hr1 N1 C1].
  destruct (find_loop_none cmp (walk_fuel t1) t1 s [] x NULL ARM_MIDDLE l1 l2 R1 E H Hf)
    as (d & <- & <- & <- & Hfind). rewrite app_nil_r in Hfind.
  unfold find. rewrite Hr1. cbn [ctx_parent ctx_arm] in Hfind. rewrite Hfind. simpl.
  rewrite inorder_plug in E, Hin, N1. simpl in E, Hin, N1.
  apply repr_plug in R1 as [C1' _].
  assert (Nx : NoDup (inorder (plug d (Node Leaf x Leaf)))).
  { rewrite inorder_plug. simpl. apply NoDup_app in N1 as (? & H1 & ?). apply NoDup_app.
    split_and!; [done| |apply NoDup_cons; split; [set_solver|done]]. set_solver. }
  assert (Hlen : u32 (tree_count t1 + 1) =
                 u32 (Z.of_nat (length (inorder (plug d (Node Leaf x Leaf)))))).
  { rewrite C1, u32_add_l, !inorder_plug. f_equal. rewrite !length_app. simpl. lia. }
  set (t2 := node_set x (TNode NULL (ctx_parent d) NULL (ctx_arm d)) t1).
  exists ((hang x d t2) <| tree_count := u32 (tree_count t1 + 1) |>). split.
  - destruct d as [|f d].
    { simpl. unfold t1. simpl. by rewrite insert_insert_eq. }
    pose proof (crepr_parent _ _ _ C1' ltac:(done)) as Hp.
    rewrite (proj2 (Z.eqb_neq _ NULL)) by (unfold NULL in *; lia).
    pose proof (store_hang t1 (f :: d) (root_of Leaf) x C1') as Hst. simpl in Hst. simpl.
    rewrite Hst.
    assert (Hne : x <> ctx_parent (f :: d)).
    { intros Hc. apply Hin. rewrite Hc. by apply (ctx_parent_in (f :: d)). }
    unfold node_upd. simpl.
    assert (Hlk : rehang x (f :: d) (nodes t1) !! x = Some (TNode NULL NULL NULL ARM_MIDDLE)).
    { destruct f; simpl in *; rewrite lookup_insert_ne by done; apply lookup_insert_eq. }
    simpl in Hlk. rewrite Hlk. simpl. rewrite lookup_insert_eq. simpl.
    destruct f as [n r|l n]; simpl in *; rewrite ?insert_insert_eq;
      rewrite !(insert_insert_ne _ n x) by congruence; by rewrite ?insert_insert_eq.
  - exists (plug d (Node Leaf x Leaf)). rewrite inorder_plug. simpl.
    split; [|split; [done|by apply Forall_app in Hpos as [??]; apply Forall_app; split; [|constructor]]].
    apply (hang_is_tree t2 d (Node Leaf x Leaf) Leaf); try done.
    + simpl. split_and!; try done; [unfold NULL; lia|by rewrite lookup_insert_eq].
    + eapply crepr_ext; [|done]. intros y Hy. simpl. rewrite lookup_insert_ne; [done|].
      by intros ->.
Qed.

Lemma insert_dup t l1 y l2 x :
  rep t (l1 ++ y :: l2) -> cuts cmp x l1 l2 -> cmp x y = 0 -> 0 < x -> x ∉ l1 ++ y :: l2 ->
  exists t', tree_insert_node cmp t x = Some (t', NULL) /\ rep t' (l1 ++ y :: l2).
Proof.
  intros (s & I & E & Hpos) H Hy Hx Hin. rewrite <- E in Hin.
  pose proof (init_node_is_tree t s x I Hin) as I1. unfold tree_insert_node.
  set (t1 := tree_init_node x t) in *. pose proof (is_tree_fuel t1 s I1) as Hf.
  destruct (find_loop_some cmp (walk_fuel t1) t1 s x y NULL ARM_MIDDLE NULL ARM_MIDDLE l1 l2)
    as (last & la & Hfind); try done; [apply I1|].
  unfold find. rewrite (it_root _ _ I1), Hfind. simpl.
  assert (y <> NULL) by (eapply is_tree_pos; [exact I|rewrite E; set_solver]).
  rewrite (proj2 (Z.eqb_neq y NULL)) by (unfold NULL in *; lia). simpl.
  exists t1. split; [done|]. by exists s.
Qed.

Lemma find_none t l1 l2 x :
  rep t (l1 ++ l2) -> cuts cmp x l1 l2 -> tree_find_node cmp t x = Some NULL.
Proof.
  intros (s & I & E & Hpos) H. pose proof (is_tree_fuel t s I) as Hf. destruct I as [R Hr _ _].
  unfold tree_find_node. rewrite (tree_find_loop_find cmp _ _ _ _ NULL ARM_MIDDLE), Hr.
  destruct (find_loop_none cmp (walk_fuel t) t s [] x NULL ARM_MIDDLE l1 l2 R E H Hf)
    as (d & _ & _ & _ & Hfind).
  cbn [ctx_parent ctx_arm] in Hfind. by rewrite Hfind.
Qed.

Lemma find_some t l1 y l2 x :
  rep t (l1 ++ y :: l2) -> cuts cmp x l1 l2 -> cmp x y = 0 -> tree_find_node cmp t x = Some y.
Proof.
  intros (s & I & E & Hpos) H Hy. pose proof (is_tree_fuel t s I) as Hf. destruct I as [R Hr _ _].
  unfold tree_find_node. rewrite (tree_find_loop_find cmp _ _ _ _ NULL ARM_MIDDLE), Hr.
  by destruct (find_loop_some cmp (walk_fuel t) t s x y NULL ARM_MIDDLE NULL ARM_MIDDLE l1 l2)
    as (last & la & ->).
Qed.

End trees.

(** ** Walking *)

Section walks.
Implicit Types (t : tree) (s : shape) (c d : list frame).

(** The place of a node in its shape. *)
Lemma locate s l1 x l2 : inorder s = l1 ++ x :: l2 ->
  exists c sl sr, plug c (Node sl x sr) = s /\ cl c ++ inorder sl = l1 /\ inorder sr ++ cr c = l2.
Proof.
  revert l1 l2. induction s as [|l IHl n r IHr]; intros l1 l2 E; simpl in E; [by destruct l1|].
  apply app_split in E as [(k & -> & Hk)|(k & El & Hk)].
  - destruct k as [|z k]; simpl in Hk; simplify_eq.
    + exists [], l, r. by rewrite !app_nil_r.
    + destruct (IHr k l2 ltac:(done)) as (c & sl & sr & <- & <- & <-).
      exists (c ++ [FR l z]), sl, sr. rewrite plug_app, cl_app, cr_app. simpl.
      rewrite app_nil_r. split_and!; [done| |done]. by rewrite <- !app_assoc.
  - destruct k as [|z k]; simpl in Hk; simplify_eq.
    + exists [], l, r. rewrite !app_nil_r in *. by rewrite El.
    + destruct (IHl l1 k El) as (c & sl & sr & <- & <- & <-).
      exists (c ++ [FL n r]), sl, sr. rewrite plug_app, cl_app, cr_app. simpl.
      rewrite app_nil_r. split_and!; [done|done|]. by rewrite <- !app_assoc.
Qed.

Lemma inorder_nil s : inorder s = [] -> s = Leaf.
Proof. destruct s; simpl; [done|]. by intros [_ ?]%app_nil. Qed.

Lemma follow_loop_left fuel t p a s x l :
  repr (nodes t) p a s -> inorder s = x :: l -> (length (inorder s) <= fuel)%nat ->
  follow_loop fuel t (root_of s) ARM_LEFT = Some x.
Proof.
  revert fuel p a l. induction s as [|sl IHl n sr IHr]; intros fuel p a l R E Hf; [done|].
  simpl in *. destruct R as (Hn & Hh & Rl & Rr). rewrite length_app in Hf.
  destruct fuel as [|fuel]; [simpl in Hf; lia|]. cbn [follow_loop]. rewrite Hh. simpl.
  destruct (inorder sl) as [|y k] eqn:El.
  - apply inorder_nil in El as ->. simpl. by simplify_eq/=.
  - simplify_eq/=. pose proof (repr_root_pos _ _ _ _ Rl ltac:(by destruct sl)).
    change (links _ ARM_LEFT) with (root_of sl).
    rewrite (proj2 (Z.eqb_neq (root_of sl) NULL)) by (unfold NULL in *; lia).
    eapply IHl; [done|done|]. simpl in *. lia.
Qed.

Lemma follow_loop_right fuel t p a s x l :
  repr (nodes t) p a s -> inorder s = l ++ [x] -> (length (inorder s) <= fuel)%nat ->
  follow_loop fuel t (root_of s) ARM_RIGHT = Some x.
Proof.
  revert fuel p a l. induction s as [|sl IHl n sr IHr]; intros fuel p a l R E Hf;
    [by destruct l|].
  simpl in *. destruct R as (Hn & Hh & Rl & Rr). rewrite length_app in Hf.
  destruct fuel as [|fuel]; [simpl in Hf; lia|]. cbn [follow_loop]. rewrite Hh. simpl.
  destruct (decide (sr = Leaf)) as [->|Hr].
  - simpl in *. by apply app_inj_tail in E as [_ ->].
  - pose proof (repr_root_pos _ _ _ _ Rr Hr).
    change (links _ ARM_RIGHT) with (root_of sr).
    rewrite (proj2 (Z.eqb_neq (root_of sr) NULL)) by (unfold NULL in *; lia).
    destruct (inorder sr) as [|y k _] eqn:Er using rev_ind; [by apply inorder_nil in Er|].
    rewrite app_comm_cons, app_assoc in E. apply app_inj_tail in E as [_ ->].
    eapply IHr; [done|done|]. simpl in Hf. lia.
Qed.

Lemma climb_right fuel t c nd x :
  crepr (nodes t) c x -> nodes t !! x = Some nd -> link_parent nd = ctx_parent c ->
  arm nd = ctx_arm c -> (length c <= fuel)%nat ->
  climb_loop fuel t x ARM_RIGHT = Some (default NULL (head (cr c))).
Proof.
  revert fuel nd x. induction c as [|f c IH]; intros fuel nd x C Hx Hp Ha Hf.
  - destruct fuel; simpl; rewrite Hx; simpl; by rewrite Hp.
  - pose proof (crepr_parent _ _ _ C ltac:(done)) as Hpn.
    destruct fuel as [|fuel]; [simpl in Hf; lia|]. cbn [climb_loop]. rewrite Hx. simpl.
    rewrite Hp, Ha, (proj2 (Z.eqb_neq (ctx_parent (f :: c)) NULL)) by (unfold NULL in *; lia).
    destruct f as [n r|l n]; simpl in *; [done|].
    destruct C as (_ & Hn & _ & C). eapply IH; [done|exact Hn|done|done|lia].
Qed.

Lemma length_ctx c s : (length c <= length (inorder (plug c s)))%nat.
Proof.
  rewrite inorder_plug, !length_app. induction c as [|[] c IH]; simpl;
    rewrite ?length_app; simpl; lia.
Qed.

Lemma next_rep t l1 x l2 :
  rep t (l1 ++ x :: l2) -> tree_next_node t x = Some (default NULL (head l2)).
Proof.
  intros (s & I & E & Hpos). pose proof (is_tree_pos t s x I ltac:(rewrite E; set_solver)) as Hx.
  destruct (locate _ _ _ _ E) as (c & sl & sr & <- & <- & <-).
  pose proof (is_tree_fuel _ _ I) as Hf. destruct I as [R _ _ _].
  apply repr_plug in R as [C R]. simpl in R. destruct R as (_ & Hn & Rl & Rr).
  unfold tree_next_node, sibling. rewrite (proj2 (Z.eqb_neq x NULL)) by (unfold NULL in *; lia).
  rewrite Hn. cbn [mbind option_bind]. change (links _ ARM_RIGHT) with (root_of sr).
  change (opposite ARM_RIGHT) with ARM_LEFT.
  pose proof (length_ctx c (Node sl x sr)).
  destruct (inorder sr) as [|y k] eqn:Er.
  - apply inorder_nil in Er as ->. change (negb (root_of Leaf =? NULL)) with false. cbv iota.
    eapply (climb_right _ _ c); [done|exact Hn|done|done|].
    unfold walk_fuel in *. lia.
  - pose proof (repr_root_pos _ _ _ _ Rr ltac:(by destruct sr)) as Hp.
    rewrite (proj2 (Z.eqb_neq (root_of sr) NULL)) by (unfold NULL in *; lia). simpl.
    unfold follow. rewrite (proj2 (Z.eqb_neq (root_of sr) NULL)) by (unfold NULL in *; lia).
    eapply follow_loop_left; [done|done|]. rewrite inorder_plug, !length_app in Hf.
    simpl in Hf. rewrite length_app in Hf. simpl in Hf. lia.
Qed.

Lemma prev_rep t c sl x sr l y :
  is_tree t (plug c (Node sl x sr)) -> inorder sl = l ++ [y] -> tree_prev_node t x = Some y.
Proof.
  intros I El. pose proof (is_tree_fuel _ _ I) as Hf. destruct I as [R _ _ _].
  apply repr_plug in R as [C R]. simpl in R. destruct R as (Hx & Hn & Rl & Rr).
  unfold tree_prev_node, sibling. rewrite (proj2 (Z.eqb_neq x NULL)) by (unfold NULL in *; lia).
  rewrite Hn. cbn [mbind option_bind]. change (links _ ARM_LEFT) with (root_of sl).
  change (opposite ARM_LEFT) with ARM_RIGHT.
  pose proof (repr_root_pos _ _ _ _ Rl ltac:(destruct sl; [by destruct l|done])) as Hp.
  rewrite (proj2 (Z.eqb_neq (root_of sl) NULL)) by (unfold NULL in *; lia). simpl.
  unfold follow. rewrite (proj2 (Z.eqb_neq (root_of sl) NULL)) by (unfold NULL in *; lia).
  eapply follow_loop_right; [done|done|]. rewrite inorder_plug, !length_app in Hf.
  simpl in Hf. rewrite length_app in Hf. simpl in Hf. lia.
Qed.

Lemma first_rep t x l : rep t (x :: l) -> tree_first_node t (root t) = Some x.
Proof.
  intros (s & I & E & Hpos). pose proof (is_tree_fuel _ _ I) as Hf. destruct I as [R Hr _ _].
  unfold tree_first_node, follow. rewrite Hr.
  pose proof (repr_root_pos _ _ _ _ R ltac:(by destruct s)) as Hp.
  rewrite (proj2 (Z.eqb_neq (root_of s) NULL)) by (unfold NULL in *; lia).
  by eapply follow_loop_left.
Qed.

Lemma rep_nil_root t : rep t [] -> root t = NULL.
Proof. intros (s & [_ -> _ _] & ->%inorder_nil & _). done. Qed.

(** ** Removing *)

Lemma pparent_of_spec t c sl x sr :
  is_tree t (plug c (Node sl x sr)) -> pparent_of x t = Some (pp_of c).
Proof.
  intros [R _ _ _]. apply repr_plug in R as [C (_ & Hn & _)]. unfold pparent_of. rewrite Hn.
  simpl. f_equal. by eapply crepr_pp.
Qed.

(** The parent link of the root of a subtree, where there is one. *)
Lemma set_parent_reparent t p a s v :
  repr (nodes t) p a s ->
  (if root_of s =? NULL then Some t else node_upd (root_of s) (set_link ARM_PARENT v) t) =
  Some (t <| nodes ::= reparent v a s |>).
Proof.
  destruct s as [|l n r]; simpl; [by destruct t|]. intros (? & Hn & _).
  rewrite (proj2 (Z.eqb_neq n NULL)) by (unfold NULL in *; lia). unfold node_upd. by rewrite Hn.
Qed.

Lemma not_elem_of_app_3 (x : Z) l1 l2 l3 :
  x ∉ l1 ++ l2 ++ l3 -> (x ∉ l1) /\ (x ∉ l2) /\ (x ∉ l3).
Proof. rewrite !not_elem_of_app. tauto. Qed.

Lemma plug_perm c sl n sr :
  inorder (plug c (Node sl n sr)) ≡ₚ n :: inorder sl ++ inorder sr ++ (cl c ++ cr c).
Proof.
  rewrite inorder_plug. simpl. rewrite <- (Permutation_middle (inorder sl)). simpl.
  rewrite <- Permutation_middle. f_equiv. rewrite (Permutation_app_comm (cl c)).
  rewrite <- !app_assoc. by rewrite (Permutation_app_comm (cl c)).
Qed.

Lemma nodup_parts c sl n sr :
  NoDup (inorder (plug c (Node sl n sr))) ->
  NoDup (inorder sl) /\ NoDup (inorder sr) /\ NoDup (cl c ++ cr c) /\
  (n ∉ inorder sl) /\ (n ∉ inorder sr) /\ (n ∉ cl c ++ cr c) /\
  (forall x, x ∈ inorder sl -> (x ∉ inorder sr) /\ (x ∉ cl c ++ cr c)) /\
  (forall x, x ∈ inorder sr -> x ∉ cl c ++ cr c).
Proof.
  rewrite plug_perm. intros [Hn (? & H1 & (? & H2 & ?)%NoDup_app)%NoDup_app]%NoDup_cons.
  apply not_elem_of_app_3 in Hn as (? & ? & ?). split_and!; try done.
  intros x Hx. by apply not_elem_of_app, H1.
Qed.

Lemma reparent_ne p a s h x : x ∉ inorder s -> reparent p a s h !! x = h !! x.
Proof.
  destruct s as [|l n r]; simpl; [done|]. intros Hx. apply lookup_insert_ne. set_solver.
Qed.

Lemma rehang_ne v c h x : x ∉ cl c ++ cr c -> rehang v c h !! x = h !! x.
Proof.
  destruct c as [|[n r|l n] c]; simpl; [done|..]; intros Hx; apply lookup_insert_ne; set_solver.
Qed.

Lemma nodes_hang v c t : nodes (hang v c t) = rehang v c (nodes t).
Proof. by destruct c. Qed.

Lemma replace_spec t c sl old sr new :
  is_tree t (plug c (Node sl old sr)) -> new <> NULL ->
  new ∉ inorder (plug c (Node sl old sr)) ->
  exists t', replace (pp_of c) new old t = Some t' /\ is_tree t' (plug c (Node sl new sr)).
Proof.
  intros [R Hr N C] Hnew Hin. apply repr_plug in R as [Cr (Hold & Hn & Rl & Rr)].
  destruct (nodup_parts _ _ _ _ N) as (Nl & Nr & Nc & Hol & Hor & Hoc & Dl & Dr).
  rewrite plug_perm in Hin.
  apply not_elem_of_cons in Hin as [Hne (Hil & Hir & Hic)%not_elem_of_app_3].
  unfold replace. rewrite Hn. cbn [mbind option_bind link_left link_right].
  set (t1 := node_set new _ t).
  assert (Hext : forall x, x <> new -> nodes t1 !! x = nodes t !! x)
    by (intros x Hx; simpl; by rewrite lookup_insert_ne).
  assert (Cr1 : crepr (nodes t1) c old)
    by (eapply crepr_ext; [|exact Cr]; intros x Hx; apply Hext; by intros ->).
  rewrite (store_hang t1 c old new Cr1). cbn [mbind option_bind].
  set (h2 := nodes (hang new c t1)).
  assert (H2 : forall x, x <> new -> x ∉ cl c ++ cr c -> h2 !! x = nodes t !! x).
  { intros x Hx Hx'. unfold h2. rewrite nodes_hang, rehang_ne by done. by apply Hext. }
  assert (Rl2 : repr h2 old ARM_LEFT sl).
  { eapply repr_ext; [|exact Rl]. intros x Hx. apply H2; [by intros ->|]. by apply Dl. }
  rewrite (set_parent_reparent (hang new c t1) old ARM_LEFT sl new Rl2). cbn [mbind option_bind].
  set (t3 := (hang new c t1) <| nodes ::= reparent new ARM_LEFT sl |>).
  assert (Rr3 : repr (nodes t3) old ARM_RIGHT sr).
  { eapply repr_ext; [|exact Rr]. intros x Hx. simpl. rewrite reparent_ne.
    - apply H2; [by intros ->|]. by apply Dr.
    - intros ?. by destruct (Dl x). }
  pose proof (set_parent_reparent t3 old ARM_RIGHT sr new Rr3) as Hst. rewrite Hst.
  eexists. split; [done|].
  set (h4 := reparent new ARM_RIGHT sr (reparent new ARM_LEFT sl h2)).
  assert (H4 : forall x, x ∉ inorder sl -> x ∉ inorder sr -> h4 !! x = h2 !! x).
  { intros x ? ?. unfold h4. by rewrite !reparent_ne. }
  assert (Nn : NoDup (inorder (plug c (Node sl new sr)))).
  { rewrite plug_perm in N |- *. apply NoDup_cons in N as [_ N]. apply NoDup_cons. split; [|done].
    rewrite !not_elem_of_app in *. tauto. }
  constructor; [| |done|].
  - change (nodes _) with h4. apply repr_plug. split; [|simpl; split_and!].
    + eapply crepr_ext; [|eapply rehang_crepr; [exact Cr1|exact Nc]].
      intros x Hx. rewrite <- nodes_hang. apply H4; intros Hx'; [by destruct (Dl x Hx')|by apply (Dr x Hx')].
    + done.
    + rewrite H4 by done. unfold h2. rewrite nodes_hang, rehang_ne by done. apply lookup_insert_eq.
    + unfold h4. eapply repr_ext; [|by eapply (reparent_repr h2 old ARM_LEFT)].
      intros x Hx. rewrite reparent_ne; [done|]. by apply Dl.
    + by eapply reparent_repr.
  - change (root _) with (root (hang new c t1)). destruct c as [|f c]; [done|]. simpl root.
    rewrite Hr. by apply (root_of_plug (f :: c)).
  - change (tree_count _) with (tree_count (hang new c t1)).
    transitivity (tree_count t); [by destruct c|]. rewrite C, !plug_perm. done.
Qed.

Lemma swap_spec t c d dl m dr n sr px :
  is_tree t (plug c (Node (plug d (Node dl m dr)) n sr)) -> px <> NULL ->
  px ∉ inorder (plug c (Node (plug d (Node dl m dr)) n sr)) ->
  exists t', swap px n m t = Some t' /\
    is_tree t' (plug c (Node (plug d (Node dl n dr)) m sr)).
Proof.
  intros I Hpx Hfresh. pose proof (is_tree_pos _ _ n I) as Hn0. pose proof (is_tree_pos _ _ m I) as Hm0.
  pose proof (it_nodup _ _ I) as N.
  assert (Hm : m ∈ inorder (plug d (Node dl m dr))) by (rewrite plug_perm; set_solver).
  rewrite plug_perm in Hn0, Hm0, Hfresh.
  specialize (Hn0 ltac:(set_solver)). specialize (Hm0 ltac:(set_solver)).
  unfold swap. rewrite (pparent_of_spec _ _ _ _ _ I). cbn [mbind option_bind].
  destruct (replace_spec t c _ n sr px I Hpx) as (t1 & -> & I1); [by rewrite plug_perm|].
  cbn [mbind option_bind].
  change (plug c (Node (plug d (Node dl m dr)) px sr))
    with (plug (FL px sr :: c) (plug d (Node dl m dr))) in I1. rewrite <- plug_app in I1.
  rewrite (pparent_of_spec _ _ _ _ _ I1). cbn [mbind option_bind].
  destruct (nodup_parts _ _ _ _ N) as (_ & _ & _ & Hol & Hor & Hoc & _ & _).
  destruct (replace_spec t1 _ dl m dr n I1 Hn0) as (t2 & -> & I2).
  { rewrite plug_app. simpl. rewrite plug_perm. rewrite !not_elem_of_cons, !not_elem_of_app in *.
    set_solver. }
  cbn [mbind option_bind]. rewrite plug_app in I2. simpl in I2.
  rewrite (pparent_of_spec _ _ _ _ _ I2). cbn [mbind option_bind].
  assert (Hmn : m ∉ inorder (plug c (Node (plug d (Node dl n dr)) px sr))).
  { rewrite plug_perm in N. rewrite plug_perm in Hm, N, Hol.
    apply NoDup_cons in N as [_ N]. simpl in N. apply NoDup_cons in N as [N _].
    rewrite plug_perm, !not_elem_of_cons, !not_elem_of_app, plug_perm in *.
    rewrite !not_elem_of_cons, !not_elem_of_app in *. set_solver. }
  destruct (replace_spec t2 c _ px sr m I2 Hm0 Hmn) as (t3 & -> & I3).
  cbn [mbind option_bind]. eexists. split; [done|].
  eapply is_tree_ext; [exact I3| |done|done].
  intros x Hx. simpl. rewrite lookup_delete_ne; [done|]. intros <-.
  rewrite !plug_perm in Hx. rewrite !plug_perm in Hfresh. set_solver.
Qed.

(** Unlinking a node with at most one child. *)
Lemma unlink_spec t c sl n sr :
  is_tree t (plug c (Node sl n sr)) -> sl = Leaf \/ sr = Leaf ->
  let s := match sl with Leaf => sr | _ => sl end in
  exists t',
    (x ← nodes t !! n;
     let pp := if link_parent x =? NULL then PRoot else PLink (link_parent x) (arm x) in
     let a := if negb (link_left x =? NULL) then ARM_LEFT else ARM_RIGHT in
     let p := links x a in
     t ← (if p =? NULL then Some t
          else
            t ← node_upd p (set_link ARM_PARENT (link_parent x)) t;
            node_upd p (fun y => y <| arm := arm x |>) t);
     t ← store pp p t;
     Some (t <| tree_count ::= fun k => u32 (k - 1) |>)) = Some t' /\
    is_tree t' (plug c s).
Proof.
  intros [R Hr N C] Hleaf s. apply repr_plug in R as [Cr (Hn & Hh & Rl & Rr)]. simpl in Cr.
  destruct (nodup_parts _ _ _ _ N) as (Nl & Nr & Nc & Hol & Hor & Hoc & Dl & Dr).
  rewrite Hh. cbn [mbind option_bind link_left link_parent arm]. rewrite (crepr_pp _ _ _ Cr).
  assert (Hp : links (TNode (root_of sl) (ctx_parent c) (root_of sr) (ctx_arm c))
                 (if negb (root_of sl =? NULL) then ARM_LEFT else ARM_RIGHT) = root_of s).
  { destruct (decide (sl = Leaf)) as [->|Hl]; [done|].
    rewrite (proj2 (Z.eqb_neq (root_of sl) NULL)) by (by eapply repr_root_pos).
    by destruct sl. }
  rewrite Hp.
  assert (Hs : exists a, repr (nodes t) n a s) by (destruct sl; eauto).
  destruct Hs as [a Rs].
  assert (Ns : NoDup (inorder s)) by (destruct sl; done).
  assert (Hperm : inorder sl ++ inorder sr = inorder s).
  { unfold s. destruct sl; [done|]. destruct Hleaf as [| ->]; [done|]. by rewrite app_nil_r. }
  clearbody s. set (t1 := t <| nodes ::= reparent (ctx_parent c) (ctx_arm c) s |>).
  assert (Ht1 : (if root_of s =? NULL then Some t
          else
            t ← node_upd (root_of s) (set_link ARM_PARENT (ctx_parent c)) t;
            node_upd (root_of s) (fun y => y <| arm := ctx_arm c |>) t) = Some t1).
  { unfold t1. destruct s as [|l0 n0 r0]; [by destruct t|].
    destruct Rs as (Hnn & Hn0 & _). cbn [root_of].
    rewrite (proj2 (Z.eqb_neq n0 NULL)) by done. unfold node_upd. rewrite Hn0. simpl.
    rewrite lookup_insert_eq. simpl. by rewrite insert_insert_eq. }
  rewrite Ht1. cbn [mbind option_bind].
  assert (Cr1 : crepr (nodes t1) c n).
  { eapply crepr_ext; [|exact Cr]. intros x Hx. simpl. apply reparent_ne.
    rewrite <- Hperm, elem_of_app. intros [Hx'|Hx']; [by destruct (Dl x)|by destruct (Dr x Hx')]. }
  rewrite (store_hang t1 c n _ Cr1). cbn [mbind option_bind].
  exists ((hang (root_of s) c t1) <| tree_count := u32 (tree_count t - 1) |>).
  split; [by destruct c|].
  apply (hang_is_tree t1 c s (Node sl n sr)); [by eapply reparent_repr|exact Cr1|done|..].
  - rewrite plug_perm in N. apply NoDup_cons in N as [_ N]. rewrite inorder_plug.
    rewrite app_assoc, Hperm in N.
    by rewrite Permutation_app_comm, <- app_assoc, (Permutation_app_comm (cr c)).
  - rewrite C, u32_sub_l. f_equal. rewrite plug_perm, inorder_plug, <- Hperm. simpl.
    rewrite !length_app. lia.
Qed.

Lemma remove_rep t l1 x l2 :
  rep t (l1 ++ x :: l2) -> exists t', tree_remove_node t x = Some t' /\ rep t' (l1 ++ l2).
Proof.
  intros (s & I & E & Hpos). destruct (locate _ _ _ _ E) as (c & sl & sr & <- & <- & <-).
  assert (Hpos' : Forall (fun x => 0 < x) ((cl c ++ inorder sl) ++ (inorder sr ++ cr c))).
  { apply Forall_app in Hpos as [? [? ?]%Forall_cons]. by apply Forall_app. }
  unfold tree_remove_node. pose proof (it_repr _ _ I) as R.
  apply repr_plug in R as [_ (_ & Hh & Rl & Rr)]. rewrite Hh. cbn [mbind option_bind link_left link_right].
  assert (Hcase : (sl <> Leaf /\ sr <> Leaf) \/ (sl = Leaf \/ sr = Leaf))
    by (destruct (decide (sl = Leaf)), (decide (sr = Leaf)); tauto).
  destruct Hcase as [[Hl Hr]|Hleaf].
  - rewrite (proj2 (Z.eqb_neq (root_of sl) NULL)) by (by eapply repr_root_pos).
    rewrite (proj2 (Z.eqb_neq (root_of sr) NULL)) by (by eapply repr_root_pos).
    simpl negb. simpl andb. cbv iota.
    destruct (inorder sl) as [|m k _] eqn:El using rev_ind; [by apply inorder_nil in El|].
    rewrite (prev_rep t c sl x sr k m I El). cbn [mbind option_bind].
    destruct (locate sl k m [] El) as (d & dl & dr & <- & <- & Hnil).
    apply app_nil in Hnil as [->%inorder_nil Hcr].
    destruct (swap_spec t c d dl m Leaf x sr stack_x I) as (t1 & -> & I1); [done| |].
    { intros Hin. rewrite E in Hin. rewrite Forall_forall in Hpos. specialize (Hpos _ Hin).
      unfold stack_x in Hpos. lia. }
    cbn [mbind option_bind].
    change (plug c (Node (plug d (Node dl x Leaf)) m sr))
      with (plug (FL m sr :: c) (plug d (Node dl x Leaf))) in I1. rewrite <- plug_app in I1.
    destruct (unlink_spec t1 _ dl x Leaf I1) as (t2 & Hu & I2); [by right|].
    exists t2. split; [exact Hu|]. eexists. split; [exact I2|].
    assert (El2 : inorder (plug (d ++ FL m sr :: c) match dl with Leaf => Leaf | _ => dl end) =
            (cl c ++ (cl d ++ inorder dl) ++ [m]) ++ inorder sr ++ cr c).
    { rewrite inorder_plug, cl_app, cr_app. simpl. rewrite Hcr. simpl.
      replace (match dl with Leaf => Leaf | _ => dl end) with dl by (by destruct dl).
      by rewrite <- !app_assoc. }
    rewrite El2. by split.
  - assert (negb (root_of sl =? NULL) && negb (root_of sr =? NULL) = false) as ->.
    { destruct Hleaf as [-> | ->]; simpl; [done|]. by rewrite andb_false_r. }
    destruct (unlink_spec t c sl x sr I Hleaf) as (t2 & Hu & I2).
    exists t2. split; [exact Hu|]. eexists. split; [exact I2|].
    assert (El2 : inorder (plug c match sl with Leaf => sr | _ => sl end) =
            (cl c ++ inorder sl) ++ inorder sr ++ cr c).
    { rewrite inorder_plug. destruct sl; simpl; [by rewrite app_nil_r|].
      destruct Hleaf as [| ->]; [done|]. by rewrite <- !app_assoc. }
    rewrite El2. by split.
Qed.

(** ** Whole-tree walks *)

Lemma traverse_loop_spec fuel t l1 x l2 :
  rep t (l1 ++ x :: l2) -> (length l2 < fuel)%nat -> traverse_loop fuel t x = Some (x :: l2).
Proof.
  revert l1 x l2. induction fuel as [|fuel IH]; intros l1 x l2 Hrep Hf; [lia|]. cbn [traverse_loop].
  assert (Hx : 0 < x).
  { destruct Hrep as (s & _ & _ & Hpos). by apply Forall_app in Hpos as [_ [? _]%Forall_cons]. }
  rewrite (proj2 (Z.eqb_neq x NULL)) by (unfold NULL; lia).
  rewrite (next_rep t l1 x l2 Hrep). cbn [mbind option_bind]. destruct l2 as [|y l2].
  - simpl. by destruct fuel.
  - simpl default. rewrite (IH (l1 ++ [x]) y l2); [done| |simpl in Hf; lia].
    by rewrite <- app_assoc.
Qed.

Lemma traverse_rep t l : rep t l -> tree_traverse t = Some l.
Proof.
  intros Hrep. unfold tree_traverse. destruct l as [|x l].
  - by rewrite (rep_nil_root t Hrep).
  - rewrite (first_rep t x l Hrep). cbn [mbind option_bind].
    apply (traverse_loop_spec _ t []); [done|]. destruct Hrep as (s & I & E & _).
    pose proof (is_tree_fuel _ _ I) as Hf. rewrite E in Hf. simpl in Hf. lia.
Qed.

(** On the way through tree_destroy everything to the left of the path is gone. *)
Definition cleared c : Prop :=
  Forall (fun f => match f with FR l _ => l = Leaf | FL _ _ => True end) c.

Lemma cl_nil_cleared d : cl d = [] -> cleared d.
Proof.
  induction d as [|[n r|l n] d IH]; simpl; intros Hd;
    [by apply Forall_nil|apply Forall_cons; split; [done|by apply IH]|].
  by apply app_nil in Hd as [_ [_ ?]%app_nil].
Qed.

Lemma descend_spec fuel t c p sr :
  repr (nodes t) NULL ARM_MIDDLE (plug c (Node Leaf p sr)) ->
  NoDup (inorder (plug c (Node Leaf p sr))) -> cleared c -> (length (inorder sr) <= fuel)%nat ->
  exists d q, descend_loop fuel t p = Some q /\
    plug d (Node Leaf q Leaf) = plug c (Node Leaf p sr) /\ cleared d.
Proof.
  revert c p sr. induction fuel as [|fuel IH]; intros c p sr R N Hc Hf;
    (destruct (inorder sr) as [|x k] eqn:Er; [apply inorder_nil in Er as ->|]);
    pose proof R as R'; apply repr_plug in R' as [_ (Hp & Hh & _ & Rr)];
    cbn [descend_loop]; rewrite Hh; cbn [mbind option_bind link_right].
  - by exists c, p.
  - simpl in Hf. lia.
  - by exists c, p.
  - rewrite (proj2 (Z.eqb_neq (root_of sr) NULL))
      by (eapply repr_root_pos; [done|by intros ->]).
    unfold follow. rewrite (proj2 (Z.eqb_neq (root_of sr) NULL))
      by (eapply repr_root_pos; [done|by intros ->]).
    rewrite (follow_loop_left _ _ _ _ _ x k Rr Er).
    + cbn [mbind option_bind]. destruct (locate sr [] x k Er) as (d & sl & sr' & <- & Hl & <-).
      apply app_nil in Hl as [Hd ->%inorder_nil].
      change (plug c (Node Leaf p (plug d (Node Leaf x sr'))))
        with (plug (FR Leaf p :: c) (plug d (Node Leaf x sr'))) in R, N |- *.
      rewrite <- plug_app in R, N |- *. apply IH; [done|done| |].
      * apply Forall_app. split; [by apply cl_nil_cleared|by apply Forall_cons].
      * simpl in Hf. rewrite length_app in Hf. lia.
    + pose proof (repr_size _ _ _ _ R N) as Hs. rewrite plug_perm in Hs. unfold walk_fuel.
      simpl in Hs. rewrite !length_app in Hs. lia.
Qed.

Lemma destroy_loop_spec fuel t c p sr freed :
  repr (nodes t) NULL ARM_MIDDLE (plug c (Node Leaf p sr)) ->
  NoDup (inorder (plug c (Node Leaf p sr))) -> cleared c ->
  (length (inorder (plug c (Node Leaf p sr))) < fuel)%nat ->
  exists t' l, destroy_loop fuel t p freed = Some (t', freed ++ l) /\
    l ≡ₚ inorder (plug c (Node Leaf p sr)).
Proof.
  revert t c p sr freed. induction fuel as [|fuel IH]; intros t c p sr freed R N Hc Hf; [lia|].
  cbn [destroy_loop]. pose proof R as R'. apply repr_plug in R' as [_ (Hp & _)].
  rewrite (proj2 (Z.eqb_neq p NULL)) by done.
  destruct (descend_spec (walk_fuel t) t c p sr R N Hc) as (d & q & -> & Eq & Hd).
  { pose proof (repr_size _ _ _ _ R N) as Hs. rewrite plug_perm in Hs. simpl in Hs.
    rewrite !length_app in Hs. unfold walk_fuel. lia. }
  rewrite <- Eq in *. clear c p sr Hc Hp Eq. pose proof R as R'.
  apply repr_plug in R' as [C (Hq & Hh & _)]. cbn [mbind option_bind]. rewrite Hh.
  cbn [mbind option_bind link_parent].
  destruct (nodup_parts _ _ _ _ N) as (_ & _ & Nc & _ & _ & Hoc & _).
  rewrite plug_perm in Hf. cbn [inorder app length] in Hf.
  destruct d as [|f d].
  { simpl. exists (t <| nodes ::= delete q |>), [q]. by destruct fuel. }
  pose proof (crepr_parent _ _ _ C ltac:(done)) as Hpn.
  rewrite (proj2 (Z.eqb_neq (ctx_parent (f :: d)) NULL)) by done.
  assert (Hstep : exists y, nodes t !! ctx_parent (f :: d) = Some y /\
            (if link_left y =? q then ARM_LEFT else ARM_RIGHT) = ctx_arm (f :: d)).
  { destruct f as [n r|l n]; simpl in C |- *; destruct C as (_ & Hn & _); rewrite Hn; eexists;
      (split; [done|]); cbn [link_left].
    - cbn [root_of]. by rewrite Z.eqb_refl.
    - apply Forall_cons in Hd as [-> _]. cbn [root_of].
      by rewrite (proj2 (Z.eqb_neq NULL q)) by (by apply not_eq_sym). }
  destruct Hstep as (y & Hy & Harm). rewrite Hy. cbn [mbind option_bind]. rewrite Harm.
  pose proof (store_hang t (f :: d) q NULL C) as Hst. cbn [store pp_of] in Hst. rewrite Hst.
  cbn [mbind option_bind].
  set (t1 := (hang NULL (f :: d) t) <| nodes ::= delete q |>).
  assert (R1 : repr (nodes t1) NULL ARM_MIDDLE (plug (f :: d) Leaf)).
  { apply repr_plug. split; [|done].
    eapply crepr_ext; [|eapply rehang_crepr; [exact C|exact Nc]].
    intros x Hx. rewrite <- nodes_hang. simpl. rewrite lookup_delete_ne; [done|].
    intros ->. by apply Hoc. }
  assert (Hs : exists r, plug (f :: d) Leaf = plug d (Node Leaf (ctx_parent (f :: d)) r)).
  { destruct f as [n r|l n]; simpl; [by exists r|]. apply Forall_cons in Hd as [-> _]. by exists Leaf. }
  destruct Hs as [r Hs].
  assert (Hperm : inorder (plug d (Node Leaf (ctx_parent (f :: d)) r)) = cl (f :: d) ++ cr (f :: d)).
  { rewrite <- Hs. apply (inorder_plug (f :: d) Leaf). }
  rewrite Hs in R1.
  destruct (IH t1 d (ctx_parent (f :: d)) r (freed ++ [q]) R1) as (t' & l & -> & Hl).
  - by rewrite Hperm.
  - by apply Forall_cons in Hd as [_ ?].
  - rewrite Hperm. lia.
  - exists t', (q :: l). rewrite <- app_assoc. split; [done|].
    by rewrite Hl, Hperm, plug_perm.
Qed.

Lemma destroy_rep t l : rep t l ->
  exists t' freed, tree_destroy t = Some (t', freed) /\ rep t' [] /\ freed ≡ₚ l.
Proof.
  intros Hrep. unfold tree_destroy. destruct l as [|x l].
  - rewrite (rep_nil_root t Hrep). simpl. do 2 eexists. split_and!; try done.
    exists Leaf. split; [|done]. constructor; try done. constructor.
  - rewrite (first_rep t x l Hrep). cbn [mbind option_bind].
    destruct Hrep as (s & I & E & _). pose proof (is_tree_fuel _ _ I) as Hf.
    destruct I as [R _ N _].
    destruct (locate s [] x l E) as (c & sl & sr & <- & Hl & <-).
    apply app_nil in Hl as [Hc ->%inorder_nil].
    destruct (destroy_loop_spec (walk_fuel t) t c x sr [] R N (cl_nil_cleared c Hc))
      as (t' & k & -> & Hk).
    { pose proof (repr_size _ _ _ _ R N). unfold walk_fuel. lia. }
    cbn [mbind option_bind]. do 2 eexists. split_and!; [done| |by rewrite Hk, E].
    exists Leaf. split; [|done]. constructor; try done. constructor.
Qed.
End walks.

(** ** The tree discharges the interface *)

Lemma init_rep : rep (TreeT NULL 0 ∅) [].
Proof. exists Leaf. split; [|done]. constructor; try done. constructor. Qed.

Lemma first_of_tree_rep self t x l : rep t (x :: l) -> first_of_tree self t = Some x.
Proof.
  intros Hrep. unfold first_of_tree.
  assert (root t <> NULL).
  { intros Hz. pose proof (first_rep t x l Hrep) as Hf. rewrite Hz in Hf. injection Hf as <-.
    destruct Hrep as (s & _ & _ & [Hx _]%Forall_cons). unfold NULL in *. simpl in Hx. lia. }
  rewrite (proj2 (Z.eqb_neq (root t) NULL)) by done. by eapply first_rep.
Qed.

Lemma rep_nodup t l : rep t l -> NoDup l.
Proof. intros (s & I & <- & _). apply I. Qed.
Lemma rep_pos t l : rep t l -> Forall (fun x => 0 < x) l.
Proof. by intros (s & _ & _ & ?). Qed.
Lemma rep_count t l : rep t l -> tree_count_node t = u32 (Z.of_nat (length l)).
Proof. intros (s & I & <- & _). apply I. Qed.

#[global] Instance pointer_tree : OrderedTree tree := {|
  ot_init := TreeT NULL 0 ∅;
  ot_insert := tree_insert_node;
  ot_remove := tree_remove_node;
  ot_find := tree_find_node;
  ot_first := first_of_tree NULL;
  ot_next := tree_next_node;
  ot_destroy := tree_destroy;
  ot_traverse := tree_traverse;
  ot_count := tree_count_node;
  ot_rep := rep;
  ot_init_rep := init_rep;
  ot_rep_nodup := rep_nodup;
  ot_rep_pos := rep_pos;
  ot_insert_new := insert_new;
  ot_insert_dup := insert_dup;
  ot_remove_rep := remove_rep;
  ot_find_none := find_none;
  ot_find_some := find_some;
  ot_first_rep := first_of_tree_rep NULL;
  ot_next_rep := next_rep;
  ot_destroy_rep := destroy_rep;
  ot_traverse_rep := traverse_rep;
  ot_count_rep := rep_count
|}.

(** ** Correctness of the operations *)

(** inserting a node into a tree either puts it at its place in the order (and
    returns it), or, when a node with an equal key is there, returns NULL and
    leaves the order as it was.  No invalid access, no non-termination. *)
Theorem tree_insert_node_spec cmp t l1 m l2 x :
  rep t (l1 ++ m ++ l2) -> cuts cmp x l1 l2 -> Forall (fun y => cmp x y = 0) m ->
  (length m <= 1)%nat -> 0 < x -> x ∉ l1 ++ m ++ l2 ->
  exists t' r, tree_insert_node cmp t x = Some (t', r) /\
    (m = [] /\ r = x /\ rep t' (l1 ++ x :: l2) \/
     m <> [] /\ r = NULL /\ rep t' (l1 ++ m ++ l2)).
Proof.
  intros Hr Hc Hm Hl Hx Hin. destruct m as [|y [|??]]; [| |simpl in Hl; lia]; simpl in *.
  - destruct (insert_new cmp t l1 l2 x) as (t' & -> & ?); try done.
    exists t', x. split; [done|]. by left.
  - apply Forall_cons in Hm as [Hy _].
    destruct (insert_dup cmp t l1 y l2 x) as (t' & -> & ?); try done.
    exists t', NULL. split; [done|]. by right.
Qed.

(** removing a node, whether it has no, one or two children (when it changes
    places with its predecessor through a local copy), leaves a well-linked tree in
    which a traversal meets exactly the other nodes, in the same order. *)
Theorem tree_remove_node_spec t l1 x l2 :
  rep t (l1 ++ x :: l2) ->
  exists t', tree_remove_node t x = Some t' /\ rep t' (l1 ++ l2) /\
    tree_traverse t' = Some (l1 ++ l2).
Proof.
  intros Hr. destruct (remove_rep t l1 x l2 Hr) as (t' & -> & Hr').
  exists t'. split_and!; [done|done|by apply traverse_rep].
Qed.

(** C33: tree_destroy hands every node to `remove` exactly once and never touches a
    node after it was handed over; the tree is empty afterwards. *)
Theorem tree_destroy_spec t l :
  rep t l ->
  exists t' freed, tree_destroy t = Some (t', freed) /\ rep t' [] /\ freed ≡ₚ l /\ NoDup freed.
Proof.
  intros Hr. destruct (destroy_rep t l Hr) as (t' & freed & -> & ? & Hp).
  exists t', freed. split_and!; try done. rewrite Hp. by eapply rep_nodup.
Qed.

Fixpoint insert_all cmp t (xs : list Z) : option tree :=
  match xs with
  | [] => Some t
  | x :: xs => '(t, _) ← tree_insert_node cmp t x; insert_all cmp t xs
  end.

Section sorting.
Context (key : Z -> Z).
Let cmp x y := key x - key y.

Lemma sorted_split (l : list Z) x :
  StronglySorted (fun a b => key a < key b) l -> Forall (fun y => key y <> key x) l ->
  exists l1 l2, l = l1 ++ l2 /\ cuts cmp x l1 l2 /\ 
    StronglySorted (fun a b => key a < key b) (l1 ++ x :: l2).
Proof.
  unfold cmp. induction 1 as [|y l Hs IH Hy]; intros Hne.
  - exists [], []. split_and!; [done|by split|]. repeat constructor.
  - apply Forall_cons in Hne as [Hk Hne]. destruct (IH Hne) as (l1 & l2 & -> & [H1 H2] & Hs').
    destruct (decide (key y < key x)).
    + exists (y :: l1), l2. split_and!; [done|split; [constructor; [lia|done]|done]|].
      simpl. constructor; [done|]. apply Forall_app in Hy as [? ?]. apply Forall_app.
      split; [done|]. by constructor.
    + exists [], (y :: l1 ++ l2). split_and!; [done| |].
      * split; [done|]. constructor; [lia|]. eapply Forall_impl; [exact Hy|]. simpl. lia.
      * simpl. constructor; [by constructor|]. constructor; [lia|].
        eapply Forall_impl; [exact Hy|]. simpl. lia.
Qed.

Lemma insert_all_sorted xs t l :
  rep t l -> StronglySorted (fun a b => key a < key b) l ->
  NoDup (key <$> xs ++ l) -> Forall (fun x => 0 < x) xs ->
  exists t' l', insert_all cmp t xs = Some t' /\ rep t' l' /\ l' ≡ₚ xs ++ l /\
    StronglySorted (fun a b => key a < key b) l'.
Proof.
  revert t l. induction xs as [|x xs IH]; intros t l Hr Hs N Hp; [by exists t, l|].
  apply Forall_cons in Hp as [Hx Hp]. simpl in N. apply NoDup_cons in N as [Hk N].
  rewrite fmap_app, elem_of_app in Hk.
  assert (Hne : Forall (fun y => key y <> key x) l).
  { apply Forall_forall. intros y Hy Heq. apply Hk. right. rewrite <- Heq.
    by apply list_elem_of_fmap_2. }
  destruct (sorted_split l x Hs Hne) as (l1 & l2 & -> & Hc & Hs').
  destruct (insert_new cmp t l1 l2 x Hr Hc Hx) as (t1 & Hi & Hr1).
  { intros Hin. apply Hk. right. by apply list_elem_of_fmap_2. }
  simpl. rewrite Hi. simpl.
  destruct (IH t1 (l1 ++ x :: l2) Hr1 Hs') as (t' & l' & -> & ? & Hl' & ?); [|done|].
  - rewrite <- (Permutation_middle l1), <- (Permutation_middle xs). simpl. apply NoDup_cons.
    split; [|done]. by rewrite fmap_app, elem_of_app.
  - exists t', l'. split_and!; try done. rewrite Hl'.
    by rewrite <- (Permutation_middle l1), <- (Permutation_middle xs).
Qed.
End sorting.


(** Keys equal to addresses; 5, 3, 8, 4 inserted in this order. *)
Definition sample : option tree := insert_all Z.sub (TreeT NULL 0 ∅) [5; 3; 8; 4].

Lemma sample_rep : exists t, sample = Some t /\ rep t [3; 4; 5; 8].
Proof.
  eexists. split; [vm_compute; reflexivity|].
  exists (Node (Node Leaf 3 (Node Leaf 4 Leaf)) 5 (Node Leaf 8 Leaf)).
  split_and!; [|done|repeat constructor].
  constructor; [simpl; repeat split; done|done| |done].
  apply (bool_decide_unpack _). by vm_compute.
Qed.

Lemma tree_insert_node_witness :
  exists t t' r, sample = Some t /\ tree_insert_node Z.sub t 7 = Some (t', r) /\ r = 7.
Proof.
  destruct sample_rep as (t & Ht & Hr). exists t.
  destruct (tree_insert_node_spec Z.sub t [3; 4; 5] [] [8] 7) as (t' & r & Hi & Hcase).
  - exact Hr.
  - split; repeat constructor; lia.
  - constructor.
  - simpl; lia.
  - lia.
  - apply (bool_decide_unpack _). by vm_compute.
  - exists t', r. split_and!; [done|done|]. by destruct Hcase as [(_ & ? & _)|(? & _)].
Defined.

Lemma tree_remove_node_witness :
  exists t t', sample = Some t /\ tree_remove_node t 5 = Some t' /\
    tree_traverse t' = Some [3; 4; 8].
Proof.
  destruct sample_rep as (t & Ht & Hr). exists t.
  destruct (tree_remove_node_spec t [3; 4] 5 [8] Hr) as (t' & ? & _ & ?). by exists t'.
Defined.

Lemma tree_destroy_witness :
  exists t t' freed, sample = Some t /\ tree_destroy t = Some (t', freed) /\ freed ≡ₚ [3; 4; 5; 8].
Proof.
  destruct sample_rep as (t & Ht & Hr). exists t.
  destruct (tree_destroy_spec t _ Hr) as (t' & freed & ? & _ & ? & _). by exists t', freed.
Defined.


End Tree.
