(* ===== verification/Asm.v ===== *)
(** * utils/asm.c: the reassembly cache

    Clips (IP fragments, TCP segments that wait for a gap to close) hang in a tree
    ordered by sequence number.  The clips are objects of the caller, found in the
    memory [m] by the address of their tree node; the tree is any implementation of
    the interface of Tree.v.  [None] is an access outside a buffer or to a clip that
    is not there. *)

From S2P Require Import Prelude Helper Tree.
Import Helper.Seq.

Module Asm.

(** [ptr] is the memory the clip points to, from `ptr` to its end; [len] is a
    24-bit field. *)
Record clip := Clip { ptr : list Z; seq : Z; len : Z; action : Z; skip : Z }.
#[export] Instance eta_clip : Eta clip :=
  fun c => Clip (ptr c) (seq c) (len c) (action c) (skip c).

Inductive asm_result := ASM_OK | ASM_FAILURE | ASM_NOP | ASM_MORE.
#[export] Instance asm_result_eq_dec : EqDecision asm_result.
Proof. solve_decision. Defined.

Record asm {T : Type} := AsmT { tree : T; gross : Z }.
Arguments asm T : clear implicits.
Arguments AsmT {T} _ _.
#[export] Instance eta_asm T : Eta (asm T) := fun a => AsmT (tree a) (gross a).

Definition seq_at (m : gmap Z clip) (x : Z) : Z := from_option seq 0 (m !! x).

Definition asm_compare (m : gmap Z clip) (n k : Z) : Z :=
  if u32_gt (seq_at m n) (seq_at m k) then 1
  else if u32_lt (seq_at m n) (seq_at m k) then -1
  else 0.

(** The address of the local variable of asm_lookup. *)
Definition stack_clip : Z := -1.

(** memcpy(dst + off, src + skip, n) *)
Definition memcpy (dst : list Z) (off : Z) (src : list Z) (sk n : Z) : option (list Z) :=
  if (0 <=? off) && (off + n <=? Z.of_nat (length dst)) &&
     (sk + n <=? Z.of_nat (length src))
  then Some (take (Z.to_nat off) dst ++ take (Z.to_nat n) (drop (Z.to_nat sk) src)
               ++ drop (Z.to_nat (off + n)) dst)
  else None.

Section ops.
Context {T : Type} `{!OrderedTree T}.
Implicit Types (a : asm T) (m : gmap Z clip).

Definition asm_init : asm T := AsmT ot_init 0.
Definition asm_count a : Z := ot_count (tree a).
Definition asm_gross a : Z := gross a.

Definition asm_lookup m a (s : Z) : option Z :=
  ot_find (asm_compare (<[stack_clip := Clip [] s 0 0 0]> m)) (tree a) stack_clip.

Definition asm_insert m a (x : Z) : option (asm T * asm_result) :=
  c ← m !! x;
  '(t, r) ← ot_insert (asm_compare m) (tree a) x;
  if r =? NULL then Some (a <| tree := t |>, ASM_FAILURE)
  else Some (a <| tree := t |> <| gross ::= fun g => u32 (g + len c) |>, ASM_OK).

(** The clip is handed to `remove` (freed) after it is unlinked. *)
Definition asm_remove m a (x : Z) : option (asm T) :=
  c ← m !! x;
  t ← ot_remove (tree a) x;
  Some (a <| tree := t |> <| gross ::= fun g => u32 (g - len c) |>).

(** The freed clips, in the order of the calls of `remove`. *)
Definition asm_destroy a : option (asm T * list Z) :=
  '(t, freed) ← ot_destroy (tree a);
  Some (AsmT t 0, freed).

Fixpoint flush_loop (fuel : nat) m a (x s : Z) (freed : list Z) : option (asm T * list Z) :=
  if x =? NULL then Some (a, freed)
  else
    next ← ot_next (tree a) x;
    c ← m !! x;
    if u32_lte (u32 (seq c + len c)) s then
      match fuel with
      | O => None
      | S fuel => a ← asm_remove m a x; flush_loop fuel m a next s (freed ++ [x])
      end
    else Some (a, freed).
Definition asm_flush m a (s : Z) : option (asm T * list Z) :=
  if asm_count a =? 0 then Some (a, [])
  else first ← ot_first (tree a); flush_loop (Z.to_nat (asm_count a)) m a first s [].

(** asm_foreach: the clips the callback is called on, in order. *)
Definition asm_foreach a : option (list Z) := ot_traverse (tree a).

(** The first loop of asm_construct.  [Some None] is `return ASM_NOP`. *)
Fixpoint range_loop (fuel : nat) m a (itr first last total tseq must_have : Z)
    : option (option (Z * Z * Z)) :=
  if itr =? NULL then Some (Some (first, last, total))
  else
    match fuel with
    | O => None
    | S fuel =>
        let last := itr in
        next ← ot_next (tree a) itr;
        c ← m !! itr;
        let e := u32 (seq c + len c) in
        f ← m !! first;
        let total := Z.max total (u32 (e - seq f)) in
        if u32_lte e tseq then
          range_loop fuel m a next next next total tseq must_have
        else
          gap ← (if next =? NULL then Some false else (fun n => u32_lt e (seq n)) <$> m !! next);
          if (gap : bool) then
            if u32_lt e must_have then Some None else Some (Some (first, last, total))
          else range_loop fuel m a next first last total tseq must_have
    end.

(** The second loop: the bytes written so far and target->len. *)
Fixpoint copy_loop (fuel : nat) m a (itr first last : Z) (buf : list Z) (tlen : Z)
    : option (list Z * Z) :=
  if itr =? NULL then Some (buf, tlen)
  else
    match fuel with
    | O => None
    | S fuel =>
        next ← (if itr =? last then Some NULL else ot_next (tree a) itr);
        c ← m !! itr;
        f ← m !! first;
        let e := u32 (seq c + len c) in
        buf ← memcpy buf (u32 (seq c - seq f)) (ptr c) (skip c) (len c);
        copy_loop fuel m a next first last buf (u24 (Z.max (u32 (e - seq f)) tlen))
    end.

Definition asm_construct m a (target : clip) (must_have : Z) : option (clip * asm_result) :=
  if asm_count a <=? 1 then Some (target, ASM_NOP)
  else
    let fuel := Z.to_nat (asm_count a) in
    first ← ot_first (tree a);
    r ← range_loop fuel m a first first first 0 (seq target) must_have;
    match r with
    | None => Some (target, ASM_NOP)
    | Some (first, last, total) =>
        if first =? last then Some (target, ASM_NOP)
        else
          f ← m !! first;
          if u32_lt (seq target) (seq f) then Some (target, ASM_NOP)
          else if len target <? total then
            Some (target <| seq := seq f |> <| len := u24 total |>, ASM_MORE)
          else
            '(buf, tlen) ← copy_loop fuel m a first first last (ptr target) 0;
            Some (target <| ptr := buf |> <| len := tlen |> <| seq := seq f |>, ASM_OK)
    end.
End ops.

(** ** Positions in the stream

    The sequence numbers of the cached clips lie within half the number space of a
    base position [b]; [off] is the true offset from it. *)

Section inv.
Context {T : Type} `{!OrderedTree T}.
Implicit Types (a : asm T) (m : gmap Z clip) (b x : Z) (l : list Z).

Definition off b (c : clip) : Z := u32 (seq c - b).
Definition off_at m b x : Z := u32 (seq_at m x - b).
Definition stop b (c : clip) : Z := off b c + len c.

Record clip_ok b (c : clip) : Prop := {
  ck_seq : is_u32 (seq c);
  ck_len : 0 <= len c < 2 ^ 24;
  ck_skip : 0 <= skip c;
  ck_buf : skip c + len c <= Z.of_nat (length (ptr c));
  ck_stop : stop b c < 2 ^ 31
}.

Definition in_mem m b x : Prop := exists c, m !! x = Some c /\ clip_ok b c.

Fixpoint total_len m l : Z :=
  match l with [] => 0 | x :: l => from_option len 0 (m !! x) + total_len m l end.

Record ainv m b a l : Prop := {
  ai_rep : ot_rep (tree a) l;
  ai_mem : Forall (in_mem m b) l;
  ai_sorted : StronglySorted (fun x y => off_at m b x < off_at m b y) l;
  ai_gross : gross a = u32 (total_len m l);
  ai_count : Z.of_nat (length l) < 2 ^ 32
}.

Lemma seq_off b c : is_u32 (seq c) -> seq c = u32 (b + off b c).
Proof. intros H. unfold off. autorewrite with u32. rewrite u32_id; [|]; [lia|]. ulia. Qed.

Lemma stop_end b c : is_u32 (seq c) -> u32 (seq c + len c) = u32 (b + stop b c).
Proof.
  intros H. rewrite (seq_off b c H) at 1. unfold stop. autorewrite with u32. f_equal. lia.
Qed.

Lemma off_at_lookup m b x c : m !! x = Some c -> off_at m b x = off b c.
Proof. intros H. unfold off_at, seq_at. by rewrite H. Qed.

Lemma off_range b c : clip_ok b c -> 0 <= off b c < 2 ^ 31.
Proof. intros [_ ? _ _ Hs]. unfold stop in Hs. pose proof (u32_range (seq c - b)). unfold off in *. ulia. Qed.

Lemma asm_compare_off m b x y cx cy :
  m !! x = Some cx -> m !! y = Some cy -> clip_ok b cx -> clip_ok b cy ->
  asm_compare m x y =
  if off b cy <? off b cx then 1 else if off b cx <? off b cy then -1 else 0.
Proof.
  intros Hx Hy Ox Oy. pose proof (off_range _ _ Ox). pose proof (off_range _ _ Oy).
  unfold asm_compare, seq_at. rewrite Hx, Hy. simpl.
  rewrite (seq_off b cx), (seq_off b cy) by (apply Ox || apply Oy).
  rewrite u32_gt_near, u32_lt_near by (unfold near; lia).
  destruct (Z.ltb_spec (off b cy) (off b cx)), (Z.ltb_spec (b + off b cy) (b + off b cx)); try lia.
  destruct (Z.ltb_spec (off b cx) (off b cy)), (Z.ltb_spec (b + off b cx) (b + off b cy)); lia.
Qed.

(** Where a clip belongs among the cached ones. *)
Lemma asm_cut m b l x c :
  Forall (in_mem m b) l -> StronglySorted (fun x y => off_at m b x < off_at m b y) l ->
  m !! x = Some c -> clip_ok b c ->
  exists l1 k l2, l = l1 ++ k ++ l2 /\ (length k <= 1)%nat /\ cuts (asm_compare m) x l1 l2 /\
    Forall (fun y => asm_compare m x y = 0 /\ off_at m b y = off b c) k /\
    Forall (fun y => off_at m b y < off b c) l1 /\ Forall (fun y => off b c < off_at m b y) l2.
Proof.
  intros Hm Hs Hx Oc. destruct (sorted_cut (off_at m b) l (off b c) Hs) as (l1 & k & l2 & -> & ? & H1 & Hk & H2).
  apply Forall_app in Hm as [M1 [Mk M2]%Forall_app].
  assert (Hc : forall P Q (l : list Z), Forall (in_mem m b) l -> Forall P l ->
    (forall y cy, m !! y = Some cy -> clip_ok b cy -> off_at m b y = off b cy -> P y -> Q y) -> Forall Q l).
  { intros P Q l0 Hl Hp HPQ. apply Forall_forall. intros y Hy.
    rewrite Forall_forall in Hl, Hp. destruct (Hl y Hy) as (cy & Hcy & Oy).
    eapply HPQ; [done|done|by apply off_at_lookup|by apply Hp]. }
  exists l1, k, l2. split_and!; try done; [split|].
  - eapply Hc; [exact M1|exact H1|]. intros y cy Hcy Oy He HP. simpl in HP.
    rewrite (asm_compare_off m b x y c cy) by done. destruct (Z.ltb_spec (off b cy) (off b c)); lia.
  - eapply Hc; [exact M2|exact H2|]. intros y cy Hcy Oy He HP. simpl in HP.
    rewrite (asm_compare_off m b x y c cy) by done.
    destruct (Z.ltb_spec (off b cy) (off b c)), (Z.ltb_spec (off b c) (off b cy)); lia.
  - eapply Hc; [exact Mk|exact Hk|]. intros y cy Hcy Oy He HP. simpl in HP.
    rewrite (asm_compare_off m b x y c cy) by done. split; [|done].
    destruct (Z.ltb_spec (off b cy) (off b c)), (Z.ltb_spec (off b c) (off b cy)); lia.
Qed.

Lemma total_len_app m l1 l2 : total_len m (l1 ++ l2) = total_len m l1 + total_len m l2.
Proof. induction l1 as [|x l1 IH]; simpl; [done|]. rewrite IH. lia. Qed.

Lemma ainv_lookup m b a l x : ainv m b a l -> x ∈ l -> in_mem m b x.
Proof. intros I Hx. pose proof (ai_mem _ _ _ _ I) as Hm. rewrite Forall_forall in Hm. by apply Hm. Qed.

Lemma asm_insert_sound m b a l x c :
  ainv m b a l -> m !! x = Some c -> clip_ok b c -> 0 < x -> x ∉ l ->
  Z.of_nat (length l) + 1 < 2 ^ 32 ->
  exists a' r, asm_insert m a x = Some (a', r) /\
    (r = ASM_OK /\ (exists l1 l2, l = l1 ++ l2 /\ ainv m b a' (l1 ++ x :: l2)) /\
       Forall (fun y => off_at m b y <> off b c) l \/
     r = ASM_FAILURE /\ ainv m b a' l /\ Exists (fun y => off_at m b y = off b c) l).
Proof.
  intros I Hx Oc Hpos Hin Hlen. destruct I as [R M S G C].
  destruct (asm_cut m b l x c M S Hx Oc) as (l1 & k & l2 & -> & Hk & Hcut & Hkeq & H1 & H2).
  unfold asm_insert. rewrite Hx. cbn [mbind option_bind].
  destruct k as [|y [|??]]; [| |simpl in Hk; lia]; simpl in *.
  - destruct (ot_insert_new _ _ l1 l2 x R Hcut Hpos Hin) as (t' & -> & R').
    cbn [mbind option_bind]. rewrite (proj2 (Z.eqb_neq x NULL)) by (unfold NULL; lia).
    eexists _, ASM_OK. split; [done|]. left. split_and!; [done| |].
    + exists l1, l2. split; [done|]. apply Forall_app in M as [M1 M2].
      apply StronglySorted_app_iff in S as (S1 & S2 & S12).
      constructor; simpl; [done| | | |].
      * apply Forall_app. split; [done|]. constructor; [by exists c|done].
      * apply StronglySorted_app_iff. split_and!; [done|constructor; [done|]|].
        -- eapply Forall_impl; [exact H2|]. simpl. intros y. by rewrite (off_at_lookup m b x c).
        -- apply Forall_forall. intros y Hy. rewrite Forall_forall in S12, H1. constructor; [|auto].
           rewrite (off_at_lookup m b x c) by done. by apply H1.
      * rewrite G, u32_add_l, !total_len_app. simpl. rewrite Hx. simpl. f_equal. lia.
      * rewrite length_app in *. simpl. lia.
    + apply Forall_app. split; (eapply Forall_impl; [eassumption|]); simpl; lia.
  - apply Forall_cons in Hkeq as [[Hcmp Heq] _].
    destruct (ot_insert_dup _ _ l1 y l2 x R Hcut Hcmp Hpos Hin) as (t' & -> & R').
    cbn [mbind option_bind]. rewrite Z.eqb_refl. eexists _, ASM_FAILURE. split; [done|]. right.
    split_and!; [done|by constructor|]. apply Exists_app. right. by constructor.
Qed.

Lemma asm_remove_sound m b a l1 x l2 :
  ainv m b a (l1 ++ x :: l2) ->
  exists a', asm_remove m a x = Some a' /\ ainv m b a' (l1 ++ l2).
Proof.
  intros I. destruct (ainv_lookup _ _ _ _ x I) as (c & Hx & Oc); [set_solver|].
  destruct I as [R M S G C].
  unfold asm_remove. rewrite Hx. cbn [mbind option_bind].
  destruct (ot_remove_rep _ l1 x l2 R) as (t' & -> & R'). cbn [mbind option_bind].
  eexists. split; [done|]. constructor; simpl; [done| | | |].
  - apply Forall_app in M as [M1 [_ M2]%Forall_cons]. by apply Forall_app.
  - apply StronglySorted_app_iff in S as (S1 & S2 & S12). inversion S2; subst.
    apply StronglySorted_app_iff. split_and!; try done.
    eapply Forall_impl; [exact S12|]. simpl. by intros y [_ ?]%Forall_cons.
  - rewrite G, u32_sub_l, !total_len_app. simpl. rewrite Hx. simpl. f_equal. lia.
  - rewrite length_app in *. simpl in C. lia.
Qed.

Lemma ainv_pos m b a l x : ainv m b a l -> x ∈ l -> x <> NULL.
Proof.
  intros I Hx. pose proof (ot_rep_pos _ _ (ai_rep _ _ _ _ I)) as Hp.
  rewrite Forall_forall in Hp. specialize (Hp x Hx). unfold NULL. lia.
Qed.

(** Ends at or before position [s]. *)
Definition ended m b s x : Prop := exists c, m !! x = Some c /\ stop b c <= s.

Lemma flush_loop_sound dead live fuel m b a s freed :
  ainv m b a (dead ++ live) -> 0 <= s < 2 ^ 31 -> Forall (ended m b s) dead ->
  (forall y, head live = Some y -> ~ ended m b s y) -> (length dead <= fuel)%nat ->
  exists a', flush_loop fuel m a (default NULL (head (dead ++ live))) (u32 (b + s)) freed =
    Some (a', freed ++ dead) /\ ainv m b a' live.
Proof.
  revert fuel a freed. induction dead as [|x dead IH]; intros fuel a freed I Hs Hd Hl Hf; simpl in *.
  - rewrite app_nil_r. destruct live as [|y live]; simpl; [exists a; by destruct fuel|].
    destruct (ainv_lookup _ _ _ _ y I) as (c & Hy & Oc); [set_solver|].
    pose proof (ainv_pos _ _ _ _ y I ltac:(set_solver)) as Hnn.
    specialize (Hl y eq_refl). exists a. split; [|done].
    destruct fuel; cbn [flush_loop]; rewrite (proj2 (Z.eqb_neq y NULL)) by done;
      rewrite (ot_next_rep _ [] y live (ai_rep _ _ _ _ I)); cbn [mbind option_bind]; rewrite Hy;
      cbn [mbind option_bind]; pose proof (off_range _ _ Oc) as Ho; destruct Oc;
      rewrite (stop_end b c) by done; unfold stop in *;
      rewrite u32_lte_near by (unfold near; lia);
      destruct (Z.leb_spec (b + (off b c + len c)) (b + s)) as [Hle|]; try done;
      exfalso; apply Hl; exists c; (split; [done|unfold stop; lia]).
  - apply Forall_cons in Hd as [(c & Hx & Hst) Hd].
    destruct (ainv_lookup _ _ _ _ x I) as (c' & Hx' & Oc); [set_solver|]. simplify_eq.
    pose proof (ainv_pos _ _ _ _ x I ltac:(set_solver)) as Hnn.
    destruct fuel as [|fuel]; [lia|]. cbn [flush_loop].
    rewrite (proj2 (Z.eqb_neq x NULL)) by done.
    rewrite (ot_next_rep _ [] x (dead ++ live) (ai_rep _ _ _ _ I)). cbn [mbind option_bind].
    rewrite Hx. cbn [mbind option_bind]. pose proof (off_range _ _ Oc).
    rewrite (stop_end b c) by apply Oc.
    rewrite u32_lte_near by (unfold near; pose proof (ck_stop _ _ Oc); pose proof (ck_len _ _ Oc); unfold stop in *; lia).
    rewrite (proj2 (Z.leb_le (b + stop b c) (b + s))) by lia.
    destruct (asm_remove_sound m b a [] x (dead ++ live) I) as (a1 & -> & I1).
    cbn [mbind option_bind].
    destruct (IH fuel a1 (freed ++ [x]) I1) as (a' & -> & ?); try done; [lia|].
    exists a'. by rewrite <- app_assoc.
Qed.

(** *** The assembly range *)

Definition stop_at m b x : Z := from_option (stop b) 0 (m !! x).

(** [tot] bytes from [f] on cover all of [seg]. *)
Definition covers m b f tot seg : Prop := Forall (fun x => stop_at m b x - off_at m b f <= tot) seg.

Lemma sorted_head_le m b l1 x l2 y :
  StronglySorted (fun x y => off_at m b x < off_at m b y) (l1 ++ x :: l2) -> y ∈ x :: l2 ->
  off_at m b x <= off_at m b y.
Proof.
  intros (_ & S & _)%StronglySorted_app_iff [->|Hy]%elem_of_cons; [lia|].
  inversion S as [|? ? _ Hx]; subst. rewrite Forall_forall in Hx. specialize (Hx y Hy).
  simpl in Hx. lia.
Qed.

(** end - first->seq, for a clip at or after the first one. *)
Lemma rel_end m b l1 f l2 x c cf :
  Forall (in_mem m b) (l1 ++ f :: l2) ->
  StronglySorted (fun x y => off_at m b x < off_at m b y) (l1 ++ f :: l2) -> x ∈ f :: l2 ->
  m !! x = Some c -> m !! f = Some cf ->
  u32 (u32 (seq c + len c) - seq cf) = stop_at m b x - off_at m b f /\
  u32 (seq c - seq cf) = off_at m b x - off_at m b f /\
  0 <= off_at m b x - off_at m b f /\ stop_at m b x < 2 ^ 31 /\
  stop_at m b x = off_at m b x + len c /\ 0 <= len c.
Proof.
  intros M S Hx Hc Hf. pose proof (sorted_head_le _ _ _ _ _ x S Hx) as Hle.
  rewrite Forall_forall in M.
  destruct (M x) as (c' & Hc' & Oc); [set_solver|]. destruct (M f) as (cf' & Hf' & Of); [set_solver|].
  simplify_eq. rewrite (off_at_lookup m b x c), (off_at_lookup m b f cf) in * by done.
  unfold stop_at. rewrite Hc. simpl. pose proof (off_range _ _ Oc). pose proof (off_range _ _ Of).
  rewrite (stop_end b c), (seq_off b cf), (seq_off b c) by (apply Oc || apply Of).
  autorewrite with u32. destruct Oc. unfold stop in *.
  rewrite !(u32_id (_ - _)) by (unfold is_u32; lia). split_and!; lia.
Qed.

(** What the first loop may return: nothing, a single clip, or the first and last
    clip of a segment with a bound on its extent. *)
Definition range_ok m b l (r : option (Z * Z * Z)) : Prop :=
  forall f la tot, r = Some (f, la, tot) -> f = la \/
    exists pre seg post, l = pre ++ seg ++ post /\ head seg = Some f /\ last seg = Some la /\
      0 <= tot /\ covers m b f tot seg.

Lemma range_ok_seg m b pre mid post tot :
  mid <> [] -> 0 <= tot -> covers m b (default NULL (head mid)) tot mid ->
  range_ok m b (pre ++ mid ++ post)
    (Some (default NULL (head mid), default NULL (last mid), tot)).
Proof.
  intros Hm Ht Hc f la tot' [= <- <- <-]. right. exists pre, mid, post.
  split_and!; try done; [by destruct mid|].
  destruct mid as [|y mid]; [done|]. by destruct (last_is_Some (y :: mid)) as [_ [? ->]].
Qed.

Lemma range_loop_safe rest fuel m b a l pre mid tot ts mh :
  ainv m b a l -> l = pre ++ mid ++ rest -> (length rest <= fuel)%nat -> 0 <= tot ->
  let f := default NULL (head (mid ++ rest)) in
  covers m b f tot mid ->
  exists r, range_loop fuel m a (default NULL (head rest)) f (default f (last mid)) tot ts mh = Some r /\
    range_ok m b l r.
Proof.
  intros I. revert fuel pre mid tot. induction rest as [|x rest IH]; intros fuel pre mid tot Hl Hf Ht f Hc.
  - exists (Some (f, default f (last mid), tot)). split; [by destruct fuel|]. subst l.
    unfold f in *. rewrite !app_nil_r in *. destruct mid as [|y mid].
    { intros ??? [= <- <- _]. by left. }
    rewrite <- (app_nil_r (y :: mid)) at 1.
    destruct (last (y :: mid)) as [z|] eqn:Hz; [|by apply last_None in Hz].
    pose proof (range_ok_seg m b pre (y :: mid) [] tot ltac:(done) Ht Hc) as Hr.
    by rewrite Hz in Hr.
  - destruct fuel as [|fuel]; [simpl in Hf; lia|]. simpl in Hf.
    assert (Hin : forall z, z ∈ mid ++ x :: rest -> z ∈ l) by (intros; rewrite Hl; set_solver).
    pose proof (ainv_pos _ _ _ _ x I ltac:(apply Hin; set_solver)) as Hnn.
    cbn [range_loop default head from_option id]. rewrite (proj2 (Z.eqb_neq x NULL)) by done.
    pose proof (ai_rep _ _ _ _ I) as R. rewrite Hl, app_assoc in R.
    rewrite (ot_next_rep _ _ x rest R). cbn [mbind option_bind].
    destruct (ainv_lookup _ _ _ _ x I) as (c & Hx & Oc); [apply Hin; set_solver|]. rewrite Hx. cbn [mbind option_bind].
    assert (Hm : exists k, mid ++ x :: rest = f :: k)
      by (unfold f; destruct mid as [|y mid]; simpl; by eexists).
    destruct Hm as [k Hk]. pose proof Hl as Hlk. rewrite Hk in Hlk.
    destruct (ainv_lookup _ _ _ _ f I) as (cf & Hcf & Of); [rewrite Hlk; set_solver|].
    rewrite Hcf. cbn [mbind option_bind].
    destruct (rel_end m b pre f k x c cf) as (-> & _ & Hoff & _ & Hst & Hln);
      [rewrite <- Hlk; apply I|rewrite <- Hlk; apply I|rewrite <- Hk; set_solver|done|done|].
    set (tot1 := Z.max tot (stop_at m b x - off_at m b f)).
    destruct (u32_lte _ _) eqn:Hearly.
    { apply (IH fuel (pre ++ mid ++ [x]) [] tot1); [by rewrite <- !app_assoc|lia|lia|].
      by apply Forall_nil. }
    assert (Hfirst : default NULL (head ((mid ++ [x]) ++ rest)) = f) by (unfold f; by rewrite <- app_assoc).
    assert (Hc1 : covers m b f tot1 (mid ++ [x])).
    { apply Forall_app. split; [eapply Forall_impl; [exact Hc|]; simpl; lia|].
      constructor; [lia|constructor]. }
    pose proof (IH fuel pre (mid ++ [x]) tot1) as Hcont. rewrite Hfirst, last_snoc in Hcont.
    specialize (Hcont ltac:(by rewrite <- app_assoc) ltac:(lia) ltac:(lia) Hc1).
    destruct rest as [|y rest]; simpl default; [exact Hcont|].
    pose proof (ainv_pos _ _ _ _ y I ltac:(apply Hin; set_solver)) as Hny.
    rewrite (proj2 (Z.eqb_neq y NULL)) by done.
    destruct (ainv_lookup _ _ _ _ y I) as (cy & Hy & Oy); [apply Hin; set_solver|]. rewrite Hy.
    cbn [fmap option_fmap option_map mbind option_bind].
    destruct (u32_lt (u32 (seq c + len c)) (seq cy)); [|exact Hcont].
    destruct (u32_lt _ mh); eexists; (split; [done|]); [done|].
    assert (Hf1 : default NULL (head (mid ++ [x])) = f) by (unfold f; by destruct mid).
    pose proof (range_ok_seg m b pre (mid ++ [x]) (y :: rest) tot1) as Hr.
    replace (pre ++ (mid ++ [x]) ++ y :: rest) with l in Hr by (rewrite Hl; by rewrite <- app_assoc).
    rewrite Hf1, last_snoc in Hr. apply Hr; [by destruct mid|lia|done].
Qed.

(** *** The copy *)

Definition payload (c : clip) : list Z := take (Z.to_nat (len c)) (drop (Z.to_nat (skip c)) (ptr c)).
Definition payload_at m x : list Z := from_option payload [] (m !! x).

Definition splice (buf : list Z) (o : Z) (p : list Z) : list Z :=
  take (Z.to_nat o) buf ++ p ++ drop (Z.to_nat o + length p) buf.

(** The buffer after the clips of [seg] were laid down in this order, and the
    length recorded in the target. *)
Definition paint m b f seg buf : list Z :=
  foldl (fun buf x => splice buf (off_at m b x - off_at m b f) (payload_at m x)) buf seg.
Definition extent m b f seg (t : Z) : Z :=
  foldl (fun t x => Z.max (stop_at m b x - off_at m b f) t) t seg.

Lemma length_payload b c : clip_ok b c -> Z.of_nat (length (payload c)) = len c.
Proof. intros [? ? ? ? ?]. unfold payload. rewrite length_take, length_drop. lia. Qed.

Lemma memcpy_splice b buf o c :
  clip_ok b c -> 0 <= o -> o + len c <= Z.of_nat (length buf) ->
  memcpy buf o (ptr c) (skip c) (len c) = Some (splice buf o (payload c)) /\
  length (splice buf o (payload c)) = length buf.
Proof.
  intros Oc Ho Hl. pose proof (length_payload b c Oc) as Hp. destruct Oc. unfold memcpy, splice.
  rewrite (proj2 (Z.leb_le 0 o)), (proj2 (Z.leb_le (o + len c) _)),
    (proj2 (Z.leb_le (skip c + len c) _)) by lia. simpl. split.
  - do 4 f_equal. lia.
  - rewrite !length_app, length_take, length_drop. lia.
Qed.

Lemma copy_loop_spec todo fuel m b a pre f ds post buf tlen tot la :
  ainv m b a (pre ++ (ds ++ todo) ++ post) -> head (ds ++ todo) = Some f ->
  last (ds ++ todo) = Some la ->
  covers m b f tot todo -> tot < 2 ^ 24 -> tot <= Z.of_nat (length buf) -> 0 <= tlen < 2 ^ 24 ->
  (length todo <= fuel)%nat ->
  copy_loop fuel m a (default NULL (head todo)) f la buf tlen =
    Some (paint m b f todo buf, extent m b f todo tlen) /\
  length (paint m b f todo buf) = length buf.
Proof.
  revert fuel ds buf tlen. induction todo as [|x todo IH];
    intros fuel ds buf tlen I Hf Hla Hc Ht Hb Htl Hfu.
  { by destruct fuel. }
  destruct fuel as [|fuel]; [simpl in Hfu; lia|]. simpl in Hfu.
  apply Forall_cons in Hc as [Hcx Hc].
  pose proof (ainv_pos _ _ _ _ x I ltac:(set_solver)) as Hnn.
  cbn [copy_loop head default from_option id]. rewrite (proj2 (Z.eqb_neq x NULL)) by done.
  assert (Hnext : (if x =? la then Some NULL else ot_next (tree a) x) = Some (default NULL (head todo))).
  { destruct todo as [|y todo].
    - rewrite last_snoc in Hla. injection Hla as ->. by rewrite Z.eqb_refl.
    - rewrite (proj2 (Z.eqb_neq x la)).
      + pose proof (ai_rep _ _ _ _ I) as R. rewrite <- (app_assoc ds), (app_assoc pre) in R.
        by rewrite (ot_next_rep _ _ x ((y :: todo) ++ post) R).
      + intros ->. pose proof (ot_rep_nodup _ _ (ai_rep _ _ _ _ I)) as N.
        apply NoDup_app in N as (_ & _ & (N & _ & _)%NoDup_app).
        apply NoDup_app in N as (_ & _ & [Hnin _]%NoDup_cons).
        apply Hnin. apply last_Some in Hla as (k & Hk).
        destruct (y :: todo) as [|z k' _] eqn:E using rev_ind; [done|].
        rewrite app_comm_cons, app_assoc in Hk. apply app_inj_tail in Hk as [_ <-]. set_solver. }
  rewrite Hnext. cbn [mbind option_bind].
  destruct (ainv_lookup _ _ _ _ x I) as (c & Hx & Oc); [set_solver|].
  rewrite Hx. cbn [mbind option_bind].
  assert (Hk : exists k, (ds ++ x :: todo) ++ post = f :: k).
  { destruct ds; simpl in *; simplify_eq; by eexists. }
  destruct Hk as [k Hk]. pose proof I as I'. rewrite Hk in I'.
  destruct (ainv_lookup _ _ _ _ f I') as (cf & Hcf & Of); [set_solver|].
  rewrite Hcf. cbn [mbind option_bind].
  destruct (rel_end m b pre f k x c cf) as (-> & -> & Hoff & _ & Hst & Hln);
    [apply I'|apply I'|rewrite <- Hk; set_solver|done|done|].
  destruct (memcpy_splice b buf (off_at m b x - off_at m b f) c Oc) as [-> Hlen]; [lia|lia|].
  cbn [mbind option_bind].
  assert (Hpa : payload_at m x = payload c) by (unfold payload_at; by rewrite Hx).
  unfold u24. rewrite Z.mod_small by lia.
  assert (Happ : (ds ++ [x]) ++ todo = ds ++ x :: todo) by by rewrite <- app_assoc.
  destruct (IH fuel (ds ++ [x]) (splice buf (off_at m b x - off_at m b f) (payload c))
              (Z.max (stop_at m b x - off_at m b f) tlen)) as [-> Hl2];
    rewrite ?Happ; try done; try lia.
  change (paint m b f (x :: todo) buf)
    with (paint m b f todo (splice buf (off_at m b x - off_at m b f) (payload_at m x))).
  rewrite Hpa. by split; [|lia].
Qed.

Lemma ainv_count m b a l : ainv m b a l -> asm_count a = Z.of_nat (length l).
Proof.
  intros I. unfold asm_count. rewrite (ot_count_rep _ _ (ai_rep _ _ _ _ I)).
  pose proof (ai_count _ _ _ _ I). apply u32_id. unfold is_u32. lia.
Qed.

Lemma ainv_first m b a x l : ainv m b a (x :: l) -> ot_first (tree a) = Some x.
Proof. intros I. apply (ot_first_rep _ x l), I. Qed.

(** *** Contiguous clips *)

(** The clips of [l] follow each other without gap or overlap from [o] on. *)
Fixpoint chain m b (o : Z) l : Prop :=
  match l with
  | [] => True
  | x :: l => exists c, m !! x = Some c /\ off b c = o /\ 0 < len c /\ chain m b (o + len c) l
  end.

Lemma chain_total m b o l : chain m b o l -> 0 <= total_len m l.
Proof.
  revert o. induction l as [|x l IH]; intros o; simpl; [lia|].
  intros (c & -> & _ & ? & Hc). apply IH in Hc. simpl. lia.
Qed.

Lemma chain_last m b o l x : chain m b o l -> last l = Some x -> stop_at m b x = o + total_len m l.
Proof.
  revert o. induction l as [|y l IH]; intros o; simpl; [done|].
  intros (c & Hy & Ho & Hl & Hc). destruct l as [|z l].
  - intros [= ->]. unfold stop_at, stop. rewrite Hy. simpl. lia.
  - intros Hla. rewrite (IH _ Hc Hla), Hy. simpl. lia.
Qed.

(** The first loop on a chain, up to the end of the cache or the first gap. *)
Lemma range_loop_chain rest fuel m b a pre post f cf la0 la tot o ts mh :
  ainv m b a (pre ++ rest ++ post) -> m !! f = Some cf -> clip_ok b cf -> off b cf <= o ->
  chain m b o rest -> last rest = Some la -> 0 <= tot <= o - off b cf ->
  0 <= ts < 2 ^ 31 -> Forall (fun x => ts < stop_at m b x) rest -> 0 <= mh < 2 ^ 31 ->
  (forall y, head post = Some y -> o + total_len m rest < off_at m b y) ->
  (length rest <= fuel)%nat ->
  let stp := o + total_len m rest in
  range_loop fuel m a (default NULL (head rest)) f la0 tot (u32 (b + ts)) (u32 (b + mh)) =
  Some (if negb (bool_decide (post = [])) && (stp <? mh) then None
        else Some (f, la, stp - off b cf)).
Proof.
  revert fuel pre la0 tot o. induction rest as [|x rest IH]; [done|].
  intros fuel pre la0 tot o I Hf Of Hpo Hch Hla Htot Hts Hstop Hmh Hpost Hfu.
  destruct fuel as [|fuel]; [simpl in Hfu; lia|]. simpl in Hfu.
  apply Forall_cons in Hstop as [Hsx Hstop].
  pose proof (ainv_pos _ _ _ _ x I ltac:(set_solver)) as Hnn.
  destruct (ainv_lookup _ _ _ _ x I) as (c & Hx & Oc); [set_solver|].
  pose proof (off_range _ _ Oc) as Hor. pose proof (off_range _ _ Of) as Hof.
  pose proof (ck_stop _ _ Oc) as Hcs. pose proof (ck_len _ _ Oc) as Hcl.
  destruct Hch as (c' & Hx' & Ho & Hlen & Hch). rewrite Hx in Hx'. injection Hx' as <-.
  subst o. unfold stop_at in Hsx. rewrite Hx in Hsx.
  unfold stop in Hsx, Hcs. simpl in Hsx.
  cbn [range_loop default head from_option id]. rewrite (proj2 (Z.eqb_neq x NULL)) by done.
  rewrite (ot_next_rep _ pre x (rest ++ post) (ai_rep _ _ _ _ I)). cbn [mbind option_bind].
  rewrite Hx. cbn [mbind option_bind]. rewrite Hf. cbn [mbind option_bind].
  rewrite (stop_end b c) by apply Oc. rewrite (seq_off b cf) by apply Of.
  rewrite u32_lte_near by (unfold near, stop; lia).
  rewrite (proj2 (Z.leb_gt (b + stop b c) (b + ts))) by (unfold stop; lia).
  autorewrite with u32. rewrite (u32_id (_ - _)) by (unfold is_u32, stop; lia).
  rewrite Z.max_r by (unfold stop; lia).
  destruct rest as [|y rest].
  - injection Hla as <-. cbn [total_len app] in *. rewrite Hx in *. cbn [from_option] in *.
    replace (b + stop b c - (b + off b cf)) with (off b c + (len c + 0) - off b cf)
      by (unfold stop; lia).
    destruct post as [|z post].
    + simpl default. rewrite Z.eqb_refl. cbn [mbind option_bind]. by destruct fuel.
    + pose proof (ainv_pos _ _ _ _ z I ltac:(set_solver)) as Hnz. simpl default.
      rewrite (proj2 (Z.eqb_neq z NULL)) by done.
      destruct (ainv_lookup _ _ _ _ z I) as (cz & Hz & Oz); [set_solver|]. rewrite Hz.
      cbn [fmap option_fmap option_map mbind option_bind].
      specialize (Hpost z eq_refl). rewrite (off_at_lookup m b z cz) in Hpost by done.
      pose proof (off_range _ _ Oz) as Hoz. rewrite (seq_off b cz) by apply Oz.
      rewrite !u32_lt_near by (unfold near, stop; lia).
      rewrite (proj2 (Z.ltb_lt (b + stop b c) (b + off b cz))) by (unfold stop; lia).
      rewrite bool_decide_false by done. simpl andb.
      destruct (Z.ltb_spec (b + stop b c) (b + mh)), (Z.ltb_spec (off b c + (len c + 0)) mh);
        unfold stop in *; (done || lia).
  - pose proof (ainv_pos _ _ _ _ y I ltac:(set_solver)) as Hny. cbn [app head default from_option id].
    rewrite (proj2 (Z.eqb_neq y NULL)) by done.
    destruct (ainv_lookup _ _ _ _ y I) as (cy & Hy & Oy); [set_solver|]. rewrite Hy.
    cbn [fmap option_fmap option_map mbind option_bind].
    pose proof (off_range _ _ Oy) as Hoy. rewrite (seq_off b cy) by apply Oy.
    rewrite u32_lt_near by (unfold near, stop; lia).
    pose proof Hch as (cy' & Hy' & Hoff & _). rewrite Hy in Hy'. injection Hy' as <-.
    rewrite (proj2 (Z.ltb_ge (b + stop b c) (b + off b cy))) by (unfold stop; lia).
    assert (Htl : total_len m (x :: y :: rest) = len c + total_len m (y :: rest))
      by (cbn [total_len]; by rewrite Hx).
    rewrite Htl in *.
    replace (b + stop b c - (b + off b cf)) with (stop b c - off b cf) by lia.
    pose proof (IH fuel (pre ++ [x]) x (stop b c - off b cf) (off b c + len c)) as IH'.
    cbn [head default from_option id] in IH'. rewrite IH'; clear IH IH'; try done; try (unfold stop; lia).
    + rewrite Z.add_assoc. done.
    + by rewrite <- app_assoc.
    + intros z Hz. specialize (Hpost z Hz). lia.
Qed.

Lemma paint_chain m b f o l buf :
  chain m b o l -> Forall (in_mem m b) l -> off_at m b f <= o ->
  o - off_at m b f + total_len m l <= Z.of_nat (length buf) ->
  paint m b f l buf =
    take (Z.to_nat (o - off_at m b f)) buf ++ concat (payload_at m <$> l) ++
    drop (Z.to_nat (o - off_at m b f + total_len m l)) buf.
Proof.
  revert o buf. induction l as [|x l IH]; intros o buf Hch Hm Ho Hb.
  - simpl. by rewrite Z.add_0_r, take_drop.
  - apply Forall_cons in Hm as [(c & Hx & Oc) Hm].
    pose proof Hch as (c' & Hx' & Hoff & Hlen & Hch'). rewrite Hx in Hx'. injection Hx' as <-.
    subst o.
    cbn [total_len] in *. rewrite Hx in *. cbn [from_option] in *.
    pose proof (chain_total _ _ _ _ Hch') as Htot.
    pose proof (length_payload b c Oc) as Hp.
    change (paint m b f (x :: l) buf)
      with (paint m b f l (splice buf (off_at m b x - off_at m b f) (payload_at m x))).
    rewrite (off_at_lookup m b x c) by done.
    assert (Hpa : payload_at m x = payload c) by (unfold payload_at; by rewrite Hx).
    rewrite Hpa. set (q := off b c - off_at m b f) in *.
    assert (Hl2 : length (splice buf q (payload c)) = length buf).
    { unfold splice. rewrite !length_app, length_take, length_drop. lia. }
    rewrite (IH (off b c + len c)); try done; [|lia|lia].
    replace (off b c + len c - off_at m b f) with (q + len c) by lia.
    simpl fmap. simpl concat. rewrite Hpa. unfold splice.
    rewrite app_assoc, (app_assoc (take _ buf) (payload c)).
    rewrite take_app_length' by (rewrite length_app, length_take; lia).
    rewrite <- !app_assoc. do 2 f_equal. f_equal.
    rewrite (app_assoc (take _ buf) (payload c)).
    rewrite drop_app_ge by (rewrite length_app, length_take; lia).
    rewrite drop_drop. f_equal. rewrite length_app, length_take. lia.
Qed.

Lemma extent_bounds m b f seg tot t :
  covers m b f tot seg -> 0 <= t <= tot -> 0 <= extent m b f seg t <= tot.
Proof.
  revert t. induction seg as [|x seg IH]; intros t Hc Ht; [done|].
  apply Forall_cons in Hc as [? Hc]. simpl. apply IH; [done|lia].
Qed.

Lemma extent_chain m b f o l :
  chain m b o l -> off_at m b f <= o -> l <> [] ->
  extent m b f l 0 = o - off_at m b f + total_len m l.
Proof.
  intros Hch Ho Hl.
  assert (Hg : forall t, 0 <= t <= o - off_at m b f ->
    extent m b f l t = if decide (l = []) then t else o - off_at m b f + total_len m l).
  { clear Hl. revert o Hch Ho. induction l as [|x l IH]; intros o Hch Ho t Ht; [done|].
    destruct Hch as (c & Hx & Hoff & Hlen & Hch). cbn [total_len]. rewrite Hx. cbn [from_option].
    change (extent m b f (x :: l) t) with (extent m b f l (Z.max (stop_at m b x - off_at m b f) t)).
    assert (Hst : stop_at m b x = o + len c) by (unfold stop_at, stop; rewrite Hx; simpl; lia).
    rewrite (IH (o + len c)) by (done || lia). rewrite Hst.
    case_decide; subst; simpl; lia. }
  rewrite Hg by lia. by rewrite decide_False.
Qed.

Lemma chain_covers m b f o l tot :
  chain m b o l -> o - off_at m b f + total_len m l <= tot -> covers m b f tot l.
Proof.
  revert o. induction l as [|x l IH]; intros o Hch Ht; [by apply Forall_nil|].
  destruct Hch as (c & Hx & Hoff & Hlen & Hch). pose proof (chain_total _ _ _ _ Hch).
  cbn [total_len] in Ht. rewrite Hx in Ht. cbn [from_option] in Ht. constructor.
  - unfold stop_at, stop. rewrite Hx. simpl. lia.
  - apply (IH (o + len c)); [done|lia].
Qed.

(** Past the first clip of a chain everything ends later. *)
Lemma chain_after m b x c l ts :
  chain m b (off b c) (x :: l) -> m !! x = Some c -> ts < stop b c ->
  Forall (fun y => ts < stop_at m b y) (x :: l).
Proof.
  intros (c' & Hx & _ & Hl & Hch) Hx' Hts. rewrite Hx' in Hx. injection Hx as <-.
  constructor; [unfold stop_at; by rewrite Hx'|]. unfold stop in Hts.
  assert (Hg : forall l o, chain m b o l -> ts < o -> Forall (fun y => ts < stop_at m b y) l).
  { clear. induction l as [|y l IH]; intros o Hch Ho; [by apply Forall_nil|].
    destruct Hch as (c & Hy & Hoff & Hl & Hch). constructor.
    - unfold stop_at, stop. rewrite Hy. simpl. lia.
    - apply (IH _ Hch). lia. }
  by apply (Hg l (off b c + len c)).
Qed.

Lemma splice_drop buf o p n :
  0 <= o -> o + Z.of_nat (length p) <= Z.of_nat n -> (n <= length buf)%nat ->
  drop n (splice buf o p) = drop n buf.
Proof.
  intros Ho Hn Hb. unfold splice. rewrite app_assoc.
  rewrite drop_app_ge by (rewrite length_app, length_take; lia).
  rewrite drop_drop, length_app, length_take. f_equal. lia.
Qed.

Lemma paint_drop m b pre f k seg buf tot :
  Forall (in_mem m b) (pre ++ f :: k) ->
  StronglySorted (fun x y => off_at m b x < off_at m b y) (pre ++ f :: k) ->
  (forall x, x ∈ seg -> x ∈ f :: k) -> covers m b f tot seg -> tot <= Z.of_nat (length buf) ->
  drop (Z.to_nat tot) (paint m b f seg buf) = drop (Z.to_nat tot) buf.
Proof.
  intros M S. revert buf. induction seg as [|x seg IH]; intros buf Hin Hc Hb; [done|].
  apply Forall_cons in Hc as [Hx Hc]. rewrite Forall_forall in M.
  destruct (M x) as (c & Hcx & Oc); [specialize (Hin x); set_solver|].
  destruct (M f) as (cf & Hcf & Of); [set_solver|].
  destruct (rel_end m b pre f k x c cf) as (_ & _ & ? & _ & ? & ?); try done;
    [by apply Forall_forall|apply Hin; set_solver|].
  pose proof (length_payload b c Oc) as Hp.
  assert (Hpa : payload_at m x = payload c) by (unfold payload_at; by rewrite Hcx).
  change (paint m b f (x :: seg) buf)
    with (paint m b f seg (splice buf (off_at m b x - off_at m b f) (payload_at m x))).
  rewrite Hpa. destruct (memcpy_splice b buf (off_at m b x - off_at m b f) c Oc) as [_ Hl]; [lia|lia|].
  rewrite IH; [|intros; apply Hin; set_solver|done|lia]. apply splice_drop; lia.
Qed.
End inv.

(** *** The whole of asm_construct *)

Lemma construct_safe {T} `{!OrderedTree T} m b (a : asm T) l target must_have :
  ainv m b a l -> 0 <= len target < 2 ^ 24 -> len target <= Z.of_nat (length (ptr target)) ->
  exists target' r, asm_construct m a target must_have = Some (target', r) /\
    length (ptr target') = length (ptr target) /\
    drop (Z.to_nat (len target)) (ptr target') = drop (Z.to_nat (len target)) (ptr target) /\
    (r = ASM_OK -> 0 <= len target' <= len target) /\
    (r <> ASM_OK -> ptr target' = ptr target).
Proof.
  intros I Ht Hb. unfold asm_construct. rewrite (ainv_count _ _ _ _ I).
  destruct (Z.leb_spec (Z.of_nat (length l)) 1) as [|Hlen]; [by exists target, ASM_NOP|].
  destruct l as [|x l]; [simpl in Hlen; lia|].
  rewrite (ainv_first _ _ _ _ _ I). cbn [mbind option_bind].
  destruct (range_loop_safe (x :: l) (Z.to_nat (Z.of_nat (length (x :: l)))) m b a _ [] [] 0
              (seq target) must_have I) as (r & Hr & Hok); [done|lia|lia|by apply Forall_nil|].
  cbn [head default from_option id app last] in Hr. rewrite Hr. cbn [mbind option_bind].
  destruct r as [[[f la] tot]|]; [|by exists target, ASM_NOP].
  destruct (Z.eqb_spec f la); [by exists target, ASM_NOP|].
  destruct (Hok f la tot eq_refl) as [|(pre & seg & post & E & Hhd & Hlast & Htot & Hcov)]; [done|].
  destruct seg as [|f' seg]; [done|]. injection Hhd as ->. rewrite E in I.
  destruct (ainv_lookup _ _ _ _ f I) as (cf & Hcf & Of); [set_solver|]. rewrite Hcf.
  cbn [mbind option_bind].
  destruct (u32_lt (seq target) (seq cf)); [by exists target, ASM_NOP|].
  destruct (Z.ltb_spec (len target) tot); [by eexists _, ASM_MORE|].
  destruct (copy_loop_spec (f :: seg) (Z.to_nat (Z.of_nat (length (x :: l)))) m b a pre f [] post
              (ptr target) 0 tot la) as [Hcp Hpl]; try done; try lia.
  { rewrite E, !length_app. lia. }
  cbn [head default from_option id] in Hcp. rewrite Hcp. cbn [mbind option_bind].
  assert (Hext : 0 <= extent m b f (f :: seg) 0 <= len target)
    by (pose proof (extent_bounds m b f (f :: seg) tot 0 Hcov ltac:(lia)); lia).
  pose proof (paint_drop m b pre f (seg ++ post) (f :: seg) (ptr target) tot) as Hdr.
  eexists _, ASM_OK. split_and!; [done|done| |intros _; exact Hext|done].
  replace (Z.to_nat (len target)) with (Z.to_nat tot + Z.to_nat (len target - tot))%nat by lia.
  rewrite <- !drop_drop. change (ptr _) with (paint m b f (f :: seg) (ptr target)) at 1.
  rewrite Hdr; try done; try apply I; [|lia]. set_solver.
Qed.

Lemma construct_contiguous {T} `{!OrderedTree T} m b (a : asm T) x y l cx target ts must_have :
  ainv m b a (x :: y :: l) -> m !! x = Some cx -> chain m b (off b cx) (x :: y :: l) ->
  seq target = u32 (b + ts) -> off b cx <= ts < stop b cx -> 0 <= must_have < 2 ^ 31 ->
  len target < 2 ^ 24 -> total_len m (x :: y :: l) <= len target <= Z.of_nat (length (ptr target)) ->
  asm_construct m a target (u32 (b + must_have)) =
  Some (target <| ptr := concat (payload_at m <$> x :: y :: l) ++
                         drop (Z.to_nat (total_len m (x :: y :: l))) (ptr target) |>
               <| len := total_len m (x :: y :: l) |> <| seq := seq cx |>, ASM_OK).
Proof.
  intros I Hx Hch Hts Hr Hmh H24 Hb.
  destruct (ainv_lookup _ _ _ _ x I) as (c' & Hx' & Ox); [set_solver|].
  rewrite Hx in Hx'. injection Hx' as <-.
  set (l0 := x :: y :: l) in *. pose proof (off_range _ _ Ox) as Hox. pose proof (ck_stop _ _ Ox).
  destruct (last_is_Some l0) as [_ [la Hla]]; [done|].
  pose proof (ainv_count _ _ _ _ I) as Hcnt.
  unfold asm_construct. rewrite Hcnt. rewrite (proj2 (Z.leb_gt _ 1)) by (simpl; lia).
  rewrite (ainv_first _ _ _ x (y :: l) I). cbn [mbind option_bind].
  assert (Hrl := range_loop_chain l0 (Z.to_nat (Z.of_nat (length l0))) m b a [] [] x cx x la 0
           (off b cx) ts must_have). rewrite app_nil_r in Hrl. cbn [app head default from_option id l0] in Hrl.
  rewrite Hts. fold l0 in Hrl. rewrite Hrl; try done; try lia; clear Hrl.
  2: { eapply chain_after; [exact Hch|exact Hx|lia]. }
  rewrite bool_decide_true by done. cbn [negb andb mbind option_bind].
  assert (Hne : x <> la).
  { intros ->. pose proof (ot_rep_nodup _ _ (ai_rep _ _ _ _ I)) as [Hn _]%NoDup_cons.
    apply Hn. by eapply last_Some_elem_of. }
  rewrite (proj2 (Z.eqb_neq x la)) by done. rewrite Hx. cbn [mbind option_bind].
  rewrite (seq_off b cx) at 1 by apply Ox. rewrite u32_lt_near by (unfold near; lia).
  rewrite (proj2 (Z.ltb_ge (b + ts) (b + off b cx))) by lia.
  replace (off b cx + total_len m l0 - off b cx) with (total_len m l0) by lia.
  rewrite (proj2 (Z.ltb_ge (len target) (total_len m l0))) by lia.
  pose proof (off_at_lookup m b x cx Hx) as Hofx.
  destruct (copy_loop_spec l0 (Z.to_nat (Z.of_nat (length l0))) m b a [] x [] [] (ptr target) 0
              (total_len m l0) la) as [Hcp _]; try done; try lia.
  { by rewrite app_nil_r. }
  { eapply chain_covers; [exact Hch|]. lia. }
  cbn [head default from_option id l0] in Hcp. fold l0 in Hcp. rewrite Hcp. cbn [mbind option_bind].
  rewrite (extent_chain m b x (off b cx)), (paint_chain m b x (off b cx)) by (done || apply I || lia).
  rewrite Hofx, Z.sub_diag. reflexivity.
Qed.

Lemma construct_gap {T} `{!OrderedTree T} m b (a : asm T) x l1 y l2 cx target ts must_have :
  ainv m b a ((x :: l1) ++ y :: l2) -> m !! x = Some cx -> chain m b (off b cx) (x :: l1) ->
  off b cx + total_len m (x :: l1) < off_at m b y ->
  seq target = u32 (b + ts) -> off b cx <= ts < stop b cx ->
  off b cx + total_len m (x :: l1) < must_have < 2 ^ 31 ->
  asm_construct m a target (u32 (b + must_have)) = Some (target, ASM_NOP).
Proof.
  intros I Hx Hch Hgap Hts Hr Hmh.
  destruct (ainv_lookup _ _ _ _ x I) as (c' & Hx' & Ox); [set_solver|].
  rewrite Hx in Hx'. injection Hx' as <-.
  pose proof (off_range _ _ Ox) as Hox. pose proof (ck_stop _ _ Ox). pose proof (chain_total _ _ _ _ Hch).
  destruct (last_is_Some (x :: l1)) as [_ [la Hla]]; [done|].
  unfold asm_construct. rewrite (ainv_count _ _ _ _ I).
  rewrite (proj2 (Z.leb_gt _ 1)) by (rewrite length_app; simpl; lia).
  rewrite (ainv_first _ _ _ x (l1 ++ y :: l2) I). cbn [mbind option_bind].
  assert (Hrl := range_loop_chain (x :: l1) (Z.to_nat (Z.of_nat (length ((x :: l1) ++ y :: l2)))) m b a
    [] (y :: l2) x cx x la 0 (off b cx) ts must_have). cbn [head default from_option id] in Hrl.
  rewrite Hts, Hrl; try done; try lia; clear Hrl.
  - rewrite bool_decide_false by done. by rewrite (proj2 (Z.ltb_lt _ must_have)) by lia.
  - eapply chain_after; [exact Hch|exact Hx|lia].
  - by intros ? [= <-].
  - rewrite length_app. lia.
Qed.

(** Every byte of the result comes from the target or from a clip. *)
Lemma copy_loop_Forall {T} `{!OrderedTree T} (P : Z -> Prop) m (a : asm T) fuel itr f la buf tl buf' tl' :
  (forall x c, m !! x = Some c -> Forall P (ptr c)) -> Forall P buf ->
  copy_loop fuel m a itr f la buf tl = Some (buf', tl') -> Forall P buf'.
Proof.
  intros Hm. revert itr buf tl. induction fuel as [|fuel IH]; intros itr buf tl Hb; cbn [copy_loop].
  - destruct (itr =? NULL); [by intros [= <- <-]|done].
  - destruct (itr =? NULL); [by intros [= <- <-]|].
    destruct (if itr =? la then _ else _) as [next|]; [|done]. cbn [mbind option_bind].
    destruct (m !! itr) as [c|] eqn:Ec; [|done]. cbn [mbind option_bind].
    destruct (m !! f) as [cf|]; [|done]. cbn [mbind option_bind].
    destruct (memcpy _ _ _ _ _) as [b1|] eqn:E; [|done]. cbn [mbind option_bind]. apply IH.
    unfold memcpy in E. destruct (_ && _); [|done]. injection E as <-.
    apply Forall_app. split; [by apply Forall_take|]. apply Forall_app. split; [|by apply Forall_drop].
    apply Forall_take, Forall_drop. by eapply Hm.
Qed.

Lemma construct_Forall {T} `{!OrderedTree T} (P : Z -> Prop) m (a : asm T) target mh target' r :
  (forall x c, m !! x = Some c -> Forall P (ptr c)) -> Forall P (ptr target) ->
  asm_construct m a target mh = Some (target', r) -> Forall P (ptr target').
Proof.
  intros Hm Ht. unfold asm_construct. destruct (asm_count a <=? 1); [by intros [= <- _]|].
  destruct (ot_first (tree a)) as [f|]; [|done]. cbn [mbind option_bind].
  destruct (range_loop _ _ _ _ _ _ _ _ _) as [[[[f1 la] tot]|]|]; [|by intros [= <- _]|done]. cbn [mbind option_bind].
  destruct (f1 =? la); [by intros [= <- _]|]. destruct (m !! f1) as [cf|]; [|done]. cbn [mbind option_bind].
  destruct (u32_lt _ _); [by intros [= <- _]|]. destruct (_ <? tot); [by intros [= <- _]|].
  destruct (copy_loop _ _ _ _ _ _ _ _) as [[buf tl]|] eqn:E; [|done]. cbn [mbind option_bind].
  intros [= <- _]. cbn [ptr set]. by eapply copy_loop_Forall.
Qed.

(** ** Correctness of the cache *)

(** asm_insert keeps the clips ordered by sequence number and [gross] the
    number of cached bytes; a clip with the sequence number of a cached one is
    refused and changes nothing. *)
Theorem asm_insert_spec {T} `{!OrderedTree T} m b (a : asm T) l x c :
  ainv m b a l -> m !! x = Some c -> clip_ok b c -> 0 < x -> x ∉ l ->
  Z.of_nat (length l) + 1 < 2 ^ 32 ->
  exists a' r, asm_insert m a x = Some (a', r) /\
    (r = ASM_OK /\ (exists l1 l2, l = l1 ++ l2 /\ ainv m b a' (l1 ++ x :: l2)) /\
       Forall (fun y => off_at m b y <> off b c) l \/
     r = ASM_FAILURE /\ ainv m b a' l /\ Exists (fun y => off_at m b y = off b c) l).
Proof. intros. by apply asm_insert_sound. Qed.

(** asm_flush frees exactly the leading clips that end at or before [s], in
    order, and keeps the accounting of the rest. *)
Theorem asm_flush_spec {T} `{!OrderedTree T} m b (a : asm T) dead live s :
  ainv m b a (dead ++ live) -> 0 <= s < 2 ^ 31 -> Forall (ended m b s) dead ->
  (forall y, head live = Some y -> ~ ended m b s y) ->
  exists a', asm_flush m a (u32 (b + s)) = Some (a', dead) /\ ainv m b a' live /\
    asm_gross a' = u32 (total_len m live).
Proof.
  intros I Hs Hd Hl. unfold asm_flush. pose proof (ainv_count _ _ _ _ I) as Hc. rewrite Hc.
  destruct (dead ++ live) as [|x l] eqn:E.
  - apply app_nil in E as [-> ->]. exists a. split_and!; [done|done|apply I].
  - rewrite (proj2 (Z.eqb_neq _ 0)) by (simpl; lia).
    rewrite (ainv_first _ _ _ _ _ I). cbn [mbind option_bind].
    rewrite <- E in I. pose proof (flush_loop_sound dead live (Z.to_nat (Z.of_nat (length (x :: l)))) m b a s []) as Hfl.
    rewrite E in Hfl. cbn [head default from_option id] in Hfl. rewrite <- E in Hfl.
    destruct (Hfl I Hs Hd Hl) as (a' & Ha & I'); [rewrite length_app; lia|].
    exists a'. rewrite E in Ha. split_and!; [exact Ha|exact I'|apply I'].
Qed.

(** C24: asm_construct is memory safe for any cached clips, also overlapping ones:
    it terminates, never reads outside a clip nor writes outside the `len` bytes the
    caller announced, leaves the target buffer alone unless it returns ASM_OK, and
    then reports a length within the announced one. *)
Theorem asm_construct_safe {T} `{!OrderedTree T} m b (a : asm T) l target must_have :
  ainv m b a l -> 0 <= len target < 2 ^ 24 -> len target <= Z.of_nat (length (ptr target)) ->
  exists target' r, asm_construct m a target must_have = Some (target', r) /\
    length (ptr target') = length (ptr target) /\
    drop (Z.to_nat (len target)) (ptr target') = drop (Z.to_nat (len target)) (ptr target) /\
    (r = ASM_OK -> 0 <= len target' <= len target) /\
    (r <> ASM_OK -> ptr target' = ptr target).
Proof. by apply construct_safe. Qed.

(** C25: when the cached clips, at least two, follow each other without gap or
    overlap, the first of them starting no later than the target, asm_construct
    puts their bytes one after the other at the start of the target buffer and
    reports their total length. *)
Theorem asm_construct_contiguous {T} `{!OrderedTree T} m b (a : asm T) x y l cx target ts must_have :
  ainv m b a (x :: y :: l) -> m !! x = Some cx -> chain m b (off b cx) (x :: y :: l) ->
  seq target = u32 (b + ts) -> off b cx <= ts < stop b cx -> 0 <= must_have < 2 ^ 31 ->
  len target < 2 ^ 24 -> total_len m (x :: y :: l) <= len target <= Z.of_nat (length (ptr target)) ->
  asm_construct m a target (u32 (b + must_have)) =
  Some (target <| ptr := concat (payload_at m <$> x :: y :: l) ++
                         drop (Z.to_nat (total_len m (x :: y :: l))) (ptr target) |>
               <| len := total_len m (x :: y :: l) |> <| seq := seq cx |>, ASM_OK).
Proof. by apply construct_contiguous. Qed.

(** when the clips from the first on have a gap before [must_have], nothing is
    assembled: the caller sees ASM_NOP and its target is untouched. *)
Theorem asm_construct_gap {T} `{!OrderedTree T} m b (a : asm T) x l1 y l2 cx target ts must_have :
  ainv m b a ((x :: l1) ++ y :: l2) -> m !! x = Some cx -> chain m b (off b cx) (x :: l1) ->
  off b cx + total_len m (x :: l1) < off_at m b y ->
  seq target = u32 (b + ts) -> off b cx <= ts < stop b cx ->
  off b cx + total_len m (x :: l1) < must_have < 2 ^ 31 ->
  asm_construct m a target (u32 (b + must_have)) = Some (target, ASM_NOP).
Proof. by apply construct_gap. Qed.

(** ** A cache of three clips *)

Definition clips : gmap Z clip :=
  <[10 := Clip [9; 1; 2] 0 2 0 1]> (<[20 := Clip [3; 4; 5] 2 3 0 0]>
  (<[30 := Clip [6; 7; 8; 9] 8 4 0 0]> ∅)).

Definition cache (xs : list Z) : option (asm Tree.tree) :=
  foldl (fun a x => a ← a; fst <$> asm_insert clips a x) (Some asm_init) xs.

Lemma clip_ok_dec b c :
  (0 <=? seq c) && (seq c <? 2 ^ 32) && (0 <=? len c) && (len c <? 2 ^ 24) && (0 <=? skip c) &&
  (skip c + len c <=? Z.of_nat (length (ptr c))) && (stop b c <? 2 ^ 31) = true -> clip_ok b c.
Proof. intros H. break_bool. by constructor. Qed.

Lemma cache2_ainv : exists a, cache [20; 10] = Some a /\ ainv clips 0 a [10; 20].
Proof.
  eexists. split; [vm_compute; reflexivity|]. constructor.
  - exists (Tree.Node (Tree.Node Tree.Leaf 10 Tree.Leaf) 20 Tree.Leaf).
    split_and!; [|done|repeat constructor]. constructor; [simpl; repeat split; done|done| |done].
    apply (bool_decide_unpack _). by vm_compute.
  - repeat constructor; eexists; (split; [vm_compute; reflexivity|by apply clip_ok_dec]).
  - repeat constructor.
  - done.
  - simpl; lia.
Qed.

Lemma cache3_ainv : exists a, cache [30; 10; 20] = Some a /\ ainv clips 0 a [10; 20; 30].
Proof.
  eexists. split; [vm_compute; reflexivity|]. constructor.
  - exists (Tree.Node (Tree.Node Tree.Leaf 10 (Tree.Node Tree.Leaf 20 Tree.Leaf)) 30 Tree.Leaf).
    split_and!; [|done|repeat constructor]. constructor; [simpl; repeat split; done|done| |done].
    apply (bool_decide_unpack _). by vm_compute.
  - repeat constructor; eexists; (split; [vm_compute; reflexivity|by apply clip_ok_dec]).
  - repeat constructor.
  - done.
  - simpl; lia.
Qed.

Definition room : clip := Clip (replicate 8 0) 0 8 0 0.

Lemma asm_insert_witness :
  exists a a' r, cache [20; 10] = Some a /\ asm_insert clips a 30 = Some (a', r) /\ r = ASM_OK.
Proof.
  destruct cache2_ainv as (a & Ha & I). exists a.
  destruct (asm_insert_spec clips 0 a [10; 20] 30 (Clip [6; 7; 8; 9] 8 4 0 0) I)
    as (a' & r & Hi & Hcase).
  - vm_compute; reflexivity.
  - by apply clip_ok_dec.
  - lia.
  - apply (bool_decide_unpack _). by vm_compute.
  - simpl; lia.
  - exists a', r. split_and!; [exact Ha|exact Hi|]. destruct Hcase as [(? & _)|(_ & _ & Hex)]; [done|].
    exfalso. repeat (apply Exists_cons in Hex as [Hex|Hex]; [by vm_compute in Hex|]).
    by apply Exists_nil in Hex.
Defined.

Lemma asm_flush_witness :
  exists a a', cache [30; 10; 20] = Some a /\ asm_flush clips a 5 = Some (a', [10; 20]) /\
    asm_gross a' = 4.
Proof.
  destruct cache3_ainv as (a & Ha & I). exists a.
  destruct (asm_flush_spec clips 0 a [10; 20] [30] 5 I) as (a' & Hf & _ & Hg).
  - lia.
  - repeat constructor; eexists; (split; [vm_compute; reflexivity|by vm_compute]).
  - intros y [= <-] (c & Hc & Hs). vm_compute in Hc. injection Hc as <-. vm_compute in Hs. congruence.
  - exists a'. split_and!; [exact Ha|exact Hf|exact Hg].
Defined.

Lemma asm_construct_safe_witness :
  exists a t' r, cache [30; 10; 20] = Some a /\ asm_construct clips a room 3 = Some (t', r) /\
    length (ptr t') = 8%nat.
Proof.
  destruct cache3_ainv as (a & Ha & I). exists a.
  destruct (asm_construct_safe clips 0 a _ room 3 I) as (t' & r & Hc & Hl & _); [simpl; lia|simpl; lia|].
  exists t', r. split_and!; [exact Ha|exact Hc|exact Hl].
Defined.

Lemma asm_construct_contiguous_witness :
  exists a, cache [20; 10] = Some a /\
    asm_construct clips a room 4 = Some (Clip [1; 2; 3; 4; 5; 0; 0; 0] 0 5 0 0, ASM_OK).
Proof.
  destruct cache2_ainv as (a & Ha & V). exists a. split; [exact Ha|].
  change (asm_construct clips a room 4) with (asm_construct clips a room (u32 (0 + 4))).
  rewrite (asm_construct_contiguous clips 0 a 10 20 [] (Clip [9; 1; 2] 0 2 0 1) room 0 4 V).
  - vm_compute; reflexivity.
  - vm_compute; reflexivity.
  - exists (Clip [9; 1; 2] 0 2 0 1). do 3 (split; [vm_compute; reflexivity|]).
    exists (Clip [3; 4; 5] 2 3 0 0). do 3 (split; [vm_compute; reflexivity|]). exact I.
  - reflexivity.
  - vm_compute; intuition congruence.
  - lia.
  - vm_compute; intuition congruence.
  - vm_compute; intuition congruence.
Defined.

Lemma asm_construct_gap_witness :
  exists a, cache [30; 10; 20] = Some a /\ asm_construct clips a room 11 = Some (room, ASM_NOP).
Proof.
  destruct cache3_ainv as (a & Ha & V). exists a. split; [exact Ha|].
  change 11 with (u32 (0 + 11)).
  apply (asm_construct_gap clips 0 a 10 [20] 30 [] (Clip [9; 1; 2] 0 2 0 1) room 0 11 V).
  - vm_compute; reflexivity.
  - exists (Clip [9; 1; 2] 0 2 0 1). do 3 (split; [vm_compute; reflexivity|]).
    exists (Clip [3; 4; 5] 2 3 0 0). do 3 (split; [vm_compute; reflexivity|]). exact I.
  - vm_compute; reflexivity.
  - reflexivity.
  - vm_compute; intuition congruence.
  - vm_compute; intuition congruence.
Defined.

End Asm.
