(* ===== verification/RcuMap.v ===== *)
(** * utils/rcu_map.c: the keyed maps of the data path

    A thin layer over the hash table of liburcu.  The table keeps one list of nodes
    ordered by the bit-reversed hash; an addition goes behind the nodes of the same
    hash, a lookup returns the first node of the hash for which the match function
    holds.  This is the table as seen by the one thread that owns the map; resizing
    and the lock-free protocol do not change what that thread observes.

    A node is an address; `data` pointers and node pointers differ by [offset]. *)

From S2P Require Import Prelude.

Module RcuMap.

(** bit_reverse_ulong on 64 bits *)
Fixpoint bit_reverse (n : nat) (z : Z) : Z :=
  match n with
  | O => 0
  | S k => Z.b2z (Z.testbit z 0) * 2 ^ Z.of_nat k + bit_reverse k (z / 2)
  end.
Definition bit_reverse_ulong (z : Z) : Z := bit_reverse 64 z.

Record ht_node := HNode { node_hash : Z; node : Z }.
#[export] Instance ht_node_eq_dec : EqDecision ht_node.
Proof. solve_decision. Defined.

Record rcu_map := RMap { map : list ht_node; offset : Z }.
#[export] Instance eta_rcu_map : Eta rcu_map := fun m => RMap (map m) (offset m).

(** cds_lfht_add: behind every node whose reversed hash is not larger. *)
Fixpoint cds_lfht_add (l : list ht_node) (hash n : Z) : list ht_node :=
  match l with
  | [] => [HNode hash n]
  | x :: l =>
      if bit_reverse_ulong hash <? bit_reverse_ulong (node_hash x) then HNode hash n :: x :: l
      else x :: cds_lfht_add l hash n
  end.

(** cds_lfht_del of a node that is in the table; -ENOENT otherwise. *)
Definition ENOENT : Z := 2.
Definition cds_lfht_del (l : list ht_node) (n : Z) : list ht_node * Z :=
  if existsb (fun x => node x =? n) l
  then (List.filter (fun x => negb (node x =? n)) l, 0) else (l, - ENOENT).

Section ops.
Context {K : Type} (match_func : Z -> K -> bool) (hash_func : K -> Z).
Implicit Types (m : rcu_map) (key : K).

Definition cds_lfht_lookup (l : list ht_node) (hash : Z) key : option Z :=
  node <$> find_first (fun x => (node_hash x =? hash) && match_func (node x) key) l.

(** cds_lfht_add_replace: takes the place of the first match, or is put in front of
    the nodes of its hash. *)
Definition cds_lfht_add_replace (l : list ht_node) (hash : Z) key (n : Z) : list ht_node * option Z :=
  match cds_lfht_lookup l hash key with
  | Some old =>
      ((fun x => if node x =? old then HNode hash n else x) <$> l, Some old)
  | None =>
      (List.filter (fun x => bit_reverse_ulong (node_hash x) <? bit_reverse_ulong hash) l ++
       HNode hash n ::
       List.filter (fun x => negb (bit_reverse_ulong (node_hash x) <? bit_reverse_ulong hash)) l, None)
  end.

Definition rcu_map_init (node_offset : Z) : rcu_map := RMap [] node_offset.

Definition rcu_map_add m (data : Z) key : rcu_map :=
  m <| map := cds_lfht_add (map m) (hash_func key) data |>.

Definition rcu_map_add_replace m (data : Z) key : rcu_map * Z :=
  match cds_lfht_add_replace (map m) (hash_func key) key (data + offset m) with
  | (l, None) => (m <| map := l |>, NULL)
  | (l, Some n) => (m <| map := l |>, n - offset m)
  end.

Definition rcu_map_lookup m key : Z :=
  match cds_lfht_lookup (map m) (hash_func key) key with
  | None => NULL
  | Some n => n - offset m
  end.

Definition rcu_map_del m (data : Z) : rcu_map * Z :=
  let '(l, r) := cds_lfht_del (map m) (data + offset m) in (m <| map := l |>, r).

(** rcu_map_for_each: `each_func` on every node until it returns true. *)
Fixpoint for_each {S : Type} (each_func : Z -> S -> bool * S) (l : list ht_node) (args : S) : S :=
  match l with
  | [] => args
  | x :: l => let '(stop, args) := each_func (node x) args in
              if stop then args else for_each each_func l args
  end.
Definition rcu_map_for_each {S : Type} m (each_func : Z -> S -> bool * S) (args : S) : S :=
  for_each each_func (map m) args.
End ops.

(** ** As a finite map

    [keyof] gives the key stored in each object.  When the match function compares
    with it and every node sits under the hash of its key, the map behaves as the
    partial function from keys to the nodes that were added and not deleted. *)

Section spec.
Context {K : Type} `{EqDecision K} (match_func : Z -> K -> bool) (hash_func : K -> Z).
Context (keyof : Z -> option K).
Context (Hmatch : forall n k, match_func n k = bool_decide (keyof n = Some k)).
Implicit Types (m : rcu_map) (k : K).

Record wf m : Prop := {
  wf_hash : Forall (fun x => exists k, keyof (node x) = Some k /\ node_hash x = hash_func k) (map m);
  wf_nodup : NoDup (node <$> map m);
  wf_keys : forall x y, x ∈ map m -> y ∈ map m -> keyof (node x) = keyof (node y) -> x = y;
  wf_pos : Forall (fun x => 0 < node x) (map m);
  wf_offset : offset m = 0
}.

(** [n] is the node of the map with key [k]. *)
Definition holds m k n : Prop := (exists h, HNode h n ∈ map m) /\ keyof n = Some k.

Lemma add_perm l hash n : cds_lfht_add l hash n ≡ₚ HNode hash n :: l.
Proof.
  induction l as [|x l IH]; simpl; [done|]. destruct (_ <? _); [done|].
  rewrite IH. apply Permutation_swap.
Qed.

Lemma lookup_holds m k :
  wf m ->
  (rcu_map_lookup match_func hash_func m k = NULL /\ forall n, ~ holds m k n) \/
  (holds m k (rcu_map_lookup match_func hash_func m k) /\
   0 < rcu_map_lookup match_func hash_func m k).
Proof.
  intros [Wh _ _ Wp Wo]. unfold rcu_map_lookup, cds_lfht_lookup.
  destruct (find_first _ _) as [x|] eqn:E; simpl.
  - right. apply find_first_elem in E as [Hin Hm]. apply andb_true_iff in Hm as [_ Hm].
    rewrite Hmatch in Hm. apply bool_decide_eq_true in Hm. rewrite Wo, Z.sub_0_r.
    rewrite Forall_forall in Wp. split; [|by apply Wp]. split; [|done].
    exists (node_hash x). by destruct x.
  - left. split; [done|]. intros n [[h Hin] Hk]. rewrite find_first_None in E.
    specialize (E _ Hin). simpl in E. rewrite Forall_forall in Wh.
    destruct (Wh _ Hin) as (k' & Hk' & Hh). simpl in *. simplify_eq.
    rewrite Z.eqb_refl, Hmatch in E. simpl in E. by apply bool_decide_eq_false in E.
Qed.

Lemma holds_unique m k n n' : wf m -> holds m k n -> holds m k n' -> n = n'.
Proof.
  intros W [[h Hn] Hk] [[h' Hn'] Hk'].
  assert (HNode h n = HNode h' n') as [= _ ->]; [|done].
  apply (wf_keys _ W); [done|done|]. simpl. congruence.
Qed.

Lemma lookup_some m k n : wf m -> holds m k n -> rcu_map_lookup match_func hash_func m k = n.
Proof.
  intros W H. destruct (lookup_holds m k W) as [[_ Hn]|[Hl _]]; [by destruct (Hn n)|].
  by eapply holds_unique.
Qed.

Lemma add_wf m k n :
  wf m -> keyof n = Some k -> 0 < n -> (forall n', ~ holds m k n') ->
  wf (rcu_map_add hash_func m n k).
Proof.
  intros [Wh Wn Wk Wp Wo] Hk Hn Hfree.
  assert (Hnew : n ∉ node <$> map m).
  { intros ([h n'] & Heq & Hin)%list_elem_of_fmap. simpl in Heq. subst n'. apply (Hfree n).
    split; [by exists h|done]. }
  constructor; simpl.
  - rewrite add_perm. constructor; [by exists k|done].
  - rewrite add_perm. simpl. by constructor.
  - intros x y Hx Hy. rewrite add_perm in Hx, Hy. rewrite elem_of_cons in Hx, Hy.
    intros Heq. destruct Hx as [->|Hx], Hy as [->|Hy]; simpl in *; try done.
    + exfalso. apply (Hfree (node y)). split; [exists (node_hash y); by destruct y|congruence].
    + exfalso. apply (Hfree (node x)). split; [exists (node_hash x); by destruct x|congruence].
    + by apply Wk.
  - rewrite add_perm. by constructor.
  - done.
Qed.

Lemma add_holds m k n k' n' :
  keyof n = Some k ->
  holds (rcu_map_add hash_func m n k) k' n' <-> holds m k' n' \/ (n' = n /\ k' = k).
Proof.
  intros Hk. unfold holds. simpl. setoid_rewrite add_perm. setoid_rewrite elem_of_cons. split.
  - intros [[h [[= -> ->]|Hin]] Hk']; [right; split; [done|congruence]|left; eauto].
  - intros [[[h Hin] Hk']|[-> ->]]; [split; [exists h; by right|done]|].
    split; [exists (hash_func k); by left|done].
Qed.

Lemma del_map m n : wf m -> map (rcu_map_del m n).1 = List.filter (fun x => negb (node x =? n)) (map m).
Proof.
  intros W. unfold rcu_map_del, cds_lfht_del. rewrite (wf_offset _ W), Z.add_0_r.
  destruct (existsb _ _) eqn:E; [done|]. simpl. clear W.
  induction (map m) as [|x l IH]; [done|]. simpl in E |- *. apply orb_false_iff in E as [-> E].
  simpl. by rewrite <- (IH E).
Qed.

Lemma del_wf m n : wf m -> wf (rcu_map_del m n).1.
Proof.
  intros W. pose proof (del_map m n W) as Hd. pose proof W as [Wh Wn Wk Wp Wo].
  assert (Hsub : forall x, x ∈ map (rcu_map_del m n).1 -> x ∈ map m)
    by (intros x; rewrite Hd; by intros [? _]%elem_of_lfilter).
  rewrite Forall_forall in Wh, Wp. constructor.
  - apply Forall_forall. auto.
  - rewrite Hd. by apply NoDup_fmap_filter.
  - auto.
  - apply Forall_forall. auto.
  - unfold rcu_map_del. by destruct (cds_lfht_del _ _).
Qed.

Lemma del_holds m n k n' : wf m -> holds (rcu_map_del m n).1 k n' <-> holds m k n' /\ n' <> n.
Proof.
  intros W. unfold holds. rewrite (del_map m n W). setoid_rewrite elem_of_lfilter. simpl.
  setoid_rewrite negb_true_iff. setoid_rewrite Z.eqb_neq. naive_solver.
Qed.
End spec.

(** Only the keys of the nodes matter. *)
Lemma wf_ext {K : Type} (hash_func : K -> Z) (keyof keyof' : Z -> option K) (m : rcu_map) :
  wf hash_func keyof m -> (forall n, n ∈ node <$> map m -> keyof' n = keyof n) -> wf hash_func keyof' m.
Proof.
  intros [Wh Wn Wk Wp Wo] H.
  assert (E : forall y, y ∈ map m -> keyof' (node y) = keyof (node y)) by (intros y Hy; apply H; by apply list_elem_of_fmap_2).
  constructor; try done.
  - rewrite Forall_forall in Wh |- *. intros y Hy. destruct (Wh y Hy) as (k & Hk & Hh). exists k. split; [|done]. by rewrite E.
  - intros y z Hy Hz Heq. apply Wk; try done. by rewrite <- !E.
Qed.

(** on a map whose match function compares keys, an object added under a new key
    is found under it, every other key is found as before, and deleting the object
    restores the map as it was observed; the invariant (nodes and keys unique, each
    node under the hash of its key) is kept. *)
Theorem rcu_map_add_lookup_del {K : Type} `{EqDecision K} (match_func : Z -> K -> bool)
    (hash_func : K -> Z) (keyof : Z -> option K) (m : rcu_map) (n : Z) (k : K) :
  (forall n k, match_func n k = bool_decide (keyof n = Some k)) ->
  wf hash_func keyof m -> keyof n = Some k -> 0 < n ->
  rcu_map_lookup match_func hash_func m k = NULL ->
  let m1 := rcu_map_add hash_func m n k in
  let m2 := (rcu_map_del m1 n).1 in
  wf hash_func keyof m1 /\ wf hash_func keyof m2 /\
  rcu_map_lookup match_func hash_func m1 k = n /\
  (forall k', k' <> k ->
    rcu_map_lookup match_func hash_func m1 k' = rcu_map_lookup match_func hash_func m k') /\
  (forall k', rcu_map_lookup match_func hash_func m2 k' = rcu_map_lookup match_func hash_func m k').
Proof.
  intros Hm W Hk Hn Hfree m1 m2.
  assert (Hno : forall n', ~ holds keyof m k n').
  { destruct (lookup_holds match_func hash_func keyof Hm m k W) as [[_ ?]|[_ ?]]; [done|].
    unfold NULL in Hfree. lia. }
  pose proof (add_wf hash_func keyof m k n W Hk Hn Hno) as W1.
  pose proof (del_wf hash_func keyof m1 n W1) as W2.
  assert (Hsame : forall m' k', wf hash_func keyof m' ->
    (forall n', holds keyof m' k' n' <-> holds keyof m k' n') ->
    rcu_map_lookup match_func hash_func m' k' = rcu_map_lookup match_func hash_func m k').
  { intros m' k' W' Hh.
    destruct (lookup_holds match_func hash_func keyof Hm m k' W) as [[-> Hz]|[Hz _]].
    - destruct (lookup_holds match_func hash_func keyof Hm m' k' W') as [[-> _]|[Hz' _]]; [done|].
      apply Hh in Hz'. by destruct (Hz _ Hz').
    - apply (lookup_some match_func hash_func keyof Hm); [done|]. by apply Hh. }
  split_and!; [done|done| | |].
  - apply (lookup_some match_func hash_func keyof Hm); [done|]. apply add_holds; [done|]. by right.
  - intros k' Hne. apply Hsame; [done|]. intros n'. unfold m1. rewrite add_holds by done. naive_solver.
  - intros k'. apply Hsame; [done|]. intros n'. unfold m2. rewrite (del_holds hash_func keyof) by done.
    unfold m1. rewrite add_holds by done. split; [naive_solver|].
    intros Hh. split; [by left|]. intros ->. destruct Hh as [Hh ?]. simplify_eq. by apply (Hno n).
Qed.

(** the insertion does not apply the node offset that lookup subtracts: on an
    empty map with node offset [o] an object comes back displaced by [o]. *)
Theorem rcu_map_add_offset {K : Type} (match_func : Z -> K -> bool) (hash_func : K -> Z)
    (o n : Z) (k : K) :
  match_func n k = true ->
  rcu_map_lookup match_func hash_func (rcu_map_add hash_func (rcu_map_init o) n k) k = n - o.
Proof.
  intros Hm. unfold rcu_map_lookup, cds_lfht_lookup. simpl. by rewrite Z.eqb_refl, Hm.
Qed.

(** ** Objects 7 and 8 with keys 1 and 2, all under one hash value *)

Definition sample_key (n : Z) : option Z := if n =? 7 then Some 1 else if n =? 8 then Some 2 else None.
Definition sample_match (n k : Z) : bool := bool_decide (sample_key n = Some k).
Definition sample_map : rcu_map := rcu_map_add (fun _ => 5) (rcu_map_init 0) 7 1.

Lemma sample_map_wf : wf (fun _ => 5) sample_key sample_map.
Proof.
  constructor; simpl; [|apply NoDup_singleton| |by repeat constructor|done].
  - repeat constructor. by exists 1.
  - by intros x y ->%list_elem_of_singleton ->%list_elem_of_singleton.
Qed.

Lemma rcu_map_add_lookup_del_witness :
  rcu_map_lookup sample_match (fun _ => 5) (rcu_map_add (fun _ => 5) sample_map 8 2) 2 = 8 /\
  rcu_map_lookup sample_match (fun _ => 5) (rcu_map_add (fun _ => 5) sample_map 8 2) 1 = 7.
Proof.
  destruct (rcu_map_add_lookup_del sample_match (fun _ => 5) sample_key sample_map 8 2)
    as (_ & _ & H1 & H2 & _).
  - reflexivity.
  - exact sample_map_wf.
  - reflexivity.
  - lia.
  - reflexivity.
  - split; [exact H1|]. apply (H2 1). lia.
Defined.

Lemma rcu_map_add_offset_witness :
  rcu_map_lookup sample_match (fun _ => 5) (rcu_map_add (fun _ => 5) (rcu_map_init 16) 7 1) 1 = -9.
Proof. apply (rcu_map_add_offset sample_match (fun _ => 5) 16 7 1). reflexivity. Defined.

End RcuMap.
