(* ===== verification/Wire.v ===== *)
(** * The packet being processed and its bytes (dpi/dpi_packet.h, dpi/dpi_packet.c)

    [packet] is the part of dpi_packet_t that the layers below the session use.  Its
    buffer is a list of bytes; offsets (l2, l3, l4, raw_ptr) point into it.  A load or
    store outside the buffer is [None].  dp runs on little-endian hosts: a 16-bit load
    takes the low byte first, and ntohs reverses.

    The Internet checksum functions are here because fragments, headers and transport
    packets all use them. *)

From S2P Require Import Prelude Helper.
Import Helper.Bytes.

Module Wire.

(** ** Loads and stores *)

Definition ld8 (m : list Z) (o : Z) : option Z := if o <? 0 then None else m !! Z.to_nat o.
Definition ld16 (m : list Z) (o : Z) : option Z :=
  a ← ld8 m o; b ← ld8 m (o + 1); Some (a + 256 * b).
Definition ld32 (m : list Z) (o : Z) : option Z :=
  a ← ld16 m o; b ← ld16 m (o + 2); Some (a + 65536 * b).
Definition st8 (m : list Z) (o v : Z) : option (list Z) :=
  if (0 <=? o) && (o <? Z.of_nat (length m)) then Some (<[Z.to_nat o := v mod 256]> m) else None.
Definition st16 (m : list Z) (o v : Z) : option (list Z) :=
  m ← st8 m o v; st8 m (o + 1) (v / 256).

(** A region of well-formed bytes that holds [o, o + n). *)
Definition bytes (m : list Z) : Prop := Forall is_u8 m.
Definition holds (m : list Z) (o n : Z) : Prop := 0 <= o /\ o + n <= Z.of_nat (length m).

Lemma ld8_ok m o : bytes m -> holds m o 1 -> exists v, ld8 m o = Some v /\ is_u8 v.
Proof.
  intros Hb [? ?]. unfold ld8. rewrite (proj2 (Z.ltb_ge o 0)) by lia.
  destruct (lookup_lt_is_Some_2 m (Z.to_nat o)) as [v Hv]; [lia|].
  exists v. split; [done|]. by eapply Forall_lookup_1.
Qed.

Lemma ld16_ok m o : bytes m -> holds m o 2 -> exists v, ld16 m o = Some v /\ is_u16 v.
Proof.
  intros Hb [? ?]. unfold ld16.
  destruct (ld8_ok m o Hb) as (a & -> & ?); [split; lia|].
  destruct (ld8_ok m (o + 1) Hb) as (b & -> & ?); [split; lia|].
  eexists. split; [done|]. unfold is_u8, is_u16 in *. lia.
Qed.

Lemma ld32_ok m o : bytes m -> holds m o 4 -> exists v, ld32 m o = Some v /\ is_u32 v.
Proof.
  intros Hb [? ?]. unfold ld32.
  destruct (ld16_ok m o Hb) as (a & -> & ?); [split; lia|].
  destruct (ld16_ok m (o + 2) Hb) as (b & -> & ?); [split; lia|].
  eexists. split; [done|]. unfold is_u16, is_u32 in *. lia.
Qed.

Lemma st8_ok m o v : holds m o 1 -> bytes m ->
  exists m', st8 m o v = Some m' /\ length m' = length m /\ bytes m' /\
    ld8 m' o = Some (v mod 256) /\ forall i, i <> o -> ld8 m' i = ld8 m i.
Proof.
  intros [? ?] Hb. unfold st8. rewrite (proj2 (Z.leb_le 0 o)), (proj2 (Z.ltb_lt o _)) by lia.
  eexists. split; [done|]. split_and!.
  - by rewrite length_insert.
  - apply Forall_insert; [done|]. unfold is_u8. change (2 ^ 8) with 256. apply Z.mod_pos_bound. lia.
  - unfold ld8. rewrite (proj2 (Z.ltb_ge o 0)) by lia. apply list_lookup_insert_eq. lia.
  - intros i Hi. unfold ld8. destruct (Z.ltb_spec i 0); [done|]. apply list_lookup_insert_ne. lia.
Qed.

Lemma st16_ok m o v : holds m o 2 -> bytes m -> is_u16 v ->
  exists m', st16 m o v = Some m' /\ length m' = length m /\ bytes m' /\
    ld16 m' o = Some v /\ forall i, i <> o -> i <> o + 1 -> ld8 m' i = ld8 m i.
Proof.
  intros [? ?] Hb Hv. unfold st16.
  destruct (st8_ok m o v) as (m1 & -> & L1 & B1 & H1 & F1); [split; lia|done|]. cbn [mbind option_bind].
  destruct (st8_ok m1 (o + 1) (v / 256)) as (m2 & -> & L2 & B2 & H2 & F2); [split; lia|done|].
  exists m2. split_and!; [done|lia|done| |].
  - unfold ld16. rewrite (F2 o) by lia. rewrite H1, H2. cbn [mbind option_bind]. f_equal.
    unfold is_u16 in Hv. rewrite (Z.mod_small (v / 256)).
    + pose proof (Z.div_mod v 256). lia.
    + split; [apply Z.div_pos; lia|apply Z.div_lt_upper_bound; lia].
  - intros i ? ?. rewrite F2, F1; done.
Qed.

Lemma ld16_ext m m' o : (forall i, i = o \/ i = o + 1 -> ld8 m' i = ld8 m i) -> ld16 m' o = ld16 m o.
Proof. intros H. unfold ld16. by rewrite !H by auto. Qed.

Lemma htons_range z : is_u16 (htons z).
Proof.
  unfold htons. rewrite lor_disjoint_add; [|lia|apply Z.mod_pos_bound; lia].
  pose proof (Z.mod_pos_bound z 256). pose proof (Z.mod_pos_bound (Z.shiftr z 8) 256). unfold is_u16. lia.
Qed.

Lemma ld8_lookup m i : ld8 m (Z.of_nat i) = m !! i.
Proof. unfold ld8. rewrite (proj2 (Z.ltb_ge _ 0)) by lia. by rewrite Nat2Z.id. Qed.

(** Lists with the same bytes from [o] on. *)
Lemma ld8_drop m o l i : 0 <= o -> 0 <= i -> drop (Z.to_nat o) m = l -> ld8 m (o + i) = l !! Z.to_nat i.
Proof.
  intros Ho Hi <-. unfold ld8. rewrite (proj2 (Z.ltb_ge _ 0)) by lia. rewrite lookup_drop. f_equal. lia.
Qed.
Lemma drop_ext m m' o : 0 <= o -> (forall i, o <= i -> ld8 m' i = ld8 m i) ->
  drop (Z.to_nat o) m' = drop (Z.to_nat o) m.
Proof.
  intros Ho H. apply list_eq. intros i. rewrite !lookup_drop, <- !ld8_lookup. apply H. lia.
Qed.

(** ** The packet *)

Definition DPI_MAX_PKT_LEN : Z := 65536.
Definition DPI_PKT_FLAG_SACKOK : Z := 0x1.
Definition DPI_PKT_FLAG_TCP_TS : Z := 0x2.
Definition DPI_PKT_FLAG_CLIENT : Z := 0x4.
Definition DPI_PKT_FLAG_INGRESS : Z := 0x100.
Definition ETH_P_IP : Z := 0x0800.
Definition ETH_P_IPV6 : Z := 0x86DD.
Definition ETH_HLEN : Z := 14.

(** [pkt] is the memory at p->pkt; [defrag_data] the buffer of DPI_MAX_PKT_LEN bytes
    the thread reassembles into; [ip6_fragh] the offset of the fragment header, NULL
    when there is none; [threats] the threat reports the packet has caused. *)
Record packet := Packet {
  pkt : list Z; ip6_fragh : Z; flags : Z;
  l2 : Z; l3 : Z; l4 : Z; cap_len : Z; len : Z; eth_type : Z; sport : Z; dport : Z; ip_proto : Z;
  tcp_wscale : Z; tcp_mss : Z; tcp_ts_value : Z; tcp_ts_echo : Z;
  threat_id : Z; action : Z; severity : Z;
  frag_trac : Z; raw_ptr : Z; raw_len : Z; raw_seq : Z; defrag_data : list Z; threats : list Z
}.
#[export] Instance eta_packet : Eta packet := fun p => Packet
  (pkt p) (ip6_fragh p) (flags p) (l2 p) (l3 p) (l4 p) (cap_len p) (len p) (eth_type p)
  (sport p) (dport p) (ip_proto p) (tcp_wscale p) (tcp_mss p) (tcp_ts_value p) (tcp_ts_echo p)
  (threat_id p) (action p) (severity p) (frag_trac p) (raw_ptr p) (raw_len p) (raw_seq p)
  (defrag_data p) (threats p).
Implicit Types (p : packet).

Definition dpi_is_ipv4 p : bool := eth_type p =? ETH_P_IP.
Definition dpi_set_client_pkt p : packet := p <| flags ::= fun f => FLAGS_SET f DPI_PKT_FLAG_CLIENT |>.
Definition dpi_is_client_pkt p : bool := FLAGS_TEST (flags p) DPI_PKT_FLAG_CLIENT.

Definition DPI_ACTION_NONE : Z := 0.
Definition DPI_ACTION_ALLOW : Z := 1.
Definition DPI_ACTION_DROP : Z := 2.
Definition DPI_ACTION_RESET : Z := 3.
Definition DPI_ACTION_BYPASS : Z := 4.
Definition DPI_ACTION_BLOCK : Z := 5.

Definition dpi_set_action p (act : Z) : packet :=
  if (DPI_ACTION_ALLOW <? action p) && (act <=? DPI_ACTION_ALLOW) then p else p <| action := act |>.

(** What the thread knows of a threat (threat_property and threat_config of dpi_log.c). *)
Record threat_conf := ThreatConf { thrt_enable : bool; thrt_action : Z; thrt_id : Z; thrt_severity : Z }.

(** dpi_threat_trigger on a packet of a known endpoint (p->ep_mac is set before parsing)
    that has no session yet: the decision and the severity.  [threats] lists the
    triggers; their aggregation in the log cache and the message are not modelled. *)
Definition dpi_threat_trigger (tc : Z -> threat_conf) (idx : Z) p : packet :=
  let c := tc idx in
  if negb (thrt_enable c) then p
  else
    let p := dpi_set_action p (thrt_action c) in
    let p := if severity p <? thrt_severity c
             then p <| threat_id := thrt_id c |> <| severity := thrt_severity c |> else p in
    p <| threats ::= fun l => l ++ [idx] |>.

Definition DPI_THRT_BAD_PACKET : Z := 4.
Definition DPI_THRT_IP_TEARDROP : Z := 5.
Definition DPI_THRT_TCP_SMALL_MSS : Z := 10.

(** ** Checksums *)

Definition get_iph_len (b0 : Z) : Z := u16 (Z.shiftl (Z.land b0 15) 2).
Definition get_tcph_len (b12 : Z) : Z := u16 (Z.shiftl (Z.shiftr b12 4) 2).

(** `sum += *ptr ++`, [n] times *)
Fixpoint sum_words (m : list Z) (o : Z) (n : nat) (sum : Z) : option Z :=
  match n with
  | O => Some sum
  | S n => w ← ld16 m o; sum_words m (o + 2) n (u32 (sum + w))
  end.

Definition fold_sum (sum : Z) : Z :=
  let sum := u32 (Z.shiftr sum 16 + Z.land sum 0xffff) in
  let sum := u32 (sum + Z.shiftr sum 16) in
  u16 (Z.lnot sum).

Definition get_ip_cksum (m : list Z) (iph : Z) : option Z :=
  b0 ← ld8 m iph;
  sum ← sum_words m iph (Z.to_nat (Z.shiftr (get_iph_len b0) 1)) 0;
  Some (fold_sum sum).

Definition get_l4_cksum (sum : Z) (m : list Z) (l4_hdr l4_len : Z) : option Z :=
  sum ← sum_words m l4_hdr (Z.to_nat (Z.shiftr l4_len 1)) sum;
  sum ← (if Z.land l4_len 1 =? 0 then Some sum
         else w ← ld16 m (l4_hdr + 2 * Z.shiftr l4_len 1);
              Some (u32 (sum + Z.land w (htons 0xff00))));
  Some (fold_sum sum).

(** The pseudo header of IPv4: addresses, zero and protocol, length. *)
Definition get_l4v4_cksum (m : list Z) (iph : option Z) (l4_hdr l4_len : Z) : option Z :=
  sum ← match iph with
        | None => Some 0
        | Some iph =>
            sum ← sum_words m (iph + 12) 4 0;
            proto ← ld8 m (iph + 9);
            Some (u32 (u32 (sum + 256 * proto) + htons l4_len))
        end;
  get_l4_cksum sum m l4_hdr l4_len.

(** The pseudo header of IPv6: addresses, a 32-bit length that htons fills, next header. *)
Definition get_l4v6_cksum (m : list Z) (ip6h proto l4_hdr l4_len : Z) : option Z :=
  sum ← sum_words m (ip6h + 8) 16 0;
  get_l4_cksum (u32 (u32 (sum + htons l4_len) + 256 * proto)) m l4_hdr l4_len.

(** *** Ones' complement arithmetic *)

Fixpoint words_total (m : list Z) (o : Z) (n : nat) : option Z :=
  match n with
  | O => Some 0
  | S n => w ← ld16 m o; r ← words_total m (o + 2) n; Some (w + r)
  end.

Lemma words_total_ok m o n : bytes m -> holds m o (2 * Z.of_nat n) ->
  exists t, words_total m o n = Some t /\ 0 <= t <= 65535 * Z.of_nat n.
Proof.
  intros Hb. revert o. induction n as [|n IH]; intros o [? ?]; [by exists 0|].
  cbn [words_total]. destruct (ld16_ok m o Hb) as (w & -> & Hw); [split; lia|].
  destruct (IH (o + 2)) as (t & Ht & ?); [split; lia|]. cbn [mbind option_bind]. rewrite Ht. cbn [mbind option_bind].
  eexists. split; [done|]. unfold is_u16 in Hw. lia.
Qed.

Lemma sum_words_total m o n s t : words_total m o n = Some t ->
  sum_words m o n (u32 s) = Some (u32 (s + t)).
Proof.
  revert o s t. induction n as [|n IH]; intros o s t; cbn [words_total sum_words].
  - intros [= <-]. by rewrite Z.add_0_r.
  - destruct (ld16 m o) as [w|]; [|done]. cbn [mbind option_bind].
    destruct (words_total m (o + 2) n) as [r|] eqn:Er; [|done]. intros [= <-].
    rewrite u32_add_l, (IH _ _ _ Er). do 2 f_equal. lia.
Qed.

Lemma words_total_ext m m' o n :
  (forall i, o <= i < o + 2 * Z.of_nat n -> ld8 m' i = ld8 m i) -> words_total m' o n = words_total m o n.
Proof.
  revert o. induction n as [|n IH]; intros o H; [done|]. cbn [words_total].
  rewrite (ld16_ext m m' o) by (intros i [-> | ->]; apply H; lia).
  destruct (ld16 m o); [|done]. cbn [mbind option_bind]. rewrite IH; [done|]. intros i ?. apply H. lia.
Qed.

Lemma words_total_app m o n k :
  words_total m o (n + k) =
  (a ← words_total m o n; b ← words_total m (o + 2 * Z.of_nat n) k; Some (a + b)).
Proof.
  revert o. induction n as [|n IH]; intros o; simpl.
  - rewrite Z.add_0_r. by destruct (words_total m o k).
  - destruct (ld16 m o) as [w|]; [|done]. simpl. rewrite IH.
    replace (o + 2 + 2 * Z.of_nat n) with (o + 2 * Z.of_nat (S n)) by lia.
    destruct (words_total m (o + 2) n); [|done]. simpl.
    destruct (words_total m (o + 2 * Z.of_nat (S n)) k); [|done]. simpl. f_equal. lia.
Qed.

(** Two folds take any 32-bit sum to its ones' complement, modulo 65535. *)
Lemma fold_sum_spec s : 0 <= s < 2 ^ 32 ->
  is_u16 (fold_sum s) /\ (s + fold_sum s) mod 65535 = 0 /\ (0 < s -> s mod 65535 = 0 -> fold_sum s = 0) /\
  0 < s + fold_sum s.
Proof.
  intros Hs. unfold fold_sum. rewrite !Z.shiftr_div_pow2 by lia.
  replace (Z.land s 0xffff) with (s mod 2 ^ 16) by (symmetry; by apply (Z.land_ones s 16)).
  set (a := s / 2 ^ 16). set (b := s mod 2 ^ 16).
  assert (Hab : s = a * 65536 + b) by (unfold a, b; pose proof (Z.div_mod s (2 ^ 16)); lia).
  assert (0 <= a < 65536) by (unfold a; split; [apply Z.div_pos; lia|apply Z.div_lt_upper_bound; lia]).
  assert (0 <= b < 65536) by (unfold b; apply Z.mod_pos_bound; lia).
  clearbody a b. rewrite (u32_id (a + b)) by (unfold is_u32; lia).
  set (h := (a + b) / 2 ^ 16).
  assert (Hh : (h = 0 /\ a + b < 65536) \/ (h = 1 /\ 65536 <= a + b)).
  { unfold h. destruct (Z.lt_ge_cases (a + b) 65536); [left|right]; split; try lia.
    - apply Z.div_small. lia.
    - symmetry. apply Z.div_unique with (a + b - 65536); lia. }
  clearbody h.
  rewrite (u32_id (a + b + h)) by (unfold is_u32; lia).
  replace (u16 (Z.lnot (a + b + h))) with (65535 - (a + b + h - h * 65536)).
  - split_and!; [unfold is_u16; lia| | |lia].
    + replace (s + (65535 - (a + b + h - h * 65536))) with (65535 * (a + h + 1)) by lia.
      rewrite (Z.mul_comm 65535). by apply Z.mod_mul.
    + intros Hpos Hm. apply Z.mod_divide in Hm; [|done]. destruct Hm as [q Hq].
      assert (a + b = 65535 * (q - a)) by lia. assert (q - a = 1 \/ q - a = 2 \/ q - a <= 0 \/ 3 <= q - a) by lia. lia.
  - unfold u16. replace (Z.lnot (a + b + h)) with (65535 - (a + b + h - h * 65536) + (- h - 1) * 2 ^ 16)
      by (unfold Z.lnot; lia).
    rewrite Z.mod_add by lia. rewrite Z.mod_small; lia.
Qed.

(** *** The header checksum *)

Definition iph_words (m : list Z) (iph : Z) : option nat :=
  b0 ← ld8 m iph; Some (Z.to_nat (Z.shiftr (get_iph_len b0) 1)).

Lemma iph_words_range m iph n b0 : ld8 m iph = Some b0 -> is_u8 b0 -> iph_words m iph = Some n ->
  2 * Z.of_nat n = get_iph_len b0 /\ 0 <= get_iph_len b0 <= 60.
Proof.
  intros E Hb. unfold iph_words. rewrite E. cbn [mbind option_bind]. intros [= <-].
  unfold get_iph_len. change 15 with (Z.ones 4). rewrite Z.land_ones, Z.shiftl_mul_pow2, Z.shiftr_div_pow2 by lia.
  pose proof (Z.mod_pos_bound b0 (2 ^ 4)). rewrite u16_id by (unfold is_u16; lia).
  split; [|lia]. rewrite Z2Nat.id by (apply Z.div_pos; lia).
  replace (b0 mod 2 ^ 4 * 2 ^ 2) with (b0 mod 2 ^ 4 * 2 * 2 ^ 1) by lia. rewrite Z.div_mul by lia. lia.
Qed.

Lemma get_ip_cksum_total m iph n t :
  iph_words m iph = Some n -> words_total m iph n = Some t -> get_ip_cksum m iph = Some (fold_sum (u32 t)).
Proof.
  unfold iph_words, get_ip_cksum. destruct (ld8 m iph) as [b0|]; [|done]. cbn [mbind option_bind].
  intros [= <-] Ht. change 0 with (u32 0). by rewrite (sum_words_total _ _ _ 0 t Ht).
Qed.

(** The sum of a header falls into its check word and the rest. *)
Lemma header_total m iph k rest :
  words_total m iph 5 = Some rest -> forall w r, ld16 m (iph + 10) = Some w ->
  words_total m (iph + 12) k = Some r -> words_total m iph (5 + S k) = Some (rest + w + r).
Proof.
  intros H5 w r Hw Hr. rewrite words_total_app, H5. cbn [mbind option_bind].
  replace (iph + 2 * Z.of_nat 5) with (iph + 10) by lia. cbn [words_total]. rewrite Hw. cbn [mbind option_bind].
  replace (iph + 10 + 2) with (iph + 12) by lia. rewrite Hr. cbn [mbind option_bind]. f_equal. lia.
Qed.

Lemma ip_cksum_sound m iph b0 :
  bytes m -> ld8 m iph = Some b0 -> is_u8 b0 -> 20 <= get_iph_len b0 -> holds m iph (get_iph_len b0) ->
  exists m0 c m1, st16 m (iph + 10) 0 = Some m0 /\ get_ip_cksum m0 iph = Some c /\ is_u16 c /\
    st16 m0 (iph + 10) c = Some m1 /\ get_ip_cksum m1 iph = Some 0 /\
    bytes m1 /\ length m1 = length m /\
    (forall i, i <> iph + 10 -> i <> iph + 11 -> ld8 m1 i = ld8 m i) /\
    ld16 m1 (iph + 10) = Some c.
Proof.
  intros Hb Eb Ub H20 [Ho Hl].
  destruct (iph_words m iph) as [n|] eqn:En; [|unfold iph_words in En; by rewrite Eb in En].
  destruct (iph_words_range m iph n b0 Eb Ub En) as [Hn H60].
  assert (Hk : exists k, n = (5 + S k)%nat) by (exists (n - 6)%nat; lia). destruct Hk as [k ->].
  destruct (st16_ok m (iph + 10) 0) as (m0 & E0 & L0 & B0 & W0 & F0); [split; lia|done|unfold is_u16; lia|].
  assert (In0 : iph_words m0 iph = Some (5 + S k)%nat)
    by (rewrite <- En; unfold iph_words; rewrite F0 by lia; done).
  destruct (words_total_ok m0 iph 5 B0) as (a & Ha & Ra); [split; lia|].
  destruct (words_total_ok m0 (iph + 12) k B0) as (r & Hr & Rr); [split; lia|].
  pose proof (header_total m0 iph k a Ha 0 r W0 Hr) as T0.
  assert (Hs0 : u32 (a + 0 + r) = a + r) by (rewrite u32_id; unfold is_u32; lia).
  pose proof (get_ip_cksum_total m0 iph _ _ In0 T0) as C0. rewrite Hs0 in C0.
  destruct (fold_sum_spec (a + r)) as (Uc & Hmod & _ & Hpos); [lia|]. set (c := fold_sum (a + r)) in *. clearbody c.
  destruct (st16_ok m0 (iph + 10) c) as (m1 & E1 & L1 & B1 & W1 & F1); [split; lia|done|done|].
  assert (In1 : iph_words m1 iph = Some (5 + S k)%nat)
    by (rewrite <- In0; unfold iph_words; rewrite F1 by lia; done).
  assert (Ha1 : words_total m1 iph 5 = Some a) by (rewrite <- Ha; apply words_total_ext; intros; apply F1; lia).
  assert (Hr1 : words_total m1 (iph + 12) k = Some r) by (rewrite <- Hr; apply words_total_ext; intros; apply F1; lia).
  pose proof (header_total m1 iph k a Ha1 c r W1 Hr1) as T1.
  pose proof (get_ip_cksum_total m1 iph _ _ In1 T1) as C1. unfold is_u16 in Uc.
  rewrite u32_id in C1 by (unfold is_u32; lia).
  destruct (fold_sum_spec (a + c + r)) as (_ & _ & Hz & _); [lia|].
  exists m0, c, m1. split_and!; try done; [|lia|].
  - rewrite C1. f_equal. replace (a + c + r) with (a + r + c) in * by lia. by apply Hz.
  - intros i ? ?. rewrite F1, F0; (done || lia).
Qed.

(** The checksum get_ip_cksum computes for a header with a zero check field, stored into
    it, makes the header verify: recomputed over the whole header it is 0, whatever the
    options; nothing but the check field changes. *)
Theorem get_ip_cksum_verifies (m : list Z) (iph b0 : Z) :
  bytes m -> ld8 m iph = Some b0 -> 20 <= get_iph_len b0 -> holds m iph (get_iph_len b0) ->
  exists m0 c m1, st16 m (iph + 10) 0 = Some m0 /\ get_ip_cksum m0 iph = Some c /\
    st16 m0 (iph + 10) c = Some m1 /\ get_ip_cksum m1 iph = Some 0 /\
    (forall i, i <> iph + 10 -> i <> iph + 11 -> ld8 m1 i = ld8 m i).
Proof.
  intros Hb E0 H20 Hh. assert (is_u8 b0).
  { destruct (ld8_ok m iph Hb) as (v & Ev & Hv); [|congruence]. destruct Hh. split; lia. }
  destruct (ip_cksum_sound m iph b0) as (m0 & c & m1 & ? & ? & _ & ? & ? & _ & _ & ? & _); try done.
  by exists m0, c, m1.
Qed.

Definition sample_header : list Z :=
  [69; 0; 0; 40; 18; 52; 0; 0; 64; 6; 1; 2; 10; 0; 0; 1; 10; 0; 0; 2].
Lemma get_ip_cksum_verifies_witness :
  exists m1, get_ip_cksum m1 0 = Some 0 /\ ld8 m1 9 = Some 6.
Proof.
  destruct (get_ip_cksum_verifies sample_header 0 69) as (m0 & c & m1 & _ & _ & _ & Hz & Hf).
  - repeat (apply Forall_cons_2; [unfold is_u8; lia|]). apply Forall_nil_2.
  - reflexivity.
  - vm_compute. discriminate.
  - split; vm_compute; discriminate.
  - exists m1. split; [exact Hz|]. rewrite Hf by lia. reflexivity.
Defined.

End Wire.
