(* ===== verification/Frag.v ===== *)
(** * dpi/dpi_frag.c: reassembly of IPv4 datagrams

    Every datagram in pieces has a tracker, found in the map of the thread by addresses,
    identification and direction, and released by a timer ten seconds after its last
    fragment.  The fragments hang in the reassembly cache of the tracker (Asm.v); when
    the first and the last have been seen, the datagram is put together in the buffer of
    the thread and the fragment at hand becomes the whole packet.

    Trackers and clips are objects at addresses; [None] is an access to an object or a
    byte that is not there.  The map is that of RcuMap.v, the timers those of
    TimerWheel.v, the tree below the cache any implementation of OrderedTree.  Memory
    allocation succeeds. *)

From S2P Require Import Prelude Helper Tree Asm RcuMap TimerWheel Wire.
Import Helper.Bytes Helper.Seq Helper.Hash.
Import Asm.Asm Wire.Wire.

Module Frag.

Definition DPI_FRAG_TIMEOUT : Z := 10.
Definition IP_MF : Z := 0x2000.
Definition IP_OFFMASK : Z := 0x1fff.

(** The fields of ip4frag_trac_t the map compares. *)
Record frag_key := Key { src : Z; dst : Z; ipid : Z; ingress : bool }.
#[export] Instance frag_key_eq_dec : EqDecision frag_key.
Proof. solve_decision. Defined.

Record ip4frag_trac {T : Type} := Trac {
  key : frag_key; length_ : Z; first : bool; last : bool; frags : asm T
}.
Arguments ip4frag_trac T : clear implicits.
Arguments Trac {T} _ _ _ _ _.
#[export] Instance eta_trac T : Eta (ip4frag_trac T) :=
  fun t => Trac (key t) (length_ t) (first t) (last t) (frags t).

(** The part of the thread that reassembles.  The callbacks on the timer wheel are
    ipfrag_release; [fault] records that one of them went wrong. *)
Record thread {T : Type} := Thread {
  clips : gmap Z clip; tracs : gmap Z (ip4frag_trac T);
  ip4frag_map : RcuMap.rcu_map; th_timer : TimerWheel.timer_wheel Z unit; tick : Z;
  total_frags : Z; freed_frags : Z; tmout_frags : Z; fault : bool
}.
Arguments thread T : clear implicits.
Arguments Thread {T} _ _ _ _ _ _ _ _ _.
#[export] Instance eta_thread T : Eta (thread T) := fun w => Thread
  (clips w) (tracs w) (ip4frag_map w) (th_timer w) (tick w) (total_frags w) (freed_frags w)
  (tmout_frags w) (fault w).

(** malloc: an address above those in use. *)
Definition malloc (s : gset Z) : Z := 1 + foldr Z.max 0 (elements s).

Definition ip4frag_trac_hash (k : frag_key) : Z :=
  let quad (z : Z) := [z mod 256; z / 256 mod 256; z / 65536 mod 256; z / 16777216 mod 256] in
  u32 (u32 (sdbm_hash (quad (src k)) + sdbm_hash (quad (dst k))) + ipid k).

Section ops.
Context {T : Type} `{!OrderedTree T}.
Implicit Types (w : thread T) (t : ip4frag_trac T) (p : packet) (k : frag_key) (x : Z).

Definition ip4frag_trac_match (ts : gmap Z (ip4frag_trac T)) x k : bool :=
  match ts !! x with Some t => bool_decide (key t = k) | None => false end.

Definition ipfrag_remove w (c : Z) : thread T :=
  w <| freed_frags ::= fun n => u64 (n + 1) |> <| clips ::= delete c |>.

(** teardrop_check on the clips of the cache, in order *)
Fixpoint teardrop_check (m : gmap Z clip) (seq_ len_ : Z) (xs : list Z) (overlap : bool) : option bool :=
  match xs with
  | [] => Some overlap
  | x :: xs =>
      c ← m !! x;
      teardrop_check m seq_ len_ xs
        (if overlap then overlap
         else u32_overlap seq_ (u32 (seq_ + len_)) (seq c) (u32 (seq c + Asm.len c)))
  end.

(** The flags of the tracker: [None] when the fragment is not to be kept. *)
Definition hold_length (frag_off end_ : Z) t : option (ip4frag_trac T) :=
  if FLAGS_TEST frag_off IP_MF then
    if length_ t <? end_ then
      if last t then None else Some (t <| length_ := end_ mod 2 ^ 30 |>)
    else Some t
  else
    if (end_ <? length_ t) || (last t && negb (end_ =? length_ t)) then None
    else Some (t <| last := true |> <| length_ := end_ mod 2 ^ 30 |>).

(** The fragment is copied into a new clip, which is freed again when the cache
    refuses it. *)
Definition save_fragment w x t p (seq_ len_ : Z) : option (thread T) :=
  let c := malloc (dom (clips w)) in
  if Z.of_nat (length (pkt p)) <? cap_len p then None
  else
    let w := w <| total_frags ::= fun n => u64 (n + 1) |>
               <| clips ::= <[c := Clip (take (Z.to_nat (cap_len p)) (pkt p)) seq_ (u24 len_) 0 (u16 (l4 p))]> |> in
    '(a, r) ← asm_insert (clips w) (frags t) c;
    let w := w <| tracs ::= <[x := t <| frags := a |>]> |> in
    Some (if decide (r = ASM_FAILURE) then ipfrag_remove w c else w).

Definition ipfrag_hold (tc : Z -> threat_conf) w x p : option (thread T * packet) :=
  t ← tracs w !! x;
  fo ← ld16 (pkt p) (l3 p + 6);
  let frag_off := ntohs fo in
  let seq_ := Z.shiftl (Z.land frag_off IP_OFFMASK) 3 in
  let len_ := u32 (len p - l4 p) in
  let end_ := u32 (seq_ + len_) in
  if len_ =? 0 then Some (w, p)
  else
    overlap ← (if 0 <? asm_count (frags t)
               then xs ← asm_foreach (frags t); teardrop_check (clips w) seq_ len_ xs false
               else Some false);
    if (overlap : bool) then Some (w, dpi_threat_trigger tc DPI_THRT_IP_TEARDROP p)
    else
      let t := if seq_ =? 0 then t <| first := true |> else t in
      match hold_length frag_off end_ t with
      | None => Some (w <| tracs ::= <[x := t]> |>, p)
      | Some t => w ← save_fragment w x t p seq_ len_; Some (w, p)
      end.

(** The datagram in the buffer of the thread: headers of the current packet, no
    fragment offset, new length and checksum. *)
Definition rewrite_header (data : list Z) p (n : Z) : option (list Z) :=
  if Z.of_nat (length (pkt p)) <? l4 p then None
  else
    let data := take (Z.to_nat (l4 p)) (pkt p) ++ drop (Z.to_nat (l4 p)) data in
    data ← st16 data (l3 p + 6) 0;
    data ← st16 data (l3 p + 2) (htons (u16 (l4 p - l3 p + n)));
    data ← st16 data (l3 p + 10) 0;
    ck ← get_ip_cksum data (l3 p);
    st16 data (l3 p + 10) ck.

(** Returns a bool: `return -1` is true, the caller sees 1. *)
Definition ipfrag_construct w x p : option (thread T * packet * Z) :=
  t ← tracs w !! x;
  let cons := Clip (drop (Z.to_nat (l4 p)) (defrag_data p)) 0 (u24 (DPI_MAX_PKT_LEN - l4 p)) 0 0 in
  '(cons, r) ← asm_construct (clips w) (frags t) cons (u32 (length_ t - 1));
  if decide (r = ASM_OK) then
    data ← rewrite_header (take (Z.to_nat (l4 p)) (defrag_data p) ++ ptr cons) p (Asm.len cons);
    let n := u16 (l4 p + Asm.len cons) in
    Some (w <| ip4frag_map ::= fun m => (RcuMap.rcu_map_del m x).1 |>
            <| th_timer ::= fun tw => TimerWheel.timer_wheel_entry_remove tw x |>,
          p <| pkt := data |> <| defrag_data := data |> <| cap_len := n |> <| Wire.len := n |>
            <| frag_trac := x |>, 0)
  else Some (w, p, 1).

(** asm_destroy with ipfrag_remove as callback, then free(trac) *)
Definition destroy_trac w x : option (thread T) :=
  t ← tracs w !! x;
  '(_, freed) ← asm_destroy (frags t);
  Some ((foldl ipfrag_remove w freed) <| tracs ::= delete x |>).

Definition ipfrag_release w x : option (thread T) :=
  let w := w <| ip4frag_map ::= fun m => (RcuMap.rcu_map_del m x).1 |>
             <| tmout_frags ::= fun n => u64 (n + 1) |> in
  destroy_trac w x.

Definition packet_key p : option frag_key :=
  s ← ld32 (pkt p) (l3 p + 12); d ← ld32 (pkt p) (l3 p + 16); i ← ld16 (pkt p) (l3 p + 4);
  Some (Key s d i (FLAGS_TEST (flags p) DPI_PKT_FLAG_INGRESS)).

Definition trac_lookup w k : Z :=
  RcuMap.rcu_map_lookup (ip4frag_trac_match (tracs w)) ip4frag_trac_hash (ip4frag_map w) k.

(** A tracker for a datagram that has none. *)
Definition trac_new w k : thread T * Z :=
  let x := malloc (dom (tracs w)) in
  (w <| tracs ::= <[x := Trac k 0 false false asm_init]> |>
     <| ip4frag_map ::= fun m => RcuMap.rcu_map_add ip4frag_trac_hash m x k |>
     <| th_timer ::= fun tw => TimerWheel.timer_wheel_entry_start
          (TimerWheel.timer_wheel_entry_init tw x) x tt DPI_FRAG_TIMEOUT (tick w) |>, x).

Definition dpi_ip_defrag (tc : Z -> threat_conf) w p : option (thread T * packet * Z) :=
  k ← packet_key p;
  let '(w, x) := if trac_lookup w k =? NULL then trac_new w k else (w, trac_lookup w k) in
  let w := w <| th_timer ::= fun tw => TimerWheel.timer_wheel_entry_refresh tw x (tick w) |> in
  '(w, p) ← ipfrag_hold tc w x p;
  t ← tracs w !! x;
  if first t && last t then ipfrag_construct w x p else Some (w, p, -1).

Definition dpi_frag_discard w x : option (thread T) := destroy_trac w x.

(** send_frag: the bytes of the fragment as it was received, up to the end of its
    payload. *)
Definition send_frag (m : gmap Z clip) (x : Z) : option (list Z) :=
  c ← m !! x;
  if Z.of_nat (length (ptr c)) <? Asm.len c + skip c then None
  else Some (take (Z.to_nat (Asm.len c + skip c)) (ptr c)).

Definition dpi_frag_send w x : option (thread T * list (list Z)) :=
  t ← tracs w !! x;
  xs ← asm_foreach (frags t);
  out ← mapM (send_frag (clips w)) xs;
  w ← destroy_trac w x;
  Some (w, out).

Definition dpi_frag_init w : thread T := w <| ip4frag_map := RcuMap.rcu_map_init 0 |>.
End ops.

#[export] Instance thread_world T `{!OrderedTree T} : TimerWheel.TimerWorld (thread T) Z unit := {|
  TimerWheel.wheel := th_timer;
  TimerWheel.wheel_upd f w := w <| th_timer ::= f |>;
  TimerWheel.run_callback _ x w :=
    match ipfrag_release w x with Some w => w | None => w <| fault := true |> end;
  TimerWheel.wheel_wheel_upd f w := eq_refl
|}.

(** ** The invariant *)

Lemma malloc_fresh s : (malloc s ∉ s) /\ 0 < malloc s.
Proof.
  unfold malloc. assert (H : forall l, 0 <= foldr Z.max 0 l /\ forall x, x ∈ l -> x <= foldr Z.max 0 l).
  { induction l as [|y l [IH1 IH2]]; simpl; [split; [lia|by intros ? ?%elem_of_nil]|].
    split; [lia|]. intros x [->|Hx]%elem_of_cons; [lia|]. specialize (IH2 x Hx). lia. }
  destruct (H (elements s)) as [H0 H1]. split; [|lia].
  intros Hin. apply elem_of_elements, H1 in Hin. lia.
Qed.

Section inv.
Context {T : Type} `{!OrderedTree T}.
Implicit Types (w : thread T) (t : ip4frag_trac T) (p : packet) (k : frag_key) (x : Z).
Implicit Types (m : gmap Z clip) (l : list Z).

(** A kept fragment: not empty, below the length of the tracker. *)
Definition kept m (bound : Z) (x : Z) : Prop :=
  exists c, m !! x = Some c /\ clip_ok 0 c /\ 0 < Asm.len c /\ stop 0 c <= bound.

Record trac_ok m t l : Prop := {
  to_ainv : ainv m 0 (frags t) l;
  to_kept : Forall (kept m (length_ t)) l;
  to_spaced : StronglySorted (fun x y => stop_at m 0 x <= off_at m 0 y) l;
  to_length : 0 <= length_ t < 2 ^ 17
}.

Definition keyof w x : option frag_key := key <$> tracs w !! x.
Definition on_map w x : Prop := exists h, RcuMap.HNode h x ∈ RcuMap.map (ip4frag_map w).

(** [dl] are the deadlines on the timer wheel, [ls] the clips of each tracker in order.
    A tracker taken out of the map, to be sent or discarded, has no timer. *)
Record finv w (dl : gmap Z Z) (ls : gmap Z (list Z)) : Prop := {
  fi_trac x t : tracs w !! x = Some t -> 0 < x /\ exists l, ls !! x = Some l /\ trac_ok (clips w) t l;
  fi_ls x l : ls !! x = Some l -> is_Some (tracs w !! x);
  fi_disj x y lx ly c : ls !! x = Some lx -> ls !! y = Some ly -> c ∈ lx -> c ∈ ly -> x = y;
  fi_clip c : is_Some (clips w !! c) -> exists x l, ls !! x = Some l /\ c ∈ l;
  fi_bytes c cl : clips w !! c = Some cl -> bytes (ptr cl);
  fi_map : RcuMap.wf ip4frag_trac_hash (keyof w) (ip4frag_map w);
  fi_dl x : is_Some (dl !! x) <-> on_map w x;
  fi_tmo x : is_Some (dl !! x) -> TimerWheel.timeout (TimerWheel.entry (th_timer w) x) = DPI_FRAG_TIMEOUT;
  fi_fault : fault w = false
}.

Lemma match_key w x k : ip4frag_trac_match (tracs w) x k = bool_decide (keyof w x = Some k).
Proof.
  unfold ip4frag_trac_match, keyof. destruct (tracs w !! x) as [t|]; simpl; [|done].
  apply bool_decide_ext. split; [by intros ->|by intros [= ->]].
Qed.

(** The cache does not look at other clips. *)
Lemma ainv_mem m m' b (a : asm T) l :
  ainv m b a l -> (forall x, x ∈ l -> m' !! x = m !! x) -> ainv m' b a l.
Proof.
  intros [R M S G C] H. constructor; try done.
  - rewrite Forall_forall in M |- *. intros x Hx. destruct (M x Hx) as (c & Hc & Oc). exists c. by rewrite H.
  - assert (E : forall x, x ∈ l -> off_at m' b x = off_at m b x)
      by (intros x Hx; unfold off_at, seq_at; by rewrite H).
    clear -S E. induction S as [|x l S IH Hx]; [constructor|]. constructor; [apply IH; set_solver|].
    rewrite Forall_forall in Hx |- *. intros y Hy. rewrite !E by set_solver. by apply Hx.
  - rewrite G. f_equal. clear -H. induction l as [|x l IH]; [done|]. simpl. rewrite IH, H by set_solver. done.
Qed.

Lemma trac_ok_mem m m' t l : trac_ok m t l -> (forall x, x ∈ l -> m' !! x = m !! x) -> trac_ok m' t l.
Proof.
  intros [I K S L] H. constructor; [by eapply ainv_mem| | |done].
  - rewrite Forall_forall in K |- *. intros x Hx. destruct (K x Hx) as (c & Hc & Hr). exists c. by rewrite H.
  - clear -S H. induction S as [|x l S IH Hx]; [constructor|]. constructor; [apply IH; set_solver|].
    rewrite Forall_forall in Hx |- *. intros y Hy. unfold stop_at, off_at, seq_at.
    rewrite !H by set_solver. by apply Hx.
Qed.

Lemma on_map_trac w dl ls x : finv w dl ls -> on_map w x -> is_Some (tracs w !! x).
Proof.
  intros F [h Hh]. pose proof (RcuMap.wf_hash _ _ _ (fi_map _ _ _ F)) as Wh.
  rewrite Forall_forall in Wh. destruct (Wh _ Hh) as (k & Hk & _). unfold keyof in Hk. simpl in Hk.
  destruct (tracs w !! x); [by eexists|done].
Qed.

(** What the lookup of a key finds. *)
Lemma trac_lookup_spec w dl ls k : finv w dl ls ->
  (trac_lookup w k = NULL /\ forall x t, tracs w !! x = Some t -> on_map w x -> key t <> k) \/
  (0 < trac_lookup w k /\ on_map w (trac_lookup w k) /\
   exists t, tracs w !! trac_lookup w k = Some t /\ key t = k).
Proof.
  intros F. unfold trac_lookup.
  destruct (RcuMap.lookup_holds (ip4frag_trac_match (tracs w)) ip4frag_trac_hash (keyof w)
              (match_key w) (ip4frag_map w) k (fi_map _ _ _ F)) as [[-> Hn]|[[Hm Hk] Hp]].
  - left. split; [done|]. intros x t Hx Hm Hk. apply (Hn x). split; [done|]. unfold keyof. rewrite Hx. simpl. by rewrite Hk.
  - right. split_and!; [done|done|]. unfold keyof in Hk.
    destruct (tracs w !! _) as [t|]; [|done]. injection Hk as Hk. by exists t.
Qed.

Lemma init_trac_ok m k : trac_ok m (Trac k 0 false false asm_init) [].
Proof.
  constructor; simpl; [|by apply Forall_nil|constructor|lia].
  constructor; simpl; [apply ot_init_rep|by apply Forall_nil|constructor|done|lia].
Qed.

(** The tick leaves room for the timeout on the wheel, whose base is [base]. *)
Definition tick_ok base w : Prop :=
  0 <= tick w /\ tick w + DPI_FRAG_TIMEOUT < 2 ^ 32 /\
  base <= tick w + DPI_FRAG_TIMEOUT < base + TimerWheel.MAX_TIMER_SLOTS.

Lemma trac_new_finv base w dl ls k :
  finv w dl ls -> TimerWheel.inv base (th_timer w) dl -> tick_ok base w -> trac_lookup w k = NULL ->
  exists w' x, trac_new w k = (w', x) /\ finv w' (<[x := tick w + DPI_FRAG_TIMEOUT]> dl) (<[x := []]> ls) /\
    TimerWheel.inv base (th_timer w') (<[x := tick w + DPI_FRAG_TIMEOUT]> dl) /\
    tracs w' = <[x := Trac k 0 false false asm_init]> (tracs w) /\ (tracs w !! x = None) /\
    clips w' = clips w /\ tick w' = tick w /\ on_map w' x.
Proof.
  intros F V (Ht & H32 & Hb) Hl. eexists _, _. split; [reflexivity|].
  destruct (malloc_fresh (dom (tracs w))) as [Hf Hp]. set (x := malloc (dom (tracs w))) in *. clearbody x.
  apply not_elem_of_dom in Hf.
  assert (Hnm : ~ on_map w x) by (intros Hm; destruct (on_map_trac _ _ _ _ F Hm); congruence).
  assert (Hnd : dl !! x = None).
  { destruct (dl !! x) eqn:E; [|done]. destruct Hnm. apply (fi_dl _ _ _ F). by eexists. }
  assert (Hnl : ls !! x = None).
  { destruct (ls !! x) eqn:E; [|done]. destruct (fi_ls _ _ _ F _ _ E). congruence. }
  assert (Hkey : forall n, n ∈ RcuMap.node <$> RcuMap.map (ip4frag_map w) ->
            (key <$> (<[x := Trac k 0 false false asm_init]> (tracs w)) !! n) = keyof w n).
  { intros n ([h n'] & -> & Hn)%list_elem_of_fmap. simpl. rewrite lookup_insert_ne; [done|].
    intros ->. apply Hnm. by exists h. }
  assert (Hwf : RcuMap.wf ip4frag_trac_hash (fun n => key <$> (<[x := Trac k 0 false false asm_init]> (tracs w)) !! n)
            (RcuMap.rcu_map_add ip4frag_trac_hash (ip4frag_map w) x k)).
  { apply RcuMap.add_wf; [by eapply RcuMap.wf_ext; [apply F|]|by rewrite lookup_insert_eq|done|].
    intros n [[h Hn] Hk]. rewrite lookup_insert_ne in Hk by (intros ->; apply Hnm; by exists h).
    destruct (trac_lookup_spec w dl ls k F) as [[_ Hno]|[Hpos _]]; [|unfold NULL in *; lia].
    destruct (tracs w !! n) as [t|] eqn:E; [|done]. injection Hk as Hk.
    by apply (Hno n t); [|exists h|]. }
  assert (Hmap : forall y, (exists h, RcuMap.HNode h y ∈ RcuMap.cds_lfht_add (RcuMap.map (ip4frag_map w)) (ip4frag_trac_hash k) x)
            <-> y = x \/ on_map w y).
  { intros y. unfold on_map. setoid_rewrite RcuMap.add_perm. setoid_rewrite elem_of_cons. split.
    - intros (h & [[= -> ->]|Hh]); [by left|right; by exists h].
    - intros [->|[h Hh]]; [eexists; by left|exists h; by right]. }
  split_and!; [constructor; simpl| |done|done|done|done|].
  - intros y t. rewrite lookup_insert_Some. intros [[<- <-]|[Hne Hy]].
    + split; [done|]. exists []. rewrite lookup_insert_eq. split; [done|apply init_trac_ok].
    + rewrite lookup_insert_ne by done. by apply (fi_trac _ _ _ F).
  - intros y l. rewrite lookup_insert_Some. intros [[<- <-]|[Hne Hy]].
    + rewrite lookup_insert_eq. by eexists.
    + rewrite lookup_insert_ne by done. by apply (fi_ls _ _ _ F _ _ Hy).
  - intros y z ly lz c. rewrite !lookup_insert_Some. intros [[<- <-]|[? ?]] [[<- <-]|[? ?]] Hc1 Hc2; try done.
    + by apply elem_of_nil in Hc1.
    + by apply elem_of_nil in Hc2.
    + by eapply (fi_disj _ _ _ F).
  - intros c Hc. destruct (fi_clip _ _ _ F c Hc) as (y & l & Hy & Hin). exists y, l.
    split; [|done]. rewrite lookup_insert_ne; [done|]. congruence.
  - apply F.
  - exact Hwf.
  - intros y. unfold on_map. simpl. rewrite Hmap, <- (fi_dl _ _ _ F).
    destruct (decide (x = y)) as [->|Hne]; [rewrite lookup_insert_eq; naive_solver|].
    rewrite lookup_insert_ne by done. naive_solver.
  - intros y. rewrite TimerWheel.timeout_start by (unfold DPI_FRAG_TIMEOUT, TimerWheel.MAX_TIMER_SLOTS; lia).
    case_decide; [done|]. rewrite lookup_insert_ne by done. intros Hy.
    unfold TimerWheel.timer_wheel_entry_init. rewrite TimerWheel.entry_entry_upd, decide_False by done.
    by apply (fi_tmo _ _ _ F).
  - apply F.
  - cbn [th_timer set]. apply TimerWheel.start_inv; try done.
    by apply TimerWheel.entry_upd_off.
  - apply Hmap. by left.
Qed.

Lemma refresh_finv base w dl ls x :
  finv w dl ls -> TimerWheel.inv base (th_timer w) dl -> tick_ok base w -> on_map w x ->
  let w' := w <| th_timer ::= fun tw => TimerWheel.timer_wheel_entry_refresh tw x (tick w) |> in
  finv w' (<[x := tick w + DPI_FRAG_TIMEOUT]> dl) ls /\
  TimerWheel.inv base (th_timer w') (<[x := tick w + DPI_FRAG_TIMEOUT]> dl).
Proof.
  intros F V (Ht & H32 & Hb) Hm w'.
  destruct (proj2 (fi_dl _ _ _ F x) Hm) as [D HD].
  assert (Htm : TimerWheel.timeout (TimerWheel.entry (th_timer w) x) = DPI_FRAG_TIMEOUT)
    by (apply (fi_tmo _ _ _ F); by eexists).
  assert (Hd : forall y, is_Some (<[x := tick w + DPI_FRAG_TIMEOUT]> dl !! y) <-> is_Some (dl !! y)).
  { intros y. destruct (decide (x = y)) as [->|?]; [|by rewrite lookup_insert_ne].
    rewrite lookup_insert_eq, HD. by split; eexists. }
  split.
  - destruct F. constructor; try done.
    + intros y. rewrite Hd. apply fi_dl0.
    + intros y. rewrite Hd. intros Hy. cbn [th_timer set w']. rewrite TimerWheel.timeout_refresh. by apply fi_tmo0.
  - cbn [th_timer set w']. rewrite <- Htm. eapply TimerWheel.refresh_inv; [done|done|done|..]; rewrite Htm;
      unfold DPI_FRAG_TIMEOUT in *; lia.
Qed.

(** *** Holding a fragment *)

(** The fragment [seq_, seq_ + len_) does not meet the clip. *)
Definition apart m (seq_ len_ : Z) (x : Z) : Prop :=
  stop_at m 0 x <= seq_ \/ seq_ + len_ <= off_at m 0 x.
#[export] Instance apart_dec m s n x : Decision (apart m s n x).
Proof. unfold apart. apply _. Defined.

Lemma kept_off m b x : kept m b x -> b < 2 ^ 17 ->
  exists c, m !! x = Some c /\ seq c = off_at m 0 x /\ u32 (seq c + Asm.len c) = stop_at m 0 x /\
    0 <= off_at m 0 x < stop_at m 0 x /\ stop_at m 0 x <= b.
Proof.
  intros (c & Hc & Oc & Hl & Hs) Hb. exists c. pose proof (off_range _ _ Oc) as Ho.
  assert (Eo : off 0 c = seq c) by (unfold off; rewrite Z.sub_0_r; apply u32_id, Oc).
  rewrite (off_at_lookup m 0 x c Hc). unfold stop_at. rewrite Hc. simpl. unfold stop in *. rewrite Eo in *.
  split_and!; try done; try lia. apply u32_id. unfold is_u32. lia.
Qed.

Lemma teardrop_check_spec m b seq_ len_ l o :
  Forall (kept m b) l -> b < 2 ^ 17 -> 0 <= seq_ -> 0 < len_ -> seq_ + len_ < 2 ^ 17 ->
  teardrop_check m seq_ len_ l o = Some (o || negb (bool_decide (Forall (apart m seq_ len_) l))).
Proof.
  intros K Hb Hs Hl He. revert o. induction K as [|x l Hx K IH]; intros o; cbn [teardrop_check].
  - rewrite bool_decide_true by done. by rewrite orb_false_r.
  - destruct (kept_off _ _ _ Hx Hb) as (c & Hc & E1 & E2 & ? & ?). rewrite Hc. cbn [mbind option_bind].
    rewrite IH, E2, E1. f_equal. rewrite (u32_id (seq_ + len_)) by (unfold is_u32; lia).
    assert (Hov : u32_overlap seq_ (seq_ + len_) (off_at m 0 x) (stop_at m 0 x) = negb (bool_decide (apart m seq_ len_ x))).
    { unfold u32_overlap, apart. apply Bool.eq_iff_eq_true. rewrite andb_true_iff, negb_true_iff, bool_decide_eq_false.
      rewrite Z.ltb_lt, ?Z.gtb_lt, ?Z.ltb_lt. lia. }
    rewrite Hov. destruct o; [done|]. simpl.
    destruct (bool_decide_reflect (apart m seq_ len_ x)) as [Ha|Ha].
    + simpl. f_equal. apply bool_decide_ext. rewrite Forall_cons. naive_solver.
    + simpl. symmetry. apply negb_true_iff, bool_decide_eq_false. rewrite Forall_cons. naive_solver.
Qed.

(** A tracker is rewritten, and perhaps clips with it. *)
Lemma retrac_finv w w' dl ls x t t' l' :
  finv w dl ls -> tracs w !! x = Some t -> key t' = key t -> tracs w' = <[x := t']> (tracs w) ->
  ip4frag_map w' = ip4frag_map w -> th_timer w' = th_timer w -> fault w' = fault w ->
  trac_ok (clips w') t' l' ->
  (forall y ly c, y <> x -> ls !! y = Some ly -> c ∈ ly -> clips w' !! c = clips w !! c /\ (c ∉ l')) ->
  (forall c, is_Some (clips w' !! c) -> c ∈ l' \/ exists y ly, y <> x /\ ls !! y = Some ly /\ c ∈ ly) ->
  (forall c cl, clips w' !! c = Some cl -> bytes (ptr cl)) ->
  finv w' dl (<[x := l']> ls).
Proof.
  intros F Hx Hk Et Em Ew Ef Ok Hoth Hcl Hby.
  assert (Hkey : forall n, keyof w' n = keyof w n).
  { intros n. unfold keyof. rewrite Et. destruct (decide (x = n)) as [->|?].
    - rewrite lookup_insert_eq, Hx. simpl. by rewrite Hk.
    - by rewrite lookup_insert_ne. }
  constructor.
  - intros y ty. rewrite Et, lookup_insert_Some. intros [[<- <-]|[Hne Hy]].
    + split; [by apply (fi_trac _ _ _ F _ _ Hx)|]. exists l'. by rewrite lookup_insert_eq.
    + destruct (fi_trac _ _ _ F _ _ Hy) as (Hp & ly & Hly & Oy). split; [done|]. exists ly.
      rewrite lookup_insert_ne by done. split; [done|]. eapply trac_ok_mem; [done|].
      intros c Hc. by apply (Hoth y ly c).
  - intros y ly. rewrite Et, lookup_insert_Some. intros [[<- <-]|[Hne Hy]].
    + rewrite lookup_insert_eq. by eexists.
    + rewrite lookup_insert_ne by done. by eapply (fi_ls _ _ _ F).
  - intros y z ly lz c. rewrite !lookup_insert_Some. intros [[<- <-]|[? ?]] [[<- <-]|[? ?]] Hc1 Hc2; try done.
    + destruct (Hoth z lz c) as [_ Hn]; [congruence|done|done|]. done.
    + destruct (Hoth y ly c) as [_ Hn]; [congruence|done|done|]. done.
    + by eapply (fi_disj _ _ _ F).
  - intros c Hc. destruct (Hcl c Hc) as [Hin|(y & ly & Hne & Hy & Hin)].
    + exists x, l'. by rewrite lookup_insert_eq.
    + exists y, ly. by rewrite lookup_insert_ne.
  - exact Hby.
  - rewrite Em. eapply RcuMap.wf_ext; [apply F|]. intros n _. apply Hkey.
  - intros y. unfold on_map. rewrite Em. apply (fi_dl _ _ _ F).
  - intros y. rewrite Ew. apply (fi_tmo _ _ _ F).
  - rewrite Ef. apply F.
Qed.

Lemma retrac_flags w dl ls x t t' l :
  finv w dl ls -> tracs w !! x = Some t -> ls !! x = Some l -> key t' = key t -> frags t' = frags t ->
  length_ t' = length_ t -> finv (w <| tracs ::= <[x := t']> |>) dl ls.
Proof.
  intros F Hx Hl Hk Hf Hn. destruct (fi_trac _ _ _ F _ _ Hx) as (_ & l0 & Hl0 & [O1 O2 O3 O4]).
  rewrite Hl in Hl0. injection Hl0 as <-. rewrite <- (insert_id ls x l) by done.
  apply (retrac_finv w _ dl ls x t t' l); try done.
  - constructor; cbn [clips set]; by rewrite ?Hf, ?Hn.
  - intros y ly c Hne Hy Hc. split; [done|]. intros Hc'. by destruct (Hne (fi_disj _ _ _ F _ _ _ _ _ Hy Hl Hc Hc')).
  - intros c Hc. destruct (fi_clip _ _ _ F c Hc) as (y & ly & Hy & Hin).
    destruct (decide (y = x)) as [->|?]; [left; congruence|right; by exists y, ly].
  - apply (fi_bytes _ _ _ F).
Qed.

(** Kept fragments are few: they are disjoint and not empty. *)
Lemma spaced_length m b l : Forall (kept m b) l -> b < 2 ^ 17 ->
  StronglySorted (fun x y => stop_at m 0 x <= off_at m 0 y) l -> Z.of_nat (length l) <= 2 ^ 17.
Proof.
  intros K Hb S. assert (H : forall lo, (forall y, y ∈ l -> lo <= off_at m 0 y) -> 0 <= lo <= 2 ^ 17 ->
    Z.of_nat (length l) <= 2 ^ 17 - lo).
  { induction S as [|x l S IH Hx]; intros lo Hlo Hr; simpl; [lia|].
    apply Forall_cons in K as [Kx K]. destruct (kept_off _ _ _ Kx Hb) as (c & _ & _ & _ & ? & ?).
    specialize (Hlo x ltac:(left)) as Hlx. rewrite Forall_forall in Hx.
    specialize (IH K (stop_at m 0 x)). lapply IH; [|intros y Hy; by apply Hx]. intros IH'. lapply IH'; lia. }
  specialize (H 0). lapply H; [|intros y Hy; unfold off_at; pose proof (u32_range (seq_at m y - 0)); unfold is_u32 in *; lia].
  intros H'. lapply H'; lia.
Qed.

(** A packet whose IPv4 header has been checked. *)
Record pwf p : Prop := {
  pw_bytes : bytes (pkt p);
  pw_l3 : 0 <= l3 p;
  pw_l4 : l3 p + 20 <= l4 p <= Wire.len p;
  pw_cap : Wire.len p <= cap_len p /\ cap_len p <= Z.of_nat (length (pkt p)) /\ cap_len p < 2 ^ 16;
  pw_ihl : exists b0, ld8 (pkt p) (l3 p) = Some b0 /\ get_iph_len b0 = l4 p - l3 p;
  pw_data : bytes (defrag_data p) /\ Z.of_nat (length (defrag_data p)) = DPI_MAX_PKT_LEN
}.

(** The payload of a fragment. *)
Definition fragment p : list Z :=
  take (Z.to_nat (Wire.len p - l4 p)) (drop (Z.to_nat (l4 p)) (pkt p)).

Lemma apart_sides m b seq_ len_ x :
  kept m b x -> b < 2 ^ 17 -> 0 < len_ -> apart m seq_ len_ x ->
  off_at m 0 x <> seq_ /\ (off_at m 0 x < seq_ -> stop_at m 0 x <= seq_) /\
  (seq_ < off_at m 0 x -> seq_ + len_ <= off_at m 0 x).
Proof. intros K Hb Hl Ha. destruct (kept_off _ _ _ K Hb) as (c & _ & _ & _ & ? & ?). unfold apart in Ha. lia. Qed.

Lemma new_clip_ok p seq_ len_ :
  pwf p -> 0 <= seq_ -> 0 < len_ -> len_ = Wire.len p - l4 p -> seq_ + len_ < 2 ^ 17 ->
  let cl := Clip (take (Z.to_nat (cap_len p)) (pkt p)) seq_ (u24 len_) 0 (u16 (l4 p)) in
  clip_ok 0 cl /\ Asm.len cl = len_ /\ stop 0 cl = seq_ + len_ /\ off 0 cl = seq_ /\
  payload cl = fragment p /\ bytes (ptr cl).
Proof.
  intros [Pb P3 P4 (Pc1 & Pc2 & Pc3) _ _] Hs Hl El He cl.
  assert (E24 : u24 len_ = len_) by (unfold u24; apply Z.mod_small; lia).
  assert (E16 : u16 (l4 p) = l4 p) by (apply u16_id; unfold is_u16; lia).
  assert (Eo : off 0 cl = seq_) by (unfold off; rewrite Z.sub_0_r; apply u32_id; unfold is_u32; cbn; lia).
  assert (Ecl : Asm.len cl = len_) by exact E24. assert (Esk : skip cl = l4 p) by exact E16.
  split_and!; [constructor| | | | |]; rewrite ?Ecl, ?Esk; try done.
  - unfold is_u32. cbn. lia.
  - lia.
  - lia.
  - cbn [ptr cl]. rewrite length_take. lia.
  - unfold stop. rewrite Eo, Ecl. lia.
  - unfold stop. rewrite Eo, Ecl. lia.
  - unfold payload, fragment. rewrite Ecl, Esk. cbn [ptr cl]. rewrite skipn_firstn_comm, take_take. f_equal. lia.
  - cbn [ptr cl]. by apply Forall_take.
Qed.

Lemma insert_trac_ok m t a x c cl l1 l2 :
  trac_ok m t (l1 ++ l2) -> m !! x = None -> <[x := cl]> m = c ->
  ainv c 0 a (l1 ++ x :: l2) -> clip_ok 0 cl -> 0 < Asm.len cl ->
  Forall (apart m (off 0 cl) (Asm.len cl)) (l1 ++ l2) ->
  forall t', length_ t <= length_ t' < 2 ^ 17 -> stop 0 cl <= length_ t' -> frags t' = a ->
  trac_ok c t' (l1 ++ x :: l2).
Proof.
  intros [I K S L] Hx <- I' Ocl Hlen Ha t' Ht' Hst <-.
  assert (Hne : forall y, y ∈ l1 ++ l2 -> <[x := cl]> m !! y = m !! y).
  { intros y Hy. apply lookup_insert_ne. intros ->. rewrite Forall_forall in K.
    destruct (K y Hy) as (? & ? & _). congruence. }
  pose proof (lookup_insert_eq m x cl) as Ex.
  assert (Eox : off_at (<[x := cl]> m) 0 x = off 0 cl) by by apply off_at_lookup.
  assert (Esx : stop_at (<[x := cl]> m) 0 x = stop 0 cl) by (unfold stop_at; by rewrite Ex).
  assert (Es : forall y, y ∈ l1 ++ l2 -> stop_at (<[x := cl]> m) 0 y = stop_at m 0 y /\
            off_at (<[x := cl]> m) 0 y = off_at m 0 y).
  { intros y Hy. unfold stop_at, off_at, seq_at. by rewrite Hne. }
  pose proof (ai_sorted _ _ _ _ I') as SS. apply StronglySorted_app_iff in SS as (_ & SS2 & SS1).
  rewrite Forall_forall in K, Ha, SS1. inversion SS2 as [|? ? _ SSx]; subst. rewrite Forall_forall in SSx.
  assert (Hside : forall y, y ∈ l1 ++ l2 -> (off_at m 0 y < off 0 cl -> stop_at m 0 y <= off 0 cl) /\
            (off 0 cl < off_at m 0 y -> stop 0 cl <= off_at m 0 y)).
  { intros y Hy. destruct (apart_sides m (length_ t) (off 0 cl) (Asm.len cl) y (K y Hy)) as (_ & H1 & H2); auto; lia. }
  constructor; [done| | |lia].
  - apply Forall_forall. intros y Hy. destruct (decide (y = x)) as [->|Hyx].
    + exists cl. by split_and!.
    + assert (Hy' : y ∈ l1 ++ l2) by set_solver. destruct (K y Hy') as (cy & Hcy & ? & ? & ?).
      exists cy. rewrite Hne by done. split_and!; try done; lia.
  - apply StronglySorted_app_iff in S as (S1 & S2 & S12). rewrite Forall_forall in S12.
    assert (Hmem : forall l, (forall y, y ∈ l -> y ∈ l1 ++ l2) ->
      StronglySorted (fun x y => stop_at m 0 x <= off_at m 0 y) l ->
      StronglySorted (fun x0 y => stop_at (<[x := cl]> m) 0 x0 <= off_at (<[x := cl]> m) 0 y) l).
    { clear -Es. intros l Hl. induction 1 as [|y l S IH Hy]; [constructor|]. constructor; [apply IH; set_solver|].
      rewrite Forall_forall in Hy |- *. intros z Hz. destruct (Es y ltac:(set_solver)), (Es z ltac:(set_solver)).
      specialize (Hy z Hz). lia. }
    apply StronglySorted_app_iff. split_and!; [apply Hmem; [set_solver|done]|constructor; [apply Hmem; [set_solver|done]|]|].
    + apply Forall_forall. intros y Hy. specialize (SSx y Hy). destruct (Es y) as [_ E2]; [set_solver|].
      rewrite Eox, E2 in SSx. rewrite Esx, E2. apply Hside; [set_solver|done].
    + apply Forall_forall. intros y Hy. specialize (SS1 y Hy). specialize (S12 y Hy).
      rewrite Forall_forall in SS1, S12. destruct (Es y) as [E1 E2]; [set_solver|]. apply Forall_forall.
      intros z [->|Hz]%elem_of_cons.
      * specialize (SS1 x ltac:(left)). rewrite Eox, E2 in SS1. rewrite E1, Eox. apply Hside; [set_solver|done].
      * destruct (Es z) as [_ E3]; [set_solver|]. rewrite E1, E3. by apply S12.
Qed.

Lemma save_spec w dl ls x t t2 l p seq_ len_ :
  finv w dl ls -> tracs w !! x = Some t -> ls !! x = Some l -> pwf p ->
  key t2 = key t -> frags t2 = frags t -> length_ t <= length_ t2 < 2 ^ 17 -> seq_ + len_ <= length_ t2 ->
  0 <= seq_ -> 0 < len_ -> len_ = Wire.len p - l4 p -> Forall (apart (clips w) seq_ len_) l ->
  exists w' a c cl l1 l2, save_fragment w x t2 p seq_ len_ = Some w' /\ l = l1 ++ l2 /\
    finv w' dl (<[x := l1 ++ c :: l2]> ls) /\ (clips w !! c = None) /\ clips w' = <[c := cl]> (clips w) /\
    seq cl = seq_ /\ Asm.len cl = len_ /\ payload cl = fragment p /\
    tracs w' = <[x := t2 <| frags := a |>]> (tracs w) /\
    ip4frag_map w' = ip4frag_map w /\ th_timer w' = th_timer w /\ tick w' = tick w.
Proof.
  intros F Hx Hl P Hk Hf Hlen Hend Hs Hp El Ha. unfold save_fragment.
  destruct (fi_trac _ _ _ F _ _ Hx) as (_ & l0 & Hl0 & O). rewrite Hl in Hl0. injection Hl0 as <-.
  destruct (new_clip_ok p seq_ len_ P Hs Hp El) as (Ocl & Elen & Est & Eoff & Epay & Eb); [lia|].
  rewrite (proj2 (Z.ltb_ge _ _)) by apply P.
  destruct (malloc_fresh (dom (clips w))) as [Hc Hcp]. set (c := malloc (dom (clips w))) in *. clearbody c.
  apply not_elem_of_dom in Hc. set (cl := Clip _ seq_ _ 0 _) in *.
  assert (Hcl : forall y ly, ls !! y = Some ly -> c ∉ ly).
  { intros y ly Hy Hin. destruct (fi_ls _ _ _ F _ _ Hy) as [ty Hty].
    destruct (fi_trac _ _ _ F _ _ Hty) as (_ & l1 & Hl1 & Oy). rewrite Hy in Hl1. injection Hl1 as <-.
    pose proof (to_kept _ _ _ Oy) as K. rewrite Forall_forall in K. destruct (K c Hin) as (? & ? & _). congruence. }
  cbn [clips set]. destruct (asm_insert_sound (<[c := cl]> (clips w)) 0 (frags t2) l c cl) as (a & r & E & Hr).
  { rewrite Hf. eapply ainv_mem; [apply O|]. intros y Hy. apply lookup_insert_ne. intros ->. by eapply Hcl. }
  { apply lookup_insert_eq. } { done. } { done. } { by eapply Hcl. }
  { pose proof (spaced_length _ _ _ (to_kept _ _ _ O) ltac:(apply O) (to_spaced _ _ _ O)). lia. }
  rewrite E. cbn [mbind option_bind].
  destruct Hr as [(-> & (l1 & l2 & -> & I') & _)|(-> & _ & Hex)].
  2:{ exfalso. apply Exists_exists in Hex as (y & Hy & Heq). pose proof (to_kept _ _ _ O) as K.
      rewrite Forall_forall in K, Ha. destruct (apart_sides _ _ _ _ _ (K y Hy) ltac:(apply O) Hp (Ha y Hy)) as [Hne _].
      apply Hne. rewrite <- Eoff, <- Heq. unfold off_at, seq_at. rewrite lookup_insert_ne; [done|].
      intros ->. by eapply Hcl. }
  rewrite decide_False by done.
  assert (Oc : trac_ok (<[c := cl]> (clips w)) (t2 <| frags := a |>) (l1 ++ c :: l2)).
  { eapply insert_trac_ok; try done; cbn [length_ set]; try lia. by rewrite Eoff, Elen. }
  eexists _, a, c, cl, l1, l2. split_and!; try done.
  eapply (retrac_finv w _ dl ls x t (t2 <| frags := a |>)); [done|exact Hx|exact Hk|reflexivity|reflexivity|reflexivity|reflexivity|exact Oc|..].
  - intros y ly c0 Hne Hy Hc0. cbn [clips set]. assert (c0 <> c) by (intros ->; by eapply Hcl).
    split; [by apply lookup_insert_ne|]. intros Hin.
    assert (Hc0' : c0 ∈ l1 ++ l2) by set_solver. by destruct (Hne (fi_disj _ _ _ F _ _ _ _ _ Hy Hl Hc0 Hc0')).
  - intros c0. cbn [clips set]. intros [z Hz]. apply lookup_insert_Some in Hz as [[<- _]|[Hne Hz]]; [left; set_solver|].
    destruct (fi_clip _ _ _ F c0) as (y & ly & Hy & Hin); [by eexists|].
    destruct (decide (y = x)) as [->|?]; [left|right; by exists y, ly].
    rewrite Hl in Hy. injection Hy as <-. set_solver.
  - intros c0 cl0. cbn [clips set]. rewrite lookup_insert_Some. intros [[_ <-]|[_ ?]]; [done|by eapply (fi_bytes _ _ _ F)].
Qed.

Lemma hold_length_spec fo e t t2 :
  hold_length fo e t = Some t2 -> 0 <= e < 2 ^ 17 -> 0 <= length_ t < 2 ^ 17 ->
  key t2 = key t /\ frags t2 = frags t /\ first t2 = first t /\ length_ t <= length_ t2 < 2 ^ 17 /\
  e <= length_ t2 /\ length_ t2 = Z.max e (length_ t) /\ last t2 = last t || negb (FLAGS_TEST fo IP_MF).
Proof.
  intros E He Hl. assert (Em : e mod 2 ^ 30 = e) by (apply Z.mod_small; lia). unfold hold_length in E.
  destruct (FLAGS_TEST fo IP_MF).
  - destruct (Z.ltb_spec (length_ t) e).
    + destruct (last t) eqn:El; [done|]. injection E as <-. cbn [key frags first last length_ set]. rewrite Em, El.
      split_and!; try done; lia.
    + injection E as <-. rewrite orb_false_r. split_and!; try done; lia.
  - destruct (_ || _) eqn:Eb; [done|]. injection E as <-. break_bool.
    all: cbn [key frags first last length_ set]; rewrite Em, orb_true_r; split_and!; try done; lia.
Qed.

(** Where the fragment belongs. *)
Definition frag_seq (fo : Z) : Z := Z.shiftl (Z.land fo IP_OFFMASK) 3.

Lemma frag_seq_range fo : 0 <= frag_seq fo <= 65528.
Proof.
  unfold frag_seq. change IP_OFFMASK with (Z.ones 13). rewrite Z.land_ones, Z.shiftl_mul_pow2 by lia.
  pose proof (Z.mod_pos_bound fo (2 ^ 13)). lia.
Qed.

Lemma frag_field p : pwf p -> exists v, ld16 (pkt p) (l3 p + 6) = Some v.
Proof.
  intros P. destruct (ld16_ok (pkt p) (l3 p + 6)) as (v & Hv & _); [apply P| |by eexists].
  pose proof (pw_l3 _ P). pose proof (pw_l4 _ P). pose proof (pw_cap _ P). split; lia.
Qed.

Lemma hold_fields p : pwf p ->
  u32 (Wire.len p - l4 p) = Wire.len p - l4 p /\ 0 <= Wire.len p - l4 p /\
  forall fo, u32 (frag_seq fo + (Wire.len p - l4 p)) = frag_seq fo + (Wire.len p - l4 p) /\
    frag_seq fo + (Wire.len p - l4 p) < 2 ^ 17.
Proof.
  intros P. pose proof (pw_l3 _ P). pose proof (pw_l4 _ P). pose proof (pw_cap _ P).
  split_and!; [apply u32_id; unfold is_u32; lia|lia|].
  intros fo. pose proof (frag_seq_range fo). split; [apply u32_id; unfold is_u32; lia|lia].
Qed.

(** The overlap test of ipfrag_hold. *)
Lemma hold_teardrop w dl ls x t l p fo :
  finv w dl ls -> tracs w !! x = Some t -> ls !! x = Some l -> pwf p -> 0 < Wire.len p - l4 p ->
  (if 0 <? asm_count (frags t)
   then xs ← asm_foreach (frags t); teardrop_check (clips w) (frag_seq fo) (Wire.len p - l4 p) xs false
   else Some false) =
  Some (negb (bool_decide (Forall (apart (clips w) (frag_seq fo) (Wire.len p - l4 p)) l))).
Proof.
  intros F Hx Hl P Hp. destruct (fi_trac _ _ _ F _ _ Hx) as (_ & l0 & Hl0 & [I K S L]).
  rewrite Hl in Hl0. injection Hl0 as <-. destruct (hold_fields p P) as (_ & _ & Hf). destruct (Hf fo) as [_ He].
  pose proof (frag_seq_range fo). rewrite (ainv_count _ _ _ _ I). destruct l as [|y l].
  - reflexivity.
  - rewrite (proj2 (Z.ltb_lt 0 _)) by (simpl; lia).
    unfold asm_foreach. rewrite (ot_traverse_rep _ _ (ai_rep _ _ _ _ I)). cbn [mbind option_bind].
    rewrite (teardrop_check_spec _ (length_ t)) by (done || lia). done.
Qed.

Lemma hold_eq tc w dl ls x t l p v :
  finv w dl ls -> tracs w !! x = Some t -> ls !! x = Some l -> pwf p -> ld16 (pkt p) (l3 p + 6) = Some v ->
  0 < Wire.len p - l4 p ->
  let fo := ntohs v in let n := Wire.len p - l4 p in
  let t1 := if frag_seq fo =? 0 then t <| first := true |> else t in
  ipfrag_hold tc w x p =
  if negb (bool_decide (Forall (apart (clips w) (frag_seq fo) n) l)) then Some (w, dpi_threat_trigger tc DPI_THRT_IP_TEARDROP p)
  else match hold_length fo (frag_seq fo + n) t1 with
       | None => Some (w <| tracs ::= <[x := t1]> |>, p)
       | Some t2 => w ← save_fragment w x t2 p (frag_seq fo) n; Some (w, p)
       end.
Proof.
  intros F Hx Hl P Hv Hp fo n t1. unfold ipfrag_hold. rewrite Hx, Hv. cbn [mbind option_bind].
  destruct (hold_fields p P) as (E1 & _ & Hf). destruct (Hf fo) as [E2 _].
  fold (frag_seq (ntohs v)). fold fo. rewrite E1. fold n in E2, Hp |- *. rewrite E2, (proj2 (Z.eqb_neq n 0)) by lia.
  unfold n. rewrite (hold_teardrop w dl ls x t l p fo F Hx Hl P Hp). cbn [mbind option_bind]. fold n.
  destruct (negb _); done.
Qed.

(** *** The whole datagram *)

Lemma ld8_header p data i : pwf p -> 0 <= i < l4 p ->
  ld8 (take (Z.to_nat (l4 p)) (pkt p) ++ data) i = ld8 (pkt p) i.
Proof.
  intros P Hi. pose proof (pw_cap _ P). pose proof (pw_l4 _ P). unfold ld8. rewrite (proj2 (Z.ltb_ge i 0)) by lia.
  rewrite lookup_app_l by (rewrite length_take; lia). apply lookup_take_lt. lia.
Qed.

Lemma rewrite_header_spec data p n :
  pwf p -> bytes data -> Z.of_nat (length data) = DPI_MAX_PKT_LEN ->
  exists d, rewrite_header data p n = Some d /\ Z.of_nat (length d) = DPI_MAX_PKT_LEN /\ bytes d /\
    drop (Z.to_nat (l4 p)) d = drop (Z.to_nat (l4 p)) data /\
    get_ip_cksum d (l3 p) = Some 0 /\ ld16 d (l3 p + 6) = Some 0 /\
    ld16 d (l3 p + 2) = Some (htons (u16 (l4 p - l3 p + n))) /\
    (forall i, 0 <= i < l4 p -> i <> l3 p + 2 -> i <> l3 p + 3 -> i <> l3 p + 6 -> i <> l3 p + 7 ->
       i <> l3 p + 10 -> i <> l3 p + 11 -> ld8 d i = ld8 (pkt p) i).
Proof.
  intros P Hb Hl. unfold rewrite_header, DPI_MAX_PKT_LEN in *.
  pose proof (pw_bytes _ P) as Pb. pose proof (pw_l3 _ P) as P3. pose proof (pw_l4 _ P) as P4. pose proof (pw_cap _ P) as Pc.
  rewrite (proj2 (Z.ltb_ge _ _)) by lia.
  set (d0 := take (Z.to_nat (l4 p)) (pkt p) ++ drop (Z.to_nat (l4 p)) data).
  assert (L0 : Z.of_nat (length d0) = 65536) by (unfold d0; rewrite length_app, length_take, length_drop; lia).
  assert (B0 : bytes d0) by (apply Forall_app; split; [by apply Forall_take|by apply Forall_drop]).
  assert (R0 : drop (Z.to_nat (l4 p)) d0 = drop (Z.to_nat (l4 p)) data).
  { unfold d0. rewrite drop_app_ge by (rewrite length_take; lia). rewrite length_take, drop_drop. f_equal. lia. }
  pose proof (fun i => ld8_header p (drop (Z.to_nat (l4 p)) data) i P) as H0. fold d0 in H0. clearbody d0.
  destruct (st16_ok d0 (l3 p + 6) 0) as (d1 & -> & L1 & B1 & W1 & F1); [split; lia|done|unfold is_u16; lia|].
  cbn [mbind option_bind].
  destruct (st16_ok d1 (l3 p + 2) (htons (u16 (l4 p - l3 p + n)))) as (d2 & -> & L2 & B2 & W2 & F2);
    [split; lia|done|apply htons_range|]. cbn [mbind option_bind].
  destruct (pw_ihl _ P) as (b0 & Eb0 & Hih).
  assert (Ub : is_u8 b0).
  { destruct (ld8_ok (pkt p) (l3 p) Pb) as (v & Ev & Hv); [split; lia|congruence]. }
  assert (Eb : ld8 d2 (l3 p) = Some b0) by (rewrite F2, F1, H0 by lia; done).
  destruct (ip_cksum_sound d2 (l3 p) b0 B2 Eb Ub) as (d3 & c & d4 & -> & E & _ & E4 & Hz & B4 & L4 & F4 & _);
    [lia|split; lia|]. cbn [mbind option_bind]. rewrite E. cbn [mbind option_bind]. rewrite E4.
  exists d4. split_and!; [done|lia|done| |done| | |].
  - rewrite <- R0. apply drop_ext; [lia|]. intros i Hi. rewrite F4, F2, F1 by lia. done.
  - rewrite <- W1. transitivity (ld16 d2 (l3 p + 6)); apply ld16_ext; intros i [-> | ->]; [apply F4|apply F4|apply F2|apply F2]; lia.
  - rewrite <- W2. apply ld16_ext; intros i [-> | ->]; apply F4; lia.
  - intros i Hi ? ? ? ? ? ?. rewrite F4, F2, F1 by lia. by apply H0.
Qed.

(** What ipfrag_construct makes of the packet: [n] bytes of payload, of which the buffer
    from l4 on is [buf], under the headers of the packet. *)
Record built p p' (buf : list Z) (n x : Z) : Prop := {
  bu_bytes : bytes (pkt p') /\ Z.of_nat (length (pkt p')) = DPI_MAX_PKT_LEN;
  bu_buf : drop (Z.to_nat (l4 p)) (pkt p') = buf;
  bu_cksum : get_ip_cksum (pkt p') (l3 p) = Some 0;
  bu_off : ld16 (pkt p') (l3 p + 6) = Some 0;
  bu_tot : ld16 (pkt p') (l3 p + 2) = Some (htons (u16 (l4 p - l3 p + n)));
  bu_hdr i : 0 <= i < l4 p -> i <> l3 p + 2 -> i <> l3 p + 3 -> i <> l3 p + 6 -> i <> l3 p + 7 ->
    i <> l3 p + 10 -> i <> l3 p + 11 -> ld8 (pkt p') i = ld8 (pkt p) i;
  bu_len : Wire.len p' = u16 (l4 p + n) /\ cap_len p' = u16 (l4 p + n);
  bu_offs : l3 p' = l3 p /\ l4 p' = l4 p /\ flags p' = flags p;
  bu_trac : frag_trac p' = x;
  bu_eth : eth_type p' = eth_type p;
  bu_data : defrag_data p' = pkt p'
}.

Lemma built_pwf p p' buf n x : pwf p -> built p p' buf n x -> 0 <= n -> l4 p + n < 2 ^ 16 -> pwf p'.
Proof.
  intros P B Hn Hl. destruct B as [[B1 B2] _ _ _ _ Bh [E1 E2] (E3 & E4 & _) _ _ Ed].
  pose proof (pw_l3 _ P). pose proof (pw_l4 _ P). unfold DPI_MAX_PKT_LEN in *.
  rewrite u16_id in E1, E2 by (unfold is_u16; lia).
  constructor; rewrite ?E1, ?E2, ?E3, ?E4, ?Ed; try done; try lia.
  destruct (pw_ihl _ P) as (b0 & Hb & Hi). exists b0. split; [|done]. rewrite Bh by lia. done.
Qed.

Definition cons0 p : clip := Clip (drop (Z.to_nat (l4 p)) (defrag_data p)) 0 (u24 (DPI_MAX_PKT_LEN - l4 p)) 0 0.

Lemma detach_finv base w dl ls x :
  finv w dl ls -> TimerWheel.inv base (th_timer w) dl -> on_map w x ->
  let w' := w <| ip4frag_map ::= fun mp => (RcuMap.rcu_map_del mp x).1 |>
              <| th_timer ::= fun tw => TimerWheel.timer_wheel_entry_remove tw x |> in
  finv w' (delete x dl) ls /\ TimerWheel.inv base (th_timer w') (delete x dl).
Proof.
  intros F V Hm w'. destruct (proj2 (fi_dl _ _ _ F x) Hm) as [D HD].
  split; [|by eapply TimerWheel.remove_inv]. pose proof (RcuMap.del_map _ _ _ x (fi_map _ _ _ F)) as Ed.
  destruct F. constructor; try done.
  - by apply RcuMap.del_wf.
  - intros y. unfold on_map. cbn [ip4frag_map set w']. rewrite Ed. setoid_rewrite elem_of_lfilter.
    rewrite lookup_delete_is_Some, fi_dl0. unfold on_map. simpl. setoid_rewrite negb_true_iff.
    setoid_rewrite Z.eqb_neq. naive_solver.
  - intros y [Hne Hy]%lookup_delete_is_Some. cbn [th_timer set w']. rewrite TimerWheel.timeout_remove. by apply fi_tmo0.
Qed.

Lemma construct_spec base w dl ls x t l p :
  finv w dl ls -> TimerWheel.inv base (th_timer w) dl -> tracs w !! x = Some t -> ls !! x = Some l ->
  on_map w x -> pwf p ->
  exists cons r, asm_construct (clips w) (frags t) (cons0 p) (u32 (length_ t - 1)) = Some (cons, r) /\
    (r <> ASM_OK -> ipfrag_construct w x p = Some (w, p, 1)) /\
    (r = ASM_OK -> 0 <= Asm.len cons /\ l4 p + Asm.len cons <= DPI_MAX_PKT_LEN /\
       exists w' p', ipfrag_construct w x p = Some (w', p', 0) /\
         finv w' (delete x dl) ls /\ TimerWheel.inv base (th_timer w') (delete x dl) /\
         tracs w' = tracs w /\ clips w' = clips w /\ tick w' = tick w /\ built p p' (ptr cons) (Asm.len cons) x).
Proof.
  intros F V Hx Hl Hm P. destruct (fi_trac _ _ _ F _ _ Hx) as (_ & l0 & Hl0 & O).
  pose proof (pw_l3 _ P) as P3. pose proof (pw_l4 _ P) as P4. pose proof (pw_cap _ P) as Pc.
  destruct (pw_data _ P) as [Db Dl]. unfold DPI_MAX_PKT_LEN in Dl.
  assert (E0 : Asm.len (cons0 p) = 65536 - l4 p) by (cbn; unfold u24; apply Z.mod_small; unfold DPI_MAX_PKT_LEN; lia).
  destruct (construct_safe (clips w) 0 (frags t) l0 (cons0 p) (u32 (length_ t - 1)) (to_ainv _ _ _ O))
    as (cons & r & E & Lc & _ & Hok & _); [rewrite E0; lia|rewrite E0; cbn; rewrite length_drop; lia|].
  assert (Bc : bytes (ptr cons)).
  { eapply (construct_Forall is_u8); [apply (fi_bytes _ _ _ F)| |exact E]. cbn. by apply Forall_drop. }
  exists cons, r. unfold ipfrag_construct. rewrite Hx. cbn [mbind option_bind].
  change (Clip _ 0 _ 0 0) with (cons0 p). rewrite E. cbn [mbind option_bind]. split_and!; [done| |].
  - intros Hr. by rewrite decide_False.
  - intros ->. rewrite decide_True by done. specialize (Hok eq_refl). rewrite E0 in Hok.
    unfold DPI_MAX_PKT_LEN. split_and!; [lia|lia|]. cbn [ptr cons0] in Lc. rewrite length_drop in Lc.
    destruct (rewrite_header_spec (take (Z.to_nat (l4 p)) (defrag_data p) ++ ptr cons) p (Asm.len cons) P)
      as (d & -> & Ld & Bd & Rd & Hz & Ho & Ht & Hh).
    { apply Forall_app. split; [by apply Forall_take|done]. }
    { unfold DPI_MAX_PKT_LEN. rewrite length_app, length_take. lia. }
    cbn [mbind option_bind]. eexists _, _. split; [reflexivity|].
    destruct (detach_finv base w dl ls x F V Hm) as [F' V']. split_and!; [exact F'|exact V'|done|done|done|].
    constructor; cbn -[u16 htons Z.add]; try done.
    rewrite Rd, drop_app_ge by (rewrite length_take; lia). rewrite length_take.
    replace (Z.to_nat (l4 p) - (Z.to_nat (l4 p) `min` length (defrag_data p)))%nat with 0%nat by lia. done.
Qed.

(** *** The tracker of the packet *)

Lemma packet_key_ok p : pwf p -> exists k, packet_key p = Some k.
Proof.
  intros P. pose proof (pw_bytes _ P) as Pb. pose proof (pw_l3 _ P). pose proof (pw_l4 _ P). pose proof (pw_cap _ P).
  unfold packet_key.
  destruct (ld32_ok (pkt p) (l3 p + 12) Pb) as (a & -> & _); [split; lia|].
  destruct (ld32_ok (pkt p) (l3 p + 16) Pb) as (b & -> & _); [split; lia|].
  destruct (ld16_ok (pkt p) (l3 p + 4) Pb) as (c & -> & _); [split; lia|]. by eexists.
Qed.

Definition locate w k : thread T * Z :=
  let '(w, x) := if trac_lookup w k =? NULL then trac_new w k else (w, trac_lookup w k) in
  (w <| th_timer ::= fun tw => TimerWheel.timer_wheel_entry_refresh tw x (tick w) |>, x).

Lemma defrag_locate tc w p k : packet_key p = Some k ->
  dpi_ip_defrag tc w p =
  (let '(w, x) := locate w k in
   '(w, p) ← ipfrag_hold tc w x p;
   t ← tracs w !! x;
   if first t && last t then ipfrag_construct w x p else Some (w, p, -1)).
Proof.
  intros Hk. unfold dpi_ip_defrag, locate. rewrite Hk. cbn [mbind option_bind].
  by destruct (if trac_lookup w k =? NULL then _ else _).
Qed.

(** The tracker is the one of the map, or a new one with no fragments. *)
Lemma locate_spec base w dl ls k :
  finv w dl ls -> TimerWheel.inv base (th_timer w) dl -> tick_ok base w ->
  exists w1 x t l, locate w k = (w1, x) /\
    finv w1 (<[x := tick w + DPI_FRAG_TIMEOUT]> dl) (<[x := l]> ls) /\
    TimerWheel.inv base (th_timer w1) (<[x := tick w + DPI_FRAG_TIMEOUT]> dl) /\
    tracs w1 !! x = Some t /\ key t = k /\ on_map w1 x /\ clips w1 = clips w /\ tick w1 = tick w /\
    ((x = trac_lookup w k /\ tracs w1 = tracs w /\ ip4frag_map w1 = ip4frag_map w /\ on_map w x /\ ls !! x = Some l) \/
     (trac_lookup w k = NULL /\ t = Trac k 0 false false asm_init /\ l = [] /\ tracs w !! x = None)).
Proof.
  intros F V Ht. unfold locate. destruct (trac_lookup_spec w dl ls k F) as [[Hn _]|(Hp & Hm & t & Hx & Hk)].
  - destruct (trac_new_finv base w dl ls k F V Ht Hn) as (w1 & x & E & F1 & V1 & Et & Hx & Ec & Etk & Hm).
    rewrite Hn, Z.eqb_refl, E.
    assert (Ht1 : tick_ok base w1) by (unfold tick_ok in *; by rewrite Etk).
    destruct (refresh_finv base w1 _ _ x F1 V1 Ht1 Hm) as [F2 V2].
    rewrite Etk, insert_insert_eq in F2, V2. rewrite Etk.
    eexists _, x, (Trac k 0 false false asm_init), []. split_and!; [done|exact F2|exact V2| |done|exact Hm|exact Ec|exact Etk|].
    + cbn [tracs set]. by rewrite Et, lookup_insert_eq.
    + right. by split_and!.
  - rewrite (proj2 (Z.eqb_neq (trac_lookup w k) NULL)) by (unfold NULL; lia).
    destruct (fi_trac _ _ _ F _ _ Hx) as (_ & l & Hl & _).
    destruct (refresh_finv base w _ _ _ F V Ht Hm) as [F2 V2].
    eexists _, (trac_lookup w k), t, l. rewrite (insert_id ls _ l) by done.
    split_and!; [done|exact F2|exact V2|exact Hx|exact Hk|exact Hm|done|done|]. left. by split_and!.
Qed.

(** What a threat report leaves of the packet. *)
Definition same_wire p p' : Prop :=
  pkt p' = pkt p /\ l3 p' = l3 p /\ l4 p' = l4 p /\ cap_len p' = cap_len p /\ Wire.len p' = Wire.len p /\
  defrag_data p' = defrag_data p /\ flags p' = flags p /\ frag_trac p' = frag_trac p /\ eth_type p' = eth_type p.

Lemma threat_same tc idx p : same_wire p (dpi_threat_trigger tc idx p).
Proof.
  unfold dpi_threat_trigger, dpi_set_action. destruct (negb _); [by split_and!|].
  destruct (_ && _), (_ <? _); by split_and!.
Qed.

Lemma same_wire_pwf p p' : same_wire p p' -> pwf p -> pwf p'.
Proof.
  intros (E1 & E2 & E3 & E4 & E5 & E6 & _) [P1 P2 P3 P4 P5 P6].
  constructor; rewrite ?E1, ?E2, ?E3, ?E4, ?E5, ?E6; assumption.
Qed.

Lemma hold_safe tc w dl ls x t l p :
  finv w dl ls -> tracs w !! x = Some t -> ls !! x = Some l -> pwf p ->
  exists w' p' t' l', ipfrag_hold tc w x p = Some (w', p') /\ finv w' dl (<[x := l']> ls) /\
    tracs w' !! x = Some t' /\ key t' = key t /\
    ip4frag_map w' = ip4frag_map w /\ th_timer w' = th_timer w /\ tick w' = tick w /\ same_wire p p'.
Proof.
  intros F Hx Hl P. destruct (frag_field p P) as [v Hv]. destruct (hold_fields p P) as (E1 & Hn & Hf).
  assert (Hsame : same_wire p p) by by split_and!.
  destruct (Z.eq_dec (Wire.len p - l4 p) 0) as [Hz|Hnz].
  { exists w, p, t, l. unfold ipfrag_hold. rewrite Hx, Hv. cbn [mbind option_bind]. rewrite E1, Hz. simpl.
    rewrite insert_id by done. by split_and!. }
  rewrite (hold_eq tc w dl ls x t l p v F Hx Hl P Hv) by lia. cbv zeta.
  destruct (negb _) eqn:Eo.
  { eexists w, _, t, l. rewrite insert_id by done. split_and!; try done. apply threat_same. }
  apply negb_false_iff, bool_decide_eq_true in Eo.
  set (t1 := if frag_seq (ntohs v) =? 0 then t <| first := true |> else t).
  assert (Hk1 : key t1 = key t /\ frags t1 = frags t /\ length_ t1 = length_ t) by (unfold t1; by destruct (_ =? 0)).
  destruct Hk1 as (Hk1 & Hf1 & Hl1).
  destruct (fi_trac _ _ _ F _ _ Hx) as (_ & _ & _ & [_ _ _ Hlen]).
  destruct (hold_length _ _ t1) as [t2|] eqn:E2.
  - destruct (hold_length_spec _ _ _ _ E2) as (Hk2 & Hf2 & _ & Hr & He & _); [destruct (Hf (ntohs v)); pose proof (frag_seq_range (ntohs v)); lia|lia|].
    destruct (save_spec w dl ls x t t2 l p (frag_seq (ntohs v)) (Wire.len p - l4 p))
      as (w' & a & c & cl & l1 & l2 & -> & _ & F' & _ & _ & _ & _ & _ & Et & Em & Ew & Ek);
      try done; try congruence; try lia; [apply frag_seq_range|].
    cbn [mbind option_bind]. exists w', p, (t2 <| frags := a |>), (l1 ++ c :: l2).
    split_and!; try done; [by rewrite Et, lookup_insert_eq|cbn; congruence].
  - eexists _, p, t1, l. split; [reflexivity|]. rewrite insert_id by done.
    split_and!; try done; [by eapply retrac_flags|cbn [tracs set]; by rewrite lookup_insert_eq].
Qed.

Lemma defrag_safe (tc : Z -> threat_conf) (base : Z) w dl ls p :
  finv w dl ls -> TimerWheel.inv base (th_timer w) dl -> tick_ok base w -> pwf p ->
  exists w' p' r dl' ls', dpi_ip_defrag tc w p = Some (w', p', r) /\
    finv w' dl' ls' /\ TimerWheel.inv base (th_timer w') dl' /\ tick w' = tick w /\
    (((r = 1 \/ r = -1) /\ same_wire p p') \/
     (r = 0 /\ exists p0 buf n x, same_wire p p0 /\ built p0 p' buf n x /\ 0 <= n /\
        l4 p + n <= DPI_MAX_PKT_LEN /\ ~ on_map w' x /\ is_Some (tracs w' !! x))).
Proof.
  intros F V Ht P. destruct (packet_key_ok p P) as [k Hk]. rewrite (defrag_locate tc w p k Hk).
  destruct (locate_spec base w dl ls k F V Ht) as (w1 & x & t & l & -> & F1 & V1 & Hx & _ & Hm & Ec & Etk & _).
  destruct (hold_safe tc w1 _ _ x t l p F1 Hx) as (w2 & p2 & t2 & l2 & -> & F2 & Hx2 & _ & Em & Ew & Ek & Hsw);
    [by rewrite lookup_insert_eq|done|]. rewrite insert_insert_eq in F2.
  cbn [mbind option_bind]. rewrite Hx2. cbn [mbind option_bind].
  assert (Hm2 : on_map w2 x) by (unfold on_map; by rewrite Em). rewrite <- Ew in V1.
  destruct (first t2 && last t2).
  2:{ eexists _, _, _, _, _. split; [reflexivity|]. split_and!; [exact F2|exact V1|congruence|left; by split; [right|]]. }
  destruct (construct_spec base w2 _ _ x t2 l2 p2 F2 V1 Hx2) as (cons & r & _ & Hno & Hok);
    [by rewrite lookup_insert_eq|done|by eapply same_wire_pwf|].
  destruct (decide (r = ASM_OK)) as [Hr|Hr].
  - destruct (Hok Hr) as (Hn0 & Hn1 & w3 & p3 & E & F3 & V3 & Et3 & _ & Ek3 & B).
    destruct Hsw as (E1 & E2 & E3 & E4 & E5 & E6 & E7 & E8 & E9).
    eexists w3, p3, 0, _, _. split; [exact E|]. split_and!; [exact F3|exact V3|congruence|right].
    split; [done|]. eexists p2, _, _, x. split_and!; [by split_and!|exact B|done|congruence| |rewrite Et3; by eexists].
    intros Hm3. apply (fi_dl _ _ _ F3), lookup_delete_is_Some in Hm3. by destruct Hm3.
  - eexists w2, p2, 1, _, _. split; [by apply Hno|].
    split_and!; [exact F2|exact V1|congruence|left; by split; [left|]].
Qed.

(** C28: Reassembly is safe for any fragment.  From a consistent state dpi_ip_defrag ends
    without touching a freed tracker or clip or a byte outside a buffer, whatever the
    fragment and those before it, and leaves a consistent state: fragments of a tracker
    are disjoint, no clip is leaked, and every tracker of the map has its timer.  Unless
    it returns 0 the packet is the one it was given; when it does, the tracker is out of
    the map and the packet is a whole datagram with a valid header checksum, whose
    length fits unless it is exactly 65536 bytes with the link header. *)
Theorem dpi_ip_defrag_safe (tc : Z -> threat_conf) (base : Z) w dl ls p :
  finv w dl ls -> TimerWheel.inv base (th_timer w) dl -> tick_ok base w -> pwf p ->
  exists w' p' r dl' ls', dpi_ip_defrag tc w p = Some (w', p', r) /\
    finv w' dl' ls' /\ TimerWheel.inv base (th_timer w') dl' /\ tick w' = tick w /\
    (r = 0 \/ (r = 1 \/ r = -1) /\ same_wire p p') /\
    (r = 0 -> exists n, get_ip_cksum (pkt p') (l3 p') = Some 0 /\ ~ on_map w' (frag_trac p') /\
       is_Some (tracs w' !! frag_trac p') /\ Wire.len p' = u16 (l4 p + n) /\
       (pwf p' \/ l4 p + n = DPI_MAX_PKT_LEN)).
Proof.
  intros F V Ht P. destruct (defrag_safe tc base w dl ls p F V Ht P)
    as (w' & p' & r & dl' & ls' & E & F' & V' & Hk & [[Hr Hs]|(-> & p0 & buf & n & x & Hs & B & Hn0 & Hn1 & Hm & Htr)]);
    exists w', p', r, dl', ls' || exists w', p', 0, dl', ls'; split_and!; try done; [by right|by destruct Hr as [-> | ->]|by left|].
  intros _. exists n. destruct (bu_offs _ _ _ _ _ B) as (-> & Hl4 & _). rewrite (bu_trac _ _ _ _ _ B).
  pose proof Hs as (_ & _ & E3 & _). rewrite <- E3 in Hn1 |- *. split_and!; [apply B|done|done|apply B|].
  destruct (Z.eq_dec (l4 p0 + n) DPI_MAX_PKT_LEN); [by right|left].
  unfold DPI_MAX_PKT_LEN in *. eapply built_pwf; [by eapply same_wire_pwf|exact B|lia|lia].
Qed.

(** ** Fragments of one datagram, in any order *)

Definition frag_pos p : Z := from_option (fun v => frag_seq (ntohs v)) 0 (ld16 (pkt p) (l3 p + 6)).
Definition frag_len p : Z := Wire.len p - l4 p.
Definition frag_end p : Z := frag_pos p + frag_len p.
Definition more_frags p : bool := from_option (fun v => FLAGS_TEST (ntohs v) IP_MF) false (ld16 (pkt p) (l3 p + 6)).

(** [p] carries its part of the payload [D] of the datagram [k], which fits in the
    buffer behind the headers of [p]. *)
Record carries (D : list Z) k p : Prop := {
  ca_pwf : pwf p;
  ca_key : packet_key p = Some k;
  ca_len : 0 < frag_len p /\ frag_end p <= Z.of_nat (length D);
  ca_data : fragment p = take (Z.to_nat (frag_len p)) (drop (Z.to_nat (frag_pos p)) D);
  ca_more : more_frags p = false <-> frag_end p = Z.of_nat (length D);
  ca_room : l4 p + Z.of_nat (length D) < DPI_MAX_PKT_LEN
}.

(** The parts of two fragments do not meet. *)
Definition separate p q : Prop := frag_end p <= frag_pos q \/ frag_end q <= frag_pos p.
Definition total_frag (qs : list packet) : Z := foldr (fun p n => frag_len p + n) 0 qs.

(** The clip holds the part that came with the packet. *)
Definition clip_of m (c : Z) p : Prop :=
  exists cl, m !! c = Some cl /\ seq cl = frag_pos p /\ Asm.len cl = frag_len p /\ payload cl = fragment p.

Lemma clip_of_at m b c p : clip_of m c p -> kept m b c -> b < 2 ^ 17 ->
  off_at m 0 c = frag_pos p /\ stop_at m 0 c = frag_end p /\ payload_at m c = fragment p.
Proof.
  intros (cl & Hc & Hs & Hl & Hp) K Hb. destruct (kept_off _ _ _ K Hb) as (c' & Hc' & E1 & E2 & H1 & H2).
  rewrite Hc in Hc'. injection Hc' as <-. unfold payload_at, stop_at in *. rewrite Hc in *. simpl in *.
  split_and!; [congruence| |done]. unfold stop, frag_end.
  rewrite <- Hl, <- Hs. f_equal. rewrite E1. symmetry. by apply off_at_lookup.
Qed.

Lemma total_clip_of m l rs : Forall2 (clip_of m) l rs -> total_len m l = total_frag rs.
Proof.
  induction 1 as [|c p l rs (cl & Hc & _ & Hl & _) _ IH]; [done|]. cbn [total_len total_frag foldr].
  rewrite Hc. cbn [from_option]. fold (total_frag rs). lia.
Qed.

Lemma total_frag_perm qs rs : qs ≡ₚ rs -> total_frag qs = total_frag rs.
Proof. induction 1; simpl in *; lia. Qed.

(** Disjoint clips in [lo, hi) take at most that much room, and leave no gap when they
    take all of it. *)
Lemma spaced_total m b l lo hi :
  Forall (kept m b) l -> b < 2 ^ 17 -> StronglySorted (fun x y => stop_at m 0 x <= off_at m 0 y) l ->
  Forall (fun x => lo <= off_at m 0 x /\ stop_at m 0 x <= hi) l -> lo <= hi ->
  total_len m l <= hi - lo /\ (total_len m l = hi - lo -> chain m 0 lo l).
Proof.
  intros K Hb S. revert lo. induction S as [|x l S IH Hx]; intros lo Hr Hle; [by split; simpl; [lia|]|].
  apply Forall_cons in K as [Kx K], Hr as [[Hlo Hhi] Hr]. destruct (kept_off _ _ _ Kx Hb) as (c & Hc & E1 & E2 & H1 & H2).
  destruct (IH K (stop_at m 0 x)) as [Ht Hch].
  { rewrite Forall_forall in Hx, Hr |- *. intros y Hy. split; [by apply Hx|by apply Hr]. }
  { lia. }
  cbn [total_len]. rewrite Hc. cbn [from_option].
  assert (Es : stop_at m 0 x = off_at m 0 x + Asm.len c) by (unfold stop_at; rewrite Hc; simpl; unfold stop; by rewrite (off_at_lookup m 0 x c)).
  split; [lia|]. intros Heq. exists c. rewrite <- (off_at_lookup m 0 x c) by done. split_and!; [done|lia|lia|].
  replace (lo + Asm.len c) with (stop_at m 0 x) by lia. apply Hch. lia.
Qed.

(** A run of disjoint clips is a chain, or breaks off at a gap. *)
Lemma chain_or_gap m b l o :
  Forall (kept m b) l -> b < 2 ^ 17 -> StronglySorted (fun x y => stop_at m 0 x <= off_at m 0 y) l ->
  (forall x, head l = Some x -> off_at m 0 x = o) ->
  chain m 0 o l \/
  exists l1 y l2, l = l1 ++ y :: l2 /\ l1 <> [] /\ chain m 0 o l1 /\ o + total_len m l1 < off_at m 0 y.
Proof.
  intros K Hb S. revert o. induction S as [|x l S IH Hx]; intros o Ho; [by left|].
  apply Forall_cons in K as [Kx K]. destruct (kept_off _ _ _ Kx Hb) as (c & Hc & E1 & E2 & H1 & H2).
  specialize (Ho x eq_refl).
  assert (Es : stop_at m 0 x = o + Asm.len c) by (unfold stop_at; rewrite Hc; simpl; unfold stop; rewrite <- (off_at_lookup m 0 x c) by done; lia).
  assert (Hcx : forall l', chain m 0 (o + Asm.len c) l' -> chain m 0 o (x :: l')).
  { intros l' Hch. exists c. rewrite <- (off_at_lookup m 0 x c) by done. split_and!; [done|done|lia|done]. }
  destruct l as [|y l]; [left; by apply Hcx|].
  apply Forall_cons in Hx as [Hxy _]. destruct (Z.eq_dec (off_at m 0 y) (o + Asm.len c)) as [He|Hne].
  - destruct (IH K (o + Asm.len c)) as [Hch|(l1 & z & l2 & -> & Hn & Hch & Hg)]; [by intros z [= <-]|left; by apply Hcx|].
    right. exists (x :: l1), z, l2. split_and!; [done|done|by apply Hcx|]. cbn [total_len]. rewrite Hc. simpl. lia.
  - right. exists [x], y, l. split_and!; [done|done|by apply Hcx|]. cbn [total_len]. rewrite Hc. simpl. lia.
Qed.

Lemma chain_concat m b D l rs o : Forall2 (clip_of m) l rs -> Forall (kept m b) l -> b < 2 ^ 17 ->
  (forall p, p ∈ rs -> fragment p = take (Z.to_nat (frag_len p)) (drop (Z.to_nat (frag_pos p)) D)) ->
  chain m 0 o l -> 0 <= o ->
  concat (payload_at m <$> l) = take (Z.to_nat (total_len m l)) (drop (Z.to_nat o) D).
Proof.
  intros H. revert o. induction H as [|c p l rs Hcp H IH]; intros o K Hb HD Hch Ho; [done|].
  apply Forall_cons in K as [Kc K]. destruct (clip_of_at _ _ _ _ Hcp Kc Hb) as (E1 & E2 & E3).
  destruct Hch as (cl & Hc & Hoff & Hlen & Hch). pose proof (chain_total _ _ _ _ Hch) as Ht.
  rewrite <- (off_at_lookup m 0 c cl Hc), E1 in Hoff.
  assert (El : Asm.len cl = frag_len p) by (destruct Hcp as (cl' & Hc' & _ & ? & _); congruence).
  cbn [fmap list_fmap concat total_len]. rewrite E3, Hc. cbn [from_option].
  rewrite (IH (o + Asm.len cl)) by (done || lia || (intros; apply HD; by right)).
  rewrite (HD p) by (left). rewrite Hoff, El.
  rewrite (Z2Nat.inj_add (frag_len p) (total_len m l)) by lia. rewrite <- take_take_drop. f_equal.
  rewrite drop_drop. f_equal. rewrite Z2Nat.inj_add by lia. done.
Qed.

(** The tracker [x] of datagram [k] has the fragments [rs], in the order of their offsets. *)
Record holding (D : list Z) k w dl ls x t l (rs : list packet) : Prop := {
  ho_finv : finv w dl ls;
  ho_trac : tracs w !! x = Some t;
  ho_ls : ls !! x = Some l;
  ho_key : key t = k;
  ho_map : on_map w x;
  ho_clips : Forall2 (clip_of (clips w)) l rs;
  ho_first : first t = true <-> exists p, p ∈ rs /\ frag_pos p = 0;
  ho_last : last t = true <-> exists p, p ∈ rs /\ frag_end p = Z.of_nat (length D);
  ho_length : length_ t <= Z.of_nat (length D) /\ (last t = true -> length_ t = Z.of_nat (length D))
}.

Lemma carries_field D k p : carries D k p -> exists v, ld16 (pkt p) (l3 p + 6) = Some v /\
  frag_pos p = frag_seq (ntohs v) /\ more_frags p = FLAGS_TEST (ntohs v) IP_MF.
Proof.
  intros [P _ _ _ _ _]. destruct (frag_field p P) as [v Hv]. exists v. unfold frag_pos, more_frags. by rewrite Hv.
Qed.

Lemma carries_keeps D k q t : carries D k q -> 0 <= length_ t <= Z.of_nat (length D) ->
  (last t = true -> length_ t = Z.of_nat (length D)) ->
  forall fo, more_frags q = FLAGS_TEST fo IP_MF -> is_Some (hold_length fo (frag_end q) t).
Proof.
  intros [_ _ [_ He] _ Hm _] Hl Hla fo Hfo. unfold hold_length. rewrite <- Hfo. destruct (more_frags q).
  - destruct (Z.ltb_spec (length_ t) (frag_end q)); [|by eexists]. destruct (last t); [specialize (Hla eq_refl); lia|by eexists].
  - rewrite (proj1 Hm eq_refl). rewrite (proj2 (Z.ltb_ge _ _)) by lia. destruct (last t); simpl; [|by eexists].
    rewrite Hla, Z.eqb_refl by done. by eexists.
Qed.

Lemma separate_apart m b l rs q : Forall2 (clip_of m) l rs -> Forall (kept m b) l -> b < 2 ^ 17 ->
  Forall (separate q) rs -> Forall (apart m (frag_pos q) (frag_len q)) l.
Proof.
  intros H K Hb. induction H as [|c p l rs Hcp H IH]; intros Hs; [by apply Forall_nil|].
  apply Forall_cons in K as [Kc K], Hs as [Hs Hss]. apply Forall_cons. split; [|by apply IH].
  destruct (clip_of_at _ _ _ _ Hcp Kc Hb) as (E1 & E2 & _). unfold apart, separate, frag_end in *. lia.
Qed.

Lemma clip_of_mem m m' l rs : Forall2 (clip_of m) l rs -> (forall c, c ∈ l -> m' !! c = m !! c) -> Forall2 (clip_of m') l rs.
Proof.
  induction 1 as [|c p l rs (cl & Hc & Hr) H IH]; intros Hm; constructor.
  - exists cl. by rewrite Hm by left.
  - apply IH. intros. apply Hm. by right.
Qed.

Lemma hold_piece D k tc w dl ls x t l rs q :
  holding D k w dl ls x t l rs -> carries D k q -> Forall (separate q) rs ->
  exists w' t' l' rs', ipfrag_hold tc w x q = Some (w', q) /\
    holding D k w' dl (<[x := l']> ls) x t' l' rs' /\ rs' ≡ₚ q :: rs /\
    th_timer w' = th_timer w /\ tick w' = tick w.
Proof.
  intros [F Hx Hl Hk Hm Hcl Hfi Hla [Hle Hlast]] C Hsep.
  destruct (fi_trac _ _ _ F _ _ Hx) as (_ & l0 & Hl0 & O). rewrite Hl in Hl0. injection Hl0 as <-.
  destruct (carries_field _ _ _ C) as (v & Hv & Ep & Em). pose proof (ca_len _ _ _ C) as [Hn He].
  pose proof (separate_apart _ _ _ _ _ Hcl (to_kept _ _ _ O) ltac:(apply O) Hsep) as Hap.
  pose proof (to_length _ _ _ O) as Hlen. pose proof (frag_seq_range (ntohs v)) as Hfr.
  rewrite (hold_eq tc w dl ls x t l q v F Hx Hl (ca_pwf _ _ _ C) Hv Hn). cbv zeta.
  fold (frag_len q). rewrite <- Ep. fold (frag_end q). rewrite bool_decide_true by done. cbn [negb].
  set (t1 := if frag_pos q =? 0 then t <| first := true |> else t).
  assert (Ht1 : key t1 = key t /\ frags t1 = frags t /\ length_ t1 = length_ t /\ last t1 = last t) by (unfold t1; by destruct (_ =? 0)).
  destruct Ht1 as (Hk1 & Hf1 & Hl1 & Hla1).
  assert (Hfi1 : first t1 = true <-> first t = true \/ frag_pos q = 0).
  { unfold t1. destruct (Z.eqb_spec (frag_pos q) 0); simpl; naive_solver. }
  destruct (carries_keeps D k q t1 C) with (fo := ntohs v) as [t2 Et2]; [rewrite Hl1; lia|by rewrite Hla1, Hl1|done|].
  rewrite Et2. pose proof (hold_fields q (ca_pwf _ _ _ C)) as (_ & _ & Hf). destruct (Hf (ntohs v)) as [_ Hend].
  destruct (hold_length_spec _ _ _ _ Et2) as (Hk2 & Hf2 & Hfi2 & Hr & Her & Hmax & Hla2);
    [unfold frag_end, frag_len in *; lia|lia|].
  destruct (save_spec w dl ls x t t2 l q (frag_pos q) (frag_len q))
    as (w' & a & c & cl & l1 & l2 & -> & -> & F' & Hc & Ec & Es & El & Epay & Et & Emp & Ew & Ek);
    try done; try congruence; try (unfold frag_end in *; lia); [apply C|].
  cbn [mbind option_bind]. apply Forall2_app_inv_l in Hcl as (r1 & r2 & H1 & H2 & ->).
  assert (Hne : forall y, y ∈ l1 ++ l2 -> clips w' !! y = clips w !! y).
  { intros y Hy. rewrite Ec. apply lookup_insert_ne. intros ->. pose proof (to_kept _ _ _ O) as K.
    rewrite Forall_forall in K. destruct (K y Hy) as (? & ? & _). congruence. }
  exists w', (t2 <| frags := a |>), (l1 ++ c :: l2), (r1 ++ q :: r2). split_and!; try done.
  2:{ by rewrite Permutation_middle. }
  assert (Hin : forall (P : packet -> Prop), (exists p, p ∈ r1 ++ q :: r2 /\ P p) <-> (exists p, p ∈ r1 ++ r2 /\ P p) \/ P q).
  { intros P. setoid_rewrite elem_of_app. setoid_rewrite elem_of_cons. naive_solver. }
  constructor; cbn [first last length_ key set]; try done.
  - by rewrite Et, lookup_insert_eq.
  - by rewrite lookup_insert_eq.
  - congruence.
  - unfold on_map. by rewrite Emp.
  - apply Forall2_app; [eapply clip_of_mem; [done|set_solver]|]. constructor; [|eapply clip_of_mem; [done|set_solver]].
    exists cl. rewrite Ec, lookup_insert_eq. by split_and!.
  - rewrite Hfi2, Hfi1, Hfi, Hin. done.
  - rewrite Hla2, orb_true_iff, Hla1, Hla, negb_true_iff, <- Em, (ca_more _ _ _ C), Hin. done.
  - rewrite Hmax, Hl1. split; [lia|]. rewrite Hla2, orb_true_iff, negb_true_iff, <- Em, (ca_more _ _ _ C), Hla1.
    intros [Hl'|Hl']; [rewrite (Hlast Hl'); lia|lia].
Qed.

Section finish.
Context (D : list Z) (k : frag_key) (base : Z) w (dl : gmap Z Z) (ls : gmap Z (list Z)) (x : Z) t l (rs : list packet).
Context (Ho : holding D k w dl ls x t l rs) (V : TimerWheel.inv base (th_timer w) dl).
Context (HC : Forall (carries D k) rs).

Lemma holding_ok : trac_ok (clips w) t l.
Proof.
  destruct (fi_trac _ _ _ (ho_finv _ _ _ _ _ _ _ _ _ Ho) _ _ (ho_trac _ _ _ _ _ _ _ _ _ Ho)) as (_ & l0 & Hl0 & O).
  rewrite (ho_ls _ _ _ _ _ _ _ _ _ Ho) in Hl0. by injection Hl0 as <-.
Qed.

(** Clips and fragments match, so every clip lies in the datagram. *)
Lemma clip_piece c : c ∈ l ->
  exists p, p ∈ rs /\ off_at (clips w) 0 c = frag_pos p /\ stop_at (clips w) 0 c = frag_end p.
Proof.
  intros Hc. pose proof (to_kept _ _ _ holding_ok) as K. rewrite Forall_forall in K. specialize (K c Hc).
  apply list_elem_of_lookup in Hc as [i Hi].
  destruct (Forall2_lookup_l _ _ _ _ _ (ho_clips _ _ _ _ _ _ _ _ _ Ho) Hi) as (p & Hp & Hcp).
  destruct (clip_of_at _ _ _ _ Hcp K) as (E1 & E2 & _); [apply holding_ok|].
  exists p. split_and!; try done. by eapply list_elem_of_lookup_2.
Qed.
Lemma piece_clip p : p ∈ rs ->
  exists c, c ∈ l /\ off_at (clips w) 0 c = frag_pos p /\ stop_at (clips w) 0 c = frag_end p.
Proof.
  intros Hp. apply list_elem_of_lookup in Hp as [i Hi]. pose proof (to_kept _ _ _ holding_ok) as K. rewrite Forall_forall in K.
  destruct (Forall2_lookup_r _ _ _ _ _ (ho_clips _ _ _ _ _ _ _ _ _ Ho) Hi) as (c & Hc & Hcp).
  apply list_elem_of_lookup_2 in Hc as Hcl. destruct (clip_of_at _ _ _ _ Hcp (K c Hcl)) as (E1 & E2 & _); [apply holding_ok|].
  by exists c.
Qed.

Lemma clips_inside : Forall (fun c => 0 <= off_at (clips w) 0 c /\ stop_at (clips w) 0 c <= Z.of_nat (length D)) l.
Proof.
  apply Forall_forall. intros c Hc. destruct (clip_piece c Hc) as (p & Hp & -> & ->).
  rewrite Forall_forall in HC. destruct (ca_len _ _ _ (HC p Hp)). split; [|done].
  destruct (carries_field _ _ _ (HC p Hp)) as (v & _ & -> & _). apply frag_seq_range.
Qed.

(** The first clip starts the datagram once a fragment at offset 0 has arrived. *)
Lemma head_zero p : p ∈ rs -> frag_pos p = 0 -> exists y l', l = y :: l' /\ off_at (clips w) 0 y = 0.
Proof.
  intros Hp H0. destruct (piece_clip p Hp) as (c & Hc & Ec & _). pose proof clips_inside as Hi.
  pose proof (ai_sorted _ _ _ _ (to_ainv _ _ _ holding_ok)) as S. rewrite Forall_forall in Hi.
  destruct l as [|y l']; [by apply elem_of_nil in Hc|]. exists y, l'. split; [done|].
  apply elem_of_cons in Hc as [->|Hc]; [congruence|]. inversion S as [|? ? _ Hy]; subst.
  rewrite Forall_forall in Hy. specialize (Hy c Hc). destruct (Hi y ltac:(left)). lia.
Qed.

Lemma must_have_eq : last t = true -> 0 < Z.of_nat (length D) ->
  u32 (length_ t - 1) = u32 (0 + (Z.of_nat (length D) - 1)).
Proof. intros Hl _. f_equal. rewrite (proj2 (ho_length _ _ _ _ _ _ _ _ _ Ho) Hl). lia. Qed.

Lemma length_small : last t = true -> Z.of_nat (length D) < 2 ^ 17.
Proof. intros Hl. rewrite <- (proj2 (ho_length _ _ _ _ _ _ _ _ _ Ho) Hl). apply (to_length _ _ _ holding_ok). Qed.

Lemma construct_incomplete q :
  pwf q -> first t && last t = true -> total_frag rs < Z.of_nat (length D) -> ipfrag_construct w x q = Some (w, q, 1).
Proof.
  intros P [Hf Hl]%andb_true_iff Htot. pose proof holding_ok as O.
  apply (ho_first _ _ _ _ _ _ _ _ _ Ho) in Hf as (p0 & Hp0 & Hz).
  destruct (head_zero p0 Hp0 Hz) as (y & l' & El & Hy).
  pose proof (proj1 (ho_last _ _ _ _ _ _ _ _ _ Ho) Hl) as (pn & Hpn & Hn).
  destruct (piece_clip pn Hpn) as (cn & Hcn & _ & Ecn). pose proof clips_inside as Hi. pose proof (length_small Hl) as Hsm.
  assert (Hch : chain (clips w) 0 0 l \/ exists l1 z l2, l = l1 ++ z :: l2 /\ l1 <> [] /\ chain (clips w) 0 0 l1 /\
                  0 + total_len (clips w) l1 < off_at (clips w) 0 z).
  { eapply chain_or_gap; [apply O|apply O|apply O|]. intros z. rewrite El. by intros [= <-]. }
  pose proof Ho as [F Hx Hlx _ Hm _ _ _ _].
  destruct (construct_spec base w dl ls x t l q F V Hx Hlx Hm P) as (cons & r & E & Hno & _).
  apply Hno. intros ->. destruct Hch as [Hch|(l1 & z & l2 & El2 & Hne & Hch & Hgap)].
  - (* no gap: the clips are the whole datagram *)
    assert (Hlast : exists la, list.last l = Some la) by (rewrite El; by apply last_is_Some).
    destruct Hlast as [la Hla]. pose proof (chain_last _ _ _ _ _ Hch Hla) as Hst.
    rewrite (total_clip_of _ _ _ (ho_clips _ _ _ _ _ _ _ _ _ Ho)) in Hst.
    apply last_Some in Hla as [l3 El3].
    pose proof (to_spaced _ _ _ O) as S. rewrite El3 in S. apply StronglySorted_app_iff in S as (_ & _ & S).
    rewrite El3 in Hcn. apply elem_of_app in Hcn as [Hcn|Hcn%list_elem_of_singleton]; [|subst; lia].
    rewrite Forall_forall in S. specialize (S cn Hcn). apply Forall_cons in S as [S _].
    pose proof (to_kept _ _ _ O) as K. rewrite Forall_forall in K.
    destruct (kept_off _ _ _ (K la ltac:(rewrite El3; set_solver)) ltac:(apply O)) as (_ & _ & _ & _ & ? & _).
    rewrite Forall_forall in Hi. destruct (Hi la ltac:(rewrite El3; set_solver)). lia.
  - destruct l1 as [|y' l1]; [done|]. destruct Hch as (cy & Hcy & Ho0 & Hlen & Hch').
    pose proof (to_kept _ _ _ O) as K. rewrite Forall_forall in K, Hi.
    destruct (kept_off _ _ _ (K z ltac:(rewrite El2; set_solver)) ltac:(apply O)) as (_ & _ & _ & _ & ? & _).
    destruct (Hi z ltac:(rewrite El2; set_solver)).
    assert (Hch0 : chain (clips w) 0 (off 0 cy) (y' :: l1)) by (exists cy; by split_and!; [| |lia|rewrite Ho0]).
    rewrite must_have_eq in E by (done || lia).
    rewrite (construct_gap (clips w) 0 (frags t) y' l1 z l2 cy (cons0 q) 0) in E; try done.
    + rewrite <- El2. apply O.
    + rewrite Ho0. lia.
    + rewrite Ho0. unfold stop. lia.
    + rewrite Ho0. lia.
Qed.

Lemma construct_complete q :
  carries D k q -> total_frag rs = Z.of_nat (length D) -> (2 <= length rs)%nat ->
  first t && last t = true /\
  exists w' q', ipfrag_construct w x q = Some (w', q', 0) /\ finv w' (delete x dl) ls /\
    TimerWheel.inv base (th_timer w') (delete x dl) /\ tick w' = tick w /\
    built q q' (D ++ drop (length D) (drop (Z.to_nat (l4 q)) (defrag_data q))) (Z.of_nat (length D)) x.
Proof.
  intros C Htot Hlen2. pose proof holding_ok as O. pose proof (ho_clips _ _ _ _ _ _ _ _ _ Ho) as Hcl.
  pose proof (total_clip_of _ _ _ Hcl) as Htl. pose proof (Forall2_length _ _ _ Hcl) as Hll.
  destruct (spaced_total (clips w) (length_ t) l 0 (Z.of_nat (length D))) as [_ Hch];
    [apply O|apply O|apply O|apply clips_inside|lia|]. specialize (Hch ltac:(lia)).
  assert (El : exists y z l', l = y :: z :: l').
  { clear -Hll Hlen2. destruct l as [|y [|z l']]; simpl in Hll; [lia|lia|by eexists _, _, _]. }
  destruct El as (y & z & l' & El).
  pose proof Hch as Hch0. rewrite El in Hch. destruct Hch as (cy & Hcy & Ho0 & Hly & Hch').
  pose proof (off_at_lookup _ 0 _ _ Hcy) as Eoy. rewrite Ho0 in Eoy.
  assert (Hy : y ∈ l) by (rewrite El; left). destruct (clip_piece y Hy) as (py & Hpy & Epy & _).
  assert (Hf : first t = true) by (apply (ho_first _ _ _ _ _ _ _ _ _ Ho); exists py; split; [done|congruence]).
  assert (Hlast : exists la, list.last l = Some la) by (rewrite El; by apply last_is_Some).
  destruct Hlast as [la Hla]. pose proof (chain_last _ _ _ _ _ Hch0 Hla) as Hst.
  assert (Hlal : la ∈ l) by (pose proof Hla as Hla'; apply last_Some in Hla' as [l4' ->]; set_solver).
  destruct (clip_piece la Hlal) as (pl & Hpl & _ & Epl).
  assert (Hl : last t = true) by (apply (ho_last _ _ _ _ _ _ _ _ _ Ho); exists pl; split; [done|lia]).
  rewrite Hf, Hl. split; [done|]. pose proof (length_small Hl) as Hsm.
  pose proof (ca_pwf _ _ _ C) as P. pose proof (ca_room _ _ _ C) as Hroom. pose proof (pw_l3 _ P). pose proof (pw_l4 _ P).
  destruct (pw_data _ P) as [_ Dl]. unfold DPI_MAX_PKT_LEN in *.
  assert (E0 : Asm.len (cons0 q) = 65536 - l4 q) by (cbn; unfold u24; apply Z.mod_small; unfold DPI_MAX_PKT_LEN; lia).
  assert (Hoff : off 0 cy = 0) by done.
  pose proof Ho as [F Hx Hlx _ Hm _ _ _ _].
  destruct (construct_spec base w dl ls x t l q F V Hx Hlx Hm P) as (cons & r & E & _ & Hok).
  pose proof (construct_contiguous (clips w) 0 (frags t) y z l' cy (cons0 q) 0 (Z.of_nat (length D) - 1)) as Hcc.
  assert (0 < Z.of_nat (length D)).
  { destruct (ca_len _ _ _ C). destruct (carries_field _ _ _ C) as (v & _ & Ev & _).
    pose proof (frag_seq_range (ntohs v)). unfold frag_end in *. lia. }
  rewrite <- El in Hcc. rewrite must_have_eq in E by (done || lia). rewrite Hcc in E; [clear Hcc|..].
  - injection E as Econs Er. specialize (Hok (eq_sym Er)) as (_ & _ & w' & q' & E' & F' & V' & _ & _ & Ek & B).
    exists w', q'. split_and!; [exact E'|exact F'|exact V'|exact Ek|].
    assert (Elen : Asm.len cons = Z.of_nat (length D)) by (rewrite <- Econs; cbn [Asm.len set]; lia).
    rewrite <- Elen.
    assert (Hptr : ptr cons = D ++ drop (length D) (drop (Z.to_nat (l4 q)) (defrag_data q))).
    { rewrite <- Econs. cbn [ptr set cons0]. rewrite Htl, Htot, Nat2Z.id. f_equal.
      rewrite (chain_concat (clips w) (length_ t) D l rs 0 Hcl) by (done || apply O || lia ||
        (intros p Hp; rewrite Forall_forall in HC; apply (HC p Hp))).
      rewrite Htl, Htot, Nat2Z.id. simpl. by rewrite drop_0, take_ge. }
    by rewrite <- Hptr.
  - apply O.
  - done.
  - by rewrite Hoff.
  - done.
  - rewrite Hoff. unfold stop. lia.
  - lia.
  - rewrite E0. lia.
  - rewrite E0, Htl. cbn [ptr cons0]. rewrite length_drop. lia.
Qed.
End finish.

(** After the fragments [qs] of datagram [k]. *)
Definition seen (D : list Z) k (base : Z) w (qs : list packet) : Prop :=
  exists dl ls, finv w dl ls /\ TimerWheel.inv base (th_timer w) dl /\ tick_ok base w /\
    match qs with
    | [] => trac_lookup w k = NULL
    | _ => exists x t l rs, holding D k w dl ls x t l rs /\ rs ≡ₚ qs
    end.

Lemma trac_lookup_found w dl ls k x t :
  finv w dl ls -> tracs w !! x = Some t -> key t = k -> on_map w x -> trac_lookup w k = x.
Proof.
  intros F Hx Hk Hm. unfold trac_lookup.
  apply (RcuMap.lookup_some (ip4frag_trac_match (tracs w)) ip4frag_trac_hash (keyof w) (match_key w)); [apply F|].
  split; [done|]. unfold keyof. rewrite Hx. simpl. by rewrite Hk.
Qed.

(** Finding the tracker and holding the next fragment. *)
Lemma seen_hold D k base tc w qs q :
  seen D k base w qs -> carries D k q -> Forall (separate q) qs -> 0 < Z.of_nat (length D) ->
  exists w1 x w2 dl ls t l rs, locate w k = (w1, x) /\ ipfrag_hold tc w1 x q = Some (w2, q) /\
    holding D k w2 dl ls x t l rs /\ rs ≡ₚ q :: qs /\
    TimerWheel.inv base (th_timer w2) dl /\ tick_ok base w2.
Proof.
  intros (dl & ls & F & V & Htk & Hq) C Hsep HD.
  destruct (locate_spec base w dl ls k F V Htk) as (w1 & x & t & l & E & F1 & V1 & Hx & Hk & Hm & Ec & Etk & Hcase).
  assert (Hh : exists rs, holding D k w1 (<[x := tick w + DPI_FRAG_TIMEOUT]> dl) (<[x := l]> ls) x t l rs /\ rs ≡ₚ qs).
  { destruct qs as [|q0 qs].
    - exists []. split; [|done]. destruct Hcase as [(Ex & _ & _ & Hm0 & _)|(_ & -> & -> & _)].
      + exfalso. rewrite Hq in Ex. subst x. apply on_map_trac with (1 := F) in Hm0 as [t0 Ht0].
        destruct (fi_trac _ _ _ F _ _ Ht0) as [Hp _]. unfold NULL in Hp. lia.
      + constructor; cbn [first last length_]; try done; [by rewrite lookup_insert_eq| | |split; [lia|done]];
          (split; [done|]); intros (? & ?%elem_of_nil & _); done.
    - destruct Hq as (x0 & t0 & l0 & rs & [F0 Hx0 Hl0 Hk0 Hm0 Hc0 Hf0 Hla0 Hle0] & Hp). exists rs. split; [|done].
      pose proof (trac_lookup_found w dl ls k x0 t0 F Hx0 Hk0 Hm0) as Elk.
      destruct Hcase as [(-> & Et & _ & _ & Hl)|(Hn & _)].
      2:{ exfalso. destruct (fi_trac _ _ _ F _ _ Hx0) as [? _]. unfold NULL in *. lia. }
      rewrite Elk in *. rewrite Et in Hx. rewrite Hx0 in Hx. injection Hx as <-. rewrite Hl0 in Hl. injection Hl as <-.
      constructor; try done; [by rewrite Et|by rewrite lookup_insert_eq|by rewrite Ec]. }
  destruct Hh as (rs & Hh & Hp).
  destruct (hold_piece D k tc w1 _ _ x t l rs q Hh C) as (w2 & t' & l' & rs' & Eh & Hh' & Hp' & Ew & Ek).
  { by rewrite Hp. }
  eexists w1, x, w2, _, _, t', l', rs'. split_and!; [done|done|exact Hh'|by rewrite Hp', Hp|by rewrite Ew|].
  unfold tick_ok in *. by rewrite Ek, Etk.
Qed.

(** The packets and return values of a run of dpi_ip_defrag. *)
Fixpoint defrag_all (tc : Z -> threat_conf) w (qs : list packet) : option (thread T * list (packet * Z)) :=
  match qs with
  | [] => Some (w, [])
  | q :: qs =>
      '(w, q', r) ← dpi_ip_defrag tc w q;
      '(w, rs) ← defrag_all tc w qs;
      Some (w, (q', r) :: rs)
  end.

Lemma carries_perm D k base w qs q0 : seen D k base w qs -> Forall (carries D k) (q0 :: qs) -> 0 < Z.of_nat (length D).
Proof.
  intros _ [C _]%Forall_cons. destruct (ca_len _ _ _ C). destruct (carries_field _ _ _ C) as (v & _ & Ev & _).
  pose proof (frag_seq_range (ntohs v)). unfold frag_end in *. lia.
Qed.

Lemma defrag_step D k base tc w qs q :
  seen D k base w qs -> carries D k q -> Forall (carries D k) qs -> Forall (separate q) qs ->
  (total_frag (q :: qs) < Z.of_nat (length D) ->
     exists w' r, dpi_ip_defrag tc w q = Some (w', q, r) /\ r <> 0 /\ seen D k base w' (q :: qs)) /\
  (total_frag (q :: qs) = Z.of_nat (length D) -> qs <> [] ->
     exists w' q' x, dpi_ip_defrag tc w q = Some (w', q', 0) /\
       built q q' (D ++ drop (length D) (drop (Z.to_nat (l4 q)) (defrag_data q))) (Z.of_nat (length D)) x).
Proof.
  intros S C Cs Hsep. assert (HD : 0 < Z.of_nat (length D)) by (eapply carries_perm; [exact S|by constructor]).
  rewrite (defrag_locate tc w q k (ca_key _ _ _ C)).
  destruct (seen_hold D k base tc w qs q S C Hsep HD) as (w1 & x & w2 & dl & ls & t & l & rs & -> & -> & Hh & Hp & V & Htk).
  cbn [mbind option_bind]. rewrite (ho_trac _ _ _ _ _ _ _ _ _ Hh). cbn [mbind option_bind].
  assert (HC : Forall (carries D k) rs) by (rewrite Hp; by constructor).
  rewrite <- (total_frag_perm _ _ Hp). split.
  - intros Ht. destruct (first t && last t) eqn:Efl.
    + rewrite (construct_incomplete D k base w2 dl ls x t l rs Hh V HC q (ca_pwf _ _ _ C) Efl Ht).
      exists w2, 1. split_and!; [done|done|]. exists dl, ls. split_and!; [apply Hh|done|done|by exists x, t, l, rs].
    + exists w2, (-1). split_and!; [done|done|]. exists dl, ls. split_and!; [apply Hh|done|done|by exists x, t, l, rs].
  - intros Ht Hne. destruct (construct_complete D k base w2 dl ls x t l rs Hh V HC q C Ht)
      as (-> & w' & q' & -> & _ & _ & _ & B); [|by exists w', q', x].
    rewrite Hp. destruct qs; simpl; [done|lia].
Qed.

Lemma total_frag_nonneg D k qs : Forall (carries D k) qs -> 0 <= total_frag qs.
Proof. induction 1 as [|q qs C _ IH]; simpl; [lia|]. destruct (ca_len _ _ _ C). fold (total_frag qs). lia. Qed.

Lemma separate_sym p q : separate p q -> separate q p.
Proof. unfold separate. tauto. Qed.

Lemma defrag_rest D k base tc q rest : forall w done,
  seen D k base w done -> Forall (carries D k) done -> Forall (carries D k) (rest ++ [q]) ->
  Forall (fun p => Forall (separate p) done) (rest ++ [q]) -> ForallOrdPairs separate (rest ++ [q]) ->
  total_frag done + total_frag (rest ++ [q]) = Z.of_nat (length D) -> done ++ rest <> [] ->
  exists w' rs q' x, defrag_all tc w (rest ++ [q]) = Some (w', rs ++ [(q', 0)]) /\
    Forall (fun r => r.2 <> 0) rs /\ rs.*1 = rest /\
    built q q' (D ++ drop (length D) (drop (Z.to_nat (l4 q)) (defrag_data q))) (Z.of_nat (length D)) x.
Proof.
  induction rest as [|p rest IH]; intros w done S Cd Cr Hsep Hpair Htot Hne; cbn [app defrag_all] in *.
  - apply Forall_cons in Cr as [Cq _], Hsep as [Hq _].
    destruct (defrag_step D k base tc w done q S Cq Cd Hq) as [_ Hlast].
    destruct Hlast as (w' & q' & x & -> & B); [simpl in Htot |- *; fold (total_frag done); lia|by rewrite app_nil_r in Hne|].
    cbn [mbind option_bind]. exists w', [], q', x. by split_and!.
  - apply Forall_cons in Cr as [Cp Cr], Hsep as [Hp Hsep]. inversion Hpair as [|? ? Hpr Hpair']; subst.
    destruct (defrag_step D k base tc w done p S Cp Cd Hp) as [Hstep _].
    pose proof Cr as [Cr1 Cq]%Forall_app. apply Forall_cons in Cq as [Cq _].
    pose proof (total_frag_nonneg D k _ Cr1) as H0. pose proof (ca_len _ _ _ Cq) as [Hq0 _].
    assert (Eapp : forall qs : list packet, total_frag (qs ++ [q]) = total_frag qs + frag_len q).
    { induction qs as [|y qs IHl]; simpl; [lia|]. fold (total_frag (qs ++ [q])) (total_frag qs). lia. }
    simpl in Htot. fold (total_frag (rest ++ [q])) in Htot. rewrite Eapp in Htot.
    destruct Hstep as (w1 & r & -> & Hr & S1); [simpl; fold (total_frag done); lia|]. cbn [mbind option_bind].
    destruct (IH w1 (p :: done) S1) as (w' & rs & q' & x & -> & Hrs & Hfst & B); try done.
    + by constructor.
    + rewrite Forall_forall in Hsep, Hpr |- *. intros y Hy. constructor; [by apply separate_sym, Hpr|by apply Hsep].
    + rewrite Eapp. simpl. fold (total_frag done). lia.
    + cbn [mbind option_bind]. exists w', ((p, r) :: rs), q', x. split_and!; try done; [by constructor|by simpl; f_equal].
Qed.

(** C27: Reassembly in any order.  The fragments of a datagram are disjoint and together as
    long as its payload; in whatever order they reach a thread that has none of them yet,
    dpi_ip_defrag returns something else than 0 for all but the last, which it turns into
    the whole datagram: the payload behind the headers of that fragment, with fragment
    offset 0, the total length of the datagram and a valid header checksum. *)
Theorem dpi_ip_defrag_any_order (tc : Z -> threat_conf) (base : Z) w dl ls (D : list Z) (k : frag_key)
    (qs : list packet) (q : packet) :
  finv w dl ls -> TimerWheel.inv base (th_timer w) dl -> tick_ok base w -> trac_lookup w k = NULL ->
  Forall (carries D k) (qs ++ [q]) -> ForallOrdPairs separate (qs ++ [q]) -> qs <> [] ->
  total_frag (qs ++ [q]) = Z.of_nat (length D) ->
  exists w' rs q', defrag_all tc w (qs ++ [q]) = Some (w', rs ++ [(q', 0)]) /\
    Forall (fun r => r.2 <> 0) rs /\ rs.*1 = qs /\
    take (length D) (drop (Z.to_nat (l4 q')) (pkt q')) = D /\
    Wire.len q' = l4 q + Z.of_nat (length D) /\ l4 q' = l4 q /\ pwf q' /\
    ld16 (pkt q') (l3 q' + 6) = Some 0 /\
    ld16 (pkt q') (l3 q' + 2) = Some (htons (l4 q - l3 q + Z.of_nat (length D))) /\
    get_ip_cksum (pkt q') (l3 q') = Some 0.
Proof.
  intros F V Htk Hn HC HS Hne Htot.
  destruct (defrag_rest D k base tc q qs w []) as (w' & rs & q' & x & E & Hrs & Hfst & B); try done.
  { by exists dl, ls. }
  { apply Forall_forall. intros. by apply Forall_nil. }
  apply Forall_app in HC as [_ [C _]%Forall_cons]. pose proof (ca_pwf _ _ _ C) as P.
  pose proof (ca_room _ _ _ C) as Hroom. pose proof (pw_l3 _ P). pose proof (pw_l4 _ P). unfold DPI_MAX_PKT_LEN in Hroom.
  pose proof (built_pwf q q' _ _ x P B) as P'. destruct (bu_offs _ _ _ _ _ B) as (E3 & E4 & _).
  exists w', rs, q'. rewrite E3, E4. split_and!; try done.
  - by rewrite (bu_buf _ _ _ _ _ B), take_app_length.
  - destruct (bu_len _ _ _ _ _ B) as [-> _]. apply u16_id. unfold is_u16. lia.
  - apply P'; lia.
  - apply B.
  - rewrite (bu_tot _ _ _ _ _ B), u16_id by (unfold is_u16; lia). done.
  - apply B.
Qed.

(** ** The end of a tracker *)

Lemma remove_all w (cs : list Z) :
  (forall c, clips (foldl ipfrag_remove w cs) !! c = if decide (c ∈ cs) then None else clips w !! c) /\
  tracs (foldl ipfrag_remove w cs) = tracs w /\ ip4frag_map (foldl ipfrag_remove w cs) = ip4frag_map w /\
  th_timer (foldl ipfrag_remove w cs) = th_timer w /\ tick (foldl ipfrag_remove w cs) = tick w /\
  fault (foldl ipfrag_remove w cs) = fault w.
Proof.
  revert w. induction cs as [|a cs IH]; intros w; simpl; [by split_and!|].
  destruct (IH (ipfrag_remove w a)) as (H1 & -> & -> & -> & -> & ->). split_and!; try done.
  intros c. rewrite H1. cbn [clips set ipfrag_remove]. destruct (decide (c ∈ cs)), (decide (c ∈ a :: cs)); try done.
  - set_solver.
  - assert (c = a) as -> by set_solver. apply lookup_delete_eq.
  - apply lookup_delete_ne. set_solver.
Qed.

(** A tracker out of the map goes with its clips, and nothing else. *)
Lemma destroy_finv w dl ls x t l :
  finv w dl ls -> tracs w !! x = Some t -> ls !! x = Some l -> ~ on_map w x ->
  exists w', destroy_trac w x = Some w' /\ finv w' dl (delete x ls) /\ tracs w' = delete x (tracs w) /\
    (forall c, clips w' !! c = if decide (c ∈ l) then None else clips w !! c) /\
    ip4frag_map w' = ip4frag_map w /\ th_timer w' = th_timer w /\ tick w' = tick w.
Proof.
  intros F Hx Hl Hm. destruct (fi_trac _ _ _ F _ _ Hx) as (_ & l0 & Hl0 & O).
  rewrite Hl in Hl0. injection Hl0 as <-. unfold destroy_trac, asm_destroy. rewrite Hx. cbn [mbind option_bind].
  destruct (ot_destroy_rep _ _ (ai_rep _ _ _ _ (to_ainv _ _ _ O))) as (t' & freed & -> & _ & Hp).
  cbn [mbind option_bind]. destruct (remove_all w freed) as (Hc & Et & Em & Ew & Ek & Ef).
  set (w1 := foldl ipfrag_remove w freed) in *. clearbody w1.
  assert (Hc' : forall c, clips w1 !! c = if decide (c ∈ l) then None else clips w !! c).
  { intros c. rewrite Hc. destruct (decide (c ∈ freed)) as [Hi|Hi], (decide (c ∈ l)) as [Hj|Hj]; try done;
      rewrite Hp in Hi; done. }
  eexists. split; [reflexivity|]. split_and!; [|cbn [tracs set]; by rewrite Et|done|done|done|done].
  constructor; cbn [clips tracs ip4frag_map th_timer fault set].
  - intros y ty. rewrite Et, lookup_delete_Some. intros [Hne Hy].
    destruct (fi_trac _ _ _ F _ _ Hy) as (Hpos & ly & Hly & Oy). split; [done|]. exists ly.
    rewrite lookup_delete_ne by done. split; [done|]. eapply trac_ok_mem; [done|].
    intros c Hcy. rewrite Hc', decide_False; [done|]. intros Hcl. by destruct (Hne (fi_disj _ _ _ F _ _ _ _ _ Hl Hly Hcl Hcy)).
  - intros y ly [Hne Hy]%lookup_delete_Some. rewrite Et, lookup_delete_ne by done. by eapply (fi_ls _ _ _ F).
  - intros y z ly lz c [? ?]%lookup_delete_Some [? ?]%lookup_delete_Some. by eapply (fi_disj _ _ _ F).
  - intros c. rewrite Hc'. case_decide as Hd; [by intros [? ?]|]. intros Hs.
    destruct (fi_clip _ _ _ F c Hs) as (y & ly & Hy & Hin). exists y, ly. split; [|done].
    rewrite lookup_delete_ne; [done|]. intros ->. congruence.
  - intros c cl. rewrite Hc'. case_decide; [done|]. apply (fi_bytes _ _ _ F).
  - rewrite Em. eapply RcuMap.wf_ext; [apply F|]. intros n ([h n'] & -> & Hn)%list_elem_of_fmap. simpl.
    unfold keyof. cbn [tracs set]. rewrite Et, lookup_delete_ne; [done|]. intros ->. apply Hm. by exists h.
  - intros y. unfold on_map. cbn [ip4frag_map set]. rewrite Em. apply (fi_dl _ _ _ F).
  - intros y. rewrite Ew. apply (fi_tmo _ _ _ F).
  - rewrite Ef. apply F.
Qed.

(** The fragments of a reassembled datagram that is let through are sent as they came,
    each once, in the order of their offsets; afterwards the tracker and its clips are
    gone and those of every other datagram are as they were. *)
Theorem dpi_frag_send_spec w dl ls x t l :
  finv w dl ls -> tracs w !! x = Some t -> ls !! x = Some l -> ~ on_map w x ->
  exists w' out, dpi_frag_send w x = Some (w', out) /\ finv w' dl (delete x ls) /\
    tracs w' = delete x (tracs w) /\ (forall c, c ∈ l -> clips w' !! c = None) /\
    (forall c, c ∉ l -> clips w' !! c = clips w !! c) /\
    Forall2 (fun c bs => exists cl, clips w !! c = Some cl /\ bs = take (Z.to_nat (skip cl)) (ptr cl) ++ payload cl) l out /\
    StronglySorted (fun c d => stop_at (clips w) 0 c <= off_at (clips w) 0 d) l.
Proof.
  intros F Hx Hl Hm. destruct (destroy_finv w dl ls x t l F Hx Hl Hm) as (w' & E & F' & Et & Hc & _).
  destruct (fi_trac _ _ _ F _ _ Hx) as (_ & l0 & Hl0 & O). rewrite Hl in Hl0. injection Hl0 as <-.
  unfold dpi_frag_send. rewrite Hx. cbn [mbind option_bind]. unfold asm_foreach.
  rewrite (ot_traverse_rep _ _ (ai_rep _ _ _ _ (to_ainv _ _ _ O))). cbn [mbind option_bind].
  assert (Hout : exists out, mapM (send_frag (clips w)) l = Some out /\
    Forall2 (fun c bs => exists cl, clips w !! c = Some cl /\ bs = take (Z.to_nat (skip cl)) (ptr cl) ++ payload cl) l out).
  { pose proof (to_kept _ _ _ O) as K. clear -K. induction K as [|c l (cl & Hcl & Ocl & _) K IH]; [by exists []|].
    destruct IH as (out & E & H2). destruct Ocl as [_ ? ? ? _].
    assert (Es : send_frag (clips w) c = Some (take (Z.to_nat (skip cl)) (ptr cl) ++ payload cl)).
    { unfold send_frag. rewrite Hcl. cbn [mbind option_bind]. rewrite (proj2 (Z.ltb_ge _ _)) by lia. f_equal.
      unfold payload. rewrite Z.add_comm, Z2Nat.inj_add by lia. symmetry. apply take_take_drop. }
    eexists (_ :: out). split; [simpl; rewrite Es; simpl; by rewrite E|]. constructor; [by exists cl|done]. }
  destruct Hout as (out & -> & H2). cbn [mbind option_bind]. rewrite E. cbn [mbind option_bind].
  exists w', out. split_and!; try done; [| |apply O].
  - intros c Hin. by rewrite Hc, decide_True.
  - intros c Hin. by rewrite Hc, decide_False.
Qed.

(** While the wheel rolls: the trackers that were on it are there or released. *)
Definition frag_rolling w0 (dl0 : gmap Z Z) now w (dl : gmap Z Z) : Prop :=
  (exists ls, finv w dl ls) /\
  (forall x D, dl !! x = Some D -> dl0 !! x = Some D) /\
  (forall x D, dl0 !! x = Some D -> now <= D -> dl !! x = Some D) /\
  (forall x, tracs w !! x = if bool_decide (is_Some (dl0 !! x) /\ dl !! x = None) then None else tracs w0 !! x).

Lemma release_finv w dl ls x : finv w dl ls -> is_Some (dl !! x) ->
  let w1 := w <| th_timer ::= fun tw => TimerWheel.timer_wheel_entry_remove tw x |> in
  exists w' ls', ipfrag_release w1 x = Some w' /\ finv w' (delete x dl) ls' /\
    tracs w' = delete x (tracs w) /\ th_timer w' = th_timer w1.
Proof.
  intros F Hd w1. assert (Hm : on_map w x) by by apply (fi_dl _ _ _ F).
  destruct (on_map_trac _ _ _ _ F Hm) as [t Hx]. destruct (fi_trac _ _ _ F _ _ Hx) as (_ & l & Hl & _).
  unfold ipfrag_release. set (w2 := w1 <| ip4frag_map ::= _ |> <| tmout_frags ::= _ |>).
  assert (F2 : finv w2 (delete x dl) ls).
  { pose proof (RcuMap.del_map _ _ _ x (fi_map _ _ _ F)) as Ed. destruct F. constructor; try done.
    - by apply RcuMap.del_wf.
    - intros y. unfold on_map. cbn [ip4frag_map set w1 w2]. rewrite Ed. setoid_rewrite elem_of_lfilter.
      rewrite lookup_delete_is_Some, fi_dl0. unfold on_map. simpl. setoid_rewrite negb_true_iff.
      setoid_rewrite Z.eqb_neq. naive_solver.
    - intros y [Hne Hy]%lookup_delete_is_Some. cbn [th_timer set w1 w2]. rewrite TimerWheel.timeout_remove. by apply fi_tmo0. }
  destruct (destroy_finv w2 (delete x dl) ls x t l F2 Hx Hl) as (w' & E & F' & Et & _ & _ & Ew & _).
  { intros Hm2. apply (fi_dl _ _ _ F2), lookup_delete_is_Some in Hm2. by destruct Hm2. }
  by exists w', (delete x ls).
Qed.

Lemma release_ok w0 dl0 base now : TimerWheel.callbacks_ok (frag_rolling w0 dl0 now) base now.
Proof.
  intros w dl s n D fn ((ls & F) & Hsub & Hkeep & Ht) Hs V Hn HD _ w1.
  destruct (release_finv w dl ls n F ltac:(by eexists)) as (w' & ls' & Er & F' & Et & Ew).
  assert (E1 : w1 = w').
  { unfold w1. cbn [TimerWheel.run_callback TimerWheel.wheel_upd thread_world]. by rewrite Er. }
  rewrite E1. clear E1 w1.
  exists (delete n dl). split_and!.
  - split_and!; [by exists ls'| | |].
    + intros x D' [_ ?]%lookup_delete_Some. by apply Hsub.
    + intros x D' Hx Hle. rewrite lookup_delete_ne; [by apply Hkeep|]. intros ->. apply Hsub in Hn. rewrite Hx in Hn.
      injection Hn as ->. lia.
    + intros x. rewrite Et. destruct (decide (n = x)) as [->|Hne].
      * rewrite lookup_delete_eq, bool_decide_true; [done|]. split; [|apply lookup_delete_eq]. exists D. by apply Hsub.
      * rewrite (lookup_delete_ne (tracs w)) by done. rewrite Ht.
        assert (En : delete n dl !! x = dl !! x) by by rewrite lookup_delete_ne. by rewrite En.
  - cbn [TimerWheel.wheel thread_world]. rewrite Ew. by eapply TimerWheel.remove_inv.
  - intros m D' [Hne Hx]%lookup_delete_Some. left. split; [by apply not_eq_sym|done].
Qed.

(** Rolling the timer wheel to [now] releases exactly the trackers on it that have seen no
    fragment for ten seconds, with their clips, and keeps the others; no callback touches
    a freed object. *)
Theorem ipfrag_timeout w dl ls (base now : Z) (fuel : nat) :
  finv w dl ls -> TimerWheel.inv base (th_timer w) dl -> TimerWheel.current (th_timer w) = base ->
  base <= now < 2 ^ 32 -> base + TimerWheel.MAX_TIMER_SLOTS < 2 ^ 32 ->
  (size (TimerWheel.overdue now dl) <= fuel)%nat ->
  exists w' cnt dl' ls', TimerWheel.timer_wheel_roll fuel now w = Some (w', cnt) /\
    finv w' dl' ls' /\ TimerWheel.inv now (th_timer w') dl' /\
    forall x, tracs w' !! x = match dl !! x with Some D => if D <? now then None else tracs w !! x
                                            | None => tracs w !! x end.
Proof.
  intros F V Hc Hn H32 Hf.
  destruct (TimerWheel.timer_wheel_roll_spec (frag_rolling w dl now) base now (release_ok w dl base now)
    ltac:(intros ? ? ? ((? & []) & ? & ? & ?); split_and!; try done; eexists; by constructor) fuel w dl)
    as (w' & cnt & dl' & E & ((ls' & F') & Hsub & Hkeep & Ht) & _ & V'); try done.
  { split_and!; [by exists ls|done|done|]. intros x. rewrite bool_decide_false; [done|]. intros [[? ?] ?]. congruence. }
  exists w', cnt, dl', ls'. split_and!; try done. intros x. rewrite Ht.
  destruct (dl !! x) as [D|] eqn:Ex; [|rewrite bool_decide_false; [done|]; by intros [[? ?] ?]].
  destruct (Z.ltb_spec D now).
  - rewrite bool_decide_true; [done|]. split; [by eexists|]. destruct (dl' !! x) as [D'|] eqn:Ex'; [|done].
    pose proof (TimerWheel.inv_entry _ _ _ V' _ _ Ex') as [? _]. apply Hsub in Ex'. rewrite Ex in Ex'. injection Ex' as <-. lia.
  - rewrite bool_decide_false; [done|]. intros [_ Hx]. rewrite (Hkeep x D Ex) in Hx by lia. done.
Qed.
End inv.

(** ** Two fragments of a datagram of twelve bytes *)

Definition empty_thread : thread Tree.tree :=
  Thread ∅ ∅ (RcuMap.rcu_map_init 0) (TimerWheel.Wheel ∅ 0 100 ∅) 100 0 0 0 false.

Definition sample_frag (off mf : Z) (data : list Z) : packet :=
  let m := replicate 12 0 ++ [8; 0] ++
           [69; 0; 0; 20 + Z.of_nat (length data); 0; 7; mf * 32; off / 8; 64; 17; 0; 0; 10; 0; 0; 1; 10; 0; 0; 2] ++ data in
  let n := Z.of_nat (length m) in
  Packet m 0 0 0 14 34 n n ETH_P_IP 0 0 0 0 0 0 0 0 0 0 0 0 0 0 (replicate (Z.to_nat DPI_MAX_PKT_LEN) 0) [].

Definition sample_data : list Z := [1; 2; 3; 4; 5; 6; 7; 8; 9; 10; 11; 12].
Definition frag1 : packet := sample_frag 0 1 [1; 2; 3; 4; 5; 6; 7; 8].
Definition frag2 : packet := sample_frag 8 0 [9; 10; 11; 12].
Definition sample_key : frag_key := Key 16777226 33554442 1792 false.
Definition no_threats (_ : Z) : threat_conf := ThreatConf false 0 0 0.

Lemma empty_finv : finv empty_thread ∅ ∅.
Proof.
  constructor; try done.
  - by intros c [? Hc].
  - constructor; cbn; try done; [apply NoDup_nil_2|]. by intros ? ? ?%elem_of_nil.
  - intros x. split; [by intros [? ?]|]. by intros [h ?%elem_of_nil].
  - by intros x [? ?].
Qed.

Lemma empty_wheel : TimerWheel.inv 100 (th_timer empty_thread) ∅.
Proof. exact TimerWheel.sample0_inv. Qed.

Lemma empty_tick : tick_ok 100 empty_thread.
Proof. unfold tick_ok, DPI_FRAG_TIMEOUT, TimerWheel.MAX_TIMER_SLOTS. cbn. lia. Qed.

Lemma sample_pwf off mf data : bytes data -> Z.of_nat (length data) < 100 -> is_u8 (mf * 32) -> is_u8 (off / 8) ->
  pwf (sample_frag off mf data).
Proof.
  intros Hb Hl H1 H2. unfold is_u8 in *. constructor; unfold sample_frag; cbn [pkt l3 l4 Wire.len cap_len defrag_data].
  - unfold bytes. repeat (apply Forall_app; split); try done;
      repeat (apply Forall_cons; split; [unfold is_u8; lia|]); apply Forall_nil_2.
  - lia.
  - rewrite !length_app, length_replicate. simpl. lia.
  - rewrite !length_app, length_replicate. simpl. lia.
  - exists 69. by split.
  - split; [apply Forall_replicate; unfold is_u8; lia|]. rewrite length_replicate. unfold DPI_MAX_PKT_LEN. lia.
Qed.

Lemma frag1_pwf : pwf frag1.
Proof.
  apply sample_pwf; [|simpl; lia|split; vm_compute; congruence|split; vm_compute; congruence].
  repeat (apply Forall_cons; split; [unfold is_u8; lia|]). apply Forall_nil_2.
Qed.

Lemma frag2_pwf : pwf frag2.
Proof.
  apply sample_pwf; [|simpl; lia|split; vm_compute; congruence|split; vm_compute; congruence].
  repeat (apply Forall_cons; split; [unfold is_u8; lia|]). apply Forall_nil_2.
Qed.

Lemma frag1_carries : carries sample_data sample_key frag1.
Proof.
  constructor; [exact frag1_pwf|vm_compute; reflexivity|split; vm_compute; congruence|vm_compute; reflexivity| |vm_compute; reflexivity].
  split; intros E; vm_compute in E; discriminate.
Qed.

Lemma frag2_carries : carries sample_data sample_key frag2.
Proof.
  constructor; [exact frag2_pwf|vm_compute; reflexivity|split; vm_compute; congruence|vm_compute; reflexivity| |vm_compute; reflexivity].
  split; intros _; vm_compute; reflexivity.
Qed.

Lemma dpi_ip_defrag_any_order_witness :
  exists w' rs q', defrag_all no_threats empty_thread [frag2; frag1] = Some (w', rs ++ [(q', 0)]) /\
    take 12 (drop (Z.to_nat (l4 q')) (pkt q')) = sample_data /\ get_ip_cksum (pkt q') (l3 q') = Some 0.
Proof.
  destruct (dpi_ip_defrag_any_order no_threats 100 empty_thread ∅ ∅ sample_data sample_key [frag2] frag1)
    as (w' & rs & q' & E & _ & _ & Hd & _ & _ & _ & _ & _ & Hc).
  - exact empty_finv.
  - exact empty_wheel.
  - exact empty_tick.
  - reflexivity.
  - apply Forall_cons. split; [exact frag2_carries|]. apply Forall_singleton. exact frag1_carries.
  - apply FOP_cons; [|apply FOP_cons; [apply Forall_nil_2|apply FOP_nil]].
    apply Forall_singleton. right. vm_compute. discriminate.
  - discriminate.
  - reflexivity.
  - exists w', rs, q'. split_and!; [exact E|exact Hd|exact Hc].
Defined.

Lemma dpi_ip_defrag_safe_witness :
  exists w' p' r, dpi_ip_defrag no_threats empty_thread frag2 = Some (w', p', r) /\ tick w' = 100.
Proof.
  destruct (dpi_ip_defrag_safe no_threats 100 empty_thread ∅ ∅ frag2) as (w' & p' & r & dl & ls & E & _ & _ & Ht & _).
  - exact empty_finv.
  - exact empty_wheel.
  - exact empty_tick.
  - exact frag2_pwf.
  - exists w', p', r. split; [exact E|exact Ht].
Defined.

(** The thread after [frag2]: one tracker, at address 1, with one clip. *)
Definition after_frag2 : thread Tree.tree :=
  match dpi_ip_defrag no_threats empty_thread frag2 with Some (w, _, _) => w | None => empty_thread end.

Lemma after_frag2_seen : seen sample_data sample_key 100 after_frag2 [frag2].
Proof.
  destruct (defrag_step sample_data sample_key 100 no_threats empty_thread [] frag2) as [Hstep _].
  - exists ∅, ∅. split_and!; [exact empty_finv|exact empty_wheel|exact empty_tick|reflexivity].
  - exact frag2_carries.
  - apply Forall_nil_2.
  - apply Forall_nil_2.
  - destruct Hstep as (w & r & E & _ & S); [reflexivity|]. unfold after_frag2. by rewrite E.
Qed.

Lemma dpi_frag_send_spec_witness :
  exists w dl ls x t l w' out, finv w dl ls /\ tracs w !! x = Some t /\ ls !! x = Some l /\ ~ on_map w x /\
    dpi_frag_send w x = Some (w', out) /\ length out = 1%nat /\ tracs w' !! x = None.
Proof.
  assert (S : exists w0, seen sample_data sample_key 100 w0 [frag2]) by (exists after_frag2; exact after_frag2_seen).
  destruct S as (w0 & dl & ls & F & V & _ & x & t & l & rs & Hh & Hp).
  destruct (detach_finv 100 w0 dl ls x F V (ho_map _ _ _ _ _ _ _ _ _ Hh)) as [F' _].
  set (w := w0 <| ip4frag_map ::= _ |> <| th_timer ::= _ |>) in F'.
  assert (Hm : ~ on_map w x)
    by (rewrite <- (fi_dl _ _ _ F' x), lookup_delete_eq; by intros [? ?]).
  destruct (dpi_frag_send_spec w (delete x dl) ls x t l F' (ho_trac _ _ _ _ _ _ _ _ _ Hh) (ho_ls _ _ _ _ _ _ _ _ _ Hh) Hm)
    as (w' & out & E & _ & Et & _ & _ & Hout & _).
  exists w, (delete x dl), ls, x, t, l, w', out. split_and!; try done.
  - apply Hh.
  - apply Hh.
  - rewrite <- (Forall2_length _ _ _ Hout), (Forall2_length _ _ _ (ho_clips _ _ _ _ _ _ _ _ _ Hh)), Hp. done.
  - by rewrite Et, lookup_delete_eq.
Defined.

Lemma ipfrag_timeout_witness : exists fuel w' cnt, (0 < length (RcuMap.map (ip4frag_map after_frag2)))%nat /\
  TimerWheel.timer_wheel_roll fuel 8000 after_frag2 = Some (w', cnt) /\
  forall x, on_map after_frag2 x -> tracs w' !! x = None.
Proof.
  destruct after_frag2_seen as (dl & ls & F & V & _ & _).
  destruct (ipfrag_timeout after_frag2 dl ls 100 8000 (size (TimerWheel.overdue 8000 dl)) F V)
    as (w' & cnt & dl' & ls' & E & _ & _ & Ht).
  - vm_compute. reflexivity.
  - lia.
  - reflexivity.
  - lia.
  - eexists _, w', cnt. split_and!; [vm_compute; reflexivity|exact E|]. intros x Hx. rewrite Ht.
    apply (fi_dl _ _ _ F) in Hx as [D HD]. rewrite HD.
    destruct (TimerWheel.inv_entry _ _ _ V _ _ HD) as [? _]. unfold TimerWheel.MAX_TIMER_SLOTS in *.
    destruct (Z.ltb_spec D 8000); [done|lia].
Defined.

End Frag.
