(* ===== verification/Packet.v ===== *)
(** * dpi/dpi_packet.c: parsing of a captured frame

    dpi_parse_ethernet finds the headers of a frame: it sets the offsets l3 and l4, the
    length of the packet, ports, TCP options and the payload, hands IPv4 fragments to
    reassembly (Frag.v) and refuses what is not well formed.  Every access goes through
    the loads and stores of Wire.v, so [None] is an access outside the frame.

    [tc] is the threat configuration and [cksum] g_io_config->enable_cksum.  The bytes
    of the reassembly buffer are in [pkt] once a datagram has been put together; its
    copy in [defrag_data] is not read again before the next reassembly rewrites it.
    [dpi_ipv6_defrag], the reassembly of IPv6, is an argument. *)

From S2P Require Import Prelude Helper Bitmap Tree Asm RcuMap TimerWheel Wire Frag.
Import Helper.Bytes Asm.Asm Wire.Wire Frag.Frag.

Module Packet.

Definition IPPROTO_HOPOPTS : Z := 0.
Definition IPPROTO_ICMP : Z := 1.
Definition IPPROTO_TCP : Z := 6.
Definition IPPROTO_UDP : Z := 17.
Definition IPPROTO_ROUTING : Z := 43.
Definition IPPROTO_FRAGMENT : Z := 44.
Definition IPPROTO_AH : Z := 51.
Definition IPPROTO_ICMPV6 : Z := 58.
Definition IPPROTO_DSTOPTS : Z := 60.
Definition ICMP_ECHOREPLY : Z := 0.
Definition ICMP_ECHO : Z := 8.
Definition ICMP_TIMESTAMP : Z := 13.
Definition ICMP_TIMESTAMPREPLY : Z := 14.
Definition ICMP_INFO_REQUEST : Z := 15.
Definition ICMP_INFO_REPLY : Z := 16.
Definition ICMP_ADDRESS : Z := 17.
Definition ICMP_ADDRESSREPLY : Z := 18.
Definition ICMP6_ECHO_REPLY : Z := 129.

(** Sizes of the headers. *)
Definition ip4_hdr : Z := 20.
Definition ip6_hdr : Z := 40.
Definition tcp_hdr : Z := 20.
Definition udp_hdr : Z := 8.
Definition icmp_hdr : Z := 8.

Definition TCP_OPT_EOL : Z := 0.
Definition TCP_OPT_NOP : Z := 1.
Definition TCP_OPT_MSS : Z := 2.
Definition TCP_OPT_WSCALE : Z := 3.
Definition TCP_OPT_SACKOK : Z := 4.
Definition TCP_OPT_SACK : Z := 5.
Definition TCP_OPT_TIMESTAMP : Z := 8.

(** tcp_opt_len; 0 for options without a fixed length and for numbers from TCP_OPT_MAX on *)
Definition tcp_opt_len : list Z :=
  [1; 1; 4; 3; 2; 0; 6; 6; 10; 2; 3; 6; 6; 6; 3; 0; 0; 0; 3; 18; 0; 0; 0; 0; 0; 0; 0].
Definition opt_len_of (type : Z) : Z := default 0 (tcp_opt_len !! Z.to_nat type).

Definition TH_FIN : Z := 0x01.
Definition TH_SYN : Z := 0x02.
Definition TH_RST : Z := 0x04.
Definition TH_PUSH : Z := 0x08.
Definition TH_ACK : Z := 0x10.
Definition TH_URG : Z := 0x20.
Definition TCP_FLAG_MASK : Z := 0x3f.
Definition tcp_bad_flag_list : list Z :=
  [0; TH_URG; TH_FIN; TH_PUSH; Z.lor TH_PUSH TH_FIN; Z.lor TH_PUSH TH_URG; Z.lor TH_SYN TH_FIN;
   Z.lor (Z.lor TH_PUSH TH_URG) TH_FIN;
   Z.lor (Z.lor (Z.lor (Z.lor TH_PUSH TH_URG) TH_FIN) TH_ACK) TH_SYN;
   Z.lor (Z.lor (Z.lor (Z.lor (Z.lor TH_PUSH TH_URG) TH_FIN) TH_ACK) TH_SYN) TH_RST].

(** The mask of 256 bits after setup. *)
Definition dpi_packet_setup : option (list Z) :=
  foldl (fun v f => v ← v; Bits.BITMASK_SET v f)
        (Some (replicate (Z.to_nat (Bits.BITMASK_ARRAY_SIZE 256)) 0)) tcp_bad_flag_list.
Definition tcp_bad_flag_mask : list Z := default [] dpi_packet_setup.

Definition DPI_MIN_TCP_MSS : Z := 256.

(** The packet counters of the thread. *)
Record counters := Counters {
  pkt_id : Z; err_pkts : Z; ipv4_pkts : Z; ipv6_pkts : Z; tcp_pkts : Z; udp_pkts : Z; icmp_pkts : Z; other_pkts : Z
}.
#[export] Instance eta_counters : Eta counters := fun c => Counters
  (pkt_id c) (err_pkts c) (ipv4_pkts c) (ipv6_pkts c) (tcp_pkts c) (udp_pkts c) (icmp_pkts c) (other_pkts c).
Definition inc (n : Z) : Z := u64 (n + 1).

Section parse.
Context {T : Type} `{!OrderedTree T}.
Context (tc : Z -> threat_conf) (cksum : bool).
Implicit Types (p : packet) (w : thread T) (c : counters) (m : list Z).

Definition LOG_BAD_PKT p : packet := dpi_threat_trigger tc DPI_THRT_BAD_PACKET p.

(** The check field at [o] is set to zero while [f] computes the checksum, then put
    back: the memory, the field (0xffff counts as 0) and the checksum. *)
Definition check_field m (o : Z) (f : list Z -> option Z) : option (list Z * Z * Z) :=
  pkt_cksum ← ld16 m o;
  m ← st16 m o 0;
  ck ← f m;
  m ← st16 m o pkt_cksum;
  Some (m, if pkt_cksum =? 0xffff then 0 else pkt_cksum, ck).

(** The checksum of TCP and UDP: a wrong one is corrected in the packet. *)
Definition fix_l4_cksum p (proto o l4_len : Z) : option packet :=
  if cksum then
    '(m, pkt_cksum, ck) ← check_field (pkt p) (l4 p + o) (fun m =>
        if dpi_is_ipv4 p then get_l4v4_cksum m (Some (l3 p)) (l4 p) l4_len
        else get_l4v6_cksum m (l3 p) proto (l4 p) l4_len);
    m ← (if negb (pkt_cksum =? ck) then st16 m (l4 p + o) ck else Some m);
    Some (p <| pkt := m |>)
  else Some p.

Definition dpi_parse_icmpv6 p : option (packet * Z) :=
  let icmp6_len := u16 (len p - l4 p) in
  if icmp6_len <? icmp_hdr then Some (LOG_BAD_PKT p, -1)
  else
    '(p, good) ← (if cksum then
                    '(m, pkt_cksum, ck) ← check_field (pkt p) (l4 p + 2) (fun m =>
                        get_l4v6_cksum m (l3 p) IPPROTO_ICMPV6 (l4 p) icmp6_len);
                    Some (p <| pkt := m |>, pkt_cksum =? ck)
                  else Some (p, true));
    if negb good then Some (p, -1)
    else
      type ← ld8 (pkt p) (l4 p); code ← ld8 (pkt p) (l4 p + 1); data16 ← ld16 (pkt p) (l4 p + 4);
      let '(p, sp, dp) :=
        if type =? ICMP6_ECHO_REPLY then (p, u16 (Z.lor (Z.shiftl code 8) ICMP6_ECHO_REPLY), data16)
        else (dpi_set_client_pkt p, data16, u16 (Z.lor (Z.shiftl code 8) type)) in
      Some (p <| sport := ntohs sp |> <| dport := ntohs dp |> <| raw_ptr := l4 p + icmp_hdr |>
              <| raw_len := u32 (len p - l4 p - icmp_hdr) |>, 0).

(** The request a reply belongs to. *)
Definition icmp_request (type : Z) : option Z :=
  if type =? ICMP_ECHOREPLY then Some ICMP_ECHO
  else if type =? ICMP_TIMESTAMPREPLY then Some ICMP_TIMESTAMP
  else if type =? ICMP_INFO_REPLY then Some ICMP_INFO_REQUEST
  else if type =? ICMP_ADDRESSREPLY then Some ICMP_ADDRESS
  else None.

Definition dpi_parse_icmp p : option (packet * Z) :=
  let icmp_len := u16 (len p - l4 p) in
  if icmp_len <? icmp_hdr then Some (LOG_BAD_PKT p, -1)
  else
    p ← (if cksum then
           '(m, pkt_cksum, ck) ← check_field (pkt p) (l4 p + 2) (fun m => get_l4v4_cksum m None (l4 p) icmp_len);
           m ← (if negb (pkt_cksum =? ck) then st16 m (l4 p + 2) ck else Some m);
           Some (p <| pkt := m |>)
         else Some p);
    type ← ld8 (pkt p) (l4 p); code ← ld8 (pkt p) (l4 p + 1); id ← ld16 (pkt p) (l4 p + 4);
    let '(p, sp, dp) :=
      match icmp_request type with
      | Some req => (p, u16 (Z.lor (Z.shiftl code 8) req), id)
      | None => (dpi_set_client_pkt p, id, u16 (Z.lor (Z.shiftl code 8) type))
      end in
    Some (p <| sport := ntohs sp |> <| dport := ntohs dp |> <| raw_ptr := l4 p + icmp_hdr |>
            <| raw_len := u32 (len p - l4 p - icmp_hdr) |>, 0).

Definition dpi_parse_udp p : option (packet * Z) :=
  let udp_len := u16 (len p - l4 p) in
  if udp_len <? udp_hdr then Some (LOG_BAD_PKT p, -1)
  else
    p ← fix_l4_cksum p IPPROTO_UDP 6 udp_len;
    s ← ld16 (pkt p) (l4 p); d ← ld16 (pkt p) (l4 p + 2);
    Some (p <| sport := ntohs s |> <| dport := ntohs d |> <| raw_ptr := l4 p + udp_hdr |>
            <| raw_len := u32 (len p - l4 p - udp_hdr) |>, 0).

(** What an option sets in the packet. *)
Definition tcp_option p (type ptr : Z) : option packet :=
  if type =? TCP_OPT_MSS then v ← ld16 (pkt p) (ptr + 2); Some (p <| tcp_mss := ntohs v |>)
  else if type =? TCP_OPT_WSCALE then v ← ld8 (pkt p) (ptr + 2); Some (p <| tcp_wscale := v |>)
  else if type =? TCP_OPT_TIMESTAMP then
    v ← ld32 (pkt p) (ptr + 2); e ← ld32 (pkt p) (ptr + 6);
    Some (p <| tcp_ts_value := ntohl v |> <| tcp_ts_echo := ntohl e |>
            <| flags ::= fun f => FLAGS_SET f DPI_PKT_FLAG_TCP_TS |>)
  else if type =? TCP_OPT_SACKOK then Some (p <| flags ::= fun f => FLAGS_SET f DPI_PKT_FLAG_SACKOK |>)
  else Some p.

(** `type == TCP_OPT_SACK && len <= 2 && *(ptr + 2) == 0 && *(ptr + 3) == 0` *)
Definition empty_sack m (type len ptr : Z) : option bool :=
  if (type =? TCP_OPT_SACK) && (len <=? 2) then
    a ← ld8 m (ptr + 2);
    if a =? 0 then b ← ld8 m (ptr + 3); Some (b =? 0) else Some false
  else Some false.

Fixpoint options_loop (fuel : nat) p (ptr end_ : Z) : option (packet * Z) :=
  if negb (ptr <? end_) then Some (p, 0)
  else
    match fuel with
    | O => None
    | S fuel =>
        type ← ld8 (pkt p) ptr;
        let opt_len := opt_len_of type in
        if type =? TCP_OPT_EOL then Some (p, 0)
        else if type =? TCP_OPT_NOP then options_loop fuel p (ptr + 1) end_
        else if end_ <=? ptr + 1 then Some (LOG_BAD_PKT p, -1)
        else
          len ← ld8 (pkt p) (ptr + 1);
          if (end_ <? ptr + opt_len) || ((1 <? opt_len) && negb (len =? opt_len)) || (len <? 2)
          then Some (LOG_BAD_PKT p, -1)
          else
            bad ← empty_sack (pkt p) type len ptr;
            if (bad : bool) then Some (LOG_BAD_PKT p, -1)
            else p ← tcp_option p type ptr; options_loop fuel p (ptr + len) end_
    end.

Definition dpi_parse_tcp_options p : option (packet * Z) :=
  b12 ← ld8 (pkt p) (l4 p + 12);
  options_loop (Z.to_nat (get_tcph_len b12)) p (l4 p + tcp_hdr) (l4 p + get_tcph_len b12).

(** Options, then the tests on the timestamp and the segment size. *)
Definition parse_options p (th_flags : Z) : option (packet * Z) :=
  '(p, r) ← dpi_parse_tcp_options p;
  if r <? 0 then Some (p, -1)
  else if FLAGS_TEST (flags p) DPI_PKT_FLAG_TCP_TS && (tcp_ts_value p =? 0) && (tcp_ts_echo p =? 0) &&
          FLAGS_TEST th_flags TH_ACK && negb (FLAGS_TEST th_flags TH_SYN)
  then Some (LOG_BAD_PKT p, -1)
  else if (0 <? tcp_mss p) && (tcp_mss p <? DPI_MIN_TCP_MSS)
  then Some (dpi_threat_trigger tc DPI_THRT_TCP_SMALL_MSS p, 0)
  else Some (p, 0).

Definition dpi_parse_tcp p : option (packet * Z) :=
  let tcp_len := u16 (len p - l4 p) in
  if tcp_len <? tcp_hdr then Some (LOG_BAD_PKT p, -1)
  else
    b12 ← ld8 (pkt p) (l4 p + 12);
    let tcph_len := get_tcph_len b12 in
    if (tcph_len <? tcp_hdr) || (tcp_len <? tcph_len) then Some (LOG_BAD_PKT p, -1)
    else
      th_flags ← ld8 (pkt p) (l4 p + 13);
      bad ← Bits.BITMASK_TEST tcp_bad_flag_mask (Z.land th_flags TCP_FLAG_MASK);
      if (bad : bool) then Some (LOG_BAD_PKT p, -1)
      else
        p ← fix_l4_cksum p IPPROTO_TCP 16 tcp_len;
        '(p, r) ← (if tcp_hdr <? tcph_len then parse_options p th_flags else Some (p, 0));
        if r <? 0 then Some (p, -1)
        else
          s ← ld16 (pkt p) (l4 p); d ← ld16 (pkt p) (l4 p + 2); q ← ld32 (pkt p) (l4 p + 4);
          Some (p <| sport := ntohs s |> <| dport := ntohs d |> <| raw_ptr := l4 p + tcph_len |>
                  <| raw_len := u32 (len p - l4 p - tcph_len) |> <| raw_seq := ntohl q |>, 0).

Definition dpi_parse_ipv4_hdr p : option (packet * Z) :=
  let ip_caplen := u16 (cap_len p - ETH_HLEN) in
  if ip_caplen <? ip4_hdr then Some (LOG_BAD_PKT p, -1)
  else
    b0 ← ld8 (pkt p) ETH_HLEN;
    if negb (Z.shiftr b0 4 =? 4) then Some (LOG_BAD_PKT p, -1)
    else
      tot ← ld16 (pkt p) (ETH_HLEN + 2);
      let ip_len := ntohs tot in
      let iph_len := get_iph_len b0 in
      if (iph_len <? ip4_hdr) || (ip_len <? iph_len) || (ip_caplen <? ip_len) then Some (LOG_BAD_PKT p, -1)
      else
        let p := p <| len := u16 (ip_len + ETH_HLEN) |> <| l4 := u16 (l3 p + iph_len) |> in
        if cksum then
          '(m, pkt_cksum, ck) ← check_field (pkt p) (ETH_HLEN + 10) (fun m => get_ip_cksum m ETH_HLEN);
          Some (p <| pkt := m |>, if negb (pkt_cksum =? ck) then -1 else 0)
        else Some (p, 0).

(** What follows no known transport header. *)
Definition raw_payload p : packet :=
  p <| raw_ptr := l4 p |> <| raw_len := u32 (len p - l4 p) |> <| raw_seq := 0 |>.

(** [iph] is taken before reassembly: the protocol is that of the fragment at hand. *)
Definition dpi_parse_ipv4 w c p : option (thread T * counters * packet * Z) :=
  '(p, r) ← dpi_parse_ipv4_hdr p;
  if r <? 0 then Some (w, c, p, -1)
  else
    fo ← ld16 (pkt p) (l3 p + 6);
    proto ← ld8 (pkt p) (l3 p + 9);
    '(w, p, r) ← (if FLAGS_TEST (ntohs fo) (Z.lor IP_OFFMASK IP_MF) then dpi_ip_defrag tc w p else Some (w, p, 0));
    if r <? 0 then Some (w, c, p, -1)
    else
      let p := p <| ip_proto := proto |> in
      if proto =? IPPROTO_TCP then '(p, r) ← dpi_parse_tcp p; Some (w, c <| tcp_pkts ::= inc |>, p, r)
      else if proto =? IPPROTO_UDP then '(p, r) ← dpi_parse_udp p; Some (w, c <| udp_pkts ::= inc |>, p, r)
      else if proto =? IPPROTO_ICMP then '(p, r) ← dpi_parse_icmp p; Some (w, c <| icmp_pkts ::= inc |>, p, r)
      else Some (w, c <| other_pkts ::= inc |>, raw_payload p, 0).

(** The length of an extension header: [None] ends the chain, [Some (-1)] refuses it. *)
Definition ext_length m (type ptr end_ : Z) (hopopts : bool) : option (option Z) :=
  if type =? IPPROTO_FRAGMENT then Some (Some 8)
  else if type =? IPPROTO_AH then
    if end_ <=? ptr + 1 then Some (Some (-1))
    else b ← ld8 m (ptr + 1); Some (Some (Z.shiftl (b + 2) 2))
  else if (type =? IPPROTO_HOPOPTS) && hopopts then Some (Some (-1))
  else if (type =? IPPROTO_HOPOPTS) || (type =? IPPROTO_ROUTING) || (type =? IPPROTO_DSTOPTS) then
    if end_ <=? ptr + 1 then Some (Some (-1))
    else b ← ld8 m (ptr + 1); Some (Some (Z.shiftl (b + 1) 3))
  else Some None.

(** Packet, return value (offset of the transport header from ip6h, or -1), protocol. *)
Fixpoint ext_loop (fuel : nat) p (ptr end_ type : Z) (hopopts : bool) : option (packet * Z * Z) :=
  if negb (ptr <? end_) then Some (p, -1, 0)
  else
    match fuel with
    | O => None
    | S fuel =>
        e ← ext_length (pkt p) type ptr end_ hopopts;
        match e with
        | None => Some (p, ptr - l3 p, type)
        | Some ext_len =>
            let p := if (type =? IPPROTO_FRAGMENT) && (ip6_fragh p =? NULL) then p <| ip6_fragh := ptr |> else p in
            if ext_len <=? 2 then Some (p, -1, 0)
            else
              next ← ld8 (pkt p) ptr;
              ext_loop fuel p (ptr + ext_len) end_ next (hopopts || (type =? IPPROTO_HOPOPTS))
        end
    end.

Definition dpi_parse_ipv6_ext p : option (packet * Z * Z) :=
  type ← ld8 (pkt p) (l3 p + 6);
  ext_loop (Z.to_nat (len p)) p (l3 p + ip6_hdr) (len p) type false.

Definition dpi_parse_ipv6_hdr p : option (packet * Z * Z) :=
  let ip6_caplen := u16 (cap_len p - ETH_HLEN) in
  if ip6_caplen <? ip6_hdr then Some (LOG_BAD_PKT p, 0, -1)
  else
    plen ← ld16 (pkt p) (ETH_HLEN + 4);
    let ip6_len := u16 (ntohs plen + ip6_hdr) in
    if ip6_caplen <? ip6_len then Some (LOG_BAD_PKT p, 0, -1)
    else
      let p := p <| len := u16 (ip6_len + ETH_HLEN) |> in
      '(p, offset, protocol) ← dpi_parse_ipv6_ext p;
      if offset <? 0 then Some (LOG_BAD_PKT p, 0, -1)
      else Some (p <| l4 := u16 (l3 p + offset) |>, protocol, 0).

Context (dpi_ipv6_defrag : thread T -> packet -> option (thread T * packet * Z)).

Definition dpi_parse_ipv6 w c p : option (thread T * counters * packet * Z) :=
  '(p, protocol, r) ← dpi_parse_ipv6_hdr p;
  if r <? 0 then Some (w, c, p, -1)
  else
    '(w, p, r) ← (if negb (ip6_fragh p =? NULL) then dpi_ipv6_defrag w p else Some (w, p, 0));
    if r <? 0 then Some (w, c, p, -1)
    else
      let p := p <| ip_proto := protocol |> in
      if protocol =? IPPROTO_TCP then '(p, r) ← dpi_parse_tcp p; Some (w, c <| tcp_pkts ::= inc |>, p, r)
      else if protocol =? IPPROTO_UDP then '(p, r) ← dpi_parse_udp p; Some (w, c <| udp_pkts ::= inc |>, p, r)
      else if (protocol =? IPPROTO_ICMP) || (protocol =? IPPROTO_ICMPV6)
      then '(p, r) ← dpi_parse_icmpv6 p; Some (w, c <| icmp_pkts ::= inc |>, p, r)
      else Some (w, c <| other_pkts ::= inc |>, raw_payload p, 0).

Definition dpi_parse_packet w c p : option (thread T * counters * packet * Z) :=
  if cap_len p <? ETH_HLEN then Some (w, c, LOG_BAD_PKT p, -1)
  else
    let p := p <| l2 := 0 |> <| l3 := ETH_HLEN |> <| len := cap_len p |> in
    h_proto ← ld16 (pkt p) (l2 p + 12);
    let p := p <| eth_type := ntohs h_proto |> in
    if eth_type p =? ETH_P_IP then dpi_parse_ipv4 w (c <| ipv4_pkts ::= inc |>) p
    else if eth_type p =? ETH_P_IPV6 then dpi_parse_ipv6 w (c <| ipv6_pkts ::= inc |>) p
    else Some (w, c, p, 0).

Definition dpi_parse_ethernet w c p : option (thread T * counters * packet * Z) :=
  let c := c <| pkt_id ::= inc |> in
  '(w, c, p, r) ← dpi_parse_packet w c p;
  if r <? 0 then
    let p := dpi_set_action p DPI_ACTION_DROP in
    Some (w, c <| err_pkts ::= inc |>, p, action p)
  else Some (w, c, p, DPI_ACTION_NONE).
End parse.

(** [tap] is p->ep->tap. *)
Definition dpi_is_action_final (tap : bool) (act : Z) : bool :=
  if act =? DPI_ACTION_BYPASS then true
  else if tap then false
  else DPI_ACTION_ALLOW <? act.

(** ** Memory of the frame *)

Lemma sum_words_ok m o n s : bytes m -> holds m o (2 * Z.of_nat n) -> exists t, sum_words m o n s = Some t.
Proof.
  intros Hb. revert o s. induction n as [|n IH]; intros o s [? ?]; [by eexists|].
  cbn [sum_words]. destruct (ld16_ok m o Hb) as (v & -> & _); [split; lia|]. apply IH. split; lia.
Qed.

(** The segment [o, o + n), and the byte behind it when its length is odd. *)
Definition segment (m : list Z) (o n : Z) : Prop := holds m o n /\ (n mod 2 = 1 -> holds m o (n + 1)).

Lemma get_l4_cksum_ok s m l4_hdr l4_len : bytes m -> 0 <= l4_len -> segment m l4_hdr l4_len ->
  exists ck, get_l4_cksum s m l4_hdr l4_len = Some ck /\ is_u16 ck.
Proof.
  intros Hb Hl [[? ?] Hodd]. unfold get_l4_cksum. rewrite Z.shiftr_div_pow2 by lia. change (2 ^ 1) with 2.
  pose proof (Z.div_mod l4_len 2). pose proof (Z.mod_pos_bound l4_len 2).
  destruct (sum_words_ok m l4_hdr (Z.to_nat (l4_len / 2)) s Hb) as [t ->]; [split; lia|]. cbn [mbind option_bind].
  change 1 with (Z.ones 1) at 1. rewrite Z.land_ones by lia. change (2 ^ 1) with 2.
  destruct (l4_len mod 2 =? 0) eqn:E; cbn [mbind option_bind]; [eexists; split; [done|apply u16_range]|].
  apply Z.eqb_neq in E. destruct Hodd as [_ ?]; [lia|].
  destruct (ld16_ok m (l4_hdr + 2 * (l4_len / 2)) Hb) as (v & -> & _); [split; lia|].
  cbn [mbind option_bind]. eexists. split; [done|apply u16_range].
Qed.

Lemma get_l4v4_cksum_ok m iph l4_hdr l4_len : bytes m -> 0 <= l4_len -> segment m l4_hdr l4_len ->
  (forall i, iph = Some i -> holds m i 20) -> exists ck, get_l4v4_cksum m iph l4_hdr l4_len = Some ck /\ is_u16 ck.
Proof.
  intros Hb Hl Hh Hi. unfold get_l4v4_cksum. destruct iph as [i|]; cbn [mbind option_bind]; [|by apply get_l4_cksum_ok].
  destruct (Hi i eq_refl). destruct (sum_words_ok m (i + 12) 4 0 Hb) as [t ->]; [split; lia|]. cbn [mbind option_bind].
  destruct (ld8_ok m (i + 9) Hb) as (v & -> & _); [split; lia|]. by apply get_l4_cksum_ok.
Qed.

Lemma get_l4v6_cksum_ok m ip6h proto l4_hdr l4_len : bytes m -> 0 <= l4_len -> segment m l4_hdr l4_len ->
  holds m ip6h 40 -> exists ck, get_l4v6_cksum m ip6h proto l4_hdr l4_len = Some ck /\ is_u16 ck.
Proof.
  intros Hb Hl Hh [? ?]. unfold get_l4v6_cksum.
  destruct (sum_words_ok m (ip6h + 8) 16 0 Hb) as [t ->]; [split; lia|]. by apply get_l4_cksum_ok.
Qed.

(** Storing what was there gives back the memory. *)
Lemma st16_back m o v : bytes m -> ld16 m o = Some v ->
  forall u, exists m0, st16 m o u = Some m0 /\ st16 m0 o v = Some m.
Proof.
  unfold ld16, ld8. intros Hb Hv u.
  destruct (Z.ltb_spec o 0); [done|]. rewrite (proj2 (Z.ltb_ge (o + 1) 0)) in Hv by lia.
  destruct (m !! Z.to_nat o) as [a|] eqn:Ea; [|done]. cbn [mbind option_bind] in Hv.
  destruct (m !! Z.to_nat (o + 1)) as [b|] eqn:Eb; [|done]. injection Hv as <-.
  pose proof (lookup_lt_Some _ _ _ Eb) as Hlt. unfold bytes in Hb. rewrite Forall_lookup in Hb.
  pose proof (Hb _ _ Ea) as Ha'. pose proof (Hb _ _ Eb) as Hb'. unfold is_u8 in *.
  assert (St : forall mm x, length mm = length m ->
    st16 mm o x = Some (<[Z.to_nat (o + 1) := (x / 256) mod 256]> (<[Z.to_nat o := x mod 256]> mm))).
  { intros mm x L. unfold st16, st8. rewrite L, (proj2 (Z.leb_le 0 o)), (proj2 (Z.ltb_lt o _)) by lia.
    cbn [andb mbind option_bind]. rewrite length_insert, L, (proj2 (Z.leb_le 0 (o + 1))), (proj2 (Z.ltb_lt (o + 1) _)) by lia.
    done. }
  eexists. split; [by apply St|]. rewrite St by (by rewrite !length_insert). f_equal.
  replace ((a + 256 * b) mod 256) with a by (rewrite (Z.mul_comm 256), Z.mod_add, Z.mod_small; lia).
  replace ((a + 256 * b) / 256) with b by (rewrite (Z.mul_comm 256), Z.div_add, Z.div_small; lia).
  rewrite (Z.mod_small b) by lia.
  apply list_eq. intros i. destruct (decide (i = Z.to_nat (o + 1))) as [->|].
  - rewrite list_lookup_insert_eq; [by rewrite Eb|rewrite !length_insert; lia].
  - rewrite list_lookup_insert_ne by lia. destruct (decide (i = Z.to_nat o)) as [->|].
    + rewrite list_lookup_insert_eq; [by rewrite Ea|rewrite !length_insert; lia].
    + by rewrite !list_lookup_insert_ne by lia.
Qed.

(** The check field is back after the computation. *)
Lemma check_field_ok m o f : bytes m -> holds m o 2 ->
  (forall m', bytes m' -> length m' = length m -> (forall i, i <> o -> i <> o + 1 -> ld8 m' i = ld8 m i) ->
     exists ck, f m' = Some ck /\ is_u16 ck) ->
  exists pc ck, check_field m o f = Some (m, pc, ck) /\ is_u16 ck.
Proof.
  intros Hb Hh Hf. unfold check_field. destruct (ld16_ok m o Hb Hh) as (v & Hv & Uv). rewrite Hv. cbn [mbind option_bind].
  destruct (st16_back m o v Hb Hv 0) as (m0 & E0 & E1).
  destruct (st16_ok m o 0 Hh Hb) as (m0' & E0' & L0 & B0 & _ & F0); [unfold is_u16; lia|].
  rewrite E0 in E0'. injection E0' as <-. rewrite E0. cbn [mbind option_bind].
  destruct (Hf m0 B0 L0 F0) as (ck & -> & Uc). cbn [mbind option_bind]. rewrite E1. cbn [mbind option_bind]. by eexists _, _.
Qed.

(** ** What the parsers leave as it was *)

Section safe.
Context (tc : Z -> threat_conf) (cksum : bool).
Implicit Types (p : packet) (m : list Z).

(** Offsets and lengths stay, the memory has its size, and without checksum checking
    not a byte of it changes. *)
Record kept p p' : Prop := {
  ke_offs : l3 p' = l3 p /\ l4 p' = l4 p /\ len p' = len p /\ cap_len p' = cap_len p;
  ke_eth : eth_type p' = eth_type p;
  ke_frag : frag_trac p' = frag_trac p /\ defrag_data p' = defrag_data p;
  ke_mem : length (pkt p') = length (pkt p) /\ bytes (pkt p');
  ke_pkt : cksum = false -> pkt p' = pkt p
}.

Lemma keeps_refl p : bytes (pkt p) -> kept p p.
Proof. by constructor. Qed.

Lemma keeps_trans p p' p'' : kept p p' -> kept p' p'' -> kept p p''.
Proof.
  intros [(A1 & A2 & A3 & A4) B [C1 C2] [D1 D2] E] [(A1' & A2' & A3' & A4') B' [C1' C2'] [D1' D2'] E'].
  constructor; [split_and!; congruence|congruence|split; congruence|split; [congruence|done]|].
  intros H. rewrite E', E; done.
Qed.

Lemma threat_kept idx p : bytes (pkt p) -> kept p (dpi_threat_trigger tc idx p).
Proof.
  intros Hb. destruct (threat_same tc idx p) as (E1 & E2 & E3 & E4 & E5 & E6 & _ & E8 & E9).
  constructor; [by split_and!|done|done|by rewrite E1|done].
Qed.

(** The part of the memory the transport parsers look at: both headers, the packet, one
    byte more for the checksum of an odd length and two for a TCP option at its end. *)
Record l4_mem p : Prop := {
  lm_bytes : bytes (pkt p);
  lm_l3 : holds (pkt p) (l3 p) (if dpi_is_ipv4 p then ip4_hdr else ip6_hdr);
  lm_seg : segment (pkt p) (l4 p) (u16 (len p - l4 p));
  lm_opt : l4 p + Z.min 60 (u16 (len p - l4 p)) + 2 <= Z.of_nat (length (pkt p))
}.

Lemma lm_l4 p : l4_mem p -> holds (pkt p) (l4 p) (u16 (len p - l4 p)).
Proof. intros M. apply M. Qed.

Lemma seg_len m m' o n : length m' = length m -> segment m o n -> segment m' o n.
Proof. unfold segment, holds. by intros ->. Qed.

Lemma kept_mem p p' : kept p p' -> l4_mem p -> l4_mem p'.
Proof.
  intros [(A1 & A2 & A3 & A4) B _ [D1 D2] _] [L1 L2 L3 L4]. unfold dpi_is_ipv4, segment, holds in *.
  constructor; unfold dpi_is_ipv4, segment, holds; rewrite ?A1, ?A2, ?A3, ?B, ?D1; done.
Qed.

(** The outcome of a parser: a return value, the packet kept, and for a packet whose
    header is in place the payload from behind it to the end. *)
Definition parsed p (r : option (packet * Z)) : Prop :=
  exists p' v, r = Some (p', v) /\ (v = 0 \/ v = -1) /\ kept p p' /\
    (v = 0 -> l4 p <= len p < 2 ^ 16 -> l4 p <= raw_ptr p' /\ 0 <= raw_len p' /\ raw_ptr p' + raw_len p' = len p).

Lemma parsed_bad p : bytes (pkt p) -> parsed p (Some (LOG_BAD_PKT tc p, -1)).
Proof. intros Hb. eexists _, _. split; [done|]. split_and!; [by right|by apply threat_kept|done]. Qed.

(** Storing a checksum keeps the packet. *)
Lemma fix_kept p o ck pc : l4_mem p -> holds (pkt p) o 2 -> is_u16 ck -> cksum = true ->
  exists m', (if negb (pc =? ck) then st16 (pkt p) o ck else Some (pkt p)) = Some m' /\ kept p (p <| pkt := m' |>) /\
    forall i, i <> o -> i <> o + 1 -> ld8 m' i = ld8 (pkt p) i.
Proof.
  intros M Hh Hc Hk. destruct (negb _).
  - destruct (st16_ok (pkt p) o ck Hh (lm_bytes _ M) Hc) as (m' & -> & Lm & Bm & _ & Fm). exists m'.
    split_and!; [done| |done]. constructor; try done. by rewrite Hk.
  - exists (pkt p). split_and!; [done| |done]. constructor; try done. split; [done|apply M].
Qed.

Lemma fix_l4_ok p proto o l4_len : l4_mem p -> l4_len = u16 (len p - l4 p) -> 0 <= o -> o + 2 <= l4_len ->
  exists p', fix_l4_cksum cksum p proto o l4_len = Some p' /\ kept p p' /\
    forall i, i <> l4 p + o -> i <> l4 p + o + 1 -> ld8 (pkt p') i = ld8 (pkt p) i.
Proof.
  intros M -> Ho Hl. unfold fix_l4_cksum. destruct cksum eqn:Ek; [|exists p; split_and!; [done|apply keeps_refl, M|done]].
  pose proof (lm_l4 _ M) as [? ?]. pose proof (u16_range (len p - l4 p)) as [? _].
  assert (Hh : holds (pkt p) (l4 p + o) 2) by (split; lia).
  match goal with |- context [check_field _ _ ?f] =>
    destruct (check_field_ok (pkt p) (l4 p + o) f (lm_bytes _ M) Hh) as (pc & ck & -> & Uc) end.
  { intros m' Bm Lm Fm. pose proof (lm_l3 _ M) as H3. destruct (dpi_is_ipv4 p).
    - apply get_l4v4_cksum_ok; [done|lia|by eapply seg_len, M|]. intros i [= <-]. destruct H3. unfold ip4_hdr in *. split; lia.
    - destruct H3. unfold ip6_hdr in *. apply get_l4v6_cksum_ok; [done|lia|by eapply seg_len, M|split; lia]. }
  cbn [mbind option_bind]. destruct (fix_kept p (l4 p + o) ck pc M Hh Uc Ek) as (m' & -> & K & Fm).
  cbn [mbind option_bind]. by eexists.
Qed.

(** A packet whose payload is behind a header of [h] bytes. *)
Lemma parsed_payload p p1 p2 h : l4_mem p -> kept p p1 -> kept p1 p2 -> 0 <= h <= u16 (len p - l4 p) ->
  raw_ptr p2 = l4 p1 + h -> raw_len p2 = u32 (len p1 - l4 p1 - h) -> parsed p (Some (p2, 0)).
Proof.
  intros M K1 K2 Hh Er El. eexists _, _. split; [done|]. split_and!; [by left|by eapply keeps_trans|].
  intros _ Hl. destruct (lm_l4 _ M) as [? _]. rewrite Er, El. destruct K1 as [(_ & A2 & A3 & _) _ _ _ _]. rewrite A2, A3.
  rewrite u16_id in Hh by (unfold is_u16; lia). rewrite u32_id by (unfold is_u32; lia). lia.
Qed.

Lemma parse_udp_ok p : l4_mem p -> parsed p (dpi_parse_udp tc cksum p).
Proof.
  intros M. unfold dpi_parse_udp. destruct (Z.ltb_spec (u16 (len p - l4 p)) udp_hdr) as [|Hl]; [by apply parsed_bad, M|].
  unfold udp_hdr in *. destruct (fix_l4_ok p IPPROTO_UDP 6 _ M eq_refl) as (p1 & -> & K & _); [lia|lia|]. cbn [mbind option_bind].
  pose proof (kept_mem _ _ K M) as M1. pose proof (lm_l4 _ M1) as [? ?].
  pose proof (ke_offs _ _ K) as (A1 & A2 & A3 & A4). rewrite <- A2, <- A3 in Hl.
  destruct (ld16_ok (pkt p1) (l4 p1) (lm_bytes _ M1)) as (s & -> & _); [split; lia|].
  destruct (ld16_ok (pkt p1) (l4 p1 + 2) (lm_bytes _ M1)) as (d & -> & _); [split; lia|]. cbn [mbind option_bind].
  rewrite A2, A3 in Hl. eapply parsed_payload with (h := 8); [done|exact K| |lia|done|done].
  constructor; try done. split; [done|apply M1].
Qed.

Lemma parse_icmp_ok p : l4_mem p -> parsed p (dpi_parse_icmp tc cksum p).
Proof.
  intros M. unfold dpi_parse_icmp. destruct (Z.ltb_spec (u16 (len p - l4 p)) icmp_hdr) as [|Hl]; [by apply parsed_bad, M|].
  unfold icmp_hdr in *. pose proof (lm_l4 _ M) as [? ?].
  match goal with |- parsed p (mbind _ ?e) => assert (Hfix : exists p1, e = Some p1 /\ kept p p1) end.
  { destruct cksum eqn:Ek; [|exists p; split; [done|apply keeps_refl, M]].
    assert (Hh : holds (pkt p) (l4 p + 2) 2) by (split; lia).
    match goal with |- context [check_field _ _ ?f] =>
      destruct (check_field_ok (pkt p) (l4 p + 2) f (lm_bytes _ M) Hh) as (pc & ck & -> & Uc) end.
    { intros m' Bm Lm Fm. apply get_l4v4_cksum_ok; [done|lia|by eapply seg_len, M|done]. }
    cbn [mbind option_bind]. destruct (fix_kept p (l4 p + 2) ck pc M Hh Uc Ek) as (m' & -> & K & _).
    cbn [mbind option_bind]. by eexists. }
  destruct Hfix as (p1 & -> & K). cbn [mbind option_bind].
  pose proof (kept_mem _ _ K M) as M1. pose proof (ke_offs _ _ K) as (A1 & A2 & A3 & A4). destruct (ke_mem _ _ K) as [D _].
  rewrite A2. destruct (ld8_ok (pkt p1) (l4 p) (lm_bytes _ M1)) as (ty & -> & _); [split; lia|].
  destruct (ld8_ok (pkt p1) (l4 p + 1) (lm_bytes _ M1)) as (co & -> & _); [split; lia|].
  destruct (ld16_ok (pkt p1) (l4 p + 4) (lm_bytes _ M1)) as (d & -> & _); [split; lia|]. cbn [mbind option_bind].
  destruct (icmp_request ty); (eapply parsed_payload with (h := 8); [done|exact K| |lia|done|done]);
    (constructor; try done; split; [done|apply M1]).
Qed.

Lemma parse_icmpv6_ok p : l4_mem p -> dpi_is_ipv4 p = false -> parsed p (dpi_parse_icmpv6 tc cksum p).
Proof.
  intros M H6. unfold dpi_parse_icmpv6. destruct (Z.ltb_spec (u16 (len p - l4 p)) icmp_hdr) as [|Hl]; [by apply parsed_bad, M|].
  unfold icmp_hdr in *. pose proof (lm_l4 _ M) as [? ?].
  match goal with |- parsed p (mbind _ ?e) => assert (Hfix : exists good, e = Some (p, good)) end.
  { destruct cksum eqn:Ek; [|by eexists].
    match goal with |- context [check_field _ _ ?f] =>
      destruct (check_field_ok (pkt p) (l4 p + 2) f (lm_bytes _ M)) as (pc & ck & -> & Uc); [split; lia| |] end.
    { intros m' Bm Lm Fm. pose proof (lm_l3 _ M) as H3. rewrite H6 in H3. destruct H3. unfold ip6_hdr in *.
      apply get_l4v6_cksum_ok; [done|lia|by eapply seg_len, M|split; lia]. }
    cbn [mbind option_bind]. eexists. do 2 f_equal. by destruct p. }
  destruct Hfix as ([] & ->); cbn [mbind option_bind negb].
  2:{ eexists _, _. split; [done|]. split_and!; [by right|apply keeps_refl, M|done]. }
  destruct (ld8_ok (pkt p) (l4 p) (lm_bytes _ M)) as (ty & -> & _); [split; lia|].
  destruct (ld8_ok (pkt p) (l4 p + 1) (lm_bytes _ M)) as (co & -> & _); [split; lia|].
  destruct (ld16_ok (pkt p) (l4 p + 4) (lm_bytes _ M)) as (d & -> & _); [split; lia|]. cbn [mbind option_bind].
  destruct (ty =? ICMP6_ECHO_REPLY); (eapply parsed_payload with (h := 8); [done|apply keeps_refl, M| |lia|done|done]);
    (constructor; try done; split; [done|apply M]).
Qed.

(** *** TCP *)

Lemma opt_len_small type : 0 <= opt_len_of type.
Proof.
  unfold opt_len_of. destruct (tcp_opt_len !! Z.to_nat type) as [n|] eqn:E; [|done].
  apply list_elem_of_lookup_2 in E. simpl.
  unfold tcp_opt_len in E. repeat (apply elem_of_cons in E as [->|E]; [lia|]). by apply elem_of_nil in E.
Qed.

Lemma tcp_option_ok p type ptr : bytes (pkt p) -> 0 <= ptr -> ptr + opt_len_of type <= Z.of_nat (length (pkt p)) ->
  exists p', tcp_option p type ptr = Some p' /\ kept p p' /\ pkt p' = pkt p.
Proof.
  intros Hb Hp Hl. unfold tcp_option.
  destruct (Z.eqb_spec type TCP_OPT_MSS) as [->|].
  { change (opt_len_of TCP_OPT_MSS) with 4 in Hl. destruct (ld16_ok (pkt p) (ptr + 2) Hb) as (v & -> & _); [split; lia|]. cbn [mbind option_bind].
    eexists. split; [done|]. split; [by constructor|done]. }
  destruct (Z.eqb_spec type TCP_OPT_WSCALE) as [->|].
  { change (opt_len_of TCP_OPT_WSCALE) with 3 in Hl. destruct (ld8_ok (pkt p) (ptr + 2) Hb) as (v & -> & _); [split; lia|]. cbn [mbind option_bind].
    eexists. split; [done|]. split; [by constructor|done]. }
  destruct (Z.eqb_spec type TCP_OPT_TIMESTAMP) as [->|].
  { change (opt_len_of TCP_OPT_TIMESTAMP) with 10 in Hl. destruct (ld32_ok (pkt p) (ptr + 2) Hb) as (v & -> & _); [split; lia|].
    destruct (ld32_ok (pkt p) (ptr + 6) Hb) as (e & -> & _); [split; lia|]. cbn [mbind option_bind].
    eexists. split; [done|]. split; [by constructor|done]. }
  destruct (type =? TCP_OPT_SACKOK); (eexists; split; [done|]; split; [by constructor|done]).
Qed.

Lemma options_loop_ok fuel : forall p ptr end_, bytes (pkt p) -> 0 <= ptr -> end_ + 2 <= Z.of_nat (length (pkt p)) ->
  end_ - ptr <= Z.of_nat fuel ->
  exists p' r, options_loop tc fuel p ptr end_ = Some (p', r) /\ (r = 0 \/ r = -1) /\ kept p p'.
Proof.
  assert (Hbad : forall p, bytes (pkt p) -> exists p' r, Some (LOG_BAD_PKT tc p, -1) = Some (p', r) /\
    (r = 0 \/ r = -1) /\ kept p p').
  { intros p Hb. eexists _, _. split; [done|]. split; [by right|by apply threat_kept]. }
  induction fuel as [|fuel IH]; intros p ptr end_ Hb Hp He Hf; cbn [options_loop];
    (destruct (Z.ltb_spec ptr end_); cbn [negb]; [|exists p, 0; split_and!; [done|by left|by apply keeps_refl]]); [lia|].
  destruct (ld8_ok (pkt p) ptr Hb) as (ty & -> & Ut); [split; lia|]. cbn [mbind option_bind].
  destruct (ty =? TCP_OPT_EOL); [exists p, 0; split_and!; [done|by left|by apply keeps_refl]|].
  destruct (ty =? TCP_OPT_NOP); [apply IH; (done || lia)|].
  destruct (Z.leb_spec end_ (ptr + 1)); [by apply Hbad|].
  destruct (ld8_ok (pkt p) (ptr + 1) Hb) as (n & -> & Un); [split; lia|]. cbn [mbind option_bind].
  destruct (_ || _ || _) eqn:Et; [by apply Hbad|]. break_bool.
  all: assert (Hs : exists b, empty_sack (pkt p) ty n ptr = Some b).
  1,3: unfold empty_sack; destruct (_ && _); [|by eexists];
    destruct (ld8_ok (pkt p) (ptr + 2) Hb) as (a & -> & _); [split; lia|]; cbn [mbind option_bind];
    destruct (a =? 0); [|by eexists];
    destruct (ld8_ok (pkt p) (ptr + 3) Hb) as (b & -> & _); [split; lia|]; by eexists.
  all: destruct Hs as ([] & ->); cbn [mbind option_bind]; [by apply Hbad|].
  all: destruct (tcp_option_ok p ty ptr Hb Hp) as (p1 & -> & K & Ep); [lia|]; cbn [mbind option_bind].
  all: destruct (IH p1 (ptr + n) end_) as (p' & r & -> & Hr & K'); try (rewrite Ep); try done; try lia.
  all: exists p', r; split_and!; [done|done|by eapply keeps_trans].
Qed.

Lemma get_tcph_len_range b : is_u8 b -> 0 <= get_tcph_len b <= 60.
Proof.
  intros Hb. unfold get_tcph_len, is_u8 in *. rewrite Z.shiftl_mul_pow2, Z.shiftr_div_pow2 by lia.
  assert (0 <= b / 2 ^ 4 < 16) by (split; [apply Z.div_pos; lia|apply Z.div_lt_upper_bound; lia]).
  rewrite u16_id by (unfold is_u16; lia). lia.
Qed.

Lemma bad_flag_test f : is_u8 f -> exists b, Bits.BITMASK_TEST tcp_bad_flag_mask (Z.land f TCP_FLAG_MASK) = Some b.
Proof.
  intros Hf. unfold Bits.BITMASK_TEST, Bits.byte_get, Bits.BITMASK_ARRAY_INDEX. change TCP_FLAG_MASK with (Z.ones 6).
  rewrite Z.land_ones, Z.shiftr_div_pow2 by lia. pose proof (Z.mod_pos_bound f (2 ^ 6)).
  assert (0 <= f mod 2 ^ 6 / 2 ^ 3 < 8) by (split; [apply Z.div_pos; lia|apply Z.div_lt_upper_bound; lia]).
  rewrite (proj2 (Z.leb_le 0 _)) by lia.
  destruct (lookup_lt_is_Some_2 tcp_bad_flag_mask (Z.to_nat (f mod 2 ^ 6 / 2 ^ 3))) as [v ->]; [|by eexists].
  assert (length tcp_bad_flag_mask = 32%nat) as -> by (vm_compute; reflexivity). lia.
Qed.

Lemma parse_options_ok p f b12 : l4_mem p -> ld8 (pkt p) (l4 p + 12) = Some b12 -> is_u8 b12 ->
  get_tcph_len b12 <= u16 (len p - l4 p) ->
  exists p' r, parse_options tc p f = Some (p', r) /\ (r = 0 \/ r = -1) /\ kept p p'.
Proof.
  intros M Hb U Hl. unfold parse_options, dpi_parse_tcp_options. rewrite Hb. cbn [mbind option_bind].
  pose proof (get_tcph_len_range b12 U). pose proof (lm_l4 _ M) as [? ?]. pose proof (lm_opt _ M).
  destruct (options_loop_ok (Z.to_nat (get_tcph_len b12)) p (l4 p + tcp_hdr) (l4 p + get_tcph_len b12) (lm_bytes _ M))
    as (p1 & r & -> & Hr & K); unfold tcp_hdr; try lia. cbn [mbind option_bind].
  destruct (r <? 0); [exists p1, (-1); split_and!; [done|by right|done]|].
  pose proof (ke_mem _ _ K) as [_ Hb1].
  destruct (_ && _ && _ && _ && _); [eexists _, (-1); split_and!; [done|by right|eapply keeps_trans; [done|by apply threat_kept]]|].
  destruct (_ && _); [eexists _, 0; split_and!; [done|by left|eapply keeps_trans; [done|by apply threat_kept]]|].
  exists p1, 0. split_and!; [done|by left|done].
Qed.

Lemma parse_tcp_ok p : l4_mem p -> parsed p (dpi_parse_tcp tc cksum p).
Proof.
  intros M. unfold dpi_parse_tcp. destruct (Z.ltb_spec (u16 (len p - l4 p)) tcp_hdr) as [|Hl]; [by apply parsed_bad, M|].
  unfold tcp_hdr in *. pose proof (lm_l4 _ M) as [? ?].
  destruct (ld8_ok (pkt p) (l4 p + 12) (lm_bytes _ M)) as (b12 & Eb & Ub); [split; lia|]. rewrite Eb. cbn [mbind option_bind].
  destruct (_ || _) eqn:Eh; [by apply parsed_bad, M|]. apply orb_false_iff in Eh as [Eh1%Z.ltb_ge Eh2%Z.ltb_ge].
  destruct (ld8_ok (pkt p) (l4 p + 13) (lm_bytes _ M)) as (f & -> & Uf); [split; lia|]. cbn [mbind option_bind].
  destruct (bad_flag_test f Uf) as ([] & ->); cbn [mbind option_bind]; [by apply parsed_bad, M|].
  destruct (fix_l4_ok p IPPROTO_TCP 16 _ M eq_refl) as (p1 & E1 & K & F1); [lia|lia|]. rewrite E1. cbn [mbind option_bind].
  pose proof (kept_mem _ _ K M) as M1. pose proof (ke_offs _ _ K) as (A1 & A2 & A3 & A4).
  assert (Hopt : exists p2 r, (if 20 <? get_tcph_len b12 then parse_options tc p1 f else Some (p1, 0)) = Some (p2, r) /\
    (r = 0 \/ r = -1) /\ kept p1 p2).
  { destruct (20 <? _); [|exists p1, 0; split_and!; [done|by left|apply keeps_refl, M1]].
    apply (parse_options_ok p1 f b12); try done; [rewrite A2, F1 by lia; done|]. rewrite A2, A3. lia. }
  destruct Hopt as (p2 & r & -> & Hr & K2). cbn [mbind option_bind].
  destruct (Z.ltb_spec r 0).
  { eexists _, _. split; [done|]. split_and!; [by right|by eapply keeps_trans|done]. }
  pose proof (kept_mem _ _ K2 M1) as M2. pose proof (ke_offs _ _ K2) as (C1 & C2 & C3 & C4). pose proof (lm_l4 _ M2) as [? ?].
  assert (u16 (len p2 - l4 p2) = u16 (len p - l4 p)) as Hu by congruence.
  destruct (ld16_ok (pkt p2) (l4 p2) (lm_bytes _ M2)) as (s & -> & _); [split; lia|].
  destruct (ld16_ok (pkt p2) (l4 p2 + 2) (lm_bytes _ M2)) as (d & -> & _); [split; lia|].
  destruct (ld32_ok (pkt p2) (l4 p2 + 4) (lm_bytes _ M2)) as (q & -> & _); [split; lia|]. cbn [mbind option_bind].
  eapply parsed_payload with (p1 := p2) (h := get_tcph_len b12); [done|by eapply keeps_trans| |lia|done|done].
  constructor; try done. split; [done|apply M2].
Qed.

(** *** The IPv4 header *)

(** A frame as it is captured: [cap_len] bytes in a buffer with room for two more, and
    the buffer of the thread for reassembly. *)
Record captured p : Prop := {
  fr_bytes : bytes (pkt p);
  fr_cap : 0 <= cap_len p < 2 ^ 16 /\ cap_len p + 2 <= Z.of_nat (length (pkt p));
  fr_data : bytes (defrag_data p) /\ Z.of_nat (length (defrag_data p)) = DPI_MAX_PKT_LEN
}.

(** Past its Ethernet header. *)
Definition frame p : Prop := captured p /\ l3 p = ETH_HLEN /\ ETH_HLEN <= cap_len p.

Lemma get_iph_len_range b : 0 <= get_iph_len b <= 60 /\ get_iph_len b mod 4 = 0.
Proof.
  unfold get_iph_len. change 15 with (Z.ones 4). rewrite Z.land_ones, Z.shiftl_mul_pow2 by lia.
  pose proof (Z.mod_pos_bound b (2 ^ 4)). rewrite u16_id by (unfold is_u16; lia).
  split; [lia|]. change (2 ^ 2) with 4. by apply Z.mod_mul.
Qed.

(** The header leaves the frame in place; when it is accepted the packet is one that
    reassembly and the transport parsers can take. *)
Record headed p p' : Prop := {
  hd_frame : frame p';
  hd_eth : eth_type p' = eth_type p /\ cap_len p' = cap_len p /\ ip6_fragh p' = ip6_fragh p;
  hd_pkt : cksum = false -> pkt p' = pkt p
}.

Lemma bad_headed p : frame p -> headed p (LOG_BAD_PKT tc p).
Proof.
  intros F. destruct (threat_same tc DPI_THRT_BAD_PACKET p) as (E1 & E2 & E3 & E4 & E5 & E6 & _ & E8 & E9).
  fold (LOG_BAD_PKT tc p) in *. destruct F as ([F1 F2 F3] & F4 & F5).
  constructor; [split_and!; [constructor; rewrite ?E1, ?E4, ?E6; done|congruence|congruence]| |done].
  split_and!; [done|done|]. unfold LOG_BAD_PKT, dpi_threat_trigger, dpi_set_action.
  destruct (negb _); [done|]. by destruct (_ && _), (_ <? _).
Qed.

Lemma parse_ipv4_hdr_ok p : frame p ->
  exists p' r, dpi_parse_ipv4_hdr tc cksum p = Some (p', r) /\ (r = 0 \/ r = -1) /\ headed p p' /\
    (r = 0 -> pwf p' /\ l4 p' <= 74 /\ l4 p' mod 2 = 0).
Proof.
  intros F. pose proof F as ([Fb [Fc Fl] Fd] & F3 & Fe). unfold dpi_parse_ipv4_hdr. unfold ETH_HLEN, ip4_hdr in *.
  assert (Hbad : exists p' r, Some (LOG_BAD_PKT tc p, -1) = Some (p', r) /\ (r = 0 \/ r = -1) /\ headed p p' /\
    (r = 0 -> pwf p' /\ l4 p' <= 74 /\ l4 p' mod 2 = 0)).
  { eexists _, _. split; [done|]. split_and!; [by right|by apply bad_headed|done]. }
  destruct (Z.ltb_spec (u16 (cap_len p - 14)) 20) as [|Hc]; [done|].
  rewrite u16_id in * by (unfold is_u16; lia).
  destruct (ld8_ok (pkt p) 14 Fb) as (b0 & E0 & U0); [split; lia|]. rewrite E0. cbn [mbind option_bind].
  destruct (negb _); [done|].
  destruct (ld16_ok (pkt p) (14 + 2) Fb) as (tot & -> & _); [split; lia|]. cbn [mbind option_bind].
  pose proof (htons_range tot) as [Ht _]. fold (ntohs tot) in Ht.
  destruct (_ || _ || _) eqn:Eh; [done|]. apply orb_false_iff in Eh as [[H1%Z.ltb_ge H2%Z.ltb_ge]%orb_false_iff H3%Z.ltb_ge].
  destruct (get_iph_len_range b0) as [Hi Hm].
  set (p1 := p <| len := _ |> <| l4 := _ |>).
  assert (P1 : frame p1) by (split_and!; [by constructor|done|done]).
  assert (L1 : len p1 = ntohs tot + 14) by (apply u16_id; unfold is_u16; lia).
  assert (L4 : l4 p1 = 14 + get_iph_len b0) by (cbn [l4 set p1]; rewrite F3; apply u16_id; unfold is_u16; lia).
  assert (W : pwf p1).
  { constructor; [done|rewrite (proj1 (proj2 P1)); done|rewrite L1, L4; cbn [l3 p1 set]; lia| | |done].
    - rewrite L1. cbn [cap_len pkt p1 set]. lia.
    - exists b0. rewrite L4. cbn [pkt l3 p1 set]. rewrite F3. split; [done|lia]. }
  assert (Hpar : l4 p1 mod 2 = 0).
  { rewrite L4. replace (14 + get_iph_len b0) with ((7 + 2 * (get_iph_len b0 / 4)) * 2) by (pose proof (Z.div_mod (get_iph_len b0) 4); lia).
    by apply Z.mod_mul. }
  destruct cksum eqn:Ek; [|exists p1, 0; split_and!; [done|by left|by constructor|intros _; split_and!; [done|lia|done]]].
  destruct (check_field_ok (pkt p1) (14 + 10) (fun m => get_ip_cksum m 14) Fb) as (pc & ck & -> & _).
  { cbn [pkt p1 set]. split; lia. }
  { intros m' Bm Lm Fm. cbn [pkt p1 set] in Lm. unfold get_ip_cksum.
    rewrite Fm by lia. cbn [pkt p1 set]. rewrite E0. cbn [mbind option_bind].
    destruct (sum_words_ok m' 14 (Z.to_nat (Z.shiftr (get_iph_len b0) 1)) 0 Bm) as [t ->].
    { rewrite Z.shiftr_div_pow2 by lia. change (2 ^ 1) with 2. pose proof (Z.div_mod (get_iph_len b0) 2).
      pose proof (Z.mod_pos_bound (get_iph_len b0) 2). split; lia. }
    cbn [mbind option_bind]. eexists. split; [done|apply u16_range]. }
  cbn [mbind option_bind]. replace (p1 <| pkt := pkt p1 |>) with p1 by (by destruct p1).
  exists p1. destruct (negb _); [exists (-1)|exists 0]; (split_and!; [done|auto|by constructor|intros ?]); [done|split_and!; [done|lia|done]].
Qed.

(** *** From the network to the transport layer *)

(** The headers are in the packet and in order. *)
Definition in_order (hdr : Z) p : Prop :=
  l3 p = ETH_HLEN /\ l3 p + hdr <= l4 p <= len p /\ len p <= cap_len p < 2 ^ 16 /\ cap_len p <= Z.of_nat (length (pkt p)).

(** And the payload is what follows them. *)
Definition located (hdr : Z) p : Prop :=
  in_order hdr p /\ l4 p <= raw_ptr p /\ 0 <= raw_len p /\ raw_ptr p + raw_len p = len p.

Lemma parsed_located hdr p res : 0 <= hdr -> parsed p res ->
  exists p' v, res = Some (p', v) /\ (v = 0 \/ v = -1) /\
    (v = 0 -> (in_order hdr p -> located hdr p') /\ len p' = len p).
Proof.
  intros Hh (p' & v & -> & Hv & K & Hraw). exists p', v. split_and!; try done. intros ->.
  destruct (ke_offs _ _ K) as (A1 & A2 & A3 & A4). destruct (ke_mem _ _ K) as [D _].
  split; [|done]. intros (I1 & I2 & I3 & I4).
  destruct Hraw as (R1 & R2 & R3); [done|lia|]. unfold located, in_order. rewrite A1, A2, A3, A4, D. split_and!; (done || lia).
Qed.

Lemma raw_payload_ok p : l4_mem p -> parsed p (Some (raw_payload p, 0)).
Proof.
  intros M. eapply parsed_payload with (p1 := p) (h := 0); [done|apply keeps_refl, M| | |unfold raw_payload; cbn; lia|].
  - constructor; try done. split; [done|apply M].
  - pose proof (u16_range (len p - l4 p)) as [? ?]. lia.
  - unfold raw_payload. cbn [raw_len set]. f_equal. lia.
Qed.

Lemma set_proto_kept p v : bytes (pkt p) -> kept p (p <| ip_proto := v |>).
Proof. intros Hb. by constructor. Qed.

Lemma pwf_mem p : pwf p -> l3 p = ETH_HLEN -> dpi_is_ipv4 p = true -> cap_len p + 2 <= Z.of_nat (length (pkt p)) ->
  l4_mem p /\ in_order ip4_hdr p.
Proof.
  intros P E3 E4 Hc. pose proof (pw_l4 _ P). pose proof (pw_cap _ P). unfold ETH_HLEN, ip4_hdr in *. split.
  - assert (u16 (len p - l4 p) = len p - l4 p) as Eu by (apply u16_id; unfold is_u16; lia).
    constructor; [apply P|rewrite E4; unfold ip4_hdr; split; lia|rewrite Eu; split; [split; lia|intros _; split; lia]|rewrite Eu; lia].
  - unfold in_order, ETH_HLEN. lia.
Qed.

(** After reassembly: the buffer of the thread has all that is read, also when the
    length of the datagram does not fit into p->len. *)
Lemma built_mem p p' buf n x : pwf p -> l3 p = ETH_HLEN -> dpi_is_ipv4 p = true -> l4 p <= 74 -> l4 p mod 2 = 0 ->
  built p p' buf n x -> 0 <= n -> l4 p + n <= DPI_MAX_PKT_LEN -> l4_mem p' /\ (in_order ip4_hdr p' \/ len p' = 0).
Proof.
  intros P E3 E4 H74 Hev B Hn Hl. destruct (bu_offs _ _ _ _ _ B) as (O3 & O4 & _). destruct (bu_bytes _ _ _ _ _ B) as [Bb Bl].
  destruct (bu_len _ _ _ _ _ B) as [L1 L2]. pose proof (pw_l4 _ P). unfold DPI_MAX_PKT_LEN, ETH_HLEN in *.
  assert (Eu : u16 (len p' - l4 p') <= 65536 - l4 p /\ (u16 (len p' - l4 p') mod 2 = 1 -> u16 (len p' - l4 p') + 1 <= 65536 - l4 p)).
  { rewrite L1, O4. destruct (Z.eq_dec (l4 p + n) 65536) as [E|].
    - rewrite E. change (u16 65536) with 0. replace (u16 (0 - l4 p)) with (65536 - l4 p)
        by (unfold u16; apply Zmod_unique with (-1); lia).
      split; [lia|]. intros Ho. exfalso. pose proof (Z.div_mod (l4 p) 2). pose proof (Z.div_mod (65536 - l4 p) 2). lia.
    - rewrite !u16_id by (unfold is_u16; rewrite ?u16_id; unfold is_u16; lia). lia. }
  split.
  - unfold dpi_is_ipv4 in E4. constructor; unfold dpi_is_ipv4; rewrite ?(bu_eth _ _ _ _ _ B), ?E4; [done| | |].
    + rewrite O3. unfold ip4_hdr. split; lia.
    + rewrite O4 in *. split; [split; lia|]. intros Ho. destruct Eu as [_ Eu]. specialize (Eu Ho). split; lia.
    + rewrite O4. lia.
  - destruct (Z.eq_dec (l4 p + n) 65536) as [E|]; [right; by rewrite L1, E|left].
    rewrite u16_id in L1, L2 by (unfold is_u16; lia). unfold in_order, ip4_hdr, ETH_HLEN. lia.
Qed.

Context {T : Type} `{!OrderedTree T}.
Implicit Types (w : thread T) (c : counters).

(** The outcome of the network layer: the thread stays consistent, and an accepted packet
    has its headers and payload in place. *)
Definition delivered (Q : packet -> Prop) (base : Z) w (res : option (thread T * counters * packet * Z)) : Prop :=
  exists w' c' p' r dl ls, res = Some (w', c', p', r) /\ (r = 0 \/ r = -1) /\
    finv w' dl ls /\ TimerWheel.inv base (th_timer w') dl /\ tick w' = tick w /\
    (r = 0 -> Q p').

Lemma deliver hdr (Q : packet -> Prop) base w w' c p dl ls (res : option (packet * Z)) :
  finv w' dl ls -> TimerWheel.inv base (th_timer w') dl -> tick w' = tick w ->
  0 <= hdr -> (forall p', (in_order hdr p -> located hdr p') -> len p' = len p -> Q p') -> parsed p res ->
  delivered Q base w ('(p, r) ← res; Some (w', c, p, r)).
Proof.
  intros F V Hk Hh HQ Hp. destruct (parsed_located hdr p res Hh Hp) as (p' & v & -> & Hv & Hl).
  cbn [mbind option_bind]. exists w', c, p', v, dl, ls. split_and!; try done. intros E0. by destruct (Hl E0); apply HQ.
Qed.

(** An IPv4 packet; the length of a datagram of 65536 bytes does not fit. *)
Definition located4 p : Prop := located ip4_hdr p \/ len p = 0.

(** The transport layer of IPv4. *)
Lemma ipv4_transport base w w' c p dl ls proto :
  finv w' dl ls -> TimerWheel.inv base (th_timer w') dl -> tick w' = tick w ->
  l4_mem p -> in_order ip4_hdr p \/ len p = 0 ->
  delivered located4 base w
    (let p := p <| ip_proto := proto |> in
     if proto =? IPPROTO_TCP then '(p, r) ← dpi_parse_tcp tc cksum p; Some (w', c <| tcp_pkts ::= inc |>, p, r)
     else if proto =? IPPROTO_UDP then '(p, r) ← dpi_parse_udp tc cksum p; Some (w', c <| udp_pkts ::= inc |>, p, r)
     else if proto =? IPPROTO_ICMP then '(p, r) ← dpi_parse_icmp tc cksum p; Some (w', c <| icmp_pkts ::= inc |>, p, r)
     else Some (w', c <| other_pkts ::= inc |>, raw_payload p, 0)).
Proof.
  intros F V Hk M Hin. pose proof (kept_mem _ _ (set_proto_kept p proto (lm_bytes _ M)) M) as M1.
  set (p1 := p <| ip_proto := proto |>) in *. cbv zeta.
  assert (HQ : forall p', (in_order ip4_hdr p1 -> located ip4_hdr p') -> len p' = len p1 -> located4 p').
  { intros p' Hl E. destruct Hin as [Hin|E0]; [left; by apply Hl|right; by rewrite E]. }
  destruct (proto =? IPPROTO_TCP); [eapply (deliver ip4_hdr); try done; by apply parse_tcp_ok|].
  destruct (proto =? IPPROTO_UDP); [eapply (deliver ip4_hdr); try done; by apply parse_udp_ok|].
  destruct (proto =? IPPROTO_ICMP); [eapply (deliver ip4_hdr); try done; by apply parse_icmp_ok|].
  apply (deliver ip4_hdr located4 base w w' _ p1 dl ls (Some (raw_payload p1, 0)) F V Hk); try done. by apply raw_payload_ok.
Qed.

Lemma refused Q base w w' c p dl ls : finv w' dl ls -> TimerWheel.inv base (th_timer w') dl -> tick w' = tick w ->
  delivered Q base w (Some (w', c, p, -1)).
Proof. intros F V Hk. exists w', c, p, (-1), dl, ls. split_and!; try done. by right. Qed.

Lemma parse_ipv4_ok base w c p dl ls :
  finv w dl ls -> TimerWheel.inv base (th_timer w) dl -> tick_ok base w -> frame p -> dpi_is_ipv4 p = true ->
  delivered located4 base w (dpi_parse_ipv4 tc cksum w c p).
Proof.
  intros F V Htk Fr E4. unfold dpi_parse_ipv4.
  destruct (parse_ipv4_hdr_ok p Fr) as (p1 & r & -> & Hr & [([Fb Fc Fd] & F3 & _) (He & Hcap & _) _] & Hok). cbn [mbind option_bind].
  destruct (Z.ltb_spec r 0); [by eapply refused|]. destruct Hok as (P1 & H74 & Hev); [lia|].
  assert (E4' : dpi_is_ipv4 p1 = true) by (unfold dpi_is_ipv4 in *; by rewrite He).
  destruct (pwf_mem p1 P1 F3 E4') as [M1 I1]; [lia|]. pose proof (pw_l4 _ P1). pose proof (pw_cap _ P1).
  destruct (ld16_ok (pkt p1) (l3 p1 + 6) Fb) as (fo & -> & _); [rewrite F3 in *; unfold ETH_HLEN in *; split; lia|].
  destruct (ld8_ok (pkt p1) (l3 p1 + 9) Fb) as (proto & -> & _); [rewrite F3 in *; unfold ETH_HLEN in *; split; lia|].
  cbn [mbind option_bind]. destruct (FLAGS_TEST (ntohs fo) _).
  - destruct (defrag_safe tc base w dl ls p1 F V Htk P1)
      as (w2 & p2 & r2 & dl2 & ls2 & -> & F2 & V2 & Hk2 & Hcase); cbn [mbind option_bind].
    destruct Hcase as [[[-> | ->] Hs]|(-> & p0 & buf & n & x & Hs & B & Hn0 & Hn1 & _)];
      cbn [Z.ltb Z.compare]; [|by eapply refused|].
    + pose proof (same_wire_pwf _ _ Hs P1) as P2. destruct Hs as (E1 & E2 & _ & Ec & _ & _ & _ & _ & Ee).
      destruct (pwf_mem p2 P2) as [M2 I2]; [congruence|unfold dpi_is_ipv4 in *; by rewrite Ee|rewrite E1, Ec; lia|].
      eapply ipv4_transport; try done. by left.
    + pose proof (same_wire_pwf _ _ Hs P1) as P0. destruct Hs as (E1 & E2 & E3 & Ec & _ & _ & _ & _ & Ee).
      destruct (built_mem p0 p2 buf n x P0) as [M2 I2]; try done; try congruence; [unfold dpi_is_ipv4 in *; by rewrite Ee|].
      by eapply ipv4_transport.
  - cbn [mbind option_bind Z.ltb Z.compare]. eapply ipv4_transport; try done. by left.
Qed.

(** *** IPv6 *)

Lemma ext_length_ok m type ptr end_ hop : bytes m -> 0 <= ptr -> end_ <= Z.of_nat (length m) ->
  exists e, ext_length m type ptr end_ hop = Some e /\ forall n, e = Some n -> n = -1 \/ 8 <= n.
Proof.
  intros Hb Hp He. unfold ext_length.
  assert (Hld : ptr + 1 < end_ -> exists b, ld8 m (ptr + 1) = Some b /\ is_u8 b).
  { intros. apply ld8_ok; [done|]. split; lia. }
  destruct (type =? IPPROTO_FRAGMENT); [eexists; split; [done|]; intros n [= <-]; by right|].
  destruct (type =? IPPROTO_AH).
  { destruct (Z.leb_spec end_ (ptr + 1)); [eexists; split; [done|]; intros n [= <-]; by left|].
    destruct Hld as (b & -> & U); [lia|]. eexists. split; [done|]. intros n [= <-]. right. unfold is_u8 in U.
    rewrite Z.shiftl_mul_pow2 by lia. lia. }
  destruct (_ && hop); [eexists; split; [done|]; intros n [= <-]; by left|].
  destruct (_ || _ || _); [|by eexists].
  destruct (Z.leb_spec end_ (ptr + 1)); [eexists; split; [done|]; intros n [= <-]; by left|].
  destruct Hld as (b & -> & U); [lia|]. eexists. split; [done|]. intros n [= <-]. right. unfold is_u8 in U.
  rewrite Z.shiftl_mul_pow2 by lia. lia.
Qed.

(** The walk over the extension headers ends inside the packet, or is refused. *)
Lemma ext_loop_ok fuel : forall p ptr end_ type hop, bytes (pkt p) -> 0 <= ptr -> end_ <= Z.of_nat (length (pkt p)) ->
  end_ - ptr <= Z.of_nat fuel ->
  exists f r proto, ext_loop fuel p ptr end_ type hop = Some (p <| ip6_fragh := f |>, r, proto) /\
    (r = -1 \/ ptr - l3 p <= r /\ l3 p + r < end_).
Proof.
  assert (Hid : forall p, p = p <| ip6_fragh := ip6_fragh p |>) by (by intros []).
  induction fuel as [|fuel IH]; intros p ptr end_ type hop Hb Hp He Hf; cbn [ext_loop];
    (destruct (Z.ltb_spec ptr end_); cbn [negb]; [|exists (ip6_fragh p), (-1), 0; split; [by rewrite <- Hid|by left]]); [lia|].
  destruct (ext_length_ok (pkt p) type ptr end_ hop Hb Hp He) as ([n|] & -> & Hn); cbn [mbind option_bind].
  2:{ exists (ip6_fragh p), (ptr - l3 p), type. split; [by rewrite <- Hid|right; lia]. }
  set (p1 := if _ && _ then _ else p).
  assert (E1 : exists f, p1 = p <| ip6_fragh := f |>)
    by (unfold p1; destruct (_ && _); [by eexists|exists (ip6_fragh p); apply Hid]).
  destruct E1 as [f ->]. specialize (Hn n eq_refl).
  destruct (Z.leb_spec n 2); [exists f, (-1), 0; split; [done|by left]|].
  destruct (ld8_ok (pkt p) ptr Hb) as (nx & Enx & _); [split; lia|].
  change (pkt (p <| ip6_fragh := f |>)) with (pkt p). rewrite Enx. cbn [mbind option_bind].
  destruct (IH (p <| ip6_fragh := f |>) (ptr + n) end_ nx (hop || (type =? IPPROTO_HOPOPTS))) as (f' & r & pr & -> & Hr);
    [done|lia|done|lia|]. exists f', r, pr. split; [done|]. change (l3 (p <| ip6_fragh := f |>)) with (l3 p) in Hr. lia.
Qed.

Lemma parse_ipv6_hdr_ok p : frame p -> dpi_is_ipv4 p = false ->
  exists p' proto r, dpi_parse_ipv6_hdr tc p = Some (p', proto, r) /\ (r = 0 \/ r = -1) /\
    (r = 0 -> l4_mem p' /\ in_order ip6_hdr p' /\ dpi_is_ipv4 p' = false).
Proof.
  intros ([Fb [Fc Fl] Fd] & F3 & Fe) E6. unfold dpi_parse_ipv6_hdr. unfold ETH_HLEN, ip6_hdr in *.
  assert (Hbad : forall q, exists p' proto r, Some (LOG_BAD_PKT tc q, 0, -1) = Some (p', proto, r) /\ (r = 0 \/ r = -1) /\
    (r = 0 -> l4_mem p' /\ in_order 40 p' /\ dpi_is_ipv4 p' = false)).
  { intros q. eexists _, _, _. split; [done|]. split; [by right|done]. }
  rewrite (u16_id (cap_len p - 14)) by (unfold is_u16; lia).
  destruct (Z.ltb_spec (cap_len p - 14) 40); [apply Hbad|].
  destruct (ld16_ok (pkt p) (14 + 4) Fb) as (pl & -> & _); [split; lia|]. cbn [mbind option_bind].
  set (n := u16 (ntohs pl + 40)). pose proof (u16_range (ntohs pl + 40)) as Un. fold n in Un. unfold is_u16 in Un.
  destruct (Z.ltb_spec (cap_len p - 14) n); [apply Hbad|].
  rewrite (u16_id (n + 14)) by (unfold is_u16; lia). set (p1 := p <| len := n + 14 |>).
  unfold dpi_parse_ipv6_ext, ip6_hdr. change (pkt p1) with (pkt p). change (l3 p1) with (l3 p). rewrite F3.
  destruct (ld8_ok (pkt p) (14 + 6) Fb) as (ty & -> & _); [split; lia|]. cbn [mbind option_bind].
  destruct (ext_loop_ok (Z.to_nat (len p1)) p1 (14 + 40) (len p1) ty false) as (f & r & pr & -> & Hr);
    [done|lia|cbn [len pkt p1 set]; lia|cbn [len p1 set]; lia|]. cbn [mbind option_bind].
  change (l3 p1) with (l3 p) in Hr. change (len p1) with (n + 14) in Hr. rewrite F3 in Hr. destruct (Z.ltb_spec r 0); [apply Hbad|].
  eexists _, _, _. split; [reflexivity|]. split; [by left|]. intros _.
  cbn [l3 set p1]. rewrite F3, (u16_id (14 + r)) by (unfold is_u16; lia).
  assert (Eu : u16 (n + 14 - (14 + r)) = n - r) by (rewrite u16_id; unfold is_u16; lia).
  split_and!.
  - constructor; cbn [pkt l3 l4 len set p1]; rewrite ?Eu; unfold dpi_is_ipv4 in *; cbn [eth_type set p1]; rewrite ?E6; [done| | |lia].
    + unfold ip6_hdr. split; lia.
    + split; [split; lia|]. intros _. split; lia.
  - unfold in_order, ETH_HLEN. cbn [l3 l4 len cap_len pkt set p1]. lia.
  - exact E6.
Qed.

Lemma parse_ipv6_ok (defrag6 : thread T -> packet -> option (thread T * packet * Z)) base w c p dl ls :
  finv w dl ls -> TimerWheel.inv base (th_timer w) dl -> frame p -> dpi_is_ipv4 p = false ->
  (forall p' proto, dpi_parse_ipv6_hdr tc p = Some (p', proto, 0) -> ip6_fragh p' = NULL) ->
  delivered (located ip6_hdr) base w (dpi_parse_ipv6 tc cksum defrag6 w c p).
Proof.
  intros F V Fr E6 Hnf. unfold dpi_parse_ipv6.
  destruct (parse_ipv6_hdr_ok p Fr E6) as (p1 & proto & r & E & Hr & Hok). rewrite E. cbn [mbind option_bind].
  destruct (Z.ltb_spec r 0); [by eapply refused|]. assert (r = 0) as -> by lia.
  destruct Hok as (M & Hin & H6); [done|]. rewrite (Hnf p1 proto E). cbn [negb NULL Z.eqb mbind option_bind Z.ltb Z.compare].
  pose proof (kept_mem _ _ (set_proto_kept p1 proto (lm_bytes _ M)) M) as M1.
  set (p2 := p1 <| ip_proto := proto |>) in *. assert (HQ : forall p', (in_order ip6_hdr p2 -> located ip6_hdr p') -> len p' = len p2 -> located ip6_hdr p') by auto.
  destruct (proto =? IPPROTO_TCP); [eapply (deliver ip6_hdr); try done; by apply parse_tcp_ok|].
  destruct (proto =? IPPROTO_UDP); [eapply (deliver ip6_hdr); try done; by apply parse_udp_ok|].
  destruct (_ || _); [eapply (deliver ip6_hdr); try done; by apply parse_icmpv6_ok|].
  apply (deliver ip6_hdr _ base w w _ p2 dl ls (Some (raw_payload p2, 0)) F V eq_refl); try done. by apply raw_payload_ok.
Qed.

(** *** The frame *)

Lemma set_drop p : action (dpi_set_action p DPI_ACTION_DROP) = DPI_ACTION_DROP.
Proof. unfold dpi_set_action. change (DPI_ACTION_DROP <=? DPI_ACTION_ALLOW) with false. by rewrite andb_false_r. Qed.

(** The packet behind its Ethernet header. *)
Definition past_ethernet p : packet :=
  p <| l2 := 0 |> <| l3 := ETH_HLEN |> <| len := cap_len p |> <| eth_type := ntohs (default 0 (ld16 (pkt p) 12)) |>.
(** An IPv6 packet that is handed to reassembly. *)
Definition ipv6_fragment p : bool :=
  match dpi_parse_ipv6_hdr tc p with Some (p, _, 0) => negb (ip6_fragh p =? NULL) | _ => false end.

Lemma parse_packet_eq defrag6 w c p : captured p -> ETH_HLEN <= cap_len p ->
  dpi_parse_packet tc cksum defrag6 w c p =
    let q := past_ethernet p in
    if eth_type q =? ETH_P_IP then dpi_parse_ipv4 tc cksum w (c <| ipv4_pkts ::= inc |>) q
    else if eth_type q =? ETH_P_IPV6 then dpi_parse_ipv6 tc cksum defrag6 w (c <| ipv6_pkts ::= inc |>) q
    else Some (w, c, q, 0).
Proof.
  intros [Fb [Fc Fl] Fd] Hc. unfold dpi_parse_packet. rewrite (proj2 (Z.ltb_ge _ _)) by done. cbv zeta.
  set (q := p <| l2 := 0 |> <| l3 := ETH_HLEN |> <| len := cap_len p |>). change (ld16 (pkt q) (l2 q + 12)) with (ld16 (pkt p) 12).
  destruct (ld16_ok (pkt p) 12 Fb) as (v & Ev & _); [unfold ETH_HLEN in Hc; split; lia|].
  assert (Eq : past_ethernet p = q <| eth_type := ntohs v |>) by (unfold past_ethernet; by rewrite Ev).
  rewrite Eq, Ev. reflexivity.
Qed.

End safe.

(** ** TCP options as their sender wrote them *)

Inductive tcp_opt :=
  | OptNop | OptMss (mss : Z) | OptWscale (shift : Z) | OptSackOk | OptTimestamp (value echo : Z)
  | OptOther (kind : Z) (data : list Z).

Definition be16 (n : Z) : list Z := [n / 256; n mod 256].
Definition be32 (n : Z) : list Z := be16 (n / 65536) ++ be16 (n mod 65536).

Definition enc_opt (o : tcp_opt) : list Z :=
  match o with
  | OptNop => [TCP_OPT_NOP]
  | OptMss n => TCP_OPT_MSS :: 4 :: be16 n
  | OptWscale n => [TCP_OPT_WSCALE; 3; n]
  | OptSackOk => [TCP_OPT_SACKOK; 2]
  | OptTimestamp v e => TCP_OPT_TIMESTAMP :: 10 :: be32 v ++ be32 e
  | OptOther k data => k :: 2 + Z.of_nat (length data) :: data
  end.

(** Values fit their fields; the other options are those without a fixed length that
    carry data. *)
Definition valid_opt (o : tcp_opt) : Prop :=
  match o with
  | OptNop | OptSackOk => True
  | OptMss n => is_u16 n
  | OptWscale n => is_u8 n
  | OptTimestamp v e => is_u32 v /\ is_u32 e
  | OptOther k data => 1 < k < 256 /\ opt_len_of k = 0 /\ data <> []
  end.

Definition apply_opt (p : packet) (o : tcp_opt) : packet :=
  match o with
  | OptMss n => p <| tcp_mss := n |>
  | OptWscale n => p <| tcp_wscale := n |>
  | OptSackOk => p <| flags ::= fun f => FLAGS_SET f DPI_PKT_FLAG_SACKOK |>
  | OptTimestamp v e => p <| tcp_ts_value := v |> <| tcp_ts_echo := e |>
                          <| flags ::= fun f => FLAGS_SET f DPI_PKT_FLAG_TCP_TS |>
  | OptNop | OptOther _ _ => p
  end.

Lemma ntohs_digits a b : is_u8 a -> is_u8 b -> ntohs (a + 256 * b) = 256 * a + b.
Proof.
  unfold is_u8. intros. unfold ntohs, htons. rewrite lor_disjoint_add; [|lia|apply Z.mod_pos_bound; lia].
  rewrite Z.shiftr_div_pow2 by lia.
  change (2 ^ 8) with 256 in *. rewrite (Z.mul_comm 256 b), Z.mod_add, Z.div_add, (Z.div_small a), (Z.mod_small a), (Z.mod_small (0 + b)) by lia.
  lia.
Qed.

Lemma be16_load m o n l : 0 <= o -> is_u16 n -> drop (Z.to_nat o) m = be16 n ++ l ->
  ld16 m o = Some (n / 256 + 256 * (n mod 256)) /\ ntohs (n / 256 + 256 * (n mod 256)) = n.
Proof.
  intros Ho Hn E. unfold is_u16 in Hn. split.
  - unfold ld16. replace (ld8 m o) with (ld8 m (o + 0)) by (f_equal; lia).
    by rewrite (ld8_drop _ _ _ 0 Ho ltac:(lia) E), (ld8_drop _ _ _ 1 Ho ltac:(lia) E).
  - rewrite ntohs_digits; unfold is_u8.
    + pose proof (Z.div_mod n 256). lia.
    + split; [apply Z.div_pos; lia|apply Z.div_lt_upper_bound; lia].
    + apply Z.mod_pos_bound. lia.
Qed.

Lemma be32_load m o n l : 0 <= o -> is_u32 n -> drop (Z.to_nat o) m = be32 n ++ l ->
  exists v, ld32 m o = Some v /\ ntohl v = n.
Proof.
  intros Ho Hn E. unfold is_u32 in Hn. unfold be32 in E. rewrite <- app_assoc in E.
  assert (0 <= n / 65536 < 65536) by (split; [apply Z.div_pos; lia|apply Z.div_lt_upper_bound; lia]).
  pose proof (Z.mod_pos_bound n 65536). pose proof (Z.div_mod n 65536).
  destruct (be16_load m o (n / 65536) (be16 (n mod 65536) ++ l) Ho) as [E1 _]; [unfold is_u16; lia|exact E|].
  destruct (be16_load m (o + 2) (n mod 65536) l) as [E2 _]; [lia|unfold is_u16; lia| |].
  { replace (Z.to_nat (o + 2)) with (Z.to_nat o + 2)%nat by lia. rewrite <- drop_drop, E. done. }
  unfold ld32. rewrite E1, E2. cbn [mbind option_bind]. eexists. split; [reflexivity|].
  set (a := n / 65536) in *. set (b := n mod 65536) in *. clearbody a b.
  pose proof (Z.div_mod a 256). pose proof (Z.mod_pos_bound a 256). pose proof (Z.div_mod b 256). pose proof (Z.mod_pos_bound b 256).
  assert (0 <= a / 256 < 256 /\ 0 <= b / 256 < 256) as [? ?]
    by (split; (split; [apply Z.div_pos; lia|apply Z.div_lt_upper_bound; lia])).
  unfold ntohl. replace (a / 256 + 256 * (a mod 256) + 65536 * (b / 256 + 256 * (b mod 256)))
    with (((b mod 256 * 256 + b / 256) * 256 + a mod 256) * 256 + a / 256) by lia.
  rewrite htonl_digits by lia. lia.
Qed.

Section decode.
Context (tc : Z -> threat_conf).
Implicit Types (p : packet).

Lemma apply_opt_pkt p o : pkt (apply_opt p o) = pkt p.
Proof. by destruct o. Qed.

Lemma enc_opt_len o : valid_opt o -> 0 < Z.of_nat (length (enc_opt o)).
Proof. by destruct o. Qed.

(** One round of the loop over an option with a length. *)
Lemma option_round fuel p p' ptr end_ k n :
  0 <= ptr -> ptr + n <= end_ -> 2 <= n -> 1 < k ->
  ld8 (pkt p) ptr = Some k -> ld8 (pkt p) (ptr + 1) = Some n -> (opt_len_of k = 0 \/ opt_len_of k = n) ->
  (k = TCP_OPT_SACK -> 2 < n) -> tcp_option p k ptr = Some p' ->
  options_loop tc (S fuel) p ptr end_ = options_loop tc fuel p' (ptr + n) end_.
Proof.
  intros Hp He Hn Hk E0 E1 Ho Hs Et. cbn [options_loop].
  rewrite (proj2 (Z.ltb_lt ptr end_)) by lia. rewrite E0. cbn [negb mbind option_bind].
  unfold TCP_OPT_EOL, TCP_OPT_NOP.
  rewrite (proj2 (Z.eqb_neq k 0)), (proj2 (Z.eqb_neq k 1)), (proj2 (Z.leb_gt end_ (ptr + 1))) by lia.
  rewrite E1. cbn [mbind option_bind].
  replace (_ || _ || _) with false.
  2:{ symmetry. rewrite !orb_false_iff, andb_false_iff, negb_false_iff, !Z.ltb_ge, Z.eqb_eq. lia. }
  replace (empty_sack (pkt p) k n ptr) with (Some false).
  2:{ unfold empty_sack. destruct (Z.eqb_spec k TCP_OPT_SACK) as [Ek|]; [|done].
      rewrite (proj2 (Z.leb_gt n 2)) by (by apply Hs). done. }
  cbn [mbind option_bind]. rewrite Et. done.
Qed.

(** One round of the loop takes one option. *)
Lemma option_step fuel p ptr end_ o rest : 0 <= ptr -> valid_opt o ->
  drop (Z.to_nat ptr) (pkt p) = enc_opt o ++ rest -> ptr + Z.of_nat (length (enc_opt o)) <= end_ ->
  options_loop tc (S fuel) p ptr end_ = options_loop tc fuel (apply_opt p o) (ptr + Z.of_nat (length (enc_opt o))) end_.
Proof.
  intros Hp Hv E He.
  assert (L : forall i, 0 <= i -> ld8 (pkt p) (ptr + i) = (enc_opt o ++ rest) !! Z.to_nat i)
    by (intros i Hi; by apply ld8_drop).
  assert (D : forall i, drop (Z.to_nat (ptr + Z.of_nat i)) (pkt p) = drop i (enc_opt o ++ rest))
    by (intros i; rewrite <- E, drop_drop; f_equal; lia).
  pose proof (L 0 ltac:(lia)) as L0. rewrite Z.add_0_r in L0. pose proof (L 1 ltac:(lia)) as L1.
  destruct o as [|n|n| |v e|k data]; cbn [valid_opt apply_opt] in *.
  - cbn [options_loop]. rewrite (proj2 (Z.ltb_lt ptr end_)) by (cbn in He; lia). rewrite L0. done.
  - destruct (be16_load (pkt p) (ptr + 2) n rest) as [E2 E3]; [lia|done|apply (D 2%nat)|].
    apply (option_round _ _ _ _ _ TCP_OPT_MSS 4); [done|exact He|done|done|exact L0|exact L1|by right|done|]. unfold tcp_option. cbn [Z.eqb TCP_OPT_MSS Pos.eqb].
    rewrite E2. cbn [mbind option_bind]. by rewrite E3.
  - apply (option_round _ _ _ _ _ TCP_OPT_WSCALE 3); [done|exact He|done|done|exact L0|exact L1|by right|done|]. unfold tcp_option.
    cbn [Z.eqb TCP_OPT_MSS TCP_OPT_WSCALE Pos.eqb]. rewrite (L 2) by lia. done.
  - apply (option_round _ _ _ _ _ TCP_OPT_SACKOK 2); [done|exact He|done|done|exact L0|exact L1|by right|done|done].
  - destruct Hv as [Hv He'].
    destruct (be32_load (pkt p) (ptr + 2) v (be32 e ++ rest)) as (v' & E2 & E3); [lia|done|rewrite app_assoc; apply (D 2%nat)|].
    destruct (be32_load (pkt p) (ptr + 6) e rest) as (e' & E4 & E5); [lia|done|apply (D 6%nat)|].
    apply (option_round _ _ _ _ _ TCP_OPT_TIMESTAMP 10); [done|exact He|done|done|exact L0|exact L1|by right|done|]. unfold tcp_option.
    cbn [Z.eqb TCP_OPT_MSS TCP_OPT_WSCALE TCP_OPT_TIMESTAMP Pos.eqb]. rewrite E2, E4. cbn [mbind option_bind]. by rewrite E3, E5.
  - destruct Hv as (Hk & Ho & Hd). assert (0 < Z.of_nat (length data)) by (destruct data; [done|cbn; lia]).
    replace (Z.of_nat (length (enc_opt (OptOther k data)))) with (2 + Z.of_nat (length data)) in * by (cbn [enc_opt length]; lia).
    apply (option_round _ _ _ _ _ k (2 + Z.of_nat (length data))); [done|exact He|lia|lia|exact L0|exact L1|by left|lia|].
    unfold tcp_option.
    destruct (Z.eqb_spec k TCP_OPT_MSS) as [->|]; [done|]. destruct (Z.eqb_spec k TCP_OPT_WSCALE) as [->|]; [done|].
    destruct (Z.eqb_spec k TCP_OPT_TIMESTAMP) as [->|]; [done|]. destruct (Z.eqb_spec k TCP_OPT_SACKOK) as [->|]; done.
Qed.

Lemma options_decode opts : forall fuel p ptr k rest, 0 <= ptr -> Forall valid_opt opts ->
  drop (Z.to_nat ptr) (pkt p) = concat (enc_opt <$> opts) ++ replicate k 0 ++ rest ->
  (length (concat (enc_opt <$> opts)) + k <= fuel)%nat ->
  options_loop tc fuel p ptr (ptr + Z.of_nat (length (concat (enc_opt <$> opts)) + k)) = Some (foldl apply_opt p opts, 0).
Proof.
  induction opts as [|o opts IH]; intros fuel p ptr k rest Hp Hv E Hf; cbn [fmap list_fmap concat foldl] in *.
  - destruct k as [|k].
    + destruct fuel; cbn [options_loop]; rewrite (proj2 (Z.ltb_ge _ _)) by (cbn; lia); done.
    + destruct fuel as [|fuel]; [cbn in Hf; lia|]. cbn [options_loop]. rewrite (proj2 (Z.ltb_lt _ _)) by (cbn; lia). cbn [negb].
      pose proof (ld8_drop _ _ _ 0 Hp ltac:(lia) E) as L. rewrite Z.add_0_r in L. rewrite L. done.
  - apply Forall_cons in Hv as [Ho Hv]. rewrite <- app_assoc in E. pose proof (enc_opt_len o Ho).
    rewrite length_app in *. destruct fuel as [|fuel]; [lia|].
    rewrite (option_step fuel p ptr _ o _ Hp Ho E) by lia.
    replace (ptr + Z.of_nat (length (enc_opt o) + length (concat (enc_opt <$> opts)) + k))
      with (ptr + Z.of_nat (length (enc_opt o)) + Z.of_nat (length (concat (enc_opt <$> opts)) + k)) by lia.
    apply IH with rest; [lia|done| |lia].
    rewrite apply_opt_pkt. replace (Z.to_nat (ptr + Z.of_nat (length (enc_opt o)))) with (Z.to_nat ptr + length (enc_opt o))%nat by lia.
    by rewrite <- drop_drop, E, drop_app_length.
Qed.

(** C29: TCP options are read back as they were written: from a header that carries any list
    of well-formed options and zero padding up to its length, dpi_parse_tcp_options
    returns 0 with exactly the values of the segment size, window scale, timestamp and
    SACK permission in the packet, the last of a kind winning. *)
Theorem dpi_parse_tcp_options_decodes p (opts : list tcp_opt) (k : nat) (b12 : Z) (rest : list Z) :
  0 <= l4 p -> ld8 (pkt p) (l4 p + 12) = Some b12 -> Forall valid_opt opts ->
  get_tcph_len b12 = tcp_hdr + Z.of_nat (length (concat (enc_opt <$> opts)) + k) ->
  drop (Z.to_nat (l4 p + tcp_hdr)) (pkt p) = concat (enc_opt <$> opts) ++ replicate k 0 ++ rest ->
  dpi_parse_tcp_options tc p = Some (foldl apply_opt p opts, 0).
Proof.
  intros H4 Eb Hv El Ed. unfold dpi_parse_tcp_options. rewrite Eb. cbn [mbind option_bind]. rewrite El.
  replace (l4 p + (tcp_hdr + Z.of_nat (length (concat (enc_opt <$> opts)) + k)))
    with (l4 p + tcp_hdr + Z.of_nat (length (concat (enc_opt <$> opts)) + k)) by lia.
  eapply options_decode; [unfold tcp_hdr; lia|done|exact Ed|unfold tcp_hdr; lia].
Qed.
End decode.

(** ** A SYN and a UDP packet *)

Definition syn_options : list tcp_opt := [OptMss 1460; OptSackOk; OptTimestamp 7 0; OptNop; OptWscale 7].
Definition syn_segment : list Z :=
  [156; 64; 0; 80; 0; 0; 0; 1; 0; 0; 0; 0; 160; 2; 250; 240; 0; 0; 0; 0] ++ concat (enc_opt <$> syn_options).
Definition bare_packet (m : list Z) (cap l4 : Z) : packet :=
  Packet m 0 0 0 0 l4 cap cap 0 0 0 0 0 0 0 0 0 0 0 0 0 0 0 (replicate (Z.to_nat DPI_MAX_PKT_LEN) 0) [].

Lemma dpi_parse_tcp_options_decodes_witness :
  exists p, dpi_parse_tcp_options no_threats (bare_packet syn_segment 40 0) = Some (p, 0) /\
    tcp_mss p = 1460 /\ tcp_wscale p = 7 /\ tcp_ts_value p = 7.
Proof.
  rewrite (dpi_parse_tcp_options_decodes no_threats (bare_packet syn_segment 40 0) syn_options 0 160 []).
  - eexists. split; [reflexivity|]. split_and!; reflexivity.
  - cbn [bare_packet l4]. lia.
  - reflexivity.
  - repeat (apply Forall_cons; split; [cbn; unfold is_u8, is_u16, is_u32; (done || lia)|]). apply Forall_nil_2.
  - reflexivity.
  - reflexivity.
Defined.

Definition udp_frame : list Z :=
  replicate 12 2 ++ [8; 0; 69; 0; 0; 30; 0; 7; 0; 0; 64; 17; 0; 0; 10; 0; 0; 1; 10; 0; 0; 2; 0; 53; 156; 64; 0; 10; 0; 0; 1; 2; 0; 0].

Lemma udp_captured : captured (bare_packet udp_frame 44 0).
Proof.
  constructor; cbn [bare_packet pkt cap_len defrag_data].
  - unfold bytes, udp_frame. apply Forall_app. split; [apply Forall_replicate; unfold is_u8; lia|].
    repeat (apply Forall_cons; split; [unfold is_u8; lia|]). apply Forall_nil_2.
  - split; [lia|]. vm_compute. discriminate.
  - split; [apply Forall_replicate; unfold is_u8; lia|]. rewrite length_replicate. unfold DPI_MAX_PKT_LEN. lia.
Qed.


End Packet.
