(* ===== verification/Stats.v ===== *)
(** * Traffic statistics: dpi_packet.c, ctrl.c

    Every endpoint and every packet thread counts its sessions, packets and bytes in
    both directions: totals, and a ring of [STATS_SLOTS] counters for the last slots of
    [STATS_INTERVAL] seconds.  The packet path catches the rings up with the current slot
    and adds to them; the control path reads them for one endpoint (collect_stats) or
    sums them over the threads (dpi_stats_callback) and reports the last slot, the last
    12 and the last 60.

    [sworld] is the statistics of one thread: th_stats and the io_stats_t of every
    endpoint, by address.  [g_ep_map] is the lookup in the map of endpoints by MAC. *)

From S2P Require Import Prelude Helper.
Import Helper.Bytes.

Module Stats.

Definition STATS_SLOTS : Z := 60.
Definition STATS_INTERVAL : Z := 5.
Definition DPI_SESS_FLAG_INGRESS : Z := 0x0010.

Record io_metry := IoMetry {
  session : Z; packet : Z; byte : Z;
  sess_ring : list Z; pkt_ring : list Z; byte_ring : list Z;
  cur_session : Z
}.
#[export] Instance eta_io_metry : Eta io_metry := fun m =>
  IoMetry (session m) (packet m) (byte m) (sess_ring m) (pkt_ring m) (byte_ring m) (cur_session m).

Record io_stats := IoStats { cur_slot : Z; s_in : io_metry; s_out : io_metry }.
#[export] Instance eta_io_stats : Eta io_stats := fun s => IoStats (cur_slot s) (s_in s) (s_out s).

Definition ring0 : list Z := replicate (Z.to_nat STATS_SLOTS) 0.
Definition metry0 : io_metry := IoMetry 0 0 0 ring0 ring0 ring0 0.
Definition stats0 : io_stats := IoStats 0 metry0 metry0.

(** Access to a slot of a ring; the index is always reduced modulo [STATS_SLOTS]. *)
Definition ring_get (r : list Z) (s : Z) : Z := default 0 (r !! Z.to_nat s).
Definition ring_set (s v : Z) (r : list Z) : list Z := <[Z.to_nat s := v]> r.
Definition ring_add (s v : Z) (r : list Z) : list Z := alter (fun x => u32 (x + v)) (Z.to_nat s) r.

(** ** The packet path *)

Definition clear_rings (m : io_metry) : io_metry :=
  m <| sess_ring := ring0 |> <| pkt_ring := ring0 |> <| byte_ring := ring0 |>.
Definition clear_slot (s : Z) (m : io_metry) : io_metry :=
  m <| sess_ring ::= ring_set s 0 |> <| pkt_ring ::= ring_set s 0 |> <| byte_ring ::= ring_set s 0 |>.

(** for (; stats->cur_slot < slot; stats->cur_slot ++) *)
Fixpoint catch_loop (fuel : nat) (slot : Z) (stats : io_stats) : io_stats :=
  match fuel with
  | O => stats
  | S n =>
      if cur_slot stats <? slot then
        let s := u32 (cur_slot stats + 1) mod STATS_SLOTS in
        catch_loop n slot
          (IoStats (u32 (cur_slot stats + 1)) (clear_slot s (s_in stats)) (clear_slot s (s_out stats)))
      else stats
  end.

Definition dpi_catch_stats_slot (stats : io_stats) (slot : Z) : io_stats :=
  if STATS_SLOTS <=? u32 (slot - cur_slot stats) then
    IoStats slot (clear_rings (s_in stats)) (clear_rings (s_out stats))
  else catch_loop (Z.to_nat STATS_SLOTS) slot stats.

(** A store by address. *)
Definition upd {A} (k : Z) (v : A) (f : Z -> A) : Z -> A := fun x => if x =? k then v else f x.

Record sworld := SWorld { th_stats : io_stats; eps : Z -> io_stats }.

(** The metry a direction selects: `&stats->in` of an ingress packet or session. *)
Definition metry (ingress : bool) (s : io_stats) : io_metry := if ingress then s_in s else s_out s.
Definition on_metry (ingress : bool) (f : io_metry -> io_metry) (s : io_stats) : io_stats :=
  if ingress then IoStats (cur_slot s) (f (s_in s)) (s_out s) else IoStats (cur_slot s) (s_in s) (f (s_out s)).

Definition count_packet (s cap_len : Z) (m : io_metry) : io_metry :=
  m <| packet ::= fun x => u64 (x + 1) |> <| pkt_ring ::= ring_add s 1 |>
    <| byte ::= fun x => u64 (x + cap_len) |> <| byte_ring ::= ring_add s cap_len |>.

(** [ep] is the endpoint p->ep_stats points into, [ingress] the choice of p->ep_all_metry
    and p->all_metry. *)
Definition dpi_inc_stats_packet (w : sworld) (ep : Z) (ingress : bool) (cap_len : Z) : sworld :=
  let s := cur_slot (eps w ep) mod STATS_SLOTS in
  SWorld (on_metry ingress (count_packet s cap_len) (th_stats w))
         (upd ep (on_metry ingress (count_packet s cap_len) (eps w ep)) (eps w)).

(** The accounting of dpi_recv_packet for a packet of a known endpoint. *)
Definition recv_stats (w : sworld) (ep : Z) (ingress : bool) (cap_len stats_slot : Z) : sworld :=
  let w := if negb (cur_slot (eps w ep) =? stats_slot)
           then SWorld (th_stats w) (upd ep (dpi_catch_stats_slot (eps w ep) stats_slot) (eps w)) else w in
  let w := if negb (cur_slot (th_stats w) =? stats_slot)
           then SWorld (dpi_catch_stats_slot (th_stats w) stats_slot) (eps w) else w in
  dpi_inc_stats_packet w ep ingress cap_len.

Definition count_session (slot : Z) (m : io_metry) : io_metry :=
  m <| session ::= fun x => u64 (x + 1) |> <| cur_session ::= fun x => u32 (x + 1) |>
    <| sess_ring ::= ring_add slot 1 |>.
Definition uncount_session (m : io_metry) : io_metry := m <| cur_session ::= fun x => u32 (x - 1) |>.

(** What the two functions read of the session. *)
Record sess := Sess { flags : Z; server_mac : Z; client_mac : Z }.
Definition sess_ingress (s : sess) : bool := FLAGS_TEST (flags s) DPI_SESS_FLAG_INGRESS.
Definition sess_mac (s : sess) : Z := if sess_ingress s then server_mac s else client_mac s.

Definition dpi_inc_stats_session (g_ep_map : Z -> option Z) (w : sworld) (p_ep : Z) (s : sess) : sworld :=
  let slot := cur_slot (eps w p_ep) mod STATS_SLOTS in
  let d := sess_ingress s in
  let th := on_metry d (count_session slot) (th_stats w) in
  match g_ep_map (sess_mac s) with
  | Some ep => SWorld th (upd ep (on_metry d (count_session slot) (eps w ep)) (eps w))
  | None => SWorld th (eps w)
  end.

Definition dpi_dec_stats_session (g_ep_map : Z -> option Z) (w : sworld) (s : sess) : sworld :=
  let d := sess_ingress s in
  let th := on_metry d uncount_session (th_stats w) in
  match g_ep_map (sess_mac s) with
  | Some ep => SWorld th (upd ep (on_metry d uncount_session (eps w ep)) (eps w))
  | None => SWorld th (eps w)
  end.

(** ** The control path *)

Record ctrl_stats := CtrlStats {
  c_session : Z; c_cur_session : Z; c_packet : Z; c_byte : Z;
  sess1 : Z; pkt1 : Z; byte1 : Z;
  sess12 : Z; pkt12 : Z; byte12 : Z;
  sess60 : Z; pkt60 : Z; byte60 : Z
}.
#[export] Instance eta_ctrl_stats : Eta ctrl_stats := fun c =>
  CtrlStats (c_session c) (c_cur_session c) (c_packet c) (c_byte c) (sess1 c) (pkt1 c) (byte1 c)
    (sess12 c) (pkt12 c) (byte12 c) (sess60 c) (pkt60 c) (byte60 c).
Definition ctrl_stats0 : ctrl_stats := CtrlStats 0 0 0 0 0 0 0 0 0 0 0 0 0.

(** for (n = from; n < last; n ++) sum += ring[n % STATS_SLOTS]; *)
Definition ring_sum (r : list Z) (from last : Z) : Z :=
  fold_left (fun acc n => u64 (acc + ring_get r (n mod STATS_SLOTS))) (seqZ from (last - from)) 0.

Definition collect_stats (stats : ctrl_stats) (a : io_metry) (cur last : Z) : ctrl_stats :=
  let stats := stats <| c_session := session a |> <| c_cur_session := cur_session a |>
                     <| c_packet := packet a |> <| c_byte := byte a |> in
  let stats :=
    if (0 <? cur) && (cur <=? u32 (last + 1)) then
      let s := (cur - 1) mod STATS_SLOTS in
      stats <| sess1 := ring_get (sess_ring a) s |> <| pkt1 := ring_get (pkt_ring a) s |>
            <| byte1 := ring_get (byte_ring a) s |>
    else stats in
  let stats :=
    if cur <=? u32 (last + 12) then
      let from := if 12 <=? cur then cur - 12 else 0 in
      stats <| sess12 := ring_sum (sess_ring a) from last |> <| pkt12 := ring_sum (pkt_ring a) from last |>
            <| byte12 := ring_sum (byte_ring a) from last |>
    else stats in
  if cur <=? u32 (last + 59) then
    let from := if 59 <=? cur then cur - 59 else 0 in
    stats <| sess60 := ring_sum (sess_ring a) from last |> <| pkt60 := ring_sum (pkt_ring a) from last |>
          <| byte60 := ring_sum (byte_ring a) from last |>
  else stats.

(** DPMsgStats: the fields of the two directions as two records, session counts of 32
    bits and the others of 64. *)
Record DPMsgStats := MkStats { Interval : Z; MIn : ctrl_stats; MOut : ctrl_stats }.

Definition map_stats (f32 f64 : Z -> Z) (c : ctrl_stats) : ctrl_stats :=
  CtrlStats (f32 (c_session c)) (f32 (c_cur_session c)) (f64 (c_packet c)) (f64 (c_byte c))
    (f32 (sess1 c)) (f64 (pkt1 c)) (f64 (byte1 c)) (f32 (sess12 c)) (f64 (pkt12 c)) (f64 (byte12 c))
    (f32 (sess60 c)) (f64 (pkt60 c)) (f64 (byte60 c)).
Definition add_stats (a b : ctrl_stats) : ctrl_stats :=
  CtrlStats (u32 (c_session a + c_session b)) (u32 (c_cur_session a + c_cur_session b))
    (u64 (c_packet a + c_packet b)) (u64 (c_byte a + c_byte b))
    (u32 (sess1 a + sess1 b)) (u64 (pkt1 a + pkt1 b)) (u64 (byte1 a + byte1 b))
    (u32 (sess12 a + sess12 b)) (u64 (pkt12 a + pkt12 b)) (u64 (byte12 a + byte12 b))
    (u32 (sess60 a + sess60 b)) (u64 (pkt60 a + pkt60 b)) (u64 (byte60 a + byte60 b)).
Definition hton_stats : ctrl_stats -> ctrl_stats := map_stats (fun x => htonl (u32 x)) htonll.

(** The body of the loop over "macs". *)
Definition stats_mac (g_ep_map : Z -> option Z) (eps : Z -> io_stats) (g_stats_slot : Z)
    (m : DPMsgStats) (mac : Z) : DPMsgStats :=
  match g_ep_map mac with
  | None => m
  | Some ep =>
      let s := eps ep in
      MkStats STATS_INTERVAL
        (add_stats (MIn m) (collect_stats ctrl_stats0 (s_in s) g_stats_slot (cur_slot s)))
        (add_stats (MOut m) (collect_stats ctrl_stats0 (s_out s) g_stats_slot (cur_slot s)))
  end.

(** The message sent for the MAC addresses of a request. *)
Definition dp_ctrl_stats_macs (g_ep_map : Z -> option Z) (eps : Z -> io_stats) (g_stats_slot : Z)
    (macs : list Z) : DPMsgStats :=
  let m := fold_left (stats_mac g_ep_map eps g_stats_slot) macs (MkStats 0 ctrl_stats0 ctrl_stats0) in
  MkStats (Interval m) (hton_stats (MIn m)) (hton_stats (MOut m)).

Definition metry_sum (a b : io_metry) : io_metry :=
  a <| session ::= fun x => u64 (x + session b) |> <| cur_session ::= fun x => u32 (x + cur_session b) |>
    <| packet ::= fun x => u64 (x + packet b) |> <| byte ::= fun x => u64 (x + byte b) |>.
Definition metry_slot (i r : Z) (b a : io_metry) : io_metry :=
  a <| sess_ring ::= ring_add i (ring_get (sess_ring b) r) |>
    <| pkt_ring ::= ring_add i (ring_get (pkt_ring b) r) |>
    <| byte_ring ::= ring_add i (ring_get (byte_ring b) r) |>.

Definition dpi_stats_callback (g_stats_slot : Z) (stats s : io_stats) : io_stats :=
  let stats := IoStats (cur_slot stats) (metry_sum (s_in stats) (s_in s)) (metry_sum (s_out stats) (s_out s)) in
  let start := if g_stats_slot <? STATS_SLOTS then 0 else g_stats_slot - STATS_SLOTS in
  let end_ := Z.min g_stats_slot (u32 (cur_slot s + 1)) in
  fold_left (fun stats i =>
    let r := (start + i) mod STATS_SLOTS in
    IoStats (cur_slot stats) (metry_slot i r (s_in s) (s_in stats)) (metry_slot i r (s_out s) (s_out stats)))
    (seqZ 0 (end_ - start)) stats.

(** [threads] is the stats of g_dpi_thread_data. *)
Definition dpi_get_stats (threads : list io_stats) (stats : io_stats) (cb : io_stats -> io_stats -> io_stats) :=
  fold_left cb threads stats.

(** for (i = from; i < STATS_SLOTS; i ++) sum += stats.ring[i]; *)
Definition slots_sum (r : list Z) (from : Z) : Z :=
  fold_left (fun acc i => u64 (acc + ring_get r i)) (seqZ from (STATS_SLOTS - from)) 0.

Definition device_dir (a : io_metry) : ctrl_stats :=
  CtrlStats (session a) (cur_session a) (packet a) (byte a)
    (ring_get (sess_ring a) (STATS_SLOTS - 1)) (ring_get (pkt_ring a) (STATS_SLOTS - 1))
    (ring_get (byte_ring a) (STATS_SLOTS - 1))
    (slots_sum (sess_ring a) (STATS_SLOTS - 12)) (slots_sum (pkt_ring a) (STATS_SLOTS - 12))
    (slots_sum (byte_ring a) (STATS_SLOTS - 12))
    (slots_sum (sess_ring a) (STATS_SLOTS - 60)) (slots_sum (pkt_ring a) (STATS_SLOTS - 60))
    (slots_sum (byte_ring a) (STATS_SLOTS - 60)).

Definition dp_ctrl_stats_device (threads : list io_stats) (g_stats_slot : Z) : DPMsgStats :=
  let stats := dpi_get_stats threads stats0 (dpi_stats_callback g_stats_slot) in
  MkStats (htonl STATS_INTERVAL) (hton_stats (device_dir (s_in stats))) (hton_stats (device_dir (s_out stats))).

(** ** What the counters count

    The specification keeps the whole history: the events of a thread or endpoint, each
    with its slot and direction.  A ring is right when each of its last [STATS_SLOTS]
    slots holds the total of the events of that slot. *)

Inductive what := Packet (len : Z) | Opened | Closed.
Record event := Event { e_slot : Z; e_in : bool; e_what : what }.

Definition pkts (x : what) : Z := match x with Packet _ => 1 | _ => 0 end.
Definition bytes (x : what) : Z := match x with Packet n => n | _ => 0 end.
Definition opens (x : what) : Z := match x with Opened => 1 | _ => 0 end.
Definition live (x : what) : Z := match x with Opened => 1 | Closed => -1 | _ => 0 end.

(** The total of [f] in direction [d], of the events of slot [n] or of all. *)
Fixpoint at_slot (f : what -> Z) (d : bool) (n : Z) (l : list event) : Z :=
  match l with
  | [] => 0
  | e :: l => (if Bool.eqb (e_in e) d && (e_slot e =? n) then f (e_what e) else 0) + at_slot f d n l
  end.
Fixpoint total (f : what -> Z) (d : bool) (l : list event) : Z :=
  match l with
  | [] => 0
  | e :: l => (if Bool.eqb (e_in e) d then f (e_what e) else 0) + total f d l
  end.

(** The 32-bit counts of the slots [from] up to [to], added. *)
Definition window (f : what -> Z) (d : bool) (from to : Z) (l : list event) : Z :=
  fold_right Z.add 0 ((fun n => u32 (at_slot f d n l)) <$> seqZ from (to - from)).

Definition ring_ok (c : Z) (r : list Z) (f : Z -> Z) : Prop :=
  length r = Z.to_nat STATS_SLOTS /\
  forall n, 0 <= n -> c - STATS_SLOTS < n <= c -> ring_get r (n mod STATS_SLOTS) = u32 (f n).

Record metry_ok (c : Z) (d : bool) (l : list event) (m : io_metry) : Prop := {
  ok_sess_ring : ring_ok c (sess_ring m) (fun n => at_slot opens d n l);
  ok_pkt_ring : ring_ok c (pkt_ring m) (fun n => at_slot pkts d n l);
  ok_byte_ring : ring_ok c (byte_ring m) (fun n => at_slot bytes d n l);
  ok_session : session m = u64 (total opens d l);
  ok_packet : packet m = u64 (total pkts d l);
  ok_byte : byte m = u64 (total bytes d l);
  ok_cur_session : cur_session m = u32 (total live d l)
}.

Record tracks (s : io_stats) (l : list event) : Prop := {
  t_cur : is_u32 (cur_slot s);
  t_past : Forall (fun e => e_slot e <= cur_slot s) l;
  t_metry : forall d, metry_ok (cur_slot s) d l (metry d s)
}.

(** *** Rings *)

Lemma slot_range n : (Z.to_nat (n mod STATS_SLOTS) < Z.to_nat STATS_SLOTS)%nat.
Proof. unfold STATS_SLOTS. pose proof (Z.mod_pos_bound n 60). lia. Qed.

Lemma slot_inj n m : n mod STATS_SLOTS = m mod STATS_SLOTS -> - STATS_SLOTS < n - m < STATS_SLOTS -> n = m.
Proof. unfold STATS_SLOTS. ulia. Qed.

Lemma ring_get_add r s v t :
  0 <= s -> 0 <= t -> (Z.to_nat s < length r)%nat ->
  ring_get (ring_add s v r) t = if t =? s then u32 (ring_get r s + v) else ring_get r t.
Proof.
  intros Hs Ht Hl. unfold ring_get, ring_add. destruct (Z.eqb_spec t s) as [->|Hne].
  - rewrite list_lookup_alter_eq. destruct (lookup_lt_is_Some_2 r _ Hl) as [x ->]. done.
  - by rewrite list_lookup_alter_ne by lia.
Qed.

Lemma ring_get_set r s v t :
  0 <= s -> 0 <= t -> (Z.to_nat s < length r)%nat ->
  ring_get (ring_set s v r) t = if t =? s then v else ring_get r t.
Proof.
  intros Hs Ht Hl. unfold ring_get, ring_set. destruct (Z.eqb_spec t s) as [->|Hne].
  - by rewrite list_lookup_insert_eq by done.
  - by rewrite list_lookup_insert_ne by lia.
Qed.

Lemma ring_get0 t : ring_get ring0 t = 0.
Proof.
  unfold ring_get, ring0. destruct (_ !! _) eqn:E; [|done]. by apply lookup_replicate in E as [-> _].
Qed.

Lemma ring_ok_ext c r f g : (forall n, f n = g n) -> ring_ok c r f -> ring_ok c r g.
Proof. intros E [? H]. split; [done|]. intros. rewrite <- E. by apply H. Qed.

Lemma ring_ok_clear c c' f : (forall n, c < n -> f n = 0) -> c + STATS_SLOTS <= c' -> ring_ok c' ring0 f.
Proof.
  intros F H. split; [done|]. intros n _ Hn. rewrite ring_get0, F by lia. done.
Qed.

Lemma ring_ok_next c r f : f (c + 1) = 0 -> ring_ok c r f ->
  ring_ok (c + 1) (ring_set ((c + 1) mod STATS_SLOTS) 0 r) f.
Proof.
  intros F [L H]. split; [unfold ring_set; by rewrite length_insert|]. intros n H0 Hn.
  rewrite ring_get_set; [|apply Z.mod_pos_bound; done|apply Z.mod_pos_bound; done|rewrite L; apply slot_range].
  destruct (Z.eqb_spec (n mod STATS_SLOTS) ((c + 1) mod STATS_SLOTS)) as [E|E].
  - apply slot_inj in E as ->; [|unfold STATS_SLOTS in *; lia]. by rewrite F.
  - apply H; [done|]. assert (n <> c + 1) by congruence.
    assert (n <> c + 1 - STATS_SLOTS); [|lia]. intros ->. apply E.
    rewrite <- (Z_mod_plus_full (c + 1 - STATS_SLOTS) 1). f_equal. lia.
Qed.

Lemma ring_ok_add c r f v : 0 <= c -> ring_ok c r f ->
  ring_ok c (ring_add (c mod STATS_SLOTS) v r) (fun n => (if c =? n then v else 0) + f n).
Proof.
  intros Hc [L H]. split; [unfold ring_add; by rewrite length_alter|]. intros n H0 Hn.
  rewrite ring_get_add; [|apply Z.mod_pos_bound; done|apply Z.mod_pos_bound; done|rewrite L; apply slot_range].
  destruct (Z.eqb_spec (n mod STATS_SLOTS) (c mod STATS_SLOTS)) as [E|E].
  - apply slot_inj in E as ->; [|unfold STATS_SLOTS in *; lia].
    rewrite Z.eqb_refl, (H c) by (unfold STATS_SLOTS; lia). rewrite u32_add_l. f_equal. lia.
  - destruct (Z.eqb_spec c n); [congruence|]. by apply H.
Qed.

(** *** One event *)

Lemma u64_add_l a b : u64 (u64 a + b) = u64 (a + b).
Proof. apply Zplus_mod_idemp_l. Qed.

Lemma at_slot_other f d d0 n c x l : d0 <> d \/ f x = 0 -> at_slot f d n (Event c d0 x :: l) = at_slot f d n l.
Proof. intros H. simpl. destruct (Bool.eqb_spec d0 d), (c =? n); simpl; destruct H; try done; lia. Qed.

Lemma total_other f d d0 c x l : d0 <> d \/ f x = 0 -> total f d (Event c d0 x :: l) = total f d l.
Proof. intros H. simpl. destruct (Bool.eqb_spec d0 d); destruct H; try done; lia. Qed.

Lemma total_this f d c x l : total f d (Event c d x :: l) = total f d l + f x.
Proof. simpl. rewrite Bool.eqb_reflx. lia. Qed.

Lemma ring_ok_other c r f d d0 x l : d0 <> d \/ f x = 0 ->
  ring_ok c r (fun n => at_slot f d n l) -> ring_ok c r (fun n => at_slot f d n (Event c d0 x :: l)).
Proof. intros H. apply ring_ok_ext. intros n. by rewrite at_slot_other. Qed.

Lemma ring_ok_this c r f d x l : 0 <= c ->
  ring_ok c r (fun n => at_slot f d n l) ->
  ring_ok c (ring_add (c mod STATS_SLOTS) (f x) r) (fun n => at_slot f d n (Event c d x :: l)).
Proof.
  intros Hc H. eapply ring_ok_ext; [|by apply ring_ok_add]. intros n. simpl. by rewrite Bool.eqb_reflx.
Qed.

Section one.
Context (c : Z) (d : bool) (l : list event) (m : io_metry) (Hc : 0 <= c) (H : metry_ok c d l m).

Lemma metry_ok_other d0 x : d0 <> d -> metry_ok c d (Event c d0 x :: l) m.
Proof.
  intros Hd. destruct H. constructor; rewrite ?total_other by auto; auto using ring_ok_other.
Qed.

Lemma metry_ok_packet n : metry_ok c d (Event c d (Packet n) :: l) (count_packet (c mod STATS_SLOTS) n m).
Proof.
  destruct H as [? ? ? Es Ep Eb Ec]. constructor; simpl session; simpl packet; simpl byte; simpl cur_session.
  - apply ring_ok_other; auto.
  - by apply (ring_ok_this c (pkt_ring m) pkts d (Packet n) l).
  - by apply (ring_ok_this c (byte_ring m) bytes d (Packet n) l).
  - rewrite total_other by auto. done.
  - rewrite total_this, Ep. apply u64_add_l.
  - rewrite total_this, Eb. apply u64_add_l.
  - rewrite total_other by auto. done.
Qed.

Lemma metry_ok_open : metry_ok c d (Event c d Opened :: l) (count_session (c mod STATS_SLOTS) m).
Proof.
  destruct H as [? ? ? Es Ep Eb Ec]. constructor; simpl session; simpl packet; simpl byte; simpl cur_session.
  - by apply (ring_ok_this c (sess_ring m) opens d Opened l).
  - apply ring_ok_other; auto.
  - apply ring_ok_other; auto.
  - rewrite total_this, Es. apply u64_add_l.
  - rewrite total_other by auto. done.
  - rewrite total_other by auto. done.
  - rewrite total_this, Ec. apply u32_add_l.
Qed.

Lemma metry_ok_close : metry_ok c d (Event c d Closed :: l) (uncount_session m).
Proof.
  destruct H as [? ? ? Es Ep Eb Ec]. constructor; simpl session; simpl packet; simpl byte; simpl cur_session;
    rewrite ?total_other by auto; auto using ring_ok_other.
  rewrite total_this, Ec. simpl live. by rewrite u32_sub_l.
Qed.
End one.

Lemma at_slot_future f d n l c : Forall (fun e => e_slot e <= c) l -> c < n -> at_slot f d n l = 0.
Proof.
  induction 1 as [|e l He _ IH]; intros Hn; [done|]. simpl. rewrite IH by done.
  destruct (Z.eqb_spec (e_slot e) n); [lia|]. by rewrite andb_false_r.
Qed.

Lemma metry_ok_next c d l m : Forall (fun e => e_slot e <= c) l ->
  metry_ok c d l m -> metry_ok (c + 1) d l (clear_slot ((c + 1) mod STATS_SLOTS) m).
Proof.
  intros F []. constructor; try done; apply ring_ok_next; try done;
    by apply at_slot_future with c; [|lia].
Qed.

Lemma metry_ok_clear c c' d l m : Forall (fun e => e_slot e <= c) l -> c + STATS_SLOTS <= c' ->
  metry_ok c d l m -> metry_ok c' d l (clear_rings m).
Proof.
  intros F L []. constructor; try done; (apply ring_ok_clear with c; [|done]); intros; by eapply at_slot_future.
Qed.

(** *** Catching up *)

Lemma past_le c c' l : Forall (fun e => e_slot e <= c) l -> c <= c' -> Forall (fun e => e_slot e <= c') l.
Proof. intros F ?. eapply Forall_impl; [exact F|]. simpl. lia. Qed.

Lemma catch_loop_ok fuel slot s l :
  tracks s l -> is_u32 slot -> cur_slot s <= slot -> slot - cur_slot s <= Z.of_nat fuel ->
  tracks (catch_loop fuel slot s) l /\ cur_slot (catch_loop fuel slot s) = slot.
Proof.
  revert s. induction fuel as [|fuel IH]; intros s T U L F; simpl; [split; [done|lia]|].
  destruct (Z.ltb_spec (cur_slot s) slot); [|split; [done|lia]].
  destruct T as [Tc Tp Tm]. rewrite (u32_id (cur_slot s + 1)) by ulia.
  apply IH; simpl; try done; try lia. constructor; simpl.
  - ulia.
  - apply past_le with (cur_slot s); [done|lia].
  - intros d. pose proof (metry_ok_next _ _ _ _ Tp (Tm d)) as H1. by destruct d.
Qed.

Lemma catch_ok slot s l :
  tracks s l -> is_u32 slot -> cur_slot s <= slot ->
  tracks (dpi_catch_stats_slot s slot) l /\ cur_slot (dpi_catch_stats_slot s slot) = slot.
Proof.
  intros T U L. pose proof (t_cur _ _ T) as Uc. unfold dpi_catch_stats_slot. rewrite (u32_id (slot - _)) by ulia.
  destruct (Z.leb_spec STATS_SLOTS (slot - cur_slot s)).
  - split; [|done]. destruct T as [Tc Tp Tm]. constructor; [done|by eapply past_le|].
    intros d. assert (cur_slot s + STATS_SLOTS <= slot) as L' by lia.
    pose proof (metry_ok_clear _ _ _ _ _ Tp L' (Tm d)). by destruct d.
  - apply catch_loop_ok; try done. lia.
Qed.

Lemma tracks_event s l d x g :
  tracks s l ->
  (metry_ok (cur_slot s) d l (metry d s) -> metry_ok (cur_slot s) d (Event (cur_slot s) d x :: l) (g (metry d s))) ->
  tracks (on_metry d g s) (Event (cur_slot s) d x :: l).
Proof.
  intros [Tc Tp Tm] G. assert (cur_slot (on_metry d g s) = cur_slot s) as E by by destruct d.
  constructor; rewrite E; [done|by constructor|]. intros d'.
  destruct (Bool.bool_dec d d') as [<-|Hd].
  - specialize (G (Tm d)). by destruct d.
  - pose proof (metry_ok_other _ _ _ _ (Tm d') d x Hd). by destruct d, d'.
Qed.

Lemma tracks0 : tracks stats0 [].
Proof.
  constructor; [done|done|]. intros d. assert (metry d stats0 = metry0) as -> by by destruct d.
  constructor; try done; (split; [done|]); intros; apply ring_get0.
Qed.

(** ** Histories

    [history w lg p]: the packet path has led to the statistics [w]; [lg] is what
    happened, and [p] the endpoint of the packet in hand, whose session may be opened.
    The slot of the receive context never goes back; an endpoint may be allocated anew,
    and the map of endpoints is any at every step. *)

Record slog := SLog { th_log : list event; ep_log : Z -> list event }.
Definition note (e : event) (ep : option (Z * event)) (lg : slog) : slog :=
  SLog (e :: th_log lg)
    (match ep with Some (ep, e) => upd ep (e :: ep_log lg ep) (ep_log lg) | None => ep_log lg end).

Inductive history : sworld -> slog -> option Z -> Prop :=
  | h_start : history (SWorld stats0 (fun _ => stats0)) (SLog [] (fun _ => [])) None
  | h_alloc w lg p ep : history w lg p ->
      history (SWorld (th_stats w) (upd ep stats0 (eps w))) (SLog (th_log lg) (upd ep [] (ep_log lg))) None
  | h_recv w lg p ep d len slot : history w lg p ->
      is_u32 slot -> cur_slot (th_stats w) <= slot ->
      let e := Event slot d (Packet len) in
      history (recv_stats w ep d len slot) (note e (Some (ep, e)) lg) (Some ep)
  | h_open w lg ep g_ep_map s : history w lg (Some ep) ->
      (forall ep', g_ep_map (sess_mac s) = Some ep' -> ep' = ep) ->
      let e := Event (cur_slot (th_stats w)) (sess_ingress s) Opened in
      history (dpi_inc_stats_session g_ep_map w ep s)
        (note e ((fun ep => (ep, e)) <$> g_ep_map (sess_mac s)) lg) (Some ep)
  | h_close w lg p g_ep_map s : history w lg p ->
      let e c := Event c (sess_ingress s) Closed in
      history (dpi_dec_stats_session g_ep_map w s)
        (note (e (cur_slot (th_stats w)))
           ((fun ep => (ep, e (cur_slot (eps w ep)))) <$> g_ep_map (sess_mac s)) lg) p.

Record hist_ok (w : sworld) (lg : slog) (p : option Z) : Prop := {
  h_th : tracks (th_stats w) (th_log lg);
  h_ep : forall ep, tracks (eps w ep) (ep_log lg ep);
  h_le : forall ep, cur_slot (eps w ep) <= cur_slot (th_stats w);
  h_p : forall ep, p = Some ep -> cur_slot (eps w ep) = cur_slot (th_stats w)
}.

Lemma upd_same {A} k (v : A) f : upd k v f k = v.
Proof. unfold upd. by rewrite Z.eqb_refl. Qed.

Lemma upd_cases {A} (P : Z -> A -> Prop) k v f : P k v -> (forall x, P x (f x)) -> forall x, P x (upd k v f x).
Proof. intros Hk Hf x. unfold upd. destruct (Z.eqb_spec x k) as [->|]; auto. Qed.

Lemma upd_cases2 {A B} (P : A -> B -> Prop) k v f v' f' :
  P v v' -> (forall x, P (f x) (f' x)) -> forall x, P (upd k v f x) (upd k v' f' x).
Proof. intros Hk Hf x. unfold upd. destruct (Z.eqb_spec x k) as [->|]; auto. Qed.

Lemma cur_on_metry d g s : cur_slot (on_metry d g s) = cur_slot s.
Proof. by destruct d. Qed.

(** The statistics after both were caught up, if they needed to be. *)
Lemma caught_ok slot s l : tracks s l -> is_u32 slot -> cur_slot s <= slot ->
  let s' := if negb (cur_slot s =? slot) then dpi_catch_stats_slot s slot else s in
  tracks s' l /\ cur_slot s' = slot.
Proof.
  intros. destruct (Z.eqb_spec (cur_slot s) slot); simpl; [done|by apply catch_ok].
Qed.

Lemma recv_eq w ep d len slot :
  let catch s := if negb (cur_slot s =? slot) then dpi_catch_stats_slot s slot else s in
  let count s := on_metry d (count_packet (cur_slot (catch (eps w ep)) mod STATS_SLOTS) len) (catch s) in
  th_stats (recv_stats w ep d len slot) = count (th_stats w) /\
  forall x, eps (recv_stats w ep d len slot) x = upd ep (count (eps w ep)) (eps w) x.
Proof.
  cbv zeta. unfold recv_stats, dpi_inc_stats_packet.
  destruct (cur_slot (eps w ep) =? slot) eqn:E; simpl negb; cbv iota; simpl th_stats; simpl eps;
    destruct (cur_slot (th_stats w) =? slot) eqn:E2; simpl negb; cbv iota; simpl th_stats; simpl eps;
    rewrite ?upd_same; split; try done; intros x; unfold upd; by destruct (x =? ep).
Qed.

Lemma recv_ok w lg p ep d len slot : hist_ok w lg p ->
  is_u32 slot -> cur_slot (th_stats w) <= slot ->
  let e := Event slot d (Packet len) in
  hist_ok (recv_stats w ep d len slot) (note e (Some (ep, e)) lg) (Some ep).
Proof.
  intros [Ht He Hl Hp] U L e.
  destruct (recv_eq w ep d len slot) as [E1 E2].
  destruct (caught_ok slot _ _ Ht U L) as [T1 C1].
  destruct (caught_ok slot _ _ (He ep) U ltac:(specialize (Hl ep); lia)) as [T2 C2].
  cbv zeta in *. rewrite C2 in E1, E2.
  assert (forall s l, tracks s l -> cur_slot s = slot ->
            tracks (on_metry d (count_packet (slot mod STATS_SLOTS) len) s) (e :: l)) as Hc.
  { intros s l T C. unfold e. rewrite <- C. apply tracks_event; [done|]. intros ?. apply metry_ok_packet; [|done].
    pose proof (t_cur _ _ T). ulia. }
  constructor.
  - rewrite E1. by apply Hc.
  - intros x. rewrite E2. revert x. apply upd_cases2; [by apply Hc|done].
  - intros x. rewrite E1, E2, cur_on_metry, C1. revert x.
    apply (upd_cases (fun _ s => cur_slot s <= slot)); [by rewrite cur_on_metry, C2|].
    intros x. specialize (Hl x). lia.
  - intros x [= <-]. by rewrite E1, E2, upd_same, !cur_on_metry, C1, C2.
Qed.

Lemma open_ok w lg ep g_ep_map s : hist_ok w lg (Some ep) ->
  (forall ep', g_ep_map (sess_mac s) = Some ep' -> ep' = ep) ->
  let e := Event (cur_slot (th_stats w)) (sess_ingress s) Opened in
  hist_ok (dpi_inc_stats_session g_ep_map w ep s)
    (note e ((fun ep => (ep, e)) <$> g_ep_map (sess_mac s)) lg) (Some ep).
Proof.
  intros [Ht He Hl Hp] G e. specialize (Hp ep eq_refl).
  set (d := sess_ingress s) in *.
  assert (forall s l, tracks s l -> cur_slot s = cur_slot (th_stats w) ->
            tracks (on_metry d (count_session (cur_slot (th_stats w) mod STATS_SLOTS)) s) (e :: l)) as Hc.
  { intros s' l T C. unfold e. rewrite <- C. apply tracks_event; [done|]. intros ?. apply metry_ok_open; [|done].
    pose proof (t_cur _ _ T). ulia. }
  unfold dpi_inc_stats_session, note. fold d. rewrite Hp.
  destruct (g_ep_map (sess_mac s)) as [ep'|]; simpl.
  - rewrite (G ep' eq_refl). constructor; simpl.
    + by apply Hc.
    + apply upd_cases2; [by apply Hc|done].
    + rewrite cur_on_metry. apply (upd_cases (fun _ s => cur_slot s <= cur_slot (th_stats w))); [|done].
      by rewrite cur_on_metry, Hp.
    + intros x [= <-]. by rewrite upd_same, !cur_on_metry.
  - constructor; simpl; [by apply Hc|done|by rewrite cur_on_metry|]. intros x [= <-]. by rewrite cur_on_metry.
Qed.

Lemma close_ok w lg p g_ep_map s : hist_ok w lg p ->
  let e c := Event c (sess_ingress s) Closed in
  hist_ok (dpi_dec_stats_session g_ep_map w s)
    (note (e (cur_slot (th_stats w)))
       ((fun ep => (ep, e (cur_slot (eps w ep)))) <$> g_ep_map (sess_mac s)) lg) p.
Proof.
  intros [Ht He Hl Hp] e. set (d := sess_ingress s) in *.
  assert (forall s l, tracks s l -> tracks (on_metry d uncount_session s) (e (cur_slot s) :: l)) as Hc.
  { intros s' l T. apply tracks_event; [done|]. apply metry_ok_close. }
  unfold dpi_dec_stats_session, note. fold d.
  destruct (g_ep_map (sess_mac s)) as [ep|]; simpl; constructor; simpl; try by apply Hc.
  - apply upd_cases2; [by apply Hc|done].
  - rewrite cur_on_metry. apply (upd_cases (fun _ s => cur_slot s <= cur_slot (th_stats w))); [|done].
    by rewrite cur_on_metry.
  - intros x Hx. rewrite cur_on_metry. unfold upd. destruct (Z.eqb_spec x ep) as [->|]; rewrite ?cur_on_metry; auto.
  - done.
  - by rewrite cur_on_metry.
  - rewrite cur_on_metry. done.
Qed.

Lemma history_ok w lg p : history w lg p -> hist_ok w lg p.
Proof.
  induction 1 as [|w lg p ep _ [Ht He Hl Hp]|? ? ? ? ? ? ? _ IH|? ? ? ? ? _ IH|? ? ? ? ? _ IH].
  - constructor; simpl; [apply tracks0|intros; apply tracks0|done|done].
  - constructor; simpl; [done|apply upd_cases2; [apply tracks0|done]| |done].
    apply (upd_cases (fun _ s => cur_slot s <= cur_slot (th_stats w))); [|done].
    pose proof (t_cur _ _ Ht). simpl. ulia.
  - by eapply recv_ok.
  - by apply open_ok.
  - by apply close_ok.
Qed.

(** ** Reports

    [report T W1 W12 W60]: the counts of a message, from the total and the three windows
    of each quantity. *)

Definition report (T W1 W12 W60 : (what -> Z) -> Z) : ctrl_stats :=
  CtrlStats (T opens) (T live) (T pkts) (T bytes) (W1 opens) (W1 pkts) (W1 bytes)
    (W12 opens) (W12 pkts) (W12 bytes) (W60 opens) (W60 pkts) (W60 bytes).

Definition zsum {A} (f : A -> Z) (l : list A) : Z := fold_right Z.add 0 (f <$> l).

Lemma zsum_ext {A} (f g : A -> Z) l : (forall x, x ∈ l -> f x = g x) -> zsum f l = zsum g l.
Proof.
  intros H. unfold zsum. f_equal. apply list_fmap_ext. intros i x Hx. apply H.
  by eapply list_elem_of_lookup_2.
Qed.

Lemma zsum_bound {A} (f : A -> Z) l b :
  0 <= b -> (forall x, 0 <= f x <= b) -> 0 <= zsum f l <= b * Z.of_nat (length l).
Proof.
  intros Hb H. induction l as [|x l IH]; [unfold zsum; simpl; lia|].
  change (zsum f (x :: l)) with (f x + zsum f l).
  rewrite length_cons, Nat2Z.inj_succ, Z.mul_succ_r. specialize (H x). lia.
Qed.

Lemma fold_u64 {A} (f : A -> Z) l acc :
  fold_left (fun acc x => u64 (acc + f x)) l (u64 acc) = u64 (acc + zsum f l).
Proof.
  revert acc. induction l as [|x l IH]; intros acc.
  - unfold zsum. simpl. by rewrite Z.add_0_r.
  - simpl fold_left. rewrite u64_add_l, IH. change (zsum f (x :: l)) with (f x + zsum f l). by rewrite Z.add_assoc.
Qed.

(** A loop that adds up at most 2^32 slots does not overflow. *)
Lemma fold_slots (get h : Z -> Z) from len :
  (forall n, n ∈ seqZ from len -> get n = u32 (h n)) -> len < 2 ^ 32 ->
  fold_left (fun acc n => u64 (acc + get n)) (seqZ from len) 0 = zsum (fun n => u32 (h n)) (seqZ from len).
Proof.
  intros G L. change 0 with (u64 0) at 1. rewrite fold_u64, (zsum_ext _ _ _ G). apply Z.mod_small.
  pose proof (zsum_bound (fun n => u32 (h n)) (seqZ from len) (2 ^ 32 - 1)) as B. rewrite length_seqZ in B.
  destruct B as [B1 B2]; [lia|intros x; ulia|]. nia.
Qed.

Lemma ring_sum_window c f d l r from :
  0 <= from -> 0 <= c < 2 ^ 32 -> c - STATS_SLOTS < from -> ring_ok c r (fun n => at_slot f d n l) ->
  ring_sum r from c = window f d from c l.
Proof.
  intros H0 Hc Hf [L H]. apply (fold_slots (fun n => ring_get r (n mod STATS_SLOTS))); [|lia].
  intros n Hn%elem_of_seqZ. apply H; lia.
Qed.

Lemma window_empty f d from to l : to <= from -> window f d from to l = 0.
Proof. intros H. unfold window. by rewrite seqZ_nil by lia. Qed.

Section collect.
Context (s : io_stats) (d : bool) (l : list event) (T : tracks s l) (cur : Z).
Context (Hcur : 0 < cur) (Hle : cur_slot s <= cur) (Hmax : cur + 59 < 2 ^ 32).
Let last := cur_slot s.
Let lo n := Z.max 0 (cur - n).

Lemma last_slot f r : ring_ok last r (fun n => at_slot f d n l) ->
  (if (0 <? cur) && (cur <=? u32 (last + 1)) then ring_get r ((cur - 1) mod STATS_SLOTS) else 0) =
  u32 (at_slot f d (cur - 1) l).
Proof.
  intros [L H]. pose proof (t_cur _ _ T). subst last. rewrite (u32_id (cur_slot s + 1)) by ulia.
  destruct (Z.ltb_spec 0 cur); [|lia]. simpl.
  destruct (Z.leb_spec cur (cur_slot s + 1)).
  - apply H; unfold STATS_SLOTS; lia.
  - rewrite (at_slot_future _ _ _ _ (cur_slot s)); [done|apply T|lia].
Qed.

Lemma slots f r k : 0 < k < STATS_SLOTS -> ring_ok last r (fun n => at_slot f d n l) ->
  (if cur <=? u32 (last + k) then ring_sum r (if k <=? cur then cur - k else 0) last else 0) =
  window f d (lo k) last l.
Proof.
  intros Hk H. pose proof (t_cur _ _ T). subst last. unfold STATS_SLOTS in *. rewrite (u32_id (cur_slot s + k)) by ulia.
  replace (if k <=? cur then cur - k else 0) with (lo k) by (unfold lo; destruct (Z.leb_spec k cur); lia).
  destruct (Z.leb_spec cur (cur_slot s + k)).
  - apply ring_sum_window; [unfold lo; lia|ulia|unfold lo, STATS_SLOTS; lia|done].
  - symmetry. apply window_empty. unfold lo. lia.
Qed.

(** What collect_stats reports for an endpoint. *)
Lemma collect_report :
  map_stats u32 u64 (collect_stats ctrl_stats0 (metry d s) cur last) =
  map_stats u32 u64
    (report (fun f => total f d l) (fun f => u32 (at_slot f d (cur - 1) l))
       (fun f => window f d (lo 12) last l) (fun f => window f d (lo 59) last l)).
Proof.
  destruct (t_metry _ _ T d) as [R1 R2 R3 E1 E2 E3 E4].
  pose proof (last_slot _ _ R1) as A1. pose proof (last_slot _ _ R2) as A2. pose proof (last_slot _ _ R3) as A3.
  pose proof (slots _ _ 12 ltac:(done) R1) as B1. pose proof (slots _ _ 12 ltac:(done) R2) as B2.
  pose proof (slots _ _ 12 ltac:(done) R3) as B3.
  pose proof (slots _ _ 59 ltac:(done) R1) as C1. pose proof (slots _ _ 59 ltac:(done) R2) as C2.
  pose proof (slots _ _ 59 ltac:(done) R3) as C3.
  unfold report, collect_stats. rewrite <- A1, <- A2, <- A3, <- B1, <- B2, <- B3, <- C1, <- C2, <- C3.
  destruct (metry d s) as [se pk by_ sr pr br cs]; simpl in *. subst se pk by_ cs.
  destruct (_ && _), (cur <=? u32 (last + 12)), (cur <=? u32 (last + 59)); unfold map_stats; simpl; f_equal;
    unfold u32, u64; rewrite ?Zmod_mod; ulia.
Qed.
End collect.

(** *** The message for a set of MAC addresses *)

Definition m_dir (d : bool) (m : DPMsgStats) : ctrl_stats := if d then MIn m else MOut m.

Lemma add_stats_report c T W1 W12 W60 T' W1' W12' W60' :
  map_stats u32 u64 c = map_stats u32 u64 (report T' W1' W12' W60') ->
  add_stats (map_stats u32 u64 (report T W1 W12 W60)) c =
  map_stats u32 u64 (report (fun f => T f + T' f) (fun f => W1 f + W1' f)
                            (fun f => W12 f + W12' f) (fun f => W60 f + W60' f)).
Proof.
  intros E. assert (forall x y y', u32 y = u32 y' -> u32 (u32 x + y) = u32 (x + y')) as H32.
  { intros x y y' H. by rewrite u32_add_l, <- u32_add_r, H, u32_add_r. }
  assert (forall x y y', u64 y = u64 y' -> u64 (u64 x + y) = u64 (x + y')) as H64.
  { intros x y y' H. rewrite u64_add_l, (Z.add_comm x y), (Z.add_comm x y').
    by rewrite <- (u64_add_l y), H, u64_add_l. }
  unfold map_stats, report in *. simpl in *. injection E as E1 E2 E3 E4 E5 E6 E7 E8 E9 E10 E11 E12 E13.
  unfold add_stats. simpl. f_equal; auto.
Qed.

Lemma report_ext T W1 W12 W60 T' W1' W12' W60' :
  (forall f, T f = T' f) -> (forall f, W1 f = W1' f) -> (forall f, W12 f = W12' f) -> (forall f, W60 f = W60' f) ->
  report T W1 W12 W60 = report T' W1' W12' W60'.
Proof. intros A B C D. unfold report. by rewrite !A, !B, !C, !D. Qed.

Lemma stats_macs_report (g_ep_map : Z -> option Z) (stats : Z -> io_stats) (log : Z -> list event)
    (cur : Z) (d : bool) (macs : list Z) m T W1 W12 W60 :
  (forall ep, tracks (stats ep) (log ep)) -> (forall ep, cur_slot (stats ep) <= cur) ->
  0 < cur -> cur + 59 < 2 ^ 32 ->
  m_dir d m = map_stats u32 u64 (report T W1 W12 W60) ->
  let found := omap g_ep_map macs in
  let last ep := cur_slot (stats ep) in
  m_dir d (fold_left (stats_mac g_ep_map stats cur) macs m) =
  map_stats u32 u64
    (report (fun f => T f + zsum (fun ep => total f d (log ep)) found)
       (fun f => W1 f + zsum (fun ep => u32 (at_slot f d (cur - 1) (log ep))) found)
       (fun f => W12 f + zsum (fun ep => window f d (Z.max 0 (cur - 12)) (last ep) (log ep)) found)
       (fun f => W60 f + zsum (fun ep => window f d (Z.max 0 (cur - 59)) (last ep) (log ep)) found)).
Proof.
  intros Ht Hl H0 Hm. cbv zeta. revert m T W1 W12 W60.
  induction macs as [|mac macs IH]; intros m T W1 W12 W60 E.
  - simpl. rewrite E. f_equal. apply report_ext; intros; unfold zsum; simpl; lia.
  - simpl fold_left. unfold stats_mac at 2. simpl omap. destruct (g_ep_map mac) as [ep|] eqn:G.
    + erewrite IH.
      2:{ assert (forall i a b, m_dir d (MkStats i a b) = if d then a else b) as -> by by destruct d.
          transitivity (add_stats (m_dir d m) (collect_stats ctrl_stats0 (metry d (stats ep)) cur (cur_slot (stats ep)))).
          { by destruct d. }
          rewrite E. apply add_stats_report. by apply collect_report. }
      f_equal. apply report_ext; intros f; unfold zsum; simpl; by rewrite Z.add_assoc.
    + by apply IH.
Qed.

(** *** The message for the device *)

Lemma fold_left_hom {A B C} (h : A -> B) (F : A -> C -> A) (G : B -> C -> B) l a :
  (forall a x, h (F a x) = G (h a) x) -> h (fold_left F l a) = fold_left G l (h a).
Proof. intros H. revert a. induction l as [|x l IH]; intros a; simpl; [done|]. by rewrite IH, H. Qed.

Lemma fold_ring_add (g : Z -> Z) k r i :
  (Z.of_nat k <= Z.of_nat (length r)) -> 0 <= i ->
  let r' := fold_left (fun r i => ring_add i (g i) r) (seqZ 0 (Z.of_nat k)) r in
  length r' = length r /\
  ring_get r' i = if i <? Z.of_nat k then u32 (ring_get r i + g i) else ring_get r i.
Proof.
  cbv zeta. induction k as [|k IH]; intros Hk Hi.
  - rewrite seqZ_nil by lia. simpl fold_left. destruct (Z.ltb_spec i (Z.of_nat 0)); [lia|done].
  - destruct IH as [L E]; [lia|done|]. rewrite seqZ_S, fold_left_app, Nat2Z.inj_succ. simpl fold_left.
    set (r' := fold_left _ _ r) in *. split; [unfold ring_add; by rewrite length_alter|].
    rewrite ring_get_add by (rewrite ?L; lia). replace (0 + Z.of_nat k) with (Z.of_nat k) by lia.
    destruct (Z.eqb_spec i (Z.of_nat k)) as [->|Hne].
    + rewrite E. destruct (Z.ltb_spec (Z.of_nat k) (Z.of_nat k)), (Z.ltb_spec (Z.of_nat k) (Z.succ (Z.of_nat k))); lia || done.
    + rewrite E. destruct (Z.ltb_spec i (Z.of_nat k)), (Z.ltb_spec i (Z.succ (Z.of_nat k))); lia || done.
Qed.

(** The three counted quantities and the ring of each. *)
Inductive quantity := QSess | QPkt | QByte.
Definition q_of (q : quantity) : what -> Z := match q with QSess => opens | QPkt => pkts | QByte => bytes end.
Definition q_ring (q : quantity) : io_metry -> list Z :=
  match q with QSess => sess_ring | QPkt => pkt_ring | QByte => byte_ring end.

Lemma metry_ring c d l m q : metry_ok c d l m -> ring_ok c (q_ring q m) (fun n => at_slot (q_of q) d n l).
Proof. intros []. by destruct q. Qed.

Section device.
Context (g : Z) (Hg : STATS_SLOTS <= g < 2 ^ 32 - 1).

Lemma callback_ring q d a s :
  q_ring q (metry d (dpi_stats_callback g a s)) =
  fold_left (fun r i => ring_add i (ring_get (q_ring q (metry d s)) ((g - STATS_SLOTS + i) mod STATS_SLOTS)) r)
    (seqZ 0 (Z.min g (u32 (cur_slot s + 1)) - (g - STATS_SLOTS))) (q_ring q (metry d a)).
Proof.
  unfold dpi_stats_callback. destruct (Z.ltb_spec g STATS_SLOTS) as [|_]; [lia|].
  rewrite (fold_left_hom (fun s => q_ring q (metry d s)) _
    (fun r i => ring_add i (ring_get (q_ring q (metry d s)) ((g - STATS_SLOTS + i) mod STATS_SLOTS)) r)).
  - by destruct q, d.
  - intros b x. by destruct q, d.
Qed.

(** The slot of thread [s] that is added to slot [i] of the device.  A thread that has
    entered the current slot [g] has reused the counter of slot g - STATS_SLOTS. *)
Definition slot_at (s : io_stats) (i : Z) : Z := if cur_slot s =? g + i then g else g - STATS_SLOTS + i.

Lemma callback_slot q d a s l i :
  tracks s l -> cur_slot s <= g -> 0 <= i < STATS_SLOTS ->
  length (q_ring q (metry d a)) = Z.to_nat STATS_SLOTS -> is_u32 (ring_get (q_ring q (metry d a)) i) ->
  ring_get (q_ring q (metry d (dpi_stats_callback g a s))) i =
  u32 (ring_get (q_ring q (metry d a)) i + at_slot (q_of q) d (slot_at s i) l).
Proof.
  intros T L Hi La Ua. pose proof (t_cur _ _ T) as Uc. rewrite callback_ring, (u32_id (cur_slot s + 1)) by ulia.
  destruct (metry_ring _ _ _ _ q (t_metry _ _ T d)) as [_ R]. unfold slot_at.
  set (k := Z.min g (cur_slot s + 1) - (g - STATS_SLOTS)).
  assert (k <= i -> at_slot (q_of q) d (if cur_slot s =? g + i then g else g - STATS_SLOTS + i) l = 0) as Hnone.
  { intros Hk. destruct (Z.eqb_spec (cur_slot s) (g + i)); [unfold k, STATS_SLOTS in *; lia|].
    apply at_slot_future with (cur_slot s); [apply T|unfold k in Hk; lia]. }
  destruct (Z.le_gt_cases k 0) as [Hk|Hk].
  - rewrite seqZ_nil by done. simpl. rewrite Hnone by lia. by rewrite Z.add_0_r, u32_id.
  - rewrite <- (Z2Nat.id k) by lia.
    edestruct (fold_ring_add (fun i => ring_get (q_ring q (metry d s)) ((g - STATS_SLOTS + i) mod STATS_SLOTS))
      (Z.to_nat k)) as [_ ->]; [rewrite La; unfold k, STATS_SLOTS in *; lia|by apply Hi|].
    rewrite Z2Nat.id by lia. destruct (Z.ltb_spec i k) as [Hik|Hik]; [|rewrite Hnone by lia; by rewrite Z.add_0_r, u32_id].
    destruct (Z.eqb_spec (cur_slot s) (g + i)).
    + replace ((g - STATS_SLOTS + i) mod STATS_SLOTS) with (g mod STATS_SLOTS)
        by (unfold STATS_SLOTS in *; rewrite <- (Z_mod_plus_full (g - 60 + i) 1); f_equal; lia).
      rewrite R by (unfold STATS_SLOTS in *; lia). by rewrite u32_add_r.
    + rewrite R by (unfold k, STATS_SLOTS in *; lia). by rewrite u32_add_r.
Qed.

Lemma callback_length q d a s :
  cur_slot s <= g -> is_u32 (cur_slot s) ->
  length (q_ring q (metry d a)) = Z.to_nat STATS_SLOTS ->
  length (q_ring q (metry d (dpi_stats_callback g a s))) = Z.to_nat STATS_SLOTS.
Proof.
  intros L U La. rewrite callback_ring. generalize (seqZ 0 (Z.min g (u32 (cur_slot s + 1)) - (g - STATS_SLOTS))).
  intros l. revert La. generalize (q_ring q (metry d a)). induction l as [|x l IH]; intros r Hr; simpl; [done|].
  apply IH. unfold ring_add. by rewrite length_alter.
Qed.

(** The threads, with their histories. *)
Definition threads_ok (ths : list (io_stats * list event)) : Prop :=
  Forall (fun '(s, l) => tracks s l /\ cur_slot s <= g) ths.

Lemma get_stats_slot q d i ths : threads_ok ths -> 0 <= i < STATS_SLOTS -> forall a F,
  length (q_ring q (metry d a)) = Z.to_nat STATS_SLOTS -> ring_get (q_ring q (metry d a)) i = u32 F ->
  let a' := dpi_get_stats ths.*1 a (dpi_stats_callback g) in
  length (q_ring q (metry d a')) = Z.to_nat STATS_SLOTS /\
  ring_get (q_ring q (metry d a')) i =
  u32 (F + zsum (fun '(s, l) => at_slot (q_of q) d (slot_at s i) l) ths).
Proof.
  intros Hth Hi. induction Hth as [|[s l] ths [T L] _ IH]; intros a F La Ea.
  - split; [done|]. unfold zsum. simpl. by rewrite Z.add_0_r.
  - destruct (IH (dpi_stats_callback g a s) (F + at_slot (q_of q) d (slot_at s i) l)) as [L' E'].
    + apply callback_length; [done|apply T|done].
    + rewrite (callback_slot _ _ _ _ l) by (done || rewrite ?Ea; apply u32_range || done).
      by rewrite Ea, u32_add_l.
    + split; [exact L'|]. etransitivity; [exact E'|]. f_equal. symmetry. apply Z.add_assoc.
Qed.

Lemma get_stats_totals d ths : threads_ok ths -> forall a S P B C,
  session (metry d a) = u64 S -> packet (metry d a) = u64 P -> byte (metry d a) = u64 B ->
  cur_session (metry d a) = u32 C ->
  let m := metry d (dpi_get_stats ths.*1 a (dpi_stats_callback g)) in
  let sum f := zsum (fun '(_, l) => total f d l) ths in
  session m = u64 (S + sum opens) /\ packet m = u64 (P + sum pkts) /\
  byte m = u64 (B + sum bytes) /\ cur_session m = u32 (C + sum live).
Proof.
  induction 1 as [|[s l] ths [T L] _ IH]; intros a S P B C E1 E2 E3 E4.
  - unfold zsum. simpl. by rewrite !Z.add_0_r.
  - assert (forall {X} (h : io_metry -> X), (forall i r b a, h (metry_slot i r b a) = h a) ->
      h (metry d (dpi_stats_callback g a s)) = h (metry_sum (metry d a) (metry d s))) as Hh.
    { intros X h H. unfold dpi_stats_callback.
      rewrite (fold_left_hom (fun s => h (metry d s)) _ (fun x _ => x)); [|intros b x; destruct d; apply H].
      transitivity (h (metry d (IoStats (cur_slot a) (metry_sum (s_in a) (s_in s)) (metry_sum (s_out a) (s_out s))))).
      - generalize (h (metry d (IoStats (cur_slot a) (metry_sum (s_in a) (s_in s)) (metry_sum (s_out a) (s_out s))))).
        intros x. induction (seqZ _ _); simpl; done.
      - by destruct d. }
    destruct (t_metry _ _ T d) as [_ _ _ F1 F2 F3 F4].
    destruct (IH (dpi_stats_callback g a s) (S + total opens d l) (P + total pkts d l) (B + total bytes d l)
                 (C + total live d l)) as (G1 & G2 & G3 & G4).
    + rewrite (Hh _ session) by done. simpl. rewrite E1, F1. unfold u64. by rewrite <- Zplus_mod.
    + rewrite (Hh _ packet) by done. simpl. rewrite E2, F2. unfold u64. by rewrite <- Zplus_mod.
    + rewrite (Hh _ byte) by done. simpl. rewrite E3, F3. unfold u64. by rewrite <- Zplus_mod.
    + rewrite (Hh _ cur_session) by done. simpl. rewrite E4, F4. unfold u32. by rewrite <- Zplus_mod.
    + split_and!; (etransitivity; [eassumption|]); f_equal; symmetry; apply Z.add_assoc.
Qed.

(** The device slot [i], and a run of slots, of quantity [q]. *)
Lemma device_slot q d ths i : threads_ok ths -> 0 <= i < STATS_SLOTS ->
  ring_get (q_ring q (metry d (dpi_get_stats ths.*1 stats0 (dpi_stats_callback g)))) i =
  u32 (zsum (fun '(s, l) => at_slot (q_of q) d (slot_at s i) l) ths).
Proof.
  intros H Hi. destruct (get_stats_slot q d i ths H Hi stats0 0) as [_ E]; [by destruct q, d|..|exact E].
  destruct q, d; apply ring_get0.
Qed.

(** Past slots: all of them but the one that slot [g] takes the place of. *)
Lemma slot_at_past ths i f d : threads_ok ths -> 0 < i ->
  zsum (fun '(s, l) => at_slot f d (slot_at s i) l) ths = zsum (fun '(_, l) => at_slot f d (g - STATS_SLOTS + i) l) ths.
Proof.
  intros H Hi. apply zsum_ext. intros [s l] [_ Hs]%(proj1 (Forall_forall _ _) H). unfold slot_at.
  destruct (Z.eqb_spec (cur_slot s) (g + i)); [lia|done].
Qed.

Lemma zsum_shift (f : Z -> Z) a b n : zsum f (seqZ (a + b) n) = zsum (fun x => f (a + x)) (seqZ b n).
Proof.
  unfold zsum. f_equal. rewrite <- (fmap_add_seqZ a b n), <- list_fmap_compose. done.
Qed.

Lemma device_slots q d ths k : threads_ok ths -> 0 < k <= STATS_SLOTS ->
  slots_sum (q_ring q (metry d (dpi_get_stats ths.*1 stats0 (dpi_stats_callback g)))) (STATS_SLOTS - k) =
  zsum (fun i => u32 (zsum (fun '(s, l) => at_slot (q_of q) d (slot_at s i) l) ths)) (seqZ (STATS_SLOTS - k) k).
Proof.
  intros H Hk. unfold slots_sum. replace (STATS_SLOTS - (STATS_SLOTS - k)) with k by lia.
  apply fold_slots; [|unfold STATS_SLOTS in *; lia]. intros n Hn%elem_of_seqZ. apply device_slot; [done|lia].
Qed.

Lemma device_window q d ths k : threads_ok ths -> 0 < k < STATS_SLOTS ->
  slots_sum (q_ring q (metry d (dpi_get_stats ths.*1 stats0 (dpi_stats_callback g)))) (STATS_SLOTS - k) =
  zsum (fun n => u32 (zsum (fun '(_, l) => at_slot (q_of q) d n l) ths)) (seqZ (g - k) k).
Proof.
  intros H Hk. rewrite device_slots by (done || lia).
  replace (g - k) with ((g - STATS_SLOTS) + (STATS_SLOTS - k)) by lia. rewrite zsum_shift.
  apply zsum_ext. intros i Hi%elem_of_seqZ. f_equal. apply slot_at_past; [done|lia].
Qed.

Lemma device_all q d ths : threads_ok ths ->
  slots_sum (q_ring q (metry d (dpi_get_stats ths.*1 stats0 (dpi_stats_callback g)))) (STATS_SLOTS - 60) =
  u32 (zsum (fun '(s, l) => at_slot (q_of q) d (slot_at s 0) l) ths) +
  zsum (fun n => u32 (zsum (fun '(_, l) => at_slot (q_of q) d n l) ths)) (seqZ (g - 59) 59).
Proof.
  intros H. rewrite device_slots by done. change (seqZ (STATS_SLOTS - 60) 60) with (0 :: seqZ (STATS_SLOTS - 59) 59).
  match goal with |- zsum ?f (0 :: ?l) = _ => change (zsum f (0 :: l)) with (f 0 + zsum f l) end. f_equal.
  replace (g - 59) with ((g - STATS_SLOTS) + (STATS_SLOTS - 59)) by lia. rewrite zsum_shift.
  apply zsum_ext. intros i Hi%elem_of_seqZ. f_equal. apply slot_at_past; [done|]. unfold STATS_SLOTS in *. lia.
Qed.

Lemma device_report d ths : threads_ok ths ->
  let slot n f := u32 (zsum (fun '(_, l) => at_slot f d n l) ths) in
  device_dir (metry d (dpi_get_stats ths.*1 stats0 (dpi_stats_callback g))) =
  (report (fun f => u64 (zsum (fun '(_, l) => total f d l) ths))
     (slot (g - 1))
     (fun f => zsum (fun n => slot n f) (seqZ (g - 12) 12))
     (fun f => u32 (zsum (fun '(s, l) => at_slot f d (slot_at s 0) l) ths) +
               zsum (fun n => slot n f) (seqZ (g - 59) 59)))
  <| c_cur_session := u32 (zsum (fun '(_, l) => total live d l) ths) |>.
Proof.
  intros H slot.
  assert (forall q, ring_get (q_ring q (metry d (dpi_get_stats ths.*1 stats0 (dpi_stats_callback g)))) (STATS_SLOTS - 1)
    = slot (g - 1) (q_of q)) as H1.
  { intros q. rewrite device_slot, slot_at_past by done. unfold slot. by replace (g - STATS_SLOTS + (STATS_SLOTS - 1)) with (g - 1) by lia. }
  pose proof (fun q => device_window q d ths 12 H ltac:(done)) as H12.
  pose proof (fun q => device_all q d ths H) as H60.
  destruct (get_stats_totals d ths H stats0 0 0 0 0) as (E1 & E2 & E3 & E4); [by destruct d ..|].
  set (m := metry d _) in *. clearbody m. cbn [q_ring q_of] in *.
  pose proof (H1 QSess) as A1. pose proof (H1 QPkt) as A2. pose proof (H1 QByte) as A3.
  pose proof (H12 QSess) as B1. pose proof (H12 QPkt) as B2. pose proof (H12 QByte) as B3.
  pose proof (H60 QSess) as C1. pose proof (H60 QPkt) as C2. pose proof (H60 QByte) as C3.
  cbn [q_ring q_of] in A1, A2, A3, B1, B2, B3, C1, C2, C3. unfold device_dir, report.
  rewrite A1, A2, A3, B1, B2, B3, C1, C2, C3, E1, E2, E3, E4. done.
Qed.
End device.

Lemma u32_u64 x : u32 (u64 x) = u32 x.
Proof. ulia. Qed.

(** htonll takes the low 64 bits. *)
Lemma htonll_u64 x : htonll (u64 x) = htonll x.
Proof.
  unfold htonll. rewrite !Z.shiftr_div_pow2 by lia.
  assert (u32 (u64 x / 2 ^ 32) = u32 (x / 2 ^ 32)) as -> by ulia.
  assert (Z.land (u64 x) 0xFFFFFFFF = Z.land x 0xFFFFFFFF) as ->; [|done].
  change 0xFFFFFFFF with (Z.ones 32). rewrite !Z.land_ones by lia. ulia.
Qed.

(** ** The properties *)



(** *** Samples: one endpoint, address 1, with MAC address 10 *)

Definition sample_map (mac : Z) : option Z := if mac =? 10 then Some 1 else None.
Definition sample_sess : sess := Sess DPI_SESS_FLAG_INGRESS 10 20.
Definition sample_start : sworld := SWorld stats0 (fun _ => stats0).
Definition sample_world : sworld :=
  let w := recv_stats sample_start 1 true 100 11 in
  recv_stats (dpi_inc_stats_session sample_map w 1 sample_sess) 1 true 60 12.


Definition sample_thread : io_stats * list event :=
  (th_stats (recv_stats sample_start 1 true 100 70), [Event 70 true (Packet 100)]).


(** The slot of an endpoint's last packet counts for the last slot but not for the last 12. *)
Lemma idle_slot_not_summed :
  let s := eps (recv_stats sample_start 1 true 100 11) 1 in
  let c := collect_stats ctrl_stats0 (s_in s) 12 (cur_slot s) in pkt1 c = 1 /\ pkt12 c = 0 /\ pkt60 c = 0.
Proof. vm_compute. repeat split. Qed.

(** Before slot [STATS_SLOTS] the device reports nothing of its last slots. *)
Lemma device_starts_at_wrong_end :
  let s := th_stats (recv_stats sample_start 1 true 100 11) in
  let c := device_dir (s_in (dpi_get_stats [s] stats0 (dpi_stats_callback 12))) in
  pkt1 c = 0 /\ pkt12 c = 0 /\ pkt60 c = 1.
Proof. vm_compute. repeat split. Qed.

(** A packet of the current slot is in the 60-slot window of the device. *)
Lemma device_counts_current_slot :
  let s := th_stats (recv_stats sample_start 1 true 100 60) in
  let c := device_dir (s_in (dpi_get_stats [s] stats0 (dpi_stats_callback 60))) in pkt12 c = 0 /\ pkt60 c = 1.
Proof. vm_compute. repeat split. Qed.

(** The statistics of the promiscuous-mode endpoint, 2 here, are not caught up: its sessions
    are counted in slot 0 of the thread, whatever slot the thread is in. *)
Lemma promisc_session_slot :
  let w := recv_stats sample_start 1 true 100 61 in
  let w := dpi_inc_stats_session (fun _ => None) w 2 sample_sess in
  ring_get (sess_ring (s_in (th_stats w))) 1 = 0 /\ ring_get (sess_ring (s_in (th_stats w))) 0 = 1.
Proof. vm_compute. repeat split. Qed.

(** The interval is in network order in one message and in host order in the other. *)
Lemma interval_orders :
  Interval (dp_ctrl_stats_device [stats0] 60) = htonl STATS_INTERVAL /\
  Interval (dp_ctrl_stats_macs sample_map (eps sample_world) 12 [10]) = STATS_INTERVAL.
Proof. vm_compute. repeat split. Qed.
End Stats.
