(* ===== verification/Meter.v ===== *)
(** * dpi/dpi_meter.c: meters for floods and session limits

    A meter counts events of one kind at one endpoint, or of one peer at an endpoint.  A
    rate meter compares the events of a span of seconds with its limits; the session
    meter counts open sessions.  A meter is found in the map of the thread by its kind,
    the endpoint's MAC address and the peer's address, and released by a timer.

    Meters are objects at addresses; [None] is an access to one that is not there.  The
    map is that of RcuMap.v, the timers those of TimerWheel.v.  Counters of rate meters
    are scaled in single-precision floats, which are those of SpecFloat.  [mlog] stands
    for the report a meter keeps: it names what the report was filled from. *)

From Stdlib Require Import Floats.SpecFloat.
From S2P Require Import Prelude Helper RcuMap TimerWheel Wire Frag.
Import Helper.Hash Wire.Wire.

Module Meter.

Inductive meter_type := DPI_METER_SYN_FLOOD | DPI_METER_ICMP_FLOOD | DPI_METER_IP_SRC_SESSION | DPI_METER_TCP_NODATA.
#[export] Instance meter_type_eq : EqDecision meter_type.
Proof. solve_decision. Defined.

Definition DPI_THRT_TCP_FLOOD : Z := 1.
Definition DPI_THRT_ICMP_FLOOD : Z := 2.
Definition DPI_THRT_IP_SRC_SESSION : Z := 3.
Definition DPI_THRT_TCP_NODATA : Z := 8.

Record meter_info_t := MeterInfo {
  id : Z; log_id : Z; rate : bool; limit : bool; per_dst : bool; per_src : bool;
  timeout : Z; log_timeout : Z; span : Z; upper_limit : Z; lower_limit : Z
}.

Definition type_id (t : meter_type) : Z :=
  match t with
  | DPI_METER_SYN_FLOOD => 0 | DPI_METER_ICMP_FLOOD => 1 | DPI_METER_IP_SRC_SESSION => 2 | DPI_METER_TCP_NODATA => 3
  end.

Definition meter_info (t : meter_type) : meter_info_t :=
  match t with
  | DPI_METER_SYN_FLOOD => MeterInfo 0 DPI_THRT_TCP_FLOOD true false true false 3 30 1 200 200
  | DPI_METER_ICMP_FLOOD => MeterInfo 1 DPI_THRT_ICMP_FLOOD true false true false 3 30 1 100 100
  | DPI_METER_IP_SRC_SESSION => MeterInfo 2 DPI_THRT_IP_SRC_SESSION false false true true 3 30 1 2000 2000
  | DPI_METER_TCP_NODATA => MeterInfo 3 DPI_THRT_TCP_NODATA true false true false 10 0 10 10 10
  end.

(** An index of the array, and NULL behind its end. *)
Definition dpi_get_meter_info (i : Z) : option meter_info_t :=
  if i =? 0 then Some (meter_info DPI_METER_SYN_FLOOD) else if i =? 1 then Some (meter_info DPI_METER_ICMP_FLOOD)
  else if i =? 2 then Some (meter_info DPI_METER_IP_SRC_SESSION) else if i =? 3 then Some (meter_info DPI_METER_TCP_NODATA)
  else None.

(** The fields of a meter the map compares: type, ep_mac (6 bytes) and peer_ip (16). *)
Record mkey := MKey { type : meter_type; ep_mac : list Z; peer_ip : list Z }.
#[export] Instance mkey_eq_dec : EqDecision mkey.
Proof. solve_decision. Defined.

(** What the meters read of a session. *)
Record msess := MSess {
  s_flags : Z; meter_flags : Z; client_mac : list Z; client_ip : list Z; server_mac : list Z; server_ip : list Z
}.
#[export] Instance eta_msess : Eta msess := fun s =>
  MSess (s_flags s) (meter_flags s) (client_mac s) (client_ip s) (server_mac s) (server_ip s).

Inductive mlog := PacketLog (log_id : Z) (p : packet) | SessionLog (log_id : Z) (s : msess).

Record dpi_meter := MkMeter {
  key : mkey; m_flags : Z; count : Z; last_count : Z; log_count : Z; start_tick : Z; last_log : Z; log : option mlog
}.
#[export] Instance eta_meter : Eta dpi_meter := fun m => MkMeter
  (key m) (m_flags m) (count m) (last_count m) (log_count m) (start_tick m) (last_log m) (log m).

(** A report sent by dpi_ddos_log: the threat, the log of the meter, the number of
    incidents it stands for, and the rate and limit its message names. *)
Record ddos := Ddos { d_id : Z; d_log : option mlog; d_count : Z; d_rate : Z; d_limit : Z }.

Record mthread := MThread {
  meters : gmap Z dpi_meter; th_meter_map : RcuMap.rcu_map; th_timer : TimerWheel.timer_wheel Z unit;
  tick : Z; cur_meters : Z; drop_meters : Z; ddos_logs : list ddos; fault : bool
}.
#[export] Instance eta_mthread : Eta mthread := fun w => MThread
  (meters w) (th_meter_map w) (th_timer w) (tick w) (cur_meters w) (drop_meters w) (ddos_logs w) (fault w).

Definition DPI_METER_FLAG_ON : Z := 0x01.
Definition DPI_METER_ACTION_NONE : Z := 0.
Definition DPI_METER_ACTION_CLEAR : Z := 1.
Definition DPI_SESS_FLAG_IPV4 : Z := 0x0001.
Definition DPI_SESS_FLAG_INGRESS : Z := 0x0010.
Definition DPI_SESS_FLAG_TAP : Z := 0x0020.
Definition DPI_SESS_METER_FLAG_IP_SESSION : Z := 0x1.

Implicit Types (fire create : bool) (w : mthread) (m : dpi_meter) (k : mkey) (p : packet) (s : msess) (x : Z).

(** ** Keys and the map *)

(** [x] is a meter that the key [k] matches. *)
Definition meter_match (ms : gmap Z dpi_meter) x k : bool :=
  match ms !! x with
  | None => false
  | Some m =>
      if negb (bool_decide (type (key m) = type k)) then false
      else
        let info := meter_info (type (key m)) in
        if per_dst info && negb (bool_decide (ep_mac (key m) = ep_mac k)) then false
        else if per_src info && negb (bool_decide (peer_ip (key m) = peer_ip k)) then false
        else true
  end.

Definition meter_hash k : Z :=
  u32 (u32 (sdbm_hash (ep_mac k) + sdbm_hash (peer_ip k)) + type_id (type k)).

Definition dpi_meter_init w : mthread := w <| th_meter_map := RcuMap.rcu_map_init 0 |>.

Definition mac0 : list Z := replicate 6 0.
Definition ip0 : list Z := replicate 16 0.

(** On a zeroed key; [ip] is the memory at peer_ip, NULL is [None]. *)
Definition make_key (t : meter_type) (mac : list Z) (ip : option (list Z)) (ipv4 : bool) : mkey :=
  let info := meter_info t in
  MKey t (if per_dst info then take 6 mac else mac0)
    (match ip with
     | Some ip => if per_src info then if ipv4 then take 4 ip ++ replicate 12 0 else take 16 ip else ip0
     | None => ip0
     end).

Definition meter_lookup w k : Z := RcuMap.rcu_map_lookup (meter_match (meters w)) meter_hash (th_meter_map w) k.

(** ** Release and allocation *)

Definition meter_release w x : option mthread :=
  m ← meters w !! x;
  let info := meter_info (type (key m)) in
  if negb (rate info) && negb (count m =? 0) then
    Some (w <| th_timer ::= fun tw => TimerWheel.timer_wheel_entry_insert tw x (tick w) |>)
  else
    Some (w <| cur_meters ::= fun n => u32 (n - 1) |>
            <| th_meter_map ::= fun mp => (RcuMap.rcu_map_del mp x).1 |>
            <| meters ::= delete x |>).

Definition meter_alloc w k : mthread * Z :=
  let x := Frag.malloc (dom (meters w)) in
  (w <| meters ::= <[x := MkMeter k 0 0 0 0 (tick w) 0 None]> |>
     <| cur_meters ::= fun n => u32 (n + 1) |>
     <| th_meter_map ::= fun mp => RcuMap.rcu_map_add meter_hash mp x k |>, x).

(** ** Counting *)

(** Single precision: (float)z, and the conversion back, which drops the fraction.  C leaves
    the conversion of a value out of range open. *)
Definition f_of_Z (z : Z) : spec_float := binary_normalize 24 128 z 0 false.
Definition f_to_Z (f : spec_float) : Z :=
  match f with
  | S754_finite s m e =>
      let v := if 0 <=? e then Z.pos m * 2 ^ e else Z.pos m / 2 ^ (- e) in if s then - v else v
  | _ => 0
  end.

(** c *= (float)a / b *)
Definition f_scale (c a b : Z) : Z :=
  u32 (f_to_Z (SFmul 24 128 (f_of_Z c) (SFdiv 24 128 (f_of_Z a) (f_of_Z b)))).

(** if (info->rate): the counters, then the limits. *)
Definition rate_roll (info : meter_info_t) (now : Z) m : dpi_meter :=
  let sp := u32 (now - start_tick m) in
  let m :=
    if span info <=? sp then
      m <| last_count := count m |> <| count := f_scale (count m) (span info - 1) sp |>
        <| start_tick := u32 (now - (span info - 1)) |>
    else if upper_limit info <? count m then
      m <| last_count := count m / u32 (sp + 1) |> <| count := f_scale (count m) (span info - sp) (span info) |>
    else m in
  m <| count ::= fun c => u32 (c + 1) |>.

Definition rate_fire (info : meter_info_t) m : dpi_meter * bool :=
  if last_count m <? lower_limit info then
    (m <| m_flags ::= fun f => FLAGS_UNSET 8 f DPI_METER_FLAG_ON |>, false)
  else if upper_limit info <=? last_count m then
    (m <| log_count ::= fun c => u32 (c + 1) |> <| m_flags ::= fun f => FLAGS_SET f DPI_METER_FLAG_ON |>, true)
  else if FLAGS_TEST (m_flags m) DPI_METER_FLAG_ON then
    (m <| log_count ::= fun c => u32 (c + 1) |>, true)
  else (m, false).

Definition meter_count (info : meter_info_t) (now : Z) m : dpi_meter * bool :=
  if rate info then rate_fire info (rate_roll info now m)
  else
    let m := m <| count ::= fun c => u32 (c + 1) |> in
    if upper_limit info <=? count m then (m <| log_count ::= fun c => u32 (c + 1) |>, true) else (m, false).

(** The meter, *fire and *create. *)
Definition meter_inc w (t : meter_type) (mac : list Z) (ip : option (list Z)) (ipv4 : bool) :
    option (mthread * Z * bool * bool) :=
  let info := meter_info t in
  let k := make_key t mac ip ipv4 in
  let '(w, x, create) :=
    if meter_lookup w k =? NULL then
      let '(w, x) := meter_alloc w k in
      (w <| th_timer ::= fun tw => TimerWheel.timer_wheel_entry_start
              (TimerWheel.timer_wheel_entry_init tw x) x tt (timeout info) (tick w) |>, x, true)
    else
      let x := meter_lookup w k in
      (w <| th_timer ::= fun tw => TimerWheel.timer_wheel_entry_refresh tw x (tick w) |>, x, false) in
  m ← meters w !! x;
  let '(m, fire) := meter_count info (tick w) m in
  Some (w <| meters ::= <[x := m]> |>, x, fire, create).

Definition meter_dec w (t : meter_type) (mac : list Z) (ip : option (list Z)) (ipv4 : bool) : option mthread :=
  if rate (meter_info t) then Some w
  else
    let k := make_key t mac ip ipv4 in
    if meter_lookup w k =? NULL then Some w
    else
      let x := meter_lookup w k in
      let w := w <| th_timer ::= fun tw => TimerWheel.timer_wheel_entry_refresh tw x (tick w) |> in
      m ← meters w !! x;
      Some (w <| meters ::= <[x := m <| count ::= fun c => u32 (c - 1) |>]> |>).

(** memset(log, 0, ...) and the functions that fill it *)
Definition fill_log (l : mlog) (b : bool) x w : option mthread :=
  if b then m ← meters w !! x; Some (w <| meters ::= <[x := m <| log := Some l |>]> |>) else Some w.

(** Aggregated reports: at most one in log_timeout seconds. *)
Definition send_log (info : meter_info_t) (rate_of : dpi_meter -> Z) x w : option mthread :=
  m ← meters w !! x;
  if (log_timeout info <=? u32 (tick w - last_log m)) && (0 <? log_count m) then
    Some (w <| ddos_logs ::= cons (Ddos (log_id info) (log m) (log_count m) (rate_of m) (lower_limit info)) |>
            <| meters ::= <[x := m <| last_log := tick w |> <| log_count := 0 |>]> |>)
  else Some w.

(** ** The entry points.  [tc] is the configuration of threats; an action is returned with
    the thread and the packet or session. *)

(** The address behind the packet's l3 header; [ipv4] is not set for IPv6 packets, [junk] is
    what is on the stack. *)
Definition dpi_meter_packet_inc (tc : Z -> threat_conf) (junk : bool) w (t : meter_type) p (mac : list Z) :
    option (mthread * packet * Z) :=
  let info := meter_info t in
  if negb (thrt_enable (tc (log_id info))) then Some (w, p, DPI_METER_ACTION_NONE)
  else
    let '(ipv4, ip) :=
      if eth_type p =? ETH_P_IP then (true, take 4 (drop (Z.to_nat (l3 p + 12)) (pkt p)))
      else (junk, take 16 (drop (Z.to_nat (l3 p + 8)) (pkt p))) in
    '(w, x, fire, create) ← meter_inc w t mac (Some ip) ipv4;
    w ← fill_log (PacketLog (log_id info) p) (create || fire) x w;
    if fire : bool then
      w ← send_log info last_count x w;
      Some (w <| drop_meters ::= fun n => u64 (n + 1) |>, dpi_set_action p DPI_ACTION_DROP, DPI_METER_ACTION_CLEAR)
    else Some (w, p, DPI_METER_ACTION_NONE).

Definition dpi_meter_synflood_inc (tc : Z -> threat_conf) w p (mac : list Z) (tap : bool) :
    option (mthread * packet * Z) :=
  let log_id := DPI_THRT_TCP_FLOOD in
  if negb (thrt_enable (tc log_id)) then Some (w, p, DPI_METER_ACTION_NONE)
  else if negb (FLAGS_TEST (flags p) DPI_PKT_FLAG_INGRESS) then Some (w, p, DPI_METER_ACTION_NONE)
  else
    '(w, x, fire, create) ← meter_inc w DPI_METER_SYN_FLOOD mac None (eth_type p =? ETH_P_IP);
    w ← fill_log (PacketLog log_id p) (create || fire) x w;
    if fire && negb tap then Some (w, dpi_set_action p DPI_ACTION_DROP, DPI_METER_ACTION_CLEAR)
    else Some (w, p, DPI_METER_ACTION_NONE).

Definition dpi_meter_session_inc (tc : Z -> threat_conf) w p s : option (mthread * msess * Z) :=
  if negb (FLAGS_TEST (s_flags s) DPI_SESS_FLAG_INGRESS) then Some (w, s, DPI_METER_ACTION_NONE)
  else
    let ipv4 := FLAGS_TEST (s_flags s) DPI_SESS_FLAG_IPV4 in
    if thrt_enable (tc DPI_THRT_IP_SRC_SESSION) then
      '(w, x, fire, create) ← meter_inc w DPI_METER_IP_SRC_SESSION (server_mac s) (Some (client_ip s)) ipv4;
      let s := s <| meter_flags ::= fun f => FLAGS_SET f DPI_SESS_METER_FLAG_IP_SESSION |> in
      w ← fill_log (PacketLog DPI_THRT_IP_SRC_SESSION p) (create || fire) x w;
      if fire : bool then
        m ← meters w !! x;
        w ← send_log (meter_info (type (key m))) count x w;
        let w := w <| drop_meters ::= fun n => u64 (n + 1) |> in
        if negb (FLAGS_TEST (s_flags s) DPI_SESS_FLAG_TAP) then Some (w, s, DPI_METER_ACTION_CLEAR)
        else Some (w, s, DPI_METER_ACTION_NONE)
      else Some (w, s, DPI_METER_ACTION_NONE)
    else Some (w, s, DPI_METER_ACTION_NONE).

Definition dpi_meter_session_dec w s : option mthread :=
  if negb (FLAGS_TEST (s_flags s) DPI_SESS_FLAG_INGRESS) then Some w
  else
    let ipv4 := FLAGS_TEST (s_flags s) DPI_SESS_FLAG_IPV4 in
    if FLAGS_TEST (meter_flags s) DPI_SESS_METER_FLAG_IP_SESSION then
      meter_dec w DPI_METER_IP_SRC_SESSION (server_mac s) (Some (client_ip s)) ipv4
    else Some w.

Definition dpi_meter_session_rate (tc : Z -> threat_conf) w (t : meter_type) s : option (mthread * bool) :=
  let info := meter_info t in
  if negb (thrt_enable (tc (log_id info))) then Some (w, false)
  else
    let ipv4 := FLAGS_TEST (s_flags s) DPI_SESS_FLAG_IPV4 in
    let '(mac, ip) :=
      if FLAGS_TEST (s_flags s) DPI_SESS_FLAG_INGRESS then (server_mac s, server_ip s) else (client_mac s, client_ip s) in
    '(w, x, fire, create) ← meter_inc w t mac (Some ip) ipv4;
    w ← fill_log (SessionLog (log_id info) s) (create || fire) x w;
    Some (w, fire).

#[export] Instance mthread_world : TimerWheel.TimerWorld mthread Z unit := {|
  TimerWheel.wheel := th_timer;
  TimerWheel.wheel_upd f w := w <| th_timer ::= f |>;
  TimerWheel.run_callback _ x w :=
    match meter_release w x with Some w => w | None => w <| fault := true |> end;
  TimerWheel.wheel_wheel_upd f w := eq_refl
|}.

(** A roll of the wheel at the tick of the thread (dpi_timeout). *)
Definition meter_timeout (fuel : nat) w : option mthread :=
  '(w, _) ← TimerWheel.timer_wheel_roll fuel (tick w) w; Some w.

(** ** The invariant: the meters are those of the map and of the wheel *)

Definition norm k : Prop :=
  (per_src (meter_info (type k)) = false -> peer_ip k = ip0) /\
  (per_dst (meter_info (type k)) = false -> ep_mac k = mac0).

Definition keyof w x : option mkey := key <$> meters w !! x.
Definition on_map w x : Prop := exists h, RcuMap.HNode h x ∈ RcuMap.map (th_meter_map w).

Record minv w (dl : gmap Z Z) : Prop := {
  mi_pos x : is_Some (meters w !! x) -> 0 < x;
  mi_norm x m : meters w !! x = Some m -> norm (key m);
  mi_map : RcuMap.wf meter_hash (keyof w) (th_meter_map w);
  mi_on x : on_map w x <-> is_Some (meters w !! x);
  mi_dl x : is_Some (dl !! x) <-> is_Some (meters w !! x);
  mi_tmo x m : meters w !! x = Some m ->
    TimerWheel.timeout (TimerWheel.entry (th_timer w) x) = timeout (meter_info (type (key m)));
  mi_fault : fault w = false
}.

Lemma make_key_norm t mac ip ipv4 : norm (make_key t mac ip ipv4).
Proof. split; destruct t; simpl; try done; by destruct ip. Qed.

Lemma match_mkey w x m k : meters w !! x = Some m -> norm (key m) -> norm k ->
  meter_match (meters w) x k = bool_decide (keyof w x = Some k).
Proof.
  intros Hx [N1 N2] [K1 K2]. unfold meter_match, keyof. rewrite Hx. simpl.
  destruct (key m) as [t a i], k as [t' a' i']; simpl in *.
  case_bool_decide as E1; simpl; [subst t'|by rewrite bool_decide_false; [|intros [=]]].
  assert (per_dst (meter_info t) = true) as -> by by destruct t. simpl.
  case_bool_decide as E2; simpl; [subst a'|by rewrite bool_decide_false; [|intros [=]]].
  destruct (per_src (meter_info t)) eqn:Es; simpl.
  - case_bool_decide; simpl; [subst; by rewrite bool_decide_true|by rewrite bool_decide_false; [|intros [=]]].
  - rewrite N1, K1 by done. by rewrite bool_decide_true.
Qed.

(** On normal keys, the lookup is that of a map whose match function compares keys. *)
Lemma lookup_keys w dl k : minv w dl -> norm k ->
  meter_lookup w k =
  RcuMap.rcu_map_lookup (fun x k => bool_decide (keyof w x = Some k)) meter_hash (th_meter_map w) k.
Proof.
  intros I Nk. unfold meter_lookup, RcuMap.rcu_map_lookup, RcuMap.cds_lfht_lookup.
  rewrite (find_first_ext _ (fun n => (RcuMap.node_hash n =? meter_hash k) && bool_decide (keyof w (RcuMap.node n) = Some k)));
    [done|].
  intros [h x] Hx. simpl. f_equal.
  destruct (proj1 (mi_on _ _ I x)) as [m Hm]; [by exists h|].
  eapply match_mkey; [done|by apply (mi_norm _ _ I x)|done].
Qed.

Lemma meter_lookup_spec w dl k : minv w dl -> norm k ->
  (meter_lookup w k = NULL /\ forall x m, meters w !! x = Some m -> key m <> k) \/
  (0 < meter_lookup w k /\ exists m, meters w !! meter_lookup w k = Some m /\ key m = k).
Proof.
  intros I Nk. rewrite (lookup_keys w dl k I Nk).
  destruct (RcuMap.lookup_holds (fun x k => bool_decide (keyof w x = Some k)) meter_hash (keyof w)
              (fun _ _ => eq_refl) (th_meter_map w) k (mi_map _ _ I)) as [[-> Hn]|[[Hm Hk] Hp]].
  - left. split; [done|]. intros x m Hx Hk. apply (Hn x). split.
    + apply (mi_on _ _ I). by eexists.
    + unfold keyof. rewrite Hx. simpl. by rewrite Hk.
  - right. split; [done|]. unfold keyof in Hk. destruct (meters w !! _) as [m|]; [|done].
    injection Hk as Hk. by exists m.
Qed.

Lemma key_unique w dl x y m n : minv w dl -> meters w !! x = Some m -> meters w !! y = Some n -> key m = key n -> x = y.
Proof.
  intros I Hx Hy Hk.
  destruct (proj2 (mi_on _ _ I x) ltac:(by eexists)) as [h Hh], (proj2 (mi_on _ _ I y) ltac:(by eexists)) as [h' Hh'].
  assert (RcuMap.HNode h x = RcuMap.HNode h' y) as [= _ ->]; [|done].
  apply (RcuMap.wf_keys _ _ _ (mi_map _ _ I)); [done|done|]. unfold keyof. simpl. rewrite Hx, Hy. simpl. by rewrite Hk.
Qed.

(** A meter may change in all but its key. *)
Lemma remeter w dl x m m' : minv w dl -> meters w !! x = Some m -> key m' = key m ->
  minv (w <| meters ::= <[x := m']> |>) dl.
Proof.
  intros I Hx Hk.
  assert (Hs : forall y, is_Some (<[x := m']> (meters w) !! y) <-> is_Some (meters w !! y)).
  { intros y. destruct (decide (x = y)) as [->|]; [rewrite lookup_insert_eq, Hx; by split; eexists|by rewrite lookup_insert_ne]. }
  assert (Hm : forall y n', <[x := m']> (meters w) !! y = Some n' -> exists n, meters w !! y = Some n /\ key n' = key n).
  { intros y n'. rewrite lookup_insert_Some. intros [[<- <-]|[_ ?]]; eauto. }
  destruct I as [Ip In Im Io Id It If]. constructor; cbn [meters th_meter_map th_timer fault set]; try done.
  - intros y. rewrite Hs. apply Ip.
  - intros y n' (n & Hn & ->)%Hm. by eapply In.
  - eapply RcuMap.wf_ext; [done|]. intros y _. unfold keyof. cbn [meters set].
    destruct (decide (x = y)) as [->|]; [rewrite lookup_insert_eq, Hx; simpl; by rewrite Hk|by rewrite lookup_insert_ne].
  - intros y. rewrite Hs. apply Io.
  - intros y. rewrite Hs. apply Id.
  - intros y n' (n & Hn & ->)%Hm. by apply It.
Qed.

(** Room for the timeouts, of at most ten seconds, on the wheel with base [base]. *)
Definition tick_ok base w : Prop :=
  0 <= base <= tick w /\ tick w + 3600 < 2 ^ 32 /\ tick w + 10 < base + TimerWheel.MAX_TIMER_SLOTS.

Lemma timeout_range t : 0 < timeout (meter_info t) <= 10.
Proof. destruct t; simpl; lia. Qed.

Lemma refresh_minv base w dl x m : minv w dl -> TimerWheel.inv base (th_timer w) dl -> tick_ok base w ->
  meters w !! x = Some m ->
  let w' := w <| th_timer ::= fun tw => TimerWheel.timer_wheel_entry_refresh tw x (tick w) |> in
  let dl' := <[x := tick w + timeout (meter_info (type (key m)))]> dl in
  minv w' dl' /\ TimerWheel.inv base (th_timer w') dl'.
Proof.
  intros I V (Ht & H32 & Hb) Hx w' dl'. destruct (proj2 (mi_dl _ _ I x)) as [D HD]; [by eexists|].
  pose proof (mi_tmo _ _ I _ _ Hx) as Hto. pose proof (timeout_range (type (key m))) as R.
  split.
  - destruct I as [Ip In Im Io Id It If]. constructor; cbn [meters th_meter_map th_timer fault set w']; try done.
    + intros y. unfold dl'. destruct (decide (x = y)) as [->|]; [|by rewrite lookup_insert_ne].
      rewrite lookup_insert_eq, Hx. by split; eexists.
    + intros y n Hy. rewrite TimerWheel.timeout_refresh. by apply It.
  - cbn [th_timer set w']. unfold dl'. rewrite <- Hto. eapply TimerWheel.refresh_inv; [done|done|lia|..]; rewrite Hto; lia.
Qed.

Lemma alloc_minv base w dl k : minv w dl -> TimerWheel.inv base (th_timer w) dl -> tick_ok base w -> norm k ->
  (forall x m, meters w !! x = Some m -> key m <> k) ->
  let '(w1, x) := meter_alloc w k in
  let w' := w1 <| th_timer ::= fun tw => TimerWheel.timer_wheel_entry_start
              (TimerWheel.timer_wheel_entry_init tw x) x tt (timeout (meter_info (type k))) (tick w1) |> in
  let dl' := <[x := tick w + timeout (meter_info (type k))]> dl in
  meters w !! x = None /\ minv w' dl' /\ TimerWheel.inv base (th_timer w') dl' /\
  meters w' = <[x := MkMeter k 0 0 0 0 (tick w) 0 None]> (meters w) /\ tick w' = tick w /\
  TimerWheel.current (th_timer w') = TimerWheel.current (th_timer w).
Proof.
  intros I V (Ht & H32 & Hb) Nk Hno. unfold meter_alloc.
  destruct (Frag.malloc_fresh (dom (meters w))) as [Hf Hp]. set (x := Frag.malloc (dom (meters w))) in *. clearbody x.
  apply not_elem_of_dom in Hf. set (m0 := MkMeter k 0 0 0 0 (tick w) 0 None).
  pose proof (timeout_range (type k)) as R.
  assert (Hnd : dl !! x = None).
  { destruct (dl !! x) eqn:E; [|done]. destruct (proj1 (mi_dl _ _ I x)); [by eexists|congruence]. }
  assert (Hnm : ~ on_map w x) by (intros [? ?]%(mi_on _ _ I); congruence).
  assert (Hs : forall y, is_Some (<[x := m0]> (meters w) !! y) <-> y = x \/ is_Some (meters w !! y)).
  { intros y. destruct (decide (x = y)) as [->|]; [rewrite lookup_insert_eq; naive_solver|].
    rewrite lookup_insert_ne by done. naive_solver. }
  assert (Hmap : forall y, (exists h, RcuMap.HNode h y ∈ RcuMap.cds_lfht_add (RcuMap.map (th_meter_map w)) (meter_hash k) x)
            <-> y = x \/ on_map w y).
  { intros y. unfold on_map. setoid_rewrite RcuMap.add_perm. setoid_rewrite elem_of_cons. split.
    - intros (h & [[= -> ->]|Hh]); [by left|right; by exists h].
    - intros [->|[h Hh]]; [eexists; by left|exists h; by right]. }
  split_and!; [done| | |done|done|done].
  - constructor; cbn [meters th_meter_map th_timer fault set].
    + intros y [->|Hy]%Hs; [done|]. by apply (mi_pos _ _ I).
    + intros y n. rewrite lookup_insert_Some. intros [[<- <-]|[_ Hy]]; [done|]. by eapply (mi_norm _ _ I).
    + apply RcuMap.add_wf; [|unfold keyof; cbn [meters set]; by rewrite lookup_insert_eq|done|].
      * eapply RcuMap.wf_ext; [apply I|]. intros n ([h n'] & -> & Hn)%list_elem_of_fmap. simpl. unfold keyof. cbn [meters set].
        rewrite lookup_insert_ne; [done|]. intros ->. apply Hnm. by exists h.
      * intros n [[h Hn] Hk]. unfold keyof in Hk. cbn [meters set] in Hk.
        rewrite lookup_insert_ne in Hk by (intros ->; apply Hnm; by exists h).
        destruct (meters w !! n) as [t|] eqn:E; [|done]. injection Hk as Hk. by eapply Hno.
    + intros y. unfold on_map. cbn [th_meter_map set]. rewrite Hs, <- (mi_on _ _ I). apply Hmap.
    + intros y. rewrite Hs, <- (mi_dl _ _ I). destruct (decide (x = y)) as [->|]; [rewrite lookup_insert_eq; naive_solver|].
      rewrite lookup_insert_ne by done. naive_solver.
    + intros y n. rewrite TimerWheel.timeout_start by (unfold TimerWheel.MAX_TIMER_SLOTS; lia).
      rewrite lookup_insert_Some. intros [[<- <-]|[Hne Hy]]; [by rewrite decide_True|]. rewrite decide_False by done.
      unfold TimerWheel.timer_wheel_entry_init. rewrite TimerWheel.entry_entry_upd, decide_False by done.
      by apply (mi_tmo _ _ I).
    + apply I.
  - cbn [th_timer set tick]. apply TimerWheel.start_inv; try done; try (unfold TimerWheel.MAX_TIMER_SLOTS in *; lia).
    by apply TimerWheel.entry_upd_off.
Qed.

(** [at_key w k m]: the meter of key [k] is [m], a fresh one if there is none. *)
Definition at_key w k m : Prop :=
  (exists x, meters w !! x = Some m /\ key m = k) \/
  (m = MkMeter k 0 0 0 0 (tick w) 0 None /\ forall x n, meters w !! x = Some n -> key n <> k).

(** The thread is in order: meters, map and wheel agree, and the clock is within reach. *)
Definition mok w : Prop :=
  exists dl, minv w dl /\ TimerWheel.inv (TimerWheel.current (th_timer w)) (th_timer w) dl /\
    tick_ok (TimerWheel.current (th_timer w)) w.

(** [w'] is [w] but for the meter of key [k], which is [m]. *)
Record changed w k m w' : Prop := {
  ch_ok : mok w';
  ch_tick : tick w' = tick w;
  ch_cur : TimerWheel.current (th_timer w') = TimerWheel.current (th_timer w);
  ch_this : exists x, meters w' !! x = Some m /\ key m = k;
  ch_other k' n : k' <> k -> at_key w k' n -> at_key w' k' n
}.

Lemma at_key_unique w k m n : mok w -> at_key w k m -> at_key w k n -> m = n.
Proof.
  intros (dl & I & _). intros [(x & Hx & Ex)|[-> Hno]] [(y & Hy & Ey)|[-> Hno']]; try done.
  - assert (x = y) as -> by (eapply key_unique; [done..|congruence]). congruence.
  - by destruct (Hno' _ _ Hx).
  - by destruct (Hno _ _ Hy).
Qed.

Lemma insert_other w w' x m k : tick w' = tick w -> meters w' = <[x := m]> (meters w) -> key m = k ->
  (forall n, meters w !! x = Some n -> key n = k) ->
  forall k' n, k' <> k -> at_key w k' n -> at_key w' k' n.
Proof.
  intros Et Em Hk Hx k' n Hne [(y & Hy & Ey)|[-> Hno]].
  - left. exists y. split; [|done]. rewrite Em, lookup_insert_ne; [done|]. intros ->. apply Hne. rewrite <- Ey. by apply Hx.
  - right. rewrite Et. split; [done|]. intros y n. rewrite Em, lookup_insert_Some. intros [[_ <-]|[_ Hy]]; [congruence|by eapply Hno].
Qed.

Lemma current_refresh (tw : TimerWheel.timer_wheel Z unit) x now :
  TimerWheel.current (TimerWheel.timer_wheel_entry_refresh tw x now) = TimerWheel.current tw.
Proof. done. Qed.

Lemma count_key info now m : key (meter_count info now m).1 = key m.
Proof.
  destruct m as [k f c lc gc st ll lg]. unfold meter_count, rate_fire, rate_roll. destruct (rate info); simpl.
  - destruct (span info <=? _); [|destruct (upper_limit info <? _)]; simpl;
      destruct (_ <? _); simpl; try done; destruct (upper_limit info <=? _); simpl; try done; by destruct (FLAGS_TEST _ _).
  - by destruct (_ <=? _).
Qed.

Lemma mok_insert w x m m' : mok w -> meters w !! x = Some m -> key m' = key m -> mok (w <| meters ::= <[x := m']> |>).
Proof. intros (dl & I & V & T) Hx Hk. exists dl. split_and!; [by eapply remeter|done|done]. Qed.

Lemma meter_inc_spec w t mac ip ipv4 : mok w ->
  let k := make_key t mac ip ipv4 in
  exists w' x m0 m fire create, meter_inc w t mac ip ipv4 = Some (w', x, fire, create) /\
    at_key w k m0 /\ meter_count (meter_info t) (tick w) m0 = (m, fire) /\
    changed w k m w' /\ meters w' !! x = Some m.
Proof.
  intros (dl & I & V & T) k. assert (type k = t) as Htk by done.
  pose proof (make_key_norm t mac ip ipv4) as Nk. fold k in Nk.
  unfold meter_inc. fold k. destruct (meter_lookup_spec w dl k I Nk) as [[-> Hno]|(Hp & m0 & Hm0 & Hk0)].
  - simpl (NULL =? NULL). cbv iota. pose proof (alloc_minv _ _ _ k I V T Nk Hno) as A. rewrite Htk in A.
    destruct (meter_alloc w k) as [w1 x]. cbv zeta in A.
    set (w2 := w1 <| th_timer ::= _ |>) in *. destruct A as (Hx & I2 & V2 & Em & Et & Ec).
    clearbody w2. rewrite Em, lookup_insert_eq, Et. cbn [mbind option_bind].
    set (m0 := MkMeter k 0 0 0 0 (tick w) 0 None) in *.
    destruct (meter_count (meter_info t) (tick w) m0) as [m fire] eqn:E.
    assert (key m = k) as Hk by (pose proof (count_key (meter_info t) (tick w) m0) as Hc; by rewrite E in Hc).
    assert (meters w2 !! x = Some m0) as Hx2 by by rewrite Em, lookup_insert_eq.
    assert (mok w2) as M2.
    { exists (<[x := tick w + timeout (meter_info t)]> dl). rewrite Ec. split_and!; [done|done|]. unfold tick_ok. by rewrite Et. }
    eexists _, x, m0, m, fire, true. split; [done|]. split_and!; [right; by split|done| |apply lookup_insert_eq].
    constructor; [by eapply mok_insert|done|done|exists x; split; [apply lookup_insert_eq|done]|].
    apply (insert_other _ _ x m); [done|cbn [meters set]; by rewrite Em, insert_insert_eq|done|intros; congruence].
  - rewrite (proj2 (Z.eqb_neq _ _)) by (unfold NULL; lia). set (x := meter_lookup w k) in *. clearbody x.
    pose proof (refresh_minv _ _ _ x m0 I V T Hm0) as [I2 V2]. cbv zeta in I2, V2.
    set (w2 := w <| th_timer ::= _ |>) in *. cbn [mbind option_bind].
    assert (meters w2 = meters w) as Em by done. assert (tick w2 = tick w) as Et by done.
    assert (TimerWheel.current (th_timer w2) = TimerWheel.current (th_timer w)) as Ec by done.
    assert (mok w2) as M2 by by eexists.
    clearbody w2. rewrite Em, Hm0, Et. cbn [mbind option_bind].
    destruct (meter_count (meter_info t) (tick w) m0) as [m fire] eqn:E.
    assert (key m = k) as Hk by (pose proof (count_key (meter_info t) (tick w) m0) as Hc; rewrite E in Hc; by simpl in Hc; rewrite Hc).
    eexists _, x, m0, m, fire, false. split; [done|]. split_and!; [left; by exists x|done| |apply lookup_insert_eq].
    constructor; [eapply mok_insert; [done|by rewrite Em|congruence]|done|done|exists x; split; [apply lookup_insert_eq|done]|].
    apply (insert_other _ _ x m); [done|cbn [meters set]; by rewrite Em|done|intros; congruence].
Qed.

(** What reports leave alone of a meter. *)
Record eqv m m' : Prop := {
  ev_key : key m' = key m; ev_count : count m' = count m; ev_last : last_count m' = last_count m;
  ev_start : start_tick m' = start_tick m; ev_flags : m_flags m' = m_flags m
}.

Lemma eqv_refl m : eqv m m.
Proof. done. Qed.
Lemma eqv_trans m1 m2 m3 : eqv m1 m2 -> eqv m2 m3 -> eqv m1 m3.
Proof. intros [] []. constructor; congruence. Qed.
#[local] Hint Resolve eqv_refl : dp.

Lemma changed_trans w1 w2 w3 k m m' : changed w1 k m w2 -> changed w2 k m' w3 -> changed w1 k m' w3.
Proof. intros [] []. constructor; [done|congruence|congruence|done|eauto]. Qed.

Lemma changed_set w x m m' : mok w -> meters w !! x = Some m -> eqv m m' ->
  changed w (key m) m' (w <| meters ::= <[x := m']> |>).
Proof.
  intros M Hx [Ek _ _ _ _]. constructor; [by eapply mok_insert|done|done|exists x; split; [apply lookup_insert_eq|done]|].
  apply (insert_other _ _ x m'); [done|done|done|intros; congruence].
Qed.

(** Fields of the thread outside meters, map, wheel and clock. *)
Lemma changed_counters w k m w' f : changed w k m w' -> changed w k m (w' <| drop_meters ::= f |>).
Proof. intros [(dl & [] & V & T) ? ? ? Ho]. constructor; [exists dl; split_and!; [by constructor|done|done]|done|done|done|exact Ho]. Qed.

Lemma changed_logs w k m w' f : changed w k m w' -> changed w k m (w' <| ddos_logs ::= f |>).
Proof. intros [(dl & [] & V & T) ? ? ? Ho]. constructor; [exists dl; split_and!; [by constructor|done|done]|done|done|done|exact Ho]. Qed.

Lemma mok_logs w f : mok w -> mok (w <| ddos_logs ::= f |>).
Proof. intros (dl & [] & V & T). exists dl. split_and!; [by constructor|done|done]. Qed.

Section report.
Context (w0 w : mthread) (k : mkey) (x : Z) (m : dpi_meter).
Context (C : changed w0 k m w) (Hx : meters w !! x = Some m).

Lemma changed_key : key m = k.
Proof. by destruct (ch_this _ _ _ _ C) as (? & _ & ?). Qed.

Lemma fill_log_spec l b :
  exists w' m', fill_log l b x w = Some w' /\ changed w0 k m' w' /\ meters w' !! x = Some m' /\ eqv m m'.
Proof.
  unfold fill_log. destruct b; [|by exists w, m]. rewrite Hx. cbn [mbind option_bind].
  eexists _, (m <| log := Some l |>). split; [done|]. split_and!; [|apply lookup_insert_eq|done].
  eapply changed_trans; [exact C|]. rewrite <- changed_key. apply changed_set; [apply C|done|done].
Qed.

Lemma send_log_spec info f :
  exists w' m', send_log info f x w = Some w' /\ changed w0 k m' w' /\ meters w' !! x = Some m' /\ eqv m m'.
Proof.
  unfold send_log. rewrite Hx. cbn [mbind option_bind]. destruct (_ && _); [|by exists w, m].
  eexists _, (m <| last_log := tick w |> <| log_count := 0 |>). split; [done|].
  split_and!; [|apply lookup_insert_eq|done]. eapply changed_trans; [apply changed_logs; exact C|]. rewrite <- changed_key.
  apply (changed_set (w <| ddos_logs ::= _ |>)); [apply mok_logs, C|done|done].
Qed.
End report.

(** ** The session meter *)

Definition sess_key s : mkey :=
  make_key DPI_METER_IP_SRC_SESSION (server_mac s) (Some (client_ip s)) (FLAGS_TEST (s_flags s) DPI_SESS_FLAG_IPV4).
Definition metered (tc : Z -> threat_conf) s : bool :=
  FLAGS_TEST (s_flags s) DPI_SESS_FLAG_INGRESS && thrt_enable (tc DPI_THRT_IP_SRC_SESSION).

Lemma session_inc_spec tc w p s : mok w ->
  exists w' s' act, dpi_meter_session_inc tc w p s = Some (w', s', act) /\
    if metered tc s then
      exists m0 m, at_key w (sess_key s) m0 /\ changed w (sess_key s) m w' /\ count m = u32 (count m0 + 1) /\
        s' = s <| meter_flags ::= fun f => FLAGS_SET f DPI_SESS_METER_FLAG_IP_SESSION |> /\
        act = (if (2000 <=? count m) && negb (FLAGS_TEST (s_flags s) DPI_SESS_FLAG_TAP)
               then DPI_METER_ACTION_CLEAR else DPI_METER_ACTION_NONE)
    else w' = w /\ s' = s /\ act = DPI_METER_ACTION_NONE.
Proof.
  intros M. unfold dpi_meter_session_inc, metered.
  destruct (FLAGS_TEST (s_flags s) DPI_SESS_FLAG_INGRESS); cbn [negb andb]; [|by eexists _, _, _].
  destruct (thrt_enable (tc DPI_THRT_IP_SRC_SESSION)); [|by eexists _, _, _].
  destruct (meter_inc_spec w DPI_METER_IP_SRC_SESSION (server_mac s) (Some (client_ip s))
    (FLAGS_TEST (s_flags s) DPI_SESS_FLAG_IPV4) M) as (w1 & x & m0 & m1 & fire & create & -> & A & E & C1 & Hx1).
  cbn [mbind option_bind]. fold (sess_key s) in A, C1.
  destruct (fill_log_spec _ _ _ _ _ C1 Hx1 (PacketLog DPI_THRT_IP_SRC_SESSION p) (create || fire)) as (w2 & m2 & -> & C2 & Hx2 & E2).
  cbn [mbind option_bind]. rewrite Hx2. cbn [mbind option_bind].
  assert (count m1 = u32 (count m0 + 1) /\ fire = (2000 <=? count m1)) as [Ec Ef].
  { unfold meter_count in E. simpl in E. destruct (Z.leb_spec 2000 (u32 (count m0 + 1))) as [H|H]; simplify_eq; simpl;
      split; try done; symmetry; [by apply Z.leb_le|by apply Z.leb_gt]. }
  destruct fire.
  - destruct (send_log_spec _ _ _ _ _ C2 Hx2 (meter_info (type (key m2))) count) as (w3 & m3 & -> & C3 & _ & E3).
    cbn [mbind option_bind].
    assert (count m3 = count m1) as Ec3 by (rewrite (ev_count _ _ E3); apply E2).
    destruct (FLAGS_TEST (s_flags s) DPI_SESS_FLAG_TAP) eqn:Et; cbn [s_flags set]; rewrite Et; cbn [negb];
      (eexists _, _, _; split; [reflexivity|]; exists m0, m3; split_and!; [done|by apply (changed_counters _ _ _ w3 (fun n => u64 (n + 1)))|congruence|done|];
       rewrite Ec3, <- Ef; done).
  - eexists _, _, _. split; [reflexivity|]. exists m0, m2.
    assert (count m2 = count m1) as Ec2 by apply E2. split_and!; [done|done|congruence|done|]. by rewrite Ec2, <- Ef.
Qed.

Lemma session_dec_spec w s : mok w ->
  exists w', dpi_meter_session_dec w s = Some w' /\
    if FLAGS_TEST (s_flags s) DPI_SESS_FLAG_INGRESS && FLAGS_TEST (meter_flags s) DPI_SESS_METER_FLAG_IP_SESSION then
      (w' = w /\ forall x m, meters w !! x = Some m -> key m <> sess_key s) \/
      (exists x m0, meters w !! x = Some m0 /\ key m0 = sess_key s /\
         changed w (sess_key s) (m0 <| count ::= fun c => u32 (c - 1) |>) w')
    else w' = w.
Proof.
  intros (dl & I & V & T). unfold dpi_meter_session_dec.
  destruct (FLAGS_TEST (s_flags s) DPI_SESS_FLAG_INGRESS); cbn [negb andb]; [|by eexists].
  destruct (FLAGS_TEST (meter_flags s) DPI_SESS_METER_FLAG_IP_SESSION); [|by eexists].
  unfold meter_dec. cbn [rate meter_info]. fold (sess_key s).
  destruct (meter_lookup_spec w dl (sess_key s) I (make_key_norm _ _ _ _)) as [[-> Hno]|(Hp & m0 & Hm0 & Hk0)].
  - eexists. split; [done|]. by left.
  - rewrite (proj2 (Z.eqb_neq _ _)) by (unfold NULL; lia). set (x := meter_lookup w (sess_key s)) in *. clearbody x.
    pose proof (refresh_minv _ _ _ x m0 I V T Hm0) as [I2 V2]. cbv zeta in I2, V2.
    set (w2 := w <| th_timer ::= _ |>) in *.
    assert (meters w2 = meters w) as Em by done. assert (tick w2 = tick w) as Et by done.
    assert (TimerWheel.current (th_timer w2) = TimerWheel.current (th_timer w)) as Ec by done.
    assert (mok w2) as M2 by by eexists.
    clearbody w2. rewrite Em, Hm0. cbn [mbind option_bind]. eexists. split; [done|]. right. exists x, m0. split_and!; [done|done|].
    constructor; [eapply mok_insert; [done|by rewrite Em|done]|done|done|exists x; split; [apply lookup_insert_eq|done]|].
    apply (insert_other _ _ x (m0 <| count ::= fun c => u32 (c - 1) |>)); [done|cbn [meters set]; by rewrite Em|done|intros; congruence].
Qed.

(** ** Timeouts *)

(** On the wheel, with a deadline before the clock. *)
Definition due w x : Prop :=
  exists D, TimerWheel.current (th_timer w) <= D < tick w /\ x ∈ TimerWheel.slot (th_timer w) (D mod TimerWheel.MAX_TIMER_SLOTS).

(** A meter that its timer may free: a rate meter, or one that counts nothing. *)
Definition disposable m : Prop := rate (meter_info (type (key m))) = true \/ count m = 0.
Definition quiet w : Prop := forall x m, meters w !! x = Some m -> due w x -> disposable m.

Lemma release_minv w dl x m : minv w dl -> meters w !! x = Some m -> disposable m ->
  let w1 := w <| th_timer ::= fun tw => TimerWheel.timer_wheel_entry_remove tw x |> in
  exists w', meter_release w1 x = Some w' /\ minv w' (delete x dl) /\ meters w' = delete x (meters w) /\
    th_timer w' = th_timer w1 /\ tick w' = tick w.
Proof.
  intros I Hx Hd w1. unfold meter_release. cbn [meters set w1]. rewrite Hx. cbn [mbind option_bind].
  assert (negb (rate (meter_info (type (key m)))) && negb (count m =? 0) = false) as ->.
  { destruct Hd as [->| ->]; [done|]. by rewrite andb_false_r. }
  eexists. split; [done|]. split_and!; [|done|done|done].
  pose proof (RcuMap.del_map _ _ _ x (mi_map _ _ I)) as Ed. destruct I as [Ip In Im Io Id It If].
  constructor; cbn [meters th_meter_map th_timer fault set].
  - intros y [_ Hy]%lookup_delete_is_Some. by apply Ip.
  - intros y n [_ Hy]%lookup_delete_Some. by eapply In.
  - apply (RcuMap.wf_ext meter_hash (keyof w) _ (RcuMap.rcu_map_del (th_meter_map w) x).1); [by apply RcuMap.del_wf|]. intros n. rewrite Ed.
    intros ([h n'] & -> & [_ Hn]%elem_of_lfilter)%list_elem_of_fmap. simpl in *. unfold keyof. cbn [meters set].
    rewrite lookup_delete_ne; [done|]. intros ->. by rewrite Z.eqb_refl in Hn.
  - intros y. change (on_map _ y) with (exists h, RcuMap.HNode h y ∈ RcuMap.map (RcuMap.rcu_map_del (th_meter_map w) x).1).
    rewrite Ed. setoid_rewrite elem_of_lfilter. rewrite lookup_delete_is_Some, <- Io. unfold on_map. simpl. setoid_rewrite negb_true_iff.
    setoid_rewrite Z.eqb_neq. naive_solver.
  - intros y. rewrite !lookup_delete_is_Some, Id. done.
  - intros y n [_ Hy]%lookup_delete_Some. exact (eq_trans (TimerWheel.timeout_remove (th_timer w) x y) (It _ _ Hy)).
  - done.
Qed.

(** While the wheel rolls. *)
Record rolling w0 (now : Z) w (dl : gmap Z Z) : Prop := {
  ro_inv : minv w dl;
  ro_tick : tick w = tick w0;
  ro_sub x m : meters w !! x = Some m -> meters w0 !! x = Some m;
  ro_gone x m : meters w0 !! x = Some m -> meters w !! x = Some m \/ disposable m;
  ro_due x m D : meters w !! x = Some m -> dl !! x = Some D -> D < now -> disposable m
}.

Lemma meter_release_ok w0 base now : TimerWheel.callbacks_ok (rolling w0 now) base now.
Proof.
  intros w dl s n D fn [I Et Hsub Hgone Hdue] Hs V Hn HD _ w1.
  destruct (proj1 (mi_dl _ _ I n)) as [m Hm]; [by eexists|].
  pose proof (Hdue _ _ _ Hm Hn HD) as Hdis.
  destruct (release_minv w dl n m I Hm Hdis) as (w' & Er & I' & Em & Ew & Et').
  assert (w1 = w') as ->.
  { unfold w1. cbn [TimerWheel.run_callback TimerWheel.wheel_upd mthread_world]. by rewrite Er. }
  exists (delete n dl). split_and!.
  - constructor; [done|congruence|..]; rewrite Em.
    + intros x m' [_ ?]%lookup_delete_Some. by apply Hsub.
    + intros x m' Hx. destruct (Hgone _ _ Hx) as [Hw|]; [|by right].
      destruct (decide (n = x)) as [->|]; [right; by simplify_eq|left; by rewrite lookup_delete_ne].
    + intros x m' D' [_ ?]%lookup_delete_Some [_ ?]%lookup_delete_Some. by eapply Hdue.
  - cbn [TimerWheel.wheel mthread_world]. rewrite Ew. by eapply TimerWheel.remove_inv.
  - intros y D' [Hne Hy]%lookup_delete_Some. left. split; [by apply not_eq_sym|done].
Qed.

Lemma meter_timeout_spec w : mok w -> quiet w ->
  exists n0, forall fuel, (n0 <= fuel)%nat -> exists w', meter_timeout fuel w = Some w' /\ mok w' /\ tick w' = tick w /\
    (forall x m, meters w' !! x = Some m -> meters w !! x = Some m) /\
    (forall x m, meters w !! x = Some m -> meters w' !! x = Some m \/ disposable m).
Proof.
  intros (dl & I & V & (Hb & H32 & Hr)) Q. exists (size (TimerWheel.overdue (tick w) dl)). intros fuel Hf.
  unfold meter_timeout.
  destruct (TimerWheel.timer_wheel_roll_spec (rolling w (tick w)) (TimerWheel.current (th_timer w)) (tick w)
    (meter_release_ok w _ (tick w))
    ltac:(intros ? ? ? [[] ? ? ? ?]; constructor; try done; by constructor) fuel w dl)
    as (w' & cnt & dl' & -> & [I' Et Hsub Hgone _] & Hc & V'); try done;
    try (unfold TimerWheel.MAX_TIMER_SLOTS in *; lia).
  { constructor; try done; [by left|]. intros x m D Hx HD Hlt. apply (Q x m Hx).
    destruct (TimerWheel.inv_entry _ _ _ V x D HD) as (HDr & _ & _ & Hin). exists D. split; [lia|done]. }
  exists w'. cbn [mbind option_bind]. split_and!; try done. exists dl'. cbn [TimerWheel.wheel mthread_world] in *.
  rewrite Hc. split_and!; [done|done|]. unfold tick_ok. rewrite Et. unfold TimerWheel.MAX_TIMER_SLOTS in *. lia.
Qed.

(** ** The rate meters of floods and idle connections *)

Definition drop_if (b : bool) p : packet * Z :=
  if b then (dpi_set_action p DPI_ACTION_DROP, DPI_METER_ACTION_CLEAR) else (p, DPI_METER_ACTION_NONE).

Lemma synflood_inc_spec tc w p mac tap : mok w ->
  exists w' p' act, dpi_meter_synflood_inc tc w p mac tap = Some (w', p', act) /\
    if thrt_enable (tc DPI_THRT_TCP_FLOOD) && FLAGS_TEST (flags p) DPI_PKT_FLAG_INGRESS then
      exists m0 m1 m fire, at_key w (make_key DPI_METER_SYN_FLOOD mac None true) m0 /\
        meter_count (meter_info DPI_METER_SYN_FLOOD) (tick w) m0 = (m1, fire) /\ eqv m1 m /\
        changed w (make_key DPI_METER_SYN_FLOOD mac None true) m w' /\ (p', act) = drop_if (fire && negb tap) p
    else w' = w /\ p' = p /\ act = DPI_METER_ACTION_NONE.
Proof.
  intros M. unfold dpi_meter_synflood_inc.
  destruct (thrt_enable (tc DPI_THRT_TCP_FLOOD)); cbn [negb andb]; [|by eexists _, _, _].
  destruct (FLAGS_TEST (flags p) DPI_PKT_FLAG_INGRESS); cbn [negb]; [|by eexists _, _, _].
  destruct (meter_inc_spec w DPI_METER_SYN_FLOOD mac None (eth_type p =? ETH_P_IP) M)
    as (w1 & x & m0 & m1 & fire & create & -> & A & E & C1 & Hx1). cbn [mbind option_bind].
  destruct (fill_log_spec _ _ _ _ _ C1 Hx1 (PacketLog DPI_THRT_TCP_FLOOD p) (create || fire)) as (w2 & m2 & -> & C2 & Hx2 & E2).
  cbn [mbind option_bind]. unfold drop_if.
  destruct (fire && negb tap) eqn:Ef; (eexists _, _, _; split; [reflexivity|]; exists m0, m1, m2, fire; rewrite Ef; by split_and!).
Qed.

Lemma packet_inc_spec tc junk w t p mac : mok w ->
  exists w' p' act, dpi_meter_packet_inc tc junk w t p mac = Some (w', p', act) /\
    (w' = w \/ exists k m, type k = t /\ changed w k m w').
Proof.
  intros M. unfold dpi_meter_packet_inc.
  destruct (thrt_enable (tc (log_id (meter_info t)))); cbn [negb]; [|eexists _, _, _; split; [done|by left]].
  set (a := if eth_type p =? ETH_P_IP then _ else _). destruct a as [ipv4 ip].
  destruct (meter_inc_spec w t mac (Some ip) ipv4 M)
    as (w1 & x & m0 & m1 & fire & create & -> & A & E & C1 & Hx1). cbn [mbind option_bind].
  destruct (fill_log_spec _ _ _ _ _ C1 Hx1 (PacketLog (log_id (meter_info t)) p) (create || fire)) as (w2 & m2 & -> & C2 & Hx2 & E2).
  cbn [mbind option_bind]. destruct fire.
  - destruct (send_log_spec _ _ _ _ _ C2 Hx2 (meter_info t) last_count) as (w3 & m3 & -> & C3 & _ & _).
    cbn [mbind option_bind]. eexists _, _, _. split; [reflexivity|]. right. eexists _, m3.
    split; [|by apply (changed_counters _ _ _ w3 (fun n => u64 (n + 1)))]. done.
  - eexists _, _, _. split; [reflexivity|]. right. eexists _, m2. split; [|exact C2]. done.
Qed.

Lemma session_rate_spec tc w t s : mok w ->
  exists w' fire, dpi_meter_session_rate tc w t s = Some (w', fire) /\
    (w' = w \/ exists k m, type k = t /\ changed w k m w').
Proof.
  intros M. unfold dpi_meter_session_rate.
  destruct (thrt_enable (tc (log_id (meter_info t)))); cbn [negb]; [|eexists _, _; split; [done|by left]].
  set (a := if FLAGS_TEST (s_flags s) DPI_SESS_FLAG_INGRESS then _ else _). destruct a as [mac ip].
  destruct (meter_inc_spec w t mac (Some ip) (FLAGS_TEST (s_flags s) DPI_SESS_FLAG_IPV4) M)
    as (w1 & x & m0 & m1 & fire & create & -> & A & E & C1 & Hx1). cbn [mbind option_bind].
  destruct (fill_log_spec _ _ _ _ _ C1 Hx1 (SessionLog (log_id (meter_info t)) s) (create || fire)) as (w2 & m2 & -> & C2 & Hx2 & E2).
  cbn [mbind option_bind]. eexists _, _. split; [reflexivity|]. right. eexists _, m2. split; [|exact C2]. done.
Qed.

(** ** Histories of a thread *)

(** [c] says how many metered sessions are open for each key of the session meter. *)
Definition bump k (d : Z) (c : mkey -> Z) : mkey -> Z := fun k' => if decide (k' = k) then c k' + d else c k'.

Lemma start_ok now : 0 <= now -> now + 3600 < 2 ^ 32 ->
  mok (MThread ∅ (RcuMap.rcu_map_init 0) (TimerWheel.Wheel ∅ 0 now ∅) now 0 0 [] false).
Proof.
  intros H0 H1. exists ∅. split_and!.
  - constructor; cbn [meters th_meter_map fault].
    + intros x [? Hx]. by rewrite lookup_empty in Hx.
    + intros x m Hx. by rewrite lookup_empty in Hx.
    + constructor; simpl; [apply Forall_nil_2|constructor|by intros x y ?%elem_of_nil|apply Forall_nil_2|done].
    + intros x. split; [by intros [h ?%elem_of_nil]|intros [? Hx]; by rewrite lookup_empty in Hx].
    + intros x. by rewrite !lookup_empty.
    + intros x m Hx. by rewrite lookup_empty in Hx.
    + done.
  - constructor; simpl; [done|..|done].
    + intros n D Hn. by rewrite lookup_empty in Hn.
    + intros k n. unfold TimerWheel.slot. simpl. rewrite lookup_empty. by intros ?%elem_of_nil.
    + intros k. unfold TimerWheel.slot. simpl. rewrite lookup_empty. constructor.
  - unfold tick_ok, TimerWheel.MAX_TIMER_SLOTS. simpl. lia.
Qed.

(** More fuel does not change the outcome. *)
Lemma drain_slot_mono (f g : nat) (j : Z) w cnt r : (f <= g)%nat ->
  TimerWheel.drain_slot f j w cnt = Some r -> TimerWheel.drain_slot g j w cnt = Some r.
Proof.
  revert g w cnt. induction f as [|f IH]; intros g w cnt Hg; destruct g as [|g]; simpl; try (done || lia);
    destruct (TimerWheel.slot _ _); try done. destruct (TimerWheel.callback _); [|done]. apply IH. lia.
Qed.

Lemma roll_slots_mono n (f g : nat) (a b : Z) w cnt r : (f <= g)%nat ->
  TimerWheel.roll_slots n f a b w cnt = Some r -> TimerWheel.roll_slots n g a b w cnt = Some r.
Proof.
  intros Hg. revert a w cnt. induction n as [|n IH]; intros a w cnt; simpl; [done|]. destruct (a <? b); [|done].
  destruct (TimerWheel.drain_slot f _ _ _) as [[w1 c1]|] eqn:E; [|done].
  rewrite (drain_slot_mono _ _ _ _ _ _ Hg E). apply IH.
Qed.

Lemma meter_timeout_mono (f g : nat) w w1 w2 : (f <= g)%nat ->
  meter_timeout f w = Some w1 -> meter_timeout g w = Some w2 -> w1 = w2.
Proof.
  intros Hg. unfold meter_timeout, TimerWheel.timer_wheel_roll. destruct (tick w <? _); [congruence|].
  destruct (TimerWheel.roll_slots _ f _ _ _ _) as [[w3 c3]|] eqn:E; [|done].
  rewrite (roll_slots_mono _ _ _ _ _ _ _ _ Hg E). simpl. congruence.
Qed.

Section histories.
Context (tc : Z -> threat_conf).

Inductive mhist : mthread -> (mkey -> Z) -> Prop :=
  | mh_start now : 0 <= now -> now + 3600 < 2 ^ 32 ->
      mhist (MThread ∅ (RcuMap.rcu_map_init 0) (TimerWheel.Wheel ∅ 0 now ∅) now 0 0 [] false) (fun _ => 0)
  | mh_tick w c t : mhist w c -> tick w <= t -> t + 3600 < 2 ^ 32 ->
      t + 10 < TimerWheel.current (th_timer w) + TimerWheel.MAX_TIMER_SLOTS -> mhist (w <| tick := t |>) c
  | mh_timeout w c fuel w' : mhist w c -> quiet w -> meter_timeout fuel w = Some w' -> mhist w' c
  | mh_open w c p s w' s' act : mhist w c -> c (sess_key s) + 1 < 2 ^ 32 ->
      dpi_meter_session_inc tc w p s = Some (w', s', act) ->
      mhist w' (if metered tc s then bump (sess_key s) 1 c else c)
  | mh_close w c s w' : mhist w c ->
      FLAGS_TEST (s_flags s) DPI_SESS_FLAG_INGRESS = true ->
      FLAGS_TEST (meter_flags s) DPI_SESS_METER_FLAG_IP_SESSION = true -> 0 < c (sess_key s) ->
      dpi_meter_session_dec w s = Some w' -> mhist w' (bump (sess_key s) (-1) c)
  | mh_synflood w c p mac tap w' p' act : mhist w c ->
      dpi_meter_synflood_inc tc w p mac tap = Some (w', p', act) -> mhist w' c
  | mh_icmp w c junk p mac w' p' act : mhist w c ->
      dpi_meter_packet_inc tc junk w DPI_METER_ICMP_FLOOD p mac = Some (w', p', act) -> mhist w' c
  | mh_nodata w c s w' fire : mhist w c ->
      dpi_meter_session_rate tc w DPI_METER_TCP_NODATA s = Some (w', fire) -> mhist w' c.

(** Every session meter counts the open sessions of its key. *)
Definition counted w (c : mkey -> Z) : Prop := forall k, type k = DPI_METER_IP_SRC_SESSION ->
  0 <= c k < 2 ^ 32 /\ exists m, at_key w k m /\ count m = c k.

Lemma counted_changed w c k m w' : counted w c -> changed w k m w' -> type k <> DPI_METER_IP_SRC_SESSION -> counted w' c.
Proof.
  intros H C Hk k' Hk'. destruct (H k' Hk') as (R & n & A & E). split; [done|]. exists n. split; [|done].
  apply (ch_other _ _ _ _ C); [congruence|done].
Qed.

Lemma counted_bump w c k m w' d : counted w c -> changed w k m w' -> 0 <= c k + d < 2 ^ 32 -> count m = c k + d ->
  counted w' (bump k d c).
Proof.
  intros H C Hd Em k' Hk'. unfold bump. case_decide as E.
  - subst k'. split; [done|]. exists m. split; [|done]. left. apply (ch_this _ _ _ _ C).
  - destruct (H k' Hk') as (R & n & A & En). split; [done|]. exists n. split; [|done].
    by apply (ch_other _ _ _ _ C).
Qed.

Lemma counted_tick w c t : counted w c -> counted (w <| tick := t |>) c.
Proof.
  intros H k Hk. destruct (H k Hk) as (R & n & A & En). split; [done|].
  destruct A as [(x & Hx & Ek)|[-> Hno]].
  - exists n. split; [|done]. left. by exists x.
  - eexists. split; [right; split; [reflexivity|exact Hno]|]. done.
Qed.

Lemma counted_timeout w c w' : mok w -> counted w c -> tick w' = tick w ->
  (forall x m, meters w' !! x = Some m -> meters w !! x = Some m) ->
  (forall x m, meters w !! x = Some m -> meters w' !! x = Some m \/ disposable m) -> counted w' c.
Proof.
  intros (dl & I & _) H Et Hsub Hgone k Hk. destruct (H k Hk) as (R & n & A & En). split; [done|].
  destruct A as [(x & Hx & Ek)|[-> Hno]].
  - destruct (meters w' !! x) as [m'|] eqn:Ex.
    + exists n. split; [|done]. left. exists x. split; [|done]. apply Hsub in Ex as Ex'. congruence.
    + destruct (Hgone _ _ Hx) as [|[Hr|Hz]]; [congruence|rewrite Ek, Hk in Hr; done|].
      eexists. split; [right; split; [reflexivity|]|simpl; congruence].
      intros y m' Hy Ey. assert (y = x) as ->; [|congruence].
      eapply key_unique; [exact I|by apply Hsub|exact Hx|congruence].
  - eexists. split; [right; split; [reflexivity|]|done]. intros y m' Hy%Hsub. by eapply Hno.
Qed.

Lemma mhist_ok w c : mhist w c -> mok w /\ counted w c.
Proof.
  induction 1 as [now H0 H1|w c t _ [M N] H1 H2 H3|w c fuel w' _ [M N] Q E|w c p s w' s' act _ [M N] Hc E
    |w c s w' _ [M N] F1 F2 Hc E|w c p mac tap w' p' act _ [M N] E|w c junk p mac w' p' act _ [M N] E|w c s w' fire _ [M N] E].
  - split; [apply start_ok; lia|]. intros k _. split; [lia|]. eexists. split; [right; split; [reflexivity|]|done].
    intros x n Hx. cbn [meters] in Hx. by rewrite lookup_empty in Hx.
  - split; [|by apply counted_tick]. destruct M as (dl & [] & V & T). exists dl. split_and!; [by constructor|done|].
    unfold tick_ok in *. simpl. lia.
  - destruct (meter_timeout_spec w M Q) as (n0 & H).
    destruct (H (fuel + n0)%nat ltac:(lia)) as (w2 & E2 & M2 & Et & Hs & Hg).
    assert (w' = w2) as -> by (by eapply meter_timeout_mono; [|exact E|exact E2]; lia). split; [done|]. exact (counted_timeout _ _ _ M N Et Hs Hg).
  - destruct (session_inc_spec tc w p s M) as (w2 & s2 & a2 & E2 & H). rewrite E in E2. simplify_eq.
    destruct (metered tc s); [|by destruct H as (-> & _)].
    destruct H as (m0 & m & A & C & Ec & _). split; [apply C|].
    destruct (N (sess_key s) eq_refl) as (R & n & An & En).
    assert (m0 = n) as -> by by eapply at_key_unique.
    eapply counted_bump; [done|done|lia|]. rewrite Ec, En. apply u32_id. unfold is_u32. lia.
  - destruct (session_dec_spec w s M) as (w2 & E2 & H). rewrite E in E2. simplify_eq. rewrite F1, F2 in H. simpl in H.
    destruct (N (sess_key s) eq_refl) as (R & n & An & En).
    destruct H as [[_ Hno]|(x & m0 & Hx & Hk & C)].
    + destruct An as [(x & Hx & Hk)|[-> _]]; [by destruct (Hno _ _ Hx)|simpl in En; lia].
    + split; [apply C|]. assert (m0 = n) as -> by (eapply at_key_unique; [done|left; by exists x|done]).
      eapply counted_bump; [done|done|lia|]. simpl. rewrite En. apply u32_id. unfold is_u32. lia.
  - destruct (synflood_inc_spec tc w p mac tap M) as (w2 & p2 & a2 & E2 & H). rewrite E in E2. simplify_eq.
    destruct (_ && _); [|by destruct H as (-> & _)]. destruct H as (m0 & m1 & m & fire & _ & _ & _ & C & _).
    split; [apply C|by eapply counted_changed].
  - destruct (packet_inc_spec tc junk w DPI_METER_ICMP_FLOOD p mac M) as (w2 & p2 & a2 & E2 & H). rewrite E in E2. simplify_eq.
    destruct H as [->|(k & m & Hk & C)]; [done|]. split; [apply C|]. eapply counted_changed; [done|done|by rewrite Hk].
  - destruct (session_rate_spec tc w DPI_METER_TCP_NODATA s M) as (w2 & f2 & E2 & H). rewrite E in E2. simplify_eq.
    destruct H as [->|(k & m & Hk & C)]; [done|]. split; [apply C|]. eapply counted_changed; [done|done|by rewrite Hk].
Qed.
End histories.

(** ** Scaling in single precision

    A count below 2^24 is exact as a float, times 1 it stays, times 0 it vanishes. *)

Lemma digits_bound q n : 0 <= n -> Z.pos q < 2 ^ n -> Z.pos (digits2_pos q) <= n.
Proof.
  revert n. induction q as [q IH|q IH|]; intros n Hn H; simpl;
    (destruct (Z.eq_dec n 0) as [->|]; [simpl in H; lia|]); [..|lia];
    (assert (Z.pos (digits2_pos q) <= n - 1); [|lia]; apply IH; [lia|];
     replace n with (Z.succ (n - 1)) in H by lia; rewrite Z.pow_succ_r in H; lia).
Qed.

Lemma digits_iter q d : Z.pos (digits2_pos (Pos.iter xO q d)) = Z.pos (digits2_pos q) + Z.pos d.
Proof. induction d using Pos.peano_ind; [simpl; lia|]. rewrite Pos.iter_succ. cbn [digits2_pos]. lia. Qed.

Section single.
Context (f : positive) (e : Z) (D : digits2_pos f = 24%positive) (H : -126 <= e <= 104).

Lemma shr_same : shr_fexp 24 128 (Z.pos f) e loc_Exact = (Build_shr_record (Z.pos f) false false, e).
Proof.
  unfold shr_fexp, Zdigits2, fexp, emin. rewrite D.
  by replace (Z.max (24 + e - 24) (3 - 128 - 24) - e) with 0 by lia.
Qed.

Lemma shr_one : shr_fexp 24 128 (Z.pos (f * 8388608)) (e + -23) loc_Exact = (Build_shr_record (Z.pos f) false false, e).
Proof.
  rewrite Pos.mul_comm. unfold shr_fexp, Zdigits2, fexp, emin.
  assert (digits2_pos (8388608 * f) = 47%positive) as ->.
  { change (8388608 * f)%positive with (Pos.iter xO f 23). pose proof (digits_iter f 23). lia. }
  replace (Z.max (47 + (e + -23) - 24) (3 - 128 - 24) - (e + -23)) with 23 by lia.
  unfold shr. f_equal. lia.
Qed.

Lemma not_infinite : (if e <=? 128 - 24 then S754_finite false f e else S754_infinity false) = S754_finite false f e.
Proof. destruct (Z.leb_spec e (128 - 24)); [done|lia]. Qed.

Lemma round_same : binary_round_aux 24 128 false (Z.pos f) e loc_Exact = S754_finite false f e.
Proof.
  unfold binary_round_aux. rewrite shr_same. cbn [shr_m loc_of_shr_record round_nearest_even].
  rewrite shr_same. apply not_infinite.
Qed.

Lemma round_one : binary_round_aux 24 128 false (Z.pos (f * 8388608)) (e + -23) loc_Exact = S754_finite false f e.
Proof.
  unfold binary_round_aux. rewrite shr_one. cbn [shr_m loc_of_shr_record round_nearest_even].
  rewrite shr_same. apply not_infinite.
Qed.
End single.

Lemma f_of_pos q : Z.pos q < 2 ^ 24 -> exists f e, f_of_Z (Z.pos q) = S754_finite false f e /\
  digits2_pos f = 24%positive /\ -126 <= e <= 0 /\ Z.pos f = Z.pos q * 2 ^ (- e).
Proof.
  intros H. pose proof (digits_bound q 24 ltac:(lia) H) as Hd.
  unfold f_of_Z, binary_normalize, binary_round, fexp, emin.
  replace (Z.max (Z.pos (digits2_pos q) + 0 - 24) (3 - 128 - 24)) with (Z.pos (digits2_pos q) - 24) by lia.
  unfold shl_align. rewrite Z.sub_0_r. destruct (Z.pos (digits2_pos q) - 24) as [|d|d] eqn:E; [|lia|].
  - exists q, 0. rewrite round_same by lia. split_and!; [done|lia|lia|lia|]. rewrite Z.pow_0_r. lia.
  - exists (Pos.iter xO q d), (Z.neg d).
    assert (digits2_pos (Pos.iter xO q d) = 24%positive) as Dk by (pose proof (digits_iter q d); lia).
    rewrite round_same by (done || lia). split_and!; [done|done|lia|lia|].
    change (Pos.iter xO q d) with (shift_pos d q). rewrite shift_pos_correct. apply Z.mul_comm.
Qed.

Lemma f_scale_one c : 0 <= c < 2 ^ 24 -> f_scale c 1 1 = c.
Proof.
  intros H. unfold f_scale.
  change (SFdiv 24 128 (f_of_Z 1) (f_of_Z 1)) with (S754_finite false 8388608 (-23)).
  rewrite u32_id; [|unfold is_u32]; (destruct c as [|q|q]; [by vm_compute| |lia]);
    (destruct (f_of_pos q) as (f & e & -> & D & He & Hm); [lia|]; unfold SFmul; cbn [xorb];
     rewrite round_one by (done || lia); unfold f_to_Z; rewrite Hm; destruct (Z.leb_spec 0 e);
     [replace e with 0 by lia; simpl; lia|rewrite Z.div_mul by (apply Z.pow_nonzero; lia); lia]).
Qed.

Lemma f_scale_zero c b : 0 <= c < 2 ^ 24 -> 0 < b < 2 ^ 24 -> f_scale c 0 b = 0.
Proof.
  intros Hc Hb. unfold f_scale. destruct b as [|q|q]; [lia| |lia].
  destruct (f_of_pos q) as (f & e & -> & _); [lia|]. cbn [f_of_Z binary_normalize SFdiv].
  destruct c as [|r|r]; [done| |lia]. destruct (f_of_pos r) as (g & e' & E & _); [lia|].
  unfold f_of_Z in E |- *. by rewrite E.
Qed.

(** ** SYN floods

    SYNs of one endpoint arrive at the seconds [ts].  [prev] are the earlier ones, the
    latest first. *)

Definition occ (t : Z) (prev : list Z) : Z := Z.of_nat (length (filter (eq t) prev)).

(** The number of SYNs in the last second before [t] that had any. *)
Definition last_second (t : Z) (prev : list Z) : Z :=
  match filter (fun u => u <> t) prev with [] => 0 | u :: _ => occ u prev end.

Definition flooded (prev : list Z) (t : Z) : bool := (200 <=? last_second t prev) || (201 <=? occ t prev).

Fixpoint expected (prev ts : list Z) : list Z :=
  match ts with
  | [] => []
  | t :: ts => (if flooded prev t then DPI_METER_ACTION_CLEAR else DPI_METER_ACTION_NONE) :: expected (t :: prev) ts
  end.

(** dpi_meter_synflood_inc on the SYN [p] at each of the seconds. *)
Fixpoint run_syns (tc : Z -> threat_conf) w p (mac : list Z) (ts : list Z) : option (mthread * list Z) :=
  match ts with
  | [] => Some (w, [])
  | t :: ts =>
      '(w, _, act) ← dpi_meter_synflood_inc tc (w <| tick := t |>) p mac false;
      '(w, acts) ← run_syns tc w p mac ts;
      Some (w, act :: acts)
  end.

Lemma occ_same t prev : occ t (t :: prev) = occ t prev + 1.
Proof. unfold occ. rewrite filter_cons_True by done. simpl length. lia. Qed.

Lemma occ_other t u prev : t <> u -> occ u (t :: prev) = occ u prev.
Proof. intros H. unfold occ. by rewrite filter_cons_False by (intros ->; done). Qed.

Lemma occ_fresh t prev : Forall (fun u => u <> t) prev -> occ t prev = 0.
Proof. intros H. unfold occ. rewrite filter_none; [done|]. eapply Forall_impl; [exact H|]. simpl. intros u Hu ->. done. Qed.

Lemma occ_le t prev : 0 <= occ t prev <= Z.of_nat (length prev).
Proof. unfold occ. pose proof (length_filter (eq t) prev). lia. Qed.

Lemma last_second_same t prev : last_second t (t :: prev) = last_second t prev.
Proof.
  unfold last_second. rewrite filter_cons_False by (intros ?; done).
  destruct (filter _ prev) as [|u l] eqn:E; [done|]. apply occ_other.
  assert (u ∈ filter (fun u => u <> t) prev) as Hu by (rewrite E; apply list_elem_of_here).
  apply list_elem_of_filter in Hu as [Hu _]. by apply not_eq_sym.
Qed.

Lemma last_second_next t t0 prev : Forall (fun u => u <> t) (t0 :: prev) -> last_second t (t0 :: prev) = occ t0 (t0 :: prev).
Proof. intros H. unfold last_second. rewrite filter_all by done. done. Qed.

(** The meter after the SYNs [t0 :: prev]. *)
Record syn_meter (t0 : Z) (prev : list Z) m : Prop := {
  sm_start : start_tick m = t0;
  sm_count : count m = occ t0 (t0 :: prev);
  sm_last : last_count m = if 202 <=? count m then count m - 1 else last_second t0 (t0 :: prev)
}.

Lemma syn_meter_eqv t0 prev m m' : eqv m m' -> syn_meter t0 prev m -> syn_meter t0 prev m'.
Proof. intros [_ Ec El Es _] []. constructor; [congruence|congruence|]. by rewrite El, Ec. Qed.

Lemma rate_fire_spec m m' fire : rate_fire (meter_info DPI_METER_SYN_FLOOD) m = (m', fire) ->
  count m' = count m /\ start_tick m' = start_tick m /\ last_count m' = last_count m /\ fire = (200 <=? last_count m).
Proof.
  unfold rate_fire. simpl. destruct (Z.ltb_spec (last_count m) 200), (Z.leb_spec 200 (last_count m)); try lia;
    intros [= <- <-]; done.
Qed.

Lemma syn_first t k m fire : is_u32 t ->
  meter_count (meter_info DPI_METER_SYN_FLOOD) t (MkMeter k 0 0 0 0 t 0 None) = (m, fire) ->
  syn_meter t [] m /\ fire = flooded [] t.
Proof.
  intros U. unfold meter_count. simpl rate. cbv iota. unfold rate_roll. simpl. rewrite Z.sub_diag. simpl.
  intros (E1 & E2 & E3 & ->)%rate_fire_spec. simpl in *. split; [|done].
  constructor; [done| |].
  - rewrite E1, occ_same. done.
  - rewrite E3, E1. simpl. rewrite last_second_same. done.
Qed.

Lemma syn_next t t0 prev m m' fire :
  is_u32 t0 -> is_u32 t -> t0 <= t < t0 + 2 ^ 24 -> Forall (fun u => u <= t0) prev -> Z.of_nat (length (t0 :: prev)) < 2 ^ 24 ->
  syn_meter t0 prev m -> meter_count (meter_info DPI_METER_SYN_FLOOD) t m = (m', fire) ->
  syn_meter t (t0 :: prev) m' /\ fire = flooded (t0 :: prev) t.
Proof.
  intros U0 U Ht F L [Es Ec El]. unfold meter_count. simpl rate. cbv iota.
  pose proof (occ_le t0 (t0 :: prev)) as Ho. rewrite <- Ec in Ho.
  assert (forall c, 0 <= c < 2 ^ 24 -> u32 (c + 1) = c + 1) as Hu by (intros; apply u32_id; unfold is_u32; lia).
  assert (u32 (t - t0) = t - t0) as Hsp by (apply u32_id; unfold is_u32 in *; lia).
  unfold rate_roll. rewrite Es, Hsp. simpl.
  destruct (Z.leb_spec 1 (t - t0)) as [Hn|Hn].
  - rewrite f_scale_zero by lia. intros (E1 & E2 & E3 & ->)%rate_fire_spec. simpl in *.
    assert (Forall (fun u => u <> t) (t0 :: prev)) as Fne.
    { constructor; [lia|]. eapply Forall_impl; [exact F|]. simpl. lia. }
    split.
    + constructor.
      * rewrite E2. rewrite u32_id by (unfold is_u32 in *; lia). lia.
      * rewrite E1, occ_same, (occ_fresh t) by done. done.
      * rewrite E3, E1. simpl. by rewrite last_second_same, last_second_next, Ec.
    + unfold flooded. rewrite last_second_next, (occ_fresh t), Ec by done. simpl. by rewrite orb_false_r.
  - assert (t = t0) as -> by lia. rewrite Z.sub_diag. change (u32 (0 + 1)) with 1. change (1 - 0) with 1.
    destruct (Z.ltb_spec 200 (count m)) as [Hc|Hc].
    + rewrite (f_scale_one (count m)) by lia. intros (E1 & E2 & E3 & ->)%rate_fire_spec. simpl in *.
      rewrite Hu in E1 by lia. rewrite Z.div_1_r in E3 |- *. split.
      * constructor; [congruence|rewrite E1, occ_same, Ec; done|]. rewrite E3, E1.
        destruct (Z.leb_spec 202 (count m + 1)); lia.
      * unfold flooded. rewrite <- Ec. rewrite (proj2 (Z.leb_le 200 _)), (proj2 (Z.leb_le 201 _)) by lia. by rewrite orb_true_r.
    + intros (E1 & E2 & E3 & ->)%rate_fire_spec. simpl in *. rewrite Hu in E1 by lia.
      rewrite (proj2 (Z.leb_gt 202 (count m))) in El by lia. split.
      * constructor; [congruence|rewrite E1, occ_same, Ec; done|]. rewrite E3, E1, El.
        destruct (Z.leb_spec 202 (count m + 1)); [lia|]. by rewrite (last_second_same t0 (t0 :: prev)).
      * unfold flooded. rewrite <- Ec, El. rewrite (proj2 (Z.leb_gt 201 _)) by lia. by rewrite orb_false_r.
Qed.

Lemma mok_tick w t : mok w -> tick w <= t -> t + 3600 < 2 ^ 32 ->
  t + 10 < TimerWheel.current (th_timer w) + TimerWheel.MAX_TIMER_SLOTS -> mok (w <| tick := t |>).
Proof.
  intros (dl & [] & V & T) ? ? ?. exists dl. split_and!; [by constructor|done|]. unfold tick_ok in *. simpl. lia.
Qed.

Section syns.
Context (tc : Z -> threat_conf) (p : packet) (mac : list Z).
Context (Hon : thrt_enable (tc DPI_THRT_TCP_FLOOD) = true) (Hin : FLAGS_TEST (flags p) DPI_PKT_FLAG_INGRESS = true).
Let k := make_key DPI_METER_SYN_FLOOD mac None true.

(** The thread after the SYNs [prev]. *)
Definition syns_seen (prev : list Z) w : Prop :=
  match prev with
  | [] => forall x m, meters w !! x = Some m -> key m <> k
  | t0 :: prev => exists x m, meters w !! x = Some m /\ key m = k /\ syn_meter t0 prev m /\ tick w = t0 /\
                    Forall (fun u => u <= t0) prev
  end.

Lemma syn_step w prev t : mok w -> syns_seen prev w -> tick w <= t -> t + 3600 < 2 ^ 32 ->
  t + 10 < TimerWheel.current (th_timer w) + TimerWheel.MAX_TIMER_SLOTS -> Z.of_nat (length prev) < 2 ^ 24 ->
  exists w' p', dpi_meter_synflood_inc tc (w <| tick := t |>) p mac false =
      Some (w', p', if flooded prev t then DPI_METER_ACTION_CLEAR else DPI_METER_ACTION_NONE) /\
    mok w' /\ syns_seen (t :: prev) w' /\ tick w' = t /\ TimerWheel.current (th_timer w') = TimerWheel.current (th_timer w).
Proof.
  intros M S Ht H32 Hr L. set (w1 := w <| tick := t |>).
  assert (mok w1) as M1 by by apply mok_tick.
  assert (0 <= TimerWheel.current (th_timer w) <= tick w) as Hc by (destruct M as (? & _ & _ & T); unfold tick_ok in T; lia).
  destruct (synflood_inc_spec tc w1 p mac false M1) as (w' & p' & act & -> & H). rewrite Hon, Hin in H. simpl in H.
  destruct H as (m0 & m1 & m & fire & A & E & Ev & C & Ea). fold k in A, C.
  assert (syn_meter t prev m1 /\ fire = flooded prev t /\ Forall (fun u => u <= t) prev) as (Sm & -> & F).
  { unfold is_u32 in *. destruct prev as [|t0 prev].
    - assert (m0 = MkMeter k 0 0 0 0 t 0 None) as -> by (eapply at_key_unique; [exact M1|exact A|right; by split]).
      destruct (syn_first t k m1 fire) as [? ?]; [unfold is_u32; lia|done|]. done.
    - destruct S as (x & n & Hx & Hk & Sn & Et & F).
      assert (m0 = n) as -> by (eapply at_key_unique; [exact M1|exact A|left; by exists x]).
      destruct (syn_next t t0 prev n m1 fire) as [? ?]; try done; try (unfold is_u32, TimerWheel.MAX_TIMER_SLOTS in *; lia).
      split_and!; [done|done|]. constructor; [lia|]. eapply Forall_impl; [exact F|]. simpl. lia. }
  exists w', p'. rewrite andb_true_r in Ea. split_and!.
  - unfold drop_if in Ea. by destruct (flooded prev t); simplify_eq.
  - apply C.
  - destruct (ch_this _ _ _ _ C) as (x & Hx & Hk). exists x, m. split_and!; [done|done|by eapply syn_meter_eqv|apply (ch_tick _ _ _ _ C)|done].
  - apply (ch_tick _ _ _ _ C).
  - apply (ch_cur _ _ _ _ C).
Qed.

Lemma run_syns_spec ts w prev : mok w -> syns_seen prev w -> StronglySorted Z.le (tick w :: ts) ->
  Forall (fun t => t + 3600 < 2 ^ 32 /\ t + 10 < TimerWheel.current (th_timer w) + TimerWheel.MAX_TIMER_SLOTS) ts ->
  Z.of_nat (length prev + length ts) < 2 ^ 24 ->
  exists w', run_syns tc w p mac ts = Some (w', expected prev ts) /\ mok w'.
Proof.
  revert w prev. induction ts as [|t ts IH]; intros w prev M S Hs F L; [by exists w|].
  apply StronglySorted_inv in Hs as [Hs Hle]. apply Forall_cons in Hle as [Hle _]. apply Forall_cons in F as [[F1 F2] F].
  simpl in L. destruct (syn_step w prev t M S Hle F1 F2 ltac:(lia)) as (w1 & p1 & E & M1 & S1 & Et & Ec).
  destruct (IH w1 (t :: prev)) as (w2 & E2 & M2); [done|done|by rewrite Et|by rewrite Ec|simpl; lia|].
  exists w2. split; [|done]. cbn [run_syns expected]. rewrite E. cbn [mbind option_bind]. by rewrite E2.
Qed.
End syns.

(** ** The properties *)

(** C38: over any history of a thread (sessions opened and closed, other meters at work, timers)
    in which no session meter is idle to its timeout while it has sessions, every session
    meter holds the number of metered sessions of its peer and endpoint that are open; a new
    session is refused exactly when it would be the 2000th or later and the endpoint is
    not in tap mode, and no operation fails. *)
Theorem session_meters_exact (tc : Z -> threat_conf) w (c : mkey -> Z) :
  mhist tc w c ->
  (forall k, type k = DPI_METER_IP_SRC_SESSION -> exists m, at_key w k m /\ count m = c k) /\
  (forall p s, metered tc s = true -> c (sess_key s) + 1 < 2 ^ 32 ->
     exists w' s' act, dpi_meter_session_inc tc w p s = Some (w', s', act) /\
       (act = DPI_METER_ACTION_CLEAR <->
        2000 <= c (sess_key s) + 1 /\ FLAGS_TEST (s_flags s) DPI_SESS_FLAG_TAP = false)) /\
  (forall s, exists w', dpi_meter_session_dec w s = Some w') /\
  (quiet w -> exists fuel w', meter_timeout fuel w = Some w').
Proof.
  intros [M N]%mhist_ok. split_and!.
  - intros k Hk. by destruct (N k Hk) as (_ & m & ? & ?); exists m.
  - intros p s Hm Hc. destruct (session_inc_spec tc w p s M) as (w' & s' & act & E & H). rewrite Hm in H.
    destruct H as (m0 & m & A & _ & Ec & _ & ->). exists w', s'. eexists. split; [exact E|].
    destruct (N (sess_key s) eq_refl) as (R & n & An & En). assert (m0 = n) as -> by by eapply at_key_unique.
    rewrite Ec, En, u32_id by (unfold is_u32; lia).
    destruct (Z.leb_spec 2000 (c (sess_key s) + 1)), (FLAGS_TEST (s_flags s) DPI_SESS_FLAG_TAP); simpl; naive_solver lia.
  - intros s. destruct (session_dec_spec w s M) as (w' & E & _). by exists w'.
  - intros Q. destruct (meter_timeout_spec w M Q) as (n & H). destruct (H n) as (w' & E & _); [lia|]. by exists n, w'.
Qed.


(** ** A session meter loses its callback

    meter_release puts the entry of a meter that still counts sessions back on the wheel,
    but the wheel has cleared its callback: the next time, NULL is called. *)

Definition idle_thread : mthread :=
  MThread ∅ (RcuMap.rcu_map_init 0) (TimerWheel.Wheel ∅ 0 100 ∅) 100 0 0 [] false.
Definition sample_session : msess :=
  MSess (Z.lor DPI_SESS_FLAG_IPV4 DPI_SESS_FLAG_INGRESS) 0 [2; 2; 0; 0; 0; 1] [10; 0; 0; 1; 0; 0; 0; 0; 0; 0; 0; 0; 0; 0; 0; 0]
    [2; 2; 0; 0; 0; 9] [10; 0; 0; 9; 0; 0; 0; 0; 0; 0; 0; 0; 0; 0; 0; 0].
Definition sample_packet : packet :=
  Packet [] 0 DPI_PKT_FLAG_INGRESS 0 14 34 60 60 ETH_P_IP 1000 80 6 0 0 0 0 0 0 0 0 0 0 0 [] [].
Definition all_threats (_ : Z) : threat_conf := ThreatConf true DPI_ACTION_DROP 0 0.

Lemma session_meter_null_callback :
  match dpi_meter_session_inc all_threats idle_thread sample_packet sample_session with
  | Some (w1, _, act) =>
      act = DPI_METER_ACTION_NONE /\
      match meter_timeout 10 (w1 <| tick := 104 |>) with
      | Some w2 =>
          TimerWheel.callback (TimerWheel.entry (th_timer w2) 1) = None /\ count <$> meters w2 !! 1 = Some 1 /\
          meter_timeout 10 (w2 <| tick := 108 |>) = None
      | None => False
      end
  | None => False
  end.
Proof. vm_compute. repeat split. Qed.

(** ** Samples *)

Lemma session_meters_exact_witness :
  exists w' s', dpi_meter_session_inc all_threats idle_thread sample_packet sample_session = Some (w', s', DPI_METER_ACTION_NONE) /\
  exists m, at_key w' (sess_key sample_session) m /\ count m = 1.
Proof.
  pose proof (mh_start all_threats 100 ltac:(lia) ltac:(lia)) as H0. change (MThread _ _ _ _ _ _ _ _) with idle_thread in H0.
  destruct (session_meters_exact all_threats _ _ H0) as (_ & Hi & _).
  destruct (Hi sample_packet sample_session eq_refl ltac:(lia)) as (w' & s' & act & E & Ha).
  exists w', s'. split; [vm_compute in E |- *; by simplify_eq|].
  pose proof (mh_open all_threats _ _ _ _ _ _ _ H0 ltac:(lia) E) as H1.
  destruct (session_meters_exact all_threats _ _ H1) as (Hc & _).
  destruct (Hc (sess_key sample_session) eq_refl) as (m & A & Ec). exists m. split; [exact A|]. rewrite Ec. reflexivity.
Defined.

Definition burst : list Z := replicate 203 101 ++ [102; 102].


End Meter.
