(* ===== verification/Tcp.v ===== *)
(** * dpi/dpi_session.c: tracking of a TCP session

    dpi_tcp_tracker follows both directions ("wings") of a TCP connection: the states of
    client and server, sequence numbers and windows, the timer of the session, and the
    segments kept for reassembly (Asm.v).  [world] is what it works on: one session, the
    clips of its two caches, the timer wheel of the thread and the buffer of the packet
    for reassembled data.  [None] is an access to a clip or a byte that is not there.

    Creation of a session (policy, meters, the session map) is outside: the tracker is
    modelled from the point where the session is there, [session_start] with the
    tcp_open_ functions giving the state a new one is in.  [tap] is p->ep->tap. *)

From S2P Require Import Prelude Helper Tree Asm TimerWheel Wire Frag Packet.
Import Helper.Bytes Helper.Seq Asm.Asm Wire.Wire.

Module Tcp.

Inductive tcp_state :=
  | TCP_ESTABLISHED | TCP_SYN_SENT | TCP_SYN_RECV | TCP_FIN_WAIT1 | TCP_FIN_WAIT2 | TCP_TIME_WAIT
  | TCP_CLOSE | TCP_CLOSE_WAIT | TCP_LAST_ACK | TCP_LISTEN | TCP_CLOSING.
#[export] Instance tcp_state_eq : EqDecision tcp_state.
Proof. solve_decision. Defined.

Definition SESS_TIMEOUT_TCP_OPEN : Z := 20.
Definition SESS_TIMEOUT_TCP_ACTIVE_NODATA : Z := 30.
Definition SESS_TIMEOUT_TCP_ACTIVE : Z := 1200.
Definition SESS_TIMEOUT_TCP_HALF_CLOSE : Z := 90.
Definition SESS_TIMEOUT_TCP_CLOSE : Z := 15.
Definition SESS_TIMEOUT_TCP_SHORT : Z := 2.
Definition SESS_SMALL_WINDOW_SERVER_IGNORE : Z := 16 * 1024.
Definition SESS_SMALL_WINDOW_CLIENT_IGNORE : Z := 8 * 1024.
Definition SESS_SMALL_WINDOW_DROP : Z := 4 * 1024.
Definition SESS_SMALL_WINDOW_SIZE : Z := 16.
Definition TCP_MAX_WINSHIFT : Z := 14.

Definition DPI_WING_FLAG_FIN : Z := 0x01.
Definition DPI_WING_FLAG_SACK : Z := 0x02.
Definition DPI_SESS_FLAG_SKIP_PARSER : Z := 0x0002.
Definition DPI_SESS_FLAG_MID_STREAM : Z := 0x0040.
Definition DPI_SESS_FLAG_ESTABLISHED : Z := 0x0100.
Definition DPI_SESS_FLAG_SCAN : Z := 0x0800.
Definition DPI_SESS_TICK_FLAG_SMALL_WINDOWS : Z := 0x1.
Definition DPI_SESS_TERM_THREAT : Z := 2.
Definition DPI_PKT_FLAG_NEW_SESSION : Z := 0x08.
Definition DPI_PKT_FLAG_ASSEMBLED : Z := 0x10.
Definition DPI_PKT_FLAG_CACHED : Z := 0x20.
Definition DPI_PKT_FLAG_SKIP_PARSER : Z := 0x40.
Definition DPI_PKT_FLAG_SKIP_PATTERN : Z := 0x80.
Definition DPI_PKT_FLAG_LOG_MID : Z := 0x800.
Definition DPI_THRT_TCP_SYN_DATA : Z := 6.
Definition DPI_THRT_TCP_SPLIT_HDSHK : Z := 7.
Definition DPI_THRT_TCP_SMALL_WINDOW : Z := 9.

Inductive tcp_event :=
  | TCP_EVT_NORMAL | TCP_EVT_SYN | TCP_EVT_SYNACK | TCP_EVT_TWH | TCP_EVT_SPLIT | TCP_EVT_FIN | TCP_EVT_RST.

(** The callbacks of the timers of a session. *)
Inductive sess_cb := dpi_session_timeout | session_nodata_timeout | dpi_session_tick_timeout.

Record wing {T : Type} := Wing {
  next_seq : Z; init_seq : Z; asm_seq : Z; tcp_acked : Z; tcp_win : Z; wing_mss : Z;
  state : tcp_state; wing_wscale : Z; wing_flags : Z; asm_cache : asm T; pkts : Z
}.
Arguments wing T : clear implicits.
Arguments Wing {T} _ _ _ _ _ _ _ _ _ _ _.
#[export] Instance eta_wing T : Eta (wing T) := fun w => Wing
  (next_seq w) (init_seq w) (asm_seq w) (tcp_acked w) (tcp_win w) (wing_mss w) (state w) (wing_wscale w)
  (wing_flags w) (asm_cache w) (pkts w).

Record session {T : Type} := Session {
  client : wing T; server : wing T; sess_flags : Z; sess_action : Z; tick_flags : Z; small_window_tick : Z;
  sess_severity : Z; sess_threat : Z; term_reason : Z
}.
Arguments session T : clear implicits.
Arguments Session {T} _ _ _ _ _ _ _ _ _.
#[export] Instance eta_session T : Eta (session T) := fun s => Session
  (client s) (server s) (sess_flags s) (sess_action s) (tick_flags s) (small_window_tick s)
  (sess_severity s) (sess_threat s) (term_reason s).

(** [self] is the address of the session.  [asm_buf], [asm_pkt_seq] and [asm_pkt_len] are
    p->asm_pkt. *)
Record world {T : Type} := World {
  self : Z; sess : session T; clips : gmap Z clip; th_timer : TimerWheel.timer_wheel Z sess_cb; tick : Z;
  total_asms : Z; freed_asms : Z; asm_buf : list Z; asm_pkt_seq : Z; asm_pkt_len : Z
}.
Arguments world T : clear implicits.
Arguments World {T} _ _ _ _ _ _ _ _ _ _.
#[export] Instance eta_world T : Eta (world T) := fun w => World
  (self w) (sess w) (clips w) (th_timer w) (tick w) (total_asms w) (freed_asms w) (asm_buf w) (asm_pkt_seq w) (asm_pkt_len w).

(** The addresses of the two timer entries of the session at [a], &s->ts_entry and
    &s->tick_entry *)
Definition ts_entry (a : Z) : Z := 2 * a.
Definition tick_entry (a : Z) : Z := 2 * a + 1.

(** The fields of the TCP header the tracker looks at. *)
Record tcphdr := Tcphdr { syn : bool; ack : bool; fin : bool; rst : bool; th_ack : Z; th_win : Z }.
Definition get_tcph (p : packet) : option tcphdr :=
  f ← ld8 (pkt p) (l4 p + 13); a ← ld32 (pkt p) (l4 p + 8); v ← ld16 (pkt p) (l4 p + 14);
  Some (Tcphdr (FLAGS_TEST f Packet.TH_SYN) (FLAGS_TEST f Packet.TH_ACK) (FLAGS_TEST f Packet.TH_FIN)
               (FLAGS_TEST f Packet.TH_RST) (ntohl a) (ntohs v)).

Section tracker.
Context {T : Type} `{!OrderedTree T}.
Context (tc : Z -> threat_conf) (tap : bool).
Implicit Types (w : world T) (s : session T) (p : packet) (h : tcphdr).

(** p->this_wing and p->that_wing: the side the packet comes from, and the other. *)
Definition this_wing s p : wing T := if dpi_is_client_pkt p then client s else server s.
Definition that_wing s p : wing T := if dpi_is_client_pkt p then server s else client s.
Definition this_upd (f : wing T -> wing T) p w : world T :=
  w <| sess ::= fun s => if dpi_is_client_pkt p then s <| client ::= f |> else s <| server ::= f |> |>.
Definition that_upd (f : wing T -> wing T) p w : world T :=
  w <| sess ::= fun s => if dpi_is_client_pkt p then s <| server ::= f |> else s <| client ::= f |> |>.
Definition set_state (st : tcp_state) (x : wing T) : wing T := x <| state := st |>.
Definition set_both (st : tcp_state) w : world T :=
  w <| sess ::= fun s => s <| client ::= set_state st |> <| server ::= set_state st |> |>.
Definition set_flag (f : Z) w : world T := w <| sess ::= fun s => s <| sess_flags ::= fun g => FLAGS_SET g f |> |>.

Definition dpi_wing_length (x : wing T) : Z := u32_distance (init_seq x) (next_seq x).

(** ** Timers and clips *)

Definition dpi_session_timer_reprogram (cb : sess_cb) (tmo : Z) w : world T :=
  w <| th_timer ::= fun t =>
    let t := TimerWheel.timer_wheel_entry_set_callback t (ts_entry (self w)) cb in
    let t := TimerWheel.timer_wheel_entry_set_timeout t (ts_entry (self w)) (u16 tmo) in
    TimerWheel.timer_wheel_entry_refresh t (ts_entry (self w)) (tick w) |>.
Definition dpi_session_timer_refresh w : world T :=
  w <| th_timer ::= fun t => TimerWheel.timer_wheel_entry_refresh t (ts_entry (self w)) (tick w) |>.
Definition dpi_session_timer_start (cb : sess_cb) (tmo : Z) w : world T :=
  w <| th_timer ::= fun t => TimerWheel.timer_wheel_entry_start t (ts_entry (self w)) cb (u16 tmo) (tick w) |>.

Definition dpi_session_start_tick_for (flag : Z) w : world T :=
  let start := tick_flags (sess w) =? 0 in
  let w := w <| sess ::= fun s => s <| tick_flags ::= fun f => Z.land (Z.lor f flag) 15 |> |> in
  if start then
    w <| th_timer ::= fun t => TimerWheel.timer_wheel_entry_start t (tick_entry (self w)) dpi_session_tick_timeout
                                 SESS_TIMEOUT_TCP_SHORT (tick w) |>
  else w.

Definition dpi_session_stop_tick_for (flag : Z) w : world T :=
  let w := w <| sess ::= fun s => s <| tick_flags ::= fun f => FLAGS_UNSET 4 f flag |> |> in
  if tick_flags (sess w) =? 0 then w <| th_timer ::= fun t => TimerWheel.timer_wheel_entry_remove t (tick_entry (self w)) |>
  else w.

Definition dpi_asm_remove w (c : Z) : world T :=
  w <| freed_asms ::= fun n => u64 (n + 1) |> <| clips ::= delete c |>.

(** dpi_cache_packet on the wing the packet comes from *)
Definition dpi_cache_packet w p (lookup : bool) : option (world T * packet * Z) :=
  let w0 := this_wing (sess w) p in
  found ← (if lookup then asm_lookup (clips w) (asm_cache w0) (raw_seq p) else Some NULL);
  if negb (found =? NULL) then Some (w, p, -1)
  else
    let c := Frag.malloc (dom (clips w)) in
    if Z.of_nat (length (pkt p)) <? raw_ptr p + raw_len p then None
    else
      let data := take (Z.to_nat (raw_len p)) (drop (Z.to_nat (raw_ptr p)) (pkt p)) in
      let w := w <| total_asms ::= fun n => u64 (n + 1) |>
                 <| clips ::= <[c := Clip data (raw_seq p) (u24 (raw_len p)) 0 0]> |> in
      '(a, r) ← asm_insert (clips w) (asm_cache w0) c;
      let w := this_upd (fun x => x <| asm_cache := a |>) p w in
      if decide (r = ASM_FAILURE) then Some (dpi_asm_remove w c, p, -1)
      else Some (w, p <| flags ::= fun f => FLAGS_SET f DPI_PKT_FLAG_CACHED |>, 0).

(** asm_destroy of the caches of both wings *)
Definition destroy_caches w p : option (world T) :=
  '(a0, freed0) ← asm_destroy (asm_cache (this_wing (sess w) p));
  let w := foldl dpi_asm_remove (this_upd (fun x => x <| asm_cache := a0 |>) p w) freed0 in
  '(a1, freed1) ← asm_destroy (asm_cache (that_wing (sess w) p));
  Some (foldl dpi_asm_remove (that_upd (fun x => x <| asm_cache := a1 |>) p w) freed1).

(** dpi_threat_trigger on a packet with a session *)
Definition threat_trigger (idx : Z) w p : world T * packet :=
  let c := tc idx in
  if negb (thrt_enable c) then (w, p)
  else
    let p := dpi_threat_trigger tc idx p in
    let w := if (thrt_action c =? DPI_ACTION_RESET) || (thrt_action c =? DPI_ACTION_DROP)
             then w <| sess ::= fun s => s <| term_reason := DPI_SESS_TERM_THREAT |> |> else w in
    if sess_severity (sess w) <? thrt_severity c then
      (w <| sess ::= fun s => s <| sess_threat := thrt_id c |> <| sess_severity := thrt_severity c |> |>,
       p <| flags ::= fun f => FLAGS_SET f DPI_PKT_FLAG_LOG_MID |>)
    else (w, p).

(** ** A new session *)

Definition tcp_open_by_syn w : world T :=
  w <| sess ::= fun s => s <| client ::= set_state TCP_SYN_SENT |> <| server ::= set_state TCP_LISTEN |> |>.
Definition tcp_open_by_synack w : world T :=
  w <| sess ::= fun s => s <| client ::= set_state TCP_SYN_SENT |> <| server ::= set_state TCP_SYN_RECV |> |>.
Definition tcp_open_by_mid_stream h w p : world T :=
  let w := set_both TCP_ESTABLISHED w in
  let w := this_upd (fun x => x <| init_seq := raw_seq p |> <| next_seq := raw_seq p |> <| asm_seq := raw_seq p |>) p w in
  let w := that_upd (fun x => x <| init_seq := th_ack h |> <| next_seq := th_ack h |> <| asm_seq := th_ack h |>
                                <| tcp_acked := th_ack h |>) p w in
  let w := dpi_session_timer_reprogram dpi_session_timeout SESS_TIMEOUT_TCP_ACTIVE w in
  set_flag (Z.lor DPI_SESS_FLAG_MID_STREAM DPI_SESS_FLAG_ESTABLISHED) w.

(** The session as calloc, asm_init and the timers leave it, with its first packet; the
    policy decision, addresses and flags [fl] are set before.  The states are set by one
    of the functions above right after. *)
Definition session_start (fl : Z) (to_server : bool) w p : world T * packet :=
  let p := if to_server then dpi_set_client_pkt p else p in
  let p := p <| flags ::= fun f => FLAGS_SET f DPI_PKT_FLAG_NEW_SESSION |> in
  let wing0 := Wing 0 0 0 0 0 0 TCP_CLOSING 0 0 asm_init 0 in
  let w := w <| sess := Session wing0 wing0 fl 0 0 0 0 0 0 |>
             <| th_timer ::= fun t => TimerWheel.timer_wheel_entry_init (TimerWheel.timer_wheel_entry_init t (ts_entry (self w))) (tick_entry (self w)) |> in
  let w := dpi_session_timer_start dpi_session_timeout SESS_TIMEOUT_TCP_OPEN w in
  (this_upd (fun x => x <| pkts ::= fun n => u32 (n + 1) |>) p w, p).

(** ** Windows and states *)

Definition tcp_is_in_window w p : bool :=
  let w0 := this_wing (sess w) p in
  let win := tcp_win (that_wing (sess w) p) in
  (tcp_acked w0 =? 0) ||
  u32_between (raw_seq p) (u32 (tcp_acked w0 - 65536)) (u32 (tcp_acked w0 + win + 1)).

Definition is_state (x : wing T) (st : tcp_state) : bool := bool_decide (state x = st).

Definition tcp_scan_detection_reset w p : world T :=
  let s := sess w in
  if negb (dpi_is_client_pkt p) && is_state (client s) TCP_SYN_SENT && is_state (server s) TCP_SYN_RECV
  then set_flag DPI_SESS_FLAG_SCAN w
  else if dpi_is_client_pkt p && is_state (client s) TCP_ESTABLISHED && is_state (server s) TCP_SYN_RECV
  then set_flag DPI_SESS_FLAG_SCAN w
  else if FLAGS_TEST (sess_flags s) DPI_SESS_FLAG_MID_STREAM && (pkts (this_wing s p) =? 1)
  then set_flag DPI_SESS_FLAG_SCAN w
  else w.

Definition tcp_scan_detection_release w : world T :=
  let s := sess w in
  if is_state (client s) TCP_SYN_SENT && is_state (server s) TCP_SYN_RECV then set_flag DPI_SESS_FLAG_SCAN w
  else if is_state (client s) TCP_ESTABLISHED && is_state (server s) TCP_SYN_RECV then set_flag DPI_SESS_FLAG_SCAN w
  else if FLAGS_TEST (sess_flags s) DPI_SESS_FLAG_MID_STREAM && ((pkts (client s) =? 0) || (pkts (server s) =? 0))
  then set_flag DPI_SESS_FLAG_SCAN w
  else w.

Definition tcp_update_state h w p : world T * tcp_event :=
  if rst h then
    let w := set_both TCP_CLOSE (tcp_scan_detection_reset w p) in
    (dpi_session_timer_reprogram dpi_session_timeout SESS_TIMEOUT_TCP_CLOSE w, TCP_EVT_RST)
  else
    match state (that_wing (sess w) p) with
    | TCP_LISTEN =>
        if syn h then (w <| sess ::= fun s => s <| server ::= set_state TCP_SYN_RECV |> |>, TCP_EVT_SYN)
        else (w, TCP_EVT_NORMAL)
    | TCP_SYN_SENT =>
        if syn h && ack h
        then (w <| sess ::= fun s => s <| client ::= set_state TCP_ESTABLISHED |> |>, TCP_EVT_SYNACK)
        else if syn h && negb (ack h)
        then (w <| sess ::= fun s => s <| client ::= set_state TCP_SYN_RECV |> |>, TCP_EVT_SYNACK)
        else (w, TCP_EVT_NORMAL)
    | TCP_SYN_RECV =>
        if negb (syn h) && ack h && dpi_is_client_pkt p then (set_both TCP_ESTABLISHED w, TCP_EVT_TWH)
        else if syn h && ack h then (set_both TCP_ESTABLISHED w, TCP_EVT_SPLIT)
        else (w, TCP_EVT_NORMAL)
    | TCP_ESTABLISHED =>
        if fin h
        then (that_upd (set_state TCP_CLOSE_WAIT) p (this_upd (set_state TCP_FIN_WAIT1) p w), TCP_EVT_FIN)
        else if syn h && negb (ack h) && is_state (server (sess w)) TCP_SYN_RECV
        then (w <| sess ::= fun s => s <| server ::= set_state TCP_ESTABLISHED |> |>, TCP_EVT_SPLIT)
        else (w, TCP_EVT_NORMAL)
    | TCP_FIN_WAIT1 =>
        if fin h
        then (dpi_session_timer_reprogram dpi_session_timeout SESS_TIMEOUT_TCP_CLOSE
                (that_upd (set_state TCP_FIN_WAIT2) p (this_upd (set_state TCP_LAST_ACK) p w)), TCP_EVT_FIN)
        else if negb (syn h) && ack h
        then (dpi_session_timer_reprogram dpi_session_timeout SESS_TIMEOUT_TCP_HALF_CLOSE
                (that_upd (set_state TCP_FIN_WAIT2) p (this_upd (set_state TCP_CLOSE_WAIT) p w)), TCP_EVT_NORMAL)
        else (w, TCP_EVT_NORMAL)
    | TCP_FIN_WAIT2 =>
        if fin h
        then (dpi_session_timer_reprogram dpi_session_timeout SESS_TIMEOUT_TCP_CLOSE
                (that_upd (set_state TCP_TIME_WAIT) p (this_upd (set_state TCP_LAST_ACK) p w)), TCP_EVT_FIN)
        else (w, TCP_EVT_NORMAL)
    | TCP_LAST_ACK =>
        if negb (syn h) && ack h
        then (dpi_session_timer_reprogram dpi_session_timeout SESS_TIMEOUT_TCP_CLOSE
                (that_upd (set_state TCP_CLOSE) p w), TCP_EVT_NORMAL)
        else (w, TCP_EVT_NORMAL)
    | _ => (w, TCP_EVT_NORMAL)
    end.

(** The window, scale, segment size and SACK permission of a SYN. *)
Definition syn_wing p (x : wing T) : wing T :=
  let ws := Z.min TCP_MAX_WINSHIFT (tcp_wscale p) in
  let x := x <| wing_wscale := ws |> <| tcp_win ::= fun v => u32 (Z.shiftl v ws) |> <| wing_mss := tcp_mss p |> in
  if FLAGS_TEST (flags p) DPI_PKT_FLAG_SACKOK then x <| wing_flags ::= fun f => FLAGS_SET f DPI_WING_FLAG_SACK |> else x.
Definition start_seq (q : Z) (x : wing T) : wing T := x <| init_seq := q |> <| next_seq := q |> <| asm_seq := q |>.

Definition normal_wing h w p : world T :=
  let w := if ack h then that_upd (fun x => x <| tcp_acked := th_ack h |>) p w else w in
  if (dpi_wing_length (client (sess w)) =? 0) && dpi_is_client_pkt p && (0 <? raw_len p)
  then dpi_session_timer_reprogram dpi_session_timeout SESS_TIMEOUT_TCP_ACTIVE w else w.

Definition tcp_update_wing h w p (evt : tcp_event) : world T * packet :=
  let sq := u32 (raw_seq p + 1) in
  match evt with
  | TCP_EVT_SYN => (w <| sess ::= fun s => s <| client ::= fun x => syn_wing p (start_seq sq x) |> |>, p)
  | TCP_EVT_SYNACK =>
      let w := w <| sess ::= fun s => s <| server ::= start_seq sq |> |> in
      let w := if ack h then w <| sess ::= fun s => s <| client ::= fun x =>
                 x <| init_seq := th_ack h |> <| next_seq := th_ack h |> <| tcp_acked := th_ack h |> |> |> else w in
      (w <| sess ::= fun s => s <| server ::= syn_wing p |> |>, p)
  | TCP_EVT_TWH =>
      let w := w <| sess ::= fun s => s <| server ::= fun x => x <| tcp_acked := th_ack h |> |> |> in
      let w := set_flag DPI_SESS_FLAG_ESTABLISHED w in
      (dpi_session_timer_reprogram session_nodata_timeout SESS_TIMEOUT_TCP_ACTIVE_NODATA w, p)
  | TCP_EVT_FIN => (this_upd (fun x => x <| wing_flags ::= fun f => FLAGS_SET f DPI_WING_FLAG_FIN |>) p w, p)
  | TCP_EVT_RST => (w, p)
  | TCP_EVT_SPLIT => let '(w, p) := threat_trigger DPI_THRT_TCP_SPLIT_HDSHK w p in (normal_wing h w p, p)
  | TCP_EVT_NORMAL => (normal_wing h w p, p)
  end.

(** ** Reassembly *)

Definition tcp_assembly w p : option (world T * packet) :=
  let seq_ := raw_seq p in
  let end_ := u32 (seq_ + raw_len p) in
  let w0 := this_wing (sess w) p in
  if (raw_len p =? 0) || u32_lte end_ (asm_seq w0) then Some (w, p)
  else if (asm_count (asm_cache w0) =? 0) && negb (u32_lt (asm_seq w0) seq_) then Some (w, p)
  else
    '(w, p, r) ← dpi_cache_packet w p false;
    if r <? 0 then Some (w, p)
    else
      let cons := Clip (asm_buf w) (asm_seq w0) (u24 (DPI_MAX_PKT_LEN - 1)) 0 0 in
      '(cons, ret) ← asm_construct (clips w) (asm_cache (this_wing (sess w) p)) cons seq_;
      if decide (ret = ASM_OK) then
        Some (w <| asm_buf := ptr cons |> <| asm_pkt_seq := seq cons |> <| asm_pkt_len := Asm.len cons |>,
              p <| flags ::= fun f => FLAGS_SET f DPI_PKT_FLAG_ASSEMBLED |>)
      else if bool_decide (ret = ASM_MORE) || (DPI_MAX_PKT_LEN <? asm_gross (asm_cache (this_wing (sess w) p))) then
        w ← destroy_caches w p; Some (w, dpi_set_action p DPI_ACTION_BYPASS)
      else Some (w, p).

Definition check_small_window_attack w p (old_win : Z) : world T :=
  let s := sess w in
  let win := tcp_win (this_wing s p) in
  if 0 <? small_window_tick s then
    if SESS_SMALL_WINDOW_SIZE <=? win then
      dpi_session_stop_tick_for DPI_SESS_TICK_FLAG_SMALL_WINDOWS (w <| sess ::= fun s => s <| small_window_tick := 0 |> |>)
    else w
  else if (win <? SESS_SMALL_WINDOW_SIZE) && (win <? old_win) && (SESS_SMALL_WINDOW_DROP <? u32 (old_win - win)) &&
          (dpi_wing_length (client s) <? SESS_SMALL_WINDOW_CLIENT_IGNORE) &&
          (dpi_wing_length (server s) <? SESS_SMALL_WINDOW_SERVER_IGNORE)
  then dpi_session_start_tick_for DPI_SESS_TICK_FLAG_SMALL_WINDOWS (w <| sess ::= fun s => s <| small_window_tick := tick w |> |>)
  else w.

(** ** The tracker *)

(** FIN counts as one sequence number when it is the next. *)
Definition fin_seq h w p (seq_ : Z) : world T :=
  if fin h && (next_seq (this_wing (sess w) p) =? seq_)
  then this_upd (fun x => x <| next_seq ::= fun q => u32 (q + 1) |>) p w else w.

(** A mid-stream session: states and sequence numbers, no reassembly.  The flag tested
    is one of the session, in the flags of the packet. *)
Definition track_mid_stream h w p : world T * packet :=
  let '(w, evt) := tcp_update_state h w p in
  let '(w, p) := tcp_update_wing h w p evt in
  let w := if FLAGS_TEST (flags p) DPI_SESS_FLAG_SKIP_PARSER
           then this_upd (fun x => x <| next_seq := u32 (raw_seq p + raw_len p) |>) p w else w in
  (fin_seq h w p (raw_seq p), p).

(** The packet is the one cached under its sequence number: true.  A cached packet of
    another length is taken out. *)
Definition retransmission w p : option (world T * bool) :=
  if 0 <? raw_len p then
    c ← asm_lookup (clips w) (asm_cache (this_wing (sess w) p)) (raw_seq p);
    if c =? NULL then Some (w, false)
    else
      cl ← clips w !! c;
      if Asm.len cl =? raw_len p then Some (w, true)
      else
        a ← asm_remove (clips w) (asm_cache (this_wing (sess w) p)) c;
        Some (dpi_asm_remove (this_upd (fun x => x <| asm_cache := a |>) p w) c, false)
  else Some (w, false).

(** Reassembly and the next expected sequence number; also the sequence number the FIN
    test compares with. *)
Definition track_data w p : option (world T * packet * Z) :=
  let seq_ := raw_seq p in
  let end_ := u32 (seq_ + raw_len p) in
  if 0 <? raw_len p then
    if FLAGS_TEST (sess_flags (sess w)) DPI_SESS_FLAG_SKIP_PARSER
    then Some (this_upd (fun x => x <| next_seq := end_ |>) p w, p, seq_)
    else
      '(w, p) ← tcp_assembly w p;
      let next := next_seq (this_wing (sess w) p) in
      let '(seq_, end_) := if FLAGS_TEST (flags p) DPI_PKT_FLAG_ASSEMBLED
                           then (asm_pkt_seq w, u32 (asm_pkt_seq w + asm_pkt_len w)) else (seq_, end_) in
      if u32_lt next seq_ then Some (w, p <| flags ::= fun f => FLAGS_SET f DPI_PKT_FLAG_SKIP_PARSER |>, seq_)
      else if u32_lt next end_ then Some (this_upd (fun x => x <| next_seq := end_ |>) p w, p, seq_)
      else Some (w, p <| flags ::= fun f => FLAGS_SET f DPI_PKT_FLAG_SKIP_PARSER |>, seq_)
  else Some (w, p, seq_).

(** What follows once the session of the packet is known. *)
Definition track_session h w p : option (world T * packet) :=
  if FLAGS_TEST (sess_flags (sess w)) DPI_SESS_FLAG_MID_STREAM then Some (track_mid_stream h w p)
  else
    '(w, again) ← retransmission w p;
    if (again : bool) then
      Some (w, dpi_set_action (p <| flags ::= fun f => FLAGS_SET f (Z.lor DPI_PKT_FLAG_CACHED
                 (Z.lor DPI_PKT_FLAG_SKIP_PARSER DPI_PKT_FLAG_SKIP_PATTERN)) |>) DPI_ACTION_ALLOW)
    else
      let old_win := tcp_win (this_wing (sess w) p) in
      let w := this_upd (fun x => x <| tcp_win := u32 (Z.shiftl (th_win h) (wing_wscale x)) |>) p w in
      if negb (tcp_is_in_window w p) then Some (w, p <| flags ::= fun f => FLAGS_SET f DPI_PKT_FLAG_SKIP_PARSER |>)
      else
        let w := if thrt_enable (tc DPI_THRT_TCP_SMALL_WINDOW) && dpi_is_client_pkt p &&
                    negb (syn h) && negb (rst h) && negb (fin h)
                 then check_small_window_attack w p old_win else w in
        let '(w, evt) := tcp_update_state h w p in
        let '(w, p) := tcp_update_wing h w p evt in
        if Packet.dpi_is_action_final tap (action p) || Packet.dpi_is_action_final tap (sess_action (sess w)) then Some (w, p)
        else
          '(w, p, seq_) ← track_data w p;
          let w := fin_seq h w p seq_ in
          if ack h && u32_gt (th_ack h) (next_seq (that_wing (sess w) p)) then
            w ← destroy_caches w p; Some (w, dpi_set_action p DPI_ACTION_BYPASS)
          else Some (w, p).

(** [Tracked]: p->session is the session.  [NoSession]: it is NULL, the session stays.
    [Recreate]: the session is closed; it is released and the packet opens another. *)
Inductive outcome := Tracked | NoSession | Recreate.

(** dpi_tcp_tracker on a packet with a session *)
Definition dpi_tcp_tracker w p : option (world T * packet * outcome) :=
  h ← get_tcph p;
  if syn h && negb (raw_len p =? 0) then
    let '(w, p) := threat_trigger DPI_THRT_TCP_SYN_DATA w p in Some (w, p, NoSession)
  else
    let s := sess w in
    if dpi_is_client_pkt p && syn h && negb (ack h) && is_state (client s) TCP_CLOSE && is_state (server s) TCP_CLOSE
    then Some (w, p, Recreate)
    else if dpi_is_client_pkt p && syn h && negb (ack h) && negb (raw_seq p =? u32 (init_seq (client s) - 1))
    then Some (w, p, NoSession)
    else if negb (dpi_is_client_pkt p) && syn h && ack h &&
            ((negb (is_state (this_wing s p) TCP_SYN_RECV) && negb (raw_seq p =? u32 (init_seq (this_wing s p) - 1))) ||
             negb (th_ack h =? init_seq (that_wing s p)))
    then Some (w, p, NoSession)
    else '(w, p) ← track_session h (dpi_session_timer_refresh w) p; Some (w, p, Tracked).

(** dpi_tcp_tracker on a packet without a session, when its creation is granted.
    [mid_dir] is the direction tcp_mid_session_direction finds, [fl] the flags the session
    is created with. *)
Definition tracker_open (fl : Z) (mid_dir : bool) w p : option (world T * packet * outcome) :=
  h ← get_tcph p;
  if syn h && negb (raw_len p =? 0) then Some (w, dpi_threat_trigger tc DPI_THRT_TCP_SYN_DATA p, NoSession)
  else if syn h then
    let '(w, p) := session_start fl (negb (ack h)) w p in
    '(w, p) ← track_session h (if ack h then tcp_open_by_synack w else tcp_open_by_syn w) p; Some (w, p, Tracked)
  else if rst h || fin h then Some (w, p, NoSession)
  else
    let '(w, p) := session_start fl mid_dir w p in
    '(w, p) ← track_session h (tcp_open_by_mid_stream h w p) p; Some (w, p, Tracked).
End tracker.

(** ** The states of a connection *)

Section states.
Context {T : Type} `{!OrderedTree T}.
Context (tc : Z -> threat_conf) (tap : bool).
Implicit Types (w : world T) (s : session T) (p : packet) (h : tcphdr).

Definition states w : tcp_state * tcp_state := (state (client (sess w)), state (server (sess w))).

Ltac side := unfold this_upd, that_upd, this_wing, that_wing in *; destruct (dpi_is_client_pkt _).

Lemma this_upd_states f p w : (forall x, state (f x) = state x) -> states (this_upd f p w) = states w.
Proof. intros H. unfold states. side; cbn; by rewrite H. Qed.
Lemma that_upd_states f p w : (forall x, state (f x) = state x) -> states (that_upd f p w) = states w.
Proof. intros H. unfold states. side; cbn; by rewrite H. Qed.

Lemma asm_remove_states (cs : list Z) : forall w, states (foldl dpi_asm_remove w cs) = states w.
Proof. induction cs as [|c cs IH]; intros w; [done|]. simpl. by rewrite IH. Qed.

Lemma remove_states w c : states (dpi_asm_remove w c) = states w.
Proof. done. Qed.

Lemma destroy_states w p w' : destroy_caches w p = Some w' -> states w' = states w.
Proof.
  unfold destroy_caches. intros E. apply bind_Some in E as ([a0 f0] & _ & E). apply bind_Some in E as ([a1 f1] & _ & E).
  injection E as <-. by rewrite asm_remove_states, that_upd_states, asm_remove_states, this_upd_states.
Qed.

Lemma threat_states idx w p : states (threat_trigger tc idx w p).1 = states w.
Proof. unfold threat_trigger. destruct (negb _); [done|]. by destruct (_ || _), (_ <? _). Qed.

Lemma reprogram_states cb tmo w : states (dpi_session_timer_reprogram cb tmo w) = states w.
Proof. done. Qed.

Lemma normal_wing_states h w p : states (normal_wing h w p) = states w.
Proof.
  unfold normal_wing. assert (E : states (if ack h then that_upd (fun x => x <| tcp_acked := th_ack h |>) p w else w) = states w)
    by (destruct (ack h); [by rewrite that_upd_states|done]).
  by destruct (_ && _ && _).
Qed.

Lemma syn_wing_state p (x : wing T) : state (syn_wing p x) = state x.
Proof. unfold syn_wing. by destruct (FLAGS_TEST _ _). Qed.

Lemma update_wing_states h w p evt : states (tcp_update_wing tc h w p evt).1 = states w.
Proof.
  unfold tcp_update_wing. destruct evt; cbn [fst].
  - apply normal_wing_states.
  - unfold states. cbn. by rewrite syn_wing_state.
  - unfold states. destruct (ack h); cbn; by rewrite syn_wing_state.
  - done.
  - pose proof (threat_states DPI_THRT_TCP_SPLIT_HDSHK w p) as E.
    destruct (threat_trigger tc DPI_THRT_TCP_SPLIT_HDSHK w p) as [w1 p1]. cbn in *. by rewrite normal_wing_states.
  - by apply this_upd_states.
  - done.
Qed.

(** What a packet of the client ([from] = true) or of the server does to the states. *)
Definition next_states h (from : bool) (cs : tcp_state * tcp_state) : tcp_state * tcp_state :=
  let '(c, s) := cs in
  let pair (this that : tcp_state) := if from then (this, that) else (that, this) in
  let this := if from then c else s in
  if rst h then (TCP_CLOSE, TCP_CLOSE)
  else
    match if from then s else c with
    | TCP_LISTEN => if syn h then (c, TCP_SYN_RECV) else cs
    | TCP_SYN_SENT => if syn h then (if ack h then TCP_ESTABLISHED else TCP_SYN_RECV, s) else cs
    | TCP_SYN_RECV =>
        if (negb (syn h) && ack h && from) || (syn h && ack h) then (TCP_ESTABLISHED, TCP_ESTABLISHED) else cs
    | TCP_ESTABLISHED =>
        if fin h then pair TCP_FIN_WAIT1 TCP_CLOSE_WAIT
        else if syn h && negb (ack h) && bool_decide (s = TCP_SYN_RECV) then (c, TCP_ESTABLISHED) else cs
    | TCP_FIN_WAIT1 =>
        if fin h then pair TCP_LAST_ACK TCP_FIN_WAIT2
        else if negb (syn h) && ack h then pair TCP_CLOSE_WAIT TCP_FIN_WAIT2 else cs
    | TCP_FIN_WAIT2 => if fin h then pair TCP_LAST_ACK TCP_TIME_WAIT else cs
    | TCP_LAST_ACK => if negb (syn h) && ack h then pair this TCP_CLOSE else cs
    | _ => cs
    end.

Lemma update_state_states h w p :
  states (tcp_update_state h w p).1 = next_states h (dpi_is_client_pkt p) (states w).
Proof.
  unfold tcp_update_state, next_states, states, is_state, that_upd, this_upd, that_wing, this_wing.
  destruct (rst h); [done|]. destruct w as [? s ?]; destruct s as [[] [] ?]; cbn.
  destruct (dpi_is_client_pkt p); cbn;
    repeat match goal with |- context [match ?x with _ => _ end] => is_var x; destruct x; cbn end;
    repeat (case_match; cbn); try done.
Qed.

Lemma cache_states w p look w' p' r : dpi_cache_packet w p look = Some (w', p', r) -> states w' = states w.
Proof.
  unfold dpi_cache_packet. intros E. apply bind_Some in E as (c & _ & E).
  destruct (negb _); [by injection E as <- _ _|]. destruct (_ <? _); [done|].
  apply bind_Some in E as ([a r'] & _ & E). case_decide; injection E as <- _ _; rewrite ?remove_states; by rewrite this_upd_states.
Qed.

Lemma assembly_states w p w' p' : tcp_assembly w p = Some (w', p') -> states w' = states w.
Proof.
  unfold tcp_assembly. intros E. destruct (_ || _); [by injection E as <- _|]. destruct (_ && _); [by injection E as <- _|].
  apply bind_Some in E as ([[w1 p1] r] & E1 & E). apply cache_states in E1.
  destruct (r <? 0); [by injection E as <- _|].
  apply bind_Some in E as ([c ret] & _ & E). case_decide; [by injection E as <- _|].
  destruct (_ || _); [|by injection E as <- _].
  apply bind_Some in E as (w2 & E2 & E). injection E as <- _. apply destroy_states in E2. congruence.
Qed.

Lemma fin_seq_states h w p q : states (fin_seq h w p q) = states w.
Proof. unfold fin_seq. destruct (_ && _); [by apply this_upd_states|done]. Qed.

Lemma track_data_states w p w' p' q : track_data w p = Some (w', p', q) -> states w' = states w.
Proof.
  unfold track_data. intros E. destruct (0 <? _); [|by injection E as <- _ _].
  destruct (FLAGS_TEST (sess_flags _) _); [injection E as <- _ _; by apply this_upd_states|].
  apply bind_Some in E as ([w1 p1] & E1 & E). apply assembly_states in E1.
  destruct (if FLAGS_TEST (flags p1) _ then _ else _) as [q1 e1].
  destruct (u32_lt _ q1); [by injection E as <- _ _|]. destruct (u32_lt _ e1); injection E as <- _ _; [|done].
  by rewrite this_upd_states.
Qed.

Lemma retransmission_states w p w' r : retransmission w p = Some (w', r) -> states w' = states w.
Proof.
  unfold retransmission. intros E. destruct (0 <? _); [|by injection E as <- _].
  apply bind_Some in E as (c & _ & E). destruct (c =? NULL); [by injection E as <- _|].
  apply bind_Some in E as (cl & _ & E). destruct (_ =? _); [by injection E as <- _|].
  apply bind_Some in E as (a & _ & E). injection E as <- _. by rewrite remove_states, this_upd_states.
Qed.

Lemma small_window_states w p ow : states (check_small_window_attack w p ow) = states w.
Proof.
  unfold check_small_window_attack, dpi_session_stop_tick_for, dpi_session_start_tick_for.
  destruct (0 <? _); [destruct (_ <=? _); [cbn; by destruct (_ =? 0)|done]|].
  destruct (_ && _ && _ && _ && _); [|done]. cbn. by destruct (_ =? 0).
Qed.

Lemma track_session_states h w p w' p' : track_session tc tap h w p = Some (w', p') ->
  (states w' = states w /\ (raw_len p <> 0 \/ tcp_acked (this_wing (sess w) p) <> 0)) \/
  states w' = next_states h (dpi_is_client_pkt p) (states w).
Proof.
  unfold track_session. intros E. destruct (FLAGS_TEST (sess_flags _) _).
  { right. injection E as E. unfold track_mid_stream in E. pose proof (update_state_states h w p) as E1.
    destruct (tcp_update_state h w p) as [w1 evt]. cbn [fst] in E1. pose proof (update_wing_states h w1 p evt) as E2.
    destruct (tcp_update_wing tc h w1 p evt) as [w2 p2]. cbn [fst] in E2. injection E as <- _. rewrite fin_seq_states.
    destruct (FLAGS_TEST (flags p2) _); [rewrite this_upd_states by done|]; congruence. }
  apply bind_Some in E as ([w0 again] & Er & E). pose proof (retransmission_states _ _ _ _ Er) as E0.
  assert (Hlen : raw_len p = 0 -> w0 = w /\ again = false).
  { intros H0. unfold retransmission in Er. rewrite H0 in Er. by injection Er as <- <-. }
  destruct again; [left; injection E as <- _; split; [done|left; intros H0; by destruct (Hlen H0)]|].
  destruct (negb _) eqn:Ewin.
  { left. injection E as <- _. split; [by rewrite this_upd_states|].
    destruct (Z.eq_dec (raw_len p) 0) as [H0|]; [right|by left]. destruct (Hlen H0) as [-> _]. intros Ha.
    apply negb_true_iff in Ewin. unfold tcp_is_in_window in Ewin. apply orb_false_iff in Ewin as [Ewin _].
    revert Ewin Ha. unfold this_upd, this_wing. destruct (dpi_is_client_pkt p); cbn; intros Ewin Ha; by rewrite Ha in Ewin. }
  right.
  set (w1 := if _ && _ && _ && _ && _ then _ else _) in E.
  assert (E1 : states w1 = states w).
  { unfold w1. destruct (_ && _ && _ && _ && _); [rewrite small_window_states|]; by rewrite this_upd_states. }
  clearbody w1. pose proof (update_state_states h w1 p) as E2. destruct (tcp_update_state h w1 p) as [w2 evt]. cbn [fst] in E2.
  pose proof (update_wing_states h w2 p evt) as E3. destruct (tcp_update_wing tc h w2 p evt) as [w3 p3]. cbn [fst] in E3.
  rewrite E1 in E2. destruct (_ || _); [injection E as <- _; congruence|].
  apply bind_Some in E as ([[w4 p4] q] & E4 & E). apply track_data_states in E4.
  destruct (_ && _); [|injection E as <- _; rewrite fin_seq_states; congruence].
  apply bind_Some in E as (w5 & E5 & E). injection E as <- _. apply destroy_states in E5. rewrite fin_seq_states in E5. congruence.
Qed.

(** ** Histories of a session *)

(** Any sequence of packets from its creation on, while other parts of the thread change
    anything but the two states in between.  The flag tells if a RST was among them. *)
Inductive history : world T -> bool -> Prop :=
  | history_open fl mid w p h w' p' :
      dpi_is_client_pkt p = false -> get_tcph p = Some h ->
      tracker_open tc tap fl mid w p = Some (w', p', Tracked) -> history w' (rst h)
  | history_packet w b p h w' p' o :
      history w b -> get_tcph p = Some h -> dpi_tcp_tracker tc tap w p = Some (w', p', o) -> history w' (b || rst h)
  | history_other w b w' : history w b -> states w' = states w -> history w' b.

(** The states of the side that closed first and of the other, and all that occur. *)
Definition closing : list (tcp_state * tcp_state) :=
  [(TCP_FIN_WAIT1, TCP_CLOSE_WAIT); (TCP_FIN_WAIT2, TCP_CLOSE_WAIT); (TCP_FIN_WAIT2, TCP_LAST_ACK); (TCP_TIME_WAIT, TCP_LAST_ACK);
   (TCP_FIN_WAIT2, TCP_CLOSE); (TCP_TIME_WAIT, TCP_CLOSE)].
Definition legal_states : list (tcp_state * tcp_state) :=
  [(TCP_SYN_SENT, TCP_SYN_RECV); (TCP_ESTABLISHED, TCP_SYN_RECV); (TCP_SYN_RECV, TCP_SYN_RECV);
   (TCP_ESTABLISHED, TCP_ESTABLISHED)] ++ closing ++ (prod_swap <$> closing) ++ [(TCP_CLOSE, TCP_CLOSE)].

Lemma next_legal h from cs : cs ∈ legal_states ->
  next_states h from cs ∈ legal_states /\
  (next_states h from cs = (TCP_CLOSE, TCP_CLOSE) -> rst h = true \/ cs = (TCP_CLOSE, TCP_CLOSE)).
Proof.
  destruct h as [sy ak fi rs ? ?]. intros Hcs.
  assert (Hall : forallb (fun x => let n := next_states (Tcphdr sy ak fi rs 0 0) from x in
    bool_decide (n ∈ legal_states) && (negb (bool_decide (n = (TCP_CLOSE, TCP_CLOSE))) || rs || bool_decide (x = (TCP_CLOSE, TCP_CLOSE))))
    legal_states = true) by (destruct sy, ak, fi, rs, from; vm_compute; reflexivity).
  rewrite forallb_forall in Hall. specialize (Hall cs). rewrite <- list_elem_of_In in Hall. specialize (Hall Hcs). cbv zeta in Hall.
  change (next_states (Tcphdr sy ak fi rs 0 0) from cs) with (next_states (Tcphdr sy ak fi rs th_ack0 th_win0) from cs) in Hall.
  apply andb_true_iff in Hall as [H1%bool_decide_eq_true H2]. split; [done|]. intros E. rewrite E in H2. cbn [rst].
  apply orb_true_iff in H2 as [[H2|H2]%orb_true_iff|H2%bool_decide_eq_true]; [|by left|by right].
  by rewrite bool_decide_true in H2.
Qed.

Lemma client_flag p : dpi_is_client_pkt (dpi_set_client_pkt p <| flags ::= fun f => FLAGS_SET f DPI_PKT_FLAG_NEW_SESSION |>) = true.
Proof.
  unfold dpi_is_client_pkt, dpi_set_client_pkt, FLAGS_TEST, FLAGS_SET. cbn [flags set].
  apply negb_true_iff, Z.eqb_neq. intros H0. apply (f_equal (fun z => Z.testbit z 2)) in H0.
  rewrite Z.land_spec, !Z.lor_spec in H0. cbn in H0. by rewrite orb_true_r in H0.
Qed.

Lemma server_flag p : dpi_is_client_pkt (p <| flags ::= fun f => FLAGS_SET f DPI_PKT_FLAG_NEW_SESSION |>) = dpi_is_client_pkt p.
Proof.
  unfold dpi_is_client_pkt, FLAGS_TEST, FLAGS_SET. cbn [flags set]. rewrite Z.land_lor_distr_l.
  change (Z.land DPI_PKT_FLAG_NEW_SESSION DPI_PKT_FLAG_CLIENT) with 0. by rewrite Z.lor_0_r.
Qed.

Lemma mid_stream_states h w p : states (tcp_open_by_mid_stream h w p) = (TCP_ESTABLISHED, TCP_ESTABLISHED).
Proof.
  unfold tcp_open_by_mid_stream. set (w1 := dpi_session_timer_reprogram _ _ _).
  change (states (set_flag _ w1)) with (states w1). unfold w1. rewrite reprogram_states, that_upd_states, this_upd_states; done.
Qed.

Lemma open_legal fl mid w p h w' p' :
  dpi_is_client_pkt p = false -> get_tcph p = Some h -> tracker_open tc tap fl mid w p = Some (w', p', Tracked) ->
  states w' ∈ legal_states /\ (states w' = (TCP_CLOSE, TCP_CLOSE) -> rst h = true).
Proof.
  intros Hc Hh E. unfold tracker_open in E. rewrite Hh in E. cbn [mbind option_bind] in E.
  destruct (syn h && _) eqn:Ed; [done|]. destruct (syn h) eqn:Es.
  - cbn [andb] in Ed. apply negb_false_iff, Z.eqb_eq in Ed. unfold session_start in E. destruct (ack h) eqn:Ea; cbn [negb] in E.
    + apply bind_Some in E as ([w1 p1] & E1 & E). injection E as <- <-. apply track_session_states in E1.
      assert (L : states w1 ∈ legal_states /\ (states w1 = (TCP_CLOSE, TCP_CLOSE) -> rst h = true)); [|done].
      unfold this_upd in E1. rewrite server_flag, Hc in E1. cbn in E1.
      destruct E1 as [[-> _]| ->]; [split; [by apply (bool_decide_unpack _)|done]|].
      destruct (next_legal h false (TCP_SYN_SENT, TCP_SYN_RECV)) as [L1 L2]; [by apply (bool_decide_unpack _)|].
      split; [done|]. intros E. by destruct (L2 E).
    + apply bind_Some in E as ([w1 p1] & E1 & E). injection E as <- <-. apply track_session_states in E1.
      unfold this_upd, this_wing in E1. rewrite client_flag in E1. cbn in E1.
      destruct E1 as [[_ [E1|E1]]| ->]; [done|done|]. rewrite Es.
      destruct (rst h); [split; [by apply (bool_decide_unpack _)|done]|split; [by apply (bool_decide_unpack _)|done]].
  - destruct (rst h || fin h) eqn:Erf; [done|]. apply orb_false_iff in Erf as [Er Ef].
    unfold session_start in E. apply bind_Some in E as ([w1 p1] & E1 & E). injection E as <- <-.
    apply track_session_states in E1. rewrite Er.
    match type of E1 with (states _ = states ?x /\ _) \/ _ => assert (Ex : states x = (TCP_ESTABLISHED, TCP_ESTABLISHED)) end.
    { apply mid_stream_states. }
    rewrite Ex in E1.
    destruct E1 as [[-> _]| ->]; [split; [by apply (bool_decide_unpack _)|done]|].
    match goal with |- next_states h ?b _ ∈ _ /\ _ =>
      destruct (next_legal h b (TCP_ESTABLISHED, TCP_ESTABLISHED)) as [L1 L2]; [by apply (bool_decide_unpack _)|] end.
    split; [done|]. intros E. destruct (L2 E) as [L|L]; [congruence|done].
Qed.

Lemma tracker_states w p h w' p' o :
  get_tcph p = Some h -> dpi_tcp_tracker tc tap w p = Some (w', p', o) ->
  states w' = states w \/ states w' = next_states h (dpi_is_client_pkt p) (states w).
Proof.
  intros Hh E. unfold dpi_tcp_tracker in E. rewrite Hh in E. cbn [mbind option_bind] in E.
  destruct (syn h && _).
  { left. pose proof (threat_states DPI_THRT_TCP_SYN_DATA w p) as E1.
    destruct (threat_trigger tc DPI_THRT_TCP_SYN_DATA w p) as [w1 p1]. cbn [fst] in E1. by injection E as <- _ _. }
  destruct (_ && _ && _ && _ && _); [left; by injection E as <- _ _|].
  destruct (_ && _ && _ && _); [left; by injection E as <- _ _|]. destruct (_ && _ && _ && _); [left; by injection E as <- _ _|].
  apply bind_Some in E as ([w1 p1] & E1 & E). injection E as <- _ _. apply track_session_states in E1. destruct E1 as [[E1 _]|E1]; auto.
Qed.

(** C30: The TCP states of a session.  Whatever packets it sees, in whatever order and with
    whatever header flags, from its creation by a SYN, a SYN/ACK or a packet of an
    established connection on, client and server are in one of seventeen pairs of states;
    and both are closed, the condition for a new SYN to replace the session, only when a
    RST has been seen: a connection closed by two FINs keeps a side in FIN_WAIT2 or
    TIME_WAIT. *)
Theorem tcp_states_legal w b : history w b ->
  states w ∈ legal_states /\ (states w = (TCP_CLOSE, TCP_CLOSE) -> b = true).
Proof.
  induction 1 as [fl mid w p h w' p' Hc Hh E|w b p h w' p' o _ [IH1 IH2] Hh E|w b w' _ IH E].
  - by eapply open_legal.
  - destruct (tracker_states w p h w' p' o Hh E) as [-> | ->].
    + split; [done|]. intros Hcl. by rewrite IH2.
    + destruct (next_legal h (dpi_is_client_pkt p) (states w) IH1) as [L1 L2]. split; [done|].
      intros Hcl. apply orb_true_iff. destruct (L2 Hcl) as [|Hcl']; auto.
  - by rewrite E.
Qed.
End states.

(** ** The handshake *)

Section handshake.
Context {T : Type} `{!OrderedTree T}.
Context (tc : Z -> threat_conf) (tap : bool).
Implicit Types (w : world T) (s : session T) (p : packet) (h : tcphdr).

Lemma reprogram_entry cb tmo w a : a = self w -> 0 <= tmo < TimerWheel.MAX_TIMER_SLOTS ->
  TimerWheel.callback (TimerWheel.entry (th_timer (dpi_session_timer_reprogram cb tmo w)) (ts_entry a)) = Some cb /\
  TimerWheel.timeout (TimerWheel.entry (th_timer (dpi_session_timer_reprogram cb tmo w)) (ts_entry a)) = tmo.
Proof.
  intros -> Ht. unfold TimerWheel.MAX_TIMER_SLOTS in *. unfold dpi_session_timer_reprogram. cbn [th_timer set].
  rewrite u16_id by (unfold is_u16; lia).
  unfold TimerWheel.timer_wheel_entry_refresh, TimerWheel.timer_wheel_entry_insert, TimerWheel.timer_wheel_entry_remove,
    TimerWheel.timer_wheel_entry_set_timeout, TimerWheel.timer_wheel_entry_set_callback, TimerWheel.MAX_TIMER_SLOTS.
  rewrite (proj2 (Z.leb_gt _ _)) by lia.
  unfold TimerWheel.entry_upd, TimerWheel.entry, TimerWheel.link_tail, TimerWheel.unlink. cbn. rewrite !lookup_insert_eq. done.
Qed.

(** A packet without data that is in the window and acknowledges nothing unseen. *)
Lemma track_quiet h w p w1 evt w2 p2 :
  FLAGS_TEST (sess_flags (sess w)) DPI_SESS_FLAG_MID_STREAM = false -> raw_len p = 0 -> fin h = false ->
  let wa := this_upd (fun x => x <| tcp_win := u32 (Z.shiftl (th_win h) (wing_wscale x)) |>) p w in
  tcp_is_in_window wa p = true ->
  tcp_update_state h (if thrt_enable (tc DPI_THRT_TCP_SMALL_WINDOW) && dpi_is_client_pkt p &&
                         negb (syn h) && negb (rst h) && negb (fin h)
                      then check_small_window_attack wa p (tcp_win (this_wing (sess w) p)) else wa) p = (w1, evt) ->
  tcp_update_wing tc h w1 p evt = (w2, p2) -> raw_len p2 = 0 ->
  Packet.dpi_is_action_final tap (action p2) || Packet.dpi_is_action_final tap (sess_action (sess w2)) = false ->
  ack h && u32_gt (th_ack h) (next_seq (that_wing (sess w2) p2)) = false ->
  track_session tc tap h w p = Some (w2, p2).
Proof.
  intros Hm Hl Hf wa Hw E1 E2 Hl2 Hfin Hack. unfold track_session, retransmission. rewrite Hm, Hl. cbn [Z.ltb Z.compare mbind option_bind].
  fold wa. rewrite Hw. cbn [negb]. rewrite E1, E2, Hfin. unfold track_data. rewrite Hl2. cbn [Z.ltb Z.compare mbind option_bind].
  unfold fin_seq. rewrite Hf. cbn [andb]. by rewrite Hack.
Qed.

(** A segment without data: header, sequence number. *)
Record segment p h (q : Z) : Prop := {
  sg_hdr : get_tcph p = Some h;
  sg_seq : raw_seq p = q;
  sg_len : raw_len p = 0;
  sg_act : action p <= DPI_ACTION_ALLOW
}.

Record syn_seen w (x : Z) : Prop := {
  ss_states : states w = (TCP_SYN_SENT, TCP_SYN_RECV);
  ss_client : init_seq (client (sess w)) = u32 (x + 1) /\ asm_seq (client (sess w)) = u32 (x + 1);
  ss_server : tcp_acked (server (sess w)) = 0 /\ wing_wscale (server (sess w)) = 0;
  ss_flags : FLAGS_TEST (sess_flags (sess w)) DPI_SESS_FLAG_MID_STREAM = false /\ sess_action (sess w) = 0
}.

Lemma final_false n : n <= DPI_ACTION_ALLOW -> Packet.dpi_is_action_final tap n = false.
Proof.
  unfold Packet.dpi_is_action_final, DPI_ACTION_ALLOW, DPI_ACTION_BYPASS. intros. rewrite (proj2 (Z.eqb_neq n 4)) by lia.
  destruct tap; [done|]. apply Z.ltb_ge. lia.
Qed.

Lemma handshake_syn fl mid w p v a x :
  dpi_is_client_pkt p = false -> FLAGS_TEST fl DPI_SESS_FLAG_MID_STREAM = false ->
  segment p (Tcphdr true false false false a v) x ->
  exists w' p', tracker_open tc tap fl mid w p = Some (w', p', Tracked) /\ syn_seen w' x.
Proof.
  intros Hc Hm [Hh Hq Hl Ha]. unfold tracker_open. rewrite Hh. cbn [mbind option_bind syn ack rst fin negb andb]. rewrite Hl.
  cbn [Z.eqb negb]. unfold session_start. cbn [fst snd].
  set (p1 := dpi_set_client_pkt p <| flags ::= fun f => FLAGS_SET f DPI_PKT_FLAG_NEW_SESSION |>).
  assert (Hc1 : dpi_is_client_pkt p1 = true) by apply client_flag.
  assert (Hl1 : raw_len p1 = 0) by exact Hl. assert (Hq1 : raw_seq p1 = x) by exact Hq.
  assert (Ha1 : action p1 <= DPI_ACTION_ALLOW) by exact Ha. clearbody p1.
  set (w1 := dpi_session_timer_start _ _ _).
  assert (Es : sess w1 = Session (Wing 0 0 0 0 0 0 TCP_CLOSING 0 0 asm_init 0) (Wing 0 0 0 0 0 0 TCP_CLOSING 0 0 asm_init 0) fl 0 0 0 0 0 0)
    by done.
  clearbody w1. destruct w1 as [me s1 cl tt tk ta fa ab aq al]. cbn [sess] in Es. subst s1.
  unfold this_upd. rewrite Hc1. unfold tcp_open_by_syn. cbn [set sess client server].
  match goal with |- context [track_session tc tap ?h ?wb p1] =>
    assert (E : exists w2, track_session tc tap h wb p1 = Some (w2, p1) /\ syn_seen w2 x) end.
  { eexists. split.
    - eapply track_quiet; [exact Hm|done|done| | | | | |].
      + unfold tcp_is_in_window, this_upd, this_wing. rewrite Hc1. done.
      + unfold this_upd. cbn [syn rst fin negb andb]. rewrite Hc1, andb_false_r. cbn [andb].
        unfold tcp_update_state, that_wing, this_upd. cbn [rst]. rewrite Hc1. reflexivity.
      + reflexivity.
      + done.
      + rewrite (final_false (action p1)) by done. by apply (final_false 0).
      + done.
    - constructor.
      + unfold states. cbn. by rewrite syn_wing_state.
      + cbn. unfold syn_wing. rewrite Hq1. by destruct (FLAGS_TEST (flags p1) _).
      + done.
      + done. }
  destruct E as (w2 & -> & S). cbn [mbind option_bind]. by exists w2, p1.
Qed.

Record synack_seen w (x y : Z) : Prop := {
  sa_states : states w = (TCP_ESTABLISHED, TCP_SYN_RECV);
  sa_client : init_seq (client (sess w)) = u32 (x + 1) /\ next_seq (client (sess w)) = u32 (x + 1) /\
              asm_seq (client (sess w)) = u32 (x + 1) /\ tcp_acked (client (sess w)) = u32 (x + 1);
  sa_server : init_seq (server (sess w)) = u32 (y + 1) /\ next_seq (server (sess w)) = u32 (y + 1) /\
              asm_seq (server (sess w)) = u32 (y + 1);
  sa_win : 0 <= tcp_win (server (sess w)) < 2 ^ 31;
  sa_flags : FLAGS_TEST (sess_flags (sess w)) DPI_SESS_FLAG_MID_STREAM = false /\ sess_action (sess w) = 0
}.

Lemma u32_gt_irrefl z : u32_gt z z = false.
Proof. unfold u32_gt. by rewrite Z.sub_diag. Qed.

Lemma shifted_window v ws : is_u16 v -> 0 <= ws <= 14 -> 0 <= u32 (Z.shiftl (u32 (Z.shiftl v 0)) ws) < 2 ^ 31.
Proof.
  unfold is_u16. intros Hv Hw. rewrite Z.shiftl_0_r, (u32_id v), Z.shiftl_mul_pow2 by (try lia; unfold is_u32; lia).
  assert (0 < 2 ^ ws <= 2 ^ 14) by (split; [apply Z.pow_pos_nonneg; lia|apply Z.pow_le_mono_r; lia]).
  rewrite u32_id; unfold is_u32; nia.
Qed.

Lemma handshake_synack w p v x y :
  syn_seen w x -> dpi_is_client_pkt p = false -> is_u16 v -> 0 <= tcp_wscale p ->
  segment p (Tcphdr true true false false (u32 (x + 1)) v) y ->
  exists w' p', dpi_tcp_tracker tc tap w p = Some (w', p', Tracked) /\ synack_seen w' x y.
Proof.
  intros [S1 [S2 S3] [S4 S5] [S6 S7]] Hc Hv Hws [Hh Hq Hl Ha]. unfold dpi_tcp_tracker. rewrite Hh.
  cbn [mbind option_bind syn ack rst fin th_ack negb andb]. rewrite Hl. cbn [Z.eqb negb andb].
  unfold this_wing, that_wing. rewrite Hc. cbn [negb andb]. unfold states in S1. injection S1 as Sc Ss.
  unfold is_state. rewrite Ss, bool_decide_true, S2, Z.eqb_refl by done. cbn [negb andb orb].
  destruct w as [me s0 cl tt tk ta fa ab aq al]. cbn [sess] in *.
  match goal with |- context [track_session tc tap ?h ?wb p] =>
    assert (E : exists w2, track_session tc tap h wb p = Some (w2, p) /\ synack_seen w2 x y) end.
  { eexists. split.
    - eapply track_quiet; [exact S6|done|done| | | | | |].
      + unfold tcp_is_in_window, this_upd, this_wing. rewrite Hc. cbn. by rewrite S4.
      + unfold this_upd. cbn [syn rst fin negb andb]. rewrite Hc, andb_false_r. cbn [andb].
        unfold tcp_update_state, that_wing, this_upd. cbn [rst]. rewrite Hc. cbn [sess set client dpi_session_timer_refresh]. rewrite Sc. reflexivity.
      + reflexivity.
      + done.
      + rewrite (final_false (action p)) by done. apply final_false. cbn. rewrite S7. done.
      + cbn [ack andb th_ack]. unfold that_wing. rewrite Hc. cbn. apply u32_gt_irrefl.
    - constructor.
      + cbn. unfold states. cbn. by rewrite syn_wing_state, Ss.
      + cbn. done.
      + cbn. unfold syn_wing. rewrite Hq. by destruct (FLAGS_TEST (flags p) _).
      + cbn. unfold syn_wing. replace (tcp_win (if FLAGS_TEST (flags p) DPI_PKT_FLAG_SACKOK then _ else _))
          with (u32 (Z.shiftl (u32 (Z.shiftl v (wing_wscale (server s0)))) (Z.min TCP_MAX_WINSHIFT (tcp_wscale p))))
          by (by destruct (FLAGS_TEST (flags p) _)).
        rewrite S5. apply shifted_window; [done|]. unfold TCP_MAX_WINSHIFT. lia.
      + cbn. done. }
  destruct E as (w2 & -> & S). cbn [mbind option_bind]. by exists w2, p.
Qed.

Lemma small_window_keeps w p ow :
  client (sess (check_small_window_attack w p ow)) = client (sess w) /\
  server (sess (check_small_window_attack w p ow)) = server (sess w) /\
  sess_flags (sess (check_small_window_attack w p ow)) = sess_flags (sess w) /\
  sess_action (sess (check_small_window_attack w p ow)) = sess_action (sess w).
Proof.
  unfold check_small_window_attack, dpi_session_stop_tick_for, dpi_session_start_tick_for.
  destruct (0 <? _); [destruct (_ <=? _); [cbn; by destruct (_ =? 0)|done]|].
  destruct (_ && _ && _ && _ && _); [|done]. cbn. by destruct (_ =? 0).
Qed.

(** The session after the handshake. *)
Record established w (x y : Z) : Prop := {
  es_states : states w = (TCP_ESTABLISHED, TCP_ESTABLISHED);
  es_flag : FLAGS_TEST (sess_flags (sess w)) DPI_SESS_FLAG_ESTABLISHED = true;
  es_client : init_seq (client (sess w)) = u32 (x + 1) /\ next_seq (client (sess w)) = u32 (x + 1) /\
              asm_seq (client (sess w)) = u32 (x + 1) /\ tcp_acked (client (sess w)) = u32 (x + 1);
  es_server : init_seq (server (sess w)) = u32 (y + 1) /\ next_seq (server (sess w)) = u32 (y + 1) /\
              asm_seq (server (sess w)) = u32 (y + 1) /\ tcp_acked (server (sess w)) = u32 (y + 1);
  es_timer : TimerWheel.callback (TimerWheel.entry (th_timer w) (ts_entry (self w))) = Some session_nodata_timeout /\
             TimerWheel.timeout (TimerWheel.entry (th_timer w) (ts_entry (self w))) = SESS_TIMEOUT_TCP_ACTIVE_NODATA
}.

Lemma in_window_next q win : is_u32 q -> 0 <= win < 2 ^ 31 -> u32_between q (u32 (q - 65536)) (u32 (q + win + 1)) = true.
Proof.
  intros Hq Hw. unfold u32_between. apply Z.ltb_lt. autorewrite with u32.
  replace (q + win + 1 - (q - 65536)) with (win + 65537) by lia. replace (q - (q - 65536)) with 65536 by lia.
  rewrite !u32_id; unfold is_u32; lia.
Qed.

Lemma established_flag f : FLAGS_TEST (FLAGS_SET f DPI_SESS_FLAG_ESTABLISHED) DPI_SESS_FLAG_ESTABLISHED = true.
Proof.
  unfold FLAGS_TEST, FLAGS_SET. apply negb_true_iff, Z.eqb_neq. intros H0. apply (f_equal (fun z => Z.testbit z 8)) in H0.
  rewrite Z.land_spec, Z.lor_spec in H0. cbn in H0. by rewrite orb_true_r in H0.
Qed.

Lemma handshake_ack w p v x y :
  synack_seen w x y -> dpi_is_client_pkt p = true ->
  segment p (Tcphdr false true false false (u32 (y + 1)) v) (u32 (x + 1)) ->
  exists w', dpi_tcp_tracker tc tap w p = Some (w', p, Tracked) /\ established w' x y.
Proof.
  intros [S1 (S2 & S3 & S4 & S5) (S6 & S7 & S8) S9 [S10 S11]] Hc [Hh Hq Hl Ha]. unfold dpi_tcp_tracker. rewrite Hh.
  cbn [mbind option_bind syn ack rst fin th_ack negb andb]. rewrite !andb_false_r. cbn [andb]. unfold states in S1. injection S1 as Sc Ss.
  set (wr := dpi_session_timer_refresh w). change (sess w) with (sess wr) in *. clearbody wr. clear w.
  set (wa := this_upd (fun z => z <| tcp_win := u32 (Z.shiftl v (wing_wscale z)) |>) p wr).
  set (wb := if thrt_enable (tc DPI_THRT_TCP_SMALL_WINDOW) && true && true && true && true
             then check_small_window_attack wa p (tcp_win (this_wing (sess wr) p)) else wa).
  assert (Ea : server (sess wa) = server (sess wr) /\ sess_flags (sess wa) = sess_flags (sess wr) /\
    sess_action (sess wa) = sess_action (sess wr) /\ client (sess wa) = client (sess wr) <| tcp_win := tcp_win (client (sess wa)) |>)
    by (unfold wa, this_upd; rewrite Hc; done).
  destruct Ea as (Ea1 & Ea2 & Ea3 & Ea4).
  assert (Eb : client (sess wb) = client (sess wa) /\ server (sess wb) = server (sess wa) /\ sess_flags (sess wb) = sess_flags (sess wa) /\
    sess_action (sess wb) = sess_action (sess wa)) by (unfold wb; destruct (_ && _); [apply small_window_keeps|done]).
  destruct Eb as (Eb1 & Eb2 & Eb3 & Eb4).
  eassert (E : track_session tc tap (Tcphdr false true false false (u32 (y + 1)) v) wr p = Some (_, p)).
  { eapply track_quiet; [exact S10|done|reflexivity| | | | | |]; cbn [th_win].
    - fold wa. unfold tcp_is_in_window, this_wing, that_wing. rewrite Hc, Ea4, Ea1, Hq. cbn [tcp_acked set]. rewrite S5.
      rewrite in_window_next by (done || apply u32_range). apply orb_true_r.
    - fold wa. cbn [syn rst fin negb]. rewrite Hc. fold wb. unfold tcp_update_state, that_wing. rewrite Hc, Eb2, Ea1, Ss. reflexivity.
    - reflexivity.
    - done.
    - rewrite (final_false (action p)) by done. apply final_false.
      change (sess_action (sess wb) <= DPI_ACTION_ALLOW). rewrite Eb4, Ea3, S11. done.
    - cbn [ack andb th_ack]. unfold that_wing. rewrite Hc.
      match goal with |- u32_gt _ (next_seq (server (sess ?z))) = _ => change (next_seq (server (sess z))) with (next_seq (server (sess wb))) end.
      rewrite Eb2, Ea1, S7. apply u32_gt_irrefl. }
  rewrite E. cbn [mbind option_bind]. eexists. split; [reflexivity|].
  assert (Ecl : init_seq (client (sess wb)) = u32 (x + 1) /\ next_seq (client (sess wb)) = u32 (x + 1) /\
              asm_seq (client (sess wb)) = u32 (x + 1) /\ tcp_acked (client (sess wb)) = u32 (x + 1)) by (by rewrite Eb1, Ea4).
  constructor.
  - done.
  - apply established_flag.
  - exact Ecl.
  - change (init_seq (server (sess wb)) = u32 (y + 1) /\ next_seq (server (sess wb)) = u32 (y + 1) /\
            asm_seq (server (sess wb)) = u32 (y + 1) /\ u32 (y + 1) = u32 (y + 1)). by rewrite Eb2, Ea1.
  - apply reprogram_entry; [done|]. unfold SESS_TIMEOUT_TCP_ACTIVE_NODATA, TimerWheel.MAX_TIMER_SLOTS. lia.
Qed.

(** C31: The three-way handshake.  A SYN opens the session, and the SYN/ACK and the ACK that
    answer it establish the connection: both sides are ESTABLISHED, the sequence numbers
    of both directions start behind those of their SYNs, and the session is left to the
    timer for connections without data.  All three packets are tracked, whatever the
    initial sequence numbers (wrap-around included), window sizes and scales. *)
Theorem tcp_handshake fl mid w p1 p2 p3 (x y a1 v1 v2 v3 : Z) :
  FLAGS_TEST fl DPI_SESS_FLAG_MID_STREAM = false ->
  dpi_is_client_pkt p1 = false -> segment p1 (Tcphdr true false false false a1 v1) x ->
  dpi_is_client_pkt p2 = false -> segment p2 (Tcphdr true true false false (u32 (x + 1)) v2) y ->
  is_u16 v2 -> 0 <= tcp_wscale p2 ->
  dpi_is_client_pkt p3 = true -> segment p3 (Tcphdr false true false false (u32 (y + 1)) v3) (u32 (x + 1)) ->
  exists w1 p1' w2 p2' w3, tracker_open tc tap fl mid w p1 = Some (w1, p1', Tracked) /\
    dpi_tcp_tracker tc tap w1 p2 = Some (w2, p2', Tracked) /\
    dpi_tcp_tracker tc tap w2 p3 = Some (w3, p3, Tracked) /\ established w3 x y.
Proof.
  intros Hm C1 G1 C2 G2 U2 W2 C3 G3.
  destruct (handshake_syn fl mid w p1 v1 a1 x C1 Hm G1) as (w1 & p1' & E1 & S1).
  destruct (handshake_synack w1 p2 v2 x y S1 C2 U2 W2 G2) as (w2 & p2' & E2 & S2).
  destruct (handshake_ack w2 p3 v3 x y S2 C3 G3) as (w3 & E3 & S3).
  by exists w1, p1', w2, p2', w3.
Qed.
End handshake.

(** ** A connection *)

Definition idle_world : world Tree.tree :=
  World 1 (Session (Wing 0 0 0 0 0 0 TCP_CLOSING 0 0 asm_init 0) (Wing 0 0 0 0 0 0 TCP_CLOSING 0 0 asm_init 0) 0 0 0 0 0 0 0)
        ∅ (TimerWheel.Wheel ∅ 0 100 ∅) 100 0 0 [] 0 0.
(** A bare TCP header with the given flags, acknowledgement 0 0 0 [a] and window 250. *)
Definition tcp_packet (client : bool) (fl sq a : Z) : packet :=
  Packet.bare_packet [156; 64; 0; 80; 0; 0; 0; sq; 0; 0; 0; a; 80; fl; 0; 250; 0; 0; 0; 0] 20 0
    <| raw_seq := sq |> <| raw_ptr := 20 |> <| flags := if client then DPI_PKT_FLAG_CLIENT else 0 |>.
Definition syn_packet : packet := tcp_packet false Packet.TH_SYN 7 0.
Definition synack_packet : packet := tcp_packet false (Z.lor Packet.TH_SYN Packet.TH_ACK) 3 8.
Definition ack_packet : packet := tcp_packet true Packet.TH_ACK 8 4.

Lemma tcp_handshake_witness : exists w1 p1 w2 p2 w3,
  tracker_open Frag.no_threats false 0 true idle_world syn_packet = Some (w1, p1, Tracked) /\
  dpi_tcp_tracker Frag.no_threats false w1 synack_packet = Some (w2, p2, Tracked) /\
  dpi_tcp_tracker Frag.no_threats false w2 ack_packet = Some (w3, ack_packet, Tracked) /\
  states w3 = (TCP_ESTABLISHED, TCP_ESTABLISHED).
Proof.
  destruct (tcp_handshake Frag.no_threats false 0 true idle_world syn_packet synack_packet ack_packet 7 3 0 250 250 250)
    as (w1 & p1 & w2 & p2 & w3 & E1 & E2 & E3 & S).
  - reflexivity.
  - reflexivity.
  - constructor; [reflexivity|reflexivity|reflexivity|vm_compute; discriminate].
  - reflexivity.
  - constructor; [reflexivity|reflexivity|reflexivity|vm_compute; discriminate].
  - unfold is_u16. lia.
  - cbn. lia.
  - reflexivity.
  - constructor; [reflexivity|reflexivity|reflexivity|vm_compute; discriminate].
  - exists w1, p1, w2, p2, w3. split; [exact E1|]. split; [exact E2|]. split; [exact E3|apply S].
Defined.

Lemma opened : exists w p, tracker_open Frag.no_threats false 0 true idle_world syn_packet = Some (w, p, Tracked).
Proof.
  destruct (handshake_syn Frag.no_threats false 0 true idle_world syn_packet 250 0 7) as (w & p & E & _);
    [reflexivity|reflexivity|constructor; [reflexivity|reflexivity|reflexivity|vm_compute; discriminate]|].
  by exists w, p.
Qed.

Lemma tcp_states_legal_witness : exists w : world Tree.tree,
  history Frag.no_threats false w false /\ states w ∈ legal_states.
Proof.
  destruct opened as (w & p & E).
  assert (Hi : history Frag.no_threats false w false)
    by (apply (history_open Frag.no_threats false 0 true idle_world syn_packet (Tcphdr true false false false 0 250) w p);
        [reflexivity|reflexivity|exact E]).
  exists w. split; [exact Hi|]. apply (tcp_states_legal Frag.no_threats false w false Hi).
Defined.

End Tcp.
