(* ===== verification/Fqdn.v ===== *)
(** * The domain-name table of dpi/dpi_policy.c

    Policy rules may name a domain instead of an address.  Every configured name has
    a record with a code, which takes the place of the address in the rules; DNS
    answers seen by the parser and the controller associate addresses with records.

    Records are objects at addresses, shared between the name table and the address
    entries.  A name entry is identified with its record (they are allocated and freed
    together), an address entry with its address (the table holds one per address).
    Names are byte strings without their NUL.  Memory allocation succeeds. *)

From S2P Require Import Prelude Helper Bitmap.
Import Helper.Bytes Helper.Hash Helper.CString.
Import Bitmap.Bitmap.

Module Fqdn.

Definition MAX_FQDN_LEN : nat := 256.
Definition DPI_FQDN_DELETE_QLEN : nat := 32.
Definition DPI_FQDN_MAX_ENTRIES : Z := 2048.
Definition FQDN_RECORD_TO_DELETE : Z := 1.
Definition FQDN_RECORD_DELETED : Z := 2.
Definition FQDN_RECORD_WILDCARD : Z := 4.

Record fqdn_record := Record_ {
  name : list Z; code : Z; flag : Z; ip_cnt : Z; record_updated : Z; iplist : list Z
}.
#[export] Instance eta_record : Eta fqdn_record :=
  fun r => Record_ (name r) (code r) (flag r) (ip_cnt r) (record_updated r) (iplist r).

(** [rlist]: the records the address belongs to. *)
Record fqdn_ipv4_entry := Ipv4 { ip : Z; rlist : list Z }.
#[export] Instance eta_ipv4 : Eta fqdn_ipv4_entry := fun e => Ipv4 (ip e) (rlist e).

(** A node of the name table: the hash it was filed under and its record. *)
Record name_node := NameNode { name_hash : Z; rec : Z }.

Record fqdn_hdl := FqdnHdl {
  fqdn_name_map : list name_node;
  fqdn_ipv4_map : list fqdn_ipv4_entry;
  bm : bitmap;
  code_cnt : Z;
  del_name_list : list Z;
  del_ipv4_list : list Z;
  del_rlist : list Z;
  records : gmap Z fqdn_record;
  domains : Z;          (** th_counter.domains *)
  domain_ips : Z        (** th_counter.domain_ips *)
}.
#[export] Instance eta_fqdn_hdl : Eta fqdn_hdl := fun h =>
  FqdnHdl (fqdn_name_map h) (fqdn_ipv4_map h) (bm h) (code_cnt h) (del_name_list h)
    (del_ipv4_list h) (del_rlist h) (records h) (domains h) (domain_ips h).

Implicit Types (h : fqdn_hdl) (r : Z) (nm : list Z).

Definition dpi_fqdn_hdl_init : fqdn_hdl :=
  FqdnHdl [] [] (bitmap_allocate DPI_FQDN_MAX_ENTRIES) 0 [] [] [] ∅ 0 0.

Definition rec_at h r : fqdn_record := default (Record_ [] 0 0 0 0 []) (records h !! r).
Definition rec_upd (f : fqdn_record -> fqdn_record) r h : fqdn_hdl :=
  h <| records ::= <[r := f (rec_at h r)]> |>.

(** strcasecmp(a, b) == 0 *)
Definition strcaseeq (a b : list Z) : bool := bool_decide (to_lower <$> a = to_lower <$> b).

Definition fqdn_name_match h r nm : bool := strcaseeq (name (rec_at h r)) nm.
Definition fqdn_name_hash nm : Z := sdbm_hash nm.

(** rcu_map_lookup on the two tables *)
Definition name_lookup h nm : option Z :=
  rec <$> find_first (fun n => (name_hash n =? fqdn_name_hash nm) && fqdn_name_match h (rec n) nm)
            (fqdn_name_map h).
Definition fqdn_ipv4_match (e : fqdn_ipv4_entry) (a : Z) : bool := ip e =? a.
Definition ipv4_lookup h (a : Z) : option fqdn_ipv4_entry :=
  find_first (fun e => fqdn_ipv4_match e a) (fqdn_ipv4_map h).
Definition ipv4_store (e : fqdn_ipv4_entry) h : fqdn_hdl :=
  h <| fqdn_ipv4_map ::= fmap (fun x => if ip x =? ip e then e else x) |>.

(** *** Codes *)

Definition alloc_fqdn_code h : option (fqdn_hdl * Z) :=
  k ← bitmap_get_next_zero (bm h) (code_cnt h);
  let h := h <| code_cnt := k |> in
  if k <? 0 then Some (h, u32 (-1))
  else
    b ← bitmap_set (bm h) k;
    Some (h <| bm := b |> <| code_cnt := k + 1 |>, htonl (k + 1)).

Definition free_fqdn_code h (c : Z) : option fqdn_hdl :=
  b ← bitmap_clear (bm h) (ntohl c - 1);
  Some (h <| bm := b |>).

(** str_split with a one-character delimiter: the non-empty pieces *)
Fixpoint split_at (d : Z) (cur s : list Z) : list (list Z) :=
  match s with
  | [] => [cur]
  | c :: s => if c =? d then cur :: split_at d [] s else split_at d (cur ++ [c]) s
  end.
Definition str_split (s : list Z) (d : Z) : list (list Z) :=
  List.filter (fun t => negb (bool_decide (t = []))) (split_at d [] s).

Definition DOT : Z := 46.
Definition STAR : Z := 42.
Definition is_fqdn_name_wildcard nm : bool :=
  match str_split nm DOT with
  | [] => false
  | t :: _ => strcaseeq t [STAR]
  end.

(** *** Associating an address with a record *)

Definition find_record_or_ipentry (e : fqdn_ipv4_entry) r h (recordInIp : bool) : bool :=
  if recordInIp then existsb (fun x => x =? r) (rlist e)
  else existsb (fun a => a =? ip e) (iplist (rec_at h r)).

(** Returns the entry, the handle and 1 when the address is new to the record. *)
Definition config_record_ip_list (e : fqdn_ipv4_entry) r h : fqdn_ipv4_entry * fqdn_hdl * Z :=
  let e := if find_record_or_ipentry e r h true then e else e <| rlist ::= fun l => l ++ [r] |> in
  if find_record_or_ipentry e r h false then (e, h, 0)
  else
    (e, rec_upd (fun x => x <| iplist ::= fun l => l ++ [ip e] |>
                            <| ip_cnt ::= fun n => u32 (n + 1) |>) r h, 1).

(** An address that is in no free object. *)
Definition fresh_rec h : Z := fresh (dom (records h)).

(** The first half of config_fqdn_ipv4_mapping: the record of a name, created when
    there is none; [None] when all codes are used. *)
Definition config_fqdn_record h nm : option (fqdn_hdl * option Z) :=
  match name_lookup h nm with
  | None =>
      let n := take (MAX_FQDN_LEN - 1) nm in
      '(h, c) ← alloc_fqdn_code h;
      if c =? u32 (-1) then Some (h, None)
      else
        let r := fresh_rec h in
        let fl := if is_fqdn_name_wildcard n then FQDN_RECORD_WILDCARD else 0 in
        Some (h <| records ::= <[r := Record_ n c fl 0 0 []]> |>
                <| fqdn_name_map ::= fun l => l ++ [NameNode (fqdn_name_hash nm) r] |>
                <| domains ::= fun d => u32 (d + 1) |>, Some r)
  | Some r =>
      Some (rec_upd (fun x => x <| flag := if FLAGS_TEST (flag x) FQDN_RECORD_WILDCARD
                                          then FQDN_RECORD_WILDCARD else 0 |>) r h, Some r)
  end.

(** The second half, shared with associate_ip_record: the entry of an address gets
    the record; also returns what config_record_ip_list returned and whether the
    entry is new. *)
Definition add_ip h r (a : Z) : fqdn_hdl * Z * bool :=
  match ipv4_lookup h a with
  | None =>
      let '(e, h, ret) := config_record_ip_list (Ipv4 a []) r h in
      (h <| fqdn_ipv4_map ::= fun l => l ++ [e] |> <| domain_ips ::= fun d => u32 (d + 1) |>, ret, true)
  | Some e =>
      let '(e, h, ret) := config_record_ip_list e r h in
      (ipv4_store e h, ret, false)
  end.

Definition config_fqdn_ipv4_mapping h nm (a : Z) : option (fqdn_hdl * Z) :=
  '(h, r) ← config_fqdn_record h nm;
  match r with
  | None => Some (h, u32 (-1))
  | Some r =>
      if a =? 0 then Some (h, code (rec_at h r))
      else
        let '(h, _, _) := add_ip h r a in
        Some (h, code (rec_at h r))
  end.

(** associate_ip_record: the loop over the addresses. *)
Fixpoint associate_loop h r (ips : list Z) (new_ip : bool) : fqdn_hdl * bool :=
  match ips with
  | [] => (h, new_ip)
  | a :: ips =>
      let '(h, ret, created) := add_ip h r a in
      associate_loop h r ips
        (new_ip || ((created || (ret =? 1)) && FLAGS_TEST (flag (rec_at h r)) FQDN_RECORD_WILDCARD))
  end.
Definition associate_ip_record h r (ips : list Z) : fqdn_hdl :=
  let '(h, new_ip) := associate_loop h r ips false in
  if new_ip then rec_upd (fun x => x <| record_updated := 1 |>) r h else h.

Definition associate_if_live h (nm ips : list Z) : fqdn_hdl :=
  match name_lookup h nm with
  | Some r =>
      if FLAGS_TEST (flag (rec_at h r)) (Z.lor FQDN_RECORD_TO_DELETE FQDN_RECORD_DELETED) then h
      else associate_ip_record h r ips
  | None => h
  end.

(** `for (j = strlen(dname)-2; j > 0; j--) if (dname[j] == '.') break;` *)
Fixpoint last_dot (j : nat) (dname : list Z) : nat :=
  match j with
  | O => O
  | S k => if decide (dname !! j = Some DOT) then j else last_dot k dname
  end.
(** The wildcard names: for every dot before [j], a star in place of the character
    in front of it and the rest of the name. *)
Fixpoint wildcard_loop (n i : nat) h (dname ips : list Z) : fqdn_hdl :=
  match n with
  | O => h
  | S n =>
      let h := if decide (dname !! S i = Some DOT)
               then associate_if_live h (STAR :: drop (S i) dname) ips else h in
      wildcard_loop n (S i) h dname ips
  end.

Definition snooped_fqdn_ipv4_mapping h nm (ips : list Z) : fqdn_hdl :=
  let nm := to_lower <$> nm in
  let h := associate_if_live h nm ips in
  let dname := take (MAX_FQDN_LEN - 1) nm in
  let j := last_dot (length dname - 2) dname in
  wildcard_loop (j - 1) 0 h dname ips.

(** *** Deleting names *)

Definition enqueue_fqdn_name_to_del h r : option fqdn_hdl :=
  if decide (length (del_name_list h) = DPI_FQDN_DELETE_QLEN) then None
  else Some ((rec_upd (fun x => x <| flag ::= fun f => FLAGS_SET f FQDN_RECORD_DELETED |>) r h)
               <| del_name_list ::= fun l => l ++ [r] |>).

Definition enqueue_fqdn_ipv4_to_del h (a : Z) : option fqdn_hdl :=
  if decide (length (del_ipv4_list h) = DPI_FQDN_DELETE_QLEN) then None
  else Some (h <| del_ipv4_list ::= fun l => l ++ [a] |>).

Definition free_fqdn_ipv4 h : fqdn_hdl :=
  h <| domain_ips ::= fun d => u32 (d - Z.of_nat (length (del_ipv4_list h))) |>
    <| del_ipv4_list := [] |>.

(** The loop over del_name_list: give the code back, free the record. *)
Fixpoint free_names (l : list Z) h : option fqdn_hdl :=
  match l with
  | [] => Some h
  | r :: l =>
      x ← records h !! r;
      h ← free_fqdn_code h (code x);
      free_names l (h <| records ::= delete r |> <| domains ::= fun d => u32 (d - 1) |>)
  end.
Definition free_fqdn_name h : option fqdn_hdl :=
  h ← free_names (del_name_list h) h;
  Some (h <| del_name_list := [] |> <| del_rlist := [] |>).

Definition name_map_del r h : fqdn_hdl :=
  h <| fqdn_name_map ::= List.filter (fun n => negb (rec n =? r)) |>.
Definition ipv4_map_del (a : Z) h : fqdn_hdl :=
  h <| fqdn_ipv4_map ::= List.filter (fun e => negb (ip e =? a)) |>.

(** check_fqdn_name_entry on one node: the handle, and true to stop (`ctx->more`). *)
Definition check_fqdn_name_entry r h : fqdn_hdl * bool :=
  if FLAGS_TEST (flag (rec_at h r)) FQDN_RECORD_TO_DELETE then
    match enqueue_fqdn_name_to_del h r with
    | Some h => (name_map_del r h, false)
    | None => (h, true)
    end
  else (h, false).
Fixpoint check_names (l : list name_node) h : fqdn_hdl * bool :=
  match l with
  | [] => (h, false)
  | n :: l => let '(h, more) := check_fqdn_name_entry (rec n) h in
              if more then (h, true) else check_names l h
  end.

(** check_fqdn_ipv4_entry: the items of deleted records go to del_rlist. *)
Definition check_fqdn_ipv4_entry (a : Z) h : fqdn_hdl * bool :=
  match ipv4_lookup h a with
  | None => (h, false)
  | Some e =>
      let gone := List.filter (fun r => FLAGS_TEST (flag (rec_at h r)) FQDN_RECORD_DELETED) (rlist e) in
      let kept := List.filter (fun r => negb (FLAGS_TEST (flag (rec_at h r)) FQDN_RECORD_DELETED)) (rlist e) in
      let h := (ipv4_store (e <| rlist := kept |>) h) <| del_rlist ::= fun l => l ++ gone |> in
      match kept with
      | [] => match enqueue_fqdn_ipv4_to_del h a with
              | Some h => (ipv4_map_del a h, false)
              | None => (h, true)
              end
      | _ => (h, false)
      end
  end.
Fixpoint check_ipv4s (l : list Z) h : fqdn_hdl * bool :=
  match l with
  | [] => (h, false)
  | a :: l => let '(h, more) := check_fqdn_ipv4_entry a h in
              if more then (h, true) else check_ipv4s l h
  end.

Definition dpi_fqdn_entry_mark_delete h nm : fqdn_hdl :=
  match name_lookup h nm with
  | Some r => rec_upd (fun x => x <| flag ::= fun f => FLAGS_SET f FQDN_RECORD_TO_DELETE |>) r h
  | None => h
  end.

(** The do-while loop over the address table. *)
Fixpoint purge_ipv4s (fuel : nat) h : option fqdn_hdl :=
  match fuel with
  | O => None
  | S fuel =>
      let '(h, more) := check_ipv4s (ip <$> fqdn_ipv4_map h) h in
      let h := free_fqdn_ipv4 h in
      if (more : bool) then purge_ipv4s fuel h else Some h
  end.

Fixpoint delete_marked_loop (fuel : nat) h : option fqdn_hdl :=
  match fuel with
  | O => None
  | S fuel =>
      let '(h, more) := check_names (fqdn_name_map h) h in
      h ← (match del_name_list h with
           | [] => Some h
           | _ => h ← purge_ipv4s (S (length (fqdn_ipv4_map h))) h; free_fqdn_name h
           end);
      if (more : bool) then delete_marked_loop fuel h else Some h
  end.
Definition dpi_fqdn_entry_delete_marked h : option fqdn_hdl :=
  delete_marked_loop (S (length (fqdn_name_map h))) h.

(** ** Invariant

    Records that have been taken out of the name table wait in [del_name_list] to be
    freed. *)

Definition live h : list Z := rec <$> fqdn_name_map h.
Definition marked h r : bool := FLAGS_TEST (flag (rec_at h r)) FQDN_RECORD_TO_DELETE.
Definition deleted h r : bool := FLAGS_TEST (flag (rec_at h r)) FQDN_RECORD_DELETED.

Record codes_ok (b : bitmap) (recs : gmap Z fqdn_record) : Prop := {
  co_bm : wf b;
  co_bits : bits b = DPI_FQDN_MAX_ENTRIES;
  co_code r x : recs !! r = Some x ->
    exists k, 0 <= k < DPI_FQDN_MAX_ENTRIES /\ code x = htonl (k + 1) /\ bit b k = true;
  co_used k : 0 <= k < DPI_FQDN_MAX_ENTRIES -> bit b k = true ->
    exists r x, recs !! r = Some x /\ code x = htonl (k + 1);
  co_inj r1 r2 x1 x2 : recs !! r1 = Some x1 -> recs !! r2 = Some x2 -> code x1 = code x2 -> r1 = r2
}.

Record gwf h : Prop := {
  gw_nodup : NoDup (live h ++ del_name_list h);
  gw_recs r : r ∈ live h ++ del_name_list h <-> is_Some (records h !! r);
  gw_rlist e r : e ∈ fqdn_ipv4_map h -> r ∈ rlist e -> r ∈ live h ++ del_name_list h;
  gw_ips : NoDup (ip <$> fqdn_ipv4_map h);
  gw_deleted r : r ∈ live h ++ del_name_list h -> deleted h r = bool_decide (r ∈ del_name_list h);
  gw_qlen : (length (del_name_list h) <= DPI_FQDN_DELETE_QLEN)%nat;
  gw_iqlen : (length (del_ipv4_list h) <= DPI_FQDN_DELETE_QLEN)%nat;
  gw_codes : codes_ok (bm h) (records h)
}.

(** At rest: nothing is queued for deletion. *)
Record fwf h : Prop := {
  fw_gwf : gwf h;
  fw_names : del_name_list h = [];
  fw_ipv4s : del_ipv4_list h = [];
  fw_rlist : del_rlist h = []
}.

(** *** Records *)

Lemma rec_at_upd f r h r' :
  rec_at (rec_upd f r h) r' = if decide (r = r') then f (rec_at h r) else rec_at h r'.
Proof. unfold rec_at, rec_upd. simpl. rewrite lookup_insert. by case_decide; subst. Qed.

Lemma codes_ok_upd b recs f r x :
  codes_ok b recs -> recs !! r = Some x -> code (f x) = code x ->
  codes_ok b (<[r := f x]> recs).
Proof.
  intros [C1 C2 C3 C4 C5] Hr Hf.
  assert (Hl : forall r' y, <[r := f x]> recs !! r' = Some y ->
    exists y', recs !! r' = Some y' /\ code y' = code y).
  { intros r' y [[-> <-]|[_ Hy]]%lookup_insert_Some; eauto. }
  constructor; [done|done| | |].
  - intros r' y (y' & Hy' & Hc)%Hl. destruct (C3 _ _ Hy') as (k & ? & ? & ?). exists k. by rewrite <- Hc.
  - intros k Hk Hb. destruct (C4 k Hk Hb) as (r' & y & Hy & Hc). destruct (decide (r = r')) as [->|].
    + exists r', (f x). rewrite lookup_insert_eq. simplify_eq. split; [done|congruence].
    + exists r', y. by rewrite lookup_insert_ne.
  - intros r1 r2 x1 x2 (y1 & H1 & E1)%Hl (y2 & H2 & E2)%Hl He. eapply C5; [done|done|congruence].
Qed.

(** Updating a record in place, its code and its DELETED flag unchanged. *)
Lemma rec_upd_gwf f r h :
  gwf h -> r ∈ live h ++ del_name_list h ->
  (forall x, code (f x) = code x) ->
  (forall x, FLAGS_TEST (flag (f x)) FQDN_RECORD_DELETED = FLAGS_TEST (flag x) FQDN_RECORD_DELETED) ->
  gwf (rec_upd f r h).
Proof.
  intros [G1 G2 G3 G4 G5 G6 G7 G8] Hr Hc Hd. destruct (proj1 (G2 r) Hr) as [x Hx].
  assert (Hat : rec_at h r = x) by (unfold rec_at; by rewrite Hx).
  constructor; try done.
  - intros r'. simpl. change (live _) with (live h). rewrite lookup_insert_is_Some, G2.
    split; [|intros [<-|[_ ?]]; [by eexists|done]].
    intros ?. destruct (decide (r = r')); [by left|by right].
  - intros r' Hr'. unfold deleted. rewrite rec_at_upd. change (live _) with (live h) in Hr'.
    case_decide; subst; [rewrite Hd|]; by apply G5.
  - simpl. rewrite Hat. apply codes_ok_upd; auto.
Qed.

(** *** Flag words *)

Lemma flags_test_set f b c : FLAGS_TEST (FLAGS_SET f b) c = FLAGS_TEST f c || FLAGS_TEST b c.
Proof.
  unfold FLAGS_TEST, FLAGS_SET. rewrite Z.land_lor_distr_l.
  destruct (Z.eqb_spec (Z.land f c) 0) as [->|H1], (Z.eqb_spec (Z.land b c) 0) as [->|H2]; simpl.
  - done.
  - by rewrite (proj2 (Z.eqb_neq _ 0)).
  - rewrite Z.lor_0_r. by rewrite (proj2 (Z.eqb_neq _ 0)).
  - destruct (Z.eqb_spec (Z.lor (Z.land f c) (Z.land b c)) 0) as [H|]; [|done].
    apply Z.lor_eq_0_iff in H as [? _]. done.
Qed.

(** *** Taking names out of the table *)

Lemma live_name_map_del r h : live (name_map_del r h) = filter (fun x => x <> r) (live h).
Proof.
  unfold live, name_map_del. simpl. induction (fqdn_name_map h) as [|n l IH]; [done|]. simpl.
  destruct (Z.eqb_spec (rec n) r); simpl.
  - rewrite filter_cons_False by (intros ?; done). done.
  - rewrite filter_cons_True by done. by f_equal.
Qed.

Lemma filter_ne_length (r : Z) l : NoDup l -> r ∈ l -> S (length (filter (fun x => x <> r) l)) = length l.
Proof.
  induction l as [|y l IH]; [by intros _ ?%elem_of_nil|]. intros [Hy N]%NoDup_cons Hr.
  destruct (decide (y = r)) as [->|Hne].
  - rewrite filter_cons_False by (intros ?; done). simpl. f_equal.
    rewrite filter_all; [done|]. apply Forall_forall. intros x Hx ->. done.
  - rewrite filter_cons_True by done. simpl. f_equal. apply IH; [done|].
    apply elem_of_cons in Hr as [->|?]; done.
Qed.

(** One name out of the table and into the queue. *)
Definition name_out r h : fqdn_hdl :=
  name_map_del r
    ((rec_upd (fun x => x <| flag ::= fun f => FLAGS_SET f FQDN_RECORD_DELETED |>) r h)
       <| del_name_list ::= fun l => l ++ [r] |>).

Lemma live_name_out r h : live (name_out r h) = filter (fun x => x <> r) (live h).
Proof. unfold name_out. by rewrite live_name_map_del. Qed.

Lemma name_out_gwf r h :
  gwf h -> r ∈ live h -> (length (del_name_list h) < DPI_FQDN_DELETE_QLEN)%nat -> gwf (name_out r h).
Proof.
  intros [G1 G2 G3 G4 G5 G6 G7 G8] Hr Hlen.
  assert (Hl : live (name_out r h) = filter (fun x => x <> r) (live h)) by apply live_name_out.
  assert (Hd : del_name_list (name_out r h) = del_name_list h ++ [r]) by done.
  assert (Hmem : forall x, x ∈ filter (fun x => x <> r) (live h) ++ del_name_list h ++ [r] <->
                      x ∈ live h ++ del_name_list h).
  { intros x. rewrite !elem_of_app, list_elem_of_filter, list_elem_of_singleton.
    destruct (decide (x = r)) as [->|]; tauto. }
  destruct (proj1 (G2 r)) as [x Hx]; [set_solver|].
  assert (Hat : rec_at h r = x) by (unfold rec_at; by rewrite Hx).
  apply NoDup_app in G1 as (N1 & N12 & N2).
  constructor; rewrite ?Hl, ?Hd.
  - apply NoDup_app. split_and!; [by apply NoDup_filter| |].
    + intros y [Hne Hy]%list_elem_of_filter. rewrite elem_of_app, list_elem_of_singleton.
      intros [?| ->]; [by eapply N12|done].
    + apply NoDup_app. split_and!; [done| |apply NoDup_singleton].
      intros y Hy ->%list_elem_of_singleton. by eapply N12.
  - intros r'. rewrite Hmem. simpl. rewrite lookup_insert_is_Some, G2.
    split; [|intros [<-|[_ ?]]; [by eexists|done]].
    intros ?. destruct (decide (r = r')); [by left|by right].
  - intros e r' He Hr'. rewrite Hmem. by eapply G3.
  - done.
  - intros r'. rewrite Hmem. intros Hr'. unfold deleted.
    change (rec_at (name_out r h)) with
      (rec_at (rec_upd (fun x => x <| flag ::= fun f => FLAGS_SET f FQDN_RECORD_DELETED |>) r h)).
    rewrite rec_at_upd. case_decide as Hrr.
    + subst r'. simpl. rewrite flags_test_set, orb_true_r.
      rewrite bool_decide_eq_true_2; [done|]. set_solver.
    + fold (deleted h r'). rewrite (G5 r' Hr'). apply bool_decide_ext.
      rewrite elem_of_app, list_elem_of_singleton. split; [tauto|]. intros [?| ->]; done.
  - rewrite length_app. simpl. lia.
  - done.
  - rewrite <- Hat in Hx. by apply (codes_ok_upd _ _ (set flag (fun f => FLAGS_SET f FQDN_RECORD_DELETED))).
Qed.

(** What the scan of the name table does. *)
Record scanned (h h' : fqdn_hdl) : Prop := {
  sc_gwf : gwf h';
  sc_ipv4 : fqdn_ipv4_map h' = fqdn_ipv4_map h;
  sc_iq : del_ipv4_list h' = del_ipv4_list h;
  sc_rl : del_rlist h' = del_rlist h;
  sc_len : (length (live h') + length (del_name_list h') = length (live h) + length (del_name_list h))%nat;
  sc_sub r : r ∈ live h' -> r ∈ live h;
  sc_keep r : r ∈ live h -> marked h r = false -> r ∈ live h';
  sc_mark r : marked h' r = marked h r;
  sc_code r : code (rec_at h' r) = code (rec_at h r) /\ name (rec_at h' r) = name (rec_at h r)
}.

Lemma scanned_refl h : gwf h -> scanned h h.
Proof. by constructor. Qed.
Lemma scanned_trans h1 h2 h3 : scanned h1 h2 -> scanned h2 h3 -> scanned h1 h3.
Proof.
  intros [A1 A2 A3 A4 A5 A6 A7 A8 A9] [B1 B2 B3 B4 B5 B6 B7 B8 B9].
  constructor; [done|congruence|congruence|congruence|lia| | | |].
  - intros r ?. by apply A6, B6.
  - intros r ? ?. apply B7; [by apply A7|]. by rewrite A8.
  - intros r. by rewrite B8.
  - intros r. destruct (A9 r), (B9 r). split; congruence.
Qed.

Lemma name_out_scanned r h :
  gwf h -> r ∈ live h -> marked h r = true -> (length (del_name_list h) < DPI_FQDN_DELETE_QLEN)%nat ->
  scanned h (name_out r h).
Proof.
  intros G Hr Hm Hlen.
  assert (Hl : live (name_out r h) = filter (fun x => x <> r) (live h)) by apply live_name_out.
  constructor; try done; [by apply name_out_gwf|..].
  - rewrite Hl. change (del_name_list (name_out r h)) with (del_name_list h ++ [r]).
    rewrite length_app. simpl. pose proof (filter_ne_length r (live h)) as Hf.
    rewrite <- Hf; [lia| |done]. by apply (NoDup_app (live h) (del_name_list h)), G.
  - intros r'. rewrite Hl. by intros [_ ?]%list_elem_of_filter.
  - intros r' Hr' Hm'. rewrite Hl. apply list_elem_of_filter. split; [|done]. intros ->. congruence.
  - intros r'. unfold marked.
    change (rec_at (name_out r h)) with
      (rec_at (rec_upd (fun x => x <| flag ::= fun f => FLAGS_SET f FQDN_RECORD_DELETED |>) r h)).
    rewrite rec_at_upd. case_decide; [subst|done]. simpl. by rewrite flags_test_set, orb_false_r.
  - intros r'.
    change (rec_at (name_out r h)) with
      (rec_at (rec_upd (fun x => x <| flag ::= fun f => FLAGS_SET f FQDN_RECORD_DELETED |>) r h)).
    rewrite rec_at_upd. case_decide; [by subst|done].
Qed.

Lemma check_names_spec l h :
  gwf h -> NoDup (rec <$> l) -> (forall n, n ∈ l -> rec n ∈ live h) ->
  exists h' more, check_names l h = (h', more) /\ scanned h h' /\
    (more = false -> forall n, n ∈ l -> rec n ∈ live h' -> marked h (rec n) = false) /\
    (more = true -> length (del_name_list h') = DPI_FQDN_DELETE_QLEN).
Proof.
  revert h. induction l as [|n l IH]; intros h G N Hin; simpl.
  { exists h, false. split_and!; [done|by apply scanned_refl| |done]. by intros _ n ?%elem_of_nil. }
  apply NoDup_cons in N as [Hn N]. unfold check_fqdn_name_entry. fold (marked h (rec n)).
  destruct (marked h (rec n)) eqn:Hm.
  - unfold enqueue_fqdn_name_to_del. case_decide as Hq.
    { exists h, true. split_and!; [done|by apply scanned_refl|done|done]. }
    fold (name_out (rec n) h).
    pose proof (name_out_scanned (rec n) h G) as Hsc.
    specialize (Hsc ltac:(apply Hin; set_solver) Hm ltac:(pose proof (gw_qlen _ G); lia)).
    assert (Hl : live (name_out (rec n) h) = filter (fun x => x <> rec n) (live h))
      by apply live_name_out.
    destruct (IH (name_out (rec n) h)) as (h' & more & -> & Hsc' & Hf & Ht); [apply Hsc|done|..].
    { intros m Hm'. rewrite Hl. apply list_elem_of_filter. split; [|apply Hin; set_solver].
      intros Heq. apply Hn. rewrite <- Heq. by apply list_elem_of_fmap_2. }
    exists h', more. split_and!; [done|by eapply scanned_trans| |done].
    intros -> m [->|Hm']%elem_of_cons Hlive.
    + apply (sc_sub _ _ Hsc') in Hlive. rewrite Hl in Hlive. by apply list_elem_of_filter in Hlive as [? _].
    + rewrite <- (sc_mark _ _ Hsc). by apply Hf.
  - destruct (IH h G N) as (h' & more & -> & Hsc & Hf & Ht); [intros; apply Hin; set_solver|].
    exists h', more. split_and!; [done|done| |done].
    intros -> m [->|Hm']%elem_of_cons Hlive; [done|by apply Hf].
Qed.

(** *** Purging the address table *)

(** Address [a] is associated with record [r]. *)
Definition assoc h (a r : Z) : Prop := exists e, e ∈ fqdn_ipv4_map h /\ ip e = a /\ r ∈ rlist e.

Lemma ipv4_lookup_Some h a e : ipv4_lookup h a = Some e -> e ∈ fqdn_ipv4_map h /\ ip e = a.
Proof. unfold ipv4_lookup, fqdn_ipv4_match. by intros [? ?%Z.eqb_eq]%find_first_elem. Qed.

Lemma ipv4_lookup_None h a e : ipv4_lookup h a = None -> e ∈ fqdn_ipv4_map h -> ip e <> a.
Proof.
  unfold ipv4_lookup, fqdn_ipv4_match. intros Hn He Heq. rewrite find_first_None in Hn.
  specialize (Hn e He). simpl in Hn. by rewrite Heq, Z.eqb_refl in Hn.
Qed.

Lemma ip_unique h e1 e2 : NoDup (ip <$> fqdn_ipv4_map h) ->
  e1 ∈ fqdn_ipv4_map h -> e2 ∈ fqdn_ipv4_map h -> ip e1 = ip e2 -> e1 = e2.
Proof.
  induction (fqdn_ipv4_map h) as [|x l IH]; [by intros _ ?%elem_of_nil|].
  simpl. intros [Hx N]%NoDup_cons [->|H1]%elem_of_cons [->|H2]%elem_of_cons Heq; auto.
  - exfalso. apply Hx. rewrite Heq. by apply list_elem_of_fmap_2.
  - exfalso. apply Hx. rewrite <- Heq. by apply list_elem_of_fmap_2.
Qed.

Lemma ip_store e h : ip <$> fqdn_ipv4_map (ipv4_store e h) = ip <$> fqdn_ipv4_map h.
Proof.
  unfold ipv4_store. simpl. rewrite <- list_fmap_compose. apply list_fmap_ext. intros i x _. simpl.
  by destruct (Z.eqb_spec (ip x) (ip e)).
Qed.

Lemma elem_of_store e h x :
  x ∈ fqdn_ipv4_map (ipv4_store e h) <->
  (x = e /\ exists y, y ∈ fqdn_ipv4_map h /\ ip y = ip e) \/ (x ∈ fqdn_ipv4_map h /\ ip x <> ip e).
Proof.
  unfold ipv4_store. simpl. rewrite list_elem_of_fmap. split.
  - intros (y & -> & Hy). destruct (Z.eqb_spec (ip y) (ip e)); [left; eauto|by right].
  - intros [[-> (y & Hy & He)]|[Hx Hne]].
    + exists y. by rewrite He, Z.eqb_refl.
    + exists x. by rewrite (proj2 (Z.eqb_neq _ _) Hne).
Qed.

(** What a scan of the address table keeps. *)
Record purged (h h' : fqdn_hdl) : Prop := {
  pu_gwf : gwf h';
  pu_names : fqdn_name_map h' = fqdn_name_map h;
  pu_recs : records h' = records h;
  pu_pend : del_name_list h' = del_name_list h;
  pu_bm : bm h' = bm h;
  pu_len : (length (fqdn_ipv4_map h') + length (del_ipv4_list h') =
            length (fqdn_ipv4_map h) + length (del_ipv4_list h))%nat;
  pu_sub a r : assoc h' a r -> assoc h a r;
  pu_keep a r : assoc h a r -> deleted h r = false -> assoc h' a r
}.

Lemma purged_refl h : gwf h -> purged h h.
Proof. by constructor. Qed.
Lemma purged_deleted h h' r : purged h h' -> deleted h' r = deleted h r.
Proof. intros P. unfold deleted, rec_at. by rewrite (pu_recs _ _ P). Qed.
Lemma purged_trans h1 h2 h3 : purged h1 h2 -> purged h2 h3 -> purged h1 h3.
Proof.
  intros A B. pose proof (purged_deleted h1 h2) as Hd.
  destruct A as [A1 A2 A3 A4 A5 A6 A7 A8], B as [B1 B2 B3 B4 B5 B6 B7 B8].
  constructor; [done|congruence|congruence|congruence|congruence|lia| |].
  - intros a r ?. by apply A7, B7.
  - intros a r ? Hr. apply B8; [by apply A8|]. rewrite Hd; [done|]. by constructor.
Qed.

(** Replacing the record list of an entry by part of it. *)
Lemma store_gwf h e kept gone :
  gwf h -> e ∈ fqdn_ipv4_map h -> (forall r, r ∈ kept -> r ∈ rlist e) ->
  gwf ((ipv4_store (e <| rlist := kept |>) h) <| del_rlist ::= fun l => l ++ gone |>).
Proof.
  intros [G1 G2 G3 G4 G5 G6 G7 G8] He Hk. constructor; try done.
  - intros x r Hx Hr. change (fqdn_ipv4_map _) with
      (fqdn_ipv4_map (ipv4_store (e <| rlist := kept |>) h)) in Hx.
    apply elem_of_store in Hx as [[-> _]|[Hx _]]; [|by eapply G3]. eapply G3; [done|by apply Hk].
  - change (NoDup (ip <$> fqdn_ipv4_map (ipv4_store (e <| rlist := kept |>) h))).
    by rewrite ip_store.
Qed.

Lemma filter_ip_length h e :
  NoDup (ip <$> fqdn_ipv4_map h) -> e ∈ fqdn_ipv4_map h ->
  S (length (List.filter (fun x => negb (ip x =? ip e)) (fqdn_ipv4_map h))) = length (fqdn_ipv4_map h).
Proof.
  induction (fqdn_ipv4_map h) as [|x l IH]; [by intros _ ?%elem_of_nil|].
  simpl. intros [Hx N]%NoDup_cons He. destruct (Z.eqb_spec (ip x) (ip e)) as [Heq|Hne]; simpl.
  - f_equal. assert (Hl : forall y, y ∈ l -> ip y <> ip e).
    { intros y Hy Hye. apply Hx. rewrite Heq, <- Hye. by apply list_elem_of_fmap_2. }
    clear -Hl. induction l as [|y l IH]; [done|]. simpl.
    rewrite (proj2 (Z.eqb_neq _ _)) by (apply Hl; set_solver). simpl. f_equal. apply IH. set_solver.
  - f_equal. apply IH; [done|]. apply elem_of_cons in He as [->|]; done.
Qed.

(** Dropping an entry without records. *)
Lemma drop_empty_entry h e a :
  gwf h -> e ∈ fqdn_ipv4_map h -> ip e = a -> rlist e = [] ->
  (length (del_ipv4_list h) < DPI_FQDN_DELETE_QLEN)%nat ->
  purged h (ipv4_map_del a (h <| del_ipv4_list ::= fun l => l ++ [a] |>)).
Proof.
  intros G He <- Hnil Hq. pose proof (filter_ip_length h e (gw_ips _ G) He) as Hlen.
  assert (Hmem : forall x, x ∈ List.filter (fun x => negb (ip x =? ip e)) (fqdn_ipv4_map h) <->
                      x ∈ fqdn_ipv4_map h /\ ip x <> ip e).
  { intros x. by rewrite elem_of_lfilter, negb_true_iff, Z.eqb_neq. }
  constructor; try done.
  - destruct G as [G1 G2 G3 G4 G5 G6 G7 G8]. constructor; try done.
    + intros x r [Hx _]%Hmem. by apply G3.
    + by apply NoDup_fmap_filter.
    + simpl. rewrite length_app. simpl. lia.
  - simpl. rewrite length_app. simpl. lia.
  - intros a r (x & [Hx _]%Hmem & ? & ?). by exists x.
  - intros a r (x & Hx & Ha & Hr) _. exists x. split_and!; [|done|done]. apply Hmem. split; [done|].
    intros Heq. assert (x = e) as -> by (by eapply ip_unique; [apply G|..]).
    rewrite Hnil in Hr. by apply elem_of_nil in Hr.
Qed.

(** One address: afterwards its entry is gone or refers to no deleted record, or
    the queue was full. *)
Lemma check_ipv4_entry_spec a h :
  gwf h ->
  exists h' more, check_fqdn_ipv4_entry a h = (h', more) /\ purged h h' /\
    (more = false -> forall r, assoc h' a r -> deleted h r = false) /\
    (more = true -> length (del_ipv4_list h') = DPI_FQDN_DELETE_QLEN).
Proof.
  intros G. unfold check_fqdn_ipv4_entry.
  destruct (ipv4_lookup h a) as [e|] eqn:Hl.
  2: { exists h, false. split_and!; [done|by apply purged_refl| |done].
       intros _ r (e & He & Hip & _). by eapply ipv4_lookup_None in Hl. }
  apply ipv4_lookup_Some in Hl as [He <-].
  pose (gone := List.filter (deleted h) (rlist e)).
  pose (kept := List.filter (fun r => negb (deleted h r)) (rlist e)).
  change (List.filter (fun r => FLAGS_TEST (flag (rec_at h r)) FQDN_RECORD_DELETED) (rlist e)) with gone.
  change (List.filter (fun r => negb (FLAGS_TEST (flag (rec_at h r)) FQDN_RECORD_DELETED)) (rlist e))
    with kept.
  assert (Hk : forall r, r ∈ kept <-> r ∈ rlist e /\ deleted h r = false).
  { intros r. unfold kept. by rewrite elem_of_lfilter, negb_true_iff. }
  clearbody kept gone.
  set (h1 := (ipv4_store (e <| rlist := kept |>) h) <| del_rlist ::= fun l => l ++ gone |>).
  assert (G1 : gwf h1) by (apply store_gwf; [done|done|]; by intros r [? _]%Hk).
  assert (Hmem : forall x, x ∈ fqdn_ipv4_map h1 <->
    x = e <| rlist := kept |> \/ (x ∈ fqdn_ipv4_map h /\ ip x <> ip e)).
  { intros x. change (fqdn_ipv4_map h1) with (fqdn_ipv4_map (ipv4_store (e <| rlist := kept |>) h)).
    rewrite elem_of_store. simpl. split; [tauto|]. intros [->|?]; [left|by right]. eauto. }
  assert (Has : forall b r, assoc h1 b r <-> assoc h b r /\ (b = ip e -> deleted h r = false)).
  { intros b r. split.
    - intros (x & [->|[Hx Hne]]%Hmem & <- & Hr).
      + apply Hk in Hr as [? ?]. split; [by exists e|done].
      + split; [by exists x|congruence].
    - intros [(x & Hx & <- & Hr) Hd]. destruct (decide (ip x = ip e)) as [Heq|Hne].
      + assert (x = e) as -> by (by eapply ip_unique; [apply G|..]).
        exists (e <| rlist := kept |>). split_and!; [apply Hmem; by left|done|]. apply Hk. auto.
      + exists x. split_and!; [apply Hmem; by right|done|done]. }
  assert (P1 : purged h h1).
  { constructor; try done.
    - simpl. by rewrite length_fmap.
    - by intros b r [? _]%Has.
    - intros b r ? ?. by apply Has. }
  assert (Hclean : forall r, assoc h1 (ip e) r -> deleted h r = false) by (intros r [_ Hd]%Has; auto).
  destruct kept as [|k0 kept'] eqn:Ekept.
  2: { exists h1, false. split_and!; [done|done|done|done]. }
  unfold enqueue_fqdn_ipv4_to_del. case_decide as Hq.
  { exists h1, true. split_and!; [done|done|done|done]. }
  exists (ipv4_map_del (ip e) (h1 <| del_ipv4_list ::= fun l => l ++ [ip e] |>)), false.
  split_and!; [reflexivity| | |done].
  - eapply purged_trans; [exact P1|].
    apply (drop_empty_entry h1 (e <| rlist := [] |>) (ip e)); [done| |done|done|].
    + apply Hmem. by left.
    + pose proof (gw_iqlen _ G1). lia.
  - intros _ r (x & Hx & Hip & Hr). apply elem_of_lfilter in Hx as [_ Hx].
    by rewrite Hip, Z.eqb_refl in Hx.
Qed.

Lemma check_ipv4s_spec l h :
  gwf h ->
  exists h' more, check_ipv4s l h = (h', more) /\ purged h h' /\
    (more = false -> forall a r, a ∈ l -> assoc h' a r -> deleted h r = false) /\
    (more = true -> length (del_ipv4_list h') = DPI_FQDN_DELETE_QLEN).
Proof.
  revert h. induction l as [|a l IH]; intros h G; simpl.
  { exists h, false. split_and!; [done|by apply purged_refl| |done]. by intros _ a r ?%elem_of_nil. }
  destruct (check_ipv4_entry_spec a h G) as (h1 & more & -> & P1 & Hf & Ht).
  destruct more; [exists h1, true; split_and!; [done|done|done|by apply Ht]|].
  destruct (IH h1 (pu_gwf _ _ P1)) as (h2 & more & -> & P2 & Hf2 & Ht2).
  exists h2, more. split_and!; [done|by eapply purged_trans| |done].
  intros -> b r [->|Hb]%elem_of_cons Hr.
  - apply Hf; [done|]. by apply (pu_sub _ _ P2).
  - rewrite <- (purged_deleted h h1 r P1). by eapply Hf2.
Qed.

Lemma free_ipv4_purged h : gwf h -> fqdn_ipv4_map (free_fqdn_ipv4 h) = fqdn_ipv4_map h /\ gwf (free_fqdn_ipv4 h).
Proof.
  intros [G1 G2 G3 G4 G5 G6 G7 G8]. split; [done|]. constructor; try done. simpl.
  unfold DPI_FQDN_DELETE_QLEN. lia.
Qed.

(** The do-while loop ends, with no trace of a deleted record in the table. *)
Lemma purge_ipv4s_spec fuel h :
  gwf h -> del_ipv4_list h = [] -> (length (fqdn_ipv4_map h) < fuel)%nat ->
  exists h', purge_ipv4s fuel h = Some h' /\ gwf h' /\ del_ipv4_list h' = [] /\
    fqdn_name_map h' = fqdn_name_map h /\ records h' = records h /\
    del_name_list h' = del_name_list h /\ bm h' = bm h /\
    (forall a r, assoc h' a r <-> assoc h a r /\ deleted h r = false).
Proof.
  revert h. induction fuel as [|fuel IH]; intros h G Hq Hf; [lia|]. cbn [purge_ipv4s].
  destruct (check_ipv4s_spec (ip <$> fqdn_ipv4_map h) h G) as (h1 & more & -> & P1 & Hclean & Hfull).
  destruct (free_ipv4_purged h1 (pu_gwf _ _ P1)) as [Hmap G2].
  pose proof (pu_len _ _ P1) as Hlen. rewrite Hq in Hlen. simpl in Hlen.
  destruct more.
  - specialize (Hfull eq_refl). unfold DPI_FQDN_DELETE_QLEN in Hfull.
    destruct (IH (free_fqdn_ipv4 h1) G2) as (h' & -> & G' & Hq' & E1 & E2 & E3 & E4 & Has);
      [done|rewrite Hmap; lia|].
    exists h'. split_and!; try done; try (etransitivity; [eassumption|]; apply P1).
    intros a r. rewrite Has.
    assert (Hd : deleted (free_fqdn_ipv4 h1) r = deleted h r) by apply (purged_deleted h h1 r P1).
    rewrite Hd. split; intros [Ha Hdel]; (split; [|done]).
    + by apply (pu_sub _ _ P1).
    + by apply (pu_keep _ _ P1).
  - exists (free_fqdn_ipv4 h1). split_and!; try done; try apply P1.
    intros a r. split.
    + intros Ha. split; [by apply (pu_sub _ _ P1)|]. apply (Hclean eq_refl a); [|done].
      destruct Ha as (e & He & <- & Hr). destruct (pu_sub _ _ P1 (ip e) r) as (e' & He' & <- & _).
      { by exists e. }
      by apply list_elem_of_fmap_2.
    + intros [Ha Hdel]. by apply (pu_keep _ _ P1).
Qed.

(** *** Freeing records *)

Lemma free_code_ok b recs r x :
  codes_ok b recs -> recs !! r = Some x ->
  exists b', bitmap_clear b (ntohl (code x) - 1) = Some b' /\ codes_ok b' (delete r recs).
Proof.
  intros [C1 C2 C3 C4 C5] Hx. destruct (C3 r x Hx) as (k & Hk & Hc & Hb).
  assert (Hn : forall k, 0 <= k < DPI_FQDN_MAX_ENTRIES -> ntohl (htonl (k + 1)) = k + 1).
  { intros k' ?. apply ntohl_htonl. unfold is_u32, DPI_FQDN_MAX_ENTRIES in *. lia. }
  rewrite Hc, Hn by done. replace (k + 1 - 1) with k by lia.
  destruct (set_clear_sound b k C1) as (_ & (b' & -> & W' & Hbits & Hbit) & _); [lia|].
  exists b'. split; [done|]. rewrite C2 in Hbit.
  assert (Hother : forall r' x', recs !! r' = Some x' -> r' <> r -> forall k', 0 <= k' < DPI_FQDN_MAX_ENTRIES ->
    code x' = htonl (k' + 1) -> k' <> k).
  { intros r' x' Hr' Hne k' Hk' Hc' ->. apply Hne. eapply C5; [done|done|congruence]. }
  constructor; [done|congruence| | |].
  - intros r' x' [Hne Hx']%lookup_delete_Some. destruct (C3 r' x' Hx') as (k' & ? & Hc' & ?).
    exists k'. split_and!; [lia|lia|done|]. rewrite Hbit by lia.
    rewrite (proj2 (Z.eqb_neq k' k)); [done|]. eapply Hother; [done| |done|done]. by apply not_eq_sym.
  - intros k' Hk' Hb'. rewrite Hbit in Hb' by lia. apply andb_true_iff in Hb' as [Hne Hb'].
    apply negb_true_iff, Z.eqb_neq in Hne. destruct (C4 k' Hk' Hb') as (r' & x' & Hx' & Hc').
    exists r', x'. split; [|done]. apply lookup_delete_Some. split; [|done]. intros ->.
    simplify_eq. rewrite Hc in Hc'. apply (f_equal ntohl) in Hc'. rewrite !Hn in Hc' by lia. lia.
  - intros r1 r2 x1 x2 [_ ?]%lookup_delete_Some [_ ?]%lookup_delete_Some. by eapply C5.
Qed.

Lemma free_names_spec l h :
  codes_ok (bm h) (records h) -> NoDup l -> (forall r, r ∈ l -> is_Some (records h !! r)) ->
  exists h', free_names l h = Some h' /\ codes_ok (bm h') (records h') /\
    (forall r, records h' !! r = if bool_decide (r ∈ l) then None else records h !! r) /\
    fqdn_name_map h' = fqdn_name_map h /\ fqdn_ipv4_map h' = fqdn_ipv4_map h /\
    del_ipv4_list h' = del_ipv4_list h.
Proof.
  revert h. induction l as [|r l IH]; intros h C N Hin; simpl.
  { exists h. split_and!; try done. }
  apply NoDup_cons in N as [Hr N]. destruct (Hin r) as [x Hx]; [set_solver|]. rewrite Hx.
  cbn [mbind option_bind]. unfold free_fqdn_code.
  destruct (free_code_ok _ _ r x C Hx) as (b' & -> & C'). cbn [mbind option_bind].
  edestruct IH as (h' & -> & ? & Hl & ? & ? & ?); [exact C'|done| |].
  { intros r' Hr'. simpl. rewrite lookup_delete_ne by (by intros ->). apply Hin. set_solver. }
  exists h'. split_and!; try done. intros r'. rewrite Hl. simpl.
  destruct (decide (r' = r)) as [->|Hne].
  - rewrite lookup_delete_eq. rewrite (bool_decide_true (r ∈ r :: l)) by set_solver.
    by destruct (bool_decide _).
  - rewrite lookup_delete_ne by (by apply not_eq_sym).
    rewrite (bool_decide_ext (r' ∈ r :: l) (r' ∈ l)); [done|]. rewrite elem_of_cons. tauto.
Qed.

(** *** The sweep *)

Record swept (h h' : fqdn_hdl) : Prop := {
  sw_fwf : fwf h';
  sw_sub r : r ∈ live h' -> r ∈ live h;
  sw_keep r : r ∈ live h -> marked h r = false -> r ∈ live h';
  sw_rec r : r ∈ live h' -> marked h' r = marked h r /\
    code (rec_at h' r) = code (rec_at h r) /\ name (rec_at h' r) = name (rec_at h r);
  sw_assoc a r : assoc h' a r <-> assoc h a r /\ r ∈ live h'
}.

Lemma swept_trans h1 h2 h3 : swept h1 h2 -> swept h2 h3 -> swept h1 h3.
Proof.
  intros [A1 A2 A3 A4 A5] [B1 B2 B3 B4 B5]. constructor; [done|auto| | |].
  - intros r Hr Hm. pose proof (A3 r Hr Hm) as H2. apply B3; [done|].
    by rewrite (proj1 (A4 r H2)).
  - intros r Hr. destruct (B4 r Hr) as (-> & -> & ->). by apply A4, B2.
  - intros a r. rewrite B5, A5. split; [tauto|]. intros [? Hr]. split_and!; [done|by apply B2|done].
Qed.

(** Everything pending is freed once no address refers to it. *)
Lemma free_fqdn_name_spec h :
  gwf h -> del_ipv4_list h = [] ->
  (forall a r, assoc h a r -> r ∈ live h) ->
  exists h', free_fqdn_name h = Some h' /\ fwf h' /\ live h' = live h /\
    fqdn_ipv4_map h' = fqdn_ipv4_map h /\ (forall r, r ∈ live h -> rec_at h' r = rec_at h r).
Proof.
  intros G Hq Hcl. pose proof (gw_nodup _ G) as N. apply NoDup_app in N as (Nl & Nd & Np).
  unfold free_fqdn_name.
  destruct (free_names_spec (del_name_list h) h (gw_codes _ G) Np) as (h1 & -> & C1 & Hrec & E1 & E2 & E3).
  { intros r Hr. apply (gw_recs _ G). set_solver. }
  cbn [mbind option_bind].
  remember (h1 <| del_name_list := [] |> <| del_rlist := [] |>) as h' eqn:Eh.
  exists h'. split; [done|].
  assert (Hl : live h' = live h) by (unfold live; rewrite Eh; simpl; by rewrite E1).
  assert (Hdn : del_name_list h' = []) by (by rewrite Eh).
  assert (Hat : forall r, r ∈ live h -> rec_at h' r = rec_at h r).
  { intros r Hr. unfold rec_at. rewrite Eh. simpl. rewrite Hrec. rewrite bool_decide_false; [done|]. by apply Nd. }
  split_and!; [|done|by rewrite Eh|done].
  split; [constructor; rewrite ?Hl, ?Hdn, ?app_nil_r|done|by rewrite Eh, <- Hq|by rewrite Eh].
  - done.
  - intros r. rewrite Eh. simpl. rewrite Hrec. pose proof (gw_recs _ G r) as Hg. rewrite elem_of_app in Hg.
    case_bool_decide as Hp.
    + split; [intros Hr; by destruct (Nd r Hr)|by intros [? ?]].
    + rewrite <- Hg. tauto.
  - intros e r He Hr. rewrite Eh in He. simpl in He. rewrite E2 in He.
    apply (Hcl (ip e)). by exists e.
  - rewrite Eh. simpl. rewrite E2. apply G.
  - intros r Hr. unfold deleted. rewrite Hat by done.
    rewrite (bool_decide_false (r ∈ [])) by apply not_elem_of_nil.
    fold (deleted h r). rewrite (gw_deleted _ G) by set_solver.
    apply bool_decide_false. by apply Nd.
  - unfold DPI_FQDN_DELETE_QLEN. simpl. lia.
  - rewrite Eh. simpl. rewrite E3, Hq. simpl. unfold DPI_FQDN_DELETE_QLEN. lia.
  - by rewrite Eh.
Qed.

(** One turn of the outer loop. *)
Lemma sweep_round h h1 more :
  fwf h -> check_names (fqdn_name_map h) h = (h1, more) ->
  exists h', (match del_name_list h1 with
              | [] => Some h1
              | _ => h ← purge_ipv4s (S (length (fqdn_ipv4_map h1))) h1; free_fqdn_name h
              end) = Some h' /\ swept h h' /\
    (more = false -> forall r, r ∈ live h' -> marked h r = false) /\
    (more = true -> (length (fqdn_name_map h') < length (fqdn_name_map h))%nat).
Proof.
  intros [G Hn Hi Hr] Hck. pose proof (gw_nodup _ G) as N. apply NoDup_app in N as (Nl & _ & _).
  destruct (check_names_spec (fqdn_name_map h) h G Nl) as (h1' & more' & Hck' & Sc & Hf & Ht).
  { intros n Hin. by apply list_elem_of_fmap_2. }
  rewrite Hck in Hck'. simplify_eq.
  assert (Hf' : more' = false -> forall r, r ∈ live h1' -> marked h r = false).
  { intros Hm r Hl. pose proof (sc_sub _ _ Sc r Hl) as (n & -> & Hin)%list_elem_of_fmap. by apply Hf. }
  pose proof (sc_gwf _ _ Sc) as G1.
  assert (Hmark : forall r, marked h1' r = marked h r) by apply Sc.
  assert (Has : forall a r, assoc h1' a r <-> assoc h a r) by (intros; unfold assoc; by rewrite (sc_ipv4 _ _ Sc)).
  destruct (del_name_list h1') as [|p0 ps] eqn:Hd.
  { exists h1'. split_and!; [done| |done|].
    - constructor; [|apply Sc|apply Sc| |].
      + constructor; [done|done|rewrite (sc_iq _ _ Sc); done|rewrite (sc_rl _ _ Sc); done].
      + intros r _. split; [done|apply Sc].
      + intros a r. rewrite Has. split; [|tauto]. intros Ha. split; [done|].
        apply Has in Ha as (e & He & _ & Hre). pose proof (gw_rlist _ G1 e r He Hre) as Hl.
        by rewrite Hd, app_nil_r in Hl.
    - intros Hm. specialize (Ht Hm). unfold DPI_FQDN_DELETE_QLEN in Ht. rewrite ?Hd in Ht.
      simpl in Ht. lia. }
  destruct (purge_ipv4s_spec (S (length (fqdn_ipv4_map h1'))) h1' G1)
    as (h2 & -> & G2 & Hq2 & E1 & E2 & E3 & E4 & Has2); [by rewrite (sc_iq _ _ Sc)|lia|].
  cbn [mbind option_bind].
  assert (Hlive2 : live h2 = live h1') by (unfold live; by rewrite E1).
  assert (Hdel : forall a r, assoc h2 a r -> r ∈ live h2).
  { intros a r Ha. apply Has2 in Ha as [(e & He & _ & Hre) Hnd]. rewrite Hlive2.
    pose proof (gw_rlist _ G1 e r He Hre) as Hl. rewrite (gw_deleted _ G1 r Hl) in Hnd.
    apply bool_decide_eq_false in Hnd. apply elem_of_app in Hl as [?|?]; done. }
  destruct (free_fqdn_name_spec h2 G2 Hq2 Hdel) as (h3 & -> & F3 & Hl3 & Hm3 & Hat3).
  assert (Hat : forall r, r ∈ live h3 -> rec_at h3 r = rec_at h1' r).
  { intros r Hl. rewrite Hat3 by (by rewrite <- Hl3). unfold rec_at. by rewrite E2. }
  exists h3. rewrite Hl3, Hlive2 in *. split_and!; [done| |done|].
  - constructor; rewrite ?Hl3; [done|apply Sc|apply Sc| |].
    + intros r Hl. unfold marked at 1. rewrite (Hat r Hl). split; [apply Hmark|apply Sc].
    + intros a r. unfold assoc at 1. rewrite Hm3. fold (assoc h2 a r). rewrite Has2, Has.
      split; intros [Ha Hx]; (split; [done|]).
      * apply (Hdel a). by apply Has2, conj; [apply Has|].
      * rewrite (gw_deleted _ G1) by set_solver. apply bool_decide_false.
        pose proof (gw_nodup _ G1) as (_ & Nd1 & _)%NoDup_app. by apply Nd1.
  - intros Hm. specialize (Ht Hm). pose proof (sc_len _ _ Sc) as Hlen. rewrite Hn, Hd, Ht in Hlen.
    assert (Hlm : length (fqdn_name_map h3) = length (live h1')).
    { transitivity (length (live h3)); [unfold live; by rewrite length_fmap|by rewrite Hl3]. }
    unfold live in Hlen at 2. rewrite length_fmap in Hlen. unfold DPI_FQDN_DELETE_QLEN in Hlen.
    simpl in Hlen. lia.
Qed.

Lemma delete_marked_spec fuel h :
  fwf h -> (length (fqdn_name_map h) < fuel)%nat ->
  exists h', delete_marked_loop fuel h = Some h' /\ swept h h' /\
    (forall r, r ∈ live h' -> marked h r = false).
Proof.
  revert h. induction fuel as [|fuel IH]; intros h F Hf; [lia|]. cbn [delete_marked_loop].
  destruct (check_names (fqdn_name_map h) h) as [h1 more] eqn:Hck.
  destruct (sweep_round h h1 more F Hck) as (h2 & -> & Sw & Hdone & Hmore). cbn [mbind option_bind].
  destruct more; [|by exists h2; split_and!; [| |apply Hdone]].
  destruct (IH h2 (sw_fwf _ _ Sw)) as (h3 & -> & Sw3 & Hd3); [specialize (Hmore eq_refl); lia|].
  exists h3. split_and!; [done|by eapply swept_trans|].
  intros r Hr. rewrite <- (proj1 (sw_rec _ _ Sw r (sw_sub _ _ Sw3 r Hr))). by apply Hd3.
Qed.

(** *** Codes *)

Lemma code_not_minus1 k : 0 <= k < DPI_FQDN_MAX_ENTRIES -> htonl (k + 1) <> u32 (-1).
Proof.
  unfold DPI_FQDN_MAX_ENTRIES. intros Hk He. apply (f_equal ntohl) in He.
  rewrite ntohl_htonl in He by (unfold is_u32; lia). vm_compute (ntohl (u32 (-1))) in He. lia.
Qed.

(** A new record with the code of a bit that was clear. *)
Lemma alloc_code_ok h :
  codes_ok (bm h) (records h) ->
  exists h' c, alloc_fqdn_code h = Some (h', c) /\ records h' = records h /\
    fqdn_name_map h' = fqdn_name_map h /\ fqdn_ipv4_map h' = fqdn_ipv4_map h /\
    del_name_list h' = del_name_list h /\ del_ipv4_list h' = del_ipv4_list h /\
    del_rlist h' = del_rlist h /\
    (c = u32 (-1) /\ bm h' = bm h /\ all_set (bm h) 0 DPI_FQDN_MAX_ENTRIES \/
     c <> u32 (-1) /\ (forall r x, records h !! r = Some x -> code x <> c) /\
       forall r x, records h !! r = None -> code x = c ->
         codes_ok (bm h') (<[r := x]> (records h))).
Proof.
  intros C. pose proof C as [C1 C2 C3 C4 C5]. unfold alloc_fqdn_code.
  destruct (next_zero_sound (bm h) (code_cnt h) C1) as (k & -> & Hk). cbn [mbind option_bind].
  rewrite C2 in Hk.
  assert (Hk' : (k = -1 /\ all_set (bm h) 0 DPI_FQDN_MAX_ENTRIES) \/
                (0 <= k < DPI_FQDN_MAX_ENTRIES /\ bit (bm h) k = false)).
  { destruct Hk as [?|[(? & ? & ?)|(_ & ? & ? & ?)]]; [by left|right; split; [|done]..];
      destruct ((code_cnt h <? 0) || (DPI_FQDN_MAX_ENTRIES <=? code_cnt h)) eqn:E; break_bool; lia. }
  destruct Hk' as [[-> Hall]|[Hkr Hkb]].
  { simpl. eexists _, _. split_and!; try done. by left. }
  rewrite (proj2 (Z.ltb_ge k 0)) by lia. simpl bm.
  destruct (set_clear_sound (bm h) k C1) as ((b' & -> & W' & Hbits & Hbit) & _); [by rewrite C2|].
  cbn [mbind option_bind]. eexists _, _. split_and!; try done. right.
  assert (Hnew : forall r x, records h !! r = Some x -> code x <> htonl (k + 1)).
  { intros r x Hx Hc. destruct (C3 r x Hx) as (k' & Hk' & Hc' & Hb'). rewrite Hc in Hc'.
    apply (f_equal ntohl) in Hc'. unfold DPI_FQDN_MAX_ENTRIES in *.
    rewrite !ntohl_htonl in Hc' by (unfold is_u32; lia). assert (k' = k) as -> by lia. congruence. }
  split_and!; [by apply code_not_minus1|done|]. intros r x Hr Hc. rewrite C2 in Hbit. simpl.
  constructor; [done|congruence| | |].
  - intros r' x' [[<- <-]|[_ Hx']]%lookup_insert_Some.
    + exists k. split_and!; [lia|lia|done|]. rewrite Hbit by done. by rewrite Z.eqb_refl.
    + destruct (C3 r' x' Hx') as (k' & ? & ? & Hb'). exists k'. split_and!; [lia|lia|done|].
      rewrite Hbit by done. by rewrite Hb', orb_true_r.
  - intros k' Hk' Hb'. rewrite Hbit in Hb' by done. destruct (Z.eqb_spec k' k) as [->|Hne].
    + exists r, x. rewrite lookup_insert_eq. done.
    + destruct (C4 k' Hk' Hb') as (r' & x' & Hx' & Hc'). exists r', x'. split; [|done].
      rewrite lookup_insert_ne; [done|]. intros ->. congruence.
  - intros r1 r2 x1 x2 [[<- <-]|[? H1]]%lookup_insert_Some [[<- <-]|[? H2]]%lookup_insert_Some He;
      [done|by destruct (Hnew _ _ H2); congruence|by destruct (Hnew _ _ H1); congruence|].
    by eapply C5.
Qed.

(** *** Associating *)

(** Adding a record to the entry of an address, in the table or new. *)
Lemma record_ip_list_spec e r h :
  fwf h -> r ∈ live h ->
  exists e' h' ret, config_record_ip_list e r h = (e', h', ret) /\ fwf h' /\ ip e' = ip e /\
    (forall x, x ∈ rlist e' <-> x ∈ rlist e \/ x = r) /\
    fqdn_name_map h' = fqdn_name_map h /\ fqdn_ipv4_map h' = fqdn_ipv4_map h /\
    (forall x, code (rec_at h' x) = code (rec_at h x) /\ name (rec_at h' x) = name (rec_at h x) /\
               flag (rec_at h' x) = flag (rec_at h x)).
Proof.
  intros [G Hn Hi Hr] Hl. unfold config_record_ip_list.
  set (e' := if find_record_or_ipentry e r h true then e else _).
  assert (He' : ip e' = ip e /\ forall x, x ∈ rlist e' <-> x ∈ rlist e \/ x = r).
  { unfold e', find_record_or_ipentry. destruct (existsb _ _) eqn:E.
    - apply existsb_exists in E as (y & Hy & ->%Z.eqb_eq). apply list_elem_of_In in Hy.
      split; [done|]. intros x. split; [tauto|]. by intros [?| ->].
    - split; [done|]. intros x. simpl. by rewrite elem_of_app, list_elem_of_singleton. }
  destruct He' as [Hip Hrl].
  destruct (find_record_or_ipentry e' r h false).
  - exists e', h, 0. split_and!; try done.
  - eexists e', _, 1. split; [done|]. split_and!; try done.
    + split; [|done|done|done]. apply rec_upd_gwf; [done|set_solver|done|done].
    + intros x. rewrite rec_at_upd. case_decide; by subst.
Qed.

Lemma insert_ipv4_fwf e h :
  fwf h -> (forall r, r ∈ rlist e -> r ∈ live h) -> (forall x, x ∈ fqdn_ipv4_map h -> ip x <> ip e) ->
  fwf (h <| fqdn_ipv4_map ::= fun l => l ++ [e] |> <| domain_ips ::= fun d => u32 (d + 1) |>).
Proof.
  intros [[G1 G2 G3 G4 G5 G6 G7 G8] Hn Hi Hr] He Hip. constructor; try done. constructor; try done.
  - intros x r [Hx| ->%list_elem_of_singleton]%elem_of_app Hrl; [by eapply G3|].
    change (live _) with (live h). set_solver.
  - simpl. rewrite fmap_app. apply NoDup_app. split_and!; [done| |apply NoDup_singleton].
    simpl. intros a (x & -> & Hx)%list_elem_of_fmap Ha%list_elem_of_singleton. by apply (Hip x).
Qed.

Lemma store_ipv4_fwf e h :
  fwf h -> (forall r, r ∈ rlist e -> r ∈ live h) -> fwf (ipv4_store e h).
Proof.
  intros [[G1 G2 G3 G4 G5 G6 G7 G8] Hn Hi Hr] He. constructor; try done. constructor; try done.
  - intros x r [[-> _]|[Hx _]]%elem_of_store Hrl; [|by eapply G3].
    change (live _) with (live h). set_solver.
  - by rewrite ip_store.
Qed.

(** Adding a record to an address: the association is made and the rest is kept. *)
Record added (h h' : fqdn_hdl) r a : Prop := {
  ad_fwf : fwf h';
  ad_names : fqdn_name_map h' = fqdn_name_map h;
  ad_assoc b s : assoc h' b s <-> assoc h b s \/ (b = a /\ s = r);
  ad_rec x : code (rec_at h' x) = code (rec_at h x) /\ name (rec_at h' x) = name (rec_at h x) /\
             flag (rec_at h' x) = flag (rec_at h x)
}.

Lemma add_ip_spec h r a :
  fwf h -> r ∈ live h -> exists h' ret new, add_ip h r a = (h', ret, new) /\ added h h' r a.
Proof.
  intros F Hr. unfold add_ip. destruct (ipv4_lookup h a) as [e|] eqn:Hl.
  - apply ipv4_lookup_Some in Hl as [He <-].
    destruct (record_ip_list_spec e r h F Hr) as (e' & h1 & ret & -> & F1 & Hip & Hrl & Hn & Hm & Hx).
    eexists _, _, _. split; [reflexivity|].
    assert (Hlive : live h1 = live h) by (unfold live; by rewrite Hn).
    constructor; [|done| |done].
    + apply store_ipv4_fwf; [done|]. intros x [Hx'| ->]%Hrl; rewrite Hlive; [|done].
      pose proof (gw_rlist _ (fw_gwf _ F) e x He Hx') as Hy. by rewrite (fw_names _ F), app_nil_r in Hy.
    + intros b s. unfold assoc. setoid_rewrite elem_of_store. rewrite Hm, Hip. split.
      * intros (x & [[-> _]|[Hin Hne]] & <- & Hs); [|left; by exists x].
        apply Hrl in Hs as [?| ->]; [left; exists e; by rewrite Hip|by right; rewrite Hip].
      * intros [(x & Hin & <- & Hs)|[-> ->]].
        -- destruct (decide (ip x = ip e)) as [Heq|]; [|exists x; by split_and!; [right|..]].
           assert (x = e) as -> by (by eapply ip_unique; [apply F|..]).
           exists e'. split_and!; [left; eauto|done|]. apply Hrl. by left.
        -- exists e'. split_and!; [left; eauto|done|]. apply Hrl. by right.
  - destruct (record_ip_list_spec (Ipv4 a []) r h F Hr)
      as (e' & h1 & ret & -> & F1 & Hip & Hrl & Hn & Hm & Hx).
    eexists _, _, _. split; [reflexivity|].
    assert (Hlive : live h1 = live h) by (unfold live; by rewrite Hn). simpl in Hip, Hrl.
    constructor; [|done| |done].
    + apply insert_ipv4_fwf; [done| |].
      * intros x [[]%elem_of_nil| ->]%Hrl. by rewrite Hlive.
      * intros x Hin. rewrite Hip. rewrite Hm in Hin. by eapply ipv4_lookup_None.
    + intros b s. unfold assoc. simpl. rewrite Hm. setoid_rewrite elem_of_app.
      setoid_rewrite list_elem_of_singleton. split.
      * intros (x & [Hin| ->] & <- & Hs); [left; by exists x|]. right.
        apply Hrl in Hs as [[]%elem_of_nil| ->]. done.
      * intros [(x & Hin & <- & Hs)|[-> ->]]; [exists x; by split_and!; [left|..]|].
        exists e'. split_and!; [by right|done|]. apply Hrl. by right.
Qed.

Lemma name_lookup_ext h h' nm :
  fqdn_name_map h' = fqdn_name_map h ->
  (forall r, r ∈ live h -> name (rec_at h' r) = name (rec_at h r)) ->
  name_lookup h' nm = name_lookup h nm.
Proof.
  unfold name_lookup, live, fqdn_name_match. intros -> Hn. f_equal.
  induction (fqdn_name_map h) as [|n l IH]; [done|]. simpl in *. rewrite Hn by set_solver.
  rewrite IH; [done|]. set_solver.
Qed.

Lemma name_lookup_live h nm r : name_lookup h nm = Some r -> r ∈ live h.
Proof.
  unfold name_lookup, live. intros (n & Hf & ->)%fmap_Some.
  apply find_first_elem in Hf as [? _]. by apply list_elem_of_fmap_2.
Qed.

(** Rewriting the flags of a record in the name table. *)
Lemma flag_upd_fwf f r h :
  fwf h -> r ∈ live h -> (forall x, FLAGS_TEST (f x) FQDN_RECORD_DELETED = true ->
                            FLAGS_TEST (flag x) FQDN_RECORD_DELETED = true) ->
  fwf (rec_upd (fun x => x <| flag := f x |>) r h).
Proof.
  intros [G Hn Hi Hr] Hl Hf. destruct G as [G1 G2 G3 G4 G5 G6 G7 G8].
  destruct (proj1 (G2 r)) as [x Hx]; [set_solver|].
  assert (Hat : rec_at h r = x) by (unfold rec_at; by rewrite Hx).
  constructor; try done. constructor; try done.
  - intros r'. simpl. change (live _) with (live h). rewrite lookup_insert_is_Some, G2.
    split; [|intros [<-|[_ ?]]; [by eexists|done]].
    intros ?. destruct (decide (r = r')); [by left|by right].
  - intros r' Hr'. unfold deleted. rewrite rec_at_upd. change (live _) with (live h) in Hr'.
    change (del_name_list (rec_upd _ _ _)) with (del_name_list h) in *. pose proof (G5 r' Hr') as Hd.
    destruct (decide (r = r')) as [->|]; [|exact Hd]. rewrite Hn in *. unfold deleted in Hd.
    rewrite (bool_decide_false (r' ∈ [])) in Hd |- * by apply not_elem_of_nil. simpl.
    destruct (FLAGS_TEST (f (rec_at h r')) FQDN_RECORD_DELETED) eqn:E; [|done].
    apply Hf in E. congruence.
  - rewrite <- Hat in Hx. by apply (codes_ok_upd _ _ (fun y => y <| flag := f y |>)).
Qed.

(** A new name. *)
Lemma new_name_fwf h h1 x hash :
  fwf h -> fqdn_name_map h1 = fqdn_name_map h -> fqdn_ipv4_map h1 = fqdn_ipv4_map h ->
  records h1 = records h -> del_name_list h1 = del_name_list h -> del_ipv4_list h1 = del_ipv4_list h ->
  del_rlist h1 = del_rlist h -> FLAGS_TEST (flag x) FQDN_RECORD_DELETED = false ->
  codes_ok (bm h1) (<[fresh_rec h1 := x]> (records h1)) ->
  let h2 := h1 <| records ::= <[fresh_rec h1 := x]> |>
               <| fqdn_name_map ::= fun l => l ++ [NameNode hash (fresh_rec h1)] |>
               <| domains ::= fun d => u32 (d + 1) |> in
  fwf h2 /\ live h2 = live h ++ [fresh_rec h1] /\ fresh_rec h1 ∉ live h.
Proof.
  intros [[G1 G2 G3 G4 G5 G6 G7 G8] Hn Hi Hr] E1 E2 E3 E4 E5 E6 Hfl C h2.
  assert (Hfr : records h !! fresh_rec h1 = None).
  { apply not_elem_of_dom. unfold fresh_rec. rewrite E3. apply is_fresh. }
  assert (Hl : live h2 = live h ++ [fresh_rec h1]).
  { unfold live, h2. simpl. by rewrite E1, fmap_app. }
  rewrite Hn, app_nil_r in *.
  assert (Hnl : fresh_rec h1 ∉ live h).
  { intros Hin. apply (G2 (fresh_rec h1)) in Hin as [? Hs]. congruence. }
  split_and!; [|done|done].
  assert (Hdn : del_name_list h2 = []) by done.
  constructor; [constructor; rewrite ?Hl, ?Hdn, ?app_nil_r|done|by rewrite <- Hi|by rewrite <- Hr].
  - apply NoDup_app. split_and!; [done| |apply NoDup_singleton].
    intros r Hin ->%list_elem_of_singleton. done.
  - intros r. rewrite elem_of_app, list_elem_of_singleton, G2. simpl. rewrite E3, lookup_insert_is_Some.
    split; [intros [?| ->]; [destruct (decide (fresh_rec h1 = r)); [by left|by right]|by left]|].
    intros [<-|[_ ?]]; [by right|by left].
  - intros e r He Hin. simpl in He. rewrite E2 in He. rewrite elem_of_app. left. by eapply G3.
  - simpl. by rewrite E2.
  - intros r Hin. rewrite (bool_decide_false (r ∈ [])) by apply not_elem_of_nil.
    unfold deleted, rec_at. simpl. rewrite E3, lookup_insert. case_decide as Hrr; [done|].
    apply elem_of_app in Hin as [Hin|Hx%list_elem_of_singleton]; [|by rewrite Hx in Hrr].
    pose proof (G5 r Hin) as Hd. rewrite (bool_decide_false (r ∈ [])) in Hd by apply not_elem_of_nil.
    exact Hd.
  - unfold DPI_FQDN_DELETE_QLEN. simpl. lia.
  - change (del_ipv4_list h2) with (del_ipv4_list h1). rewrite E5, Hi. simpl.
    unfold DPI_FQDN_DELETE_QLEN. lia.
  - exact C.
Qed.

(** The record of a name: found, or created, or refused for want of a code. *)
Lemma config_fqdn_record_spec h nm :
  fwf h ->
  exists h' o, config_fqdn_record h nm = Some (h', o) /\ fwf h' /\ fqdn_ipv4_map h' = fqdn_ipv4_map h /\
    (forall r, r ∈ live h -> code (rec_at h' r) = code (rec_at h r) /\ name (rec_at h' r) = name (rec_at h r)) /\
    match o with
    | None => name_lookup h nm = None /\ live h' = live h /\ all_set (bm h) 0 DPI_FQDN_MAX_ENTRIES
    | Some r => r ∈ live h' /\ (forall s, s ∈ live h' <-> s ∈ live h \/ s = r) /\
                marked h' r = false /\ code (rec_at h' r) <> u32 (-1) /\
                (forall s, s ∈ live h -> s <> r -> marked h' s = marked h s) /\
                ((length nm < MAX_FQDN_LEN)%nat -> name_lookup h' nm = Some r)
    end.
Proof.
  intros F. unfold config_fqdn_record. destruct (name_lookup h nm) as [r|] eqn:Hl.
  - pose proof (name_lookup_live _ _ _ Hl) as Hr. eexists _, _. split; [reflexivity|].
    split; [|split; [done|split]].
    + apply (flag_upd_fwf (fun x => if FLAGS_TEST (flag x) FQDN_RECORD_WILDCARD
                                    then FQDN_RECORD_WILDCARD else 0)); [done|done|].
      intros x. by destruct (FLAGS_TEST (flag x) _).
    + intros s Hs. rewrite rec_at_upd. case_decide; by subst.
    + split_and!; [done| | | | |].
      * intros s. change (live (rec_upd _ _ _)) with (live h). split; [tauto|by intros [?| ->]].
      * unfold marked. rewrite rec_at_upd, decide_True by done. simpl.
        by destruct (FLAGS_TEST (flag _) FQDN_RECORD_WILDCARD).
      * rewrite rec_at_upd, decide_True by done. simpl.
        destruct (proj1 (gw_recs _ (fw_gwf _ F) r)) as [x Hx]; [set_solver|].
        destruct (co_code _ _ (gw_codes _ (fw_gwf _ F)) r x Hx) as (k & Hk & Hc & _).
        unfold rec_at. rewrite Hx. simpl. rewrite Hc. by apply code_not_minus1.
      * intros s Hs Hne. unfold marked. by rewrite rec_at_upd, decide_False by (by apply not_eq_sym).
      * intros _. rewrite <- Hl. apply name_lookup_ext; [done|].
        intros s Hs. rewrite rec_at_upd. case_decide; by subst.
  - destruct (alloc_code_ok h (gw_codes _ (fw_gwf _ F)))
      as (h1 & c & -> & E1 & E2 & E3 & E4 & E5 & E6 & Hc). cbn [mbind option_bind].
    destruct Hc as [(-> & Hbm & Hall)|(Hc & Hnew & Hok)].
    { rewrite Z.eqb_refl. eexists _, _. split; [reflexivity|].
      assert (Hlv : live h1 = live h) by (unfold live; by rewrite E2).
      split_and!; [|done| |done|done|done].
      - destruct F as [[G1 G2 G3 G4 G5 G6 G7 G8] Hn Hi Hr]. constructor; [|congruence..].
        constructor; rewrite ?Hlv, ?E1, ?E2, ?E3, ?E4, ?E5, ?Hbm; try done.
        intros s Hs. unfold deleted, rec_at. rewrite E1. by apply G5.
      - intros s _. unfold rec_at. by rewrite E1. }
    rewrite (proj2 (Z.eqb_neq _ _) Hc).
    assert (Hfr : records h !! fresh_rec h1 = None).
    { apply not_elem_of_dom. unfold fresh_rec. rewrite E1. apply is_fresh. }
    set (x := Record_ (take (MAX_FQDN_LEN - 1) nm) c
                (if is_fqdn_name_wildcard (take (MAX_FQDN_LEN - 1) nm) then FQDN_RECORD_WILDCARD else 0) 0 0 []).
    destruct (new_name_fwf h h1 x (fqdn_name_hash nm) F) as (F2 & Hlive & Hnl); try done.
    { simpl. by destruct (is_fqdn_name_wildcard _). }
    { rewrite E1. by apply Hok. }
    set (h2 := h1 <| records ::= _ |> <| fqdn_name_map ::= _ |> <| domains ::= _ |>) in *.
    assert (Hold : forall s, s ∈ live h -> rec_at h2 s = rec_at h s).
    { intros s Hs. unfold rec_at, h2. simpl. rewrite lookup_insert_ne, E1; [done|]. by intros <-. }
    assert (Hthis : rec_at h2 (fresh_rec h1) = x).
    { unfold rec_at, h2. simpl. by rewrite lookup_insert_eq. }
    exists h2, (Some (fresh_rec h1)). split_and!; [done|done|done| | | | | | |].
    + intros s Hs. by rewrite Hold.
    + rewrite Hlive. set_solver.
    + intros s. rewrite Hlive. by rewrite elem_of_app, list_elem_of_singleton.
    + unfold marked. rewrite Hthis. simpl. by destruct (is_fqdn_name_wildcard _).
    + by rewrite Hthis.
    + intros s Hs _. unfold marked. by rewrite Hold.
    + intros Hlen. clear F Hok.
      assert (Hnm : name x = nm) by (apply take_ge; unfold MAX_FQDN_LEN in *; lia).
      unfold name_lookup, fqdn_name_match in Hl |- *.
      change (fqdn_name_map h2) with (fqdn_name_map h1 ++ [NameNode (fqdn_name_hash nm) (fresh_rec h1)]).
      rewrite E2. apply fmap_None in Hl. rewrite find_first_None in Hl.
      rewrite find_first_app, (proj2 (find_first_None _ (fqdn_name_map h))).
      * simpl. rewrite Z.eqb_refl, Hthis, Hnm. unfold strcaseeq. by rewrite bool_decide_eq_true_2.
      * intros n Hn. rewrite Hold; [by apply Hl|]. by apply list_elem_of_fmap_2.
Qed.

(** *** Snooped answers *)

(** The addresses [ips] have been associated with the records [rs]. *)
Record snooped (h h' : fqdn_hdl) (rs : Z -> Prop) (ips : list Z) : Prop := {
  sn_fwf : fwf h';
  sn_names : fqdn_name_map h' = fqdn_name_map h;
  sn_assoc b s : assoc h' b s <-> assoc h b s \/ (b ∈ ips /\ rs s);
  sn_rec x : code (rec_at h' x) = code (rec_at h x) /\ name (rec_at h' x) = name (rec_at h x) /\
             flag (rec_at h' x) = flag (rec_at h x)
}.

Lemma snooped_refl h (rs : Z -> Prop) ips : fwf h -> (forall s, ~ rs s) -> snooped h h rs ips.
Proof. intros F Hn. constructor; try done. intros b s. split; [by left|]. intros [?|[_ Hs]]; [done|by destruct (Hn s)]. Qed.

Lemma snooped_trans h1 h2 h3 (rs1 rs2 : Z -> Prop) ips :
  snooped h1 h2 rs1 ips -> snooped h2 h3 rs2 ips ->
  snooped h1 h3 (fun s => rs1 s \/ rs2 s) ips.
Proof.
  intros [A1 A2 A3 A4] [B1 B2 B3 B4]. constructor; [done|congruence| |].
  - intros b s. rewrite B3, A3. tauto.
  - intros x. destruct (A4 x) as (? & ? & ?), (B4 x) as (? & ? & ?). split_and!; congruence.
Qed.

Lemma snooped_lookup h h' rs ips nm :
  snooped h h' rs ips -> name_lookup h' nm = name_lookup h nm.
Proof. intros S. apply name_lookup_ext; [apply S|]. intros r _. apply S. Qed.

Lemma snooped_marked h h' rs ips r : snooped h h' rs ips -> marked h' r = marked h r.
Proof. intros S. unfold marked. destruct (sn_rec _ _ _ _ S r) as (_ & _ & ->). done. Qed.

Lemma snooped_iff h h' (rs rs' : Z -> Prop) ips :
  (forall s, rs s <-> rs' s) -> snooped h h' rs ips -> snooped h h' rs' ips.
Proof. intros E [? ? A ?]. constructor; try done. intros b s. by rewrite A, E. Qed.

Lemma associate_loop_spec h r ips new :
  fwf h -> r ∈ live h ->
  snooped h (associate_loop h r ips new).1 (fun s => s = r) ips.
Proof.
  revert h new. induction ips as [|a ips IH]; intros h new F Hr.
  { constructor; try done. intros b s. split; [by left|]. intros [?|[[]%elem_of_nil _]]; done. }
  cbn [associate_loop]. destruct (add_ip_spec h r a F Hr) as (h1 & ret & nw & -> & [A1 A2 A3 A4]).
  assert (Hr1 : r ∈ live h1) by (unfold live; by rewrite A2).
  specialize (IH h1 (new || (nw || (ret =? 1)) && FLAGS_TEST (flag (rec_at h1 r)) FQDN_RECORD_WILDCARD) A1 Hr1).
  destruct (associate_loop h1 r ips _) as [h2 nw2]. destruct IH as [B1 B2 B3 B4]. cbn [fst] in *.
  constructor; [done|congruence| |].
  - intros b s. rewrite B3, A3, elem_of_cons. tauto.
  - intros x. destruct (A4 x) as (? & ? & ?), (B4 x) as (? & ? & ?). split_and!; congruence.
Qed.

Lemma associate_ip_record_spec h r ips :
  fwf h -> r ∈ live h -> snooped h (associate_ip_record h r ips) (fun s => s = r) ips.
Proof.
  intros F Hr. unfold associate_ip_record. pose proof (associate_loop_spec h r ips false F Hr) as S.
  destruct (associate_loop h r ips false) as [h1 [|]]; [|done]. destruct S as [S1 S2 S3 S4]. simpl in *.
  constructor; [|done|done|].
  - destruct S1 as [G ? ? ?]. constructor; try done. apply rec_upd_gwf; [done| |done|done].
    unfold live. rewrite S2. fold (live h). set_solver.
  - intros x. rewrite rec_at_upd. case_decide; [subst x; apply (S4 r)|apply S4].
Qed.

(** The records a DNS answer for [nm] may be filed under. *)
Definition hit h nm (s : Z) : Prop := name_lookup h nm = Some s /\ marked h s = false.

Lemma associate_if_live_spec h nm ips :
  fwf h -> snooped h (associate_if_live h nm ips) (hit h nm) ips.
Proof.
  intros F. unfold associate_if_live, hit. destruct (name_lookup h nm) as [r|] eqn:Hl.
  2: { apply snooped_refl; [done|]. by intros s [? _]. }
  pose proof (name_lookup_live _ _ _ Hl) as Hr.
  assert (Hfl : FLAGS_TEST (flag (rec_at h r)) (Z.lor FQDN_RECORD_TO_DELETE FQDN_RECORD_DELETED) = marked h r).
  { pose proof (gw_deleted _ (fw_gwf _ F) r) as Hd. rewrite (fw_names _ F), app_nil_r in Hd.
    specialize (Hd Hr). rewrite (bool_decide_false (r ∈ [])) in Hd by apply not_elem_of_nil.
    unfold deleted, FLAGS_TEST in Hd. apply negb_false_iff, Z.eqb_eq in Hd.
    unfold marked, FLAGS_TEST. by rewrite Z.land_lor_distr_r, Hd, Z.lor_0_r. }
  rewrite Hfl. destruct (marked h r) eqn:Hm.
  - apply snooped_refl; [done|]. intros s [[= ->] Hs]. congruence.
  - eapply snooped_iff, associate_ip_record_spec; [|done|done]. intros s.
    split; [by intros ->|by intros [[= ->] _]].
Qed.

(** The names looked up for an answer: the name itself and, for every dot before the
    last label, the wildcard name of the rest. *)
Fixpoint wildcards (n i : nat) (dname : list Z) : list (list Z) :=
  match n with
  | O => []
  | S n => (if decide (dname !! S i = Some DOT) then [STAR :: drop (S i) dname] else []) ++
           wildcards n (S i) dname
  end.
Definition snoop_names nm : list (list Z) :=
  let nm := to_lower <$> nm in
  let dname := take (MAX_FQDN_LEN - 1) nm in
  nm :: wildcards (last_dot (length dname - 2) dname - 1) 0 dname.

Lemma wildcard_loop_spec n i h dname ips :
  fwf h -> snooped h (wildcard_loop n i h dname ips)
             (fun s => exists m, m ∈ wildcards n i dname /\ hit h m s) ips.
Proof.
  revert i h. induction n as [|n IH]; intros i h F.
  { apply snooped_refl; [done|]. by intros s (m & []%elem_of_nil & _). }
  cbn [wildcard_loop wildcards]. case_decide.
  - pose proof (associate_if_live_spec h (STAR :: drop (S i) dname) ips F) as S1.
    pose proof (IH (S i) _ (sn_fwf _ _ _ _ S1)) as S2.
    eapply snooped_iff; [|by eapply snooped_trans]. intros s. cbn beta. unfold hit.
    setoid_rewrite (snooped_lookup _ _ _ _ _ S1). setoid_rewrite (snooped_marked _ _ _ _ _ S1).
    setoid_rewrite elem_of_app. setoid_rewrite list_elem_of_singleton. split.
    + intros [Hh|(m & Hm & Hh)]; [eexists; split; [by left|done]|eexists; split; [by right|done]].
    + intros (m & [->|Hm] & Hh); [by left|right; eauto].
  - by apply IH.
Qed.

Lemma snooped_mapping_sound h nm ips :
  fwf h -> snooped h (snooped_fqdn_ipv4_mapping h nm ips)
             (fun s => exists m, m ∈ snoop_names nm /\ hit h m s) ips.
Proof.
  intros F. unfold snooped_fqdn_ipv4_mapping, snoop_names.
  pose proof (associate_if_live_spec h (to_lower <$> nm) ips F) as S1.
  pose proof (wildcard_loop_spec (last_dot (length (take (MAX_FQDN_LEN - 1) (to_lower <$> nm)) - 2)
     (take (MAX_FQDN_LEN - 1) (to_lower <$> nm)) - 1) 0 _ (take (MAX_FQDN_LEN - 1) (to_lower <$> nm)) ips
     (sn_fwf _ _ _ _ S1)) as S2.
  eapply snooped_iff; [|by eapply snooped_trans]. intros s. cbn beta. unfold hit.
  setoid_rewrite (snooped_lookup _ _ _ _ _ S1). setoid_rewrite (snooped_marked _ _ _ _ _ S1).
  setoid_rewrite elem_of_cons. split.
  - intros [Hh|(m & Hm & Hh)]; [eexists; split; [by left|done]|eexists; split; [by right|done]].
  - intros (m & [->|Hm] & Hh); [by left|right; eauto].
Qed.

Lemma hdl_init_fwf : fwf dpi_fqdn_hdl_init.
Proof.
  assert (W : wf (bitmap_allocate DPI_FQDN_MAX_ENTRIES)) by (by apply bitmap_allocate_wf).
  assert (Hb : forall k, 0 <= k -> bit (bitmap_allocate DPI_FQDN_MAX_ENTRIES) k = false).
  { intros k ?. by apply bitmap_allocate_clear. }
  constructor; try done. constructor.
  - by constructor.
  - intros r. split; [by intros Hr%elem_of_nil|by intros [? ?]].
  - by intros e r He%elem_of_nil.
  - by constructor.
  - by intros r Hr%elem_of_nil.
  - simpl. unfold DPI_FQDN_DELETE_QLEN. lia.
  - simpl. unfold DPI_FQDN_DELETE_QLEN. lia.
  - constructor; [done|done|by intros|intros k Hk Hs; rewrite Hb in Hs by lia; done|by intros].
Qed.

Lemma mark_delete_fwf h nm : fwf h -> fwf (dpi_fqdn_entry_mark_delete h nm).
Proof.
  intros F. unfold dpi_fqdn_entry_mark_delete. destruct (name_lookup h nm) as [r|] eqn:Hl; [|done].
  apply (flag_upd_fwf (fun x => FLAGS_SET (flag x) FQDN_RECORD_TO_DELETE)); [done|by eapply name_lookup_live|].
  intros x. by rewrite flags_test_set, orb_false_r.
Qed.

Lemma config_mapping_fwf h nm a h' c :
  fwf h -> config_fqdn_ipv4_mapping h nm a = Some (h', c) -> fwf h'.
Proof.
  intros F. unfold config_fqdn_ipv4_mapping.
  destruct (config_fqdn_record_spec h nm F) as (h1 & o & -> & F1 & _ & _ & Ho). cbn [mbind option_bind].
  destruct o as [r|]; [|congruence]. destruct Ho as (Hr & _).
  destruct (a =? 0); [congruence|].
  destruct (add_ip_spec h1 r a F1 Hr) as (h2 & ret & nw & -> & [A1 _ _ _]). congruence.
Qed.

(** Configuring a name takes nothing away. *)
Lemma config_mono h nm a h' c b s :
  fwf h -> config_fqdn_ipv4_mapping h nm a = Some (h', c) -> assoc h b s ->
  assoc h' b s /\ code (rec_at h' s) = code (rec_at h s).
Proof.
  intros F E Ha. assert (Hs : s ∈ live h).
  { destruct Ha as (x & Hx & _ & Hr). pose proof (gw_rlist _ (fw_gwf _ F) x s Hx Hr) as Hl.
    by rewrite (fw_names _ F), app_nil_r in Hl. }
  revert E. unfold config_fqdn_ipv4_mapping.
  destruct (config_fqdn_record_spec h nm F) as (h1 & o & -> & F1 & Hm & Hrec & Ho). cbn [mbind option_bind].
  assert (Ha1 : assoc h1 b s) by (unfold assoc; by rewrite Hm). destruct (Hrec s Hs) as [Hc _].
  destruct o as [r|]; [|intros [= <- _]; done]. destruct Ho as (Hr & _).
  destruct (a =? 0); [intros [= <- _]; done|].
  destruct (add_ip_spec h1 r a F1 Hr) as (h2 & ret & nw & -> & [A1 A2 A3 A4]).
  intros [= <- _]. split; [apply A3; by left|]. destruct (A4 s) as (-> & _). done.
Qed.

Lemma config_total h nm a :
  fwf h -> exists h' c, config_fqdn_ipv4_mapping h nm a = Some (h', c) /\ fwf h'.
Proof.
  intros F. destruct (config_fqdn_ipv4_mapping h nm a) as [[h' c]|] eqn:E.
  { exists h', c. split; [done|]. by eapply config_mapping_fwf. }
  exfalso. revert E. unfold config_fqdn_ipv4_mapping.
  destruct (config_fqdn_record_spec h nm F) as (h1 & o & -> & _). cbn [mbind option_bind].
  destruct o as [r|]; [|done]. destruct (a =? 0); [done|]. by destruct (add_ip h1 r a) as [[? ?] ?].
Qed.

(** A table with the names "a.b.c" (address 7) and "*.b.c", the first one marked. *)
Definition name_abc : list Z := [97; 46; 98; 46; 99].
Definition name_star : list Z := [42; 46; 98; 46; 99].
Definition sample : fqdn_hdl :=
  match config_fqdn_ipv4_mapping dpi_fqdn_hdl_init name_abc 7 with
  | Some (h, _) =>
      match config_fqdn_ipv4_mapping h name_star 0 with
      | Some (h, _) => h
      | None => h
      end
  | None => dpi_fqdn_hdl_init
  end.
Definition sample_marked : fqdn_hdl := dpi_fqdn_entry_mark_delete sample name_abc.

Lemma sample_fwf : fwf sample.
Proof.
  unfold sample. pose proof hdl_init_fwf as F.
  destruct (config_fqdn_ipv4_mapping dpi_fqdn_hdl_init name_abc 7) as [[h c]|] eqn:E; [|done].
  apply config_mapping_fwf in E; [|done].
  destruct (config_fqdn_ipv4_mapping h name_star 0) as [[h' c']|] eqn:E'; [|done].
  by apply config_mapping_fwf in E'.
Qed.

(** ** Claims *)

(** Configuring a name, with or without an address, keeps the tables well formed and
    the existing names, codes and associations; it returns the code of a record no
    other name has, the mark for deletion is withdrawn, the address is associated
    with it, and a name short enough for the record is found under it from then on.
    It returns -1 only for a new name when every code is in use. *)
Theorem config_fqdn_ipv4_mapping_spec (h : fqdn_hdl) (nm : list Z) (a : Z) :
  fwf h ->
  exists h' c, config_fqdn_ipv4_mapping h nm a = Some (h', c) /\ fwf h' /\
    (forall b s, assoc h b s -> assoc h' b s) /\
    (forall r, r ∈ live h -> r ∈ live h' /\ code (rec_at h' r) = code (rec_at h r)) /\
    (c = u32 (-1) /\ name_lookup h nm = None /\ live h' = live h /\
       (forall k, 0 <= k < DPI_FQDN_MAX_ENTRIES ->
          exists r, r ∈ live h /\ code (rec_at h r) = htonl (k + 1)) \/
     exists r, r ∈ live h' /\ c = code (rec_at h' r) /\ c <> u32 (-1) /\ marked h' r = false /\
       (forall s, s ∈ live h' -> code (rec_at h' s) = c -> s = r) /\
       (a <> 0 -> assoc h' a r) /\
       ((length nm < MAX_FQDN_LEN)%nat -> name_lookup h' nm = Some r)).
Proof.
  intros F. unfold config_fqdn_ipv4_mapping.
  destruct (config_fqdn_record_spec h nm F) as (h1 & o & -> & F1 & Hm1 & Hrec & Ho). cbn [mbind option_bind].
  assert (Has : forall b s, assoc h1 b s <-> assoc h b s) by (intros; unfold assoc; by rewrite Hm1).
  destruct o as [r|].
  2: { destruct Ho as (Hl & Hlive & Hall). exists h1, (u32 (-1)). rewrite Hlive.
       split_and!; [done|done|intros; by apply Has|intros r Hr; split; [done|by apply Hrec]|].
       left. split_and!; [done|done|done|]. intros k Hk. pose proof F as [G Hn _ _].
       destruct (co_used _ _ (gw_codes _ G) k Hk (Hall k Hk)) as (r & x & Hx & Hc).
       exists r. unfold rec_at. rewrite Hx. split; [|done].
       pose proof (proj2 (gw_recs _ G r) (mk_is_Some _ _ Hx)) as Hr. by rewrite Hn, app_nil_r in Hr. }
  destruct Ho as (Hr & Hlive & Hm & Hc & _ & Hl).
  assert (Huniq : forall h' s, fwf h' -> s ∈ live h' -> r ∈ live h' ->
            code (rec_at h' s) = code (rec_at h' r) -> s = r).
  { intros h' s [G Hn _ _] Hs Hr' He. destruct (proj1 (gw_recs _ G s)) as [x Hx]; [set_solver|].
    destruct (proj1 (gw_recs _ G r)) as [y Hy]; [set_solver|].
    unfold rec_at in He. rewrite Hx, Hy in He. by eapply (co_inj _ _ (gw_codes _ G)). }
  destruct (Z.eqb_spec a 0) as [->|Ha].
  - exists h1, (code (rec_at h1 r)). split_and!; [done|done|intros; by apply Has| |].
    { intros s Hs. split; [apply Hlive; by left|by apply Hrec]. }
    right. exists r. split_and!; try done. intros s Hs. by apply Huniq.
  - destruct (add_ip_spec h1 r a F1 Hr) as (h2 & ret & nw & -> & [A1 A2 A3 A4]).
    assert (Hl2 : live h2 = live h1) by (unfold live; by rewrite A2).
    exists h2, (code (rec_at h2 r)). destruct (A4 r) as (Hcr & _ & Hfr).
    split_and!; [done|done|intros; apply A3; left; by apply Has| |].
    { intros s Hs. rewrite Hl2. destruct (A4 s) as (-> & _ & _). split; [apply Hlive; by left|by apply Hrec]. }
    right. exists r. rewrite Hl2. split_and!; [done|done|congruence|unfold marked; by rewrite Hfr| | |].
    + intros s Hs. apply Huniq; rewrite ?Hl2; done.
    + intros _. apply A3. by right.
    + intros Hlen. rewrite <- Hl by done. apply name_lookup_ext; [done|]. intros s _. apply A4.
Qed.

(** A snooped DNS answer associates its addresses with exactly the records, not
    marked for deletion, of the name in lower case and of its wildcard names; the
    names and the existing associations are kept and the tables stay well formed. *)
Theorem snooped_fqdn_ipv4_mapping_spec (h : fqdn_hdl) (nm ips : list Z) :
  fwf h ->
  let h' := snooped_fqdn_ipv4_mapping h nm ips in
  fwf h' /\ fqdn_name_map h' = fqdn_name_map h /\
  (forall r, code (rec_at h' r) = code (rec_at h r) /\ marked h' r = marked h r) /\
  forall b s, assoc h' b s <->
    assoc h b s \/
    (b ∈ ips /\ exists m, m ∈ snoop_names nm /\ name_lookup h m = Some s /\ marked h s = false).
Proof.
  intros F h'. pose proof (snooped_mapping_sound h nm ips F) as S.
  split_and!; [apply S|apply S| |apply S].
  intros r. split; [apply S|by eapply snooped_marked].
Qed.

(** C32: Deleting the marked names ends, within the fuel given by the number of names; it
    keeps exactly the names that were not marked, with their codes and names, and
    exactly the associations with them; no deleted record is left anywhere, and
    every code of a deleted name can be given out again. *)
Theorem dpi_fqdn_entry_delete_marked_spec (h : fqdn_hdl) :
  fwf h ->
  exists h', dpi_fqdn_entry_delete_marked h = Some h' /\ fwf h' /\
    (forall r, r ∈ live h' <-> r ∈ live h /\ marked h r = false) /\
    (forall r, r ∈ live h' -> code (rec_at h' r) = code (rec_at h r) /\
                              name (rec_at h' r) = name (rec_at h r)) /\
    (forall a r, assoc h' a r <-> assoc h a r /\ marked h r = false) /\
    (forall k, 0 <= k < DPI_FQDN_MAX_ENTRIES ->
       bit (bm h') k = true <-> exists r, r ∈ live h' /\ code (rec_at h' r) = htonl (k + 1)).
Proof.
  intros F. unfold dpi_fqdn_entry_delete_marked.
  destruct (delete_marked_spec (S (length (fqdn_name_map h))) h F) as (h' & -> & [W Hsub Hkeep Hrec Has] & Hun);
    [lia|].
  assert (Hlive : forall r, r ∈ live h' <-> r ∈ live h /\ marked h r = false).
  { intros r. split; [intros Hr; by split; [apply Hsub|apply Hun]|intros []; by apply Hkeep]. }
  assert (Hr : forall x r, fwf x -> r ∈ live x <-> is_Some (records x !! r)).
  { intros x r [G Hn _ _]. by rewrite <- (gw_recs _ G r), Hn, app_nil_r. }
  exists h'. split_and!; [done|done|done|intros r; apply Hrec| |].
  - intros a r. rewrite Has, Hlive. split; [tauto|]. intros [Ha Hm]. split_and!; [done| |done].
    destruct Ha as (e & He & _ & Hin). pose proof (gw_rlist _ (fw_gwf _ F) e r He Hin) as Hl.
    by rewrite (fw_names _ F), app_nil_r in Hl.
  - intros k Hk. destruct W as [G Hn Hi Hrl]. split.
    + intros Hb. destruct (co_used _ _ (gw_codes _ G) k Hk Hb) as (r & x & Hx & Hc).
      exists r. split; [apply Hr; [by constructor|by eexists]|]. unfold rec_at. by rewrite Hx.
    + intros (r & Hin & Hc). apply Hr in Hin as [x Hx]; [|by constructor].
      unfold rec_at in Hc. rewrite Hx in Hc. simpl in Hc.
      destruct (co_code _ _ (gw_codes _ G) r x Hx) as (k' & Hk' & Hc' & Hb').
      rewrite Hc in Hc'. apply (f_equal ntohl) in Hc'. unfold DPI_FQDN_MAX_ENTRIES in *.
      rewrite !ntohl_htonl in Hc' by (unfold is_u32; lia). by replace k with k' by lia.
Qed.

(** *** Witnesses *)

Lemma config_fqdn_ipv4_mapping_witness :
  exists h' c, config_fqdn_ipv4_mapping dpi_fqdn_hdl_init name_abc 7 = Some (h', c) /\
    fwf h' /\ c = htonl 1.
Proof.
  destruct (config_fqdn_ipv4_mapping_spec dpi_fqdn_hdl_init name_abc 7 hdl_init_fwf)
    as (h' & c & E & F & _).
  exists h', c. split; [exact E|]. split; [exact F|].
  assert (snd <$> config_fqdn_ipv4_mapping dpi_fqdn_hdl_init name_abc 7 = Some (htonl 1))
    as Hc by (vm_compute; reflexivity).
  rewrite E in Hc. simpl in Hc. congruence.
Defined.

(** An answer for "A.b.c" reaches both names. *)
Lemma snooped_fqdn_ipv4_mapping_witness :
  let h' := snooped_fqdn_ipv4_mapping sample [65; 46; 98; 46; 99] [9] in
  fwf h' /\ forall r, r ∈ live sample -> assoc h' 9 r.
Proof.
  destruct (snooped_fqdn_ipv4_mapping_spec sample [65; 46; 98; 46; 99] [9] sample_fwf) as (F & _ & _ & Has).
  split; [exact F|]. intros r Hr. apply Has. right. split; [left|].
  assert (Hl : live sample = [0; 1]) by (vm_compute; reflexivity). rewrite Hl in Hr.
  apply elem_of_cons in Hr as [Hr|Hr%list_elem_of_singleton]; subst r.
  - exists name_abc. split; [|split; vm_compute; reflexivity].
    assert (snoop_names [65; 46; 98; 46; 99] = [name_abc; name_star]) as -> by (vm_compute; reflexivity).
    left.
  - exists name_star. split; [|split; vm_compute; reflexivity].
    assert (snoop_names [65; 46; 98; 46; 99] = [name_abc; name_star]) as -> by (vm_compute; reflexivity).
    right. left.
Defined.

Lemma dpi_fqdn_entry_delete_marked_witness :
  exists h', dpi_fqdn_entry_delete_marked sample_marked = Some h' /\ fwf h' /\ live h' = [1] /\
    fqdn_ipv4_map h' = [].
Proof.
  destruct (dpi_fqdn_entry_delete_marked_spec sample_marked (mark_delete_fwf _ _ sample_fwf))
    as (h' & E & F & _).
  exists h'. split; [exact E|]. split; [exact F|].
  assert ((fun h => (live h, fqdn_ipv4_map h)) <$> dpi_fqdn_entry_delete_marked sample_marked =
          Some ([1], [])) as Hc by (vm_compute; reflexivity).
  rewrite E in Hc. simpl in Hc. split; congruence.
Defined.

End Fqdn.
