(* ===== verification/PolicyRules.v ===== *)
(** * Policy rules: the tables of dpi/dpi_policy.c and the lookup by key

    A policy handle holds exact rules, keyed by the whole rule key, and range rules,
    grouped by protocol, direction and own address and kept in the order they were
    added.  Rules are added in the order of their priority: an exact rule only when
    the lookup of its key finds nothing yet, a range rule unless the same range is
    there.  A lookup tries the peer under several addresses: its own, the codes of
    its domain names, and 0 for any address outside the cluster.

    The tables are lists in insertion order, a lookup takes the first node that
    matches.  The subnets of the thread and the domain-name table are arguments.
    Memory allocation succeeds. *)

From S2P Require Import Prelude Helper Fqdn.
Import Helper.Bytes.

Module PolicyRules.

Definition DP_POLICY_ACTION_OPEN : Z := 0.
Definition DP_POLICY_ACTION_LEARN : Z := 1.
Definition DP_POLICY_ACTION_ALLOW : Z := 2.
Definition DP_POLICY_ACTION_CHECK_APP : Z := 3.
Definition DP_POLICY_ACTION_VIOLATE : Z := 4.
Definition DP_POLICY_ACTION_DENY : Z := 5.
Definition DP_POLICY_APPLY_EGRESS : Z := 1.
Definition DP_POLICY_APPLY_INGRESS : Z := 2.
Definition DP_POLICY_APP_UNKNOWN : Z := 4294967295.

Definition DP_IPTYPE_NONE : Z := 0.
Definition DP_IPTYPE_TUNNELIP : Z := 1.
Definition DP_IPTYPE_SVCIP : Z := 2.
Definition DP_IPTYPE_HOSTIP : Z := 3.
Definition DP_IPTYPE_DEVIP : Z := 4.
Definition DP_IPTYPE_UWLIP : Z := 5.
Definition DP_IPTYPE_EXTIP : Z := 6.

Definition POLICY_DESC_CHECK_VER : Z := 1.
Definition POLICY_DESC_INTERNAL : Z := 2.
Definition POLICY_DESC_EXTERNAL : Z := 4.
Definition POLICY_DESC_TUNNEL : Z := 8.
Definition POLICY_DESC_UNKNOWN_IP : Z := 16.
Definition POLICY_DESC_SVC_EXTIP : Z := 32.
Definition POLICY_DESC_HOSTIP : Z := 64.

Definition POLICY_HDL_FLAG_FQDN : Z := 1.
Definition DEFAULT_ICMP_PASS_POLICY_ID : Z := 0.
Definition IPPROTO_ICMP : Z := 1.
Definition IPPROTO_TCP : Z := 6.
Definition IPPROTO_UDP : Z := 17.
Definition MAX_ORDER : Z := 4294967295.

(** *** Data *)

Record dpi_rule_key := Key { sip : Z; dip : Z; dport : Z; proto : Z; app : Z }.
#[export] Instance eta_key : Eta dpi_rule_key :=
  fun k => Key (sip k) (dip k) (dport k) (proto k) (app k).
#[export] Instance key_eq_dec : EqDecision dpi_rule_key.
Proof. solve_decision. Defined.

Record dpi_policy_desc := Desc { id : Z; action : Z; flags : Z; hdl_ver : Z; order : Z }.
#[export] Instance eta_desc : Eta dpi_policy_desc :=
  fun d => Desc (id d) (action d) (flags d) (hdl_ver d) (order d).
#[export] Instance desc_eq_dec : EqDecision dpi_policy_desc.
Proof. solve_decision. Defined.
Definition desc_zero : dpi_policy_desc := Desc 0 0 0 0 0.

Record dpi_rule := Rule { rule_desc : dpi_policy_desc; rule_key : dpi_rule_key }.

(** `flag` of a range key: 0 for no direction. *)
Definition DP_RANGE_RULE_INGRESS : Z := 1.
Definition DP_RANGE_RULE_EGRESS : Z := 2.
Record dpi_range_rule_key := RKey { rk_ip : Z; rk_proto : Z; rk_flag : Z }.
#[export] Instance rkey_eq_dec : EqDecision dpi_range_rule_key.
Proof. solve_decision. Defined.

Record dpi_range_rule_item := Item {
  item_desc : dpi_policy_desc; key_l : dpi_rule_key; key_h : dpi_rule_key
}.
Record dpi_range_rule := RRule { rr_key : dpi_range_rule_key; range_rule_list : list dpi_range_rule_item }.

Record dpi_policy_hdl := Hdl {
  ref_cnt : Z;          (** uint16_t *)
  ver : Z;              (** uint16_t *)
  policy_map : list dpi_rule;
  range_policy_map : list dpi_range_rule;
  def_action : Z;
  apply_dir : Z;
  flag : Z
}.
#[export] Instance eta_hdl : Eta dpi_policy_hdl := fun h =>
  Hdl (ref_cnt h) (ver h) (policy_map h) (range_policy_map h) (def_action h) (apply_dir h) (flag h).

(** POLICY_RULE_DIR_* *)
Inductive rule_dir := DIR_EGRESS | DIR_INGRESS | DIR_NONE.
#[export] Instance dir_eq_dec : EqDecision rule_dir.
Proof. solve_decision. Defined.

(** The address tables of the thread ([None]: NULL) and the domain-name table. *)
Record env := Env {
  internal_subnet4 : option (list (Z * Z));
  specialip_subnet4 : option (list (Z * Z * Z));
  policy_addr : option (list (Z * Z));
  fqdn_hdl : Fqdn.fqdn_hdl
}.
#[export] Instance eta_env : Eta env := fun e =>
  Env (internal_subnet4 e) (specialip_subnet4 e) (policy_addr e) (fqdn_hdl e).

Implicit Types (h : dpi_policy_hdl) (k : dpi_rule_key) (d desc : dpi_policy_desc) (e : env).

(** *** Kinds of addresses (dpi/dpi_entry.c) *)

Definition dpi_is_ip4_internal e (ip : Z) : bool :=
  match internal_subnet4 e with
  | None => true
  | Some l =>
      if decide (length l = O) then true
      else existsb (fun '(net, mask) => Z.land ip mask =? net) l
  end.

Definition dpi_ip4_iptype e (ip : Z) : Z :=
  match specialip_subnet4 e with
  | None => DP_IPTYPE_NONE
  | Some l =>
      match find_first (fun '(net, mask, _) => Z.land ip mask =? net) l with
      | Some (_, _, t) => t
      | None => DP_IPTYPE_NONE
      end
  end.

Definition dpi_is_policy_addr e (ip : Z) : bool :=
  match policy_addr e with
  | None => false
  | Some l => existsb (fun '(a, _) => Z.lxor ip a =? 0) l
  end.

(** *** Lookup *)

Definition rule_match (r : dpi_rule) k : bool := bool_decide (rule_key r = k).
Definition range_rule_match (r : dpi_range_rule) (rk : dpi_range_rule_key) : bool :=
  bool_decide (rr_key r = rk).

Definition IS_X_IN_RANGE (x y z : Z) : bool := (y <=? x) && (x <=? z).
Definition rule_key_in_range (item : dpi_range_rule_item) k : bool :=
  IS_X_IN_RANGE (dport k) (dport (key_l item)) (dport (key_h item)) &&
  IS_X_IN_RANGE (ntohl (sip k)) (ntohl (sip (key_l item))) (ntohl (sip (key_h item))) &&
  IS_X_IN_RANGE (ntohl (dip k)) (ntohl (dip (key_l item))) (ntohl (dip (key_h item))) &&
  IS_X_IN_RANGE (app k) (app (key_l item)) (app (key_h item)).

Definition dpi_range_rule_match (r : dpi_range_rule) k : option dpi_range_rule_item :=
  find_first (fun item => rule_key_in_range item k) (range_rule_list r).

Definition range_lookup h (rk : dpi_range_rule_key) : option dpi_range_rule :=
  find_first (fun r => range_rule_match r rk) (range_policy_map h).

Definition _dpi_policy_lookup_by_key h k (is_ingress : bool) : dpi_policy_desc :=
  match find_first (fun r => rule_match r k) (policy_map h) with
  | Some r => rule_desc r
  | None =>
      let key2 := if is_ingress then RKey (dip k) (proto k) DP_RANGE_RULE_INGRESS
                  else RKey (sip k) (proto k) DP_RANGE_RULE_EGRESS in
      match (r2 ← range_lookup h key2; dpi_range_rule_match r2 k) with
      | Some item => item_desc item
      | None =>
          let key2 := RKey 0 (proto k) 0 in
          match (r2 ← range_lookup h key2; dpi_range_rule_match r2 k) with
          | Some item => item_desc item
          | None => Desc 0 (u8 (def_action h)) POLICY_DESC_CHECK_VER 0 MAX_ORDER
          end
      end
  end.

Definition policy_desc_merge (desc1 desc2 : dpi_policy_desc) : dpi_policy_desc :=
  if (0 <? id desc2) && (order desc2 <? order desc1) then desc2 else desc1.

(** The loop over the records of the address: the count, the merged description and
    the key as it is left. *)
Fixpoint match_codes h k (is_ingress : bool) (codes : list Z) (i : Z) (desc2 : dpi_policy_desc)
    : Z * dpi_policy_desc * dpi_rule_key :=
  match codes with
  | [] => (i, desc2, k)
  | c :: codes =>
      if negb (c =? 0) then
        let k := if is_ingress then k <| sip := c |> else k <| dip := c |> in
        let desc3 := _dpi_policy_lookup_by_key h k is_ingress in
        let desc2 := if i =? 0 then desc3 else policy_desc_merge desc2 desc3 in
        match_codes h k is_ingress codes (i + 1) desc2
      else match_codes h k is_ingress codes i desc2
  end.

Definition policy_match_ipv4_fqdn_code (fq : Fqdn.fqdn_hdl) (ip : Z) h k (is_ingress : bool)
    (desc2 : dpi_policy_desc) : Z * dpi_policy_desc * dpi_rule_key :=
  match Fqdn.ipv4_lookup fq ip with
  | None => (0, desc2, k)
  | Some entry => match_codes h k is_ingress
                    ((fun r => Fqdn.code (Fqdn.rec_at fq r)) <$> Fqdn.rlist entry) 0 desc2
  end.

Definition DPI_POLICY_HAS_FQDN h : bool := FLAGS_TEST (flag h) POLICY_HDL_FLAG_FQDN.

(** The lookups of a packet that is subject to the rules, written out twice in the
    source, for ingress and egress: the key as it is, with the codes of the peer, and
    with 0 for an external peer. *)
Definition lookup_codes e h k (is_ingress : bool) (peer : Z) : dpi_policy_desc * dpi_rule_key :=
  let desc := _dpi_policy_lookup_by_key h k is_ingress in
  if DPI_POLICY_HAS_FQDN h then
    let '(rt, desc2, k) := policy_match_ipv4_fqdn_code (fqdn_hdl e) peer h k is_ingress desc_zero in
    (if 0 <? rt then policy_desc_merge desc desc2 else desc, k)
  else (desc, k).
Definition lookup_merged e h k (is_ingress is_internal : bool) (peer : Z) : dpi_policy_desc :=
  let '(desc, k) := lookup_codes e h k is_ingress peer in
  if negb is_internal then
    let k := if is_ingress then k <| sip := 0 |> else k <| dip := 0 |> in
    let desc2 := _dpi_policy_lookup_by_key h k is_ingress in
    (policy_desc_merge desc desc2) <| flags ::= fun f => Z.lor f POLICY_DESC_EXTERNAL |>
  else desc <| flags ::= fun f => Z.lor f POLICY_DESC_INTERNAL |>.

(** [desc] is updated in place. *)
Definition dpi_policy_lookup_by_key e (hdl : option dpi_policy_hdl) (sip_ dip_ dport_ proto_ app_ : Z)
    (is_ingress : bool) desc : dpi_policy_desc :=
  match hdl with
  | None =>
      let peer := if is_ingress then sip_ else dip_ in
      desc <| id := 0 |> <| action := DP_POLICY_ACTION_OPEN |>
           <| flags := Z.lor POLICY_DESC_CHECK_VER
                         (if dpi_is_ip4_internal e peer then POLICY_DESC_INTERNAL
                          else POLICY_DESC_EXTERNAL) |>
           <| hdl_ver := 0 |>
  | Some h =>
      let k := Key sip_ dip_ dport_ proto_ app_ in
      let desc :=
        if is_ingress then
          let is_internal := dpi_is_ip4_internal e (sip k) in
          let iptype := dpi_ip4_iptype e (sip k) in
          if is_internal && negb (FLAGS_TEST (apply_dir h) DP_POLICY_APPLY_INGRESS) &&
             negb (iptype =? DP_IPTYPE_UWLIP)
          then
            desc <| id := 0 |> <| action := DP_POLICY_ACTION_OPEN |>
                 <| flags := Z.lor POLICY_DESC_INTERNAL
                               (if iptype =? DP_IPTYPE_TUNNELIP then POLICY_DESC_TUNNEL
                                else if iptype =? DP_IPTYPE_HOSTIP then POLICY_DESC_HOSTIP else 0) |>
          else lookup_merged e h k true is_internal sip_
        else
          let is_internal := dpi_is_ip4_internal e (dip k) in
          let iptype := dpi_ip4_iptype e (dip k) in
          if negb is_internal && (iptype =? DP_IPTYPE_EXTIP) then
            desc <| id := 0 |>
                 <| action := if def_action h =? DP_POLICY_ACTION_DENY then DP_POLICY_ACTION_DENY
                              else DP_POLICY_ACTION_VIOLATE |>
                 <| flags ::= fun f => Z.lor (Z.lor f POLICY_DESC_EXTERNAL) POLICY_DESC_SVC_EXTIP |>
                 <| order := MAX_ORDER |>
          else if is_internal && negb (FLAGS_TEST (apply_dir h) DP_POLICY_APPLY_EGRESS) &&
                  negb (iptype =? DP_IPTYPE_HOSTIP) && negb (iptype =? DP_IPTYPE_UWLIP)
          then
            desc <| id := 0 |> <| action := DP_POLICY_ACTION_OPEN |> <| flags := POLICY_DESC_INTERNAL |>
          else lookup_merged e h k false is_internal dip_ in
      desc <| hdl_ver := ver h |>
  end.

(** *** Adding rules

    The counters th_counter.type1_rules and type2_rules go with the handle. *)

Record counters := Cnt { type1_rules : Z; type2_rules : Z }.
#[export] Instance eta_counters : Eta counters := fun c => Cnt (type1_rules c) (type2_rules c).

(** What the functions below change: the handle and the counters. *)
Record pstate := PState { hdl : dpi_policy_hdl; th_counter : counters }.
#[export] Instance eta_pstate : Eta pstate := fun s => PState (hdl s) (th_counter s).
Implicit Types (s : pstate) (dir : rule_dir).

(** [None]: -1 *)
Definition get_range_key (kl kh : dpi_rule_key) dir : option dpi_range_rule_key :=
  if negb (proto kl =? proto kh) then None
  else Some (match dir with
             | DIR_INGRESS => RKey (dip kl) (proto kl) DP_RANGE_RULE_INGRESS
             | DIR_EGRESS => RKey (sip kl) (proto kl) DP_RANGE_RULE_EGRESS
             | DIR_NONE => RKey 0 (proto kl) 0
             end).

(** Writes the list of the first range rule with the key. *)
Fixpoint range_store (rk : dpi_range_rule_key) (items : list dpi_range_rule_item)
    (l : list dpi_range_rule) : list dpi_range_rule :=
  match l with
  | [] => []
  | r :: l => if range_rule_match r rk then RRule (rr_key r) items :: l
              else r :: range_store rk items l
  end.

Definition same_range (kl kh : dpi_rule_key) (it : dpi_range_rule_item) : bool :=
  bool_decide (key_l it = kl) && bool_decide (key_h it = kh).

(** Result, state and `*exist_desc`. *)
Definition dpi_range_rule_add s (kl kh : dpi_rule_key) dir desc (exist_desc : dpi_policy_desc)
    : Z * pstate * dpi_policy_desc :=
  match get_range_key kl kh dir with
  | None => (-1, s, exist_desc)
  | Some key =>
      let s := match range_lookup (hdl s) key with
               | Some _ => s
               | None => s <| hdl ::= fun h => h <| range_policy_map ::= fun l => l ++ [RRule key []] |> |>
               end in
      let items := match range_lookup (hdl s) key with
                   | Some r => range_rule_list r | None => [] end in
      match find_first (same_range kl kh) items with
      | Some p => (0, s, item_desc p)
      | None =>
          (1, s <| hdl ::= fun h => h <| range_policy_map ::=
                     range_store key (items ++ [Item desc kl kh]) |> |>
                <| th_counter ::= fun c => c <| type2_rules ::= fun n => u32 (n + 1) |> |>,
           exist_desc)
      end
  end.

Definition dpi_rule_add_one e s (kl : dpi_rule_key) (kh : option dpi_rule_key) dir desc
    (exist_desc : dpi_policy_desc) : Z * pstate * dpi_policy_desc :=
  match kh with
  | None =>
      let exist_desc := dpi_policy_lookup_by_key e (Some (hdl s)) (sip kl) (dip kl) (dport kl)
                          (proto kl) (app kl) (bool_decide (dir = DIR_INGRESS)) exist_desc in
      if negb (id exist_desc =? 0) then (0, s, exist_desc)
      else (1, s <| hdl ::= fun h => h <| policy_map ::= fun l => l ++ [Rule desc kl] |> |>
                 <| th_counter ::= fun c => c <| type1_rules ::= fun n => u32 (n + 1) |> |>, exist_desc)
  | Some kh => dpi_range_rule_add s kl kh dir desc exist_desc
  end.

Record dpi_policy_app_rule := AppRule { rule_id : Z; rule_app : Z; rule_action : Z }.

(** Also returns the keys: `key_l->app` and `key_h->app` are written. *)
Definition dpi_add_app_rule e s (kl : dpi_rule_key) (kh : option dpi_rule_key)
    (app_rule : dpi_policy_app_rule) dir desc (exist_desc : dpi_policy_desc)
    : Z * pstate * dpi_policy_desc * dpi_rule_key * option dpi_rule_key :=
  let kl := kl <| app := rule_app app_rule |> in
  let any := app kl =? 0 in
  let kh := if negb any then (fun k => k <| app := app kl |>) <$> kh
            else (fun k => k <| app := DP_POLICY_APP_UNKNOWN |>) <$> kh in
  let key := match kh with
             | None => if any then Some (kl <| app := DP_POLICY_APP_UNKNOWN |>) else None
             | Some k => Some k
             end in
  let app_desc := Desc (rule_id app_rule) (rule_action app_rule) (flags desc) 0 (order desc) in
  let '(ret, s, exist_desc) := dpi_rule_add_one e s kl key dir app_desc exist_desc in
  (ret, s, exist_desc, kl, kh).

(** `for (i = 0; i < app_num; i++)` *)
Fixpoint add_app_rules e s (kl : dpi_rule_key) (kh : option dpi_rule_key)
    (app_rules : list dpi_policy_app_rule) dir desc (exist_desc : dpi_policy_desc) (ret : Z)
    : Z * pstate :=
  match app_rules with
  | [] => (ret, s)
  | a :: app_rules =>
      let '(one, s, exist_desc, kl, kh) := dpi_add_app_rule e s kl kh a dir desc exist_desc in
      add_app_rules e s kl kh app_rules dir desc exist_desc (if one =? 1 then ret + 1 else ret)
  end.

(** The result, the state and the two keys as they are left. *)
Definition dpi_rule_add e s (kl : dpi_rule_key) (kh : option dpi_rule_key)
    (app_rules : list dpi_policy_app_rule) dir desc
    : Z * pstate * dpi_rule_key * option dpi_rule_key :=
  let '(ret, s, exist_desc) := dpi_rule_add_one e s kl kh dir desc desc_zero in
  if ret <? 0 then (ret, s, kl, kh)
  else
    let exists_ := (ret =? 0) && (0 <? id exist_desc) in
    if exists_ && negb (action exist_desc =? DP_POLICY_ACTION_CHECK_APP) then (ret, s, kl, kh)
    else
      let '(ret, s, exist_desc, kl, kh) :=
        if exists_ && negb (action desc =? DP_POLICY_ACTION_CHECK_APP)
        then dpi_add_app_rule e s kl kh (AppRule (id desc) 0 (action desc)) dir desc exist_desc
        else (ret, s, exist_desc, kl, kh) in
      match app_rules with
      | [] => (ret, s, kl, kh)
      | _ => let '(ret, s) := add_app_rules e s kl kh app_rules dir desc exist_desc ret in
             (ret, s, kl <| app := 0 |>, (fun k => k <| app := 0 |>) <$> kh)
      end.

(** Allow all ICMP traffic. *)
Definition dpi_add_default_policy e s : pstate :=
  let kl := Key 0 0 0 IPPROTO_ICMP 0 in
  let kh := Key 0xffffffff 0xffffffff 0 IPPROTO_ICMP 0 in
  let desc := Desc DEFAULT_ICMP_PASS_POLICY_ID DP_POLICY_ACTION_ALLOW 0 0 MAX_ORDER in
  let '(_, s, _, _) := dpi_rule_add e s kl (Some kh) [] DIR_NONE desc in s.

(** ** The tables as finite functions *)

Definition exact_find h k : option dpi_policy_desc :=
  rule_desc <$> find_first (fun r => rule_match r k) (policy_map h).
Definition range_items h (rk : dpi_range_rule_key) : list dpi_range_rule_item :=
  match range_lookup h rk with Some r => range_rule_list r | None => [] end.
Definition range_find h rk k : option dpi_policy_desc :=
  item_desc <$> find_first (fun it => rule_key_in_range it k) (range_items h rk).

(** The address and the range key of the workload's own side, and the peer's side. *)
Definition own (ing : bool) k : Z := if ing then dip k else sip k.
Definition own_key (ing : bool) k : dpi_range_rule_key :=
  RKey (own ing k) (proto k) (if ing then DP_RANGE_RULE_INGRESS else DP_RANGE_RULE_EGRESS).
Definition none_key k : dpi_range_rule_key := RKey 0 (proto k) 0.
Definition peer (ing : bool) k : Z := if ing then sip k else dip k.
Definition set_peer (ing : bool) k (a : Z) : dpi_rule_key :=
  if ing then k <| sip := a |> else k <| dip := a |>.

Definition raw_find h k (ing : bool) : option dpi_policy_desc :=
  match exact_find h k with
  | Some d => Some d
  | None => match range_find h (own_key ing k) k with
            | Some d => Some d
            | None => range_find h (none_key k) k
            end
  end.
Definition default_desc h : dpi_policy_desc :=
  Desc 0 (u8 (def_action h)) POLICY_DESC_CHECK_VER 0 MAX_ORDER.

Lemma lookup_raw h k ing :
  _dpi_policy_lookup_by_key h k ing = default (default_desc h) (raw_find h k ing).
Proof.
  unfold _dpi_policy_lookup_by_key, raw_find, exact_find.
  destruct (find_first _ (policy_map h)); [done|]. simpl.
  assert (Hr : forall rk, item_desc <$> (r2 ← range_lookup h rk; dpi_range_rule_match r2 k) =
                     range_find h rk k).
  { intros rk. unfold range_find, range_items. by destruct (range_lookup h rk). }
  assert (Hk : (if ing then RKey (dip k) (proto k) DP_RANGE_RULE_INGRESS
                else RKey (sip k) (proto k) DP_RANGE_RULE_EGRESS) = own_key ing k) by by destruct ing.
  rewrite Hk, <- !Hr. unfold none_key.
  destruct (_ ← range_lookup h (own_key ing k); _); [done|]. simpl.
  by destruct (_ ← range_lookup h (RKey 0 (proto k) 0); _).
Qed.

(** *** Range rules *)

Lemma range_store_items h rk items rk' :
  is_Some (range_lookup h rk) ->
  range_items (h <| range_policy_map ::= range_store rk items |>) rk' =
  if decide (rk = rk') then items else range_items h rk'.
Proof.
  unfold range_items, range_lookup. simpl. unfold range_rule_match.
  induction (range_policy_map h) as [|r l IH]; [by intros [? ?]|]. simpl. unfold range_rule_match.
  intros Hs. repeat case_bool_decide; simplify_eq; simpl;
    rewrite ?bool_decide_eq_true_2, ?bool_decide_eq_false_2 by done;
    repeat case_decide; simplify_eq; try done; rewrite IH, ?decide_False, ?decide_True by done; done.
Qed.

(** Adding a range rule appends it to the list of its key, unless it is there. *)
Lemma range_add_spec s kl kh dir desc ex rk :
  get_range_key kl kh dir = Some rk ->
  exists ret s' ex', dpi_range_rule_add s kl kh dir desc ex = (ret, s', ex') /\
    policy_map (hdl s') = policy_map (hdl s) /\ def_action (hdl s') = def_action (hdl s) /\
    apply_dir (hdl s') = apply_dir (hdl s) /\ flag (hdl s') = flag (hdl s) /\
    ver (hdl s') = ver (hdl s) /\ ref_cnt (hdl s') = ref_cnt (hdl s) /\
    (forall rk', range_items (hdl s') rk' =
       if decide (rk = rk') then
         if existsb (same_range kl kh) (range_items (hdl s) rk) then range_items (hdl s) rk
         else range_items (hdl s) rk ++ [Item desc kl kh]
       else range_items (hdl s) rk') /\
    match find_first (same_range kl kh) (range_items (hdl s) rk) with
    | Some p => ret = 0 /\ ex' = item_desc p
    | None => ret = 1 /\ ex' = ex
    end.
Proof.
  intros Hk. unfold dpi_range_rule_add. rewrite Hk.
  set (s1 := match range_lookup (hdl s) rk with Some _ => s | None => _ end).
  assert (Hit : forall rk', range_items (hdl s1) rk' = range_items (hdl s) rk').
  { intros rk'. unfold s1. destruct (range_lookup (hdl s) rk) as [r|] eqn:E; [done|].
    unfold range_items, range_lookup. simpl. rewrite find_first_app.
    destruct (find_first _ (range_policy_map (hdl s))); [done|]. simpl. by destruct (range_rule_match _ _). }
  assert (Hs1 : is_Some (range_lookup (hdl s1) rk)).
  { unfold s1. destruct (range_lookup (hdl s) rk) as [r|] eqn:E; [by rewrite E|].
    unfold range_lookup in E |- *. simpl. rewrite find_first_app, E. simpl. unfold range_rule_match.
    by rewrite bool_decide_eq_true_2. }
  assert (Hsame : policy_map (hdl s1) = policy_map (hdl s) /\ def_action (hdl s1) = def_action (hdl s) /\
    apply_dir (hdl s1) = apply_dir (hdl s) /\ flag (hdl s1) = flag (hdl s) /\
    ver (hdl s1) = ver (hdl s) /\ ref_cnt (hdl s1) = ref_cnt (hdl s)).
  { unfold s1. by destruct (range_lookup (hdl s) rk). }
  clearbody s1. fold (range_items (hdl s1) rk). rewrite Hit, existsb_find.
  destruct (find_first (same_range kl kh) (range_items (hdl s) rk)) as [p|] eqn:Hf.
  - eexists _, _, _. split; [reflexivity|]. destruct Hsame as (? & ? & ? & ? & ? & ?).
    split_and!; try done. intros rk'. rewrite bool_decide_eq_true_2 by done. rewrite Hit.
    by case_decide; subst.
  - eexists _, _, _. split; [reflexivity|]. destruct Hsame as (? & ? & ? & ? & ? & ?).
    split_and!; try done. intros rk'. rewrite bool_decide_eq_false_2 by (by intros [? ?]).
    change (hdl (_ <| th_counter ::= _ |>)) with
      ((hdl s1) <| range_policy_map ::= range_store rk (range_items (hdl s) rk ++ [Item desc kl kh]) |>).
    rewrite range_store_items by done. case_decide; [done|apply Hit].
Qed.

Lemma same_range_in_range kl kh desc it k :
  same_range kl kh it = true -> rule_key_in_range it k = rule_key_in_range (Item desc kl kh) k.
Proof.
  unfold same_range. by intros [<-%bool_decide_eq_true <-%bool_decide_eq_true]%andb_true_iff.
Qed.

(** First match: an added range rule is behind everything that is there. *)
Lemma range_find_add s kl kh dir desc ex rk ret s' ex' rk' k :
  get_range_key kl kh dir = Some rk ->
  dpi_range_rule_add s kl kh dir desc ex = (ret, s', ex') ->
  range_find (hdl s') rk' k =
  match range_find (hdl s) rk' k with
  | Some d => Some d
  | None => if decide (rk = rk') then
              if rule_key_in_range (Item desc kl kh) k then Some desc else None
            else None
  end.
Proof.
  intros Hk Ha. destruct (range_add_spec s kl kh dir desc ex rk Hk)
    as (? & ? & ? & E & _ & _ & _ & _ & _ & _ & Hit & _).
  rewrite Ha in E. simplify_eq. unfold range_find. rewrite Hit. case_decide as Hrk; [subst rk'|].
  2: { by destruct (find_first _ (range_items (hdl s) rk')). }
  destruct (existsb (same_range kl kh) (range_items (hdl s) rk)) eqn:Hex.
  - apply existsb_exists in Hex as (it & Hin & Hs).
    destruct (find_first _ (range_items (hdl s) rk)) as [?|] eqn:Hf; [done|]. simpl.
    rewrite find_first_None in Hf. rewrite <- (same_range_in_range kl kh desc it k Hs).
    rewrite Hf; [done|]. by apply list_elem_of_In.
  - rewrite find_first_app. destruct (find_first _ (range_items (hdl s) rk)); [done|]. simpl.
    by destruct (rule_key_in_range _ k).
Qed.

(** ** The faces of a peer *)

Definition user_find h k (ing : bool) : option dpi_policy_desc :=
  match exact_find h k with
  | Some d => Some d
  | None => range_find h (own_key ing k) k
  end.
Definition fallback h k : dpi_policy_desc := default (default_desc h) (range_find h (none_key k) k).

Lemma lookup_user h k ing :
  _dpi_policy_lookup_by_key h k ing = default (fallback h k) (user_find h k ing).
Proof.
  rewrite lookup_raw. unfold raw_find, user_find, fallback.
  destruct (exact_find h k); [done|]. by destruct (range_find h (own_key ing k) k).
Qed.

(** The codes a peer is known under, and all its faces. *)
Definition codes_of (fq : Fqdn.fqdn_hdl) (ip : Z) : list Z :=
  match Fqdn.ipv4_lookup fq ip with
  | None => []
  | Some entry => (fun r => Fqdn.code (Fqdn.rec_at fq r)) <$> Fqdn.rlist entry
  end.
Definition nonzero (l : list Z) : list Z := List.filter (fun c => negb (c =? 0)) l.
Definition faces e h (ip : Z) : list Z :=
  ip :: (if DPI_POLICY_HAS_FQDN h then nonzero (codes_of (fqdn_hdl e) ip) else []) ++
        (if dpi_is_ip4_internal e ip then [] else [0]).

(** Rules are told from the fallback by their id; the fallback has the last order. *)
Record sane h : Prop := {
  sane_user k ing d : user_find h k ing = Some d -> 0 < id d /\ order d < MAX_ORDER;
  sane_fallback k : id (fallback h k) = 0 /\ order (fallback h k) = MAX_ORDER
}.

(** [d] is the best of the rules found for the keys [ks], or [fb] when there is none. *)
Definition picked h (ing : bool) (fb : dpi_policy_desc) (ks : list dpi_rule_key) d : Prop :=
  ((forall k, k ∈ ks -> user_find h k ing = None) /\ d = fb) \/
  ((exists k, k ∈ ks /\ user_find h k ing = Some d) /\
   forall k d', k ∈ ks -> user_find h k ing = Some d' -> order d <= order d').

Lemma picked_one h ing k : picked h ing (fallback h k) [k] (_dpi_policy_lookup_by_key h k ing).
Proof.
  rewrite lookup_user. destruct (user_find h k ing) as [d|] eqn:E; [right|left].
  - split; [exists k; split; [set_solver|done]|]. intros k' d' ->%list_elem_of_singleton Hd'.
    rewrite E in Hd'. simplify_eq. simpl. lia.
  - split; [|done]. by intros k' ->%list_elem_of_singleton.
Qed.

Lemma picked_merge h ing fb1 fb2 ks1 ks2 d1 d2 :
  sane h -> order fb1 = MAX_ORDER -> id fb2 = 0 ->
  picked h ing fb1 ks1 d1 -> picked h ing fb2 ks2 d2 ->
  picked h ing fb1 (ks1 ++ ks2) (policy_desc_merge d1 d2).
Proof.
  intros S H1 H2 P1 P2. unfold policy_desc_merge.
  destruct P2 as [[N2 ->]|[(k2 & K2 & U2) B2]].
  { rewrite H2. simpl. destruct P1 as [[N1 ->]|[(k1 & K1 & U1) B1]]; [left|right].
    - split; [|done]. intros k [?|?]%elem_of_app; auto.
    - split; [exists k1; set_solver|]. intros k d' [?|?]%elem_of_app; [by apply B1|].
      by rewrite N2. }
  destruct (sane_user _ S _ _ _ U2) as [Hid Hor]. rewrite (proj2 (Z.ltb_lt 0 (id d2))) by done. simpl.
  destruct P1 as [[N1 ->]|[(k1 & K1 & U1) B1]].
  - rewrite H1, (proj2 (Z.ltb_lt _ _) Hor). right. split; [exists k2; set_solver|].
    intros k d' [Hk|?]%elem_of_app; [by rewrite N1|by apply B2].
  - right. destruct (Z.ltb_spec (order d2) (order d1)).
    + split; [exists k2; set_solver|]. intros k d' [Hk|?]%elem_of_app Hd'; [|by eapply B2].
      specialize (B1 k d' Hk Hd'). lia.
    + split; [exists k1; set_solver|]. intros k d' [Hk|?]%elem_of_app Hd'; [by eapply B1|].
      specialize (B2 k d' ltac:(done) Hd'). lia.
Qed.

Lemma set_peer_twice ing k a b : set_peer ing (set_peer ing k a) b = set_peer ing k b.
Proof. by destruct ing. Qed.
Lemma set_peer_same ing k : set_peer ing k (peer ing k) = k.
Proof. by destruct ing, k. Qed.

Lemma match_codes_more h k ing codes i d fb ks :
  sane h -> 0 < i -> id fb = 0 -> order fb = MAX_ORDER -> picked h ing fb ks d ->
  exists j d' k', match_codes h k ing codes i d = (j, d', k') /\ 0 < j /\
    picked h ing fb (ks ++ (set_peer ing k <$> nonzero codes)) d' /\
    (forall a, set_peer ing k' a = set_peer ing k a).
Proof.
  intros S. revert k i d ks. induction codes as [|c codes IH]; intros k i d ks Hi H0 HM P.
  { exists i, d, k. rewrite app_nil_r. done. }
  cbn [match_codes nonzero List.filter]. destruct (negb (c =? 0)); [|by apply IH].
  rewrite (proj2 (Z.eqb_neq i 0)) by lia. fold (set_peer ing k c).
  edestruct (IH (set_peer ing k c) (i + 1)) as (j & d' & k' & E & Hj & P' & Hk');
    [lia|done|done|eapply (picked_merge h ing fb _ ks [set_peer ing k c]); [done|done| |exact P|apply picked_one]|].
  { apply S. }
  exists j, d', k'. split; [exact E|]. split_and!; [done| |].
  - rewrite <- app_assoc in P'. simpl in P' |- *.
    erewrite list_fmap_ext in P'; [exact P'|]. intros ? ? _. apply set_peer_twice.
  - intros a. by rewrite Hk', set_peer_twice.
Qed.

(** The loop over the codes: 0 when there is none. *)
Lemma match_codes_spec h k ing codes d :
  sane h ->
  exists j d' k', match_codes h k ing codes 0 d = (j, d', k') /\
    (forall a, set_peer ing k' a = set_peer ing k a) /\
    (j = 0 /\ nonzero codes = [] \/
     0 < j /\ exists fb, id fb = 0 /\ picked h ing fb (set_peer ing k <$> nonzero codes) d').
Proof.
  intros S. induction codes as [|c codes IH]; [exists 0, d, k; by split_and!; [| |left]|].
  cbn [match_codes nonzero List.filter]. destruct (negb (c =? 0)); [|apply IH].
  rewrite Z.eqb_refl. fold (set_peer ing k c).
  edestruct (match_codes_more h (set_peer ing k c) ing codes (0 + 1)) as (j & d' & k' & E & Hj & P' & Hk');
    [done|done|..|apply picked_one|]; [apply S|apply S|].
  exists j, d', k'. split; [exact E|]. split; [intros a; by rewrite Hk', set_peer_twice|]. right.
  split; [done|]. exists (fallback h (set_peer ing k c)). split; [apply S|]. simpl in P' |- *.
  erewrite list_fmap_ext in P'; [exact P'|]. intros ? ? _. apply set_peer_twice.
Qed.

Lemma lookup_codes_spec e h k ing :
  sane h ->
  exists d k', lookup_codes e h k ing (peer ing k) = (d, k') /\
    (forall a, set_peer ing k' a = set_peer ing k a) /\
    picked h ing (fallback h k)
      (set_peer ing k <$> peer ing k ::
         if DPI_POLICY_HAS_FQDN h then nonzero (codes_of (fqdn_hdl e) (peer ing k)) else []) d.
Proof.
  intros S. unfold lookup_codes, policy_match_ipv4_fqdn_code, codes_of.
  pose proof (picked_one h ing k) as P. rewrite <- (set_peer_same ing k) in P at 2.
  destruct (DPI_POLICY_HAS_FQDN h); [|by eexists _, _].
  destruct (Fqdn.ipv4_lookup (fqdn_hdl e) (peer ing k)) as [en|]; [|by eexists _, _].
  destruct (match_codes_spec h k ing
    ((fun r => Fqdn.code (Fqdn.rec_at (fqdn_hdl e) r)) <$> Fqdn.rlist en) desc_zero S)
    as (j & d' & k' & -> & Hk & [[-> Hn]|(Hj & fb & Hfb & P2)]); eexists _, _; (split; [reflexivity|]);
    (split; [done|]).
  - by rewrite Hn.
  - rewrite (proj2 (Z.ltb_lt 0 j)) by done. cbn [fmap list_fmap].
    apply (picked_merge h ing _ fb [set_peer ing k (peer ing k)]); [done|apply S|done|done|done].
Qed.

(** What a lookup that is subject to the rules returns. *)
Lemma lookup_merged_spec e h k ing :
  sane h ->
  exists d, picked h ing (fallback h k) (set_peer ing k <$> faces e h (peer ing k)) d /\
    lookup_merged e h k ing (dpi_is_ip4_internal e (peer ing k)) (peer ing k) =
    d <| flags ::= fun f => Z.lor f (if dpi_is_ip4_internal e (peer ing k) then POLICY_DESC_INTERNAL
                                     else POLICY_DESC_EXTERNAL) |>.
Proof.
  intros S. unfold lookup_merged, faces.
  destruct (lookup_codes_spec e h k ing S) as (d & k' & -> & Hk & P).
  destruct (dpi_is_ip4_internal e (peer ing k)); cbn [negb].
  - exists d. rewrite app_nil_r. done.
  - eexists. split; [|reflexivity]. fold (set_peer ing k' 0). rewrite Hk.
    rewrite app_comm_cons, fmap_app. eapply picked_merge; [done|apply S| |exact P|apply picked_one].
    apply S.
Qed.

(** ** Which packets are subject to the rules *)

Definition subject e h (ing : bool) (ip : Z) : bool :=
  let is_internal := dpi_is_ip4_internal e ip in
  let iptype := dpi_ip4_iptype e ip in
  if ing then
    negb (is_internal && negb (FLAGS_TEST (apply_dir h) DP_POLICY_APPLY_INGRESS) &&
          negb (iptype =? DP_IPTYPE_UWLIP))
  else
    negb (negb is_internal && (iptype =? DP_IPTYPE_EXTIP)) &&
    negb (is_internal && negb (FLAGS_TEST (apply_dir h) DP_POLICY_APPLY_EGRESS) &&
          negb (iptype =? DP_IPTYPE_HOSTIP) && negb (iptype =? DP_IPTYPE_UWLIP)).

Definition lookup_key e h k (ing : bool) d : dpi_policy_desc :=
  dpi_policy_lookup_by_key e (Some h) (sip k) (dip k) (dport k) (proto k) (app k) ing d.

Lemma lookup_subject e h k ing d :
  subject e h ing (peer ing k) = true ->
  lookup_key e h k ing d =
  (lookup_merged e h k ing (dpi_is_ip4_internal e (peer ing k)) (peer ing k)) <| hdl_ver := ver h |>.
Proof.
  unfold lookup_key, dpi_policy_lookup_by_key, subject, peer. destruct k as [ks kd kp kpr ka], ing; cbn [sip dip].
  - intros ->%negb_true_iff. done.
  - intros [->%negb_true_iff ->%negb_true_iff]%andb_true_iff. done.
Qed.

(** ** Handles built by adding rules

    A call of dpi_rule_add_one for a rule in one direction. *)
Record call := Call {
  c_l : dpi_rule_key; c_h : option dpi_rule_key; c_ing : bool; c_desc : dpi_policy_desc
}.
Definition dir_of (ing : bool) : rule_dir := if ing then DIR_INGRESS else DIR_EGRESS.

(** The rule of the call applies to a packet with key [k] in direction [ing]: the exact
    key, or a range for the packet's direction, protocol and own address. *)
Definition call_match (c : call) (ing : bool) k : bool :=
  match c_h c with
  | None => bool_decide (c_l c = k)
  | Some kh => bool_decide (own_key (c_ing c) (c_l c) = own_key ing k) &&
               rule_key_in_range (Item (c_desc c) (c_l c) kh) k
  end.

Record call_ok (c : call) : Prop := {
  ok_id : 0 < id (c_desc c);
  ok_order : order (c_desc c) < MAX_ORDER;
  ok_proto kh : c_h c = Some kh -> proto (c_l c) = proto kh
}.

Section built.
Context (e : env) (F : Z -> list Z).

(** [built h0 s cs]: the calls [cs] on the empty handle [h0], in order of priority, give
    [s].  The domain-name table may have been smaller at the time of a call. *)
Inductive built (h0 : dpi_policy_hdl) : pstate -> list call -> Prop :=
  | built_init c : policy_map h0 = [] -> range_policy_map h0 = [] -> built h0 (PState h0 c) []
  | built_add s cs fq c ex ret s' ex' :
      built h0 s cs ->
      (forall ip, faces (e <| fqdn_hdl := fq |>) (hdl s) ip ⊆ F ip) ->
      call_ok c -> (forall c', c' ∈ cs -> order (c_desc c') <= order (c_desc c)) ->
      dpi_rule_add_one (e <| fqdn_hdl := fq |>) s (c_l c) (c_h c) (dir_of (c_ing c)) (c_desc c) ex =
        (ret, s', ex') ->
      built h0 s' (cs ++ [c])
  | built_flag s cs f : built h0 s cs -> built h0 (s <| hdl ::= fun h => h <| flag ::= f |> |>) cs.

Lemma call_rkey c kh : call_ok c -> c_h c = Some kh ->
  get_range_key (c_l c) kh (dir_of (c_ing c)) = Some (own_key (c_ing c) (c_l c)).
Proof.
  intros O Hh. unfold get_range_key. rewrite (ok_proto _ O kh Hh), Z.eqb_refl. simpl.
  unfold own_key, own. rewrite (ok_proto _ O kh Hh). by destruct (c_ing c).
Qed.

(** What does not change while rules are added. *)
Lemma built_same h0 s cs : built h0 s cs ->
  def_action (hdl s) = def_action h0 /\ apply_dir (hdl s) = apply_dir h0 /\ ver (hdl s) = ver h0 /\
  ref_cnt (hdl s) = ref_cnt h0.
Proof.
  induction 1 as [c|s cs fq c ex ret s' ex' B IH _ O _ Ha|s cs f B IH]; [done| |done].
  destruct c as [kl [kh|] ing d]; simpl in Ha; unfold dpi_rule_add_one in Ha.
  - destruct (range_add_spec s kl kh (dir_of ing) d ex _ (call_rkey (Call kl (Some kh) ing d) kh O eq_refl))
      as (? & ? & ? & E & _ & ? & ? & _ & ? & ? & _). rewrite Ha in E. simplify_eq.
    destruct IH as (? & ? & ? & ?). split_and!; congruence.
  - destruct (negb _); simplify_eq; done.
Qed.

(** Every rule in the tables comes from a call. *)
Lemma built_from h0 s cs : built h0 s cs ->
  (forall k d, exact_find (hdl s) k = Some d -> exists c, c ∈ cs /\ c_h c = None /\ c_l c = k /\ c_desc c = d) /\
  (forall ing k d, range_find (hdl s) (own_key ing k) k = Some d ->
     exists c, c ∈ cs /\ c_h c <> None /\ call_match c ing k = true /\ c_desc c = d) /\
  (forall rk, rk_flag rk = 0 -> range_items (hdl s) rk = []) /\ (forall c, c ∈ cs -> call_ok c).
Proof.
  induction 1 as [c H1 H2|s cs fq c ex ret s' ex' B IH _ O _ Ha|s cs f B IH]; [|destruct IH as (IE & IR & IN & IO)|done].
  { unfold exact_find, range_find, range_items, range_lookup. simpl. rewrite H1, H2. simpl.
    split_and!; try done. by intros c' ?%elem_of_nil. }
  assert (HO : forall c', c' ∈ cs ++ [c] -> call_ok c').
  { intros c' [?| ->%list_elem_of_singleton]%elem_of_app; auto. }
  assert (Hmon : forall c' (P : call -> Prop), (exists c, c ∈ cs /\ P c) -> exists c, c ∈ cs ++ [c'] /\ P c).
  { intros c' P (c0 & ? & ?). exists c0. split; [set_solver|done]. }
  destruct (c_h c) as [kh|] eqn:Hh; simpl in Ha; unfold dpi_rule_add_one in Ha.
  - pose proof (call_rkey c kh O Hh) as Hk.
    destruct (range_add_spec s (c_l c) kh (dir_of (c_ing c)) (c_desc c) ex _ Hk)
      as (? & ? & ? & E & Hp & _ & _ & _ & _ & _ & Hit & _). rewrite Ha in E. simplify_eq.
    pose proof (fun rk' k => range_find_add s _ _ _ _ _ _ _ _ _ rk' k Hk Ha) as Hr.
    split_and!; [| | |done].
    + unfold exact_find. rewrite Hp. intros k d Hd. by apply (Hmon c (fun c => _ /\ _ /\ _)), IE.
    + intros ing k d. rewrite Hr. destruct (range_find (hdl s) (own_key ing k) k) eqn:E.
      { intros ?; simplify_eq. by apply (Hmon c (fun c => _ /\ _ /\ _)), IR. }
      case_decide as Hk'; [|done]. destruct (rule_key_in_range _ k) eqn:Hin; [|done].
      intros [= <-]. exists c. split_and!; [set_solver|by rewrite Hh| |done].
      unfold call_match. rewrite Hh, Hin, Hk'. by rewrite bool_decide_eq_true_2.
    + intros rk Hrk. rewrite Hit. case_decide as Hk'; [|by apply IN]. exfalso. subst rk.
      unfold own_key in Hrk. simpl in Hrk. by destruct (c_ing c).
  - destruct (negb _); simplify_eq.
    + split_and!; [| |done|done].
      * intros k d Hd. by apply (Hmon c (fun c => _ /\ _ /\ _)), IE.
      * intros ing k d Hd. by apply (Hmon c (fun c => _ /\ _ /\ _)), IR.
    + split_and!; [| |done|done].
      * intros k d. unfold exact_find. simpl. rewrite find_first_app.
        fold (exact_find (hdl s) k). destruct (find_first _ (policy_map (hdl s))) as [r|] eqn:E; simpl.
        { intros ?; simplify_eq. apply (Hmon c (fun c => _ /\ _ /\ _)), IE. unfold exact_find. by rewrite E. }
        unfold rule_match. simpl. case_bool_decide; [|done]. intros [= <-]. exists c.
        split_and!; [set_solver|done|done|done].
      * intros ing k d Hd. by apply (Hmon c (fun c => _ /\ _ /\ _)), IR.
Qed.

Lemma built_user h0 s cs k ing d : built h0 s cs -> user_find (hdl s) k ing = Some d ->
  exists c, c ∈ cs /\ call_match c ing k = true /\ c_desc c = d.
Proof.
  intros (IE & IR & _ & _)%built_from. unfold user_find.
  destruct (exact_find (hdl s) k) as [d'|] eqn:E.
  - intros [= <-]. destruct (IE k d' E) as (c & ? & Hh & Hl & Hd). exists c. split_and!; [done| |done].
    unfold call_match. rewrite Hh. by apply bool_decide_eq_true_2.
  - intros Hr. destruct (IR ing k d Hr) as (c & ? & _ & ? & ?). by exists c.
Qed.

Lemma built_sane h0 s cs : built h0 s cs -> sane (hdl s).
Proof.
  intros B. pose proof (built_from _ _ _ B) as (_ & _ & IN & IO). constructor.
  - intros k ing d Hu. destruct (built_user _ _ _ _ _ _ B Hu) as (c & Hc & _ & <-).
    destruct (IO c Hc). done.
  - intros k. unfold fallback, range_find. by rewrite IN.
Qed.

(** Adding a rule that is not skipped puts it behind the rules for [k]; the lookup of
    an exact rule that is skipped has found another one. *)
Lemma add_one_user h0 s cs fq c ex ret s' ex' k ing :
  built h0 s cs -> call_ok c ->
  subject e (hdl s) ing (peer ing k) = true ->
  (c_h c = None -> c_l c = k -> c_ing c = ing) ->
  dpi_rule_add_one (e <| fqdn_hdl := fq |>) s (c_l c) (c_h c) (dir_of (c_ing c)) (c_desc c) ex =
    (ret, s', ex') ->
  user_find (hdl s') k ing =
    match user_find (hdl s) k ing with
    | Some d => Some d
    | None => if call_match c ing k then Some (c_desc c) else None
    end \/
  (hdl s' = hdl s /\ c_h c = None /\
   (c_l c = k -> exists f, f ∈ faces (e <| fqdn_hdl := fq |>) (hdl s) (peer ing k) /\
                   is_Some (user_find (hdl s) (set_peer ing k f) ing))).
Proof.
  intros B O Hsub Hdir Ha. unfold user_find, call_match. destruct (c_h c) as [kh|] eqn:Hh.
  - left. pose proof (call_rkey c kh O Hh) as Hk. unfold dpi_rule_add_one in Ha.
    destruct (range_add_spec s (c_l c) kh (dir_of (c_ing c)) (c_desc c) ex _ Hk)
      as (? & ? & ? & E & Hp & _). rewrite Ha in E. injection E as <- <- <-.
    assert (He : exact_find (hdl s') k = exact_find (hdl s) k) by (unfold exact_find; by rewrite Hp).
    rewrite He. destruct (exact_find (hdl s) k); [done|].
    rewrite (range_find_add s _ _ _ _ _ _ _ _ _ _ k Hk Ha).
    destruct (range_find (hdl s) (own_key ing k) k); [done|].
    case_decide; case_bool_decide; done.
  - unfold dpi_rule_add_one in Ha.
    assert (Hi : bool_decide (dir_of (c_ing c) = DIR_INGRESS) = c_ing c) by by destruct (c_ing c).
    rewrite Hi in Ha. fold (lookup_key (e <| fqdn_hdl := fq |>) (hdl s) (c_l c) (c_ing c) ex) in Ha.
    destruct (decide (c_l c = k)) as [Hk|Hk].
    + specialize (Hdir eq_refl Hk). rewrite Hdir, Hk in Ha.
      assert (Hsub' : subject (e <| fqdn_hdl := fq |>) (hdl s) ing (peer ing k) = true) by exact Hsub.
      rewrite (lookup_subject _ _ _ _ _ Hsub') in Ha.
      destruct (lookup_merged_spec (e <| fqdn_hdl := fq |>) (hdl s) k ing) as (d & P & E).
      { by eapply built_sane. }
      rewrite E in Ha. simpl in Ha. destruct P as [[Hn ->]|[(k' & Hk' & Hu) _]].
      * left. rewrite (proj1 (sane_fallback _ (built_sane _ _ _ B) k)) in Ha. simpl in Ha.
        injection Ha as <- <- <-. specialize (Hn k). rewrite Hk, bool_decide_eq_true_2 by done.
        assert (Hnone : user_find (hdl s) k ing = None).
        { apply Hn, list_elem_of_fmap. exists (peer ing k). by rewrite set_peer_same; split; [|left]. }
        unfold user_find in Hnone. unfold exact_find in Hnone |- *. simpl. rewrite find_first_app.
        destruct (find_first _ (policy_map (hdl s))); [done|]. simpl in *. unfold rule_match. simpl.
        rewrite bool_decide_eq_true_2 by done. simpl. change (range_find _ _ _) with
          (range_find (hdl s) (own_key ing k) k). by rewrite Hnone.
      * right. apply list_elem_of_fmap in Hk' as (f & -> & Hf).
        destruct (sane_user _ (built_sane _ _ _ B) _ _ _ Hu) as [Hid _].
        rewrite (proj2 (Z.eqb_neq (id d) 0)) in Ha by lia. simpl in Ha. injection Ha as <- <- <-.
        split_and!; [done|done|]. intros _. exists f. split; [done|]. by eexists.
    + destruct (negb _); simplify_eq.
      * right. split_and!; [done|done|done].
      * left. unfold exact_find. simpl. rewrite find_first_app.
        rewrite bool_decide_eq_false_2 by done.
        destruct (find_first _ (policy_map (hdl s))); [done|]. simpl. unfold rule_match. simpl.
        rewrite bool_decide_eq_false_2 by done. simpl.
        transitivity (range_find (hdl s) (own_key ing k) k); [reflexivity|].
        by destruct (range_find (hdl s) (own_key ing k) k).
Qed.

(** Every call that matches a face of the packet is matched or outranked by a rule in
    the tables for some face. *)
Lemma built_dominates h0 s cs k ing :
  built h0 s cs ->
  (forall f, f ∈ F (peer ing k) -> F f ⊆ F (peer ing k)) ->
  (forall f, f ∈ F (peer ing k) -> subject e h0 ing f = true) ->
  (forall c f, c ∈ cs -> f ∈ F (peer ing k) -> c_h c = None -> c_l c = set_peer ing k f -> c_ing c = ing) ->
  forall c f, c ∈ cs -> f ∈ F (peer ing k) -> call_match c ing (set_peer ing k f) = true ->
  exists f' d, f' ∈ F (peer ing k) /\ user_find (hdl s) (set_peer ing k f') ing = Some d /\
    order d <= order (c_desc c).
Proof.
  intros B HF. induction B as [c H1 H2|s cs fq c ex ret s' ex' B IH Hfa O Hord Ha|s cs f B IH];
    intros Hsub Hdir; [by intros c' f ?%elem_of_nil| |by apply IH].
  assert (Hpeer : forall f, peer ing (set_peer ing k f) = f) by (intros f; by destruct ing).
  assert (Hstep := fun f (Hf : f ∈ F (peer ing k)) => add_one_user h0 s cs fq c ex ret s' ex' (set_peer ing k f) ing B O).
  assert (Hs : forall f, f ∈ F (peer ing k) -> subject e (hdl s) ing f = true).
  { intros f Hf. rewrite <- (Hsub f Hf). destruct (built_same _ _ _ B) as (_ & E & _).
    unfold subject. by rewrite E. }
  assert (Hadd : forall f, f ∈ F (peer ing k) -> _) by (intros f Hf; refine (Hstep f Hf _ _ Ha);
    [rewrite Hpeer; by apply Hs|intros Hn Hl; eapply (Hdir c f); [set_solver|done|done|done]]).
  intros c' f [Hc'| ->%list_elem_of_singleton]%elem_of_app Hf Hm.
  - destruct (IH Hsub (fun c f Hc => Hdir c f ltac:(set_solver)) c' f Hc' Hf Hm) as (f' & d & Hf' & Hu & Hle).
    exists f', d. split_and!; [done| |done]. destruct (Hadd f' Hf') as [->|(E & _ & _)]; [by rewrite Hu|by rewrite E].
  - destruct (Hadd f Hf) as [E|(E & Hh & Hx)].
    + destruct (user_find (hdl s) (set_peer ing k f) ing) as [d|] eqn:Hu.
      * exists f, d. split_and!; [done|done|]. destruct (built_user _ _ _ _ _ _ B Hu) as (c0 & Hc0 & _ & <-).
        by apply Hord.
      * rewrite Hm in E. exists f, (c_desc c). split_and!; [done|done|lia].
    + unfold call_match in Hm. rewrite Hh in Hm. apply bool_decide_eq_true in Hm.
      destruct (Hx Hm) as (f' & Hf' & d & Hd). rewrite Hpeer in Hf'. rewrite set_peer_twice in Hd.
      exists f', d. rewrite E. split_and!; [by apply (HF f Hf), Hfa|done|].
      destruct (built_user _ _ _ _ _ _ B Hd) as (c0 & Hc0 & _ & <-). by apply Hord.
Qed.

End built.

(** ** The default rule *)

Definition icmp_desc : dpi_policy_desc :=
  Desc DEFAULT_ICMP_PASS_POLICY_ID DP_POLICY_ACTION_ALLOW 0 0 MAX_ORDER.
Definition is_icmp k : bool := (proto k =? IPPROTO_ICMP) && (dport k =? 0) && (app k =? 0).

Lemma ntohl_in_range x : IS_X_IN_RANGE (ntohl x) (ntohl 0) (ntohl 0xffffffff) = true.
Proof.
  change (ntohl 0) with 0. change (ntohl 0xffffffff) with 0xffffffff.
  pose proof (htonl_range x) as R. unfold is_u32 in R. unfold IS_X_IN_RANGE, ntohl.
  apply andb_true_iff. split; [apply Z.leb_le|apply Z.leb_le]; lia.
Qed.

Lemma add_default_spec e s h0 F cs :
  built e F h0 s cs ->
  let h := hdl (dpi_add_default_policy e s) in
  def_action h = def_action h0 /\ apply_dir h = apply_dir h0 /\ ver h = ver h0 /\ flag h = flag (hdl s) /\
  (forall k ing, user_find h k ing = user_find (hdl s) k ing) /\
  (forall k, fallback h k = if is_icmp k then icmp_desc else default_desc h).
Proof.
  intros B. unfold dpi_add_default_policy, dpi_rule_add, dpi_rule_add_one.
  set (kl := Key 0 0 0 IPPROTO_ICMP 0). set (kh := Key 0xffffffff 0xffffffff 0 IPPROTO_ICMP 0).
  change (Desc DEFAULT_ICMP_PASS_POLICY_ID DP_POLICY_ACTION_ALLOW 0 0 MAX_ORDER) with icmp_desc.
  assert (Hk : get_range_key kl kh DIR_NONE = Some (RKey 0 IPPROTO_ICMP 0)) by done.
  destruct (range_add_spec s kl kh DIR_NONE icmp_desc desc_zero _ Hk)
    as (ret & s' & ex & Ea & Hp & Hd & Ha & Hf & Hv & _ & Hit & Hret).
  pose proof (fun rk k => range_find_add s _ _ _ _ _ _ _ _ _ rk k Hk Ea) as Hr.
  pose proof (built_from _ _ _ _ _ B) as (_ & _ & IN & _).
  rewrite Ea. rewrite (IN (RKey 0 IPPROTO_ICMP 0) eq_refl) in Hret. destruct Hret as [-> ->].
  destruct (built_same _ _ _ _ _ B) as (B1 & B2 & B3 & _). cbn [fst].
  assert (Hexact : forall k, exact_find (hdl s') k = exact_find (hdl s) k)
    by (intros; unfold exact_find; by rewrite Hp).
  simpl. split_and!; [congruence|congruence|congruence|done| |].
  - intros k ing. unfold user_find. rewrite Hexact. destruct (exact_find (hdl s) k); [done|].
    rewrite Hr. destruct (range_find (hdl s) (own_key ing k) k); [done|].
    rewrite decide_False; [done|]. unfold own_key. by destruct ing.
  - intros k. unfold fallback. rewrite Hr. unfold range_find. rewrite IN by done. simpl.
    unfold is_icmp, none_key. case_decide as Hpr.
    + injection Hpr as <-. rewrite Z.eqb_refl. unfold rule_key_in_range, kl, kh. cbn [key_l key_h sip dip dport app].
      rewrite !ntohl_in_range. rewrite !andb_true_r.
      assert (H0 : forall x, IS_X_IN_RANGE x 0 0 = (x =? 0)).
      { intros x. unfold IS_X_IN_RANGE. destruct (Z.eqb_spec x 0) as [->|]; [done|].
        destruct (Z.leb_spec 0 x), (Z.leb_spec x 0); simpl; lia || done. }
      rewrite !H0. simpl. by destruct (dport k =? 0), (app k =? 0).
    + rewrite (proj2 (Z.eqb_neq _ _)); [done|]. intros He. by rewrite He in Hpr.
Qed.

(** A call hits a packet under one of the faces of its peer. *)
Definition hits (fs : list Z) (ing : bool) k (c : call) : Prop :=
  exists f, f ∈ fs /\ call_match c ing (set_peer ing k f) = true.

(** The side conditions under which the tables decide like the list of rules: faces of
    faces are faces, the rules apply to every face, and the exact rules for the packet's
    keys are of its direction (exact rules are kept without a direction). *)
Record plain e h (ing : bool) k (cs : list call) : Prop := {
  pl_closed f : f ∈ faces e h (peer ing k) -> faces e h f ⊆ faces e h (peer ing k);
  pl_subject f : f ∈ faces e h (peer ing k) -> subject e h ing f = true;
  pl_dir c f : c ∈ cs -> f ∈ faces e h (peer ing k) -> c_h c = None -> c_l c = set_peer ing k f ->
    c_ing c = ing
}.

(** What a decision looks like in the session: the description of a rule, marked with
    the side of the peer and stamped with the version of the handle. *)
Definition stamped e h (ing : bool) k d : dpi_policy_desc :=
  d <| flags ::= fun f => Z.lor f (if dpi_is_ip4_internal e (peer ing k) then POLICY_DESC_INTERNAL
                                   else POLICY_DESC_EXTERNAL) |>
    <| hdl_ver := ver h |>.

(** The rule of the lowest order that hits the packet decides, and the default when there
    is none. *)
Definition decides e h (ing : bool) k (cs : list call) (res : dpi_policy_desc) : Prop :=
  (exists c, c ∈ cs /\ hits (faces e h (peer ing k)) ing k c /\ res = stamped e h ing k (c_desc c) /\
     forall c', c' ∈ cs -> hits (faces e h (peer ing k)) ing k c' ->
                order (c_desc c) <= order (c_desc c')) \/
  ((forall c, c ∈ cs -> ~ hits (faces e h (peer ing k)) ing k c) /\
   res = stamped e h ing k (if is_icmp k then icmp_desc else default_desc h)).

Lemma lookup_decides e s h0 cs k ing desc :
  let h := hdl (dpi_add_default_policy e s) in
  built e (faces e h) h0 s cs -> plain e h ing k cs ->
  decides e h ing k cs (lookup_key e h k ing desc).
Proof.
  intros h B [Hcl Hsub Hdir].
  destruct (add_default_spec e s h0 _ cs B) as (_ & Hap & _ & _ & Hu & Hfb). fold h in Hap, Hu, Hfb.
  assert (Hself : peer ing k ∈ faces e h (peer ing k)) by (unfold faces; left).
  assert (S : sane h).
  { pose proof (built_sane _ _ _ _ _ B) as [S1 S2]. constructor.
    - intros k' ing' d. rewrite Hu. apply S1.
    - intros k'. rewrite Hfb. by destruct (is_icmp k'). }
  assert (Hdom := built_dominates e (faces e h) h0 s cs k ing B Hcl).
  assert (Hsub0 : forall f, f ∈ faces e h (peer ing k) -> subject e h0 ing f = true).
  { intros f Hf. rewrite <- (Hsub f Hf). unfold subject. by rewrite Hap. }
  specialize (Hdom Hsub0 Hdir).
  rewrite (lookup_subject e h k ing desc (Hsub _ Hself)).
  destruct (lookup_merged_spec e h k ing S) as (d & P & ->).
  change (decides e h ing k cs (stamped e h ing k d)). unfold decides.
  destruct P as [[Hn ->]|[(k' & Hk' & Hd) Hbest]].
  - right. split; [|by rewrite Hfb]. intros c Hc (f & Hf & Hm).
    destruct (Hdom c f Hc Hf Hm) as (f' & d & Hf' & Hd & _). rewrite <- Hu, Hn in Hd; [done|].
    by apply list_elem_of_fmap_2.
  - left. apply list_elem_of_fmap in Hk' as (f & -> & Hf). rewrite Hu in Hd.
    destruct (built_user _ _ _ _ _ _ _ _ B Hd) as (c & Hc & Hm & <-).
    exists c. split_and!; [done|by exists f|done|].
    intros c' Hc' (f1 & Hf1 & Hm1). destruct (Hdom c' f1 Hc' Hf1 Hm1) as (f' & d' & Hf' & Hd' & Hle).
    specialize (Hbest (set_peer ing k f') d'). rewrite Hu in Hbest.
    specialize (Hbest ltac:(by apply list_elem_of_fmap_2) Hd'). lia.
Qed.

End PolicyRules.
