(* ===== verification/PolicyCfg.v ===== *)
(** * Policy configuration: the life of policy handles in dpi/dpi_policy.c

    The controller sends a policy in one or several messages.  The first creates a
    handle, which a static variable of dpi_policy_cfg points to until the last message
    has arrived; then the handle is given to the workloads (endpoints) of the message
    and lives as long as one of them refers to it.

    Handles are objects at addresses, [None] is an access to an object that is not
    there.  An endpoint is named by its MAC address.  Memory allocation succeeds. *)

From S2P Require Import Prelude Helper Fqdn PolicyRules.
Import PolicyRules.

Module PolicyCfg.

Definition CFG_ADD : Z := 1.
Definition CFG_MODIFY : Z := 2.
Definition CFG_DELETE : Z := 3.
Definition MSG_START : Z := 1.
Definition MSG_END : Z := 2.

Record io_ep := Ep { policy_hdl : Z; policy_ver : Z }.

Record dpi_policy_rule := PRule {
  r_id : Z; r_sip : Z; r_sip_r : Z; r_dip : Z; r_dip_r : Z; r_dport : Z; r_dport_r : Z;
  r_proto : Z; r_action : Z; r_ingress : bool; r_fqdn : list Z; r_app_rules : list dpi_policy_app_rule
}.
#[export] Instance eta_prule : Eta dpi_policy_rule := fun r =>
  PRule (r_id r) (r_sip r) (r_sip_r r) (r_dip r) (r_dip_r r) (r_dport r) (r_dport_r r)
    (r_proto r) (r_action r) (r_ingress r) (r_fqdn r) (r_app_rules r).

Record dpi_policy := Policy {
  mac_list : list Z; p_def_action : Z; p_apply_dir : Z; rule_list : list dpi_policy_rule
}.

(** The globals: allocated handles, endpoints, the static variables [hdl], [order] and
    [policy_ver], the tables of the thread with the domain names, the counters. *)
Record cfg := Cfg {
  handles : gmap Z dpi_policy_hdl;
  eps : gmap Z io_ep;
  cur_hdl : Z;
  cur_order : Z;
  last_ver : Z;
  tables : env;
  counts : counters
}.
#[export] Instance eta_cfg : Eta cfg := fun c =>
  Cfg (handles c) (eps c) (cur_hdl c) (cur_order c) (last_ver c) (tables c) (counts c).
Implicit Types (c : cfg) (p mac : Z) (r : dpi_policy_rule).

Definition dpi_policy_hdl_init (act : Z) : dpi_policy_hdl := Hdl 0 0 [] [] act 0 0.

(** calloc: an address that no object has. *)
Definition fresh_hdl c : Z := fresh ({[NULL]} ∪ dom (handles c) : gset Z).

(** GET_NEW_POLICY_VER() on a uint16_t *)
Definition GET_NEW_POLICY_VER (v : Z) : Z :=
  let v := u16 (v + 1) in if negb (v =? 0) then v else u16 (v + 1).

Definition range_total h : Z :=
  fold_right (fun (x : dpi_range_rule) n => Z.of_nat (length (range_rule_list x)) + n) 0 (range_policy_map h).

Definition dpi_policy_hdl_destroy c p : option cfg :=
  h ← handles c !! p;
  if 1 <? ref_cnt h then Some (c <| handles ::= <[p := h <| ref_cnt ::= fun n => u16 (n - 1) |>]> |>)
  else Some (c <| handles ::= delete p |>
               <| counts ::= fun n =>
                    n <| type1_rules ::= fun t => u32 (t - Z.of_nat (length (policy_map h))) |>
                      <| type2_rules ::= fun t => u32 (t - range_total h) |> |>).

Definition dp_policy_destroy c p : option cfg :=
  if negb (p =? NULL) then dpi_policy_hdl_destroy c p else Some c.

(** An unknown MAC address: -1. *)
Definition dpi_policy_update c mac p : option (cfg * Z) :=
  match eps c !! mac with
  | None => Some (c, -1)
  | Some ep =>
      let old := policy_hdl ep in
      '(c, v) ← (if negb (p =? NULL) then
                   h ← handles c !! p;
                   Some (c <| handles ::= <[p := h <| ref_cnt ::= fun n => u16 (n + 1) |>]> |>, ver h)
                 else Some (c, 0));
      let c := c <| eps ::= <[mac := Ep p v]> |> in
      c ← (if negb (old =? NULL) then dpi_policy_hdl_destroy c old else Some c);
      Some (c, 0)
  end.

(** *** The rules of a message *)

(** What the rules change: the handle and the counters, the domain names, [order]. *)
Record rstate := RState { pst : pstate; names : Fqdn.fqdn_hdl; ord : Z }.
#[export] Instance eta_rstate : Eta rstate := fun s => RState (pst s) (names s) (ord s).

(** The rule with a domain name: the code takes the place of the peer's address.
    [None] inside: no code is left and the rule is skipped. *)
Definition resolve (fq : Fqdn.fqdn_hdl) r : option (Fqdn.fqdn_hdl * option dpi_policy_rule) :=
  match r_fqdn r with
  | [] => Some (fq, Some r)
  | nm =>
      '(fq, code) ← Fqdn.config_fqdn_ipv4_mapping fq nm (if r_ingress r then r_sip r else r_dip r);
      if code =? u32 (-1) then Some (fq, None)
      else if r_ingress r then Some (fq, Some (r <| r_sip := code |> <| r_sip_r := code |>))
      else Some (fq, Some (r <| r_dip := code |> <| r_dip_r := code |>))
  end.

Definition rule_range r : bool :=
  negb (r_dport r =? r_dport_r r) || negb (r_sip r =? r_sip_r r) || negb (r_dip r =? r_dip_r r).
Definition rule_key r (pr : Z) : dpi_rule_key := Key (r_sip r) (r_dip r) (r_dport r) pr 0.
Definition rule_key_r r (pr : Z) : dpi_rule_key := Key (r_sip_r r) (r_dip_r r) (r_dport_r r) pr 0.
Definition rule_desc_of r (o : Z) : dpi_policy_desc := Desc (r_id r) (r_action r) POLICY_DESC_CHECK_VER 0 o.

(** One turn of the loop of dpi_policy_cfg over the rules. *)
Definition cfg_rule e (s : rstate) r : option rstate :=
  '(fq, o) ← resolve (names s) r;
  let s := s <| names := fq |> in
  match o with
  | None => Some s
  | Some r' =>
      let e := e <| fqdn_hdl := fq |> in
      let s := match r_fqdn r with
               | [] => s
               | _ => s <| pst ::= fun t => t <| hdl ::= fun h =>
                          h <| flag ::= fun f => Z.lor f POLICY_HDL_FLAG_FQDN |> |> |>
               end in
      let order := u32 (ord s + 1) in
      let desc := rule_desc_of r' order in
      let dir := if r_ingress r' then DIR_INGRESS else DIR_EGRESS in
      let key_r := fun pr => if rule_range r' then Some (rule_key_r r' pr) else None in
      let t :=
        if 0 <? r_proto r' then
          let '(_, t, _, _) := dpi_rule_add e (pst s) (rule_key r' (r_proto r')) (key_r (r_proto r'))
                                 (r_app_rules r') dir desc in t
        else
          (* TCP, then UDP with the keys as the first call left them *)
          let '(_, t, kl, kh) := dpi_rule_add e (pst s) (rule_key r' IPPROTO_TCP) (key_r IPPROTO_TCP)
                                   (r_app_rules r') dir desc in
          let '(_, t, _, _) := dpi_rule_add e t (kl <| proto := IPPROTO_UDP |>)
                                 ((fun k => k <| proto := IPPROTO_UDP |>) <$> kh)
                                 (r_app_rules r') dir desc in t in
      Some (s <| pst := t |> <| ord := order |>)
  end.

Fixpoint cfg_rules e (s : rstate) (rs : list dpi_policy_rule) : option rstate :=
  match rs with
  | [] => Some s
  | r :: rs => s ← cfg_rule e s r; cfg_rules e s rs
  end.

(** *** Messages *)

Fixpoint update_macs c (macs : list Z) p : option cfg :=
  match macs with
  | [] => Some c
  | m :: macs => '(c, _) ← dpi_policy_update c m p; update_macs c macs p
  end.

(** The part of dpi_policy_cfg before the handle is given out, for cmd != CFG_DELETE:
    a new handle on MSG_START, then the rules, then the default rule on MSG_END. *)
Definition new_hdl (pol : dpi_policy) (v : Z) : dpi_policy_hdl :=
  (dpi_policy_hdl_init (p_def_action pol)) <| apply_dir := p_apply_dir pol |> <| ver := v |>.
Definition cfg_start c (pol : dpi_policy) : cfg :=
  let p := fresh_hdl c in
  let v := GET_NEW_POLICY_VER (last_ver c) in
  c <| handles ::= <[p := new_hdl pol v]> |> <| cur_hdl := p |> <| cur_order := 0 |> <| last_ver := v |>.
Definition cfg_fill c (pol : dpi_policy) (flag : Z) : option cfg :=
  h ← handles c !! cur_hdl c;
  s ← cfg_rules (tables c) (RState (PState h (counts c)) (fqdn_hdl (tables c)) (cur_order c)) (rule_list pol);
  let e := (tables c) <| fqdn_hdl := names s |> in
  let t := if FLAGS_TEST flag MSG_END then dpi_add_default_policy e (pst s) else pst s in
  Some (c <| handles ::= <[cur_hdl c := hdl t]> |> <| counts := th_counter t |>
          <| tables := e |> <| cur_order := ord s |>).
Definition cfg_add c (pol : dpi_policy) (flag : Z) : option cfg :=
  cfg_fill (if FLAGS_TEST flag MSG_START then cfg_start c pol else c) pol flag.

Definition dpi_policy_cfg c (cmd : Z) (pol : dpi_policy) (flag : Z) : option (cfg * Z) :=
  (* an old handle on MSG_START is dropped; without one, MSG_START was missed *)
  '(c, missed) ←
    (if FLAGS_TEST flag MSG_START then
       if negb (cur_hdl c =? NULL) then
         c ← dpi_policy_hdl_destroy c (cur_hdl c); Some (c <| cur_hdl := NULL |>, false)
       else Some (c, false)
     else Some (c, cur_hdl c =? NULL));
  if (missed : bool) then Some (c, -1)
  else
    c ← (if negb (cmd =? CFG_DELETE) then cfg_add c pol flag
         else if negb (cur_hdl c =? NULL) then
           c ← dpi_policy_hdl_destroy c (cur_hdl c);
           Some (c <| cur_hdl := NULL |> <| cur_order := 0 |>)
         else Some c);
    if negb (FLAGS_TEST flag MSG_END) then Some (c, 0)
    else
      c ← update_macs c (mac_list pol) (cur_hdl c);
      c ← (if negb (cur_hdl c =? NULL) then
             h ← handles c !! cur_hdl c;
             if ref_cnt h =? 0 then dpi_policy_hdl_destroy c (cur_hdl c) else Some c
           else Some c);
      Some (c <| cur_hdl := NULL |>, 0).

(** ** What adding rules does to the counters *)

Definition exact_total h : Z := Z.of_nat (length (policy_map h)).

(** The counters move with the number of rules; version and references stay. *)
Record grown (s s' : pstate) : Prop := {
  gr_type1 : u32 (type1_rules (th_counter s') - exact_total (hdl s')) =
             u32 (type1_rules (th_counter s) - exact_total (hdl s));
  gr_type2 : u32 (type2_rules (th_counter s') - range_total (hdl s')) =
             u32 (type2_rules (th_counter s) - range_total (hdl s));
  gr_ver : ver (hdl s') = ver (hdl s);
  gr_ref : ref_cnt (hdl s') = ref_cnt (hdl s);
  gr_flag : DPI_POLICY_HAS_FQDN (hdl s) = true -> DPI_POLICY_HAS_FQDN (hdl s') = true
}.

Lemma grown_refl s : grown s s. Proof. done. Qed.
Lemma grown_trans s1 s2 s3 : grown s1 s2 -> grown s2 s3 -> grown s1 s3.
Proof. intros [] []. constructor; [congruence..|auto]. Qed.

Definition total (l : list dpi_range_rule) : Z :=
  fold_right (fun (x : dpi_range_rule) n => Z.of_nat (length (range_rule_list x)) + n) 0 l.

Lemma total_store rk items l x :
  find_first (fun y => range_rule_match y rk) l = Some x ->
  total (range_store rk items l) =
  total l - Z.of_nat (length (range_rule_list x)) + Z.of_nat (length items).
Proof.
  induction l as [|y l IH]; [done|]. simpl. destruct (range_rule_match y rk); simpl.
  - intros [= ->]. lia.
  - intros Hf. rewrite IH by done. lia.
Qed.

Lemma total_snoc l rk : total (l ++ [RRule rk []]) = total l.
Proof. induction l as [|y l IH]; [done|]. simpl. rewrite IH. lia. Qed.

Lemma range_add_grown s kl kh dir d ex ret s' ex' :
  dpi_range_rule_add s kl kh dir d ex = (ret, s', ex') -> grown s s'.
Proof.
  unfold dpi_range_rule_add. destruct (get_range_key kl kh dir) as [rk|]; [|intros; simplify_eq; done].
  set (s1 := match range_lookup (hdl s) rk with Some _ => s | None => _ end).
  assert (G1 : grown s s1).
  { unfold s1. destruct (range_lookup (hdl s) rk); [done|]. constructor; try done.
    simpl. unfold range_total. simpl. by rewrite total_snoc. }
  assert (Hs1 : is_Some (range_lookup (hdl s1) rk)).
  { unfold s1. destruct (range_lookup (hdl s) rk) as [x|] eqn:E; [by rewrite E|].
    unfold range_lookup in E |- *. simpl. rewrite find_first_app, E. simpl. unfold range_rule_match.
    by rewrite bool_decide_eq_true_2. }
  clearbody s1. destruct Hs1 as [x Hx]. rewrite Hx.
  destruct (find_first (same_range kl kh) (range_rule_list x)); intros; simplify_eq; [done|].
  eapply grown_trans; [exact G1|]. constructor; try done. unfold range_lookup in Hx.
  simpl. unfold range_total. simpl. fold (total (range_policy_map (hdl s1))).
  fold (total (range_store rk (range_rule_list x ++ [Item d kl kh]) (range_policy_map (hdl s1)))).
  rewrite (total_store _ _ _ _ Hx), length_app. simpl. autorewrite with u32. f_equal. lia.
Qed.

Lemma add_one_grown e s kl kh dir d ex ret s' ex' :
  dpi_rule_add_one e s kl kh dir d ex = (ret, s', ex') -> grown s s'.
Proof.
  unfold dpi_rule_add_one. destruct kh as [kh|]; [apply range_add_grown|].
  destruct (negb _); intros; simplify_eq; [done|]. constructor; try done.
  simpl. unfold exact_total. simpl. rewrite length_app. simpl. autorewrite with u32. f_equal. lia.
Qed.

Lemma add_app_rule_grown e s kl kh a dir d ex ret s' ex' kl' kh' :
  dpi_add_app_rule e s kl kh a dir d ex = (ret, s', ex', kl', kh') -> grown s s'.
Proof.
  unfold dpi_add_app_rule. destruct (dpi_rule_add_one _ _ _ _ _ _ _) as [[r1 s1] e1] eqn:E.
  intros; simplify_eq. by eapply add_one_grown.
Qed.

Lemma add_app_rules_grown e apps s kl kh dir d ex n ret s' :
  add_app_rules e s kl kh apps dir d ex n = (ret, s') -> grown s s'.
Proof.
  revert s kl kh ex n. induction apps as [|a apps IH]; intros s kl kh ex n; simpl.
  { intros; simplify_eq; done. }
  destruct (dpi_add_app_rule e s kl kh a dir d ex) as [[[[r1 s1] e1] kl1] kh1] eqn:E.
  intros Ha. eapply grown_trans; [by eapply add_app_rule_grown|by eapply IH].
Qed.

Lemma rule_add_grown e s kl kh apps dir d ret s' kl' kh' :
  dpi_rule_add e s kl kh apps dir d = (ret, s', kl', kh') -> grown s s'.
Proof.
  unfold dpi_rule_add. destruct (dpi_rule_add_one e s kl kh dir d desc_zero) as [[r1 s1] e1] eqn:E1.
  apply add_one_grown in E1. destruct (r1 <? 0); [intros; by simplify_eq|].
  destruct (_ && negb (action e1 =? _)); [intros; by simplify_eq|].
  set (q := if _ && negb (action d =? _) then _ else _).
  assert (G : grown s1 (q.1.1.1.2)).
  { unfold q. destruct (_ && _); [|done].
    destruct (dpi_add_app_rule _ _ _ _ _ _ _ _) as [[[[r2 s2] e2] kl2] kh2] eqn:E2.
    by eapply add_app_rule_grown. }
  destruct q as [[[[r2 s2] e2] kl2] kh2]. simpl in G.
  destruct apps as [|a apps]; [intros; simplify_eq; by eapply grown_trans|].
  destruct (add_app_rules _ _ _ _ _ _ _ _ _) as [r3 s3] eqn:E3. intros; simplify_eq.
  apply add_app_rules_grown in E3. eapply grown_trans; [done|by eapply grown_trans].
Qed.

Lemma cfg_rule_grown e s r :
  Fqdn.fwf (names s) -> exists s', cfg_rule e s r = Some s' /\ grown (pst s) (pst s') /\ Fqdn.fwf (names s').
Proof.
  intros F. unfold cfg_rule.
  assert (exists fq o, resolve (names s) r = Some (fq, o) /\ Fqdn.fwf fq) as (fq & o & -> & F').
  { unfold resolve. destruct (r_fqdn r) as [|x nm]; [by eexists _, _|].
    destruct (Fqdn.config_total (names s) (x :: nm) (if r_ingress r then r_sip r else r_dip r) F)
      as (h' & code & E & F').
    rewrite E. cbn [mbind option_bind].
    destruct (code =? u32 (-1)); [|destruct (r_ingress r)]; by eexists _, _. }
  cbn [mbind option_bind]. destruct o as [r'|]; [|by eexists].
  set (s1 := match r_fqdn r with [] => _ | _ => _ end).
  assert (G1 : grown (pst s) (pst s1)).
  { unfold s1. destruct (r_fqdn r); [done|]. constructor; try done. intros _.
    unfold DPI_POLICY_HAS_FQDN. simpl. change (Z.lor ?f ?b) with (FLAGS_SET f b).
    by rewrite Fqdn.flags_test_set, orb_true_r. }
  assert (N1 : names s1 = fq) by (unfold s1; by destruct (r_fqdn r)). clearbody s1.
  eexists. split; [reflexivity|]. split; [|by rewrite <- N1 in F'].
  eapply grown_trans; [exact G1|]. cbn [pst set]. destruct (0 <? r_proto r').
  - destruct (dpi_rule_add _ _ _ _ _ _ _) as [[[? t] ?] ?] eqn:E. by eapply rule_add_grown.
  - destruct (dpi_rule_add _ (pst s1) _ _ _ _ _) as [[[? t] kl] kh] eqn:E.
    destruct (dpi_rule_add _ t _ _ _ _ _) as [[[? t'] ?] ?] eqn:E'.
    eapply grown_trans; by eapply rule_add_grown.
Qed.

Lemma cfg_rules_grown e rs s :
  Fqdn.fwf (names s) -> exists s', cfg_rules e s rs = Some s' /\ grown (pst s) (pst s') /\ Fqdn.fwf (names s').
Proof.
  revert s. induction rs as [|r rs IH]; intros s F; simpl; [by eexists|].
  destruct (cfg_rule_grown e s r F) as (s1 & -> & G1 & F1). cbn [mbind option_bind].
  destruct (IH s1 F1) as (s2 & -> & G2 & F2). exists s2. split_and!; [done|by eapply grown_trans|done].
Qed.

Lemma add_default_grown e s : grown s (dpi_add_default_policy e s).
Proof.
  unfold dpi_add_default_policy. destruct (dpi_rule_add _ _ _ _ _ _ _) as [[[? t] ?] ?] eqn:E.
  by eapply rule_add_grown.
Qed.

(** ** References *)

Definition refs (m : gmap Z io_ep) p : nat := size (filter (fun x => policy_hdl x.2 = p) m).

Lemma refs_insert_None m mac ep p :
  m !! mac = None ->
  refs (<[mac := ep]> m) p = (refs m p + if decide (policy_hdl ep = p) then 1 else 0)%nat.
Proof.
  intros Hn. unfold refs. case_decide.
  - rewrite map_filter_insert_True by done. rewrite map_size_insert_None; [lia|].
    apply map_lookup_filter_None. by left.
  - rewrite map_filter_insert_not' by (intros; by simplify_map_eq). lia.
Qed.

Lemma refs_delete m mac ep p :
  m !! mac = Some ep ->
  refs m p = (refs (delete mac m) p + if decide (policy_hdl ep = p) then 1 else 0)%nat.
Proof.
  intros Hm. rewrite <- (insert_delete_id m mac ep Hm) at 1.
  apply refs_insert_None. apply lookup_delete_eq.
Qed.

Lemma refs_insert m mac ep ep' p :
  m !! mac = Some ep ->
  (refs (<[mac := ep']> m) p + (if decide (policy_hdl ep = p) then 1 else 0) =
   refs m p + if decide (policy_hdl ep' = p) then 1 else 0)%nat.
Proof.
  intros Hm. rewrite (refs_delete m mac ep p Hm), <- (insert_delete_eq m mac ep').
  rewrite refs_insert_None by apply lookup_delete_eq. lia.
Qed.

Lemma refs_pos m mac ep : m !! mac = Some ep -> (0 < refs m (policy_hdl ep))%nat.
Proof. intros Hm. rewrite (refs_delete _ _ _ _ Hm), decide_True by done. lia. Qed.

Lemma refs_zero m p : refs m p = 0%nat -> forall mac ep, m !! mac = Some ep -> policy_hdl ep <> p.
Proof. intros Hz mac ep Hm <-. pose proof (refs_pos _ _ _ Hm). lia. Qed.

Lemma refs_le m p : (refs m p <= size m)%nat.
Proof. apply map_size_filter. Qed.

(** Sums over the handles. *)
Definition hsum (w : dpi_policy_hdl -> Z) (m : gmap Z dpi_policy_hdl) : Z :=
  map_fold (fun _ h n => w h + n) 0 m.

Lemma hsum_insert_None w m p h : m !! p = None -> hsum w (<[p := h]> m) = w h + hsum w m.
Proof. intros Hn. unfold hsum. rewrite map_fold_insert_L; [done| |done]. intros; lia. Qed.

Lemma hsum_delete w m p h : m !! p = Some h -> hsum w (delete p m) = hsum w m - w h.
Proof.
  intros Hm. rewrite <- (insert_delete_id m p h Hm) at 2.
  rewrite hsum_insert_None by apply lookup_delete_eq. lia.
Qed.

Lemma hsum_update w m p h h' : m !! p = Some h -> hsum w (<[p := h']> m) = hsum w m - w h + w h'.
Proof.
  intros Hm. rewrite <- (insert_delete_eq m p h'), hsum_insert_None by apply lookup_delete_eq.
  rewrite (hsum_delete _ _ _ _ Hm). lia.
Qed.

(** ** The invariant of the configuration

    Every endpoint's handle is allocated and counted, with the endpoint's version; every
    allocated handle is in use or is the one being built; the rule counters count the
    rules of the allocated handles. *)
Record ginv c : Prop := {
  gi_small : Z.of_nat (size (eps c)) < 65535;
  gi_null : handles c !! NULL = None;
  gi_ep mac ep : eps c !! mac = Some ep ->
    (policy_hdl ep = NULL /\ policy_ver ep = 0) \/
    exists h, handles c !! policy_hdl ep = Some h /\ policy_ver ep = ver h;
  gi_ref p h : handles c !! p = Some h -> ref_cnt h = Z.of_nat (refs (eps c) p);
  gi_live p h : handles c !! p = Some h -> refs (eps c) p = 0%nat -> p = cur_hdl c;
  gi_cur : cur_hdl c <> NULL -> is_Some (handles c !! cur_hdl c);
  gi_ver p h : handles c !! p = Some h -> ver h <> 0;
  gi_type1 : u32 (type1_rules (counts c)) = u32 (hsum exact_total (handles c));
  gi_type2 : u32 (type2_rules (counts c)) = u32 (hsum range_total (handles c));
  gi_fqdn : Fqdn.fwf (fqdn_hdl (tables c))
}.

(** Between messages the handle being built has no user. *)
Record cinv c : Prop := {
  ci_ginv : ginv c;
  ci_unused : cur_hdl c <> NULL -> refs (eps c) (cur_hdl c) = 0%nat
}.

Lemma u32_sub_cong a b x : u32 a = u32 b -> u32 (a - x) = u32 (b - x).
Proof. intros H. by rewrite <- (u32_sub_l a), H, u32_sub_l. Qed.

(** An endpoint lets go of [old]: its count drops, or the handle is freed. *)
Lemma destroy_spec c old h :
  handles c !! old = Some h ->
  exists c', dpi_policy_hdl_destroy c old = Some c' /\ eps c' = eps c /\ cur_hdl c' = cur_hdl c /\
    tables c' = tables c /\ cur_order c' = cur_order c /\ last_ver c' = last_ver c /\
    (forall q, q <> old -> handles c' !! q = handles c !! q) /\
    (if 1 <? ref_cnt h
     then handles c' !! old = Some (h <| ref_cnt := u16 (ref_cnt h - 1) |>)
     else handles c' !! old = None) /\
    (u32 (type1_rules (counts c)) = u32 (hsum exact_total (handles c)) ->
     u32 (type1_rules (counts c')) = u32 (hsum exact_total (handles c'))) /\
    (u32 (type2_rules (counts c)) = u32 (hsum range_total (handles c)) ->
     u32 (type2_rules (counts c')) = u32 (hsum range_total (handles c'))).
Proof.
  intros Hh. unfold dpi_policy_hdl_destroy. rewrite Hh. cbn [mbind option_bind].
  destruct (1 <? ref_cnt h); eexists; (split; [reflexivity|]); simpl; split_and!; try done.
  - intros q ?. by rewrite lookup_insert_ne.
  - by rewrite lookup_insert_eq.
  - intros ->. rewrite (hsum_update _ _ _ _ _ Hh). f_equal. unfold exact_total. simpl. lia.
  - intros ->. rewrite (hsum_update _ _ _ _ _ Hh). f_equal. unfold range_total. simpl. lia.
  - intros q ?. by rewrite lookup_delete_ne.
  - by rewrite lookup_delete_eq.
  - intros E. rewrite u32_u32, (hsum_delete _ _ _ _ Hh). by apply u32_sub_cong.
  - intros E. rewrite u32_u32, (hsum_delete _ _ _ _ Hh). by apply u32_sub_cong.
Qed.

(** [h1] has the rules and the version of [h]. *)
Definition same_rules (h1 h : dpi_policy_hdl) : Prop :=
  h1 <| ref_cnt := 0 |> = h <| ref_cnt := 0 |>.

Lemma same_rules_ver h1 h : same_rules h1 h -> ver h1 = ver h.
Proof. by intros E%(f_equal ver). Qed.

(** What giving out the current handle leaves as it is. *)
Record kept c c' : Prop := {
  ke_cur : cur_hdl c' = cur_hdl c;
  ke_tables : tables c' = tables c;
  ke_eps : dom (eps c') = dom (eps c);
  ke_hdl q h' : handles c' !! q = Some h' -> exists h, handles c !! q = Some h /\ same_rules h' h;
  ke_keep : is_Some (handles c !! cur_hdl c) -> is_Some (handles c' !! cur_hdl c)
}.

Lemma kept_refl c : kept c c.
Proof. constructor; try done. intros q h Hq. by exists h. Qed.
Lemma kept_trans c1 c2 c3 : kept c1 c2 -> kept c2 c3 -> kept c1 c3.
Proof.
  intros [A1 A2 A3 A4 A5] [B1 B2 B3 B4 B5]. constructor; [congruence|congruence|congruence| |].
  - intros q h3 (h2 & (h1 & ? & ?)%A4 & ?)%B4. exists h1. split; [done|]. unfold same_rules in *. congruence.
  - intros Hs. rewrite A1 in B5. by apply B5, A5.
Qed.

(** The invariant while [old] has one reference too many. *)
Record oinv old c : Prop := {
  oi_small : Z.of_nat (size (eps c)) < 65535;
  oi_null : handles c !! NULL = None;
  oi_ep mac ep : eps c !! mac = Some ep ->
    (policy_hdl ep = NULL /\ policy_ver ep = 0) \/
    exists h, handles c !! policy_hdl ep = Some h /\ policy_ver ep = ver h;
  oi_ref p h : handles c !! p = Some h ->
    ref_cnt h = Z.of_nat (refs (eps c) p + if decide (old = p) then 1 else 0);
  oi_live p h : handles c !! p = Some h -> refs (eps c) p = 0%nat -> p = cur_hdl c \/ p = old;
  oi_cur : cur_hdl c <> NULL -> is_Some (handles c !! cur_hdl c);
  oi_ver p h : handles c !! p = Some h -> ver h <> 0;
  oi_type1 : u32 (type1_rules (counts c)) = u32 (hsum exact_total (handles c));
  oi_type2 : u32 (type2_rules (counts c)) = u32 (hsum range_total (handles c));
  oi_fqdn : Fqdn.fwf (fqdn_hdl (tables c))
}.

Lemma oinv_null c : oinv NULL c -> ginv c.
Proof.
  intros [A1 A2 A3 A4 A5 A6 A7 A8 A9 A10]. constructor; try done.
  - intros p h Hp. rewrite (A4 p h Hp), decide_False; [f_equal; lia|]. intros <-. congruence.
  - intros p h Hp Hz. destruct (A5 p h Hp Hz) as [?| ->]; congruence.
Qed.

(** Letting go of the reference. *)
Lemma oinv_destroy old c :
  oinv old c -> is_Some (handles c !! old) -> (old = cur_hdl c -> refs (eps c) old <> 0%nat) ->
  exists c', dpi_policy_hdl_destroy c old = Some c' /\ ginv c' /\ kept c c' /\ eps c' = eps c.
Proof.
  intros O [ho Ho] Hcur. destruct (destroy_spec c old ho Ho)
    as (c' & -> & E1 & E2 & E3 & _ & _ & Hne & Hat & T1 & T2).
  pose proof (oi_ref _ _ O _ _ Ho) as Hor. rewrite decide_True in Hor by done.
  assert (H2 : forall q h2, handles c' !! q = Some h2 ->
    exists h1, handles c !! q = Some h1 /\ same_rules h2 h1 /\
      ref_cnt h2 = Z.of_nat (refs (eps c) q) /\ (q = old -> refs (eps c) q <> 0%nat)).
  { intros q h2 Hq. destruct (decide (q = old)) as [->|Hqn].
    - destruct (Z.ltb_spec 1 (ref_cnt ho)); [|congruence]. rewrite Hat in Hq. injection Hq as <-.
      exists ho. split_and!; [done|done| |lia]. simpl. rewrite u16_id; [lia|].
      pose proof (refs_le (eps c) old). pose proof (oi_small _ _ O). unfold is_u16. lia.
    - rewrite Hne in Hq by done. exists h2. split_and!; [done|done| |done].
      rewrite (oi_ref _ _ O _ _ Hq), decide_False by (by apply not_eq_sym). f_equal. lia. }
  assert (H3 : forall q, is_Some (handles c !! q) -> refs (eps c) q <> 0%nat \/ q <> old ->
             is_Some (handles c' !! q)).
  { intros q Hs Hz. destruct (decide (q = old)) as [->|Hqn]; [|by rewrite Hne].
    rewrite (proj2 (Z.ltb_lt 1 (ref_cnt ho))) in Hat by (destruct Hz; [lia|done]). by rewrite Hat. }
  assert (Hkeep : is_Some (handles c !! cur_hdl c) -> is_Some (handles c' !! cur_hdl c)).
  { intros Hs. apply H3; [done|]. destruct (decide (cur_hdl c = old)) as [<-|]; [left; by apply Hcur|by right]. }
  exists c'. split_and!; [done| |constructor|done]; rewrite ?E1, ?E2, ?E3; try done.
  - constructor; rewrite ?E1, ?E2, ?E3; try apply O; auto.
    + destruct (handles c' !! NULL) as [h2|] eqn:Hx; [|done].
      destruct (H2 _ _ Hx) as (? & ? & _). pose proof (oi_null _ _ O). congruence.
    + intros m x Hx. pose proof (refs_pos _ _ _ Hx) as Hz.
      destruct (oi_ep _ _ O m x Hx) as [?|(h1 & H1 & ->)]; [by left|right].
      destruct (H3 _ (mk_is_Some _ _ H1)) as [h2 Hx2]; [left; lia|]. exists h2. split; [done|].
      destruct (H2 _ _ Hx2) as (h1' & H1' & ->%same_rules_ver & _). congruence.
    + intros q h2 (h1 & _ & _ & Hr & _)%H2. done.
    + intros q h2 Hq Hz. destruct (H2 _ _ Hq) as (h1 & H1 & _ & _ & Hn).
      destruct (oi_live _ _ O q h1 H1 Hz) as [?|He]; [done|]. by destruct (Hn He).
    + intros Hn. by apply Hkeep, (oi_cur _ _ O).
    + intros q h2 (h1 & H1 & ->%same_rules_ver & _)%H2. by apply (oi_ver _ _ O _ _ H1).
    + apply T1, O.
    + apply T2, O.
  - intros q h2 (h1 & ? & ? & _)%H2. by exists h1.
Qed.

(** dpi_policy_update before it lets go of the old handle. *)
Definition relinked c mac p : cfg :=
  match handles c !! p with
  | Some h => c <| handles ::= <[p := h <| ref_cnt ::= fun n => u16 (n + 1) |>]> |>
                <| eps ::= <[mac := Ep p (ver h)]> |>
  | None => c <| eps ::= <[mac := Ep p 0]> |>
  end.

Lemma update_relinked c mac ep p :
  ginv c -> eps c !! mac = Some ep -> p = NULL \/ is_Some (handles c !! p) ->
  dpi_policy_update c mac p =
  (c ← (if negb (policy_hdl ep =? NULL) then dpi_policy_hdl_destroy (relinked c mac p) (policy_hdl ep)
        else Some (relinked c mac p)); Some (c, 0)).
Proof.
  intros G Hm Hp. unfold dpi_policy_update, relinked. rewrite Hm. cbn [policy_hdl].
  destruct (Z.eqb_spec p NULL) as [->|Hne]; simpl.
  - by rewrite (gi_null _ G).
  - destruct Hp as [?|[h Hh]]; [done|]. by rewrite Hh.
Qed.

(** The new handles, field by field. *)
Lemma relinked_handles c mac ep p :
  ginv c -> eps c !! mac = Some ep -> p = NULL \/ is_Some (handles c !! p) ->
  let c1 := relinked c mac p in
  (exists v, eps c1 = <[mac := Ep p v]> (eps c) /\
     (p = NULL /\ v = 0 \/ exists h, handles c1 !! p = Some h /\ v = ver h)) /\
  cur_hdl c1 = cur_hdl c /\ tables c1 = tables c /\ handles c1 !! NULL = None /\
  u32 (type1_rules (counts c1)) = u32 (hsum exact_total (handles c1)) /\
  u32 (type2_rules (counts c1)) = u32 (hsum range_total (handles c1)) /\
  (forall q, is_Some (handles c1 !! q) <-> is_Some (handles c !! q)) /\
  (forall q h1, handles c1 !! q = Some h1 ->
     (exists h, handles c !! q = Some h /\ same_rules h1 h) /\
     ref_cnt h1 = Z.of_nat (refs (eps c1) q + if decide (policy_hdl ep = q) then 1 else 0)).
Proof.
  intros G Hm Hp c1.
  assert (Hsz : forall q, Z.of_nat (refs (eps c) q) < 65535).
  { intros q. pose proof (refs_le (eps c) q). pose proof (gi_small _ G). lia. }
  unfold c1, relinked. destruct (handles c !! p) as [h|] eqn:Hh.
  - assert (p <> NULL) as Hpn by (intros ->; by rewrite (gi_null _ G) in Hh).
    simpl. split_and!; try done.
    + exists (ver h). split; [done|]. right. eexists. by rewrite lookup_insert_eq.
    + rewrite lookup_insert_ne by done. apply G.
    + rewrite (hsum_update _ _ _ _ _ Hh), (gi_type1 _ G). f_equal. unfold exact_total. simpl. lia.
    + rewrite (hsum_update _ _ _ _ _ Hh), (gi_type2 _ G). f_equal. unfold range_total. simpl. lia.
    + intros q. rewrite lookup_insert_is_Some. destruct (decide (p = q)) as [->|]; [|tauto].
      split; [by eexists|by left].
    + intros q h1 Hq. pose proof (refs_insert (eps c) mac ep (Ep p (ver h)) q Hm) as R.
      cbn [policy_hdl] in R. apply lookup_insert_Some in Hq as [[<- <-]|[Hne Hq]].
      * split; [by exists h|]. simpl. rewrite (gi_ref _ G _ _ Hh).
        rewrite (decide_True (P := p = p)) in R by done. rewrite u16_id; [lia|].
        specialize (Hsz p). unfold is_u16. lia.
      * split; [by exists h1|]. rewrite (gi_ref _ G _ _ Hq).
        rewrite (decide_False (P := p = q)) in R by done. lia.
  - assert (p = NULL) as -> by (by destruct Hp as [?|[? ?]]).
    simpl. split_and!; try done; try apply G.
    + exists 0. split; [done|by left].
    + intros q h1 Hq. pose proof (refs_insert (eps c) mac ep (Ep NULL 0) q Hm) as R.
      cbn [policy_hdl] in R. rewrite (decide_False (P := NULL = q)) in R;
        [|intros <-; pose proof (gi_null _ G); congruence].
      split; [by exists h1|]. rewrite (gi_ref _ G _ _ Hq). lia.
Qed.

Lemma relinked_oinv c mac ep p :
  ginv c -> eps c !! mac = Some ep -> p = NULL \/ is_Some (handles c !! p) ->
  let c1 := relinked c mac p in oinv (policy_hdl ep) c1 /\ kept c c1.
Proof.
  intros G Hm Hp. cbv zeta. destruct (relinked_handles _ _ _ _ G Hm Hp)
    as ((v & Heps & Hv) & Hcur & Htab & Hnull & Ht1 & Ht2 & Hdom & Hh).
  set (c1 := relinked c mac p) in *. clearbody c1.
  assert (Hdeps : dom (eps c1) = dom (eps c)).
  { rewrite Heps, dom_insert_L. apply elem_of_dom_2 in Hm. set_solver. }
  assert (Hsz : size (eps c1) = size (eps c)) by (by rewrite Heps, map_size_insert, Hm).
  split; constructor; rewrite ?Hsz, ?Hcur, ?Htab; try done; try apply G.
  - intros m x Hx. rewrite Heps in Hx. apply lookup_insert_Some in Hx as [[<- <-]|[_ Hx]].
    { destruct Hv as [?|(h & ? & ?)]; [by left|right; by exists h]. }
    destruct (gi_ep _ G m x Hx) as [?|(h & Hq & ->)]; [by left|right].
    destruct (proj2 (Hdom _) (mk_is_Some _ _ Hq)) as [h1 H1]. exists h1. split; [done|].
    destruct (Hh _ _ H1) as [(h' & Hq' & ->%same_rules_ver) _]. congruence.
  - intros q h1 H1. by apply Hh.
  - intros q h1 H1 Hz. destruct (Hh _ _ H1) as [(h & Hq & _) _].
    destruct (decide (q = policy_hdl ep)) as [|Hne]; [by right|left].
    apply (gi_live _ G _ _ Hq). pose proof (refs_insert (eps c) mac ep (Ep p v) q Hm) as R.
    rewrite <- Heps, Hz, decide_False in R by (by apply not_eq_sym). lia.
  - intros Hn. by apply Hdom, (gi_cur _ G).
  - intros q h1 H1. destruct (Hh _ _ H1) as [(h & Hq & ->%same_rules_ver) _]. by apply (gi_ver _ G _ _ Hq).
  - intros q h1 H1. by apply Hh.
  - by apply Hdom.
Qed.

Lemma update_ginv c mac p :
  ginv c -> p = cur_hdl c ->
  exists c' ret, dpi_policy_update c mac p = Some (c', ret) /\ ginv c' /\ kept c c' /\
    (forall m ep, eps c' !! m = Some ep -> m = mac /\ policy_hdl ep = p \/ eps c !! m = Some ep) /\
    (forall ep, eps c' !! mac = Some ep -> policy_hdl ep = p).
Proof.
  intros G Hp. destruct (eps c !! mac) as [ep|] eqn:Hm.
  2: { exists c, (-1). unfold dpi_policy_update. rewrite Hm.
       split_and!; [done|done|apply kept_refl|by right|]. intros ep. congruence. }
  assert (Hp' : p = NULL \/ is_Some (handles c !! p)).
  { destruct (decide (p = NULL)); [by left|right]. subst p. by apply (gi_cur _ G). }
  rewrite (update_relinked _ _ _ _ G Hm Hp').
  destruct (relinked_oinv _ _ _ _ G Hm Hp') as [O1 K1].
  destruct (relinked_handles _ _ _ _ G Hm Hp') as ((v & Heps & _) & _ & _ & _ & _ & _ & Hdom & _).
  set (c1 := relinked c mac p) in *. clearbody c1.
  assert (Hmap : forall c', eps c' = eps c1 ->
    (forall m ep, eps c' !! m = Some ep -> m = mac /\ policy_hdl ep = p \/ eps c !! m = Some ep) /\
    (forall ep, eps c' !! mac = Some ep -> policy_hdl ep = p)).
  { intros c' ->. rewrite Heps. split.
    - intros m x [[<- <-]|[_ ?]]%lookup_insert_Some; [by left|by right].
    - intros x. rewrite lookup_insert_eq. by intros [= <-]. }
  destruct (Z.eqb_spec (policy_hdl ep) NULL) as [Hold|Hold]; cbn [negb mbind option_bind].
  { exists c1, 0. rewrite Hold in O1. split_and!; [done|by apply oinv_null|done|by apply Hmap..]. }
  destruct (oinv_destroy (policy_hdl ep) c1 O1) as (c2 & -> & G2 & K2 & E2).
  - apply Hdom. destruct (gi_ep _ G mac ep Hm) as [[? _]|(h & Hq & _)]; [done|by eexists].
  - intros He. rewrite He, (ke_cur _ _ K1), <- Hp, Heps.
    pose proof (refs_pos (<[mac := Ep p v]> (eps c)) mac (Ep p v)) as Hps.
    rewrite lookup_insert_eq in Hps. specialize (Hps eq_refl). simpl in Hps. lia.
  - exists c2, 0. cbn [mbind option_bind]. split_and!; [done|done|by eapply kept_trans|by apply Hmap..].
Qed.

Lemma update_macs_ginv macs c p :
  ginv c -> p = cur_hdl c ->
  exists c', update_macs c macs p = Some c' /\ ginv c' /\ kept c c' /\
    (forall m ep, eps c' !! m = Some ep -> m ∈ macs -> policy_hdl ep = p) /\
    (forall m ep, eps c' !! m = Some ep -> m ∉ macs -> eps c !! m = Some ep).
Proof.
  revert c. induction macs as [|mac macs IH]; intros c G Hp.
  { exists c. split_and!; [done|done|apply kept_refl|by intros m ep _ ?%elem_of_nil|done]. }
  cbn [update_macs]. destruct (update_ginv c mac p G Hp) as (c1 & ret & -> & G1 & K1 & He & Hm).
  cbn [mbind option_bind].
  destruct (IH c1 G1) as (c2 & -> & G2 & K2 & Hin & Hout); [by rewrite (ke_cur _ _ K1)|].
  exists c2. split_and!; [done|done|by eapply kept_trans| |].
  - intros m ep Hx Hmm. destruct (decide (m ∈ macs)) as [|Hn]; [by eapply Hin|].
    apply elem_of_cons in Hmm as [->|]; [|done]. by apply Hm, Hout.
  - intros m ep Hx [Hne Hn]%not_elem_of_cons. specialize (Hout m ep Hx Hn).
    destruct (He m ep Hout) as [[? _]|]; done.
Qed.

Lemma destroy_unused c :
  cinv c -> cur_hdl c <> NULL ->
  exists c', dpi_policy_hdl_destroy c (cur_hdl c) = Some c' /\ cinv (c' <| cur_hdl := NULL |>) /\
    eps c' = eps c /\ tables c' = tables c /\ last_ver c' = last_ver c /\
    handles c' !! cur_hdl c = None /\ (forall q, q <> cur_hdl c -> handles c' !! q = handles c !! q).
Proof.
  intros [G U] Hn. destruct (gi_cur _ G Hn) as [h Hh].
  destruct (destroy_spec c (cur_hdl c) h Hh) as (c' & -> & E1 & E2 & E3 & _ & E4 & Hne & Hat & T1 & T2).
  rewrite (gi_ref _ G _ _ Hh), (U Hn) in Hat. simpl in Hat.
  exists c'. split_and!; try done. split; [|done].
  assert (Hq : forall q hq, handles c' !! q = Some hq -> handles c !! q = Some hq /\ q <> cur_hdl c).
  { intros q hq Hx. destruct (decide (q = cur_hdl c)) as [->|]; [congruence|]. by rewrite <- Hne. }
  constructor; simpl; rewrite ?E1, ?E3; try apply G; try done.
  - rewrite Hne by done. apply G.
  - intros mac ep Hx. destruct (gi_ep _ G mac ep Hx) as [?|(hq & Hhq & Hv)]; [by left|right].
    exists hq. split; [|done]. rewrite Hne; [done|]. intros He.
    pose proof (refs_pos _ _ _ Hx) as Hp. rewrite He, U in Hp by done. lia.
  - intros q hq [Hx _]%Hq. by apply (gi_ref _ G).
  - intros q hq [Hx Hqn]%Hq Hz. by destruct (Hqn (gi_live _ G _ _ Hx Hz)).
  - intros q hq [Hx _]%Hq. by apply (gi_ver _ G _ _ Hx).
  - apply T1, G.
  - apply T2, G.
Qed.

Lemma new_ver v : GET_NEW_POLICY_VER v <> 0.
Proof.
  unfold GET_NEW_POLICY_VER. destruct (Z.eqb_spec (u16 (v + 1)) 0) as [->|]; [|done]. done.
Qed.

(** A new handle. *)
Lemma start_cinv c h :
  cinv c -> cur_hdl c = NULL -> ref_cnt h = 0 -> ver h <> 0 -> exact_total h = 0 -> range_total h = 0 ->
  let c' := c <| handles ::= <[fresh_hdl c := h]> |> <| cur_hdl := fresh_hdl c |> <| cur_order := 0 |>
              <| last_ver := ver h |> in
  cinv c' /\ cur_hdl c' <> NULL.
Proof.
  intros [G U] Hc Hr Hv H1 H2 c'.
  assert (Hf : fresh_hdl c ∉ ({[NULL]} ∪ dom (handles c) : gset Z)) by (unfold fresh_hdl; apply is_fresh).
  apply not_elem_of_union in Hf as [Hf0%not_elem_of_singleton Hf1%not_elem_of_dom].
  assert (Hr0 : refs (eps c) (fresh_hdl c) = 0%nat).
  { destruct (decide (refs (eps c) (fresh_hdl c) = 0%nat)) as [|Hz]; [done|]. exfalso.
    unfold refs in Hz. assert (filter (fun x : Z * io_ep => policy_hdl x.2 = fresh_hdl c) (eps c) <> ∅) as Hne.
    { intros He. rewrite He in Hz. done. }
    apply map_choose in Hne as (m & ep & [Hx Hy]%map_lookup_filter_Some). simpl in Hy.
    destruct (gi_ep _ G m ep Hx) as [[? _]|(hq & Hq & _)]; congruence. }
  split; [|done]. split; [|done]. constructor; simpl; try apply G; try done.
  - rewrite lookup_insert_ne by done. apply G.
  - intros m ep Hx. destruct (gi_ep _ G m ep Hx) as [?|(hq & Hq & Hv')]; [by left|right].
    exists hq. split; [|done]. rewrite lookup_insert_ne; [done|]. intros He. congruence.
  - intros q hq [[<- <-]|[_ Hq]]%lookup_insert_Some; [by rewrite Hr, Hr0|by apply (gi_ref _ G)].
  - intros q hq [[<- <-]|[_ Hq]]%lookup_insert_Some Hz; [done|].
    pose proof (gi_live _ G _ _ Hq Hz) as He. rewrite Hc in He. subst q. by rewrite (gi_null _ G) in Hq.
  - intros _. rewrite lookup_insert_eq. by eexists.
  - intros q hq [[<- <-]|[_ Hq]]%lookup_insert_Some; [done|by apply (gi_ver _ G _ _ Hq)].
  - rewrite hsum_insert_None, H1 by done. apply G.
  - rewrite hsum_insert_None, H2 by done. apply G.
Qed.

(** The handle being built gets rules. *)
Lemma fill_cinv c h t e o :
  cinv c -> cur_hdl c <> NULL -> handles c !! cur_hdl c = Some h ->
  grown (PState h (counts c)) t -> Fqdn.fwf (fqdn_hdl e) ->
  cinv (c <| handles ::= <[cur_hdl c := hdl t]> |> <| counts := th_counter t |>
          <| tables := e |> <| cur_order := o |>).
Proof.
  intros [G U] Hn Hh [T1 T2 Hv Hr _] F. simpl in *. split; [|done].
  assert (Hsum : forall (w : dpi_policy_hdl -> Z) t0 t1, u32 (t1 - w (hdl t)) = u32 (t0 - w h) ->
            u32 t0 = u32 (hsum w (handles c)) -> u32 t1 = u32 (hsum w (<[cur_hdl c := hdl t]> (handles c)))).
  { intros w t0 t1 Ht H0. rewrite (hsum_update _ _ _ _ _ Hh).
    replace t1 with ((t1 - w (hdl t)) - (- w (hdl t))) by lia.
    rewrite <- u32_sub_l, Ht, u32_sub_l.
    replace (t0 - w h - - w (hdl t)) with (t0 - (w h - w (hdl t))) by lia.
    rewrite <- u32_sub_l, H0, u32_sub_l. f_equal. lia. }
  constructor; simpl; try apply G; try done.
  - rewrite lookup_insert_ne by done. apply G.
  - intros m ep Hx. destruct (gi_ep _ G m ep Hx) as [?|(hq & Hq & Hv')]; [by left|right].
    exists hq. split; [|done]. rewrite lookup_insert_ne; [done|]. intros He.
    pose proof (refs_pos _ _ _ Hx) as Hp. rewrite <- He, U in Hp by done. lia.
  - intros q hq [[<- <-]|[_ Hq]]%lookup_insert_Some; [|by apply (gi_ref _ G)].
    rewrite Hr. by apply (gi_ref _ G).
  - intros q hq [[<- <-]|[_ Hq]]%lookup_insert_Some Hz; [done|by apply (gi_live _ G _ _ Hq)].
  - intros _. rewrite lookup_insert_eq. by eexists.
  - intros q hq [[<- <-]|[_ Hq]]%lookup_insert_Some; [|by apply (gi_ver _ G _ _ Hq)].
    rewrite Hv. by apply (gi_ver _ G _ _ Hh).
  - eapply Hsum; [done|apply G].
  - eapply Hsum; [done|apply G].
Qed.

Lemma cfg_start_cinv c pol :
  cinv c -> cur_hdl c = NULL -> cinv (cfg_start c pol) /\ cur_hdl (cfg_start c pol) <> NULL.
Proof.
  intros I Hc. apply (start_cinv c (new_hdl pol (GET_NEW_POLICY_VER (last_ver c))) I Hc); try done.
  apply new_ver.
Qed.

Lemma cfg_fill_spec c pol fl :
  cinv c -> cur_hdl c <> NULL ->
  exists h s c', handles c !! cur_hdl c = Some h /\
    cfg_rules (tables c) (RState (PState h (counts c)) (fqdn_hdl (tables c)) (cur_order c)) (rule_list pol) =
      Some s /\
    cfg_fill c pol fl = Some c' /\ cinv c' /\ cur_hdl c' = cur_hdl c /\ eps c' = eps c /\
    tables c' = (tables c) <| fqdn_hdl := names s |> /\
    handles c' !! cur_hdl c =
      Some (hdl (if FLAGS_TEST fl MSG_END then dpi_add_default_policy (tables c') (pst s) else pst s)).
Proof.
  intros I Hn. destruct (gi_cur _ (ci_ginv _ I) Hn) as [h Hh]. unfold cfg_fill. rewrite Hh.
  cbn [mbind option_bind].
  destruct (cfg_rules_grown (tables c) (rule_list pol)
    (RState (PState h (counts c)) (fqdn_hdl (tables c)) (cur_order c))) as (s & Es & Gr & F).
  { apply (ci_ginv _ I). }
  rewrite Es. cbn [mbind option_bind]. eexists h, s, _. split_and!; [done|done|reflexivity| |done|done|done|].
  - apply (fill_cinv c h); [done|done|done| |done].
    destruct (FLAGS_TEST fl MSG_END); [|done]. eapply grown_trans; [exact Gr|apply add_default_grown].
  - apply lookup_insert_eq.
Qed.

Lemma cfg_add_cinv c pol fl :
  cinv c -> (if FLAGS_TEST fl MSG_START then cur_hdl c = NULL else cur_hdl c <> NULL) ->
  exists c', cfg_add c pol fl = Some c' /\ cinv c' /\ cur_hdl c' <> NULL /\ eps c' = eps c.
Proof.
  intros I Hs. unfold cfg_add.
  assert (exists c1, (if FLAGS_TEST fl MSG_START then cfg_start c pol else c) = c1 /\
            cinv c1 /\ cur_hdl c1 <> NULL /\ eps c1 = eps c) as (c1 & E1 & I1 & Hn & He).
  { destruct (FLAGS_TEST fl MSG_START); [|by exists c].
    destruct (cfg_start_cinv c pol I Hs) as [? ?]. exists (cfg_start c pol). by split_and!. }
  rewrite E1. destruct (cfg_fill_spec c1 pol fl I1 Hn) as (h & s & c' & _ & _ & -> & I' & Hc & He' & _).
  exists c'. rewrite Hc, He'. done.
Qed.

(** Giving the handle out and forgetting it. *)
Lemma finish_cinv c macs :
  cinv c ->
  exists c1 c2, update_macs c macs (cur_hdl c) = Some c1 /\
    (if negb (cur_hdl c1 =? NULL) then
       h ← handles c1 !! cur_hdl c1;
       if ref_cnt h =? 0 then dpi_policy_hdl_destroy c1 (cur_hdl c1) else Some c1
     else Some c1) = Some c2 /\
    cinv (c2 <| cur_hdl := NULL |>) /\ kept c c1 /\ eps c2 = eps c1 /\ tables c2 = tables c /\
    (forall m ep, eps c2 !! m = Some ep ->
       (m ∈ macs -> policy_hdl ep = cur_hdl c) /\ (m ∉ macs -> eps c !! m = Some ep)) /\
    (forall q h, handles c2 !! q = Some h -> handles c1 !! q = Some h).
Proof.
  intros I. destruct (update_macs_ginv macs c (cur_hdl c) (ci_ginv _ I) eq_refl)
    as (c1 & -> & G1 & K1 & Hin & Hout).
  exists c1.
  destruct (Z.eqb_spec (cur_hdl c1) NULL) as [Hc|Hc]; cbn [negb].
  { exists c1. split_and!; try done; [|apply K1|by split; [eapply Hin|eapply Hout]].
    split; [|done]. destruct G1 as [A1 A2 A3 A4 A5 A6 A7 A8 A9 A10]. constructor; try done.
    intros q h Hq Hz. rewrite <- Hc. by eapply A5. }
  destruct (gi_cur _ G1 Hc) as [h Hh]. rewrite Hh. cbn [mbind option_bind].
  rewrite (gi_ref _ G1 _ _ Hh).
  destruct (decide (refs (eps c1) (cur_hdl c1) = 0%nat)) as [Hz|Hz].
  - rewrite Hz. simpl. assert (I1 : cinv c1) by (by split).
    destruct (destroy_unused c1 I1 Hc) as (c2 & E & I2 & E1 & E2 & _ & E3 & E4).
    exists c2. split_and!; try done.
    + rewrite E2. apply K1.
    + intros m ep. rewrite E1. by split; [eapply Hin|eapply Hout].
    + intros q hq Hq. destruct (decide (q = cur_hdl c1)) as [->|]; [congruence|]. by rewrite <- E4.
  - rewrite (proj2 (Z.eqb_neq _ 0)) by lia.
    exists c1. split_and!; try done; [|apply K1|by split; [eapply Hin|eapply Hout]].
    split; [|done]. destruct G1 as [A1 A2 A3 A4 A5 A6 A7 A8 A9 A10]. constructor; try done.
    intros q hq Hq Hzq. by destruct Hz; rewrite <- (A5 q hq Hq Hzq).
Qed.

(** One message, decomposed: an unfinished handle is dropped or kept, rules are added to
    the handle being built, and at the end of the policy it is given out. *)
Lemma policy_cfg_sound c cmd pol fl :
  cinv c ->
  exists c' ret, dpi_policy_cfg c cmd pol fl = Some (c', ret) /\ cinv c' /\
    dom (eps c') = dom (eps c) /\
    (if negb (FLAGS_TEST fl MSG_START) && (cur_hdl c =? NULL) then ret = -1 /\ c' = c else ret = 0) /\
    (ret = 0 -> FLAGS_TEST fl MSG_END = true -> cur_hdl c' = NULL /\
       exists p, (cmd = CFG_DELETE -> p = NULL) /\
         forall m ep, eps c' !! m = Some ep ->
           (m ∈ mac_list pol -> policy_hdl ep = p) /\ (m ∉ mac_list pol -> eps c !! m = Some ep)).
Proof.
  intros I. unfold dpi_policy_cfg.
  assert (exists c1, (if FLAGS_TEST fl MSG_START then
       if negb (cur_hdl c =? NULL) then
         c ← dpi_policy_hdl_destroy c (cur_hdl c); Some (c <| cur_hdl := NULL |>, false)
       else Some (c, false)
     else Some (c, cur_hdl c =? NULL)) = Some (c1, negb (FLAGS_TEST fl MSG_START) && (cur_hdl c =? NULL)) /\
     cinv c1 /\ eps c1 = eps c /\ (FLAGS_TEST fl MSG_START = true -> cur_hdl c1 = NULL) /\
     (FLAGS_TEST fl MSG_START = false -> c1 = c)) as (c1 & -> & I1 & E1 & Hs1 & Hs2).
  { destruct (FLAGS_TEST fl MSG_START); [|by eexists].
    destruct (Z.eqb_spec (cur_hdl c) NULL) as [Hc|Hc]; cbn [negb]; [by eexists|].
    destruct (destroy_unused c I Hc) as (c2 & -> & I2 & E & _). cbn [mbind option_bind]. by eexists. }
  cbn [mbind option_bind].
  destruct (negb (FLAGS_TEST fl MSG_START) && (cur_hdl c =? NULL)) eqn:Hmiss.
  { apply andb_true_iff in Hmiss as [Hst%negb_true_iff _]. rewrite (Hs2 Hst).
    exists c, (-1). split_and!; try done. }
  assert (exists c2, (if negb (cmd =? CFG_DELETE) then cfg_add c1 pol fl
     else if negb (cur_hdl c1 =? NULL) then
       c ← dpi_policy_hdl_destroy c1 (cur_hdl c1);
       Some (c <| cur_hdl := NULL |> <| cur_order := 0 |>)
     else Some c1) = Some c2 /\ cinv c2 /\ eps c2 = eps c1 /\ (cmd = CFG_DELETE -> cur_hdl c2 = NULL))
    as (c2 & -> & I2 & E2 & Hd2).
  { destruct (Z.eqb_spec cmd CFG_DELETE) as [->|Hcmd]; cbn [negb].
    - destruct (Z.eqb_spec (cur_hdl c1) NULL) as [Hc|Hc]; cbn [negb]; [by eexists|].
      destruct (destroy_unused c1 I1 Hc) as (c2 & -> & [[] ?] & E & _). cbn [mbind option_bind].
      eexists. split; [reflexivity|]. split_and!; [|done|done]. split; [by constructor|done].
    - destruct (cfg_add_cinv c1 pol fl I1) as (c2 & -> & I2 & _ & E2).
      { destruct (FLAGS_TEST fl MSG_START); [by apply Hs1|]. rewrite Hs2 by done. simpl in Hmiss.
        by apply Z.eqb_neq. }
      by exists c2. }
  cbn [mbind option_bind]. destruct (FLAGS_TEST fl MSG_END) eqn:Hend; cbn [negb].
  2: { exists c2, 0. split_and!; try done. congruence. }
  destruct (finish_cinv c2 (mac_list pol) I2) as (c3 & c4 & -> & Hx & I4 & K & E4 & _ & Hm & _).
  cbn [mbind option_bind]. rewrite Hx. cbn [mbind option_bind].
  eexists _, 0. split; [reflexivity|]. split_and!; [done| |done|].
  - simpl. rewrite E4, (ke_eps _ _ K). congruence.
  - intros _ _. split; [done|]. exists (cur_hdl c2). split; [done|]. intros m ep Hep.
    destruct (Hm m ep Hep) as [H1 H2]. split; [done|]. rewrite <- E1, <- E2. done.
Qed.

(** ** Runs

    Endpoints come without a policy; one that goes drops its handle. *)
Inductive msg :=
  | MPolicy (cmd : Z) (pol : dpi_policy) (flag : Z)
  | MEpAdd (mac : Z)
  | MEpDel (mac : Z).

Definition ep_add c mac : cfg :=
  match eps c !! mac with
  | Some _ => c
  | None => c <| eps ::= <[mac := Ep NULL 0]> |>
  end.
Definition ep_del c mac : option cfg :=
  match eps c !! mac with
  | Some ep => dp_policy_destroy (c <| eps ::= delete mac |>) (policy_hdl ep)
  | None => Some c
  end.
Definition run1 c (m : msg) : option cfg :=
  match m with
  | MPolicy cmd pol fl => fst <$> dpi_policy_cfg c cmd pol fl
  | MEpAdd mac => Some (ep_add c mac)
  | MEpDel mac => ep_del c mac
  end.
Fixpoint run c (ms : list msg) : option cfg :=
  match ms with
  | [] => Some c
  | m :: ms => c ← run1 c m; run c ms
  end.

Lemma ep_add_cinv c mac :
  cinv c -> Z.of_nat (size (eps c)) + 1 < 65535 -> cinv (ep_add c mac).
Proof.
  intros [G U] Hs. unfold ep_add. destruct (eps c !! mac) eqn:Hm; [done|].
  assert (R : forall q, q <> NULL -> refs (<[mac := Ep NULL 0]> (eps c)) q = refs (eps c) q).
  { intros q Hq. rewrite refs_insert_None, decide_False by (done || by apply not_eq_sym). lia. }
  assert (Hnn : forall q h, handles c !! q = Some h -> q <> NULL).
  { intros q h Hq ->. by rewrite (gi_null _ G) in Hq. }
  split; [|intros Hc; simpl; by rewrite R, U].
  destruct G as [A1 A2 A3 A4 A5 A6 A7 A8 A9 A10]. constructor; simpl; try done.
  - rewrite map_size_insert_None by done. lia.
  - intros m ep [[<- <-]|[_ ?]]%lookup_insert_Some; [by left|by eapply A3].
  - intros q h Hq. rewrite R by (by eapply Hnn). by apply A4.
  - intros q h Hq. rewrite R by (by eapply Hnn). by eapply A5.
Qed.

Lemma ep_del_cinv c mac :
  cinv c -> exists c', ep_del c mac = Some c' /\ cinv c' /\ (size (eps c') <= size (eps c))%nat.
Proof.
  intros [G U]. unfold ep_del. destruct (eps c !! mac) as [ep|] eqn:Hm; [|by exists c].
  set (c1 := c <| eps ::= delete mac |>).
  assert (Hsz : (size (delete mac (eps c)) <= size (eps c))%nat).
  { rewrite map_size_delete, Hm. simpl. lia. }
  pose proof (fun q => refs_delete _ _ _ q Hm) as R.
  assert (O : oinv (policy_hdl ep) c1).
  { destruct G as [A1 A2 A3 A4 A5 A6 A7 A8 A9 A10]. constructor; simpl; try done.
    - lia.
    - intros m x [_ Hx]%lookup_delete_Some. by eapply A3.
    - intros q h Hq. rewrite (A4 q h Hq). f_equal. apply R.
    - intros q h Hq Hz. destruct (decide (q = policy_hdl ep)); [by right|left]. eapply A5; [done|].
      rewrite R, Hz, decide_False by (by apply not_eq_sym). done. }
  unfold dp_policy_destroy. destruct (Z.eqb_spec (policy_hdl ep) NULL) as [Hn|Hn]; cbn [negb].
  { exists c1. rewrite Hn in O. split_and!; [done| |done]. split; [by apply oinv_null|].
    intros Hc. specialize (U Hc). simpl. rewrite R in U. simpl in *. lia. }
  assert (Hcur : policy_hdl ep <> cur_hdl c).
  { intros He. pose proof (refs_pos _ _ _ Hm) as Hp. rewrite He in *. rewrite U in Hp by done. lia. }
  destruct (oinv_destroy (policy_hdl ep) c1 O) as (c2 & -> & G2 & K2 & E2); [|done|].
  { destruct (gi_ep _ G mac ep Hm) as [[? _]|(h & Hq & _)]; [done|by eexists]. }
  exists c2. rewrite E2. split_and!; [done| |done]. split; [done|].
  rewrite (ke_cur _ _ K2), E2. intros Hc. specialize (U Hc). rewrite R in U. simpl. lia.
Qed.

Definition adds (ms : list msg) : Z :=
  Z.of_nat (length (List.filter (fun m => match m with MEpAdd _ => true | _ => false end) ms)).

Lemma run_cinv ms c :
  cinv c -> Z.of_nat (size (eps c)) + adds ms < 65535 -> exists c', run c ms = Some c' /\ cinv c'.
Proof.
  revert c. induction ms as [|m ms IH]; intros c I Hs; [by exists c|].
  unfold adds in *. cbn [run]. destruct m as [cmd pol fl|mac|mac]; cbn [run1].
  - destruct (policy_cfg_sound c cmd pol fl I) as (c' & ret & -> & I' & Hd & _). simpl.
    apply IH; [done|]. rewrite <- !size_dom, Hd, size_dom. exact Hs.
  - cbn [mbind option_bind]. simpl in Hs. apply IH; [apply ep_add_cinv; [done|lia]|].
    unfold ep_add. destruct (eps c !! mac) eqn:E; simpl; [lia|]. rewrite map_size_insert_None by done. lia.
  - destruct (ep_del_cinv c mac I) as (c' & -> & I' & Hsz). cbn [mbind option_bind].
    apply IH; [done|]. simpl in Hs. lia.
Qed.

(** ** Claims: lifetimes *)

Definition cfg_init e : cfg := Cfg ∅ ∅ NULL 0 0 e (Cnt 0 0).

Lemma cfg_init_cinv e : Fqdn.fwf (fqdn_hdl e) -> cinv (cfg_init e).
Proof. intros F. split; [|done]. by constructor. Qed.

(** C2: Whatever policy messages arrive and endpoints come and go, in any order and however
    incomplete, no freed handle is ever touched: every endpoint's handle stays allocated,
    with the version the endpoint remembers, its reference count is the number of its
    endpoints, a handle with no endpoint is freed unless it is still being built, and the
    rule counters count the rules of the allocated handles. *)
Theorem policy_handles_lifetime (e : env) (ms : list msg) :
  Fqdn.fwf (fqdn_hdl e) -> adds ms < 65535 ->
  exists c, run (cfg_init e) ms = Some c /\
    (forall mac ep, eps c !! mac = Some ep -> policy_hdl ep <> NULL ->
       exists h, handles c !! policy_hdl ep = Some h /\ policy_ver ep = ver h /\ ver h <> 0) /\
    (forall p h, handles c !! p = Some h -> ref_cnt h = Z.of_nat (refs (eps c) p)) /\
    (forall p h, handles c !! p = Some h -> refs (eps c) p = 0%nat -> p = cur_hdl c) /\
    u32 (type1_rules (counts c)) = u32 (hsum exact_total (handles c)) /\
    u32 (type2_rules (counts c)) = u32 (hsum range_total (handles c)).
Proof.
  intros F Ha. destruct (run_cinv ms (cfg_init e) (cfg_init_cinv e F)) as (c & E & [G U]).
  { simpl. rewrite map_size_empty. lia. }
  exists c. split_and!; [done| |apply G|apply G|apply G|apply G].
  intros mac ep Hm Hn. destruct (gi_ep _ G mac ep Hm) as [[? _]|(h & Hq & Hv)]; [done|].
  exists h. split_and!; [done|done|by apply (gi_ver _ G _ _ Hq)].
Qed.


(** *** Witnesses *)

Definition env0 : env := Env None None None Fqdn.dpi_fqdn_hdl_init.
Definition pol0 : dpi_policy := Policy [1; 2] DP_POLICY_ACTION_DENY 3
  [PRule 10 7 7 9 9 80 80 IPPROTO_TCP DP_POLICY_ACTION_ALLOW true [] [];
   PRule 11 0 0xffffffff 9 9 1 1000 0 DP_POLICY_ACTION_DENY true [] []].
(** Two endpoints get a policy, then one gets another and the other goes away, while a
    third policy is left unfinished. *)
Definition msgs0 : list msg :=
  [MEpAdd 1; MEpAdd 2; MPolicy CFG_ADD pol0 3; MPolicy CFG_ADD (Policy [1] 0 3 []) 3; MEpDel 2;
   MPolicy CFG_ADD pol0 1].

Lemma policy_handles_lifetime_witness :
  exists c, run (cfg_init env0) msgs0 = Some c /\
    u32 (type2_rules (counts c)) = u32 (hsum range_total (handles c)) /\
    size (handles c) = 2%nat /\ type2_rules (counts c) = 3.
Proof.
  destruct (policy_handles_lifetime env0 msgs0 Fqdn.hdl_init_fwf) as (c & E & _ & _ & _ & _ & H2).
  - reflexivity.
  - exists c. split; [exact E|]. split; [exact H2|].
    assert ((fun c => (size (handles c), type2_rules (counts c))) <$> run (cfg_init env0) msgs0 = Some (2%nat, 3))
      as Hc by (vm_compute; reflexivity).
    rewrite E in Hc. cbn [fmap option_fmap option_map] in Hc. injection Hc as H3 H4. split; [exact H3|exact H4].
Defined.


End PolicyCfg.
