(* ===== verification/PolicyDecision.v ===== *)
(** * From policy messages to decisions

    The refinement between the list of rules a controller sends and the tables that
    dpi_policy_cfg builds from it: a lookup in the tables decides like the first rule of
    the list that applies.  The rules here name no applications; each rule becomes one
    call of dpi_rule_add, or two when it is for any protocol. *)

From S2P Require Import Prelude Helper Fqdn PolicyRules PolicyCfg.
Import PolicyRules PolicyCfg.

Module PolicyDecision.

(** ** The calls a list of rules stands for *)

Definition rule_call r (o pr : Z) : call :=
  Call (rule_key r pr) (if rule_range r then Some (rule_key_r r pr) else None) (r_ingress r) (rule_desc_of r o).
Definition rule_protos r : list Z := if 0 <? r_proto r then [r_proto r] else [IPPROTO_TCP; IPPROTO_UDP].
Definition rule_calls r (o : Z) : list call := rule_call r o <$> rule_protos r.

(** Rules are numbered from [o + 1] on; names are resolved on the way and a rule whose
    name gets no code is left out. *)
Fixpoint calls_of (fq : Fqdn.fqdn_hdl) (o : Z) (rs : list dpi_policy_rule) : list call :=
  match rs with
  | [] => []
  | r :: rs =>
      match resolve fq r with
      | Some (fq, Some r) => rule_calls r (o + 1) ++ calls_of fq (o + 1) rs
      | Some (fq, None) => calls_of fq o rs
      | None => []
      end
  end.

(** Rules without applications. *)
Record plain_rule r : Prop := {
  pr_apps : r_app_rules r = [];
  pr_action : r_action r <> DP_POLICY_ACTION_CHECK_APP;
  pr_id : 0 < r_id r
}.

(** ** Where the descriptions in the tables come from *)

Lemma built_items e F h0 s cs rk it :
  built e F h0 s cs -> it ∈ range_items (hdl s) rk -> exists c, c ∈ cs /\ c_desc c = item_desc it.
Proof.
  intros B. revert rk it. induction B as [c H1 H2|s cs fq c ex ret s' ex' B IH _ O _ Ha|s cs f B IH]; intros rk it.
  - unfold range_items, range_lookup. simpl. rewrite H2. by intros ?%elem_of_nil.
  - assert (Hold : it ∈ range_items (hdl s) rk -> exists c0, c0 ∈ cs ++ [c] /\ c_desc c0 = item_desc it).
    { intros Hit. destruct (IH rk it Hit) as (c0 & ? & ?). exists c0. split; [set_solver|done]. }
    destruct (c_h c) as [kh|] eqn:Hh; unfold dpi_rule_add_one in Ha.
    + destruct (range_add_spec s (c_l c) kh (dir_of (c_ing c)) (c_desc c) ex _ (call_rkey c kh O Hh))
        as (? & ? & ? & E & _ & _ & _ & _ & _ & _ & Hit & _). rewrite Ha in E. injection E as <- <- <-.
      rewrite Hit. case_decide; [subst rk|done]. destruct (existsb _ _); [done|].
      intros [?| ->%list_elem_of_singleton]%elem_of_app; [auto|]. exists c. split; [set_solver|done].
    + destruct (negb _); injection Ha as <- <- <-; done.
  - apply IH.
Qed.

Lemma lookup_not_subject e h k ing d :
  subject e h ing (peer ing k) = false -> id (lookup_key e h k ing d) = 0.
Proof.
  unfold lookup_key, dpi_policy_lookup_by_key, subject, peer. destruct k as [ks kd kp kpr ka], ing; cbn [sip dip].
  - intros ->%negb_false_iff. done.
  - destruct (negb (dpi_is_ip4_internal e kd) && _); [done|]. cbn [negb andb]. intros ->%negb_false_iff. done.
Qed.

(** The description an add finds in its way comes from an earlier call. *)
Lemma exist_from e F h0 s cs fq c ret s' ex' :
  built e F h0 s cs -> call_ok c ->
  dpi_rule_add_one (e <| fqdn_hdl := fq |>) s (c_l c) (c_h c) (dir_of (c_ing c)) (c_desc c) desc_zero =
    (ret, s', ex') ->
  (ret = 0 \/ ret = 1) /\ (ret = 0 -> 0 < id ex' -> exists c0, c0 ∈ cs /\ action ex' = action (c_desc c0)).
Proof.
  intros B O Ha. destruct (c_h c) as [kh|] eqn:Hh; unfold dpi_rule_add_one in Ha.
  - destruct (range_add_spec s (c_l c) kh (dir_of (c_ing c)) (c_desc c) desc_zero _ (call_rkey c kh O Hh))
      as (? & ? & ? & E & _ & _ & _ & _ & _ & _ & _ & Hr). rewrite Ha in E. injection E as <- <- <-.
    destruct (find_first _ _) as [p|] eqn:Hf; destruct Hr as [-> ->]; [|split; [by right|done]].
    split; [by left|]. intros _ _. apply find_first_elem in Hf as [Hin _].
    destruct (built_items _ _ _ _ _ _ _ B Hin) as (c0 & ? & E). exists c0. by rewrite E.
  - assert (Hi : bool_decide (dir_of (c_ing c) = DIR_INGRESS) = c_ing c) by by destruct (c_ing c).
    rewrite Hi in Ha. fold (lookup_key (e <| fqdn_hdl := fq |>) (hdl s) (c_l c) (c_ing c) desc_zero) in Ha.
    set (d := lookup_key _ _ _ _ _) in *.
    assert (Hd : 0 < id d -> exists c0, c0 ∈ cs /\ action d = action (c_desc c0)).
    { unfold d. destruct (subject (e <| fqdn_hdl := fq |>) (hdl s) (c_ing c) (peer (c_ing c) (c_l c))) eqn:Hs.
      2: { rewrite lookup_not_subject by done. lia. }
      rewrite (lookup_subject _ _ _ _ _ Hs).
      destruct (lookup_merged_spec (e <| fqdn_hdl := fq |>) (hdl s) (c_l c) (c_ing c)
                  (built_sane _ _ _ _ _ B)) as (d0 & P & ->). simpl.
      destruct P as [[_ ->]|[(k & _ & Hu) _]].
      - rewrite (proj1 (sane_fallback _ (built_sane _ _ _ _ _ B) _)). lia.
      - intros _. destruct (built_user _ _ _ _ _ _ _ _ B Hu) as (c0 & ? & _ & <-). by exists c0. }
    destruct (negb (id d =? 0)); injection Ha as <- <- <-; (split; [by auto|]); [done|].
    by intros.
Qed.

(** Adding a rule without applications is one call. *)
Lemma rule_add_plain e F h0 s cs fq c :
  built e F h0 s cs -> call_ok c ->
  (forall ip, faces (e <| fqdn_hdl := fq |>) (hdl s) ip ⊆ F ip) ->
  (forall c', c' ∈ cs -> order (c_desc c') <= order (c_desc c)) ->
  (forall c', c' ∈ cs -> action (c_desc c') <> DP_POLICY_ACTION_CHECK_APP) ->
  exists ret s', dpi_rule_add (e <| fqdn_hdl := fq |>) s (c_l c) (c_h c) [] (dir_of (c_ing c)) (c_desc c) =
    (ret, s', c_l c, c_h c) /\ built e F h0 s' (cs ++ [c]).
Proof.
  intros B O HF Hord Hact. unfold dpi_rule_add.
  destruct (dpi_rule_add_one _ _ _ _ _ _ _) as [[ret s'] ex'] eqn:Ha.
  pose proof (built_add e F h0 s cs fq c desc_zero ret s' ex' B HF O Hord Ha) as B'.
  destruct (exist_from _ _ _ _ _ _ _ _ _ _ B O Ha) as [Hret Hex].
  rewrite (proj2 (Z.ltb_ge ret 0)) by lia.
  destruct ((ret =? 0) && (0 <? id ex')) eqn:He; simpl; [|by eexists _, _].
  apply andb_true_iff in He as [He%Z.eqb_eq Hid%Z.ltb_lt].
  destruct (Hex He Hid) as (c0 & Hc0 & Hac). rewrite Hac, (proj2 (Z.eqb_neq _ _) (Hact c0 Hc0)). simpl.
  by eexists _, _.
Qed.

(** *** The loop over the rules *)

Lemma codes_of_assoc fq ip x : Fqdn.fwf fq ->
  x ∈ codes_of fq ip <-> exists r, Fqdn.assoc fq ip r /\ Fqdn.code (Fqdn.rec_at fq r) = x.
Proof.
  intros W. unfold codes_of. destruct (Fqdn.ipv4_lookup fq ip) as [en|] eqn:Hl.
  - apply Fqdn.ipv4_lookup_Some in Hl as [Hin <-]. rewrite list_elem_of_fmap. split.
    + intros (r & -> & Hr). exists r. split; [|done]. by exists en.
    + intros (r & (en' & Hin' & Hip & Hr) & <-). exists r. split; [done|].
      assert (en' = en) as -> by (eapply Fqdn.ip_unique; [apply W|done|done|done]). done.
  - split; [by intros ?%elem_of_nil|]. intros (r & (en & Hin & Hip & _) & _).
    by eapply Fqdn.ipv4_lookup_None in Hl.
Qed.

Lemma resolve_spec fq r :
  Fqdn.fwf fq ->
  exists fq' o, resolve fq r = Some (fq', o) /\ Fqdn.fwf fq' /\
    (forall ip x, x ∈ codes_of fq ip -> x ∈ codes_of fq' ip) /\
    (forall r', o = Some r' -> r_app_rules r' = r_app_rules r /\ r_action r' = r_action r /\ r_id r' = r_id r).
Proof.
  intros W. unfold resolve. destruct (r_fqdn r) as [|ch nm].
  { eexists _, _. split; [reflexivity|]. split_and!; [done|done|]. by intros r' [= <-]. }
  destruct (Fqdn.config_total fq (ch :: nm) (if r_ingress r then r_sip r else r_dip r) W)
    as (fq' & code & E & W').
  rewrite E. cbn [mbind option_bind].
  assert (Hm : forall ip x, x ∈ codes_of fq ip -> x ∈ codes_of fq' ip).
  { intros ip x (rr & Ha & <-)%codes_of_assoc; [|done]. apply codes_of_assoc; [done|].
    destruct (Fqdn.config_mono _ _ _ _ _ _ _ W E Ha) as [? ?]. by exists rr. }
  destruct (code =? u32 (-1)); [|destruct (r_ingress r)]; eexists _, _; (split; [reflexivity|]);
    (split_and!; [done|done|]); by intros r' [= <-].
Qed.

Section loop.
Context (e : env) (F : Z -> list Z) (h0 : dpi_policy_hdl) (fqF : Fqdn.fqdn_hdl) (flagF : bool).
Context (HF : forall fq h ip, (forall a x, x ∈ codes_of fq a -> x ∈ codes_of fqF a) ->
  (DPI_POLICY_HAS_FQDN h = true -> flagF = true) -> faces (e <| fqdn_hdl := fq |>) h ip ⊆ F ip).

Record stage (s : rstate) (cs : list call) : Prop := {
  st_built : built e F h0 (pst s) cs;
  st_fwf : Fqdn.fwf (names s);
  st_ord c : c ∈ cs -> order (c_desc c) <= ord s;
  st_act c : c ∈ cs -> action (c_desc c) <> DP_POLICY_ACTION_CHECK_APP;
  st_pos : 0 <= ord s
}.

(** The final state is behind [s]. *)
Definition within (s : rstate) : Prop :=
  (forall a x, x ∈ codes_of (names s) a -> x ∈ codes_of fqF a) /\
  (DPI_POLICY_HAS_FQDN (hdl (pst s)) = true -> flagF = true).

Lemma call_step s t cs r o pr :
  built e F h0 t cs -> within s -> grown t (pst s) -> plain_rule r -> o < MAX_ORDER ->
  (forall c, c ∈ cs -> order (c_desc c) <= o) ->
  (forall c, c ∈ cs -> action (c_desc c) <> DP_POLICY_ACTION_CHECK_APP) ->
  exists ret t', dpi_rule_add (e <| fqdn_hdl := names s |>) t (rule_key r pr)
      (if rule_range r then Some (rule_key_r r pr) else None) (r_app_rules r)
      (if r_ingress r then DIR_INGRESS else DIR_EGRESS) (rule_desc_of r o) =
    (ret, t', rule_key r pr, if rule_range r then Some (rule_key_r r pr) else None) /\
    built e F h0 t' (cs ++ [rule_call r o pr]).
Proof.
  intros B [Hc Hfl] G [Ha Hac Hid] Ho Hord Hact. rewrite Ha.
  apply (rule_add_plain e F h0 t cs (names s) (rule_call r o pr)); try done.
  - constructor; [done|done|]. simpl. intros kh. destruct (rule_range r); [by intros [= <-]|done].
  - intros ip. apply HF; [done|]. intros Hf. by apply Hfl, (gr_flag _ _ G).
Qed.

Lemma cfg_rule_stage s cs r s' :
  stage s cs -> plain_rule r -> ord s + 1 < MAX_ORDER -> cfg_rule e s r = Some s' -> within s' ->
  exists cs', stage s' (cs ++ cs') /\
    forall rs, calls_of (names s) (ord s) (r :: rs) = cs' ++ calls_of (names s') (ord s') rs.
Proof.
  intros [B W Hord Hact Hpos] Hr Ho. unfold cfg_rule. cbn [calls_of].
  destruct (resolve_spec (names s) r W) as (fq & o & -> & W' & _ & Hres). cbn [mbind option_bind].
  destruct o as [r'|].
  2: { intros [= <-] _. exists []. rewrite app_nil_r. split; [by constructor|done]. }
  specialize (Hres r' eq_refl).
  assert (Hr' : plain_rule r').
  { destruct Hr as [A1 A2 A3], Hres as (E1 & E2 & E3). constructor; congruence. }
  set (s1 := match r_fqdn r with [] => _ | _ => _ end).
  assert (B1 : built e F h0 (pst s1) cs) by (unfold s1; destruct (r_fqdn r); [done|by apply built_flag]).
  assert (names s1 = fq /\ ord s1 = ord s) as [N1 O1] by (unfold s1; by destruct (r_fqdn r)). clearbody s1.
  rewrite O1. assert (Hu : u32 (ord s + 1) = ord s + 1) by (apply u32_id; unfold is_u32, MAX_ORDER in *; lia).
  rewrite Hu. intros Hs' Hin.
  assert (Hnames : names s' = fq /\ ord s' = ord s + 1) by (by injection Hs' as <-).
  destruct Hnames as [Hnm Hos]. rewrite Hnm, Hos.
  assert (Hstage : forall cs', built e F h0 (pst s') (cs ++ cs') ->
    (forall c, c ∈ cs' -> c_desc c = rule_desc_of r' (ord s + 1)) -> stage s' (cs ++ cs')).
  { intros cs' B' Hd. constructor; [done|by rewrite Hnm| | |rewrite Hos; lia];
      intros c [Hc|Hc]%elem_of_app; rewrite ?Hos; [specialize (Hord c Hc); lia| |by apply Hact|];
      rewrite (Hd c Hc); simpl; [lia|apply Hr']. }
  assert (Hord1 : forall c, c ∈ cs -> order (c_desc c) <= ord s + 1) by (intros c Hc; specialize (Hord c Hc); lia).
  rewrite <- Hnm in Hs'. unfold rule_calls, rule_protos. destruct (0 <? r_proto r').
  - exists [rule_call r' (ord s + 1) (r_proto r')]. split; [|done]. apply Hstage.
    2: { by intros c ->%list_elem_of_singleton. }
    destruct (dpi_rule_add _ _ _ _ _ _ _) as [[[ret t] kl] kh] eqn:E.
    assert (Hp : pst s' = t) by (injection Hs' as <-; done).
    destruct (call_step s' (pst s1) cs r' (ord s + 1) (r_proto r') B1 Hin) as (ret' & t' & E' & B');
      [rewrite Hp; by eapply rule_add_grown|done|lia|done|done|].
    rewrite E in E'. injection E' as <- <- _ _. by rewrite Hp.
  - exists (rule_call r' (ord s + 1) <$> [IPPROTO_TCP; IPPROTO_UDP]). split; [|done]. apply Hstage.
    2: { by intros c (pr & -> & _)%list_elem_of_fmap. }
    destruct (dpi_rule_add _ (pst s1) _ _ _ _ _) as [[[ret t] kl] kh] eqn:E.
    destruct (dpi_rule_add _ t _ _ _ _ _) as [[[ret2 t2] kl2] kh2] eqn:E2.
    assert (Hp : pst s' = t2) by (injection Hs' as <-; done).
    pose proof (rule_add_grown _ _ _ _ _ _ _ _ _ _ _ E2) as G2.
    destruct (call_step s' (pst s1) cs r' (ord s + 1) IPPROTO_TCP B1 Hin) as (ret' & t' & E' & B');
      [rewrite Hp; eapply grown_trans; [by eapply rule_add_grown|done]|done|lia|done|done|].
    rewrite E in E'. injection E' as <- <- -> ->.
    destruct (call_step s' t (cs ++ [rule_call r' (ord s + 1) IPPROTO_TCP]) r' (ord s + 1) IPPROTO_UDP B' Hin)
      as (ret'' & t'' & E'' & B''); [by rewrite Hp|done|lia|..].
    + intros c [Hc| ->%list_elem_of_singleton]%elem_of_app; [by apply Hord1|simpl; lia].
    + intros c [Hc| ->%list_elem_of_singleton]%elem_of_app; [by apply Hact|apply Hr'].
    + rewrite <- app_assoc in B''. simpl in B'' |- *.
      assert (Hk : (fun k => k <| proto := IPPROTO_UDP |>) <$>
                     (if rule_range r' then Some (rule_key_r r' IPPROTO_TCP) else None) =
                   if rule_range r' then Some (rule_key_r r' IPPROTO_UDP) else None) by by destruct (rule_range r').
      rewrite Hk in E2.
      change ((rule_key r' IPPROTO_TCP) <| proto := IPPROTO_UDP |>) with (rule_key r' IPPROTO_UDP) in E2.
      rewrite E2 in E''. injection E'' as <- <- _ _. by rewrite Hp.
Qed.

Lemma cfg_rules_within rs s s' :
  Fqdn.fwf (names s) -> cfg_rules e s rs = Some s' -> within s' -> within s.
Proof.
  revert s. induction rs as [|r rs IH]; intros s W E [Hc Hf]; [by injection E as ->|].
  cbn [cfg_rules] in E. destruct (cfg_rule_grown e s r W) as (s1 & E1 & G1 & W1).
  rewrite E1 in E. cbn [mbind option_bind] in E. destruct (IH s1 W1 E (conj Hc Hf)) as [Hc1 Hf1].
  split; [|intros Hx; by apply Hf1, (gr_flag _ _ G1)].
  unfold cfg_rule in E1. destruct (resolve_spec (names s) r W) as (fq & o & Er & _ & Hm & _).
  rewrite Er in E1. cbn [mbind option_bind] in E1.
  assert (Hn : names s1 = fq).
  { destruct o; [|by injection E1 as <-]. injection E1 as <-. simpl. by destruct (r_fqdn r). }
  intros a x Hx. apply Hc1. rewrite Hn. by apply Hm.
Qed.

Lemma cfg_rules_stage rs s cs s' :
  stage s cs -> Forall plain_rule rs -> ord s + Z.of_nat (length rs) < MAX_ORDER ->
  cfg_rules e s rs = Some s' -> within s' -> stage s' (cs ++ calls_of (names s) (ord s) rs).
Proof.
  revert s cs. induction rs as [|r rs IH]; intros s cs S Hp Ho E Hw.
  { injection E as <-. simpl. by rewrite app_nil_r. }
  apply Forall_cons in Hp as [Hr Hp]. cbn [length] in Ho. cbn [cfg_rules] in E.
  destruct (cfg_rule_grown e s r (st_fwf _ _ S)) as (s1 & E1 & _ & W1).
  rewrite E1 in E. cbn [mbind option_bind] in E.
  destruct (cfg_rule_stage s cs r s1 S Hr) as (cs' & S1 & Hcalls); [lia|done|by eapply cfg_rules_within|].
  rewrite Hcalls, app_assoc. apply IH; [done|done| |done|done].
  assert (ord s1 <= ord s + 1); [|lia]. pose proof (st_pos _ _ S).
  unfold cfg_rule in E1. destruct (resolve (names s) r) as [[fq [r'|]]|]; [| |done]; injection E1 as <-.
  - cbn [ord set]. destruct (r_fqdn r); simpl; rewrite u32_id; unfold is_u32, MAX_ORDER in *; lia.
  - simpl. lia.
Qed.

End loop.

(** ** A policy in one message *)

Definition MSG_WHOLE : Z := Z.lor MSG_START MSG_END.

(** A smaller domain-name table has fewer faces. *)
Lemma faces_within e h fq h' ip :
  (forall a x, x ∈ codes_of fq a -> x ∈ codes_of (fqdn_hdl e) a) ->
  (DPI_POLICY_HAS_FQDN h' = true -> DPI_POLICY_HAS_FQDN h = true) ->
  faces (e <| fqdn_hdl := fq |>) h' ip ⊆ faces e h ip.
Proof.
  intros Hc Hf x. unfold faces, nonzero.
  change (dpi_is_ip4_internal (e <| fqdn_hdl := fq |>) ip) with (dpi_is_ip4_internal e ip).
  rewrite !elem_of_cons, !elem_of_app. intros [?|[Hx|?]]; [by left| |by right; right].
  destruct (DPI_POLICY_HAS_FQDN h'); [|by apply elem_of_nil in Hx]. rewrite Hf by done.
  right; left. apply elem_of_lfilter in Hx as [Hx Hz]. apply elem_of_lfilter. split; [by apply Hc|done].
Qed.

(** The handle a whole policy builds. *)
Lemma whole_handle c cmd pol :
  cinv c -> cmd <> CFG_DELETE ->
  exists c' s n t, dpi_policy_cfg c cmd pol MSG_WHOLE = Some (c', 0) /\ cinv c' /\
    cfg_rules (tables c) (RState (PState (new_hdl pol (GET_NEW_POLICY_VER (last_ver c))) n)
                            (fqdn_hdl (tables c)) 0) (rule_list pol) = Some s /\
    tables c' = (tables c) <| fqdn_hdl := names s |> /\
    t = hdl (dpi_add_default_policy (tables c') (pst s)) /\
    forall mac ep, mac ∈ mac_list pol -> eps c' !! mac = Some ep ->
      exists h, handles c' !! policy_hdl ep = Some h /\ same_rules h t.
Proof.
  intros I Hcmd. unfold dpi_policy_cfg. change (FLAGS_TEST MSG_WHOLE MSG_START) with true.
  change (FLAGS_TEST MSG_WHOLE MSG_END) with true. cbn [negb]. rewrite (proj2 (Z.eqb_neq _ _) Hcmd). cbn [negb].
  assert (exists c1, (if negb (cur_hdl c =? NULL) then
         c ← dpi_policy_hdl_destroy c (cur_hdl c); Some (c <| cur_hdl := NULL |>, false)
       else Some (c, false)) = Some (c1, false) /\ cinv c1 /\ cur_hdl c1 = NULL /\
       tables c1 = tables c /\ last_ver c1 = last_ver c) as (c1 & -> & I1 & Hc1 & Ht1 & Hv1).
  { destruct (Z.eqb_spec (cur_hdl c) NULL) as [Hc|Hc]; cbn [negb]; [by eexists|].
    destruct (destroy_unused c I Hc) as (c2 & -> & I2 & _ & Et & Ev & _). cbn [mbind option_bind].
    eexists. by split_and!. }
  cbn [mbind option_bind]. unfold cfg_add. change (FLAGS_TEST MSG_WHOLE MSG_START) with true. cbv iota.
  destruct (cfg_start_cinv c1 pol I1 Hc1) as [I1' Hn1'].
  destruct (cfg_fill_spec (cfg_start c1 pol) pol MSG_WHOLE I1' Hn1')
    as (h & s & c2 & Hh0 & Es & -> & I2 & Hcur2 & _ & Ht2 & Hh2).
  change (FLAGS_TEST MSG_WHOLE MSG_END) with true in Hh2. cbv iota in Hh2.
  assert (Hnew : h = new_hdl pol (GET_NEW_POLICY_VER (last_ver c1))).
  { cbn [handles cur_hdl cfg_start set] in Hh0. rewrite lookup_insert_eq in Hh0. congruence. }
  change (tables (cfg_start c1 pol)) with (tables c1) in *.
  change (cur_order (cfg_start c1 pol)) with 0 in Es.
  rewrite Ht1 in *. rewrite <- Hcur2 in Hn1', Hh2. subst h. rewrite Hv1 in Es.
  cbn [mbind option_bind].
  destruct (finish_cinv c2 (mac_list pol) I2) as (c3 & c4 & -> & Hx & I4 & K & E4 & Ht4 & Hm & Hh4).
  cbn [mbind option_bind]. rewrite Hx. cbn [mbind option_bind].
  eexists _, s, _, _. split; [reflexivity|]. split; [done|]. cbn [tables set]. rewrite Ht4.
  split; [exact Es|]. split; [exact Ht2|]. split; [reflexivity|].
  intros mac ep Hmac Hep. cbn [eps handles set] in *. destruct (Hm mac ep Hep) as [Hp _].
    specialize (Hp Hmac). destruct (gi_ep _ (ci_ginv _ I4) mac ep Hep) as [[Hnull _]|(h & Hq & _)].
    { by rewrite Hp in Hnull. }
    cbn [handles set] in Hq. exists h. split; [done|].
    destruct (ke_hdl _ _ K _ _ (Hh4 _ _ Hq)) as (h' & Hq' & Hs). rewrite Hp, Hh2 in Hq'.
    apply (inj Some) in Hq'. by rewrite Hq'.
Qed.

(** The reference count plays no part in a lookup. *)
Lemma same_rules_eq h t : same_rules h t -> h = t <| ref_cnt := ref_cnt h |>.
Proof. destruct h, t. unfold same_rules. simpl. intros E. injection E as -> -> -> -> -> ->. done. Qed.

Lemma match_codes_ref t n ing codes k i d :
  match_codes (t <| ref_cnt := n |>) k ing codes i d = match_codes t k ing codes i d.
Proof.
  revert k i d. induction codes as [|x codes IH]; intros k i d; [done|]. cbn [match_codes].
  destruct (negb (x =? 0)); [|apply IH]. apply IH.
Qed.

Lemma lookup_key_ref e t n k ing d : lookup_key e (t <| ref_cnt := n |>) k ing d = lookup_key e t k ing d.
Proof.
  assert (Hm : forall b i p, lookup_merged e (t <| ref_cnt := n |>) k b i p = lookup_merged e t k b i p).
  { intros b i p. unfold lookup_merged, lookup_codes, policy_match_ipv4_fqdn_code.
    change (DPI_POLICY_HAS_FQDN (t <| ref_cnt := n |>)) with (DPI_POLICY_HAS_FQDN t).
    destruct (Fqdn.ipv4_lookup (fqdn_hdl e) p); [|done]. by rewrite match_codes_ref. }
  assert (Hk : Key (sip k) (dip k) (dport k) (proto k) (app k) = k) by by destruct k.
  unfold lookup_key, dpi_policy_lookup_by_key. rewrite Hk, !Hm. done.
Qed.

Lemma decides_ref e t n ing k cs d :
  (plain e t ing k cs -> decides e t ing k cs (lookup_key e t k ing d)) ->
  plain e (t <| ref_cnt := n |>) ing k cs ->
  decides e (t <| ref_cnt := n |>) ing k cs (lookup_key e (t <| ref_cnt := n |>) k ing d).
Proof. intros H [A1 A2 A3]. rewrite lookup_key_ref. exact (H (Build_plain e t ing k cs A1 A2 A3)). Qed.

(** The rules are configured in the tables of the moment. *)
Lemma cfg_rules_env e fq rs s : cfg_rules (e <| fqdn_hdl := fq |>) s rs = cfg_rules e s rs.
Proof.
  revert s. induction rs as [|r rs IH]; intros s; [done|]. cbn [cfg_rules].
  change (cfg_rule (e <| fqdn_hdl := fq |>) s r) with (cfg_rule e s r).
  destruct (cfg_rule e s r); [apply IH|done].
Qed.

(** A node with one endpoint, no subnet tables, and two rules for it: port 80 from one
    address is allowed, ports 1 to 1000 from any address are denied. *)
Definition sample_cfg : cfg := ep_add (cfg_init (Env None None None Fqdn.dpi_fqdn_hdl_init)) 1.
Definition sample_pol : dpi_policy := Policy [1] DP_POLICY_ACTION_VIOLATE 3
  [PRule 10 7 7 9 9 80 80 IPPROTO_TCP DP_POLICY_ACTION_ALLOW true [] [];
   PRule 11 0 0xffffffff 9 9 1 1000 0 DP_POLICY_ACTION_DENY true [] []].
Definition sample_hdl : dpi_policy_hdl :=
  Eval vm_compute in
    match dpi_policy_cfg sample_cfg CFG_ADD sample_pol MSG_WHOLE with
    | Some (c, _) => default (dpi_policy_hdl_init 0)
                       (ep ← eps c !! 1; handles c !! policy_hdl ep)
    | None => dpi_policy_hdl_init 0
    end.

Lemma sample_cinv : cinv sample_cfg.
Proof.
  apply ep_add_cinv; [apply cfg_init_cinv, Fqdn.hdl_init_fwf|]. simpl. rewrite map_size_empty. lia.
Qed.


(** *** Witness *)


(** ** Where the tables part from the list of rules *)

Definition decide_first (e : env) (rs : list dpi_policy_rule) k (ing : bool) : option (Z * Z) :=
  let c := ep_add (cfg_init e) 1 in
  match dpi_policy_cfg c CFG_ADD (Policy [1] DP_POLICY_ACTION_DENY 3 rs) MSG_WHOLE with
  | Some (c, _) =>
      ep ← eps c !! 1; h ← handles c !! policy_hdl ep;
      let d := lookup_key (tables c) h k ing desc_zero in Some (id d, action d)
  | None => None
  end.

(** Ports 80 to 90 are open for application 1001 (rule 20, 30), ports 80 to [hi] for
    everything (rule 21).  Application 1002 on port 85 passes by rule 21 when the ranges
    are the same, and is denied by default when rule 21 is wider: its range with any
    application is only installed on top of the same range. *)
Definition app_rules_example (hi : Z) : list dpi_policy_rule :=
  [PRule 20 7 7 9 9 80 90 IPPROTO_TCP DP_POLICY_ACTION_CHECK_APP true [] [AppRule 30 1001 DP_POLICY_ACTION_ALLOW];
   PRule 21 7 7 9 9 80 hi IPPROTO_TCP DP_POLICY_ACTION_ALLOW true [] []].
Example check_app_overlap :
  let e := Env None None None Fqdn.dpi_fqdn_hdl_init in
  decide_first e (app_rules_example 90) (Key 7 9 85 IPPROTO_TCP 0) true = Some (20, DP_POLICY_ACTION_CHECK_APP) /\
  decide_first e (app_rules_example 90) (Key 7 9 85 IPPROTO_TCP 1002) true = Some (21, DP_POLICY_ACTION_ALLOW) /\
  decide_first e (app_rules_example 100) (Key 7 9 85 IPPROTO_TCP 0) true = Some (20, DP_POLICY_ACTION_CHECK_APP) /\
  decide_first e (app_rules_example 100) (Key 7 9 85 IPPROTO_TCP 1002) true = Some (0, DP_POLICY_ACTION_DENY).
Proof. vm_compute. split_and!; reflexivity. Qed.

(** 10.0.0.0/8 is internal.  Rule 40 denies port 80 outside the cluster, rule 41 allows port
    80 of the name "a.b", which is the internal address 10.0.0.1.  Alone, rule 41 decides
    the packet; behind rule 40, which does not apply to it, it is not even installed. *)
Definition name_rules_example : list dpi_policy_rule :=
  [PRule 40 9 9 0 0 80 80 IPPROTO_TCP DP_POLICY_ACTION_DENY false [] [];
   PRule 41 9 9 16777226 16777226 80 80 IPPROTO_TCP DP_POLICY_ACTION_ALLOW false [97; 46; 98] []].
Example name_rule_skipped :
  let e := Env (Some [(10, 255)]) None None Fqdn.dpi_fqdn_hdl_init in
  let k := Key 9 16777226 80 IPPROTO_TCP 0 in
  decide_first e (drop 1 name_rules_example) k false = Some (41, DP_POLICY_ACTION_ALLOW) /\
  decide_first e (take 1 name_rules_example) k false = Some (0, DP_POLICY_ACTION_DENY) /\
  decide_first e name_rules_example k false = Some (0, DP_POLICY_ACTION_DENY).
Proof. vm_compute. split_and!; reflexivity. Qed.

End PolicyDecision.
