(* ===== verification/PolicyLookup.v ===== *)
(** * Policy decisions for packets and sessions (dpi/dpi_policy.c)

    dpi_policy_lookup finds the decision for a packet; traffic from an address the thread
    does not know yet is let through for a minute, while the cache of unknown addresses
    remembers it.  dpi_policy_reeval and dpi_sess_policy_reeval look a session up again
    when its workload has a new policy or its application has become known.

    The cache hangs on the thread's timer wheel; the wheel here holds the entries of this
    cache.  The endpoint of the packet, its handle and the map of endpoints are arguments.
    A threat report is an event in [threats]. *)

From S2P Require Import Prelude Helper TimerWheel Fqdn PolicyRules.
Import Helper.Bytes TimerWheel.TimerWheel PolicyRules.

Module PolicyLookup.

Definition UNKNOWN_IP_CACHE_TIMEOUT : Z := 600.
Definition POLICY_DESC_VER_CHG_MAX : Z := 60.

Definition ETH_P_IP : Z := 0x0800.
Definition DPI_PKT_FLAG_INGRESS : Z := 0x100.
Definition DPI_PKT_FLAG_LOG_MID : Z := 0x800.
Definition DPI_PKT_FLAG_LOG_XFF : Z := 0x2000.
Definition DPI_SESS_FLAG_INGRESS : Z := 0x10.
Definition DPI_SESS_FLAG_MID_STREAM : Z := 0x40.
Definition DPI_SESS_FLAG_POLICY_APP_READY : Z := 0x200.
Definition DPI_SESS_FLAG_XFF : Z := 0x2000.
Definition DPI_POLICY_LOG_VIOLATE (act : Z) : Z := Z.b2z (DP_POLICY_ACTION_CHECK_APP <? act).

(** ** The cache of unknown addresses *)

Record dpi_unknown_ip_desc := Uip { u_sip : Z; u_dip : Z; u_ver : Z }.
#[export] Instance eta_uip : Eta dpi_unknown_ip_desc := fun u => Uip (u_sip u) (u_dip u) (u_ver u).
(** [addr] is the address of the entry, also that of its timer. *)
Record dpi_unknown_ip_cache := Cache {
  addr : Z; c_uip : dpi_unknown_ip_desc; start_hit : Z; last_hit : Z
}.
#[export] Instance eta_cache : Eta dpi_unknown_ip_cache :=
  fun c => Cache (addr c) (c_uip c) (start_hit c) (last_hit c).

(** The callbacks on this wheel are all unknown_ip_release. *)
Record thread := Thread {
  th_unknown_ip_map : list dpi_unknown_ip_cache;
  th_timer : timer_wheel Z unit;
  tick : Z
}.
#[export] Instance eta_thread : Eta thread := fun t =>
  Thread (th_unknown_ip_map t) (th_timer t) (tick t).
Implicit Types (t : thread) (u : dpi_unknown_ip_desc).

Definition unknown_ip_match (c : dpi_unknown_ip_cache) u : bool :=
  (u_sip (c_uip c) =? u_sip u) && (u_dip (c_uip c) =? u_dip u).
Definition uip_lookup t u : option dpi_unknown_ip_cache :=
  find_first (fun c => unknown_ip_match c u) (th_unknown_ip_map t).

Definition unknown_ip_release (a : Z) t : thread :=
  t <| th_unknown_ip_map ::= List.filter (fun c => negb (addr c =? a)) |>.

Definition add_unknown_ip_cache u t : thread :=
  let a := fresh (list_to_set (addr <$> th_unknown_ip_map t) : gset Z) in
  t <| th_unknown_ip_map ::= fun l => l ++ [Cache a u (tick t) (tick t)] |>
    <| th_timer ::= fun w =>
         timer_wheel_entry_start (timer_wheel_entry_init w a) a tt UNKNOWN_IP_CACHE_TIMEOUT (tick t) |>.

Definition update_unknown_ip_cache (a : Z) t : thread :=
  t <| th_timer ::= fun w => timer_wheel_entry_refresh w a (tick t) |>
    <| th_unknown_ip_map ::= fmap (fun c => if addr c =? a then c <| last_hit := tick t |> else c) |>.

#[export] Instance thread_world : TimerWorld thread Z unit := {|
  wheel := th_timer;
  wheel_upd f t := t <| th_timer ::= f |>;
  run_callback _ a t := unknown_ip_release a t;
  wheel_wheel_upd f t := eq_refl
|}.

(** ** Lookup for a packet *)

Definition _dpi_policy_implicit_default (hdl : option dpi_policy_hdl) (d : dpi_policy_desc) : bool :=
  match hdl with
  | None => false
  | Some h =>
      (order d =? MAX_ORDER) && (id d =? 0) && FLAGS_TEST (flags d) POLICY_DESC_CHECK_VER &&
      (action d =? def_action h) &&
      ((action d =? DP_POLICY_ACTION_VIOLATE) || (action d =? DP_POLICY_ACTION_DENY))
  end.

Definition open_unknown (d : dpi_policy_desc) : dpi_policy_desc :=
  d <| flags ::= fun f => Z.lor (FLAGS_UNSET 8 f POLICY_DESC_CHECK_VER) POLICY_DESC_UNKNOWN_IP |>
    <| action := DP_POLICY_ACTION_OPEN |>.

Definition _dpi_policy_chk_unknown_ip (hdl : option dpi_policy_hdl) (sip_ dip_ iptype : Z)
    (d : dpi_policy_desc) t : dpi_policy_desc * thread :=
  match hdl with
  | None => (d, t)
  | Some h =>
      let uip_desc := Uip sip_ dip_ 0 in
      if (iptype =? DP_IPTYPE_NONE) || (iptype =? DP_IPTYPE_HOSTIP) || (iptype =? DP_IPTYPE_TUNNELIP) then
        match uip_lookup t uip_desc with
        | Some c =>
            if (ver h =? u_ver (c_uip c)) && (u32 (tick t - start_hit c) <? POLICY_DESC_VER_CHG_MAX)
            then (open_unknown d, update_unknown_ip_cache (addr c) t)
            else (d, t)
        | None =>
            (open_unknown d, add_unknown_ip_cache (uip_desc <| u_ver := ver h |>) t)
        end
      else if iptype =? DP_IPTYPE_DEVIP then
        (d <| flags ::= fun f => FLAGS_UNSET 8 f POLICY_DESC_CHECK_VER |>
           <| action := DP_POLICY_ACTION_OPEN |>, t)
      else (d, t)
  end.

(** The fields of packet and session that the policy looks at. *)
Record dpi_packet := Pkt {
  eth_type : Z; ip_proto : Z; p_sport : Z; p_dport : Z; saddr : Z; daddr : Z; p_flags : Z
}.
#[export] Instance eta_pkt : Eta dpi_packet := fun p =>
  Pkt (eth_type p) (ip_proto p) (p_sport p) (p_dport p) (saddr p) (daddr p) (p_flags p).

Record dpi_session := Sess {
  s_flags : Z; s_app : Z; base_app : Z; s_ip_proto : Z;
  client_mac : Z; server_mac : Z; client_ip4 : Z; server_ip4 : Z; server_port : Z;
  policy_desc : dpi_policy_desc; xff_desc : dpi_policy_desc;
  xff_client_ip : Z; xff_app : Z; xff_port : Z
}.
#[export] Instance eta_sess : Eta dpi_session := fun s =>
  Sess (s_flags s) (s_app s) (base_app s) (s_ip_proto s) (client_mac s) (server_mac s) (client_ip4 s)
    (server_ip4 s) (server_port s) (policy_desc s) (xff_desc s) (xff_client_ip s) (xff_app s) (xff_port s).

(** What a lookup changes besides the description. *)
Record pworld := World { th : thread; pkt : dpi_packet; session : dpi_session; threats : Z }.
#[export] Instance eta_pworld : Eta pworld := fun w => World (th w) (pkt w) (session w) (threats w).
Implicit Types (w : pworld).

(** After the keys are known: the lookup, the unknown address, the threat of an external
    service address. *)
Definition policy_decide e (hdl : option dpi_policy_hdl) (sip_ dip_ dport_ proto_ app_ : Z)
    (is_ingress : bool) (desc : dpi_policy_desc) w : dpi_policy_desc * pworld :=
  let desc := dpi_policy_lookup_by_key e hdl sip_ dip_ dport_ proto_ app_ is_ingress desc in
  let '(desc, t) :=
    if FLAGS_TEST (flags desc) POLICY_DESC_INTERNAL && _dpi_policy_implicit_default hdl desc then
      let peer := if is_ingress then sip_ else dip_ in
      if negb (dpi_is_policy_addr e peer)
      then _dpi_policy_chk_unknown_ip hdl sip_ dip_ (dpi_ip4_iptype e peer) desc (th w)
      else (desc, th w)
    else (desc, th w) in
  let w := w <| th := t |> in
  (desc, if FLAGS_TEST (flags desc) POLICY_DESC_SVC_EXTIP then w <| threats ::= Z.succ |> else w).

Definition dpi_policy_lookup e w (hdl : option dpi_policy_hdl) (app_ : Z) (to_server xff : bool)
    (desc : dpi_policy_desc) (xff_replace_dst_ip : Z) : dpi_policy_desc * pworld :=
  let p := pkt w in
  let s := session w in
  let desc := if negb xff then desc_zero else desc in
  if negb (eth_type p =? ETH_P_IP) then (desc, w)
  else
    let dport_ := if (ip_proto p =? IPPROTO_TCP) || (ip_proto p =? IPPROTO_UDP)
                  then Some (if to_server then p_dport p else p_sport p)
                  else if ip_proto p =? IPPROTO_ICMP then Some 0 else None in
    match dport_ with
    | None => (desc, w)
    | Some dport_ =>
        let sip_ := if to_server then saddr p else daddr p in
        let dip_ := if to_server then daddr p else saddr p in
        let ingress := FLAGS_TEST (p_flags p) DPI_PKT_FLAG_INGRESS in
        let is_ingress := if to_server then ingress else negb ingress in
        if xff then
          if negb (sip_ =? xff_client_ip s) then
            let sip_ := xff_client_ip s in
            let '(dport_, w) :=
              if 0 <? xff_port s then (xff_port s, w)
              else (dport_, w <| session ::= fun s => s <| xff_port := dport_ |> |>) in
            let dip_ := if 0 <? xff_replace_dst_ip then xff_replace_dst_ip else dip_ in
            policy_decide e hdl sip_ dip_ dport_ (ip_proto p) app_ is_ingress desc_zero w
          else (desc, w)
        else policy_decide e hdl sip_ dip_ dport_ (ip_proto p) app_ is_ingress desc w
    end.

(** ** Reevaluation *)

Definition session_app (s : dpi_session) : Z :=
  if negb (s_app s =? 0) then s_app s
  else if negb (base_app s =? 0) then base_app s else DP_POLICY_APP_UNKNOWN.

Definition cmp_mac_prefix (m1 prefix : list Z) : bool := bool_decide (take 4 m1 = take 4 prefix).
(** "lkst" *)
Definition PROXYMESH_MAC_PREFIX : list Z := [108; 107; 115; 116].
Definition IS_IN_LOOPBACK (i : Z) : bool := Z.land i 0xff000000 =? 0x7f000000.
Definition mac_zero (m : list Z) : bool := forallb (fun b => b =? 0) (take 6 m).

(** The endpoint of the packet. *)
Record pkt_ep := PktEp {
  ep_mac : list Z; ep_hdl : option dpi_policy_hdl; ep_ver : Z; pmac : list Z;
  pips : option (list Z)
}.

Definition do_lookup e w hdl app_ to_server : pworld :=
  let '(d, w) := dpi_policy_lookup e w hdl app_ to_server false (policy_desc (session w)) 0 in
  w <| session ::= fun s => s <| policy_desc := d |> |>.
Definition do_xff_lookup e w hdl app_ to_server (ip : Z) : pworld :=
  let '(d, w) := dpi_policy_lookup e w hdl app_ to_server true (xff_desc (session w)) ip in
  w <| session ::= fun s => s <| xff_desc := d |> |>.

(** The two lookups for one forwarded address. *)
Definition xff_once e w hdl to_server (ip : Z) : pworld :=
  let w := do_xff_lookup e w hdl 0 to_server ip in
  if action (xff_desc (session w)) =? DP_POLICY_ACTION_CHECK_APP
  then do_xff_lookup e w hdl (xff_app (session w)) to_server ip else w.

Fixpoint xff_pips e w hdl to_server (ips : list Z) : pworld :=
  match ips with
  | [] => w
  | ip :: ips =>
      let w := xff_once e w hdl to_server ip in
      if negb (DPI_POLICY_LOG_VIOLATE (action (xff_desc (session w))) =? 0) then w
      else xff_pips e w hdl to_server ips
  end.

(** The part of dpi_policy_reeval for X-Forwarded-For.  [ep_map] finds the handle of the
    endpoint with a MAC address: [None] when there is no such endpoint. *)
Definition reeval_xff e w (ep : pkt_ep) (ep_map : list Z -> option (option dpi_policy_hdl))
    (hdl : option dpi_policy_hdl) (to_server : bool) : pworld :=
  let orig :=
    if cmp_mac_prefix (ep_mac ep) PROXYMESH_MAC_PREFIX && negb (mac_zero (pmac ep))
    then h ← ep_map (pmac ep); h else None in
  let '(hdl, dstlo) :=
    match orig with
    | Some phdl =>
        let dip_ := if to_server then daddr (pkt w) else saddr (pkt w) in
        (Some phdl, IS_IN_LOOPBACK (ntohl dip_))
    | None => (hdl, false)
    end in
  let w := if xff_app (session w) =? 0
           then w <| session ::= fun s => s <| xff_app := u16 (session_app s) |> |> else w in
  if dstlo then
    match pips ep with
    | Some ips => xff_pips e w hdl to_server ips
    | None => w
    end
  else xff_once e w hdl to_server 0.

(** The lookups for the packet's own addresses, and whether there was one. *)
Definition reeval_own e w (ep : pkt_ep) (to_server : bool) : pworld * bool :=
  let hdl := ep_hdl ep in
  let d0 := policy_desc (session w) in
  let '(w, ev) :=
    if negb (hdl_ver d0 =? ep_ver ep) && FLAGS_TEST (flags d0) POLICY_DESC_UNKNOWN_IP then
      let w := do_lookup e w hdl 0 to_server in
      let w := if FLAGS_TEST (flags (policy_desc (session w))) POLICY_DESC_UNKNOWN_IP then
                 w <| session ::= fun s => s <| policy_desc ::= fun d => d <| action :=
                   match hdl with Some h => u8 (def_action h) | None => DP_POLICY_ACTION_OPEN end |> |> |>
               else w in
      (w, true)
    else (w, false) in
  let d1 := policy_desc (session w) in
  let '(w, ev) :=
    if negb (hdl_ver d1 =? ep_ver ep) && FLAGS_TEST (flags d1) POLICY_DESC_CHECK_VER
    then (do_lookup e w hdl 0 to_server, true) else (w, ev) in
  let s := session w in
  if (action (policy_desc s) =? DP_POLICY_ACTION_CHECK_APP) &&
     FLAGS_TEST (s_flags s) DPI_SESS_FLAG_POLICY_APP_READY then
    let app_ := session_app s in
    if negb (app_ =? DP_POLICY_APP_UNKNOWN) || negb (FLAGS_TEST (s_flags s) DPI_SESS_FLAG_MID_STREAM)
    then (do_lookup e w hdl app_ to_server, true) else (w, ev)
  else (w, ev).

Definition changed (a b : dpi_policy_desc) : bool := negb (action a =? action b) || negb (id a =? id b).

Definition dpi_policy_reeval e w (xff_enabled : bool) (ep : pkt_ep)
    (ep_map : list Z -> option (option dpi_policy_hdl)) (to_server : bool) : Z * pworld :=
  let old := policy_desc (session w) in
  let old_xff := xff_desc (session w) in
  let '(w, ev) := reeval_own e w ep to_server in
  let xff := xff_enabled && FLAGS_TEST (s_flags (session w)) DPI_SESS_FLAG_INGRESS &&
             FLAGS_TEST (s_flags (session w)) DPI_SESS_FLAG_XFF in
  let w := if xff then reeval_xff e w ep ep_map (ep_hdl ep) to_server else w in
  let d := policy_desc (session w) in
  let x := xff_desc (session w) in
  if xff then
    let w := if changed old_xff x
             then w <| pkt ::= fun p => p <| p_flags ::= fun f => FLAGS_SET f DPI_PKT_FLAG_LOG_XFF |> |> else w in
    let w := if changed old d
             then w <| pkt ::= fun p => p <| p_flags ::= fun f => FLAGS_SET f DPI_PKT_FLAG_LOG_MID |> |> else w in
    (if changed old_xff x || changed old d
     then DPI_POLICY_LOG_VIOLATE (action d) + DPI_POLICY_LOG_VIOLATE (action x) else 0, w)
  else if ev then
    if changed old d
    then (DPI_POLICY_LOG_VIOLATE (action d),
          w <| pkt ::= fun p => p <| p_flags ::= fun f => FLAGS_SET f DPI_PKT_FLAG_LOG_MID |> |>)
    else (0, w)
  else (0, w).

(** The same for a session without a packet. *)
Definition sess_look e (hdl : option dpi_policy_hdl) (app_ : Z) (s : dpi_session) : dpi_session :=
  s <| policy_desc ::= dpi_policy_lookup_by_key e hdl (client_ip4 s) (server_ip4 s) (server_port s)
         (s_ip_proto s) app_ (FLAGS_TEST (s_flags s) DPI_SESS_FLAG_INGRESS) |>.
Definition sess_app_due (s : dpi_session) : bool :=
  (action (policy_desc s) =? DP_POLICY_ACTION_CHECK_APP) &&
  FLAGS_TEST (s_flags s) DPI_SESS_FLAG_POLICY_APP_READY.
(** The two lookups, and whether there was one. *)
Definition sess_eval e (hdl : option dpi_policy_hdl) (pver : Z) (s : dpi_session) : dpi_session * bool :=
  let '(s, ev) := if negb (hdl_ver (policy_desc s) =? pver) &&
                     FLAGS_TEST (flags (policy_desc s)) POLICY_DESC_CHECK_VER
                  then (sess_look e hdl 0 s, true) else (s, false) in
  if sess_app_due s then (sess_look e hdl (session_app s) s, true) else (s, ev).

(** [ep_map] finds the handle and the version of the endpoint with a MAC address. *)
Definition dpi_sess_policy_reeval e (ep_map : Z -> option (option dpi_policy_hdl * Z)) (s : dpi_session)
    : Z * dpi_session :=
  let old := policy_desc s in
  if negb (FLAGS_TEST (flags old) POLICY_DESC_CHECK_VER) then (0, s)
  else
    let is_ingress := FLAGS_TEST (s_flags s) DPI_SESS_FLAG_INGRESS in
    match ep_map (if is_ingress then server_mac s else client_mac s) with
    | None => (0, s)
    | Some (hdl, pver) =>
        let '(s, ev) := sess_eval e hdl pver s in
        (if ev && negb (DPI_POLICY_LOG_VIOLATE (action (policy_desc s)) =? 0) && changed old (policy_desc s)
         then 1 else 0, s)
    end.

(** ** The cache and its timers *)

(** Every entry is on the wheel, with its deadline ten minutes after its last hit, and
    there is one entry for a pair of addresses. *)
Record uinv t (dl : gmap Z Z) : Prop := {
  ui_addr : NoDup (addr <$> th_unknown_ip_map t);
  ui_key : NoDup ((fun c => (u_sip (c_uip c), u_dip (c_uip c))) <$> th_unknown_ip_map t);
  ui_dl a D : dl !! a = Some D <->
    exists c, c ∈ th_unknown_ip_map t /\ addr c = a /\ D = last_hit c + UNKNOWN_IP_CACHE_TIMEOUT;
  ui_tmo c : c ∈ th_unknown_ip_map t -> timeout (entry (th_timer t) (addr c)) = UNKNOWN_IP_CACHE_TIMEOUT;
  ui_hit c : c ∈ th_unknown_ip_map t -> 0 <= start_hit c <= last_hit c /\ last_hit c <= tick t
}.

Lemma addr_unique t c1 c2 :
  NoDup (addr <$> th_unknown_ip_map t) -> c1 ∈ th_unknown_ip_map t -> c2 ∈ th_unknown_ip_map t ->
  addr c1 = addr c2 -> c1 = c2.
Proof.
  induction (th_unknown_ip_map t) as [|x l IH]; [by intros _ ?%elem_of_nil|].
  simpl. intros [Hx N]%NoDup_cons [->|H1]%elem_of_cons [->|H2]%elem_of_cons Heq; auto.
  - destruct Hx. rewrite Heq. by apply list_elem_of_fmap_2.
  - destruct Hx. rewrite <- Heq. by apply list_elem_of_fmap_2.
Qed.

Lemma add_cache_uinv base u t dl :
  uinv t dl -> inv base (th_timer t) dl -> uip_lookup t u = None ->
  0 <= tick t -> tick t + UNKNOWN_IP_CACHE_TIMEOUT < 2 ^ 32 ->
  base <= tick t + UNKNOWN_IP_CACHE_TIMEOUT < base + MAX_TIMER_SLOTS ->
  exists dl' c, uinv (add_unknown_ip_cache u t) dl' /\ inv base (th_timer (add_unknown_ip_cache u t)) dl' /\
    th_unknown_ip_map (add_unknown_ip_cache u t) = th_unknown_ip_map t ++ [c] /\
    c_uip c = u /\ start_hit c = tick t /\ last_hit c = tick t.
Proof.
  intros [U1 U2 U3 U4 U5] V Hl H0 H32 Hb. unfold add_unknown_ip_cache.
  set (a := fresh _). assert (Ha : a ∉ addr <$> th_unknown_ip_map t).
  { pose proof (is_fresh (list_to_set (addr <$> th_unknown_ip_map t) : gset Z)) as Hf.
    fold a in Hf. by rewrite elem_of_list_to_set in Hf. }
  clearbody a.
  assert (Hdl : dl !! a = None).
  { destruct (dl !! a) as [D|] eqn:E; [|done]. apply U3 in E as (c & Hc & Hac & _).
    destruct Ha. rewrite <- Hac. by apply list_elem_of_fmap_2. }
  exists (<[a := tick t + UNKNOWN_IP_CACHE_TIMEOUT]> dl), (Cache a u (tick t) (tick t)).
  split_and!; try done.
  - constructor; simpl.
    + rewrite fmap_app. apply NoDup_app. split_and!; [done| |apply NoDup_singleton].
      intros x Hx ->%list_elem_of_singleton. done.
    + rewrite fmap_app. apply NoDup_app. split_and!; [done| |apply NoDup_singleton].
      simpl. intros x (c & -> & Hc)%list_elem_of_fmap Hx%list_elem_of_singleton. injection Hx as E1 E2.
      unfold uip_lookup in Hl. rewrite find_first_None in Hl. specialize (Hl c Hc). unfold unknown_ip_match in Hl.
      by rewrite E1, E2, !Z.eqb_refl in Hl.
    + intros b D. rewrite lookup_insert_Some, U3. setoid_rewrite elem_of_app.
      setoid_rewrite list_elem_of_singleton. split.
      * intros [[<- <-]|[Hne (c & Hc & <- & ->)]]; [eexists; split; [by right|done]|].
        exists c. by split_and!; [left|..].
      * intros (c & [Hc| ->] & <- & ->); [right|by left]. split; [|by exists c].
        intros Heq. destruct Ha. rewrite Heq. by apply list_elem_of_fmap_2.
    + intros c [Hc| ->%list_elem_of_singleton]%elem_of_app.
      * rewrite timeout_start by (unfold UNKNOWN_IP_CACHE_TIMEOUT, MAX_TIMER_SLOTS; lia).
        rewrite decide_False by (intros ->; destruct Ha; by apply list_elem_of_fmap_2).
        unfold timer_wheel_entry_init. rewrite entry_entry_upd.
        rewrite decide_False by (intros ->; destruct Ha; by apply list_elem_of_fmap_2). by apply U4.
      * rewrite timeout_start by (unfold UNKNOWN_IP_CACHE_TIMEOUT, MAX_TIMER_SLOTS; lia).
        by rewrite decide_True.
    + intros c [Hc| ->%list_elem_of_singleton]%elem_of_app; [by apply U5|simpl; lia].
  - cbn [th_timer set]. apply start_inv; try done; try (unfold UNKNOWN_IP_CACHE_TIMEOUT, MAX_TIMER_SLOTS; lia).
    by apply entry_upd_off.
Qed.

Lemma update_cache_uinv base c t dl :
  uinv t dl -> inv base (th_timer t) dl -> c ∈ th_unknown_ip_map t ->
  0 <= tick t -> tick t + UNKNOWN_IP_CACHE_TIMEOUT < 2 ^ 32 ->
  base <= tick t + UNKNOWN_IP_CACHE_TIMEOUT < base + MAX_TIMER_SLOTS ->
  let t' := update_unknown_ip_cache (addr c) t in
  exists dl', uinv t' dl' /\ inv base (th_timer t') dl' /\
    c <| last_hit := tick t |> ∈ th_unknown_ip_map t'.
Proof.
  intros [U1 U2 U3 U4 U5] V Hc H0 H32 Hb t'. unfold t', update_unknown_ip_cache.
  set (g := fun x => if addr x =? addr c then x <| last_hit := tick t |> else x).
  assert (Hg : forall x, addr (g x) = addr x /\ c_uip (g x) = c_uip x /\ start_hit (g x) = start_hit x).
  { intros x. unfold g. by destruct (addr x =? addr c). }
  assert (Hgc : g c = c <| last_hit := tick t |>) by (unfold g; by rewrite Z.eqb_refl).
  assert (Hgn : forall x, x ∈ th_unknown_ip_map t -> addr x <> addr c -> g x = x).
  { intros x _ Hx. unfold g. by rewrite (proj2 (Z.eqb_neq _ _) Hx). }
  assert (Hmem : forall x, x ∈ th_unknown_ip_map t -> x = c \/ addr x <> addr c).
  { intros x Hx. destruct (decide (addr x = addr c)) as [He|]; [left|by right]. by eapply addr_unique. }
  exists (<[addr c := tick t + UNKNOWN_IP_CACHE_TIMEOUT]> dl). split_and!; [constructor|..]; simpl.
  - rewrite <- list_fmap_compose. erewrite list_fmap_ext; [exact U1|]. intros i x _. apply Hg.
  - rewrite <- list_fmap_compose. erewrite list_fmap_ext; [exact U2|]. intros i x _. simpl.
    by destruct (Hg x) as (_ & -> & _).
  - intros a D. rewrite lookup_insert_Some, U3. setoid_rewrite list_elem_of_fmap. split.
    + intros [[<- <-]|[Hne (x & Hx & <- & ->)]].
      * exists (g c). split_and!; [by exists c|apply Hg|by rewrite Hgc].
      * exists (g x). split_and!; [by exists x|apply Hg|]. by rewrite Hgn by (done || by apply not_eq_sym).
    + intros (y & (x & -> & Hx) & <- & ->). destruct (Hg x) as (-> & _ & _).
      destruct (Hmem x Hx) as [->|Hne]; [left; by rewrite Hgc|right].
      rewrite Hgn by done. split; [by apply not_eq_sym|by exists x].
  - intros y (x & -> & Hx)%list_elem_of_fmap. destruct (Hg x) as (-> & _ & _).
    rewrite timeout_refresh. by apply U4.
  - intros y (x & -> & Hx)%list_elem_of_fmap. destruct (U5 x Hx) as [Hs Hl].
    destruct (Hmem x Hx) as [->|Hne]; [rewrite Hgc; simpl; lia|by rewrite Hgn].
  - assert (Hd : dl !! addr c = Some (last_hit c + UNKNOWN_IP_CACHE_TIMEOUT)) by (apply U3; by exists c).
    rewrite <- (U4 c Hc) at 1. eapply refresh_inv; [done|done|done|..]; rewrite (U4 c Hc);
      unfold UNKNOWN_IP_CACHE_TIMEOUT in *; lia.
  - pose proof (list_elem_of_fmap_2 g _ _ Hc) as Hm. rewrite Hgc in Hm. exact Hm.
Qed.

(** *** Expiry *)

(** While the wheel rolls to [now]: the cache is the part of [t0] that is still pending,
    and nothing due later has been dropped. *)
Definition rolling (t0 : thread) (dl0 : gmap Z Z) (now : Z) t (dl : gmap Z Z) : Prop :=
  uinv t dl /\ tick t = tick t0 /\
  th_unknown_ip_map t = List.filter (fun c => bool_decide (is_Some (dl !! addr c))) (th_unknown_ip_map t0) /\
  (forall a D, dl !! a = Some D -> dl0 !! a = Some D) /\
  (forall a D, dl0 !! a = Some D -> now <= D -> dl !! a = Some D).

Lemma lfilter_lfilter {A} (P Q : A -> bool) l :
  List.filter P (List.filter Q l) = List.filter (fun x => Q x && P x) l.
Proof. induction l as [|x l IH]; [done|]. simpl. destruct (Q x); simpl; [destruct (P x)|]; by rewrite ?IH. Qed.
Lemma lfilter_ext {A} (P Q : A -> bool) l :
  (forall x, x ∈ l -> P x = Q x) -> List.filter P l = List.filter Q l.
Proof.
  induction l as [|x l IH]; [done|]. intros H. simpl. rewrite (H x) by (left).
  rewrite IH; [done|]. intros y Hy. apply H. by right.
Qed.

Lemma release_rolling t0 dl0 base now : callbacks_ok (rolling t0 dl0 now) base now.
Proof.
  intros t dl s n D fn ([U1 U2 U3 U4 U5] & Ht & Hm & Hsub & Hkeep) Hs V Hn HD Hfn. cbn -[timer_wheel_entry_remove].
  exists (delete n dl). split_and!.
  - unfold rolling, unknown_ip_release. simpl.
    assert (Hmem : forall c, c ∈ List.filter (fun c => negb (addr c =? n)) (th_unknown_ip_map t) <->
              c ∈ th_unknown_ip_map t /\ addr c <> n).
    { intros c. by rewrite elem_of_lfilter, negb_true_iff, Z.eqb_neq. }
    split_and!; [constructor; simpl|done| | |].
    + by apply NoDup_fmap_filter.
    + by apply NoDup_fmap_filter.
    + intros a D'. rewrite lookup_delete_Some, U3. setoid_rewrite Hmem. split.
      * intros [Hne (c & ? & <- & ->)]. exists c. split_and!; [done|by apply not_eq_sym|done|done].
      * intros (c & [? Hne] & <- & ->). split; [by apply not_eq_sym|by exists c].
    + intros c [Hc Hne]%Hmem. rewrite timeout_remove. by apply U4.
    + intros c [Hc _]%Hmem. by apply U5.
    + rewrite Hm, lfilter_lfilter. apply lfilter_ext. intros c _.
      destruct (Z.eqb_spec (addr c) n) as [->|Hne]; simpl.
      * rewrite andb_false_r. symmetry. apply bool_decide_false. rewrite lookup_delete_eq. by intros [? ?].
      * rewrite andb_true_r. apply bool_decide_ext. by rewrite lookup_delete_ne by (by apply not_eq_sym).
    + intros a D' [_ ?]%lookup_delete_Some. by apply Hsub.
    + intros a D' Ha Hle. rewrite lookup_delete_ne; [by apply Hkeep|]. intros ->.
      apply Hsub in Hn. rewrite Ha in Hn. injection Hn as ->. lia.
  - simpl. by eapply remove_inv.
  - intros m D' [Hne Hx]%lookup_delete_Some. left. split; [by apply not_eq_sym|done].
Qed.

(** When the wheel of a thread rolls to [now], exactly the entries of the cache that were
    last hit more than ten minutes before are released; the others are left as they
    were and stay on the wheel. *)
Theorem unknown_ip_cache_expires (t : thread) (dl : gmap Z Z) (base now : Z) (fuel : nat) :
  uinv t dl -> inv base (th_timer t) dl -> current (th_timer t) = base ->
  base <= now < 2 ^ 32 -> base + MAX_TIMER_SLOTS < 2 ^ 32 ->
  (size (overdue now dl) <= fuel)%nat ->
  exists t' cnt dl', timer_wheel_roll fuel now t = Some (t', cnt) /\ uinv t' dl' /\
    inv now (th_timer t') dl' /\
    th_unknown_ip_map t' =
      List.filter (fun c => now <=? last_hit c + UNKNOWN_IP_CACHE_TIMEOUT) (th_unknown_ip_map t).
Proof.
  intros U V Hc Hn H32 Hf.
  destruct (timer_wheel_roll_spec (rolling t dl now) base now (release_rolling t dl base now)
    ltac:(intros ? ? ? ([] & ? & ? & ? & ?); split_and!; try done) fuel t dl) as (t' & cnt & dl' & E & R & _ & V');
    try done.
  { split_and!; try done. rewrite <- (lfilter_ext (fun _ => true)).
    - clear. by induction (th_unknown_ip_map t) as [|x l IH]; [|simpl; f_equal].
    - intros c Hin. symmetry. apply bool_decide_true. eexists. apply (ui_dl _ _ U). by exists c. }
  destruct R as (U' & _ & Hm & Hsub & Hkeep). exists t', cnt, dl'. split_and!; [done|done|done|].
  rewrite Hm. apply lfilter_ext. intros c Hin.
  assert (Hd : dl !! addr c = Some (last_hit c + UNKNOWN_IP_CACHE_TIMEOUT)) by (apply (ui_dl _ _ U); by exists c).
  destruct (Z.leb_spec now (last_hit c + UNKNOWN_IP_CACHE_TIMEOUT)).
  - apply bool_decide_true. eexists. by apply Hkeep.
  - apply bool_decide_false. intros [D HD]. pose proof (inv_entry _ _ _ V' _ _ HD) as [Hr _].
    apply Hsub in HD. rewrite Hd in HD. injection HD as <-. lia.
Qed.

(** The grace of unknown addresses.  A packet of a pair of addresses that matches no rule
    is let through when the pair was first seen less than a minute ago under the policy
    that is still in force, and gets the default action otherwise; the pair is in the
    cache afterwards, under the time and the policy version of its first packet, and the
    cache and its timers stay in step. *)
Theorem unknown_ip_grace (h : dpi_policy_hdl) (sip_ dip_ iptype : Z) (d : dpi_policy_desc) (t : thread)
    (dl : gmap Z Z) (base : Z) :
  uinv t dl -> inv base (th_timer t) dl -> 0 <= tick t -> tick t + UNKNOWN_IP_CACHE_TIMEOUT < 2 ^ 32 ->
  base <= tick t + UNKNOWN_IP_CACHE_TIMEOUT < base + MAX_TIMER_SLOTS ->
  iptype ∈ [DP_IPTYPE_NONE; DP_IPTYPE_HOSTIP; DP_IPTYPE_TUNNELIP] ->
  exists d' t' dl' c, _dpi_policy_chk_unknown_ip (Some h) sip_ dip_ iptype d t = (d', t') /\
    uinv t' dl' /\ inv base (th_timer t') dl' /\ c ∈ th_unknown_ip_map t' /\
    u_sip (c_uip c) = sip_ /\ u_dip (c_uip c) = dip_ /\
    match uip_lookup t (Uip sip_ dip_ 0) with
    | None => start_hit c = tick t /\ u_ver (c_uip c) = ver h /\ d' = open_unknown d
    | Some c0 =>
        start_hit c = start_hit c0 /\ u_ver (c_uip c) = u_ver (c_uip c0) /\
        d' = if (ver h =? u_ver (c_uip c0)) && (tick t - start_hit c0 <? POLICY_DESC_VER_CHG_MAX)
             then open_unknown d else d
    end.
Proof.
  intros U V H0 H32 Hb Hty. unfold _dpi_policy_chk_unknown_ip.
  assert (Ht : (iptype =? DP_IPTYPE_NONE) || (iptype =? DP_IPTYPE_HOSTIP) || (iptype =? DP_IPTYPE_TUNNELIP) = true).
  { repeat (apply elem_of_cons in Hty as [->|Hty]; [done|]). by apply elem_of_nil in Hty. }
  rewrite Ht. destruct (uip_lookup t (Uip sip_ dip_ 0)) as [c|] eqn:Hl.
  - unfold uip_lookup in Hl. apply find_first_elem in Hl as [Hc Hm]. unfold unknown_ip_match in Hm.
    apply andb_true_iff in Hm as [Hm1%Z.eqb_eq Hm2%Z.eqb_eq]. simpl in Hm1, Hm2.
    destruct (ui_hit _ _ U c Hc) as [Hs1 Hs2].
    rewrite u32_id by (unfold is_u32, UNKNOWN_IP_CACHE_TIMEOUT in *; lia).
    destruct ((ver h =? u_ver (c_uip c)) && (tick t - start_hit c <? POLICY_DESC_VER_CHG_MAX)).
    + destruct (update_cache_uinv base c t dl U V Hc H0 H32 Hb) as (dl' & U' & V' & Hin).
      eexists _, _, dl', _. split; [reflexivity|]. split; [exact U'|]. split; [exact V'|].
      split; [exact Hin|]. done.
    + eexists _, _, dl, c. split; [reflexivity|]. done.
  - destruct (add_cache_uinv base (Uip sip_ dip_ (ver h)) t dl U V Hl H0 H32 Hb)
      as (dl' & c & U' & V' & Hm & Hu & Hs & _).
    eexists _, _, dl', c. split; [reflexivity|]. split; [exact U'|]. split; [exact V'|].
    change (Uip sip_ dip_ 0 <| u_ver := ver h |>) with (Uip sip_ dip_ (ver h)).
    rewrite Hm, Hu. split; [set_solver|]. done.
Qed.

(** ** Reevaluation *)

Definition hdl_version (hdl : option dpi_policy_hdl) : Z := match hdl with Some h => ver h | None => 0 end.

Lemma lookup_by_key_ver e hdl a b c d f ing desc :
  hdl_ver (dpi_policy_lookup_by_key e hdl a b c d f ing desc) = hdl_version hdl.
Proof. by destruct hdl. Qed.

(** The unknown-address step only touches the action and the flags, and only of a denial. *)
Lemma chk_unknown_desc hdl a b ty d t :
  let d' := (_dpi_policy_chk_unknown_ip hdl a b ty d t).1 in
  hdl_ver d' = hdl_ver d /\ id d' = id d /\ (d' = d \/ action d' = DP_POLICY_ACTION_OPEN).
Proof.
  unfold _dpi_policy_chk_unknown_ip. destruct hdl as [h|]; [|by auto].
  destruct (_ || _); [|destruct (ty =? _); by auto].
  destruct (uip_lookup t _) as [c|]; [destruct (_ && _)|]; by auto.
Qed.

Lemma policy_decide_spec e hdl a b c p f ing desc w :
  let '(d, w') := policy_decide e hdl a b c p f ing desc w in
  hdl_ver d = hdl_version hdl /\ session w' = session w /\ pkt w' = pkt w /\
  (action d = DP_POLICY_ACTION_CHECK_APP ->
   forall w2, (policy_decide e hdl a b c p f ing desc w2).1 = d).
Proof.
  unfold policy_decide. set (d0 := dpi_policy_lookup_by_key _ _ _ _ _ _ _ _ _).
  assert (Hv : hdl_ver d0 = hdl_version hdl) by apply lookup_by_key_ver. clearbody d0.
  destruct (FLAGS_TEST (flags d0) POLICY_DESC_INTERNAL && _dpi_policy_implicit_default hdl d0) eqn:Hi.
  2: { cbv beta iota zeta. split_and!; [done|by destruct (FLAGS_TEST _ POLICY_DESC_SVC_EXTIP)..|].
       intros _ w2. by destruct (FLAGS_TEST _ POLICY_DESC_SVC_EXTIP). }
  destruct (negb (dpi_is_policy_addr e _)).
  2: { cbv beta iota zeta. split_and!; [done|by destruct (FLAGS_TEST _ POLICY_DESC_SVC_EXTIP)..|].
       intros _ w2. by destruct (FLAGS_TEST _ POLICY_DESC_SVC_EXTIP). }
  pose proof (chk_unknown_desc hdl a b (dpi_ip4_iptype e (if ing then a else b)) d0 (th w)) as (Hv' & _ & Hc).
  destruct (_dpi_policy_chk_unknown_ip hdl a b _ d0 (th w)) as [d1 t1]. simpl in Hv', Hc.
  cbv beta iota zeta. split_and!; [congruence|by destruct (FLAGS_TEST _ POLICY_DESC_SVC_EXTIP)..|].
  intros Ha. exfalso. apply andb_true_iff in Hi as [_ Hi]. unfold _dpi_policy_implicit_default in Hi.
  destruct hdl; [|done]. apply andb_true_iff in Hi as [_ Hi].
  assert (action d0 <> DP_POLICY_ACTION_CHECK_APP).
  { intros E. rewrite E in Hi. done. }
  destruct Hc as [->|Hc]; [done|]. by rewrite Ha in Hc.
Qed.

(** Packets that a lookup cannot tell apart. *)
Definition same_view (p q : dpi_packet) : Prop :=
  eth_type p = eth_type q /\ ip_proto p = ip_proto q /\ p_sport p = p_sport q /\ p_dport p = p_dport q /\
  saddr p = saddr q /\ daddr p = daddr q /\
  FLAGS_TEST (p_flags p) DPI_PKT_FLAG_INGRESS = FLAGS_TEST (p_flags q) DPI_PKT_FLAG_INGRESS.

(** What dpi_policy_lookup gives for the packet's own addresses: nothing for traffic the
    policy does not cover, else a decision of the handle's version. *)
Lemma policy_lookup_spec e w hdl a ts desc :
  let '(d, w') := dpi_policy_lookup e w hdl a ts false desc 0 in
  (hdl_ver d = hdl_version hdl \/ flags d = 0) /\ session w' = session w /\ pkt w' = pkt w /\
  (action d = DP_POLICY_ACTION_CHECK_APP -> forall w2 desc2, same_view (pkt w2) (pkt w) ->
   (dpi_policy_lookup e w2 hdl a ts false desc2 0).1 = d).
Proof.
  unfold dpi_policy_lookup. cbn [negb].
  destruct (eth_type (pkt w) =? ETH_P_IP) eqn:He; cbn [negb].
  2: { split_and!; [by right|done|done|done]. }
  destruct (if (ip_proto (pkt w) =? IPPROTO_TCP) || (ip_proto (pkt w) =? IPPROTO_UDP) then _ else _)
    as [dp|] eqn:Hp.
  2: { split_and!; [by right|done|done|done]. }
  pose proof (policy_decide_spec e hdl (if ts then saddr (pkt w) else daddr (pkt w))
    (if ts then daddr (pkt w) else saddr (pkt w)) dp (ip_proto (pkt w)) a
    (if ts then FLAGS_TEST (p_flags (pkt w)) DPI_PKT_FLAG_INGRESS
     else negb (FLAGS_TEST (p_flags (pkt w)) DPI_PKT_FLAG_INGRESS)) desc_zero w) as Hs.
  destruct (policy_decide _ _ _ _ _ _ _ _ _ w) as [d w']. destruct Hs as (Hv & Hss & Hpk & Hst).
  split_and!; [by left|done|done|]. intros Ha w2 desc2 (E1 & E2 & E3 & E4 & E5 & E6 & E7).
  rewrite E1, E2, E3, E4, E5, E6, E7, He, Hp. cbn [negb]. by apply Hst.
Qed.

(** Only the decision of the session has changed. *)
Definition own_only w w' : Prop :=
  pkt w' = pkt w /\ session w' = (session w) <| policy_desc := policy_desc (session w') |>.

Lemma own_only_refl w : own_only w w.
Proof. split; [done|]. by destruct (session w). Qed.
Lemma own_only_trans w1 w2 w3 : own_only w1 w2 -> own_only w2 w3 -> own_only w1 w3.
Proof. intros [A1 A2] [B1 B2]. split; [congruence|]. rewrite B2, A2. done. Qed.

Lemma do_lookup_spec e w hdl a ts :
  let w' := do_lookup e w hdl a ts in
  own_only w w' /\
  (hdl_ver (policy_desc (session w')) = hdl_version hdl \/ flags (policy_desc (session w')) = 0) /\
  (action (policy_desc (session w')) = DP_POLICY_ACTION_CHECK_APP -> forall w2, same_view (pkt w2) (pkt w) ->
   policy_desc (session (do_lookup e w2 hdl a ts)) = policy_desc (session w')).
Proof.
  unfold do_lookup. pose proof (policy_lookup_spec e w hdl a ts (policy_desc (session w))) as H.
  destruct (dpi_policy_lookup e w hdl a ts false _ 0) as [d w1]. destruct H as (Hv & Hs & Hp & Hst).
  cbn [session policy_desc set]. split_and!; [split; [done|by rewrite Hs]|done|].
  intros Ha w2 Hw2. specialize (Hst Ha w2 (policy_desc (session w2)) Hw2).
  by destruct (dpi_policy_lookup e w2 hdl a ts false _ 0) as [d2 w3].
Qed.

(** The description has been looked up under the endpoint's version, or does not ask to be. *)
Definition current_desc (ep : pkt_ep) (d : dpi_policy_desc) : Prop :=
  hdl_ver d = ep_ver ep \/
  (FLAGS_TEST (flags d) POLICY_DESC_UNKNOWN_IP = false /\ FLAGS_TEST (flags d) POLICY_DESC_CHECK_VER = false).

Definition app_due (s : dpi_session) : bool :=
  (action (policy_desc s) =? DP_POLICY_ACTION_CHECK_APP) &&
  FLAGS_TEST (s_flags s) DPI_SESS_FLAG_POLICY_APP_READY &&
  (negb (session_app s =? DP_POLICY_APP_UNKNOWN) || negb (FLAGS_TEST (s_flags s) DPI_SESS_FLAG_MID_STREAM)).

Lemma reeval_own_current e w ep ts :
  current_desc ep (policy_desc (session w)) ->
  reeval_own e w ep ts =
  if app_due (session w) then (do_lookup e w (ep_hdl ep) (session_app (session w)) ts, true) else (w, false).
Proof.
  intros Hc. unfold reeval_own, app_due.
  assert (negb (hdl_ver (policy_desc (session w)) =? ep_ver ep) &&
          FLAGS_TEST (flags (policy_desc (session w))) POLICY_DESC_UNKNOWN_IP = false) as ->.
  { destruct Hc as [->|[-> _]]; [by rewrite Z.eqb_refl|by rewrite andb_false_r]. }
  assert (negb (hdl_ver (policy_desc (session w)) =? ep_ver ep) &&
          FLAGS_TEST (flags (policy_desc (session w))) POLICY_DESC_CHECK_VER = false) as ->.
  { destruct Hc as [->|[_ ->]]; [by rewrite Z.eqb_refl|by rewrite andb_false_r]. }
  destruct ((action _ =? _) && FLAGS_TEST _ _); [|done]. simpl. by destruct (_ || _).
Qed.

(** The first half: afterwards the description is current. *)
Lemma reeval_own_split e w ep ts :
  ep_ver ep = hdl_version (ep_hdl ep) ->
  exists w1 ev1, own_only w w1 /\ current_desc ep (policy_desc (session w1)) /\ (ev1 = false -> w1 = w) /\
    reeval_own e w ep ts =
    if app_due (session w1) then (do_lookup e w1 (ep_hdl ep) (session_app (session w1)) ts, true) else (w1, ev1).
Proof.
  intros Hep.
  assert (Hcur : forall w0 a, current_desc ep (policy_desc (session (do_lookup e w0 (ep_hdl ep) a ts)))).
  { intros w0 a. destruct (do_lookup_spec e w0 (ep_hdl ep) a ts) as (_ & [Hv|Hf] & _); [left; congruence|right].
    by rewrite Hf. }
  unfold reeval_own, app_due.
  destruct (negb (hdl_ver (policy_desc (session w)) =? ep_ver ep) &&
            FLAGS_TEST (flags (policy_desc (session w))) POLICY_DESC_UNKNOWN_IP) eqn:Huk.
  - set (wa := do_lookup e w (ep_hdl ep) 0 ts).
    set (wb := if FLAGS_TEST (flags (policy_desc (session wa))) POLICY_DESC_UNKNOWN_IP then _ else wa).
    assert (Hb : own_only w wb /\ hdl_ver (policy_desc (session wb)) = hdl_ver (policy_desc (session wa)) /\
                 flags (policy_desc (session wb)) = flags (policy_desc (session wa))).
    { destruct (do_lookup_spec e w (ep_hdl ep) 0 ts) as ([H1 H2] & _). fold wa in H1, H2.
      unfold wb. destruct (FLAGS_TEST (flags (policy_desc (session wa))) POLICY_DESC_UNKNOWN_IP);
        [|by split_and!; [split|..]]. split_and!; [|done|done].
      split; [done|]. cbn [session set]. rewrite H2. done. }
    destruct Hb as (Hown & Hv & Hf). exists wb, true.
    assert (Hc : current_desc ep (policy_desc (session wb))).
    { pose proof (Hcur w 0) as Hc. fold wa in Hc. unfold current_desc in *. by rewrite Hv, Hf. }
    clearbody wb. split_and!; [done|done|done|].
    assert (negb (hdl_ver (policy_desc (session wb)) =? ep_ver ep) &&
            FLAGS_TEST (flags (policy_desc (session wb))) POLICY_DESC_CHECK_VER = false) as ->.
    { destruct Hc as [->|[_ ->]]; [by rewrite Z.eqb_refl|by rewrite andb_false_r]. }
    destruct ((action _ =? _) && FLAGS_TEST _ _); [|done]. simpl. by destruct (_ || _).
  - destruct (negb (hdl_ver (policy_desc (session w)) =? ep_ver ep) &&
              FLAGS_TEST (flags (policy_desc (session w))) POLICY_DESC_CHECK_VER) eqn:Hck.
    + exists (do_lookup e w (ep_hdl ep) 0 ts), true.
      split_and!; [apply do_lookup_spec|apply Hcur|done|].
      destruct ((action _ =? _) && FLAGS_TEST _ _); [|done]. simpl. by destruct (_ || _).
    + exists w, false. split_and!; [apply own_only_refl| |done|].
      * unfold current_desc. destruct (decide (hdl_ver (policy_desc (session w)) = ep_ver ep)) as [|Hne]; [by left|right].
        rewrite (proj2 (Z.eqb_neq _ _) Hne) in Huk, Hck. done.
      * destruct ((action _ =? _) && FLAGS_TEST _ _); [|done]. simpl. by destruct (_ || _).
Qed.

Lemma changed_refl d : changed d d = false.
Proof. unfold changed. by rewrite !Z.eqb_refl. Qed.

(** A second evaluation comes to the same decision. *)
Lemma reeval_own_settles e w ep ts w1 ev1 w1' w2 ev2 :
  ep_ver ep = hdl_version (ep_hdl ep) ->
  reeval_own e w ep ts = (w1, ev1) -> session w1' = session w1 -> same_view (pkt w1') (pkt w1) ->
  reeval_own e w1' ep ts = (w2, ev2) ->
  policy_desc (session w2) = policy_desc (session w1) /\ pkt w2 = pkt w1'.
Proof.
  intros Hep E1 Hs1 Hv1 E2. destruct (reeval_own_split e w ep ts Hep) as (wa & eva & Hown & Hc & _ & E).
  rewrite E1 in E. destruct (app_due (session wa)) eqn:Hd.
  - injection E as -> ->. destruct (do_lookup_spec e wa (ep_hdl ep) (session_app (session wa)) ts) as ([Hp Hs] & Hv & Hst).
    set (w1 := do_lookup e wa (ep_hdl ep) _ ts) in *.
    assert (Happ : session_app (session w1) = session_app (session wa)) by (rewrite Hs; done).
    rewrite reeval_own_current, Hs1 in E2.
    2: { rewrite Hs1. destruct Hv as [Hv|Hf]; [left; congruence|right; by rewrite Hf]. }
    destruct (app_due (session w1)) eqn:Hd1; [|by injection E2 as <- <-; rewrite Hs1].
    injection E2 as <- <-. rewrite Happ. split.
    + apply Hst; [|by rewrite <- Hp]. unfold app_due in Hd1.
      by apply andb_true_iff in Hd1 as [[?%Z.eqb_eq _]%andb_true_iff _].
    + by destruct (do_lookup_spec e w1' (ep_hdl ep) (session_app (session wa)) ts) as [[? _] _].
  - injection E as -> ->. rewrite reeval_own_current, Hs1, Hd in E2 by (by rewrite Hs1).
    injection E2 as <- <-. by rewrite Hs1.
Qed.

Lemma reeval_own_frame e w ep ts w1 ev1 :
  ep_ver ep = hdl_version (ep_hdl ep) -> reeval_own e w ep ts = (w1, ev1) ->
  own_only w w1 /\ (ev1 = false -> w1 = w).
Proof.
  intros Hep E1. destruct (reeval_own_split e w ep ts Hep) as (wa & eva & Hown & _ & Hev & E).
  rewrite E1 in E. destruct (app_due (session wa)); injection E as -> ->; [|done].
  split; [|done]. eapply own_only_trans; [exact Hown|apply do_lookup_spec].
Qed.

(** A packet's reevaluation reports a violation only for a decision that has just changed
    to a violation or a denial, of the session or of its forwarded client, and marks the
    packet for logging whenever the session's decision has changed. *)
Theorem dpi_policy_reeval_reports (e : env) (w : pworld) (xff_on : bool) (ep : pkt_ep)
    (ep_map : list Z -> option (option dpi_policy_hdl)) (to_server : bool) :
  ep_ver ep = hdl_version (ep_hdl ep) ->
  let '(r, w') := dpi_policy_reeval e w xff_on ep ep_map to_server in
  let own := policy_desc (session w') in
  let fwd := xff_desc (session w') in
  0 <= r /\
  (0 < r -> (changed (policy_desc (session w)) own || changed (xff_desc (session w)) fwd) = true /\
            (DP_POLICY_ACTION_CHECK_APP < action own \/ DP_POLICY_ACTION_CHECK_APP < action fwd)) /\
  (changed (policy_desc (session w)) own = true ->
   FLAGS_TEST (p_flags (pkt w')) DPI_PKT_FLAG_LOG_MID = true).
Proof.
  intros Hep. unfold dpi_policy_reeval. destruct (reeval_own e w ep to_server) as [w1 ev] eqn:E1.
  destruct (reeval_own_frame _ _ _ _ _ _ Hep E1) as [_ Hev].
  assert (Hviol : forall a, 0 <= DPI_POLICY_LOG_VIOLATE a /\
            (0 < DPI_POLICY_LOG_VIOLATE a -> DP_POLICY_ACTION_CHECK_APP < a)).
  { intros a. unfold DPI_POLICY_LOG_VIOLATE. destruct (Z.ltb_spec DP_POLICY_ACTION_CHECK_APP a); simpl; lia. }
  assert (Hset : forall f, FLAGS_TEST (FLAGS_SET f DPI_PKT_FLAG_LOG_MID) DPI_PKT_FLAG_LOG_MID = true).
  { intros f. by rewrite Fqdn.flags_test_set, orb_true_r. }
  destruct (xff_on && _ && _).
  - set (w2 := reeval_xff e w1 ep ep_map (ep_hdl ep) to_server).
    destruct (changed (xff_desc (session w)) (xff_desc (session w2))) eqn:Hx,
             (changed (policy_desc (session w)) (policy_desc (session w2))) eqn:Ho;
      cbn [session pkt set p_flags orb]; rewrite ?Hx, ?Ho;
      destruct (Hviol (action (policy_desc (session w2)))), (Hviol (action (xff_desc (session w2))));
      split_and!; try done; try lia; intros; try (split; [done|lia]); apply Hset.
  - destruct ev.
    + destruct (changed (policy_desc (session w)) (policy_desc (session w1))) eqn:Ho;
        cbn [session pkt set p_flags orb]; rewrite ?Ho; destruct (Hviol (action (policy_desc (session w1))));
        split_and!; try done; try lia; intros; first [apply Hset|split; [done|left; auto]].
    + rewrite (Hev eq_refl), changed_refl. split_and!; [done|done|done].
Qed.

(** Reevaluation settles: with no forwarded client, a second reevaluation of the session
    under the same policy keeps the decision and reports nothing. *)
Theorem dpi_policy_reeval_settles (e : env) (w : pworld) (ep : pkt_ep)
    (ep_map : list Z -> option (option dpi_policy_hdl)) (to_server : bool) :
  ep_ver ep = hdl_version (ep_hdl ep) ->
  let '(r1, w1) := dpi_policy_reeval e w false ep ep_map to_server in
  let '(r2, w2) := dpi_policy_reeval e w1 false ep ep_map to_server in
  r2 = 0 /\ policy_desc (session w2) = policy_desc (session w1) /\ pkt w2 = pkt w1.
Proof.
  intros Hep. unfold dpi_policy_reeval. cbn [andb].
  destruct (reeval_own e w ep to_server) as [w1 ev1] eqn:E1.
  set (res1 := if ev1 then _ else (0, w1)).
  assert (Hs : exists fl, res1.2 = w1 <| pkt ::= fun p => p <| p_flags := fl |> |> /\
            FLAGS_TEST fl DPI_PKT_FLAG_INGRESS = FLAGS_TEST (p_flags (pkt w1)) DPI_PKT_FLAG_INGRESS).
  { unfold res1. destruct ev1; [destruct (changed _ _)|].
    - exists (FLAGS_SET (p_flags (pkt w1)) DPI_PKT_FLAG_LOG_MID). split; [done|].
      by rewrite Fqdn.flags_test_set, orb_false_r.
    - exists (p_flags (pkt w1)). split; [|done]. by destruct w1 as [? [] ? ?].
    - exists (p_flags (pkt w1)). split; [|done]. by destruct w1 as [? [] ? ?]. }
  destruct res1 as [r1 w1']. simpl in Hs. destruct Hs as (fl & Hw & Hfl).
  destruct (reeval_own e w1' ep to_server) as [w2 ev2] eqn:E2.
  assert (Hss : session w1' = session w1) by (by rewrite Hw).
  destruct (reeval_own_settles e w ep to_server w1 ev1 w1' w2 ev2 Hep E1 Hss) as [Hd Hp];
    [rewrite Hw; by split_and!|done|].
  rewrite Hss, Hd, changed_refl. by destruct ev2; rewrite Hd, Hp.
Qed.

(** Which rule decides, and how, does not depend on what the description held before. *)
Lemma lookup_by_key_indep e hdl a b c p f ing d1 d2 :
  let r1 := dpi_policy_lookup_by_key e hdl a b c p f ing d1 in
  let r2 := dpi_policy_lookup_by_key e hdl a b c p f ing d2 in
  id r1 = id r2 /\ action r1 = action r2.
Proof.
  unfold dpi_policy_lookup_by_key. destruct hdl as [h|]; [|done].
  destruct ing; [by destruct (_ && _)|]. by destruct (negb _ && _); [|destruct (_ && _)].
Qed.

Lemma sess_eval_spec e hdl s :
  FLAGS_TEST (flags (policy_desc s)) POLICY_DESC_CHECK_VER = true ->
  let '(s1, ev) := sess_eval e hdl (hdl_version hdl) s in
  s1 = s <| policy_desc := policy_desc s1 |> /\ (ev = false -> s1 = s) /\
  hdl_ver (policy_desc s1) = hdl_version hdl /\
  let '(s2, _) := sess_eval e hdl (hdl_version hdl) s1 in changed (policy_desc s1) (policy_desc s2) = false.
Proof.
  intros Hck. unfold sess_eval at 1. rewrite Hck, andb_true_r.
  assert (exists sa eva, (if negb (hdl_ver (policy_desc s) =? hdl_version hdl)
                          then (sess_look e hdl 0 s, true) else (s, false)) = (sa, eva) /\
      hdl_ver (policy_desc sa) = hdl_version hdl /\ (eva = false -> sa = s) /\
      sa = s <| policy_desc := policy_desc sa |>) as (sa & eva & -> & Hva & Heva & Hsa).
  { destruct (Z.eqb_spec (hdl_ver (policy_desc s)) (hdl_version hdl)); cbn [negb].
    - exists s, false. split_and!; try done. by destruct s.
    - exists (sess_look e hdl 0 s), true. split_and!; try done. apply lookup_by_key_ver. }
  assert (Hnv : forall x, hdl_ver (policy_desc x) = hdl_version hdl -> sess_eval e hdl (hdl_version hdl) x =
            if sess_app_due x then (sess_look e hdl (session_app x) x, true) else (x, false)).
  { intros x Hx. unfold sess_eval. by rewrite Hx, Z.eqb_refl. }
  destruct (sess_app_due sa) eqn:Hd.
  - assert (Hv1 : hdl_ver (policy_desc (sess_look e hdl (session_app sa) sa)) = hdl_version hdl)
      by apply lookup_by_key_ver.
    split_and!; [rewrite Hsa; by destruct s|done|done|]. rewrite Hnv by done.
    destruct (sess_app_due (sess_look e hdl (session_app sa) sa)); [|apply changed_refl].
    unfold changed. change (session_app (sess_look e hdl (session_app sa) sa)) with (session_app sa).
    unfold sess_look. cbn [policy_desc set s_flags client_ip4 server_ip4 server_port s_ip_proto].
    match goal with |- context [id (dpi_policy_lookup_by_key ?e ?h ?a ?b ?c ?p ?f ?i (policy_desc sa))] =>
      destruct (lookup_by_key_indep e h a b c p f i (policy_desc sa)
                  (dpi_policy_lookup_by_key e h a b c p f i (policy_desc sa))) as [-> ->] end.
    by rewrite !Z.eqb_refl.
  - split_and!; [done|done|done|]. rewrite Hnv, Hd by done. apply changed_refl.
Qed.

(** A session's reevaluation reports exactly a decision that changed to a violation or a
    denial, and settles: a second one under the same policies keeps rule and action and
    reports nothing. *)
Theorem dpi_sess_policy_reeval_settles (e : env) (ep_map : Z -> option (option dpi_policy_hdl * Z))
    (s : dpi_session) :
  (forall m hdl v, ep_map m = Some (hdl, v) -> v = hdl_version hdl) ->
  let '(r1, s1) := dpi_sess_policy_reeval e ep_map s in
  let '(r2, s2) := dpi_sess_policy_reeval e ep_map s1 in
  r1 = Z.b2z ((DP_POLICY_ACTION_CHECK_APP <? action (policy_desc s1)) &&
              changed (policy_desc s) (policy_desc s1)) /\
  r2 = 0 /\ changed (policy_desc s1) (policy_desc s2) = false.
Proof.
  intros Hmap. unfold dpi_sess_policy_reeval at 1.
  assert (Hz : forall d, 0 = Z.b2z ((DP_POLICY_ACTION_CHECK_APP <? action d) && changed d d)).
  { intros d. by rewrite changed_refl, andb_false_r. }
  destruct (FLAGS_TEST (flags (policy_desc s)) POLICY_DESC_CHECK_VER) eqn:Hck; cbn [negb].
  2: { unfold dpi_sess_policy_reeval. rewrite Hck. cbn [negb]. split_and!; [apply Hz|done|apply changed_refl]. }
  destruct (ep_map _) as [[hdl v]|] eqn:Hep.
  2: { unfold dpi_sess_policy_reeval. rewrite Hck, Hep. cbn [negb].
       split_and!; [apply Hz|done|apply changed_refl]. }
  pose proof (Hmap _ _ _ Hep) as ->. pose proof (sess_eval_spec e hdl s Hck) as Hs.
  destruct (sess_eval e hdl (hdl_version hdl) s) as [s1 ev] eqn:E1. destruct Hs as (Hs1 & Hev & _ & Hst).
  assert (Hr1 : (if ev && negb (DPI_POLICY_LOG_VIOLATE (action (policy_desc s1)) =? 0) &&
                   changed (policy_desc s) (policy_desc s1) then 1 else 0) =
    Z.b2z ((DP_POLICY_ACTION_CHECK_APP <? action (policy_desc s1)) && changed (policy_desc s) (policy_desc s1))).
  { unfold DPI_POLICY_LOG_VIOLATE. destruct ev; [|by rewrite (Hev eq_refl), changed_refl, !andb_false_r].
    by destruct (_ <? _), (changed _ _). }
  rewrite Hr1. unfold dpi_sess_policy_reeval. destruct (FLAGS_TEST (flags (policy_desc s1)) _); cbn [negb].
  2: { split_and!; [done|done|apply changed_refl]. }
  replace (ep_map (if FLAGS_TEST (s_flags s1) DPI_SESS_FLAG_INGRESS then server_mac s1 else client_mac s1))
    with (Some (hdl, hdl_version hdl)) by (rewrite Hs1; symmetry; exact Hep).
  destruct (sess_eval e hdl (hdl_version hdl) s1) as [s2 ev2].
  split_and!; [done|by rewrite Hst, andb_false_r|done].
Qed.

(** *** Witnesses *)

Definition thread0 : thread := Thread [] sample0 100.
Lemma thread0_uinv : uinv thread0 ∅.
Proof.
  constructor; simpl; try by constructor.
  - intros a D. split; [done|]. by intros (c & ?%elem_of_nil & _).
  - by intros c ?%elem_of_nil.
  - by intros c ?%elem_of_nil.
Qed.
Definition thread1 : thread := add_unknown_ip_cache (Uip 1 2 7) thread0.
Lemma thread1_uinv : exists dl, uinv thread1 dl /\ inv 100 (th_timer thread1) dl.
Proof.
  destruct (add_cache_uinv 100 (Uip 1 2 7) thread0 ∅ thread0_uinv sample0_inv) as (dl & c & U & V & _);
    [done|done|done|done|by exists dl].
Qed.

Lemma unknown_ip_cache_expires_witness :
  exists fuel t' cnt, timer_wheel_roll fuel 701 thread1 = Some (t', cnt) /\ th_unknown_ip_map t' = [].
Proof.
  destruct thread1_uinv as (dl & U & V). exists (size (overdue 701 dl)).
  destruct (unknown_ip_cache_expires thread1 dl 100 701 (size (overdue 701 dl)) U V)
    as (t' & cnt & dl' & E & _ & _ & Hm).
  - reflexivity.
  - lia.
  - unfold MAX_TIMER_SLOTS. lia.
  - lia.
  - exists t', cnt. split; [exact E|]. rewrite Hm. vm_compute. reflexivity.
Defined.

Definition deny_hdl : dpi_policy_hdl := Hdl 1 7 [] [] DP_POLICY_ACTION_DENY 3 0.

(** At second 159 the pair 1, 2 of second 100 is still let through, at second 160 not. *)
Lemma unknown_ip_grace_witness :
  exists d' t', _dpi_policy_chk_unknown_ip (Some deny_hdl) 1 2 DP_IPTYPE_NONE (default_desc deny_hdl)
      (thread1 <| tick := 159 |>) = (d', t') /\ action d' = DP_POLICY_ACTION_OPEN /\
    action (_dpi_policy_chk_unknown_ip (Some deny_hdl) 1 2 DP_IPTYPE_NONE (default_desc deny_hdl)
      (thread1 <| tick := 160 |>)).1 = DP_POLICY_ACTION_DENY.
Proof.
  destruct thread1_uinv as (dl & [U1 U2 U3 U4 U5] & V).
  destruct (unknown_ip_grace deny_hdl 1 2 DP_IPTYPE_NONE (default_desc deny_hdl) (thread1 <| tick := 159 |>) dl 100)
    as (d' & t' & dl' & c & E & _ & _ & _ & _ & _ & Hd).
  - constructor; try done. intros c Hc. destruct (U5 c Hc). split; [done|]. simpl in *. lia.
  - exact V.
  - simpl. lia.
  - simpl. unfold UNKNOWN_IP_CACHE_TIMEOUT. lia.
  - simpl. unfold UNKNOWN_IP_CACHE_TIMEOUT, MAX_TIMER_SLOTS. lia.
  - left.
  - exists d', t'. split; [exact E|]. split; [|vm_compute; reflexivity].
    assert (action (_dpi_policy_chk_unknown_ip (Some deny_hdl) 1 2 DP_IPTYPE_NONE (default_desc deny_hdl)
      (thread1 <| tick := 159 |>)).1 = DP_POLICY_ACTION_OPEN) as Ha by (vm_compute; reflexivity).
    rewrite E in Ha. exact Ha.
Defined.

Definition sample_ep : pkt_ep := PktEp [0; 0; 0; 0; 0; 1] (Some deny_hdl) 7 [0; 0; 0; 0; 0; 0] None.
Definition sample_env : env := Env (Some [(10, 255)]) None None Fqdn.dpi_fqdn_hdl_init.
(** A session that was open before its workload had a policy, to an external server. *)
Definition sample_sess : dpi_session :=
  Sess DPI_SESS_FLAG_INGRESS 0 0 6 1 2 5 6 80 (Desc 0 DP_POLICY_ACTION_OPEN POLICY_DESC_CHECK_VER 0 0)
    desc_zero 0 0 0.
Definition sample_world : pworld := World thread0 (Pkt ETH_P_IP 6 1000 80 5 6 DPI_PKT_FLAG_INGRESS) sample_sess 0.

Lemma dpi_policy_reeval_reports_witness :
  let '(r, w') := dpi_policy_reeval sample_env sample_world false sample_ep (fun _ => None) true in
  r = 1 /\ action (policy_desc (session w')) = DP_POLICY_ACTION_DENY /\
  FLAGS_TEST (p_flags (pkt w')) DPI_PKT_FLAG_LOG_MID = true.
Proof.
  pose proof (dpi_policy_reeval_reports sample_env sample_world false sample_ep (fun _ => None) true eq_refl) as H.
  destruct (dpi_policy_reeval sample_env sample_world false sample_ep (fun _ => None) true) as [r w'] eqn:E.
  assert (r = 1 /\ action (policy_desc (session w')) = DP_POLICY_ACTION_DENY /\
          changed (policy_desc (session sample_world)) (policy_desc (session w')) = true) as (Hr & Ha & Hc).
  { assert ((fun x => (x.1, action (policy_desc (session x.2)),
                       changed (policy_desc (session sample_world)) (policy_desc (session x.2))))
            (dpi_policy_reeval sample_env sample_world false sample_ep (fun _ => None) true) =
            (1, DP_POLICY_ACTION_DENY, true)) as Hx by (vm_compute; reflexivity).
    rewrite E in Hx. simpl in Hx. by injection Hx. }
  destruct H as (_ & _ & Hlog). split_and!; [exact Hr|exact Ha|exact (Hlog Hc)].
Defined.

Lemma dpi_policy_reeval_settles_witness :
  let '(r1, w1) := dpi_policy_reeval sample_env sample_world false sample_ep (fun _ => None) true in
  let '(r2, w2) := dpi_policy_reeval sample_env w1 false sample_ep (fun _ => None) true in
  r2 = 0 /\ policy_desc (session w2) = policy_desc (session w1) /\ pkt w2 = pkt w1.
Proof. exact (dpi_policy_reeval_settles sample_env sample_world sample_ep (fun _ => None) true eq_refl). Defined.

Lemma dpi_sess_policy_reeval_settles_witness :
  let ep_map := fun m => if m =? 2 then Some (Some deny_hdl, 7) else None in
  let '(r1, s1) := dpi_sess_policy_reeval sample_env ep_map sample_sess in
  let '(r2, s2) := dpi_sess_policy_reeval sample_env ep_map s1 in
  r1 = Z.b2z ((DP_POLICY_ACTION_CHECK_APP <? action (policy_desc s1)) &&
              changed (policy_desc sample_sess) (policy_desc s1)) /\
  r2 = 0 /\ changed (policy_desc s1) (policy_desc s2) = false.
Proof.
  apply (dpi_sess_policy_reeval_settles sample_env (fun m => if m =? 2 then Some (Some deny_hdl, 7) else None) sample_sess).
  intros m hdl v. destruct (m =? 2); [|discriminate]. intros [= <- <-]. reflexivity.
Defined.

End PolicyLookup.
