(* ===== verification/Parser.v ===== *)
(** * dpi/dpi_parser.c: the protocol parsers of a session

    A session starts with a set of candidate parsers, recruited with its first packet.
    Each packet is given to the parsers that are still hired; a parser can fire itself,
    keep data of its own in the session, ask for bytes to be kept for reassembly, and
    finalize the session: then it is the only one left.  [world] is what a parser works
    on: the session, the objects its parser data points to, the endpoint with its
    application ports (dpi_entry.c), and the packet.  [D] is the type of those objects,
    [E] the state of other modules a parser calls into.

    Programs are in the monad [M]: [None] is an access that is not there (a byte outside
    a buffer, an object not allocated, a NULL parser, a bit or slot out of range). *)

From S2P Require Import Prelude Helper Bitmap Wire Frag.
Import Helper.Bytes Helper.Seq Wire.Wire.

Module Parser.

Definition DPI_PARSER_HTTP : Z := 0.
Definition DPI_PARSER_SSL : Z := 1.
Definition DPI_PARSER_SSH : Z := 2.
Definition DPI_PARSER_DNS : Z := 3.
Definition DPI_PARSER_DHCP : Z := 4.
Definition DPI_PARSER_NTP : Z := 5.
Definition DPI_PARSER_TFTP : Z := 6.
Definition DPI_PARSER_ECHO : Z := 7.
Definition DPI_PARSER_MYSQL : Z := 8.
Definition DPI_PARSER_REDIS : Z := 9.
Definition DPI_PARSER_ZOOKEEPER : Z := 10.
Definition DPI_PARSER_CASSANDRA : Z := 11.
Definition DPI_PARSER_MONGODB : Z := 12.
Definition DPI_PARSER_POSTGRESQL : Z := 13.
Definition DPI_PARSER_KAFKA : Z := 14.
Definition DPI_PARSER_COUCHBASE : Z := 15.
Definition DPI_PARSER_SPARK : Z := 16.
Definition DPI_PARSER_TNS : Z := 17.
Definition DPI_PARSER_TDS : Z := 18.
Definition DPI_PARSER_GRPC : Z := 19.
Definition DPI_PARSER_MAX : Z := 20.

Definition DPI_APP_PROTO_MARK : Z := 2001.
(** In the order of the parsers' types. *)
Definition dpi_parser_2_app : list Z :=
  [1001; 1002; 1003; 1004; 1005; 1006; 1007; 1008;
   2001; 2002; 2003; 2004; 2005; 2006; 2007; 2008; 2020; 2026; 2027; 2028].

Definition DPI_SESS_FLAG_SKIP_PARSER : Z := 0x0002.
Definition DPI_SESS_FLAG_FINAL_PARSER : Z := 0x0004.
Definition DPI_SESS_FLAG_LAST_PARSER : Z := 0x0008.
Definition DPI_SESS_FLAG_INGRESS : Z := 0x0010.
Definition DPI_SESS_FLAG_MID_STREAM : Z := 0x0040.
Definition DPI_SESS_FLAG_POLICY_APP_READY : Z := 0x0200.
Definition DPI_SESS_FLAG_ONLY_PARSER : Z := Z.lor DPI_SESS_FLAG_FINAL_PARSER DPI_SESS_FLAG_LAST_PARSER.
Definition DPI_PKT_FLAG_NEW_SESSION : Z := 0x08.
Definition DPI_PKT_FLAG_ASSEMBLED : Z := 0x10.
Definition DPI_PKT_FLAG_SKIP_PARSER : Z := 0x40.
Definition DPI_PKT_FLAG_LOG_MID : Z := 0x800.
Definition DPI_SESS_TERM_THREAT : Z := 2.
Definition IPPROTO_TCP : Z := 6.
Definition IPPROTO_UDP : Z := 17.

(** buf_t: [b_mem] is the memory at ptr, of which [b_len] bytes are the data. *)
Record buf := Buf { b_mem : list Z; b_len : Z; b_seq : Z }.
#[export] Instance eta_buf : Eta buf := fun b => Buf (b_mem b) (b_len b) (b_seq b).

Record wing := Wing { port : Z; next_seq : Z; init_seq : Z; w_asm_seq : Z }.
#[export] Instance eta_wing : Eta wing := fun x => Wing (port x) (next_seq x) (init_seq x) (w_asm_seq x).

(** [parser_data] holds DPI_PARSER_MAX pointers, [parser_bits] is the bit mask. *)
Record session := Session {
  s_flags : Z; only_parser : Z; parser_bits : list Z; parser_data : list Z; app : Z; base_app : Z;
  s_ip_proto : Z; client : wing; server : wing; s_severity : Z; s_threat : Z; term_reason : Z
}.
#[export] Instance eta_session : Eta session := fun s => Session
  (s_flags s) (only_parser s) (parser_bits s) (parser_data s) (app s) (base_app s)
  (s_ip_proto s) (client s) (server s) (s_severity s) (s_threat s) (term_reason s).

Definition SERVER_VER_SIZE : Z := 32.
Definition APP_SRC_DP : Z := 2.
Record io_app := IoApp {
  proto : Z; app_server : Z; application : Z; version : list Z; src : Z
}.
#[export] Instance eta_io_app : Eta io_app := fun a => IoApp
  (proto a) (app_server a) (application a) (version a) (src a).

(** [app_map]: the applications by (port, ip_proto), as a finite map (RcuMap.v). *)
Record io_ep := IoEp {
  app_map : gmap (Z * Z) io_app; app_ports : Z; app_updated : Z;
  cassandra_svr : bool; kafka_svr : bool; couchbase_svr : bool; couchbase_clt : bool; zookeeper_svr : bool; zookeeper_clt : bool
}.
#[export] Instance eta_io_ep : Eta io_ep := fun e => IoEp
  (app_map e) (app_ports e) (app_updated e)
  (cassandra_svr e) (kafka_svr e) (couchbase_svr e) (couchbase_clt e) (zookeeper_svr e) (zookeeper_clt e).

(** [on_asm]: p->pkt_buffer is &p->asm_pkt; [cur_parser]: the type of the parser pointed
    to; [avail]: whether the next allocations succeed (they do when the list is empty). *)
Record world {D E : Type} := World {
  sess : session; heap : gmap Z D; ext : E; ep : io_ep; pk : packet; raw : buf; asm_pkt : buf; on_asm : bool;
  cur_parser : option Z; parser_left : Z; p_asm_seq : Z; parser_asm_seq : Z; avail : list bool
}.
Arguments world D E : clear implicits.
Arguments World {D E} _ _ _ _ _ _ _ _ _ _ _ _ _.
#[export] Instance eta_world D E : Eta (world D E) := fun w => World
  (sess w) (heap w) (ext w) (ep w) (pk w) (raw w) (asm_pkt w) (on_asm w)
  (cur_parser w) (parser_left w) (p_asm_seq w) (parser_asm_seq w) (avail w).

(** ** Programs *)

Definition M (D E A : Type) : Type := world D E -> option (A * world D E).
#[export] Instance M_ret D E : MRet (M D E) := fun A a w => Some (a, w).
#[export] Instance M_bind D E : MBind (M D E) := fun A B k m w =>
  match m w with Some (a, w) => k a w | None => None end.

Section prog.
Context {D E : Type}.
Implicit Types (w : world D E) (s : session).

Definition get {A} (f : world D E -> A) : M D E A := fun w => Some (f w, w).
Definition upd (f : world D E -> world D E) : M D E unit := fun w => Some (tt, f w).
Definition lift {A} (o : option A) : M D E A := fun w => a ← o; Some (a, w).
Definition abort {A} : M D E A := fun _ => None.
Definition upd_sess (f : session -> session) : M D E unit := upd (fun w => w <| sess ::= f |>).
Definition skip : M D E unit := mret tt.

Definition set_sflag (f : Z) : M D E unit := upd_sess (fun s => s <| s_flags ::= fun g => FLAGS_SET g f |>).
Definition clear_sflag (f : Z) : M D E unit := upd_sess (fun s => s <| s_flags ::= fun g => FLAGS_UNSET 16 g f |>).

(** for (t = t0; t < t0 + n; t ++) *)
Fixpoint for_ (n : nat) (t0 : Z) (f : Z -> M D E unit) : M D E unit :=
  match n with O => skip | S n => f t0;; for_ n (t0 + 1) f end.
Fixpoint for_acc {A} (n : nat) (t0 : Z) (a : A) (f : A -> Z -> M D E A) : M D E A :=
  match n with O => mret a | S n => a ← f a t0; for_acc n (t0 + 1) a f end.

(** ** The packet (dpi_packet.h) *)

Definition pkt_buffer w : buf := if on_asm w then asm_pkt w else raw w.
Definition dpi_pkt_ptr : M D E (list Z) := get (fun w => b_mem (pkt_buffer w)).
Definition dpi_pkt_len : M D E Z := get (fun w => b_len (pkt_buffer w)).
Definition dpi_pkt_seq : M D E Z := get (fun w => b_seq (pkt_buffer w)).
Definition dpi_pkt_end_seq : M D E Z := get (fun w => u32 (b_seq (pkt_buffer w) + b_len (pkt_buffer w))).
Definition is_client : M D E bool := get (fun w => dpi_is_client_pkt (pk w)).
Definition dpi_is_seq_in_pkt (seq : Z) : M D E bool :=
  get (fun w => u32_distance (b_seq (pkt_buffer w)) seq <? b_len (pkt_buffer w)).
(** [off] is ptr - dpi_pkt_ptr(p) *)
Definition dpi_ptr_2_seq (off : Z) : M D E Z := get (fun w => u32 (b_seq (pkt_buffer w) + off)).

Definition this_wing w : wing := if dpi_is_client_pkt (pk w) then client (sess w) else server (sess w).
Definition upd_this (f : wing -> wing) : M D E unit := upd (fun w =>
  w <| sess ::= fun s => if dpi_is_client_pkt (pk w) then s <| client ::= f |> else s <| server ::= f |> |>).

(** *ptr *)
Definition rd8 (m : list Z) (i : Z) : M D E Z := lift (ld8 m i).

(** The beginning of a TCP parser: where the data it expects next, at [seq], is in the
    packet: an offset and the bytes from there.  The first packet counts from its start. *)
Definition seek (seq : Z) : M D E (option (Z * Z)) :=
  init ← get (fun w => init_seq (this_wing w));
  len ← dpi_pkt_len;
  if seq =? init then mret (Some (0, len))
  else
    inp ← dpi_is_seq_in_pkt seq;
    if inp : bool then
      s0 ← dpi_pkt_seq;
      let shift := u32_distance s0 seq in
      mret (Some (shift, u32 (len - shift)))
    else mret None.

(** dpi_threat_trigger on a packet of a session *)
Definition threat (tc : Z -> threat_conf) (idx : Z) : M D E unit :=
  let c := tc idx in
  if negb (thrt_enable c) then skip
  else
    upd (fun w => w <| pk ::= dpi_threat_trigger tc idx |>);;
    (if (thrt_action c =? DPI_ACTION_RESET) || (thrt_action c =? DPI_ACTION_DROP)
     then upd_sess (fun s => s <| term_reason := DPI_SESS_TERM_THREAT |>) else skip);;
    sev ← get (fun w => s_severity (sess w));
    if sev <? thrt_severity c then
      upd_sess (fun s => s <| s_threat := thrt_id c |> <| s_severity := thrt_severity c |>);;
      upd (fun w => w <| pk ::= fun p => p <| flags ::= fun f => FLAGS_SET f DPI_PKT_FLAG_LOG_MID |> |>)
    else skip.

(** ** The applications of the endpoint (dpi_entry.c) *)

Definition dpi_ep_app_map_lookup (e : io_ep) (prt ipp : Z) : option io_app := app_map e !! (prt, ipp).

(** calloc can fail *)
Definition alloc_ok : M D E bool := fun w =>
  match avail w with [] => Some (true, w) | b :: l => Some (b, w <| avail := l |>) end.

Definition ep_app_map_locate (prt ipp : Z) : M D E (option io_app) :=
  found ← get (fun w => dpi_ep_app_map_lookup (ep w) prt ipp);
  match found with
  | Some a => mret (Some a)
  | None =>
      ok ← alloc_ok;
      if negb ok then mret None
      else
        let a := IoApp 0 0 0 (replicate (Z.to_nat SERVER_VER_SIZE) 0) APP_SRC_DP in
        upd (fun w => w <| ep ::= fun e =>
          e <| app_ports ::= fun n => u16 (n + 1) |> <| app_map ::= <[(prt, ipp) := a]> |> |>);;
        mret (Some a)
  end.

Definition app_key w : Z * Z := (port (server (sess w)), s_ip_proto (sess w)).
(** Writes through the pointer to an application of the map. *)
Definition put_app (k : Z * Z) (a : io_app) : M D E unit :=
  upd (fun w => w <| ep ::= fun e => e <| app_map ::= <[k := a]> |> |>).
Definition ep_updated : M D E unit := upd (fun w => w <| ep ::= fun e => e <| app_updated := 1 |> |>).

Definition upd_ep (f : io_ep -> io_ep) : M D E unit := upd (fun w => w <| ep ::= f |>).

Definition is_ingress : M D E bool := get (fun w => FLAGS_TEST (s_flags (sess w)) DPI_SESS_FLAG_INGRESS).

Definition dpi_ep_set_proto (prt : Z) : M D E unit :=
  ing ← is_ingress;
  if negb ing then skip
  else
    k ← get app_key;
    o ← ep_app_map_locate k.1 k.2;
    match o with
    | None => skip
    | Some a => if negb (prt =? 0) && negb (proto a =? prt) then put_app k (a <| proto := prt |>);; ep_updated
                else skip
    end.

Definition dpi_ep_get_app : M D E Z :=
  ing ← is_ingress;
  if negb ing then mret 0
  else
    k ← get app_key;
    o ← ep_app_map_locate k.1 k.2;
    mret (match o with None => 0 | Some a => application a end).

Definition dpi_ep_set_app (srv appl : Z) : M D E unit :=
  ing ← is_ingress;
  if negb ing then skip
  else
    k ← get app_key;
    o ← ep_app_map_locate k.1 k.2;
    match o with
    | None => skip
    | Some a =>
        a ← (if negb (srv =? 0) && negb (app_server a =? srv)
             then let a := a <| app_server := srv |> in put_app k a;; ep_updated;; mret a else mret a);
        if negb (appl =? 0) && negb (application a =? appl)
        then put_app k (a <| application := appl |>);; ep_updated else skip
    end.

(** [ver] is the memory at the string; strlcpy reads up to the NUL after it (Helper.v). *)
Definition dpi_ep_set_server_ver (ver : list Z) (n : Z) : M D E unit :=
  ing ← is_ingress;
  if negb ing then skip
  else
    k ← get app_key;
    o ← ep_app_map_locate k.1 k.2;
    match o with
    | None => skip
    | Some a =>
        r ← lift (Helper.CString.strlcpy (version a) ver (Z.to_nat (Z.min (n + 1) SERVER_VER_SIZE)));
        put_app k (a <| version := r.1 |>)
    end.

(** ** Parsers and their lists *)

(** free(p): the object must be allocated *)
Definition free (h : gmap Z D) (a : Z) : option (gmap Z D) :=
  match h !! a with Some _ => Some (delete a h) | None => None end.

(** dpi_parser_t: a function pointer is NULL or a program; delete_data works on the heap. *)
Definition deleter : Type := gmap Z D -> Z -> option (gmap Z D).
Record parser := Parser {
  new_session : option (M D E unit); delete_data : option deleter; parse : option (M D E unit);
  new_mid_sess : option (M D E unit); midstream : option (M D E unit); name : string;
  p_ip_proto : Z; type : Z
}.

(** The three arrays of parsers; also used for the arrays of their delete_data. *)
Record lists (A : Type) := Lists { g_tcp : list (option A); g_udp : list (option A); g_any : list (option A) }.
Arguments Lists {A} _ _ _.
Arguments g_tcp {A} _.
Arguments g_udp {A} _.
Arguments g_any {A} _.

Definition get_parser_list {A} (g : lists A) (ipp : Z) : list (option A) :=
  if ipp =? IPPROTO_TCP then g_tcp g else if ipp =? IPPROTO_UDP then g_udp g else g_any g.

Definition deleters (g : lists parser) : lists (option deleter) :=
  let d := List.map (option_map delete_data) in Lists (d (g_tcp g)) (d (g_udp g)) (d (g_any g)).

Definition no_parsers : lists parser :=
  let l := replicate (Z.to_nat DPI_PARSER_MAX) None in Lists l l l.
Definition register_parser (g : lists parser) (c : parser) : lists parser :=
  let put := <[Z.to_nat (type c) := Some c]> in
  if p_ip_proto c =? IPPROTO_TCP then Lists (put (g_tcp g)) (g_udp g) (g_any g)
  else if p_ip_proto c =? IPPROTO_UDP then Lists (g_tcp g) (put (g_udp g)) (g_any g)
  else Lists (g_tcp g) (g_udp g) (put (g_any g)).
(** dpi_parser_setup, for the parsers given *)
Definition dpi_parser_setup (l : list parser) : lists parser := foldl register_parser no_parsers l.

Definition dpi_is_base_app (a : Z) : bool := a <? DPI_APP_PROTO_MARK.

(** a[i] of an array of fixed size *)
Definition at_ {A} (l : list A) (i : Z) : M D E A := lift (if i <? 0 then None else l !! Z.to_nat i).
(** p->cur_parser->type *)
Definition cur : M D E Z := c ← get cur_parser; lift c.
Definition bit_test (t : Z) : M D E bool := b ← get (fun w => parser_bits (sess w)); lift (Bits.BITMASK_TEST b t).

Definition dpi_get_parser_data : M D E Z := t ← cur; d ← get (fun w => parser_data (sess w)); at_ d t.
Definition set_data (t a : Z) : M D E unit :=
  d ← get (fun w => parser_data (sess w));
  _ ← at_ d t;
  upd_sess (fun s => s <| parser_data ::= <[Z.to_nat t := a]> |>).
Definition dpi_put_parser_data (a : Z) : M D E unit := t ← cur; set_data t a.

(** calloc of a parser's object: NULL when it fails *)
Definition calloc (d : D) : M D E Z :=
  ok ← alloc_ok;
  if negb ok then mret NULL
  else
    a ← get (fun w => Frag.Frag.malloc (dom (heap w)));
    upd (fun w => w <| heap ::= <[a := d]> |>);;
    mret a.
(** Reading and writing an object through its pointer. *)
Definition deref (a : Z) : M D E D := h ← get heap; lift (h !! a).
Definition store (a : Z) (d : D) : M D E unit := _ ← deref a; upd (fun w => w <| heap ::= <[a := d]> |>).

Definition dpi_delete_parser_data (t : Z) (del : option deleter) : M D E unit :=
  d ← get (fun w => parser_data (sess w));
  a ← at_ d t;
  (match del with
   | Some f => if negb (a =? NULL) then h ← get heap; h ← lift (f h a); upd (fun w => w <| heap := h |>) else skip
   | None => skip
   end);;
  set_data t NULL.

Definition MAX : nat := Z.to_nat DPI_PARSER_MAX.

Definition dpi_purge_parser_data (dl : lists (option deleter)) : M D E unit :=
  ipp ← get (fun w => s_ip_proto (sess w));
  for_ MAX 0 (fun t =>
    c ← at_ (get_parser_list dl ipp) t;
    match c with Some del => dpi_delete_parser_data t del | None => skip end).

Definition set_bits (f : list Z -> Z -> option (list Z)) : M D E unit :=
  t ← cur;
  b ← get (fun w => parser_bits (sess w));
  b ← lift (f b t);
  upd_sess (fun s => s <| parser_bits := b |>).
Definition dpi_hire_parser : M D E unit := set_bits Bits.BITMASK_SET.
Definition dpi_fire_parser : M D E unit := set_bits Bits.BITMASK_UNSET.
Definition dpi_ignore_parser : M D E unit := set_bits Bits.BITMASK_UNSET.
Definition dpi_set_asm_seq (seq : Z) : M D E unit := upd (fun w => w <| parser_asm_seq := seq |>).

Definition sess_flag (f : Z) w : bool := FLAGS_TEST (s_flags (sess w)) f.
Definition pkt_flag (f : Z) w : bool := FLAGS_TEST (flags (pk w)) f.
Definition is_final : world D E -> bool := sess_flag DPI_SESS_FLAG_FINAL_PARSER.
Definition dpi_is_parser_final : M D E bool := get is_final.

Definition dpi_finalize_parser (dl : lists (option deleter)) : M D E unit :=
  fin ← dpi_is_parser_final;
  if fin : bool then skip
  else
    set_sflag DPI_SESS_FLAG_FINAL_PARSER;;
    saved ← cur;
    upd_sess (fun s => s <| only_parser := saved |>);;
    a ← at_ dpi_parser_2_app saved;
    (if dpi_is_base_app a then
       b ← get (fun w => base_app (sess w));
       if b =? 0 then upd_sess (fun s => s <| base_app := a |>);; dpi_ep_set_proto a else skip
     else upd_sess (fun s => s <| app := a |>);; dpi_ep_set_app 0 a);;
    set_sflag DPI_SESS_FLAG_POLICY_APP_READY;;
    ipp ← get (fun w => s_ip_proto (sess w));
    for_ MAX 0 (fun t =>
      b ← bit_test t;
      if negb (t =? saved) && b then
        c ← at_ (get_parser_list dl ipp) t;
        match c with
        | None => upd (fun w => w <| cur_parser := None |>);; dpi_fire_parser
        | Some del => upd (fun w => w <| cur_parser := Some t |>);; dpi_fire_parser;; dpi_delete_parser_data t del
        end
      else skip);;
    upd (fun w => w <| parser_left := 0 |> <| cur_parser := Some saved |>);;
    upd (fun w => w <| p_asm_seq := next_seq (this_wing w) |>).

Section walk.
Context (g : lists parser).

(** cp = p->cur_parser = list[t] *)
Definition set_cur (l : list (option parser)) (t : Z) : M D E (option parser) :=
  c ← at_ l t;
  upd (fun w => w <| cur_parser := type <$> c |>);;
  mret c.

Definition dpi_recruit_parser : M D E unit :=
  ipp ← get (fun w => ip_proto (pk w));
  for_ MAX 0 (fun t =>
    c ← set_cur (get_parser_list g ipp) t;
    match c with Some cp => default skip (new_session cp) | None => skip end).

Definition dpi_midstream_recruit_parser : M D E unit :=
  ipp ← get (fun w => ip_proto (pk w));
  for_ MAX 0 (fun t =>
    c ← set_cur (get_parser_list g ipp) t;
    match c with
    | Some cp => match midstream cp, new_mid_sess cp with Some _, Some f => f | _, _ => skip end
    | None => skip
    end).

(** if (u32_lt(p->parser_asm_seq, p->asm_seq)) p->asm_seq = p->parser_asm_seq *)
Definition cache_asm_seq : M D E unit :=
  upd (fun w => if u32_lt (parser_asm_seq w) (p_asm_seq w) then w <| p_asm_seq := parser_asm_seq w |> else w).
(** p->parser_asm_seq = p->this_wing->asm_seq *)
Definition reset_asm_seq : M D E unit := upd (fun w => w <| parser_asm_seq := w_asm_seq (this_wing w) |>).
Definition count_left (t : Z) : M D E Z := upd (fun w => w <| parser_left ::= fun n => u8 (n + 1) |>);; mret t.

(** The branch of dpi_proto_parser for a session with one parser left. *)
Definition only_proto (ipp : Z) : M D E unit :=
  only ← get (fun w => only_parser (sess w));
  c ← set_cur (get_parser_list g ipp) only;
  match c with
  | Some cp =>
      match parse cp with
      | Some f =>
          reset_asm_seq;;
          f;;
          only ← get (fun w => only_parser (sess w));
          b ← bit_test only;
          (if negb b then
             dpi_delete_parser_data (type cp) (delete_data cp);;
             set_sflag DPI_SESS_FLAG_SKIP_PARSER;;
             clear_sflag DPI_SESS_FLAG_ONLY_PARSER;;
             set_sflag DPI_SESS_FLAG_POLICY_APP_READY
           else skip);;
          cache_asm_seq
      | None => skip
      end
  | None => skip
  end.

(** One round of the walk through all parsers: the last one that stays. *)
Definition walk_one (ipp : Z) (last t : Z) : M D E Z :=
  c ← set_cur (get_parser_list g ipp) t;
  match c with
  | Some cp =>
      match parse cp with
      | Some f =>
          b ← bit_test t;
          if b : bool then
            reset_asm_seq;;
            f;;
            b ← bit_test t;
            if b : bool then last ← count_left t; cache_asm_seq;; mret last
            else dpi_delete_parser_data (type cp) (delete_data cp);; mret last
          else mret last
      | None => mret last
      end
  | None => mret last
  end.

(** switch (p->parser_left) *)
Definition walk_end (ready : bool) (last : Z) : M D E unit :=
  left ← get parser_left;
  if left =? 0 then
    set_sflag DPI_SESS_FLAG_SKIP_PARSER;;
    (if ready then set_sflag DPI_SESS_FLAG_POLICY_APP_READY else skip)
  else if left =? 1 then
    set_sflag DPI_SESS_FLAG_LAST_PARSER;;
    upd_sess (fun s => s <| only_parser := u8 last |>)
  else skip.

Definition only_flag : world D E -> bool := sess_flag DPI_SESS_FLAG_ONLY_PARSER.
Definition assembled : world D E -> bool := pkt_flag DPI_PKT_FLAG_ASSEMBLED.

Definition dpi_proto_parser : M D E unit :=
  ipp ← get (fun w => ip_proto (pk w));
  upd (fun w => if assembled w then w <| on_asm := true |> else w);;
  upd (fun w => w <| p_asm_seq := next_seq (this_wing w) |>);;
  only ← get only_flag;
  (if only : bool then only_proto ipp
   else
     upd (fun w => w <| parser_left := 0 |>);;
     last ← for_acc MAX 0 0 (walk_one ipp);
     walk_end true last);;
  seq ← get p_asm_seq;
  upd_this (fun x => x <| w_asm_seq := seq |>);;
  upd (fun w => if assembled w then w <| on_asm := false |> else w).

Definition mid_only (ipp : Z) : M D E unit :=
  only ← get (fun w => only_parser (sess w));
  c ← set_cur (get_parser_list g ipp) only;
  (match c with
   | Some cp => match parse cp with Some _ => f ← lift (midstream cp); f | None => skip end
   | None => skip
   end);;
  only ← get (fun w => only_parser (sess w));
  b ← bit_test only;
  if negb b then set_sflag DPI_SESS_FLAG_SKIP_PARSER;; clear_sflag DPI_SESS_FLAG_ONLY_PARSER else skip.

Definition mid_one (ipp : Z) (last t : Z) : M D E Z :=
  c ← set_cur (get_parser_list g ipp) t;
  match c with
  | Some cp =>
      match midstream cp with
      | Some f => f;; b ← bit_test t; if b : bool then count_left t else mret last
      | None => mret last
      end
  | None => mret last
  end.

Definition dpi_midstream_proto_praser : M D E unit :=
  ipp ← get (fun w => ip_proto (pk w));
  only ← get only_flag;
  if only : bool then mid_only ipp
  else
    upd (fun w => w <| parser_left := 0 |>);;
    last ← for_acc MAX 0 0 (mid_one ipp);
    walk_end false last.

Definition dpi_pkt_proto_parser : M D E unit :=
  skp ← get (sess_flag DPI_SESS_FLAG_SKIP_PARSER);
  if skp : bool then skip
  else
    new ← get (pkt_flag DPI_PKT_FLAG_NEW_SESSION);
    mid ← get (sess_flag DPI_SESS_FLAG_MID_STREAM);
    (if new : bool then
       if mid : bool then dpi_midstream_recruit_parser else dpi_recruit_parser
     else skip);;
    pskip ← get (pkt_flag DPI_PKT_FLAG_SKIP_PARSER);
    n ← get (fun w => b_len (raw w));
    if negb pskip && (0 <? n) then
      mid ← get (sess_flag DPI_SESS_FLAG_MID_STREAM);
      if mid : bool then dpi_midstream_proto_praser else dpi_proto_parser
    else skip.
End walk.
End prog.

(** ** Weakest preconditions *)

Section wp.
Context {D E : Type}.
Implicit Types (w : world D E).

Definition wp {A} (m : M D E A) (Q : A -> world D E -> Prop) w : Prop :=
  match m w with Some (a, w') => Q a w' | None => False end.

Lemma wp_ret {A} (a : A) Q w : Q a w -> wp (mret a) Q w.
Proof. done. Qed.
Lemma wp_bind {A B} (m : M D E A) (k : A -> M D E B) Q w :
  wp m (fun a => wp (k a) Q) w -> wp (m ≫= k) Q w.
Proof. unfold wp, mbind, M_bind. by destruct (m w) as [[a w']|]. Qed.
Lemma wp_get {A} (f : world D E -> A) Q w : Q (f w) w -> wp (get f) Q w.
Proof. done. Qed.
Lemma wp_upd f Q w : Q tt (f w) -> wp (upd f) Q w.
Proof. done. Qed.
Lemma wp_upd_sess f Q w : Q tt (w <| sess ::= f |>) -> wp (upd_sess f) Q w.
Proof. done. Qed.
Lemma wp_lift {A} (o : option A) a Q w : o = Some a -> Q a w -> wp (lift o) Q w.
Proof. by intros ->. Qed.
Lemma wp_mono {A} (m : M D E A) (Q R : A -> world D E -> Prop) w :
  wp m Q w -> (forall a w', Q a w' -> R a w') -> wp m R w.
Proof. unfold wp. destruct (m w) as [[a w']|]; auto. Qed.
Lemma wp_run {A} (m : M D E A) Q w : wp m Q w -> exists a w', m w = Some (a, w') /\ Q a w'.
Proof. unfold wp. destruct (m w) as [[a w']|]; [eauto|done]. Qed.
Lemma wp_and {A} (m : M D E A) (Q R : A -> world D E -> Prop) w :
  wp m Q w -> wp m R w -> wp m (fun a w' => Q a w' /\ R a w') w.
Proof. unfold wp. destruct (m w) as [[a w']|]; auto. Qed.

(** An invariant [I t w] of the counter and the state. *)
Lemma wp_for (I : Z -> world D E -> Prop) f n t0 w :
  I t0 w ->
  (forall t w, t0 <= t < t0 + Z.of_nat n -> I t w -> wp (f t) (fun _ => I (t + 1)) w) ->
  wp (for_ n t0 f) (fun _ => I (t0 + Z.of_nat n)) w.
Proof.
  revert t0 w. induction n as [|n IH]; intros t0 w H0 Hs; cbn [for_].
  - replace (t0 + Z.of_nat 0) with t0 by lia. by apply wp_ret.
  - apply wp_bind. eapply wp_mono; [apply Hs; [lia|done]|]. intros [] w' H1.
    replace (t0 + Z.of_nat (S n)) with (t0 + 1 + Z.of_nat n) by lia.
    apply IH; [done|]. intros t v Ht. apply Hs. lia.
Qed.
Lemma wp_for_acc {A} (I : A -> Z -> world D E -> Prop) f n t0 a w :
  I a t0 w ->
  (forall a t w, t0 <= t < t0 + Z.of_nat n -> I a t w -> wp (f a t) (fun b => I b (t + 1)) w) ->
  wp (for_acc n t0 a f) (fun b => I b (t0 + Z.of_nat n)) w.
Proof.
  revert t0 a w. induction n as [|n IH]; intros t0 a w H0 Hs; cbn [for_acc].
  - replace (t0 + Z.of_nat 0) with t0 by lia. by apply wp_ret.
  - apply wp_bind. eapply wp_mono; [apply Hs; [lia|done]|]. intros b w' H1.
    replace (t0 + Z.of_nat (S n)) with (t0 + 1 + Z.of_nat n) by lia.
    apply IH; [done|]. intros b' t v Ht. apply Hs. lia.
Qed.
End wp.

(** Symbolic execution of one instruction. *)
Ltac wp1 :=
  lazymatch goal with
  | |- wp (_ ≫= _) _ _ => apply wp_bind
  | |- wp (mret _) _ _ => apply wp_ret
  | |- wp skip _ _ => apply wp_ret
  | |- wp (get _) _ _ => apply wp_get
  | |- wp (upd _) _ _ => apply wp_upd
  | |- wp (upd_sess _) _ _ => apply wp_upd_sess
  | |- wp (set_sflag _) _ _ => apply wp_upd_sess
  | |- wp (clear_sflag _) _ _ => apply wp_upd_sess
  end.

End Parser.
