(* ===== verification/ParserLaw.v ===== *)
(** * What a protocol parser promises to the framework of dpi_parser.c

    [inv] is the state every parser is entitled to and must leave: fields in range, the
    parser data of each parser NULL or an object of that parser's type which nobody else
    points to, and no object without a pointer.  [step] is what a parser may change: its
    own bit, its own data, and the whole session only through dpi_finalize_parser.
    [Lawful] collects these promises for a dpi_parser_t; the theorems on the framework
    (ParserRun.v) are proved against it, and each parser discharges it in its own file. *)

From S2P Require Import Prelude Helper Bitmap Wire Frag Parser.
Import Helper.Bytes Helper.Seq Wire.Wire Parser.Parser.

Module ParserLaw.

(** ** Flags *)

Lemma FLAGS_TEST_SET g f h : FLAGS_TEST (FLAGS_SET g f) h = FLAGS_TEST g h || FLAGS_TEST f h.
Proof.
  unfold FLAGS_TEST, FLAGS_SET. rewrite Z.land_lor_distr_l, <- negb_andb. f_equal.
  apply eq_true_iff_eq. rewrite andb_true_iff, !Z.eqb_eq. apply Z.lor_eq_0_iff.
Qed.
Lemma FLAGS_TEST_UNSET n g f h : FLAGS_TEST (FLAGS_UNSET n g f) h = FLAGS_TEST g (Z.land (Z.lnot f mod 2 ^ n) h).
Proof. unfold FLAGS_TEST, FLAGS_UNSET. by rewrite Z.land_assoc. Qed.
Lemma lor_u16 a b : is_u16 a -> is_u16 b -> is_u16 (Z.lor a b).
Proof.
  unfold is_u16. intros Ha Hb. split; [apply Z.lor_nonneg; lia|].
  destruct (Z.eq_dec (Z.lor a b) 0) as [->|]; [lia|].
  apply Z.log2_lt_pow2; [pose proof (proj2 (Z.lor_nonneg a b)); lia|].
  rewrite Z.log2_lor by lia. apply Z.max_lub_lt.
  - destruct (Z.eq_dec a 0) as [->|]; [done|]. apply Z.log2_lt_pow2; lia.
  - destruct (Z.eq_dec b 0) as [->|]; [done|]. apply Z.log2_lt_pow2; lia.
Qed.
Lemma land_u16 a b : is_u16 a -> is_u16 (Z.land a b).
Proof.
  unfold is_u16. intros Ha. split; [apply Z.land_nonneg; lia|].
  replace (Z.land a b) with (Z.land a (Z.land b (Z.ones 16))).
  2:{ rewrite (Z.land_comm b), Z.land_assoc. f_equal. rewrite Z.land_ones by lia. apply Z.mod_small. lia. }
  rewrite Z.land_assoc, Z.land_ones by lia. apply Z.mod_pos_bound. lia.
Qed.

(** strlcpy on memory that holds a NUL somewhere *)
Lemma skip_nul_some src i rest : 0 ∈ rest -> exists s, Helper.CString.skip_nul src i rest = Some s.
Proof.
  revert i. induction rest as [|c rest IH]; intros i H0; [by apply elem_of_nil in H0|].
  cbn. destruct (Z.eqb_spec c 0); [eauto|]. apply IH. by apply elem_of_cons in H0 as [|].
Qed.
Lemma strlcpy_copy_safe n : forall dst src i, (i + n <= length dst)%nat -> 0 ∈ drop i src -> (n <> 0)%nat ->
  exists dst' i' n', Helper.CString.strlcpy_copy n dst src i = Some (dst', i', n') /\ length dst' = length dst /\
    (i' <= i + n)%nat /\ (n' = 0%nat -> 0 ∈ drop i' src).
Proof.
  induction n as [|n IH]; intros dst src i Hi H0 Hn; [done|]. cbn [Helper.CString.strlcpy_copy].
  destruct (src !! i) as [c|] eqn:Ec.
  2:{ apply lookup_ge_None in Ec. rewrite drop_ge in H0 by done. by apply elem_of_nil in H0. }
  rewrite decide_True by lia. destruct (Z.eqb_spec c 0) as [->|Hc].
  - eexists _, _, _. split_and!; [done|by rewrite length_insert|lia|done].
  - rewrite (drop_S _ _ _ Ec) in H0. apply elem_of_cons in H0 as [|H0]; [done|].
    destruct n as [|n]; [eexists _, _, _; split_and!; [done|by rewrite length_insert|lia|done]|].
    destruct (IH (<[i:=c]> dst) src (S i)) as (d' & i' & n' & E1 & L & Hle & Hz); [rewrite length_insert; lia|done|done|].
    rewrite length_insert in L. exists d', i', n'. split_and!; [done|done|lia|done].
Qed.
Lemma strlcpy_safe dst src siz : (siz <= length dst)%nat -> 0 ∈ src ->
  exists r, Helper.CString.strlcpy dst src siz = Some r /\ length r.1 = length dst.
Proof.
  intros Hs H0. unfold Helper.CString.strlcpy.
  assert (exists d i n, match siz with O => Some (dst, O, O) | S O => Some (dst, O, O)
    | S n => Helper.CString.strlcpy_copy n dst src O end = Some (d, i, n) /\ length d = length dst /\
    (i < length dst \/ siz = 0)%nat /\ (n = 0%nat -> 0 ∈ drop i src)) as (d & i & n & -> & L & Hi & Hz).
  { destruct siz as [|[|n]]; [by eexists _, _, _; split_and!; eauto|eexists _, _, _; split_and!; eauto; lia|].
    destruct (strlcpy_copy_safe (S n) dst src 0) as (d & i & n' & -> & ? & ? & ?); [lia|done|done|].
    eexists _, _, _. split_and!; [done|done|lia|done]. }
  destruct (decide (n = 0%nat)) as [Hn|]; [|by eexists].
  destruct (skip_nul_some src i (drop i src) (Hz Hn)) as [s ->].
  destruct siz as [|siz]; [by eexists|]. rewrite decide_True by lia. eexists. split; [done|]. cbn. by rewrite length_insert.
Qed.

Section inv.
Context {D E : Type} (ext_ok : E -> Prop) (shape : Z -> Z -> D -> Prop) (dl : lists (option (@deleter D))) (slack : Z).
Implicit Types (w v : world D E) (t u a : Z).

Definition in_range t : Prop := 0 <= t < DPI_PARSER_MAX.
Definition bit w t : bool := Bits.mask_bit (parser_bits (sess w)) t.
Definition datum w t : Z := default NULL (parser_data (sess w) !! Z.to_nat t).
(** The entry of the parser list of the session: NULL, or the delete_data of the parser. *)
Definition slot_of (ipp t : Z) : option (option deleter) := mjoin (get_parser_list dl ipp !! Z.to_nat t).
Definition slot w t : option (option deleter) := slot_of (s_ip_proto (sess w)) t.

(** ** Ranges *)

Record buf_ok (b : buf) : Prop := {
  buf_bytes : Forall is_u8 (b_mem b); buf_len : 0 <= b_len b <= DPI_MAX_PKT_LEN;
  buf_room : b_len b + slack <= Z.of_nat (length (b_mem b)); buf_seq : is_u32 (b_seq b);
  buf_nul : 0 ∈ drop (Z.to_nat (b_len b)) (b_mem b) }.
Record wing_ok (x : wing) : Prop := {
  wing_port : is_u16 (port x); wing_next : is_u32 (next_seq x); wing_init : is_u32 (init_seq x);
  wing_asm : is_u32 (w_asm_seq x) }.
Record app_ok (a : io_app) : Prop := {
  app_proto : is_u16 (proto a); app_srv : is_u16 (app_server a); app_appl : is_u16 (application a);
  app_ver : length (version a) = Z.to_nat SERVER_VER_SIZE }.
Record ep_ok (e : io_ep) : Prop := {
  ep_apps : map_Forall (fun _ => app_ok) (app_map e); ep_ports : is_u16 (app_ports e);
  ep_upd : is_u32 (app_updated e) }.
Record sess_ok (s : session) : Prop := {
  ok_flags : is_u16 (s_flags s); ok_only : in_range (only_parser s); ok_bits : length (parser_bits s) = 3%nat;
  ok_data : length (parser_data s) = MAX; ok_app : is_u16 (app s); ok_base : is_u16 (base_app s);
  ok_ipp : is_u8 (s_ip_proto s); ok_client : wing_ok (client s); ok_server : wing_ok (server s) }.
Record wt w : Prop := {
  wt_sess : sess_ok (sess w); wt_ep : ep_ok (ep w); wt_raw : buf_ok (raw w); wt_asm : buf_ok (asm_pkt w);
  wt_left : is_u8 (parser_left w); wt_pasm : is_u32 (p_asm_seq w); wt_parser : is_u32 (parser_asm_seq w) }.

(** ** Ownership of the parser data *)

Record own w : Prop := {
  own_typed : forall t, in_range t -> datum w t <> NULL ->
    (exists d, heap w !! datum w t = Some d /\ shape (s_ip_proto (sess w)) t d) /\ exists f, slot w t = Some (Some f);
  own_alone : forall t u, in_range t -> in_range u -> datum w t <> NULL -> datum w t = datum w u -> t = u;
  own_all : forall a, is_Some (heap w !! a) -> exists t, in_range t /\ datum w t = a;
  own_null : heap w !! NULL = None;
  own_bits : forall t, in_range t -> bit w t = true -> is_Some (slot w t) }.

Record inv w : Prop := {
  inv_wt : wt w; inv_own : own w; inv_ext : ext_ok (ext w); inv_proto : ip_proto (pk w) = s_ip_proto (sess w) }.

(** ** What a parser may change *)

(** What stays as it is whenever a parser runs. *)
Definition frame_of w :=
  (raw w, asm_pkt w, on_asm w, client (sess w), server (sess w), s_ip_proto (sess w), ip_proto (pk w), cur_parser w,
   (pkt_flag DPI_PKT_FLAG_CLIENT w, pkt_flag DPI_PKT_FLAG_ASSEMBLED w, pkt_flag DPI_PKT_FLAG_NEW_SESSION w,
    pkt_flag DPI_PKT_FLAG_SKIP_PARSER w),
   (sess_flag DPI_SESS_FLAG_SKIP_PARSER w, sess_flag DPI_SESS_FLAG_LAST_PARSER w, sess_flag DPI_SESS_FLAG_INGRESS w,
    sess_flag DPI_SESS_FLAG_MID_STREAM w)).
(** What stays as it is when the session is not finalized. *)
Definition quiet_of w := (frame_of w, is_final w, sess_flag DPI_SESS_FLAG_POLICY_APP_READY w, only_parser (sess w),
                            parser_left w, p_asm_seq w).

Definition others_kept t w v : Prop :=
  forall u, in_range u -> u <> t -> bit v u = bit w u /\ datum v u = datum w u.
(** Everyone else has left: data of hired parsers is gone. *)
Definition others_gone t w v : Prop :=
  forall u, in_range u -> u <> t -> bit v u = false /\
    datum v u = if bit w u then NULL else datum w u.

Definition calm t w v : Prop := inv v /\ quiet_of v = quiet_of w /\ others_kept t w v.
Definition finalized t w v : Prop :=
  inv v /\ frame_of v = frame_of w /\ is_final w = false /\ is_final v = true /\ only_parser (sess v) = t /\
  parser_left v = 0 /\ p_asm_seq v = next_seq (this_wing w) /\ others_gone t w v /\
  sess_flag DPI_SESS_FLAG_POLICY_APP_READY v = true.
Definition step t w v : Prop := (calm t w v \/ finalized t w v) /\ (bit v t = true -> bit w t = true).

Lemma calm_refl t w : inv w -> calm t w w.
Proof. intros H. by split; [|split]. Qed.
Lemma calm_trans t w1 w2 w3 : calm t w1 w2 -> calm t w2 w3 -> calm t w1 w3.
Proof.
  intros (_ & Q1 & O1) (I & Q2 & O2). split_and!; [done|congruence|].
  intros u Hu Hne. destruct (O1 u Hu Hne), (O2 u Hu Hne). split; congruence.
Qed.

Lemma calm_step t w v : calm t w v -> (bit v t = true -> bit w t = true) -> step t w v.
Proof. intros H Hb. split; [by left|done]. Qed.
Lemma step_refl t w : inv w -> step t w w.
Proof. intros H. apply calm_step; [by apply calm_refl|done]. Qed.
Lemma step_inv t w v : step t w v -> inv v.
Proof. by intros [[(?&_)|(?&_)] _]. Qed.
Lemma quiet_inv w v : quiet_of v = quiet_of w <->
  frame_of v = frame_of w /\ is_final v = is_final w /\
  sess_flag DPI_SESS_FLAG_POLICY_APP_READY v = sess_flag DPI_SESS_FLAG_POLICY_APP_READY w /\
  only_parser (sess v) = only_parser (sess w) /\ parser_left v = parser_left w /\ p_asm_seq v = p_asm_seq w.
Proof.
  unfold quiet_of. generalize (frame_of v) (frame_of w). intros f f'. split.
  - intros H. by simplify_eq.
  - by intros (-> & -> & -> & -> & -> & ->).
Qed.
Lemma calm_frame t w v : calm t w v -> frame_of v = frame_of w.
Proof. by intros (_ & (? & _)%quiet_inv & _). Qed.
Lemma step_frame t w v : step t w v -> frame_of v = frame_of w.
Proof. intros [[H|(_&H&_)] _]; [by eapply calm_frame|done]. Qed.

Lemma frame_inv w v : frame_of v = frame_of w <->
  raw v = raw w /\ asm_pkt v = asm_pkt w /\ on_asm v = on_asm w /\ client (sess v) = client (sess w) /\
  server (sess v) = server (sess w) /\ s_ip_proto (sess v) = s_ip_proto (sess w) /\ ip_proto (pk v) = ip_proto (pk w) /\
  cur_parser v = cur_parser w /\
  (pkt_flag DPI_PKT_FLAG_CLIENT v = pkt_flag DPI_PKT_FLAG_CLIENT w /\
   pkt_flag DPI_PKT_FLAG_ASSEMBLED v = pkt_flag DPI_PKT_FLAG_ASSEMBLED w /\
   pkt_flag DPI_PKT_FLAG_NEW_SESSION v = pkt_flag DPI_PKT_FLAG_NEW_SESSION w /\
   pkt_flag DPI_PKT_FLAG_SKIP_PARSER v = pkt_flag DPI_PKT_FLAG_SKIP_PARSER w) /\
  sess_flag DPI_SESS_FLAG_SKIP_PARSER v = sess_flag DPI_SESS_FLAG_SKIP_PARSER w /\
  sess_flag DPI_SESS_FLAG_LAST_PARSER v = sess_flag DPI_SESS_FLAG_LAST_PARSER w /\
  sess_flag DPI_SESS_FLAG_INGRESS v = sess_flag DPI_SESS_FLAG_INGRESS w /\
  sess_flag DPI_SESS_FLAG_MID_STREAM v = sess_flag DPI_SESS_FLAG_MID_STREAM w.
Proof.
  unfold frame_of. split.
  - generalize (raw v) (raw w) (asm_pkt v) (asm_pkt w). intros ????.
    generalize (pkt_flag DPI_PKT_FLAG_CLIENT v) (pkt_flag DPI_PKT_FLAG_CLIENT w) (pkt_flag DPI_PKT_FLAG_ASSEMBLED v)
      (pkt_flag DPI_PKT_FLAG_ASSEMBLED w) (pkt_flag DPI_PKT_FLAG_NEW_SESSION v) (pkt_flag DPI_PKT_FLAG_NEW_SESSION w)
      (pkt_flag DPI_PKT_FLAG_SKIP_PARSER v) (pkt_flag DPI_PKT_FLAG_SKIP_PARSER w)
      (sess_flag DPI_SESS_FLAG_SKIP_PARSER v) (sess_flag DPI_SESS_FLAG_SKIP_PARSER w)
      (sess_flag DPI_SESS_FLAG_LAST_PARSER v) (sess_flag DPI_SESS_FLAG_LAST_PARSER w)
      (sess_flag DPI_SESS_FLAG_INGRESS v) (sess_flag DPI_SESS_FLAG_INGRESS w)
      (sess_flag DPI_SESS_FLAG_MID_STREAM v) (sess_flag DPI_SESS_FLAG_MID_STREAM w).
    intros. by simplify_eq.
  - intros (-> & -> & -> & -> & -> & -> & -> & -> & (-> & -> & -> & ->) & -> & -> & -> & ->). done.
Qed.
Lemma frame_wing w v : frame_of v = frame_of w -> this_wing v = this_wing w.
Proof.
  intros (_ & _ & _ & E1 & E2 & _ & _ & _ & (E3 & _) & _)%frame_inv. unfold pkt_flag in E3.
  unfold this_wing, dpi_is_client_pkt. by rewrite E3, E1, E2.
Qed.
Lemma frame_buffer w v : frame_of v = frame_of w -> pkt_buffer v = pkt_buffer w.
Proof. intros (E1 & E2 & E3 & _)%frame_inv. unfold pkt_buffer. by rewrite E1, E2, E3. Qed.

Lemma step_trans t w1 w2 w3 : step t w1 w2 -> step t w2 w3 -> step t w1 w3.
Proof.
  intros [S1 B1] [S2 B2]. split; [|by auto].
  destruct S1 as [C1|F1], S2 as [C2|F2].
  - left. by eapply calm_trans.
  - right. pose proof (calm_frame _ _ _ C1) as Hf. destruct C1 as (_ & (? & ? & ? & ? & ? & ?)%quiet_inv & O1), F2 as (I & F & N & Y & On & L & P & G & R).
    split_and!; try done; [congruence|congruence| |].
    + rewrite P. f_equal. by apply frame_wing.
    + intros u Hu Hne. destruct (O1 u Hu Hne) as [E1 E2], (G u Hu Hne) as [G1 G2]. split; [done|].
      rewrite G2. by rewrite E1, E2.
  - right. pose proof (calm_frame _ _ _ C2) as Hf. destruct C2 as (I & (? & ? & ? & ? & ? & ?)%quiet_inv & O2), F1 as (_ & F & N & Y & On & L & P & G & R).
    split_and!; try done; try congruence.
    intros u Hu Hne. destruct (O2 u Hu Hne) as [E1 E2], (G u Hu Hne) as [G1 G2]. split; congruence.
  - exfalso. destruct F1 as (_&_&_&Y&_), F2 as (_&_&N&_). congruence.
Qed.

(** ** Small steps

    A state that differs only in fields the invariant and the frame do not look at. *)
Lemma own_ext w v :
  own w -> heap v = heap w -> parser_bits (sess v) = parser_bits (sess w) ->
  parser_data (sess v) = parser_data (sess w) -> s_ip_proto (sess v) = s_ip_proto (sess w) -> own v.
Proof.
  intros [H1 H2 H3 H4 H5] E1 E2 E3 E4.
  assert (Hd : forall t, datum v t = datum w t) by (intros; unfold datum; by rewrite E3).
  assert (Hb : forall t, bit v t = bit w t) by (intros; unfold bit; by rewrite E2).
  assert (Hs : forall t, slot v t = slot w t) by (intros; unfold slot; by rewrite E4).
  split; [intros t|intros t u|intros a|idtac|intros t]; rewrite ?E1, ?Hd, ?Hb, ?Hs, ?E4.
  - apply H1.
  - apply H2.
  - intros (t & Ht & Hda)%H3. exists t. by rewrite Hd.
  - apply H4.
  - apply H5.
Qed.

Lemma calm_ext t w v :
  inv w -> wt v -> ext_ok (ext v) -> quiet_of v = quiet_of w -> heap v = heap w ->
  parser_bits (sess v) = parser_bits (sess w) -> parser_data (sess v) = parser_data (sess w) ->
  calm t w v /\ bit v t = bit w t /\ datum v t = datum w t.
Proof.
  intros [Iw Io Ie Ip] Wv Ev Q E1 E2 E3.
  pose proof Q as ((_ & _ & _ & _ & _ & E4 & E5 & _)%frame_inv & _)%quiet_inv.
  split; [|split]; [split_and!| |].
  - split; [done| |done|congruence]. by eapply own_ext.
  - done.
  - intros u _ _. unfold bit, datum. by rewrite E2, E3.
  - unfold bit. by rewrite E2.
  - unfold datum. by rewrite E3.
Qed.

(** ** Running a parser, symbolically

    [st] is what is known of the state while parser [t] runs: how it was reached from the
    state [w0] it was called in, whether [t] is still hired, and the object it holds.  A
    parser called for a packet takes [step]s; one called for a new session may hire
    itself but not finalize. *)
Inductive mode := Running | Recruiting.
Definition rel (md : mode) t w v : Prop := match md with Running => step t w v | Recruiting => calm t w v end.

Record st (md : mode) t w0 (b : bool) a (od : option D) w : Prop := {
  st_rel : rel md t w0 w; st_range : in_range t; st_cur : cur_parser w = Some t; st_bit : bit w t = b;
  st_datum : datum w t = a; st_heap : heap w !! a = od }.

Lemma rel_inv md t w0 w : rel md t w0 w -> inv w.
Proof. destruct md; [apply step_inv|by intros (? & _)]. Qed.
Lemma rel_frame md t w0 w : rel md t w0 w -> frame_of w = frame_of w0.
Proof. destruct md; [apply step_frame|apply calm_frame]. Qed.
Lemma rel_calm md t w0 w v : rel md t w0 w -> calm t w v -> (bit v t = true -> bit w t = true) -> rel md t w0 v.
Proof. destruct md; cbn; intros; [eapply step_trans; [done|by apply calm_step]|by eapply calm_trans]. Qed.

Lemma st_start md t w : inv w -> in_range t -> cur_parser w = Some t -> st md t w (bit w t) (datum w t) (heap w !! datum w t) w.
Proof. intros. split; try done. destruct md; [by apply step_refl|by apply calm_refl]. Qed.

Section st.
Context (md : mode) (t : Z) (w0 : world D E) (b : bool) (a : Z) (od : option D) (w : world D E).
Context (S : st md t w0 b a od w).

Lemma st_inv : inv w.
Proof. destruct S. by eapply rel_inv. Qed.
Lemma st_buffer : pkt_buffer w = pkt_buffer w0.
Proof. destruct S. eapply frame_buffer, rel_frame. done. Qed.
Lemma st_ipp : s_ip_proto (sess w) = s_ip_proto (sess w0).
Proof. destruct S as [Hr _ _ _ _ _]. apply rel_frame in Hr. by apply frame_inv in Hr as (_ & _ & _ & _ & _ & ? & _). Qed.
Lemma st_len : length (parser_bits (sess w)) = 3%nat /\ length (parser_data (sess w)) = MAX.
Proof. destruct (wt_sess _ (inv_wt _ st_inv)). done. Qed.

Lemma st_calm v :
  calm t w v -> bit v t = b -> datum v t = a -> heap v !! a = od -> st md t w0 b a od v.
Proof.
  intros C Hb Hd Hh. destruct S. split; try done.
  - eapply rel_calm; [done..|]. congruence.
  - pose proof (calm_frame _ _ _ C) as (_ & _ & _ & _ & _ & _ & _ & E1 & _)%frame_inv. congruence.
Qed.

Lemma st_ext v :
  wt v -> ext_ok (ext v) -> quiet_of v = quiet_of w -> heap v = heap w ->
  parser_bits (sess v) = parser_bits (sess w) -> parser_data (sess v) = parser_data (sess w) ->
  st md t w0 b a od v.
Proof.
  intros Wv Ev Q E1 E2 E3.
  destruct (calm_ext t w v st_inv Wv Ev Q E1 E2 E3) as (C & B & Dt). destruct S.
  apply st_calm; [done|congruence..].
Qed.

Lemma wp_cur (Q : Z -> world D E -> Prop) : Q t w -> wp cur Q w.
Proof. intros HQ. unfold cur. repeat wp1. destruct S. by eapply wp_lift. Qed.
Lemma wp_get_data (Q : Z -> world D E -> Prop) : Q a w -> wp dpi_get_parser_data Q w.
Proof.
  intros HQ. unfold dpi_get_parser_data, at_. wp1. apply wp_cur. wp1. wp1. destruct S.
  unfold in_range in *. rewrite (proj2 (Z.ltb_ge t 0)) by lia.
  destruct (parser_data (sess w) !! Z.to_nat t) as [x|] eqn:Ex.
  - eapply wp_lift; [done|]. unfold datum in st_datum0. rewrite Ex in st_datum0. by subst.
  - apply lookup_ge_None in Ex. destruct st_len as [_ L]. rewrite L in Ex. unfold MAX in Ex. lia.
Qed.
Lemma wp_deref d (Q : D -> world D E -> Prop) : od = Some d -> Q d w -> wp (deref a) Q w.
Proof. intros -> HQ. unfold deref. wp1. wp1. destruct S. by eapply wp_lift. Qed.
Lemma wp_bit_test u (Q : bool -> world D E -> Prop) : in_range u -> Q (bit w u) w -> wp (bit_test u) Q w.
Proof.
  intros Hu HQ. unfold bit_test. wp1. wp1. eapply wp_lift; [|done]. apply Bits.mask_test_spec.
  unfold Bits.capacity, in_range in *. destruct st_len as [-> _]. unfold DPI_PARSER_MAX in Hu. lia.
Qed.
End st.

Lemma wt_upd_sess f w : wt w -> sess_ok (f (sess w)) -> wt (w <| sess ::= f |>).
Proof. by intros [] ?. Qed.

Lemma data_lookup w t : wt w -> in_range t -> parser_data (sess w) !! Z.to_nat t = Some (datum w t).
Proof.
  intros W Ht. unfold datum. destruct (lookup_lt_is_Some_2 (parser_data (sess w)) (Z.to_nat t)) as [x ->]; [|done].
  rewrite (ok_data _ (wt_sess _ W)). unfold MAX, in_range, DPI_PARSER_MAX in *. lia.
Qed.
Lemma capacity_bits w : wt w -> Bits.capacity (parser_bits (sess w)) = 24.
Proof. intros W. unfold Bits.capacity. by rewrite (ok_bits _ (wt_sess _ W)). Qed.

(** Bits: [f] sets the bit of [t] to [x]. *)
Lemma bits_upd (f : list Z -> Z -> option (list Z)) (x : bool) t w :
  inv w -> in_range t -> (x = true -> is_Some (slot w t)) ->
  (f = Bits.BITMASK_SET /\ x = true \/ f = Bits.BITMASK_UNSET /\ x = false) ->
  exists bs, f (parser_bits (sess w)) t = Some bs /\
    let v := w <| sess ::= fun s => s <| parser_bits := bs |> |> in
    inv v /\ quiet_of v = quiet_of w /\ (forall u, datum v u = datum w u) /\
    forall u, in_range u -> bit v u = if u =? t then x else bit w u.
Proof.
  intros [W O Ie Ip] Ht Hs Hf. pose proof (capacity_bits w W) as Hc.
  assert (exists bs, f (parser_bits (sess w)) t = Some bs /\ length bs = length (parser_bits (sess w)) /\
    forall u, in_range u -> Bits.mask_bit bs u = if u =? t then x else bit w u) as (bs & E1 & L & B).
  { unfold in_range, DPI_PARSER_MAX in *. destruct Hf as [[-> ->]|[-> ->]].
    - destruct (Bits.mask_set_spec (parser_bits (sess w)) t) as (bs & ? & ? & B); [lia|].
      exists bs. split_and!; [done..|]. intros u Hu. rewrite B by lia. unfold bit. by destruct (u =? t).
    - destruct (Bits.mask_unset_spec (parser_bits (sess w)) t) as (bs & ? & ? & B); [lia|].
      exists bs. split_and!; [done..|]. intros u Hu. rewrite B by lia. unfold bit. by destruct (u =? t). }
  exists bs. split; [done|]. intros v. split; [|split_and!; try done].
  split; [|split|done|done].
  - apply wt_upd_sess; [done|]. destruct (wt_sess _ W) as [? ? Hb ? ? ? ? ? ?]. split; try done. cbn. congruence.
  - apply (own_typed _ O).
  - apply (own_alone _ O).
  - apply (own_all _ O).
  - apply (own_null _ O).
  - intros u Hu. change (slot v u) with (slot w u). unfold bit at 1. cbn. rewrite B by done.
    destruct (Z.eqb_spec u t) as [->|]; [done|]. by apply (own_bits _ O).
Qed.

(** Data: slot [t] gets [a], the heap [h]. *)
Lemma data_upd t a h w :
  inv w -> in_range t ->
  let v := w <| heap := h |> <| sess ::= fun s => s <| parser_data ::= <[Z.to_nat t := a]> |> |> in
  wt v /\ quiet_of v = quiet_of w /\ (forall u, bit v u = bit w u) /\
  forall u, in_range u -> datum v u = if u =? t then a else datum w u.
Proof.
  intros [W O Ie Ip] Ht v. split_and!; try done.
  - apply (wt_upd_sess _ (w <| heap := h |>)); [by destruct W|].
    destruct (wt_sess _ W). split; try done. cbn. by rewrite length_insert.
  - intros u Hu. unfold datum. cbn. destruct (Z.eqb_spec u t) as [->|].
    + rewrite list_lookup_insert_eq; [done|]. rewrite (ok_data _ (wt_sess _ W)).
      unfold MAX, in_range, DPI_PARSER_MAX in *. lia.
    + rewrite list_lookup_insert_ne; [done|]. unfold in_range in *. lia.
Qed.

Lemma data_free t w :
  inv w -> in_range t ->
  let v := w <| heap ::= delete (datum w t) |> <| sess ::= fun s => s <| parser_data ::= <[Z.to_nat t := NULL]> |> |> in
  inv v /\ quiet_of v = quiet_of w /\ (forall u, bit v u = bit w u) /\
  forall u, in_range u -> datum v u = if u =? t then NULL else datum w u.
Proof.
  intros I Ht v. destruct (data_upd t NULL (delete (datum w t) (heap w)) w I Ht) as (Wv & Q & B & Dt).
  fold v in Wv, Q, B, Dt. split_and!; try done. destruct I as [W O Ie Ip]. split; try done. split.
  - intros u Hu. rewrite Dt by done. destruct (Z.eqb_spec u t) as [->|Hne]; [done|]. intros Hn.
    destruct (own_typed _ O u Hu Hn) as ((d & Hd & Hsh) & Hs). split; [|done]. exists d. split; [|done].
    change (delete (datum w t) (heap w) !! datum w u = Some d). rewrite lookup_delete_ne; [done|].
    intros Heq. apply Hne. symmetry. apply (own_alone _ O); [done..|congruence|done].
  - intros u u' Hu Hu'. rewrite !Dt by done. destruct (Z.eqb_spec u t) as [->|]; [done|].
    destruct (Z.eqb_spec u' t) as [->|]; [congruence|]. by apply (own_alone _ O).
  - intros x Hx. change (is_Some (delete (datum w t) (heap w) !! x)) in Hx.
    apply lookup_delete_is_Some in Hx as [Hne Hx].
    destruct (own_all _ O x Hx) as (u & Hu & <-). exists u. split; [done|]. rewrite Dt by done.
    destruct (Z.eqb_spec u t) as [->|]; done.
  - change (delete (datum w t) (heap w) !! NULL = None). rewrite lookup_delete_None. right. apply (own_null _ O).
  - intros u Hu. rewrite B. apply (own_bits _ O u Hu).
Qed.

Lemma data_put t a d w :
  inv w -> in_range t -> datum w t = NULL -> a <> NULL -> heap w !! a = None -> shape (s_ip_proto (sess w)) t d ->
  (exists f, slot w t = Some (Some f)) ->
  let v := w <| heap ::= <[a := d]> |> <| sess ::= fun s => s <| parser_data ::= <[Z.to_nat t := a]> |> |> in
  inv v /\ quiet_of v = quiet_of w /\ (forall u, bit v u = bit w u) /\
  forall u, in_range u -> datum v u = if u =? t then a else datum w u.
Proof.
  intros I Ht Hnull Ha Hfresh Hsh Hs v. destruct (data_upd t a (<[a := d]> (heap w)) w I Ht) as (Wv & Q & B & Dt).
  fold v in Wv, Q, B, Dt. split_and!; try done. destruct I as [W O Ie Ip]. split; try done.
  assert (Hother : forall u, in_range u -> datum w u <> NULL -> datum w u <> a).
  { intros u Hu Hn Heq. destruct (own_typed _ O u Hu Hn) as ((x & Hx & _) & _). congruence. }
  split.
  - intros u Hu. rewrite Dt by done. destruct (Z.eqb_spec u t) as [->|Hne].
    + intros _. split; [|done]. exists d. split; [|done]. change (<[a := d]> (heap w) !! a = Some d). apply lookup_insert_eq.
    + intros Hn. destruct (own_typed _ O u Hu Hn) as ((x & Hx & Hxs) & Hxf). split; [|done]. exists x. split; [|done].
      change (<[a := d]> (heap w) !! datum w u = Some x). rewrite lookup_insert_ne; [done|]. by apply not_eq_sym, Hother.
  - intros u u' Hu Hu'. rewrite !Dt by done.
    destruct (Z.eqb_spec u t) as [->|], (Z.eqb_spec u' t) as [->|]; try done.
    + intros _ Heq. exfalso. apply (Hother u' Hu'); [congruence|done].
    + intros Hn Heq. exfalso. by apply (Hother u Hu).
    + by apply (own_alone _ O).
  - intros x Hx. change (is_Some (<[a := d]> (heap w) !! x)) in Hx. apply lookup_insert_is_Some in Hx as [<-|[Hne Hx]].
    + exists t. split; [done|]. rewrite Dt by done. by rewrite Z.eqb_refl.
    + destruct (own_all _ O x Hx) as (u & Hu & Hux). exists u. split; [done|]. rewrite Dt by done.
      destruct (Z.eqb_spec u t) as [->|]; [|done]. subst x. rewrite Hnull in Hx. rewrite (own_null _ O) in Hx. by destruct Hx.
  - change (<[a := d]> (heap w) !! NULL = None). rewrite lookup_insert_ne by done. apply (own_null _ O).
  - intros u Hu. rewrite B. apply (own_bits _ O u Hu).
Qed.

Lemma data_store t d w :
  inv w -> in_range t -> datum w t <> NULL -> shape (s_ip_proto (sess w)) t d ->
  let v := w <| heap ::= <[datum w t := d]> |> in inv v /\ quiet_of v = quiet_of w.
Proof.
  intros [W O Ie Ip] Ht Hn Hsh v. split; [|done]. split; try done; [by destruct W|].
  destruct (own_typed _ O t Ht Hn) as ((d0 & Hd0 & _) & Hf).
  split; try apply O.
  - intros u Hu Hnu. destruct (decide (u = t)) as [->|Hne].
    + split; [|done]. exists d. split; [|done]. change (<[datum w t := d]> (heap w) !! datum w t = Some d). apply lookup_insert_eq.
    + destruct (own_typed _ O u Hu Hnu) as ((x & Hx & Hxs) & Hxf). split; [|done]. exists x. split; [|done].
      change (<[datum w t := d]> (heap w) !! datum w u = Some x). rewrite lookup_insert_ne; [done|].
      intros Heq. apply Hne. symmetry. by apply (own_alone _ O).
  - intros x Hx. change (is_Some (<[datum w t := d]> (heap w) !! x)) in Hx.
    apply lookup_insert_is_Some in Hx as [<-|[_ Hx]]; [by exists t|by apply (own_all _ O)].
  - change (<[datum w t := d]> (heap w) !! NULL = None). rewrite lookup_insert_ne by done. apply (own_null _ O).
Qed.

(** ** Rules for the calls of a parser *)

(** The lists have DPI_PARSER_MAX entries, and delete_data frees exactly the object. *)
Record dl_ok : Prop := {
  dl_len : forall ipp, length (get_parser_list dl ipp) = MAX;
  dl_del : forall ipp t f h a, slot_of ipp t = Some (Some f) -> is_Some (h !! a) -> f h a = Some (delete a h) }.

Section rules.
Context (md : mode) (t : Z) (w0 : world D E).
Implicit Types (b : bool) (od : option D).

(** Changing the own bit: hiring, allowed to a parser being recruited, and firing. *)
Lemma wp_set_bits f (x : bool) b a od w (Q : unit -> world D E -> Prop) :
  st md t w0 b a od w -> (f = Bits.BITMASK_SET /\ x = true \/ f = Bits.BITMASK_UNSET /\ x = false) ->
  (x = true -> md = Recruiting /\ is_Some (slot w t)) ->
  (forall v, st md t w0 x a od v -> Q tt v) -> wp (set_bits f) Q w.
Proof.
  intros S Hf Hx HQ. unfold set_bits. wp1. eapply wp_cur; [done|]. wp1. wp1.
  pose proof (st_inv _ _ _ _ _ _ _ S) as I. destruct S as [Hr Ht Hc Hb Hd Hh].
  destruct (bits_upd f x t w I Ht) as (bs & Hbs & I' & Q' & D' & B'); [naive_solver|done|].
  wp1. eapply wp_lift; [done|]. wp1. apply HQ.
  assert (C : calm t w (w <| sess ::= fun s => s <| parser_bits := bs |> |>)).
  { split_and!; [done..|]. intros u Hu Hne. rewrite B' by done. split; [|apply D'].
    by rewrite (proj2 (Z.eqb_neq u t)). }
  split; try done.
  - destruct md; cbn in *; [eapply step_trans; [done|]; apply calm_step; [done|]|by eapply calm_trans].
    rewrite B', Z.eqb_refl by done. destruct x; [by destruct Hx|done].
  - rewrite B' by done. by rewrite Z.eqb_refl.
Qed.
Lemma wp_fire b a od w (Q : unit -> world D E -> Prop) :
  st md t w0 b a od w -> (forall v, st md t w0 false a od v -> Q tt v) -> wp dpi_fire_parser Q w.
Proof. intros S HQ. eapply wp_set_bits; [done|by right|done|done]. Qed.
Lemma wp_ignore b a od w (Q : unit -> world D E -> Prop) :
  st md t w0 b a od w -> (forall v, st md t w0 false a od v -> Q tt v) -> wp dpi_ignore_parser Q w.
Proof. intros S HQ. eapply wp_set_bits; [done|by right|done|done]. Qed.

Lemma wp_set_asm_seq q b a od w (Q : unit -> world D E -> Prop) :
  st md t w0 b a od w -> is_u32 q -> (forall v, st md t w0 b a od v -> Q tt v) -> wp (dpi_set_asm_seq q) Q w.
Proof.
  intros S Hq HQ. unfold dpi_set_asm_seq. wp1. apply HQ. pose proof (st_inv _ _ _ _ _ _ _ S) as [[] ? ? ?].
  eapply st_ext; [done|by split|done..].
Qed.

(** calloc, the check for NULL and dpi_put_parser_data *)
Lemma wp_calloc_put {A} d (m1 : M D E A) (m2 : Z -> M D E A) b od w (Q : A -> world D E -> Prop) :
  st md t w0 b NULL od w -> shape (s_ip_proto (sess w0)) t d -> (exists f, slot w t = Some (Some f)) ->
  (forall v, st md t w0 b NULL None v -> wp m1 Q v) ->
  (forall a v, a <> NULL -> st md t w0 b a (Some d) v -> wp (m2 a) Q v) ->
  wp (a ← calloc d; if a =? NULL then m1 else dpi_put_parser_data a;; m2 a) Q w.
Proof.
  intros S Hsh Hs H1 H2. wp1. unfold calloc. wp1.
  assert (Hal : wp alloc_ok (fun ok v => st md t w0 b NULL None v /\ heap v = heap w /\ slot v t = slot w t) w).
  { assert (od = None) as -> by (destruct S; rewrite <- st_heap0; apply (own_null _ (inv_own _ (rel_inv _ _ _ _ st_rel0)))).
    unfold wp, alloc_ok. destruct (avail w) as [|x l]; [done|]. split; [|done].
    pose proof (st_inv _ _ _ _ _ _ _ S) as [W ? ? ?]. eapply st_ext; [done|by destruct W|done..]. }
  eapply wp_mono; [exact Hal|]. intros ok v (Sv & Hv & Hsv). destruct ok; cbn [negb].
  2:{ wp1. by apply H1. }
  repeat wp1. set (a := Frag.Frag.malloc (dom (heap v))). destruct (Frag.Frag.malloc_fresh (dom (heap v))) as [Hf Hp].
  fold a in Hf, Hp. clearbody a. rewrite <- (st_ipp _ _ _ _ _ _ _ Sv) in Hsh. unfold NULL. rewrite (proj2 (Z.eqb_neq a 0)) by lia.
  pose proof (st_inv _ _ _ _ _ _ _ Sv) as I. apply not_elem_of_dom in Hf.
  wp1. unfold dpi_put_parser_data. wp1. unfold cur. repeat wp1. destruct Sv as [Hr Ht Hc Hb Hd Hh].
  eapply wp_lift; [done|]. unfold set_data, at_. repeat wp1.
  unfold in_range in Ht. rewrite (proj2 (Z.ltb_ge t 0)) by lia.
  eapply wp_lift; [cbn; by apply data_lookup, Ht; destruct I|]. wp1.
  destruct (data_put t a d v I Ht Hd) as (I' & Q' & B' & D'); [unfold NULL; lia|done|done|by rewrite Hsv|].
  apply H2; [unfold NULL; lia|]. split; try done.
  - eapply rel_calm; [done| |].
    + split_and!; [done..|]. intros u Hu Hne. split; [apply B'|]. rewrite D' by done. by rewrite (proj2 (Z.eqb_neq u t)).
    + exact (fun Hbv => eq_trans (eq_sym (B' t)) Hbv).
  - etransitivity; [by apply (D' t)|]. by rewrite Z.eqb_refl.
  - cbn. apply lookup_insert_eq.
Qed.

Lemma wp_store d b a od w (Q : unit -> world D E -> Prop) :
  st md t w0 b a od w -> a <> NULL -> is_Some od -> shape (s_ip_proto (sess w0)) t d ->
  (forall v, st md t w0 b a (Some d) v -> Q tt v) -> wp (store a d) Q w.
Proof.
  intros S Ha [d0 ->] Hsh HQ. rewrite <- (st_ipp _ _ _ _ _ _ _ S) in Hsh. unfold store. wp1. eapply wp_deref; [done..|]. wp1. apply HQ.
  pose proof (st_inv _ _ _ _ _ _ _ S) as I. destruct S as [Hr Ht Hc Hb Hd Hh]. subst a.
  destruct (data_store t d w I Ht Ha Hsh) as [I' Q']. split; try done.
  - eapply rel_calm; [done| |done]. by split_and!.
  - cbn. apply lookup_insert_eq.
Qed.

Lemma wp_set_app x b a od w (Q : unit -> world D E -> Prop) :
  st md t w0 b a od w -> is_u16 x -> (forall v, st md t w0 b a od v -> Q tt v) ->
  wp (upd_sess (fun s => s <| app := x |>)) Q w.
Proof.
  intros S Hx HQ. wp1. apply HQ. pose proof (st_inv _ _ _ _ _ _ _ S) as [W ? ? ?].
  eapply st_ext; [done| |done..]. apply wt_upd_sess; [done|]. by destruct (wt_sess _ W).
Qed.
Lemma wp_set_base x b a od w (Q : unit -> world D E -> Prop) :
  st md t w0 b a od w -> is_u16 x -> (forall v, st md t w0 b a od v -> Q tt v) ->
  wp (upd_sess (fun s => s <| base_app := x |>)) Q w.
Proof.
  intros S Hx HQ. wp1. apply HQ. pose proof (st_inv _ _ _ _ _ _ _ S) as [W ? ? ?].
  eapply st_ext; [done| |done..]. apply wt_upd_sess; [done|]. by destruct (wt_sess _ W).
Qed.

(** *** The applications of the endpoint *)

Lemma wp_upd_ep f b a od w (Q : unit -> world D E -> Prop) :
  st md t w0 b a od w -> (ep_ok (ep w) -> ep_ok (f (ep w))) -> (forall v, st md t w0 b a od v -> Q tt v) ->
  wp (upd (fun w => w <| ep ::= f |>)) Q w.
Proof.
  intros S Hf HQ. wp1. apply HQ. pose proof (st_inv _ _ _ _ _ _ _ S) as [[] ? ? ?].
  eapply st_ext; [done|split; try done; by apply Hf|done..].
Qed.
Lemma wp_put_app k x b a od w (Q : unit -> world D E -> Prop) :
  st md t w0 b a od w -> app_ok x -> (forall v, st md t w0 b a od v -> Q tt v) -> wp (put_app k x) Q w.
Proof.
  intros S Hx HQ. unfold put_app. eapply wp_upd_ep; [done| |done].
  intros []. split; try done. cbn. by apply map_Forall_insert_2.
Qed.
Lemma wp_ep_updated b a od w (Q : unit -> world D E -> Prop) :
  st md t w0 b a od w -> (forall v, st md t w0 b a od v -> Q tt v) -> wp ep_updated Q w.
Proof. intros S HQ. eapply wp_upd_ep; [done|by intros []|done]. Qed.

Lemma wp_locate prt ipp b a od w (Q : option io_app -> world D E -> Prop) :
  st md t w0 b a od w ->
  (forall o v, st md t w0 b a od v -> (forall x, o = Some x -> app_ok x) -> Q o v) -> wp (ep_app_map_locate prt ipp) Q w.
Proof.
  intros S HQ. unfold ep_app_map_locate. wp1. wp1. unfold dpi_ep_app_map_lookup.
  destruct (app_map (ep w) !! (prt, ipp)) as [x|] eqn:Ex.
  - wp1. apply HQ; [done|]. intros y [= <-]. pose proof (st_inv _ _ _ _ _ _ _ S) as [W ? ? ?].
    eapply (ep_apps _ (wt_ep _ W)). done.
  - wp1. unfold wp, alloc_ok.
    assert (Hv : forall l, st md t w0 b a od (w <| avail := l |>)).
    { intros l. pose proof (st_inv _ _ _ _ _ _ _ S) as [W ? ? ?]. eapply st_ext; [done|by destruct W|done..]. }
    set (x0 := IoApp 0 0 0 _ APP_SRC_DP).
    assert (Hx0 : app_ok x0) by done.
    assert (Hnew : forall v, st md t w0 b a od v -> wp (upd (fun w => w <| ep ::= fun e =>
      e <| app_ports ::= fun n => u16 (n + 1) |> <| app_map ::= <[(prt, ipp) := x0]> |> |>);; mret (Some x0)) Q v).
    { intros v Sv. wp1. eapply wp_upd_ep; [done| |].
      - intros [Ha Hp Hu]. split; cbn; [|apply u16_range|done]. by apply map_Forall_insert_2.
      - intros v' Sv'. wp1. apply HQ; [done|]. by intros y [= <-]. }
    destruct (avail w) as [|[|] l]; cbn [negb].
    + by apply Hnew.
    + by apply Hnew, Hv.
    + by apply HQ.
Qed.

Lemma wp_ep_set_proto x b a od w (Q : unit -> world D E -> Prop) :
  st md t w0 b a od w -> is_u16 x -> (forall v, st md t w0 b a od v -> Q tt v) -> wp (dpi_ep_set_proto x) Q w.
Proof.
  intros S Hx HQ. unfold dpi_ep_set_proto, is_ingress. wp1. wp1. destruct (negb _); [by apply HQ|].
  repeat wp1. eapply wp_locate; [done|]. intros [y|] v Sv Hy; [|by apply HQ].
  destruct (_ && _); [|by apply HQ]. wp1. eapply wp_put_app; [done|by destruct (Hy y eq_refl)|].
  intros v' Sv'. eapply wp_ep_updated; [done|]. auto.
Qed.

Lemma wp_ep_set_app srv x b a od w (Q : unit -> world D E -> Prop) :
  st md t w0 b a od w -> is_u16 srv -> is_u16 x -> (forall v, st md t w0 b a od v -> Q tt v) -> wp (dpi_ep_set_app srv x) Q w.
Proof.
  intros S Hs Hx HQ. unfold dpi_ep_set_app, is_ingress. wp1. wp1. destruct (negb _); [by apply HQ|].
  repeat wp1. eapply wp_locate; [done|]. intros [y|] v Sv Hy; [|by apply HQ]. specialize (Hy y eq_refl).
  wp1. match goal with |- wp _ ?R _ => set (K := R) end.
  assert (HK : forall y v, st md t w0 b a od v -> app_ok y -> K y v).
  { intros z u Su Hz. unfold K. destruct (_ && _); [|by apply HQ]. wp1. eapply wp_put_app; [done|by destruct Hz|].
    intros v' Sv'. eapply wp_ep_updated; [done|]. auto. }
  destruct (_ && _); [|by apply HK]. wp1. eapply wp_put_app; [done|by destruct Hy|].
  intros v' Sv'. wp1. eapply wp_ep_updated; [done|]. intros v2 S2. wp1. apply HK; [done|by destruct Hy].
Qed.

Lemma wp_ep_set_server_ver ver n b a od w (Q : unit -> world D E -> Prop) :
  st md t w0 b a od w -> 0 ∈ ver -> (forall v, st md t w0 b a od v -> Q tt v) -> wp (dpi_ep_set_server_ver ver n) Q w.
Proof.
  intros S H0 HQ. unfold dpi_ep_set_server_ver, is_ingress. wp1. wp1. destruct (negb _); [by apply HQ|].
  repeat wp1. eapply wp_locate; [done|]. intros [y|] v Sv Hy; [|by apply HQ]. destruct (Hy y eq_refl) as [? ? ? L].
  destruct (strlcpy_safe (version y) ver (Z.to_nat (Z.min (n + 1) SERVER_VER_SIZE))) as (r & Hr & Lr); [rewrite L; lia|done|].
  wp1. eapply wp_lift; [done|]. eapply wp_put_app; [done| |done]. split; try done. cbn. congruence.
Qed.

(** *** Threats *)

Lemma wp_threat tc idx b a od w (Q : unit -> world D E -> Prop) :
  st md t w0 b a od w -> (forall v, st md t w0 b a od v -> Q tt v) -> wp (threat tc idx) Q w.
Proof.
  intros S HQ. unfold threat. destruct (negb (thrt_enable _)) eqn:En; [by apply HQ|]. wp1. wp1.
  set (w1 := w <| pk ::= _ |>). assert (S1 : st md t w0 b a od w1).
  { pose proof (st_inv _ _ _ _ _ _ _ S) as [W ? ? ?]. eapply st_ext; [done|by destruct W|done| |done..].
    unfold quiet_of, frame_of, pkt_flag, w1. cbn. unfold dpi_threat_trigger, dpi_set_action. rewrite En.
    by destruct (_ && _), (_ <? _). }
  clearbody w1. wp1. match goal with |- wp _ ?R _ => set (K := R) end.
  assert (HK : forall v, st md t w0 b a od v -> K tt v).
  { intros v Sv. unfold K. wp1. wp1. destruct (_ <? _); [|by apply HQ]. wp1. wp1. wp1. apply HQ.
    pose proof (st_inv _ _ _ _ _ _ _ Sv) as [W ? ? ?].
    eapply st_ext; [done|destruct W as [[] ? ? ? ? ? ?]; split; [by split|done..]|done| |done..].
    unfold quiet_of, frame_of, pkt_flag. cbn. rewrite !FLAGS_TEST_SET, !orb_false_r. done. }
  destruct (_ || _); [|by apply HK]. wp1. apply HK.
  pose proof (st_inv _ _ _ _ _ _ _ S1) as [W ? ? ?].
  eapply st_ext; [done|destruct W as [[] ? ? ? ? ? ?]; split; [by split|done..]|done..].
Qed.
End rules.

(** ** Deleting parser data *)

Lemma inv_cur c w : inv w -> inv (w <| cur_parser := c |>).
Proof. intros [[] [] ? ?]. by split; [split|split|..]. Qed.

Lemma wp_delete_data t del w (Q : unit -> world D E -> Prop) :
  dl_ok -> inv w -> in_range t -> slot w t = Some del ->
  (forall v, inv v -> quiet_of v = quiet_of w -> (forall u, bit v u = bit w u) ->
     (forall u, in_range u -> datum v u = if u =? t then NULL else datum w u) ->
     heap v = delete (datum w t) (heap w) -> parser_asm_seq v = parser_asm_seq w -> Q tt v) ->
  wp (dpi_delete_parser_data t del) Q w.
Proof.
  intros Hdl I Ht Hs HQ. destruct (data_free t w I Ht) as (I' & Q' & B' & D').
  unfold dpi_delete_parser_data, at_. wp1. wp1. unfold in_range in Ht. wp1.
  rewrite (proj2 (Z.ltb_ge t 0)) by lia. eapply wp_lift; [by apply data_lookup, Ht; destruct I|]. wp1.
  match goal with |- wp _ ?R _ => set (K := R) end.
  assert (HK : forall w', w' = w <| heap ::= delete (datum w t) |> -> K tt w').
  { intros w' ->. unfold K, set_data, at_. repeat wp1. rewrite (proj2 (Z.ltb_ge t 0)) by lia.
    eapply wp_lift; [cbn; by apply data_lookup, Ht; destruct I|]. wp1. by apply HQ. }
  assert (Hnull : datum w t = NULL -> w = w <| heap ::= delete (datum w t) |>).
  { intros ->. pose proof (own_null _ (inv_own _ I)) as Hn. destruct w. cbn in *. by rewrite delete_id. }
  destruct del as [f|].
  - destruct (Z.eqb_spec (datum w t) NULL) as [Hz|Hnz]; cbn [negb]; [by apply HK, Hnull|].
    destruct (own_typed _ (inv_own _ I) t Ht Hnz) as ((d & Hd & _) & _).
    wp1. wp1. wp1. eapply wp_lift; [by eapply dl_del; [done|done|rewrite Hd]|]. wp1. by apply HK.
  - apply HK, Hnull. destruct (decide (datum w t = NULL)) as [|Hnz]; [done|].
    destruct (own_typed _ (inv_own _ I) t Ht Hnz) as (_ & f & Hf). congruence.
Qed.

Lemma slot_at w t : in_range t -> length (get_parser_list dl (s_ip_proto (sess w))) = MAX ->
  get_parser_list dl (s_ip_proto (sess w)) !! Z.to_nat t = Some (slot w t).
Proof.
  intros Ht L. unfold slot, slot_of. destruct (lookup_lt_is_Some_2 (get_parser_list dl (s_ip_proto (sess w))) (Z.to_nat t)) as [x ->].
  - rewrite L. unfold MAX, in_range, DPI_PARSER_MAX in *. lia.
  - done.
Qed.

Lemma wp_purge w (Q : unit -> world D E -> Prop) :
  dl_ok -> inv w -> (forall v, inv v -> heap v = ∅ -> (forall t, in_range t -> datum v t = NULL) -> Q tt v) ->
  wp (dpi_purge_parser_data dl) Q w.
Proof.
  intros Hdl I HQ. unfold dpi_purge_parser_data. wp1. wp1.
  eapply wp_mono; [apply (wp_for (fun k v => inv v /\ s_ip_proto (sess v) = s_ip_proto (sess w) /\
    forall u, in_range u -> u < k -> datum v u = NULL)) with (w := w)|].
  - split_and!; [done..|]. unfold in_range. lia.
  - intros k v Hk (Iv & Ev & Hv). assert (Hr : in_range k) by (unfold in_range, MAX, DPI_PARSER_MAX in *; lia).
    wp1. unfold at_. rewrite (proj2 (Z.ltb_ge k 0)) by lia. rewrite <- Ev.
    eapply wp_lift; [apply slot_at; [done|by apply dl_len]|].
    destruct (slot v k) as [del|] eqn:Es.
    + eapply wp_delete_data; [done..|]. intros v' I' Q' B' D' _ _.
      apply quiet_inv in Q' as ((_ & _ & _ & _ & _ & E4 & _)%frame_inv & _).
      split_and!; [done|congruence|]. intros u Hu Huk. rewrite D' by done.
      destruct (Z.eqb_spec u k); [done|]. apply Hv; [done|lia].
    + wp1. split_and!; [done..|]. intros u Hu Huk. destruct (decide (u = k)) as [->|]; [|apply Hv; [done|lia]].
      destruct (decide (datum v k = NULL)) as [|Hn]; [done|].
      destruct (own_typed _ (inv_own _ Iv) k Hr Hn) as (_ & f & Hf). congruence.
  - intros [] v (Iv & _ & Hv). assert (Hall : forall t, in_range t -> datum v t = NULL).
    { intros t Ht. apply Hv; [done|]. unfold in_range, MAX, DPI_PARSER_MAX in *. lia. }
    apply HQ; [done| |done]. apply map_eq. intros x. rewrite lookup_empty.
    destruct (heap v !! x) as [d|] eqn:Ex; [|done].
    destruct (own_all _ (inv_own _ Iv) x) as (t & Ht & Hx); [by rewrite Ex|].
    rewrite Hall in Hx by done. subst x. by rewrite (own_null _ (inv_own _ Iv)) in Ex.
Qed.

(** ** Finalizing the session *)

Lemma inv_flag f w : inv w -> is_u16 f -> inv (w <| sess ::= fun s => s <| s_flags ::= fun g => FLAGS_SET g f |> |>).
Proof.
  intros [W [] ? ?] Hf. split; [|by split|done..]. apply wt_upd_sess; [done|]. destruct (wt_sess _ W). split; try done.
  by apply lor_u16.
Qed.
Lemma inv_only x w : inv w -> in_range x -> inv (w <| sess ::= fun s => s <| only_parser := x |> |>).
Proof. intros [W [] ? ?] Hx. split; [|by split|done..]. apply wt_upd_sess; [done|]. by destruct (wt_sess _ W). Qed.

(** The loop that fires everyone but [t] and deletes their data. *)
Definition fired_upto t w1 k w : Prop :=
  inv w /\ quiet_of (w <| cur_parser := Some t |>) = quiet_of w1 /\ bit w t = bit w1 t /\ datum w t = datum w1 t /\
  heap w !! datum w1 t = heap w1 !! datum w1 t /\
  forall u, in_range u -> u <> t -> if u <? k then bit w u = false /\ datum w u = (if bit w1 u then NULL else datum w1 u)
                                  else bit w u = bit w1 u /\ datum w u = datum w1 u.

Lemma fired_skip t w1 k w : fired_upto t w1 k w -> in_range k -> (bit w k = false \/ k = t) -> fired_upto t w1 (k + 1) w.
Proof.
  intros (I & Qc & Hb & Hd & Hh & Ho) Hk Hkt. split_and!; try done. intros u Hu Hne. specialize (Ho u Hu Hne).
  destruct (Z.ltb_spec u k), (Z.ltb_spec u (k + 1)); try lia; try done.
  assert (u = k) as -> by lia. destruct Hkt as [Hkt|]; [|done]. destruct Ho as [Hob Hod]. rewrite Hkt in Hob.
  split; [done|]. by rewrite <- Hob.
Qed.

Lemma fired_one t w1 k w :
  dl_ok -> in_range k -> in_range t -> fired_upto t w1 k w ->
  wp (b ← bit_test k;
      if negb (k =? t) && b then
        c ← at_ (get_parser_list dl (s_ip_proto (sess w1))) k;
        match c with
        | None => upd (fun w => w <| cur_parser := None |>);; dpi_fire_parser
        | Some del => upd (fun w => w <| cur_parser := Some k |>);; dpi_fire_parser;; dpi_delete_parser_data k del
        end
      else skip) (fun _ => fired_upto t w1 (k + 1)) w.
Proof.
  intros Hdl Hk Ht F. pose proof F as (I & Qc & Hb & Hd & Hh & Ho).
  assert (Hipp : s_ip_proto (sess w) = s_ip_proto (sess w1))
    by (apply quiet_inv in Qc as ((_ & _ & _ & _ & _ & E4 & _)%frame_inv & _); done).
  wp1. unfold bit_test. wp1. wp1. eapply wp_lift.
  { apply Bits.mask_test_spec. rewrite capacity_bits by apply I. unfold in_range, DPI_PARSER_MAX in Hk. lia. }
  change (Bits.mask_bit _ k) with (bit w k).
  destruct (Z.eqb_spec k t) as [->|Hne]; [cbn [negb andb]; wp1; apply fired_skip; auto|].
  destruct (bit w k) eqn:Ebk; cbn [negb andb]; [|wp1; apply fired_skip; auto].
  destruct (own_bits _ (inv_own _ I) k Hk Ebk) as [del Hdel].
  wp1. unfold at_. unfold in_range in Hk. rewrite (proj2 (Z.ltb_ge k 0)) by lia. rewrite <- Hipp.
  eapply wp_lift; [apply slot_at; [done|by apply dl_len]|]. rewrite Hdel. wp1. wp1.
  set (w' := w <| cur_parser := Some k |>). assert (I' : inv w') by by apply inv_cur.
  wp1. unfold dpi_fire_parser, set_bits. wp1. unfold cur. repeat wp1. eapply wp_lift; [done|]. repeat wp1.
  destruct (bits_upd Bits.BITMASK_UNSET false k w' I' Hk) as (bs & Hbs & I2 & Q2 & D2 & B2); [done|by right|].
  eapply wp_lift; [done|]. wp1. set (w2 := w' <| sess ::= _ |>) in *.
  eapply wp_delete_data; [done|done|done|done|]. intros v Iv Qv Bv Dv Hv _.
  assert (Dw : forall u, datum w2 u = datum w u) by done.
  assert (Bw : forall u, in_range u -> bit v u = if u =? k then false else bit w u).
  { intros u Hu. rewrite Bv, B2 by done. done. }
  split_and!; [done| | | | |].
  - rewrite <- Qc. apply quiet_inv in Qv as (Fv & ? & ? & ? & ? & ?). apply quiet_inv. split_and!; try done.
    apply frame_inv in Fv as (? & ? & ? & ? & ? & ? & ? & ? & ? & ?). by apply frame_inv.
  - rewrite Bw by done. by rewrite (proj2 (Z.eqb_neq t k)).
  - rewrite Dv by done. by rewrite (proj2 (Z.eqb_neq t k)).
  - rewrite Hv. change (heap w2) with (heap w). rewrite Dw. rewrite <- Hh, <- Hd.
    destruct (decide (datum w k = NULL)) as [Hz|Hnz].
    { rewrite delete_id; [done|]. rewrite Hz. apply (own_null _ (inv_own _ I)). }
    rewrite lookup_delete_ne; [done|]. intros Heq. apply Hne. by apply (own_alone _ (inv_own _ I)).
  - intros u Hu Hut. specialize (Ho u Hu Hut). rewrite Bw, Dv, Dw by done.
    destruct (Z.eqb_spec u k) as [->|Huk].
    + rewrite (proj2 (Z.ltb_ge k k)) in Ho by lia. rewrite (proj2 (Z.ltb_lt k (k + 1))) by lia.
      destruct Ho as [Ho1 _]. by rewrite <- Ho1, Ebk.
    + destruct (Z.ltb_spec u k), (Z.ltb_spec u (k + 1)); try lia; done.
Qed.

Lemma app_of_range t : in_range t -> exists x, dpi_parser_2_app !! Z.to_nat t = Some x /\ is_u16 x.
Proof.
  intros Ht. destruct (lookup_lt_is_Some_2 dpi_parser_2_app (Z.to_nat t)) as [x Hx].
  { unfold in_range, DPI_PARSER_MAX in Ht. cbn. lia. }
  exists x. split; [done|]. eapply (Forall_lookup_1 is_u16); [|done]. repeat constructor; done.
Qed.

(** From the state [w1] with the flag and the parser set: the application is recorded. *)
Lemma finalize_app t b a od w1 x (Q : unit -> world D E -> Prop) :
  st Recruiting t w1 b a od w1 -> is_u16 x -> (forall v, st Recruiting t w1 b a od v -> Q tt v) ->
  wp (if dpi_is_base_app x then
        bs ← get (fun w => base_app (sess w));
        if bs =? 0 then upd_sess (fun s => s <| base_app := x |>);; dpi_ep_set_proto x else skip
      else upd_sess (fun s => s <| app := x |>);; dpi_ep_set_app 0 x) Q w1.
Proof.
  intros S Hx HQ. destruct (dpi_is_base_app x).
  - wp1. wp1. destruct (_ =? 0); [|by apply HQ]. wp1. eapply wp_set_base; [done..|]. intros v Sv.
    by eapply wp_ep_set_proto.
  - wp1. eapply wp_set_app; [done..|]. intros v Sv. by eapply wp_ep_set_app.
Qed.

Lemma finalize_steps t w (Q : unit -> world D E -> Prop) :
  dl_ok -> inv w -> in_range t -> cur_parser w = Some t -> is_final w = false ->
  (forall v, finalized t w v -> bit v t = bit w t -> datum v t = datum w t ->
     heap v !! datum w t = heap w !! datum w t -> Q tt v) ->
  wp (dpi_finalize_parser dl) Q w.
Proof.
  intros Hdl I Ht Hc Hf HQ. unfold dpi_finalize_parser, dpi_is_parser_final. wp1. wp1. rewrite Hf. wp1. wp1. wp1.
  unfold cur. wp1. wp1. eapply wp_lift; [exact Hc|]. wp1. wp1. wp1. unfold at_. pose proof Ht as Ht'. unfold in_range in Ht'.
  rewrite (proj2 (Z.ltb_ge t 0)) by lia. destruct (app_of_range t Ht) as (x & Hx & Hx16). eapply wp_lift; [done|].
  match goal with |- wp _ _ ?W => set (w1 := W) end.
  assert (I1 : inv w1) by (apply inv_only; [by apply inv_flag|done]).
  assert (S1 : st Recruiting t w1 (bit w t) (datum w t) (heap w !! datum w t) w1)
    by exact (st_start Recruiting t w1 I1 Ht Hc).
  wp1. eapply finalize_app; [done..|]. intros w2 [C2 _ Hc2 Hb2 Hd2 Hh2]. wp1. wp1. wp1. wp1.
  match goal with |- wp _ _ ?W => set (w3 := W) end.
  destruct C2 as (I2 & Q2 & O2). assert (I3 : inv w3) by by apply inv_flag.
  apply quiet_inv in Q2 as (F2 & N2 & _ & On2 & _).
  assert (F3 : frame_of w3 = frame_of w).
  { transitivity (frame_of w2); [|transitivity (frame_of w1); [done|]].
    - unfold frame_of, sess_flag, w3. cbn. by rewrite !FLAGS_TEST_SET, !orb_false_r.
    - unfold frame_of, sess_flag, w1. cbn. by rewrite !FLAGS_TEST_SET, !orb_false_r. }
  assert (N3 : is_final w3 = true).
  { unfold is_final, sess_flag, w3. cbn. rewrite FLAGS_TEST_SET. unfold is_final, sess_flag in N2. rewrite N2. unfold w1. cbn.
    by rewrite FLAGS_TEST_SET, orb_true_r. }
  assert (R3 : sess_flag DPI_SESS_FLAG_POLICY_APP_READY w3 = true).
  { unfold sess_flag, w3. cbn. by rewrite FLAGS_TEST_SET, orb_true_r. }
  assert (O3 : forall u, in_range u -> u <> t -> bit w3 u = bit w u /\ datum w3 u = datum w u) by exact O2.
  assert (Hc3 : cur_parser w3 = Some t) by exact Hc2.
  assert (On3 : only_parser (sess w3) = t) by (exact On2).
  assert (Hb3 : bit w3 t = bit w t) by exact Hb2. assert (Hd3 : datum w3 t = datum w t) by exact Hd2.
  assert (Hh3 : heap w3 !! datum w t = heap w !! datum w t) by exact Hh2.
  clearbody w3. clear w1 w2 I1 S1 I2 Hc2 Hb2 Hd2 Hh2 O2 F2 N2 On2.
  wp1. eapply wp_mono; [apply (wp_for (fired_upto t w3)) with (w := w3)|].
  - split_and!; try done.
    + unfold quiet_of, frame_of. cbn. by rewrite Hc3.
    + intros u Hu _. unfold in_range in Hu. by rewrite (proj2 (Z.ltb_ge u 0)) by lia.
  - intros k v Hk F. by apply fired_one.
  - intros [] w4 (I4 & Q4 & Hb4 & Hd4 & Hh4 & O4). repeat wp1.
    apply quiet_inv in Q4 as (F4 & N4 & R4 & On4 & _).
    set (v := w4 <| parser_left := 0 |> <| cur_parser := Some t |> <| p_asm_seq := next_seq (this_wing w4) |>).
    assert (Fv : frame_of v = frame_of w) by (rewrite <- F3, <- F4; done).
    assert (Iv : inv v).
    { pose proof (inv_cur (Some t) _ I4) as [[] [] ? ?]. split; [|by split|done..]. split; try done.
      pose proof (wt_sess _ (inv_wt _ I4)) as [? ? ? ? ? ? ? [] []]. cbn. unfold this_wing. by destruct (dpi_is_client_pkt _). }
    change (Q tt v). apply HQ; [|exact (eq_trans Hb4 Hb3)|exact (eq_trans Hd4 Hd3)|rewrite <- Hh3, <- Hd3; exact Hh4].
    split_and!; [done|done|done|etransitivity; [exact N4|done]|etransitivity; [exact On4|done]|done| | |etransitivity; [exact R4|done]].
    + change (next_seq (this_wing v) = next_seq (this_wing w)). f_equal. by apply frame_wing.
    + intros u Hu Hut. specialize (O4 u Hu Hut). destruct (O3 u Hu Hut) as [E1 E2]. rewrite E1, E2 in O4.
      unfold in_range, MAX, DPI_PARSER_MAX in *. by rewrite (proj2 (Z.ltb_lt u _)) in O4 by lia.
Qed.

Lemma wp_finalize t w0 b a od w (Q : unit -> world D E -> Prop) :
  dl_ok -> st Running t w0 b a od w -> (forall v, st Running t w0 b a od v -> is_final v = true -> Q tt v) ->
  wp (dpi_finalize_parser dl) Q w.
Proof.
  intros Hdl S HQ. pose proof S as [Hr Ht Hc Hb Hd Hh]. destruct (is_final w) eqn:Hf.
  - unfold dpi_finalize_parser, dpi_is_parser_final. wp1. wp1. rewrite Hf. by apply HQ.
  - eapply finalize_steps; [done|by eapply rel_inv|done..|]. intros v Fv Hbv Hdv Hhv. pose proof Fv as (_ & F & _ & N & _).
    apply HQ; [|done]. split; [|done| |congruence..].
    + cbn in *. eapply step_trans; [done|]. split; [by right|congruence].
    + apply frame_inv in F as (_ & _ & _ & _ & _ & _ & _ & E1 & _). congruence.
Qed.

(** ** The promises *)

(** A parser's functions, called with the parser as the current one of a session with
    protocol [ipp]; [del] is its delete_data.  [parse] is called on
    a packet with data while the parser is hired; a function for a new session finds the
    parser not hired and without data. *)
Definition runs_well (ipp : Z) t (del : option deleter) (m : M D E unit) : Prop :=
  forall w, inv w -> s_ip_proto (sess w) = ipp -> cur_parser w = Some t -> slot w t = Some del -> 0 < b_len (pkt_buffer w) ->
    wp m (fun _ v => step t w v) w.
Definition starts_well (ipp : Z) t (del : option deleter) (m : M D E unit) : Prop :=
  forall w, inv w -> s_ip_proto (sess w) = ipp -> cur_parser w = Some t -> slot w t = Some del -> bit w t = false -> datum w t = NULL ->
    wp m (fun _ v => calm t w v /\ (bit v t = false -> datum v t = NULL)) w.

Definition holds_for {A} (P : A -> Prop) (o : option A) : Prop := match o with Some x => P x | None => True end.

End inv.
End ParserLaw.
