(* ===== verification/ParserRun.v ===== *)
(** * The framework of dpi_parser.c, for any lawful parsers

    Theorems on dpi_recruit_parser, dpi_proto_parser, their midstream variants,
    dpi_pkt_proto_parser and dpi_purge_parser_data, proved against the promises of
    ParserLaw.v only. *)

From S2P Require Import Prelude Helper Bitmap Wire Frag Parser ParserLaw.
Import Helper.Bytes Helper.Seq Wire.Wire Parser.Parser ParserLaw.ParserLaw.

Module ParserRun.

(** ** Registration *)

Section setup.
Context {D E : Type}.
Implicit Types (c : @parser D E) (g : lists (@parser D E)) (l : list (@parser D E)).

(** Which of the three lists a protocol uses *)
Definition list_no (ipp : Z) : Z := if ipp =? IPPROTO_TCP then 0 else if ipp =? IPPROTO_UDP then 1 else 2.

Lemma get_register g c ipp : get_parser_list (register_parser g c) ipp =
  if list_no ipp =? list_no (p_ip_proto c) then <[Z.to_nat (type c) := Some c]> (get_parser_list g ipp)
  else get_parser_list g ipp.
Proof.
  unfold get_parser_list, register_parser, list_no.
  destruct (ipp =? IPPROTO_TCP), (ipp =? IPPROTO_UDP), (p_ip_proto c =? IPPROTO_TCP), (p_ip_proto c =? IPPROTO_UDP); reflexivity.
Qed.
Lemma setup_snoc l c : dpi_parser_setup (l ++ [c]) = register_parser (dpi_parser_setup l) c.
Proof. unfold dpi_parser_setup. by rewrite foldl_app. Qed.
Lemma setup_len l ipp : length (get_parser_list (dpi_parser_setup l) ipp) = MAX.
Proof.
  induction l as [|c l IH] using rev_ind.
  - unfold get_parser_list. by destruct (ipp =? IPPROTO_TCP), (ipp =? IPPROTO_UDP).
  - rewrite setup_snoc, get_register. destruct (_ =? _); [by rewrite length_insert|done].
Qed.
(** What stands in a list was registered for it, at its own type. *)
Lemma setup_entry l ipp n c : Forall (fun c => 0 <= type c < DPI_PARSER_MAX) l ->
  get_parser_list (dpi_parser_setup l) ipp !! n = Some (Some c) ->
  c ∈ l /\ type c = Z.of_nat n /\ list_no (p_ip_proto c) = list_no ipp.
Proof.
  intros Hl. induction l as [|c' l IH] using rev_ind.
  - unfold get_parser_list, dpi_parser_setup, no_parsers. cbn [foldl]. intros H. exfalso.
    destruct (ipp =? IPPROTO_TCP), (ipp =? IPPROTO_UDP); apply lookup_replicate in H as [? _]; done.
  - apply Forall_app in Hl as [Hl [Hc _]%Forall_cons]. rewrite setup_snoc, get_register. intros H.
    destruct (Z.eqb_spec (list_no ipp) (list_no (p_ip_proto c'))) as [E1|].
    + destruct (decide (n = Z.to_nat (type c'))) as [->|Hne].
      * rewrite list_lookup_insert_eq in H by (rewrite setup_len; unfold MAX; lia). simplify_eq.
        split_and!; [set_solver|lia|done].
      * rewrite list_lookup_insert_ne in H by done. destruct (IH Hl H) as (? & ? & ?). split_and!; [set_solver|done..].
    + destruct (IH Hl H) as (? & ? & ?). split_and!; [set_solver|done..].
Qed.
End setup.

Section run.
Context {D E : Type} (ext_ok : E -> Prop) (shape : Z -> Z -> D -> Prop) (slack : Z) (g : lists (@parser D E)).
Implicit Types (w v : world D E) (t u k : Z) (c : @parser D E).

Abbreviation dl := (deleters g).
Abbreviation inv := (inv ext_ok shape dl slack).
Abbreviation step := (step ext_ok shape dl slack).
Abbreviation calm := (calm ext_ok shape dl slack).

(** list[t] *)
Definition entry (ipp t : Z) : option parser := mjoin (get_parser_list g ipp !! Z.to_nat t).

(** What the framework relies on: parsers stand at their type, keep their promises, and
    one that recruits has the function it will be called with. *)
Record lawful (ipp : Z) c : Prop := {
  law_new : holds_for (starts_well ext_ok shape dl slack ipp (type c) (delete_data c)) (new_session c);
  law_parse : holds_for (runs_well ext_ok shape dl slack ipp (type c) (delete_data c)) (parse c);
  law_new_mid : holds_for (starts_well ext_ok shape dl slack ipp (type c) (delete_data c)) (new_mid_sess c);
  law_mid : holds_for (runs_well ext_ok shape dl slack ipp (type c) (delete_data c)) (midstream c);
  law_delete : holds_for (fun f => forall h a, is_Some (h !! a) -> f h a = Some (delete a h)) (delete_data c);
  law_has_parse : is_Some (new_session c) \/ is_Some (new_mid_sess c) -> is_Some (parse c) }.
Class Lawful : Prop := {
  lists_len : forall ipp, length (get_parser_list g ipp) = MAX;
  lists_type : forall ipp t c, in_range t -> entry ipp t = Some c -> type c = t;
  lists_law : forall ipp t c, in_range t -> entry ipp t = Some c -> lawful ipp c }.

Lemma get_deleters ipp : get_parser_list dl ipp = List.map (option_map delete_data) (get_parser_list g ipp).
Proof. unfold get_parser_list. destruct (_ =? _); [done|]. by destruct (_ =? _). Qed.

Lemma slot_entry ipp t : slot_of dl ipp t = option_map delete_data (entry ipp t).
Proof.
  unfold slot_of, entry. rewrite get_deleters. change (List.map ?f ?l) with (f <$> l). rewrite list_lookup_fmap.
  by destruct (get_parser_list g ipp !! Z.to_nat t) as [[c|]|].
Qed.

Context {HL : Lawful}.

Lemma entry_range ipp t c : 0 <= t -> entry ipp t = Some c -> in_range t.
Proof.
  unfold entry. intros Ht H. destruct (get_parser_list g ipp !! Z.to_nat t) as [x|] eqn:Ex; [|done].
  apply lookup_lt_Some in Ex. rewrite lists_len in Ex. unfold MAX, in_range, DPI_PARSER_MAX in *. lia.
Qed.

Lemma deleters_ok : dl_ok dl.
Proof.
  split.
  - intros ipp. rewrite get_deleters, length_map. apply lists_len.
  - intros ipp t f h a Hs Ha. rewrite slot_entry in Hs. destruct (entry ipp t) as [c|] eqn:Ec; [|done].
    cbn in Hs. injection Hs as Hs.
    assert (Ht : in_range (Z.of_nat (Z.to_nat t))).
    { eapply (entry_range ipp _ c); [lia|]. unfold entry in *. by rewrite Nat2Z.id. }
    pose proof (law_delete _ _ (lists_law ipp (Z.of_nat (Z.to_nat t)) c Ht ltac:(unfold entry in *; by rewrite Nat2Z.id))) as Hdel.
    rewrite Hs in Hdel. by apply Hdel.
Qed.

Lemma wp_set_cur ipp t w (Q : option parser -> world D E -> Prop) :
  in_range t -> Q (entry ipp t) (w <| cur_parser := type <$> entry ipp t |>) ->
  wp (set_cur (get_parser_list g ipp) t) Q w.
Proof.
  intros Ht HQ. unfold set_cur, at_. wp1. unfold in_range in Ht. rewrite (proj2 (Z.ltb_ge t 0)) by lia.
  assert (exists o, get_parser_list g ipp !! Z.to_nat t = Some o) as [o Ho].
  { apply lookup_lt_is_Some_2. rewrite lists_len. unfold MAX, DPI_PARSER_MAX in *. lia. }
  eapply wp_lift; [done|]. repeat wp1. unfold entry in HQ. rewrite Ho in HQ. done.
Qed.

(** ** Counting the hired parsers *)

Fixpoint hired_below w (n : nat) : Z :=
  match n with O => 0 | S n => hired_below w n + (if bit w (Z.of_nat n) then 1 else 0) end.
(** Sealed, so that conversion does not unfold it. *)
Definition hired_aux : seal (fun w => hired_below w MAX).
Proof. by eexists. Qed.
Definition hired : world D E -> Z := hired_aux.(unseal).
Lemma hired_unseal w : hired w = hired_below w MAX.
Proof. unfold hired. by rewrite hired_aux.(seal_eq). Qed.

Lemma hired_range w n : 0 <= hired_below w n <= Z.of_nat n.
Proof. induction n as [|n IH]; cbn [hired_below]; [lia|]. destruct (bit _ _); lia. Qed.
Lemma hired_ext w v n : (forall u, 0 <= u < Z.of_nat n -> bit v u = bit w u) -> hired_below v n = hired_below w n.
Proof.
  induction n as [|n IH]; intros H; [done|]. cbn [hired_below]. rewrite IH by (intros; apply H; lia).
  by rewrite H by lia.
Qed.
Lemma hired_none w n : hired_below w n = 0 <-> forall u, 0 <= u < Z.of_nat n -> bit w u = false.
Proof.
  induction n as [|n IH]; cbn [hired_below]; [split; [lia|done]|].
  pose proof (hired_range w n). destruct (bit w (Z.of_nat n)) eqn:Eb; split.
  - lia.
  - intros Hu. rewrite Hu in Eb by lia. done.
  - intros H0 u Hu. destruct (decide (u = Z.of_nat n)) as [->|]; [done|]. apply IH; lia.
  - intros Hu. rewrite Z.add_0_r. apply IH. intros u ?. apply Hu. lia.
Qed.
Lemma hired_two w n u u' : 0 <= u < Z.of_nat n -> 0 <= u' < Z.of_nat n -> u <> u' ->
  bit w u = true -> bit w u' = true -> 2 <= hired_below w n.
Proof.
  assert (H1 : forall n u, 0 <= u < Z.of_nat n -> bit w u = true -> 1 <= hired_below w n).
  { intros m x Hx Hbx. pose proof (hired_range w m). destruct (Z.eq_dec (hired_below w m) 0) as [Hz|]; [|lia].
    rewrite (proj1 (hired_none w m) Hz x Hx) in Hbx. done. }
  induction n as [|n IH]; intros Hu Hu' Hne Hb Hb'; [lia|]. cbn [hired_below].
  destruct (decide (u = Z.of_nat n)) as [->|]; [rewrite Hb; pose proof (H1 n u' ltac:(lia) Hb'); lia|].
  destruct (decide (u' = Z.of_nat n)) as [->|]; [rewrite Hb'; pose proof (H1 n u ltac:(lia) Hb); lia|].
  specialize (IH ltac:(lia) ltac:(lia) Hne Hb Hb'). destruct (bit w (Z.of_nat n)); lia.
Qed.
Lemma hired_one w n u : hired_below w n = 1 -> 0 <= u < Z.of_nat n -> bit w u = true ->
  forall x, 0 <= x < Z.of_nat n -> bit w x = (x =? u).
Proof.
  intros H1 Hu Hb x Hx. destruct (Z.eqb_spec x u) as [->|Hne]; [done|]. destruct (bit w x) eqn:Ex; [|done].
  pose proof (hired_two w n x u Hx Hu Hne Ex Hb). lia.
Qed.
Lemma range_nat t : in_range t <-> 0 <= t < Z.of_nat MAX.
Proof. unfold in_range, MAX, DPI_PARSER_MAX. lia. Qed.

(** ** States between packets *)

(** What the framework leaves alone, whichever parser is current. *)
Definition fr w v : Prop := frame_of (v <| cur_parser := None |>) = frame_of (w <| cur_parser := None |>).
Lemma fr_refl w : fr w w.
Proof. done. Qed.
Lemma fr_trans w1 w2 w3 : fr w1 w2 -> fr w2 w3 -> fr w1 w3.
Proof. unfold fr. congruence. Qed.
Lemma fr_frame w v : frame_of v = frame_of w -> fr w v.
Proof. intros (? & ? & ? & ? & ? & ? & ? & ? & ? & ?)%frame_inv. by apply frame_inv. Qed.
Lemma fr_cur w x : fr w (w <| cur_parser := x |>).
Proof. done. Qed.
Lemma fr_wing w v : fr w v -> this_wing v = this_wing w.
Proof. intros H. by apply frame_wing in H. Qed.
Lemma fr_buffer w v : fr w v -> pkt_buffer v = pkt_buffer w.
Proof. intros H. by apply frame_buffer in H. Qed.
Lemma fr_inv w v : fr w v ->
  s_ip_proto (sess v) = s_ip_proto (sess w) /\ ip_proto (pk v) = ip_proto (pk w) /\
  assembled v = assembled w /\
  sess_flag DPI_SESS_FLAG_SKIP_PARSER v = sess_flag DPI_SESS_FLAG_SKIP_PARSER w /\
  sess_flag DPI_SESS_FLAG_LAST_PARSER v = sess_flag DPI_SESS_FLAG_LAST_PARSER w /\
  sess_flag DPI_SESS_FLAG_MID_STREAM v = sess_flag DPI_SESS_FLAG_MID_STREAM w.
Proof. intros (_ & _ & _ & _ & _ & ? & ? & _ & (_ & ? & _) & ? & ? & _ & ?)%frame_inv. by split_and!. Qed.

Definition mid_session : world D E -> bool := sess_flag DPI_SESS_FLAG_MID_STREAM.
Definition skipped : world D E -> bool := sess_flag DPI_SESS_FLAG_SKIP_PARSER.

(** A hired parser can be called: it has the function for the kind of session. *)
Definition callable w : Prop := forall t, in_range t -> bit w t = true ->
  exists c, entry (s_ip_proto (sess w)) t = Some c /\ is_Some (parse c) /\ (mid_session w = true -> is_Some (midstream c)).
(** Only hired parsers hold data. *)
Definition clean w : Prop := forall t, in_range t -> bit w t = false -> datum w t = NULL.
(** A session with one parser left: that one is hired and no other is. *)
Definition alone w : Prop := skipped w = false -> only_flag w = true ->
  forall t, in_range t -> bit w t = (t =? only_parser (sess w)).

Record good w : Prop := {
  good_inv : inv w; good_callable : callable w; good_alone : alone w; good_clean : mid_session w = false -> clean w }.

(** A session nobody has looked at yet. *)
Record fresh w : Prop := {
  fresh_inv : inv w; fresh_only : only_flag w = false; fresh_skip : skipped w = false;
  fresh_bits : forall t, in_range t -> bit w t = false; fresh_data : forall t, in_range t -> datum w t = NULL }.

Lemma only_flag_or w : only_flag w = is_final w || sess_flag DPI_SESS_FLAG_LAST_PARSER w.
Proof.
  unfold only_flag, is_final, sess_flag, FLAGS_TEST, DPI_SESS_FLAG_ONLY_PARSER. rewrite Z.land_lor_distr_r, <- negb_andb.
  f_equal. apply eq_true_iff_eq. rewrite andb_true_iff, !Z.eqb_eq. apply Z.lor_eq_0_iff.
Qed.

(** ** Recruiting *)

Definition recruited w k v : Prop :=
  inv v /\ fr w v /\ only_flag v = only_flag w /\ callable v /\ clean v /\
  forall u, in_range u -> k <= u -> bit v u = false.

Lemma recruit_one w k v c (f : M D E unit) :
  recruited w k v -> in_range k -> entry (s_ip_proto (sess v)) k = Some c ->
  starts_well ext_ok shape dl slack (s_ip_proto (sess v)) (type c) (delete_data c) f -> is_Some (parse c) -> (mid_session v = true -> is_Some (midstream c)) ->
  wp f (fun _ => recruited w (k + 1)) (v <| cur_parser := Some (type c) |>).
Proof.
  intros (I & F & Of & Ca & Cl & Hb) Hk Hc Hf Hp Hm. pose proof (lists_type _ _ _ Hk Hc) as Ht. rewrite Ht in *.
  eapply wp_mono; [apply Hf|].
  - by apply inv_cur.
  - done.
  - done.
  - unfold slot. cbn. rewrite slot_entry, Hc. done.
  - apply Hb; [done|lia].
  - apply Cl; [done|]. apply Hb; [done|lia].
  - intros [] v' [(I' & Q' & O') Hd']. apply quiet_inv in Q' as (F' & N' & _).
    assert (Fv : fr v v') by (apply fr_frame in F'; by apply F').
    change (is_final v' = is_final v) in N'. clear F'.
    assert (O : forall u, in_range u -> u <> k -> bit v' u = bit v u /\ datum v' u = datum v u) by exact O'. clear O'.
    pose proof (fr_inv _ _ Fv) as (E1 & _ & _ & _ & E5 & E6).
    split_and!; [done|by eapply fr_trans| | | |].
    + rewrite <- Of, !only_flag_or. by rewrite E5, N'.
    + intros u Hu Hbu. rewrite E1. unfold mid_session. rewrite E6. destruct (decide (u = k)) as [->|Hne]; [by exists c|].
      apply Ca; [done|]. by destruct (O u Hu Hne) as [<- _].
    + intros u Hu Hbu. destruct (decide (u = k)) as [->|Hne]; [by apply Hd'|]. destruct (O u Hu Hne) as [E7 ->].
      apply Cl; congruence.
    + intros u Hu Huk. destruct (O u Hu ltac:(lia)) as [-> _]. apply (Hb u Hu). lia.
Qed.

Lemma recruited_skip w k v x : recruited w k v -> in_range k -> recruited w (k + 1) (v <| cur_parser := x |>).
Proof.
  intros (I & F & Of & Ca & Cl & Hb) Hk. split_and!; [by apply inv_cur|done..|]. intros u Hu Huk. apply Hb; [done|lia].
Qed.

Lemma fresh_recruited w : fresh w -> recruited w 0 w.
Proof.
  intros [I Of Sk Hb Hd]. split_and!; try done; try by auto.
  - intros t Ht Hbt. by rewrite Hb in Hbt.
  - intros t Ht _. by apply Hd.
Qed.
Lemma recruited_good w v : fresh w -> recruited w (Z.of_nat MAX) v -> good v /\ fr w v /\ only_flag v = false.
Proof.
  intros Fw (I & F & Of & Ca & Cl & _). split_and!; [|done|by rewrite Of; apply Fw]. split; [done|done| |done].
  intros _ H. rewrite Of, (fresh_only _ Fw) in H. done.
Qed.

Lemma recruit_good w : fresh w -> mid_session w = false ->
  wp (dpi_recruit_parser g) (fun _ v => good v /\ fr w v /\ only_flag v = false) w.
Proof.
  intros Fw Hm. unfold dpi_recruit_parser. wp1. wp1. rewrite (inv_proto _ _ _ _ _ (fresh_inv _ Fw)).
  eapply wp_mono; [apply (wp_for (recruited w)) with (w := w)|].
  - by apply fresh_recruited.
  - intros k v Hk Hv. assert (Hr : in_range k) by (apply range_nat; lia). pose proof Hv as (_ & F & _).
    pose proof (fr_inv _ _ F) as (E1 & _ & _ & _ & _ & E6). wp1. apply wp_set_cur; [done|].
    rewrite <- E1. destruct (entry (s_ip_proto (sess v)) k) as [c|] eqn:Ec; [|by apply recruited_skip].
    pose proof (lists_law _ _ _ Hr Ec) as []. cbn [option_map fmap option_fmap].
    destruct (new_session c) as [f|] eqn:Ef; [|by apply recruited_skip]. cbn [default].
    eapply recruit_one; [done..| |]; [apply law_has_parse0; by left|]. unfold mid_session in *. congruence.
  - intros [] v Hv. by apply recruited_good.
Qed.
Lemma mid_recruit_good w : fresh w ->
  wp (dpi_midstream_recruit_parser g) (fun _ v => good v /\ fr w v /\ only_flag v = false) w.
Proof.
  intros Fw. unfold dpi_midstream_recruit_parser. wp1. wp1. rewrite (inv_proto _ _ _ _ _ (fresh_inv _ Fw)).
  eapply wp_mono; [apply (wp_for (recruited w)) with (w := w)|].
  - by apply fresh_recruited.
  - intros k v Hk Hv. assert (Hr : in_range k) by (apply range_nat; lia). pose proof Hv as (_ & F & _).
    pose proof (fr_inv _ _ F) as (E1 & _). wp1. apply wp_set_cur; [done|].
    rewrite <- E1. destruct (entry (s_ip_proto (sess v)) k) as [c|] eqn:Ec; [|by apply recruited_skip].
    pose proof (lists_law _ _ _ Hr Ec) as []. cbn [option_map fmap option_fmap].
    destruct (midstream c) as [m|] eqn:Em; [|by apply recruited_skip].
    destruct (new_mid_sess c) as [f|] eqn:Ef; [|by apply recruited_skip].
    eapply recruit_one; [done..| |]; [apply law_has_parse0; by right|by rewrite Em].
  - intros [] v Hv. by apply recruited_good.
Qed.

(** ** The walk through the parsers

    [walked w k last v]: from [w], the parsers below [k] have had their turn.  [but]
    excepts the parser whose turn it is from [clean]. *)
Definition clean_but (but : option Z) w : Prop :=
  forall t, in_range t -> but <> Some t -> bit w t = false -> datum w t = NULL.
Record walked_but (but : option Z) w k last v : Prop := {
  wk_inv : inv v; wk_fr : fr w v; wk_callable : callable v; wk_clean : mid_session w = false -> clean_but but v;
  wk_nohire : forall u, in_range u -> bit v u = true -> bit w u = true;
  wk_left : parser_left v = hired_below v (Z.to_nat k);
  wk_last : 1 <= parser_left v -> 0 <= last < k /\ bit v last = true;
  wk_final : is_final v = true -> forall u, in_range u -> u <> only_parser (sess v) -> bit v u = false;
  wk_asm : mid_session w = false -> parser_left v = 0 -> p_asm_seq v = next_seq (this_wing w);
  wk_ready : is_final v = true -> sess_flag DPI_SESS_FLAG_POLICY_APP_READY v = true \/ is_final w = true }.
Abbreviation walked := (walked_but None).

Lemma walked_cur w k last v x : walked w k last v -> walked w k last (v <| cur_parser := x |>).
Proof. intros []. split; try done; [by apply inv_cur|]. cbn. rewrite wk_left0. by apply hired_ext. Qed.
Lemma inv_reset v : inv v -> inv (v <| parser_asm_seq := w_asm_seq (this_wing v) |>).
Proof.
  intros [[] [] ? ?]. split; [|by split|done..]. split; try done. cbn.
  destruct wt_sess0 as [? ? ? ? ? ? ? [] []]. unfold this_wing. by destruct (dpi_is_client_pkt _).
Qed.
Lemma walked_reset w k last v : walked w k last v ->
  walked w k last (v <| parser_asm_seq := w_asm_seq (this_wing v) |>).
Proof. intros []. split; try done; [by apply inv_reset|]. cbn. rewrite wk_left0. by apply hired_ext. Qed.

Lemma walked_skip w k last v : walked w k last v -> in_range k -> bit v k = false -> walked w (k + 1) last v.
Proof.
  intros [] Hk Hb. split; try done.
  - unfold in_range in Hk. replace (Z.to_nat (k + 1)) with (S (Z.to_nat k)) by lia. cbn [hired_below].
    rewrite Z2Nat.id by lia. rewrite Hb. lia.
  - intros H. destruct (wk_last0 H). split; [lia|done].
Qed.

(** A parser's turn *)
Lemma walked_parse w k last v c (f : M D E unit) :
  walked w k last v -> in_range k -> entry (s_ip_proto (sess v)) k = Some c -> cur_parser v = Some k ->
  runs_well ext_ok shape dl slack (s_ip_proto (sess v)) k (delete_data c) f -> 0 < b_len (pkt_buffer v) ->
  wp f (fun _ => walked_but (Some k) w k last) v.
Proof.
  intros W Hk Hc Hcur Hf Hlen. pose proof W as [I F Ca Cl Nh Lf La Fi As Re].
  eapply wp_mono; [apply (Hf v); [done|done|done| |done]|].
  { unfold slot. rewrite slot_entry, Hc. done. }
  intros [] v' [Hs Hbk]. assert (Fv : fr v v') by (apply fr_frame; by eapply (step_frame ext_ok shape dl slack k); split).
  pose proof (fr_inv _ _ Fv) as (E1 & _ & _ & _ & _ & E6).
  assert (Ca' : (forall u, in_range u -> bit v' u = true -> bit v u = true) -> callable v').
  { intros Hn u Hu Hbu. rewrite E1. unfold mid_session. rewrite E6. apply Ca; auto. }
  unfold in_range in Hk. destruct Hs as [(I' & Q' & O')|(I' & F' & N & Y & On & L & P & G & R)].
  - apply quiet_inv in Q' as (_ & E7 & E8 & E9 & E10 & E11).
    assert (Nh' : forall u, in_range u -> bit v' u = true -> bit v u = true).
    { intros u Hu. destruct (decide (u = k)) as [->|Hne]; [done|]. by destruct (O' u Hu Hne) as [-> _]. }
    split; try done; [by eapply fr_trans|by apply Ca'| |by auto|..].
    + intros Hm u Hu Hne. destruct (O' u Hu ltac:(congruence)) as [-> ->]. by apply Cl.
    + rewrite E10, Lf. apply hired_ext. intros u Hu. symmetry. apply O'; [unfold in_range; lia|lia].
    + rewrite E10. intros H. destruct (La H) as [? Hb]. split; [done|].
      destruct (O' last) as [-> _]; [unfold in_range; lia|lia|done].
    + rewrite E7, E9. intros HF u Hu Hne. specialize (Fi HF u Hu Hne). destruct (bit v' u) eqn:Eb; [|done].
      rewrite (Nh' u Hu Eb) in Fi. done.
    + rewrite E10, E11. auto.
    + rewrite E7, E8. auto.
  - assert (Nh' : forall u, in_range u -> bit v' u = true -> bit v u = true).
    { intros u Hu Hbu. destruct (decide (u = k)) as [->|Hne]; [by apply Hbk|]. destruct (G u Hu Hne). congruence. }
    split; try done; [by eapply fr_trans|by apply Ca'| |by auto|..].
    + intros Hm u Hu Hne _. destruct (G u Hu ltac:(congruence)) as [_ ->]. destruct (bit v u) eqn:Eb; [done|]. by apply Cl.
    + rewrite L. symmetry. apply hired_none. intros u Hu. apply G; [unfold in_range; lia|lia].
    + lia.
    + intros _ u Hu. rewrite On. intros Hne. by apply G.
    + intros _ _. rewrite P. f_equal. by apply fr_wing.
    + auto.
Qed.

(** The parser stays: it is counted. *)
Lemma walked_stays w k last v :
  walked_but (Some k) w k last v -> in_range k -> bit v k = true ->
  walked w (k + 1) k (v <| parser_left ::= fun n => u8 (n + 1) |>).
Proof.
  intros [I F Ca Cl Nh Lf La Fi As Re] Hk Hb. pose proof (hired_range v (Z.to_nat k)). unfold in_range, DPI_PARSER_MAX in Hk.
  assert (E8 : u8 (parser_left v + 1) = parser_left v + 1) by (apply u8_id; unfold is_u8; lia).
  split; try done.
  - destruct I as [[] [] ? ?]. split; [|by split|done..]. split; try done. cbn. apply u8_range.
  - intros Hm u Hu _ Hbu. change (bit v u = false) in Hbu. apply Cl; [done|done| |done]. intros [= ->]. congruence.
  - cbn. rewrite E8, Lf. replace (Z.to_nat (k + 1)) with (S (Z.to_nat k)) by lia. cbn [hired_below].
    rewrite Z2Nat.id by lia. change (bit _ k) with (bit v k). rewrite Hb. f_equal. by apply hired_ext.
  - intros _. split; [lia|done].
  - intros _. cbn. rewrite E8. lia.
Qed.
Lemma walked_cache w k last v : walked w k last v -> 1 <= parser_left v ->
  walked w k last (if u32_lt (parser_asm_seq v) (p_asm_seq v) then v <| p_asm_seq := parser_asm_seq v |> else v).
Proof.
  intros W H1. destruct (u32_lt _ _); [|done]. destruct W as [I F Ca Cl Nh Lf La Fi As Re]. split; try done.
  - destruct I as [[] [] ? ?]. by split; [split|split|..].
  - cbn. rewrite Lf. by apply hired_ext.
  - intros _. cbn. lia.
Qed.

(** The parser leaves: its data is deleted. *)
Lemma walked_leaves w k last v c :
  walked_but (Some k) w k last v -> in_range k -> bit v k = false -> entry (s_ip_proto (sess v)) k = Some c ->
  wp (dpi_delete_parser_data (type c) (delete_data c)) (fun _ => walked w (k + 1) last) v.
Proof.
  intros [I F Ca Cl Nh Lf La Fi As Re] Hk Hb Hc. pose proof (lists_type _ _ _ Hk Hc) as Ht. rewrite Ht.
  eapply wp_delete_data; [apply deleters_ok|done|done|unfold slot; by rewrite slot_entry, Hc|].
  intros v' I' Q' B' D' _ _. pose proof Q' as (F' & N' & R' & On' & L' & P')%quiet_inv.
  assert (Fv : fr v v') by by apply fr_frame. pose proof (fr_inv _ _ Fv) as (E1 & _ & _ & _ & _ & E6).
  apply walked_skip; [|done|by rewrite B']. split; try done.
  - by eapply fr_trans.
  - intros u Hu. rewrite B', E1. unfold mid_session. rewrite E6. by apply Ca.
  - intros Hm u Hu _. rewrite B', D' by done. destruct (Z.eqb_spec u k); [done|]. apply Cl; [done|done|congruence].
  - intros u Hu. rewrite B'. auto.
  - rewrite L', Lf. by apply hired_ext.
  - rewrite L'. intros H. destruct (La H). by rewrite B'.
  - rewrite N', On'. intros HF u Hu Hne. rewrite B'. by apply Fi.
  - rewrite L', P'. auto.
  - rewrite N', R'. auto.
Qed.

Lemma hired_atmost w n x : (forall u, 0 <= u < Z.of_nat n -> u <> x -> bit w u = false) -> hired_below w n <= 1.
Proof.
  induction n as [|n IH]; intros H; cbn [hired_below]; [lia|].
  destruct (decide (Z.of_nat n = x)) as [<-|Hne].
  - rewrite (proj2 (hired_none w n)); [destruct (bit _ _); lia|]. intros u Hu. apply H; lia.
  - rewrite (H (Z.of_nat n)) by lia. specialize (IH ltac:(intros; apply H; lia)). lia.
Qed.

Lemma hired_bound w : 0 <= hired w <= 20.
Proof. rewrite hired_unseal. change 20 with (Z.of_nat MAX). apply hired_range. Qed.
Lemma hired_same w v : (forall u, bit v u = bit w u) -> hired v = hired w.
Proof. intros H. rewrite !hired_unseal. apply hired_ext. auto. Qed.
Lemma hired_single w u : hired w = 1 -> in_range u -> bit w u = true -> forall x, in_range x -> bit w x = (x =? u).
Proof. rewrite hired_unseal. exact (fun H Hu Hb x Hx => hired_one w MAX u H (proj1 (range_nat u) Hu) Hb x (proj1 (range_nat x) Hx)). Qed.
Lemma hired_le1 w x : (forall u, in_range u -> u <> x -> bit w u = false) -> hired w <= 1.
Proof. rewrite hired_unseal. exact (fun H => hired_atmost w MAX x (fun u Hu => H u (proj2 (range_nat u) Hu))). Qed.
Lemma hired_zero w : hired w = 0 <-> forall u, in_range u -> bit w u = false.
Proof.
  rewrite hired_unseal. transitivity (forall u, 0 <= u < Z.of_nat MAX -> bit w u = false); [exact (hired_none w MAX)|].
  split; intros H u Hu; apply H; by apply range_nat.
Qed.
Lemma hired_all w : hired_below w (Z.to_nat (Z.of_nat MAX)) = hired w.
Proof. rewrite hired_unseal, Nat2Z.id. reflexivity. Qed.
#[local] Opaque MAX.

Lemma u16_last : is_u16 DPI_SESS_FLAG_LAST_PARSER.
Proof. done. Qed.

(** ** The end of a walk *)

(** The parsers that are left decide the flags. *)
Record outcome w v : Prop := {
  out_skip : skipped v = true <-> hired v = 0;
  out_only : skipped v = false -> (only_flag v = true <-> hired v = 1);
  out_nohire : forall u, in_range u -> bit v u = true -> bit w u = true }.
(** What a packet leaves alone. *)
Definition keeps w v : Prop :=
  raw v = raw w /\ asm_pkt v = asm_pkt w /\ on_asm v = on_asm w /\ s_ip_proto (sess v) = s_ip_proto (sess w) /\
  mid_session v = mid_session w /\ assembled v = assembled w /\
  pkt_flag DPI_PKT_FLAG_SKIP_PARSER v = pkt_flag DPI_PKT_FLAG_SKIP_PARSER w.
Lemma fr_keeps w v : fr w v -> keeps w v.
Proof. intros (? & ? & ? & _ & _ & ? & ? & _ & (_ & ? & _ & ?) & _ & _ & _ & ?)%frame_inv. by split_and!. Qed.
Lemma bits_kept_trans w1 w2 w3 : keeps w1 w2 -> keeps w2 w3 -> keeps w1 w3.
Proof.
  intros (? & ? & ? & ? & ? & ? & ?) (? & ? & ? & ? & ? & ? & ?). split_and!; congruence.
Qed.

Lemma flag_same f h (x : world D E) : Z.land f h = 0 ->
  sess_flag h (x <| sess ::= fun s => s <| s_flags ::= fun y => FLAGS_SET y f |> |>) = sess_flag h x.
Proof. intros H. unfold sess_flag. cbn. rewrite FLAGS_TEST_SET. unfold FLAGS_TEST at 2. rewrite H. apply orb_false_r. Qed.
Lemma flag_set f h (x : world D E) : Z.land f h <> 0 ->
  sess_flag h (x <| sess ::= fun s => s <| s_flags ::= fun y => FLAGS_SET y f |> |>) = true.
Proof. intros H. unfold sess_flag. cbn. rewrite FLAGS_TEST_SET. unfold FLAGS_TEST at 2. by rewrite (proj2 (Z.eqb_neq _ 0)), orb_true_r. Qed.

Lemma good_flags f v :
  is_u16 f -> inv v -> callable v -> (mid_session v = false -> clean v) -> Z.land f DPI_SESS_FLAG_MID_STREAM = 0 ->
  alone (v <| sess ::= fun s => s <| s_flags ::= fun x => FLAGS_SET x f |> |>) ->
  good (v <| sess ::= fun s => s <| s_flags ::= fun x => FLAGS_SET x f |> |>).
Proof.
  intros Hf I Ca Cl Hm Al.
  assert (Em : mid_session (v <| sess ::= fun s => s <| s_flags ::= fun x => FLAGS_SET x f |> |>) = mid_session v).
  { by apply flag_same. }
  split; [by apply inv_flag| |done|by rewrite Em]. intros t Ht Hb. rewrite Em. by apply Ca.
Qed.

Section wend.
Context (w : world D E) (last : Z) (ready : bool) (v : world D E).
Context (Of : only_flag w = false) (Sk : skipped w = false) (W : walked w (Z.of_nat MAX) last v).

Lemma wend_clean : mid_session v = false -> clean v.
Proof.
  destruct W. pose proof (fr_inv _ _ wk_fr0) as (_ & _ & _ & _ & _ & E6). unfold mid_session. rewrite E6.
  intros Hm t Ht. by apply wk_clean0.
Qed.
Lemma wend_left : parser_left v = hired v.
Proof. rewrite (wk_left _ _ _ _ _ W). apply hired_all. Qed.
Lemma wend_flags : skipped v = false /\ sess_flag DPI_SESS_FLAG_LAST_PARSER v = false.
Proof.
  destruct W. pose proof (fr_inv _ _ wk_fr0) as (_ & _ & _ & E4 & E5 & _). unfold skipped in *. rewrite E4, E5. split; [done|].
  rewrite only_flag_or in Of. by apply orb_false_iff in Of as [_ ->].
Qed.


Lemma wend_good : wp (walk_end ready last) (fun _ v' => good v' /\ outcome w v' /\ keeps w v' /\
  (p_asm_seq v' = p_asm_seq v /\ forall u, bit v' u = bit v u) /\ this_wing v' = this_wing v /\
  (ready = true -> skipped v' = true -> sess_flag DPI_SESS_FLAG_POLICY_APP_READY v' = true)) v.
Proof.
  pose proof wend_clean as Cl. pose proof wend_left as L. pose proof wend_flags as [Skv Lav].
  destruct W as [I F Ca _ Nh _ La Fi _ _]. pose proof (fr_keeps _ _ F) as K. unfold walk_end. wp1. wp1. rewrite L in *.
  pose proof (hired_bound v) as Hr.
  destruct (Z.eqb_spec (hired v) 0) as [H0|H0].
  - assert (HG : forall f, Z.land f DPI_SESS_FLAG_MID_STREAM = 0 -> Z.land f DPI_SESS_FLAG_SKIP_PARSER <> 0 -> is_u16 f ->
      let v' := v <| sess ::= fun s => s <| s_flags ::= fun x => FLAGS_SET x f |> |> in
      good v' /\ outcome w v' /\ keeps w v').
    { intros f Hm Hs Hf v'. assert (Sv : skipped v' = true) by by apply flag_set. split_and!.
      - apply good_flags; try done. intros Hc. fold v' in Hc. congruence.
      - split; [|congruence|done]. rewrite Sv. split; [intros _|done]. rewrite <- H0. by apply hired_same.
      - destruct K as (? & ? & ? & ? & K5 & ? & ?). split_and!; try done. etransitivity; [by apply flag_same|done]. }
    destruct ready; repeat wp1.
    + destruct (HG (Z.lor DPI_SESS_FLAG_SKIP_PARSER DPI_SESS_FLAG_POLICY_APP_READY)) as (G & O & K'); [done..|].
      assert (Ew : forall s, s <| s_flags ::= fun x => FLAGS_SET x DPI_SESS_FLAG_SKIP_PARSER |>
        <| s_flags ::= fun x => FLAGS_SET x DPI_SESS_FLAG_POLICY_APP_READY |> =
        s <| s_flags ::= fun x => FLAGS_SET x (Z.lor DPI_SESS_FLAG_SKIP_PARSER DPI_SESS_FLAG_POLICY_APP_READY) |>).
      { intros []. unfold FLAGS_SET. cbn. f_equal. by rewrite Z.lor_assoc. }
      match goal with |- context [good ?X] => replace X with (v <| sess ::= fun s => s <| s_flags ::= fun x => FLAGS_SET x (Z.lor DPI_SESS_FLAG_SKIP_PARSER DPI_SESS_FLAG_POLICY_APP_READY) |> |>) end.
      2:{ destruct v. cbn. f_equal. symmetry. apply Ew. }
      split; [|split; [|split; [|split; [by split|split; [reflexivity|]]]]]; [done..|]. intros _ _. by apply flag_set.
    + destruct (HG DPI_SESS_FLAG_SKIP_PARSER) as (G & O & K'); [done..|].
      split; [|split; [|split; [|split; [by split|split; [reflexivity|]]]]]; done.
  - destruct (Z.eqb_spec (hired v) 1) as [H1|H1].
    + destruct (La ltac:(lia)) as [Hl Hbl]. repeat wp1.
      assert (Hl8 : u8 last = last) by (apply u8_id; apply range_nat in Hl; unfold is_u8, in_range, DPI_PARSER_MAX in *; lia).
      set (v' := v <| sess ::= _ |> <| sess ::= _ |>).
      assert (B' : forall t, in_range t -> bit v' t = (t =? last)).
      { intros t Ht. change (bit v' t) with (bit v t). by apply (hired_single v last). }
      assert (Sv : skipped v' = false) by (etransitivity; [by apply (flag_same DPI_SESS_FLAG_LAST_PARSER)|done]).
      assert (Ov : only_flag v' = true) by (by apply (flag_set DPI_SESS_FLAG_LAST_PARSER)).
      assert (Mv : mid_session v' = mid_session v) by (by apply (flag_same DPI_SESS_FLAG_LAST_PARSER)).
      assert (Hv : hired v' = hired v) by by apply hired_same.
      split; [|split; [|split; [|split; [by split|split; [reflexivity|]]]]].
      * split; [|intros t Ht Hb; rewrite Mv; by apply Ca| |by rewrite Mv].
        -- unfold v'. rewrite Hl8. apply inv_only; [apply inv_flag; [exact I|exact u16_last]|exact (proj2 (range_nat last) Hl)].
        -- intros _ _ t Ht. rewrite B' by done. cbn. by rewrite Hl8.
      * split; [|intros _; rewrite Ov, Hv; by split|done]. rewrite Sv, Hv. by split.
      * destruct K as (? & ? & ? & ? & K5 & ? & ?). split_and!; try done. congruence.
      * intros _. congruence.
    + wp1. assert (Fn : is_final v = false).
      { destruct (is_final v) eqn:Ef; [|done]. exfalso.
        assert (hired v <= 1); [|lia]. apply hired_le1 with (only_parser (sess v)). auto. }
      assert (Ov : only_flag v = false) by (rewrite only_flag_or, Fn; done).
      split; [|split; [|split; [|split; [by split|split; [reflexivity|]]]]]; [..|exact K|].
      * split; [done|done| |done]. intros _. congruence.
      * split; [|intros _; rewrite Ov; split; [done|lia]|done]. rewrite Skv. split; [done|lia].
      * intros _. congruence.
Qed.
End wend.

(** ** dpi_proto_parser *)

(** Only the wings of the session differ. *)
Definition same_parsers w v : Prop :=
  s_flags (sess v) = s_flags (sess w) /\ only_parser (sess v) = only_parser (sess w) /\
  parser_bits (sess v) = parser_bits (sess w) /\ parser_data (sess v) = parser_data (sess w) /\
  s_ip_proto (sess v) = s_ip_proto (sess w) /\ heap v = heap w.
Lemma good_ext w v :
  good w -> same_parsers w v -> wt slack v -> ext_ok (ext v) -> ip_proto (pk v) = ip_proto (pk w) -> good v.
Proof.
  intros [[W O X P] Ca Al Cl] (Ef & Eo & Eb & Ed & Ei & Eh) Wv Xv Ep.
  assert (Hb : forall t, bit v t = bit w t) by (intros; unfold bit; by rewrite Eb).
  assert (Hd : forall t, datum v t = datum w t) by (intros; unfold datum; by rewrite Ed).
  assert (Hf : forall f, sess_flag f v = sess_flag f w) by (intros; unfold sess_flag; by rewrite Ef).
  split.
  - split; [done| |done|congruence]. by eapply own_ext.
  - intros t Ht. unfold mid_session. rewrite Hb, Hf, Ei. by apply Ca.
  - intros H1 H2 t Ht. unfold skipped, only_flag in *. rewrite Hf in H1, H2. rewrite Hb, Eo. by apply Al.
  - unfold mid_session. rewrite Hf. intros Hm t Ht. rewrite Hb, Hd. by apply Cl.
Qed.
Lemma good_cache (b : bool) v : good v -> good (if b then v <| p_asm_seq := parser_asm_seq v |> else v).
Proof.
  destruct b; [|done]. intros G. pose proof G as [[[] ? ? ?] _ _ _]. eapply good_ext; [exact G|done|by split|done|done].
Qed.
Lemma outcome_ext w v w' v' : outcome w v -> same_parsers w w' -> same_parsers v v' -> outcome w' v'.
Proof.
  intros [O1 O2 O3] (_ & _ & Eb & _) (Ef & _ & Eb' & _).
  assert (Hb : forall t, bit w' t = bit w t) by (intros; unfold bit; by rewrite Eb).
  assert (Hb' : forall t, bit v' t = bit v t) by (intros; unfold bit; by rewrite Eb').
  assert (Hf : forall f, sess_flag f v' = sess_flag f v) by (intros; unfold sess_flag; by rewrite Ef).
  split; unfold skipped, only_flag in *; rewrite ?Hf, ?(hired_same _ _ Hb'); [done..|]. intros u. rewrite Hb, Hb'. auto.
Qed.
Lemma wp_bit u (Q : bool -> world D E -> Prop) w : inv w -> in_range u -> Q (bit w u) w -> wp (bit_test u) Q w.
Proof.
  intros Ix Hu HQ. unfold bit_test. wp1. wp1. eapply wp_lift; [|exact HQ]. apply Bits.mask_test_spec.
  rewrite (capacity_bits slack) by apply Ix. unfold in_range, DPI_PARSER_MAX in Hu. lia.
Qed.

Lemma walk_one_ok w k last v :
  mid_session w = false -> 0 < b_len (pkt_buffer w) -> walked w k last v -> in_range k ->
  wp (walk_one g (s_ip_proto (sess w)) last k) (fun last' => walked w (k + 1) last') v.
Proof.
  intros Hm Hlen W Hk. pose proof (fr_inv _ _ (wk_fr _ _ _ _ _ W)) as (E1 & _). unfold walk_one. wp1.
  apply wp_set_cur; [done|]. rewrite <- E1.
  assert (Hno : entry (s_ip_proto (sess v)) k = None \/ (exists c, entry (s_ip_proto (sess v)) k = Some c /\ parse c = None) ->
    bit v k = false).
  { intros Hn. destruct (bit v k) eqn:Eb; [|done]. destruct (wk_callable _ _ _ _ _ W k Hk Eb) as (c & Hc & [f Hf] & _).
    destruct Hn as [Hn|(c' & Hc' & Hp)]; congruence. }
  destruct (entry (s_ip_proto (sess v)) k) as [c|] eqn:Ec; [|by wp1; apply walked_skip; [apply walked_cur| |apply Hno; left]].
  destruct (parse c) as [f|] eqn:Ef; [|by wp1; apply walked_skip; [apply walked_cur| |apply Hno; right; exists c]].
  pose proof (lists_type _ _ _ Hk Ec) as Ht. pose proof (law_parse _ _ (lists_law _ _ _ Hk Ec)) as Hp.
  rewrite Ef, Ht in Hp. cbn [holds_for] in Hp. cbn [fmap option_fmap option_map]. rewrite Ht.
  apply (walked_cur _ _ _ _ (Some k)) in W. set (v1 := v <| cur_parser := Some k |>) in *.
  wp1. apply wp_bit; [by destruct W|done|]. destruct (bit v1 k) eqn:Eb; [|by wp1; apply walked_skip].
  unfold reset_asm_seq. wp1. wp1. apply walked_reset in W. set (v2 := v1 <| parser_asm_seq := _ |>) in *.
  wp1. eapply wp_mono; [eapply walked_parse; [exact W|done|exact Ec|done|exact Hp|]|].
  { rewrite (fr_buffer _ _ (wk_fr _ _ _ _ _ W)). done. }
  intros [] v3 W3. pose proof (fr_inv _ _ (wk_fr _ _ _ _ _ W3)) as (E3 & _). wp1. apply wp_bit; [by destruct W3|done|].
  destruct (bit v3 k) eqn:Eb3.
  - unfold count_left, cache_asm_seq. repeat wp1. pose proof (walked_stays _ _ _ _ W3 Hk Eb3) as W4.
    apply walked_cache; [done|]. rewrite (wk_left _ _ _ _ _ W4). unfold in_range in Hk.
    replace (Z.to_nat (k + 1)) with (S (Z.to_nat k)) by lia. cbn [hired_below]. rewrite Z2Nat.id by lia.
    change (bit _ k) with (bit v3 k) at 1. rewrite Eb3. pose proof (hired_range (v3 <| parser_left ::= fun n => u8 (n + 1) |>) (Z.to_nat k)). lia.
  - wp1. rewrite <- Ht at 1. eapply wp_mono; [eapply walked_leaves; [exact W3|done|done|congruence]|]. intros [] v4 W4. by wp1.
Qed.

(** One parser is left and has had its turn. *)
Record only_ran t v v' : Prop := {
  or_inv : inv v'; or_fr : fr v v'; or_only : only_parser (sess v') = t; or_flag : only_flag v' = true;
  or_bits : forall u, in_range u -> u <> t -> bit v' u = false;
  or_nohire : bit v' t = true -> bit v t = true;
  or_clean : mid_session v = false -> forall u, in_range u -> u <> t -> datum v' u = NULL }.

Lemma only_run_ok t v c (f : M D E unit) :
  good v -> skipped v = false -> only_flag v = true -> only_parser (sess v) = t -> in_range t ->
  entry (s_ip_proto (sess v)) t = Some c -> runs_well ext_ok shape dl slack (s_ip_proto (sess v)) t (delete_data c) f -> 0 < b_len (pkt_buffer v) ->
  cur_parser v = Some t -> wp f (fun _ => only_ran t v) v.
Proof.
  intros [I Ca Al Cl] Sk Of Hon Ht Hc Hf Hlen Hcur.
  eapply wp_mono; [apply (Hf v); [done|done|done|unfold slot; by rewrite slot_entry, Hc|done]|].
  assert (Hb : forall u, in_range u -> u <> t -> bit v u = false).
  { intros u Hu Hne. rewrite (Al Sk Of u Hu), Hon. by apply Z.eqb_neq. }
  intros [] v' Hs. pose proof (step_frame _ _ _ _ _ _ _ Hs) as Fr. pose proof (fr_inv _ _ (fr_frame _ _ Fr)) as (_ & _ & _ & _ & E5 & _).
  destruct Hs as [[(I' & Q' & O')|(I' & F' & N & Y & On & L & P & G & R)] Hbt].
  - apply quiet_inv in Q' as (_ & E7 & E8 & E9 & _). split; try done; [by apply fr_frame|congruence| | |].
    + rewrite only_flag_or in *. congruence.
    + intros u Hu Hne. destruct (O' u Hu Hne) as [-> _]. auto.
    + intros Hm u Hu Hne. destruct (O' u Hu Hne) as [_ ->]. apply Cl; auto.
  - split; try done; [by apply fr_frame| | |].
    + rewrite only_flag_or, Y. done.
    + intros u Hu Hne. by apply G.
    + intros Hm u Hu Hne. destruct (G u Hu Hne) as [_ ->]. rewrite Hb by done. apply Cl; auto.
Qed.

Lemma only_ran_good t v v' : good v -> skipped v = false -> in_range t -> only_ran t v v' -> bit v' t = true -> good v' /\ outcome v v'.
Proof.
  intros [I Ca Al Cl] Sk Ht [I' F Hon Of Hb Nh Hc] Hbt. pose proof (fr_inv _ _ F) as (E1 & _ & _ & E4 & _ & E6).
  assert (Hall : forall u, in_range u -> bit v' u = (u =? t)).
  { intros u Hu. destruct (Z.eqb_spec u t) as [->|]; auto. }
  assert (H1 : hired v' = 1).
  { pose proof (hired_le1 v' t Hb). pose proof (hired_bound v'). destruct (Z.eq_dec (hired v') 0) as [Hz|]; [|lia].
    rewrite (proj1 (hired_zero v') Hz t Ht) in Hbt. done. }
  split; split; try done.
  - intros u Hu Hbu. rewrite Hall in Hbu by done. apply Z.eqb_eq in Hbu as ->. rewrite E1. unfold mid_session. rewrite E6.
    apply Ca; auto.
  - intros _ _ u Hu. by rewrite Hon, Hall.
  - unfold mid_session. rewrite E6. intros Hm u Hu Hbu. rewrite Hall in Hbu by done. apply Z.eqb_neq in Hbu. auto.
  - unfold skipped in *. rewrite E4, Sk, H1. split; [done|lia].
  - intros u Hu Hbu. rewrite Hall in Hbu by done. apply Z.eqb_eq in Hbu as ->. auto.
Qed.

(** The last parser has fired itself: the session is skipped from now on. *)
Definition skip_flags (ready : bool) (f : Z) : Z :=
  let f := FLAGS_UNSET 16 (FLAGS_SET f DPI_SESS_FLAG_SKIP_PARSER) DPI_SESS_FLAG_ONLY_PARSER in
  if ready then FLAGS_SET f DPI_SESS_FLAG_POLICY_APP_READY else f.
Lemma skip_flags_test ready f :
  FLAGS_TEST (skip_flags ready f) DPI_SESS_FLAG_SKIP_PARSER = true /\
  FLAGS_TEST (skip_flags ready f) DPI_SESS_FLAG_MID_STREAM = FLAGS_TEST f DPI_SESS_FLAG_MID_STREAM /\
  (ready = true -> FLAGS_TEST (skip_flags ready f) DPI_SESS_FLAG_POLICY_APP_READY = true) /\
  (is_u16 f -> is_u16 (skip_flags ready f)).
Proof.
  unfold skip_flags. destruct ready.
  - rewrite !FLAGS_TEST_SET, !FLAGS_TEST_UNSET, !FLAGS_TEST_SET. split_and!.
    + change (Z.land (_ mod _) DPI_SESS_FLAG_SKIP_PARSER) with 2. cbn. by rewrite orb_true_r.
    + change (Z.land (_ mod _) DPI_SESS_FLAG_MID_STREAM) with 64. cbn. by rewrite !orb_false_r.
    + by rewrite orb_true_r.
    + intros H. apply lor_u16; [|done]. apply land_u16, lor_u16; done.
  - rewrite !FLAGS_TEST_UNSET, !FLAGS_TEST_SET. split_and!.
    + change (Z.land (_ mod _) DPI_SESS_FLAG_SKIP_PARSER) with 2. cbn. by rewrite orb_true_r.
    + change (Z.land (_ mod _) DPI_SESS_FLAG_MID_STREAM) with 64. cbn. by rewrite !orb_false_r.
    + done.
    + intros H. apply land_u16, lor_u16; done.
Qed.

Lemma fired_good ready t v v' :
  callable v' -> inv v' -> (forall u, in_range u -> bit v' u = false) -> (mid_session v' = false -> clean v') ->
  let x := v' <| sess ::= fun s => s <| s_flags ::= skip_flags ready |> |> in
  in_range t -> good x /\ outcome v x.
Proof.
  intros Ca I Hb Cl x Ht. destruct (skip_flags_test ready (s_flags (sess v'))) as (H1 & H2 & _ & H4).
  assert (Sx : skipped x = true) by exact H1. assert (Mx : mid_session x = mid_session v') by exact H2.
  assert (Hx : hired x = 0) by (apply hired_zero; exact Hb).
  split; split.
  - destruct I as [W [] ? ?]. split; [|by split|done..]. apply wt_upd_sess; [done|].
    destruct (wt_sess _ _ W). split; try done. by apply H4.
  - intros u Hu Hbu. change (bit v' u = true) in Hbu. by rewrite Hb in Hbu.
  - congruence.
  - by rewrite Mx.
  - by rewrite Sx, Hx.
  - congruence.
  - intros u Hu Hbu. change (bit v' u = true) in Hbu. by rewrite Hb in Hbu.
Qed.

Lemma only_proto_ok v :
  good v -> skipped v = false -> only_flag v = true -> mid_session v = false -> 0 < b_len (pkt_buffer v) ->
  wp (only_proto g (s_ip_proto (sess v))) (fun _ v' => good v' /\ outcome v v' /\ keeps v v' /\
    (skipped v' = true -> sess_flag DPI_SESS_FLAG_POLICY_APP_READY v' = true)) v.
Proof.
  intros G Sk Of Hm Hlen. pose proof G as [I Ca Al Cl]. unfold only_proto. wp1. wp1. wp1.
  set (t := only_parser (sess v)). assert (Ht : in_range t) by apply (ok_only _ (wt_sess _ _ (inv_wt _ _ _ _ _ I))).
  assert (Hbt : bit v t = true) by (rewrite (Al Sk Of t Ht); apply Z.eqb_refl).
  destruct (Ca t Ht Hbt) as (c & Hc & [f Hf] & _). apply wp_set_cur; [done|]. rewrite Hc. cbn [fmap option_fmap option_map]. rewrite Hf.
  pose proof (lists_type _ _ _ Ht Hc) as Et. pose proof (law_parse _ _ (lists_law _ _ _ Ht Hc)) as Hp.
  rewrite Hf, Et in Hp. cbn [holds_for] in Hp. rewrite Et.
  unfold reset_asm_seq. wp1. wp1. wp1. match goal with |- wp _ _ ?W => set (v1 := W) end.
  assert (G1 : good v1).
  { eapply good_ext; [exact G|done| |exact (inv_ext _ _ _ _ _ I)|done].
    apply (inv_wt ext_ok shape dl). apply (inv_reset (v <| cur_parser := Some t |>)), inv_cur. done. }
  eapply wp_mono; [eapply (only_run_ok t v1 c f); try done|]. intros [] v2 R.
  pose proof R as [I2 F2 On2 Of2 B2 Nh2 Cl2]. pose proof (fr_inv _ _ F2) as (E1 & _ & _ & E4 & _ & E6).
  pose proof (fr_keeps _ _ F2) as K2.
  wp1. wp1. wp1. rewrite On2. apply wp_bit; [done|done|]. destruct (bit v2 t) eqn:Eb; cbn [negb].
  - destruct (only_ran_good t v1 v2) as [G2 O2]; [done..|]. wp1. wp1. unfold cache_asm_seq. wp1.
    set (v3 := if u32_lt _ _ then _ else v2). assert (S3 : same_parsers v2 v3) by (unfold v3; destruct (u32_lt _ _); done).
    assert (S3v : skipped v3 = false).
    { transitivity (skipped v2); [unfold v3; by destruct (u32_lt _ _)|]. exact (eq_trans E4 Sk). }
    split; [|split; [|split]].
    + by apply good_cache.
    + eapply outcome_ext; [exact O2|done|done].
    + eapply bits_kept_trans; [exact K2|]. unfold v3. destruct (u32_lt _ _); by split_and!.
    + congruence.
  - assert (Hall : forall u, in_range u -> bit v2 u = false).
    { intros u Hu. destruct (decide (u = t)) as [->|]; auto. }
    wp1. wp1. eapply wp_delete_data; [apply deleters_ok|exact I2|done|unfold slot; rewrite E1, slot_entry; change (s_ip_proto (sess v1)) with (s_ip_proto (sess v)); by rewrite Hc|].
    intros v3 I3 Q3 B3 D3 _ _. pose proof (fr_frame v2 v3 ltac:(by apply quiet_inv in Q3 as [? _])) as F3.
    pose proof (fr_inv _ _ F3) as (E31 & _ & _ & E34 & _ & E36). repeat wp1. unfold cache_asm_seq. wp1.
    set (v4 := v3 <| sess ::= _ |> <| sess ::= _ |> <| sess ::= _ |>).
    set (x := v3 <| sess ::= fun s => s <| s_flags ::= skip_flags true |> |>). assert (v4 = x) as -> by done.
    destruct (fired_good true t v1 v3) as [G4 O4]; try done.
    { intros u Hu Hbu. by rewrite B3, Hall in Hbu. }
    { intros u Hu. by rewrite B3, Hall. }
    { intros Hm3 u Hu _. rewrite D3 by done. destruct (Z.eqb_spec u t); [done|]. by apply Cl2. }
    destruct (skip_flags_test true (s_flags (sess v3))) as (_ & H2 & H3 & _).
    fold x in G4, O4. set (y := if u32_lt _ _ then _ else x).
    assert (Sy : same_parsers x y) by (unfold y; destruct (u32_lt _ _); done).
    split; [|split; [|split]].
    + by apply good_cache.
    + eapply outcome_ext; [exact O4|done|done].
    + eapply bits_kept_trans; [exact K2|]. eapply bits_kept_trans; [apply fr_keeps; exact F3|].
      unfold y; destruct (u32_lt _ _); (split_and!; [done..|exact H2|done|done]).
    + intros _. transitivity (sess_flag DPI_SESS_FLAG_POLICY_APP_READY x); [unfold y; by destruct (u32_lt _ _)|]. by apply H3.
Qed.

(** Setting p->pkt_buffer and p->asm_seq before the parsers run. *)
Lemma good_entry v b q : good v -> is_u32 q -> good (v <| on_asm := b |> <| p_asm_seq := q |>).
Proof. intros G Hq. pose proof G as [[[] ? ? ?] _ _ _]. eapply good_ext; [exact G|done|by split|done|done]. Qed.
Lemma good_wing v q b : good v -> is_u32 q ->
  good (v <| sess ::= fun s => if dpi_is_client_pkt (pk v) then s <| client ::= fun x => x <| w_asm_seq := q |> |>
                               else s <| server ::= fun x => x <| w_asm_seq := q |> |> |> <| on_asm := b |>).
Proof.
  intros G Hq. pose proof G as [[[[? ? ? ? ? ? ? [] []]] ? ? ?] _ _ _].
  eapply good_ext; [exact G|by destruct (dpi_is_client_pkt _)| |done|done].
  split; try done. cbn. by destruct (dpi_is_client_pkt _).
Qed.
Lemma wing_next v : inv v -> is_u32 (next_seq (this_wing v)).
Proof. intros [[[? ? ? ? ? ? ? [] []]] ? ? ?]. unfold this_wing. by destruct (dpi_is_client_pkt _). Qed.

(** A packet with data: what dpi_proto_parser is called on. *)
Record packet_ok w : Prop := {
  po_buf : on_asm w = false; po_raw : 0 < b_len (raw w); po_asm : assembled w = true -> 0 < b_len (asm_pkt w) }.

Lemma walk_ok v :
  good v -> skipped v = false -> only_flag v = false -> mid_session v = false -> 0 < b_len (pkt_buffer v) ->
  p_asm_seq v = next_seq (this_wing v) ->
  wp (upd (fun w => w <| parser_left := 0 |>);; last ← for_acc MAX 0 0 (walk_one g (s_ip_proto (sess v))); walk_end true last)
    (fun _ v' => good v' /\ outcome v v' /\ keeps v v' /\
       (hired v' = 0 -> p_asm_seq v' = next_seq (this_wing v)) /\
       (skipped v' = true -> sess_flag DPI_SESS_FLAG_POLICY_APP_READY v' = true)) v.
Proof.
  intros G Sk Of Hm Hlen Hpa. pose proof G as [I Ca Al Cl]. wp1. wp1. set (v0 := v <| parser_left := 0 |>).
  assert (W0 : walked v 0 0 v0).
  { assert (I0 : inv v0) by (destruct I as [[] [] ? ?]; by split; [split|split|..]).
    rewrite only_flag_or in Of. apply orb_false_iff in Of as [Of _]. change (is_final v0 = false) in Of.
    split; [exact I0|done|exact Ca|intros _ t Ht _; exact (Cl Hm t Ht)|done|done|cbn; lia|congruence|done|congruence]. }
  wp1. eapply wp_mono; [apply (wp_for_acc (fun last k x => walked v k last x)) with (w := v0); [exact W0|]|].
  - intros last k x Hk W. apply walk_one_ok; [done|done|done|]. apply range_nat. lia.
  - intros last x W. rewrite Z.add_0_l in W. eapply wp_mono; [by apply (wend_good v last true x)|].
    intros [] v' (G' & O' & K' & (Pa & Bs) & Tw & Re). split_and!; try done; [|auto].
    intros Hz. rewrite Pa. apply (wk_asm _ _ _ _ _ W); [done|]. rewrite (wend_left _ _ _ W).
    rewrite <- Hz. symmetry. by apply hired_same.
Qed.

Lemma proto_ok w :
  good w -> skipped w = false -> mid_session w = false -> packet_ok w ->
  wp (dpi_proto_parser g) (fun _ v => good v /\ outcome w v /\ keeps w v /\
    (only_flag w = false -> hired v = 0 -> w_asm_seq (this_wing v) = next_seq (this_wing w)) /\
    (skipped v = true -> sess_flag DPI_SESS_FLAG_POLICY_APP_READY v = true)) w.
Proof.
  intros G Sk Hm [Hon Hraw Hasm]. pose proof G as [I _ _ _]. unfold dpi_proto_parser. repeat wp1.
  rewrite (inv_proto _ _ _ _ _ I). set (w0 := if assembled w then _ else w).
  assert (E0 : w0 <| p_asm_seq := next_seq (this_wing w0) |> =
    w <| on_asm := assembled w |> <| p_asm_seq := next_seq (this_wing w) |>).
  { unfold w0. destruct (assembled w); [done|]. rewrite <- Hon. by destruct w. }
  rewrite E0. clear E0 w0. set (w1 := w <| on_asm := _ |> <| p_asm_seq := _ |>).
  assert (G1 : good w1) by (apply good_entry; [done|by apply wing_next]).
  assert (Hlen : 0 < b_len (pkt_buffer w1)).
  { unfold pkt_buffer, w1. cbn. destruct (assembled w) eqn:Ea; auto. }
  eapply (wp_mono _ (fun _ v => good v /\ outcome w1 v /\ keeps w1 v /\
       (only_flag w = false -> hired v = 0 -> p_asm_seq v = next_seq (this_wing w)) /\
       (skipped v = true -> sess_flag DPI_SESS_FLAG_POLICY_APP_READY v = true))).
  - change (only_flag w1) with (only_flag w). destruct (only_flag w) eqn:Eo.
    + eapply wp_mono; [by apply (only_proto_ok w1)|]. intros [] v (Gv & Ov & Kv & Rv). split_and!; try done.
    + eapply wp_mono; [by apply (walk_ok w1)|]. intros [] v (Gv & Ov & Kv & Pv & Rv). by split_and!.
  - intros [] v (Gv & Ov & Kv & Pv & Rv). repeat wp1. unfold upd_this. repeat wp1.
    set (v1 := v <| sess ::= _ |>). assert (Ea : assembled v1 = assembled w).
    { destruct Kv as (_ & _ & _ & _ & _ & K6 & _). exact K6. }
    rewrite Ea. set (v2 := if assembled w then _ else v1).
    assert (Honv : on_asm v = assembled w) by (destruct Kv as (_ & _ & K3 & _); exact K3).
    assert (E2 : v2 = v1 <| on_asm := false |>).
    { unfold v2. destruct (assembled w); [done|]. assert (on_asm v1 = false) as <- by exact Honv. by destruct v1. }
    rewrite E2. assert (Hq : is_u32 (p_asm_seq v)) by (apply (wt_pasm slack), Gv).
    assert (S1 : same_parsers v (v1 <| on_asm := false |>)).
    { unfold v1. cbn. by destruct (dpi_is_client_pkt (pk v)). }
    split; [|split; [|split; [|split]]].
    + by apply (good_wing v (p_asm_seq v) false).
    + by eapply outcome_ext; [exact Ov| |exact S1].
    + destruct Kv as (K1 & K2 & _ & K4 & K5 & K6 & K7). destruct S1 as (S1 & _ & _ & _ & S5 & _).
      split_and!; [exact K1|exact K2|done|exact (eq_trans S5 K4)| |exact K6|exact K7].
      etransitivity; [|exact K5]. unfold mid_session, sess_flag. by rewrite S1.
    + intros H1 H2. assert (Hv : hired v = 0) by (rewrite <- H2; apply hired_same; intros u; unfold bit; destruct S1 as (_ & _ & -> & _); done).
      rewrite <- (Pv H1 Hv). unfold this_wing, v1. cbn. by destruct (dpi_is_client_pkt (pk v)).
    + destruct S1 as (S1 & _). unfold skipped, sess_flag. rewrite S1. exact Rv.
Qed.

(** ** Midstream sessions *)

Lemma mid_one_ok w k last v :
  mid_session w = true -> 0 < b_len (pkt_buffer w) -> walked w k last v -> in_range k ->
  wp (mid_one g (s_ip_proto (sess w)) last k) (fun last' => walked w (k + 1) last') v.
Proof.
  intros Hm Hlen W Hk. pose proof (fr_inv _ _ (wk_fr _ _ _ _ _ W)) as (E1 & _ & _ & _ & _ & E6).
  unfold mid_one. wp1. apply wp_set_cur; [done|]. rewrite <- E1.
  assert (Hno : entry (s_ip_proto (sess v)) k = None \/ (exists c, entry (s_ip_proto (sess v)) k = Some c /\ midstream c = None) ->
    bit v k = false).
  { intros Hn. destruct (bit v k) eqn:Eb; [|done].
    destruct (wk_callable _ _ _ _ _ W k Hk Eb) as (c & Hc & _ & Hmi). destruct (Hmi (eq_trans E6 Hm)) as [f Hf].
    destruct Hn as [Hn|(c' & Hc' & Hp)]; congruence. }
  destruct (entry (s_ip_proto (sess v)) k) as [c|] eqn:Ec; [|by wp1; apply walked_skip; [apply walked_cur| |apply Hno; left]].
  destruct (midstream c) as [f|] eqn:Ef; [|by wp1; apply walked_skip; [apply walked_cur| |apply Hno; right; exists c]].
  pose proof (lists_type _ _ _ Hk Ec) as Ht. pose proof (law_mid _ _ (lists_law _ _ _ Hk Ec)) as Hp.
  rewrite Ef, Ht in Hp. cbn [holds_for] in Hp. cbn [fmap option_fmap option_map]. rewrite Ht.
  apply (walked_cur _ _ _ _ (Some k)) in W. set (v1 := v <| cur_parser := Some k |>) in *.
  wp1. eapply wp_mono; [eapply walked_parse; [exact W|done|exact Ec|done|exact Hp|]|].
  { rewrite (fr_buffer _ _ (wk_fr _ _ _ _ _ W)). done. }
  intros [] v3 W3. wp1. apply wp_bit; [by destruct W3|done|]. destruct (bit v3 k) eqn:Eb3.
  - unfold count_left. repeat wp1. by apply walked_stays with last.
  - wp1. apply walked_skip; [|done|done]. destruct W3. split; try done. congruence.
Qed.

Lemma mid_only_ok v :
  good v -> skipped v = false -> only_flag v = true -> mid_session v = true -> 0 < b_len (pkt_buffer v) ->
  wp (mid_only g (s_ip_proto (sess v))) (fun _ v' => good v' /\ outcome v v' /\ keeps v v') v.
Proof.
  intros G Sk Of Hm Hlen. pose proof G as [I Ca Al Cl]. unfold mid_only. wp1. wp1. wp1.
  set (t := only_parser (sess v)). assert (Ht : in_range t) by apply (ok_only _ (wt_sess _ _ (inv_wt _ _ _ _ _ I))).
  assert (Hbt : bit v t = true) by (rewrite (Al Sk Of t Ht); apply Z.eqb_refl).
  destruct (Ca t Ht Hbt) as (c & Hc & [f' Hf'] & Hmi). destruct (Hmi Hm) as [f Hf].
  apply wp_set_cur; [done|]. rewrite Hc. cbn [fmap option_fmap option_map]. rewrite Hf', Hf.
  pose proof (lists_type _ _ _ Ht Hc) as Et. pose proof (law_mid _ _ (lists_law _ _ _ Ht Hc)) as Hp.
  rewrite Hf, Et in Hp. cbn [holds_for] in Hp. rewrite Et.
  wp1. wp1. eapply wp_lift; [done|]. set (v1 := v <| cur_parser := Some t |>).
  assert (G1 : good v1).
  { eapply good_ext; [exact G|done| |exact (inv_ext _ _ _ _ _ I)|done]. apply (inv_wt ext_ok shape dl). by apply inv_cur. }
  eapply wp_mono; [eapply (only_run_ok t v1 c f); try done|]. intros [] v2 R.
  pose proof R as [I2 F2 On2 Of2 B2 Nh2 _]. pose proof (fr_inv _ _ F2) as (E1 & _ & _ & E4 & _ & E6).
  pose proof (fr_keeps _ _ F2) as K2.
  wp1. wp1. wp1. rewrite On2. apply wp_bit; [done|done|]. destruct (bit v2 t) eqn:Eb; cbn [negb].
  - destruct (only_ran_good t v1 v2) as [G2 O2]; [done..|]. wp1. split; [done|]. split; [|exact K2].
    eapply outcome_ext; [exact O2|done|done].
  - assert (Hall : forall u, in_range u -> bit v2 u = false).
    { intros u Hu. destruct (decide (u = t)) as [->|]; auto. }
    repeat wp1. set (v4 := v2 <| sess ::= _ |> <| sess ::= _ |>).
    set (x := v2 <| sess ::= fun s => s <| s_flags ::= skip_flags false |> |>). assert (v4 = x) as -> by done.
    destruct (fired_good false t v1 v2) as [G4 O4]; try done.
    { intros u Hu Hbu. by rewrite Hall in Hbu. }
    { intros Hm2. assert (mid_session v2 = true) by exact (eq_trans E6 Hm). congruence. }
    destruct (skip_flags_test false (s_flags (sess v2))) as (_ & H2 & _).
    split; [exact G4|split]; [eapply outcome_ext; [exact O4|done|done]|].
    eapply bits_kept_trans; [exact K2|]. split_and!; [done..|exact H2|done|done].
Qed.

Lemma mid_proto_ok w :
  good w -> skipped w = false -> mid_session w = true -> packet_ok w ->
  wp (dpi_midstream_proto_praser g) (fun _ v => good v /\ outcome w v /\ keeps w v) w.
Proof.
  intros G Sk Hm [Hon Hraw Hasm]. pose proof G as [I Ca _ _]. unfold dpi_midstream_proto_praser. wp1. wp1. wp1. wp1.
  rewrite (inv_proto _ _ _ _ _ I). assert (Hlen : 0 < b_len (pkt_buffer w)) by (unfold pkt_buffer; by rewrite Hon).
  destruct (only_flag w) eqn:Of; [by apply mid_only_ok|].
  wp1. wp1. set (v0 := w <| parser_left := 0 |>). assert (W0 : walked w 0 0 v0).
  { assert (I0 : inv v0) by (destruct I as [[] [] ? ?]; by split; [split|split|..]).
    rewrite only_flag_or in Of. apply orb_false_iff in Of as [Of _]. change (is_final v0 = false) in Of.
    split; [exact I0|done|exact Ca|congruence|done|done|cbn; lia|congruence|congruence|congruence]. }
  wp1. eapply wp_mono; [apply (wp_for_acc (fun last k x => walked w k last x)) with (w := v0); [exact W0|]|].
  - intros last k x Hk W. apply mid_one_ok; [done|done|done|]. apply range_nat. lia.
  - intros last x W. rewrite Z.add_0_l in W. eapply wp_mono; [by apply (wend_good w last false x)|].
    intros [] v' (G' & O' & K' & _). done.
Qed.

(** ** A packet *)

(** For the first packet of a session the state is fresh. *)
Record ready_for w : Prop := {
  rf_new : pkt_flag DPI_PKT_FLAG_NEW_SESSION w = true -> skipped w = false -> fresh w;
  rf_old : good w; rf_buf : on_asm w = false; rf_asm : assembled w = true -> 0 < b_len (asm_pkt w) }.

Lemma pkt_ok w : ready_for w ->
  wp (dpi_pkt_proto_parser g) (fun _ v => good v /\ keeps w v /\
    (pkt_flag DPI_PKT_FLAG_NEW_SESSION w = false -> skipped w = false -> pkt_flag DPI_PKT_FLAG_SKIP_PARSER w = false ->
     0 < b_len (raw w) -> outcome w v)) w.
Proof.
  intros [Hn G Hb Ha]. unfold dpi_pkt_proto_parser. wp1. wp1. fold (skipped w). destruct (skipped w) eqn:Sk.
  { wp1. split_and!; done. }
  wp1. wp1. wp1. wp1. fold (mid_session w). wp1.
  match goal with |- wp _ ?R _ => set (K := R) end.
  assert (HK : forall v, good v -> fr w v -> (pkt_flag DPI_PKT_FLAG_NEW_SESSION w = false -> v = w) -> K tt v).
  { intros v Gv Fv Hv. unfold K. repeat wp1. pose proof (fr_keeps _ _ Fv) as Kv. pose proof Kv as (K1 & K2 & K3 & K4 & K5 & K6 & K7).
    pose proof (fr_inv _ _ Fv) as (_ & _ & _ & E4 & _). rewrite K7, K1.
    destruct (pkt_flag DPI_PKT_FLAG_SKIP_PARSER w) eqn:Ep; cbn [negb andb].
    { wp1. split_and!; [done|done|]. congruence. }
    destruct (Z.ltb_spec 0 (b_len (raw w))) as [Hr|Hr]; [|wp1; split_and!; [done|done|lia]].
    assert (Pv : packet_ok v) by (split; rewrite ?K3, ?K1, ?K6, ?K2; auto).
    assert (Sv : skipped v = false) by exact (eq_trans E4 Sk).
    wp1. wp1. fold (mid_session v). destruct (mid_session v) eqn:Em.
    - eapply wp_mono; [by apply mid_proto_ok|]. intros [] v' (G' & O' & K'). split_and!; [done|by eapply bits_kept_trans|].
      intros Hnew _ _ _. by rewrite (Hv Hnew) in O'.
    - eapply wp_mono; [by apply proto_ok|]. intros [] v' (G' & O' & K' & _). split_and!; [done|by eapply bits_kept_trans|].
      intros Hnew _ _ _. by rewrite (Hv Hnew) in O'. }
  destruct (pkt_flag DPI_PKT_FLAG_NEW_SESSION w) eqn:En; [|wp1; by apply HK].
  specialize (Hn eq_refl eq_refl). destruct (mid_session w) eqn:Em.
  - eapply wp_mono; [by apply mid_recruit_good|]. intros [] v (Gv & Fv & _). by apply HK.
  - eapply wp_mono; [by apply recruit_good|]. intros [] v (Gv & Fv & _). by apply HK.
Qed.

(** ** Histories of a session

    Between two calls the rest of the data path may change the packet, the sequence
    numbers and other flags, and may skip the parsers; the parsers' own state is theirs.
    [first]: the packet is the first of the session. *)
Record arrives (first : bool) w v : Prop := {
  ar_bits : parser_bits (sess v) = parser_bits (sess w); ar_data : parser_data (sess v) = parser_data (sess w);
  ar_only : only_parser (sess v) = only_parser (sess w); ar_proto : s_ip_proto (sess v) = s_ip_proto (sess w);
  ar_heap : heap v = heap w; ar_wt : wt slack v; ar_ext : ext_ok (ext v); ar_ipp : ip_proto (pk v) = s_ip_proto (sess v);
  ar_flag : only_flag v = only_flag w; ar_mid : mid_session v = mid_session w; ar_skip : skipped w = true -> skipped v = true;
  ar_new : pkt_flag DPI_PKT_FLAG_NEW_SESSION v = first; ar_buf : on_asm v = false;
  ar_asm : assembled v = true -> 0 < b_len (asm_pkt v) }.

Inductive session_history : bool -> world D E -> Prop :=
  | created w : fresh w -> session_history true w
  | packet_seen b w v w' : session_history b w -> arrives b w v -> dpi_pkt_proto_parser g v = Some (tt, w') ->
      session_history false w'.

Lemma fresh_good w : fresh w -> good w.
Proof.
  intros [I Of Sk Hb Hd]. split; [done| | |].
  - intros t Ht Hbt. by rewrite Hb in Hbt.
  - intros _. congruence.
  - intros _ t Ht _. auto.
Qed.

Section arr.
Context (first : bool) (w v : world D E) (A : arrives first w v).
Lemma arr_own : own shape dl w -> own shape dl v.
Proof. intros O. destruct A. by eapply own_ext. Qed.
Lemma arr_bit t : bit v t = bit w t.
Proof. destruct A. unfold bit. by rewrite ar_bits0. Qed.
Lemma arr_datum t : datum v t = datum w t.
Proof. destruct A. unfold datum. by rewrite ar_data0. Qed.
Lemma arr_inv : inv w -> inv v.
Proof. intros [? O ? ?]. pose proof (arr_own O). destruct A. by split. Qed.
Lemma arr_good : good w -> good v.
Proof.
  intros [I Ca Al Cl]. pose proof (arr_inv I). split; [done|..]; destruct A.
  - intros t Ht. rewrite arr_bit, ar_mid0, ar_proto0. by apply Ca.
  - intros Sk Of t Ht. rewrite arr_bit, ar_only0. rewrite ar_flag0 in Of. apply Al; [|done|done].
    destruct (skipped w) eqn:E1; [|done]. rewrite ar_skip0 in Sk by done. done.
  - rewrite ar_mid0. intros Hm t Ht. rewrite arr_bit, arr_datum. by apply Cl.
Qed.
Lemma arr_fresh : fresh w -> skipped v = false -> fresh v.
Proof.
  intros [I Of Sk Hb Hd] Sv. split; [by apply arr_inv| |done|..].
  - destruct A. congruence.
  - intros t. rewrite arr_bit. apply Hb.
  - intros t. rewrite arr_datum. apply Hd.
Qed.
End arr.

Lemma history_good b w : session_history b w -> good w /\ (b = true -> fresh w).
Proof.
  induction 1 as [w Fw|b w v w' H [G Hf] A R]; [by split; [apply fresh_good|]|]. split; [|done].
  assert (RF : ready_for v).
  { split; [|by eapply arr_good|by destruct A..]. intros Hn Sk. rewrite (ar_new _ _ _ A) in Hn. subst b.
    eapply arr_fresh; [done|by apply Hf|done]. }
  pose proof (pkt_ok v RF) as P. unfold wp in P. rewrite R in P. apply P.
Qed.
Lemma history_ready b w v : session_history b w -> arrives b w v -> ready_for v.
Proof.
  intros H A. destruct (history_good b w H) as [G Hf]. split; [|by eapply arr_good|by destruct A..].
  intros Hn Sk. rewrite (ar_new _ _ _ A) in Hn. subst b. eapply arr_fresh; [done|by apply Hf|done].
Qed.

(** Whatever packets a session sees, its parsers run without touching memory that is not
    there or no longer theirs: no object of a parser is used after it is freed or freed
    twice, and no packet faults.  And when the session is released, purging the parser
    data frees every object that is left: nothing leaks. *)
Lemma framework_safe (b : bool) (w : world D E) :
  session_history b w ->
  (forall v, arrives b w v -> exists w', dpi_pkt_proto_parser g v = Some (tt, w')) /\
  exists v, dpi_purge_parser_data dl w = Some (tt, v) /\ heap v = ∅ /\ forall t, in_range t -> datum v t = NULL.
Proof.
  intros H. split.
  - intros v A. destruct (wp_run _ _ _ (pkt_ok v (history_ready b w v H A))) as ([] & w' & R & _). by exists w'.
  - destruct (history_good b w H) as [G _].
    assert (P : wp (dpi_purge_parser_data dl) (fun _ v => heap v = ∅ /\ forall t, in_range t -> datum v t = NULL) w).
    { eapply wp_purge; [apply deleters_ok|apply G|]. intros v _ Hh Hd. done. }
    destruct (wp_run _ _ _ P) as ([] & v & R & Hh & Hd). by exists v.
Qed.

(** In every state a session can reach, each field holds a value of its type, the bit
    mask and the array of parser data have their sizes, the bits stand for parsers that
    are registered for the protocol of the session, and the pointer parser [t] keeps is
    NULL or points to an object of the type of parser [t], which no other parser's
    pointer reaches. *)
Lemma framework_typed (b : bool) (w : world D E) :
  session_history b w ->
  wt slack w /\
  (forall t, in_range t -> bit w t = true -> is_Some (entry (s_ip_proto (sess w)) t)) /\
  (forall t, in_range t -> datum w t = NULL \/ exists d, heap w !! datum w t = Some d /\ shape (s_ip_proto (sess w)) t d) /\
  (forall t u, in_range t -> in_range u -> datum w t <> NULL -> datum w t = datum w u -> t = u).
Proof.
  intros H. destruct (history_good b w H) as [[[W O X P] Ca Al Cl] _]. split_and!; [done|..].
  - intros t Ht Hb. destruct (Ca t Ht Hb) as (c & -> & _). done.
  - intros t Ht. destruct (decide (datum w t = NULL)); [by left|right]. by apply (own_typed _ _ _ O).
  - apply (own_alone _ _ _ O).
Qed.

(** After every packet with data the flags of the session say how many parsers are left:
    none, and the parsers are skipped from now on; one, and it is the only parser, which
    gets the packets directly; or more.  Nobody is hired by a packet. *)
Lemma framework_decides (w v w' : world D E) :
  session_history false w -> arrives false w v -> dpi_pkt_proto_parser g v = Some (tt, w') ->
  skipped v = false -> pkt_flag DPI_PKT_FLAG_SKIP_PARSER v = false -> 0 < b_len (raw v) ->
  (skipped w' = true <-> hired w' = 0) /\
  (skipped w' = false -> (only_flag w' = true <-> hired w' = 1)) /\
  (skipped w' = false -> only_flag w' = true -> forall t, in_range t -> bit w' t = (t =? only_parser (sess w'))) /\
  (forall t, in_range t -> bit w' t = true -> bit w t = true).
Proof.
  intros H A R Sk Ps Hr. pose proof (pkt_ok v (history_ready _ _ _ H A)) as P. unfold wp in P. rewrite R in P.
  destruct P as (G' & _ & O). destruct (O (ar_new _ _ _ A) Sk Ps Hr) as [O1 O2 O3]. split_and!; [done|done|apply G'|].
  intros t Ht Hb. rewrite <- (arr_bit _ _ _ A). auto.
Qed.

End run.

(** The delete_data of registered parsers that free their object *)
Lemma free_deletes {D} (h : gmap Z D) a : is_Some (h !! a) -> free h a = Some (delete a h).
Proof. intros [d Hd]. unfold free. by rewrite Hd. Qed.
Lemma setup_deleters_ok {D E} (l : list (@parser D E)) :
  Forall (fun c => 0 <= type c < DPI_PARSER_MAX) l -> Forall (fun c => delete_data c = None \/ delete_data c = Some free) l ->
  dl_ok (deleters (dpi_parser_setup l)).
Proof.
  intros Ht Hd. split.
  - intros ipp. rewrite get_deleters, length_map. apply setup_len.
  - intros ipp t f h a Hs Ha. rewrite slot_entry in Hs. destruct (entry (dpi_parser_setup l) ipp t) as [c|] eqn:Ec; [|done].
    unfold entry in Ec. destruct (get_parser_list (dpi_parser_setup l) ipp !! Z.to_nat t) as [o|] eqn:Eo; [|done]. cbn in Ec. subst o.
    apply setup_entry in Eo as (Hc & _ & _); [|done].
    destruct (proj1 (Forall_forall _ _) Hd c Hc) as [Hdc|Hdc]; cbn in Hs; rewrite Hdc in Hs; simplify_eq.
    by apply free_deletes.
Qed.
End ParserRun.
