(* ===== verification/ParserTac.v ===== *)
(** * Rules and automation for the proofs on parsers

    [Obj D T]: the objects of a parser, of type [T], among the objects [D] of all parsers
    (a void pointer cast to T).  [prun] executes a parser symbolically; what is left are
    the bounds of its reads. *)

From S2P Require Import Prelude Helper Bitmap Wire Frag Parser ParserLaw.
Import Helper.Bytes Helper.Seq Wire.Wire Parser.Parser ParserLaw.ParserLaw.

Module ParserTac.

Class Obj (D T : Type) := { inj : T -> D; prj : D -> option T; prj_inj : forall x, prj (inj x) = Some x }.

(** ** Characters (C locale) *)

Definition isdigit (c : Z) : bool := (48 <=? c) && (c <=? 57).
Definition isupper (c : Z) : bool := (65 <=? c) && (c <=? 90).
Definition islower (c : Z) : bool := (97 <=? c) && (c <=? 122).
Definition isalpha (c : Z) : bool := isupper c || islower c.
Definition isprint (c : Z) : bool := (32 <=? c) && (c <=? 126).
Definition toupper (c : Z) : Z := if islower c then c - 32 else c.

Definition bytes_of (s : string) : list Z := List.map (fun a => Z.of_N (Ascii.N_of_ascii a)) (String.list_ascii_of_string s).

(** memcmp(ptr + o, s, n) == 0: reads the n bytes *)
Fixpoint mem_eq (m : list Z) (o : Z) (s : list Z) : option bool :=
  match s with
  | [] => Some true
  | c :: s => x ← ld8 m o; r ← mem_eq m (o + 1) s; Some ((x =? c) && r)
  end.

Definition ld64 (m : list Z) (o : Z) : option Z := a ← ld32 m o; b ← ld32 m (o + 4); Some (a + 2 ^ 32 * b).
(** be64toh *)
Definition be64toh (z : Z) : Z := Z.lor (Z.shiftl (ntohl (z mod 2 ^ 32)) 32) (ntohl (z / 2 ^ 32)).

(** GET_BIG_INT16, GET_BIG_INT24, GET_BIG_INT32 (the last read as unsigned) and
    GET_LITTLE_INT16 on the bytes at an address *)
Definition be16 (m : list Z) (o : Z) : option Z := a ← ld8 m o; b ← ld8 m (o + 1); Some (Z.lor (Z.shiftl a 8) b).
Definition be24 (m : list Z) (o : Z) : option Z :=
  a ← ld8 m o; b ← ld8 m (o + 1); c ← ld8 m (o + 2); Some (Z.lor (Z.lor (Z.shiftl a 16) (Z.shiftl b 8)) c).
Definition be32 (m : list Z) (o : Z) : option Z :=
  a ← ld8 m o; b ← ld8 m (o + 1); c ← ld8 m (o + 2); d ← ld8 m (o + 3);
  Some (Z.lor (Z.lor (Z.lor (Z.shiftl a 24) (Z.shiftl b 16)) (Z.shiftl c 8)) d).
Definition le16 (m : list Z) (o : Z) : option Z := a ← ld8 m o; b ← ld8 m (o + 1); Some (Z.lor a (Z.shiftl b 8)).

Definition tolower (c : Z) : Z := if isupper c then c + 32 else c.
(** strncasecmp(ptr + o, s, strlen(s)) == 0: reads up to the first difference *)
Fixpoint case_eq (m : list Z) (o : Z) (s : list Z) : option bool :=
  match s with
  | [] => Some true
  | c :: s => x ← ld8 m o; if tolower x =? tolower c then case_eq m (o + 1) s else Some false
  end.
(** The [n] bytes at [o], read by a callee. *)
Definition slice (m : list Z) (o n : Z) : option (list Z) :=
  if (0 <=? o) && (o + n <=? Z.of_nat (length m)) then Some (take (Z.to_nat n) (drop (Z.to_nat o) m)) else None.

Lemma shift_bound a n k : 0 <= k -> 0 <= n -> 0 <= a < 2 ^ n -> 0 <= Z.shiftl a k < 2 ^ (n + k).
Proof. intros. rewrite Z.shiftl_mul_pow2, Z.pow_add_r by lia. nia. Qed.
Lemma lor_bound a b n : 0 <= n -> 0 <= a < 2 ^ n -> 0 <= b < 2 ^ n -> 0 <= Z.lor a b < 2 ^ n.
Proof.
  intros Hn Ha Hb. split; [apply Z.lor_nonneg; lia|].
  destruct (Z.eq_dec (Z.lor a b) 0) as [->|]; [lia|].
  apply Z.log2_lt_pow2; [pose proof (proj2 (Z.lor_nonneg a b)); lia|]. rewrite Z.log2_lor by lia.
  destruct (Z.eq_dec n 0) as [->|]; [assert (a = 0) as -> by lia; assert (b = 0) as -> by lia; done|].
  apply Z.max_lub_lt.
  - destruct (Z.eq_dec a 0) as [->|]; [cbn; lia|]. apply Z.log2_lt_pow2; lia.
  - destruct (Z.eq_dec b 0) as [->|]; [cbn; lia|]. apply Z.log2_lt_pow2; lia.
Qed.
Lemma be16_ok m o : bytes m -> holds m o 2 -> exists v, be16 m o = Some v /\ is_u16 v.
Proof.
  intros Hb [? ?]. unfold be16. destruct (ld8_ok m o Hb) as (a & -> & Ha); [split; lia|].
  destruct (ld8_ok m (o + 1) Hb) as (b & -> & Hc); [split; lia|]. eexists. split; [done|]. unfold is_u8, is_u16 in *.
  apply (lor_bound _ _ 16); [lia|apply (shift_bound a 8 8); lia|lia].
Qed.
Lemma le16_ok m o : bytes m -> holds m o 2 -> exists v, le16 m o = Some v /\ is_u16 v.
Proof.
  intros Hb [? ?]. unfold le16. destruct (ld8_ok m o Hb) as (a & -> & Ha); [split; lia|].
  destruct (ld8_ok m (o + 1) Hb) as (b & -> & Hc); [split; lia|]. eexists. split; [done|]. unfold is_u8, is_u16 in *.
  apply (lor_bound _ _ 16); [lia|lia|apply (shift_bound b 8 8); lia].
Qed.
Lemma be24_ok m o : bytes m -> holds m o 3 -> exists v, be24 m o = Some v /\ 0 <= v < 2 ^ 24.
Proof.
  intros Hb [? ?]. unfold be24. destruct (ld8_ok m o Hb) as (a & -> & Ha); [split; lia|].
  destruct (ld8_ok m (o + 1) Hb) as (b & -> & Hc); [split; lia|]. destruct (ld8_ok m (o + 2) Hb) as (c & -> & Hd); [split; lia|].
  eexists. split; [done|]. unfold is_u8 in *. pose proof (shift_bound a 8 16). pose proof (shift_bound b 8 8).
  repeat apply lor_bound; lia.
Qed.
Lemma be32_ok m o : bytes m -> holds m o 4 -> exists v, be32 m o = Some v /\ is_u32 v.
Proof.
  intros Hb [? ?]. unfold be32. destruct (ld8_ok m o Hb) as (a & -> & Ha); [split; lia|].
  destruct (ld8_ok m (o + 1) Hb) as (b & -> & Hc); [split; lia|]. destruct (ld8_ok m (o + 2) Hb) as (c & -> & Hd); [split; lia|].
  destruct (ld8_ok m (o + 3) Hb) as (d & -> & He); [split; lia|].
  eexists. split; [done|]. unfold is_u8, is_u32 in *. pose proof (shift_bound a 8 24). pose proof (shift_bound b 8 16).
  pose proof (shift_bound c 8 8). repeat apply lor_bound; lia.
Qed.
Lemma be64_range z : 0 <= be64toh z < 2 ^ 64.
Proof.
  unfold be64toh. pose proof (htonl_range (z mod 2 ^ 32)) as H1. pose proof (htonl_range (z / 2 ^ 32)) as H2.
  unfold ntohl, is_u32 in *. apply lor_bound; [lia| |lia]. apply (shift_bound _ 32 32); lia.
Qed.
Lemma case_eq_ok m o s : bytes m -> holds m o (Z.of_nat (length s)) -> exists b, case_eq m o s = Some b.
Proof.
  intros Hb. revert o. induction s as [|c s IH]; intros o [? ?]; cbn [case_eq length] in *; [eauto|].
  destruct (ld8_ok m o Hb) as (x & -> & _); [split; lia|]. cbn [mbind option_bind].
  destruct (_ =? _); [|eauto]. apply IH. split; lia.
Qed.
Lemma slice_ok m o n : holds m o n -> exists l, slice m o n = Some l.
Proof.
  intros [? ?]. unfold slice. rewrite (proj2 (Z.leb_le 0 o)), (proj2 (Z.leb_le _ _)) by lia. eauto.
Qed.

Lemma mem_eq_ok m o s : bytes m -> holds m o (Z.of_nat (length s)) -> exists b, mem_eq m o s = Some b.
Proof.
  intros Hb. revert o. induction s as [|c s IH]; intros o [? ?]; cbn [mem_eq length] in *; [eauto|].
  destruct (ld8_ok m o Hb) as (x & -> & _); [split; lia|]. cbn.
  destruct (IH (o + 1)) as [r ->]; [split; lia|]. cbn. eauto.
Qed.
Lemma ld64_ok m o : bytes m -> holds m o 8 -> exists v, ld64 m o = Some v /\ 0 <= v < 2 ^ 64.
Proof.
  intros Hb [? ?]. unfold ld64. destruct (ld32_ok m o Hb) as (a & -> & ?); [split; lia|].
  destruct (ld32_ok m (o + 4) Hb) as (b & -> & ?); [split; lia|]. eexists. split; [done|]. unfold is_u32 in *. lia.
Qed.

Section obj.
Context {D E T : Type} `{!Obj D T}.
Definition deref_as (a : Z) : M D E T := d ← deref a; lift (prj d).
Definition store_as (a : Z) (x : T) : M D E unit := store a (inj x).

(** The beginning of a parser that keeps data: it is allocated with the first packet,
    which for most protocols must come from the client, with the sequence numbers the
    two sides start from. *)
Definition with_data (client_first : bool) (new : Z -> Z -> T) (k : Z -> M D E unit) : M D E unit :=
  a ← dpi_get_parser_data;
  if a =? NULL then
    cl ← is_client;
    if client_first && negb cl then dpi_fire_parser
    else
      ci ← get (fun w => init_seq (client (sess w)));
      si ← get (fun w => init_seq (server (sess w)));
      a ← calloc (inj (new ci si));
      if a =? NULL then dpi_fire_parser
      else dpi_put_parser_data a;; k a
  else k a.
End obj.

Section rules.
Context {D E : Type} (ext_ok : E -> Prop) (shape : Z -> Z -> D -> Prop) (dl : lists (option (@deleter D))) (slack : Z).
Implicit Types (w v : world D E) (t a : Z) (b : bool) (od : option D).
Abbreviation inv := (inv ext_ok shape dl slack).
Abbreviation st := (st ext_ok shape dl slack).

(** Reading: the program ends in the state it starts in. *)
Lemma wp_ld8 (m : list Z) i (Q : Z -> world D E -> Prop) w :
  bytes m -> holds m i 1 -> (forall x, is_u8 x -> Q x w) -> wp (lift (ld8 m i)) Q w.
Proof. intros Hb Hh HQ. destruct (ld8_ok m i Hb Hh) as (x & Hx & ?). eapply wp_lift; [exact Hx|auto]. Qed.
Lemma wp_ld16 (m : list Z) i (Q : Z -> world D E -> Prop) w :
  bytes m -> holds m i 2 -> (forall x, is_u16 x -> Q x w) -> wp (lift (ld16 m i)) Q w.
Proof. intros Hb Hh HQ. destruct (ld16_ok m i Hb Hh) as (x & Hx & ?). eapply wp_lift; [exact Hx|auto]. Qed.
Lemma wp_ld32 (m : list Z) i (Q : Z -> world D E -> Prop) w :
  bytes m -> holds m i 4 -> (forall x, is_u32 x -> Q x w) -> wp (lift (ld32 m i)) Q w.
Proof. intros Hb Hh HQ. destruct (ld32_ok m i Hb Hh) as (x & Hx & ?). eapply wp_lift; [exact Hx|auto]. Qed.
Lemma wp_ld64 (m : list Z) i (Q : Z -> world D E -> Prop) w :
  bytes m -> holds m i 8 -> (forall x, Q x w) -> wp (lift (ld64 m i)) Q w.
Proof. intros Hb Hh HQ. destruct (ld64_ok m i Hb Hh) as (x & Hx & ?). eapply wp_lift; [exact Hx|auto]. Qed.
Lemma wp_be16 (m : list Z) i (Q : Z -> world D E -> Prop) w :
  bytes m -> holds m i 2 -> (forall x, is_u16 x -> Q x w) -> wp (lift (be16 m i)) Q w.
Proof. intros Hb Hh HQ. destruct (be16_ok m i Hb Hh) as (x & Hx & ?). eapply wp_lift; [exact Hx|auto]. Qed.
Lemma wp_le16 (m : list Z) i (Q : Z -> world D E -> Prop) w :
  bytes m -> holds m i 2 -> (forall x, is_u16 x -> Q x w) -> wp (lift (le16 m i)) Q w.
Proof. intros Hb Hh HQ. destruct (le16_ok m i Hb Hh) as (x & Hx & ?). eapply wp_lift; [exact Hx|auto]. Qed.
Lemma wp_be24 (m : list Z) i (Q : Z -> world D E -> Prop) w :
  bytes m -> holds m i 3 -> (forall x, 0 <= x < 2 ^ 24 -> Q x w) -> wp (lift (be24 m i)) Q w.
Proof. intros Hb Hh HQ. destruct (be24_ok m i Hb Hh) as (x & Hx & ?). eapply wp_lift; [exact Hx|auto]. Qed.
Lemma wp_be32 (m : list Z) i (Q : Z -> world D E -> Prop) w :
  bytes m -> holds m i 4 -> (forall x, is_u32 x -> Q x w) -> wp (lift (be32 m i)) Q w.
Proof. intros Hb Hh HQ. destruct (be32_ok m i Hb Hh) as (x & Hx & ?). eapply wp_lift; [exact Hx|auto]. Qed.
Lemma wp_slice (m : list Z) o n (Q : list Z -> world D E -> Prop) w :
  holds m o n -> (forall x, Q x w) -> wp (lift (slice m o n)) Q w.
Proof. intros Hh HQ. destruct (slice_ok m o n Hh) as (x & Hx). eapply wp_lift; [exact Hx|auto]. Qed.
(** What a function on the memory returns when it returns. *)
Lemma wp_total {A} (o : option A) (Q : A -> world D E -> Prop) w : is_Some o -> (forall x, Q x w) -> wp (lift o) Q w.
Proof. intros [x Hx] HQ. eapply wp_lift; [exact Hx|auto]. Qed.
Lemma wp_mem_eq (m : list Z) o s (Q : bool -> world D E -> Prop) w :
  bytes m -> holds m o (Z.of_nat (length s)) -> (forall x, Q x w) -> wp (lift (mem_eq m o s)) Q w.
Proof. intros Hb Hh HQ. destruct (mem_eq_ok m o s Hb Hh) as (x & Hx). eapply wp_lift; [exact Hx|auto]. Qed.

(** What a parser knows of the packet it was called on. *)
Lemma buffer_facts w : inv w -> let bf := pkt_buffer w in
  bytes (b_mem bf) /\ 0 <= b_len bf <= DPI_MAX_PKT_LEN /\ b_len bf + slack <= Z.of_nat (length (b_mem bf)) /\
  b_len bf + 1 <= Z.of_nat (length (b_mem bf)) /\ is_u32 (b_seq bf) /\
  forall o, 0 <= o <= b_len bf -> 0 ∈ drop (Z.to_nat o) (b_mem bf).
Proof.
  intros [[] _ _ _] bf. assert (Hb : buf_ok slack bf) by (unfold bf, pkt_buffer; by destruct (on_asm w)).
  destruct Hb as [H1 H2 H3 H4 H5]. split_and!; try done; try lia.
  - destruct (decide (b_len bf + 1 <= Z.of_nat (length (b_mem bf)))) as [|Hn]; [done|].
    rewrite drop_ge in H5 by lia. by apply elem_of_nil in H5.
  - intros o Ho. replace (Z.to_nat (b_len bf)) with (Z.to_nat o + (Z.to_nat (b_len bf) - Z.to_nat o))%nat in H5 by lia.
    rewrite <- drop_drop in H5. apply list_elem_of_lookup in H5 as [i Hi]. apply list_elem_of_lookup.
    exists ((Z.to_nat (b_len bf) - Z.to_nat o) + i)%nat. by rewrite <- lookup_drop.
Qed.

Lemma wp_pkt_ptr md t w0 b a od w (Q : list Z -> world D E -> Prop) :
  st md t w0 b a od w -> Q (b_mem (pkt_buffer w0)) w -> wp dpi_pkt_ptr Q w.
Proof. intros S HQ. unfold dpi_pkt_ptr. wp1. by rewrite (st_buffer _ _ _ _ _ _ _ _ _ _ _ S). Qed.
Lemma wp_pkt_len md t w0 b a od w (Q : Z -> world D E -> Prop) :
  st md t w0 b a od w -> Q (b_len (pkt_buffer w0)) w -> wp dpi_pkt_len Q w.
Proof. intros S HQ. unfold dpi_pkt_len. wp1. by rewrite (st_buffer _ _ _ _ _ _ _ _ _ _ _ S). Qed.
Lemma wp_pkt_seq md t w0 b a od w (Q : Z -> world D E -> Prop) :
  st md t w0 b a od w -> (forall q, is_u32 q -> Q q w) -> wp dpi_pkt_seq Q w.
Proof.
  intros S HQ. unfold dpi_pkt_seq. wp1. apply HQ. destruct (buffer_facts w) as (_ & _ & _ & _ & H & _); [|done].
  by eapply st_inv.
Qed.
Lemma wp_ptr_2_seq off w (Q : Z -> world D E -> Prop) : (forall q, is_u32 q -> Q q w) -> wp (dpi_ptr_2_seq off) Q w.
Proof. intros HQ. unfold dpi_ptr_2_seq. wp1. apply HQ, u32_range. Qed.

Lemma wp_seek md t w0 b a od w seq (Q : option (Z * Z) -> world D E -> Prop) :
  st md t w0 b a od w -> 0 < b_len (pkt_buffer w0) -> Q None w ->
  (forall off len, 0 <= off -> 0 < len -> off + len = b_len (pkt_buffer w0) -> Q (Some (off, len)) w) -> wp (seek seq) Q w.
Proof.
  intros S Hl HN HS. unfold seek, dpi_is_seq_in_pkt, dpi_pkt_len, dpi_pkt_seq. repeat wp1.
  rewrite (st_buffer _ _ _ _ _ _ _ _ _ _ _ S). destruct (_ =? _); [apply HS; lia|]. repeat wp1.
  rewrite (st_buffer _ _ _ _ _ _ _ _ _ _ _ S). destruct (Z.ltb_spec (u32_distance (b_seq (pkt_buffer w0)) seq) (b_len (pkt_buffer w0))) as [Hd|]; [|done].
  repeat wp1. rewrite (st_buffer _ _ _ _ _ _ _ _ _ _ _ S). pose proof (u32_range (seq - b_seq (pkt_buffer w0))) as Hr.
  unfold u32_distance in *. set (d := u32 (seq - _)) in *. clearbody d.
  assert (Hle : b_len (pkt_buffer w0) <= DPI_MAX_PKT_LEN).
  { rewrite <- (st_buffer _ _ _ _ _ _ _ _ _ _ _ S). apply buffer_facts. by eapply st_inv. }
  unfold is_u32, DPI_MAX_PKT_LEN in *. rewrite u32_id by (unfold is_u32; lia). apply HS; lia.
Qed.

Lemma wp_deref_as {T} `{!Obj D T} md t w0 b a x w (Q : T -> world D E -> Prop) :
  st md t w0 b a (Some (inj x)) w -> Q x w -> wp (deref_as a) Q w.
Proof.
  intros S HQ. unfold deref_as. wp1. eapply wp_deref; [done..|]. eapply wp_lift; [apply prj_inj|done].
Qed.
Lemma wp_store_as {T} `{!Obj D T} ipp md t w0 b a od x w (Q : unit -> world D E -> Prop) :
  st md t w0 b a od w -> s_ip_proto (sess w0) = ipp -> a <> NULL -> is_Some od -> shape ipp t (inj x) ->
  (forall v, st md t w0 b a (Some (inj x)) v -> Q tt v) -> wp (store_as a x) Q w.
Proof. intros ? <- ? ? ? ?. by eapply wp_store. Qed.

(** The object of the parser when its pointer is not NULL. *)
Lemma st_object md t w0 b a od w : st md t w0 b a od w -> a <> NULL -> exists d, od = Some d /\ shape (s_ip_proto (sess w0)) t d.
Proof.
  intros S Ha. pose proof (st_inv _ _ _ _ _ _ _ _ _ _ _ S) as I. rewrite <- (st_ipp _ _ _ _ _ _ _ _ _ _ _ S). destruct S as [Hr Ht Hc Hb Hd Hh]. subst a.
  destruct (own_typed _ _ _ (inv_own _ _ _ _ _ I) t Ht Ha) as ((d & Hd & Hsh) & _). exists d. split; [congruence|done].
Qed.
Lemma st_slot md t w0 b a od w : st md t w0 b a od w -> slot dl w t = slot dl w0 t.
Proof.
  intros [Hr _ _ _ _ _]. apply rel_frame in Hr. apply frame_inv in Hr as (_ & _ & _ & _ & _ & E1 & _).
  unfold slot. by rewrite E1.
Qed.
Lemma wp_hire t w0 b a od w (Q : unit -> world D E -> Prop) :
  st Recruiting t w0 b a od w -> is_Some (slot dl w0 t) ->
  (forall v, st Recruiting t w0 true a od v -> Q tt v) -> wp dpi_hire_parser Q w.
Proof.
  intros S Hs HQ. eapply wp_set_bits; [exact S|by left| |done]. intros _. split; [done|].
  by rewrite (st_slot _ _ _ _ _ _ _ S).
Qed.
Lemma hire_starts ipp t del (m : M D E unit) : in_range t ->
  (forall w0 b a od w, st Recruiting t w0 b a od w -> is_Some (slot dl w0 t) -> bit w t = false ->
    wp m (fun _ v => exists b', st Recruiting t w0 b' a od v) w) ->
  starts_well ext_ok shape dl slack ipp t del m.
Proof.
  intros Ht H w I _ Hc Hs Hb Hd.
  assert (S : st Recruiting t w (bit w t) (datum w t) (heap w !! datum w t) w) by by apply st_start.
  eapply wp_mono; [apply (H _ _ _ _ _ S (mk_is_Some _ _ Hs) Hb)|]. intros [] v [b' [Hr _ _ _ Hdv _]]. split; [done|]. congruence.
Qed.

Lemma wp_with_data {T} `{!Obj D T} (ok : T -> Prop) ipp t w0 b a od w f cf (new : Z -> Z -> T) k (Q : unit -> world D E -> Prop) :
  st Running t w0 b a od w -> s_ip_proto (sess w0) = ipp -> slot dl w0 t = Some (Some f) ->
  (forall d, shape ipp t d <-> exists x, d = inj x /\ ok x) -> (forall c s, is_u32 c -> is_u32 s -> ok (new c s)) ->
  (forall v a' od', st Running t w0 false a' od' v -> Q tt v) ->
  (forall a' x v, a' <> NULL -> ok x -> st Running t w0 b a' (Some (inj x)) v -> wp (k a') Q v) ->
  wp (with_data cf new k) Q w.
Proof.
  intros S <- Hs Hsh Hnew Hfire Hk. unfold with_data, is_client. wp1. eapply wp_get_data; [exact S|].
  destruct (Z.eqb_spec a NULL) as [->|Ha].
  - wp1. wp1. destruct (cf && _); [eapply wp_fire; [exact S|by eauto]|]. wp1. wp1. wp1. wp1.
    assert (HI : is_u32 (init_seq (client (sess w))) /\ is_u32 (init_seq (server (sess w)))).
    { pose proof (st_inv _ _ _ _ _ _ _ _ _ _ _ S) as [[[? ? ? ? ? ? ? [] []] _ _ _ _ _ _] _ _ _]. done. }
    destruct HI as [Hc Hsv].
    eapply (wp_calloc_put _ _ _ _ _ _ _ _ dpi_fire_parser k); [exact S| | | |].
    + apply Hsh. eexists. split; [done|]. by apply Hnew.
    + exists f. by rewrite (st_slot _ _ _ _ _ _ _ S).
    + intros v Sv. eapply wp_fire; [exact Sv|by eauto].
    + intros a' v Ha' Sv. eapply Hk; [done| |exact Sv]. by apply Hnew.
  - destruct (st_object _ _ _ _ _ _ _ S Ha) as (d & -> & Hd). apply Hsh in Hd as (x & -> & Hx). by eapply Hk.
Qed.

(** The objects of the type of parser [t] are the well-typed ones of [T]. *)
Definition typed_as {T} `{!Obj D T} (ipp t : Z) (ok : T -> Prop) : Prop := forall d, shape ipp t d <-> exists x, d = inj x /\ ok x.
Lemma typed_inj {T} `{!Obj D T} ipp t (ok : T -> Prop) x : typed_as ipp t ok -> ok x -> shape ipp t (inj x).
Proof. intros H Hx. apply H. by eexists. Qed.

(** From the parser's promise to symbolic execution. *)
Lemma runs_intro ipp t del (m : M D E unit) : in_range t ->
  (forall w0 w b a od, inv w0 -> s_ip_proto (sess w0) = ipp -> slot dl w0 t = Some del -> 0 < b_len (pkt_buffer w0) -> w = w0 ->
    st Running t w0 b a od w -> wp m (fun _ v => step ext_ok shape dl slack t w0 v) w) ->
  runs_well ext_ok shape dl slack ipp t del m.
Proof.
  intros Ht H w I Hi Hc Hs Hl. eapply H; [done|done|done|done|done|]. by apply st_start.
Qed.
Lemma st_done t w0 b a od w : st Running t w0 b a od w -> step ext_ok shape dl slack t w0 w.
Proof. intros S. apply (st_rel _ _ _ _ _ _ _ _ _ _ _ S). Qed.

Lemma st_init md t w0 b a od w : st md t w0 b a od w ->
  is_u32 (init_seq (client (sess w))) /\ is_u32 (init_seq (server (sess w))) /\ is_u32 (init_seq (this_wing w)).
Proof.
  intros S. pose proof (st_inv _ _ _ _ _ _ _ _ _ _ _ S) as [[[? ? ? ? ? ? ? [] []] _ _ _ _ _ _] _ _ _].
  split_and!; [done|done|]. unfold this_wing. by destruct (dpi_is_client_pkt _).
Qed.
Lemma wp_alloc_ok md t w0 b a od w (Q : bool -> world D E -> Prop) :
  st md t w0 b a od w -> (forall ok v, st md t w0 b a od v -> Q ok v) -> wp alloc_ok Q w.
Proof.
  intros S HQ. unfold wp, alloc_ok. destruct (avail w) as [|x l]; [by apply HQ|]. apply HQ.
  pose proof (st_inv _ _ _ _ _ _ _ _ _ _ _ S) as [W ? ? ?]. eapply st_ext; [exact S|by destruct W|done..].
Qed.
Lemma wp_upd_ep_same md t w0 b a od w (f : io_ep -> io_ep) (Q : unit -> world D E -> Prop) :
  st md t w0 b a od w -> (forall e, app_map (f e) = app_map e /\ app_ports (f e) = app_ports e /\ app_updated (f e) = app_updated e) ->
  (forall v, st md t w0 b a od v -> Q tt v) -> wp (upd_ep f) Q w.
Proof.
  intros S Hf HQ. unfold upd_ep. eapply wp_upd_ep; [exact S| |done]. intros []. destruct (Hf (ep w)) as (E1 & E2 & E3).
  split; by rewrite ?E1, ?E2, ?E3.
Qed.
End rules.

(** One instruction of a parser; [dlok] is the goal's [dl_ok]. *)
Ltac pnext := let v := fresh "w" in let S := fresh "S" in intros v S.
Ltac p1 :=
  cbv beta iota;
  lazymatch goal with
  | |- wp (_ ≫= _) _ _ => apply wp_bind
  | |- wp (mret _) _ _ => apply wp_ret
  | |- wp skip _ _ => apply wp_ret
  | |- wp dpi_fire_parser _ _ => eapply wp_fire; [eassumption|pnext]
  | |- wp dpi_ignore_parser _ _ => eapply wp_ignore; [eassumption|pnext]
  | |- wp dpi_hire_parser _ _ => eapply wp_hire; [eassumption|eassumption|pnext]
  | |- wp (dpi_finalize_parser _) _ _ => eapply wp_finalize; [eassumption|eassumption|pnext; intros _]
  | |- wp dpi_get_parser_data _ _ => eapply wp_get_data; [eassumption|]
  | |- wp (deref_as _) _ _ => eapply wp_deref_as; [eassumption|]
  | |- wp (store_as _ _) _ _ => eapply wp_store_as; [eassumption|eassumption|eassumption|by eexists| |pnext]
  | |- wp (dpi_set_asm_seq _) _ _ => eapply wp_set_asm_seq; [eassumption| |pnext]
  | |- wp (dpi_ep_set_app _ _) _ _ => eapply wp_ep_set_app; [eassumption|done|done|pnext]
  | |- wp (dpi_ep_set_server_ver _ _) _ _ => eapply wp_ep_set_server_ver; [eassumption| |pnext]
  | |- wp (threat _ _) _ _ => eapply wp_threat; [eassumption|pnext]
  | |- wp (upd_ep _) _ _ => eapply wp_upd_ep_same; [eassumption|done|pnext]
  | |- wp dpi_pkt_ptr _ _ => eapply wp_pkt_ptr; [eassumption|]
  | |- wp dpi_pkt_len _ _ => eapply wp_pkt_len; [eassumption|]
  | |- wp dpi_pkt_seq _ _ => eapply wp_pkt_seq; [eassumption|intros ? ?]
  | |- wp (dpi_ptr_2_seq _) _ _ => apply wp_ptr_2_seq; intros ? ?
  | |- wp (seek _) _ _ => eapply wp_seek; [eassumption|eassumption| |let o := fresh "off" in let n := fresh "n" in intros o n ? ? ?]
  | |- wp (lift (ld8 _ _)) _ _ => apply wp_ld8; [assumption| |intros ? ?]
  | |- wp (lift (ld16 _ _)) _ _ => apply wp_ld16; [assumption| |intros ? ?]
  | |- wp (lift (ld32 _ _)) _ _ => apply wp_ld32; [assumption| |intros ? ?]
  | |- wp (lift (be16 _ _)) _ _ => apply wp_be16; [assumption| |intros ? ?]
  | |- wp (lift (le16 _ _)) _ _ => apply wp_le16; [assumption| |intros ? ?]
  | |- wp (lift (be24 _ _)) _ _ => apply wp_be24; [assumption| |intros ? ?]
  | |- wp (lift (be32 _ _)) _ _ => apply wp_be32; [assumption| |intros ? ?]
  | |- wp (lift (slice _ _ _)) _ _ => apply wp_slice; [|intros ?]
  | |- wp alloc_ok _ _ => eapply wp_alloc_ok; [eassumption|intros ? ? ?]
  | |- wp (lift (ld64 _ _)) _ _ => apply wp_ld64; [assumption| |intros ?]
  | |- wp (lift (mem_eq _ _ _)) _ _ => apply wp_mem_eq; [assumption| |intros ?]
  | |- wp (get _) _ _ => apply wp_get
  | |- wp is_client _ _ => apply wp_get
  | |- wp dpi_is_parser_final _ _ => apply wp_get
  | |- wp (if ?c then _ else _) _ _ => destruct c eqn:?
  end.
(** The conditions of the branches, as arithmetic; [pbound]: [holds m o n] from them. *)
Ltac pbool := repeat match goal with
  | H : (_ <? _) = false |- _ => apply Z.ltb_ge in H
  | H : (_ <? _) = true |- _ => apply Z.ltb_lt in H
  | H : (_ <=? _) = false |- _ => apply Z.leb_gt in H
  | H : (_ <=? _) = true |- _ => apply Z.leb_le in H
  | H : (_ =? _) = false |- _ => apply Z.eqb_neq in H
  | H : (_ =? _) = true |- _ => apply Z.eqb_eq in H
  | H : (_ || _) = false |- _ => apply orb_false_iff in H as [? ?]
  | H : (_ && _) = true |- _ => apply andb_true_iff in H as [? ?]
  | H : negb _ = true |- _ => apply negb_true_iff in H
  | H : negb _ = false |- _ => apply negb_false_iff in H
  end.
Ltac plen := repeat match goal with
  | |- context [length (bytes_of ?s)] => let n := eval vm_compute in (length (bytes_of s)) in change (length (bytes_of s)) with n
  end; cbn [length] in *.
Ltac pbound := split; pbool; plen; lia.
(** One instruction of a function on the memory, for goals [exists r, f m = Some r /\ P r];
    [oread] runs it to its end. *)
Ltac odone := pbool; cbn [length]; lia.
Ltac o1 :=
  cbv beta iota zeta; cbn [mbind option_bind];
  lazymatch goal with
  | Hb : bytes ?m |- exists r, (ld8 ?m ?o ≫= _) = Some r /\ _ => let x := fresh "x" in destruct (ld8_ok m o Hb) as (x & -> & ?); [split; odone|]
  | Hb : bytes ?m |- exists r, (ld16 ?m ?o ≫= _) = Some r /\ _ => let x := fresh "x" in destruct (ld16_ok m o Hb) as (x & -> & ?); [split; odone|]
  | Hb : bytes ?m |- exists r, (ld32 ?m ?o ≫= _) = Some r /\ _ => let x := fresh "x" in destruct (ld32_ok m o Hb) as (x & -> & ?); [split; odone|]
  | Hb : bytes ?m |- exists r, (ld64 ?m ?o ≫= _) = Some r /\ _ => let x := fresh "x" in destruct (ld64_ok m o Hb) as (x & -> & ?); [split; odone|]
  | Hb : bytes ?m |- exists r, (be16 ?m ?o ≫= _) = Some r /\ _ => let x := fresh "x" in destruct (be16_ok m o Hb) as (x & -> & ?); [split; odone|]
  | Hb : bytes ?m |- exists r, (le16 ?m ?o ≫= _) = Some r /\ _ => let x := fresh "x" in destruct (le16_ok m o Hb) as (x & -> & ?); [split; odone|]
  | Hb : bytes ?m |- exists r, (be24 ?m ?o ≫= _) = Some r /\ _ => let x := fresh "x" in destruct (be24_ok m o Hb) as (x & -> & ?); [split; odone|]
  | Hb : bytes ?m |- exists r, (be32 ?m ?o ≫= _) = Some r /\ _ => let x := fresh "x" in destruct (be32_ok m o Hb) as (x & -> & ?); [split; odone|]
  | |- exists r, (if ?c then _ else _) = Some r /\ _ => destruct c eqn:?
  | |- exists r, Some _ = Some r /\ _ => eexists; split; [reflexivity|]
  end.
Ltac oread := repeat o1.
(** From [runs_well], with the facts on the packet. *)
Ltac pstart := apply runs_intro; [done|]; intros w0 w b a od I Hipp Hslot Hlen -> S;
  destruct (buffer_facts _ _ _ _ _ I) as (Hbm & Hl0 & Hroom & Hone & Hseq & Hnul); unfold DPI_MAX_PKT_LEN in *.
Ltac pdone := cbv beta; eapply st_done; eassumption.
Ltac prun := repeat p1; try pdone.

(** ** Programs that stop only for [H] *)

Section wpx.
Context {D E : Type} (H : Prop).
Definition wpx {A} (p : M D E A) (Q : A -> world D E -> Prop) (w : world D E) : Prop :=
  match p w with Some (a, w') => Q a w' | None => H end.
Lemma wp_wpx {A} (p : M D E A) Q w : wp p Q w -> wpx p Q w.
Proof. unfold wp, wpx. by destruct (p w) as [[]|]. Qed.
Lemma wpx_bind {A B} (p : M D E A) (k : A -> M D E B) Q w : wpx p (fun a => wpx (k a) Q) w -> wpx (p ≫= k) Q w.
Proof. unfold wpx, mbind, M_bind. by destruct (p w) as [[]|]. Qed.
Lemma wpx_mono {A} (p : M D E A) (Q R : A -> world D E -> Prop) w :
  wpx p Q w -> (forall a w', Q a w' -> R a w') -> wpx p R w.
Proof. unfold wpx. destruct (p w) as [[]|]; auto. Qed.
End wpx.
Lemma wpx_weaken {D E A} (H H' : Prop) (p : M D E A) Q w : (H -> H') -> wpx H p Q w -> wpx H' p Q w.
Proof. unfold wpx. destruct (p w) as [[]|]; auto. Qed.

Ltac x1 :=
  cbv beta iota;
  lazymatch goal with
  | |- wpx _ (_ ≫= _) _ _ => apply wpx_bind
  | |- wpx _ (if ?c then _ else _) _ _ => destruct c eqn:?
  | |- wpx _ _ _ _ => apply wp_wpx; p1
  end.

Section rulesx.
Context {D E : Type} (ext_ok : E -> Prop) (shape : Z -> Z -> D -> Prop) (dl : lists (option (@deleter D))) (slack : Z).
Implicit Types (w v : world D E) (t a : Z).
Abbreviation st := (st ext_ok shape dl slack).

Lemma calloc_sess (d : D) w a v : calloc d w = Some (a, v) -> sess v = sess w.
Proof.
  unfold calloc, alloc_ok, mbind, M_bind, get, upd, mret, M_ret. destruct (avail w) as [|[] l]; cbn [negb]; intros H; by simplify_eq.
Qed.
Lemma put_flags a w v : dpi_put_parser_data a w = Some (tt, v) -> s_flags (sess v) = s_flags (sess w).
Proof.
  unfold dpi_put_parser_data, cur, set_data, at_, get, lift, upd_sess, upd, mbind, M_bind, option_bind. destruct (cur_parser w) as [t|]; [|done].
  destruct (if t <? 0 then _ else _); [|done]. intros H. by simplify_eq.
Qed.

(** The object of the parser, as [wp_with_data]; one that is new comes without a change to
    the flags of the session. *)
Lemma wpx_with_data {T} `{!Obj D T} (H : Prop) (ok : T -> Prop) ipp t w0 b a od w f cf (new : Z -> Z -> T) (k : Z -> M D E unit) (Q : unit -> world D E -> Prop) :
  st Running t w0 b a od w -> s_ip_proto (sess w0) = ipp -> slot dl w0 t = Some (Some f) ->
  typed_as shape ipp t ok -> (forall c s, is_u32 c -> is_u32 s -> ok (new c s)) ->
  (forall v a' od', st Running t w0 false a' od' v -> Q tt v) ->
  (forall a' x v, a' <> NULL -> ok x -> v = w /\ a' = a \/ a = NULL /\ s_flags (sess v) = s_flags (sess w) ->
     st Running t w0 b a' (Some (inj x)) v -> wpx H (k a') Q v) ->
  wpx H (with_data cf new k) Q w.
Proof.
  intros S <- Hs Hty Hnew Hfire Hk. unfold with_data. x1. x1. x1.
  - pbool. subst a. x1. x1. x1; [x1; by eapply Hfire|]. x1. x1. x1. x1.
    destruct (st_init _ _ _ _ _ _ _ _ _ _ _ S) as (Hci & Hsi & _). set (d := new _ _).
    assert (Hd : ok d) by by apply Hnew.
    assert (P : wp (a ← calloc (inj d); if a =? NULL then mret NULL else dpi_put_parser_data a;; mret a)
      (fun a' v => if a' =? NULL then st Running t w0 b NULL None v else st Running t w0 b a' (Some (inj d)) v) w).
    { eapply (wp_calloc_put _ _ _ _ _ _ _ _ (mret NULL) (fun a => mret a)); [exact S|by eapply typed_inj| | |].
      - exists f. by rewrite (st_slot _ _ _ _ _ _ _ _ _ _ _ S).
      - intros v Sv. p1. done.
      - intros a' v Ha' Sv. p1. by rewrite (proj2 (Z.eqb_neq a' NULL)). }
    unfold wpx. unfold wp, mbind, M_bind in *. destruct (calloc (inj d) w) as [[a' v]|] eqn:Ec; [|done]. apply calloc_sess in Ec.
    destruct (Z.eqb_spec a' NULL) as [->|Ha'].
    + cbn in P. change (wpx H dpi_fire_parser Q v). x1. by eapply Hfire.
    + unfold mbind, M_bind in *. destruct (dpi_put_parser_data a' v) as [[[] v']|] eqn:Ep; [|done]. cbn in P. apply put_flags in Ep.
      rewrite (proj2 (Z.eqb_neq a' NULL)) in P by done. apply (Hk a' d v'); [done|done| |done]. right. split; [done|congruence].
  - pbool. destruct (st_object _ _ _ _ _ _ _ _ _ _ _ S) as (d & -> & Hd); [done|]. apply Hty in Hd as (x & -> & Hx).
    eapply Hk; [done|done|by left|done].
Qed.
End rulesx.

End ParserTac.
