(* ===== verification/ParsersUdp.v ===== *)
(** * Parsers that keep no data: ECHO, DHCP, NTP, TFTP (dpi/parsers)

    Each decides from one packet.  Scanning functions of the source are pure functions on
    the memory of the packet, [m], with offsets for pointers; [None] is a read outside it. *)

From S2P Require Import Prelude Helper Bitmap Wire Frag Parser ParserLaw ParserTac.
Import Helper.Bytes Helper.Seq Wire.Wire Parser.Parser ParserLaw.ParserLaw ParserTac.ParserTac.

Module ParsersUdp.

Section programs.
Context {D E : Type} (dl : lists (option (@deleter D))).

(** p->sport != x && p->dport != x *)
Definition not_port (x : Z) : M D E bool :=
  get (fun w => negb (sport (pk w) =? x) && negb (dport (pk w) =? x)).

(** ** dpi_echo.c *)

Definition echo_parser : M D E unit :=
  no ← not_port 7;
  if no : bool then dpi_fire_parser
  else dpi_finalize_parser dl;; dpi_ignore_parser.

Definition echo_new_session : M D E unit :=
  no ← not_port 7;
  if no : bool then skip else dpi_hire_parser.

Definition dpi_echo_tcp_parser : parser :=
  Parser (Some echo_new_session) None (Some echo_parser) None None "echo" IPPROTO_TCP DPI_PARSER_ECHO.
Definition dpi_echo_udp_parser : parser :=
  Parser (Some echo_new_session) None (Some echo_parser) None None "echo" IPPROTO_UDP DPI_PARSER_ECHO.

(** ** dpi_dhcp.c *)

(** sizeof(dhcp_hdr_t), and the offsets of hlen and magic *)
Definition sizeof_dhcp_hdr : Z := 240.
Definition dhcp_hlen : Z := 2.
Definition dhcp_magic_off : Z := 236.
Definition dhcp_magic : list Z := [0x63; 0x82; 0x53; 0x63].

Definition dhcp_parser : M D E unit :=
  m ← dpi_pkt_ptr;
  len ← dpi_pkt_len;
  if len <? sizeof_dhcp_hdr + 4 then dpi_fire_parser
  else
    hlen ← lift (ld8 m dhcp_hlen);
    if 16 <? hlen then dpi_fire_parser
    else
      eq ← lift (mem_eq m dhcp_magic_off dhcp_magic);
      if negb eq then dpi_fire_parser else dpi_finalize_parser dl.

Definition dhcp_new_session : M D E unit := dpi_hire_parser.

Definition dpi_dhcp_parser : parser :=
  Parser (Some dhcp_new_session) None (Some dhcp_parser) None None "dhcp" IPPROTO_UDP DPI_PARSER_DHCP.

(** ** dpi_ntp.c *)

Fixpoint check_ref_name_from (n : nat) (m : list Z) (o : Z) (end_ : bool) : option bool :=
  match n with
  | O => Some true
  | S n =>
      c ← ld8 m o;
      if c =? 0 then check_ref_name_from n m (o + 1) true
      else if negb end_ && isalpha c then check_ref_name_from n m (o + 1) end_
      else Some false
  end.
Definition check_ref_name (m : list Z) (o : Z) : option bool := check_ref_name_from 4 m o false.

(** The checks from the timestamps on. *)
Definition ntp_times (m : list Z) : M D E unit :=
  ref ← lift (ld32 m 16);
  org ← lift (ld32 m 24);
  rev ← lift (ld32 m 32);
  trs ← lift (ld32 m 40);
  if (ntohl trs <? ntohl ref) || (ntohl rev <? ntohl org) then dpi_fire_parser
  else dpi_finalize_parser dl;; dpi_ignore_parser.

Definition ntp_udp_parser : M D E unit :=
  len ← dpi_pkt_len;
  m ← dpi_pkt_ptr;
  no ← not_port 123;
  if no || (len <? 48) then dpi_fire_parser
  else
    flag ← lift (ld8 m 0);
    let ver := Z.shiftr (Z.land flag 0x38) 3 in
    stratum ← lift (ld8 m 1);
    if 4 <? ver then dpi_fire_parser
    else if stratum =? 1 then
      ok ← lift (check_ref_name m 12);
      if negb ok then dpi_fire_parser else ntp_times m
    else if 16 <? stratum then dpi_fire_parser
    else ntp_times m.

Definition ntp_new_session : M D E unit :=
  no ← not_port 123;
  if no : bool then skip else dpi_hire_parser.

Definition dpi_ntp_udp_parser : parser :=
  Parser (Some ntp_new_session) None (Some ntp_udp_parser) None None "ntp" IPPROTO_UDP DPI_PARSER_NTP.

(** ** dpi_tftp.c *)

Definition TFTP_RRQ : Z := 1.
Definition TFTP_WRQ : Z := 2.
Definition TFTP_DATA : Z := 3.
Definition TFTP_ACK : Z := 4.
Definition TFTP_ERROR : Z := 5.
Definition TFTP_OACK : Z := 6.
Definition TFTP_INFO : Z := 255.

Definition is_path_name (c : Z) : bool :=
  isdigit c || (c =? 45) || (c =? 46) || (c =? 47) || (c =? 92) || (c =? 95) || isalpha c.

(** [n] bytes are left; -1: invalid, else the length of the name with its NUL *)
Fixpoint file_name_from (n : nat) (m : list Z) (o name_len : Z) : option Z :=
  match n with
  | O => Some (-1)
  | S n =>
      c ← ld8 m o;
      if (c =? 0) && (0 <? name_len) then Some (name_len + 1)
      else if negb (is_path_name c) then Some (-1)
      else file_name_from n m (o + 1) (name_len + 1)
  end.
Definition check_file_name (m : list Z) (o len : Z) : option Z :=
  let len := u16 len in
  file_name_from (Z.to_nat (if 128 <? len then 128 else len)) m o 0.

Fixpoint option_from (n : nat) (m : list Z) (o opt_len : Z) (name_got : bool) : option bool :=
  match n with
  | O => Some false
  | S n =>
      c ← ld8 m o;
      if negb name_got then
        if (c =? 0) && (4 <=? opt_len) then option_from n m (o + 1) 1 true
        else if negb (isalpha c) then Some false
        else option_from n m (o + 1) (opt_len + 1) false
      else
        if (c =? 0) && (1 <=? opt_len) then Some true
        else if negb (isdigit c) then Some false
        else option_from n m (o + 1) (opt_len + 1) true
  end.
Definition check_option (m : list Z) (o len : Z) : option bool :=
  let len := u16 len in
  option_from (Z.to_nat (if 20 <? len then 20 else len)) m o 0 false.

(** [name] is the array of 20 bytes of which [name_len] are set. *)
Fixpoint mode_from (n : nat) (m : list Z) (o : Z) (name : list Z) (name_len : Z) (match_ : bool) : option bool :=
  match n with
  | O => Some false
  | S n =>
      c ← ld8 m o;
      if (c =? 0) && match_ then Some true
      else if negb (isalpha c) then Some false
      else
        name ← st8 name name_len (toupper c);
        let name_len := name_len + 1 in
        let is_ (s : string) := bool_decide (take (Z.to_nat name_len) name = bytes_of s) in
        if ((name_len =? 4) && is_ "MAIL"%string) || ((name_len =? 5) && is_ "OCTET"%string) ||
           ((name_len =? 8) && is_ "NETASCII"%string)
        then mode_from n m (o + 1) name 0 true
        else mode_from n m (o + 1) name name_len match_
  end.
Definition check_mode (m : list Z) (o len : Z) : option bool :=
  let len := u16 len in
  mode_from (Z.to_nat (if 20 <? len then 20 else len)) m o (replicate 20 0) 0 false.

Definition tftp_accept (ok : bool) : M D E unit :=
  if ok then dpi_finalize_parser dl;; dpi_ignore_parser else dpi_fire_parser.

(** TFTP_INFO stands alone in the last test of the source, and is always true. *)
Definition tftp_udp_parser : M D E unit :=
  no ← not_port 69;
  if no : bool then dpi_fire_parser
  else
    len ← dpi_pkt_len;
    m ← dpi_pkt_ptr;
    if len <? 4 then skip
    else
      op ← lift (ld16 m 0);
      let opcode := htons op in
      if negb (opcode =? TFTP_RRQ) && negb (opcode =? TFTP_WRQ) && negb (opcode =? TFTP_DATA) &&
         negb (opcode =? TFTP_ACK) && negb (opcode =? TFTP_ERROR) && negb (opcode =? TFTP_OACK) && negb (TFTP_INFO =? 0)
      then dpi_fire_parser
      else
        let len := u32 (len - 2) in
        if (opcode =? TFTP_RRQ) || (opcode =? TFTP_WRQ) then
          nlen ← lift (check_file_name m 2 len);
          if nlen =? -1 then dpi_fire_parser
          else
            let len := u32 (len - nlen) in
            if len <? 4 then dpi_fire_parser
            else ok ← lift (check_mode m (2 + nlen) len); tftp_accept ok
        else if opcode =? TFTP_OACK then ok ← lift (check_option m 2 len); tftp_accept ok
        else skip.

Definition tftp_new_session : M D E unit :=
  no ← not_port 69;
  if no : bool then skip else dpi_hire_parser.

Definition dpi_tftp_udp_parser : parser :=
  Parser (Some tftp_new_session) None (Some tftp_udp_parser) None None "tftp" IPPROTO_UDP DPI_PARSER_TFTP.
End programs.

(** `len > k ? k : len` of a 16-bit length *)
Lemma cut_le k x : 0 <= k -> 0 <= x ->
  Z.of_nat (Z.to_nat (if k <? u16 x then k else u16 x)) <= x /\ Z.of_nat (Z.to_nat (if k <? u16 x then k else u16 x)) <= k.
Proof.
  intros Hk Hx. unfold u16. pose proof (Z.mod_le x (2 ^ 16)). pose proof (Z.mod_pos_bound x (2 ^ 16)).
  destruct (Z.ltb_spec k (x mod 2 ^ 16)); lia.
Qed.

(** ** The scanning functions read inside the bytes they are given *)

Lemma check_ref_name_ok n m o e : bytes m -> holds m o (Z.of_nat n) -> exists b, check_ref_name_from n m o e = Some b.
Proof.
  intros Hb. revert o e. induction n as [|n IH]; intros o e [? ?]; cbn [check_ref_name_from]; [eauto|].
  destruct (ld8_ok m o Hb) as (c & -> & _); [split; lia|]. cbn [mbind option_bind].
  destruct (c =? 0); [apply IH; split; lia|]. destruct (_ && _); [apply IH; split; lia|eauto].
Qed.
Lemma file_name_ok n m o l : bytes m -> holds m o (Z.of_nat n) -> 0 <= l ->
  exists r, file_name_from n m o l = Some r /\ (r = -1 \/ 1 < r <= l + Z.of_nat n).
Proof.
  intros Hb. revert o l. induction n as [|n IH]; intros o l [? ?] Hl; cbn [file_name_from]; [eauto|].
  destruct (ld8_ok m o Hb) as (c & -> & _); [split; lia|]. cbn [mbind option_bind].
  destruct (c =? 0) eqn:Ec, (0 <? l) eqn:El; cbn [andb].
  { apply Z.ltb_lt in El. eexists. split; [done|]. right. lia. }
  all: destruct (negb (is_path_name c)); [eauto|]; destruct (IH (o + 1) (l + 1)) as (r & -> & Hr); [split; lia|lia|];
    exists r; split; [done|lia].
Qed.
Lemma option_ok n m o l g : bytes m -> holds m o (Z.of_nat n) -> exists b, option_from n m o l g = Some b.
Proof.
  intros Hb. revert o l g. induction n as [|n IH]; intros o l g [? ?]; cbn [option_from]; [eauto|].
  destruct (ld8_ok m o Hb) as (c & -> & _); [split; lia|]. cbn [mbind option_bind].
  destruct (negb g), (c =? 0), (4 <=? l), (1 <=? l), (isalpha c), (isdigit c); cbn [negb andb]; eauto; apply IH; split; lia.
Qed.
(** The name buffer of 20 bytes is never overrun: at most 20 bytes are looked at. *)
Lemma mode_ok n m o nm l g : bytes m -> holds m o (Z.of_nat n) -> bytes nm -> length nm = 20%nat -> 0 <= l ->
  l + Z.of_nat n <= 20 -> exists b, mode_from n m o nm l g = Some b.
Proof.
  intros Hb. revert o nm l g. induction n as [|n IH]; intros o nm l g [? ?] Hn Hl Hge Hle; cbn [mode_from]; [eauto|].
  destruct (ld8_ok m o Hb) as (c & -> & _); [split; lia|]. cbn [mbind option_bind].
  destruct (_ && _); [eauto|]. destruct (negb (isalpha c)); [eauto|].
  destruct (st8_ok nm l (toupper c)) as (nm' & -> & L' & B' & _); [split; lia|done|]. cbn [mbind option_bind].
  destruct (_ || _); apply IH; try done; try (split; lia); lia.
Qed.

Lemma check_file_name_ok m o len : bytes m -> holds m o len -> 0 <= len ->
  exists r, check_file_name m o len = Some r /\ (r = -1 \/ 1 < r <= len).
Proof.
  intros Hb [? ?] Hl. destruct (cut_le 128 len) as [Hn _]; [lia|lia|].
  unfold check_file_name. set (n := Z.to_nat (if 128 <? u16 len then 128 else u16 len)) in *.
  destruct (file_name_ok n m o 0 Hb) as (r & Hr & Hrange); [split; lia|done|]. exists r. split; [exact Hr|lia].
Qed.
Lemma check_option_ok m o len : bytes m -> holds m o len -> 0 <= len -> exists b, check_option m o len = Some b.
Proof.
  intros Hb [? ?] Hl. destruct (cut_le 20 len) as [Hn _]; [lia|lia|]. apply option_ok; [done|split; lia].
Qed.
Lemma check_mode_ok m o len : bytes m -> holds m o len -> 0 <= len -> exists b, check_mode m o len = Some b.
Proof.
  intros Hb [? ?] Hl. destruct (cut_le 20 len) as [Hn Hn']; [lia|lia|].
  apply mode_ok; [done|split; lia|by apply Forall_replicate|done|done|lia].
Qed.

(** ** The parsers keep their promises *)

Section laws.
Context {D E : Type} (ext_ok : E -> Prop) (shape : Z -> Z -> D -> Prop) (dl : lists (option (@deleter D))) (slack : Z).
Context (Hdl : dl_ok dl) (Hsl : 0 <= slack).
Abbreviation runs := (runs_well ext_ok shape dl slack).
Abbreviation starts := (starts_well ext_ok shape dl slack).

Lemma port_starts ipp t x : in_range t ->
  starts ipp t None (no ← not_port x; if no : bool then skip else dpi_hire_parser).
Proof.
  intros Ht. apply hire_starts; [done|]. intros w0 b a od w S Hs Hb. unfold not_port. p1. p1. p1; p1; [by eexists|by eexists].
Qed.
Lemma hire_starts_well ipp t del : in_range t -> starts ipp t del dpi_hire_parser.
Proof. intros Ht. apply hire_starts; [done|]. intros w0 b a od w S Hs Hb. p1. by eexists. Qed.

Lemma echo_runs ipp : runs ipp DPI_PARSER_ECHO None (echo_parser dl).
Proof. pstart. unfold echo_parser, not_port. prun. Qed.

Lemma dhcp_runs ipp : runs ipp DPI_PARSER_DHCP None (dhcp_parser dl).
Proof.
  pstart. unfold dhcp_parser, dhcp_hlen, dhcp_magic_off, dhcp_magic, sizeof_dhcp_hdr. prun; pbound.
Qed.

Lemma ntp_times_ok t w0 b a od w m :
  st ext_ok shape dl slack Running t w0 b a od w -> bytes m -> holds m 0 48 ->
  wp (ntp_times dl m) (fun _ v => step ext_ok shape dl slack t w0 v) w.
Proof. intros S Hb [? ?]. unfold ntp_times. prun; pbound. Qed.
Lemma ntp_runs ipp : runs ipp DPI_PARSER_NTP None (ntp_udp_parser dl).
Proof.
  pstart. unfold ntp_udp_parser, not_port. repeat p1; try pdone; try pbound.
  - destruct (check_ref_name_ok 4 (b_mem (pkt_buffer w0)) 12 false) as [r Hr]; [done|pbound|]. eapply wp_lift; [exact Hr|].
    p1; [prun|]. eapply ntp_times_ok; [eassumption|done|pbound].
  - eapply ntp_times_ok; [eassumption|done|pbound].
Qed.

Lemma tftp_accept_ok t w0 b a od w r :
  st ext_ok shape dl slack Running t w0 b a od w ->
  wp (tftp_accept dl r) (fun _ v => step ext_ok shape dl slack t w0 v) w.
Proof. intros S. unfold tftp_accept. prun. Qed.
Lemma tftp_runs ipp : runs ipp DPI_PARSER_TFTP None (tftp_udp_parser dl).
Proof.
  pstart. unfold tftp_udp_parser, not_port. repeat p1; try pdone; try pbound.
  - pbool. set (L := b_len (pkt_buffer w0)) in *. set (m := b_mem (pkt_buffer w0)) in *.
    assert (HL : u32 (L - 2) = L - 2) by (apply u32_id; unfold is_u32; lia). rewrite HL in *.
    destruct (check_file_name_ok m 2 (L - 2)) as (r & Hr & Hrange); [done|split; lia|lia|].
    eapply wp_lift; [exact Hr|].
    p1; [prun|]. pbool.
    assert (HL2 : u32 (L - 2 - r) = L - 2 - r) by (apply u32_id; unfold is_u32; lia). rewrite HL2.
    p1; [prun|]. p1. pbool. destruct (check_mode_ok m (2 + r) (L - 2 - r)) as (x' & Hx); [done|split; lia|lia|].
    eapply wp_lift; [exact Hx|]. by eapply tftp_accept_ok.
  - pbool. set (L := b_len (pkt_buffer w0)) in *. set (m := b_mem (pkt_buffer w0)) in *.
    assert (HL : u32 (L - 2) = L - 2) by (apply u32_id; unfold is_u32; lia). rewrite HL in *.
    destruct (check_option_ok m 2 (L - 2)) as (x' & Hx); [done|split; lia|lia|].
    eapply wp_lift; [exact Hx|]. by eapply tftp_accept_ok.
Qed.
End laws.
End ParsersUdp.
