(* ===== verification/ParsersTcp.v ===== *)
(** * Parsers with a small state: SSH, Redis, MongoDB, Cassandra (dpi/parsers)

    Each keeps an object with the sequence number it expects next in either direction.
    `w = client ? &data->client : &data->server` is a pair of accessors on the object;
    an assignment through a pointer is a store of the object. *)

From S2P Require Import Prelude Helper Bitmap Wire Frag Parser ParserLaw ParserTac.
Import Helper.Bytes Helper.Seq Wire.Wire Parser.Parser ParserLaw.ParserLaw ParserTac.ParserTac.

Module ParsersTcp.

(** ** dpi_ssh.c *)

Definition SSH_STAGE_BANNER : Z := 0.
Definition SSH_STAGE_KEY : Z := 1.
Definition DPI_THRT_SSH_VER_1 : Z := 13.

Record ssh_wing := SshWing { ssh_seq : Z; stage : Z }.
Record ssh_data := SshData { ssh_client : ssh_wing; ssh_server : ssh_wing; ssh_ver : Z }.
Definition ssh_w (cl : bool) (d : ssh_data) : ssh_wing := if cl then ssh_client d else ssh_server d.
Definition ssh_put (cl : bool) (x : ssh_wing) (d : ssh_data) : ssh_data :=
  if cl then SshData x (ssh_server d) (ssh_ver d) else SshData (ssh_client d) x (ssh_ver d).
Definition ssh_new (ci si : Z) : ssh_data := SshData (SshWing ci SSH_STAGE_BANNER) (SshWing si SSH_STAGE_BANNER) 0.

(** The loop to the end of the line, with [n] bytes left: NULL for -1, else the end and
    the first space. *)
Fixpoint ssh_line (n : nat) (m : list Z) (eol : Z) (space : option Z) : option (option (Z * option Z)) :=
  match n with
  | O => Some (Some (eol, space))
  | S n =>
      c ← ld8 m eol;
      if (c =? 13) || (c =? 10) then Some (Some (eol, space))
      else if (c =? 32) && negb (bool_decide (is_Some space)) then ssh_line n m (eol + 1) (Some eol)
      else if negb (isprint c) then Some None
      else ssh_line n m (eol + 1) space
  end.
(** while (++ eol < end && ...): [n] bytes are left behind eol *)
Fixpoint ssh_skip_eol (n : nat) (m : list Z) (eol : Z) : option Z :=
  match n with
  | O => Some eol
  | S n => c ← ld8 m eol; if (c =? 13) || (c =? 10) then ssh_skip_eol n m (eol + 1) else Some eol
  end.

Section ssh.
Context {D E : Type} `{!Obj D ssh_data} (dl : lists (option (@deleter D))) (tc : Z -> threat_conf).

(** ptr is the start of the packet *)
Definition ssh_banner (a : Z) (m : list Z) (len : Z) : M D E Z :=
  if len <? 8 then mret 0
  else
    eq ← lift (mem_eq m 0 (bytes_of "SSH-"));
    if negb eq then mret (-1)
    else
      p4 ← lift (ld8 m 4);
      if negb (p4 =? 49) && negb (p4 =? 50) then mret (-1)
      else
        p5 ← lift (ld8 m 5);
        p6 ← lift (ld8 m 6);
        if negb (p5 =? 46) || negb (isdigit p6) then mret (-1)
        else
          r ← lift (ssh_line (Z.to_nat len) m 0 None);
          match r with
          | None => mret (-1)
          | Some (eol, space) =>
              if eol =? len then mret 0
              else
                cl ← is_client;
                (if negb cl then
                   dpi_ep_set_server_ver (drop 8 m) (match space with Some sp => sp - 8 | None => eol - 8 end)
                 else skip);;
                eol ← lift (ssh_skip_eol (Z.to_nat (len - (eol + 1))) m (eol + 1));
                p7 ← lift (ld8 m 7);
                d ← deref_as a;
                let ver := if (7 <? eol) && (p4 =? 49) && (p6 =? 57) && (p7 =? 57)
                           then if ssh_ver d =? 1 then 1 else 2
                           else if ssh_ver d =? 1 then 1 else u8 (p4 - 48) in
                store_as a (SshData (ssh_client d) (ssh_server d) ver);;
                (if ver <? 2 then threat tc DPI_THRT_SSH_VER_1 else skip);;
                mret eol
          end.

(** w->seq += len; dpi_set_asm_seq(p, w->seq) *)
Definition ssh_advance (a : Z) (cl : bool) (len : Z) : M D E unit :=
  d ← deref_as a;
  let q := u32 (ssh_seq (ssh_w cl d) + len) in
  store_as a (ssh_put cl (SshWing q (stage (ssh_w cl d))) d);;
  dpi_set_asm_seq q.

Definition ssh_parser : M D E unit :=
  with_data false ssh_new (fun a =>
    d ← deref_as a;
    if negb (stage (ssh_client d) =? SSH_STAGE_BANNER) && negb (stage (ssh_server d) =? SSH_STAGE_BANNER) then skip
    else
      cl ← is_client;
      init ← get (fun w => init_seq (this_wing w));
      if ssh_seq (ssh_w cl d) =? init then
        m ← dpi_pkt_ptr;
        len ← dpi_pkt_len;
        eol ← ssh_banner a m len;
        if eol =? -1 then dpi_fire_parser
        else if eol =? 0 then skip
        else
          (if negb cl then dpi_finalize_parser dl else skip);;
          q ← dpi_ptr_2_seq eol;
          d ← deref_as a;
          store_as a (ssh_put cl (SshWing q SSH_STAGE_KEY) d);;
          dpi_set_asm_seq q;;
          d ← deref_as a;
          (if negb (stage (ssh_server d) =? SSH_STAGE_BANNER) then dpi_ignore_parser else skip);;
          ssh_advance a cl (u32 (len - eol))
      else
        inp ← dpi_is_seq_in_pkt (ssh_seq (ssh_w cl d));
        if inp : bool then
          s0 ← dpi_pkt_seq;
          len ← dpi_pkt_len;
          ssh_advance a cl (u32 (len - u32_distance s0 (ssh_seq (ssh_w cl d))))
        else dpi_fire_parser).

Definition ssh_new_session : M D E unit := dpi_hire_parser.
Definition dpi_ssh_parser : parser :=
  Parser (Some ssh_new_session) (Some free) (Some ssh_parser) None None "ssh" IPPROTO_TCP DPI_PARSER_SSH.
End ssh.

(** ** dpi_redis.c *)

Record redis_data := RedisData { redis_client : Z; redis_server : Z; has_client_hdr : bool }.
Definition redis_new (ci si : Z) : redis_data := RedisData ci si false.
Definition redis_w (cl : bool) (d : redis_data) : Z := if cl then redis_client d else redis_server d.
Definition redis_put (cl : bool) (q : Z) (d : redis_data) : redis_data :=
  if cl then RedisData q (redis_server d) (has_client_hdr d) else RedisData (redis_client d) q (has_client_hdr d).

Definition is_redis_head (m : list Z) (o : Z) : option bool :=
  c ← ld8 m o; Some ((c =? 42) || (c =? 43) || (c =? 45) || (c =? 36) || (c =? 58)).

(** while ( *p >= '0' && *p <= '9' && l > 0): the byte is read before l is tested.  The
    pointer, l and the number of digits. *)
Fixpoint redis_digits (l : nat) (m : list Z) (p cnt : Z) : option (Z * Z * Z) :=
  c ← ld8 m p;
  match l with
  | O => Some (p, 0, cnt)
  | S l' => if isdigit c then redis_digits l' m (p + 1) (cnt + 1) else Some (p, Z.of_nat l, cnt)
  end.

Definition is_redis_client_hdr (m : list Z) (o len : Z) : option Z :=
  if len <? 8 then Some 0
  else
    c ← ld8 m o;
    if negb (c =? 42) then Some (-1)
    else
      '(p, l, cnt) ← redis_digits (Z.to_nat (len - 1)) m (o + 1) 0;
      if l <? 6 then Some 0
      else
        c0 ← ld8 m p;
        c1 ← ld8 m (p + 1);
        if (9 <? cnt) || (cnt =? 0) || negb (c0 =? 13) || negb (c1 =? 10) then Some (-1)
        else
          c ← ld8 m (p + 2);
          if negb (c =? 36) then Some (-1)
          else
            '(p, l, cnt) ← redis_digits (Z.to_nat (l - 3)) m (p + 3) 0;
            if l <? 2 then Some 0
            else
              c0 ← ld8 m p;
              c1 ← ld8 m (p + 1);
              if (9 <? cnt) || (cnt =? 0) || negb (c0 =? 13) || negb (c1 =? 10) then Some (-1) else Some 1.

Section redis.
Context {D E : Type} `{!Obj D redis_data} (dl : lists (option (@deleter D))).

Definition redis_parser : M D E unit :=
  with_data true redis_new (fun a =>
    cl ← is_client;
    d ← deref_as a;
    pos ← seek (redis_w cl d);
    match pos with
    | None => dpi_fire_parser
    | Some (off, len) =>
        m ← dpi_pkt_ptr;
        if cl : bool then
          let q := u32 (redis_client d + len) in
          if has_client_hdr d then store_as a (redis_put true q d);; dpi_set_asm_seq q
          else
            res ← lift (is_redis_client_hdr m off len);
            if res =? 1 then store_as a (RedisData q (redis_server d) true);; dpi_set_asm_seq q
            else if res =? -1 then dpi_fire_parser else skip
        else
          hd ← lift (is_redis_head m off);
          if hd && has_client_hdr d then dpi_finalize_parser dl;; dpi_ignore_parser
          else dpi_fire_parser
    end).

Definition redis_new_session : M D E unit := dpi_hire_parser.
Definition dpi_redis_parser : parser :=
  Parser (Some redis_new_session) (Some free) (Some redis_parser) None None "redis" IPPROTO_TCP DPI_PARSER_REDIS.
End redis.

(** ** dpi_mongodb.c *)

Record mongodb_data := MongodbData {
  mongo_client_seq : Z; mongo_client_req_id : Z; mongo_server_seq : Z;
  client_pkt_size : Z; client_pkt_parsed : Z; client_req : bool
}.
#[export] Instance eta_mongodb_data : Eta mongodb_data := fun d => MongodbData
  (mongo_client_seq d) (mongo_client_req_id d) (mongo_server_seq d) (client_pkt_size d) (client_pkt_parsed d) (client_req d).
Definition mongodb_new (ci si : Z) : mongodb_data := MongodbData ci 0 si 0 0 false.
Definition mongo_w (cl : bool) (d : mongodb_data) : Z := if cl then mongo_client_seq d else mongo_server_seq d.
Definition mongo_put (cl : bool) (q : Z) (d : mongodb_data) : mongodb_data :=
  if cl then d <| mongo_client_seq := q |> else d <| mongo_server_seq := q |>.

Definition mongodb_check_opcode (op : Z) (cl : bool) : bool :=
  if op =? 0 then false
  else if op =? 1 then negb cl
  else if op =? 1000 then true
  else if (2001 <=? op) && (op <=? 2007) then cl
  else if (op =? 2008) || (op =? 2009) then false
  else if op =? 2010 then cl
  else if op =? 2011 then negb cl
  else false.

Section mongodb.
Context {D E : Type} `{!Obj D mongodb_data} (dl : lists (option (@deleter D))).

(** dpi_set_asm_seq(p, w->seq+len); w->seq = w->seq + len *)
Definition mongodb_advance (a : Z) (cl : bool) (len : Z) : M D E unit :=
  d ← deref_as a;
  let q := u32 (mongo_w cl d + len) in
  dpi_set_asm_seq q;;
  store_as a (mongo_put cl q d).

Definition mongodb_parser : M D E unit :=
  with_data true mongodb_new (fun a =>
    cl ← is_client;
    d ← deref_as a;
    pos ← seek (mongo_w cl d);
    match pos with
    | None => dpi_fire_parser
    | Some (off, len) =>
        m ← dpi_pkt_ptr;
        if cl && client_req d then
          let parsed := u32 (client_pkt_parsed d + len) in
          store_as a (d <| client_pkt_parsed := parsed |>);;
          (if u32 (client_pkt_size d + 16) <? parsed then dpi_fire_parser else skip);;
          mongodb_advance a cl len
        else if len <? 16 then skip
        else
          size ← lift (ld32 m off);
          request_id ← lift (ld32 m (off + 4));
          response_to ← lift (ld32 m (off + 8));
          op_code ← lift (ld32 m (off + 12));
          if negb (mongodb_check_opcode op_code cl) then dpi_fire_parser
          else if cl : bool then
            if negb (response_to =? 0) then dpi_fire_parser
            else
              store_as a (d <| mongo_client_req_id := request_id |> <| client_pkt_size := size |>
                            <| client_pkt_parsed := len |> <| client_req := true |>);;
              mongodb_advance a cl len
          else if client_req d && (mongo_client_req_id d =? response_to) then
            dpi_finalize_parser dl;; dpi_ignore_parser;; mongodb_advance a cl len
          else dpi_fire_parser
    end).

Definition mongodb_new_session : M D E unit := dpi_hire_parser.
Definition dpi_mongodb_parser : parser :=
  Parser (Some mongodb_new_session) (Some free) (Some mongodb_parser) None None "mongodb" IPPROTO_TCP DPI_PARSER_MONGODB.
End mongodb.

(** ** dpi_cassandra.c *)

Definition MAX_FRAME_LENGTH : Z := 256 * 1024 * 1024.
Record cassandra_wing := CassandraWing { cas_seq : Z; header_cnt : Z }.
Record cassandra_data := CassandraData { cas_client : cassandra_wing; cas_server : cassandra_wing }.
Definition cassandra_new (ci si : Z) : cassandra_data := CassandraData (CassandraWing ci 0) (CassandraWing si 0).
Definition cas_w (cl : bool) (d : cassandra_data) : cassandra_wing := if cl then cas_client d else cas_server d.
Definition cas_put (cl : bool) (x : cassandra_wing) (d : cassandra_data) : cassandra_data :=
  if cl then CassandraData x (cas_server d) else CassandraData (cas_client d) x.

(** while (left > 4): [n] rounds *)
Fixpoint internode_from (n : nat) (m : list Z) (o : Z) : option bool :=
  match n with
  | O => Some false
  | S n => eq ← mem_eq m o [0xCA; 0x55; 0x2D; 0xFA]; if eq : bool then Some true else internode_from n m (o + 1)
  end.
Definition is_cassandra_internode (m : list Z) (o len : Z) : option bool :=
  internode_from (Z.to_nat ((if 32 <? len then 32 else len) - 4)) m o.

(** CO_RESPONSE is 1, CO_REQUEST 0 *)
Definition ca_opcode : list Z := [1; 0; 1; 1; 0; 0; 1; 0; 1; 0; 0; 0; 1; 0; 1; 0; 1].

Section cassandra.
Context {D E : Type} `{!Obj D cassandra_data} (dl : lists (option (@deleter D))).

Definition set_cassandra_svr : M D E unit := upd_ep (fun e => e <| cassandra_svr := true |>).

(** From the opcode on *)
Definition cassandra_frame (a : Z) (cl direction : bool) (len opcode packet_len : Z) : M D E unit :=
  match ca_opcode !! Z.to_nat opcode with
  | None => dpi_fire_parser
  | Some co =>
      if negb (co =? (if direction then 1 else 0)) then dpi_fire_parser
      else if MAX_FRAME_LENGTH <? u32 (packet_len + 9) then dpi_fire_parser
      else
        d ← deref_as a;
        let x := cas_w cl d in
        let q := u32 (cas_seq x + len) in
        dpi_set_asm_seq q;;
        let d := cas_put cl (CassandraWing q (if negb (header_cnt x =? 0xff) then u8 (header_cnt x + 1) else header_cnt x)) d in
        store_as a d;;
        if negb (header_cnt (cas_client d) =? 0) && negb (header_cnt (cas_server d) =? 0) then
          set_cassandra_svr;; dpi_finalize_parser dl;; dpi_ignore_parser
        else skip
  end.

Definition cassandra_parser : M D E unit :=
  with_data true cassandra_new (fun a =>
    cl ← is_client;
    d ← deref_as a;
    pos ← seek (cas_seq (cas_w cl d));
    match pos with
    | None => dpi_fire_parser
    | Some (off, len) =>
        m ← dpi_pkt_ptr;
        inter ← lift (is_cassandra_internode m off len);
        if inter : bool then set_cassandra_svr;; dpi_finalize_parser dl
        else
          p0 ← lift (ld8 m off);
          let direction := negb (Z.land p0 0x80 =? 0) in
          let version := Z.land p0 0x7f in
          if eqb cl direction then dpi_fire_parser
          else if version <? 3 then
            if len <? 8 then skip
            else
              opcode ← lift (ld8 m (off + 3));
              n ← lift (ld32 m (off + 4));
              cassandra_frame a cl direction len opcode (ntohl n)
          else if version <=? 4 then
            if len <? 9 then skip
            else
              opcode ← lift (ld8 m (off + 4));
              n ← lift (ld32 m (off + 5));
              cassandra_frame a cl direction len opcode (ntohl n)
          else dpi_fire_parser
    end).

Definition cassandra_new_session : M D E unit := dpi_hire_parser.
Definition dpi_cassandra_parser : parser :=
  Parser (Some cassandra_new_session) (Some free) (Some cassandra_parser) None None "cassandra" IPPROTO_TCP DPI_PARSER_CASSANDRA.
End cassandra.

(** ** The objects are well typed *)

Definition ssh_wing_ok (x : ssh_wing) : Prop := is_u32 (ssh_seq x) /\ is_u8 (stage x).
Definition ssh_ok (d : ssh_data) : Prop := ssh_wing_ok (ssh_client d) /\ ssh_wing_ok (ssh_server d) /\ is_u8 (ssh_ver d).
Definition redis_ok (d : redis_data) : Prop := is_u32 (redis_client d) /\ is_u32 (redis_server d).
Definition mongodb_ok (d : mongodb_data) : Prop :=
  is_u32 (mongo_client_seq d) /\ is_u32 (mongo_client_req_id d) /\ is_u32 (mongo_server_seq d) /\
  is_u32 (client_pkt_size d) /\ is_u32 (client_pkt_parsed d).
Definition cas_wing_ok (x : cassandra_wing) : Prop := is_u32 (cas_seq x) /\ is_u8 (header_cnt x).
Definition cassandra_ok (d : cassandra_data) : Prop := cas_wing_ok (cas_client d) /\ cas_wing_ok (cas_server d).

(** ** The scanning functions *)

Lemma ssh_line_ok n m o sp : bytes m -> holds m o (Z.of_nat n) ->
  exists r, ssh_line n m o sp = Some r /\ forall e s, r = Some (e, s) -> o <= e <= o + Z.of_nat n.
Proof.
  intros Hb. revert o sp. induction n as [|n IH]; intros o sp [? ?]; cbn [ssh_line].
  { eexists. split; [done|]. intros e s [= <- <-]. lia. }
  destruct (ld8_ok m o Hb) as (c & -> & _); [split; lia|]. cbn [mbind option_bind].
  destruct (_ || _); [eexists; split; [done|]; intros e s [= <- <-]; lia|].
  assert (IH' : forall sp', exists r, ssh_line n m (o + 1) sp' = Some r /\ forall e s, r = Some (e, s) -> o <= e <= o + Z.of_nat (S n)).
  { intros sp'. destruct (IH (o + 1) sp') as (r & -> & Hr); [split; lia|]. exists r. split; [done|].
    intros e s Hes. specialize (Hr e s Hes). lia. }
  destruct (_ && _); [apply IH'|]. destruct (negb _); [by eexists|apply IH'].
Qed.
Lemma ssh_skip_ok n m o : bytes m -> holds m o (Z.of_nat n) -> exists e, ssh_skip_eol n m o = Some e /\ o <= e <= o + Z.of_nat n.
Proof.
  intros Hb. revert o. induction n as [|n IH]; intros o [? ?]; cbn [ssh_skip_eol]; [eexists; split; [done|lia]|].
  destruct (ld8_ok m o Hb) as (c & -> & _); [split; lia|]. cbn [mbind option_bind].
  destruct (_ || _); [|eexists; split; [done|lia]]. destruct (IH (o + 1)) as (e & -> & He); [split; lia|].
  eexists. split; [done|lia].
Qed.

(** The digits are followed by one byte that is read, too. *)
Lemma redis_digits_ok l m p c : bytes m -> holds m p (Z.of_nat l + 1) ->
  exists p' l' c', redis_digits l m p c = Some (p', l', c') /\ 0 <= l' /\ p' + l' = p + Z.of_nat l /\ p <= p'.
Proof.
  intros Hb. revert p c. induction l as [|l IH]; intros p c [? ?]; cbn [redis_digits];
    destruct (ld8_ok m p Hb) as (x & -> & _); try (split; lia); cbn [mbind option_bind].
  { eexists _, _, _. split; [done|lia]. }
  destruct (isdigit x); [|eexists _, _, _; split; [done|lia]].
  destruct (IH (p + 1) (c + 1)) as (p' & l' & c' & -> & ? & ? & ?); [split; lia|]. eexists _, _, _. split; [done|lia].
Qed.
Lemma redis_hdr_ok m o len : bytes m -> holds m o (len + 1) -> exists r, is_redis_client_hdr m o len = Some r.
Proof.
  intros Hb [? ?]. unfold is_redis_client_hdr. destruct (Z.ltb_spec len 8); [eauto|].
  destruct (ld8_ok m o Hb) as (c & -> & _); [split; lia|]. cbn [mbind option_bind]. destruct (negb _); [eauto|].
  destruct (redis_digits_ok (Z.to_nat (len - 1)) m (o + 1) 0 Hb) as (p & l & cnt & -> & ? & ? & ?); [split; lia|].
  cbn [mbind option_bind]. destruct (Z.ltb_spec l 6); [eauto|].
  destruct (ld8_ok m p Hb) as (c0 & -> & _); [split; lia|]. destruct (ld8_ok m (p + 1) Hb) as (c1 & -> & _); [split; lia|].
  cbn [mbind option_bind]. destruct (_ || _ || _ || _); [eauto|].
  destruct (ld8_ok m (p + 2) Hb) as (c2 & -> & _); [split; lia|]. cbn [mbind option_bind]. destruct (negb _); [eauto|].
  destruct (redis_digits_ok (Z.to_nat (l - 3)) m (p + 3) 0 Hb) as (p' & l' & cnt' & -> & ? & ? & ?); [split; lia|].
  cbn [mbind option_bind]. destruct (Z.ltb_spec l' 2); [eauto|].
  destruct (ld8_ok m p' Hb) as (x0 & -> & _); [split; lia|]. destruct (ld8_ok m (p' + 1) Hb) as (x1 & -> & _); [split; lia|].
  cbn [mbind option_bind]. destruct (_ || _ || _ || _); eauto.
Qed.

Lemma internode_from_ok n m o : bytes m -> (n = 0%nat \/ holds m o (Z.of_nat n + 3)) -> exists b, internode_from n m o = Some b.
Proof.
  intros Hb. revert o. induction n as [|n IH]; intros o Hh; cbn [internode_from]; [eauto|]. destruct Hh as [|[? ?]]; [done|].
  destruct (mem_eq_ok m o [0xCA; 0x55; 0x2D; 0xFA] Hb) as [[|] ->]; [split; cbn [length]; lia| |]; cbn [mbind option_bind]; [eauto|].
  apply IH. right. split; lia.
Qed.
Lemma internode_ok m o len : bytes m -> holds m o len -> exists b, is_cassandra_internode m o len = Some b.
Proof.
  intros Hb [? ?]. apply internode_from_ok; [done|]. destruct (Z.ltb_spec 32 len); [right; split; lia|].
  destruct (Z.ltb_spec 4 len); [right; split; lia|left; lia].
Qed.

(** ** The parsers keep their promises *)

Section laws.
Context {D E : Type} (ext_ok : E -> Prop) (shape : Z -> Z -> D -> Prop) (dl : lists (option (@deleter D))) (slack : Z).
Context (Hdl : dl_ok dl).
Abbreviation runs := (runs_well ext_ok shape dl slack IPPROTO_TCP).
Abbreviation st := (st ext_ok shape dl slack).
Abbreviation done_at t w0 := (fun _ v => step ext_ok shape dl slack t w0 v).


Ltac pok := cbv [ssh_ok ssh_wing_ok redis_ok mongodb_ok cassandra_ok cas_wing_ok];
  repeat match goal with |- _ /\ _ => split end; done.

Section ssh_law.
Context `{!Obj D ssh_data} (tc : Z -> threat_conf) (Hsh : typed_as shape IPPROTO_TCP DPI_PARSER_SSH ssh_ok).

Lemma ssh_put_ok cl x d : ssh_ok d -> ssh_wing_ok x -> ssh_ok (ssh_put cl x d).
Proof. intros (? & ? & ?) ?. by destruct cl. Qed.
Lemma ssh_w_ok cl d : ssh_ok d -> ssh_wing_ok (ssh_w cl d).
Proof. intros (? & ? & ?). by destruct cl. Qed.

Lemma ssh_advance_ok w0 b a x w cl len :
  s_ip_proto (sess w0) = IPPROTO_TCP ->
  st Running DPI_PARSER_SSH w0 b a (Some (inj x)) w -> a <> NULL -> ssh_ok x ->
  wp (ssh_advance a cl len) (done_at DPI_PARSER_SSH w0) w.
Proof.
  intros Hipp S Ha Hx. unfold ssh_advance. repeat p1.
  - eapply typed_inj; [exact Hsh|]. apply ssh_put_ok; [done|]. split; [apply u32_range|]. by apply ssh_w_ok.
  - apply u32_range.
  - pdone.
Qed.

Lemma ssh_banner_ok w0 b a x w :
  inv ext_ok shape dl slack w0 ->
  s_ip_proto (sess w0) = IPPROTO_TCP ->
  st Running DPI_PARSER_SSH w0 b a (Some (inj x)) w -> a <> NULL -> ssh_ok x ->
  wp (ssh_banner tc a (b_mem (pkt_buffer w0)) (b_len (pkt_buffer w0)))
     (fun eol v => exists x', ssh_ok x' /\ st Running DPI_PARSER_SSH w0 b a (Some (inj x')) v) w.
Proof.
  intros I Hipp S Ha Hx. destruct (buffer_facts _ _ _ _ _ I) as (Hbm & Hl0 & Hroom & Hone & Hseq & Hnul).
  set (m := b_mem (pkt_buffer w0)) in *. set (len := b_len (pkt_buffer w0)) in *. unfold ssh_banner.
  p1; [p1; eauto|]. p1. p1; [pbound|]. p1; [p1; eauto|]. p1. p1; [pbound|]. p1; [p1; eauto|]. p1. p1; [pbound|]. p1. p1; [pbound|].
  p1; [p1; eauto|]. p1. pbool.
  destruct (ssh_line_ok (Z.to_nat len) m 0 None Hbm) as (r & Hr & He); [split; lia|]. eapply wp_lift; [exact Hr|].
  destruct r as [[eol sp]|]; [|p1; eauto]. specialize (He eol sp eq_refl). p1; [p1; eauto|]. pbool. p1. p1. p1.
  match goal with |- wp _ ?R _ => set (K := R) end.
  assert (HK : forall v, st Running DPI_PARSER_SSH w0 b a (Some (inj x)) v -> K tt v).
  { intros v Sv. unfold K. p1.
    destruct (ssh_skip_ok (Z.to_nat (len - (eol + 1))) m (eol + 1) Hbm) as (e & He' & _); [split; lia|].
    eapply wp_lift; [exact He'|]. p1. p1; [pbound|]. p1. p1. p1. p1.
    { eapply typed_inj; [exact Hsh|]. destruct Hx as (? & ? & ?). split_and!; [done|done|]. cbn.
      repeat case_match; try done. apply u8_range. }
    p1. match goal with H : context [SshData _ _ ?v] |- _ => set (ver := v) in * end.
    assert (Hok : ssh_ok (SshData (ssh_client x) (ssh_server x) ver)).
    { destruct Hx as (? & ? & ?). split_and!; [done|done|]. cbn. unfold ver. repeat case_match; try done. apply u8_range. }
    p1; repeat p1; eauto. }
  p1; [|p1; by apply HK]. p1; [|by apply HK]. apply (Hnul 8). lia.
Qed.

Lemma ssh_runs : runs DPI_PARSER_SSH (Some free) (ssh_parser dl tc).
Proof.
  pstart. unfold ssh_parser. eapply wp_with_data; [exact S|exact Hipp|exact Hslot|exact Hsh| | |].
  { intros c s0 Hc Hs0. pok. }
  { intros. pdone. }
  intros a' x v Ha Hx Sv. clear S. repeat p1; try pdone.
  - eapply wp_mono; [eapply ssh_banner_ok; eassumption|]. cbv beta. intros eol v2 (x2 & Hx2 & S2).
    p1; [prun|]. p1; [prun|]. p1. match goal with |- wp _ ?R _ => set (K := R) end.
    assert (HK : forall v3, st Running DPI_PARSER_SSH w0 b a' (Some (inj x2)) v3 -> K tt v3).
    { intros v3 S3. unfold K. repeat p1.
      - eapply typed_inj; [exact Hsh|]. apply ssh_put_ok; [done|]. by split.
      - done.
      - eapply ssh_advance_ok; [done|eassumption|done|]. apply ssh_put_ok; [done|]. by split.
      - eapply ssh_advance_ok; [done|eassumption|done|]. apply ssh_put_ok; [done|]. by split. }
    p1; [p1; by apply HK|p1; by apply HK].
  - unfold dpi_is_seq_in_pkt. repeat p1; try pdone. by eapply ssh_advance_ok.
Qed.
End ssh_law.

Section redis_law.
Context `{!Obj D redis_data} (Hsh : typed_as shape IPPROTO_TCP DPI_PARSER_REDIS redis_ok).
Lemma redis_runs : runs DPI_PARSER_REDIS (Some free) (redis_parser dl).
Proof.
  pstart. unfold redis_parser. eapply wp_with_data; [exact S|exact Hipp|exact Hslot|exact Hsh| | |].
  { intros c s0 Hc Hs0. pok. }
  { intros. pdone. }
  intros a' x v Ha [Hx1 Hx2] Sv. clear S. repeat p1; try pdone; try apply u32_range;
    try (eapply typed_inj; [exact Hsh|]; split; [apply u32_range|done]).
  - destruct (redis_hdr_ok (b_mem (pkt_buffer w0)) off n) as [r Hr]; [done|pbound|]. eapply wp_lift; [exact Hr|].
    repeat p1; try pdone; try apply u32_range. eapply typed_inj; [exact Hsh|]; split; [apply u32_range|done].
  - unfold is_redis_head. destruct (ld8_ok (b_mem (pkt_buffer w0)) off) as (c & Hc & _); [done|pbound|].
    eapply wp_lift; [by rewrite Hc|]. prun.
Qed.
End redis_law.

Section mongodb_law.
Context `{!Obj D mongodb_data} (Hsh : typed_as shape IPPROTO_TCP DPI_PARSER_MONGODB mongodb_ok).
Lemma mongodb_advance_ok w0 b a x w cl len :
  s_ip_proto (sess w0) = IPPROTO_TCP ->
  st Running DPI_PARSER_MONGODB w0 b a (Some (inj x)) w -> a <> NULL -> mongodb_ok x ->
  wp (mongodb_advance a cl len) (done_at DPI_PARSER_MONGODB w0) w.
Proof.
  intros Hipp S Ha (? & ? & ? & ? & ?). unfold mongodb_advance. repeat p1; try pdone; [apply u32_range|].
  eapply typed_inj; [exact Hsh|]. destruct cl; split_and!; try done; apply u32_range.
Qed.
Lemma mongodb_runs : runs DPI_PARSER_MONGODB (Some free) (mongodb_parser dl).
Proof.
  pstart. unfold mongodb_parser. eapply wp_with_data; [exact S|exact Hipp|exact Hslot|exact Hsh| | |].
  { intros c s0 Hc Hs0. pok. }
  { intros. pdone. }
  intros a' x v Ha Hx Sv. clear S. pose proof Hx as (? & ? & ? & ? & ?).
  repeat p1; try pdone; try pbound.
  - eapply typed_inj; [exact Hsh|]. split_and!; try done. apply u32_range.
  - eapply mongodb_advance_ok; [done|eassumption|done|]. split_and!; try done. apply u32_range.
  - eapply mongodb_advance_ok; [done|eassumption|done|]. split_and!; try done. apply u32_range.
  - eapply typed_inj; [exact Hsh|]. split_and!; try done. cbn. unfold is_u32. lia.
  - eapply mongodb_advance_ok; [done|eassumption|done|]. split_and!; try done. cbn. unfold is_u32. lia.
  - by eapply mongodb_advance_ok.
Qed.
End mongodb_law.

Section cassandra_law.
Context `{!Obj D cassandra_data} (Hsh : typed_as shape IPPROTO_TCP DPI_PARSER_CASSANDRA cassandra_ok).
Lemma cas_put_ok cl x d : cassandra_ok d -> cas_wing_ok x -> cassandra_ok (cas_put cl x d).
Proof. intros (? & ?) ?. by destruct cl. Qed.
Lemma cassandra_frame_ok w0 b a x w cl dir len op n :
  s_ip_proto (sess w0) = IPPROTO_TCP ->
  st Running DPI_PARSER_CASSANDRA w0 b a (Some (inj x)) w -> a <> NULL -> cassandra_ok x ->
  wp (cassandra_frame dl a cl dir len op n) (done_at DPI_PARSER_CASSANDRA w0) w.
Proof.
  intros Hipp S Ha Hx. unfold cassandra_frame, set_cassandra_svr. destruct (ca_opcode !! _) as [co|]; [|prun]. repeat p1; try pdone; [apply u32_range|].
  eapply typed_inj; [exact Hsh|]. apply cas_put_ok; [done|]. split; [apply u32_range|]. cbn [header_cnt].
  destruct (negb (header_cnt (cas_w cl x) =? 255)); [apply u8_range|]. destruct Hx as [[? ?] [? ?]]. by destruct cl.
Qed.
Lemma cassandra_runs : runs DPI_PARSER_CASSANDRA (Some free) (cassandra_parser dl).
Proof.
  pstart. unfold cassandra_parser, set_cassandra_svr. eapply wp_with_data; [exact S|exact Hipp|exact Hslot|exact Hsh| | |].
  { intros c s0 Hc Hs0. pok. }
  { intros. pdone. }
  intros a' x v Ha Hx Sv. clear S. repeat p1; try pdone.
  destruct (internode_ok (b_mem (pkt_buffer w0)) off n) as [r Hr]; [done|pbound|]. eapply wp_lift; [exact Hr|].
  repeat p1; try pdone; try pbound; by eapply cassandra_frame_ok.
Qed.
End cassandra_law.
End laws.
End ParsersTcp.
