(* ===== verification/ParsersRpc.v ===== *)
(** * Parsers of cluster services: Spark, ZooKeeper, gRPC (dpi/parsers)

    Spark and ZooKeeper also look at sessions whose beginning was not seen (midstream).
    ZooKeeper has one parser for TCP and one for UDP, with objects of different types.
    ZooKeeper and gRPC read behind the end of a packet, at most [RPC_SLACK] bytes. *)

From S2P Require Import Prelude Helper Bitmap Wire Frag Parser ParserLaw ParserTac.
Import Helper.Bytes Helper.Seq Wire.Wire Parser.Parser ParserLaw.ParserLaw ParserTac.ParserTac.

Module ParsersRpc.

Definition RPC_SLACK : Z := 32.

(** new_session of a server on a port above the well-known ones, and its midstream twin:
    the source tests p->sport twice. *)
Section ports.
Context {D E : Type}.
Definition high_port_session : M D E unit :=
  prt ← get (fun w => port (server (sess w)));
  if 1024 <=? prt then dpi_hire_parser else skip.
Definition high_port_mid_sess : M D E unit :=
  prt ← get (fun w => sport (pk w));
  if (1024 <=? prt) && (1024 <=? prt) then dpi_hire_parser else skip.
End ports.

(** ** dpi_spark.c *)

Definition NIO_BUFFER_LIMIT : Z := 256 * 1024.
Definition MESSAGE_HEADER_LEN : Z := 8 + 1 + 8 + 4.
Definition MESSAGE_ONEWAY_HEADER_LEN : Z := 8 + 1 + 4.

Record spark_wing := SparkWing { spark_seq : Z; request_id : Z }.
Record spark_data := SparkData { spark_client : spark_wing; spark_server : spark_wing; spark_request : bool }.
Definition spark_new (ci si : Z) : spark_data := SparkData (SparkWing ci 0) (SparkWing si 0) false.
Definition spark_w (cl : bool) (d : spark_data) : spark_wing := if cl then spark_client d else spark_server d.
Definition spark_put (cl : bool) (x : spark_wing) (d : spark_data) : spark_data :=
  if cl then SparkData x (spark_server d) (spark_request d) else SparkData (spark_client d) x (spark_request d).

Section spark.
Context {D E : Type} `{!Obj D spark_data} (dl : lists (option (@deleter D))).

(** dpi_set_asm_seq(p, w->seq+len); w->seq = w->seq + len *)
Definition spark_advance (a : Z) (cl : bool) (len : Z) : M D E unit :=
  d ← deref_as a;
  let q := u32 (spark_seq (spark_w cl d) + len) in
  dpi_set_asm_seq q;;
  store_as a (spark_put cl (SparkWing q (request_id (spark_w cl d))) d).

Definition accept : M D E unit := dpi_finalize_parser dl;; dpi_ignore_parser.
Definition bad_msg_len (hdr msg_len size : Z) : bool :=
  (NIO_BUFFER_LIMIT <? msg_len) || negb (u32 (msg_len + hdr) =? size).

(** The switch on the type of the message: the bytes behind its header are at [o], [len]
    of them. *)
Definition spark_message (a : Z) (cl : bool) (m : list Z) (o len size ty : Z) : M D E unit :=
  d ← deref_as a;
  let next := spark_advance a cl len in
  let matched id := spark_request d && (id =? request_id (spark_client d)) in
  if ty <=? 2 then dpi_fire_parser
  else if ty =? 3 then
    if len <? 8 + 4 then skip
    else
      id ← lift (ld64 m o);
      n ← lift (ld32 m (o + 8));
      if bad_msg_len MESSAGE_HEADER_LEN (ntohl n) size then dpi_fire_parser
      else
        store_as a (SparkData (SparkWing (spark_seq (spark_client d)) (be64toh id)) (spark_server d) true);;
        accept;; next
  else if ty =? 4 then
    if len <? 8 + 4 then skip
    else
      id ← lift (ld64 m o);
      n ← lift (ld32 m (o + 8));
      if bad_msg_len MESSAGE_HEADER_LEN (ntohl n) size then dpi_fire_parser
      else if matched (be64toh id) then accept;; next else dpi_fire_parser
  else if ty =? 5 then
    if len <? 8 then skip
    else
      id ← lift (ld64 m o);
      if matched (be64toh id) then accept;; next else dpi_fire_parser
  else if ty =? 6 then
    if len <? 4 then skip
    else
      n ← lift (ld32 m o);
      if (NIO_BUFFER_LIMIT <? ntohl n) || (size <? ntohl n) then dpi_fire_parser
      else store_as a (SparkData (spark_client d) (spark_server d) true);; next
  else if ty <=? 8 then
    if len <? 4 then skip
    else
      n ← lift (ld32 m o);
      if (NIO_BUFFER_LIMIT <? ntohl n) || (size <? ntohl n) then dpi_fire_parser
      else if spark_request d then accept;; next else dpi_fire_parser
  else if ty =? 9 then
    if len <? 4 then skip
    else
      n ← lift (ld32 m o);
      if bad_msg_len MESSAGE_ONEWAY_HEADER_LEN (ntohl n) size then dpi_fire_parser else accept
  else dpi_fire_parser;; next.

(** The sequence number moves on by [len] after the 9 bytes of the header were taken off. *)
Definition spark_parser : M D E unit :=
  with_data false spark_new (fun a =>
    cl ← is_client;
    d ← deref_as a;
    pos ← seek (spark_seq (spark_w cl d));
    match pos with
    | None => dpi_fire_parser
    | Some (off, len) =>
        m ← dpi_pkt_ptr;
        if cl && spark_request d then spark_advance a cl len
        else if len <? 9 then skip
        else
          size ← lift (ld64 m off);
          if NIO_BUFFER_LIMIT <? be64toh size then dpi_fire_parser
          else
            ty ← lift (ld8 m (off + 8));
            spark_message a cl m (off + 9) (u32 (len - 9)) (be64toh size) ty
    end).

Definition spark_midstream : M D E unit :=
  m ← dpi_pkt_ptr;
  len ← dpi_pkt_len;
  if MESSAGE_ONEWAY_HEADER_LEN <=? len then
    size ← lift (ld64 m 0);
    if NIO_BUFFER_LIMIT <? be64toh size then dpi_fire_parser
    else
      ty ← lift (ld8 m 8);
      if ty =? 9 then
        n ← lift (ld32 m 9);
        if bad_msg_len MESSAGE_ONEWAY_HEADER_LEN (ntohl n) (be64toh size) then dpi_fire_parser else accept
      else dpi_fire_parser
  else dpi_fire_parser.

Definition dpi_spark_parser : parser :=
  Parser (Some high_port_session) (Some free) (Some spark_parser) (Some high_port_mid_sess) (Some spark_midstream)
    "spark" IPPROTO_TCP DPI_PARSER_SPARK.
End spark.

(** ** dpi_zookeeper.c *)

Definition ELECT_STATUS_NONE : Z := 0.
Definition ELECT_STATUS_INIT : Z := 1.
Definition ELECT_STATUS_FOLLOW : Z := 2.
Definition ELECT_STATUS_CONFIRM : Z := 3.
Definition ELECT_STATUS_INVALID : Z := 4.
Definition FOLLOWER_STATUS_NONE : Z := 0.
Definition FOLLOWER_STATUS_CLI_REQ : Z := 1.
Definition FOLLOWER_STATUS_SRV_RES : Z := 2.
Definition FOLLOWER_STATUS_INVALID : Z := 3.
Definition UDP_SESSION_START : Z := 1.

Record zookeeper_udp_data := ZookeeperUdpData { udp_elec_status : Z; xid : Z }.
Record zookeeper_wing := ZookeeperWing { zk_seq : Z; cli_cnt_init : Z }.
Record zookeeper_data := ZookeeperData {
  zk_client : zookeeper_wing; zk_server : zookeeper_wing; elec_status : Z; follower_status : Z
}.
#[export] Instance eta_zookeeper_data : Eta zookeeper_data := fun d => ZookeeperData
  (zk_client d) (zk_server d) (elec_status d) (follower_status d).
Definition zookeeper_new (ci si : Z) : zookeeper_data := ZookeeperData (ZookeeperWing ci 0) (ZookeeperWing si 0) 0 0.
Definition zk_w (cl : bool) (d : zookeeper_data) : zookeeper_wing := if cl then zk_client d else zk_server d.
Definition zk_put (cl : bool) (x : zookeeper_wing) (d : zookeeper_data) : zookeeper_data :=
  if cl then d <| zk_client := x |> else d <| zk_server := x |>.

(** for (i = i0; i < i0 + n; i ++) if (ptr[i]) return false *)
Fixpoint all_zero (n : nat) (m : list Z) (o : Z) : option bool :=
  match n with
  | O => Some true
  | S n => c ← ld8 m o; if c =? 0 then all_zero n m (o + 1) else Some false
  end.
(** A packet shorter than expected passes. *)
Definition check_len (m : list Z) (o len total : Z) : option bool :=
  if len =? total then Some true else all_zero (Z.to_nat (total - len)) m (o + len).

(** The answer and the new elec_status *)
Definition zk_elect (m : list Z) (o len expected next : Z) (sized : bool) : option (bool * Z) :=
  ok ← check_len m o expected len;
  if ok : bool then
    if sized then
      n ← be32 m o;
      Some (if n =? 0x1c then (true, next) else (false, ELECT_STATUS_INVALID))
    else Some (true, next)
  else Some (false, ELECT_STATUS_INVALID).
Definition parse_zk_election (m : list Z) (o len : Z) (st : Z) : option (bool * Z) :=
  if st =? ELECT_STATUS_INVALID then Some (false, st)
  else if st =? ELECT_STATUS_NONE then zk_elect m o len 8 ELECT_STATUS_INIT false
  else if st =? ELECT_STATUS_INIT then zk_elect m o len 32 ELECT_STATUS_FOLLOW true
  else if st =? ELECT_STATUS_FOLLOW then zk_elect m o len 32 ELECT_STATUS_CONFIRM true
  else Some (false, ELECT_STATUS_INVALID).

(** The answer and the new follower_status *)
Definition parse_zk_follower_talk (m : list Z) (o len : Z) (cl : bool) (st : Z) : option (bool * Z) :=
  let invalid := Some (false, FOLLOWER_STATUS_INVALID) in
  if st =? FOLLOWER_STATUS_INVALID then Some (false, st)
  else
    ok ← check_len m o (if cl then 28 else 20) len;
    if negb ok then invalid
    else
      ty ← be32 m o;
      if (if cl then negb (ty =? 0x0b) && negb (ty =? 0x10) else negb (ty =? 0x0a)) then invalid
      else
        dlen ← (if cl then be32 m (o + 12) else Some 8);
        if negb (dlen =? 8) then invalid
        else
          pkt_len ← be32 m (if cl then o + 24 else o + 12);
          if negb (pkt_len =? 0xffffffff) then invalid
          else if st =? FOLLOWER_STATUS_NONE then Some (true, FOLLOWER_STATUS_CLI_REQ)
          else if st =? FOLLOWER_STATUS_CLI_REQ then Some (true, FOLLOWER_STATUS_SRV_RES)
          else invalid.

(** 0: not enough data, 1: match, -1: no match; and the new cli_cnt_init.  [known]:
    the endpoint is a ZooKeeper server or client.  `left` wraps around at 32 bits. *)
Definition parse_zk_client_connection (m : list Z) (o len : Z) (cl known : bool) (init : Z) : option (Z * Z) :=
  if negb (init =? 0) then Some (1, init)
  else if len <? 4 then Some (0, init)
  else
    pkt_len ← be32 m o;
    let left := u32 (len - 4) in
    if (cl && (pkt_len <? 44)) || (negb cl && (pkt_len <? 36)) then Some (-1, init)
    else if left <? 4 then Some (0, init)
    else
      ver ← be32 m (o + 4);
      let left := u32 (left - 4) in
      if negb (ver =? 0) then Some (-1, init)
      else
        let left := if cl then u32 (left - 8) else left in
        let o := if cl then o + 16 else o + 8 in
        let left := u32 (left - 4) in
        if left <? 8 then Some (0, init)
        else
          id ← ld64 m (o + 4);
          if cl && negb (be64toh id =? 0) && negb known then Some (-1, init) else Some (1, 1).

Section zookeeper.
Context {D E : Type} `{!Obj D zookeeper_data} `{!Obj D zookeeper_udp_data} (dl : lists (option (@deleter D))).

Definition zk_mark (svr : bool) : M D E unit :=
  upd_ep (fun e => if svr then e <| zookeeper_svr := true |> else e <| zookeeper_clt := true |>).
Definition zk_accept : M D E unit :=
  ing ← is_ingress;
  zk_mark ing;;
  dpi_finalize_parser dl;;
  dpi_ignore_parser.

Definition zk_advance (a : Z) (cl : bool) (len : Z) : M D E unit :=
  d ← deref_as a;
  let q := u32 (zk_seq (zk_w cl d) + len) in
  dpi_set_asm_seq q;;
  store_as a (zk_put cl (ZookeeperWing q (cli_cnt_init (zk_w cl d))) d).

(** The third attempt of the parser: a client's connection *)
Definition zk_connection (a : Z) (cl : bool) (m : list Z) (off len : Z) : M D E unit :=
  d ← deref_as a;
  known ← get (fun w => zookeeper_svr (ep w) || zookeeper_clt (ep w));
  r ← lift (parse_zk_client_connection m off len cl known (cli_cnt_init (zk_w cl d)));
  store_as a (zk_put cl (ZookeeperWing (zk_seq (zk_w cl d)) r.2) d);;
  d ← deref_as a;
  if r.1 =? 1 then
    (if negb (cli_cnt_init (zk_client d) =? 0) && negb (cli_cnt_init (zk_server d) =? 0) then zk_accept else skip);;
    zk_advance a cl len
  else if r.1 =? -1 then dpi_fire_parser else skip.

Definition zookeeper_tcp_parser : M D E unit :=
  with_data true zookeeper_new (fun a =>
    cl ← is_client;
    d ← deref_as a;
    pos ← seek (zk_seq (zk_w cl d));
    match pos with
    | None => dpi_fire_parser
    | Some (off, len) =>
        m ← dpi_pkt_ptr;
        r ← lift (parse_zk_election m off len (elec_status d));
        store_as a (d <| elec_status := r.2 |>);;
        if r.1 : bool then
          (if r.2 =? ELECT_STATUS_CONFIRM then zk_accept else skip);;
          zk_advance a cl len
        else
          d ← deref_as a;
          r ← lift (parse_zk_follower_talk m off len cl (follower_status d));
          store_as a (d <| follower_status := r.2 |>);;
          if r.1 : bool then
            (if r.2 =? FOLLOWER_STATUS_SRV_RES then zk_accept else skip);;
            zk_advance a cl len
          else zk_connection a cl m off len
    end).

Definition zookeeper_tcp_midstream : M D E unit :=
  m ← dpi_pkt_ptr;
  len ← dpi_pkt_len;
  if 12 <=? len then
    pkt_len ← lift (be32 m 0);
    xid ← lift (be32 m 4);
    opcode ← lift (be32 m 8);
    ing ← is_ingress;
    cl ← is_client;
    if (s32 pkt_len =? 8) && (s32 xid =? -2) && (s32 opcode =? 11) then
      dpi_finalize_parser dl;; dpi_ignore_parser;; zk_mark (ing && negb cl)
    else if (s32 pkt_len =? 16) && (s32 xid =? -2) then
      dpi_finalize_parser dl;; dpi_ignore_parser;; zk_mark (negb ing && negb cl)
    else dpi_fire_parser
  else dpi_fire_parser.

Definition zookeeper_udp_parser : M D E unit :=
  with_data true (fun _ _ => ZookeeperUdpData 0 0) (fun a =>
    cl ← is_client;
    len ← dpi_pkt_len;
    m ← dpi_pkt_ptr;
    ok ← lift (check_len m 0 (if (cl : bool) then 4 else 36) len);
    if negb ok then dpi_fire_parser
    else
      four ← lift (check_len m 0 4 len);
      if four : bool then
        x ← lift (be32 m 0);
        store_as a (ZookeeperUdpData UDP_SESSION_START x)
      else
        d ← deref_as a;
        if udp_elec_status d =? UDP_SESSION_START then
          x ← lift (be32 m 0);
          if x =? xid d then zk_accept else dpi_fire_parser
        else dpi_fire_parser).

Definition dpi_zookeeper_tcp_parser : parser :=
  Parser (Some high_port_session) (Some free) (Some zookeeper_tcp_parser) (Some high_port_mid_sess)
    (Some zookeeper_tcp_midstream) "zookeeper" IPPROTO_TCP DPI_PARSER_ZOOKEEPER.
Definition dpi_zookeeper_udp_parser : parser :=
  Parser (Some high_port_session) (Some free) (Some zookeeper_udp_parser) None None
    "zookeeper" IPPROTO_UDP DPI_PARSER_ZOOKEEPER.
End zookeeper.

(** ** dpi_grpc.c *)

Definition HTTP2_FRAME_HEADER_LENGTH : Z := 9.
Definition HTTP2_MAGIC_FRAME_LENGTH : Z := 24.
Definition HTTP2_HEADERS : Z := 1.
Definition HTTP2_SETTINGS : Z := 4.
Definition HTTP2_SETTING_SENT : Z := 0x01.
Definition HTTP2_SETTING_ACKED : Z := 0x02.
Definition HTTP2_FLAGS_ACK : Z := 0x01.
Definition HTTP2_LEN_MAX : Z := 10 * 1024.
Definition http2clientmagic : list Z :=
  [0x50; 0x52; 0x49; 0x20; 0x2a; 0x20; 0x48; 0x54; 0x54; 0x50; 0x2f; 0x32; 0x2e; 0x30; 0x0d; 0x0a;
   0x0d; 0x0a; 0x53; 0x4d; 0x0d; 0x0a; 0x0d; 0x0a].

Record grpc_wing := GrpcWing { grpc_seq : Z; h2_strm_hdr_cnt : Z; pktcnt : Z; setting_flag : Z }.
#[export] Instance eta_grpc_wing : Eta grpc_wing := fun x => GrpcWing
  (grpc_seq x) (h2_strm_hdr_cnt x) (pktcnt x) (setting_flag x).
Record grpc_data := GrpcData { grpc_client : grpc_wing; grpc_server : grpc_wing; isgrpc : bool }.
#[export] Instance eta_grpc_data : Eta grpc_data := fun d => GrpcData (grpc_client d) (grpc_server d) (isgrpc d).
Definition grpc_new (ci si : Z) : grpc_data := GrpcData (GrpcWing ci 0 0 0) (GrpcWing si 0 0 0) false.
Definition grpc_w (cl : bool) (d : grpc_data) : grpc_wing := if cl then grpc_client d else grpc_server d.
Definition grpc_upd (cl : bool) (f : grpc_wing -> grpc_wing) (d : grpc_data) : grpc_data :=
  if cl then d <| grpc_client ::= f |> else d <| grpc_server ::= f |>.
Definition set_setting (f : Z) (x : grpc_wing) : grpc_wing := x <| setting_flag ::= fun g => FLAGS_SET g f |>.
Definition acked (x : grpc_wing) : bool := FLAGS_TEST (setting_flag x) HTTP2_SETTING_ACKED.

(** (hdrstrmlen - pos > strlen(s)) && strncasecmp(ptr + pos, s, strlen(s)) == 0; the source
    tests the first letter on its own before. *)
Definition token_at (m : list Z) (o len pos : Z) (s : list Z) : option bool :=
  if Z.of_nat (length s) <? u32 (len - pos) then case_eq m (o + pos) s else Some false.
Fixpoint grpc_find (n : nat) (m : list Z) (o len pos : Z) : option bool :=
  if len <=? pos then Some false
  else
    match n with
    | O => None
    | S n =>
        c ← ld8 m (o + pos);
        if c =? 64 then
          let pos := pos + 2 in
          ct ← token_at m o len pos (bytes_of "content-type");
          if ct : bool then
            let pos := pos + 12 + 1 in
            app ← token_at m o len pos (bytes_of "application/grpc");
            if app : bool then Some true else grpc_find n m o len (pos + 1)
          else grpc_find n m o len (pos + 1)
        else grpc_find n m o len (pos + 1)
    end.
Definition grpc_find_grpc_content_type (m : list Z) (o hdrstrmlen : Z) : option bool :=
  grpc_find (Z.to_nat hdrstrmlen) m o hdrstrmlen 0.

(** What a whole frame changes: [None] inside when the parser is fired.  [o]: the stream. *)
Definition grpc_frame (cl : bool) (m : list Z) (o strm_len ty fl : Z) (d : grpc_data) : option (option grpc_data) :=
  let count d := Some (Some (grpc_upd cl (fun x => x <| h2_strm_hdr_cnt ::= fun n => u32 (n + 1) |>) d)) in
  let ack := (ty =? HTTP2_SETTINGS) && FLAGS_TEST fl HTTP2_FLAGS_ACK in
  if cl then
    if h2_strm_hdr_cnt (grpc_client d) =? 1 then
      if negb (ty =? HTTP2_SETTINGS) then Some None else count (grpc_upd true (set_setting HTTP2_SETTING_SENT) d)
    else if negb (h2_strm_hdr_cnt (grpc_client d) =? 0) then
      let d := if ack && negb (acked (grpc_server d)) then grpc_upd false (set_setting HTTP2_SETTING_ACKED) d else d in
      if (ty =? HTTP2_HEADERS) && negb (isgrpc d) then
        b ← grpc_find_grpc_content_type m o strm_len;
        count (d <| isgrpc := b |>)
      else count d
    else count d
  else
    if h2_strm_hdr_cnt (grpc_server d) =? 0 then
      if negb (ty =? HTTP2_SETTINGS) then Some None else count (grpc_upd false (set_setting HTTP2_SETTING_SENT) d)
    else count (if negb (acked (grpc_client d)) && ack then grpc_upd true (set_setting HTTP2_SETTING_ACKED) d else d).

Section grpc.
Context {D E : Type} `{!Obj D grpc_data} (dl : lists (option (@deleter D))).

(** The loop over the frames; the answer is false when the parser has returned. *)
Fixpoint grpc_frames (n : nat) (a : Z) (cl : bool) (m : list Z) (ptr len : Z) : M D E bool :=
  if len <? HTTP2_FRAME_HEADER_LENGTH then mret true
  else
    match n with
    | O => abort
    | S n =>
        d ← deref_as a;
        let first := cl && (h2_strm_hdr_cnt (grpc_client d) =? 0) in
        magic ← lift (if first then mem_eq m ptr http2clientmagic else Some true);
        if negb magic then dpi_fire_parser;; mret false
        else
          strm ← lift (if first then Some HTTP2_MAGIC_FRAME_LENGTH else be24 m ptr);
          ty ← lift (if first then Some 0 else ld8 m (ptr + 3));
          fl ← lift (if first then Some 0 else ld8 m (ptr + 4));
          let hdr := if first then 0 else HTTP2_FRAME_HEADER_LENGTH in
          let ptr := ptr + hdr in
          if len <? hdr + strm then
            (if HTTP2_LEN_MAX <? hdr + strm then dpi_fire_parser else skip);; mret false
          else
            r ← lift (grpc_frame cl m ptr strm ty fl d);
            match r with
            | None => dpi_fire_parser;; mret false
            | Some d =>
                q ← dpi_ptr_2_seq (ptr + strm);
                store_as a (grpc_upd cl (fun x => x <| grpc_seq := q |>) d);;
                dpi_set_asm_seq q;;
                grpc_frames n a cl m (ptr + strm) (len - (strm + hdr))
            end
    end.

(** After the loop: the packet is counted and the preface judged. *)
Definition grpc_verdict (a : Z) (cl : bool) : M D E unit :=
  d ← deref_as a;
  let d := grpc_upd cl (fun x => x <| pktcnt ::= fun n => u32 (n + 1) |>) d in
  store_as a d;;
  if negb (acked (grpc_client d)) && (2 <=? pktcnt (grpc_server d)) then dpi_fire_parser
  else if negb (acked (grpc_server d)) && (2 <=? pktcnt (grpc_client d)) then dpi_fire_parser
  else if acked (grpc_client d) && acked (grpc_server d) && isgrpc d then dpi_finalize_parser dl;; dpi_ignore_parser
  else skip.

Definition grpc_parser : M D E unit :=
  with_data false grpc_new (fun a =>
    cl ← is_client;
    d ← deref_as a;
    pos ← seek (grpc_seq (grpc_w cl d));
    match pos with
    | None => dpi_fire_parser
    | Some (off, len) =>
        m ← dpi_pkt_ptr;
        if (len <? HTTP2_FRAME_HEADER_LENGTH) ||
           (cl && (h2_strm_hdr_cnt (grpc_client d) =? 0) && (len <? HTTP2_MAGIC_FRAME_LENGTH))
        then dpi_fire_parser
        else
          go ← grpc_frames (Z.to_nat len) a cl m off len;
          if go : bool then grpc_verdict a cl else skip
    end).

Definition grpc_new_session : M D E unit := dpi_hire_parser.
Definition dpi_grpc_tcp_parser : parser :=
  Parser (Some grpc_new_session) (Some free) (Some grpc_parser) None None "grpc" IPPROTO_TCP DPI_PARSER_GRPC.
End grpc.

(** ** The objects are well typed *)

Definition spark_wing_ok (x : spark_wing) : Prop := is_u32 (spark_seq x) /\ 0 <= request_id x < 2 ^ 64.
Definition spark_ok (d : spark_data) : Prop := spark_wing_ok (spark_client d) /\ spark_wing_ok (spark_server d).
Definition zk_wing_ok (x : zookeeper_wing) : Prop := is_u32 (zk_seq x) /\ is_u8 (cli_cnt_init x).
Definition zookeeper_ok (d : zookeeper_data) : Prop :=
  zk_wing_ok (zk_client d) /\ zk_wing_ok (zk_server d) /\ is_u8 (elec_status d) /\ is_u8 (follower_status d).
Definition zookeeper_udp_ok (d : zookeeper_udp_data) : Prop := is_u8 (udp_elec_status d) /\ is_u32 (xid d).
Definition grpc_wing_ok (x : grpc_wing) : Prop :=
  is_u32 (grpc_seq x) /\ is_u32 (h2_strm_hdr_cnt x) /\ is_u32 (pktcnt x) /\ is_u8 (setting_flag x).
Definition grpc_ok (d : grpc_data) : Prop := grpc_wing_ok (grpc_client d) /\ grpc_wing_ok (grpc_server d).

(** ** The scanning functions *)

Lemma all_zero_ok n m o : bytes m -> holds m o (Z.of_nat n) -> exists b, all_zero n m o = Some b.
Proof.
  intros Hb. revert o. induction n as [|n IH]; intros o [? ?]; cbn [all_zero]; [eauto|].
  destruct (ld8_ok m o Hb) as (c & -> & _); [split; lia|]. cbn [mbind option_bind].
  destruct (_ =? _); [apply IH; split; lia|eauto].
Qed.
Lemma check_len_ok m o k len : bytes m -> holds m o len -> 0 <= k -> exists b, check_len m o k len = Some b.
Proof.
  intros Hb [? ?] Hk. unfold check_len. destruct (_ =? _); [eauto|]. destruct (Z.ltb_spec k len).
  - apply all_zero_ok; [done|split; lia].
  - replace (Z.to_nat (len - k)) with 0%nat by lia. cbn. eauto.
Qed.

Section zk_scan.
Context (m : list Z) (o len : Z) (Hb : bytes m) (Ho : 0 <= o) (Hl : 0 <= len) (Hr : o + len + 28 <= Z.of_nat (length m)).
Lemma zk_elect_ok k next sized : 0 <= k -> is_u8 next -> exists r, zk_elect m o len k next sized = Some r /\ is_u8 r.2.
Proof.
  intros Hk Hn. unfold zk_elect. destruct (check_len_ok m o k len Hb) as [c ->]; [split; lia|done|]. oread; try done. by destruct (_ =? _).
Qed.
Lemma zk_election_ok s : is_u8 s -> exists r, parse_zk_election m o len s = Some r /\ is_u8 r.2.
Proof. intros Hs. unfold parse_zk_election. repeat (case_match; [first [by eexists|by apply zk_elect_ok]|]). by eexists. Qed.
Lemma zk_follower_ok cl s : is_u8 s -> exists r, parse_zk_follower_talk m o len cl s = Some r /\ is_u8 r.2.
Proof.
  intros Hs. unfold parse_zk_follower_talk. o1; [by oread|].
  destruct (check_len_ok m o (if cl then 28 else 20) len Hb) as [c ->]; [split; lia|by destruct cl|].
  destruct cl; oread; done.
Qed.
Lemma zk_conn_ok cl known s : is_u8 s -> exists r, parse_zk_client_connection m o len cl known s = Some r /\ is_u8 r.2.
Proof. intros Hs. unfold parse_zk_client_connection. destruct cl; oread; done. Qed.
End zk_scan.

Lemma token_at_ok m o len pos s : bytes m -> 0 <= o -> 0 <= pos -> o + pos + Z.of_nat (length s) <= Z.of_nat (length m) ->
  exists b, token_at m o len pos s = Some b.
Proof. intros. unfold token_at. destruct (_ <? _); [|eauto]. apply case_eq_ok; [done|split; lia]. Qed.
Lemma grpc_find_ok n m o len pos : bytes m -> 0 <= o -> 0 <= pos -> o + len + RPC_SLACK <= Z.of_nat (length m) ->
  len - pos <= Z.of_nat n -> exists b, grpc_find n m o len pos = Some b.
Proof.
  intros Hb Ho. revert pos. induction n as [|n IH]; intros pos Hp Hr Hn; cbn [grpc_find].
  { rewrite (proj2 (Z.leb_le len pos)) by lia. eauto. }
  unfold RPC_SLACK in Hr. destruct (Z.leb_spec len pos); [eauto|]. destruct (ld8_ok m (o + pos) Hb) as (c & -> & _); [split; lia|].
  cbn [mbind option_bind]. destruct (_ =? 64); [|apply IH; unfold RPC_SLACK; lia].
  destruct (token_at_ok m o len (pos + 2) (bytes_of "content-type")) as [ct ->]; [done|done|lia|plen; lia|].
  cbn [mbind option_bind]. destruct ct; [|apply IH; unfold RPC_SLACK; lia].
  destruct (token_at_ok m o len (pos + 2 + 12 + 1) (bytes_of "application/grpc")) as [ap ->]; [done|done|lia|plen; lia|].
  cbn [mbind option_bind]. destruct ap; [eauto|]. apply IH; unfold RPC_SLACK; lia.
Qed.

Lemma set_setting_ok f x : grpc_wing_ok x -> is_u8 f -> grpc_wing_ok (set_setting f x).
Proof.
  intros (? & ? & ? & ?) Hf. split_and!; try done. cbn. unfold FLAGS_SET, is_u8 in *. apply (lor_bound _ _ 8); lia.
Qed.
Lemma grpc_upd_ok cl f d : grpc_ok d -> (forall x, grpc_wing_ok x -> grpc_wing_ok (f x)) -> grpc_ok (grpc_upd cl f d).
Proof. intros [? ?] Hf. destruct cl; split; cbn; auto. Qed.
Lemma count_ok x : grpc_wing_ok x -> grpc_wing_ok (x <| h2_strm_hdr_cnt ::= fun n => u32 (n + 1) |>).
Proof. intros (? & ? & ? & ?). split_and!; try done. apply u32_range. Qed.
Lemma grpc_frame_ok cl m o n ty fl d : bytes m -> 0 <= o -> 0 <= n -> o + n + RPC_SLACK <= Z.of_nat (length m) -> grpc_ok d ->
  exists r, grpc_frame cl m o n ty fl d = Some r /\ forall d', r = Some d' -> grpc_ok d'.
Proof.
  intros Hb Ho Hn Hr Hd. unfold grpc_frame.
  assert (HC : forall d, grpc_ok d -> exists r, Some (Some (grpc_upd cl (fun x => x <| h2_strm_hdr_cnt ::= fun n => u32 (n + 1) |>) d)) = Some r /\
    forall d', r = Some d' -> grpc_ok d').
  { intros d1 H1. eexists. split; [done|]. intros d' [= <-]. apply grpc_upd_ok; [done|]. intros x. apply count_ok. }
  assert (HS : forall b f d, is_u8 f -> grpc_ok d -> grpc_ok (grpc_upd b (set_setting f) d)).
  { intros b f d1 Hf H1. apply grpc_upd_ok; [done|]. intros x Hx. by apply set_setting_ok. }
  assert (HN : exists r : option grpc_data, Some None = Some r /\ forall d', r = Some d' -> grpc_ok d') by by eexists.
  destruct cl; cbv zeta.
  - destruct (_ =? 1); [destruct (negb _); [done|by apply HC, HS]|]. destruct (negb (_ =? 0)); [|by apply HC].
    set (d1 := if _ && _ && _ then _ else d). assert (H1 : grpc_ok d1) by (unfold d1; destruct (_ && _ && _); [by apply HS|done]).
    clearbody d1. destruct (_ && _); [|by apply HC].
    destruct (grpc_find_ok (Z.to_nat n) m o n 0) as [b Eb]; [done|done|done|done|lia|].
    unfold grpc_find_grpc_content_type. rewrite Eb. cbn [mbind option_bind]. apply HC. by destruct H1.
  - destruct (_ =? 0); [destruct (negb _); [done|by apply HC, HS]|]. apply HC. destruct (_ && _); [by apply HS|done].
Qed.

(** ** The parsers keep their promises *)

Section laws.
Context {D E : Type} (ext_ok : E -> Prop) (shape : Z -> Z -> D -> Prop) (dl : lists (option (@deleter D))) (slack : Z).
Context (Hdl : dl_ok dl) (Hslack : RPC_SLACK <= slack).
Abbreviation runs := (runs_well ext_ok shape dl slack IPPROTO_TCP).
Abbreviation st := (st ext_ok shape dl slack Running).
Abbreviation done_at t w0 := (fun _ v => step ext_ok shape dl slack t w0 v).

Lemma high_port_starts ipp t del : in_range t -> starts_well ext_ok shape dl slack ipp t del high_port_session.
Proof.
  intros Ht. apply hire_starts; [done|]. intros w0 b a od w S Hs Hb. unfold high_port_session. repeat p1; by eexists.
Qed.
Lemma high_port_mid_starts ipp t del : in_range t -> starts_well ext_ok shape dl slack ipp t del high_port_mid_sess.
Proof.
  intros Ht. apply hire_starts; [done|]. intros w0 b a od w S Hs Hb. unfold high_port_mid_sess. repeat p1; by eexists.
Qed.

Section spark_law.
Context `{!Obj D spark_data} (Hsh : typed_as shape IPPROTO_TCP DPI_PARSER_SPARK spark_ok).
Lemma spark_put_ok cl x d : spark_ok d -> spark_wing_ok x -> spark_ok (spark_put cl x d).
Proof. intros (? & ?) ?. by destruct cl. Qed.
Lemma spark_w_ok cl d : spark_ok d -> spark_wing_ok (spark_w cl d).
Proof. intros (? & ?). by destruct cl. Qed.

Section at_.
Context (w0 : world D E) (Hipp : s_ip_proto (sess w0) = IPPROTO_TCP) (a : Z) (Ha : a <> NULL) (cl : bool).
Lemma spark_advance_ok b x w len :
  st DPI_PARSER_SPARK w0 b a (Some (inj x)) w -> spark_ok x -> wp (spark_advance a cl len) (done_at DPI_PARSER_SPARK w0) w.
Proof.
  intros S Hx. unfold spark_advance. repeat p1; try pdone; [apply u32_range|].
  eapply typed_inj; [exact Hsh|]. apply spark_put_ok; [done|]. split; [apply u32_range|]. by apply spark_w_ok.
Qed.
Lemma spark_message_ok b x w m o len size ty :
  st DPI_PARSER_SPARK w0 b a (Some (inj x)) w -> spark_ok x -> bytes m -> holds m o len ->
  wp (spark_message dl a cl m o len size ty) (done_at DPI_PARSER_SPARK w0) w.
Proof.
  intros S Hx Hbm [? ?]. pose proof Hx as [[? ?] ?]. unfold spark_message, accept. repeat p1; try pdone; try pbound; try by eapply spark_advance_ok.
  all: try (eapply typed_inj; [exact Hsh|]).
  all: try (eapply spark_advance_ok; [eassumption|]).
  all: first [done|split; [split; [done|apply be64_range]|done]].
Qed.
End at_.
Lemma spark_runs : runs DPI_PARSER_SPARK (Some free) (spark_parser dl).
Proof.
  pstart. unfold spark_parser. eapply wp_with_data; [exact S|exact Hipp|exact Hslot|exact Hsh| | |].
  { intros c s0 Hc Hs0. by split; split. }
  { intros. pdone. }
  intros a' x v Ha Hx Sv. clear S. repeat p1; try pdone; try pbound; [by eapply spark_advance_ok|].
  eapply spark_message_ok; [done|done|eassumption|done|done|]. pbool. rewrite u32_id by (unfold is_u32; lia). split; lia.
Qed.
Lemma spark_mid_runs : runs DPI_PARSER_SPARK (Some free) (spark_midstream dl).
Proof.
  pstart. unfold spark_midstream, accept, MESSAGE_ONEWAY_HEADER_LEN. repeat p1; try pdone; try pbound.
Qed.
End spark_law.

Section zookeeper_law.
Context `{!Obj D zookeeper_data} `{!Obj D zookeeper_udp_data}.
Context (Hsh : typed_as shape IPPROTO_TCP DPI_PARSER_ZOOKEEPER zookeeper_ok).
Context (Hshu : typed_as shape IPPROTO_UDP DPI_PARSER_ZOOKEEPER zookeeper_udp_ok).
Lemma zk_put_ok cl x d : zookeeper_ok d -> zk_wing_ok x -> zookeeper_ok (zk_put cl x d).
Proof. intros (? & ? & ? & ?) ?. by destruct cl. Qed.
Lemma zk_w_ok cl d : zookeeper_ok d -> zk_wing_ok (zk_w cl d).
Proof. intros (? & ? & ? & ?). by destruct cl. Qed.
Lemma zk_accept_ok t w0 b a od w (Q : unit -> world D E -> Prop) :
  st t w0 b a od w -> (forall v, st t w0 false a od v -> Q tt v) -> wp (zk_accept dl) Q w.
Proof.
  intros S HQ. unfold zk_accept, is_ingress, zk_mark. p1. p1. p1.
  eapply wp_upd_ep_same; [exact S|by intros e; destruct (FLAGS_TEST _ _)|]. intros v Sv. repeat p1. auto.
Qed.

Section at_.
Context (w0 : world D E) (Hipp : s_ip_proto (sess w0) = IPPROTO_TCP) (a : Z) (Ha : a <> NULL) (cl : bool).
Lemma zk_advance_ok b x w len :
  st DPI_PARSER_ZOOKEEPER w0 b a (Some (inj x)) w -> zookeeper_ok x ->
  wp (zk_advance a cl len) (done_at DPI_PARSER_ZOOKEEPER w0) w.
Proof.
  intros S Hx. unfold zk_advance. repeat p1; try pdone; [apply u32_range|].
  eapply typed_inj; [exact Hsh|]. apply zk_put_ok; [done|]. split; [apply u32_range|]. by apply zk_w_ok.
Qed.
(** Accepting when [c], then moving on *)
Lemma zk_next_ok (c : bool) b x w len :
  st DPI_PARSER_ZOOKEEPER w0 b a (Some (inj x)) w -> zookeeper_ok x ->
  wp ((if c then zk_accept dl else skip);; zk_advance a cl len) (done_at DPI_PARSER_ZOOKEEPER w0) w.
Proof.
  intros S Hx. p1. destruct c.
  - eapply zk_accept_ok; [exact S|]. intros v Sv. by eapply zk_advance_ok.
  - p1. by eapply zk_advance_ok.
Qed.
Lemma zk_connection_ok b x w m o len :
  st DPI_PARSER_ZOOKEEPER w0 b a (Some (inj x)) w -> zookeeper_ok x -> bytes m -> 0 <= o -> 0 <= len ->
  o + len + 28 <= Z.of_nat (length m) -> wp (zk_connection dl a cl m o len) (done_at DPI_PARSER_ZOOKEEPER w0) w.
Proof.
  intros S Hx Hbm Ho Hl Hr. unfold zk_connection. p1. p1. p1. p1. p1.
  destruct (zk_w_ok cl x Hx) as [? Hi].
  destruct (zk_conn_ok m o len Hbm Ho Hr cl (zookeeper_svr (ep w) || zookeeper_clt (ep w)) _ Hi) as (r & Er & Hr2).
  eapply wp_lift; [exact Er|].
  assert (Hx' : zookeeper_ok (zk_put cl (ZookeeperWing (zk_seq (zk_w cl x)) r.2) x)) by by apply zk_put_ok.
  p1. p1. { by eapply typed_inj. }
  p1. p1. destruct (r.1 =? 1); [by eapply zk_next_ok|]. repeat p1; pdone.
Qed.
End at_.

Lemma zookeeper_runs : runs DPI_PARSER_ZOOKEEPER (Some free) (zookeeper_tcp_parser dl).
Proof.
  pstart. unfold zookeeper_tcp_parser, RPC_SLACK in *. eapply wp_with_data; [exact S|exact Hipp|exact Hslot|exact Hsh| | |].
  { intros c s0 Hc Hs0. by split_and!; try split. }
  { intros. pdone. }
  intros a' x v Ha Hx Sv. clear S. repeat p1; try pdone. pose proof Hx as (? & ? & He & Hf).
  set (m := b_mem (pkt_buffer w0)) in *. assert (Hr : off + n + 28 <= Z.of_nat (length m)) by lia.
  destruct (zk_election_ok m off n Hbm ltac:(lia) ltac:(lia) Hr _ He) as (r & Er & Hr2). eapply wp_lift; [exact Er|].
  assert (Hx1 : zookeeper_ok (x <| elec_status := r.2 |>)) by by split_and!.
  p1. p1. { by eapply typed_inj. } p1; [by eapply zk_next_ok|]. p1. p1. p1.
  destruct (zk_follower_ok m off n Hbm ltac:(lia) ltac:(lia) Hr (dpi_is_client_pkt (pk v)) _ Hf) as (r' & Er' & Hr2').
  eapply wp_lift; [exact Er'|].
  assert (Hx2 : zookeeper_ok (x <| elec_status := r.2 |> <| follower_status := r'.2 |>)) by by split_and!.
  p1. p1. { by eapply typed_inj. } p1; [by eapply zk_next_ok|]. eapply zk_connection_ok; try done; lia.
Qed.
Lemma zookeeper_mid_runs : runs DPI_PARSER_ZOOKEEPER (Some free) (zookeeper_tcp_midstream dl).
Proof.
  pstart. unfold zookeeper_tcp_midstream, is_ingress, zk_mark. repeat p1; try pdone; try pbound.
  all: eapply wp_upd_ep_same; [eassumption|by intros e; repeat case_match|intros; pdone].
Qed.
Lemma zookeeper_udp_runs : runs_well ext_ok shape dl slack IPPROTO_UDP DPI_PARSER_ZOOKEEPER (Some free) (zookeeper_udp_parser dl).
Proof.
  pstart. unfold zookeeper_udp_parser, RPC_SLACK in *. eapply wp_with_data; [exact S|exact Hipp|exact Hslot|exact Hshu| | |].
  { intros c s0 Hc Hs0. by split. }
  { intros. pdone. }
  intros a' x v Ha Hx Sv. clear S. repeat p1; try pdone.
  destruct (check_len_ok (b_mem (pkt_buffer w0)) 0 (if dpi_is_client_pkt (pk v) then 4 else 36) (b_len (pkt_buffer w0)) Hbm) as [r Er]; [split; lia|by case_match|].
  eapply wp_lift; [exact Er|]. repeat p1; try pdone.
  destruct (check_len_ok (b_mem (pkt_buffer w0)) 0 4 (b_len (pkt_buffer w0)) Hbm) as [r' Er']; [split; lia|done|].
  eapply wp_lift; [exact Er'|]. repeat p1; try pdone; try pbound.
  - eapply typed_inj; [exact Hshu|]. by split.
  - eapply zk_accept_ok; [eassumption|]. intros. pdone.
Qed.
End zookeeper_law.

Section grpc_law.
Context `{!Obj D grpc_data} (Hsh : typed_as shape IPPROTO_TCP DPI_PARSER_GRPC grpc_ok).
Lemma grpc_frames_ok w0 a cl m n : forall b x w o len (Q : bool -> world D E -> Prop),
  s_ip_proto (sess w0) = IPPROTO_TCP -> a <> NULL ->
  st DPI_PARSER_GRPC w0 b a (Some (inj x)) w -> grpc_ok x -> bytes m -> 0 <= o -> 0 <= len ->
  o + len + RPC_SLACK <= Z.of_nat (length m) -> len <= Z.of_nat n ->
  (forall go b' x' v, grpc_ok x' -> st DPI_PARSER_GRPC w0 b' a (Some (inj x')) v -> Q go v) ->
  wp (grpc_frames n a cl m o len) Q w.
Proof.
  induction n as [|n IH]; intros b x w o len Q Hipp Ha S Hx Hbm Ho Hl Hr Hn HQ; cbn [grpc_frames]; unfold RPC_SLACK in Hr.
  { rewrite (proj2 (Z.ltb_lt len _)) by (unfold HTTP2_FRAME_HEADER_LENGTH; lia). p1. by eapply HQ. }
  destruct (Z.ltb_spec len HTTP2_FRAME_HEADER_LENGTH) as [|Hlen]; [p1; by eapply HQ|]. unfold HTTP2_FRAME_HEADER_LENGTH in *.
  p1. p1. set (first := cl && _). p1. apply wp_total.
  { destruct first; [|eauto]. apply mem_eq_ok; [done|]. split; [lia|]. change (length http2clientmagic) with 24%nat. lia. }
  intros mg. p1; [repeat p1; by eapply HQ|]. p1.
  assert (exists strm, (if first then Some HTTP2_MAGIC_FRAME_LENGTH else be24 m o) = Some strm /\ 0 <= strm /\ (first = true -> strm = 24)) as (strm & Es & Hs & Hf).
  { destruct first; [by eexists|]. destruct (be24_ok m o Hbm) as (y & Ey & ?); [split; lia|]. exists y. split_and!; [done|lia|done]. }
  eapply wp_lift; [exact Es|]. p1.
  assert (Hrd : forall k, 0 <= k < 9 -> is_Some (if first then Some 0 else ld8 m (o + k))).
  { intros k Hk. destruct first; [eauto|]. destruct (ld8_ok m (o + k) Hbm) as (y & -> & _); [split; lia|]. eauto. }
  apply wp_total; [apply Hrd; lia|]. intros ty. p1. apply wp_total; [apply Hrd; lia|]. intros fl.
  assert (Hh : 0 <= (if first then 0 else 9) <= 9) by (destruct first; lia).
  assert (Hpos : 9 <= (if first then 0 else 9) + strm) by (destruct first; [rewrite Hf by done|]; lia).
  clear Hf Hrd. set (hdr := if first then 0 else 9) in *. clearbody hdr.
  destruct (Z.ltb_spec len (hdr + strm)); [repeat p1; by eapply HQ|]. p1.
  destruct (grpc_frame_ok cl m (o + hdr) strm ty fl x) as (r & Er & Hok); [done|lia|done|unfold RPC_SLACK; lia|done|].
  eapply wp_lift; [exact Er|]. destruct r as [x1|]; [|repeat p1; by eapply HQ]. specialize (Hok x1 eq_refl).
  p1. p1. p1. match goal with |- wp (store_as a ?y) _ _ => assert (Hx2 : grpc_ok y) end.
  { apply grpc_upd_ok; [done|]. intros y (? & ? & ? & ?). by split_and!. }
  p1; [by eapply typed_inj|]. p1. p1; [done|]. eapply IH; try done; unfold RPC_SLACK; lia.
Qed.
Lemma grpc_verdict_ok w0 b a x w cl :
  s_ip_proto (sess w0) = IPPROTO_TCP -> a <> NULL -> st DPI_PARSER_GRPC w0 b a (Some (inj x)) w -> grpc_ok x ->
  wp (grpc_verdict dl a cl) (done_at DPI_PARSER_GRPC w0) w.
Proof.
  intros Hipp Ha S Hx. unfold grpc_verdict. repeat p1; try pdone. eapply typed_inj; [exact Hsh|].
  apply grpc_upd_ok; [done|]. intros y (? & ? & ? & ?). split_and!; try done. apply u32_range.
Qed.
Lemma grpc_runs : runs DPI_PARSER_GRPC (Some free) (grpc_parser dl).
Proof.
  pstart. unfold grpc_parser. eapply wp_with_data; [exact S|exact Hipp|exact Hslot|exact Hsh| | |].
  { intros c s0 Hc Hs0. by split; split_and!. }
  { intros. pdone. }
  intros a' x v Ha Hx Sv. clear S. repeat p1; try pdone.
  eapply grpc_frames_ok; try done; try lia. intros go b' x' v' Hx' Sv'. p1; [by eapply grpc_verdict_ok|prun].
Qed.
End grpc_law.
End laws.
End ParsersRpc.
