(* ===== verification/ParsersDb.v ===== *)
(** * Parsers of databases: PostgreSQL, Couchbase, and the check for SQL injection (dpi/parsers)

    The regular expression of the check is matched by PCRE, which is not part of the
    repository: [recompiled] is the compiled signature, NULL or the function that gives
    the result code of pcre2_match on a subject. *)

From S2P Require Import Prelude Helper Bitmap Wire Frag Parser ParserLaw ParserTac.
Import Helper.Bytes Helper.Seq Wire.Wire Parser.Parser ParserLaw.ParserLaw ParserTac.ParserTac.

Module ParsersDb.

Definition DB_SLACK : Z := 2.

(** ** dpi_sqlinjection.c *)

Definition DPI_THRT_SQL_INJECTION : Z := 26.

Section sql.
Context {D E : Type} (tc : Z -> threat_conf) (recompiled : option (list Z -> Z)).

(** The match data block is allocated for each match. *)
Definition injection_0 (query : list Z) : M D E bool :=
  match recompiled with
  | None => mret false
  | Some pcre2_match => ok ← alloc_ok; mret (if (ok : bool) then 0 <=? pcre2_match query else false)
  end.

(** The table has one signature. *)
Definition check_sql_query (m : list Z) (query len : Z) : M D E unit :=
  q ← lift (slice m query len);
  hit ← injection_0 q;
  if hit : bool then threat tc DPI_THRT_SQL_INJECTION else skip.
End sql.

(** ** dpi_postgresql.c *)

Definition MAX_STARTUP_PACKET_LENGTH : Z := 10000.
Definition POSTGRESQL_HEADER_LEN : Z := 5.
Definition POSTGRESQL_LENGTH_LEN : Z := 4.
Definition POSTGRESQL_CANCEL_REQUEST : Z := 0x04d2162e.
Definition POSTGRESQL_SSL_REQUEST : Z := 0x04d2162f.
Definition POSTGRESQL_STARTUP_MESSAGE : Z := 0x30000.
Definition PGSQL_MAX_PACKET_SIZE : Z := 30000.
Definition PGSQL_CMD_SIMPLE_QUERY : Z := 81.
Definition PGSQL_CMD_EXECUTE : Z := 69.
Definition PGSQL_CMD_SYNC : Z := 83.
Definition PGSQL_CMD_AUTH_REQUEST : Z := 82.
Definition PGSQL_MSG_NOTICE : Z := 78.
Definition PGSQL_MSG_ERROR : Z := 69.
Definition VALID_LONG_MESSAGE_TYPE (id : Z) : bool :=
  (id =? 84) || (id =? 68) || (id =? 100) || (id =? 86) || (id =? 69) || (id =? 78) || (id =? 65).

Record postgresql_data := PostgresqlData {
  pg_client : Z; pg_server : Z; cancel_request : Z; ssl_request : Z; startup_message : Z
}.
#[export] Instance eta_postgresql_data : Eta postgresql_data := fun d => PostgresqlData
  (pg_client d) (pg_server d) (cancel_request d) (ssl_request d) (startup_message d).
Definition postgresql_new (ci si : Z) : postgresql_data := PostgresqlData ci si 0 0 0.
Definition pg_w (cl : bool) (d : postgresql_data) : Z := if cl then pg_client d else pg_server d.
Definition pg_put (cl : bool) (q : Z) (d : postgresql_data) : postgresql_data :=
  if cl then d <| pg_client := q |> else d <| pg_server := q |>.

Section postgresql.
Context {D E : Type} `{!Obj D postgresql_data} (dl : lists (option (@deleter D))).
Context (tc : Z -> threat_conf) (recompiled : option (list Z -> Z)).

(** w->seq = dpi_ptr_2_seq(p, ptr); dpi_set_asm_seq(p, w->seq) *)
Definition pg_next (a : Z) (cl : bool) (ptr : Z) : M D E unit :=
  q ← dpi_ptr_2_seq ptr;
  d ← deref_as a;
  store_as a (pg_put cl q d);;
  dpi_set_asm_seq q.

(** while (len > POSTGRESQL_HEADER_LEN): where the loop stops, or None when the parser has
    fired itself and returned. *)
Fixpoint pg_messages (n : nat) (cl : bool) (m : list Z) (ptr len : Z) : M D E (option Z) :=
  if len <=? POSTGRESQL_HEADER_LEN then mret (Some ptr)
  else
    match n with
    | O => abort
    | S n =>
        ty ← lift (ld8 m ptr);
        v ← lift (ld32 m (ptr + 1));
        let length := ntohl v in
        let len := len - 1 in
        if (PGSQL_MAX_PACKET_SIZE <? length) || (length <? 4) then dpi_fire_parser;; mret None
        else if len <? length then mret (Some ptr)
        else if (ty =? PGSQL_CMD_SIMPLE_QUERY) && negb cl then dpi_fire_parser;; mret None
        else
          (if ty =? PGSQL_CMD_SIMPLE_QUERY
           then check_sql_query tc recompiled m (ptr + 1 + 4) (length - 4) else skip);;
          pg_messages n cl m (ptr + 1 + length) (len - length)
    end.

(** From the server, before the session is finalized *)
Definition pg_server_msg (a : Z) (m : list Z) (ptr len ty : Z) : M D E unit :=
  d ← deref_as a;
  if (len =? 1) && ((ty =? PGSQL_CMD_SYNC) || (ty =? PGSQL_MSG_NOTICE) || (ty =? PGSQL_CMD_EXECUTE)) &&
     negb (ssl_request d =? 0)
  then dpi_finalize_parser dl;; dpi_ignore_parser;; pg_next a false (ptr + 1)
  else if len <? POSTGRESQL_HEADER_LEN then skip
  else
    v ← lift (ld32 m (ptr + 1));
    let length := ntohl v in
    if length <? POSTGRESQL_LENGTH_LEN then dpi_fire_parser
    else if (PGSQL_MAX_PACKET_SIZE <? length) && negb (VALID_LONG_MESSAGE_TYPE ty) then dpi_fire_parser
    else
      (if ((ty =? PGSQL_CMD_AUTH_REQUEST) || (ty =? PGSQL_MSG_ERROR)) &&
          (negb (startup_message d =? 0) || negb (cancel_request d =? 0))
       then dpi_finalize_parser dl;; dpi_ignore_parser
       else dpi_fire_parser);;
      pg_next a false (ptr + 1 + (if len - 1 <? length then len - 1 else length)).

(** From the client, before the session is finalized; len is unsigned *)
Definition pg_client_msg (a : Z) (m : list Z) (ptr len ty : Z) : M D E unit :=
  if len <? POSTGRESQL_LENGTH_LEN then skip
  else
    let ptr := if negb (ty =? 0) then ptr + 1 else ptr in
    let len := if negb (ty =? 0) then len - 1 else len in
    v ← lift (ld32 m ptr);
    let length := ntohl v in
    if (length <? 8) || (MAX_STARTUP_PACKET_LENGTH <? length) then dpi_fire_parser
    else
      let ptr := ptr + POSTGRESQL_LENGTH_LEN in
      let len := u32 (len - POSTGRESQL_LENGTH_LEN) in
      if (ty =? 0) && (len <? POSTGRESQL_LENGTH_LEN) then skip
      else
        (if ty =? 0 then
           t ← lift (ld32 m ptr);
           let tag := ntohl t in
           d ← deref_as a;
           if (length =? 16) && (tag =? POSTGRESQL_CANCEL_REQUEST) then store_as a (d <| cancel_request := 1 |>)
           else if (length =? 8) && (tag =? POSTGRESQL_SSL_REQUEST) then store_as a (d <| ssl_request := 1 |>)
           else if tag =? POSTGRESQL_STARTUP_MESSAGE then store_as a (d <| startup_message := 1 |>)
           else dpi_fire_parser
         else dpi_fire_parser);;
        if len <? length - POSTGRESQL_LENGTH_LEN then skip
        else pg_next a true (ptr + (length - POSTGRESQL_LENGTH_LEN)).

Definition postgresql_parser : M D E unit :=
  with_data true postgresql_new (fun a =>
    cl ← is_client;
    d ← deref_as a;
    pos ← seek (pg_w cl d);
    match pos with
    | None => dpi_fire_parser
    | Some (off, len) =>
        m ← dpi_pkt_ptr;
        ty ← lift (ld8 m off);
        fin ← dpi_is_parser_final;
        if fin : bool then
          r ← pg_messages (Z.to_nat len) cl m off len;
          match r with Some ptr => pg_next a cl ptr | None => skip end
        else if negb cl then pg_server_msg a m off len ty
        else pg_client_msg a m off len ty
    end).

Definition postgresql_new_session : M D E unit := dpi_hire_parser.
Definition dpi_postgresql_parser : parser :=
  Parser (Some postgresql_new_session) (Some free) (Some postgresql_parser) None None "postgresql" IPPROTO_TCP DPI_PARSER_POSTGRESQL.
End postgresql.

(** ** dpi_couchbase.c *)

Definition MAGIC_REQUEST : Z := 0x80.
Definition MAGIC_RESPONSE : Z := 0x81.
Definition SASL_LIST_MECHS : Z := 0x20.
Definition SASL_AUTH : Z := 0x21.
Definition DATATYPE_COMPRESSED_JSON : Z := 3.
(** The names of the mechanisms; [len] is sizeof, one more than the length. *)
Definition sasl_code : list (list Z) :=
  [bytes_of "PLAIN"; bytes_of "CRAM-MD5"; bytes_of "SCRAM-SHA1"; bytes_of "SCRAM-SHA256"; bytes_of "SCRAM-SHA512"].
Definition sasl_min : Z := 5.
Definition EPMD_ALIVE2_REQ : Z := 120.
Definition EPMD_PORT2_REQ : Z := 122.
Definition EPMD_ALIVE2_RESP : Z := 121.
Definition EPMD_PORT2_RESP : Z := 119.
Definition is_node_type (t : Z) : bool := (t =? 72) || (t =? 77) || (t =? 104) || (t =? 109) || (t =? 110).

Record couchbase_wing := CouchbaseWing { cb_seq : Z; op_code : Z; req_id : Z }.
#[export] Instance eta_couchbase_wing : Eta couchbase_wing := fun x => CouchbaseWing (cb_seq x) (op_code x) (req_id x).
Record couchbase_data := CouchbaseData {
  cb_client : couchbase_wing; cb_server : couchbase_wing; client_request : bool; port_map_req : bool;
  erldp_req : bool; erldp_resp : bool; port_map_req_code : Z
}.
#[export] Instance eta_couchbase_data : Eta couchbase_data := fun d => CouchbaseData
  (cb_client d) (cb_server d) (client_request d) (port_map_req d) (erldp_req d) (erldp_resp d) (port_map_req_code d).
Definition couchbase_new (ci si : Z) : couchbase_data :=
  CouchbaseData (CouchbaseWing ci 0 0) (CouchbaseWing si 0 0) false false false false 0.
Definition cb_w (cl : bool) (d : couchbase_data) : couchbase_wing := if cl then cb_client d else cb_server d.
Definition cb_upd (cl : bool) (f : couchbase_wing -> couchbase_wing) (d : couchbase_data) : couchbase_data :=
  if cl then d <| cb_client ::= f |> else d <| cb_server ::= f |>.

(** The port_map_req_code set, if it is such a request *)
Definition erlang_port_map_req (m : list Z) (o len : Z) : option (option Z) :=
  c ← ld8 m (o + 2);
  if c =? EPMD_PORT2_REQ then Some (Some EPMD_PORT2_REQ)
  else if c =? EPMD_ALIVE2_REQ then
    if len <? 12 then Some None
    else
      node_type ← ld8 m (o + 5);
      protocol ← ld8 m (o + 6);
      Some (if negb (is_node_type node_type) then None else if negb (protocol =? 0) then None else Some EPMD_ALIVE2_REQ)
  else Some None.

(** left >= strlen(s) && memcmp(ptr, s, strlen(s)) == 0 *)
Definition left_is (m : list Z) (o left : Z) (s : list Z) : option bool :=
  if Z.of_nat (length s) <=? left then mem_eq m o s else Some false.
(** a || b, where b is only read when a is false *)
Definition or_else (a b : option bool) : option bool := x ← a; if x : bool then Some true else b.

(** 0: no, 1: yes, 2: finalize *)
Definition erlang_dp_req (m : list Z) (o len : Z) : option Z :=
  if len <? 5 then Some 0
  else
    pkg_len ← be16 m o;
    tag ← ld8 m (o + 2);
    if (256 <? pkg_len) || (negb (tag =? 110) && negb (tag =? 114) && negb (tag =? 97) && negb (tag =? 115)) then Some 0
    else if tag =? 110 then
      ver ← be16 m (o + 3);
      Some (if 0x10 <? ver then 0 else 1)
    else if tag =? 115 then
      let is_ s := left_is m (o + 3) (len - 3) (bytes_of s) in
      hit ← or_else (is_ "ok"%string) (or_else (is_ "ok_simultaneous"%string) (or_else (is_ "nok"%string)
              (or_else (is_ "not_allowed"%string) (is_ "alive"%string))));
      Some (if (hit : bool) then 2 else 1)
    else Some 1.

Definition erlang_port_map_resp (m : list Z) (o len : Z) (code : Z) : option bool :=
  c ← ld8 m o;
  if c =? EPMD_PORT2_RESP then
    if negb (code =? EPMD_PORT2_REQ) then Some false
    else if len <? 12 then Some false
    else
      node_type ← ld8 m (o + 4);
      protocol ← ld8 m (o + 5);
      Some (is_node_type node_type && (protocol =? 0))
  else if c =? EPMD_ALIVE2_RESP then Some (code =? EPMD_ALIVE2_REQ)
  else Some false.

(** One of the mechanisms at [o] *)
Fixpoint sasl_at (m : list Z) (o left : Z) (l : list (list Z)) : option bool :=
  match l with
  | [] => Some false
  | s :: l => or_else (left_is m o left s) (sasl_at m o left l)
  end.
(** while (left >= sasl_code[0].len - 1): [n] is the number of rounds *)
Fixpoint sasl_from (n : nat) (m : list Z) (o left : Z) : option bool :=
  match n with
  | O => Some false
  | S n => or_else (sasl_at m o left sasl_code) (sasl_from n m (o + 1) (left - 1))
  end.
Definition find_sasl_mechinsm (m : list Z) (o len : Z) : option bool :=
  sasl_from (Z.to_nat (len - sasl_min + 1)) m o len.

(** for (i = i0; i < i0 + n; i ++): all 0, except where [but] *)
Fixpoint zero_but (but : Z -> bool) (n : nat) (m : list Z) (o i : Z) : option bool :=
  match n with
  | O => Some true
  | S n =>
      if but i then zero_but but n m o (i + 1)
      else c ← ld8 m (o + i); if c =? 0 then zero_but but n m o (i + 1) else Some false
  end.

Section couchbase.
Context {D E : Type} `{!Obj D couchbase_data} (dl : lists (option (@deleter D))).

(** w->seq += len; dpi_set_asm_seq(p, w->seq) *)
Definition cb_advance (a : Z) (cl : bool) (len : Z) : M D E unit :=
  d ← deref_as a;
  let q := u32 (cb_seq (cb_w cl d) + len) in
  store_as a (cb_upd cl (fun x => x <| cb_seq := q |>) d);;
  dpi_set_asm_seq q.
Definition cb_finish : M D E unit := dpi_finalize_parser dl;; dpi_ignore_parser.
Definition cb_accept : M D E unit :=
  cb_finish;;
  ing ← is_ingress;
  upd_ep (fun e => if (ing : bool) then e <| couchbase_svr := true |> else e <| couchbase_clt := true |>).
(** w->op_code = opcode; data->client_request = true; w->seq += len; ... *)
Definition cb_requested (a : Z) (len opcode : Z) : M D E unit :=
  d ← deref_as a;
  store_as a (cb_upd true (fun x => x <| op_code := opcode |>) d <| client_request := true |>);;
  cb_advance a true len.

Definition cb_client_msg (a : Z) (m : list Z) (o len magic opcode key_len : Z) : M D E unit :=
  d ← deref_as a;
  pm ← lift (erlang_port_map_req m o len);
  match pm with
  | Some code => store_as a (d <| port_map_req_code := code |> <| port_map_req := true |>);; cb_advance a true len
  | None =>
      dp ← lift (erlang_dp_req m o len);
      if negb (dp =? 0) then
        (if erldp_req d && erldp_resp d then cb_finish else skip);;
        store_as a (d <| erldp_req := true |>);;
        cb_advance a true len
      else if negb (magic =? MAGIC_REQUEST) then dpi_fire_parser
      else
        data_type ← lift (ld8 m (o + 5));
        if DATATYPE_COMPRESSED_JSON <? data_type then dpi_fire_parser
        else if opcode =? SASL_LIST_MECHS then
          if len <? 24 then skip
          else
            z ← lift (zero_but (fun i => (12 <=? i) && (i <=? 15)) 22 m o 2);
            if negb z then dpi_fire_parser else cb_requested a len opcode
        else if opcode =? SASL_AUTH then
          if len <? 24 + sasl_min then skip
          else
            f ← lift (find_sasl_mechinsm m (o + 24) (if len - 24 <? key_len then len - 24 else key_len));
            if negb f then dpi_fire_parser else cb_requested a len opcode
        else dpi_fire_parser
  end.

Definition cb_server_msg (a : Z) (m : list Z) (o len magic opcode : Z) : M D E unit :=
  d ← deref_as a;
  if port_map_req d then
    r ← lift (erlang_port_map_resp m o len (port_map_req_code d));
    if r : bool then cb_accept else dpi_fire_parser
  else if erldp_req d then
    ret ← lift (erlang_dp_req m o len);
    if ret =? 0 then dpi_fire_parser
    else
      (if (ret =? 2) || (erldp_req d && erldp_resp d) then cb_finish else skip);;
      store_as a (d <| erldp_resp := true |>);;
      cb_advance a false len
  else if negb (magic =? MAGIC_RESPONSE) then dpi_fire_parser
  else if opcode =? SASL_LIST_MECHS then
    if negb (client_request d) || negb (op_code (cb_client d) =? SASL_LIST_MECHS) then dpi_fire_parser
    else if len <? 24 + sasl_min then skip
    else
      total_body ← lift (be32 m (o + 8));
      if (total_body <? sasl_min) || (256 <? total_body) then dpi_fire_parser
      else
        f ← lift (find_sasl_mechinsm m (o + 24) (len - 24));
        if negb f then dpi_fire_parser else cb_accept
  else if opcode =? SASL_AUTH then
    if negb (client_request d) || negb (op_code (cb_client d) =? SASL_AUTH) then dpi_fire_parser
    else if len <? 24 then skip
    else
      z ← lift (zero_but (fun _ => false) 22 m o 2);
      if negb z then dpi_fire_parser else cb_accept
  else dpi_fire_parser.

Definition couchbase_parser : M D E unit :=
  with_data true couchbase_new (fun a =>
    cl ← is_client;
    d ← deref_as a;
    pos ← seek (cb_seq (cb_w cl d));
    match pos with
    | None => dpi_fire_parser
    | Some (off, len) =>
        m ← dpi_pkt_ptr;
        if len <? 4 then skip
        else
          magic ← lift (ld8 m off);
          opcode ← lift (ld8 m (off + 1));
          key_len ← lift (be16 m (off + 2));
          if cl : bool then cb_client_msg a m off len magic opcode key_len
          else cb_server_msg a m off len magic opcode
    end).

Definition couchbase_new_session : M D E unit := dpi_hire_parser.
Definition dpi_couchbase_parser : parser :=
  Parser (Some couchbase_new_session) (Some free) (Some couchbase_parser) None None "couchbase" IPPROTO_TCP DPI_PARSER_COUCHBASE.
End couchbase.

(** ** The objects are well typed *)

Definition postgresql_ok (d : postgresql_data) : Prop :=
  is_u32 (pg_client d) /\ is_u32 (pg_server d) /\ is_u8 (cancel_request d) /\ is_u8 (ssl_request d) /\ is_u8 (startup_message d).
Definition cb_wing_ok (x : couchbase_wing) : Prop := is_u32 (cb_seq x) /\ is_u32 (op_code x) /\ is_u32 (req_id x).
Definition couchbase_ok (d : couchbase_data) : Prop :=
  cb_wing_ok (cb_client d) /\ cb_wing_ok (cb_server d) /\ is_u8 (port_map_req_code d).

(** ** The scanning functions *)

Lemma or_else_ok a b : (exists x, a = Some x) -> (exists x, b = Some x) -> exists x, or_else a b = Some x.
Proof. intros [x ->] [y ->]. unfold or_else. cbn. destruct x; eauto. Qed.
Lemma left_is_ok m o left s : bytes m -> holds m o left -> exists b, left_is m o left s = Some b.
Proof. intros Hb [? ?]. unfold left_is. destruct (Z.leb_spec (Z.of_nat (length s)) left); [|eauto]. apply mem_eq_ok; [done|split; lia]. Qed.
Lemma sasl_at_ok m o left l : bytes m -> holds m o left -> exists b, sasl_at m o left l = Some b.
Proof. intros Hb Hh. induction l as [|s l IH]; cbn [sasl_at]; [eauto|]. apply or_else_ok; [by apply left_is_ok|done]. Qed.
Lemma sasl_from_ok n m o left : bytes m -> holds m o left -> Z.of_nat n <= left -> exists b, sasl_from n m o left = Some b.
Proof.
  intros Hb. revert o left. induction n as [|n IH]; intros o left [? ?] Hn; cbn [sasl_from]; [eauto|].
  apply or_else_ok; [by apply sasl_at_ok|]. apply IH; [split; lia|lia].
Qed.
Lemma find_sasl_ok m o len : bytes m -> holds m o len -> 0 <= len -> exists b, find_sasl_mechinsm m o len = Some b.
Proof. intros Hb Hh Hl. apply sasl_from_ok; [done|done|]. unfold sasl_min. lia. Qed.
Lemma zero_but_ok but n m o i : bytes m -> holds m (o + i) (Z.of_nat n) -> exists b, zero_but but n m o i = Some b.
Proof.
  intros Hb. revert i. induction n as [|n IH]; intros i [? ?]; cbn [zero_but]; [eauto|].
  assert (IH' : exists b, zero_but but n m o (i + 1) = Some b) by (apply IH; split; lia). destruct (but i); [done|].
  destruct (ld8_ok m (o + i) Hb) as (c & -> & _); [split; lia|]. cbn [mbind option_bind]. destruct (_ =? 0); [done|eauto].
Qed.

Section erlang.
Context (m : list Z) (o len : Z) (Hb : bytes m) (Ho : 0 <= o) (Hl : 4 <= len) (Hr : o + len <= Z.of_nat (length m)).
Lemma port_map_req_ok : exists r, erlang_port_map_req m o len = Some r /\ forall c, r = Some c -> is_u8 c.
Proof. unfold erlang_port_map_req. oread; intros; repeat case_match; by simplify_eq. Qed.
Lemma port_map_resp_ok code : exists r, erlang_port_map_resp m o len code = Some r.
Proof.
  assert (H : exists r, erlang_port_map_resp m o len code = Some r /\ True) by (unfold erlang_port_map_resp; by oread).
  destruct H as (r & ? & _). eauto.
Qed.
Lemma dp_req_ok : exists r, erlang_dp_req m o len = Some r.
Proof.
  assert (H : exists r, erlang_dp_req m o len = Some r /\ True).
  { unfold erlang_dp_req. repeat (o1; try done). pbool. set (hit := or_else _ _).
    assert (Hh : exists b, hit = Some b) by (repeat apply or_else_ok; apply left_is_ok; try done; split; lia).
    destruct Hh as [b ->]. by oread. }
  destruct H as (r & ? & _). eauto.
Qed.
End erlang.

(** ** The parsers keep their promises *)

Section laws.
Context {D E : Type} (ext_ok : E -> Prop) (shape : Z -> Z -> D -> Prop) (dl : lists (option (@deleter D))) (slack : Z).
Context (Hdl : dl_ok dl) (Hslack : DB_SLACK <= slack).
Abbreviation runs := (runs_well ext_ok shape dl slack IPPROTO_TCP).
Abbreviation st := (st ext_ok shape dl slack Running).
Abbreviation done_at t w0 := (fun _ v => step ext_ok shape dl slack t w0 v).

Lemma check_sql_ok tc rc t w0 b a od w m o len (Q : unit -> world D E -> Prop) :
  st t w0 b a od w -> holds m o len -> (forall v, st t w0 b a od v -> Q tt v) -> wp (check_sql_query tc rc m o len) Q w.
Proof. intros S Hh HQ. unfold check_sql_query, injection_0. destruct rc; repeat p1; eauto. Qed.

Section postgresql_law.
Context `{!Obj D postgresql_data} (Hsh : typed_as shape IPPROTO_TCP DPI_PARSER_POSTGRESQL postgresql_ok).
Context (tc : Z -> threat_conf) (rc : option (list Z -> Z)).
Section at_.
Context (w0 : world D E) (Hipp : s_ip_proto (sess w0) = IPPROTO_TCP) (a : Z) (Ha : a <> NULL).
Lemma pg_next_ok b x w cl ptr :
  st DPI_PARSER_POSTGRESQL w0 b a (Some (inj x)) w -> postgresql_ok x ->
  wp (pg_next a cl ptr) (done_at DPI_PARSER_POSTGRESQL w0) w.
Proof.
  intros S (? & ? & ? & ? & ?). unfold pg_next. repeat p1; try pdone; [|done].
  eapply typed_inj; [exact Hsh|]. destruct cl; by split_and!.
Qed.
Lemma pg_messages_ok cl m n : forall b od w ptr len (Q : option Z -> world D E -> Prop),
  st DPI_PARSER_POSTGRESQL w0 b a od w -> bytes m -> holds m ptr len -> len <= Z.of_nat n ->
  (forall r b' v, st DPI_PARSER_POSTGRESQL w0 b' a od v -> Q r v) ->
  wp (pg_messages tc rc n cl m ptr len) Q w.
Proof.
  induction n as [|n IH]; intros b od w ptr len Q S Hb [? ?] Hn HQ; cbn [pg_messages]; unfold POSTGRESQL_HEADER_LEN.
  { rewrite (proj2 (Z.leb_le len 5)) by lia. p1. by eapply HQ. }
  destruct (Z.leb_spec len 5); [p1; by eapply HQ|]. p1. p1; [split; lia|]. p1. p1; [split; lia|].
  match goal with |- context [ntohl ?x] => pose proof (htonl_range x) as Hr; unfold is_u32 in Hr end.
  change htonl with ntohl in Hr. set (l := ntohl _) in *. clearbody l.
  p1; [repeat p1; by eapply HQ|]. p1; [repeat p1; by eapply HQ|]. p1; [repeat p1; by eapply HQ|]. pbool. p1.
  assert (HN : forall v, st DPI_PARSER_POSTGRESQL w0 b a od v -> wp (pg_messages tc rc n cl m (ptr + 1 + l) (len - 1 - l)) Q v).
  { intros v Sv. eapply IH; [exact Sv|done|split; lia|lia|done]. }
  p1; [|p1; by apply HN]. eapply check_sql_ok; [exact S|split; lia|]. intros v Sv. by apply HN.
Qed.
Lemma pg_server_ok b x w m ptr len ty :
  st DPI_PARSER_POSTGRESQL w0 b a (Some (inj x)) w -> postgresql_ok x -> bytes m -> holds m ptr len ->
  wp (pg_server_msg dl a m ptr len ty) (done_at DPI_PARSER_POSTGRESQL w0) w.
Proof.
  intros S Hx Hb [? ?]. unfold pg_server_msg, POSTGRESQL_HEADER_LEN.
  repeat p1; try pdone; try pbound; by eapply pg_next_ok.
Qed.
Lemma pg_client_ok b x w m ptr len ty :
  st DPI_PARSER_POSTGRESQL w0 b a (Some (inj x)) w -> postgresql_ok x -> bytes m -> holds m ptr (len + 1) -> len <= DPI_MAX_PKT_LEN ->
  wp (pg_client_msg a m ptr len ty) (done_at DPI_PARSER_POSTGRESQL w0) w.
Proof.
  intros S Hx Hb [? ?] Hmax. unfold pg_client_msg, POSTGRESQL_LENGTH_LEN, DPI_MAX_PKT_LEN in *. pose proof Hx as (? & ? & ? & ? & ?).
  p1; [repeat p1; pdone|]. p1. pbool. p1; [destruct (ty =? 0); split; cbn [negb]; lia|].
  p1; [repeat p1; pdone|]. p1; [repeat p1; pdone|]. p1. destruct (ty =? 0) eqn:Ety; cbn [negb andb] in *.
  - pbool. rewrite u32_id in * by (unfold is_u32; lia). p1. p1; [split; lia|]. p1. p1.
    repeat p1; try pdone; try (eapply typed_inj; [exact Hsh|]; by split_and!).
    all: eapply pg_next_ok; [eassumption|by split_and!].
  - repeat p1; try pdone. by eapply pg_next_ok.
Qed.
End at_.
Lemma postgresql_runs : runs DPI_PARSER_POSTGRESQL (Some free) (postgresql_parser dl tc rc).
Proof.
  pstart. unfold postgresql_parser. eapply wp_with_data; [exact S|exact Hipp|exact Hslot|exact Hsh| | |].
  { intros c s0 Hc Hs0. by split_and!. }
  { intros. pdone. }
  intros a' x v Ha Hx Sv. clear S. repeat p1; try pdone; try pbound.
  - eapply pg_messages_ok; [eassumption|done|split; lia|lia|]. intros [ptr|] b' v' Sv'; [by eapply pg_next_ok|prun].
  - eapply pg_server_ok; try done. split; lia.
  - eapply pg_client_ok; try done; [split; lia|]. unfold DPI_MAX_PKT_LEN. lia.
Qed.
End postgresql_law.

Section couchbase_law.
Context `{!Obj D couchbase_data} (Hsh : typed_as shape IPPROTO_TCP DPI_PARSER_COUCHBASE couchbase_ok).
Lemma cb_upd_ok cl f d : couchbase_ok d -> (forall x, cb_wing_ok x -> cb_wing_ok (f x)) -> couchbase_ok (cb_upd cl f d).
Proof. intros (? & ? & ?) Hf. destruct cl; split_and!; cbn; auto. Qed.
Section at_.
Context (w0 : world D E) (Hipp : s_ip_proto (sess w0) = IPPROTO_TCP) (a : Z) (Ha : a <> NULL).
Context (m : list Z) (Hb : bytes m) (o len : Z) (Ho : 0 <= o) (Hl : 4 <= len) (Hr : o + len + DB_SLACK <= Z.of_nat (length m)).
Lemma cb_advance_ok b x w cl :
  st DPI_PARSER_COUCHBASE w0 b a (Some (inj x)) w -> couchbase_ok x ->
  wp (cb_advance a cl len) (done_at DPI_PARSER_COUCHBASE w0) w.
Proof.
  intros S Hx. unfold cb_advance. repeat p1; try pdone; [|apply u32_range].
  eapply typed_inj; [exact Hsh|]. apply cb_upd_ok; [done|]. intros y (? & ? & ?). split_and!; try done. apply u32_range.
Qed.
(** The object changed, then moved on *)
Lemma cb_next_ok b x y w cl :
  st DPI_PARSER_COUCHBASE w0 b a (Some (inj x)) w -> couchbase_ok y ->
  wp (store_as a y;; cb_advance a cl len) (done_at DPI_PARSER_COUCHBASE w0) w.
Proof. intros S Hy. p1. p1; [by eapply typed_inj|]. by eapply cb_advance_ok. Qed.
Lemma cb_requested_ok b x w opcode :
  st DPI_PARSER_COUCHBASE w0 b a (Some (inj x)) w -> couchbase_ok x -> is_u8 opcode ->
  wp (cb_requested a len opcode) (done_at DPI_PARSER_COUCHBASE w0) w.
Proof.
  intros S Hx Hop. unfold cb_requested. p1. p1. eapply cb_next_ok; [exact S|].
  destruct (cb_upd_ok true (fun x => x <| op_code := opcode |>) x) as (? & ? & ?); [done| |by split_and!].
  intros y (? & ? & ?). split_and!; try done. unfold is_u8, is_u32 in *. cbn. lia.
Qed.
Lemma cb_accept_ok b od w : st DPI_PARSER_COUCHBASE w0 b a od w -> wp (cb_accept dl) (done_at DPI_PARSER_COUCHBASE w0) w.
Proof.
  intros S. unfold cb_accept, cb_finish, is_ingress. repeat p1.
  eapply wp_upd_ep_same; [eassumption|by intros e; case_match|intros; pdone].
Qed.
(** cb_finish when [c], then the object changed and moved on *)
Lemma cb_dp_ok (c : bool) b x y w cl :
  st DPI_PARSER_COUCHBASE w0 b a (Some (inj x)) w -> couchbase_ok y ->
  wp ((if c then cb_finish dl else skip);; store_as a y;; cb_advance a cl len) (done_at DPI_PARSER_COUCHBASE w0) w.
Proof. intros S Hy. unfold cb_finish. p1. destruct c; repeat p1; try (by eapply typed_inj); by eapply cb_advance_ok. Qed.

Lemma cb_client_ok b x w magic opcode key_len :
  st DPI_PARSER_COUCHBASE w0 b a (Some (inj x)) w -> couchbase_ok x -> is_u8 opcode -> 0 <= key_len ->
  wp (cb_client_msg dl a m o len magic opcode key_len) (done_at DPI_PARSER_COUCHBASE w0) w.
Proof.
  intros S Hx Hop Hk. pose proof Hx as (? & ? & ?). unfold cb_client_msg, DB_SLACK, sasl_min in *. p1. p1. p1.
  destruct (port_map_req_ok m o len Hb Ho Hl ltac:(lia)) as (pm & Epm & Hpm). eapply wp_lift; [exact Epm|].
  destruct pm as [code|]; [eapply cb_next_ok; [exact S|]; split_and!; try done; by apply Hpm|].
  destruct (dp_req_ok m o len Hb Ho ltac:(lia)) as (dp & Edp). p1. eapply wp_lift; [exact Edp|].
  p1; [by eapply cb_dp_ok|]. p1; [prun|]. p1. p1; [pbound|]. p1; [prun|]. p1.
  - p1; [prun|]. p1. pbool. apply wp_total; [apply zero_but_ok; [done|split; lia]|]. intros z. p1; [prun|]. by eapply cb_requested_ok.
  - p1; [|prun]. p1; [prun|]. p1. pbool. apply wp_total; [destruct (len - 24 <? key_len) eqn:?; pbool; (apply find_sasl_ok; [done|split; lia|lia])|].
    intros z. p1; [prun|]. by eapply cb_requested_ok.
Qed.
Lemma cb_server_ok b x w magic opcode :
  st DPI_PARSER_COUCHBASE w0 b a (Some (inj x)) w -> couchbase_ok x ->
  wp (cb_server_msg dl a m o len magic opcode) (done_at DPI_PARSER_COUCHBASE w0) w.
Proof.
  intros S Hx. pose proof Hx as (? & ? & ?). unfold cb_server_msg, DB_SLACK, sasl_min in *. p1. p1. p1.
  { p1. destruct (port_map_resp_ok m o len Hb Ho Hl ltac:(lia) (port_map_req_code x)) as (r & Er). eapply wp_lift; [exact Er|].
    p1; [by eapply cb_accept_ok|prun]. }
  p1.
  { p1. destruct (dp_req_ok m o len Hb Ho ltac:(lia)) as (dp & Edp). eapply wp_lift; [exact Edp|]. p1; [prun|]. by eapply cb_dp_ok. }
  p1; [prun|]. p1.
  - p1; [prun|]. p1; [prun|]. p1. p1; [pbound|]. p1; [prun|]. p1. pbool. apply wp_total; [apply find_sasl_ok; [done|split; lia|lia]|].
    intros z. p1; [prun|]. by eapply cb_accept_ok.
  - p1; [|prun]. p1; [prun|]. p1; [prun|]. p1. pbool. apply wp_total; [apply zero_but_ok; [done|split; lia]|].
    intros z. p1; [prun|]. by eapply cb_accept_ok.
Qed.
End at_.
Lemma couchbase_runs : runs DPI_PARSER_COUCHBASE (Some free) (couchbase_parser dl).
Proof.
  pstart. unfold couchbase_parser. eapply wp_with_data; [exact S|exact Hipp|exact Hslot|exact Hsh| | |].
  { intros c s0 Hc Hs0. by split_and!. }
  { intros. pdone. }
  intros a' x v Ha Hx Sv. clear S. repeat p1; try pdone; try pbound; pbool.
  - eapply cb_client_ok; try done; try lia. unfold is_u16 in *. lia.
  - eapply cb_server_ok; try done; lia.
Qed.
End couchbase_law.
End laws.
End ParsersDb.
