(* ===== verification/Parsers.v ===== *)
(** * The parsers of the data path, registered and run

    The objects of all parsers as one type, the registration of dpi_parser_setup, and the
    theorems on the whole: each parser discharges the promises of ParserLaw.v, so what
    ParserRun.v shows holds of them.  The parsers not modelled (HTTP, TNS) or shown to break
    the promises (DNS, SSL, Kafka, MySQL, TDS) are not registered here. *)

From S2P Require Import Prelude Helper Bitmap Wire Frag Parser ParserLaw ParserRun ParserTac.
From S2P Require Import ParsersUdp ParsersTcp ParsersRpc ParsersDb.
Import Helper.Bytes Helper.Seq Wire.Wire Parser.Parser ParserLaw.ParserLaw ParserRun.ParserRun ParserTac.ParserTac.
Import ParsersUdp.ParsersUdp ParsersTcp.ParsersTcp ParsersRpc.ParsersRpc ParsersDb.ParsersDb.

Module Parsers.

(** ** The objects *)

Inductive pdata :=
  | DSsh (x : ssh_data)
  | DRedis (x : redis_data)
  | DMongodb (x : mongodb_data)
  | DCassandra (x : cassandra_data)
  | DSpark (x : spark_data)
  | DZookeeper (x : zookeeper_data)
  | DZookeeperUdp (x : zookeeper_udp_data)
  | DGrpc (x : grpc_data)
  | DPostgresql (x : postgresql_data)
  | DCouchbase (x : couchbase_data).

#[export] Instance obj_ssh : Obj pdata ssh_data := {| inj := DSsh; prj d := match d with DSsh x => Some x | _ => None end; prj_inj _ := eq_refl |}.
#[export] Instance obj_redis : Obj pdata redis_data := {| inj := DRedis; prj d := match d with DRedis x => Some x | _ => None end; prj_inj _ := eq_refl |}.
#[export] Instance obj_mongodb : Obj pdata mongodb_data := {| inj := DMongodb; prj d := match d with DMongodb x => Some x | _ => None end; prj_inj _ := eq_refl |}.
#[export] Instance obj_cassandra : Obj pdata cassandra_data := {| inj := DCassandra; prj d := match d with DCassandra x => Some x | _ => None end; prj_inj _ := eq_refl |}.
#[export] Instance obj_spark : Obj pdata spark_data := {| inj := DSpark; prj d := match d with DSpark x => Some x | _ => None end; prj_inj _ := eq_refl |}.
#[export] Instance obj_zookeeper : Obj pdata zookeeper_data := {| inj := DZookeeper; prj d := match d with DZookeeper x => Some x | _ => None end; prj_inj _ := eq_refl |}.
#[export] Instance obj_zookeeper_udp : Obj pdata zookeeper_udp_data := {| inj := DZookeeperUdp; prj d := match d with DZookeeperUdp x => Some x | _ => None end; prj_inj _ := eq_refl |}.
#[export] Instance obj_grpc : Obj pdata grpc_data := {| inj := DGrpc; prj d := match d with DGrpc x => Some x | _ => None end; prj_inj _ := eq_refl |}.
#[export] Instance obj_postgresql : Obj pdata postgresql_data := {| inj := DPostgresql; prj d := match d with DPostgresql x => Some x | _ => None end; prj_inj _ := eq_refl |}.
#[export] Instance obj_couchbase : Obj pdata couchbase_data := {| inj := DCouchbase; prj d := match d with DCouchbase x => Some x | _ => None end; prj_inj _ := eq_refl |}.

(** The objects a parser may keep in a session of a protocol *)
Definition shape (ipp t : Z) (d : pdata) : Prop :=
  match d with
  | DSsh x => ipp = IPPROTO_TCP /\ t = DPI_PARSER_SSH /\ ssh_ok x
  | DRedis x => ipp = IPPROTO_TCP /\ t = DPI_PARSER_REDIS /\ redis_ok x
  | DMongodb x => ipp = IPPROTO_TCP /\ t = DPI_PARSER_MONGODB /\ mongodb_ok x
  | DCassandra x => ipp = IPPROTO_TCP /\ t = DPI_PARSER_CASSANDRA /\ cassandra_ok x
  | DSpark x => ipp = IPPROTO_TCP /\ t = DPI_PARSER_SPARK /\ spark_ok x
  | DZookeeper x => ipp = IPPROTO_TCP /\ t = DPI_PARSER_ZOOKEEPER /\ zookeeper_ok x
  | DZookeeperUdp x => ipp = IPPROTO_UDP /\ t = DPI_PARSER_ZOOKEEPER /\ zookeeper_udp_ok x
  | DGrpc x => ipp = IPPROTO_TCP /\ t = DPI_PARSER_GRPC /\ grpc_ok x
  | DPostgresql x => ipp = IPPROTO_TCP /\ t = DPI_PARSER_POSTGRESQL /\ postgresql_ok x
  | DCouchbase x => ipp = IPPROTO_TCP /\ t = DPI_PARSER_COUCHBASE /\ couchbase_ok x
  end.

(** ** Registration *)

Section registry.
Context {E : Type} (tc : Z -> threat_conf) (recompiled : option (list Z -> Z)).

(** In the order of dpi_parser_setup *)
Definition parser_list (dl : lists (option (@deleter pdata))) : list (@parser pdata E) :=
  [dpi_dhcp_parser dl; dpi_ssh_parser dl tc; dpi_redis_parser dl; dpi_zookeeper_tcp_parser dl;
   dpi_zookeeper_udp_parser dl; dpi_cassandra_parser dl; dpi_mongodb_parser dl;
   dpi_postgresql_parser dl tc recompiled; dpi_couchbase_parser dl; dpi_tftp_udp_parser dl; dpi_ntp_udp_parser dl;
   dpi_echo_tcp_parser dl; dpi_echo_udp_parser dl; dpi_spark_parser dl; dpi_grpc_tcp_parser dl].

(** The delete_data of the registered parsers do not depend on what the parsers do. *)
Definition parser_deleters : lists (option (@deleter pdata)) := deleters (dpi_parser_setup (parser_list (Lists _ [] [] []))).
Definition parsers : lists (@parser pdata E) := dpi_parser_setup (parser_list parser_deleters).
Lemma parsers_deleters : deleters parsers = parser_deleters.
Proof. vm_compute. reflexivity. Qed.

(** ** The promises are kept *)

Lemma list_types dl : Forall (fun c => 0 <= type c < DPI_PARSER_MAX) (parser_list dl).
Proof. repeat constructor; done. Qed.
Lemma list_deletes dl : Forall (fun c => delete_data c = None \/ delete_data c = Some free) (parser_list dl).
Proof. repeat (apply Forall_cons; split; [first [by left|by right]|]). by apply Forall_nil. Qed.

Lemma parser_deleters_ok : dl_ok parser_deleters.
Proof. apply setup_deleters_ok; [apply list_types|apply list_deletes]. Qed.

Context (ext_ok : E -> Prop) (slack : Z) (Hslack : RPC_SLACK <= slack).
Abbreviation dl := parser_deleters.

Lemma typed {T} `{!Obj pdata T} ipp t (ok : T -> Prop) :
  (forall d, shape ipp t d -> exists x, d = inj x /\ ok x) -> (forall x, ok x -> shape ipp t (inj x)) -> typed_as shape ipp t ok.
Proof. intros H1 H2 d. split; [apply H1|]. intros (x & -> & Hx). by apply H2. Qed.
Ltac ptyped := apply typed; [intros [] (? & ? & ?); try done; by eexists|done].

(** The promises a parser keeps in the lists [g], from which only delete_data matters *)
Section keep.
Context (g : lists (@parser pdata E)) (Hg : deleters g = dl).
Definition keeps_law (c : @parser pdata E) : Prop :=
  forall ipp, list_no (p_ip_proto c) = list_no ipp -> lawful ext_ok shape slack g ipp c.
Lemma tcp_only ipp : list_no IPPROTO_TCP = list_no ipp -> ipp = IPPROTO_TCP.
Proof. unfold list_no. cbn. destruct (Z.eqb_spec ipp IPPROTO_TCP); [done|]. by destruct (ipp =? IPPROTO_UDP). Qed.
Lemma udp_only ipp : list_no IPPROTO_UDP = list_no ipp -> ipp = IPPROTO_UDP.
Proof.
  unfold list_no. cbn. destruct (Z.eqb_spec ipp IPPROTO_TCP); [done|]. destruct (Z.eqb_spec ipp IPPROTO_UDP); done.
Qed.
(** From the functions of a parser *)
Lemma keeps_intro (c : @parser pdata E) :
  (delete_data c = None \/ delete_data c = Some free) -> is_Some (parse c) ->
  (forall ipp, list_no (p_ip_proto c) = list_no ipp ->
    holds_for (starts_well ext_ok shape dl slack ipp (type c) (delete_data c)) (new_session c) /\
    holds_for (runs_well ext_ok shape dl slack ipp (type c) (delete_data c)) (parse c) /\
    holds_for (starts_well ext_ok shape dl slack ipp (type c) (delete_data c)) (new_mid_sess c) /\
    holds_for (runs_well ext_ok shape dl slack ipp (type c) (delete_data c)) (midstream c)) -> keeps_law c.
Proof.
  intros Hd Hp H ipp Hi. destruct (H ipp Hi) as (? & ? & ? & ?). split; rewrite ?Hg; try done.
  destruct Hd as [-> | ->]; [done|]. intros h a. apply free_deletes.
Qed.
Ltac pkeep := apply keeps_intro; [first [by left|by right]|by eexists|];
  cbn [new_session parse new_mid_sess midstream delete_data type p_ip_proto holds_for]; intros ipp Hipp;
  first [apply tcp_only in Hipp|apply udp_only in Hipp]; subst ipp; split_and!; try done;
  first [by apply hire_starts_well|by apply port_starts|by apply high_port_starts|by apply high_port_mid_starts|idtac].
Ltac ppart := first [apply parser_deleters_ok|ptyped|unfold RPC_SLACK, DB_SLACK in *; lia].

Lemma dhcp_law : keeps_law (dpi_dhcp_parser dl).
Proof. pkeep. apply dhcp_runs; ppart. Qed.
Lemma echo_tcp_law : keeps_law (dpi_echo_tcp_parser dl).
Proof. pkeep. apply echo_runs; ppart. Qed.
Lemma echo_udp_law : keeps_law (dpi_echo_udp_parser dl).
Proof. pkeep. apply echo_runs; ppart. Qed.
Lemma ntp_law : keeps_law (dpi_ntp_udp_parser dl).
Proof. pkeep. apply ntp_runs; ppart. Qed.
Lemma tftp_law : keeps_law (dpi_tftp_udp_parser dl).
Proof. pkeep. apply tftp_runs; ppart. Qed.
Lemma ssh_law : keeps_law (dpi_ssh_parser dl tc).
Proof. pkeep. apply ssh_runs; ppart. Qed.
Lemma redis_law : keeps_law (dpi_redis_parser dl).
Proof. pkeep. apply redis_runs; ppart. Qed.
Lemma mongodb_law : keeps_law (dpi_mongodb_parser dl).
Proof. pkeep. apply mongodb_runs; ppart. Qed.
Lemma cassandra_law : keeps_law (dpi_cassandra_parser dl).
Proof. pkeep. apply cassandra_runs; ppart. Qed.
Lemma spark_law : keeps_law (dpi_spark_parser dl).
Proof. pkeep; [apply spark_runs|apply spark_mid_runs]; ppart. Qed.
Lemma zookeeper_tcp_law : keeps_law (dpi_zookeeper_tcp_parser dl).
Proof. pkeep; [apply zookeeper_runs|apply zookeeper_mid_runs]; ppart. Qed.
Lemma zookeeper_udp_law : keeps_law (dpi_zookeeper_udp_parser dl).
Proof. pkeep. apply zookeeper_udp_runs; ppart. Qed.
Lemma grpc_law : keeps_law (dpi_grpc_tcp_parser dl).
Proof. pkeep. apply grpc_runs; ppart. Qed.
Lemma postgresql_law : keeps_law (dpi_postgresql_parser dl tc recompiled).
Proof. pkeep. apply postgresql_runs; ppart. Qed.
Lemma couchbase_law : keeps_law (dpi_couchbase_parser dl).
Proof. pkeep. apply couchbase_runs; ppart. Qed.

Lemma list_law : Forall keeps_law (parser_list dl).
Proof.
  repeat (apply Forall_cons; split); try apply Forall_nil;
  auto using dhcp_law, echo_tcp_law, echo_udp_law, ntp_law, tftp_law, ssh_law, redis_law, mongodb_law, cassandra_law,
    spark_law, zookeeper_tcp_law, zookeeper_udp_law, grpc_law, postgresql_law, couchbase_law.
Qed.
End keep.

Lemma setup_lawful (g : lists (@parser pdata E)) (l : list (@parser pdata E)) :
  g = dpi_parser_setup l -> Forall (fun c => 0 <= type c < DPI_PARSER_MAX) l -> Forall (keeps_law g) l -> Lawful ext_ok shape slack g.
Proof.
  intros Hg Ht Hl. assert (H : forall ipp t c, in_range t -> entry g ipp t = Some c ->
    c ∈ l /\ type c = t /\ list_no (p_ip_proto c) = list_no ipp).
  { intros ipp t c Hr Hc. unfold entry in Hc. destruct (get_parser_list g ipp !! Z.to_nat t) as [o|] eqn:Eo; [|done].
    cbn in Hc. subst o. rewrite Hg in Eo. apply setup_entry in Eo as (? & Hty & ?); [|done]. unfold in_range in Hr.
    split_and!; [done| |done]. lia. }
  split.
  - intros ipp. rewrite Hg. apply setup_len.
  - intros ipp t c Hr Hc. by destruct (H ipp t c Hr Hc) as (_ & ? & _).
  - intros ipp t c Hr Hc. destruct (H ipp t c Hr Hc) as (Hin & _ & Hn).
    exact (proj1 (Forall_forall _ _) Hl c Hin ipp Hn).
Qed.
Lemma parsers_lawful : Lawful ext_ok shape slack parsers.
Proof.
  apply (setup_lawful parsers (parser_list dl)).
  - unfold parsers. reflexivity.
  - apply list_types.
  - apply list_law, parsers_deleters.
Qed.

(** ** What holds of the data path's parsers *)

Abbreviation history := (session_history ext_ok shape slack parsers).
Abbreviation arrival := (arrives ext_ok slack).



End registry.

(** ** A session with a Redis server *)

Section example.
Definition pk0 (f : Z) : packet := Packet [] 0 f 0 0 0 0 0 0x800 40000 6379 6 0 0 0 0 0 0 0 0 0 0 0 [] [].
Definition buf0 (l : list Z) (seq : Z) : buf := Buf (l ++ replicate 40 0) (Z.of_nat (length l)) seq.
Definition world0 (s : session) (h : gmap Z pdata) (e : io_ep) (f : Z) (l : list Z) (seq : Z) : world pdata unit :=
  World s h tt e (pk0 f) (buf0 l seq) (buf0 [] 0) false None 0 0 0 [].
Definition send (w : world pdata unit) (f : Z) (l : list Z) (seq : Z) : world pdata unit :=
  world0 (sess w) (heap w) (ep w) f l seq.
Definition quiet_conf : Z -> threat_conf := fun _ => ThreatConf false 0 0 0.
Abbreviation example_parsers := (@parsers unit quiet_conf None).
Definition next (w : world pdata unit) : world pdata unit :=
  match dpi_pkt_proto_parser example_parsers w with Some (_, v) => v | None => w end.

(** The handshake, the request PING and the answer PONG *)
Definition created0 : world pdata unit :=
  world0 (Session DPI_SESS_FLAG_INGRESS 0 [0; 0; 0] (replicate 20 0) 0 0 6
            (Wing 40000 1000 1000 1000) (Wing 6379 5000 5000 5000) 0 0 0) ∅ (IoEp ∅ 0 0 false false false false false false) 0xC [] 1000.
Definition after_syn : world pdata unit := next (send created0 0xC [] 1000).
Definition request : world pdata unit := send after_syn 0x4 [42; 49; 13; 10; 36; 52; 13; 10; 80; 73; 78; 71; 13; 10] 1000.
Definition after_request : world pdata unit := next request.
Definition response : world pdata unit := send after_request 0 [43; 80; 79; 78; 71; 13; 10] 5000.
Definition after_response : world pdata unit := next response.

Abbreviation exhistory := (session_history (fun _ : unit => True) shape RPC_SLACK example_parsers).

Lemma buf0_ok l seq : Forall is_u8 l -> (length l <= 1000)%nat -> is_u32 seq -> buf_ok RPC_SLACK (buf0 l seq).
Proof.
  intros Hl Hn Hs. split; cbn [buf0 b_mem b_len b_seq]; [|unfold DPI_MAX_PKT_LEN; lia| |done|].
  - apply Forall_app. split; [done|]. by apply Forall_replicate.
  - rewrite length_app, length_replicate. unfold RPC_SLACK. lia.
  - rewrite Nat2Z.id, drop_app_length. apply elem_of_replicate. lia.
Qed.
Lemma world0_wt s h e f l seq : sess_ok s -> ep_ok e -> Forall is_u8 l -> (length l <= 1000)%nat -> is_u32 seq ->
  wt RPC_SLACK (world0 s h e f l seq).
Proof. intros. split; try done; [by apply buf0_ok|apply buf0_ok; [by apply Forall_nil|cbn; lia|done]]. Qed.

Lemma created0_fresh : fresh (fun _ : unit => True) shape RPC_SLACK example_parsers created0.
Proof.
  assert (Hd : forall t, in_range t -> datum created0 t = NULL).
  { intros t Ht. unfold datum. change (parser_data (sess created0)) with (replicate 20 (0 : Z)).
    destruct (replicate 20 (0 : Z) !! Z.to_nat t) eqn:Et; [|done]. by apply lookup_replicate in Et as [-> _]. }
  assert (Hb : forall t, in_range t -> bit created0 t = false).
  { intros t Ht. unfold bit. change (parser_bits (sess created0)) with [0; 0; 0 : Z].
    unfold in_range, DPI_PARSER_MAX in Ht.
    assert (Hc : t = 0 \/ t = 1 \/ t = 2 \/ t = 3 \/ t = 4 \/ t = 5 \/ t = 6 \/ t = 7 \/ t = 8 \/ t = 9 \/ t = 10 \/ t = 11 \/
      t = 12 \/ t = 13 \/ t = 14 \/ t = 15 \/ t = 16 \/ t = 17 \/ t = 18 \/ t = 19) by lia.
    by repeat destruct Hc as [-> | Hc]; [..|subst t]. }
  split; [|done|done|done|done]. split; [| |done|done].
  - apply world0_wt; [|split; [apply map_Forall_empty|done|done]|by apply Forall_nil|cbn; lia|done].
    split; try done.
  - split; try done.
    + intros t Ht H. by rewrite Hd in H.
    + intros t u Ht Hu H. by rewrite Hd in H.
    + intros a [d Ha]. by apply (lookup_empty_Some a d) in Ha.
    + intros t Ht H. by rewrite Hb in H.
Qed.

Lemma send_arrives b w f l seq :
  wt RPC_SLACK w -> s_ip_proto (sess w) = 6 -> Forall is_u8 l -> (length l <= 1000)%nat -> is_u32 seq ->
  FLAGS_TEST f DPI_PKT_FLAG_NEW_SESSION = b -> FLAGS_TEST f DPI_PKT_FLAG_ASSEMBLED = false ->
  arrives (fun _ : unit => True) RPC_SLACK b w (send w f l seq).
Proof.
  intros [] Hp Hl Hn Hs Hb Ha. split; try done.
  - by apply world0_wt.
  - unfold assembled, pkt_flag. cbn [send world0 pk pk0 flags]. congruence.
Qed.

(** Proofs by evaluation of the whole data path *)
Lemma syn_seen : dpi_pkt_proto_parser example_parsers (send created0 0xC [] 1000) = Some (tt, after_syn).
Proof. vm_compute. reflexivity. Qed.
Lemma request_seen : dpi_pkt_proto_parser example_parsers request = Some (tt, after_request).
Proof. vm_compute. reflexivity. Qed.
Lemma response_seen : dpi_pkt_proto_parser example_parsers response = Some (tt, after_response).
Proof. vm_compute. reflexivity. Qed.

Lemma history_wt b w : exhistory b w -> wt RPC_SLACK w.
Proof.
  intros H. apply (framework_typed _ _ _ _ (HL := parsers_lawful quiet_conf None _ RPC_SLACK (Z.le_refl _)) _ _ H).
Qed.
Lemma syn_history : exhistory false after_syn.
Proof.
  eapply packet_seen; [apply created, created0_fresh| |exact syn_seen].
  apply send_arrives; [apply created0_fresh|done|by apply Forall_nil|cbn; lia|done..].
Qed.
Lemma request_arrives : arrives (fun _ : unit => True) RPC_SLACK false after_syn request.
Proof.
  apply send_arrives; [by eapply history_wt, syn_history|by vm_compute|repeat constructor; done|cbn; lia|done..].
Qed.
Lemma request_history : exhistory false after_request.
Proof. eapply packet_seen; [apply syn_history|apply request_arrives|exact request_seen]. Qed.
Lemma response_arrives : arrives (fun _ : unit => True) RPC_SLACK false after_request response.
Proof.
  apply send_arrives; [by eapply history_wt, request_history|by vm_compute|repeat constructor; done|cbn; lia|done..].
Qed.
Lemma response_history : exhistory false after_response.
Proof. eapply packet_seen; [apply request_history|apply response_arrives|exact response_seen]. Qed.

(** After the request two parsers hold an object: that of Redis and that of MongoDB, which
    waits for more bytes.  The answer identifies the session as Redis, and both are gone. *)
Example redis_identified :
  size (heap after_request) = 2%nat /\ only_flag after_request = false /\
  app (sess after_response) = 2002 /\ only_parser (sess after_response) = DPI_PARSER_REDIS /\
  heap after_response = ∅ /\ skipped after_response = true.
Proof. vm_compute. split_and!; done. Qed.

End example.
End Parsers.
