(* ===== verification/Kafka.v ===== *)
(** * dpi/parsers/dpi_kafka.c

    A request is followed field by field: [kcur] holds the pointer into the packet, the
    bytes of the packet left behind it (`*pleft`, an int), the bytes of the request left
    (`size_left`) and the two flags a request may set in the parser's object.  The
    functions return early from many places: in [K], [inl r] is `return r`, [None] a read
    outside the memory of the packet. *)

From S2P Require Import Prelude Helper Bitmap Wire Frag Parser ParserLaw ParserTac.
Import Helper.Bytes Helper.Seq Wire.Wire Parser.Parser ParserLaw.ParserLaw ParserTac.ParserTac.

Module Kafka.

Definition PRODUCE : Z := 0.
Definition FETCH : Z := 1.
Definition LIST_OFFSETS : Z := 2.
Definition METADATA : Z := 3.
Definition LEADER_AND_ISR : Z := 4.
Definition STOP_REPLICA : Z := 5.
Definition UPDATE_METADATA_KEY : Z := 6.
Definition CONTROLLED_SHUTDOWN_KEY : Z := 7.
Definition OFFSET_COMMIT : Z := 8.
Definition OFFSET_FETCH : Z := 9.
Definition GROUP_COORDINATOR : Z := 10.
Definition MAX_TOPIC_LEN : Z := 256.
Definition MAX_TOPIC_NUM : Z := 256.
Definition MAX_PARTITION_NUM : Z := 256.
Definition MAX_KAFKA_PACKET : Z := 1024 * 10000.
Definition MAX_TOPIC_PARSE : Z := 8.
Definition MAX_PARTI_PARSE : Z := 16.

(** ** The cursor *)

Record kcur := KCur { kptr : Z; kleft : Z; size_left : Z; kvalid : bool; kchecked : bool }.
#[export] Instance eta_kcur : Eta kcur := fun c => KCur (kptr c) (kleft c) (size_left c) (kvalid c) (kchecked c).

Definition K (A : Type) : Type := kcur -> option (kcur * (Z + A)).
#[export] Instance K_ret : MRet K := fun A a c => Some (c, inr a).
#[export] Instance K_bind : MBind K := fun A B k m c =>
  match m c with Some (c, inr a) => k a c | Some (c, inl r) => Some (c, inl r) | None => None end.
Definition return_ {A} (r : Z) : K A := fun c => Some (c, inl r).
Definition kget {A} (f : kcur -> A) : K A := fun c => Some (c, inr (f c)).
Definition kset (f : kcur -> kcur) : K unit := fun c => Some (f c, inr tt).
Definition knop : K unit := mret tt.

Section request.
Context (m : list Z).

(** for (i = 0; i < string_len; i++) if (!isprint( *ptr)) return -1 *)
Fixpoint printable (n : nat) (o : Z) : option bool :=
  match n with O => Some true | S n => c ← ld8 m o; if isprint c then printable n (o + 1) else Some false end.

(** The length with its two bytes, 0 or -1, and what is left of *pleft *)
Definition get_short_string_len (ptr left : Z) : option (Z * Z) :=
  if left <? 2 then Some (0, left)
  else
    n ← be16 m ptr;
    if MAX_TOPIC_LEN <? n then Some (-1, left)
    else if left <? n + 2 then Some (0, left)
    else
      ok ← printable (Z.to_nat n) (ptr + 2);
      Some (if (ok : bool) then (n + 2, s32 (left - 2 - n)) else (-1, s32 (left - 2))).
Definition get_count (ptr left limit : Z) : option Z :=
  if left <? 4 then Some 0 else n ← be32 m ptr; Some (if limit <? n then -1 else n).
Definition get_bytes (ptr left : Z) : option Z := if left <? 4 then Some 0 else n ← be32 m ptr; Some (s32 n).

(** ptr += n; *pleft -= n; size_left -= k *)
Definition skip_as (n k : Z) : K unit := kset (fun c =>
  c <| kptr ::= fun p => p + n |> <| kleft ::= fun l => s32 (l - n) |> <| size_left ::= fun s => s32 (s - k) |>).
Definition skip_ (n : Z) : K unit := skip_as n n.

(** str_len = get_short_string_len(ptr, pleft); size_left -= str_len;
    if (str_len <= 0 || size_left < 0) return size_left < 0 ? -1 : str_len; ptr += str_len *)
Definition string_ : K Z := fun c =>
  '(n, l) ← get_short_string_len (kptr c) (kleft c);
  let c := c <| kleft := l |> <| size_left ::= fun s => s32 (s - n) |> in
  if (n <=? 0) || (size_left c <? 0) then Some (c, inl (if size_left c <? 0 then -1 else n))
  else Some (c <| kptr ::= fun p => p + n |>, inr n).

(** n = get_count(ptr, pleft, limit); the four bytes are skipped;
    if (n < 0 || size_left < 0) return size_left < 0 ? -1 : n.  [least]: the least count
    accepted (some places test n <= 0). *)
Definition count_ (limit least : Z) : K Z := fun c =>
  n ← get_count (kptr c) (kleft c) limit;
  let c := c <| kptr ::= fun p => p + 4 |> <| kleft ::= fun l => s32 (l - 4) |> <| size_left ::= fun s => s32 (s - 4) |> in
  if (n <? least) || (size_left c <? 0) then Some (c, inl (if size_left c <? 0 then -1 else n)) else Some (c, inr n).
Definition bytes_ : K Z := fun c => n ← get_bytes (kptr c) (kleft c); Some (c, inr n).

(** if (size_left < 0) return -1 *)
Definition in_size : K unit := s ← kget size_left; if s <? 0 then return_ (-1) else knop.
Definition checked_ : K unit := kset (fun c => c <| kchecked := true |>).
Definition valid_ : K unit := kset (fun c => c <| kvalid := true |>).
(** if (i > max) { data->valid_request = true; data->checked_request = true; return 1; } *)
Definition enough (i max : Z) (valid : bool) : K unit :=
  if max <? i then (if valid then valid_ else knop);; checked_;; return_ 1 else knop.
(** if (n > 0 && *pleft == 0) data->valid_request = true; data->checked_request = true; return 1 *)
Definition finish (n : Z) : K unit :=
  l ← kget kleft;
  (if (0 <? n) && (l =? 0) then valid_ else knop);; checked_;; return_ 1.

(** for (i = i0; i < i0 + n; i ++), with a variable that lives across the rounds *)
Fixpoint kfor {A} (n : nat) (i : Z) (a : A) (f : A -> Z -> K A) : K A :=
  match n with O => mret a | S n => a ← f a i; kfor n (i + 1) a f end.
Definition kfor_ (n i : Z) (f : Z -> K unit) : K unit := kfor (Z.to_nat n) i tt (fun _ => f).

(** ** The requests *)

Definition produce_part (j : Z) : K unit :=
  skip_ 4;;
  size_bytes ← bytes_;
  skip_ 4;;
  skip_ size_bytes;;
  in_size;;
  enough j MAX_PARTI_PARSE true.
Definition check_produce_request : K unit :=
  str_len ← string_;
  skip_ 2;;
  skip_ 4;;
  topic_count ← count_ MAX_TOPIC_NUM 0;
  s ← kget size_left;
  if (str_len - 2 =? 0) && (topic_count =? 0) && (0 <? s) then return_ (-1)
  else
    parti_count ← kfor (Z.to_nat topic_count) 0 0 (fun _ i =>
      string_;;
      parti_count ← count_ MAX_PARTITION_NUM 0;
      kfor_ parti_count 0 produce_part;;
      enough i MAX_TOPIC_PARSE true;;
      mret parti_count);
    finish parti_count.

(** Topics with partitions of a fixed size *)
Definition topics (topic_count : Z) (part : Z -> K unit) : K unit :=
  kfor_ topic_count 0 (fun i =>
    string_;;
    parti_count ← count_ MAX_PARTITION_NUM 0;
    kfor_ parti_count 0 part;;
    enough i MAX_TOPIC_PARSE true).
Definition fixed_part (j : Z) : K unit :=
  skip_ 4;; skip_ 8;; skip_ 4;; in_size;; enough j MAX_PARTI_PARSE true.

Definition check_fetch_request (version_id : Z) : K unit :=
  string_;;
  skip_ 4;; skip_ 4;; skip_ 4;;
  (if 3 <=? version_id then skip_ 4 else knop);;
  topic_count ← count_ MAX_TOPIC_NUM 0;
  topics topic_count fixed_part;;
  finish topic_count.

Definition check_list_offsets_request : K unit :=
  string_;;
  skip_ 4;;
  topic_count ← count_ MAX_TOPIC_NUM 0;
  topics topic_count fixed_part;;
  finish topic_count.

Definition check_metadata_request : K unit :=
  string_;;
  topic_count ← count_ MAX_TOPIC_NUM 0;
  kfor_ topic_count 0 (fun i => string_;; enough i MAX_TOPIC_PARSE true);;
  finish topic_count.

(** topic, partition and PartitionStateInfo *)
Definition partition_state (isr_least : Z) : K unit :=
  string_;;
  skip_ 4;; skip_ 4;; skip_ 4;; skip_ 4;;
  isrSize ← count_ MAX_PARTITION_NUM isr_least;
  skip_ (4 * isrSize);;
  skip_ 4;;
  replicationFactor ← count_ MAX_PARTITION_NUM 1;
  skip_ (4 * replicationFactor).

Definition check_leader_and_isr_request : K unit :=
  string_;;
  skip_ 4;; skip_ 4;;
  parti_count ← count_ MAX_PARTITION_NUM 0;
  kfor_ parti_count 0 (fun i => partition_state 1;; enough i MAX_PARTI_PARSE true);;
  finish parti_count.

Definition check_replica_request : K unit :=
  string_;;
  skip_ 4;; skip_ 4;; skip_ 1;;
  parti_count ← count_ MAX_PARTITION_NUM 0;
  kfor_ parti_count 0 (fun i => string_;; skip_ 4;; enough i MAX_PARTI_PARSE false);;
  finish parti_count.

Definition check_update_metadata_key_request : K unit :=
  string_;;
  skip_ 4;; skip_ 4;;
  parti_count ← count_ MAX_PARTITION_NUM 0;
  kfor_ parti_count 0 (fun i => partition_state 0;; enough i MAX_PARTI_PARSE false);;
  checked_;; return_ 1.

(** size_left goes down by 4 for the 8 bytes of the offset. *)
Definition commit_part (version_id j : Z) : K unit :=
  skip_ 4;;
  skip_as 8 4;;
  (if version_id =? 1 then skip_ 8 else knop);;
  string_;;
  enough j MAX_PARTI_PARSE true.
Definition check_offset_commit_request (version_id : Z) : K unit :=
  string_;;
  string_;;
  (if 2 <=? version_id then skip_ 8 else if 1 <=? version_id then skip_ 4 else knop);;
  topic_count ← count_ MAX_TOPIC_NUM 0;
  topics topic_count (commit_part version_id);;
  finish topic_count.

Definition check_offset_fetch_request : K unit :=
  string_;;
  string_;;
  topic_count ← count_ MAX_TOPIC_NUM 0;
  topics topic_count (fun _ => skip_ 4);;
  finish topic_count.

Definition check_group_coordinator_request : K unit := string_;; string_;; checked_;; return_ 1.
Definition check_controlled_shutdown_request : K unit := string_;; checked_;; return_ 1.

(** The switch on the (unsigned) key *)
Definition check_request (api_key version_id : Z) : K unit :=
  if api_key =? PRODUCE then check_produce_request
  else if api_key =? FETCH then check_fetch_request version_id
  else if api_key =? LIST_OFFSETS then check_list_offsets_request
  else if api_key =? METADATA then check_metadata_request
  else if api_key =? LEADER_AND_ISR then check_leader_and_isr_request
  else if api_key =? STOP_REPLICA then check_replica_request
  else if api_key =? UPDATE_METADATA_KEY then check_update_metadata_key_request
  else if api_key =? CONTROLLED_SHUTDOWN_KEY then check_controlled_shutdown_request
  else if api_key =? OFFSET_COMMIT then check_offset_commit_request version_id
  else if api_key =? OFFSET_FETCH then check_offset_fetch_request
  else if api_key =? GROUP_COORDINATOR then check_group_coordinator_request
  else return_ 1.

(** The value returned, *pleft and the two flags *)
Definition check_api_key (api_key version_id ptr left size : Z) (valid checked : bool) : option (Z * Z * bool * bool) :=
  '(c, r) ← check_request api_key version_id (KCur ptr left size valid checked);
  Some (match r with inl r => r | inr _ => 1 end, kleft c, kvalid c, kchecked c).
End request.

(** ** The parser's object *)

Record kafka_wing := KafkaWing { k_seq : Z; corr_id : list Z; k_left : Z; corr_id_cnt : Z }.
#[export] Instance eta_kafka_wing : Eta kafka_wing := fun x => KafkaWing (k_seq x) (corr_id x) (k_left x) (corr_id_cnt x).
Record kafka_data := KafkaData { k_client : kafka_wing; k_server : kafka_wing; valid_request : bool; checked_request : bool }.
#[export] Instance eta_kafka_data : Eta kafka_data := fun d => KafkaData
  (k_client d) (k_server d) (valid_request d) (checked_request d).
Definition kafka_new (ci si : Z) : kafka_data :=
  KafkaData (KafkaWing ci (replicate 4 0) 0 0) (KafkaWing si (replicate 4 0) 0 0) false false.
Definition k_w (cl : bool) (d : kafka_data) : kafka_wing := if cl then k_client d else k_server d.
Definition k_upd (cl : bool) (f : kafka_wing -> kafka_wing) (d : kafka_data) : kafka_data :=
  if cl then d <| k_client ::= f |> else d <| k_server ::= f |>.

(** corr_id[i] *)
Definition id_at (x : kafka_wing) (i : Z) : option Z := if i <? 0 then None else corr_id x !! Z.to_nat i.
(** Is there a j in [0, n) with corr_id[j] of [x] equal to [v], other than [but]? *)
Fixpoint id_among (n : nat) (x : kafka_wing) (v but : Z) : option bool :=
  match n with
  | O => Some false
  | S n =>
      w ← id_at x (Z.of_nat n);
      if negb (Z.of_nat n =? but) && (v =? w) then Some true else id_among n x v but
  end.
(** Two of the first [n] are the same *)
Fixpoint id_twice (n : nat) (x : kafka_wing) : option bool :=
  match n with
  | O => Some false
  | S n =>
      v ← id_at x (Z.of_nat n);
      dup ← id_among (Z.to_nat (corr_id_cnt x)) x v (Z.of_nat n);
      if dup : bool then Some true else id_twice n x
  end.
(** How many of the first [n] of [x] are among those of [y] *)
Fixpoint ids_matched (n : nat) (x y : kafka_wing) : option Z :=
  match n with
  | O => Some 0
  | S n =>
      v ← id_at x (Z.of_nat n);
      hit ← id_among (Z.to_nat (corr_id_cnt y)) y v (-1);
      k ← ids_matched n x y;
      Some (if (hit : bool) then k + 1 else k)
  end.
Definition check_corr_id_valid (d : kafka_data) : option Z :=
  c ← id_twice (Z.to_nat (corr_id_cnt (k_client d))) (k_client d);
  if c : bool then Some (-1)
  else
    s ← id_twice (Z.to_nat (corr_id_cnt (k_server d))) (k_server d);
    if s : bool then Some (-1)
    else
      k ← ids_matched (Z.to_nat (corr_id_cnt (k_server d))) (k_server d) (k_client d);
      Some (if (if checked_request d then 1 else 2) <=? k then 1
            else if 2 <=? corr_id_cnt (k_server d) then -1 else 0).

(** corr_id[corr_id_cnt++] = id when corr_id_cnt < max *)
Definition id_push (max id : Z) (x : kafka_wing) : kafka_wing :=
  if corr_id_cnt x <? max
  then x <| corr_id ::= <[Z.to_nat (corr_id_cnt x) := id]> |> <| corr_id_cnt ::= fun n => u8 (n + 1) |> else x.

(** int16_t *)
Definition s16 (z : Z) : Z := if z mod 2 ^ 16 <? 2 ^ 15 then z mod 2 ^ 16 else z mod 2 ^ 16 - 2 ^ 16.

Section kafka.
Context {D E : Type} `{!Obj D kafka_data} (dl : lists (option (@deleter D))).

Definition k_set (a : Z) (cl : bool) (f : kafka_wing -> kafka_wing) : M D E unit :=
  d ← deref_as a; store_as a (k_upd cl f d).
Definition k_accept : M D E unit := dpi_finalize_parser dl;; dpi_ignore_parser.
(** w->left = 0; return *)
Definition k_wait (a : Z) (cl : bool) : M D E unit := k_set a cl (fun x => x <| k_left := 0 |>).

(** The end of the parser: `size > (len - left)` compares as unsigned. *)
Definition k_end (a : Z) (cl : bool) (len left size : Z) : M D E unit :=
  let left := if left <? 0 then 0 else left in
  let parsed := s32 (if u32 (len - left) <? u32 size then u32 (len - left) else size) in
  d ← deref_as a;
  let q := u32 (k_seq (k_w cl d) + (parsed + 4)) in
  store_as a (k_upd cl (fun x => x <| k_left ::= fun l => s32 (l - parsed) |> <| k_seq := q |>) d);;
  dpi_set_asm_seq q;;
  d ← deref_as a;
  res ← lift (check_corr_id_valid d);
  if res =? 1 then
    ing ← is_ingress;
    upd_ep (fun e => if (ing : bool) then e <| kafka_svr := true |> else e);;
    k_accept
  else if res =? -1 then dpi_fire_parser else skip.

(** A request; [o] is behind its size, [left] bytes from there, [len] those of the packet *)
Definition k_request (a : Z) (m : list Z) (o len left size : Z) : M D E unit :=
  if left <? 12 then k_wait a true
  else
    key ← lift (be16 m o);
    if 16 <? s16 key then dpi_fire_parser
    else
      ver ← lift (be16 m (o + 2));
      if 4 <? s16 ver then dpi_fire_parser
      else
        id ← lift (be32 m (o + 4));
        d ← deref_as a;
        r ← lift (check_api_key m key ver (o + 8) (left - 8) (s32 (size - 8)) (valid_request d) (checked_request d));
        let '(res, lft, valid, checked) := r in
        store_as a (d <| valid_request := valid |> <| checked_request := checked |>);;
        if res <? 0 then dpi_fire_parser
        else if (res =? 0) && (s32 (len - lft) <=? 1024) then k_wait a true
        else
          d ← deref_as a;
          store_as a (if res =? 0 then d <| checked_request := true |> else d);;
          svr ← get (fun w => kafka_svr (ep w));
          if svr || valid then k_accept
          else
            d ← deref_as a;
            store_as a (k_upd true (id_push 2 id) d);;
            d ← deref_as a;
            if (2 <=? corr_id_cnt (k_client d)) && checked_request d then k_accept
            else k_end a true len lft size.

Definition k_response (a : Z) (m : list Z) (o len left size : Z) : M D E unit :=
  if left <? 4 then k_wait a false
  else
    id ← lift (be32 m o);
    d ← deref_as a;
    store_as a (k_upd false (id_push 4 id) d);;
    k_end a false len left size.

(** From the size of the message on *)
Definition k_message (a : Z) (cl : bool) (m : list Z) (o len left : Z) : M D E unit :=
  if left <? 4 then skip
  else
    n ← lift (be32 m o);
    let size := s32 n in
    k_set a cl (fun x => x <| k_left := size |>);;
    if MAX_KAFKA_PACKET <? size then dpi_fire_parser
    else if cl then k_request a m (o + 4) len (left - 4) size
    else k_response a m (o + 4) len (left - 4) size.

Definition kafka_parser : M D E unit :=
  with_data true kafka_new (fun a =>
    cl ← is_client;
    d ← deref_as a;
    pos ← seek (k_seq (k_w cl d));
    match pos with
    | None => dpi_fire_parser
    | Some (off, len) =>
        m ← dpi_pkt_ptr;
        let l := k_left (k_w cl d) in
        if 0 <? l then
          if l <? len then
            let q := u32 (k_seq (k_w cl d) + l) in
            k_set a cl (fun x => x <| k_seq := q |> <| k_left := 0 |>);;
            dpi_set_asm_seq q;;
            k_message a cl m (off + l) len (len - l)
          else
            let q := u32 (k_seq (k_w cl d) + len) in
            k_set a cl (fun x => x <| k_seq := q |> <| k_left := l - len |>);;
            dpi_set_asm_seq q
        else if l <? 0 then dpi_fire_parser
        else k_message a cl m off len len
    end).

(** The object is a local variable that is not initialised: [junk] are its two flags. *)
Definition kafka_midstream (junk : bool * bool) : M D E unit :=
  m ← dpi_pkt_ptr;
  len ← dpi_pkt_len;
  if 12 <=? len then
    n ← lift (be32 m 0);
    if MAX_KAFKA_PACKET <? s32 n then dpi_fire_parser
    else
      key ← lift (be16 m 4);
      if 16 <? s16 key then dpi_fire_parser
      else
        ver ← lift (be16 m 6);
        if 4 <? s16 ver then dpi_fire_parser
        else
          r ← lift (check_api_key m key ver 12 (len - 12) (s32 (s32 n - 8)) junk.1 junk.2);
          let '(res, _, _, checked) := r in
          if (0 <? res) && checked then k_accept else dpi_fire_parser
  else dpi_fire_parser.

Definition kafka_new_session : M D E unit :=
  prt ← get (fun w => port (server (sess w)));
  if 1024 <=? prt then dpi_hire_parser else skip.
Definition dpi_kafka_parser (junk : bool * bool) : parser :=
  Parser (Some kafka_new_session) (Some free) (Some kafka_parser) (Some kafka_new_session) (Some (kafka_midstream junk))
    "kafka" IPPROTO_TCP DPI_PARSER_KAFKA.
End kafka.

(** ** Requests are read inside the packet

    A rule for each step: [ok L] bounds from below how far the cursor has run past the end
    of the packet (it does so without reading), and ties it to the memory. *)

Section bounds.
Context (m : list Z) (start end_ : Z).

Definition ok (L : Z) (c : kcur) : Prop :=
  kptr c + kleft c = end_ /\ start <= kptr c /\ - L <= kleft c <= DPI_MAX_PKT_LEN.
Lemma ok_mono L L' c : ok L c -> L <= L' -> ok L' c.
Proof. intros (? & ? & ? & ?) ?. unfold ok. lia. Qed.

Definition kwp {A} (k : K A) (Q : A -> kcur -> Prop) (c : kcur) : Prop :=
  match k c with Some (c, inr a) => Q a c | Some (_, inl r) => -1 <= r <= 1 | None => False end.
Lemma kwp_bind {A B} (k : K A) (f : A -> K B) Q c : kwp k (fun a => kwp (f a) Q) c -> kwp (k ≫= f) Q c.
Proof. unfold kwp, mbind, K_bind. by destruct (k c) as [[c' [r|a]]|]. Qed.
Lemma kwp_mono {A} (k : K A) (Q R : A -> kcur -> Prop) c : kwp k Q c -> (forall a c', Q a c' -> R a c') -> kwp k R c.
Proof. unfold kwp. destruct (k c) as [[c' [r|a]]|]; auto. Qed.
Lemma kwp_ret {A} (a : A) Q c : Q a c -> kwp (mret a) Q c.
Proof. done. Qed.
Lemma kwp_return {A} r (Q : A -> kcur -> Prop) c : -1 <= r <= 1 -> kwp (return_ r) Q c.
Proof. done. Qed.

Lemma kwp_skip_as L n k (Q : unit -> kcur -> Prop) c :
  ok L c -> 0 <= n <= 2048 -> L <= 2 ^ 30 -> (forall c', ok (L + n) c' -> Q tt c') -> kwp (skip_as n k) Q c.
Proof.
  intros (H1 & H2 & H3 & H4) Hn HL HQ. apply HQ. unfold ok. cbn. unfold DPI_MAX_PKT_LEN in *. rewrite s32_id by lia. lia.
Qed.
Lemma kwp_flag L f (Q : unit -> kcur -> Prop) c :
  ok L c -> (forall c, kptr (f c) = kptr c /\ kleft (f c) = kleft c) -> (forall c', ok L c' -> Q tt c') -> kwp (kset f) Q c.
Proof. intros H Hf HQ. apply HQ. destruct (Hf c) as [E1 E2]. unfold ok in *. by rewrite E1, E2. Qed.
Lemma kwp_in_size L (Q : unit -> kcur -> Prop) c : ok L c -> (forall c', ok L c' -> Q tt c') -> kwp in_size Q c.
Proof. intros H HQ. unfold kwp, in_size, kget, mbind, K_bind, knop. destruct (size_left c <? 0); [cbn; lia|]. by apply HQ. Qed.
Lemma kwp_enough L i mx v (Q : unit -> kcur -> Prop) c : ok L c -> (forall c', ok L c' -> Q tt c') -> kwp (enough i mx v) Q c.
Proof. intros H HQ. unfold enough. destruct (_ <? _); [|by apply HQ]. by destruct v; cbn. Qed.
Lemma kwp_finish n (Q : unit -> kcur -> Prop) c : kwp (finish n) Q c.
Proof. unfold kwp, finish, kget, mbind, K_bind. by destruct (_ && _). Qed.

(** Rounds that each let the cursor run on by at most [g] *)
Lemma kwp_for L g n (f : Z -> K unit) (Q : unit -> kcur -> Prop) c :
  ok L c -> 0 <= n <= 256 -> 0 <= g ->
  (forall i k c, 0 <= k <= n -> ok (L + g * k) c -> kwp (f i) (fun _ => ok (L + g * (k + 1))) c) ->
  (forall c', ok (L + g * n) c' -> Q tt c') -> kwp (kfor_ n 0 f) Q c.
Proof.
  intros H Hn Hg Hf HQ. unfold kfor_.
  assert (HI : forall r k i c, k + Z.of_nat r = n -> 0 <= k -> ok (L + g * k) c ->
    kwp (kfor r i tt (fun _ => f)) (fun _ => ok (L + g * n)) c).
  { induction r as [|r IH]; intros k i c' Hk Hk0 Hc; cbn [kfor]; [by replace n with k by lia|].
    apply kwp_bind. eapply kwp_mono; [apply Hf; [|exact Hc]; lia|]. intros [] c2 H2. apply (IH (k + 1)); [lia|lia|done]. }
  eapply kwp_mono; [apply (HI (Z.to_nat n) 0); [lia|done|by rewrite Z.mul_0_r, Z.add_0_r]|]. intros [] c' Hc'. by apply HQ.
Qed.
(** Rounds that start from any position within [g] *)
Lemma kwp_for_stable g n (f : Z -> K unit) (Q : unit -> kcur -> Prop) c :
  ok g c -> 0 <= n <= 256 -> (forall i c, ok g c -> kwp (f i) (fun _ => ok g) c) -> (forall c', ok g c' -> Q tt c') ->
  kwp (kfor_ n 0 f) Q c.
Proof.
  intros H Hn Hf HQ. eapply (kwp_for g 0); [done|done|done| |by rewrite Z.mul_0_l, Z.add_0_r].
  intros i k c' _. rewrite !Z.mul_0_l, !Z.add_0_r. apply Hf.
Qed.

Context (Hb : bytes m).
Lemma printable_ok n o : holds m o (Z.of_nat n) -> exists r, printable m n o = Some r.
Proof.
  revert o. induction n as [|n IH]; intros o [? ?]; cbn [printable]; [eauto|].
  destruct (ld8_ok m o Hb) as (x & -> & _); [split; lia|]. cbn [mbind option_bind]. destruct (isprint x); [apply IH; split; lia|eauto].
Qed.
Context (Hs : 0 <= start) (He : end_ <= Z.of_nat (length m)).
Lemma kwp_string L (Q : Z -> kcur -> Prop) c :
  ok L c -> (forall n c', ok 0 c' -> Q n c') -> kwp (string_ m) Q c.
Proof.
  intros (H1 & H2 & H3 & H4) HQ. unfold kwp, string_, get_short_string_len, DPI_MAX_PKT_LEN in *.
  destruct (Z.ltb_spec (kleft c) 2); [cbn; by destruct (_ <? 0)|]. destruct (be16_ok m (kptr c) Hb) as (n & -> & Hn); [split; lia|]. cbn [mbind option_bind].
  unfold is_u16, MAX_TOPIC_LEN in *. destruct (Z.ltb_spec 256 n); [cbn; by destruct (_ <? 0)|]. destruct (Z.ltb_spec (kleft c) (n + 2)).
  { cbn. by destruct (_ <? 0). }
  destruct (printable_ok (Z.to_nat n) (kptr c + 2)) as [r ->]; [split; lia|]. cbn [mbind option_bind].
  destruct r; [|cbn; by destruct (_ <? 0)]. destruct (Z.leb_spec (n + 2) 0); [lia|]. cbn [orb]. destruct (_ <? 0); [done|]. apply HQ. unfold ok. cbn. unfold DPI_MAX_PKT_LEN. rewrite s32_id by lia. lia.
Qed.
Lemma kwp_count L least (Q : Z -> kcur -> Prop) c :
  ok L c -> L <= 2 ^ 30 -> 0 <= least <= 1 -> (forall n c', ok (L + 4) c' -> 0 <= n <= 256 -> Q n c') -> kwp (count_ m 256 least) Q c.
Proof.
  intros (H1 & H2 & H3 & H4) HL Hl HQ. unfold kwp, count_, get_count.
  assert (exists n, (if kleft c <? 4 then Some 0 else n ← be32 m (kptr c); Some (if 256 <? n then -1 else n)) = Some n /\ -1 <= n <= 256) as (n & -> & Hn).
  { destruct (Z.ltb_spec (kleft c) 4); [exists 0; split; [done|lia]|]. destruct (be32_ok m (kptr c) Hb) as (x & -> & ?); [split; lia|].
    eexists. split; [done|]. unfold is_u32 in *. destruct (Z.ltb_spec 256 x); lia. }
  cbn [mbind option_bind]. destruct (_ || _) eqn:Eo.
  { apply orb_true_iff in Eo. cbn in Eo |- *. destruct (_ <? 0) eqn:E0; [lia|]. destruct Eo as [Eo|]; [apply Z.ltb_lt in Eo; lia|done]. } apply orb_false_iff in Eo as [Eo _]. apply Z.ltb_ge in Eo.
  apply HQ; [|lia]. unfold ok. cbn. unfold DPI_MAX_PKT_LEN in *. rewrite s32_id by lia. lia.
Qed.
End bounds.

Ltac k1 :=
  lazymatch goal with
  | |- kwp (_ ≫= _) _ _ => apply kwp_bind
  | |- kwp (mret _) _ _ => apply kwp_ret
  | |- kwp knop _ _ => apply kwp_ret
  | |- kwp (return_ _) _ _ => apply kwp_return; lia
  | |- kwp (skip_ _) _ _ => eapply kwp_skip_as; [eassumption|lia|lia|intros ? ?]
  | |- kwp (skip_as _ _) _ _ => eapply kwp_skip_as; [eassumption|lia|lia|intros ? ?]
  | |- kwp (string_ _) _ _ => eapply kwp_string; cycle 3; [eassumption|intros ? ? ?|assumption..]
  | |- kwp (count_ _ _ _) _ _ => eapply kwp_count; cycle 3; [eassumption|lia|lia|intros ? ? ? ?|assumption..]
  | |- kwp in_size _ _ => eapply kwp_in_size; [eassumption|intros ? ?]
  | |- kwp (enough _ _ _) _ _ => eapply kwp_enough; [eassumption|intros ? ?]
  | |- kwp (finish _) _ _ => apply kwp_finish
  | |- kwp checked_ _ _ => eapply kwp_flag; [eassumption|done|intros ? ?]
  | |- kwp (if ?b then _ else _) _ _ => destruct b
  end.
Ltac kdone := eapply ok_mono; [eassumption|lia].

Section requests.
Context (m : list Z) (Hb : bytes m) (start end_ : Z) (Hs : 0 <= start) (He : end_ <= Z.of_nat (length m)).
Abbreviation ok := (ok start end_).

Lemma fixed_part_ok L i c : ok L c -> L <= 2 ^ 20 -> kwp (fixed_part i) (fun _ => ok (L + 16)) c.
Proof. intros H HL. unfold fixed_part. repeat k1. kdone. Qed.
Lemma commit_part_ok v i c : ok 8192 c -> kwp (commit_part m v i) (fun _ => ok 8192) c.
Proof. intros H. unfold commit_part. repeat k1; kdone. Qed.
(** Topics whose partitions stay within 8192 bytes *)
Lemma topics_ok n part (Q : unit -> kcur -> Prop) c :
  ok 8192 c -> 0 <= n <= 256 ->
  ((forall L i c, ok L c -> L <= 2 ^ 20 -> kwp (part i) (fun _ => ok (L + 16)) c) \/
   (forall i c, ok 8192 c -> kwp (part i) (fun _ => ok 8192) c)) ->
  (forall c', ok 8192 c' -> Q tt c') -> kwp (topics m n part) Q c.
Proof.
  intros H Hn Hp HQ. eapply kwp_for_stable; [exact H|done| |done]. intros i c' Hc'. repeat k1.
  destruct Hp as [Hp|Hp].
  - eapply (kwp_for _ _ 4 16); [exact H1|lia|lia| |].
    + intros j k c2 Hk Hc2. eapply kwp_mono; [apply Hp; [exact Hc2|lia]|]. cbv beta. intros [] c3 Hc3. kdone.
    + intros c2 Hc2. k1. kdone.
  - eapply (kwp_for_stable _ _ 8192); [kdone|lia|done|]. intros c2 Hc2. k1. kdone.
Qed.
Lemma partition_state_ok l c : ok 8192 c -> 0 <= l <= 1 -> kwp (partition_state m l) (fun _ => ok 8192) c.
Proof. intros H Hl. unfold partition_state. repeat k1. kdone. Qed.
End requests.
(** Every request but a produce request is read inside the packet *)
Lemma check_request_ok m key ver ptr left size valid checked :
  bytes m -> 0 <= ptr -> 0 <= left <= DPI_MAX_PKT_LEN -> ptr + left <= Z.of_nat (length m) -> key <> PRODUCE ->
  kwp (check_request m key ver) (fun _ _ => True) (KCur ptr left size valid checked).
Proof.
  intros Hb Hp Hl Hm Hk. assert (H : ok ptr (ptr + left) 0 (KCur ptr left size valid checked)) by (unfold ok; cbn; lia).
  assert (He := Hm). unfold check_request. destruct (Z.eqb_spec key PRODUCE) as [|_]; [done|]. clear Hk Hl Hm.
  destruct (key =? FETCH); [|destruct (key =? LIST_OFFSETS); [|destruct (key =? METADATA);
    [|destruct (key =? LEADER_AND_ISR); [|destruct (key =? STOP_REPLICA); [|destruct (key =? UPDATE_METADATA_KEY);
    [|destruct (key =? CONTROLLED_SHUTDOWN_KEY); [|destruct (key =? OFFSET_COMMIT); [|destruct (key =? OFFSET_FETCH);
    [|destruct (key =? GROUP_COORDINATOR)]]]]]]]]].
  - unfold check_fetch_request. repeat k1; (eapply topics_ok; [done|done|done|kdone|lia|left; intros; by apply fixed_part_ok|intros; apply kwp_bind || apply kwp_finish; try apply kwp_finish]).
  - unfold check_list_offsets_request. repeat k1. eapply topics_ok; [done|done|done|kdone|lia|left; intros; by apply fixed_part_ok|intros; apply kwp_finish].
  - unfold check_metadata_request. repeat k1. eapply (kwp_for_stable _ _ 4); [kdone|lia|intros; repeat k1; kdone|intros; apply kwp_finish].
  - unfold check_leader_and_isr_request. repeat k1. eapply (kwp_for_stable _ _ 8192); [kdone|lia| |intros; apply kwp_finish].
    intros. k1. eapply kwp_mono; [apply partition_state_ok; first [eassumption|lia]|]. cbv beta. intros. repeat k1. kdone.
  - unfold check_replica_request. repeat k1. eapply (kwp_for_stable _ _ 13); [kdone|lia|intros; repeat k1; kdone|intros; apply kwp_finish].
  - unfold check_update_metadata_key_request. repeat k1. eapply (kwp_for_stable _ _ 8192); [kdone|lia| |intros; repeat k1].
    intros. k1. eapply kwp_mono; [apply partition_state_ok; first [eassumption|lia]|]. cbv beta. intros. repeat k1. kdone.
  - unfold check_controlled_shutdown_request. repeat k1.
  - unfold check_offset_commit_request. repeat k1; (eapply topics_ok; [done|done|done|kdone|lia|right; intros; by apply commit_part_ok|intros; apply kwp_finish]).
  - unfold check_offset_fetch_request. repeat k1. eapply topics_ok; [done|done|done|kdone|lia| |intros; apply kwp_finish].
    left. intros. repeat k1. kdone.
  - unfold check_group_coordinator_request. repeat k1.
  - done.
Qed.

(** The bytes of a produce request whose message set has a negative length: the pointer
    moves 65536 bytes back, and the length of the second partition is read there. *)
Definition negative_produce : list Z :=
  [0; 1; 97;  0; 1;  0; 0; 0; 10;  0; 0; 0; 1;  0; 1; 116;  0; 0; 0; 2;  0; 0; 0; 0;  255; 255; 0; 0;  0; 0; 0; 0;  0; 0; 0; 0].
Example kafka_produce_faults : check_api_key negative_produce PRODUCE 0 0 36 36 false false = None.
Proof. vm_compute. reflexivity. Qed.

(** C7: Every Kafka request but a produce request is followed to a verdict: whatever its
    bytes (any lengths and counts), the strings, counts and partitions are read inside the
    packet, and the verdict is 1 (a request), 0 (more bytes are needed) or -1 (none). *)
Theorem kafka_requests_in_bounds m key ver ptr left size valid checked :
  bytes m -> 0 <= ptr -> 0 <= left <= DPI_MAX_PKT_LEN -> ptr + left <= Z.of_nat (length m) -> key <> PRODUCE ->
  exists r l v c, check_api_key m key ver ptr left size valid checked = Some (r, l, v, c) /\ (r = 1 \/ r = 0 \/ r = -1).
Proof.
  intros Hb Hp Hl Hm Hk. pose proof (check_request_ok m key ver ptr left size valid checked Hb Hp Hl Hm Hk) as H.
  unfold kwp in H. unfold check_api_key. destruct (check_request _ _ _ _) as [[c' [r|a]]|]; [| |done]; cbn; eexists _, _, _, _; (split; [done|]); lia.
Qed.
(** A metadata request for the topic "t" of client "a" *)
Definition metadata_request : list Z := [0; 1; 97; 0; 0; 0; 1; 0; 1; 116].
Lemma kafka_requests_in_bounds_witness :
  check_api_key metadata_request METADATA 0 0 10 10 false false = Some (1, 0, true, true) /\
  exists r l v c, check_api_key metadata_request METADATA 0 0 10 10 false false = Some (r, l, v, c) /\ (r = 1 \/ r = 0 \/ r = -1).
Proof.
  split; [vm_compute; reflexivity|]. apply (kafka_requests_in_bounds metadata_request METADATA 0 0 10 10 false false).
  - repeat constructor; lia.
  - lia.
  - unfold DPI_MAX_PKT_LEN. lia.
  - cbn. lia.
  - discriminate.
Defined.
End Kafka.
