(* ===== verification/Dns.v ===== *)
(** * The DNS parser (dpi/parsers/dpi_dns.c)

    A DNS message is read at [m], the memory at `ptr`, with offsets for pointers into it.
    A and CNAME answers to the questions of a message go to the domain-name table
    (Fqdn.v), which is the outside state [ext] of this parser: from there the policy takes
    the addresses of the names its rules use.

    `char labels[256]` is a list of 256 bytes; `stack i` is what the frame of the [i]-th
    call holds in it before the function writes there.  strcpy copies up to the first NUL
    and is [None] when the array has none: source and target have the same size.  Strings
    kept in questions and answers are byte lists without their NUL, and `ip4`/`cname`, one
    union, are the two constructors of [rdata]. *)

From S2P Require Import Prelude Helper Bitmap Wire Frag Fqdn Parser ParserLaw ParserTac ParsersUdp.
Import Helper.Bytes Helper.Seq Wire.Wire Parser.Parser ParserLaw.ParserLaw ParserTac.ParserTac ParsersUdp.ParsersUdp.

Module Dns.
Abbreviation fqdn_hdl := Fqdn.Fqdn.fqdn_hdl.

Definition MAX_LABEL_LEN : Z := 256.
Definition MAX_RECORD_NUM : Z := 256.
Definition ALLOW_POINTER_NUMBER : Z := 63.
Definition DNS_OP_QUERY : Z := 0.
Definition DNS_OP_IQUERY : Z := 1.
Definition DNS_OP_STATUS : Z := 2.
Definition DNS_OP_NOTIFY : Z := 4.
Definition DNS_OP_UPDATE : Z := 5.
Definition DNS_TYPE_A : Z := 1.
Definition DNS_TYPE_CNAME : Z := 5.
Definition DNS_TYPE_NULL : Z := 10.
Definition DNS_TYPE_IXFR : Z := 251.
Definition DNS_TYPE_AXFR : Z := 252.
Definition DPI_THRT_DNS_LOOP_PTR : Z := 12.
Definition DPI_THRT_DNS_OVERFLOW : Z := 21.
Definition DPI_THRT_DNS_ZONE_TRANSFER : Z := 23.
Definition DPI_THRT_DNS_TYPE_NULL : Z := 25.
Definition DNS_TCP_MAX_MSG_LEN : Z := 4096.
Definition DNS_OVERFLOW_THRES : Z := 2048.
Definition DNS_OVERFLOW_THREAT_SIZE : Z := 1024.
Definition sizeof_dns_hdr : Z := 12.
Definition DOT : Z := 46.

(** dns_wing_t holds the sequence number only *)
Record dns_data := DnsData { dns_client : Z; dns_server : Z }.
Definition dns_new (ci si : Z) : dns_data := DnsData ci si.
Definition dns_w (cl : bool) (d : dns_data) : Z := if cl then dns_client d else dns_server d.
Definition dns_put (cl : bool) (q : Z) (d : dns_data) : dns_data :=
  if cl then DnsData q (dns_server d) else DnsData (dns_client d) q.

Inductive rdata := Ip4 (a : Z) | Cname (s : list Z).
Record answer := Answer { a_question : list Z; a_data : rdata }.
(** An answer of calloc'ed memory: `ip` is false, both strings are empty. *)
Definition no_answer : answer := Answer [] (Cname []).

(** ** Arrays and strings *)

(** memcpy(labels + lp, s, n) *)
Definition put_bytes (labels : list Z) (lp : Z) (s : list Z) : option (list Z) :=
  if (0 <=? lp) && (lp + Z.of_nat (length s) <=? Z.of_nat (length labels))
  then Some (take (Z.to_nat lp) labels ++ s ++ drop (Z.to_nat lp + length s) labels) else None.
(** The string in an array, which must hold a NUL. *)
Fixpoint cstring (l : list Z) : option (list Z) :=
  match l with
  | [] => None
  | c :: l => if c =? 0 then Some [] else cons c <$> cstring l
  end.
(** a[i] = x *)
Definition put_at {A} (l : list A) (i : Z) (x : A) : option (list A) :=
  if (0 <=? i) && (i <? Z.of_nat (length l)) then Some (<[Z.to_nat i := x]> l) else None.
(** strlcpy(name, s, MAX_LABEL_LEN) *)
Definition copy_name (s : list Z) : list Z := take (Z.to_nat (MAX_LABEL_LEN - 1)) s.

(** ** Names *)

(** The loop of get_dns_name: the value returned, the array, and whether the threat of a
    pointer loop is reported.  [np] is an offset from ptr. *)
Fixpoint name_loop (fuel : nat) (m : list Z) (len np total loop : Z) (labels : list Z) (lp : Z)
    : option (Z * list Z * bool) :=
  match fuel with
  | O => None
  | S fuel =>
      if negb ((0 <? np) && (np <? len)) then Some (-1, labels, false)
      else
        c ← ld8 m np;
        let kind := Z.land c 0xc0 in
        if kind =? 0 then
          let size := c in
          if size =? 0 then
            labels ← (if 0 <? lp then st8 labels (lp - 1) 0 else Some labels);
            Some (if loop =? 0 then total + 1 else total, labels, false)
          else
            let np := np + 1 in
            if len <=? np + size then Some (-1, labels, false)
            else if MAX_LABEL_LEN <=? lp + size then Some (-1, labels, false)
            else
              s ← slice m np size;
              labels ← put_bytes labels lp s;
              labels ← st8 labels (lp + size) DOT;
              name_loop fuel m len (np + size) (if loop =? 0 then total + (size + 1) else total) loop
                labels (lp + size + 1)
        else if kind =? 0xc0 then
          c1 ← ld8 m (np + 1);
          let size := Z.shiftl (Z.land c 0x3f) 8 + c1 in
          if len <=? size then Some (-1, labels, false)
          else
            let loop := loop + 1 in
            if ALLOW_POINTER_NUMBER <? loop then Some (-1, labels, true)
            else name_loop fuel m len size (if loop =? 1 then total + 2 else total) loop labels lp
        else if kind =? 0x40 then
          if len <? 3 then Some (-1, labels, false)
          else
            c1 ← ld8 m (np + 1);
            let size := Z.shiftl (c1 - 1) 3 + 1 in
            if len <? size + 2 then Some (-1, labels, false)
            else Some (size + 2, labels, false)
        else Some (-1, labels, false)
  end.
(** Every round but the last fills the array further or follows one of 63 pointers. *)
Definition NAME_FUEL : nat := 320.
Definition read_name (m : list Z) (len shift : Z) (labels : list Z) : option (Z * list Z * bool) :=
  name_loop NAME_FUEL m len shift 0 0 labels 0.

(** ** From questions and answers to the domain-name table *)

(** The inner loop: the addresses for the name, which a CNAME replaces. *)
Fixpoint answers_of (name : list Z) (answers : list answer) : list Z :=
  match answers with
  | [] => []
  | a :: answers =>
      if Fqdn.Fqdn.strcaseeq name (a_question a) then
        match a_data a with
        | Ip4 x => x :: answers_of name answers
        | Cname c => answers_of (copy_name c) answers
        end
      else answers_of name answers
  end.
Definition map_question (answers : list answer) (h : fqdn_hdl) (q : list Z) : fqdn_hdl :=
  match answers_of (copy_name q) answers with
  | [] => h
  | ips => Fqdn.Fqdn.snooped_fqdn_ipv4_mapping h q ips
  end.
Definition get_domain_ip_mapping (h : fqdn_hdl) (questions : list (list Z)) (answers : list answer) : fqdn_hdl :=
  foldl (map_question answers) h questions.

Section programs.
Context {D : Type} `{!Obj D dns_data} (dl : lists (option (@deleter D))) (tc : Z -> threat_conf) (stack : nat -> list Z).
Abbreviation Md := (M D fqdn_hdl).

Definition get_dns_name (m : list Z) (len shift : Z) (labels : list Z) : Md (Z * list Z) :=
  '(r, labels, looped) ← lift (read_name m len shift labels);
  (if looped : bool then threat tc DPI_THRT_DNS_LOOP_PTR else skip);;
  mret (r, labels).

(** [questions] is NULL or the array, of which [qt] entries are set. *)
Fixpoint dns_question (count : nat) (m : list Z) (len shift : Z) (labels : list Z)
    (questions : option (list (list Z))) (qt : Z) : Md (Z * option (list (list Z)) * Z) :=
  match count with
  | O => mret (shift, questions, qt)
  | S count =>
      labels ← lift (st8 labels 0 0);
      '(jump, labels) ← get_dns_name m len shift labels;
      if jump <? 0 then mret (jump, questions, qt)
      else
        let shift := shift + jump + 4 in
        if len <? shift then mret (-1, questions, qt)
        else
          t ← lift (ld16 m (shift - 4));
          let type := ntohs t in
          '(questions, qt) ←
            match (if type =? DNS_TYPE_A then questions else None) with
            | Some qs =>
                if 1 <? jump then
                  s ← lift (cstring labels);
                  qs ← lift (put_at qs qt s);
                  mret (Some qs, qt + 1)
                else mret (questions, qt)
            | None =>
                (if type =? DNS_TYPE_AXFR then threat tc DPI_THRT_DNS_ZONE_TRANSFER
                 else if type =? DNS_TYPE_IXFR then threat tc DPI_THRT_DNS_ZONE_TRANSFER
                 else if type =? DNS_TYPE_NULL then threat tc DPI_THRT_DNS_TYPE_NULL
                 else skip);;
                mret (questions, qt)
            end;
          dns_question count m len shift labels questions qt
  end.

(** What dns_answer does with the record whose data is at [shift] *)
Definition keep_answer (m : list Z) (len shift jump type rd_len : Z) (labels : list Z)
    (answers : option (list answer)) (aw : Z) : Md (option (list answer) * Z) :=
  match answers with
  | None => mret (answers, aw)
  | Some l =>
      if (type =? DNS_TYPE_A) && (rd_len =? 4) then
        if 1 <? jump then
          s ← lift (cstring labels);
          addr ← lift (ld32 m shift);
          l ← lift (put_at l aw (Answer s (Ip4 addr)));
          mret (Some l, aw + 1)
        else mret (answers, aw)
      else if type =? DNS_TYPE_CNAME then
        if 1 <? jump then
          '(ret, cname) ← get_dns_name m len shift (replicate (Z.to_nat MAX_LABEL_LEN) 0);
          if 1 <? ret then
            s ← lift (cstring labels);
            c ← lift (cstring cname);
            l ← lift (put_at l aw (Answer s (Cname c)));
            mret (Some l, aw + 1)
          else mret (answers, aw)
        else mret (answers, aw)
      else mret (answers, aw)
  end.
Fixpoint dns_answer (count : nat) (m : list Z) (len shift : Z) (labels : list Z)
    (answers : option (list answer)) (aw : Z) : Md (Z * option (list answer) * Z) :=
  match count with
  | O => mret (shift, answers, aw)
  | S count =>
      labels ← lift (st8 labels 0 0);
      '(jump, labels) ← get_dns_name m len shift labels;
      if jump <? 0 then mret (jump, answers, aw)
      else
        let shift := shift + jump in
        if len <? shift + 10 then mret (-1, answers, aw)
        else
          t ← lift (ld16 m shift);
          let type := ntohs t in
          n ← lift (ld16 m (shift + 8));
          let rd_len := ntohs n in
          let shift := shift + 10 in
          if len <? shift + rd_len then mret (-1, answers, aw)
          else
            '(answers, aw) ← keep_answer m len shift jump type rd_len labels answers aw;
            dns_answer count m len (shift + rd_len) labels answers aw
  end.

(** The two arrays: NULL when there would be too many entries or memory is short *)
Definition dns_arrays (qd an : Z) : Md (option (list (list Z)) * option (list answer)) :=
  if qd + an <? MAX_RECORD_NUM then
    ok1 ← alloc_ok;
    ok2 ← alloc_ok;
    let questions := if ok1 : bool then Some (replicate (Z.to_nat qd) []) else None in
    let answers := if ok2 : bool then Some (replicate (Z.to_nat an) no_answer) else None in
    if xorb (negb ok1) (negb ok2) then mret (None, None) else mret (questions, answers)
  else mret (None, None).

(** The authority and the additional records *)
Definition dns_rest (m : list Z) (len shift : Z) : Md Z :=
  ns ← lift (ld16 m 8);
  shift ← (if 0 <? ntohs ns then
             '(shift, _, _) ← dns_answer (Z.to_nat (ntohs ns)) m len shift (stack 2%nat) None 0; mret shift
           else mret shift);
  if shift <? 0 then mret (-1)
  else
    ar ← lift (ld16 m 10);
    shift ← (if 0 <? ntohs ar then
               '(shift, _, _) ← dns_answer (Z.to_nat (ntohs ar)) m len shift (stack 3%nat) None 0; mret shift
             else mret shift);
    if shift <? 0 then mret (-1) else mret shift.

Definition dns_parser (m : list Z) (len : Z) : Md Z :=
  b ← lift (ld8 m 2);
  let opcode := Z.land (Z.shiftr b 3) 15 in
  if negb ((opcode =? DNS_OP_QUERY) || (opcode =? DNS_OP_IQUERY) || (opcode =? DNS_OP_STATUS) ||
           (opcode =? DNS_OP_NOTIFY) || (opcode =? DNS_OP_UPDATE)) then mret (-1)
  else
    qd ← lift (ld16 m 4);
    an ← lift (ld16 m 6);
    if negb (Z.testbit b 7) && ((qd =? 0) || negb (an =? 0)) &&
       negb (opcode =? DNS_OP_NOTIFY) && negb (opcode =? DNS_OP_UPDATE) then mret (-1)
    else
      let shift := sizeof_dns_hdr in
      let qd := ntohs qd in
      let an := ntohs an in
      '(questions, answers) ← dns_arrays qd an;
      '(shift, questions, qt_count) ←
        (if 0 <? qd then dns_question (Z.to_nat qd) m len shift (stack 0%nat) questions 0 else mret (shift, questions, 0));
      if shift <? 0 then mret (-1)
      else
        '(shift, answers, aw_count) ←
          (if 0 <? an then dns_answer (Z.to_nat an) m len shift (stack 1%nat) answers 0 else mret (shift, answers, 0));
        if shift <? 0 then mret (-1)
        else
          (if (0 <? qt_count) && (0 <? aw_count) then
             qs ← lift questions;
             ans ← lift answers;
             upd (fun w => w <| ext ::= fun h => get_domain_ip_mapping h qs ans |>)
           else skip);;
          dns_rest m len shift.

(** ** TCP *)

(** (msg_len > DNS_OVERFLOW_THRES || len > DNS_OVERFLOW_THRES) && dpi_is_parser_final(p) && port 53 *)
Definition oversized (msg_len len : Z) : Md bool :=
  fin ← dpi_is_parser_final;
  prt ← get (fun w => port (server (sess w)));
  mret (((DNS_OVERFLOW_THRES <? msg_len) || (DNS_OVERFLOW_THRES <? len)) && fin && (prt =? 53)).

(** while (true), from the offset [off] of ptr in the packet, with [len] bytes left *)
Fixpoint dns_tcp_loop (fuel : nat) (a : Z) (cl : bool) (m : list Z) (off len : Z) : Md unit :=
  match fuel with
  | O => abort
  | S fuel =>
      if len <? 2 then skip
      else
        x ← lift (ld16 m off);
        let msg_len := ntohs x in
        big ← oversized msg_len len;
        if negb big && ((DNS_TCP_MAX_MSG_LEN <? msg_len) || (msg_len <? sizeof_dns_hdr)) then dpi_fire_parser
        else if u32 (len - 2) <? msg_len then skip
        else
          let off := off + 2 in
          let len := u32 (len - 2) in
          shift ← dns_parser (drop (Z.to_nat off) m) len;
          big ← oversized msg_len len;
          go ← (if big : bool then
                  (if (shift <? 0) || (DNS_OVERFLOW_THREAT_SIZE <? msg_len - shift)
                   then threat tc DPI_THRT_DNS_OVERFLOW else skip);; mret true
                else if shift <? 0 then dpi_fire_parser;; mret false
                else mret true);
          if go : bool then
            dpi_finalize_parser dl;;
            let off := off + msg_len in
            q ← dpi_ptr_2_seq off;
            d ← deref_as a;
            store_as a (dns_put cl q d);;
            dpi_set_asm_seq q;;
            dns_tcp_loop fuel a cl m off (u32 (len - msg_len))
          else skip
  end.

Definition dns_tcp_parser : Md unit :=
  no ← not_port 53;
  if no : bool then dpi_fire_parser
  else
    with_data true dns_new (fun a =>
      cl ← is_client;
      d ← deref_as a;
      pos ← seek (dns_w cl d);
      match pos with
      | None => dpi_fire_parser
      | Some (off, len) =>
          m ← dpi_pkt_ptr;
          dns_tcp_loop (S (Z.to_nat len)) a cl m off len
      end).
Definition dns_tcp_new_session : Md unit := dpi_hire_parser.

(** ** UDP *)

Definition dns_udp_parser : Md unit :=
  m ← dpi_pkt_ptr;
  len ← dpi_pkt_len;
  no ← not_port 53;
  if no : bool then dpi_fire_parser
  else
    shift ← dns_parser m len;
    fin ← dpi_is_parser_final;
    prt ← get (fun w => port (server (sess w)));
    if (DNS_OVERFLOW_THRES <? len) && fin && (prt =? 53) then
      if (shift <? 0) || (DNS_OVERFLOW_THREAT_SIZE <? u32 (len - shift))
      then threat tc DPI_THRT_DNS_OVERFLOW else skip
    else if shift <? 0 then dpi_fire_parser
    else dpi_finalize_parser dl.
Definition dns_udp_new_session : Md unit := dpi_hire_parser.

Definition dpi_dns_tcp_parser : parser :=
  Parser (Some dns_tcp_new_session) (Some free) (Some dns_tcp_parser) None None "dns" IPPROTO_TCP DPI_PARSER_DNS.
Definition dpi_dns_udp_parser : parser :=
  Parser (Some dns_udp_new_session) None (Some dns_udp_parser) None None "dns" IPPROTO_UDP DPI_PARSER_DNS.
End programs.

(** ** What a name is

    A name is a sequence of labels that ends with an empty one, or with an extension label
    (RFC 2673); a pointer stands for the rest of the name at another place. *)

Inductive ending := Root | Ext (n : Z).

(** From offset [o] of a message of [len] bytes, over [k] pointers: the labels, and the
    bytes the name takes at [o]. *)
Inductive name_at (m : list Z) (len : Z) : nat -> Z -> list (list Z) -> Z -> ending -> Prop :=
  | name_root o : 0 < o < len -> ld8 m o = Some 0 -> name_at m len 0 o [] 1 Root
  | name_ext o c n : 0 < o < len -> ld8 m o = Some c -> 64 <= c < 128 -> ld8 m (o + 1) = Some n -> 3 <= len ->
      8 * (n - 1) + 3 <= len -> name_at m len 0 o [] (8 * (n - 1) + 3) (Ext n)
  | name_label o c s k ls sz e : 0 < o < len -> ld8 m o = Some c -> 0 < c < 64 -> slice m (o + 1) c = Some s ->
      o + 1 + c < len -> name_at m len k (o + 1 + c) ls sz e -> name_at m len k o (s :: ls) (c + 1 + sz) e
  | name_pointer o c c1 k ls sz e : 0 < o < len -> ld8 m o = Some c -> 192 <= c < 256 -> ld8 m (o + 1) = Some c1 ->
      256 * (c - 192) + c1 < len -> name_at m len k (256 * (c - 192) + c1) ls sz e -> name_at m len (S k) o ls 2 e.

(** The labels, each with a dot behind it *)
Definition dotted (ls : list (list Z)) : list Z := concat (List.map (fun s => s ++ [DOT]) ls).
(** The last dot becomes the NUL; an extension label leaves the text as it is. *)
Definition terminate (e : ending) (t : list Z) : list Z :=
  match e with Root => match t with [] => [] | _ => removelast t ++ [0] end | Ext _ => t end.
(** What get_dns_name returns: the size of the name, or that of the extension label alone *)
Definition name_ret (e : ending) (sz : Z) : Z := match e with Root => sz | Ext n => 8 * (n - 1) + 3 end.

(** The two upper bits of the first byte *)
Lemma kind_of c : is_u8 c -> Z.land c 0xc0 = 64 * (c / 64).
Proof.
  intros Hc. assert (H : Forall (fun n => Z.land (Z.of_nat n) 0xc0 = 64 * (Z.of_nat n / 64)) (seq 0 256)).
  { apply (bool_decide_eq_true_1 _). vm_compute. reflexivity. }
  pose proof (proj1 (Forall_forall _ _) H (Z.to_nat c)) as Hn. cbv beta in Hn. unfold is_u8 in Hc. rewrite Z2Nat.id in Hn by lia.
  apply Hn, elem_of_seq. lia.
Qed.
Lemma kind_cases c (P : Prop) : is_u8 c ->
  (0 <= c < 64 -> Z.land c 0xc0 = 0 -> P) -> (64 <= c < 128 -> Z.land c 0xc0 = 0x40 -> P) ->
  (128 <= c < 192 -> Z.land c 0xc0 = 0x80 -> P) -> (192 <= c < 256 -> Z.land c 0xc0 = 0xc0 -> P) -> P.
Proof.
  intros Hc H0 H1 H2 H3. rewrite (kind_of c Hc) in *. unfold is_u8 in Hc. pose proof (Z.div_mod c 64). pose proof (Z.mod_pos_bound c 64).
  assert (c / 64 = 0 \/ c / 64 = 1 \/ c / 64 = 2 \/ c / 64 = 3) as [E|[E|[E|E]]] by lia; rewrite E in *; [apply H0|apply H1|apply H2|apply H3]; lia.
Qed.
Lemma pointer_of c : 192 <= c < 256 -> Z.shiftl (Z.land c 0x3f) 8 = 256 * (c - 192).
Proof.
  intros Hc. change 0x3f with (Z.ones 6). rewrite Z.land_ones, Z.shiftl_mul_pow2 by lia.
  replace c with (c - 192 + 3 * 2 ^ 6) at 1 by lia. rewrite Z.mod_add, Z.mod_small by lia. lia.
Qed.

(** Writing behind what is already there *)
Lemma put_bytes_app pre s rest : (length s <= length rest)%nat ->
  put_bytes (pre ++ rest) (Z.of_nat (length pre)) s = Some (pre ++ s ++ drop (length s) rest).
Proof.
  intros Hl. unfold put_bytes. rewrite (proj2 (Z.leb_le 0 _)), (proj2 (Z.leb_le _ _)) by (rewrite ?length_app; lia).
  cbn [andb]. rewrite Nat2Z.id, take_app_length. by rewrite drop_app_add.
Qed.
Lemma st8_app pre x rest v : st8 (pre ++ x :: rest) (Z.of_nat (length pre)) v = Some (pre ++ v mod 256 :: rest).
Proof.
  unfold st8. rewrite length_app. cbn [length]. rewrite (proj2 (Z.leb_le 0 _)), (proj2 (Z.ltb_lt _ _)) by lia.
  cbn [andb]. rewrite Nat2Z.id. f_equal. replace (length pre) with (length pre + 0)%nat by lia. by rewrite insert_app_r.
Qed.
Lemma terminate_snoc p x : terminate Root (p ++ [x]) = p ++ [0].
Proof. unfold terminate. destruct (p ++ [x]) as [|y l] eqn:E; [by destruct p|]. by rewrite <- E, removelast_last. Qed.
Lemma st8_last pre rest : pre <> [] ->
  st8 (pre ++ rest) (Z.of_nat (length pre) - 1) 0 = Some (terminate Root pre ++ rest).
Proof.
  intros Hp. destruct (exists_last Hp) as (p & x & ->). rewrite terminate_snoc, length_app, <- !app_assoc.
  replace (Z.of_nat (length p + length [x]) - 1) with (Z.of_nat (length p)) by (cbn [length]; lia).
  exact (st8_app p x rest 0).
Qed.
Lemma slice_length m o n s : 0 <= n -> slice m o n = Some s -> Z.of_nat (length s) = n.
Proof.
  intros Hn. unfold slice. destruct (_ && _) eqn:E; [|done]. intros [= <-]. pbool.
  rewrite length_take, length_drop. lia.
Qed.
Lemma length_dotted_cons s ls : length (dotted (s :: ls)) = (length s + 1 + length (dotted ls))%nat.
Proof. unfold dotted. cbn. rewrite !length_app. cbn. lia. Qed.
Lemma dotted_cons s ls : dotted (s :: ls) = s ++ DOT :: dotted ls.
Proof. unfold dotted. cbn. by rewrite <- app_assoc. Qed.

(** ** get_dns_name reads names *)

(** Room for the text and pointers left *)
Definition fits (k : nat) (ls : list (list Z)) (loop lp : Z) : bool :=
  (Z.of_nat k + loop <=? ALLOW_POINTER_NUMBER) && (lp + Z.of_nat (length (dotted ls)) <=? MAX_LABEL_LEN).

(** The four kinds of a byte at [o] in the message, as equations of the loop *)
Section loop_eqs.
Context (m : list Z) (len : Z) (fuel : nat) (o total loop lp : Z) (labels : list Z) (Ho : 0 < o < len).
Abbreviation run := (name_loop (S fuel) m len o total loop labels lp).
Lemma loop_in c : ld8 m o = Some c -> negb ((0 <? o) && (o <? len)) = false.
Proof. rewrite (proj2 (Z.ltb_lt 0 o)), (proj2 (Z.ltb_lt o len)) by lia. done. Qed.
Ltac enter Hc := cbn [name_loop]; rewrite (loop_in _ Hc), Hc; cbn [mbind option_bind]; cbv zeta.
Lemma loop_root : ld8 m o = Some 0 ->
  run = (labels ← (if 0 <? lp then st8 labels (lp - 1) 0 else Some labels);
         Some (if loop =? 0 then total + 1 else total, labels, false)).
Proof. intros Hc. by enter Hc. Qed.
Lemma loop_label c : ld8 m o = Some c -> 0 < c < 64 -> Z.land c 0xc0 = 0 ->
  run = if len <=? o + 1 + c then Some (-1, labels, false)
        else if MAX_LABEL_LEN <=? lp + c then Some (-1, labels, false)
        else s ← slice m (o + 1) c; labels ← put_bytes labels lp s; labels ← st8 labels (lp + c) DOT;
             name_loop fuel m len (o + 1 + c) (if loop =? 0 then total + (c + 1) else total) loop labels (lp + c + 1).
Proof. intros Hc Hr Hk. enter Hc. rewrite Hk. cbn. by rewrite (proj2 (Z.eqb_neq c 0)) by lia. Qed.
Lemma loop_pointer c c1 : ld8 m o = Some c -> 192 <= c < 256 -> Z.land c 0xc0 = 0xc0 -> ld8 m (o + 1) = Some c1 ->
  run = if len <=? 256 * (c - 192) + c1 then Some (-1, labels, false)
        else if ALLOW_POINTER_NUMBER <? loop + 1 then Some (-1, labels, true)
        else name_loop fuel m len (256 * (c - 192) + c1) (if loop + 1 =? 1 then total + 2 else total) (loop + 1) labels lp.
Proof. intros Hc Hr Hk H1. enter Hc. rewrite Hk, H1. cbn [mbind option_bind]. by rewrite pointer_of. Qed.
Lemma loop_ext c c1 : ld8 m o = Some c -> Z.land c 0xc0 = 0x40 -> ld8 m (o + 1) = Some c1 ->
  run = if len <? 3 then Some (-1, labels, false)
        else if len <? 8 * (c1 - 1) + 3 then Some (-1, labels, false) else Some (8 * (c1 - 1) + 3, labels, false).
Proof.
  intros Hc Hk H1. enter Hc. rewrite Hk, H1. cbn [mbind option_bind].
  replace (Z.shiftl (c1 - 1) 3 + 1 + 2) with (8 * (c1 - 1) + 3) by (rewrite Z.shiftl_mul_pow2 by lia; lia). done.
Qed.
Lemma loop_other c : ld8 m o = Some c -> Z.land c 0xc0 = 0x80 -> run = Some (-1, labels, false).
Proof. intros Hc Hk. enter Hc. by rewrite Hk. Qed.
End loop_eqs.

(** A label of [c] bytes goes behind the text that is there. *)
Lemma copy_label (s pre rest : list Z) c : Z.of_nat (length s) = c -> Z.of_nat (length pre) + c < Z.of_nat (length (pre ++ rest)) ->
  (labels ← put_bytes (pre ++ rest) (Z.of_nat (length pre)) s; st8 labels (Z.of_nat (length pre) + c) DOT) =
  Some ((pre ++ s ++ [DOT]) ++ drop (length s + 1) rest).
Proof.
  intros Hs Hl. rewrite length_app in Hl. rewrite put_bytes_app by lia. cbn [mbind option_bind].
  rewrite <- (drop_drop rest 1 (length s)). destruct (drop (length s) rest) as [|x r] eqn:Er.
  { apply (f_equal length) in Er. rewrite length_drop in Er. cbn in Er. lia. }
  rewrite app_assoc. replace (Z.of_nat (length pre) + c) with (Z.of_nat (length (pre ++ s))) by (rewrite length_app; lia).
  rewrite st8_app. f_equal. cbn [drop]. rewrite <- !app_assoc. cbn. done.
Qed.

Lemma fits_nil loop lp : loop <= 63 -> lp <= 256 -> fits 0 [] loop lp = true.
Proof. intros. apply andb_true_intro. split; apply Z.leb_le; unfold ALLOW_POINTER_NUMBER, MAX_LABEL_LEN, dotted; cbn [List.map concat length]; lia. Qed.
Lemma fits_label k s ls loop lp : fits k (s :: ls) loop lp = fits k ls loop (lp + Z.of_nat (length s) + 1).
Proof. unfold fits. rewrite length_dotted_cons. do 2 f_equal. lia. Qed.
Lemma fits_pointer k ls loop lp : fits (S k) ls loop lp = fits k ls (loop + 1) lp.
Proof. unfold fits. do 2 f_equal. lia. Qed.
Lemma fits_long k ls loop lp : MAX_LABEL_LEN < lp -> fits k ls loop lp = false.
Proof. intros. unfold fits. rewrite (proj2 (Z.leb_gt _ MAX_LABEL_LEN)) by lia. apply andb_false_r. Qed.
Lemma fits_looped k ls loop lp : ALLOW_POINTER_NUMBER < loop -> fits k ls loop lp = false.
Proof. intros. unfold fits. by rewrite (proj2 (Z.leb_gt _ ALLOW_POINTER_NUMBER)) by lia. Qed.

(** On a name, the loop returns its size and leaves its text when the pointers and the
    array suffice, and -1 otherwise. *)
Lemma loop_name m len k o ls sz e : bytes m -> name_at m len k o ls sz e -> forall fuel total loop pre rest,
  length (pre ++ rest) = 256%nat -> 0 <= loop <= 63 -> 256 - Z.of_nat (length pre) + (63 - loop) < Z.of_nat fuel ->
  exists r l b, name_loop fuel m len o total loop (pre ++ rest) (Z.of_nat (length pre)) = Some (r, l, b) /\
    if fits k ls loop (Z.of_nat (length pre)) then
      r = match e with Root => if loop =? 0 then total + sz else total | Ext _ => name_ret e sz end /\ b = false /\
      l = terminate e (pre ++ dotted ls) ++ drop (length (dotted ls)) rest
    else r = -1.
Proof.
  intros Hb H. induction H as [o Ho Hc|o c n Ho Hc Hr Hn Hl3 Hl|o c s k ls sz e Ho Hc Hr Hs Hl H IH|o c c1 k ls sz e Ho Hc Hr H1 Hl H IH];
    intros fuel total loop pre rest Hlen Hloop Hfuel; (destruct fuel as [|fuel]; [rewrite length_app in Hlen; lia|]);
    assert (Hp : Z.of_nat (length pre) <= 256) by (rewrite length_app in Hlen; lia).
  - rewrite loop_root, fits_nil by (done || lia). cbn [dotted List.map concat length drop]. rewrite app_nil_r.
    destruct pre as [|x pre]; [by do 3 eexists|]. rewrite (proj2 (Z.ltb_lt 0 _)) by (cbn; lia).
    rewrite st8_last by done. cbn [mbind option_bind]. by do 3 eexists.
  - apply (kind_cases c); [unfold is_u8; lia|lia| |lia|lia]. intros _ Hk. rewrite (loop_ext _ _ _ _ _ _ _ _ Ho c n), fits_nil by (done || lia).
    rewrite (proj2 (Z.ltb_ge _ _)), (proj2 (Z.ltb_ge _ _)) by lia. cbn [dotted List.map concat length drop]. rewrite app_nil_r.
    by do 3 eexists.
  - apply (kind_cases c); [unfold is_u8; lia| |lia|lia|lia]. intros _ Hk. rewrite (loop_label _ _ _ _ _ _ _ _ Ho c) by done.
    assert (Hsl := slice_length _ _ _ _ (Z.lt_le_incl _ _ (proj1 Hr)) Hs). rewrite fits_label, Hsl.
    rewrite (proj2 (Z.leb_gt len _)) by lia. destruct (Z.leb_spec MAX_LABEL_LEN (Z.of_nat (length pre) + c)) as [Hbig|Hbig].
    { rewrite fits_long by lia. by do 3 eexists. }
    rewrite Hs. cbn [mbind option_bind]. unfold MAX_LABEL_LEN in Hbig.
    pose proof (copy_label s pre rest c Hsl) as Hcopy. rewrite Hlen in Hcopy.
    destruct (put_bytes _ _ s) as [l1|] eqn:El; [|by discriminate Hcopy; lia]. cbn [mbind option_bind] in *. rewrite Hcopy by lia. cbn [mbind option_bind].
    assert (Hpre : Z.of_nat (length pre) + c + 1 = Z.of_nat (length (pre ++ s ++ [DOT]))) by (rewrite !length_app; cbn; lia).
    rewrite Hpre. assert (Hl2 : length ((pre ++ s ++ [DOT]) ++ drop (length s + 1) rest) = 256%nat).
    { rewrite <- Hlen, !length_app, length_drop. cbn. rewrite length_app in Hlen. lia. }
    destruct (IH fuel (if loop =? 0 then total + (c + 1) else total) loop _ _ Hl2 Hloop) as (r & l & b & Hrun & Hres); [lia|].
    exists r, l, b. split; [exact Hrun|]. destruct (fits _ _ _ _); [|done]. destruct Hres as (Er & Eb & Elab). split_and!; [|done|].
    + rewrite Er. destruct e; [|done]. destruct (loop =? 0); lia.
    + rewrite Elab, dotted_cons, drop_drop. rewrite <- !app_assoc. cbn [app]. f_equal. f_equal. rewrite length_app. cbn. lia.
  - apply (kind_cases c); [unfold is_u8; lia|lia|lia|lia|]. intros _ Hk. rewrite (loop_pointer _ _ _ _ _ _ _ _ Ho c c1) by done.
    rewrite (proj2 (Z.leb_gt len _)) by lia. rewrite fits_pointer.
    destruct (Z.ltb_spec ALLOW_POINTER_NUMBER (loop + 1)) as [Hmany|Hmany]; [rewrite fits_looped by lia; by do 3 eexists|].
    unfold ALLOW_POINTER_NUMBER in Hmany.
    destruct (IH fuel (if loop + 1 =? 1 then total + 2 else total) (loop + 1) pre rest Hlen) as (r & l & b & Hrun & Hres); [lia|lia|].
    exists r, l, b. split; [exact Hrun|]. destruct (fits _ _ _ _); [|done]. destruct Hres as (Er & Eb & Elab). split_and!; [|done|done].
    rewrite Er. destruct e; [|done]. rewrite (proj2 (Z.eqb_neq (loop + 1) 0)) by lia.
    destruct (Z.eqb_spec loop 0), (Z.eqb_spec (loop + 1) 1); lia.
Qed.

(** The loop returns, leaves the array as long as it is, and other than -1 only on a name. *)
Lemma loop_total m len : bytes m -> len < Z.of_nat (length m) -> forall fuel o total loop pre rest,
  length (pre ++ rest) = 256%nat -> 0 <= loop <= 63 -> 256 - Z.of_nat (length pre) + (63 - loop) < Z.of_nat fuel ->
  exists r l b, name_loop fuel m len o total loop (pre ++ rest) (Z.of_nat (length pre)) = Some (r, l, b) /\
    length l = 256%nat /\ (r <> -1 -> exists k ls sz e, name_at m len k o ls sz e).
Proof.
  intros Hb Hlen fuel. induction fuel as [|fuel IH]; intros o total loop pre rest Hl Hloop Hfuel; [rewrite length_app in Hl; lia|].
  destruct (decide (0 < o < len)) as [Ho|Ho].
  2:{ cbn [name_loop]. replace (negb _) with true; [by do 3 eexists|]. symmetry. apply negb_true_iff, andb_false_iff. rewrite !Z.ltb_ge. lia. }
  destruct (ld8_ok m o Hb) as (c & Hc & Hcr); [split; lia|]. destruct (ld8_ok m (o + 1) Hb) as (c1 & H1 & Hc1); [split; lia|].
  apply (kind_cases c); [done|intros Hr Hk..].
  - destruct (Z.eqb_spec c 0) as [->|Hc0].
    + rewrite loop_root by done. exists (if loop =? 0 then total + 1 else total).
      destruct pre as [|x pre]; [by do 2 eexists; split_and!; [done|done|do 4 eexists; by constructor]|].
      rewrite (proj2 (Z.ltb_lt 0 _)) by (cbn; lia). destruct (exists_last (l := x :: pre)) as (p & y & Ep); [done|]. rewrite Ep in *.
      rewrite st8_last by (by destruct p). cbn [mbind option_bind]. do 2 eexists. split_and!; [done| |do 4 eexists; by constructor].
      rewrite terminate_snoc. rewrite <- Hl, !length_app. done.
    + rewrite (loop_label _ _ _ _ _ _ _ _ Ho c) by (done || lia). destruct (Z.leb_spec len (o + 1 + c)); [by do 3 eexists|].
      destruct (Z.leb_spec MAX_LABEL_LEN (Z.of_nat (length pre) + c)) as [|Hbig]; [by do 3 eexists|].
      destruct (slice_ok m (o + 1) c) as (s & Hs); [split; lia|]. rewrite Hs. cbn [mbind option_bind]. unfold MAX_LABEL_LEN in Hbig.
      assert (Hsl : Z.of_nat (length s) = c) by (eapply slice_length; [|exact Hs]; lia).
      pose proof (copy_label s pre rest c Hsl) as Hcopy. rewrite Hl in Hcopy.
      destruct (put_bytes _ _ s) as [l1|] eqn:El; [|by discriminate Hcopy; lia]. cbn [mbind option_bind] in *. rewrite Hcopy by lia. cbn [mbind option_bind].
      replace (Z.of_nat (length pre) + c + 1) with (Z.of_nat (length (pre ++ s ++ [DOT]))) by (rewrite !length_app; cbn; lia).
      edestruct (IH (o + 1 + c)) as (r & l & b & Hrun & Hll & Hn); [| | |exists r, l, b; split_and!; [exact Hrun|done|]].
      * rewrite <- Hl, !length_app, length_drop. rewrite length_app in Hl. cbn. lia.
      * done.
      * rewrite !length_app. cbn. lia.
      * intros Hr1. destruct (Hn Hr1) as (k & ls & sz & e & Hna). do 4 eexists. eapply name_label; [done|exact Hc|lia|done|lia|done].
  - rewrite (loop_ext _ _ _ _ _ _ _ _ Ho c c1) by done. destruct (Z.ltb_spec len 3); [by do 3 eexists|].
    destruct (Z.ltb_spec len (8 * (c1 - 1) + 3)); [by do 3 eexists|]. do 3 eexists. split_and!; [done|done|].
    intros _. do 4 eexists. by eapply name_ext.
  - rewrite (loop_other _ _ _ _ _ _ _ _ Ho c) by done. by do 3 eexists.
  - rewrite (loop_pointer _ _ _ _ _ _ _ _ Ho c c1) by done. destruct (Z.leb_spec len (256 * (c - 192) + c1)); [by do 3 eexists|].
    destruct (Z.ltb_spec ALLOW_POINTER_NUMBER (loop + 1)) as [|Hmany]; [by do 3 eexists|]. unfold ALLOW_POINTER_NUMBER in Hmany.
    edestruct (IH (256 * (c - 192) + c1)) as (r & l & b & Hrun & Hll & Hn); [exact Hl| | |exists r, l, b; split_and!; [exact Hrun|done|]]; [lia|lia|].
    intros Hr1. destruct (Hn Hr1) as (k & ls & sz & e & Hna). do 4 eexists. by eapply name_pointer.
Qed.

(** The string of an array *)
Lemma cstring_app s rest : 0 ∉ s -> cstring (s ++ 0 :: rest) = Some s.
Proof.
  induction s as [|c s IH]; intros H; [done|]. rewrite not_elem_of_cons in H. destruct H as [Hc Hs]. cbn.
  rewrite (proj2 (Z.eqb_neq c 0)) by done. by rewrite IH.
Qed.
Lemma cstring_some l : 0 ∈ l -> exists s, cstring l = Some s /\ (length s < length l)%nat.
Proof.
  induction l as [|c l IH]; intros H; [by apply elem_of_nil in H|]. cbn. destruct (Z.eqb_spec c 0); [exists []; split; [done|cbn; lia]|].
  apply elem_of_cons in H as [|H]; [done|]. destruct (IH H) as (s & -> & Hl). eexists. split; [done|]. cbn. lia.
Qed.
(** The labels joined by dots *)
Definition joined (ls : list (list Z)) : list Z := removelast (dotted ls).
Lemma dotted_joined ls : ls <> [] -> dotted ls = joined ls ++ [DOT].
Proof.
  intros H. assert (exists p, dotted ls = p ++ [DOT]) as [p Hp]; [|unfold joined; by rewrite Hp, removelast_last].
  induction ls as [|s ls IH]; [done|]. rewrite dotted_cons. destruct ls as [|s' ls]; [by exists s|].
  destruct IH as [p ->]; [done|]. exists (s ++ DOT :: p). by rewrite <- app_assoc.
Qed.
Lemma terminated_root ls rest : ls <> [] -> terminate Root (dotted ls) ++ rest = joined ls ++ 0 :: rest.
Proof. intros H. rewrite dotted_joined by done. by rewrite terminate_snoc, <- app_assoc. Qed.

Lemma length_terminate e t : length (terminate e t) = length t.
Proof.
  destruct e; [|done]. destruct t as [|x t]; [done|]. destruct (exists_last (l := x :: t)) as (p & y & ->); [done|].
  rewrite terminate_snoc, !length_app. done.
Qed.
(** ** Names without NUL bytes *)

Lemma joined_no_nul ls : Forall (fun s => 0 ∉ s) ls -> 0 ∉ joined ls.
Proof.
  intros H. assert (Hd : 0 ∉ dotted ls).
  { induction H as [|s ls Hs _ IH]; [by apply not_elem_of_nil|]. rewrite dotted_cons, elem_of_app, elem_of_cons. unfold DOT. naive_solver. }
  destruct (decide (ls = [])) as [->|Hl]; [done|]. rewrite (dotted_joined _ Hl) in Hd. rewrite elem_of_app in Hd. tauto.
Qed.
Lemma read_name_on m labels len o k ls sz e : bytes m -> length labels = 256%nat -> labels !! O = Some 0 -> name_at m len k o ls sz e ->
  exists r l looped, read_name m len o labels = Some (r, l, looped) /\ r = (if fits k ls 0 0 then name_ret e sz else -1) /\
    (fits k ls 0 0 = true -> looped = false /\ length l = 256%nat /\ (e = Root -> Forall (fun s => 0 ∉ s) ls -> cstring l = Some (joined ls))).
Proof.
  intros Hb Hl H0 Hn. destruct (loop_name m len k o ls sz e Hb Hn NAME_FUEL 0 0 [] labels Hl) as (r & l & b & Hrun & Hres);
    [lia|cbn [length]; unfold NAME_FUEL; lia|].
  exists r, l, b. split; [exact Hrun|]. change (Z.of_nat (length [])) with 0 in Hres. destruct (fits k ls 0 0) eqn:Hf; [|done].
  destruct Hres as (Er & Eb & El). rewrite app_nil_l in El. split; [rewrite Er; by destruct e|]. intros _. split_and!; [done| |].
  - assert (Hd : (length (dotted ls) <= 256)%nat).
    { apply andb_true_iff in Hf as [_ Hf]. apply Z.leb_le in Hf. unfold MAX_LABEL_LEN in Hf. lia. }
    rewrite El, length_app, length_terminate, length_drop. lia.
  - intros -> Hno. rewrite El. destruct ls as [|s ls].
    + destruct labels as [|x labels]; [done|]. cbn in H0. by injection H0 as ->.
    + rewrite terminated_root by done. apply cstring_app. by apply joined_no_nul.
Qed.

(** C18: get_dns_name returns on every message, over loops of pointers as well, and
    decides exactly what a name is: when it does not return -1 there is a name at the offset;
    on a name it returns the bytes the name takes there, or -1 when there are more than 63
    pointers or the labels with their dots need more than 256 bytes; and the array then holds
    the labels joined by dots as a string. *)
Theorem dns_names_read (m labels : list Z) (len o : Z) :
  bytes m -> len < Z.of_nat (length m) -> length labels = 256%nat -> labels !! O = Some 0 ->
  exists r l looped, read_name m len o labels = Some (r, l, looped) /\ length l = 256%nat /\
    (r <> -1 -> exists k ls sz e, name_at m len k o ls sz e) /\
    forall k ls sz e, name_at m len k o ls sz e ->
      r = (if fits k ls 0 0 then name_ret e sz else -1) /\
      (fits k ls 0 0 = true -> e = Root -> Forall (fun s => 0 ∉ s) ls -> cstring l = Some (joined ls)).
Proof.
  intros Hb Hlen Hl H0. destruct (loop_total m len Hb Hlen NAME_FUEL o 0 0 [] labels Hl) as (r & l & b & Hrun & Hll & Hname);
    [lia|cbn [length]; unfold NAME_FUEL; lia|].
  assert (Hrd : read_name m len o labels = Some (r, l, b)) by exact Hrun. clear Hrun.
  exists r, l, b. split_and!; [exact Hrd|done|done|]. intros k ls sz e Hn.
  destruct (read_name_on m labels len o k ls sz e Hb Hl H0 Hn) as (r' & l' & b' & Hrun' & Hr & Hf).
  rewrite Hrd in Hrun'. injection Hrun' as <- <- <-. split; [done|]. intros Hfit. by apply Hf.
Qed.

(** ** An example *)

Definition stack0 (i : nat) : list Z := replicate 256 0.
(** The answer to "A.b.c": an alias d.b.c, and the address 10.0.0.9 of that; EDNS follows. *)
Definition response0 : list Z :=
  [0; 1; 0x81; 0x80; 0; 1; 0; 2; 0; 0; 0; 1] ++ [1; 65; 1; 98; 1; 99; 0; 0; 1; 0; 1] ++
  [0xc0; 12; 0; 5; 0; 1; 0; 0; 0; 60; 0; 4; 1; 100; 0xc0; 14] ++
  [0xc0; 35; 0; 1; 0; 1; 0; 0; 0; 60; 0; 4; 10; 0; 0; 9] ++ [0; 0; 41; 16; 0; 0; 0; 0; 0; 0; 0].
(** The name at 35, "d" and a pointer to "b.c" *)
Lemma response0_name : name_at (response0 ++ replicate 40 0) 66 1 35 [[100]; [98]; [99]] 4 Root.
Proof.
  apply (name_label _ _ 35 1 [100] 1 _ 2); [lia|reflexivity|lia|reflexivity|lia|].
  eapply (name_pointer _ _ 37 0xc0 14); [lia|reflexivity|lia|reflexivity|lia|].
  apply (name_label _ _ 14 1 [98] 0 _ (1 + 1 + 1)); [lia|reflexivity|lia|reflexivity|lia|].
  apply (name_label _ _ 16 1 [99] 0 _ 1); [lia|reflexivity|lia|reflexivity|lia|]. apply name_root; [lia|reflexivity].
Qed.
Lemma dns_names_read_witness :
  exists l b, read_name (response0 ++ replicate 40 0) 66 35 (stack0 0) = Some (4, l, b) /\ cstring l = Some [100; 46; 98; 46; 99].
Proof.
  destruct (dns_names_read (response0 ++ replicate 40 0) (stack0 0) 66 35) as (r & l & b & H & _ & _ & Hn).
  - repeat constructor; done.
  - cbn; lia.
  - reflexivity.
  - reflexivity.
  - destruct (Hn _ _ _ _ response0_name) as [Hr Hs]. exists l, b. split; [rewrite H, Hr; reflexivity|].
    apply Hs; [reflexivity|reflexivity|]. repeat (apply Forall_cons; split; [by apply (bool_decide_eq_true_1 _)|]). apply Forall_nil_2.
Defined.
End Dns.
