(* ===== verification/DnsThm.v ===== *)
(** * What the DNS parser guarantees

    The parser keeps the promises of ParserLaw.v unless a message holds a name with labels
    in front of an extension label, which it leaves without a NUL; and it puts into the
    domain-name table only addresses that answer a question of the message. *)

From S2P Require Import Prelude Helper Bitmap Wire Frag Fqdn Parser ParserLaw ParserRun ParserTac ParsersUdp Dns.
Import Helper.Bytes Helper.Seq Wire.Wire Parser.Parser ParserLaw.ParserLaw ParserTac.ParserTac ParsersUdp.ParsersUdp Dns.Dns.

Module DnsThm.

(** ** Names found in a message *)

(** The string [s] and the value [j] that get_dns_name gives for the name at [o]; [rest]
    is what the array held behind the text. *)
Definition spells (m : list Z) (len o j : Z) (s : list Z) : Prop :=
  exists k ls sz e rest, name_at m len k o ls sz e /\ fits k ls 0 0 = true /\ j = name_ret e sz /\
    length (terminate e (dotted ls) ++ rest) = 256%nat /\ cstring (terminate e (dotted ls) ++ rest) = Some s.
(** A name with labels that ends with an extension label *)
Definition unterminated (m : list Z) (len : Z) : Prop :=
  exists o k ls sz n, name_at m len k o ls sz (Ext n) /\ ls <> [].

Lemma cstring_length l s : cstring l = Some s -> (length s < length l)%nat.
Proof.
  intros H. destruct (decide (0 ∈ l)) as [Hl|Hl]; [destruct (cstring_some l Hl) as (s' & E & ?); congruence|].
  exfalso. revert s H. induction l as [|c l IH]; intros s H; [done|]. apply not_elem_of_cons in Hl as [Hc Hl]. cbn in H.
  rewrite (proj2 (Z.eqb_neq c 0)) in H by done. destruct (cstring l) as [s'|]; [by apply (IH Hl s')|done].
Qed.
Lemma spells_length m len o j s : spells m len o j s -> (length s < 256)%nat.
Proof. intros (k & ls & sz & e & rest & _ & _ & _ & <- & Hs). by apply cstring_length in Hs. Qed.

(** strcpy of the array of a name *)
Definition copied (m : list Z) (len o j : Z) (l : list Z) : Prop :=
  match cstring l with Some s => spells m len o j s | None => unterminated m len end.
(** get_dns_name on an array that begins with a NUL *)
Lemma read_name_ok m len o labels : bytes m -> len < Z.of_nat (length m) -> length labels = 256%nat -> labels !! O = Some 0 ->
  exists r l b, read_name m len o labels = Some (r, l, b) /\ length l = 256%nat /\
    (0 <= r -> copied m len o r l).
Proof.
  intros Hb Hlen Hl H0. unfold read_name, NAME_FUEL.
  destruct (loop_total m len Hb Hlen 320 o 0 0 [] labels Hl) as (r & l & b & Hrun & Hll & Hname); [lia|cbn [length]; lia|].
  exists r, l, b. split_and!; [exact Hrun|done|]. intros Hr. destruct Hname as (k & ls & sz & e & Hn); [lia|].
  destruct (loop_name m len k o ls sz e Hb Hn 320 0 0 [] labels Hl) as (r' & l' & b' & Hrun' & Hres); [lia|cbn [length]; lia|].
  cbn [length] in Hrun', Hrun. rewrite Hrun in Hrun'. injection Hrun' as <- <- <-. change (Z.of_nat (length [])) with 0 in Hres.
  destruct (fits k ls 0 0) eqn:Hf; [|lia]. destruct Hres as (Er & _ & El). rewrite app_nil_l in El.
  assert (Hj : r = name_ret e sz) by (rewrite Er; by destruct e).
  unfold copied. destruct (cstring l) as [s|] eqn:Es; [rewrite El in Es, Hll; by do 5 eexists|].
  assert (Hno : 0 ∉ l) by (intros H; by destruct (cstring_some l H) as (s & ? & _); congruence). destruct ls as [|s0 ls].
  - destruct Hno. rewrite El. destruct e; apply list_elem_of_lookup; exists O; by rewrite drop_0.
  - destruct e as [|n]; [|by do 5 eexists]. destruct Hno. rewrite El, terminated_root by done. apply elem_of_app. right. left.
Qed.

(** ** Questions and answers found in a message *)

(** A question for an address *)
Definition asks (m : list Z) (len : Z) (q : list Z) : Prop :=
  exists o j t, spells m len o j q /\ ld16 m (o + j) = Some t /\ ntohs t = DNS_TYPE_A.
(** An A or CNAME record *)
Inductive record_in (m : list Z) (len : Z) : answer -> Prop :=
  | record_a o j s t n a : spells m len o j s -> ld16 m (o + j) = Some t -> ntohs t = DNS_TYPE_A ->
      ld16 m (o + j + 8) = Some n -> ntohs n = 4 -> o + j + 14 <= len -> ld32 m (o + j + 10) = Some a ->
      record_in m len (Answer s (Ip4 a))
  | record_cname o j s t j' c : spells m len o j s -> ld16 m (o + j) = Some t -> ntohs t = DNS_TYPE_CNAME ->
      spells m len (o + j + 10) j' c -> record_in m len (Answer s (Cname c)).
(** What the arrays hold: entries not set are as calloc left them. *)
Definition question_of (m : list Z) (len : Z) (q : list Z) : Prop := q = [] \/ asks m len q.
Definition answer_of (m : list Z) (len : Z) (a : answer) : Prop := a = no_answer \/ record_in m len a.

Lemma put_at_ok {A} (l : list A) i x (P : A -> Prop) : 0 <= i < Z.of_nat (length l) -> Forall P l -> P x ->
  exists l', put_at l i x = Some l' /\ length l' = length l /\ Forall P l'.
Proof.
  intros Hi Hl Hx. unfold put_at. rewrite (proj2 (Z.leb_le 0 i)), (proj2 (Z.ltb_lt i _)) by lia. eexists. split_and!; [done| |].
  - apply length_insert.
  - by apply Forall_insert.
Qed.

Definition dns_ok (x : dns_data) : Prop := is_u32 (dns_client x) /\ is_u32 (dns_server x).

Section laws.
Context {D : Type} `{!Obj D dns_data} (ext_ok : fqdn_hdl -> Prop) (shape : Z -> Z -> D -> Prop).
Context (dl : lists (option (@deleter D))) (slack : Z) (tc : Z -> threat_conf) (stack : nat -> list Z).
Context (Hdl : dl_ok dl) (Hsl : sizeof_dns_hdr <= slack) (Hstack : forall i, length (stack i) = 256%nat).
Abbreviation st := (st ext_ok shape dl slack).
Abbreviation step := (step ext_ok shape dl slack).
Implicit Types (w v : world D fqdn_hdl).

Lemma clear_first labels : length labels = 256%nat -> exists l, st8 labels 0 0 = Some l /\ length l = 256%nat /\ l !! O = Some 0.
Proof. intros Hl. destruct labels as [|x l]; [done|]. eexists. split_and!; [exact (st8_app [] x l 0)|done|done]. Qed.

(** Names, within [st] *)
Lemma wpx_name m len shift labels t w0 b a od w (Q : Z * list Z -> world D fqdn_hdl -> Prop) :
  st Running t w0 b a od w -> bytes m -> len < Z.of_nat (length m) -> length labels = 256%nat -> labels !! O = Some 0 ->
  (forall r l v, st Running t w0 b a od v -> length l = 256%nat ->
     (0 <= r -> copied m len shift r l) -> Q (r, l) v) ->
  wpx (unterminated m len) (get_dns_name tc m len shift labels) Q w.
Proof.
  intros S Hb Hlen Hl H0 HQ. destruct (read_name_ok m len shift labels Hb Hlen Hl H0) as (r & l & looped & Hr & Hll & Hn).
  unfold get_dns_name. x1. apply wp_wpx. eapply wp_lift; [exact Hr|]. cbv beta iota. x1.
  destruct looped; x1; x1; by apply HQ.
Qed.
(** strcpy of a name that get_dns_name has accepted *)
Lemma wpx_strcpy m len shift r l w (Q : list Z -> world D fqdn_hdl -> Prop) :
  copied m len shift r l -> (forall s, spells m len shift r s -> Q s w) -> wpx (unterminated m len) (lift (cstring l)) Q w.
Proof. unfold copied, wpx, lift. destruct (cstring l) as [s|] eqn:Es; cbn; auto. Qed.

(** The arrays stay as long as they are and hold what the message says. *)
Definition arr_ok {A} (P : A -> Prop) (o : option (list A)) (i n : Z) : Prop :=
  match o with Some l => 0 <= i /\ i + n <= Z.of_nat (length l) /\ Forall P l | None => i = 0 end.

Lemma arr_ok_less {A} (P : A -> Prop) o i n n' : arr_ok P o i n -> n' <= n -> arr_ok P o i n'.
Proof. destruct o; cbn; [|done]. intros (? & ? & ?) ?. split_and!; [done|lia|done]. Qed.
(** a[i ++] = x *)
Lemma wpx_put_at {A} (P : A -> Prop) H l i n x w (Q : list A -> world D fqdn_hdl -> Prop) :
  arr_ok P (Some l) i (n + 1) -> 0 <= n -> P x -> (forall l', arr_ok P (Some l') (i + 1) n -> Q l' w) -> wpx H (lift (put_at l i x)) Q w.
Proof.
  intros (Hi & Hn & Hl) Hn0 Hx HQ. destruct (put_at_ok l i x P) as (l' & E & Ll & Hl'); [lia|done|done|].
  apply wp_wpx. eapply wp_lift; [exact E|]. apply HQ. split_and!; [lia|lia|done].
Qed.

Section message.
Context (m : list Z) (len : Z) (Hb : bytes m) (Hlen : len < Z.of_nat (length m)).
Abbreviation wpm := (wpx (unterminated m len)).

(** A read whose value matters *)
Lemma wpx_ld16 o w (Q : Z -> world D fqdn_hdl -> Prop) :
  holds m o 2 -> (forall x, ld16 m o = Some x -> is_u16 x -> Q x w) -> wpm (lift (ld16 m o)) Q w.
Proof. intros Hh HQ. destruct (ld16_ok m o Hb Hh) as (x & Ex & Hx). apply wp_wpx. eapply wp_lift; [exact Ex|by apply HQ]. Qed.

Lemma dns_question_ok count : forall shift labels qs qt t w0 b a od w,
  st Running t w0 b a od w -> 0 <= shift -> length labels = 256%nat -> arr_ok (question_of m len) qs qt (Z.of_nat count) ->
  wpm (dns_question tc count m len shift labels qs qt) (fun r v => st Running t w0 b a od v /\
    (0 <= r.1.1 -> arr_ok (question_of m len) r.1.2 r.2 0)) w.
Proof.
  induction count as [|count IH]; intros shift labels qs qt t w0 b a od w S Hs Hl Hq; cbn [dns_question].
  { x1. cbn. auto. }
  destruct (clear_first labels Hl) as (l0 & El & Hl0 & H0). x1. apply wp_wpx. eapply wp_lift; [exact El|].
  x1. eapply wpx_name; [exact S|done|done|done|done|]. intros r l v Sv Hll Hc. cbv beta iota.
  x1; [x1; pbool; cbn; split; [done|lia]|]. x1; [x1; cbn; split; [done|lia]|]. pbool.
  x1. eapply wpx_ld16; [split; lia|]. intros x Ex Hx. x1.
  assert (Hrec : forall qs qt v, st Running t w0 b a od v -> arr_ok (question_of m len) qs qt (Z.of_nat count) ->
    wpm (dns_question tc count m len (shift + r + 4) l qs qt) (fun r v => st Running t w0 b a od v /\ (0 <= r.1.1 -> arr_ok (question_of m len) r.1.2 r.2 0)) v).
  { intros. apply IH; [done|lia|done|done]. }
  assert (Hq' : arr_ok (question_of m len) qs qt (Z.of_nat count)) by (eapply arr_ok_less; [exact Hq|lia]).
  destruct (ntohs x =? DNS_TYPE_A) eqn:Et; [destruct qs as [qs|]|].
  1:{ x1; [|x1; by apply Hrec]. x1. eapply wpx_strcpy; [by apply Hc|]. intros s Hsp. x1.
      eapply (wpx_put_at (question_of m len) _ _ _ (Z.of_nat count)); [eapply arr_ok_less; [exact Hq|lia]|lia| |].
      - right. exists shift, r, x. replace (shift + r) with (shift + r + 4 - 4) by lia. split_and!; [done|done|lia].
      - intros l' Hl'. x1. by apply Hrec. }
  all: x1; repeat x1; by apply Hrec.
Qed.
Lemma keep_answer_ok shift jump type rd_len t0 n0 labels ans aw n o t w0 b a od w :
  st Running t w0 b a od w -> bytes m -> 0 <= o -> 0 <= jump -> shift = o + jump + 10 -> length labels = 256%nat -> copied m len o jump labels ->
  ld16 m (o + jump) = Some t0 -> type = ntohs t0 -> ld16 m (o + jump + 8) = Some n0 -> rd_len = ntohs n0 ->
  shift + rd_len <= len -> 0 <= n -> arr_ok (answer_of m len) ans aw (n + 1) ->
  wpm (keep_answer tc m len shift jump type rd_len labels ans aw)
    (fun r v => st Running t w0 b a od v /\ arr_ok (answer_of m len) r.1 r.2 n) w.
Proof.
  intros S Hbm Ho Hj -> Hl Hc Et -> En -> Hlen2 Hn Ha. unfold keep_answer.
  assert (Hless : arr_ok (answer_of m len) ans aw n) by (eapply arr_ok_less; [exact Ha|lia]).
  destruct ans as [l|]; [|x1; by split]. x1.
  - pbool. x1; [|x1; by split]. x1. eapply wpx_strcpy; [exact Hc|]. intros s Hs.
    destruct (ld32_ok m (o + jump + 10) Hbm) as (x & Ex & Hx); [split; lia|]. x1. apply wp_wpx. eapply wp_lift; [exact Ex|]. x1.
    eapply (wpx_put_at (answer_of m len) _ _ _ n); [exact Ha|lia| |].
    + right. eapply record_a; [done|exact Et|done|exact En|done|lia|done].
    + intros l' Hl'. x1. by split.
  - x1; [|x1; by split]. pbool. x1; [|x1; by split]. x1. eapply wpx_name; [exact S|done|done|done|done|].
    intros r cn v Sv Hcn Hcc. x1; [|x1; by split]. x1. eapply wpx_strcpy; [exact Hc|]. intros s Hs. x1. pbool.
    eapply wpx_strcpy; [apply Hcc; lia|]. intros c Hcs. x1.
    eapply (wpx_put_at (answer_of m len) _ _ _ n); [exact Ha|lia| |].
    + right. by eapply record_cname.
    + intros l' Hl'. x1. by split.
Qed.

Lemma dns_answer_ok count : forall shift labels ans aw t w0 b a od w,
  st Running t w0 b a od w -> 0 <= shift -> length labels = 256%nat -> arr_ok (answer_of m len) ans aw (Z.of_nat count) ->
  wpm (dns_answer tc count m len shift labels ans aw) (fun r v => st Running t w0 b a od v /\
    (0 <= r.1.1 -> arr_ok (answer_of m len) r.1.2 r.2 0)) w.
Proof.
  induction count as [|count IH]; intros shift labels ans aw t w0 b a od w S Hs Hl Hq; cbn [dns_answer].
  { x1. cbn. auto. }
  destruct (clear_first labels Hl) as (l0 & El & Hl0 & H0). x1. apply wp_wpx. eapply wp_lift; [exact El|].
  x1. eapply wpx_name; [exact S|done|done|done|done|]. intros r l v Sv Hll Hc. cbv beta iota.
  x1; [x1; pbool; cbn; split; [done|lia]|]. x1; [x1; cbn; split; [done|lia]|]. pbool.
  x1. eapply wpx_ld16; [split; lia|]. intros x Ex Hx. x1. eapply wpx_ld16; [split; lia|]. intros y Ey Hy.
  x1; [x1; cbn; split; [done|lia]|]. pbool. pose proof (htons_range y) as Hry. unfold ntohs, is_u16 in *.
  x1. eapply wpx_mono; [eapply (keep_answer_ok _ r _ _ _ _ _ _ _ (Z.of_nat count) shift); try done; try lia; [by apply Hc|]|].
  { eapply arr_ok_less; [exact Hq|lia]. }
  intros [ans' aw'] v' [Sv' Ha']. cbn [fst snd] in *. apply IH; [done|lia|done|done].
Qed.
Context (Hhdr : sizeof_dns_hdr <= Z.of_nat (length m)).
Context (Hmap : forall h qs ans, Forall (question_of m len) qs -> Forall (answer_of m len) ans -> ext_ok h ->
           ext_ok (get_domain_ip_mapping h qs ans)).

Lemma dns_arrays_ok qd an t w0 b a od w (Q : option (list (list Z)) * option (list answer) -> world D fqdn_hdl -> Prop) :
  st Running t w0 b a od w -> 0 <= qd -> 0 <= an ->
  (forall qs ans v, st Running t w0 b a od v -> arr_ok (question_of m len) qs 0 qd -> arr_ok (answer_of m len) ans 0 an -> Q (qs, ans) v) ->
  wpm (dns_arrays qd an) Q w.
Proof.
  intros S Hq Ha HQ. unfold dns_arrays. x1; [|x1; by apply HQ]. x1. x1. x1. x1.
  destruct ok, ok0; cbn [negb xorb]; x1; apply HQ; try done; cbn; rewrite length_replicate; split_and!; try lia;
    apply Forall_replicate; by left.
Qed.
Lemma dns_rest_ok shift t w0 b a od w :
  st Running t w0 b a od w -> 0 <= shift -> wpm (dns_rest tc stack m len shift) (fun _ v => st Running t w0 b a od v) w.
Proof.
  intros S Hs. unfold dns_rest, sizeof_dns_hdr in *. x1. eapply wpx_ld16; [split; lia|]. intros ns _ _. x1.
  match goal with |- wpx _ _ ?K _ => set (rest := K) end.
  assert (Hrest : forall shift v, st Running t w0 b a od v -> rest shift v).
  { intros sh v Sv. unfold rest. x1; [by x1|]. pbool. x1. eapply wpx_ld16; [split; lia|]. intros ar _ _. x1. x1.
    - x1. eapply wpx_mono; [eapply dns_answer_ok; [exact Sv|lia|done|done]|]. intros [[r l] i] u [Su _]. x1. x1; by x1.
    - x1. x1; by x1. }
  clearbody rest. x1; [|x1; by apply Hrest].
  x1. eapply wpx_mono; [eapply dns_answer_ok; [exact S|lia|done|done]|]. intros [[r l] i] u [Su _]. x1. by apply Hrest.
Qed.
Lemma dns_parser_ok t w0 b a od w :
  st Running t w0 b a od w -> wpm (dns_parser tc stack m len) (fun _ v => st Running t w0 b a od v) w.
Proof.
  intros S. unfold dns_parser, sizeof_dns_hdr in *. x1. x1; [split; lia|]. x1; [by x1|]. x1. eapply wpx_ld16; [split; lia|].
  intros qd Eq Hq. x1. eapply wpx_ld16; [split; lia|]. intros an Ea Ha. x1; [by x1|]. cbv zeta. pose proof (htons_range qd) as Rq.
  pose proof (htons_range an) as Ra. unfold ntohs, is_u16 in *. x1. eapply dns_arrays_ok; [exact S|lia|lia|].
  intros qs ans v Sv Hqs Hans. cbv beta iota. x1. eapply (wpx_mono _ _ (fun r v => st Running t w0 b a od v /\ (0 <= r.1.1 -> arr_ok (question_of m len) r.1.2 r.2 0))).
  { x1; [eapply dns_question_ok; [exact Sv|lia|done|]|x1; split; [done|]; intros _; cbn [fst snd]; eapply arr_ok_less; [exact Hqs|lia]].
    eapply arr_ok_less; [exact Hqs|lia]. }
  intros [[shift qs'] qt] u [Su Hqt]. cbn [fst snd] in Hqt. x1; [by x1|]. pbool. specialize (Hqt ltac:(lia)). x1.
  eapply (wpx_mono _ _ (fun r v => st Running t w0 b a od v /\ (0 <= r.1.1 -> arr_ok (answer_of m len) r.1.2 r.2 0))).
  { x1; [eapply dns_answer_ok; [exact Su|lia|done|]|x1; split; [done|]; intros _; cbn [fst snd]; eapply arr_ok_less; [exact Hans|lia]].
    eapply arr_ok_less; [exact Hans|lia]. }
  intros [[shift' ans'] aw] y [Sy Haw]. cbn [fst snd] in Haw. x1; [by x1|]. pbool. specialize (Haw ltac:(lia)). x1.
  eapply (wpx_mono _ _ (fun _ v => st Running t w0 b a od v)); [|intros _ z Sz; apply dns_rest_ok; [done|lia]].
  x1; [|by x1]. pbool. destruct qs' as [qs'|]; [|cbn in Hqt; lia]. destruct ans' as [ans'|]; [|cbn in Haw; lia].
  x1. apply wp_wpx. eapply wp_lift; [done|]. x1. apply wp_wpx. eapply wp_lift; [done|]. apply wp_wpx, wp_upd.
  destruct Hqt as (_ & _ & Hqt), Haw as (_ & _ & Haw). pose proof (st_inv _ _ _ _ _ _ _ _ _ _ _ Sy) as [W ? He ?].
  eapply st_ext; [exact Sy|by destruct W|by apply Hmap|done..].
Qed.
End message.
(** ** The two parsers *)

(** The bytes of the packet from [off] on, and how many there are *)
Definition tail_mem w (off : Z) : list Z := drop (Z.to_nat off) (b_mem (pkt_buffer w)).
Definition tail_len w (off : Z) : Z := b_len (pkt_buffer w) - off.
Definition overrun w : Prop := exists off, 0 <= off /\ unterminated (tail_mem w off) (tail_len w off).
(** What a message in the packet makes of the domain-name table keeps [ext_ok]. *)
Definition maps_well w : Prop := forall off h qs ans, 0 <= off ->
  Forall (question_of (tail_mem w off) (tail_len w off)) qs -> Forall (answer_of (tail_mem w off) (tail_len w off)) ans ->
  ext_ok h -> ext_ok (get_domain_ip_mapping h qs ans).

Section packet.
Context (w0 : world D fqdn_hdl) (I : inv ext_ok shape dl slack w0) (Hmaps : maps_well w0).
Abbreviation wpo := (wpx (overrun w0)).

Lemma message_ok off t b a od w :
  st Running t w0 b a od w -> 0 <= off <= b_len (pkt_buffer w0) ->
  wpo (dns_parser tc stack (tail_mem w0 off) (tail_len w0 off)) (fun _ v => st Running t w0 b a od v) w.
Proof.
  intros S Hoff. unfold sizeof_dns_hdr in *. destruct (buffer_facts _ _ _ _ _ I) as (Hbm & Hl0 & Hroom & _).
  assert (Hl : Z.of_nat (length (tail_mem w0 off)) = Z.of_nat (length (b_mem (pkt_buffer w0))) - off).
  { unfold tail_mem. rewrite length_drop. lia. }
  eapply wpx_weaken; [|eapply dns_parser_ok; [| | | |exact S]].
  - intros Hu. exists off. split; [lia|exact Hu].
  - by apply Forall_drop.
  - rewrite Hl. unfold tail_len. lia.
  - rewrite Hl. unfold sizeof_dns_hdr. lia.
  - intros h qs ans. apply Hmaps. lia.
Qed.

Lemma dns_udp_ok b a od : 0 < b_len (pkt_buffer w0) -> st Running DPI_PARSER_DNS w0 b a od w0 ->
  wpo (dns_udp_parser dl tc stack) (fun _ v => step DPI_PARSER_DNS w0 v) w0.
Proof.
  intros Hlen S. unfold dns_udp_parser, not_port. x1. x1. x1. x1. x1. x1. x1; [x1; pdone|]. x1.
  pose proof (message_ok 0 _ _ _ _ _ S) as Hm. unfold tail_mem, tail_len in Hm. rewrite drop_0, Z.sub_0_r in Hm.
  eapply wpx_mono; [apply Hm; lia|]. intros shift v Sv. cbv beta in Sv. repeat x1; pdone.
Qed.

Lemma dns_tcp_loop_ok fuel ipp : typed_as shape ipp DPI_PARSER_DNS dns_ok ->
  s_ip_proto (sess w0) = ipp -> forall cl off len b a x w,
  st Running DPI_PARSER_DNS w0 b a (Some (inj x)) w -> is_u32 (dns_client x) -> is_u32 (dns_server x) -> a <> NULL ->
  0 <= off -> 0 <= len -> off + len = b_len (pkt_buffer w0) -> (Z.to_nat len < fuel)%nat ->
  wpo (dns_tcp_loop dl tc stack fuel a cl (b_mem (pkt_buffer w0)) off len) (fun _ v => step DPI_PARSER_DNS w0 v) w.
Proof.
  intros Hty Hipp. induction fuel as [|fuel IH]; intros cl off len b a x w S Hc Hs Ha Hoff Hlen Hsum Hf; [lia|]. cbn [dns_tcp_loop].
  destruct (buffer_facts _ _ _ _ _ I) as (Hbm & Hl0 & Hroom & Hone & _). unfold DPI_MAX_PKT_LEN in *.
  x1; [x1; pdone|]. pbool. x1. x1; [split; lia|]. unfold oversized. repeat (x1; []). cbv zeta.
  rewrite (u32_id (len - 2)) by (unfold is_u32; lia).
  x1; [x1; pdone|]. x1; [x1; pdone|]. pbool. pose proof (htons_range x0) as Hr. unfold ntohs, is_u16 in *. set (ml := htons x0) in *. clearbody ml.
  x1. pose proof (message_ok (off + 2) _ _ _ _ _ S) as Hm. unfold tail_mem, tail_len in Hm.
  replace (b_len (pkt_buffer w0) - (off + 2)) with (len - 2) in Hm by lia.
  eapply wpx_mono; [apply Hm; lia|]. intros shift v Sv. cbv beta in Sv. repeat (x1; []).
  match goal with |- wpx _ _ ?K _ => set (rest := K) end.
  assert (Hstop : forall b' u, st Running DPI_PARSER_DNS w0 b' a (Some (inj x)) u -> rest false u) by (intros b' u Su; unfold rest; x1; pdone).
  assert (Hgo : forall u, st Running DPI_PARSER_DNS w0 b a (Some (inj x)) u -> rest true u).
  { intros u Su. unfold rest. do 6 x1.
    assert (Hput : is_u32 (dns_client (dns_put cl q x)) /\ is_u32 (dns_server (dns_put cl q x))) by (destruct cl; by split).
    x1. x1; [by apply (typed_inj _ _ _ _ _ Hty)|]. x1. x1; [done|].
    rewrite (u32_id (len - 2 - ml)) by (unfold is_u32; lia).
    eapply IH; [eassumption|apply Hput|apply Hput|done|lia|lia|lia|lia]. }
  clearbody rest. x1.
  - x1. x1; x1; x1; by apply Hgo.
  - x1; [x1; x1; x1; by eapply Hstop|x1; by apply Hgo].
Qed.

Lemma dns_tcp_ok ipp b a od : typed_as shape ipp DPI_PARSER_DNS dns_ok ->
  s_ip_proto (sess w0) = ipp -> slot dl w0 DPI_PARSER_DNS = Some (Some free) -> 0 < b_len (pkt_buffer w0) -> st Running DPI_PARSER_DNS w0 b a od w0 ->
  wpo (dns_tcp_parser dl tc stack) (fun _ v => step DPI_PARSER_DNS w0 v) w0.
Proof.
  intros Hty Hipp Hslot Hlen S. unfold dns_tcp_parser, not_port. x1. x1. x1; [x1; pdone|].
  eapply wpx_with_data; [exact S|exact Hipp|exact Hslot|exact Hty|by split|intros; pdone|]. intros a' x v Ha' [Hc Hs] _ Sv.
  x1. x1. x1. x1. x1. x1; [x1; pdone|]. x1. x1. eapply dns_tcp_loop_ok; try done; lia.
Qed.
End packet.
End laws.

(** ** Answers to a question *)

Section answers.
Context (m : list Z) (len : Z).
Abbreviation same := Fqdn.Fqdn.strcaseeq.

(** The names the records of the message lead to from [q] *)
Inductive alias (q : list Z) : list Z -> Prop :=
  | alias_self : alias q q
  | alias_cname n n' c : alias q n -> record_in m len (Answer n' (Cname c)) -> same n n' = true -> alias q c.
(** The message gives [a] as an address of [q]. *)
Definition resolves (q : list Z) (a : Z) : Prop :=
  exists n n', alias q n /\ same n n' = true /\ record_in m len (Answer n' (Ip4 a)).

Lemma copy_name_id s : (length s < 256)%nat -> copy_name s = s.
Proof. intros. apply take_ge. unfold MAX_LABEL_LEN. lia. Qed.
Lemma record_length s d : record_in m len (Answer s d) -> (length s < 256)%nat /\ match d with Cname c => (length c < 256)%nat | _ => True end.
Proof. inversion 1; subst; split; try done; by eapply spells_length. Qed.
Lemma answers_sound q ans n a : Forall (answer_of m len) ans -> alias q n -> a ∈ answers_of n ans -> resolves q a.
Proof.
  intros Ha. revert n. induction Ha as [|[s d] ans Hx Ha IH]; intros n Hn Hin; [by apply elem_of_nil in Hin|].
  cbn [answers_of a_question a_data] in Hin. destruct (same n s) eqn:Es; [|by eapply IH].
  destruct Hx as [[= -> ->]|Hr]; [unfold copy_name in Hin; rewrite take_nil in Hin|].
  { eapply IH; [|exact Hin]. unfold Fqdn.Fqdn.strcaseeq in Es. apply bool_decide_eq_true in Es. cbn in Es.
    apply fmap_nil_inv in Es. by subst n. }
  destruct d as [x|c].
  - apply elem_of_cons in Hin as [->|Hin]; [by exists n, s|by eapply IH].
  - destruct (record_length _ _ Hr) as [_ Hc]. rewrite (copy_name_id c Hc) in Hin. eapply IH; [|exact Hin]. by eapply alias_cname.
Qed.

(** The associations a message can add: an address it gives for one of its questions,
    with a record of the domain-name table that is filed under the name of the question
    or one of its wildcard names, and is not to be deleted. *)
Definition may_add (h : fqdn_hdl) (a s : Z) : Prop :=
  exists q nm, question_of m len q /\ resolves q a /\ nm ∈ Fqdn.Fqdn.snoop_names q /\
    Fqdn.Fqdn.name_lookup h nm = Some s /\ Fqdn.Fqdn.marked h s = false.
End answers.
Arguments alias : clear implicits.

(** The table [h] after messages that can only add [add] to [h0] *)
Record grown (add : Z -> Z -> Prop) (h0 h : fqdn_hdl) : Prop := {
  grown_fwf : Fqdn.Fqdn.fwf h;
  grown_lookup nm : Fqdn.Fqdn.name_lookup h nm = Fqdn.Fqdn.name_lookup h0 nm;
  grown_marked r : Fqdn.Fqdn.marked h r = Fqdn.Fqdn.marked h0 r;
  grown_code r : Fqdn.Fqdn.code (Fqdn.Fqdn.rec_at h r) = Fqdn.Fqdn.code (Fqdn.Fqdn.rec_at h0 r);
  grown_assoc a s : Fqdn.Fqdn.assoc h a s -> Fqdn.Fqdn.assoc h0 a s \/ add a s;
  grown_keeps a s : Fqdn.Fqdn.assoc h0 a s -> Fqdn.Fqdn.assoc h a s }.

Lemma grown_same add h : Fqdn.Fqdn.fwf h -> grown add h h.
Proof. intros. split; auto. Qed.
(** What the questions [qs] can add *)
Definition adds (add : Z -> Z -> Prop) (h0 : fqdn_hdl) (ans : list answer) (q : list Z) : Prop := forall a s nm,
  a ∈ answers_of (copy_name q) ans -> nm ∈ Fqdn.Fqdn.snoop_names q -> Fqdn.Fqdn.name_lookup h0 nm = Some s -> Fqdn.Fqdn.marked h0 s = false -> add a s.
Lemma map_question_grown add h0 h ans q : adds add h0 ans q -> grown add h0 h -> grown add h0 (map_question ans h q).
Proof.
  intros Hadd [G1 G2 G3 G4 G5 G6]. unfold map_question, adds in *. destruct (answers_of (copy_name q) ans) as [|x ips]; [by split|].
  pose proof (Fqdn.Fqdn.snooped_mapping_sound h q (x :: ips) G1) as S. split.
  - apply S.
  - intros nm. rewrite <- G2. by eapply Fqdn.Fqdn.snooped_lookup.
  - intros r. rewrite <- G3. by eapply Fqdn.Fqdn.snooped_marked.
  - intros r. rewrite <- G4. apply S.
  - intros a s Has. apply S in Has as [Has|[Hin (nm & Hnm & [Hl Hm])]]; [by apply G5|]. right. apply (Hadd a s nm); [done|done|by rewrite <- G2|by rewrite <- G3].
  - intros a s Has. apply S. left. by apply G6.
Qed.
Lemma mapping_grown add h0 qs ans : Forall (adds add h0 ans) qs -> forall h, grown add h0 h -> grown add h0 (get_domain_ip_mapping h qs ans).
Proof.
  unfold get_domain_ip_mapping. induction 1 as [|q qs Hq _ IH]; intros h G; [done|]. cbn [foldl]. apply IH. by apply map_question_grown.
Qed.
(** The questions and answers of a message *)
Lemma message_adds m len h0 qs ans (add : Z -> Z -> Prop) : (forall a s, may_add m len h0 a s -> add a s) ->
  Forall (question_of m len) qs -> Forall (answer_of m len) ans -> Forall (adds add h0 ans) qs.
Proof.
  intros Hadd Hq Ha. eapply Forall_impl; [exact Hq|]. intros q Hqq a s nm Hin Hnm Hl Hm. apply Hadd. exists q, nm.
  split_and!; try done. eapply answers_sound; [done| |exact Hin]. rewrite copy_name_id; [constructor|].
  destruct Hqq as [->|(o & j & t & Hsp & _)]; [cbn; lia|by eapply spells_length].
Qed.

(** ** Claims *)

Section claims.
Context {D : Type} `{!Obj D dns_data} (shape : Z -> Z -> D -> Prop) (dl : lists (option (@deleter D))) (slack : Z).
Context (tc : Z -> threat_conf) (stack : nat -> list Z).
Abbreviation invariant := (inv Fqdn.Fqdn.fwf shape dl slack).

(** The packet is the parser's to read: it has data, and DNS is the parser being run. *)
Record called (w : world D fqdn_hdl) : Prop := {
  call_dl : dl_ok dl; call_slack : sizeof_dns_hdr <= slack; call_stack : forall i, length (stack i) = 256%nat;
  call_inv : invariant w; call_data : 0 < b_len (pkt_buffer w); call_cur : cur_parser w = Some DPI_PARSER_DNS;
  call_slot : s_ip_proto (sess w) = IPPROTO_TCP -> slot dl w DPI_PARSER_DNS = Some (Some free) /\ typed_as shape IPPROTO_TCP DPI_PARSER_DNS dns_ok }.
(** dns_tcp_parser or dns_udp_parser, by the protocol of the session *)
Definition dns_entry (w : world D fqdn_hdl) : M D fqdn_hdl unit :=
  if s_ip_proto (sess w) =? IPPROTO_TCP then dns_tcp_parser dl tc stack else dns_udp_parser dl tc stack.

Lemma inv_ext_ok (ok : fqdn_hdl -> Prop) w : invariant w -> ok (ext w) -> inv ok shape dl slack w.
Proof. intros [W O _ P] He. by split. Qed.
Lemma dns_runs (ok : fqdn_hdl -> Prop) w : called w -> ok (ext w) -> maps_well ok w ->
  wpx (overrun w) (dns_entry w) (fun _ v => step ok shape dl slack DPI_PARSER_DNS w v) w.
Proof.
  intros [Hd Hs Hst I Hl Hc Hsl] He Hm. apply (inv_ext_ok ok) in I; [|done].
  assert (S : st ok shape dl slack Running DPI_PARSER_DNS w (bit w DPI_PARSER_DNS) (datum w DPI_PARSER_DNS) (heap w !! datum w DPI_PARSER_DNS) w) by by apply st_start.
  unfold dns_entry. destruct (Z.eqb_spec (s_ip_proto (sess w)) IPPROTO_TCP) as [Ht|Ht].
  - destruct (Hsl Ht) as [Hslot Hty]. by eapply dns_tcp_ok.
  - by eapply dns_udp_ok.
Qed.


End claims.


(** ** A response, and a message that overruns *)

Section example.
#[local] Instance obj_dns : Obj dns_data dns_data := {| inj x := x; prj x := Some x; prj_inj _ := eq_refl |}.
Definition quiet_conf : Z -> threat_conf := fun _ => ThreatConf false 0 0 0.
Definition dns_shape (ipp t : Z) (d : dns_data) : Prop := ipp = IPPROTO_TCP /\ t = DPI_PARSER_DNS /\ dns_ok d.
Definition dns_list (dl : lists (option (@deleter dns_data))) : list (@parser dns_data fqdn_hdl) :=
  [dpi_dns_tcp_parser dl quiet_conf stack0; dpi_dns_udp_parser dl quiet_conf stack0].
Definition dns_deleters : lists (option (@deleter dns_data)) := deleters (dpi_parser_setup (dns_list (Lists _ [] [] []))).
Lemma dns_deleters_ok : dl_ok dns_deleters.
Proof.
  apply ParserRun.ParserRun.setup_deleters_ok; [repeat constructor; done|].
  repeat (apply Forall_cons; split; [first [by left|by right]|]). by apply Forall_nil.
Qed.

(** Four labels of 63 bytes and an extension label of 33 bits, for an address *)
Definition label63 : list Z := 63 :: replicate 63 97.
Definition attack0 : list Z :=
  [0; 1; 0; 0; 0; 1; 0; 0; 0; 0; 0; 0] ++ label63 ++ label63 ++ label63 ++ label63 ++ [0x40; 33; 0; 0; 1; 0; 1].

Definition udp_world (h : fqdn_hdl) (l : list Z) : world dns_data fqdn_hdl :=
  let b := Buf (l ++ replicate 40 0) (Z.of_nat (length l)) 0 in
  World (Session 0 0 [8; 0; 0] (replicate 20 0) 0 0 17 (Wing 40000 0 0 0) (Wing 53 0 0 0) 0 0 0) ∅ h
    (IoEp ∅ 0 0 false false false false false false) (Packet [] 0 0 0 0 0 0 0 0x800 53 40000 17 0 0 0 0 0 0 0 0 0 0 0 [] []) b b false
    (Some DPI_PARSER_DNS) 0 0 0 [].
Lemma udp_world_called h l : Fqdn.Fqdn.fwf h -> Forall is_u8 l -> (0 < length l <= 1000)%nat ->
  called dns_shape dns_deleters sizeof_dns_hdr stack0 (udp_world h l).
Proof.
  intros F Hl Hn. set (w := udp_world h l).
  assert (Hd : forall t, in_range t -> datum w t = NULL).
  { intros t Ht. unfold datum. change (parser_data (sess w)) with (replicate 20 (0 : Z)).
    destruct (replicate 20 (0 : Z) !! Z.to_nat t) eqn:Et; [|done]. by apply lookup_replicate in Et as [-> _]. }
  assert (Hb : forall t, in_range t -> bit w t = true -> is_Some (slot dns_deleters w t)).
  { intros t Ht. unfold bit, slot. change (parser_bits (sess w)) with [8; 0; 0 : Z]. unfold in_range, DPI_PARSER_MAX in Ht.
    assert (Hc : t = 0 \/ t = 1 \/ t = 2 \/ t = 3 \/ t = 4 \/ t = 5 \/ t = 6 \/ t = 7 \/ t = 8 \/ t = 9 \/ t = 10 \/ t = 11 \/
      t = 12 \/ t = 13 \/ t = 14 \/ t = 15 \/ t = 16 \/ t = 17 \/ t = 18 \/ t = 19) by lia.
    repeat destruct Hc as [-> | Hc]; try subst t; try done; intros _; eexists; vm_compute; reflexivity. }
  split; [apply dns_deleters_ok|done|done| |cbn; lia|done|done]. split; [| |done|done].
  - assert (B : buf_ok sizeof_dns_hdr (raw w)).
    { split; cbn [w udp_world raw b_mem b_len b_seq]; [|unfold DPI_MAX_PKT_LEN; lia| |done|].
      - apply Forall_app. split; [done|]. by apply Forall_replicate.
      - rewrite length_app, length_replicate. unfold sizeof_dns_hdr. lia.
      - rewrite Nat2Z.id, drop_app_length. apply elem_of_replicate. lia. }
    by split.
  - split; try done.
    + intros t Ht H. by rewrite Hd in H.
    + intros t u Ht Hu H. by rewrite Hd in H.
    + intros a [d Ha]. by apply (lookup_empty_Some a d) in Ha.
Qed.
Abbreviation table0 := Fqdn.Fqdn.sample.
Lemma response0_called : called dns_shape dns_deleters sizeof_dns_hdr stack0 (udp_world table0 response0).
Proof. apply udp_world_called; [apply Fqdn.Fqdn.sample_fwf|repeat constructor; done|cbn; lia]. Qed.

(** strcpy runs out of the array, although the stack holds nothing but NULs. *)
Example dns_question_overruns : dns_udp_parser dns_deleters quiet_conf stack0 (udp_world table0 attack0) = None.
Proof. vm_compute. reflexivity. Qed.

Definition after_response : world dns_data fqdn_hdl :=
  match dns_udp_parser dns_deleters quiet_conf stack0 (udp_world table0 response0) with Some (_, v) => v | None => udp_world table0 [] end.
Lemma response0_run : dns_entry dns_deleters quiet_conf stack0 (udp_world table0 response0) (udp_world table0 response0) = Some (tt, after_response).
Proof. vm_compute. reflexivity. Qed.

End example.
End DnsThm.
