(* ===== verification/DnsResp.v ===== *)
(** * A DNS response as a whole

    On a well-formed response the DNS parser (Dns.v) finds every question and every A and
    CNAME record, and the addresses of the answers are associated with the names of the
    domain-name table that the questions match. *)

From S2P Require Import Prelude Helper Bitmap Wire Frag Fqdn Parser ParserLaw ParserTac ParsersUdp Dns DnsThm.
Import Helper.Bytes Helper.Seq Wire.Wire Parser.Parser ParserLaw.ParserLaw ParserTac.ParserTac ParsersUdp.ParsersUdp Dns.Dns DnsThm.DnsThm.

Module DnsResp.

(** ** Messages *)

Section message.
Context (m : list Z) (len : Z).

(** The name at [o], of [sz] bytes, is the string [s]. *)
Definition plain_name (o sz : Z) (s : list Z) : Prop :=
  exists k ls, name_at m len k o ls sz Root /\ fits k ls 0 0 = true /\ Forall (fun l => 0 ∉ l) ls /\ s = joined ls.
(** A 16-bit field *)
Definition field (o x : Z) : Prop := exists y, ld16 m o = Some y /\ ntohs y = x.

(** Questions for addresses, from offset [o] to [o'] *)
Inductive questions_at : list (list Z) -> Z -> Z -> Prop :=
  | questions_end o : questions_at [] o o
  | questions_next o sz q qs o' : plain_name o sz q -> 1 < sz -> o + sz + 4 <= len -> field (o + sz) DNS_TYPE_A ->
      questions_at qs (o + sz + 4) o' -> questions_at (q :: qs) o o'.

(** A record: the answer it is for the parser, if any, and the offset behind it *)
Inductive record_at (o : Z) : option answer -> Z -> Prop :=
  | at_a sz s a : plain_name o sz s -> 1 < sz -> field (o + sz) DNS_TYPE_A -> field (o + sz + 8) 4 -> o + sz + 14 <= len ->
      ld32 m (o + sz + 10) = Some a -> record_at o (Some (Answer s (Ip4 a))) (o + sz + 14)
  | at_cname sz s n sz' c : plain_name o sz s -> 1 < sz -> field (o + sz) DNS_TYPE_CNAME -> field (o + sz + 8) n ->
      o + sz + 10 + n <= len -> plain_name (o + sz + 10) sz' c -> 1 < sz' ->
      record_at o (Some (Answer s (Cname c))) (o + sz + 10 + n)
  | at_other sz s ty n : plain_name o sz s -> field (o + sz) ty -> ty <> DNS_TYPE_A -> ty <> DNS_TYPE_CNAME ->
      field (o + sz + 8) n -> o + sz + 10 + n <= len -> record_at o None (o + sz + 10 + n).
Inductive records_at : list (option answer) -> Z -> Z -> Prop :=
  | records_end o : records_at [] o o
  | records_next o x o1 l o' : record_at o x o1 -> records_at l o1 o' -> records_at (x :: l) o o'.
Definition olist {A} (x : option A) : list A := match x with Some a => [a] | None => [] end.
Definition kept (l : list (option answer)) : list answer := omap id l.

(** A response with its four sections *)
Record response (qs : list (list Z)) (ans ns ar : list (option answer)) (o : Z) : Prop := {
  resp_head : exists b, ld8 m 2 = Some b /\ Z.land (Z.shiftr b 3) 15 = DNS_OP_QUERY /\ Z.testbit b 7 = true;
  resp_qd : field 4 (Z.of_nat (length qs)); resp_an : field 6 (Z.of_nat (length ans));
  resp_ns : field 8 (Z.of_nat (length ns)); resp_ar : field 10 (Z.of_nat (length ar));
  resp_few : Z.of_nat (length qs) + Z.of_nat (length ans) < MAX_RECORD_NUM;
  resp_body : exists o1 o2 o3, questions_at qs sizeof_dns_hdr o1 /\ records_at ans o1 o2 /\ records_at ns o2 o3 /\ records_at ar o3 o }.

Lemma name_size k o ls sz e : name_at m len k o ls sz e -> e = Root -> 1 <= sz.
Proof. induction 1; intros He; try done; try lia. specialize (IHname_at He). lia. Qed.
Lemma plain_size o sz s : plain_name o sz s -> 1 <= sz.
Proof. intros (k & ls & Hn & _). by eapply name_size. Qed.
Lemma plain_length o sz s : plain_name o sz s -> (length s < 256)%nat.
Proof.
  intros (k & ls & _ & Hf & _ & ->). apply andb_true_iff in Hf as [_ Hf]. apply Z.leb_le in Hf. unfold MAX_LABEL_LEN in Hf.
  destruct (decide (ls = [])) as [->|Hl]; [cbn; lia|]. rewrite (dotted_joined _ Hl), length_app in Hf. cbn in Hf. lia.
Qed.
Lemma field_range o x : field o x -> 0 <= x.
Proof. intros (y & _ & <-). pose proof (htons_range y). unfold ntohs, is_u16 in *. lia. Qed.
Lemma record_next o x o1 : record_at o x o1 -> o <= o1.
Proof. destruct 1; repeat match goal with H : plain_name _ _ _ |- _ => apply plain_size in H | H : field _ _ |- _ => apply field_range in H end; lia. Qed.
Lemma records_order l o o' : records_at l o o' -> o <= o'.
Proof. induction 1 as [|o x o1 l o' H _ IH]; [lia|]. apply record_next in H. lia. Qed.
Lemma questions_order l o o' : questions_at l o o' -> o <= o'.
Proof. induction 1; lia. Qed.
End message.

(** ** The parser on such messages *)

Lemma put_at_app {A} (pre rest : list A) x y : put_at (pre ++ x :: rest) (Z.of_nat (length pre)) y = Some (pre ++ y :: rest).
Proof.
  unfold put_at. rewrite length_app. cbn [length]. rewrite (proj2 (Z.leb_le 0 _)), (proj2 (Z.ltb_lt _ _)) by lia. cbn [andb].
  rewrite Nat2Z.id. f_equal. replace (length pre) with (length pre + 0)%nat by lia. by rewrite insert_app_r.
Qed.

Section run.
Context {D : Type} (tc : Z -> threat_conf) (stack : nat -> list Z) (Hstack : forall i, length (stack i) = 256%nat).
Context (m : list Z) (len : Z) (Hb : bytes m).
Implicit Types (w : world D fqdn_hdl).

Lemma name_run o sz s labels w : plain_name m len o sz s -> length labels = 256%nat -> labels !! O = Some 0 ->
  exists l, get_dns_name tc m len o labels w = Some ((sz, l), w) /\ length l = 256%nat /\ cstring l = Some s.
Proof.
  intros (k & ls & Hn & Hf & Hno & ->) Hl H0. destruct (read_name_on m labels len o k ls sz Root Hb Hl H0 Hn) as (r & l & b & Hr & Er & H).
  rewrite Hf in Er. destruct (H Hf) as (-> & Hll & Hs). exists l. split_and!; [|done|by apply Hs].
  unfold get_dns_name, mbind, M_bind, lift. rewrite Hr. cbn in Er |- *. by rewrite Er.
Qed.
(** labels[0] = 0, then the name *)
Lemma name_first o sz s labels w : plain_name m len o sz s -> length labels = 256%nat ->
  exists l0 l, st8 labels 0 0 = Some l0 /\ get_dns_name tc m len o l0 w = Some ((sz, l), w) /\ length l = 256%nat /\ cstring l = Some s.
Proof.
  intros Hn Hl. destruct (clear_first labels Hl) as (l0 & E0 & Hl0 & H0). destruct (name_run o sz s l0 w Hn Hl0 H0) as (l & ? & ? & ?).
  by exists l0, l.
Qed.

Lemma questions_run qs o o' : questions_at m len qs o o' -> forall labels pre rest w, length labels = 256%nat -> (length qs <= length rest)%nat ->
  dns_question tc (length qs) m len o labels (Some (pre ++ rest)) (Z.of_nat (length pre)) w =
  Some ((o', Some (pre ++ qs ++ drop (length qs) rest), Z.of_nat (length pre + length qs)), w).
Proof.
  induction 1 as [o|o sz q qs o' Hn Hsz Hlen Hty _ IH]; intros labels pre rest w Hl Hr; cbn [dns_question length].
  { rewrite drop_0, Nat.add_0_r. done. }
  destruct (name_first o sz q labels w Hn Hl) as (l0 & l & E0 & Er & Hll & Hc). destruct Hty as (y & Ey & Hy).
  unfold mbind, M_bind, lift. rewrite E0. cbn [mbind option_bind]. rewrite Er. rewrite (proj2 (Z.ltb_ge sz 0)), (proj2 (Z.ltb_ge len _)) by lia.
  replace (o + sz + 4 - 4) with (o + sz) by lia. rewrite Ey. cbn [mbind option_bind]. rewrite Hy, Z.eqb_refl.
  rewrite (proj2 (Z.ltb_lt 1 sz)) by lia. rewrite Hc. cbn [mbind option_bind]. destruct rest as [|x rest]; [cbn in Hr; lia|].
  rewrite put_at_app. cbn [mbind option_bind]. replace (Z.of_nat (length pre) + 1) with (Z.of_nat (length (pre ++ [q]))) by (rewrite length_app; cbn; lia).
  replace (pre ++ q :: rest) with ((pre ++ [q]) ++ rest) by (by rewrite <- app_assoc). etransitivity; [apply IH; [done|cbn in Hr; lia]|].
  rewrite <- app_assoc. cbn [app drop]. rewrite length_app. cbn [length]. do 3 f_equal. lia.
Qed.

(** What a record is for dns_answer, and what it adds to the array *)
Lemma record_parts o x o1 : record_at m len o x o1 -> exists sz s ty n,
  plain_name m len o sz s /\ field m (o + sz) ty /\ field m (o + sz + 8) n /\ o + sz + 10 + n <= len /\ o1 = o + sz + 10 + n /\
  forall l pre y rest w, cstring l = Some s ->
    keep_answer tc m len (o + sz + 10) sz ty n l (Some (pre ++ y :: rest)) (Z.of_nat (length pre)) w =
    Some ((Some (pre ++ olist x ++ drop (length (olist x)) (y :: rest)), Z.of_nat (length pre + length (olist x))), w).
Proof.
  destruct 1 as [sz s a Hn Hsz Hty Hrd Hlen Ha|sz s n sz' c Hn Hsz Hty Hrd Hlen Hc Hsz'|sz s ty n Hn Hty Hne1 Hne2 Hrd Hlen].
  - exists sz, s, DNS_TYPE_A, 4. split_and!; [done|done|done|lia|lia|]. intros l pre y rest w Hs. unfold keep_answer, mbind, M_bind, lift.
    change ((DNS_TYPE_A =? DNS_TYPE_A) && (4 =? 4)) with true. cbv iota. rewrite (proj2 (Z.ltb_lt 1 sz)) by lia.
    rewrite Hs. cbn [mbind option_bind]. rewrite Ha. cbn [mbind option_bind]. rewrite put_at_app. cbn [mbind option_bind olist length app drop]. unfold mret, M_ret. rewrite ?drop_0. do 3 f_equal. lia.
  - exists sz, s, DNS_TYPE_CNAME, n. split_and!; [done|done|done|lia|lia|]. intros l pre y rest w Hs. unfold keep_answer, mbind, M_bind, lift.
    change (DNS_TYPE_CNAME =? DNS_TYPE_A) with false. change (DNS_TYPE_CNAME =? DNS_TYPE_CNAME) with true. cbv iota. cbn [andb]. rewrite (proj2 (Z.ltb_lt 1 sz)) by lia.
    destruct (name_run (o + sz + 10) sz' c (replicate (Z.to_nat MAX_LABEL_LEN) 0) w Hc) as (cn & -> & _ & Hcn); [done|done|].
    rewrite (proj2 (Z.ltb_lt 1 sz')) by lia. rewrite Hs. cbn [mbind option_bind]. rewrite Hcn. cbn [mbind option_bind]. rewrite put_at_app. cbn [mbind option_bind olist length app drop]. unfold mret, M_ret. rewrite ?drop_0. do 3 f_equal. lia.
  - exists sz, s, ty, n. split_and!; [done|done|done|lia|lia|]. intros l pre y rest w Hs. unfold keep_answer.
    rewrite (proj2 (Z.eqb_neq ty DNS_TYPE_A)), (proj2 (Z.eqb_neq ty DNS_TYPE_CNAME)) by done. cbn. by rewrite Nat.add_0_r.
Qed.
Lemma record_step o x o1 count labels w : record_at m len o x o1 -> length labels = 256%nat ->
  exists l, length l = 256%nat /\
    (forall pre rest, rest <> [] ->
      dns_answer tc (S count) m len o labels (Some (pre ++ rest)) (Z.of_nat (length pre)) w =
      dns_answer tc count m len o1 l (Some (pre ++ olist x ++ drop (length (olist x)) rest)) (Z.of_nat (length pre + length (olist x))) w) /\
    dns_answer tc (S count) m len o labels None 0 w = dns_answer tc count m len o1 l None 0 w.
Proof.
  intros Hr Hl. destruct (record_parts o x o1 Hr) as (sz & s & ty & n & Hn & (t & Et & Ety) & (k & Ek & En) & Hlen & Ho1 & Hkeep).
  destruct (name_first o sz s labels w Hn Hl) as (l0 & l & E0 & Er & Hll & Hc). exists l. split; [done|].
  pose proof (plain_size _ _ _ _ _ Hn) as Hsz. pose proof (field_range m (o + sz + 8) n (ex_intro _ k (conj Ek En))) as Hn0.
  assert (Hstep : forall arr aw, dns_answer tc (S count) m len o labels arr aw w =
    match keep_answer tc m len (o + sz + 10) sz ty n l arr aw w with
    | Some ((arr, aw), v) => dns_answer tc count m len o1 l arr aw v | None => None end).
  { intros arr aw. cbn [dns_answer]. unfold mbind, M_bind, lift. rewrite E0. cbn [mbind option_bind]. rewrite Er.
    rewrite (proj2 (Z.ltb_ge sz 0)), (proj2 (Z.ltb_ge len (o + sz + 10))) by lia. rewrite Et. cbn [mbind option_bind]. rewrite Ek. cbn [mbind option_bind].
    rewrite Ety, En, (proj2 (Z.ltb_ge len _)), <- Ho1 by lia. by destruct (keep_answer _ _ _ _ _ _ _ _ _ _ _) as [[[? ?] ?]|]. }
  split; [|by rewrite Hstep]. intros pre rest Hrest. rewrite Hstep. destruct rest as [|y rest]; [done|]. by rewrite (Hkeep l pre y rest w Hc).
Qed.

Lemma kept_cons x l : kept (x :: l) = olist x ++ kept l.
Proof. unfold kept. cbn. by destruct x. Qed.
Lemma olist_le {A} (x : option A) : (length (olist x) <= 1)%nat.
Proof. by destruct x; cbn; lia. Qed.
Lemma records_run l o o' : records_at m len l o o' -> forall labels w, length labels = 256%nat ->
  (forall pre rest, (length l <= length rest)%nat ->
    dns_answer tc (length l) m len o labels (Some (pre ++ rest)) (Z.of_nat (length pre)) w =
    Some ((o', Some (pre ++ kept l ++ drop (length (kept l)) rest), Z.of_nat (length pre + length (kept l))), w)) /\
  dns_answer tc (length l) m len o labels None 0 w = Some ((o', None, 0), w).
Proof.
  induction 1 as [o|o x o1 l o' Hr _ IH]; intros labels w Hl.
  { split; [|done]. intros pre rest _. cbn. by rewrite Nat.add_0_r, drop_0. }
  cbn [length]. destruct (record_step o x o1 (length l) labels w Hr Hl) as (l1 & Hl1 & H1 & H2). destruct (IH l1 w Hl1) as [IH1 IH2]. split.
  - intros pre rest Hrest. rewrite H1 by (intros ->; cbn in Hrest; lia). pose proof (olist_le x) as Hx. set (ox := olist x) in *.
    rewrite app_assoc, <- length_app. rewrite IH1 by (rewrite length_drop; cbn in Hrest; lia).
    rewrite kept_cons. fold ox. rewrite drop_drop, !length_app, <- !app_assoc. do 3 f_equal. lia.
  - by rewrite H2, IH2.
Qed.

(** Entries not set change nothing. *)
Lemma answers_pad n l k : answers_of n (l ++ replicate k no_answer) = answers_of n l.
Proof.
  revert n. induction l as [|[s d] l IH]; intros n.
  - rewrite app_nil_l. revert n. induction k as [|k IH]; intros n; [done|]. cbn [replicate]. unfold no_answer at 1.
    cbn [answers_of a_question a_data]. destruct (Fqdn.Fqdn.strcaseeq n []); apply IH.
  - rewrite <- app_comm_cons. cbn [answers_of a_question a_data]. destruct (Fqdn.Fqdn.strcaseeq n s); [|apply IH]. destruct d; [by rewrite IH|apply IH].
Qed.
Lemma mapping_pad qs l k : forall h, get_domain_ip_mapping h qs (l ++ replicate k no_answer) = get_domain_ip_mapping h qs l.
Proof.
  unfold get_domain_ip_mapping. induction qs as [|q qs IH]; intros h; [done|]. cbn [foldl]. rewrite IH. f_equal.
  unfold map_question. by rewrite answers_pad.
Qed.
Lemma mapping_nil qs : forall h, get_domain_ip_mapping h qs [] = h.
Proof. unfold get_domain_ip_mapping. induction qs as [|q qs IH]; intros h; [done|]. cbn [foldl]. apply IH. Qed.

Lemma rest_run ns ar o2 o3 o w : 0 <= o2 -> field m 8 (Z.of_nat (length ns)) -> field m 10 (Z.of_nat (length ar)) ->
  records_at m len ns o2 o3 -> records_at m len ar o3 o -> dns_rest tc stack m len o2 w = Some (o, w).
Proof.
  intros Ho (y1 & E1 & F1) (y2 & E2 & F2) Hns Har. pose proof (records_order _ _ _ _ _ Hns). pose proof (records_order _ _ _ _ _ Har).
  assert (Hsec : forall l a b i (v : world D fqdn_hdl), records_at m len l a b ->
    (if 0 <? Z.of_nat (length l) then '(shift, _, _) ← dns_answer tc (Z.to_nat (Z.of_nat (length l))) m len a (stack i) None 0; mret shift else mret a : M D fqdn_hdl Z) v = Some (b, v)).
  { intros l a b i v Hrec. destruct (records_run l a b Hrec (stack i) v (Hstack i)) as [_ Hrun]. destruct l as [|x l]; [by inversion Hrec|].
    rewrite (proj2 (Z.ltb_lt 0 _)) by (cbn; lia). unfold mbind, M_bind. rewrite Nat2Z.id, Hrun. done. }
  unfold dns_rest. unfold mbind at 1, M_bind at 1, lift at 1. rewrite E1. cbn [mbind option_bind]. rewrite F1.
  unfold mbind at 1, M_bind at 1. rewrite (Hsec ns o2 o3 2%nat w Hns). rewrite (proj2 (Z.ltb_ge o3 0)) by lia.
  unfold mbind at 1, M_bind at 1, lift at 1. rewrite E2. cbn [mbind option_bind]. rewrite F2.
  unfold mbind at 1, M_bind at 1. rewrite (Hsec ar o3 o 3%nat w Har). by rewrite (proj2 (Z.ltb_ge o 0)) by lia.
Qed.

Lemma response_run qs ans ns ar o w : response m len qs ans ns ar o -> avail w = [] ->
  dns_parser tc stack m len w = Some (o, w <| ext ::= fun h => get_domain_ip_mapping h qs (kept ans) |>).
Proof.
  intros [(b & Eb & Hop & Hqr) (yq & Eq & Fq) (ya & Ea & Fa) Hns Har Hfew (o1 & o2 & o3 & Hq & Ha & Hn & Hr)] Hav.
  pose proof (questions_order _ _ _ _ _ Hq) as L1. pose proof (records_order _ _ _ _ _ Ha) as L2. unfold sizeof_dns_hdr in *.
  assert (Rq : (if 0 <? Z.of_nat (length qs) then dns_question tc (Z.to_nat (Z.of_nat (length qs))) m len 12 (stack 0%nat) (Some (replicate (Z.to_nat (Z.of_nat (length qs))) [])) 0
      else mret (12, Some (replicate (Z.to_nat (Z.of_nat (length qs))) []), 0) : M D fqdn_hdl _) w = Some ((o1, Some qs, Z.of_nat (length qs)), w)).
  { rewrite Nat2Z.id. destruct qs as [|q qs]; [by inversion Hq|]. rewrite (proj2 (Z.ltb_lt 0 _)) by (cbn; lia).
    etransitivity; [apply (questions_run (q :: qs) 12 o1 Hq (stack 0%nat) [] (replicate (length (q :: qs)) []) w (Hstack _))|]; [by rewrite length_replicate|].
    rewrite !app_nil_l, drop_replicate, Nat.sub_diag, app_nil_r. done. }
  assert (Ra : (if 0 <? Z.of_nat (length ans) then dns_answer tc (Z.to_nat (Z.of_nat (length ans))) m len o1 (stack 1%nat) (Some (replicate (Z.to_nat (Z.of_nat (length ans))) no_answer)) 0
      else mret (o1, Some (replicate (Z.to_nat (Z.of_nat (length ans))) no_answer), 0) : M D fqdn_hdl _) w =
      Some ((o2, Some (kept ans ++ replicate (length ans - length (kept ans)) no_answer), Z.of_nat (length (kept ans))), w)).
  { rewrite Nat2Z.id. destruct ans as [|x ans]; [by inversion Ha|]. rewrite (proj2 (Z.ltb_lt 0 _)) by (cbn; lia).
    destruct (records_run (x :: ans) o1 o2 Ha (stack 1%nat) w (Hstack _)) as [Hrun _].
    etransitivity; [apply (Hrun [] (replicate (length (x :: ans)) no_answer))|]; [by rewrite length_replicate|].
    rewrite !app_nil_l, drop_replicate. done. }
  unfold dns_parser. unfold mbind at 1, M_bind at 1, lift at 1. rewrite Eb. cbn [mbind option_bind]. rewrite Hop. change (negb _) with false at 1. cbv iota.
  unfold mbind at 1, M_bind at 1, lift at 1. rewrite Eq. cbn [mbind option_bind]. unfold mbind at 1, M_bind at 1, lift at 1. rewrite Ea. cbn [mbind option_bind].
  rewrite Hqr. cbn [negb andb]. cbv iota. rewrite Fq, Fa. unfold mbind at 1, M_bind at 1, dns_arrays. rewrite (proj2 (Z.ltb_lt _ MAX_RECORD_NUM)) by done.
  unfold mbind at 1, M_bind at 1, alloc_ok at 1. rewrite Hav. unfold mbind at 1, M_bind at 1, alloc_ok at 1. rewrite Hav. cbn [negb xorb]. unfold mret at 1, M_ret at 1.
  unfold sizeof_dns_hdr. unfold mbind at 1, M_bind at 1. rewrite Rq. rewrite (proj2 (Z.ltb_ge o1 0)) by lia.
  unfold mbind at 1, M_bind at 1. rewrite Ra. rewrite (proj2 (Z.ltb_ge o2 0)) by lia.
  unfold mbind at 1, M_bind at 1. match goal with |- context [(if ?c then ?x else ?y) w] => assert (Hmid : (if c then x else y) w =
    Some (tt, w <| ext ::= fun h => get_domain_ip_mapping h qs (kept ans) |>)) end.
  { destruct (0 <? Z.of_nat (length qs)) eqn:E1; [destruct (0 <? Z.of_nat (length (kept ans))) eqn:E2|]; cbn [andb].
    - unfold mbind, M_bind, lift, upd. cbn [mbind option_bind]. do 2 f_equal. destruct w. cbn. by rewrite mapping_pad.
    - destruct (kept ans); [|done]. unfold skip, mret, M_ret. do 2 f_equal. destruct w. cbn. by rewrite mapping_nil.
    - destruct qs; [|done]. by destruct w. }
  rewrite Hmid. by eapply rest_run; [lia|done..].
Qed.
End run.

(** ** The domain-name table afterwards *)

(** Every answer is for the name reached so far: [ips] are the addresses, in order. *)
Inductive chain : list Z -> list answer -> list Z -> Prop :=
  | chain_end n : chain n [] []
  | chain_a n n' a l ips : Fqdn.Fqdn.strcaseeq n n' = true -> chain n l ips -> chain n (Answer n' (Ip4 a) :: l) (a :: ips)
  | chain_cname n n' c l ips : Fqdn.Fqdn.strcaseeq n n' = true -> chain c l ips -> chain n (Answer n' (Cname c) :: l) ips.

Definition short (a : answer) : Prop := match a_data a with Cname c => (length c < 256)%nat | _ => True end.
Lemma chain_answers n l ips : chain n l ips -> (length n < 256)%nat -> Forall short l -> answers_of (copy_name n) l = ips.
Proof.
  induction 1 as [n|n n' a l ips Hs _ IH|n n' c l ips Hs _ IH]; intros Hn Hl; [done|..]; apply Forall_cons in Hl as [Hx Hl];
    cbn [answers_of a_question a_data]; rewrite (copy_name_id n Hn), Hs.
  - f_equal. rewrite <- IH by done. by rewrite (copy_name_id n Hn).
  - by apply IH.
Qed.
Lemma records_short m len l o o' : records_at m len l o o' -> Forall short (kept l).
Proof.
  induction 1 as [|o x o1 l o' Hr _ IH]; [by apply Forall_nil|]. rewrite kept_cons. apply Forall_app. split; [|done].
  destruct Hr; cbn [olist]; [by apply Forall_singleton|apply Forall_singleton; by eapply plain_length|by apply Forall_nil].
Qed.
Lemma questions_short m len qs o o' : questions_at m len qs o o' -> Forall (fun q => (length q < 256)%nat) qs.
Proof. induction 1; constructor; [by eapply plain_length|done]. Qed.

(** The addresses found for a question reach the records its names stand for. *)
Lemma mapping_adds qs ans q a nm s : forall h, Fqdn.Fqdn.fwf h -> q ∈ qs -> a ∈ answers_of (copy_name q) ans ->
  nm ∈ Fqdn.Fqdn.snoop_names q -> Fqdn.Fqdn.name_lookup h nm = Some s -> Fqdn.Fqdn.marked h s = false ->
  Fqdn.Fqdn.assoc (get_domain_ip_mapping h qs ans) a s.
Proof.
  intros h F Hq Ha Hnm Hl Hm. apply list_elem_of_split in Hq as (qs1 & qs2 & ->).
  unfold get_domain_ip_mapping. rewrite foldl_app. cbn [foldl].
  assert (Hall : forall h0 qs, Forall (adds (fun _ _ => True) h0 ans) qs) by (intros; apply Forall_forall; done).
  pose proof (mapping_grown _ _ qs1 ans (Hall h qs1) h (grown_same _ h F)) as G1. unfold get_domain_ip_mapping in G1.
  set (h1 := foldl (map_question ans) h qs1) in *. destruct G1 as [F1 L1 M1 _ _ _].
  assert (Hin : Fqdn.Fqdn.assoc (map_question ans h1 q) a s).
  { unfold map_question. destruct (answers_of (copy_name q) ans) as [|x ips]; [by apply elem_of_nil in Ha|].
    apply (Fqdn.Fqdn.snooped_mapping_sound h1 q (x :: ips) F1). right. split; [done|]. exists nm. split; [done|].
    split; [by rewrite L1|by rewrite M1]. }
  assert (F2 : Fqdn.Fqdn.fwf (map_question ans h1 q)).
  { apply (grown_fwf (fun _ _ => True) h1), map_question_grown; [done|by apply grown_same]. }
  apply (grown_keeps _ _ _ (mapping_grown _ _ qs2 ans (Hall _ qs2) _ (grown_same _ _ F2))). done.
Qed.

Section claim.
Context {D : Type} `{!Obj D dns_data} (shape : Z -> Z -> D -> Prop) (dl : lists (option (@deleter D))) (slack : Z).
Context (tc : Z -> threat_conf) (stack : nat -> list Z).

(** C19: On a UDP packet from or to port 53 that holds a response with questions for
    addresses, the parser returns, stays hired, finalizes the session unless the message is
    oversized, and maps the questions to the A and CNAME records of the answer section and
    nothing else; every address a chain of answers gives for a question is then associated
    with every record, not to be deleted, of the question's name and its wildcard names. *)
Theorem dns_response_associates (w : world D fqdn_hdl) (qs : list (list Z)) (ans ns ar : list (option answer)) (o : Z) :
  called shape dl slack stack w -> sport (pk w) = 53 \/ dport (pk w) = 53 -> avail w = [] ->
  response (b_mem (pkt_buffer w)) (b_len (pkt_buffer w)) qs ans ns ar o ->
  exists v, dns_udp_parser dl tc stack w = Some (tt, v) /\ ext v = get_domain_ip_mapping (ext w) qs (kept ans) /\
    bit v DPI_PARSER_DNS = bit w DPI_PARSER_DNS /\ (b_len (pkt_buffer w) <= DNS_OVERFLOW_THRES -> is_final v = true) /\
    forall q ips a nm s, q ∈ qs -> chain q (kept ans) ips -> a ∈ ips -> nm ∈ Fqdn.Fqdn.snoop_names q ->
      Fqdn.Fqdn.name_lookup (ext w) nm = Some s -> Fqdn.Fqdn.marked (ext w) s = false -> Fqdn.Fqdn.assoc (ext v) a s.
Proof.
  intros [Hd Hs Hst I Hlen Hc _] Hport Hav R. set (h := get_domain_ip_mapping (ext w) qs (kept ans)). set (v1 := w <| ext ::= fun h => get_domain_ip_mapping h qs (kept ans) |>).
  destruct (buffer_facts _ _ _ _ _ I) as (Hbm & _).
  pose proof (response_run tc stack Hst (b_mem (pkt_buffer w)) (b_len (pkt_buffer w)) Hbm qs ans ns ar o w R Hav) as Hrun.
  assert (Ho : 0 <= o).
  { destruct R as [_ _ _ _ _ _ (o1 & o2 & o3 & H1%questions_order & H2%records_order & H3%records_order & H4%records_order)]. unfold sizeof_dns_hdr in *. lia. }
  assert (Htail : wp (fin ← dpi_is_parser_final; prt ← get (fun w => port (server (sess w)));
      if (DNS_OVERFLOW_THRES <? b_len (pkt_buffer w)) && fin && (prt =? 53) then
        if (o <? 0) || (DNS_OVERFLOW_THREAT_SIZE <? u32 (b_len (pkt_buffer w) - o)) then threat tc DPI_THRT_DNS_OVERFLOW else skip
      else if o <? 0 then dpi_fire_parser else dpi_finalize_parser dl)
    (fun _ v => ext v = h /\ bit v DPI_PARSER_DNS = bit w DPI_PARSER_DNS /\ (b_len (pkt_buffer w) <= DNS_OVERFLOW_THRES -> is_final v = true)) v1).
  { assert (I1 : inv (eq h) shape dl slack v1) by (destruct I as [W O _ P]; split; [by destruct W|by destruct O|done|done]).
    assert (S : st (eq h) shape dl slack Running DPI_PARSER_DNS v1 (bit w DPI_PARSER_DNS) (datum v1 DPI_PARSER_DNS) (heap v1 !! datum v1 DPI_PARSER_DNS) v1)
      by (by apply (st_start (eq h) shape dl slack Running DPI_PARSER_DNS v1)).
    assert (Hend : forall b a od v, st (eq h) shape dl slack Running DPI_PARSER_DNS v1 b a od v -> ext v = h /\ bit v DPI_PARSER_DNS = b).
    { intros b a od v Sv. split; [symmetry; apply (inv_ext _ _ _ _ _ (st_inv _ _ _ _ _ _ _ _ _ _ _ Sv))|apply (st_bit _ _ _ _ _ _ _ _ _ _ _ Sv)]. }
    p1. p1. p1. p1. p1.
    - pbool. p1; p1; (split; [by eapply Hend|split; [by eapply Hend|lia]]).
    - rewrite (proj2 (Z.ltb_ge o 0)) by lia. eapply wp_finalize; [done|exact S|]. intros v Sv Hf. split; [by eapply Hend|split; [by eapply Hend|done]]. }
  apply wp_run in Htail as ([] & v & Hv & E1 & E2 & E3). exists v. split_and!; [|exact E1|done|done|].
  - unfold dns_udp_parser, not_port. unfold mbind at 1, M_bind at 1, dpi_pkt_ptr, get at 1. unfold mbind at 1, M_bind at 1, dpi_pkt_len, get at 1.
    unfold mbind at 1, M_bind at 1, get at 1.
    replace (negb (sport (pk w) =? 53) && negb (dport (pk w) =? 53)) with false by (destruct Hport as [-> | ->]; by rewrite ?andb_false_r).
    cbv beta iota. unfold mbind at 1, M_bind at 1. rewrite Hrun. exact Hv.
  - intros q ips a nm s Hq Hch Ha Hnm Hl Hm. rewrite E1. destruct R as [_ _ _ _ _ _ (o1 & o2 & o3 & Hqs & Has & _)].
    eapply mapping_adds; [apply (inv_ext _ _ _ _ _ I)|exact Hq| |exact Hnm|done|done].
    erewrite chain_answers; [exact Ha|exact Hch| |by eapply records_short].
    by apply (proj1 (Forall_forall _ _) (questions_short _ _ _ _ _ Hqs)).
Qed.
End claim.

(** ** The response of DnsThm.v *)

Section example.
#[local] Existing Instance obj_dns.
Definition mem0 : list Z := response0 ++ replicate 40 0.
Definition abc : list Z := [65; 46; 98; 46; 99].
Definition dbc : list Z := [100; 46; 98; 46; 99].
Definition answers0 : list (option answer) := [Some (Answer abc (Cname dbc)); Some (Answer dbc (Ip4 150994954))].

Ltac no_nul := repeat (apply Forall_cons; split; [by apply (bool_decide_eq_true_1 _)|]); apply Forall_nil_2.
Lemma plain_abc k o sz : name_at mem0 66 k o [[65]; [98]; [99]] sz Root -> fits k [[65]; [98]; [99]] 0 0 = true -> plain_name mem0 66 o sz abc.
Proof. intros H Hf. exists k, [[65]; [98]; [99]]. split_and!; [done|done|no_nul|reflexivity]. Qed.
Lemma name_12 : name_at mem0 66 0 12 [[65]; [98]; [99]] 7 Root.
Proof.
  apply (name_label _ _ 12 1 [65] 0 _ (1 + 1 + (1 + 1 + 1))); [lia|reflexivity|lia|reflexivity|lia|].
  apply (name_label _ _ 14 1 [98] 0 _ (1 + 1 + 1)); [lia|reflexivity|lia|reflexivity|lia|].
  apply (name_label _ _ 16 1 [99] 0 _ 1); [lia|reflexivity|lia|reflexivity|lia|]. apply name_root; [lia|reflexivity].
Qed.
Lemma plain_dbc k o sz : name_at mem0 66 k o [[100]; [98]; [99]] sz Root -> fits k [[100]; [98]; [99]] 0 0 = true -> plain_name mem0 66 o sz dbc.
Proof. intros H Hf. exists k, [[100]; [98]; [99]]. split_and!; [done|done|no_nul|reflexivity]. Qed.

Lemma response0_sections : response mem0 66 [abc] answers0 [] [None] 66.
Proof.
  split; [by eexists; split_and!; [reflexivity|reflexivity|reflexivity]|by eexists..|done|].
  exists 23, 55, 55. split_and!.
  - eapply (questions_next _ _ 12 7); [by eapply plain_abc; [apply name_12|]|lia|lia|by eexists|]. apply questions_end.
  - eapply (records_next _ _ 23 _ (23 + 2 + 10 + 4)).
    { eapply (at_cname _ _ 23 2 _ 4 4); [eapply (plain_abc 1)|lia|by eexists|by eexists|lia|eapply (plain_dbc 1); [apply response0_name|reflexivity]|lia].
      - eapply (name_pointer _ _ 23 0xc0 12); [lia|reflexivity|lia|reflexivity|lia|apply name_12].
      - reflexivity. }
    eapply (records_next _ _ 39 _ (39 + 2 + 14)); [|apply records_end].
    eapply (at_a _ _ 39 2); [eapply (plain_dbc 2)|lia|by eexists|by eexists|lia|reflexivity].
    + eapply (name_pointer _ _ 39 0xc0 35); [lia|reflexivity|lia|reflexivity|lia|apply response0_name].
    + reflexivity.
  - apply records_end.
  - eapply (records_next _ _ 55 _ (55 + 1 + 10 + 0)); [|apply records_end]. eapply (at_other _ _ 55 1 _ 41 0); [|by eexists|done|done|by eexists|lia].
    exists 0%nat, []. split_and!; [|reflexivity|apply Forall_nil_2|reflexivity]. apply name_root; [lia|reflexivity].
Qed.

(** The address reaches both names of the table, "a.b.c" and "*.b.c". *)
Lemma dns_response_associates_witness :
  exists v, dns_udp_parser dns_deleters quiet_conf stack0 (udp_world Fqdn.Fqdn.sample response0) = Some (tt, v) /\
    forall s, s ∈ Fqdn.Fqdn.live Fqdn.Fqdn.sample -> Fqdn.Fqdn.assoc (ext v) 150994954 s.
Proof.
  destruct (dns_response_associates dns_shape dns_deleters sizeof_dns_hdr quiet_conf stack0 (udp_world Fqdn.Fqdn.sample response0) [abc] answers0 [] [None] 66
    response0_called (or_introl eq_refl) eq_refl response0_sections) as (v & Hv & _ & _ & _ & H).
  exists v. split; [exact Hv|]. intros s Hs.
  assert (Hl : Fqdn.Fqdn.live Fqdn.Fqdn.sample = [0; 1]) by (vm_compute; reflexivity). rewrite Hl in Hs.
  assert (Hn : Fqdn.Fqdn.snoop_names abc = [Fqdn.Fqdn.name_abc; Fqdn.Fqdn.name_star]) by (vm_compute; reflexivity).
  assert (Hc : chain abc (kept answers0) [150994954]) by (apply chain_cname; [reflexivity|]; apply chain_a; [reflexivity|]; apply chain_end).
  apply elem_of_cons in Hs as [Hs|Hs%list_elem_of_singleton]; subst s.
  - apply (H abc [150994954] _ Fqdn.Fqdn.name_abc); [left|exact Hc|left|rewrite Hn; left|vm_compute; reflexivity|vm_compute; reflexivity].
  - apply (H abc [150994954] _ Fqdn.Fqdn.name_star); [left|exact Hc|left|rewrite Hn; right; left|vm_compute; reflexivity|vm_compute; reflexivity].
Defined.
End example.
End DnsResp.
