(* ===== verification/Asn1.v ===== *)
(** * The ASN.1 reader (utils/asn1.c)

    The reader takes the identifier, the length and the value of DER elements from a buffer,
    [buf] of Parser.v: [b_mem] is the memory at ptr, [b_len] the length and [b_seq] the
    position.  An element [asn1] is written as it is read, also by a read that fails.  The
    functions return the error of the C function and what they have changed; [None] is a
    read outside the memory or a write outside the array of an object identifier. *)

From S2P Require Import Prelude Helper Wire Frag Parser ParserTac.
Import Helper.Bytes Wire.Wire Parser.Parser ParserTac.ParserTac.

Module Asn1.

Definition ASN1_ERR_NONE : Z := 0.
Definition ASN1_ERR_LONG : Z := 1.
Definition ASN1_ERR_FORMAT : Z := 2.
Definition ASN1_CLASS_CONTEXT : Z := 2.
Definition ASN1_TAG_BOOLEAN : Z := 1.
Definition ASN1_TAG_INTEGER : Z := 2.
Definition ASN1_TAG_BITSTR : Z := 3.
Definition ASN1_TAG_OCTSTR : Z := 4.
Definition ASN1_TAG_NULL : Z := 5.
Definition ASN1_TAG_OBJID : Z := 6.
Definition ASN1_TAG_ENUMERATED : Z := 10.
Definition ASN1_TAG_UTF8STR : Z := 12.
Definition ASN1_TAG_SEQUENCE : Z := 16.
Definition ASN1_TAG_SET : Z := 17.
Definition ASN1_TAG_NUMSTR : Z := 18.
Definition ASN1_TAG_PRINTSTR : Z := 19.
Definition ASN1_TAG_TELESTR : Z := 20.
Definition ASN1_TAG_VIDEOSTR : Z := 21.
Definition ASN1_TAG_IA5STR : Z := 22.
Definition ASN1_TAG_UTCTIME : Z := 23.
Definition ASN1_TAG_GENTIME : Z := 24.
Definition ASN1_TAG_GRASTR : Z := 25.
Definition ASN1_TAG_VISSTR : Z := 26.
Definition ASN1_TAG_GENSTR : Z := 27.
Definition ASN1_TAG_UNIVSTR : Z := 28.
Definition ASN1_TAG_CHARSTR : Z := 29.
Definition ASN1_TAG_BMPSTR : Z := 30.
Definition ASN1_TAG_VARYSIZE : Z := 31.
Definition ASN1_MAX_OID_LEN : Z := 128.
Definition ASN1_MAX_NODE_ID : Z := 0xffffffff.

Record asn1 := Asn1 { length_ : Z; class_ : Z; tag : Z; constructed : bool }.
#[export] Instance eta_asn1 : Eta asn1 := fun a => Asn1 (length_ a) (class_ a) (tag a) (constructed a).
Implicit Types (a : asn1) (b : buf).

Definition ASN1_GET_CLASS (c : Z) : Z := Z.shiftr (Z.land c 0xc0) 6.
Definition ASN1_GET_TAG (c : Z) : Z := Z.land c 0x1f.
Definition ASN1_IS_CONSTRUCTED (c : Z) : bool := negb (Z.land c 0x20 =? 0).

(** buf->seq += n *)
Definition advance b (n : Z) : buf := b <| b_seq := u32 (b_seq b + n) |>.

(** ** Values *)

(** while (count > 0): the int [v], and the position *)
Fixpoint read_int (count : nat) (m : list Z) (seq v : Z) : option (Z * Z) :=
  match count with
  | O => Some (v, seq)
  | S count => c ← ld8 m seq; read_int count m (u32 (seq + 1)) (s32 (Z.lor (Z.shiftl v 8) c))
  end.
(** [None] in the last place: value is not written *)
Definition asn1_read_integer a b : option (Z * buf * option Z) :=
  if 4 <? length_ a then Some (ASN1_ERR_LONG, advance b (length_ a), None)
  else
    '(v, seq) ← read_int (Z.to_nat (length_ a)) (b_mem b) (b_seq b) 0;
    Some (ASN1_ERR_NONE, b <| b_seq := seq |>, Some v).

Definition asn1_read_string a b : Z * buf := (ASN1_ERR_NONE, advance b (length_ a)).

(** The do-while loop of asn1_read_oid: the error, the node and the position *)
Fixpoint oid_node (fuel : nat) (m : list Z) (len seq node : Z) : option (Z * Z * Z) :=
  match fuel with
  | O => None
  | S fuel =>
      if len <=? seq then Some (ASN1_ERR_FORMAT, node, seq)
      else if Z.shiftr ASN1_MAX_NODE_ID 7 <? node then Some (ASN1_ERR_FORMAT, node, seq)
      else
        ch ← ld8 m seq;
        let node := Z.lor (u32 (Z.shiftl node 7)) (Z.land ch 0x7f) in
        let seq := u32 (seq + 1) in
        if 0x80 <=? ch then oid_node fuel m len seq node else Some (ASN1_ERR_NONE, node, seq)
  end.
(** oid->oid[oid->len ++] = x *)
Definition oid_push (oid : list Z) (x : Z) : option (list Z) :=
  if Z.of_nat (length oid) <? ASN1_MAX_OID_LEN then Some (oid ++ [x]) else None.
(** while (buf->seq < oid_end); [oid] is the array up to oid->len *)
Fixpoint oid_loop (fuel : nat) (m : list Z) (len oid_end seq : Z) (oid : list Z) : option (Z * Z * list Z) :=
  match fuel with
  | O => None
  | S fuel =>
      if negb (seq <? oid_end) then Some (ASN1_ERR_NONE, seq, oid)
      else if ASN1_MAX_OID_LEN <=? Z.of_nat (length oid) then Some (ASN1_ERR_FORMAT, seq, oid)
      else
        '(ret, node, seq) ← oid_node (S (Z.to_nat (len - seq))) m len seq 0;
        if negb (ret =? ASN1_ERR_NONE) then Some (ret, seq, oid)
        else
          oid ← (if Z.of_nat (length oid) =? 0 then
                   if node <? 80 then oid ← oid_push oid (node / 40); oid_push oid (node mod 40)
                   else oid ← oid_push oid 2; oid_push oid (u32 (node - 80))
                 else oid_push oid node);
          oid_loop fuel m len oid_end seq oid
  end.
Definition asn1_read_oid a b : option (Z * buf * list Z) :=
  let oid_end := u32 (b_seq b + length_ a) in
  if length_ a =? 0 then Some (ASN1_ERR_FORMAT, b, [])
  else
    '(ret, seq, oid) ← oid_loop (S (Z.to_nat (oid_end - b_seq b))) (b_mem b) (b_len b) oid_end (b_seq b) [];
    Some (ret, b <| b_seq := seq |>, oid).

(** ** Headers *)

Fixpoint tag_loop (fuel : nat) (m : list Z) (len seq t : Z) : option (Z * Z * Z) :=
  match fuel with
  | O => None
  | S fuel =>
      if len <=? seq then Some (ASN1_ERR_FORMAT, t, seq)
      else
        ch ← ld8 m seq;
        let t := s32 (Z.lor (Z.shiftl t 7) (Z.land ch 0x7f)) in
        let seq := u32 (seq + 1) in
        if 0x80 <=? ch then tag_loop fuel m len seq t else Some (ASN1_ERR_NONE, t, seq)
  end.
(** The tag is kept in a byte. *)
Definition asn1_read_tag a b : option (Z * asn1 * buf) :=
  '(ret, t, seq) ← tag_loop (S (Z.to_nat (b_len b - b_seq b))) (b_mem b) (b_len b) (b_seq b) 0;
  let b := b <| b_seq := seq |> in
  if negb (ret =? ASN1_ERR_NONE) then Some (ret, a, b)
  else if t <? 0 then Some (ASN1_ERR_FORMAT, a, b)
  else Some (ASN1_ERR_NONE, a <| tag := u8 t |>, b).

Definition asn1_read_length a b : option (Z * asn1 * buf) :=
  if b_len b <=? b_seq b then Some (ASN1_ERR_FORMAT, a, b)
  else
    ch ← ld8 (b_mem b) (b_seq b);
    if ch =? 0x80 then Some (ASN1_ERR_FORMAT, a, b)
    else if ch =? 0xff then Some (ASN1_ERR_FORMAT, a, b)
    else if ch <? 0x80 then Some (ASN1_ERR_NONE, a <| length_ := ch |>, advance b 1)
    else
      let b := advance b 1 in
      let count := Z.land ch 0x7f in
      if b_len b <=? u32 (b_seq b + count) then Some (ASN1_ERR_FORMAT, a, b)
      else if 4 <? count then Some (ASN1_ERR_FORMAT, a, b)
      else
        '(length, seq) ← read_int (Z.to_nat count) (b_mem b) (b_seq b) 0;
        let b := b <| b_seq := seq |> in
        if length <? 0 then Some (ASN1_ERR_FORMAT, a, b)
        else Some (ASN1_ERR_NONE, a <| length_ := length |>, b).

Definition asn1_read_header a b : option (Z * asn1 * buf) :=
  if (b_len b <? 2) || (b_len b <=? b_seq b) then Some (ASN1_ERR_FORMAT, a, b)
  else
    ch ← ld8 (b_mem b) (b_seq b);
    let a := a <| class_ := ASN1_GET_CLASS ch |> <| constructed := ASN1_IS_CONSTRUCTED ch |> <| tag := ASN1_GET_TAG ch |> in
    let b := advance b 1 in
    '(ret, a, b) ← (if tag a =? ASN1_TAG_VARYSIZE then asn1_read_tag a b else Some (ASN1_ERR_NONE, a, b));
    if negb (ret =? ASN1_ERR_NONE) then Some (ret, a, b)
    else
      '(ret, a, b) ← asn1_read_length a b;
      if negb (ret =? ASN1_ERR_NONE) then Some (ret, a, b)
      else if b_len b <? u32 (b_seq b + length_ a) then Some (ASN1_ERR_FORMAT, a, b)
      else Some (ASN1_ERR_NONE, a, b).

(** ** Elements *)

Definition asn1_parse_bool a b : option (Z * asn1 * buf) :=
  if b_len b <=? u32 (b_seq b + 3) then Some (ASN1_ERR_FORMAT, a, b)
  else
    id ← ld8 (b_mem b) (b_seq b);
    len ← ld8 (b_mem b) (b_seq b + 1);
    v ← ld8 (b_mem b) (b_seq b + 2);
    if (id =? 1) && (len =? 1) && ((v =? 0) || (v =? 0xff)) then Some (ASN1_ERR_NONE, a, advance b 3)
    else Some (ASN1_ERR_FORMAT, a, b).

(** A header that is accepted by [ok], and what [k] makes of the value *)
Definition parse_with {A} (ok : asn1 -> bool) (none : A) (k : asn1 -> buf -> option (Z * buf * A)) a b : option (Z * asn1 * buf * A) :=
  '(ret, a, b) ← asn1_read_header a b;
  if negb (ret =? ASN1_ERR_NONE) then Some (ret, a, b, none)
  else if negb (ok a) then Some (ASN1_ERR_FORMAT, a, b, none)
  else '(ret, b, x) ← k a b; Some (ret, a, b, x).
(** A primitive element of tag [t] *)
Definition prim (t : Z) a : bool := negb (constructed a) && (tag a =? t).
Definition cons_of (t : Z) a : bool := constructed a && (tag a =? t).
Definition no_value {A} (f : asn1 -> buf -> Z * buf) (x : A) a b : option (Z * buf * A) := let '(ret, b) := f a b in Some (ret, b, x).
Definition stay a b : Z * buf := (ASN1_ERR_NONE, b).

Definition asn1_parse_integer a b : option (Z * asn1 * buf * option Z) := parse_with (prim ASN1_TAG_INTEGER) None asn1_read_integer a b.
Definition asn1_parse_enum a b : option (Z * asn1 * buf * option Z) := parse_with (prim ASN1_TAG_ENUMERATED) None asn1_read_integer a b.
Definition asn1_parse_string a b (t : Z) : option (Z * asn1 * buf * unit) :=
  parse_with (fun a => negb (constructed a) && ((tag a =? t) || (tag a =? ASN1_TAG_NULL))) tt (no_value asn1_read_string tt) a b.
Definition asn1_parse_octstr a b := asn1_parse_string a b ASN1_TAG_OCTSTR.
Definition asn1_parse_bitstr a b := asn1_parse_string a b ASN1_TAG_BITSTR.
Definition asn1_parse_charstr a b := asn1_parse_string a b ASN1_TAG_CHARSTR.
Definition asn1_parse_printstr a b := asn1_parse_string a b ASN1_TAG_PRINTSTR.
Definition asn1_parse_ia5str a b := asn1_parse_string a b ASN1_TAG_IA5STR.
Definition asn1_parse_sequence a b : option (Z * asn1 * buf * unit) := parse_with (cons_of ASN1_TAG_SEQUENCE) tt (no_value stay tt) a b.
Definition asn1_parse_setseq a b : option (Z * asn1 * buf * unit) := parse_with (cons_of ASN1_TAG_SET) tt (no_value stay tt) a b.
Definition asn1_parse_oid a b : option (Z * asn1 * buf * option (list Z)) :=
  parse_with (prim ASN1_TAG_OBJID) None (fun a b => '(ret, b, oid) ← asn1_read_oid a b; Some (ret, b, Some oid)) a b.
Definition asn1_parse_object a b : option (Z * asn1 * buf * unit) := parse_with (fun _ => true) tt (no_value asn1_read_string tt) a b.

(** ** Reading stays inside the buffer *)

(** Lengths are ints and the position does not wrap; [b_seq] can be behind the end. *)
Record buf_wf b : Prop := {
  bw_bytes : bytes (b_mem b); bw_seq : 0 <= b_seq b; bw_len : 0 <= b_len b < 2 ^ 31; bw_room : b_len b <= Z.of_nat (length (b_mem b)) }.
(** The same buffer further on, and not past the end because of that *)
Definition onward b b' : Prop := b_mem b' = b_mem b /\ b_len b' = b_len b /\ b_seq b <= b_seq b' <= Z.max (b_seq b) (b_len b).
Definition len_ok a : Prop := 0 <= length_ a < 2 ^ 31.

Lemma s32_range z : - 2 ^ 31 <= s32 z < 2 ^ 31.
Proof. destruct (s32_cases z) as [[? ->]|[? ->]]; pose proof (u32_range z); unfold is_u32 in *; lia. Qed.
Lemma read_int_ok n m seq v : bytes m -> 0 <= seq -> seq + Z.of_nat n <= Z.of_nat (length m) -> seq + Z.of_nat n < 2 ^ 32 -> - 2 ^ 31 <= v < 2 ^ 31 ->
  exists v', read_int n m seq v = Some (v', seq + Z.of_nat n) /\ - 2 ^ 31 <= v' < 2 ^ 31.
Proof.
  intros Hb. revert seq v. induction n as [|n IH]; intros seq v Hs Hl H32 Hv; cbn [read_int].
  { exists v. split; [do 2 f_equal; lia|done]. }
  destruct (ld8_ok m seq Hb) as (c & -> & _); [split; lia|]. cbn [mbind option_bind]. rewrite u32_id by (unfold is_u32; lia).
  destruct (IH (seq + 1) (s32 (Z.lor (Z.shiftl v 8) c))) as (v' & -> & Hv'); [lia|lia|lia|apply s32_range|]. exists v'. split; [do 2 f_equal; lia|done].
Qed.

Lemma advance_onward b n : buf_wf b -> 0 <= n -> b_seq b + n <= b_len b -> onward b (advance b n) /\ b_seq (advance b n) = b_seq b + n.
Proof.
  intros [_ H1 H2 _] Hn Hl. unfold onward, advance. cbn. rewrite u32_id by (unfold is_u32; lia). split_and!; try done; lia.
Qed.
Lemma onward_wf b b' : buf_wf b -> onward b b' -> buf_wf b'.
Proof. intros [H1 H2 H3 H4] (E1 & E2 & H). split; rewrite ?E1, ?E2; try done; lia. Qed.
Lemma onward_refl b : onward b b.
Proof. unfold onward. split_and!; try done; lia. Qed.
Lemma onward_trans b1 b2 b3 : onward b1 b2 -> onward b2 b3 -> onward b1 b3.
Proof. unfold onward. intros (E1 & E2 & ?) (E3 & E4 & ?). split_and!; try congruence; lia. Qed.
Lemma onward_seq b q : b_seq b <= q <= Z.max (b_seq b) (b_len b) -> onward b (b <| b_seq := q |>).
Proof. by unfold onward. Qed.

Lemma oid_push_ok oid x : (length oid < 128)%nat -> oid_push oid x = Some (oid ++ [x]).
Proof. intros H. unfold oid_push, ASN1_MAX_OID_LEN. by rewrite (proj2 (Z.ltb_lt _ _)) by lia. Qed.

(** The loops: where they end, and with room for what they read *)
Section loops.
Context (m : list Z) (len : Z) (Hb : bytes m) (Hl : len <= Z.of_nat (length m)) (Hl31 : len < 2 ^ 31).

Lemma tag_loop_ok fuel seq t : 0 <= seq -> len - seq < Z.of_nat fuel -> (0 < fuel)%nat ->
  exists ret t' q, tag_loop fuel m len seq t = Some (ret, t', q) /\ seq <= q <= Z.max seq len.
Proof.
  revert seq t. induction fuel as [|fuel IH]; intros seq t Hs Hf Hf0; [lia|]. cbn [tag_loop].
  destruct (Z.leb_spec len seq); [do 3 eexists; split; [done|lia]|].
  destruct (ld8_ok m seq Hb) as (c & -> & _); [split; lia|]. cbn [mbind option_bind]. rewrite u32_id by (unfold is_u32; lia).
  destruct (0x80 <=? c); [|do 3 eexists; split; [done|lia]].
  edestruct (IH (seq + 1)) as (ret & t' & q & -> & Hq); [lia|lia|lia|]. do 3 eexists. split; [done|lia].
Qed.
Lemma oid_node_ok fuel seq node : 0 <= seq -> len - seq < Z.of_nat fuel -> (0 < fuel)%nat ->
  exists ret t' q, oid_node fuel m len seq node = Some (ret, t', q) /\ seq <= q <= Z.max seq len /\ (ret = ASN1_ERR_NONE -> seq < q).
Proof.
  revert seq node. induction fuel as [|fuel IH]; intros seq t Hs Hf Hf0; [lia|]. cbn [oid_node].
  destruct (Z.leb_spec len seq); [do 3 eexists; split_and!; [done|lia|lia|done]|].
  destruct (_ <? t); [do 3 eexists; split_and!; [done|lia|lia|done]|].
  destruct (ld8_ok m seq Hb) as (c & -> & _); [split; lia|]. cbn [mbind option_bind]. rewrite u32_id by (unfold is_u32; lia).
  destruct (0x80 <=? c); [|do 3 eexists; split_and!; [done|lia|lia|lia]].
  edestruct (IH (seq + 1)) as (ret & t' & q & -> & Hq & Hn); [lia|lia|lia|]. do 3 eexists. split_and!; [done|lia|lia|lia].
Qed.
Lemma oid_loop_ok fuel oid_end seq oid : 0 <= seq -> oid_end - seq < Z.of_nat fuel -> (0 < fuel)%nat -> (length oid <= 128)%nat ->
  exists ret q oid', oid_loop fuel m len oid_end seq oid = Some (ret, q, oid') /\ seq <= q <= Z.max seq len /\ (length oid' <= 128)%nat.
Proof.
  revert seq oid. induction fuel as [|fuel IH]; intros seq oid Hs Hf Hf0 Ho; [lia|]. cbn [oid_loop].
  destruct (Z.ltb_spec seq oid_end); cbn [negb]; [|do 3 eexists; split_and!; [done|lia|lia|done]].
  destruct (Z.leb_spec ASN1_MAX_OID_LEN (Z.of_nat (length oid))) as [|Hlen]; [do 3 eexists; split_and!; [done|lia|lia|done]|]. unfold ASN1_MAX_OID_LEN in Hlen.
  destruct (oid_node_ok (S (Z.to_nat (len - seq))) seq 0) as (ret & node & q & -> & Hq & Hn); [lia|lia|lia|]. cbn [mbind option_bind].
  destruct (Z.eqb_spec ret ASN1_ERR_NONE) as [->|]; cbn [negb]; [|do 3 eexists; split_and!; [done|lia|lia|done]]. specialize (Hn eq_refl).
  assert (Hrec : forall o, (length o <= 128)%nat -> exists ret q' oid', oid_loop fuel m len oid_end q o = Some (ret, q', oid') /\ seq <= q' <= Z.max seq len /\ (length oid' <= 128)%nat).
  { intros o Hol. destruct (IH q o) as (r & q' & o' & -> & ? & ?); [lia|lia|lia|done|]. do 3 eexists. split_and!; [done|lia|lia|done]. }
  destruct (Z.eqb_spec (Z.of_nat (length oid)) 0) as [H0|H0].
  - destruct oid; [|done]. destruct (node <? 80); rewrite oid_push_ok by (cbn; lia); cbn [mbind option_bind]; rewrite oid_push_ok by (cbn; lia);
      cbn [mbind option_bind]; apply Hrec; cbn; lia.
  - rewrite oid_push_ok by lia. cbn [mbind option_bind]. apply Hrec. rewrite length_app. cbn. lia.
Qed.
End loops.

(** ** Headers *)

Lemma asn1_read_tag_ok a b : buf_wf b -> exists ret a' b', asn1_read_tag a b = Some (ret, a', b') /\ onward b b' /\ length_ a' = length_ a.
Proof.
  intros [Hb Hs Hl Hr]. unfold asn1_read_tag.
  destruct (tag_loop_ok (b_mem b) (b_len b) Hb Hr ltac:(lia) (S (Z.to_nat (b_len b - b_seq b))) (b_seq b) 0) as (ret & t & q & -> & Hq); [lia|lia|lia|].
  cbn [mbind option_bind]. pose proof (onward_seq b q Hq) as Ho. destruct (negb _); [|destruct (t <? 0)]; by do 3 eexists.
Qed.
(** What a header leaves: an element with a length, also when it fails over another one *)
Definition read_to (k : Z) b (r : option (Z * asn1 * buf)) a : Prop :=
  exists ret a' b', r = Some (ret, a', b') /\ onward b b' /\ (len_ok a -> len_ok a') /\ (ret = ASN1_ERR_NONE -> len_ok a' /\ b_seq b + k <= b_seq b').
Lemma read_to_fail k b a a' b' : onward b b' -> length_ a' = length_ a -> read_to k b (Some (ASN1_ERR_FORMAT, a', b')) a.
Proof. intros Ho E. do 3 eexists. split_and!; [done|done| |done]. unfold len_ok. by rewrite E. Qed.

Lemma asn1_read_length_ok a b : buf_wf b -> read_to 1 b (asn1_read_length a b) a.
Proof.
  intros W. pose proof W as [Hb Hs Hl Hr]. pose proof (onward_refl b) as Hrefl. unfold asn1_read_length.
  destruct (Z.leb_spec (b_len b) (b_seq b)); [by apply read_to_fail|].
  destruct (ld8_ok (b_mem b) (b_seq b) Hb) as (ch & -> & Hch); [split; lia|]. cbn [mbind option_bind].
  destruct (advance_onward b 1 W) as [Hadv Eadv]; [lia|lia|]. unfold is_u8 in Hch.
  destruct (ch =? 0x80); [by apply read_to_fail|]. destruct (ch =? 0xff); [by apply read_to_fail|].
  destruct (Z.ltb_spec ch 0x80). { do 3 eexists. split_and!; [done|done|..]; unfold len_ok; cbn in *; lia. }
  cbv zeta. set (b1 := advance b 1) in *. clearbody b1. pose proof (onward_wf _ _ W Hadv) as W1. pose proof W1 as [Hb1 Hs1 Hl1 Hr1].
  set (count := Z.land ch 0x7f). assert (Hc : 0 <= count < 2 ^ 7).
  { unfold count. change 0x7f with (Z.ones 7). rewrite Z.land_ones by lia. apply Z.mod_pos_bound. lia. }
  destruct (Z.leb_spec (b_len b1) (u32 (b_seq b1 + count))) as [|Hroom]; [by apply read_to_fail|].
  destruct (Z.ltb_spec 4 count); [by apply read_to_fail|]. destruct Hadv as (E1 & E2 & E3). rewrite u32_id in Hroom by (unfold is_u32; lia).
  destruct (read_int_ok (Z.to_nat count) (b_mem b1) (b_seq b1) 0 Hb1) as (v & -> & Hv); [lia|lia|lia|lia|]. cbn [mbind option_bind].
  assert (Ho : onward b (b1 <| b_seq := b_seq b1 + Z.of_nat (Z.to_nat count) |>)) by (unfold onward; cbn; split_and!; try done; lia).
  destruct (Z.ltb_spec v 0); [by apply read_to_fail|]. do 3 eexists. split_and!; [done|done|..]; unfold len_ok; cbn -[Z.pow] in *; lia.
Qed.
(** An accepted element is inside the buffer. *)
Lemma asn1_read_header_ok a b : buf_wf b -> exists ret a' b', asn1_read_header a b = Some (ret, a', b') /\ onward b b' /\ (len_ok a -> len_ok a') /\
  (ret = ASN1_ERR_NONE -> len_ok a' /\ b_seq b + 2 <= b_seq b' /\ b_seq b' + length_ a' <= b_len b').
Proof.
  intros W. pose proof W as [Hb Hs Hl Hr]. unfold asn1_read_header.
  destruct (_ || _) eqn:Hg; [do 3 eexists; split_and!; [done|apply onward_refl|done|done]|]. apply orb_false_iff in Hg as [H2%Z.ltb_ge Hseq%Z.leb_gt].
  destruct (ld8_ok (b_mem b) (b_seq b) Hb) as (ch & -> & _); [split; lia|]. cbn [mbind option_bind]. cbv zeta.
  destruct (advance_onward b 1 W) as [Hadv Eadv]; [lia|lia|]. set (b1 := advance b 1) in *. clearbody b1. pose proof (onward_wf _ _ W Hadv) as W1.
  set (a1 := a <| class_ := _ |> <| constructed := _ |> <| tag := _ |>). assert (La : length_ a1 = length_ a) by done. clearbody a1.
  assert (Htag : exists ret a2 b2, (if tag a1 =? ASN1_TAG_VARYSIZE then asn1_read_tag a1 b1 else Some (ASN1_ERR_NONE, a1, b1)) = Some (ret, a2, b2) /\
    onward b1 b2 /\ length_ a2 = length_ a).
  { destruct (_ =? _); [|do 3 eexists; split_and!; [done|apply onward_refl|done]].
    destruct (asn1_read_tag_ok a1 b1 W1) as (ret & a2 & b2 & -> & Ho & E). do 3 eexists. split_and!; [done|done|congruence]. }
  destruct Htag as (ret & a2 & b2 & -> & Ho2 & La2). cbn [mbind option_bind]. pose proof (onward_trans _ _ _ Hadv Ho2) as Ho. pose proof (onward_wf _ _ W1 Ho2) as W2.
  destruct (Z.eqb_spec ret ASN1_ERR_NONE) as [->|]; cbn [negb]; [|do 3 eexists; split_and!; [done|done|by unfold len_ok; rewrite La2|done]].
  destruct (asn1_read_length_ok a2 b2 W2) as (ret & a3 & b3 & -> & Ho3 & L3 & N3). cbn [mbind option_bind]. pose proof (onward_trans _ _ _ Ho Ho3) as Ho'.
  assert (L : len_ok a -> len_ok a3) by (intros L0; apply L3; unfold len_ok in *; by rewrite La2).
  destruct (Z.eqb_spec ret ASN1_ERR_NONE) as [->|]; cbn [negb]; [|by do 3 eexists]. destruct N3 as [N3 N3']; [done|].
  destruct (Z.ltb_spec (b_len b3) (u32 (b_seq b3 + length_ a3))) as [|Hin]; [by do 3 eexists|].
  do 3 eexists. split_and!; [done|done|done|]. intros _. destruct Ho2 as (_ & E2 & ?), Hadv as (_ & E1 & ?), Ho3 as (_ & E3 & ?).
  unfold len_ok in *. rewrite u32_id in Hin by (unfold is_u32; lia). split_and!; lia.
Qed.

(** ** Values and elements *)

(** A value inside the buffer is read, or passed over. *)
Definition value_ok {A} (k : asn1 -> buf -> option (Z * buf * A)) : Prop := forall a b, buf_wf b -> len_ok a -> b_seq b + length_ a <= b_len b ->
  exists ret b' x, k a b = Some (ret, b', x) /\ onward b b'.
Lemma skip_ok a b : buf_wf b -> len_ok a -> b_seq b + length_ a <= b_len b -> onward b (advance b (length_ a)).
Proof. intros W L H. apply advance_onward; [done|unfold len_ok in L; lia|done]. Qed.
Lemma asn1_read_integer_ok : value_ok asn1_read_integer.
Proof.
  intros a b W L H. pose proof W as [Hb Hs Hl Hr]. unfold asn1_read_integer, len_ok in *.
  destruct (Z.ltb_spec 4 (length_ a)); [do 3 eexists; split; [done|by apply skip_ok]|].
  destruct (read_int_ok (Z.to_nat (length_ a)) (b_mem b) (b_seq b) 0 Hb) as (v & -> & _); [lia|lia|lia|lia|]. cbn [mbind option_bind].
  do 3 eexists. split; [done|]. apply onward_seq. lia.
Qed.
Lemma asn1_read_oid_ok a b : buf_wf b -> len_ok a -> b_seq b + length_ a <= b_len b ->
  exists ret b' oid, asn1_read_oid a b = Some (ret, b', oid) /\ onward b b' /\ (length oid <= 128)%nat.
Proof.
  intros [Hb Hs Hl Hr] L H. unfold asn1_read_oid, len_ok in *. destruct (_ =? 0); [do 3 eexists; split_and!; [done|apply onward_refl|cbn; lia]|].
  rewrite u32_id by (unfold is_u32; lia).
  edestruct (oid_loop_ok (b_mem b) (b_len b) Hb Hr ltac:(lia) (S (Z.to_nat (b_seq b + length_ a - b_seq b))) (b_seq b + length_ a) (b_seq b) [])
    as (ret & q & oid & -> & Hq & Ho); [lia|lia|lia|cbn; lia|]. cbn [mbind option_bind]. do 3 eexists. split_and!; [done|by apply onward_seq|done].
Qed.
Lemma skip_value_ok {A} (x : A) : value_ok (no_value asn1_read_string x).
Proof. intros a b W L H. do 3 eexists. split; [done|by apply skip_ok]. Qed.
Lemma stay_value_ok {A} (x : A) : value_ok (no_value stay x).
Proof. intros a b W L H. do 3 eexists. split; [done|apply onward_refl]. Qed.

(** The outcome of a function that reads an element: it returns, inside the buffer. *)
Definition inside {A} b (r : option (Z * asn1 * buf * A)) : Prop := exists ret a' b' x, r = Some (ret, a', b', x) /\ onward b b'.
Lemma parse_with_ok {A} ok (none : A) k a b : buf_wf b -> value_ok k -> inside b (parse_with ok none k a b).
Proof.
  intros W Hk. unfold parse_with. destruct (asn1_read_header_ok a b W) as (ret & a1 & b1 & -> & Ho & _ & Hn). cbn [mbind option_bind].
  destruct (Z.eqb_spec ret ASN1_ERR_NONE) as [->|]; cbn [negb]; [|by do 4 eexists]. destruct (ok a1); cbn [negb]; [|by do 4 eexists].
  destruct Hn as (L & _ & H); [done|]. destruct (Hk a1 b1 (onward_wf _ _ W Ho) L H) as (ret & b2 & x & -> & Ho2). cbn [mbind option_bind].
  do 4 eexists. split; [done|by eapply onward_trans].
Qed.
Lemma asn1_parse_bool_ok a b : buf_wf b -> b_seq b <= b_len b -> exists ret a' b', asn1_parse_bool a b = Some (ret, a', b') /\ onward b b'.
Proof.
  intros W Hle. pose proof W as [Hb Hs Hl Hr]. pose proof (onward_refl b) as Hrefl. unfold asn1_parse_bool. rewrite u32_id by (unfold is_u32; lia).
  destruct (Z.leb_spec (b_len b) (b_seq b + 3)); [by do 3 eexists|].
  destruct (ld8_ok (b_mem b) (b_seq b) Hb) as (x & -> & _); [split; lia|]. destruct (ld8_ok (b_mem b) (b_seq b + 1) Hb) as (y & -> & _); [split; lia|].
  destruct (ld8_ok (b_mem b) (b_seq b + 2) Hb) as (z & -> & _); [split; lia|]. cbn [mbind option_bind].
  destruct (_ && _); [|by do 3 eexists]. do 3 eexists. split; [done|]. apply advance_onward; [done|lia|lia].
Qed.

(** ** Object identifiers in DER *)

(** The bytes of a node, seven bits each, the most significant first; a node of 32 bits has
    at most five.  [node_more] are those with the bit that says that more follow. *)
Fixpoint node_more (n : nat) (v : Z) : list Z :=
  match n with O => [] | S n => if v =? 0 then [] else node_more n (v / 128) ++ [128 + v mod 128] end.
Definition node_bytes (v : Z) : list Z := node_more 4 (v / 128) ++ [v mod 128].
(** The first two arcs make one node. *)
Definition oid_nodes (arcs : list Z) : list Z :=
  match arcs with x :: y :: rest => 40 * x + y :: rest | _ => arcs end.
Definition oid_bytes (arcs : list Z) : list Z := concat (List.map node_bytes (oid_nodes arcs)).
Definition der_length (n : Z) : list Z := if n <? 128 then [n] else if n <? 256 then [0x81; n] else [0x82; n / 256; n mod 256].
Definition der_oid (arcs : list Z) : list Z := ASN1_TAG_OBJID :: der_length (Z.of_nat (length (oid_bytes arcs))) ++ oid_bytes arcs.
(** X.660: the first arc is 0, 1 or 2, and below 0 and 1 there are 40; the nodes have 32 bits. *)
Definition valid_oid (arcs : list Z) : bool :=
  match arcs with
  | x :: y :: rest => (0 <=? x) && (x <=? 2) && (0 <=? y) && ((x =? 2) || (y <? 40)) && (40 * x + y <? 2 ^ 32) &&
      forallb (fun v => (0 <=? v) && (v <? 2 ^ 32)) rest && (Z.of_nat (length arcs) <=? ASN1_MAX_OID_LEN)
  | _ => false
  end.

(** The bytes [l] are in the memory from [o] on. *)
Definition seen (m : list Z) (o : Z) (l : list Z) : Prop := 0 <= o /\ l `prefix_of` drop (Z.to_nat o) m.
Lemma seen_cons m o c l : seen m o (c :: l) -> ld8 m o = Some c /\ seen m (o + 1) l.
Proof.
  intros [Ho [post H]]. split.
  - replace o with (o + 0) by lia. rewrite (ld8_drop m o (c :: l ++ post)); [done|lia|lia|done].
  - split; [lia|]. exists post. replace (Z.to_nat (o + 1)) with (Z.to_nat o + 1)%nat by lia. by rewrite <- drop_drop, H.
Qed.
Lemma seen_app m o l1 l2 : seen m o (l1 ++ l2) -> seen m o l1 /\ seen m (o + Z.of_nat (length l1)) l2.
Proof.
  intros [Ho [post H]]. split; [split; [done|]; exists (l2 ++ post); by rewrite app_assoc|]. split; [lia|]. exists post.
  replace (Z.to_nat (o + Z.of_nat (length l1))) with (Z.to_nat o + length l1)%nat by lia. by rewrite <- drop_drop, H, <- app_assoc, drop_app_length.
Qed.

Lemma node_step v : 0 <= v < 2 ^ 32 -> Z.lor (u32 (Z.shiftl (v / 128) 7)) (v mod 128) = v.
Proof.
  intros Hv. rewrite u32_id; [|unfold is_u32; rewrite Z.shiftl_mul_pow2 by lia; pose proof (Z.mul_div_le v 128); pose proof (Z.div_pos v 128); lia].
  rewrite lor_disjoint_add; [|lia|apply Z.mod_pos_bound; lia]. pose proof (Z.div_mod v 128). lia.
Qed.
Lemma low7 c : 0 <= c < 128 -> Z.land c 0x7f = c /\ Z.land (128 + c) 0x7f = c.
Proof.
  intros Hc. change 0x7f with (Z.ones 7). rewrite !Z.land_ones by lia. change (2 ^ 7) with 128. rewrite Z.mod_small by lia. split; [done|].
  rewrite Z.add_comm. replace (c + 128) with (c + 1 * 128) by lia. rewrite Z.mod_add by lia. by apply Z.mod_small.
Qed.

Lemma node_more_length n v : (length (node_more n v) <= n)%nat.
Proof.
  revert v. induction n as [|n IH]; intros v; cbn [node_more]; [done|]. destruct (v =? 0); [cbn; lia|]. rewrite length_app. cbn [length].
  specialize (IH (v / 128)). lia.
Qed.
Lemma node_bytes_length v : (0 < length (node_bytes v) <= 5)%nat.
Proof. unfold node_bytes. rewrite length_app. cbn [length]. pose proof (node_more_length 4 (v / 128)). lia. Qed.
Lemma nodes_length vs : (length vs <= length (concat (List.map node_bytes vs)) <= 5 * length vs)%nat.
Proof.
  induction vs as [|v vs IH]; cbn [List.map concat length]; [done|]. rewrite length_app. pose proof (node_bytes_length v). lia.
Qed.

Section read_oid.
Context (m : list Z) (len : Z) (Hlen : len < 2 ^ 31).

(** One more byte of a node *)
Lemma oid_node_byte fuel seq node ch : ld8 m seq = Some ch -> 0 <= seq < len -> 0 <= node < 2 ^ 25 ->
  oid_node (S fuel) m len seq node =
    let node := Z.lor (u32 (Z.shiftl node 7)) (Z.land ch 0x7f) in
    if 0x80 <=? ch then oid_node fuel m len (seq + 1) node else Some (ASN1_ERR_NONE, node, seq + 1).
Proof.
  intros E Hs Hn. cbn [oid_node]. rewrite (proj2 (Z.leb_gt len seq)) by lia. change (Z.shiftr ASN1_MAX_NODE_ID 7) with (2 ^ 25 - 1).
  rewrite (proj2 (Z.ltb_ge _ node)), E by lia. cbn [mbind option_bind]. by rewrite u32_id by (unfold is_u32; lia).
Qed.
Lemma oid_node_more n : forall v seq fuel, 0 <= v < 2 ^ (7 * Z.of_nat n) -> v < 2 ^ 25 -> seen m seq (node_more n v) -> seq + Z.of_nat (length (node_more n v)) <= len ->
  oid_node (length (node_more n v) + fuel) m len seq 0 = oid_node fuel m len (seq + Z.of_nat (length (node_more n v))) v.
Proof.
  induction n as [|n IH]; intros v seq fuel Hv H25 Hseen Hl; cbn [node_more] in *.
  { assert (v = 0) as -> by (change (2 ^ (7 * Z.of_nat 0)) with 1 in Hv; lia). cbn [length]. by rewrite Z.add_0_r. }
  destruct (Z.eqb_spec v 0) as [->|Hv0]; [cbn [length]; by rewrite Z.add_0_r|].
  apply seen_app in Hseen as [H1 [H2 _]%seen_cons]. rewrite length_app in *. cbn [length] in *.
  assert (Hq : 0 <= v / 128 < 2 ^ (7 * Z.of_nat n)).
  { split; [apply Z.div_pos; lia|]. apply Z.div_lt_upper_bound; [lia|]. replace (7 * Z.of_nat (S n)) with (7 + 7 * Z.of_nat n) in Hv by lia.
    rewrite Z.pow_add_r in Hv by lia. lia. }
  pose proof (Z.mul_div_le v 128). rewrite <- Nat.add_assoc, IH by (try done; lia).
  pose proof (Z.mod_pos_bound v 128). cbn [Nat.add]. rewrite (oid_node_byte _ _ _ _ H2); [|destruct H1; lia|lia]. cbv zeta.
  rewrite (proj2 (low7 (v mod 128) ltac:(lia))), node_step, (proj2 (Z.leb_le 0x80 _)) by lia. f_equal. lia.
Qed.
Lemma oid_node_bytes v seq fuel : 0 <= v < 2 ^ 32 -> seen m seq (node_bytes v) -> seq + Z.of_nat (length (node_bytes v)) <= len ->
  (length (node_bytes v) <= fuel)%nat -> oid_node fuel m len seq 0 = Some (ASN1_ERR_NONE, v, seq + Z.of_nat (length (node_bytes v))).
Proof.
  intros Hv Hseen Hl Hf. unfold node_bytes in *. pose proof Hseen as [? _]. apply seen_app in Hseen as [H1 [H2 _]%seen_cons]. rewrite length_app in *. cbn [length] in *.
  assert (0 <= v / 128 < 2 ^ 25) by (split; [apply Z.div_pos; lia|]; apply Z.div_lt_upper_bound; lia).
  replace fuel with (length (node_more 4 (v / 128)) + S (fuel - length (node_more 4 (v / 128)) - 1))%nat by lia.
  pose proof (Z.mod_pos_bound v 128). rewrite oid_node_more; [|change (7 * Z.of_nat 4) with 28; lia|lia|done|lia].
  rewrite (oid_node_byte _ _ _ _ H2); [|lia|lia]. cbv zeta.
  rewrite (proj1 (low7 (v mod 128) ltac:(lia))), node_step, (proj2 (Z.leb_gt 0x80 _)) by lia. do 2 f_equal. lia.
Qed.

(** The nodes behind the first *)
Lemma oid_loop_nodes vs : forall seq fuel oid, Forall (fun v => 0 <= v < 2 ^ 32) vs -> seen m seq (concat (List.map node_bytes vs)) ->
  seq + Z.of_nat (length (concat (List.map node_bytes vs))) <= len -> (length vs < fuel)%nat -> oid <> [] -> (length oid + length vs <= 128)%nat ->
  oid_loop fuel m len (seq + Z.of_nat (length (concat (List.map node_bytes vs)))) seq oid =
    Some (ASN1_ERR_NONE, seq + Z.of_nat (length (concat (List.map node_bytes vs))), oid ++ vs).
Proof.
  induction vs as [|v vs IH]; intros seq fuel oid Hvs Hseen Hl Hf Hne Ho; destruct fuel as [|fuel]; cbn [length] in Hf; try lia; cbn [oid_loop List.map concat] in *.
  { cbn [length]. rewrite Z.add_0_r, Z.ltb_irrefl, app_nil_r. done. }
  assert (Hn : (0 < length (node_bytes v))%nat) by (unfold node_bytes; rewrite length_app; cbn; lia).
  inversion_clear Hvs as [|? ? Hv Hvs']. pose proof Hseen as [? _]. apply seen_app in Hseen as [H1 H2]. rewrite length_app in *. cbn [length] in Ho.
  rewrite (proj2 (Z.ltb_lt seq _)) by lia. cbn [negb]. unfold ASN1_MAX_OID_LEN. rewrite (proj2 (Z.leb_gt 128 _)) by lia.
  rewrite (oid_node_bytes v) by (try done; lia). cbn [mbind option_bind]. change (ASN1_ERR_NONE =? ASN1_ERR_NONE) with true. cbn [negb].
  rewrite (proj2 (Z.eqb_neq _ 0)) by (destruct oid; [done|cbn; lia]). rewrite oid_push_ok by lia. cbn [mbind option_bind].
  replace (seq + Z.of_nat (length (node_bytes v) + length (concat (List.map node_bytes vs)))) with
    (seq + Z.of_nat (length (node_bytes v)) + Z.of_nat (length (concat (List.map node_bytes vs)))) by lia.
  rewrite IH; [by rewrite <- app_assoc|done|done|lia|lia|by destruct oid|rewrite length_app; cbn [length]; lia].
Qed.
End read_oid.

Lemma valid_oid_inv arcs : valid_oid arcs = true -> exists x y rest, arcs = x :: y :: rest /\ 0 <= x <= 2 /\ 0 <= y /\ (x = 2 \/ y < 40) /\ 40 * x + y < 2 ^ 32 /\
  Forall (fun v => 0 <= v < 2 ^ 32) rest /\ (2 + length rest <= 128)%nat.
Proof.
  destruct arcs as [|x [|y rest]]; [done|done|]. unfold valid_oid, ASN1_MAX_OID_LEN. rewrite !andb_true_iff, orb_true_iff. cbn [length].
  intros ((((((H1%Z.leb_le & H2%Z.leb_le) & H3%Z.leb_le) & H4) & H5%Z.ltb_lt) & H6) & H7%Z.leb_le). exists x, y, rest. split_and!; try done; try lia.
  apply Forall_forall. intros v Hv%list_elem_of_In. rewrite List.forallb_forall in H6. specialize (H6 v Hv). lia.
Qed.
Lemma first_node x y : 0 <= x <= 2 -> 0 <= y -> x = 2 \/ y < 40 -> 40 * x + y < 2 ^ 32 ->
  (if 40 * x + y <? 80 then oid ← oid_push [] ((40 * x + y) / 40); oid_push oid ((40 * x + y) mod 40)
   else oid ← oid_push [] 2; oid_push oid (u32 (40 * x + y - 80))) = Some [x; y].
Proof.
  intros Hx Hy Hxy H32. destruct (Z.ltb_spec (40 * x + y) 80).
  - rewrite Z.mul_comm, Z.div_add_l, Z.div_small, Z.add_0_r, Z.add_comm, Z.mod_add, Z.mod_small by lia. done.
  - assert (x = 2) as -> by lia. rewrite u32_id by (unfold is_u32; lia). rewrite oid_push_ok by (cbn; lia). cbn [mbind option_bind].
    rewrite oid_push_ok by (cbn; lia). cbn [app]. do 3 f_equal. lia.
Qed.
Lemma asn1_read_oid_bytes arcs a b : valid_oid arcs = true -> b_len b < 2 ^ 31 -> seen (b_mem b) (b_seq b) (oid_bytes arcs) ->
  length_ a = Z.of_nat (length (oid_bytes arcs)) -> b_seq b + length_ a <= b_len b ->
  asn1_read_oid a b = Some (ASN1_ERR_NONE, b <| b_seq := b_seq b + length_ a |>, arcs).
Proof.
  intros (x & y & rest & -> & Hx & Hy & Hxy & H32 & Hrest & Hn)%valid_oid_inv Hlen Hseen Hla Hl. unfold oid_bytes in *. cbn [oid_nodes List.map concat] in *.
  pose proof (node_bytes_length (40 * x + y)) as Hnb. pose proof (nodes_length rest) as Hnr. pose proof Hseen as [? _]. apply seen_app in Hseen as [H1 H2].
  rewrite length_app in *. unfold asn1_read_oid. rewrite (proj2 (Z.eqb_neq _ 0)), u32_id by (unfold is_u32; lia).
  cbn [oid_loop]. rewrite (proj2 (Z.ltb_lt _ _)) by lia. change (Z.of_nat (length [])) with 0. cbn [negb].
  rewrite (oid_node_bytes (b_mem b) (b_len b) Hlen (40 * x + y)) by (try done; lia). cbn [mbind option_bind]. change (ASN1_ERR_NONE =? ASN1_ERR_NONE) with true. cbn [negb].
  change (ASN1_MAX_OID_LEN <=? 0) with false. change (0 =? 0) with true. cbv beta iota. fold (@mbind option _). rewrite first_node by done. cbn [mbind option_bind].
  rewrite Hla. replace (b_seq b + Z.of_nat (length (node_bytes (40 * x + y)) + length (concat (List.map node_bytes rest)))) with
    (b_seq b + Z.of_nat (length (node_bytes (40 * x + y))) + Z.of_nat (length (concat (List.map node_bytes rest)))) by lia.
  rewrite oid_loop_nodes; [done|done|done|done|lia|lia|done|cbn [length]; lia].
Qed.
Lemma read_int_byte n m seq v c : ld8 m seq = Some c -> 0 <= seq < 2 ^ 31 -> 0 <= v < 2 ^ 23 -> 0 <= c < 256 ->
  read_int (S n) m seq v = read_int n m (seq + 1) (256 * v + c).
Proof.
  intros E Hs Hv Hc. cbn [read_int]. rewrite E. cbn [mbind option_bind]. rewrite u32_id, lor_disjoint_add by (unfold is_u32; lia).
  rewrite s32_id by lia. f_equal. lia.
Qed.
(** The long form, with [count] bytes *)
Lemma asn1_read_length_long count a b v : ld8 (b_mem b) (b_seq b) = Some (0x80 + count) -> 1 <= count <= 4 -> 0 <= b_seq b -> b_len b < 2 ^ 31 ->
  b_seq b + 1 + count < b_len b -> read_int (Z.to_nat count) (b_mem b) (b_seq b + 1) 0 = Some (v, b_seq b + 1 + count) -> 0 <= v ->
  asn1_read_length a b = Some (ASN1_ERR_NONE, a <| length_ := v |>, b <| b_seq := b_seq b + 1 + count |>).
Proof.
  intros E Hc Hs Hlen Hl Hr Hv. unfold asn1_read_length, advance. rewrite (proj2 (Z.leb_gt _ (b_seq b))), E by lia. cbn [mbind option_bind].
  rewrite (proj2 (Z.eqb_neq _ 0x80)), (proj2 (Z.eqb_neq _ 0xff)), (proj2 (Z.ltb_ge _ 0x80)), (proj2 (low7 count ltac:(lia))) by lia. cbv zeta.
  cbn -[Z.add Z.leb Z.ltb u32 read_int ASN1_ERR_NONE]. rewrite (u32_id (b_seq b + 1)), (u32_id (b_seq b + 1 + count)) by (unfold is_u32; lia). rewrite (proj2 (Z.leb_gt _ _)), (proj2 (Z.ltb_ge 4 _)), Hr by lia.
  cbn [mbind option_bind]. by rewrite (proj2 (Z.ltb_ge v 0)) by lia.
Qed.
(** A length in DER, with at least one byte behind it *)
Lemma asn1_read_length_der n a b : 0 < n < 65536 -> b_len b < 2 ^ 31 -> seen (b_mem b) (b_seq b) (der_length n) ->
  b_seq b + Z.of_nat (length (der_length n)) + n <= b_len b ->
  asn1_read_length a b = Some (ASN1_ERR_NONE, a <| length_ := n |>, b <| b_seq := b_seq b + Z.of_nat (length (der_length n)) |>).
Proof.
  intros Hn Hlen Hseen Hl. pose proof Hseen as [Hs _]. unfold der_length in *.
  destruct (Z.ltb_spec n 128); [|destruct (Z.ltb_spec n 256)]; apply seen_cons in Hseen as [E Hseen]; cbn [length] in *.
  - unfold asn1_read_length, advance. rewrite (proj2 (Z.leb_gt _ (b_seq b))), E by lia. cbn [mbind option_bind].
    by rewrite (proj2 (Z.eqb_neq n _)), (proj2 (Z.eqb_neq n _)), (proj2 (Z.ltb_lt n _)), u32_id by (unfold is_u32; lia).
  - apply seen_cons in Hseen as [E1 _]. rewrite (asn1_read_length_long 1 a b n); try done; try lia; [by rewrite <- Z.add_assoc|].
    change (Z.to_nat 1) with 1%nat. rewrite (read_int_byte _ _ _ _ _ E1) by lia. cbn [read_int]. do 2 f_equal; lia.
  - pose proof (Z.mod_pos_bound n 256). pose proof (Z.div_lt_upper_bound n 256 256). pose proof (Z.div_pos n 256). pose proof (Z.div_mod n 256).
    apply seen_cons in Hseen as [E1 [E2 _]%seen_cons]. rewrite (asn1_read_length_long 2 a b n); try done; try lia; [by rewrite <- Z.add_assoc|].
    change (Z.to_nat 2) with 2%nat. rewrite (read_int_byte _ _ _ _ _ E1), (read_int_byte _ _ _ _ _ E2) by lia. cbn [read_int]. do 2 f_equal; lia.
Qed.

(** The header of an element with a tag in one byte *)
Lemma asn1_read_header_der ch n a b : ASN1_GET_TAG ch <> ASN1_TAG_VARYSIZE -> 0 < n < 65536 -> b_len b < 2 ^ 31 -> seen (b_mem b) (b_seq b) (ch :: der_length n) ->
  b_seq b + 1 + Z.of_nat (length (der_length n)) + n <= b_len b ->
  asn1_read_header a b = Some (ASN1_ERR_NONE, Asn1 n (ASN1_GET_CLASS ch) (ASN1_GET_TAG ch) (ASN1_IS_CONSTRUCTED ch), b <| b_seq := b_seq b + 1 + Z.of_nat (length (der_length n)) |>).
Proof.
  intros Ht Hn Hlen Hseen Hl. pose proof Hseen as [Hs _]. apply seen_cons in Hseen as [E Hseen]. destruct a as [l0 c0 t0 k0], b as [m len q].
  unfold asn1_read_header, advance, set, eta_asn1, eta_buf in *. cbn [b_mem b_len b_seq length_ class_ tag constructed] in *.
  rewrite (proj2 (Z.ltb_ge _ 2)), (proj2 (Z.leb_gt _ _)), E by lia. cbn [orb mbind option_bind length_ class_ tag constructed].
  rewrite (proj2 (Z.eqb_neq _ ASN1_TAG_VARYSIZE)), (u32_id (q + 1)) by (try done; unfold is_u32; lia). cbn [mbind option_bind]. rewrite Z.eqb_refl. cbn [negb].
  rewrite (asn1_read_length_der n _ (Buf m len (q + 1))); [|done|done|done|cbn [b_seq b_len]; lia].
  unfold set, eta_asn1, eta_buf. cbn [mbind option_bind length_ class_ tag constructed b_mem b_len b_seq]. rewrite Z.eqb_refl. cbn [negb].
  by rewrite u32_id, (proj2 (Z.ltb_ge _ _)) by (unfold is_u32; lia).
Qed.

(** ** The claims *)

(** C22: on a buffer of bytes with its position inside, every function that reads an
    element returns: no byte outside the data is read, the array of an object identifier
    is not overrun, and the position stays inside and does not go back. *)
Theorem asn1_stays_inside a b : buf_wf b -> b_seq b <= b_len b ->
  inside b (asn1_parse_integer a b) /\ inside b (asn1_parse_enum a b) /\ (forall t, inside b (asn1_parse_string a b t)) /\ inside b (asn1_parse_sequence a b) /\
  inside b (asn1_parse_setseq a b) /\ inside b (asn1_parse_object a b) /\ (exists ret a' b', asn1_parse_bool a b = Some (ret, a', b') /\ onward b b') /\
  exists ret a' b' oid, asn1_parse_oid a b = Some (ret, a', b', oid) /\ onward b b' /\ (length (default [] oid) <= 128)%nat.
Proof.
  intros W Hle. split_and!; try intros t; try (apply parse_with_ok; [done|first [apply asn1_read_integer_ok|apply skip_value_ok|apply stay_value_ok]]);
    [by apply asn1_parse_bool_ok|].
  unfold asn1_parse_oid, parse_with. destruct (asn1_read_header_ok a b W) as (ret & a1 & b1 & -> & Ho & _ & Hn). cbn [mbind option_bind].
  destruct (Z.eqb_spec ret ASN1_ERR_NONE) as [->|]; cbn [negb]; [|do 4 eexists; split_and!; [done|done|cbn; lia]].
  destruct (prim _ a1); cbn [negb]; [|do 4 eexists; split_and!; [done|done|cbn; lia]].
  destruct Hn as (L & _ & H); [done|]. destruct (asn1_read_oid_ok a1 b1 (onward_wf _ _ W Ho) L H) as (ret & b2 & oid & -> & Ho2 & Hlen).
  cbn [mbind option_bind]. do 4 eexists. split_and!; [done|by eapply onward_trans|done].
Qed.

(** C23: an object identifier in DER is read back: asn1_parse_oid gives its arcs and stops
    behind it, for the identifiers of up to 128 arcs whose nodes have 32 bits. *)
Theorem asn1_oid_roundtrip arcs a b : valid_oid arcs = true -> b_len b < 2 ^ 31 -> seen (b_mem b) (b_seq b) (der_oid arcs) ->
  b_seq b + Z.of_nat (length (der_oid arcs)) <= b_len b ->
  asn1_parse_oid a b = Some (ASN1_ERR_NONE, Asn1 (Z.of_nat (length (oid_bytes arcs))) 0 ASN1_TAG_OBJID false,
                             b <| b_seq := b_seq b + Z.of_nat (length (der_oid arcs)) |>, Some arcs).
Proof.
  intros Hv Hlen Hseen Hl. unfold der_oid in *. pose proof Hseen as [Hs _]. cbn [length] in *. rewrite length_app in *.
  set (n := Z.of_nat (length (oid_bytes arcs))) in *.
  assert (Hn : 0 < n < 65536).
  { destruct (valid_oid_inv _ Hv) as (x & y & rest & -> & _ & _ & _ & _ & _ & Hr). unfold n, oid_bytes. cbn [oid_nodes].
    pose proof (nodes_length (40 * x + y :: rest)). cbn [length] in *. lia. }
  rewrite app_comm_cons in Hseen. pose proof Hseen as [_ H2]%seen_app. apply seen_app in Hseen as [H1 _]. cbn [length] in H2.
  unfold asn1_parse_oid, parse_with. rewrite (asn1_read_header_der ASN1_TAG_OBJID n _ _ ltac:(done) Hn Hlen H1) by lia. cbn [mbind option_bind]. rewrite Z.eqb_refl. cbn [negb].
  set (a' := Asn1 _ _ _ _). rewrite (asn1_read_oid_bytes arcs a'); [|exact Hv|exact Hlen| |reflexivity|].
  - cbn [mbind option_bind]. unfold a'. do 3 f_equal. destruct b. unfold set, eta_buf. cbn [b_mem b_len b_seq length_]. f_equal. lia.
  - replace (b_seq b + Z.of_nat (S (length (der_length n)))) with (b_seq b + 1 + Z.of_nat (length (der_length n))) in H2 by lia. exact H2.
  - cbn [b_seq b_len set eta_buf a' length_]. lia.
Qed.

(** sha256WithRSAEncryption, with a byte in front and one behind *)
Definition sha256_rsa : list Z := [1; 2; 840; 113549; 1; 1; 11].
Definition sha256_buf : buf := Buf ([0] ++ der_oid sha256_rsa ++ [0]) 13 1.
Example der_sha256 : der_oid sha256_rsa = [6; 9; 0x2a; 0x86; 0x48; 0x86; 0xf7; 0x0d; 1; 1; 11].
Proof. reflexivity. Qed.
Lemma sha256_buf_wf : buf_wf sha256_buf.
Proof. split; [repeat constructor; done|done|done|vm_compute; done]. Qed.

Lemma asn1_stays_inside_witness : b_seq sha256_buf <= b_len sha256_buf /\ inside sha256_buf (asn1_parse_object (Asn1 0 0 0 false) sha256_buf).
Proof.
  split; [vm_compute; discriminate|].
  apply (asn1_stays_inside (Asn1 0 0 0 false) sha256_buf); [exact sha256_buf_wf|vm_compute; discriminate].
Defined.
Lemma asn1_oid_roundtrip_witness : valid_oid sha256_rsa = true /\
  asn1_parse_oid (Asn1 0 0 0 false) sha256_buf = Some (ASN1_ERR_NONE, Asn1 9 0 ASN1_TAG_OBJID false, sha256_buf <| b_seq := 12 |>, Some sha256_rsa).
Proof.
  split; [reflexivity|].
  apply (asn1_oid_roundtrip sha256_rsa (Asn1 0 0 0 false) sha256_buf); [reflexivity|vm_compute; reflexivity| |vm_compute; discriminate].
  split; [vm_compute; discriminate|]. exists [0]. reflexivity.
Defined.
End Asn1.
