(* ===== verification/Ssl.v ===== *)
(** * The SSL and TLS parser (dpi/parsers/dpi_ssl.c)

    The parser looks at the records of a connection, in both directions, until a record of
    each side is recognised as SSL; then it finalizes the session, and from there on it
    follows the records of TLS up to the first one with application data.  It reports old
    versions of the protocol, the Heartbleed request and the overflow of the cipher list of
    SSLv2.  A handshake that is not encrypted is searched for certificates, which are read
    with Asn1.v; what is found there is only logged, and the log is left out.

    A position in the packet is an offset into the memory [m] of its buffer.  [rec0] and
    [asn0] are what the stack holds where ssl_parser has its record and ssl_parse_x509 its
    element, which the code does not initialise. *)

From S2P Require Import Prelude Helper Bitmap Wire Frag Parser ParserLaw ParserTac Asn1.
Import Helper.Bytes Helper.Seq Wire.Wire Parser.Parser ParserLaw.ParserLaw ParserTac.ParserTac Asn1.Asn1.

Module Ssl.

Definition FORMAT_MATCH : Z := 0.
Definition FORMAT_WRONG : Z := 1.
Definition FORMAT_IGNORE : Z := 2.
Definition FORMAT_DEFER : Z := 3.
Definition SSL_NONE : Z := 0x0000.
Definition SSL_2_2BYTE : Z := 0x0002.
Definition SSL_2_3BYTE : Z := 0x0003.
Definition SSL_2_PCT : Z := 0x0200.
Definition SSL_3_0 : Z := 0x0300.
Definition TLS_1_0 : Z := 0x0301.
Definition TLS_1_1 : Z := 0x0302.
Definition TLS_1_2 : Z := 0x0303.
Definition PCT_CLIENT_HELLO : Z := 1.
Definition SSL3_HS_CLIENT_HELLO : Z := 1.
Definition SSL3_HS_SERVER_HELLO : Z := 2.
Definition SSL3_HS_CERTIFICATE : Z := 11.
Definition SSL2_MSG_ERROR : Z := 0.
Definition SSL2_MSG_CLIENT_HELLO : Z := 1.
Definition SSL2_MSG_CLIENT_MASTER_KEY : Z := 2.
Definition SSL2_MSG_SERVER_HELLO : Z := 4.
Definition SSL3_RT_CHANGE_CIPHER_SPEC : Z := 20.
Definition SSL3_RT_ALERT : Z := 21.
Definition SSL3_RT_HANDSHAKE : Z := 22.
Definition SSL3_RT_APPLICATION_DATA : Z := 23.
Definition SSL3_RT_HEARTBEAT : Z := 24.
Definition SSL3_HBT_REQUEST : Z := 1.
Definition SSL_MIN_RECORD_LEN : Z := 7.
Definition SSL_MAX_RECORD_LEN : Z := 8192.
Definition DPI_THRT_SSL_HEARTBLEED : Z := 14.
Definition DPI_THRT_SSL_CIPHER_OVF : Z := 15.
Definition DPI_THRT_SSL_VER_2OR3 : Z := 16.
Definition DPI_THRT_SSL_TLS_1DOT0 : Z := 17.

Record ssl_record := SslRecord { r_ver : Z; r_len : Z; r_type : Z }.
#[export] Instance eta_ssl_record : Eta ssl_record := fun r => SslRecord (r_ver r) (r_len r) (r_type r).
(** [sw_match]: the field match *)
Record ssl_wing := SslWing { sw_seq : Z; sw_match : bool; encrypted : bool }.
#[export] Instance eta_ssl_wing : Eta ssl_wing := fun x => SslWing (sw_seq x) (sw_match x) (encrypted x).
Record ssl_data := SslData { ssl_client : ssl_wing; ssl_server : ssl_wing; ssl_version : Z }.
#[export] Instance eta_ssl_data : Eta ssl_data := fun x => SslData (ssl_client x) (ssl_server x) (ssl_version x).
Implicit Types (a : asn1) (b : buf) (r : ssl_record) (x : ssl_data).

(** w: a pointer to one of the two wings *)
Definition ssl_w (cl : bool) x : ssl_wing := if cl then ssl_client x else ssl_server x.
Definition ssl_upd (cl : bool) (f : ssl_wing -> ssl_wing) x : ssl_data := if cl then x <| ssl_client ::= f |> else x <| ssl_server ::= f |>.
(** calloc, and the numbers the two sides start from *)
Definition ssl_new (ci si : Z) : ssl_data := SslData (SslWing ci false false) (SslWing si false false) 0.

(** ** Certificates *)

Definition is_string_tag (t : Z) : bool :=
  (t =? ASN1_TAG_NUMSTR) || (t =? ASN1_TAG_TELESTR) || (t =? ASN1_TAG_VIDEOSTR) || (t =? ASN1_TAG_GRASTR) || (t =? ASN1_TAG_VISSTR) ||
  (t =? ASN1_TAG_GENSTR) || (t =? ASN1_TAG_UNIVSTR) || (t =? ASN1_TAG_CHARSTR) || (t =? ASN1_TAG_BMPSTR) || (t =? ASN1_TAG_BITSTR) ||
  (t =? ASN1_TAG_UTF8STR) || (t =? ASN1_TAG_IA5STR) || (t =? ASN1_TAG_OCTSTR) || (t =? ASN1_TAG_PRINTSTR).
(** ret != ASN1_ERR_NONE && ret != ASN1_ERR_LONG *)
Definition fails (ret : Z) : bool := negb (ret =? ASN1_ERR_NONE) && negb (ret =? ASN1_ERR_LONG).

(** while (buf.seq < buf.len): an element whose tag is none of these is entered. *)
Fixpoint x509_subject (fuel : nat) a b (ret : Z) : option Z :=
  match fuel with
  | O => None
  | S fuel =>
      if negb (b_seq b <? b_len b) then Some ret
      else
        '(ret, a, b) ← asn1_read_header a b;
        if negb (ret =? ASN1_ERR_NONE) then Some ret
        else if (tag a =? ASN1_TAG_BOOLEAN) || (tag a =? ASN1_TAG_INTEGER) then
          '(ret, b, _) ← asn1_read_integer a b;
          if fails ret then Some ret else x509_subject fuel a b ret
        else if tag a =? ASN1_TAG_OBJID then
          '(ret, b, _) ← asn1_read_oid a b;
          if fails ret then Some ret else x509_subject fuel a b ret
        else if (tag a =? ASN1_TAG_UTCTIME) || (tag a =? ASN1_TAG_GENTIME) then x509_subject fuel a (advance b (length_ a)) ret
        else if is_string_tag (tag a) then
          let '(ret, b) := asn1_read_string a b in
          if fails ret then Some ret else x509_subject fuel a b ret
        else x509_subject fuel a b ret
  end.

(** signature, issuer, validity: three sequences that are passed over *)
Fixpoint x509_sequences (n : nat) a b : option Z :=
  match n with
  | O => x509_subject (S (Z.to_nat (b_len b - b_seq b))) a b ASN1_ERR_NONE
  | S n =>
      '(ret, a, b, _) ← asn1_parse_sequence a b;
      if negb (ret =? ASN1_ERR_NONE) then Some ret else x509_sequences n a (advance b (length_ a))
  end.
(** serialNumber *)
Definition x509_serial a b : option Z :=
  '(ret, b, _) ← asn1_read_integer a b;
  if fails ret then Some ret else x509_sequences 3 a b.
Definition ssl_parse_x509 (asn0 : asn1) (m : list Z) (len : Z) : option Z :=
  '(ret, a, b, _) ← asn1_parse_sequence asn0 (Buf m len 0);
  if negb (ret =? ASN1_ERR_NONE) then Some ret
  else
    '(ret, a, b, _) ← asn1_parse_sequence a b;
    if negb (ret =? ASN1_ERR_NONE) then Some ret
    else
      '(_, a, b) ← asn1_read_header a b;
      if negb (class_ a =? ASN1_CLASS_CONTEXT) then x509_serial a b
      else
        '(_, a, b) ← asn1_read_header a b;
        '(ret, b, ver) ← asn1_read_integer a b;
        if negb (ret =? ASN1_ERR_NONE) then Some ret
        else
          ver ← ver;
          if 2 <? ver then Some ASN1_ERR_FORMAT
          else '(_, a, b) ← asn1_read_header a b; x509_serial a b.

(** ** Records *)

(** while (ptr < end); a length above rec->len - 4 as unsigned is wrong. *)
Fixpoint handshake_loop (asn0 : asn1) (fuel : nat) (m : list Z) (ptr end_ rlen : Z) : option Z :=
  match fuel with
  | O => None
  | S fuel =>
      if negb (ptr <? end_) then Some FORMAT_MATCH
      else
        type ← ld8 m ptr;
        len ← be24 m (ptr + 1);
        let ptr := ptr + 4 in
        if u32 (rlen - 4) <? len then Some FORMAT_WRONG
        else
          _ ← (if type =? SSL3_HS_CERTIFICATE then
                 cert_len ← be24 m (ptr + 3);
                 ssl_parse_x509 asn0 (drop (Z.to_nat (ptr + 6)) m) cert_len
               else Some ASN1_ERR_NONE);
          handshake_loop asn0 fuel m (ptr + len) end_ rlen
  end.
Definition ssl_parse_handshake_v3 (asn0 : asn1) (m : list Z) (ptr : Z) r : option Z :=
  handshake_loop asn0 (S (Z.to_nat (r_len r))) m ptr (ptr + r_len r) (r_len r).

Section programs.
Context {D E : Type} `{!Obj D ssl_data} (dl : lists (option (@deleter D))) (tc : Z -> threat_conf) (asn0 : asn1) (rec0 : ssl_record).
Abbreviation Ms := (M D E).

Definition upd_data (p : Z) (f : ssl_data -> ssl_data) : Ms unit := x ← deref_as p; store_as p (f x).

(** The record as the function leaves it *)
Definition ssl_parse_v3 (p : Z) (cl : bool) (m : list Z) (ptr : Z) r : Ms (Z * ssl_record) :=
  if r_type r =? SSL3_RT_CHANGE_CIPHER_SPEC then
    upd_data p (ssl_upd cl (fun w => w <| encrypted := true |>));; mret (FORMAT_MATCH, r)
  else if r_type r =? SSL3_RT_HANDSHAKE then
    handshake_type ← rd8 m ptr;
    cli ← is_client;
    let hello := (handshake_type =? SSL3_HS_CLIENT_HELLO) || (handshake_type =? SSL3_HS_SERVER_HELLO) in
    let wrong := if handshake_type =? SSL3_HS_CLIENT_HELLO then negb cli else (handshake_type =? SSL3_HS_SERVER_HELLO) && cli in
    if wrong then mret (FORMAT_WRONG, r)
    else
      r ← (if hello then ver ← lift (be16 m (ptr + 4)); mret (r <| r_ver := ver |>) else mret r);
      x ← deref_as p;
      if encrypted (ssl_w cl x) then mret (FORMAT_MATCH, r)
      else ret ← lift (ssl_parse_handshake_v3 asn0 m ptr r); mret (ret, r)
  else if r_type r =? SSL3_RT_HEARTBEAT then
    t ← rd8 m ptr;
    (if t =? SSL3_HBT_REQUEST then
       hbt_len ← lift (be16 m (ptr + 1));
       if 1024 <? hbt_len - (r_len r - 3) then threat tc DPI_THRT_SSL_HEARTBLEED else skip
     else skip);;
    mret (FORMAT_MATCH, r)
  else mret (FORMAT_MATCH, r).

Definition ssl_parse_v2 (p : Z) (cl : bool) (m : list Z) (ptr len : Z) r : Ms (Z * ssl_record) :=
  t ← rd8 m ptr;
  let r := r <| r_type := t |> in
  if t =? SSL2_MSG_ERROR then mret (FORMAT_MATCH, r)
  else if t =? SSL2_MSG_CLIENT_HELLO then
    ver ← lift (be16 m (ptr + 1));
    let r := r <| r_ver := ver |> in
    if 9 <=? r_len r then
      if s32 len <? 9 then mret (FORMAT_DEFER, r)
      else
        cipher_len ← lift (be16 m (ptr + 3));
        session_id_len ← lift (be16 m (ptr + 5));
        challenge_len ← lift (be16 m (ptr + 7));
        let expect := u16 (r_len r - 9 - session_id_len - challenge_len) in
        if cipher_len =? expect then mret (FORMAT_MATCH, r)
        else if expect <? cipher_len then threat tc DPI_THRT_SSL_CIPHER_OVF;; mret (FORMAT_IGNORE, r)
        else mret (FORMAT_IGNORE, r)
    else mret (FORMAT_WRONG, r)
  else if t =? SSL2_MSG_CLIENT_MASTER_KEY then
    upd_data p (ssl_upd cl (fun w => w <| encrypted := true |>));; mret (FORMAT_MATCH, r)
  else if t =? SSL2_MSG_SERVER_HELLO then
    ver ← lift (be16 m (ptr + 3));
    let r := r <| r_ver := ver |> in
    if 11 <=? r_len r then
      if s32 len <? 11 then mret (FORMAT_DEFER, r)
      else
        cert_len ← lift (be16 m (ptr + 5));
        cipher_len ← lift (be16 m (ptr + 7));
        connection_id_len ← lift (be16 m (ptr + 9));
        let expect := u16 (r_len r - 11 - connection_id_len - cert_len) in
        mret (if cipher_len =? expect then FORMAT_MATCH else FORMAT_IGNORE, r)
    else mret (FORMAT_WRONG, r)
  else mret (FORMAT_WRONG, r).

Definition is_tls (ver : Z) : bool := (ver =? SSL_3_0) || (ver =? TLS_1_0) || (ver =? TLS_1_1) || (ver =? TLS_1_2).

(** GET_BIG_INT16(ptr + 5) == 1 && ...: each is read if the ones before hold *)
Definition pct_hello (m : list Z) (ptr : Z) : option bool :=
  v5 ← be16 m (ptr + 5);
  if negb (v5 =? 1) then Some false
  else
    v7 ← be16 m (ptr + 7);
    if negb (v7 =? 1) then Some false else v9 ← be16 m (ptr + 9); Some ((16 <=? v9) && (v9 <=? 32)).
(** [len] is the uint16_t of the call *)
Definition get_ssl_ver (cli : bool) (m : list Z) (ptr len : Z) : option Z :=
  type ← ld8 m ptr;
  ver ← be16 m (ptr + 1);
  _ ← be16 m (ptr + 3);
  if ((type =? SSL3_RT_CHANGE_CIPHER_SPEC) || (type =? SSL3_RT_ALERT) || (type =? SSL3_RT_HANDSHAKE)) && is_tls ver then Some ver
  else
    b0 ← ld8 m ptr;
    b1 ← ld8 m (ptr + 1);
    if 0x80 <=? b0 then
      let rlen := u16 (Z.shiftl (Z.land b0 0x7f) 8 + b1) in
      type ← ld8 m (ptr + 2);
      ver ← (if type =? SSL2_MSG_SERVER_HELLO then be16 m (ptr + 5) else be16 m (ptr + 3));
      if (ver =? SSL_2_2BYTE) || is_tls ver then
        if ((type =? SSL2_MSG_ERROR) && (rlen =? len - 2)) || (type =? SSL2_MSG_CLIENT_HELLO) || (type =? SSL2_MSG_SERVER_HELLO)
        then Some SSL_2_2BYTE else Some SSL_NONE
      else if (0x0100 <=? ver) && (ver <? 0x0300) && (type =? PCT_CLIENT_HELLO) then
        if (rlen <=? len - 2) && (11 <? len) then pct ← pct_hello m ptr; Some (if pct : bool then SSL_2_PCT else SSL_NONE)
        else Some SSL_NONE
      else Some SSL_NONE
    else
      let rlen := u16 (Z.shiftl (Z.land b0 0x3f) 8 + b1) in
      if negb cli || (rlen =? len - 3) then Some SSL_2_3BYTE else Some SSL_NONE.

(** ** The parser *)

(** rec.type, rec.ver and rec.len from the header of a record of TLS *)
Definition read_record (m : list Z) (ptr : Z) : option ssl_record :=
  type ← ld8 m ptr; ver ← be16 m (ptr + 1); len ← be16 m (ptr + 3); Some (SslRecord ver len type).

(** w->match = true *)
Definition set_match (p : Z) (cl : bool) : Ms unit := upd_data p (ssl_upd cl (fun w => w <| sw_match := true |>)).
(** The part behind the switch: the session is final when both sides have matched. *)
Definition conclude (p : Z) (ignore : bool) : Ms unit :=
  x ← deref_as p;
  if sw_match (ssl_client x) && sw_match (ssl_server x) then
    dpi_finalize_parser dl;;
    if ignore then dpi_ignore_parser else skip
  else skip.

(** A record of a session that is not final; [None] is a return of ssl_parser, otherwise the
    position, the bytes left and the record. *)
Definition first_record (p : Z) (cl : bool) (m : list Z) (ptr len : Z) r : Ms (option (Z * Z * ssl_record)) :=
  cli ← is_client;
  ver ← lift (get_ssl_ver cli m ptr (u16 len));
  if is_tls ver then
    upd_data p (fun x => x <| ssl_version := ver |>);;
    r ← lift (read_record m ptr);
    let ptr := ptr + 5 in
    let len := u32 (len - 5) in
    if SSL_MAX_RECORD_LEN <? r_len r then dpi_ignore_parser;; mret None
    else if len <? r_len r then mret None
    else
      '(ret, r) ← ssl_parse_v3 p cl m ptr r;
      if ret =? FORMAT_WRONG then dpi_fire_parser;; mret None
      else
        (if (ret =? FORMAT_MATCH) || (ret =? FORMAT_IGNORE) then set_match p cl else skip);;
        (if r_ver r =? SSL_3_0 then threat tc DPI_THRT_SSL_VER_2OR3
         else if r_ver r =? TLS_1_0 then threat tc DPI_THRT_SSL_TLS_1DOT0 else skip);;
        conclude p (ret =? FORMAT_IGNORE);;
        mret (Some (ptr, len, r))
  else if ver =? SSL_2_2BYTE then
    upd_data p (fun x => x <| ssl_version := ver |>);;
    l ← lift (be16 m ptr);
    let r := r <| r_len := u16 (l - 0x8000) |> in
    let ptr := ptr + 2 in
    let len := u32 (len - 2) in
    '(ret, r) ← ssl_parse_v2 p cl m ptr len r;
    if ret =? FORMAT_DEFER then mret None
    else if ret =? FORMAT_WRONG then dpi_fire_parser;; mret None
    else
      (if (ret =? FORMAT_MATCH) || (ret =? FORMAT_IGNORE) then set_match p cl else skip);;
      threat tc DPI_THRT_SSL_VER_2OR3;;
      conclude p (ret =? FORMAT_IGNORE);;
      mret (Some (ptr, len, r))
  else dpi_fire_parser;; mret None.

(** A record of a final session *)
Definition next_record (p : Z) (cl : bool) (m : list Z) (ptr len : Z) r : Ms (option (Z * Z * ssl_record)) :=
  x ← deref_as p;
  if ssl_version x =? SSL_2_2BYTE then dpi_ignore_parser;; mret None
  else if is_tls (ssl_version x) then
    r ← lift (read_record m ptr);
    let ptr := ptr + 5 in
    let len := u32 (len - 5) in
    if r_type r =? SSL3_RT_APPLICATION_DATA then dpi_ignore_parser;; mret None
    else if SSL_MAX_RECORD_LEN <? r_len r then dpi_ignore_parser;; mret None
    else if len <? r_len r then mret None
    else
      '(ret, r) ← ssl_parse_v3 p cl m ptr r;
      (if (ret =? FORMAT_WRONG) || (ret =? FORMAT_IGNORE) then dpi_ignore_parser else skip);;
      mret (Some (ptr, len, r))
  else mret (Some (ptr, len, r)).

(** while (len > SSL_MIN_RECORD_LEN) *)
Fixpoint ssl_loop (fuel : nat) (p : Z) (cl : bool) (m : list Z) (ptr len : Z) r : Ms unit :=
  match fuel with
  | O => abort
  | S fuel =>
      if negb (SSL_MIN_RECORD_LEN <? len) then skip
      else
        fin ← dpi_is_parser_final;
        o ← (if negb fin then first_record p cl m ptr len r else next_record p cl m ptr len r);
        match o with
        | None => skip
        | Some (ptr, len, r) =>
            if r_len r <=? len then
              let ptr := ptr + r_len r in
              let len := u32 (len - r_len r) in
              q ← dpi_ptr_2_seq ptr;
              upd_data p (ssl_upd cl (fun w => w <| sw_seq := q |>));;
              dpi_set_asm_seq q;;
              ssl_loop fuel p cl m ptr len r
            else skip
        end
  end.

Definition ssl_parser : Ms unit :=
  with_data true ssl_new (fun p =>
    cl ← is_client;
    x ← deref_as p;
    pos ← seek (sw_seq (ssl_w cl x));
    match pos with
    | None => dpi_fire_parser
    | Some (off, len) =>
        m ← dpi_pkt_ptr;
        ssl_loop (S (Z.to_nat len)) p cl m off len rec0
    end).
Definition ssl_new_session : Ms unit := dpi_hire_parser.

Definition dpi_parser_ssl : parser :=
  Parser (Some ssl_new_session) (Some free) (Some ssl_parser) None None "ssl" IPPROTO_TCP DPI_PARSER_SSL.
End programs.
End Ssl.
