(* ===== verification/SslThm.v ===== *)
(** * What the SSL parser guarantees

    The parser keeps the promises of ParserLaw.v unless a packet holds a certificate message
    whose certificate is longer than the packet; and a session it stays hired for is final
    only with a version, and a record recognised on each side. *)

From S2P Require Import Prelude Helper Bitmap Wire Frag Parser ParserLaw ParserRun ParserTac Asn1 Ssl.
Import Helper.Bytes Helper.Seq Wire.Wire Parser.Parser ParserLaw.ParserLaw ParserTac.ParserTac Asn1.Asn1 Ssl.Ssl.

Module SslThm.

(** ** Certificates *)

(** A value whose length may be that of another element: up to four bytes are read. *)
Lemma read_integer_any a b : buf_wf b -> len_ok a -> b_seq b < 2 ^ 31 -> b_seq b + 4 <= Z.of_nat (length (b_mem b)) ->
  exists ret b' v, asn1_read_integer a b = Some (ret, b', v) /\ buf_wf b' /\ b_mem b' = b_mem b /\ b_len b' = b_len b /\
    (ret = ASN1_ERR_NONE -> b_seq b' <= b_seq b + 4 /\ is_Some v).
Proof.
  intros [Hb Hs Hl Hr] L H31 H4. unfold asn1_read_integer, len_ok, advance in *. destruct (Z.ltb_spec 4 (length_ a)).
  - do 3 eexists. split_and!; [done| |done|done|done]. split; cbn; [done|rewrite u32_id by (unfold is_u32; lia); lia|done|done].
  - destruct (read_int_ok (Z.to_nat (length_ a)) (b_mem b) (b_seq b) 0 Hb) as (v & -> & _); [lia|lia|lia|lia|]. cbn [mbind option_bind].
    do 3 eexists. split_and!; [done| |done|done|]; [split; cbn; [done|lia|done|done]|]. intros _. cbn. split; [lia|done].
Qed.
Lemma parse_sequence_ok a b : buf_wf b -> exists ret a' b', asn1_parse_sequence a b = Some (ret, a', b', tt) /\ onward b b' /\
  (ret = ASN1_ERR_NONE -> len_ok a' /\ b_seq b' + length_ a' <= b_len b').
Proof.
  intros W. unfold asn1_parse_sequence, parse_with. destruct (asn1_read_header_ok a b W) as (ret & a1 & b1 & -> & Ho & _ & Hn). cbn [mbind option_bind].
  destruct (Z.eqb_spec ret ASN1_ERR_NONE) as [->|]; cbn [negb]; [|by do 3 eexists]. destruct (cons_of _ a1); cbn [negb]; [|by do 3 eexists].
  destruct Hn as (L & _ & H); [done|]. do 3 eexists. by split_and!.
Qed.

Lemma x509_subject_ok fuel : forall a b ret, buf_wf b -> b_len b - b_seq b < Z.of_nat fuel -> (0 < fuel)%nat -> is_Some (x509_subject fuel a b ret).
Proof.
  induction fuel as [|fuel IH]; intros a b ret W Hf Hf0; [lia|]. cbn [x509_subject]. destruct (Z.ltb_spec (b_seq b) (b_len b)) as [Hlt|]; cbn [negb]; [|done].
  destruct (asn1_read_header_ok a b W) as (r & a1 & b1 & -> & Ho & _ & Hn). cbn [mbind option_bind].
  destruct (Z.eqb_spec r ASN1_ERR_NONE) as [->|]; cbn [negb]; [|done]. destruct Hn as (L & Hs & Hin); [done|]. pose proof (onward_wf _ _ W Ho) as W1.
  assert (Hrec : forall r b2, onward b1 b2 -> is_Some (x509_subject fuel a1 b2 r)).
  { intros r' b2 Ho2. pose proof (onward_wf _ _ W1 Ho2). destruct Ho as (_ & E1 & _), Ho2 as (_ & E3 & E4). apply IH; [done|lia|lia]. }
  destruct (_ || _).
  - destruct (asn1_read_integer_ok a1 b1 W1 L Hin) as (r & b2 & v & -> & Ho2). cbn [mbind option_bind]. destruct (fails r); [done|by apply Hrec].
  - destruct (_ =? _).
    + destruct (asn1_read_oid_ok a1 b1 W1 L Hin) as (r & b2 & v & -> & Ho2 & _). cbn [mbind option_bind]. destruct (fails r); [done|by apply Hrec].
    + destruct (_ || _); [by apply Hrec, skip_ok|]. destruct (is_string_tag _); [|apply Hrec, onward_refl].
      unfold asn1_read_string. destruct (fails _); [done|by apply Hrec, skip_ok].
Qed.
Lemma x509_sequences_ok n : forall a b, buf_wf b -> is_Some (x509_sequences n a b).
Proof.
  induction n as [|n IH]; intros a b W; cbn [x509_sequences]; [apply x509_subject_ok; [done|lia|lia]|].
  destruct (parse_sequence_ok a b W) as (ret & a1 & b1 & -> & Ho & Hn). cbn [mbind option_bind].
  destruct (Z.eqb_spec ret ASN1_ERR_NONE) as [->|]; cbn [negb]; [|done]. destruct Hn as [L Hin]; [done|]. pose proof (onward_wf _ _ W Ho) as W1.
  apply IH. by apply (onward_wf b1); [|apply skip_ok].
Qed.
Lemma x509_serial_ok a b : buf_wf b -> len_ok a -> b_seq b < 2 ^ 31 -> b_seq b + 4 <= Z.of_nat (length (b_mem b)) -> is_Some (x509_serial a b).
Proof.
  intros W L H31 H4. unfold x509_serial. destruct (read_integer_any a b W L H31 H4) as (ret & b' & v & -> & W' & _). cbn [mbind option_bind].
  destruct (fails ret); [done|by apply x509_sequences_ok].
Qed.
(** A certificate: at most eight bytes behind it are read. *)
Lemma ssl_parse_x509_ok asn0 m len : bytes m -> 0 <= len < 2 ^ 24 -> len + 8 <= Z.of_nat (length m) -> is_Some (ssl_parse_x509 asn0 m len).
Proof.
  intros Hb Hl Hr. unfold ssl_parse_x509. assert (W : buf_wf (Buf m len 0)) by (split; cbn; [done|lia|lia|lia]).
  destruct (parse_sequence_ok asn0 _ W) as (ret & a1 & b1 & -> & Ho1 & Hn1). cbn [mbind option_bind]. pose proof (onward_wf _ _ W Ho1) as W1.
  destruct (Z.eqb_spec ret ASN1_ERR_NONE) as [->|]; cbn [negb]; [|done]. destruct Hn1 as [L1 _]; [done|].
  destruct (parse_sequence_ok a1 b1 W1) as (ret & a2 & b2 & -> & Ho2 & Hn2). cbn [mbind option_bind]. pose proof (onward_wf _ _ W1 Ho2) as W2.
  destruct (Z.eqb_spec ret ASN1_ERR_NONE) as [->|]; cbn [negb]; [|done]. destruct Hn2 as [L2 _]; [done|].
  destruct (asn1_read_header_ok a2 b2 W2) as (r3 & a3 & b3 & -> & Ho3 & L3 & _). cbn [mbind option_bind]. specialize (L3 L2). pose proof (onward_wf _ _ W2 Ho3) as W3.
  assert (H3 : b_mem b3 = m /\ b_len b3 = len /\ b_seq b3 <= len).
  { destruct Ho1 as (? & ? & ?), Ho2 as (? & ? & ?), Ho3 as (? & ? & ?). cbn in *. split_and!; [congruence|lia|lia]. }
  destruct H3 as (Em3 & El3 & Hs3). destruct (negb _); [apply x509_serial_ok; [done|done|lia|rewrite Em3; lia]|].
  destruct (asn1_read_header_ok a3 b3 W3) as (r4 & a4 & b4 & -> & Ho4 & L4 & _). cbn [mbind option_bind]. specialize (L4 L3). pose proof (onward_wf _ _ W3 Ho4) as W4.
  destruct Ho4 as (Em4 & El4 & Hs4). rewrite Em3 in Em4. rewrite El3 in *.
  destruct (read_integer_any a4 b4 W4 L4) as (ret & b5 & v & -> & W5 & Em5 & El5 & Hn5); [lia|rewrite Em4; lia|]. cbn [mbind option_bind].
  destruct (Z.eqb_spec ret ASN1_ERR_NONE) as [->|]; cbn [negb]; [|done]. destruct Hn5 as [Hs5 [ver ->]]; [done|]. cbn [mbind option_bind].
  destruct (2 <? ver); [done|]. destruct (asn1_read_header_ok a4 b5 W5) as (r6 & a6 & b6 & -> & Ho6 & L6 & _). cbn [mbind option_bind].
  pose proof (onward_wf _ _ W5 Ho6) as W6. destruct Ho6 as (Em6 & El6 & Hs6).
  apply x509_serial_ok; [done|by apply L6|lia|rewrite Em6, Em5, Em4; lia].
Qed.

(** ** Handshakes *)

(** In the [len] bytes of the packet: a certificate message, and a certificate in it that
    does not end in the packet *)
Definition long_cert (m : list Z) (len : Z) : Prop :=
  exists o n, 0 <= o < len /\ ld8 m o = Some SSL3_HS_CERTIFICATE /\ be24 m (o + 7) = Some n /\ len < o + 10 + n.

Lemma handshake_loop_ok asn0 fuel m len end_ rlen : bytes m -> len + 10 <= Z.of_nat (length m) -> end_ <= len -> forall ptr, 0 <= ptr -> end_ - ptr < Z.of_nat fuel -> (0 < fuel)%nat ->
  match handshake_loop asn0 fuel m ptr end_ rlen with Some ret => ret = FORMAT_MATCH \/ ret = FORMAT_WRONG | None => long_cert m len end.
Proof.
  intros Hb Hr He. induction fuel as [|fuel IH]; intros ptr Hp Hf Hf0; [lia|]. cbn [handshake_loop].
  destruct (Z.ltb_spec ptr end_) as [Hlt|]; cbn [negb]; [|by left]. destruct (ld8_ok m ptr Hb) as (type & Et & _); [split; lia|]. rewrite Et. cbn [mbind option_bind].
  destruct (be24_ok m (ptr + 1) Hb) as (n & -> & Hn); [split; lia|]. cbn [mbind option_bind]. cbv zeta. destruct (_ <? n); [by right|].
  destruct (Z.eqb_spec type SSL3_HS_CERTIFICATE) as [->|]; cbn [mbind option_bind]; [|apply IH; lia].
  destruct (be24_ok m (ptr + 4 + 3) Hb) as (cl & Ec & Hc); [split; lia|]. rewrite Ec. cbn [mbind option_bind].
  replace (ptr + 4 + 3) with (ptr + 7) in Ec by lia.
  destruct (Z.le_gt_cases (ptr + 10 + cl) len) as [Hfit|Hlong].
  - destruct (ssl_parse_x509_ok asn0 (drop (Z.to_nat (ptr + 4 + 6)) m) cl) as [ret ->]; [by apply Forall_drop|lia|rewrite length_drop; lia|].
    cbn [mbind option_bind]. apply IH; lia.
  - assert (long_cert m len) by (exists ptr, cl; split_and!; [lia|lia|done|done|lia]).
    destruct (ssl_parse_x509 _ _ _); cbn [mbind option_bind]; [|done]. destruct (handshake_loop _ _ _ _ _ _) eqn:El; [|done].
    specialize (IH (ptr + 4 + n) ltac:(lia) ltac:(lia) ltac:(lia)). by rewrite El in IH.
Qed.

(** ** Programs that leave the flags of the session alone *)

Section keeps.
Context {D E : Type}.
Definition keeps {A} (p : M D E A) : Prop := forall w a v, p w = Some (a, v) -> s_flags (sess v) = s_flags (sess w).
Lemma keeps_bind {A B} (p : M D E A) (k : A -> M D E B) : keeps p -> (forall a, keeps (k a)) -> keeps (p ≫= k).
Proof.
  intros Hp Hk w b v. unfold mbind, M_bind. destruct (p w) as [[a u]|] eqn:Ep; [|done]. intros Ek. rewrite (Hk _ _ _ _ Ek). by eapply Hp.
Qed.
Lemma keeps_ret {A} (a : A) : keeps (mret a).
Proof. intros w b v [= _ <-]. done. Qed.
Lemma keeps_lift {A} (o : option A) : keeps (lift o).
Proof. intros w b v. unfold lift. destruct o; cbn; [|done]. by intros [= _ <-]. Qed.
Lemma keeps_get {A} (f : world D E -> A) : keeps (get f).
Proof. intros w b v [= _ <-]. done. Qed.
Lemma keeps_upd (f : world D E -> world D E) : (forall w, s_flags (sess (f w)) = s_flags (sess w)) -> keeps (upd f).
Proof. intros H w b v [= _ <-]. done. Qed.
Lemma keeps_if {A} (c : bool) (p q : M D E A) : keeps p -> keeps q -> keeps (if c then p else q).
Proof. by destruct c. Qed.
Lemma keeps_threat (tc : Z -> threat_conf) idx : keeps (threat tc idx).
Proof.
  unfold threat. cbv zeta. repeat first [apply keeps_if|apply keeps_bind; [|intros ?]|apply keeps_ret|apply keeps_get|by apply keeps_upd].
Qed.
Lemma keeps_wpx {A} H (p : M D E A) Q w : keeps p -> wpx H p Q w -> wpx H p (fun a v => Q a v /\ s_flags (sess v) = s_flags (sess w)) w.
Proof. unfold wpx. intros Hp. destruct (p w) as [[a v]|] eqn:Ep; [|done]. intros HQ. split; [done|by eapply Hp]. Qed.
Context `{!Obj D ssl_data}.
Lemma keeps_store p x : keeps (store_as p x).
Proof. unfold store_as, store, deref. repeat first [apply keeps_bind; [|intros ?]|apply keeps_get|apply keeps_lift|by apply keeps_upd]. Qed.
Lemma keeps_deref p : keeps (deref_as (T := ssl_data) p).
Proof. unfold deref_as, deref. repeat first [apply keeps_bind; [|intros ?]|apply keeps_get|apply keeps_lift]. Qed.
End keeps.
Ltac keep1 := first [apply keeps_if|apply keeps_ret|apply keeps_get|apply keeps_lift|apply keeps_threat|apply keeps_store|apply keeps_deref|by apply keeps_upd|apply keeps_bind; [|intros ?]].
Ltac keep := repeat (cbv zeta beta; keep1).

Section laws.
Context {D E : Type} `{!Obj D ssl_data} (ext_ok : E -> Prop) (shape : Z -> Z -> D -> Prop).
Context (dl : lists (option (@deleter D))) (slack : Z) (tc : Z -> threat_conf) (asn0 : asn1) (rec0 : ssl_record).
Implicit Types (w v : world D E) (x : ssl_data) (r : ssl_record).

Lemma keeps_upd_data p f : keeps (D := D) (E := E) (upd_data p f).
Proof. unfold upd_data. keep. Qed.
Lemma keeps_parse_v3 p cl m ptr r : keeps (D := D) (E := E) (ssl_parse_v3 tc asn0 p cl m ptr r).
Proof. unfold ssl_parse_v3, rd8, is_client. repeat (cbv zeta; first [apply keeps_upd_data|keep1]). Qed.
Lemma keeps_parse_v2 p cl m ptr len r : keeps (D := D) (E := E) (ssl_parse_v2 tc p cl m ptr len r).
Proof. unfold ssl_parse_v2, rd8. repeat (cbv zeta; first [apply keeps_upd_data|keep1]). Qed.

Definition ssl_ok x : Prop := is_u32 (sw_seq (ssl_client x)) /\ is_u32 (sw_seq (ssl_server x)).
(** A session may be final: there is a version, and a record of each side has matched. *)
Definition known x : bool := (is_tls (ssl_version x) || (ssl_version x =? SSL_2_2BYTE)) && sw_match (ssl_client x) && sw_match (ssl_server x).
Lemma known_encrypted cl e x : known (ssl_upd cl (fun s => s <| encrypted := e |>) x) = known x.
Proof. by destruct cl. Qed.
Lemma known_seq cl q x : known (ssl_upd cl (fun s => s <| sw_seq := q |>) x) = known x.
Proof. by destruct cl. Qed.

Context (Hdl : dl_ok dl) (Hsl : 10 <= slack) (Hty : typed_as shape IPPROTO_TCP DPI_PARSER_SSL ssl_ok).
Context (w0 : world D E) (I : inv ext_ok shape dl slack w0) (Hipp : s_ip_proto (sess w0) = IPPROTO_TCP).
Abbreviation st := (st ext_ok shape dl slack).
Abbreviation m := (b_mem (pkt_buffer w0)).
Abbreviation plen := (b_len (pkt_buffer w0)).
Abbreviation wpc := (wpx (long_cert m plen)).
Abbreviation S_ b p x := (st Running DPI_PARSER_SSL w0 b p (Some (inj x))).

Lemma wpc_upd_data b p x f w (Q : unit -> world D E -> Prop) : S_ b p x w -> p <> NULL -> ssl_ok (f x) ->
  (forall v, S_ b p (f x) v -> s_flags (sess v) = s_flags (sess w) -> Q tt v) -> wpc (upd_data p f) Q w.
Proof.
  intros S Hp Hf HQ. eapply wpx_mono; [apply keeps_wpx; [apply keeps_upd_data|]|].
  - unfold upd_data. x1. x1. eapply (wp_wpx _ _ (fun _ v => S_ b p (f x) v)). p1; [by apply (typed_inj _ _ _ _ _ Hty)|done].
  - intros [] v [Sv Hv]. by apply HQ.
Qed.

(** The same object, except for what is encrypted *)
Definition like x x' : Prop := ssl_ok x' /\ ssl_version x' = ssl_version x /\ (forall c, sw_match (ssl_w c x') = sw_match (ssl_w c x)).
Lemma like_refl x : ssl_ok x -> like x x.
Proof. done. Qed.
Lemma like_encrypted cl x : ssl_ok x -> like x (ssl_upd cl (fun s => s <| encrypted := true |>) x).
Proof. intros [? ?]. unfold like. destruct cl; split_and!; try done; by intros []. Qed.
Lemma like_known x x' : like x x' -> known x' = known x.
Proof. intros (_ & E1 & E2). unfold known. by rewrite E1, (E2 true : sw_match (ssl_client _) = _), (E2 false : sw_match (ssl_server _) = _). Qed.

Lemma packet_facts : bytes m /\ 0 <= plen <= DPI_MAX_PKT_LEN /\ plen + 10 <= Z.of_nat (length m).
Proof. destruct (buffer_facts _ _ _ _ _ I) as (? & ? & ? & _). split_and!; [done|lia|lia|lia]. Qed.

Lemma wpc_parse_v3 b p x cl off r w (Q : Z * ssl_record -> world D E -> Prop) :
  S_ b p x w -> p <> NULL -> ssl_ok x -> 0 <= off -> 0 <= r_len r -> off + r_len r <= plen ->
  (forall ret r' x' v, S_ b p x' v -> s_flags (sess v) = s_flags (sess w) -> like x x' -> r_len r' = r_len r -> ret = FORMAT_MATCH \/ ret = FORMAT_WRONG -> Q (ret, r') v) ->
  wpc (ssl_parse_v3 tc asn0 p cl m off r) Q w.
Proof.
  intros S Hp Hx Ho Hr Hin HQ. destruct packet_facts as (Hbm & Hl & Hroom).
  eapply (wpx_mono _ _ (fun a v => (exists x', S_ b p x' v /\ like x x' /\ r_len a.2 = r_len r /\ (a.1 = FORMAT_MATCH \/ a.1 = FORMAT_WRONG)) /\ s_flags (sess v) = s_flags (sess w)));
    [apply keeps_wpx; [apply keeps_parse_v3|]|intros [ret r'] v [(x' & Sv & Hk & Hlr & Hret) Hv]; by eapply HQ].
  pose proof (like_refl x Hx) as Hlike. unfold ssl_parse_v3, rd8. x1.
  { x1. eapply wpc_upd_data; [exact S|done|by apply like_encrypted|]. intros v Sv _. x1. eexists. split_and!; [exact Sv|by apply like_encrypted|done|by left]. }
  x1.
  { x1. x1; [split; lia|]. x1. x1. cbv zeta. x1; [x1; eexists; split_and!; [exact S|done|done|by right]|]. x1.
    assert (Hrest : forall r', r_len r' = r_len r -> wpc (x ← deref_as p; if encrypted (ssl_w cl x) then mret (FORMAT_MATCH, r') else ret ← lift (ssl_parse_handshake_v3 asn0 m off r'); mret (ret, r'))
      (fun a v => exists x', S_ b p x' v /\ like x x' /\ r_len a.2 = r_len r /\ (a.1 = FORMAT_MATCH \/ a.1 = FORMAT_WRONG)) w).
    { intros r' Er. x1. x1. x1; [x1; eexists; split_and!; [exact S|done|done|by left]|]. x1.
      pose proof (handshake_loop_ok asn0 (Datatypes.S (Z.to_nat (r_len r'))) m plen (off + r_len r') (r_len r') Hbm Hroom ltac:(lia) off Ho ltac:(lia) ltac:(lia)) as Hh.
      unfold ssl_parse_handshake_v3. unfold wpx, lift. destruct (handshake_loop _ _ _ _ _ _) as [ret|]; cbn; [|exact Hh]. eexists. split_and!; [exact S|done|done|done]. }
    x1; [x1; x1; [split; lia|]; x1; by apply Hrest|x1; by apply Hrest]. }
  x1; [|x1; eexists; split_and!; [exact S|done|done|by left]].
  x1. x1; [split; lia|]. x1. x1.
  - x1. x1; [split; lia|]. x1; [x1; x1; eexists; split_and!; [eassumption|done|done|by left]|x1; x1; eexists; split_and!; [exact S|done|done|by left]].
  - x1. x1. eexists. split_and!; [exact S|done|done|by left].
Qed.
Lemma wpc_parse_v2 b p x cl off len r w (Q : Z * ssl_record -> world D E -> Prop) :
  S_ b p x w -> p <> NULL -> ssl_ok x -> 0 <= off -> 6 <= len -> off + len = plen ->
  (forall ret r' x' v, S_ b p x' v -> s_flags (sess v) = s_flags (sess w) -> like x x' -> r_len r' = r_len r -> Q (ret, r') v) ->
  wpc (ssl_parse_v2 tc p cl m off len r) Q w.
Proof.
  intros S Hp Hx Ho Hlen Hin HQ. destruct packet_facts as (Hbm & Hl & Hroom). unfold DPI_MAX_PKT_LEN in *.
  eapply (wpx_mono _ _ (fun a v => (exists x', S_ b p x' v /\ like x x' /\ r_len a.2 = r_len r) /\ s_flags (sess v) = s_flags (sess w)));
    [apply keeps_wpx; [apply keeps_parse_v2|]|intros [ret r'] v [(x' & Sv & Hk & Hlr) Hv]; by eapply HQ].
  pose proof (like_refl x Hx) as Hlike. unfold ssl_parse_v2, rd8. x1. x1; [split; lia|]. cbv zeta. rewrite s32_id by lia.
  x1; [x1; by eexists|]. x1.
  { x1. x1; [split; lia|]. x1; [|x1; by eexists]. x1; [x1; by eexists|]. pbool. do 3 (x1; x1; [split; lia|]). x1; [x1; by eexists|]. x1; [x1; x1; x1; by eexists|x1; by eexists]. }
  x1. { x1. eapply wpc_upd_data; [exact S|done|by apply like_encrypted|]. intros v Sv _. x1. eexists. split_and!; [exact Sv|by apply like_encrypted|done]. }
  x1; [|x1; by eexists]. x1. x1; [split; lia|]. x1; [|x1; by eexists]. x1; [x1; by eexists|]. pbool. do 3 (x1; x1; [split; lia|]). x1. by eexists.
Qed.

Lemma pct_hello_ok off : 0 <= off -> off + 11 <= plen -> is_Some (pct_hello m off).
Proof.
  intros Ho Hin. destruct packet_facts as (Hbm & Hl & Hroom). unfold pct_hello.
  destruct (be16_ok m (off + 5) Hbm) as (v5 & -> & _); [split; lia|]. cbn [mbind option_bind]. destruct (negb _); [done|].
  destruct (be16_ok m (off + 7) Hbm) as (v7 & -> & _); [split; lia|]. cbn [mbind option_bind]. destruct (negb _); [done|].
  destruct (be16_ok m (off + 9) Hbm) as (v9 & -> & _); [split; lia|]. done.
Qed.
Lemma get_ssl_ver_ok cli off len : 0 <= off -> SSL_MIN_RECORD_LEN < len -> off + len = plen -> is_Some (get_ssl_ver cli m off (u16 len)).
Proof.
  intros Ho Hlen Hin. destruct packet_facts as (Hbm & Hl & Hroom). unfold SSL_MIN_RECORD_LEN, DPI_MAX_PKT_LEN in *.
  assert (Hu : u16 len <= len) by (unfold u16; apply Z.mod_le; lia).
  assert (R : exists z, get_ssl_ver cli m off (u16 len) = Some z /\ True); [|destruct R as (z & -> & _); done]. unfold get_ssl_ver. do 4 o1; [by o1|].
  do 2 o1.
  - o1. cbn [mbind option_bind]. cbv beta. assert (V : exists y, (if x3 =? SSL2_MSG_SERVER_HELLO then be16 m (off + 5) else Some x1) = Some y /\ is_u16 y).
    { destruct (x3 =? _); [apply be16_ok; [done|split; lia]|by eexists]. }
    destruct V as (y & -> & _). o1; [o1; by o1|]. o1; [|by o1]. o1; [|by o1]. pbool. destruct (pct_hello_ok off) as [pct ->]; [lia|lia|]. by o1.
  - o1; by o1.
Qed.

Lemma read_record_ok off : 0 <= off -> off + 5 <= plen -> exists r, read_record m off = Some r /\ is_u16 (r_len r).
Proof. intros Ho Hin. destruct packet_facts as (Hbm & Hl & Hroom). unfold read_record. oread. done. Qed.

(** What is left of the packet after a record; [None]: the parser returns. *)
Abbreviation settles w x := (is_final w = false \/ known x = true).
Lemma settles_flags w v x x' : s_flags (sess v) = s_flags (sess w) -> known x' = known x -> settles w x -> settles v x'.
Proof. unfold is_final, sess_flag. by intros -> ->. Qed.
(** The parser goes on with the bytes from [off'] on, behind the header it has read, or returns:
    either may come with the parser fired. *)
Definition after_record (p off : Z) (o : option (Z * Z * ssl_record)) v : Prop := exists b x, S_ b p x v /\ ssl_ok x /\ (b = true \/ o <> None -> settles v x) /\
  match o with Some (off', len', r) => off < off' /\ 0 <= len' /\ off' + len' = plen /\ 0 <= r_len r | None => True end.

Definition version_set x : Prop := is_tls (ssl_version x) || (ssl_version x =? SSL_2_2BYTE) = true.
Lemma conclude_ok b p x ign w (Q : unit -> world D E -> Prop) : S_ b p x w -> version_set x -> is_final w = false ->
  (forall b' v, S_ b' p x v -> settles v x -> Q tt v) -> wpc (conclude dl p ign) Q w.
Proof.
  intros S Hv Hf HQ. unfold conclude. x1. x1. x1.
  - pbool. assert (Hk : known x = true) by (unfold known; rewrite Hv; by apply andb_true_iff). x1. x1. x1; x1; (eapply HQ; [eassumption|by right]).
  - x1. eapply HQ; [exact S|by left].
Qed.
Lemma set_match_ok b p x cl w (Q : unit -> world D E -> Prop) : S_ b p x w -> p <> NULL -> ssl_ok x ->
  (forall x' v, S_ b p x' v -> ssl_ok x' -> ssl_version x' = ssl_version x -> s_flags (sess v) = s_flags (sess w) -> Q tt v) -> wpc (set_match p cl) Q w.
Proof.
  intros S Hp Hx HQ. assert (Hx' : ssl_ok (ssl_upd cl (fun s => s <| sw_match := true |>) x)) by (by destruct cl).
  eapply wpc_upd_data; [exact S|done|done|]. intros v Sv Hf. eapply HQ; [exact Sv|done|by destruct cl|done].
Qed.
Lemma wpc_threat b p x idx w (Q : unit -> world D E -> Prop) : S_ b p x w -> (forall v, S_ b p x v -> s_flags (sess v) = s_flags (sess w) -> Q tt v) -> wpc (threat tc idx) Q w.
Proof.
  intros S HQ. eapply (wpx_mono _ _ (fun _ v => S_ b p x v /\ s_flags (sess v) = s_flags (sess w))); [apply keeps_wpx; [apply keeps_threat|]; by x1|].
  intros [] v [Sv Hv]. by apply HQ.
Qed.

Lemma after_fired p x off v : S_ false p x v -> ssl_ok x -> after_record p off None v.
Proof. intros S Hx. exists false, x. split_and!; [done|done|intros [[=]|[]]; done|done]. Qed.
Lemma after_waits b p x off v : S_ b p x v -> ssl_ok x -> settles v x -> after_record p off None v.
Proof. intros S Hx Hs. exists b, x. by split_and!. Qed.
(** Behind the switch, for both kinds of record *)
Lemma first_tail b p x cl ret off off' len r idx w : S_ b p x w -> p <> NULL -> ssl_ok x -> version_set x -> is_final w = false ->
  off < off' -> 0 <= len -> off' + len = plen -> 0 <= r_len r ->
  wpc ((if (ret =? FORMAT_MATCH) || (ret =? FORMAT_IGNORE) then set_match p cl else skip);;
       (if idx =? 0 then skip else threat tc idx);; conclude dl p (ret =? FORMAT_IGNORE);; mret (Some (off', len, r))) (after_record p off) w.
Proof.
  intros S Hp Hx Hv Hf Ho Hlen Hsum Hr. x1.
  assert (Hrest : forall x' v, S_ b p x' v -> ssl_ok x' -> ssl_version x' = ssl_version x -> s_flags (sess v) = s_flags (sess w) ->
    wpc ((if idx =? 0 then skip else threat tc idx);; conclude dl p (ret =? FORMAT_IGNORE);; mret (Some (off', len, r))) (after_record p off) v).
  { intros x' v Sv Hx' Ev Fv. x1. match goal with |- wpx _ _ ?K _ => set (K0 := K) end.
    assert (HK : forall u, S_ b p x' u -> s_flags (sess u) = s_flags (sess w) -> K0 tt u).
    { intros u Su Fu. unfold K0. x1. eapply conclude_ok; [exact Su|unfold version_set; by rewrite Ev| |].
      - unfold is_final, sess_flag in *. by rewrite Fu.
      - intros b' y Sy Hy. x1. exists b', x'. by split_and!. }
    clearbody K0. x1; [x1; by apply HK|]. eapply wpc_threat; [exact Sv|]. intros u Su Fu. apply HK; [done|congruence]. }
  x1; [eapply set_match_ok; [exact S|done|done|]; intros x' v Sv Hx' Ev Fv; by eapply Hrest|x1; by eapply Hrest].
Qed.
Lemma first_record_ok b p x cl off len r w : S_ b p x w -> p <> NULL -> ssl_ok x -> is_final w = false -> 0 <= off -> SSL_MIN_RECORD_LEN < len -> off + len = plen ->
  wpc (first_record dl tc asn0 p cl m off len r) (after_record p off) w.
Proof.
  intros S Hp Hx Hf Ho Hlen Hsum. destruct packet_facts as (Hbm & Hl & Hroom). unfold first_record, SSL_MIN_RECORD_LEN, DPI_MAX_PKT_LEN in *. x1. x1. x1.
  destruct (get_ssl_ver_ok (dpi_is_client_pkt (pk w)) off len) as [ver Ever]; [lia|unfold SSL_MIN_RECORD_LEN; lia|lia|]. apply wp_wpx. eapply wp_lift; [exact Ever|].
  assert (Hset : forall v, S_ b p (x <| ssl_version := ver |>) v -> s_flags (sess v) = s_flags (sess w) -> settles v (x <| ssl_version := ver |>)).
  { intros v _ Fv. left. unfold is_final, sess_flag in *. by rewrite Fv. }
  x1; [|x1].
  - x1. eapply wpc_upd_data; [exact S|done|done|]. intros v Sv Fv. cbv zeta. rewrite u32_id by (unfold is_u32; lia). x1.
    destruct (read_record_ok off) as (r1 & Er & Hr1); [lia|lia|]. apply wp_wpx. eapply wp_lift; [exact Er|]. unfold is_u16 in Hr1.
    x1; [x1; x1; x1; by eapply after_fired|]. x1; [x1; eapply after_waits; [exact Sv|done|by apply Hset]|]. pbool. x1.
    eapply wpc_parse_v3; [exact Sv|done|done|lia|lia|lia|]. intros ret r' x' u Su Fu (Hx' & Ev & _) Elen Hret. cbv beta iota.
    x1; [x1; x1; x1; by eapply after_fired|].
    pose proof (first_tail b p x' cl ret off (off + 5) (len - 5) r' (if r_ver r' =? SSL_3_0 then DPI_THRT_SSL_VER_2OR3 else if r_ver r' =? TLS_1_0 then DPI_THRT_SSL_TLS_1DOT0 else 0) u) as T.
    destruct (r_ver r' =? SSL_3_0); [|destruct (r_ver r' =? TLS_1_0)]; (apply T; [exact Su|done|done| | |lia|lia|lia|lia];
      [unfold version_set; rewrite Ev; cbn; by apply orb_true_iff; left|unfold is_final, sess_flag in *; by rewrite Fu, Fv]).
  - x1. eapply wpc_upd_data; [exact S|done|done|]. intros v Sv Fv. cbv zeta. rewrite u32_id by (unfold is_u32; lia). x1. x1; [split; lia|]. x1.
    set (r1 := r <| r_len := _ |>). assert (Hr1 : 0 <= r_len r1) by (apply Z.mod_pos_bound; lia).
    eapply wpc_parse_v2; [exact Sv|done|done|lia|lia|lia|]. intros ret r' x' u Su Fu (Hx' & Ev & _) Elen. cbv beta iota.
    x1; [x1; eapply after_waits; [exact Su|done|left; unfold is_final, sess_flag in *; by rewrite Fu, Fv]|]. x1; [x1; x1; x1; by eapply after_fired|].
    apply (first_tail b p x' cl ret off (off + 2) (len - 2) r' DPI_THRT_SSL_VER_2OR3 u); [exact Su|done|done| | |lia|lia|lia|lia];
      [unfold version_set; rewrite Ev; cbn; by apply orb_true_iff; right|unfold is_final, sess_flag in *; by rewrite Fu, Fv].
  - x1. x1. x1. by eapply after_fired.
Qed.
Lemma next_record_ok b p x cl off len r w : S_ b p x w -> p <> NULL -> ssl_ok x -> known x = true -> 0 <= off -> SSL_MIN_RECORD_LEN < len -> off + len = plen ->
  wpc (next_record tc asn0 p cl m off len r) (after_record p off) w.
Proof.
  intros S Hp Hx Hk Ho Hlen Hsum. destruct packet_facts as (Hbm & Hl & Hroom). unfold next_record, SSL_MIN_RECORD_LEN, DPI_MAX_PKT_LEN in *. x1. x1.
  x1; [x1; x1; x1; by eapply after_fired|]. x1.
  2:{ unfold known in Hk. rewrite Heqb0, Heqb1 in Hk. done. }
  x1. destruct (read_record_ok off) as (r1 & Er & Hr1); [lia|lia|]. apply wp_wpx. eapply wp_lift; [exact Er|]. unfold is_u16 in Hr1. cbv zeta. rewrite u32_id by (unfold is_u32; lia).
  x1; [x1; x1; x1; by eapply after_fired|]. x1; [x1; x1; x1; by eapply after_fired|]. x1; [x1; eapply after_waits; [exact S|done|by right]|]. pbool. x1.
  eapply wpc_parse_v3; [exact S|done|done|lia|lia|lia|]. intros ret r' x' u Su Fu Hlike Elen Hret. pose proof (like_known _ _ Hlike) as Ek. destruct Hlike as (Hx' & _).
  x1. x1; x1; x1; (do 2 eexists; split_and!; [eassumption|done|by right; rewrite Ek|lia|lia|lia|lia]).
Qed.

(** A session for which the parser is hired is final only with an object that says so. *)
Definition settled w : Prop := bit w DPI_PARSER_SSL = true -> is_final w = true ->
  exists x, heap w !! datum w DPI_PARSER_SSL = Some (inj x) /\ known x = true.
Abbreviation ends_well v := (step ext_ok shape dl slack DPI_PARSER_SSL w0 v /\ settled v).
Lemma ends_fired a od v : st Running DPI_PARSER_SSL w0 false a od v -> ends_well v.
Proof. intros S. split; [by eapply st_done|]. intros Hb. by rewrite (st_bit _ _ _ _ _ _ _ _ _ _ _ S) in Hb. Qed.
Lemma ends_kept b p x v : S_ b p x v -> (b = true -> settles v x) -> ends_well v.
Proof.
  intros S Hs. split; [by eapply st_done|]. intros Hb Hf. rewrite (st_bit _ _ _ _ _ _ _ _ _ _ _ S) in Hb. exists x. split.
  - rewrite (st_datum _ _ _ _ _ _ _ _ _ _ _ S). apply (st_heap _ _ _ _ _ _ _ _ _ _ _ S).
  - destruct (Hs Hb) as [|]; [congruence|done].
Qed.

Lemma ssl_loop_ok fuel : forall b p x cl off len r w, S_ b p x w -> p <> NULL -> ssl_ok x -> settles w x -> 0 <= off -> 0 <= len -> off + len = plen -> (Z.to_nat len < fuel)%nat ->
  wpc (ssl_loop dl tc asn0 fuel p cl m off len r) (fun _ v => ends_well v) w.
Proof.
  induction fuel as [|fuel IH]; intros b p x cl off len r w S Hp Hx Hs Ho Hlen Hsum Hf; [lia|]. cbn [ssl_loop].
  x1; [x1; by eapply ends_kept|]. pbool. x1. x1. x1.
  assert (R : wpc (if negb (is_final w) then first_record dl tc asn0 p cl m off len r else next_record tc asn0 p cl m off len r) (after_record p off) w).
  { destruct (is_final w) eqn:Ef; cbn [negb]; [|by eapply first_record_ok]. destruct Hs as [|Hk]; [congruence|]. by eapply next_record_ok. }
  eapply wpx_mono; [exact R|]. clear R. intros [[[off' len'] r']|] v (b' & x' & Sv & Hx' & Hsv & Ha); [|x1; eapply ends_kept; [exact Sv|by auto]].
  destruct Ha as (Ho' & Hlen' & Hsum' & Hr'). assert (Hs' : settles v x') by (apply Hsv; by right). clear Hsv. rename Hs' into Hsv.
  x1; [|x1; by eapply ends_kept]. pbool. destruct packet_facts as (_ & Hl & _). unfold DPI_MAX_PKT_LEN in *. cbv zeta. rewrite u32_id by (unfold is_u32; lia). x1. x1.
  assert (Hx2 : ssl_ok (ssl_upd cl (fun s => s <| sw_seq := q |>) x')) by (by destruct cl, Hx').
  x1. eapply wpc_upd_data; [exact Sv|done|done|]. intros u Su Fu. x1.
  eapply (wpx_mono _ _ (fun _ y => S_ b' p (ssl_upd cl (fun s => s <| sw_seq := q |>) x') y /\ s_flags (sess y) = s_flags (sess u))).
  { apply keeps_wpx; [by apply keeps_upd|]. x1; done. }
  intros [] y [Sy Fy]. eapply IH; [exact Sy|done|done| |lia|lia|lia|lia].
  eapply settles_flags; [etransitivity; [exact Fy|exact Fu]|apply known_seq|exact Hsv].
Qed.
Lemma ssl_parser_ok b a od : 0 < plen -> slot dl w0 DPI_PARSER_SSL = Some (Some free) -> bit w0 DPI_PARSER_SSL = true -> settled w0 ->
  st Running DPI_PARSER_SSL w0 b a od w0 -> wpc (ssl_parser dl tc asn0 rec0) (fun _ v => ends_well v) w0.
Proof.
  intros Hlen Hslot Hbit Hset S. unfold ssl_parser.
  eapply wpx_with_data; [exact S|exact Hipp|exact Hslot|exact Hty|by split|intros; by eapply ends_fired|]. intros p x v Hp Hx Hv Sv.
  assert (Hs : settles v x).
  { destruct (is_final v) eqn:Ef; [right|by left]. destruct Hv as [[-> ->]|[-> Fv]].
    - destruct (Hset Hbit Ef) as (x' & Hx' & Hk). rewrite (st_datum _ _ _ _ _ _ _ _ _ _ _ Sv), (st_heap _ _ _ _ _ _ _ _ _ _ _ Sv) in Hx'.
      injection Hx' as Hx'. apply (f_equal prj) in Hx'. rewrite !prj_inj in Hx'. by injection Hx' as ->.
    - unfold is_final, sess_flag in Ef. rewrite Fv in Ef. destruct (Hset Hbit Ef) as (x' & Hx' & _).
      rewrite (st_datum _ _ _ _ _ _ _ _ _ _ _ S) in Hx'. pose proof (own_null _ _ _ (inv_own _ _ _ _ _ I)) as Hn. congruence. }
  x1. x1. x1. x1. x1. x1; [x1; by eapply ends_fired|]. x1. x1. eapply ssl_loop_ok; try done; lia.
Qed.
End laws.

(** ** The claim *)

Section claims.
Context {D E : Type} `{!Obj D ssl_data} (ext_ok : E -> Prop) (shape : Z -> Z -> D -> Prop).
Context (dl : lists (option (@deleter D))) (slack : Z) (tc : Z -> threat_conf) (asn0 : asn1) (rec0 : ssl_record).

(** The packet of a session over TCP is the parser's to read: it has data, and the parser is
    hired and being run. *)
Record ssl_called (w : world D E) : Prop := {
  call_dl : dl_ok dl; call_slack : 10 <= slack; call_typed : typed_as shape IPPROTO_TCP DPI_PARSER_SSL ssl_ok;
  call_inv : inv ext_ok shape dl slack w; call_tcp : s_ip_proto (sess w) = IPPROTO_TCP; call_data : 0 < b_len (pkt_buffer w);
  call_cur : cur_parser w = Some DPI_PARSER_SSL; call_slot : slot dl w DPI_PARSER_SSL = Some (Some free);
  call_hired : bit w DPI_PARSER_SSL = true; call_settled : settled w }.

End claims.

(** ** A hello, a certificate that is too long, and one that is read too far *)

Section example.
#[local] Instance obj_ssl : Obj ssl_data ssl_data := {| inj x := x; prj x := Some x; prj_inj _ := eq_refl |}.
Definition ssl_conf : Z -> threat_conf := fun _ => ThreatConf false 0 0 0.
Definition ssl_shape (ipp t : Z) (d : ssl_data) : Prop := ipp = IPPROTO_TCP /\ t = DPI_PARSER_SSL /\ ssl_ok d.
Definition asn_zero : asn1 := Asn1 0 0 0 false.
Definition rec_zero : ssl_record := SslRecord 0 0 0.
Definition ssl_deleters : lists (option (@deleter ssl_data)) :=
  deleters (dpi_parser_setup [dpi_parser_ssl (E := unit) (Lists _ [] [] []) ssl_conf asn_zero rec_zero]).
Lemma ssl_deleters_ok : dl_ok ssl_deleters.
Proof. apply ParserRun.ParserRun.setup_deleters_ok; [repeat constructor; done|]. apply Forall_cons. split; [first [by left|by right]|]. by apply Forall_nil. Qed.

(** A packet of the client *)
Definition tcp_world (l : list Z) : world ssl_data unit :=
  let b := Buf (l ++ replicate 40 0) (Z.of_nat (length l)) 1000 in
  World (Session 0 0 [2; 0; 0] (replicate 20 0) 0 0 6 (Wing 40000 1000 1000 0) (Wing 443 500 500 0) 0 0 0) ∅ tt
    (IoEp ∅ 0 0 false false false false false false) (Packet [] 0 DPI_PKT_FLAG_CLIENT 0 0 0 0 0 0x800 40000 443 6 0 0 0 0 0 0 0 0 0 0 0 [] []) b b false
    (Some DPI_PARSER_SSL) 0 1000 1000 [].
(** A client hello of TLS 1.2, in a record of version 1.0 *)
Definition hello : list Z := [22; 3; 1; 0; 8; 1; 0; 0; 4; 3; 3; 0; 0].
(** A certificate of 16 MB; its signature leads behind the memory *)
Definition long_chain : list Z :=
  [22; 3; 1; 0; 30; 11; 0; 0; 26; 0; 0; 23; 255; 255; 255; 0x30; 0x84; 0; 255; 255; 0; 0x30; 0x84; 0; 255; 254; 0; 2; 1; 5; 0x30; 0x83; 15; 0; 0].

Lemma hello_called : ssl_called (fun _ => True) ssl_shape ssl_deleters 10 (tcp_world hello).
Proof.
  set (w := tcp_world hello).
  assert (Hd : forall t, in_range t -> datum w t = NULL).
  { intros t Ht. unfold datum. change (parser_data (sess w)) with (replicate 20 (0 : Z)).
    destruct (replicate 20 (0 : Z) !! Z.to_nat t) eqn:Et; [|done]. by apply lookup_replicate in Et as [-> _]. }
  assert (Hb : forall t, in_range t -> bit w t = true -> is_Some (slot ssl_deleters w t)).
  { intros t Ht. unfold bit, slot. change (parser_bits (sess w)) with [2; 0; 0 : Z]. unfold in_range, DPI_PARSER_MAX in Ht.
    assert (Hc : t = 0 \/ t = 1 \/ t = 2 \/ t = 3 \/ t = 4 \/ t = 5 \/ t = 6 \/ t = 7 \/ t = 8 \/ t = 9 \/ t = 10 \/ t = 11 \/
      t = 12 \/ t = 13 \/ t = 14 \/ t = 15 \/ t = 16 \/ t = 17 \/ t = 18 \/ t = 19) by lia.
    repeat destruct Hc as [-> | Hc]; try subst t; try done; intros _; eexists; vm_compute; reflexivity. }
  split; [apply ssl_deleters_ok|done| | |done|done|done|vm_compute; reflexivity|vm_compute; reflexivity|done].
  - intros d. split; [intros (_ & _ & H); by exists d|intros (x & -> & H); by split_and!].
  - split; [| |done|done].
    + assert (B : buf_ok 10 (raw w)).
      { split; [|done|vm_compute; done|done|]; cbn [w tcp_world raw b_mem b_len].
        - apply Forall_app. split; [repeat constructor; done|by apply Forall_replicate].
        - rewrite Nat2Z.id, drop_app_length. apply elem_of_replicate. lia. }
      by split.
    + split; try done.
      * intros t Ht H. by rewrite Hd in H.
      * intros t u Ht Hu H. by rewrite Hd in H.
      * intros a [d Ha]. by apply (lookup_empty_Some a d) in Ha.
Qed.
Definition after_hello : world ssl_data unit :=
  match ssl_parser ssl_deleters ssl_conf asn_zero rec_zero (tcp_world hello) with Some (_, v) => v | None => tcp_world [] end.

(** The certificate that is too long is read behind the memory. *)
Example ssl_certificate_overruns : ssl_parser ssl_deleters ssl_conf asn_zero rec_zero (tcp_world long_chain) = None.
Proof. vm_compute. reflexivity. Qed.
(** A certificate of 8 bytes: its headers fail, but the eight bytes behind it are read. *)
Definition cut_cert : list Z := [0x30; 6; 0x30; 4; 0x9f; 255; 255; 255].
Example x509_reads_behind : ssl_parse_x509 asn_zero (cut_cert ++ replicate 7 0) 8 = None /\ is_Some (ssl_parse_x509 asn_zero (cut_cert ++ replicate 8 0) 8).
Proof. split; [vm_compute; reflexivity|vm_compute; by eexists]. Qed.
End example.
End SslThm.
