(* ===== verification/SslFollow.v ===== *)
(** * TLS records of a final session

    Once a session is final, the SSL parser follows the records of a packet one by one: it
    notes the change to encryption, reports a Heartbleed request, and moves the position
    from which the next data is expected behind the last complete record.  [follow] says
    that on records; here the parser is shown to do it on the bytes of the packet. *)

From S2P Require Import Prelude Helper Bitmap Wire Frag Parser ParserLaw ParserRun ParserTac Asn1 Ssl SslThm.
Import Helper.Bytes Helper.Seq Wire.Wire Parser.Parser ParserLaw.ParserLaw ParserTac.ParserTac Asn1.Asn1 Ssl.Ssl SslThm.SslThm.

Module SslFollow.

(** ** Records and their bytes *)

Record tls_record := TlsRecord { t_type : Z; t_version : Z; t_body : list Z }.
Definition put16 (n : Z) : list Z := [n / 256; n mod 256].
Definition record_bytes (r : tls_record) : list Z :=
  t_type r :: put16 (t_version r) ++ put16 (Z.of_nat (length (t_body r))) ++ t_body r.
Definition records_bytes (l : list tls_record) : list Z := concat (List.map record_bytes l).

(** A request of a heartbeat that asks for over 1024 bytes more than it brings *)
Definition heartbleed (r : tls_record) : bool :=
  (t_type r =? SSL3_RT_HEARTBEAT) &&
  match t_body r with
  | c :: h :: l :: _ => (c =? SSL3_HBT_REQUEST) && (1024 <? 256 * h + l - (Z.of_nat (length (t_body r)) - 3))
  | _ => false
  end.

(** Records that end in the packet, of a kind other than handshake and application data,
    with a rest that is too short for a record: the parser wants eight bytes in front of it. *)
Definition plain (r : tls_record) : bool :=
  (0 <=? t_type r) && (t_type r <? 256) && negb (t_type r =? SSL3_RT_HANDSHAKE) && negb (t_type r =? SSL3_RT_APPLICATION_DATA) &&
  (0 <=? t_version r) && (t_version r <? 65536) && (Z.of_nat (length (t_body r)) <=? SSL_MAX_RECORD_LEN) &&
  forallb (fun c => (0 <=? c) && (c <? 256)) (t_body r) && ((3 <=? Z.of_nat (length (t_body r))) || negb (t_type r =? SSL3_RT_HEARTBEAT)).
Fixpoint whole (l : list tls_record) (rest : list Z) : bool :=
  match l with
  | [] => Z.of_nat (length rest) <=? SSL_MIN_RECORD_LEN
  | r :: l' => plain r && (SSL_MIN_RECORD_LEN <? Z.of_nat (length (records_bytes l ++ rest))) && whole l' rest
  end.

Section follow.
Context {D E : Type} `{!Obj D ssl_data} (dl : lists (option (@deleter D))) (tc : Z -> threat_conf) (asn0 : asn1) (rec0 : ssl_record).
Abbreviation Ms := (M D E).
Implicit Types (w v : world D E) (x : ssl_data).

(** What the records mean, from the offset [off] of the packet on *)
Definition react (p : Z) (cl : bool) (r : tls_record) : Ms unit :=
  if t_type r =? SSL3_RT_CHANGE_CIPHER_SPEC then upd_data p (ssl_upd cl (fun s => s <| encrypted := true |>))
  else if heartbleed r then threat tc DPI_THRT_SSL_HEARTBLEED
  else skip.
Fixpoint follow (p : Z) (cl : bool) (l : list tls_record) (off : Z) : Ms unit :=
  match l with
  | [] => skip
  | r :: l =>
      react p cl r;;
      let off := off + Z.of_nat (length (record_bytes r)) in
      q ← dpi_ptr_2_seq off;
      upd_data p (ssl_upd cl (fun s => s <| sw_seq := q |>));;
      dpi_set_asm_seq q;;
      follow p cl l off
  end.

(** The session is final, and the object at [p] has a version of TLS. *)
Definition follows (p : Z) w : Prop := is_final w = true /\ exists x, heap w !! p = Some (inj x) /\ is_tls (ssl_version x) = true.

(** ** Programs that run and keep that *)

Lemma deref_run p w x : heap w !! p = Some (inj x) -> deref_as (E := E) p w = Some (x, w).
Proof. intros Hx. unfold deref_as, deref, mbind, M_bind, get, lift. cbn. rewrite Hx. cbn. by rewrite prj_inj. Qed.

Definition goes {A} (p : Z) (f : Ms A) : Prop := forall w, follows p w -> exists a v, f w = Some (a, v) /\ follows p v /\ pkt_buffer v = pkt_buffer w.
Lemma upd_data_goes p f : (forall x, ssl_version (f x) = ssl_version x) -> goes p (upd_data p f).
Proof.
  intros Hf w (Hfin & x & Hx & Hv). unfold upd_data, deref_as, deref, store_as, store, deref, mbind, M_bind, get, lift, upd. cbn. rewrite Hx. cbn. rewrite prj_inj. cbn. rewrite Hx. cbn.
  do 2 eexists. split_and!; [reflexivity| |done]. split; [exact Hfin|]. exists (f x). split; [apply lookup_insert_eq|by rewrite Hf].
Qed.
Lemma threat_goes p idx : goes p (threat tc idx).
Proof.
  intros w Hw. pose proof Hw as (Hf & x & Hx). unfold threat. cbv zeta. destruct (negb _); [by do 2 eexists|].
  unfold mbind, M_bind, upd, get, upd_sess. destruct (_ || _); cbn; destruct (_ <? _); cbn; do 2 eexists; (split_and!; [reflexivity|split; [exact Hf|by exists x]|done]).
Qed.
Lemma bind_run {A B} (f : Ms A) (k : A -> Ms B) w a v : f w = Some (a, v) -> (f ≫= k) w = k a v.
Proof. unfold mbind, M_bind. by intros ->. Qed.
Lemma goes_bind {A B} p (f : Ms A) (k k' : A -> Ms B) w : goes p f -> follows p w -> (forall a v, follows p v -> k a v = k' a v) -> (f ≫= k) w = (f ≫= k') w.
Proof. intros Hf Hw Hk. destruct (Hf w Hw) as (a & v & E1 & Hv & _). unfold mbind, M_bind. rewrite E1. by apply Hk. Qed.
Lemma react_goes p cl r : goes p (react p cl r).
Proof.
  unfold react. destruct (_ =? _); [apply upd_data_goes; intros; by destruct cl|]. destruct (heartbleed r); [apply threat_goes|]. intros w Hw. by do 2 eexists.
Qed.

(** ** One record *)

Lemma be16_at m o a b : ld8 m o = Some a -> ld8 m (o + 1) = Some b -> 0 <= b < 256 -> be16 m o = Some (256 * a + b).
Proof. intros Ha Hb Hr. unfold be16. rewrite Ha. cbn. rewrite Hb. cbn. rewrite lor_disjoint_add by lia. f_equal. lia. Qed.
Lemma seen16 m o n l : seen m o (put16 n ++ l) -> be16 m o = Some n /\ seen m (o + 2) l.
Proof.
  intros [H1 [H2 H]%seen_cons]%seen_cons. rewrite (be16_at m o _ _ H1 H2) by (apply Z.mod_pos_bound; lia). split.
  - f_equal. pose proof (Z.div_mod n 256). lia.
  - replace (o + 2) with (o + 1 + 1) by lia. done.
Qed.

Lemma plain_inv r : plain r = true -> 0 <= t_type r < 256 /\ t_type r <> SSL3_RT_HANDSHAKE /\ t_type r <> SSL3_RT_APPLICATION_DATA /\ 0 <= t_version r < 65536 /\
  Z.of_nat (length (t_body r)) <= SSL_MAX_RECORD_LEN /\ bytes (t_body r) /\ (t_type r = SSL3_RT_HEARTBEAT -> 3 <= Z.of_nat (length (t_body r))).
Proof.
  unfold plain. rewrite !andb_true_iff, orb_true_iff, !negb_true_iff. intros ((((((((H1 & H2) & H3) & H4) & H5) & H6) & H7) & H8) & H9).
  pbool. split_and!; try done; try lia.
  apply Forall_forall. intros c Hc%list_elem_of_In. rewrite List.forallb_forall in H8. specialize (H8 c Hc). unfold is_u8. lia.
Qed.
Lemma record_bytes_length r : length (record_bytes r) = (5 + length (t_body r))%nat.
Proof. done. Qed.
(** The header of the record and its body, in the memory *)
Lemma seen_record m off r : plain r = true -> seen m off (record_bytes r) ->
  read_record m off = Some (SslRecord (t_version r) (Z.of_nat (length (t_body r))) (t_type r)) /\ seen m (off + 5) (t_body r).
Proof.
  intros Hp Hs. unfold record_bytes in Hs. apply seen_cons in Hs as [H1 Hs]. apply seen16 in Hs as [H2 Hs]. apply seen16 in Hs as [H3 Hs].
  unfold read_record. rewrite H1. cbn. rewrite H2. cbn. replace (off + 3) with (off + 1 + 2) by lia. rewrite H3. cbn. split; [done|].
  replace (off + 5) with (off + 1 + 2 + 2) by lia. done.
Qed.
(** ssl_parse_v3 on it *)
Lemma parse_v3_plain p cl m ptr r rr w : plain r = true -> seen m ptr (t_body r) -> rr = SslRecord (t_version r) (Z.of_nat (length (t_body r))) (t_type r) ->
  ssl_parse_v3 tc asn0 p cl m ptr rr w = (react p cl r;; mret (FORMAT_MATCH, rr)) w.
Proof.
  intros Hp Hs ->. destruct (plain_inv r Hp) as (_ & Hh & _ & _ & _ & Hb & Hbeat). unfold ssl_parse_v3, react. cbn [r_type r_len].
  destruct (t_type r =? SSL3_RT_CHANGE_CIPHER_SPEC); [done|]. rewrite (proj2 (Z.eqb_neq _ SSL3_RT_HANDSHAKE)) by done.
  unfold heartbleed. destruct (Z.eqb_spec (t_type r) SSL3_RT_HEARTBEAT) as [Ht|]; [|done]. specialize (Hbeat Ht). cbn [andb].
  destruct (t_body r) as [|c [|h [|l body]]] eqn:Eb; cbn [length] in Hbeat; try lia.
  apply seen_cons in Hs as [H1 [H2 [H3 _]%seen_cons]%seen_cons]. unfold bytes in Hb. rewrite !Forall_cons in Hb. destruct Hb as (_ & _ & Hl & _). unfold is_u8 in Hl.
  unfold rd8, lift, mbind, M_bind. rewrite H1. cbn [option_bind]. destruct (c =? SSL3_HBT_REQUEST); [|done]. cbn [andb].
  rewrite (be16_at m (ptr + 1) h l H2 H3 Hl). cbn [option_bind]. destruct (_ <? _); [|done]. by destruct (threat tc DPI_THRT_SSL_HEARTBLEED w) as [[]|].
Qed.

(** ** The records of a packet *)

Lemma next_record_plain p cl m off len r rr w : follows p w -> plain r = true -> seen m off (record_bytes r) -> 5 + Z.of_nat (length (t_body r)) <= len < 2 ^ 31 ->
  next_record tc asn0 p cl m off len rr w =
    (react p cl r;; mret (Some (off + 5, len - 5, SslRecord (t_version r) (Z.of_nat (length (t_body r))) (t_type r)))) w.
Proof.
  intros (Hfin & x & Hx & Hv) Hp Hs Hl. destruct (seen_record m off r Hp Hs) as [Er Hbody]. destruct (plain_inv r Hp) as (_ & _ & Hd & _ & Hmax & _).
  unfold next_record, mbind at 1, M_bind at 1. rewrite (deref_run p w x Hx), Hv, Er.
  assert (H2 : (ssl_version x =? SSL_2_2BYTE) = false) by (apply Z.eqb_neq; intros Heq; by rewrite Heq in Hv).
  rewrite H2. unfold lift at 1, mbind at 1, M_bind at 1. cbn [mbind option_bind r_type r_len]. rewrite (proj2 (Z.eqb_neq _ SSL3_RT_APPLICATION_DATA)), (proj2 (Z.ltb_ge SSL_MAX_RECORD_LEN _)) by done.
  rewrite u32_id by (unfold is_u32; lia). rewrite (proj2 (Z.ltb_ge (len - 5) _)) by lia. unfold mbind, M_bind.
  erewrite parse_v3_plain by done. unfold mbind, M_bind. by destruct (react p cl r w) as [[]|].
Qed.
Lemma loop_follows p cl m rest l : forall fuel off len rr w, follows p w -> whole l rest = true -> seen m off (records_bytes l ++ rest) ->
  len = Z.of_nat (length (records_bytes l ++ rest)) -> len < 2 ^ 31 -> (Z.to_nat len < fuel)%nat ->
  ssl_loop dl tc asn0 fuel p cl m off len rr w = follow p cl l off w.
Proof.
  induction l as [|r l IH]; intros fuel off len rr w Hw Hwh Hs El Hl Hf; (destruct fuel as [|fuel]; [lia|]); cbn [ssl_loop whole] in *.
  { rewrite El. cbn [records_bytes List.map concat app]. pbool. by rewrite (proj2 (Z.ltb_ge _ _)) by done. }
  apply andb_true_iff in Hwh as [Hwh Hrest]. apply andb_true_iff in Hwh as [Hp Hmin%Z.ltb_lt]. rewrite <- El in Hmin. rewrite (proj2 (Z.ltb_lt _ len)) by done. cbn [negb].
  change (records_bytes (r :: l)) with (record_bytes r ++ records_bytes l) in *. rewrite <- app_assoc in *. rewrite length_app in El.
  pose proof Hs as [Hs0 Hsr]%seen_app. rewrite record_bytes_length in *. cbn [follow]. rewrite record_bytes_length.
  unfold dpi_is_parser_final, get at 1, mbind at 1, M_bind at 1. rewrite (proj1 Hw). cbn [negb].
  unfold mbind at 1, M_bind at 1. rewrite (next_record_plain p cl m off len r rr w) by (try done; lia).
  destruct (react_goes p cl r w Hw) as ([] & v & Ev & Hv & _). rewrite !(bind_run _ _ _ _ _ Ev). unfold mret, M_ret. cbn [r_len].
  rewrite (proj2 (Z.leb_le _ (len - 5))), u32_id by (try (unfold is_u32); lia).
  replace (off + 5 + Z.of_nat (length (t_body r))) with (off + Z.of_nat (5 + length (t_body r))) by lia.
  apply goes_bind with (p := p); [intros u Hu; by do 2 eexists|done|]. intros q u Hu.
  apply goes_bind with (p := p); [apply upd_data_goes; intros; by destruct cl|done|]. intros [] y Hy.
  apply goes_bind with (p := p); [intros z Hz; by do 2 eexists|done|]. intros [] z Hz.
  apply IH; [done|done|done|lia|lia|lia].
Qed.

(** Where the records end *)
Lemma upd_seq_run p cl q w : follows p w -> exists x, heap w !! p = Some (inj x) /\
  upd_data p (ssl_upd cl (fun s => s <| sw_seq := q |>)) w = Some (tt, w <| heap ::= <[p := inj (ssl_upd cl (fun s => s <| sw_seq := q |>) x)]> |>).
Proof.
  intros (_ & x & Hx & _). exists x. split; [done|]. unfold upd_data, deref_as, deref, store_as, store, deref, mbind, M_bind, get, lift, upd. cbn. rewrite Hx. cbn. rewrite prj_inj. cbn. by rewrite Hx.
Qed.
Definition ends_at (p : Z) (cl : bool) (q : Z) w : Prop :=
  parser_asm_seq w = q /\ exists x, heap w !! p = Some (inj x) /\ sw_seq (ssl_w cl x) = q.
Lemma follow_ends p cl l : forall off w, follows p w -> exists v, follow p cl l off w = Some (tt, v) /\ follows p v /\ pkt_buffer v = pkt_buffer w /\
  (l <> [] -> ends_at p cl (u32 (b_seq (pkt_buffer w) + (off + Z.of_nat (length (records_bytes l))))) v) /\ (l = [] -> v = w).
Proof.
  induction l as [|r l IH]; intros off w Hw; cbn [follow]; [by exists w|].
  destruct (react_goes p cl r w Hw) as ([] & v & Ev & Hv & Bv). rewrite (bind_run _ _ _ _ _ Ev). cbv zeta.
  set (q := u32 (b_seq (pkt_buffer v) + (off + Z.of_nat (length (record_bytes r))))).
  rewrite (bind_run _ _ v q v) by done. destruct (upd_seq_run p cl q v Hv) as (x & Hx & Eu). rewrite (bind_run _ _ _ _ _ Eu).
  set (u := v <| heap ::= _ |>) in *. rewrite (bind_run _ _ u tt (u <| parser_asm_seq := q |>)) by done.
  destruct (IH (off + Z.of_nat (length (record_bytes r))) (u <| parser_asm_seq := q |>)) as (y & Ey & Hy & By & He & Hn).
  { destruct Hv as (Hf & x' & Hx' & Ht). rewrite Hx in Hx'. injection Hx' as Hx'. apply (f_equal prj) in Hx'. rewrite !prj_inj in Hx'. injection Hx' as <-.
    split; [exact Hf|]. exists (ssl_upd cl (fun s => s <| sw_seq := q |>) x). split; [apply lookup_insert_eq|by destruct cl]. }
  exists y. change (pkt_buffer (u <| parser_asm_seq := q |>)) with (pkt_buffer v) in *. rewrite Bv in By. split_and!; [done|done|done| |done]. intros _.
  change (records_bytes (r :: l)) with (record_bytes r ++ records_bytes l). rewrite length_app. destruct l as [|r' l'].
  - rewrite (Hn eq_refl). unfold ends_at. cbn [records_bytes List.map concat length]. rewrite Nat.add_0_r, <- Bv. split; [done|].
    exists (ssl_upd cl (fun s => s <| sw_seq := q |>) x). split; [apply lookup_insert_eq|by destruct cl].
  - rewrite Bv in He. replace (off + Z.of_nat (length (record_bytes r) + length (records_bytes (r' :: l')))) with
      (off + Z.of_nat (length (record_bytes r)) + Z.of_nat (length (records_bytes (r' :: l')))) by lia. by apply He.
Qed.

(** ** The claim *)

(** The data that the side of the packet expects next is at offset [off] of it. *)
Definition expects w x (off : Z) : Prop := let seq := sw_seq (ssl_w (dpi_is_client_pkt (pk w)) x) in
  seq = init_seq (this_wing w) /\ off = 0 \/
  seq <> init_seq (this_wing w) /\ seq = u32 (b_seq (pkt_buffer w) + off) /\ 0 <= off < b_len (pkt_buffer w).
(** A packet of a final session with TLS: the parser being run has its object at [p]. *)
Record tls_packet w (p : Z) (x : ssl_data) (off : Z) : Prop := {
  tp_cur : cur_parser w = Some DPI_PARSER_SSL; tp_data : parser_data (sess w) !! Z.to_nat DPI_PARSER_SSL = Some p; tp_null : p <> NULL;
  tp_obj : heap w !! p = Some (inj x); tp_tls : is_tls (ssl_version x) = true; tp_final : is_final w = true;
  tp_len : 0 <= b_len (pkt_buffer w) <= DPI_MAX_PKT_LEN; tp_expects : expects w x off }.

Lemma seek_expects w x off : expects w x off -> 0 <= b_len (pkt_buffer w) <= DPI_MAX_PKT_LEN ->
  seek (sw_seq (ssl_w (dpi_is_client_pkt (pk w)) x)) w = Some (Some (off, b_len (pkt_buffer w) - off), w).
Proof.
  unfold expects, DPI_MAX_PKT_LEN. intros He Hl. unfold seek, dpi_pkt_len, dpi_is_seq_in_pkt, dpi_pkt_seq, get, mbind, M_bind.
  destruct He as [[-> ->]|(Hne & Hseq & Ho)]; [by rewrite Z.eqb_refl, Z.sub_0_r|]. rewrite (proj2 (Z.eqb_neq _ _)) by done.
  assert (Hd : u32_distance (b_seq (pkt_buffer w)) (sw_seq (ssl_w (dpi_is_client_pkt (pk w)) x)) = off).
  { rewrite Hseq. unfold u32_distance, u32. rewrite Zminus_mod_idemp_l. replace (b_seq (pkt_buffer w) + off - b_seq (pkt_buffer w)) with off by lia. apply Z.mod_small. lia. }
  cbv beta. rewrite Hd, (proj2 (Z.ltb_lt off _)) by lia. rewrite Hd, u32_id by (unfold is_u32; lia). done.
Qed.

End follow.

(** ** An alert and a Heartbleed request *)

Section example.
#[local] Existing Instance obj_ssl.
Definition exchange : list tls_record := [TlsRecord SSL3_RT_ALERT TLS_1_2 [1; 0]; TlsRecord SSL3_RT_HEARTBEAT TLS_1_2 [1; 64; 0; 7]].
Definition exchange_data : ssl_data := SslData (SslWing 2000 true true) (SslWing 900 true true) TLS_1_2.
Definition exchange_world : world ssl_data unit :=
  let l := records_bytes exchange ++ [21; 3; 3] in
  let w := tcp_world l in
  w <| heap := {[7 := exchange_data]} |> <| raw := Buf (l ++ replicate 40 0) (Z.of_nat (length l)) 2000 |>
    <| sess ::= fun s => s <| s_flags := DPI_SESS_FLAG_FINAL_PARSER |> <| parser_data ::= <[1%nat := 7]> |> |>.
Lemma exchange_packet : tls_packet exchange_world 7 exchange_data 0.
Proof. split; try (vm_compute; done). right. split_and!; vm_compute; done. Qed.

End example.
End SslFollow.
