(* ===== verification/Reports.v ===== *)
(** * ctrl.c: reports that leave the data threads

    A data thread hands two kinds of reports to the control thread without a lock: threat
    logs through a ring ([Ring]), and connections through two maps of which one is filled
    while the other is sent ([Connect]).  Both are modelled twice: as the functions of the
    source, and as step relations in which the steps of the threads interleave. *)

From S2P Require Import Prelude Helper RcuMap Wire Frag.
Import Helper.Hash Helper.Bytes Wire.Wire.

(** ** The ring of threat logs *)

Module Ring.
Section ring.
Context {A : Type}.
Implicit Types (log : A).

Definition MAX_LOG_ENTRIES : Z := 128.

(** A slot is [None] while it is being written, and before that. *)
Record ring := MkRing { log_writer : Z; log_reader : Z; log_ring : list (option A) }.
#[export] Instance eta_ring : Eta ring := fun r => MkRing (log_writer r) (log_reader r) (log_ring r).
Definition next (i : Z) : Z := (i + 1) mod MAX_LOG_ENTRIES.
Definition put (i : Z) (x : option A) (r : ring) : ring := r <| log_ring ::= <[Z.to_nat i := x]> |>.
Definition slot (r : ring) (i : Z) : option A := log_ring r !! Z.to_nat i ≫= id.

Definition dp_ctrl_init_ring : ring := MkRing 0 (MAX_LOG_ENTRIES - 1) (replicate (Z.to_nat MAX_LOG_ENTRIES) None).

Definition dp_ctrl_threat_log log (r : ring) : ring * Z :=
  if log_writer r =? log_reader r then (r, -1)
  else
    let r := put (log_writer r) (Some log) r in
    (r <| log_writer ::= next |>, 0).

(** The logs notified, in order; [None] is a slot that holds no log. *)
Fixpoint dp_ctrl_consume_threat_log (fuel : nat) (r : ring) : option (ring * list A) :=
  match fuel with
  | O => None
  | S fuel =>
      if next (log_reader r) =? log_writer r then Some (r, [])
      else
        let r := r <| log_reader ::= next |> in
        a ← slot r (log_reader r);
        '(r, l) ← dp_ctrl_consume_threat_log fuel r;
        Some (r, a :: l)
  end.

(** *** The threads interleaved

    The writer copies the log and then moves log_writer; the reader moves log_reader and
    then sends.  [taken] are the logs the writer has handed over, [sent] those notified;
    [torn] records a send from a slot that is being written. *)

Inductive wpc := WIdle | WCopy (log : A) | WCopied (log : A).
Record rstate := RState { rg : ring; w : wpc; reading : bool; taken : list A; sent : list A; torn : bool }.

Definition start_state : rstate := RState dp_ctrl_init_ring WIdle false [] [] false.

Inductive rstep : rstate -> rstate -> Prop :=
  | w_begin log r rd t s x : log_writer r <> log_reader r ->
      rstep (RState r WIdle rd t s x) (RState (put (log_writer r) None r) (WCopy log) rd t s x)
  | w_copied log r rd t s x :
      rstep (RState r (WCopy log) rd t s x) (RState (put (log_writer r) (Some log) r) (WCopied log) rd t s x)
  | w_commit log r rd t s x :
      rstep (RState r (WCopied log) rd t s x) (RState (r <| log_writer ::= next |>) WIdle rd (t ++ [log]) s x)
  | r_next r pc t s x : next (log_reader r) <> log_writer r ->
      rstep (RState r pc false t s x) (RState (r <| log_reader ::= next |>) pc true t s x)
  | r_send r pc t s x a : slot r (log_reader r) = Some a ->
      rstep (RState r pc true t s x) (RState r pc false t (s ++ [a]) x)
  | r_torn r pc t s x : slot r (log_reader r) = None ->
      rstep (RState r pc true t s x) (RState r pc false t s true).

(** [q]: the logs in the ring that are not being read *)
Record rinv (st : rstate) (cur : option A) (q : list A) : Prop := {
  ri_writer : 0 <= log_writer (rg st) < MAX_LOG_ENTRIES;
  ri_reader : 0 <= log_reader (rg st) < MAX_LOG_ENTRIES;
  ri_len : Z.of_nat (length (log_ring (rg st))) = MAX_LOG_ENTRIES;
  ri_torn : torn st = false;
  ri_count : Z.of_nat (length q) = (log_writer (rg st) - log_reader (rg st) - 1) mod MAX_LOG_ENTRIES;
  ri_slots i a : q !! i = Some a -> slot (rg st) ((log_reader (rg st) + 1 + Z.of_nat i) mod MAX_LOG_ENTRIES) = Some a;
  ri_reading : reading st = true -> exists a, cur = Some a /\ slot (rg st) (log_reader (rg st)) = Some a;
  ri_idle : reading st = false -> cur = None;
  ri_busy : w st <> WIdle -> log_writer (rg st) <> log_reader (rg st);
  ri_copied log : w st = WCopied log -> slot (rg st) (log_writer (rg st)) = Some log;
  ri_fifo : taken st = sent st ++ option_list cur ++ q
}.

Lemma slot_put r i j x :
  0 <= i -> 0 <= j < Z.of_nat (length (log_ring r)) -> slot (put i x r) j = if i =? j then x else slot r j.
Proof.
  intros Hi Hj. unfold slot, put. cbn. destruct (Z.eqb_spec i j) as [->|Hn].
  - rewrite list_lookup_insert_eq by lia. done.
  - rewrite list_lookup_insert_ne by lia. done.
Qed.

Lemma rinv_start : rinv start_state None [].
Proof. by split. Qed.


Lemma rinv_step st st' cur q : rinv st cur q -> rstep st st' -> exists cur' q', rinv st' cur' q'.
Proof.
  intros [Hw Hr Hl Ht Hc Hs Hrd Hri Hb Hcp Hf] Hstep.
  destruct Hstep as [log r rd t s x Hfull|log r rd t s x|log r rd t s x|r pc t s x Hne|r pc t s x a Ha|r pc t s x Ha];
    cbn in *; unfold next, MAX_LOG_ENTRIES in *.
  - exists cur, q. split; cbn; unfold next, MAX_LOG_ENTRIES; try done.
    + by rewrite length_insert.
    + intros i a Hi. rewrite slot_put by ulia. pose proof (lookup_lt_Some _ _ _ Hi).
      destruct (Z.eqb_spec (log_writer r) ((log_reader r + 1 + Z.of_nat i) mod 128)); [ulia|auto].
    + intros E. destruct (Hrd E) as (a & ? & ?). exists a. split; [done|]. rewrite slot_put by ulia.
      destruct (Z.eqb_spec (log_writer r) (log_reader r)); [done|done].
  - assert (log_writer r <> log_reader r) as Hne by (by apply Hb). exists cur, q. split; cbn; unfold next, MAX_LOG_ENTRIES; try done.
    + by rewrite length_insert.
    + intros i a Hi. rewrite slot_put by ulia. pose proof (lookup_lt_Some _ _ _ Hi).
      destruct (Z.eqb_spec (log_writer r) ((log_reader r + 1 + Z.of_nat i) mod 128)); [ulia|auto].
    + intros E. destruct (Hrd E) as (a & ? & ?). exists a. split; [done|]. rewrite slot_put by ulia.
      destruct (Z.eqb_spec (log_writer r) (log_reader r)); [done|done].
    + intros ? [= <-]. rewrite slot_put by ulia. by rewrite Z.eqb_refl.
  - assert (log_writer r <> log_reader r) as Hne by (by apply Hb). exists cur, (q ++ [log]). split; cbn; unfold next, MAX_LOG_ENTRIES; try done.
    + ulia.
    + rewrite length_app. cbn. ulia.
    + intros i a Hi. rewrite lookup_app in Hi. destruct (q !! i) eqn:E; [simplify_eq; by apply Hs|].
      apply lookup_ge_None in E. destruct (i - length q)%nat eqn:Ei; cbn in Hi; [|done]. simplify_eq.
      specialize (Hcp a eq_refl).
      replace ((log_reader r + 1 + Z.of_nat i) mod 128) with (log_writer r) by ulia. done.
    + rewrite Hf, <- !app_assoc. done.
  - assert (cur = None) as -> by auto. destruct q as [|a q]; cbn in Hc; [ulia|].
    exists (Some a), q. split; cbn; unfold next, MAX_LOG_ENTRIES; try done.
    + ulia.
    + ulia.
    + intros i b Hi. specialize (Hs (S i) b Hi).
      replace (((log_reader r + 1) mod 128 + 1 + Z.of_nat i) mod 128) with ((log_reader r + 1 + Z.of_nat (S i)) mod 128) by ulia. done.
    + intros _. exists a. split; [done|]. specialize (Hs 0%nat a eq_refl). by rewrite Z.add_0_r in Hs.
  - destruct (Hrd eq_refl) as (b & -> & Hb'). simplify_eq. exists None, q. split; cbn; unfold next, MAX_LOG_ENTRIES; try done.
    rewrite <- app_assoc. done.
  - destruct (Hrd eq_refl) as (b & -> & Hb'). congruence.
Qed.

Lemma rinv_reachable st : rtc rstep start_state st -> exists cur q, rinv st cur q.
Proof.
  intros H. assert (Hi : exists cur q, rinv start_state cur q) by (eexists _, _; apply rinv_start).
  induction H as [|a b c Hs _ IH]; [done|]. apply IH. destruct Hi as (cur & q & Hi). by eapply rinv_step.
Qed.

(** The functions are runs of these steps. *)
Lemma threat_log_steps log r rd t s x :
  (dp_ctrl_threat_log log r).2 = 0 ->
  rtc rstep (RState r WIdle rd t s x) (RState (dp_ctrl_threat_log log r).1 WIdle rd (t ++ [log]) s x).
Proof.
  unfold dp_ctrl_threat_log. destruct (Z.eqb_spec (log_writer r) (log_reader r)) as [|Hne]; [done|]. intros _. cbn [fst].
  eapply rtc_l; [by apply (w_begin log)|]. eapply rtc_l; [apply w_copied|]. eapply rtc_l; [apply w_commit|].
  unfold put. cbn. rewrite list_insert_insert_eq. done.
Qed.
Lemma consume_steps fuel : forall r r' l pc t s x,
  dp_ctrl_consume_threat_log fuel r = Some (r', l) -> rtc rstep (RState r pc false t s x) (RState r' pc false t (s ++ l) x).
Proof.
  induction fuel as [|fuel IH]; intros r r' l pc t s x; cbn [dp_ctrl_consume_threat_log]; [done|].
  destruct (Z.eqb_spec (next (log_reader r)) (log_writer r)) as [|Hne].
  { intros [= <- <-]. by rewrite app_nil_r. }
  intros (a & Ha & ([r2 l2] & H2 & [= <- <-])%bind_Some)%bind_Some.
  eapply rtc_l; [by apply r_next|]. eapply rtc_l; [by apply r_send|]. replace (s ++ a :: l2) with ((s ++ [a]) ++ l2) by by rewrite <- app_assoc.
  by apply IH.
Qed.
(** With nothing being read, a run of the consumer sends all there is. *)
Lemma consume_all q : forall fuel r pc t s x,
  rinv (RState r pc false t s x) None q -> (length q < fuel)%nat -> exists r', dp_ctrl_consume_threat_log fuel r = Some (r', q).
Proof.
  induction q as [|a q IH]; intros fuel r pc t s x [Hw Hr Hl Ht Hc Hs Hrd Hri Hb Hcp Hf] Hn;
    destruct fuel as [|fuel]; cbn in Hn; try lia; cbn [dp_ctrl_consume_threat_log]; cbn in *; unfold next, MAX_LOG_ENTRIES in *.
  - destruct (Z.eqb_spec ((log_reader r + 1) mod 128) (log_writer r)); [eauto|ulia].
  - destruct (Z.eqb_spec ((log_reader r + 1) mod 128) (log_writer r)) as [|Hne]; [ulia|].
    pose proof (Hs 0%nat a eq_refl) as Ha. rewrite Z.add_0_r in Ha.
    match goal with |- context [slot ?x ?y] => replace (slot x y) with (Some a) by (symmetry; exact Ha) end. cbn [mbind option_bind].
    destruct (IH fuel (r <| log_reader ::= next |>) pc t (s ++ [a]) x) as [r' Hr']; [|lia|].
    + split; cbn; unfold next, MAX_LOG_ENTRIES; try done; [ulia|ulia| |].
      * intros i b Hi. specialize (Hs (S i) b Hi).
        replace (((log_reader r + 1) mod 128 + 1 + Z.of_nat i) mod 128) with ((log_reader r + 1 + Z.of_nat (S i)) mod 128) by ulia. done.
      * rewrite <- app_assoc. done.
    + change (r <| log_reader ::= next |>) with (MkRing (log_writer r) (next (log_reader r)) (log_ring r)) in Hr'.
      unfold next, MAX_LOG_ENTRIES in Hr'. rewrite Hr'. cbn. eauto.
Qed.
End ring.

(** C8: Threat logs reach the controller once, in order and whole, however the steps of the
    data thread and of the control thread interleave: no slot is sent while it is written,
    the logs taken are those sent and those still in the ring, the ring refuses a log only
    when it holds 127, and a run of the consumer sends all that is there. *)
Theorem threat_log_fifo {A : Type} (st : @rstate A) :
  rtc rstep start_state st ->
  torn st = false /\ exists q, taken st = sent st ++ q /\ (length q <= 128)%nat /\
    (reading st = false ->
     (log_writer (rg st) = log_reader (rg st) <-> length q = 127%nat) /\
     exists r, dp_ctrl_consume_threat_log 128 (rg st) = Some (r, q)).
Proof.
  intros (cur & q & I)%rinv_reachable. pose proof I as [Hw Hr _ Ht Hc _ _ Hri _ _ Hf]. unfold MAX_LOG_ENTRIES in *.
  split; [done|]. exists (option_list cur ++ q). split; [done|]. split.
  { rewrite length_app. destruct cur; cbn; ulia. }
  assert (Hq : (length q < 128)%nat) by ulia. intros E. rewrite (Hri E) in *. change (option_list None ++ q) with q. split; [split; intros; ulia|].
  destruct st as [r pc rd t s x]. cbn [rg reading] in *. subst rd. eapply consume_all; [exact I|done].
Qed.
(** A log is taken while the one before it is being read. *)
Definition busy_state : @rstate Z :=
  RState (MkRing 2 0 (<[1%nat := Some 8]> (<[0%nat := Some 7]> (log_ring dp_ctrl_init_ring)))) WIdle true [7; 8] [] false.
Lemma threat_log_fifo_witness :
  rtc rstep start_state busy_state /\ torn busy_state = false /\
  exists q, taken busy_state = sent busy_state ++ q /\ (length q <= 128)%nat /\
    (reading busy_state = false ->
     (log_writer (rg busy_state) = log_reader (rg busy_state) <-> length q = 127%nat) /\
     exists r, dp_ctrl_consume_threat_log 128 (rg busy_state) = Some (r, q)).
Proof.
  assert (H : rtc rstep start_state busy_state).
  { eapply rtc_l; [by apply (w_begin 7)|]. eapply rtc_l; [apply w_copied|]. eapply rtc_l; [apply w_commit|].
    eapply rtc_l; [by apply (w_begin 8)|]. eapply rtc_l; [by apply r_next|]. eapply rtc_l; [apply w_copied|].
    eapply rtc_l; [apply w_commit|]. apply rtc_refl. }
  split; [exact H|]. exact (threat_log_fifo busy_state H).
Defined.
End Ring.

(** ** Connections *)

Module Connect.

(** *** The rate limiter *)

Record dp_rate_limter := RateLimiter { dur : Z; dur_cnt_limit : Z; start : Z; cnt : Z; total_drop : Z; total_pass : Z }.
#[export] Instance eta_rl : Eta dp_rate_limter := fun r =>
  RateLimiter (dur r) (dur_cnt_limit r) (start r) (cnt r) (total_drop r) (total_pass r).

Definition dp_rate_limiter_reset (now dur limit : Z) : dp_rate_limter := RateLimiter dur limit now 0 0 0.
(** [now] is get_current_time() *)
Definition dp_rate_limiter_check (now : Z) (rl : dp_rate_limter) : dp_rate_limter * Z :=
  let rl := if dur rl <? u32 (now - start rl) then rl <| start := now |> <| cnt := 0 |> else rl in
  let rl := rl <| cnt ::= fun n => u32 (n + 1) |> in
  if dur_cnt_limit rl <? cnt rl then (rl <| total_drop ::= fun n => u32 (n + 1) |>, -1)
  else (rl <| total_pass ::= fun n => u32 (n + 1) |>, 0).

(** *** Data *)

Definition DPSESS_FLAG_INGRESS : Z := 0x01.
Definition DPSESS_FLAG_EXTERNAL : Z := 0x08.
Definition DPSESS_FLAG_XFF : Z := 0x10.
Definition DPSESS_FLAG_SVC_EXTIP : Z := 0x20.
Definition DPCONN_FLAG_INGRESS : Z := 0x01.
Definition DPCONN_FLAG_EXTERNAL : Z := 0x02.
Definition DPCONN_FLAG_XFF : Z := 0x04.
Definition DPCONN_FLAG_SVC_EXTIP : Z := 0x08.
Definition DPI_APP_DNS : Z := 1004.
Definition IPPROTO_UDP : Z := 17.
Definition TUNNEL_THRESHOLD : Z := 800.
Definition sizeof_DPMsgSession : Z := 140.

Record DPMsgSession := MkLog {
  l_ID : Z; l_EPMAC : list Z; l_EtherType : Z; l_ClientMAC : list Z; l_ServerMAC : list Z; l_ClientIP : list Z; l_ServerIP : list Z;
  l_ClientPort : Z; l_ServerPort : Z; l_ICMPCode : Z; l_ICMPType : Z; l_IPProto : Z; l_Flags : Z;
  l_ClientPkts : Z; l_ServerPkts : Z; l_ClientBytes : Z; l_ServerBytes : Z;
  l_ClientAsmPkts : Z; l_ServerAsmPkts : Z; l_ClientAsmBytes : Z; l_ServerAsmBytes : Z; l_ClientState : Z; l_ServerState : Z;
  l_Idle : Z; l_Age : Z; l_Life : Z; l_Application : Z; l_ThreatID : Z; l_PolicyId : Z; l_PolicyAction : Z; l_Severity : Z;
  l_XffIP : list Z; l_XffApp : Z; l_XffPort : Z
}.
#[export] Instance eta_log : Eta DPMsgSession := fun l => MkLog
  (l_ID l) (l_EPMAC l) (l_EtherType l) (l_ClientMAC l) (l_ServerMAC l) (l_ClientIP l) (l_ServerIP l)
  (l_ClientPort l) (l_ServerPort l) (l_ICMPCode l) (l_ICMPType l) (l_IPProto l) (l_Flags l)
  (l_ClientPkts l) (l_ServerPkts l) (l_ClientBytes l) (l_ServerBytes l)
  (l_ClientAsmPkts l) (l_ServerAsmPkts l) (l_ClientAsmBytes l) (l_ServerAsmBytes l) (l_ClientState l) (l_ServerState l)
  (l_Idle l) (l_Age l) (l_Life l) (l_Application l) (l_ThreatID l) (l_PolicyId l) (l_PolicyAction l) (l_Severity l)
  (l_XffIP l) (l_XffApp l) (l_XffPort l).
Definition ip0 : list Z := replicate 16 0.
Definition mac0 : list Z := replicate 6 0.
(** memset of a DPMsgSession *)
Definition log0 : DPMsgSession :=
  MkLog 0 mac0 0 mac0 mac0 ip0 ip0 0 0 0 0 0 0 0 0 0 0 0 0 0 0 0 0 0 0 0 0 0 0 0 0 ip0 0 0.

Record DPMsgConnect := MkConn {
  EPMAC : list Z; IPProto : Z; Flags : Z; ServerPort : Z; ClientPort : Z; ClientIP : list Z; ServerIP : list Z;
  EtherType : Z; Bytes : Z; Sessions : Z; FirstSeenAt : Z; LastSeenAt : Z; Application : Z; PolicyAction : Z;
  Severity : Z; PolicyId : Z; Violates : Z; ThreatID : Z
}.
#[export] Instance eta_conn : Eta DPMsgConnect := fun c => MkConn
  (EPMAC c) (IPProto c) (Flags c) (ServerPort c) (ClientPort c) (ClientIP c) (ServerIP c) (EtherType c) (Bytes c)
  (Sessions c) (FirstSeenAt c) (LastSeenAt c) (Application c) (PolicyAction c) (Severity c) (PolicyId c) (Violates c) (ThreatID c).

Record conn4_key := MkKey { pol_id : Z; k_client : Z; k_server : Z; k_port : Z; application : Z; ipproto : Z; ingress : bool }.

(** One data thread: the nodes allocated, the two maps with their counts, the current one *)
Record dp_thread_data := Thread {
  nodes : gmap Z DPMsgConnect; conn4_map : bool -> RcuMap.rcu_map; conn4_map_cnt : bool -> Z;
  conn4_rl : dp_rate_limter; conn4_map_cur : bool
}.
#[export] Instance eta_thread : Eta dp_thread_data := fun t =>
  Thread (nodes t) (conn4_map t) (conn4_map_cnt t) (conn4_rl t) (conn4_map_cur t).
Definition upd {A} (i : bool) (v : A) (f : bool -> A) : bool -> A := fun j => if Bool.eqb j i then v else f j.

Definition ip4_get (m : list Z) : Z := match m with a :: b :: c :: d :: _ => a + b * 2 ^ 8 + c * 2 ^ 16 + d * 2 ^ 24 | _ => 0 end.
Definition ip4_bytes (z : Z) : list Z := [z mod 2 ^ 8; z / 2 ^ 8 mod 2 ^ 8; z / 2 ^ 16 mod 2 ^ 8; z / 2 ^ 24 mod 2 ^ 8].

Definition conn4_match (ns : gmap Z DPMsgConnect) (n : Z) (k : conn4_key) : bool :=
  match ns !! n with
  | None => false
  | Some c =>
      (PolicyId c =? pol_id k) && (ip4_get (ClientIP c) =? k_client k) && (ip4_get (ServerIP c) =? k_server k) &&
      Bool.eqb (FLAGS_TEST (Flags c) DPCONN_FLAG_INGRESS) (ingress k) && (Application c =? application k) &&
      (ServerPort c =? k_port k) && (IPProto c =? ipproto k)
  end.
Definition conn4_hash (k : conn4_key) : Z :=
  u32 (sdbm_hash (ip4_bytes (k_client k)) + sdbm_hash (ip4_bytes (k_server k)) + k_port k + Z.b2z (ingress k) + pol_id k).

(** *** A report

    `key.application` is not set: [junk] is what is on the stack. *)
Definition conn_key (junk : Z) (log : DPMsgSession) : conn4_key :=
  MkKey (l_PolicyId log) (ip4_get (l_ClientIP log)) (ip4_get (l_ServerIP log)) (l_ServerPort log) junk (l_IPProto log)
    (FLAGS_TEST (l_Flags log) DPSESS_FLAG_INGRESS).
Definition dns_port (log : DPMsgSession) : bool :=
  ((l_ServerPort log =? 53) || (l_Application log =? DPI_APP_DNS)).
Definition merge (now : Z) (log : DPMsgSession) (sessions violates : Z) (c : DPMsgConnect) : DPMsgConnect :=
  let last_seen := u32 (now - l_Idle log) in
  let c := c <| Bytes ::= fun b => u32 (b + (l_ClientBytes log + l_ServerBytes log)) |>
             <| Sessions ::= fun n => u32 (n + sessions) |> <| Violates ::= fun n => u32 (n + violates) |> in
  let c := if LastSeenAt c <=? last_seen
           then c <| PolicyAction := l_PolicyAction log |> <| PolicyId := l_PolicyId log |> <| LastSeenAt := last_seen |> else c in
  let c := if Severity c <? l_Severity log then c <| ThreatID := l_ThreatID log |> <| Severity := l_Severity log |> else c in
  if dns_port log && negb (FLAGS_TEST (l_Flags log) DPSESS_FLAG_INGRESS) && (l_IPProto log =? IPPROTO_UDP) &&
     (TUNNEL_THRESHOLD <? l_ClientBytes log)
  then c <| ClientPort := l_ClientPort log |> else c.
Definition new_conn (now : Z) (k : conn4_key) (log : DPMsgSession) (sessions violates : Z) : DPMsgConnect :=
  let seen := u32 (now - l_Idle log) in
  let flag (a b : Z) (f : Z) := if FLAGS_TEST (l_Flags log) a then FLAGS_SET f b else f in
  MkConn (l_EPMAC log) (ipproto k)
    (flag DPSESS_FLAG_SVC_EXTIP DPCONN_FLAG_SVC_EXTIP (flag DPSESS_FLAG_XFF DPCONN_FLAG_XFF
       (flag DPSESS_FLAG_EXTERNAL DPCONN_FLAG_EXTERNAL (flag DPSESS_FLAG_INGRESS DPCONN_FLAG_INGRESS 0))))
    (k_port k)
    (if dns_port log && (l_IPProto log =? IPPROTO_UDP) && (TUNNEL_THRESHOLD <? l_ClientBytes log) then l_ClientPort log else 0)
    (ip4_bytes (k_client k) ++ replicate 12 0) (ip4_bytes (k_server k) ++ replicate 12 0) (l_EtherType log)
    (u32 (l_ClientBytes log + l_ServerBytes log)) (u32 sessions) seen seen (l_Application log) (l_PolicyAction log)
    (l_Severity log) (l_PolicyId log) (u32 violates) (l_ThreatID log).

(** On the map [i] the thread has taken; [alloc]: calloc succeeds.  [None] is an access to a
    node that is not there. *)
Definition report_at (i : bool) (now junk : Z) (alloc : bool) (log : DPMsgSession) (sessions violates : Z) (t : dp_thread_data) :
    option (dp_thread_data * Z) :=
  if l_EtherType log =? ETH_P_IP then
    let k := conn_key junk log in
    let n := RcuMap.rcu_map_lookup (conn4_match (nodes t)) conn4_hash (conn4_map t i) k in
    if negb (n =? NULL) then
      c ← nodes t !! n;
      Some (t <| nodes ::= <[n := merge now log sessions violates c]> |>, sizeof_DPMsgSession)
    else
      let '(rl, r) := dp_rate_limiter_check now (conn4_rl t) in
      let t := t <| conn4_rl := rl |> in
      if (r =? 0) && alloc then
        let n := Frag.malloc (dom (nodes t)) in
        Some (t <| nodes ::= <[n := new_conn now k log sessions violates]> |>
                <| conn4_map ::= upd i (RcuMap.rcu_map_add conn4_hash (conn4_map t i) n k) |>
                <| conn4_map_cnt ::= upd i (u32 (conn4_map_cnt t i + 1)) |>, sizeof_DPMsgSession)
      else Some (t, sizeof_DPMsgSession)
  else Some (t, 0).
Definition dp_ctrl_connect_report (now junk : Z) (alloc : bool) (log : DPMsgSession) (sessions violates : Z) (t : dp_thread_data) :=
  report_at (conn4_map_cur t) now junk alloc log sessions violates t.

(** *** Sending *)

Definition DP_MSG_SIZE : Z := 8192.
Definition sizeof_DPMsgHdr : Z := 4.
Definition sizeof_DPMsgConnectHdr : Z := 4.
Definition sizeof_DPMsgConnect : Z := 80.
Definition CONNECTS_PER_MSG : Z := (DP_MSG_SIZE - sizeof_DPMsgHdr - sizeof_DPMsgConnectHdr) / sizeof_DPMsgConnect.

Definition netify_connects (c : DPMsgConnect) : DPMsgConnect :=
  c <| ServerPort ::= htons |> <| ClientPort ::= htons |> <| EtherType ::= htons |> <| Bytes ::= htonl |> <| Sessions ::= htonl |>
    <| Violates ::= htonl |> <| Application ::= htons |> <| FirstSeenAt ::= htonl |> <| LastSeenAt ::= htonl |>
    <| PolicyId ::= htonl |> <| ThreatID ::= htonl |>.

(** A message: hdr->Length, ch->Connects and the entries that follow *)
Record connects_msg := ConnectsMsg { Length : Z; Connects : Z; entries : list DPMsgConnect }.
Definition send_connects (l : list DPMsgConnect) : connects_msg :=
  let count := Z.of_nat (length l) in
  ConnectsMsg (htons (u16 (sizeof_DPMsgHdr + sizeof_DPMsgConnectHdr + sizeof_DPMsgConnect * count))) (htons (u16 count)) l.

(** The entry [n]: it is put behind [buf] in the message, and deleted. *)
Definition take_node (i : bool) (n : Z) (t : dp_thread_data) : option (DPMsgConnect * dp_thread_data) :=
  c ← nodes t !! n;
  Some (netify_connects c,
        t <| conn4_map ::= upd i (RcuMap.rcu_map_del (conn4_map t i) n).1 |> <| nodes ::= delete n |>).
Definition put_entry (c : DPMsgConnect) (buf : list DPMsgConnect) (msgs : list connects_msg) : list DPMsgConnect * list connects_msg :=
  let buf := buf ++ [c] in
  if Z.of_nat (length buf) =? CONNECTS_PER_MSG then ([], msgs ++ [send_connects buf]) else (buf, msgs).
Definition first_node (i : bool) (t : dp_thread_data) : option Z := RcuMap.node <$> head (RcuMap.map (conn4_map t i)).

Definition dp_ctrl_traffic_log (log : DPMsgSession) : Z := sizeof_DPMsgSession.
(** limit_drop and limit_pass *)
Definition dp_read_conn_stats (t : dp_thread_data) : Z * Z := (total_drop (conn4_rl t), total_pass (conn4_rl t)).

Definition dp_ctrl_init_thread_data (now : Z) : dp_thread_data :=
  Thread ∅ (fun _ => RcuMap.rcu_map_init 0) (fun _ => 0) (dp_rate_limiter_reset now 2 400) false.

(** *** The threads interleaved

    A data thread reports inside a read-side section of RCU (dpi_recv_packet, dpi_timeout):
    it reads conn4_map_cur and then works on the map it got.  The control thread goes over
    the data threads, switches the current map of one, waits for the grace period and sends
    what the other map holds.  [old]: the section began before the switch; synchronize_rcu
    returns when no such section is left. *)

Inductive dpc := DOut | DIn (old : bool) (held : option bool).
Inductive cpc := CIdle | CLoop (k : nat) | CWait (k : nat) (i : bool) | CDrain (k : nat) (i : bool).
Inductive quantity := QBytes | QSessions | QViolates.
Definition amount (q : quantity) (c : DPMsgConnect) : Z :=
  match q with QBytes => Bytes c | QSessions => Sessions c | QViolates => Violates c end.
Definition given (q : quantity) (log : DPMsgSession) (sessions violates : Z) : Z :=
  match q with QBytes => l_ClientBytes log + l_ServerBytes log | QSessions => sessions | QViolates => violates end.

(** [acc]: what the reports that were not refused add up to *)
Record cstate := CState {
  ths : list (dp_thread_data * dpc); ctl : cpc; buf : list DPMsgConnect; msgs : list connects_msg; acc : quantity -> Z; fault : bool
}.

(** An IPv4 report that finds its entry, or passes the limiter and gets memory *)
Definition accepted (i : bool) (now junk : Z) (alloc : bool) (log : DPMsgSession) (t : dp_thread_data) : bool :=
  (l_EtherType log =? ETH_P_IP) &&
  (negb (RcuMap.rcu_map_lookup (conn4_match (nodes t)) conn4_hash (conn4_map t i) (conn_key junk log) =? NULL) ||
   ((dp_rate_limiter_check now (conn4_rl t)).2 =? 0) && alloc).

Definition mark (x : dp_thread_data * dpc) : dp_thread_data * dpc :=
  (x.1, match x.2 with DIn _ h => DIn true h | DOut => DOut end).
Definition is_old (pc : dpc) : bool := match pc with DIn true _ => true | _ => false end.
Definition switch (t : dp_thread_data) : dp_thread_data := t <| conn4_map_cur ::= negb |>.

Inductive cstep : cstate -> cstate -> Prop :=
  | d_lock k t l c b m a x : l !! k = Some (t, DOut) -> cstep (CState l c b m a x) (CState (<[k := (t, DIn false None)]> l) c b m a x)
  | d_begin k t o l c b m a x : l !! k = Some (t, DIn o None) ->
      cstep (CState l c b m a x) (CState (<[k := (t, DIn o (Some (conn4_map_cur t)))]> l) c b m a x)
  | d_report k t t' o i now junk alloc log sn vn r l c b m a x :
      l !! k = Some (t, DIn o (Some i)) -> report_at i now junk alloc log sn vn t = Some (t', r) ->
      cstep (CState l c b m a x)
        (CState (<[k := (t', DIn o None)]> l) c b m
           (fun q => a q + if accepted i now junk alloc log t then given q log sn vn else 0) x)
  | d_fault k t o i now junk alloc log sn vn l c b m a x :
      l !! k = Some (t, DIn o (Some i)) -> report_at i now junk alloc log sn vn t = None ->
      cstep (CState l c b m a x) (CState l c b m a true)
  | d_unlock k t o l c b m a x : l !! k = Some (t, DIn o None) -> cstep (CState l c b m a x) (CState (<[k := (t, DOut)]> l) c b m a x)
  | c_start l b m a x : cstep (CState l CIdle b m a x) (CState l (CLoop 0) b m a x)
  | c_skip k t pc l b m a x : l !! k = Some (t, pc) -> conn4_map_cnt t (conn4_map_cur t) = 0 ->
      cstep (CState l (CLoop k) b m a x) (CState l (CLoop (S k)) b m a x)
  | c_switch k t pc l b m a x : l !! k = Some (t, pc) -> conn4_map_cnt t (conn4_map_cur t) <> 0 ->
      cstep (CState l (CLoop k) b m a x) (CState (mark <$> <[k := (switch t, pc)]> l) (CWait k (conn4_map_cur t)) b m a x)
  | c_grace k i l b m a x : Forall (fun y => is_old y.2 = false) l ->
      cstep (CState l (CWait k i) b m a x) (CState l (CDrain k i) b m a x)
  | c_take k i n t t' pc e l b m a x : l !! k = Some (t, pc) -> first_node i t = Some n -> take_node i n t = Some (e, t') ->
      cstep (CState l (CDrain k i) b m a x)
        (CState (<[k := (t', pc)]> l) (CDrain k i) (put_entry e b m).1 (put_entry e b m).2 a x)
  | c_fault k i n t pc l b m a x : l !! k = Some (t, pc) -> first_node i t = Some n -> take_node i n t = None ->
      cstep (CState l (CDrain k i) b m a x) (CState l (CDrain k i) b m a true)
  | c_done k i t pc l b m a x : l !! k = Some (t, pc) -> first_node i t = None ->
      cstep (CState l (CDrain k i) b m a x) (CState (<[k := (t <| conn4_map_cnt ::= upd i 0 |>, pc)]> l) (CLoop (S k)) b m a x)
  | c_finish k l b m a x : l !! k = None ->
      cstep (CState l (CLoop k) b m a x)
        (CState l CIdle [] (if 0 <? Z.of_nat (length b) then m ++ [send_connects b] else m) a x).

Definition start_state (nows : list Z) : cstate :=
  CState ((fun now => (dp_ctrl_init_thread_data now, DOut)) <$> nows) CIdle [] [] (fun _ => 0) false.

(** *** The invariant *)

Definition map_nodes (i : bool) (t : dp_thread_data) : list Z := RcuMap.node <$> RcuMap.map (conn4_map t i).
Record tinv (t : dp_thread_data) : Prop := {
  ti_nodup : NoDup (map_nodes true t ++ map_nodes false t);
  ti_nodes n : n ∈ map_nodes true t ++ map_nodes false t <-> is_Some (nodes t !! n);
  ti_pos n : is_Some (nodes t !! n) -> 0 < n;
  ti_offset i : RcuMap.offset (conn4_map t i) = 0;
  ti_u32 n c q : nodes t !! n = Some c -> is_u32 (amount q c)
}.
Definition total (q : quantity) (t : dp_thread_data) : Z := map_fold (fun _ c s => amount q c + s) 0 (nodes t).

Lemma total_add q t n c : nodes t !! n = None -> total q (t <| nodes ::= <[n := c]> |>) = amount q c + total q t.
Proof. intros H. unfold total. cbn. rewrite map_fold_insert_L; [done| |done]. intros. lia. Qed.
Lemma total_take q t n c : nodes t !! n = Some c -> total q t = amount q c + total q (t <| nodes ::= delete n |>).
Proof. intros H. unfold total. cbn. rewrite (map_fold_delete_L _ _ n c); [done| |done]. intros. lia. Qed.
Lemma total_replace q t n c c' :
  nodes t !! n = Some c -> total q (t <| nodes ::= <[n := c']> |>) = total q t - amount q c + amount q c'.
Proof.
  intros H. rewrite (total_take q t n c H). unfold total. cbn.
  rewrite <- insert_delete_eq, map_fold_insert_L; [lia|intros; lia|apply lookup_delete_eq].
Qed.

Definition all_nodes (t : dp_thread_data) : list Z := map_nodes true t ++ map_nodes false t.
Lemma all_nodes_elem i n t : n ∈ map_nodes i t -> n ∈ all_nodes t.
Proof. intros H. apply elem_of_app. destruct i; [by left|by right]. Qed.

Lemma lookup_node t i k n :
  tinv t -> RcuMap.rcu_map_lookup (conn4_match (nodes t)) conn4_hash (conn4_map t i) k = n -> n <> NULL -> is_Some (nodes t !! n).
Proof.
  intros T. unfold RcuMap.rcu_map_lookup, RcuMap.cds_lfht_lookup. destruct (find_first _ _) as [x|] eqn:E; cbn; [|done].
  intros <- _. rewrite (ti_offset _ T), Z.sub_0_r. apply find_first_elem in E as [E _]. apply (ti_nodes _ T), (all_nodes_elem i).
  apply list_elem_of_fmap. eauto.
Qed.

Lemma all_nodes_add t i n m' f rl cs :
  (RcuMap.node <$> RcuMap.map m') ≡ₚ n :: map_nodes i t ->
  all_nodes (Thread f (upd i m' (conn4_map t)) cs rl (conn4_map_cur t)) ≡ₚ n :: all_nodes t.
Proof.
  intros H. unfold all_nodes, map_nodes, upd. destruct i; cbn; rewrite H; [done|]. symmetry. apply Permutation_middle.
Qed.

Lemma tinv_perm t t' n c :
  tinv t -> (forall j, RcuMap.offset (conn4_map t' j) = 0) -> all_nodes t' ≡ₚ n :: all_nodes t -> nodes t' = <[n := c]> (nodes t) ->
  nodes t !! n = None -> 0 < n -> (forall q, is_u32 (amount q c)) -> tinv t'.
Proof.
  intros T Ho Hp En Hn Hpos Hc. split.
  - change (NoDup (all_nodes t')). rewrite Hp. constructor; [|apply T]. intros [x Hx]%(ti_nodes _ T). congruence.
  - intros m. change (m ∈ all_nodes t' <-> is_Some (nodes t' !! m)). rewrite Hp, En, elem_of_cons, lookup_insert_is_Some.
    rewrite <- (ti_nodes _ T m). fold (all_nodes t). destruct (decide (n = m)); naive_solver.
  - intros m. rewrite En, lookup_insert_is_Some. intros [->|[_ H]]; [done|]. by apply (ti_pos _ T).
  - exact Ho.
  - intros m c' q. rewrite En, lookup_insert_Some. intros [[_ <-]|[_ H]]; [auto|]. by eapply (ti_u32 _ T).
Qed.

Lemma merge_amount q now log sn vn c :
  amount q (merge now log sn vn c) = u32 (amount q c + given q log sn vn).
Proof. unfold merge. cbv zeta. destruct (_ && _), (_ <? _), (_ <=? _); by destruct q. Qed.
Lemma new_amount q now k log sn vn : amount q (new_conn now k log sn vn) = u32 (given q log sn vn).
Proof. by destruct q. Qed.

(** What a report on map [i] does to the thread *)
Record reported (i : bool) (d : quantity -> Z) (t t' : dp_thread_data) : Prop := {
  rp_inv : tinv t';
  rp_cur : conn4_map_cur t' = conn4_map_cur t;
  rp_other j : j <> i -> conn4_map t' j = conn4_map t j /\ conn4_map_cnt t' j = conn4_map_cnt t j;
  rp_cnt : conn4_map_cnt t i = u32 (Z.of_nat (length (map_nodes i t))) ->
           conn4_map_cnt t' i = u32 (Z.of_nat (length (map_nodes i t')));
  rp_total q : u32 (total q t') = u32 (total q t + d q)
}.

Lemma report_reported i now junk alloc log sn vn t :
  tinv t -> exists t' r, report_at i now junk alloc log sn vn t = Some (t', r) /\
    reported i (fun q => if accepted i now junk alloc log t then given q log sn vn else 0) t t'.
Proof.
  intros T. unfold report_at, accepted. destruct (l_EtherType log =? ETH_P_IP); cbn [andb].
  2: { eexists _, _. split; [done|]. split; try done. intros q. by rewrite Z.add_0_r. }
  destruct (Z.eqb_spec (RcuMap.rcu_map_lookup (conn4_match (nodes t)) conn4_hash (conn4_map t i) (conn_key junk log)) NULL) as [E|E];
    cbn [negb orb].
  2: { destruct (lookup_node t i _ _ T eq_refl E) as [c Hc]. rewrite Hc. cbn [mbind option_bind]. eexists _, _. split; [done|]. split; try done.
    - split; cbn; try apply T.
      + intros n. rewrite lookup_insert_is_Some. rewrite <- (ti_nodes _ T n). destruct (decide (RcuMap.rcu_map_lookup (conn4_match (nodes t)) conn4_hash (conn4_map t i) (conn_key junk log) = n)) as [<-|]; [|naive_solver].
        split; [by left|]. intros _. apply (ti_nodes _ T). eauto.
      + intros n. rewrite lookup_insert_is_Some. intros [<-|[_ H]]; apply (ti_pos _ T); eauto.
      + intros n c' q. rewrite lookup_insert_Some. intros [[_ <-]|[_ H]]; [rewrite merge_amount; apply u32_range|by eapply (ti_u32 _ T)].
    - intros q. rewrite (total_replace q t _ c) by done. rewrite merge_amount. pose proof (ti_u32 _ T _ _ q Hc). ulia. }
  destruct (dp_rate_limiter_check now (conn4_rl t)) as [rl r]. cbn [snd]. destruct ((r =? 0) && alloc).
  2: { eexists _, _. split; [done|]. split; try done; [split; apply T|]. intros q. by rewrite Z.add_0_r. }
  set (k := conn_key junk log). cbn. destruct (Frag.malloc_fresh (dom (nodes t))) as [Hf Hp].
  set (n := Frag.malloc (dom (nodes t))) in *. clearbody n. apply not_elem_of_dom in Hf.
  eexists _, _. split; [done|].
  assert (Hadd : RcuMap.node <$> RcuMap.map (RcuMap.rcu_map_add conn4_hash (conn4_map t i) n k) ≡ₚ n :: map_nodes i t).
  { cbn. by rewrite RcuMap.add_perm. }
  split; try done.
  - eapply (tinv_perm t _ n); [done| |by apply all_nodes_add|done|done|done|intros q; rewrite new_amount; apply u32_range].
    intros j. cbn. unfold upd. destruct (Bool.eqb j i); cbn; apply (ti_offset _ T).
  - intros j Hj. unfold upd. cbn. apply Bool.eqb_false_iff in Hj. by rewrite Hj.
  - intros Hc. unfold map_nodes, upd in *. cbn. rewrite !Bool.eqb_reflx.
    rewrite Hc, u32_add_l. f_equal. apply Permutation_length in Hadd. rewrite Hadd. cbn. lia.
  - intros q. pose proof (total_add q t n (new_conn now k log sn vn) Hf) as Ht. unfold total in *. cbn in *. rewrite Ht, new_amount. ulia.
Qed.

(** The first node of the map that is drained *)
Lemma del_head m x l : RcuMap.offset m = 0 -> RcuMap.map m = x :: l -> NoDup (RcuMap.node <$> RcuMap.map m) ->
  RcuMap.map (RcuMap.rcu_map_del m (RcuMap.node x)).1 = l.
Proof.
  intros Ho Hm Hn. unfold RcuMap.rcu_map_del, RcuMap.cds_lfht_del. rewrite Ho, Z.add_0_r, Hm in *. cbn. rewrite Z.eqb_refl. cbn.
  cbn in Hn. apply NoDup_cons in Hn as [Hx _]. clear -Hx. induction l as [|y l IH]; [done|]. cbn in *.
  apply not_elem_of_cons in Hx as [Hxy Hx]. destruct (Z.eqb_spec (RcuMap.node y) (RcuMap.node x)); [congruence|]. cbn. by rewrite IH.
Qed.

Lemma take_taken i n t :
  tinv t -> first_node i t = Some n ->
  exists c t', nodes t !! n = Some c /\ take_node i n t = Some (netify_connects c, t') /\ tinv t' /\
    conn4_map_cur t' = conn4_map_cur t /\ (forall j, conn4_map_cnt t' j = conn4_map_cnt t j) /\
    (forall j, j <> i -> conn4_map t' j = conn4_map t j) /\ (forall q, total q t = amount q c + total q t').
Proof.
  intros T Hf. unfold first_node in Hf. destruct (RcuMap.map (conn4_map t i)) as [|x l] eqn:Em; [done|]. cbn in Hf. simplify_eq.
  assert (Hin : RcuMap.node x ∈ map_nodes i t) by (unfold map_nodes; rewrite Em; by left).
  destruct (proj1 (ti_nodes _ T _) (all_nodes_elem _ _ _ Hin)) as [c Hc].
  assert (Hnd : NoDup (map_nodes i t)) by (pose proof (ti_nodup _ T) as H; apply NoDup_app in H as (? & ? & ?); by destruct i).
  pose proof (del_head _ _ _ (ti_offset _ T i) Em Hnd) as Hd.
  unfold take_node. rewrite Hc. cbn [mbind option_bind]. eexists c, _. split; [done|]. split; [done|].
  set (t' := _ : dp_thread_data).
  assert (Hp : all_nodes t ≡ₚ RcuMap.node x :: all_nodes t').
  { unfold t', all_nodes, map_nodes, upd. destruct i; cbn; rewrite Hd, Em; [done|]. cbn. symmetry. apply Permutation_middle. }
  pose proof (ti_nodup _ T) as Hn. change (NoDup (all_nodes t)) in Hn. rewrite Hp, NoDup_cons in Hn. destruct Hn as [Hx Hn].
  split; [|split_and!; [done|done| |intros q; apply (total_take q t _ c Hc)]].
  - split; [exact Hn| | | |].
    + intros m. change (m ∈ all_nodes t' <-> is_Some (delete (RcuMap.node x) (nodes t) !! m)). rewrite lookup_delete_is_Some.
      rewrite <- (ti_nodes _ T m). fold (all_nodes t). rewrite Hp, elem_of_cons. split; [|naive_solver].
      intros Hm. split; [|by right]. by intros <-.
    + intros m. cbn. rewrite lookup_delete_is_Some. intros [_ H]. by apply (ti_pos _ T).
    + intros j. cbn. unfold upd, RcuMap.rcu_map_del. pose proof (ti_offset _ T) as Ho. destruct (Bool.eqb j i); [|apply Ho].
      destruct (RcuMap.cds_lfht_del _ _). cbn. apply Ho.
    + intros m c' q. cbn. rewrite lookup_delete_Some. intros [_ H]. by eapply (ti_u32 _ T).
  - intros j Hj. cbn. unfold upd. apply Bool.eqb_false_iff in Hj. by rewrite Hj.
Qed.

(** What is in a message, a buffer, all threads *)
Definition wire (q : quantity) (c : DPMsgConnect) : Z := ntohl (amount q c).
Definition zsum {A} (f : A -> Z) (l : list A) : Z := fold_right Z.add 0 (f <$> l).
Lemma zsum_cons {A} (f : A -> Z) x l : zsum f (x :: l) = f x + zsum f l.
Proof. done. Qed.
Lemma zsum_app {A} (f : A -> Z) l1 l2 : zsum f (l1 ++ l2) = zsum f l1 + zsum f l2.
Proof. induction l1 as [|x l1 IH]; [done|]. cbn [app]. rewrite !zsum_cons. lia. Qed.
Lemma zsum_insert {A} (f : A -> Z) l k x y : l !! k = Some x -> zsum f (<[k := y]> l) = zsum f l - f x + f y.
Proof.
  revert k. induction l as [|z l IH]; intros [|k] H; cbn in H; simplify_eq.
  - change (<[0%nat := y]> (x :: l)) with (y :: l). rewrite !zsum_cons. lia.
  - change (<[S k := y]> (z :: l)) with (z :: <[k := y]> l). rewrite !zsum_cons, (IH k H). lia.
Qed.
Definition sent (q : quantity) (ms : list connects_msg) : Z := zsum (fun m => zsum (wire q) (entries m)) ms.
Definition kept (q : quantity) (l : list (dp_thread_data * dpc)) : Z := zsum (fun y => total q y.1) l.

Definition fits (m : connects_msg) : Prop :=
  Z.of_nat (length (entries m)) <= CONNECTS_PER_MSG /\ Connects m = htons (Z.of_nat (length (entries m))) /\
  exists n, Length m = htons n /\ n = 8 + 80 * Z.of_nat (length (entries m)) /\ n <= DP_MSG_SIZE.
Lemma send_fits l : Z.of_nat (length l) <= CONNECTS_PER_MSG -> fits (send_connects l).
Proof.
  intros H. change CONNECTS_PER_MSG with 102 in *. unfold send_connects, fits. cbn [entries Connects Length].
  split; [done|]. split; [by rewrite u16_id by ulia|].
  unfold sizeof_DPMsgHdr, sizeof_DPMsgConnectHdr, sizeof_DPMsgConnect, DP_MSG_SIZE. eexists. split; [reflexivity|]. ulia.
Qed.
Lemma sent_snoc q m b : sent q (m ++ [send_connects b]) = sent q m + zsum (wire q) b.
Proof. unfold sent. rewrite zsum_app, zsum_cons. cbn [entries send_connects]. unfold zsum at 4. cbn. lia. Qed.
Lemma put_entry_sums q e b m :
  sent q (put_entry e b m).2 + zsum (wire q) (put_entry e b m).1 = sent q m + zsum (wire q) b + wire q e.
Proof.
  unfold put_entry. cbv zeta. assert (E : zsum (wire q) (b ++ [e]) = zsum (wire q) b + wire q e) by (rewrite zsum_app, zsum_cons; cbn; lia).
  destruct (_ =? _); cbn [fst snd]; [rewrite sent_snoc; unfold zsum at 2; cbn; lia|lia].
Qed.

(** The control thread waits for, or drains, a map that is not the current one of its
    thread; no section that began after the switch holds it. *)
Definition ctl_ok (c : cpc) (l : list (dp_thread_data * dpc)) : Prop :=
  match c with
  | CIdle | CLoop _ => True
  | CWait k i => exists t pc, l !! k = Some (t, pc) /\ conn4_map_cur t = negb i /\ forall o, pc = DIn o (Some i) -> o = true
  | CDrain k i => exists t pc, l !! k = Some (t, pc) /\ conn4_map_cur t = negb i /\ forall o, pc <> DIn o (Some i)
  end.
Definition draining (c : cpc) (k : nat) (i : bool) : Prop := c = CDrain k i.
Record cinv (st : cstate) : Prop := {
  ci_fault : fault st = false;
  ci_ths k t pc : ths st !! k = Some (t, pc) -> tinv t;
  ci_cnt k t pc i : ths st !! k = Some (t, pc) -> ctl st <> CDrain k i ->
    conn4_map_cnt t i = u32 (Z.of_nat (length (map_nodes i t)));
  ci_ctl : ctl_ok (ctl st) (ths st);
  ci_buf : Z.of_nat (length (buf st)) < CONNECTS_PER_MSG;
  ci_idle : ctl st = CIdle -> buf st = [];
  ci_msgs : Forall fits (msgs st);
  ci_sum q : u32 (acc st q) = u32 (sent q (msgs st) + zsum (wire q) (buf st) + kept q (ths st))
}.

(** A step that replaces thread [k] *)
Lemma insert_ths {B} (P : nat -> B -> Prop) (l : list B) k y :
  (forall j x, l !! j = Some x -> P j x) -> P k y -> forall j x, <[k := y]> l !! j = Some x -> P j x.
Proof. intros H Hy j x. rewrite list_lookup_insert_Some. intros [(-> & -> & _)|[_ Hx]]; auto. Qed.

Lemma ctl_ok_insert c l k t pc t' pc' :
  l !! k = Some (t, pc) -> conn4_map_cur t' = conn4_map_cur t ->
  (forall o i, pc' = DIn o (Some i) -> pc = DIn o (Some i) \/ i = conn4_map_cur t) ->
  ctl_ok c l -> ctl_ok c (<[k := (t', pc')]> l).
Proof.
  intros Hk Hcur Hpc. destruct c as [|j|j i|j i]; cbn; try done; intros (t0 & pc0 & Hj & Hc & Ho);
    destruct (decide (j = k)) as [->|Hne].
  1, 3: simplify_eq; exists t', pc'; rewrite list_lookup_insert_eq by (by eapply lookup_lt_Some);
    (split_and!; [done|congruence|]); intros o E; destruct (Hpc o i E) as [->|Hi]; try (by eapply Ho); destruct i; cbn in Hc; congruence.
  all: exists t0, pc0; by rewrite list_lookup_insert_ne by done.
Qed.
Lemma kept_insert q l k t pc t' pc' : l !! k = Some (t, pc) -> kept q (<[k := (t', pc')]> l) = kept q l - total q t + total q t'.
Proof. intros H. unfold kept. by rewrite (zsum_insert _ l k (t, pc)) by done. Qed.

(** The data thread: its program counter moves, the maps stay *)
Ltac cst := cbn [fault ths ctl buf msgs acc] in *.
Lemma cinv_pc k t pc pc' l c b m a x :
  cinv (CState l c b m a x) -> l !! k = Some (t, pc) ->
  (forall o i, pc' = DIn o (Some i) -> pc = DIn o (Some i) \/ i = conn4_map_cur t) ->
  cinv (CState (<[k := (t, pc')]> l) c b m a x).
Proof.
  intros [Hf Ht Hc Hctl Hb Hi Hm Hs] Hk Hpc. cst. split; cst; try done.
  - intros j t2 pc2. rewrite list_lookup_insert_Some. intros [(-> & [= -> ->] & _)|[_ H]]; [by eapply Ht|by eapply Ht].
  - intros j t2 pc2 i. rewrite list_lookup_insert_Some. intros [(-> & [= -> ->] & _)|[_ H]]; [by eapply Hc|by eapply Hc].
  - by eapply ctl_ok_insert.
  - intros q. rewrite (kept_insert q l k t pc) by done. rewrite Hs. f_equal. lia.
Qed.

(** The switch, then the wait, then the entries of the map *)
Lemma mark_lookup (l : list (dp_thread_data * dpc)) k t pc : (mark <$> l) !! k = Some (t, pc) <-> exists pc', l !! k = Some (t, pc') /\ pc = (mark (t, pc')).2.
Proof.
  rewrite list_lookup_fmap, fmap_Some. split.
  - intros ([t2 pc2] & H & [= -> ->]). eauto.
  - intros (pc' & H & ->). by eexists (t, pc').
Qed.
Lemma kept_mark q l : kept q (mark <$> l) = kept q l.
Proof. unfold kept, zsum. by rewrite <- list_fmap_compose. Qed.

Lemma cinv_switch k t pc l b m a x :
  cinv (CState l (CLoop k) b m a x) -> l !! k = Some (t, pc) ->
  cinv (CState (mark <$> <[k := (switch t, pc)]> l) (CWait k (conn4_map_cur t)) b m a x).
Proof.
  intros [Hf Ht Hc Hctl Hb Hi Hm Hs] Hk. cst. assert (Hlt := lookup_lt_Some _ _ _ Hk).
  assert (Htk : tinv (switch t)) by (specialize (Ht _ _ _ Hk); split; apply Ht).
  split; cst; try done.
  - intros j t2 pc2 (pc' & H & _)%mark_lookup. revert H. rewrite list_lookup_insert_Some. intros [(-> & [= <- <-] & _)|[_ H]]; [done|by eapply Ht].
  - intros j t2 pc2 i (pc' & H & _)%mark_lookup _. revert H. rewrite list_lookup_insert_Some.
    intros [(-> & [= <- <-] & _)|[_ H]]; [by apply (Hc _ _ _ i Hk)|by eapply Hc].
  - exists (switch t), (mark (switch t, pc)).2. split_and!; [|done|].
    + apply mark_lookup. exists pc. by rewrite list_lookup_insert_eq.
    + intros o. cbn. by destruct pc as [|o' h]; [|intros [= <- _]].
  - intros q. rewrite kept_mark, (kept_insert q l k t pc) by done. rewrite Hs. f_equal. change (total q (switch t)) with (total q t). lia.
Qed.

Lemma cinv_report k t o i now junk alloc log sn vn t' r l c b m a x :
  cinv (CState l c b m a x) -> l !! k = Some (t, DIn o (Some i)) -> report_at i now junk alloc log sn vn t = Some (t', r) ->
  cinv (CState (<[k := (t', DIn o None)]> l) c b m
          (fun q => a q + if accepted i now junk alloc log t then given q log sn vn else 0) x).
Proof.
  intros [Hf Ht Hc Hctl Hb Hi Hm Hs] Hk Hr. cst.
  destruct (report_reported i now junk alloc log sn vn t (Ht _ _ _ Hk)) as (t2 & r2 & Hr2 & [Rinv Rcur Roth Rcnt Rtot]). simplify_eq.
  split; cst; try done.
  - intros j t3 pc3. rewrite list_lookup_insert_Some. intros [(-> & [= <- <-] & _)|[_ H]]; [done|by eapply Ht].
  - intros j t3 pc3 i3. rewrite list_lookup_insert_Some. intros [(-> & [= <- <-] & _)|[_ H]] Hnd; [|by eapply Hc].
    destruct (decide (i3 = i)) as [->|Hne]; [by eapply Rcnt, Hc|]. destruct (Roth i3 Hne) as [Em ->]. unfold map_nodes. rewrite Em. by eapply Hc.
  - eapply ctl_ok_insert; [done|done| |done]. done.
  - intros q. rewrite (kept_insert q l k _ _ t' _ Hk). specialize (Hs q). specialize (Rtot q). clear -Hs Rtot. ulia.
Qed.

Lemma wire_netify q c : is_u32 (amount q c) -> wire q (netify_connects c) = amount q c.
Proof. intros H. unfold wire. destruct q; cbn; by apply ntohl_htonl. Qed.

Lemma cinv_take k i n t t' pc e l b m a x :
  cinv (CState l (CDrain k i) b m a x) -> l !! k = Some (t, pc) -> first_node i t = Some n -> take_node i n t = Some (e, t') ->
  cinv (CState (<[k := (t', pc)]> l) (CDrain k i) (put_entry e b m).1 (put_entry e b m).2 a x).
Proof.
  intros [Hf Ht Hc Hctl Hb Hi Hm Hs] Hk Hn Htk. cst.
  destruct (take_taken i n t (Ht _ _ _ Hk) Hn) as (c & t2 & Hnc & Htk2 & Ti & Tcur & Tcnt & Toth & Ttot). simplify_eq.
  assert (Hu := fun q => ti_u32 _ (Ht _ _ _ Hk) _ _ q Hnc). split; cst; try done.
  - intros j t3 pc3. rewrite list_lookup_insert_Some. intros [(-> & [= <- <-] & _)|[_ H]]; [done|by eapply Ht].
  - intros j t3 pc3 i3. rewrite list_lookup_insert_Some. intros [(-> & [= <- <-] & _)|[_ H]] Hnd; [|by eapply Hc].
    assert (Hne : i3 <> i) by congruence. unfold map_nodes. rewrite Tcnt, (Toth _ Hne). by eapply Hc.
  - eapply ctl_ok_insert; [done|done| |done]. auto.
  - unfold put_entry. cbv zeta. rewrite length_app. change CONNECTS_PER_MSG with 102 in *. destruct (Z.eqb_spec (Z.of_nat (length b + length [netify_connects c])) 102); cbn in *; [lia|rewrite length_app; cbn; lia].
  - unfold put_entry. cbv zeta. destruct (Z.eqb_spec (Z.of_nat (length (b ++ [netify_connects c]))) CONNECTS_PER_MSG); cbn; [|done].
    apply Forall_app. split; [done|]. constructor; [|done]. apply send_fits. lia.
  - intros q. rewrite put_entry_sums, (kept_insert q l k _ _ t' _ Hk), wire_netify by apply Hu. rewrite Hs, (Ttot q). f_equal. lia.
Qed.

Lemma cinv_step st st' : cinv st -> cstep st st' -> cinv st'.
Proof.
  intros I Hstep. destruct Hstep as [k t l c b m a x Hk|k t o l c b m a x Hk|k t t' o i now junk alloc log sn vn r l c b m a x Hk Hr
    |k t o i now junk alloc log sn vn l c b m a x Hk Hr|k t o l c b m a x Hk|l b m a x|k t pc l b m a x Hk H0|k t pc l b m a x Hk H0
    |k i l b m a x Ho|k i n t t' pc e l b m a x Hk Hn Ht|k i n t pc l b m a x Hk Hn Ht|k i t pc l b m a x Hk Hn|k l b m a x Hk].
  - eapply cinv_pc; [done|done|done].
  - eapply cinv_pc; [done|done|]. intros o' i [= _ ->]. by right.
  - by eapply cinv_report.
  - destruct (report_reported i now junk alloc log sn vn t (ci_ths _ I _ _ _ Hk)) as (? & ? & ? & _). congruence.
  - eapply cinv_pc; [done|done|done].
  - destruct I as [Hf Ht Hc Hctl Hb Hi Hm Hs]. split; cst; try done. by intros; eapply Hc.
  - destruct I as [Hf Ht Hc Hctl Hb Hi Hm Hs]. split; cst; try done. by intros; eapply Hc.
  - by apply cinv_switch.
  - destruct I as [Hf Ht Hc Hctl Hb Hi Hm Hs]. split; cst; try done; [by intros; eapply Hc|].
    destruct Hctl as (t & pc & Hk & Hcur & Hpc). exists t, pc. split_and!; [done|done|]. intros o E.
    rewrite Forall_lookup in Ho. specialize (Ho _ _ Hk). cbn in Ho. rewrite E in Ho. specialize (Hpc o E). by subst o.
  - by eapply cinv_take.
  - destruct (take_taken i n t (ci_ths _ I _ _ _ Hk) Hn) as (? & ? & _ & ? & _). congruence.
  - destruct I as [Hf Ht Hc Hctl Hb Hi Hm Hs]. split; cst; try done.
    + intros j t2 pc2. rewrite list_lookup_insert_Some. intros [(-> & [= <- <-] & _)|[_ H]]; [|by eapply Ht].
      specialize (Ht _ _ _ Hk). split; apply Ht.
    + intros j t2 pc2 i2. rewrite list_lookup_insert_Some. intros [(-> & [= <- <-] & _)|[Hne H]] _; [|eapply Hc; [exact H|congruence]].
      cbn. unfold upd. destruct (Bool.eqb_spec i2 i) as [->|Hne]; [|by apply (Hc _ _ _ _ Hk); congruence].
      unfold first_node, map_nodes in *. cbn. by destruct (RcuMap.map (conn4_map t i)).
    + intros q. rewrite (kept_insert q l k _ _ _ _ Hk), Hs. f_equal. change (total q (t <| conn4_map_cnt ::= upd i 0 |>)) with (total q t). lia.
  - destruct I as [Hf Ht Hc Hctl Hb Hi Hm Hs]. split; cst; try done; [by intros; eapply Hc| |].
    + destruct (_ <? _); [|done]. apply Forall_app. split; [done|]. constructor; [|done]. apply send_fits. lia.
    + intros q. rewrite Hs. destruct (Z.ltb_spec 0 (Z.of_nat (length b))) as [|Hz].
      * rewrite sent_snoc. f_equal. unfold zsum at 3. cbn. lia.
      * destruct b; [done|]. cbn in Hz. lia.
Qed.
Lemma cinv_start nows : cinv (start_state nows).
Proof.
  assert (H : forall k t pc, ths (start_state nows) !! k = Some (t, pc) -> exists now, t = dp_ctrl_init_thread_data now /\ pc = DOut).
  { intros k t pc. cbn. rewrite list_lookup_fmap, fmap_Some. intros (now & _ & [= -> ->]). eauto. }
  split; try done.
  - intros k t pc (now & -> & _)%H. split; cbn; try done; [constructor|..].
    + intros n. split; [by intros ?%elem_of_nil|by intros [? ?]].
    + by intros n [? ?].
  - by intros k t pc i (now & -> & _)%H _.
  - intros q. cst. change (sent q (msgs (start_state nows))) with 0. change (zsum (wire q) (buf (start_state nows))) with 0.
    cbn [start_state acc ths]. f_equal. clear H. induction nows as [|n l IH]; [done|]. cbn [fmap list_fmap]. unfold kept in *.
    rewrite zsum_cons. change (total q (dp_ctrl_init_thread_data n, DOut).1) with 0. exact IH.
Qed.
Lemma cinv_reachable nows st : rtc cstep (start_state nows) st -> cinv st.
Proof. intros H. pose proof (cinv_start nows) as I. induction H as [|a b c Hs _ IH]; [done|]. apply IH. by eapply cinv_step. Qed.


Definition sample_log (bytes : Z) : DPMsgSession :=
  MkLog 1 mac0 ETH_P_IP mac0 mac0 ([10; 0; 0; 1] ++ replicate 12 0) ([10; 0; 0; 2] ++ replicate 12 0) 40000 80 0 0 6 DPSESS_FLAG_INGRESS
    1 0 bytes 0 0 0 0 0 0 0 0 0 0 1001 0 7 2 0 ip0 0 0.
End Connect.
