(* ===== verification/Session.v ===== *)
(** * dpi/dpi_session.c: the sessions of a thread

    A session is found by the addresses, ports and protocol of a packet, in one of four
    maps of the thread: IPv4 or IPv6, and a pair of its own for the endpoints of a proxy
    mesh, whose sessions are found by their client alone.  This file creates, finds, tracks
    (UDP, ICMP and other IP), reports and releases sessions; what the TCP tracker does with
    a session is in Tcp.v, whose session record is embedded here.

    The thread holds the sessions by address, the maps (RcuMap.v), the timer wheel
    (TimerWheel.v), the clips of the caches (Asm.v), the meters (Meter.v), the statistics
    (Stats.v) and the cache of the policy (PolicyLookup.v); the functions of those files
    are called as the source calls them.  [None] is an access to a session, a clip or a
    byte that is not there.  [reports] and [purged] record the calls of connect_report and
    of dpi_purge_parser_data (Parser.v). *)

From S2P Require Import Prelude Helper Tree Asm RcuMap TimerWheel Wire Frag Packet Stats Meter Tcp PolicyRules PolicyLookup Parser Reports.
Import Helper.Bytes Helper.Hash Wire.Wire.

Module Session.
Import Reports.Connect.
#[local] Existing Instances Tcp.eta_session Tcp.eta_wing Tcp.eta_world PolicyRules.eta_desc PolicyLookup.eta_pworld.

Definition SESS_TIMEOUT_IP : Z := 15.
Definition SESS_TIMEOUT_UDP : Z := 30.
Definition SESS_TIMEOUT_ICMP : Z := 5.
Definition DPI_SESS_FLAG_IPV4 : Z := 0x0001.
Definition DPI_SESS_FLAG_SKIP_PARSER : Z := 0x0002.
Definition DPI_SESS_FLAG_FINAL_PARSER : Z := 0x0004.
Definition DPI_SESS_FLAG_INGRESS : Z := 0x0010.
Definition DPI_SESS_FLAG_TAP : Z := 0x0020.
Definition DPI_SESS_FLAG_MID_STREAM : Z := 0x0040.
Definition DPI_SESS_FLAG_FAKE_EP : Z := 0x0080.
Definition DPI_SESS_FLAG_ESTABLISHED : Z := 0x0100.
Definition DPI_SESS_FLAG_START_LOGGED : Z := 0x0400.
Definition DPI_SESS_FLAG_XFF : Z := 0x2000.
Definition SESS_FLAGS_FOR_LOOKUP : Z := 0x90.
Definition DPI_SESS_TERM_NORMAL : Z := 0.
Definition DPI_SESS_TERM_VOLUME : Z := 1.
Definition DPI_PKT_FLAG_FAKE_EP : Z := 0x200.
Definition DPI_PKT_FLAG_NEW_SESSION : Z := 0x08.
Definition IPPROTO_ICMP : Z := 1.
Definition IPPROTO_TCP : Z := 6.
Definition IPPROTO_ICMPV6 : Z := 58.
Definition DPSESS_FLAG_TAP : Z := 0x02.
Definition DPSESS_FLAG_MID : Z := 0x04.
Definition DHCP_SERVER_PORT : Z := 67.
Definition DNS_SERVER_PORT : Z := 53.
Definition DNS_MC_SERVER_PORT : Z := 5353.
Definition ICMP_ECHOREPLY : Z := 0.
Definition ICMP_DEST_UNREACH : Z := 3.
Definition ICMP_ECHO : Z := 8.
Definition ICMP6_DST_UNREACH : Z := 1.
Definition ICMP_TUNNEL_THRESHOD : Z := 3.
Definition ICMP_TUNNEL_REPORTED : Z := 255.
Definition PING_DEATH_LENGTH : Z := 32000.
Definition DPI_THRT_ICMP_FLOOD : Z := 2.
Definition DPI_THRT_PING_DEATH : Z := 11.
Definition DPI_THRT_ICMP_TUNNELING : Z := 24.
Definition DPI_SESS_FLAG_PROXYMESH : Z := 0x4000.
Definition DPI_SESS_FLAG_SURE_PARSER : Z := 0x0006.
Definition DPI_PKT_FLAG_LOG_MID : Z := 0x800.
Definition DPI_PKT_FLAG_LOG_VIOLATE : Z := 0x1000.
Definition DPI_PKT_FLAG_LOG_XFF : Z := 0x2000.
Definition DPI_PKT_FLAG_LOG_XFF_VIO : Z := 0x4000.
Definition DPI_CONNECT_REPORT_INTERVAL : Z := 60.
Definition DPI_CONNECT_REPORT_INTERVAL_SHORT : Z := 15.

(** ** Data *)

(** The fields of dpi_wing_t that Tcp.v does not have; [ip] is the memory of an io_ip_t. *)
Record dwing := DWing {
  mac : list Z; port : Z; ip : list Z; w_bytes : Z; reported_pkts : Z; reported_bytes : Z;
  icmp_echo_hash : Z; icmp_echo_seq : Z; icmp_times : Z
}.
#[export] Instance eta_dwing : Eta dwing := fun d => DWing
  (mac d) (port d) (ip d) (w_bytes d) (reported_pkts d) (reported_bytes d) (icmp_echo_hash d) (icmp_echo_seq d) (icmp_times d).
Definition dwing0 : dwing := DWing mac0 0 ip0 0 0 0 0 0 0.

Record dpi_session {T : Type} := Sess {
  id : Z; created_at : Z; last_report : Z; dclient : dwing; dserver : dwing; meter_flags : Z; only_parser : Z;
  app : Z; base_app : Z; s_proto : Z; policy_desc : PolicyRules.dpi_policy_desc; xff_desc : PolicyRules.dpi_policy_desc;
  xff_client_ip : Z; xff_app : Z; xff_port : Z; tcp : Tcp.session T
}.
Arguments dpi_session T : clear implicits.
#[export] Instance eta_session T : Eta (dpi_session T) := fun s => Sess
  _ (id s) (created_at s) (last_report s) (dclient s) (dserver s) (meter_flags s) (only_parser s) (app s) (base_app s) (s_proto s)
  (policy_desc s) (xff_desc s) (xff_client_ip s) (xff_app s) (xff_port s) (tcp s).

(** What the fields of th_counter count by protocol *)
Inductive pclass := PTcp | PUdp | PIcmp | PIp.
#[export] Instance pclass_eq : EqDecision pclass.
Proof. solve_decision. Defined.
Definition class_of (proto : Z) : pclass :=
  if proto =? IPPROTO_TCP then PTcp else if proto =? IPPROTO_UDP then PUdp
  else if (proto =? IPPROTO_ICMP) || (proto =? IPPROTO_ICMPV6) then PIcmp else PIp.

(** cur_sess, sess_id, {tcp,udp,icmp,ip}_sess and cur_{tcp,udp,icmp,ip}_sess, parser_sess and parser_pkts *)
Record counters := Counters {
  cur_sess : Z; sess_id : Z; n_sess : pclass -> Z; cur_n_sess : pclass -> Z; parser_sess : Z -> Z; parser_pkts : Z -> Z
}.
#[export] Instance eta_counters : Eta counters := fun c => Counters
  (cur_sess c) (sess_id c) (n_sess c) (cur_n_sess c) (parser_sess c) (parser_pkts c).
Definition bump {A} `{EqDecision A} (k : A) (f : Z -> Z) (g : A -> Z) : A -> Z := fun x => if decide (x = k) then f (g x) else g x.

Record report := Report { r_log : DPMsgSession; r_sessions : Z; r_violates : Z }.

(** [smap v4 mesh]: th_session4_map, th_session6_map, th_session4_proxymesh_map,
    th_session6_proxymesh_map *)
Record sthread {T : Type} := SThread {
  sessions : gmap Z (dpi_session T); smap : bool -> bool -> RcuMap.rcu_map;
  th_timer : TimerWheel.timer_wheel Z Tcp.sess_cb; tick : Z;
  clips : gmap Z Asm.clip; total_asms : Z; freed_asms : Z; asm_buf : list Z; asm_pkt_seq : Z; asm_pkt_len : Z;
  meters : Meter.mthread; stats : Stats.sworld; pol : PolicyLookup.thread; pol_threats : Z;
  counter : counters; reports : list report; purged : list Z; fault : bool
}.
Arguments sthread T : clear implicits.
#[export] Instance eta_sthread T : Eta (sthread T) := fun t => SThread
  _ (sessions t) (smap t) (th_timer t) (tick t) (clips t) (total_asms t) (freed_asms t) (asm_buf t) (asm_pkt_seq t) (asm_pkt_len t)
  (meters t) (stats t) (pol t) (pol_threats t) (counter t) (reports t) (purged t) (fault t).

(** The endpoint of the packet: p->ep_mac and fields of p->ep *)
Record pkt_ep := PktEp {
  ep_mac : list Z; ep_hdl : option PolicyRules.dpi_policy_hdl; ep_tap : bool; ep_stats : Z; ep_io : Parser.io_ep
}.
(** The packet, p->session, and whether p->this_wing is the client's *)
Record pctx := PCtx { pk : packet; psess : Z; side : bool }.
#[export] Instance eta_pctx : Eta pctx := fun x => PCtx (pk x) (psess x) (side x).

(** What the maps compare of a session on the stack *)
Record skey := SKey { kc_ip : list Z; kc_port : Z; ks_ip : list Z; ks_port : Z; k_proto : Z; k_flags : Z }.
#[export] Instance skey_eq : EqDecision skey.
Proof. solve_decision. Defined.

Section ops.
Context {T : Type} `{!OrderedTree T}.
Context (tc : Z -> threat_conf) (e : PolicyRules.env) (g_ep_map : Z -> option Z) (connect_report : list report -> DPMsgSession -> Z -> Z -> Z).
Implicit Types (s : dpi_session T) (th : sthread T) (p : packet) (a : Z) (x : pctx) (ep : pkt_ep).

Definition sflags s : Z := Tcp.sess_flags (tcp s).
Definition sflag (f : Z) s : bool := FLAGS_TEST (sflags s) f.
Definition set_sflag (f : Z) s : dpi_session T := s <| tcp ::= fun t => t <| Tcp.sess_flags ::= fun g => FLAGS_SET g f |> |>.
Definition c_pkts s : Z := Tcp.pkts (Tcp.client (tcp s)).
Definition s_pkts s : Z := Tcp.pkts (Tcp.server (tcp s)).
Definition is_mesh (m : list Z) : bool := PolicyLookup.cmp_mac_prefix m PolicyLookup.PROXYMESH_MAC_PREFIX.

(** ** Keys and maps *)

Definition ip4_eq (i j : list Z) : bool := bool_decide (take 4 i = take 4 j).
Definition ip6_eq (i j : list Z) : bool := bool_decide (i = j).
Definition session4_match s (k : skey) : bool :=
  ip4_eq (ip (dclient s)) (kc_ip k) && ip4_eq (ip (dserver s)) (ks_ip k) && (port (dclient s) =? kc_port k) &&
  (port (dserver s) =? ks_port k) && (s_proto s =? k_proto k) &&
  (Z.land (sflags s) SESS_FLAGS_FOR_LOOKUP =? Z.land (k_flags k) SESS_FLAGS_FOR_LOOKUP).
Definition session6_match s (k : skey) : bool :=
  ip6_eq (ip (dclient s)) (kc_ip k) && ip6_eq (ip (dserver s)) (ks_ip k) && (port (dclient s) =? kc_port k) &&
  (port (dserver s) =? ks_port k) && (s_proto s =? k_proto k) &&
  (Z.land (sflags s) SESS_FLAGS_FOR_LOOKUP =? Z.land (k_flags k) SESS_FLAGS_FOR_LOOKUP).
(** Whether it matches; a match also changes the session, below. *)
Definition session4_proxymesh_match s (k : skey) : bool :=
  ip4_eq (ip (dclient s)) (kc_ip k) && (port (dclient s) =? kc_port k) && (s_proto s =? k_proto k).
Definition session6_proxymesh_match s (k : skey) : bool :=
  ip6_eq (ip (dclient s)) (kc_ip k) && (port (dclient s) =? kc_port k) && (s_proto s =? k_proto k).

Definition LOOPBACK4 : list Z := [127; 0; 0; 1].
Definition LOOPBACK6 : list Z := replicate 15 0 ++ [1].
Definition peer_flag (i : list Z) : Z :=
  if PolicyRules.dpi_is_ip4_internal e (ip4_get i) then PolicyRules.POLICY_DESC_INTERNAL else PolicyRules.POLICY_DESC_EXTERNAL.
(** The address of the server behind a loopback address is learnt from the key. *)
Definition proxymesh4_learn (k : skey) s : dpi_session T :=
  if ip4_eq (ip (dserver s)) LOOPBACK4 && negb (ip4_eq (ip (dclient s)) LOOPBACK4) then
    let s := s <| dserver ::= fun d => d <| ip ::= fun i => take 4 (ks_ip k) ++ drop 4 i |> <| port := ks_port k |> |> in
    let f := if sflag DPI_SESS_FLAG_INGRESS s then peer_flag (ip (dclient s)) else peer_flag (ip (dserver s)) in
    s <| policy_desc ::= fun d => d <| PolicyRules.flags ::= fun g =>
      Z.lor (FLAGS_UNSET 8 g (Z.lor PolicyRules.POLICY_DESC_INTERNAL PolicyRules.POLICY_DESC_EXTERNAL)) f |> |>
  else s.
Definition proxymesh6_learn (k : skey) s : dpi_session T :=
  if ip6_eq (ip (dserver s)) LOOPBACK6 && negb (ip6_eq (ip (dclient s)) LOOPBACK6) then
    s <| dserver ::= fun d => d <| ip := ks_ip k |> <| port := ks_port k |> |>
  else s.

Definition le32 (z : Z) : list Z := ip4_bytes z.
Definition session4_hash (k : skey) : Z :=
  u32 (sdbm_hash (take 4 (kc_ip k)) + sdbm_hash (take 4 (ks_ip k)) + sdbm_hash (le32 (u32 (Z.shiftl (kc_port k) 16 + ks_port k)))).
Definition session6_hash (k : skey) : Z :=
  u32 (sdbm_hash (kc_ip k) + sdbm_hash (ks_ip k) + sdbm_hash (le32 (u32 (Z.shiftl (kc_port k) 16 + ks_port k)))).
Definition session4_proxymesh_hash (k : skey) : Z := u32 (sdbm_hash (take 4 (kc_ip k)) + sdbm_hash (le32 (kc_port k))).
Definition session6_proxymesh_hash (k : skey) : Z := u32 (sdbm_hash (kc_ip k) + sdbm_hash (le32 (kc_port k))).

Definition match_of (v4 mesh : bool) (ss : gmap Z (dpi_session T)) a (k : skey) : bool :=
  match ss !! a with
  | None => false
  | Some s => (if mesh then if v4 then session4_proxymesh_match else session6_proxymesh_match
               else if v4 then session4_match else session6_match) s k
  end.
Definition hash_of (v4 mesh : bool) : skey -> Z :=
  if mesh then if v4 then session4_proxymesh_hash else session6_proxymesh_hash else if v4 then session4_hash else session6_hash.
Definition set_smap (v4 mesh : bool) (f : RcuMap.rcu_map -> RcuMap.rcu_map) th : sthread T :=
  th <| smap ::= fun m v n => if Bool.eqb v v4 && Bool.eqb n mesh then f (m v n) else m v n |>.

(** rcu_map_lookup of [k]: the map calls the match function, which for a mesh learns. *)
Definition lookup_key (v4 mesh : bool) (k : skey) th : Z * sthread T :=
  let a := RcuMap.rcu_map_lookup (match_of v4 mesh (sessions th)) (hash_of v4 mesh) (smap th v4 mesh) k in
  (a, if mesh && negb (a =? NULL)
      then th <| sessions ::= alter ((if v4 then proxymesh4_learn else proxymesh6_learn) k) a |> else th).

(** dpi_session_init and dpi_session_proxymesh_init *)
Definition dpi_session_init th : sthread T := th <| smap := fun _ _ => RcuMap.rcu_map_init 0 |>.

(** ** Reports *)

Definition put_session a s th : sthread T := th <| sessions ::= <[a := s]> |>.

Definition state_num (st : Tcp.tcp_state) : Z :=
  match st with
  | Tcp.TCP_ESTABLISHED => 1 | Tcp.TCP_SYN_SENT => 2 | Tcp.TCP_SYN_RECV => 3 | Tcp.TCP_FIN_WAIT1 => 4 | Tcp.TCP_FIN_WAIT2 => 5
  | Tcp.TCP_TIME_WAIT => 6 | Tcp.TCP_CLOSE => 7 | Tcp.TCP_CLOSE_WAIT => 8 | Tcp.TCP_LAST_ACK => 9 | Tcp.TCP_LISTEN => 10
  | Tcp.TCP_CLOSING => 11
  end.
(** tcp_state is 0 when the session is not one of TCP *)
Definition wing_state s (w : Tcp.wing T) : Z := if s_proto s =? IPPROTO_TCP then state_num (Tcp.state w) else 0.
Definition log_app s : Z := if 0 <? app s then app s else base_app s.
Definition when (b : bool) (f : Z) (g : Z) : Z := if b then Z.lor g f else g.

Definition dpi_session_log a s th : DPMsgSession :=
  let c := dclient s in
  let v := dserver s in
  let v4 := sflag DPI_SESS_FLAG_IPV4 s in
  let ingress := sflag DPI_SESS_FLAG_INGRESS s in
  let pf := PolicyRules.flags (policy_desc s) in
  let fl := when ingress DPSESS_FLAG_INGRESS 0 in
  let fl := when (sflag DPI_SESS_FLAG_TAP s) DPSESS_FLAG_TAP fl in
  let fl := when (sflag DPI_SESS_FLAG_MID_STREAM s) DPSESS_FLAG_MID fl in
  let fl := when (v4 && FLAGS_TEST pf PolicyRules.POLICY_DESC_EXTERNAL) DPSESS_FLAG_EXTERNAL fl in
  let fl := when (v4 && FLAGS_TEST pf PolicyRules.POLICY_DESC_SVC_EXTIP) DPSESS_FLAG_SVC_EXTIP fl in
  let xff := v4 && sflag DPI_SESS_FLAG_XFF s in
  let ports := match class_of (s_proto s) with PTcp | PUdp => true | _ => false end in
  let icmp := match class_of (s_proto s) with PIcmp => true | _ => false end in
  let tcp_ := s_proto s =? IPPROTO_TCP in
  let cw := Tcp.client (tcp s) in
  let sw := Tcp.server (tcp s) in
  let ent := TimerWheel.entry (th_timer th) (Tcp.ts_entry a) in
  let addr (i : list Z) := if v4 then take 4 i ++ replicate 12 0 else i in
  let z (b : bool) (n : Z) := if b then n else 0 in
  MkLog (id s) (if ingress then mac v else mac c) (if v4 then ETH_P_IP else ETH_P_IPV6) (mac c) (mac v)
    (addr (ip c)) (addr (ip v)) (z ports (port c)) (z ports (port v))
    (z icmp (Z.land (port v) 255)) (z icmp (Z.land (Z.shiftr (port v) 8) 255)) (s_proto s) fl
    (c_pkts s) (s_pkts s) (w_bytes c) (w_bytes v)
    (z tcp_ (Asm.asm_count (Tcp.asm_cache cw))) (z tcp_ (Asm.asm_count (Tcp.asm_cache sw)))
    (z tcp_ (Asm.asm_gross (Tcp.asm_cache cw))) (z tcp_ (Asm.asm_gross (Tcp.asm_cache sw))) (wing_state s cw) (wing_state s sw)
    (TimerWheel.timer_wheel_entry_get_idle ent (tick th)) (u32 (tick th - created_at s))
    (TimerWheel.timer_wheel_entry_get_life ent (tick th)) (log_app s) (Tcp.sess_threat (tcp s))
    (PolicyRules.id (policy_desc s)) (PolicyRules.action (policy_desc s)) (Tcp.sess_severity (tcp s))
    (if xff then ip4_bytes (xff_client_ip s) ++ replicate 12 0 else ip0) (z xff (xff_app s)) (z xff (xff_port s)).

(** [None]: -1 *)
Definition dpi_session_log_xff s (l : DPMsgSession) : option DPMsgSession :=
  if sflag DPI_SESS_FLAG_IPV4 s then
    let fl := when true DPSESS_FLAG_INGRESS (l_Flags l) in
    let fl := when (FLAGS_TEST (PolicyRules.flags (xff_desc s)) PolicyRules.POLICY_DESC_EXTERNAL) DPSESS_FLAG_EXTERNAL fl in
    Some (l <| l_EPMAC := mac (dserver s) |> <| l_ClientIP ::= fun i => ip4_bytes (xff_client_ip s) ++ drop 4 i |>
            <| l_Flags := Z.lor fl DPSESS_FLAG_XFF |> <| l_Application := xff_app s |> <| l_ServerPort := xff_port s |>
            <| l_PolicyAction := PolicyRules.action (xff_desc s) |> <| l_PolicyId := PolicyRules.id (xff_desc s) |>)
  else None.

Definition do_report (l : DPMsgSession) (n v : Z) th : Z * sthread T :=
  (connect_report (reports th) l n v, th <| reports ::= fun r => r ++ [Report l n v] |>).
(** x.reported_ = x. for both sides *)
Definition mark_reported s : dpi_session T :=
  s <| dclient ::= fun d => d <| reported_bytes := w_bytes d |> <| reported_pkts := c_pkts s |> |>
    <| dserver ::= fun d => d <| reported_bytes := w_bytes d |> <| reported_pkts := s_pkts s |> |>.
Definition delta s (l : DPMsgSession) : DPMsgSession :=
  l <| l_ClientPkts ::= fun n => u32 (n - reported_pkts (dclient s)) |>
    <| l_ClientBytes ::= fun n => u32 (n - reported_bytes (dclient s)) |>
    <| l_ServerPkts ::= fun n => u32 (n - reported_pkts (dserver s)) |>
    <| l_ServerBytes ::= fun n => u32 (n - reported_bytes (dserver s)) |>.
Definition violates (d : PolicyRules.dpi_policy_desc) : bool := PolicyRules.DP_POLICY_ACTION_CHECK_APP <? PolicyRules.action d.

(** 0 or -1 *)
Definition dpi_session_start_log a (xff : bool) th : option (sthread T * Z) :=
  s ← sessions th !! a;
  if negb xff && (0 <? last_report s) && (u32 (tick th - last_report s) <? 2) then Some (th, -1)
  else
    let l := dpi_session_log a s th in
    match (if xff then dpi_session_log_xff s l else Some l) with
    | None => Some (th, -1)
    | Some l =>
        if sflag DPI_SESS_FLAG_FAKE_EP s then Some (th, 0)
        else
          let '(ret, th) := do_report l 1 (Z.b2z (violates (if xff then xff_desc s else policy_desc s))) th in
          let s := s <| last_report := tick th |> in
          if 0 <? ret then Some (put_session a (mark_reported s) th, 0) else Some (put_session a s th, -1)
    end.

Definition dpi_session_mid_log a (log_violate : Z) (xff : bool) th : option (sthread T) :=
  s ← sessions th !! a;
  let l := dpi_session_log a s th in
  match (if xff then dpi_session_log_xff s l else Some l) with
  | None => Some th
  | Some l =>
      let l := delta s l in
      if sflag DPI_SESS_FLAG_FAKE_EP s then Some (put_session a (s <| last_report := tick th |>) th)
      else
        let '(ret, th) := do_report l 0 log_violate th in
        let s := if 0 <? ret then mark_reported s else s in
        Some (put_session a (s <| last_report := tick th |>) th)
  end.

(** connect_report(&dps, START_LOGGED ? 0 : 1, ...); [v]: the violations when it was logged *)
Definition end_report s (l : DPMsgSession) (v v_new : Z) th : sthread T :=
  (if sflag DPI_SESS_FLAG_START_LOGGED s then do_report l 0 v th else do_report l 1 v_new th).2.
Definition dpi_session_end_log a (log_violate : Z) (xff : bool) th : option (sthread T) :=
  s ← sessions th !! a;
  let l := delta s (dpi_session_log a s th) in
  let fake := sflag DPI_SESS_FLAG_FAKE_EP s in
  if xff then
    match dpi_session_log_xff s l with
    | None => Some th
    | Some l => Some (if negb fake && violates (xff_desc s) then end_report s l log_violate 1 th else th)
    end
  else if fake then Some th
  else
    let s_pkts_min := if sflag DPI_SESS_FLAG_MID_STREAM s then 1 else 0 in
    let severity_ := Tcp.sess_severity (tcp s) in
    Some (if violates (policy_desc s) || negb (Tcp.term_reason (tcp s) =? DPI_SESS_TERM_NORMAL) then end_report s l log_violate 1 th
          else if s_pkts_min <? s_pkts s then
            if negb (s_proto s =? IPPROTO_TCP) || sflag DPI_SESS_FLAG_ESTABLISHED s || (0 <? severity_) then end_report s l 0 0 th else th
          else if 0 <? severity_ then end_report s l 0 0 th else th).

(** ** Lookup *)

Definition mem p (o n : Z) : option (list Z) :=
  if (0 <=? o) && (o + n <=? Z.of_nat (length (pkt p))) then Some (take (Z.to_nat n) (drop (Z.to_nat o) (pkt p))) else None.
(** The addresses of the IP header as the memory of an io_ip_t *)
Definition src_ip p : option (list Z) :=
  if eth_type p =? ETH_P_IP then b ← mem p (l3 p + 12) 4; Some (b ++ replicate 12 0) else mem p (l3 p + 8) 16.
Definition dst_ip p : option (list Z) :=
  if eth_type p =? ETH_P_IP then b ← mem p (l3 p + 16) 4; Some (b ++ replicate 12 0) else mem p (l3 p + 24) 16.

Definition pflag (f : Z) p : bool := FLAGS_TEST (flags p) f.
Definition key_flags p (ingress : bool) : Z :=
  if pflag DPI_PKT_FLAG_FAKE_EP p then Z.lor DPI_SESS_FLAG_INGRESS DPI_SESS_FLAG_FAKE_EP
  else if ingress then DPI_SESS_FLAG_INGRESS else 0.

(** The address of the session or NULL, the side the packet comes from *)
Definition dpi_session_lookup (emac : list Z) p th : option (sthread T * packet * Z * bool) :=
  let ingress := pflag DPI_PKT_FLAG_INGRESS p in
  let mesh := is_mesh emac in
  let v4 := eth_type p =? ETH_P_IP in
  sip ← src_ip p;
  dip ← dst_ip p;
  let '(a, th) := lookup_key v4 mesh (SKey sip (sport p) dip (dport p) (ip_proto p) (key_flags p ingress)) th in
  if negb (a =? NULL) then Some (th, dpi_set_client_pkt p, a, true)
  else
    let '(a, th) := lookup_key v4 mesh (SKey dip (dport p) sip (sport p) (ip_proto p) (key_flags p (negb ingress))) th in
    Some (th, p, a, false).

(** ** Creation *)

Definition timeout_of (c : pclass) : Z :=
  match c with PTcp => Tcp.SESS_TIMEOUT_TCP_OPEN | PUdp => SESS_TIMEOUT_UDP | PIcmp => SESS_TIMEOUT_ICMP | PIp => SESS_TIMEOUT_IP end.
Definition count_created (c : pclass) (k : counters) : counters :=
  k <| cur_sess ::= fun n => u32 (n + 1) |> <| n_sess ::= bump c (fun n => u64 (n + 1)) |>
    <| cur_n_sess ::= bump c (fun n => u32 (n + 1)) |> <| sess_id ::= fun n => u64 (n + 1) |>.

Definition mac_num (m : list Z) : Z := foldr (fun b z => b + 256 * z) 0 m.
Definition stats_sess s : Stats.sess := Stats.Sess (sflags s) (mac_num (mac (dserver s))) (mac_num (mac (dclient s))).
Definition meter_sess s : Meter.msess :=
  Meter.MSess (sflags s) (meter_flags s) (mac (dclient s)) (ip (dclient s)) (mac (dserver s)) (ip (dserver s)).

Definition pol_session0 : PolicyLookup.dpi_session :=
  PolicyLookup.Sess 0 0 0 0 0 0 0 0 0 PolicyRules.desc_zero PolicyRules.desc_zero 0 0 0.
(** dpi_policy_lookup(p, hdl, 0, to_server, false, &policy_desc, 0) *)
Definition policy_lookup (to_server : bool) ep p (sip dip : list Z) th : PolicyRules.dpi_policy_desc * sthread T :=
  let w := PolicyLookup.World (pol th)
    (PolicyLookup.Pkt (eth_type p) (ip_proto p) (sport p) (dport p) (ip4_get sip) (ip4_get dip) (flags p)) pol_session0 (pol_threats th) in
  let '(d, w) := PolicyLookup.dpi_policy_lookup e w (ep_hdl ep) 0 to_server false PolicyRules.desc_zero 0 in
  (d, th <| pol := PolicyLookup.th w |> <| pol_threats := PolicyLookup.threats w |>).

Definition dpi_fill_proxymesh_policy_desc (to_server : bool) p (sip dip : list Z) : PolicyRules.dpi_policy_desc :=
  if eth_type p =? ETH_P_IP then
    let '(sip, dip) := if to_server then (sip, dip) else (dip, sip) in
    let is_ingress := if to_server then pflag DPI_PKT_FLAG_INGRESS p else negb (pflag DPI_PKT_FLAG_INGRESS p) in
    PolicyRules.desc_zero <| PolicyRules.action := PolicyRules.DP_POLICY_ACTION_OPEN |>
      <| PolicyRules.flags := if is_ingress then peer_flag sip else peer_flag dip |>
  else PolicyRules.desc_zero.

Definition DPLOG_FLAG_TAP : Z := 0x04.
Definition DPI_APP_NOT_CHECKED : Z := 1.
Definition dpi_session_log_from_pkt (to_server : bool) ep p (desc : PolicyRules.dpi_policy_desc) : option DPMsgSession :=
  h_dest ← mem p (l2 p) 6;
  h_source ← mem p (l2 p + 6) 6;
  sip ← src_ip p;
  dip ← dst_ip p;
  let in_ := pflag DPI_PKT_FLAG_INGRESS p in
  let v4 := eth_type p =? ETH_P_IP in
  let '(cm, sm) := if to_server then (h_source, ep_mac ep) else (ep_mac ep, h_dest) in
  let fl := when (Bool.eqb in_ to_server) DPSESS_FLAG_INGRESS 0 in
  let fl := when (ep_tap ep) DPLOG_FLAG_TAP fl in
  let fl := when (v4 && FLAGS_TEST (PolicyRules.flags desc) PolicyRules.POLICY_DESC_EXTERNAL) DPSESS_FLAG_EXTERNAL fl in
  let fl := when (v4 && FLAGS_TEST (PolicyRules.flags desc) PolicyRules.POLICY_DESC_SVC_EXTIP) DPSESS_FLAG_SVC_EXTIP fl in
  let z (b : bool) (n : Z) := if b then n else 0 in
  let ports := (ip_proto p =? IPPROTO_TCP) || (ip_proto p =? IPPROTO_UDP) in
  let '(cp, sp) := if to_server then (sport p, dport p) else (dport p, sport p) in
  let icmp := ip_proto p =? IPPROTO_ICMP in
  Some (MkLog 0 (ep_mac ep) (if v4 then ETH_P_IP else ETH_P_IPV6) cm sm (if to_server then sip else dip) (if to_server then dip else sip)
    (z ports cp) (z ports sp) (z icmp (Z.land sp 255)) (z icmp (Z.land (Z.shiftr sp 8) 255)) (ip_proto p) fl
    (z to_server 1) (z (negb to_server) 1) (z to_server (len p)) (z (negb to_server) (len p)) 0 0 0 0 0 0 0 0 0
    DPI_APP_NOT_CHECKED (threat_id p) (PolicyRules.id desc) (PolicyRules.action desc) (severity p) ip0 0 0).
(** On a packet without session *)
Definition dpi_policy_violate_log (to_server : bool) ep p (desc : PolicyRules.dpi_policy_desc) th : option (sthread T) :=
  l ← dpi_session_log_from_pkt to_server ep p desc;
  Some (if pflag DPI_PKT_FLAG_FAKE_EP p then th else (do_report l 0 1 th).2).

(** The session as Tcp.v sees it, and back *)
Definition enter a s th : Tcp.world T :=
  Tcp.World a (tcp s) (clips th) (th_timer th) (tick th) (total_asms th) (freed_asms th) (asm_buf th) (asm_pkt_seq th) (asm_pkt_len th).
Definition leave s (w : Tcp.world T) th : sthread T :=
  put_session (Tcp.self w) (s <| tcp := Tcp.sess w |>)
    (th <| clips := Tcp.clips w |> <| th_timer := Tcp.th_timer w |> <| total_asms := Tcp.total_asms w |> <| freed_asms := Tcp.freed_asms w |>
        <| asm_buf := Tcp.asm_buf w |> <| asm_pkt_seq := Tcp.asm_pkt_seq w |> <| asm_pkt_len := Tcp.asm_pkt_len w |>).
Definition on_session a (f : Tcp.world T -> Tcp.world T) th : option (sthread T) :=
  s ← sessions th !! a; Some (leave s (f (enter a s th)) th).

Definition upd_wing (c : bool) (f : dwing -> dwing) s : dpi_session T := if c then s <| dclient ::= f |> else s <| dserver ::= f |>.
Definition upd_twing (c : bool) (f : Tcp.wing T -> Tcp.wing T) s : dpi_session T :=
  s <| tcp ::= fun t => if c then t <| Tcp.client ::= f |> else t <| Tcp.server ::= f |> |>.

(** The flags and addresses of the two sides *)
Definition direction (to_server : bool) ep p (h_dest h_source : list Z) : Z * list Z * list Z :=
  if pflag DPI_PKT_FLAG_FAKE_EP p then (Z.lor DPI_SESS_FLAG_INGRESS DPI_SESS_FLAG_FAKE_EP, h_source, h_dest)
  else if pflag DPI_PKT_FLAG_INGRESS p then
    if to_server then (DPI_SESS_FLAG_INGRESS, h_source, ep_mac ep) else (0, ep_mac ep, h_source)
  else if to_server then (0, ep_mac ep, h_dest) else (DPI_SESS_FLAG_INGRESS, h_dest, ep_mac ep).

Definition twing0 : Tcp.wing T := Tcp.Wing 0 0 0 0 0 0 Tcp.TCP_CLOSING 0 0 Asm.asm_init 0.
Definition new_session (to_server : bool) ep p (h_dest h_source sip dip : list Z) (d : PolicyRules.dpi_policy_desc) th : dpi_session T :=
  let '(fl, cm, sm) := direction to_server ep p h_dest h_source in
  let fl := when (ep_tap ep) DPI_SESS_FLAG_TAP fl in
  let fl := when (eth_type p =? ETH_P_IP) DPI_SESS_FLAG_IPV4 fl in
  let '(ci, si, cp, sp) := if to_server then (sip, dip, sport p, dport p) else (dip, sip, dport p, sport p) in
  Sess _ (u32 (sess_id (counter th))) (tick th) 0 (dwing0 <| mac := cm |> <| ip := ci |> <| port := cp |>)
    (dwing0 <| mac := sm |> <| ip := si |> <| port := sp |>) 0 0 0 0 (ip_proto p) d PolicyRules.desc_zero 0 0 0
    (Tcp.Session twing0 twing0 fl 0 0 0 0 0 0).
Definition key_of s : skey := SKey (ip (dclient s)) (port (dclient s)) (ip (dserver s)) (port (dserver s)) (s_proto s) (sflags s).

(** this_wing: the packet is counted *)
Definition count_packet (c : bool) p s : dpi_session T :=
  upd_twing c (fun w => w <| Tcp.pkts ::= fun n => u32 (n + 1) |>)
    (upd_wing c (fun w => w <| w_bytes ::= fun n => u32 (n + cap_len p) |>) s).

(** [alloc]: calloc succeeds.  The session or NULL *)
Definition dpi_session_create (alloc to_server : bool) ep x th : option (pctx * sthread T * Z) :=
  let p := pk x in
  let mesh := is_mesh (ep_mac ep) in
  h_dest ← mem p (l2 p) 6;
  h_source ← mem p (l2 p + 6) 6;
  sip ← src_ip p;
  dip ← dst_ip p;
  let '(d, th) := if mesh then (dpi_fill_proxymesh_policy_desc to_server p sip dip, th) else policy_lookup to_server ep p sip dip th in
  if negb mesh && (PolicyRules.action d =? PolicyRules.DP_POLICY_ACTION_DENY) then
    th ← dpi_policy_violate_log to_server ep p d th;
    Some (x <| pk := dpi_set_action p DPI_ACTION_DROP |>, th, NULL)
  else if negb alloc then Some (x, th, NULL)
  else
    let a := Frag.malloc (dom (sessions th)) in
    let c := class_of (ip_proto p) in
    let th := th <| counter ::= count_created c |> in
    let s := new_session to_server ep p h_dest h_source sip dip d th in
    let v4 := eth_type p =? ETH_P_IP in
    let th := set_smap v4 mesh (fun m => RcuMap.rcu_map_add (hash_of v4 mesh) m a (key_of s)) th in
    let th := th <| th_timer ::= fun t =>
      TimerWheel.timer_wheel_entry_start
        (TimerWheel.timer_wheel_entry_init (TimerWheel.timer_wheel_entry_init t (Tcp.ts_entry a)) (Tcp.tick_entry a))
        (Tcp.ts_entry a) Tcp.dpi_session_timeout (timeout_of c) (tick th) |> in
    let s := count_packet to_server p s in
    let th := th <| stats ::= fun w => Stats.dpi_inc_stats_session g_ep_map w (ep_stats ep) (stats_sess s) |> in
    let p := if to_server then dpi_set_client_pkt p else p in
    Some (x <| pk := p <| flags ::= fun f => FLAGS_SET f DPI_PKT_FLAG_NEW_SESSION |> |> <| side := to_server |>, put_session a s th, a).

(** ** Release *)

Definition count_released s (k : counters) : counters :=
  let k := k <| cur_sess ::= fun n => u32 (n - 1) |> <| cur_n_sess ::= bump (class_of (s_proto s)) (fun n => u32 (n - 1)) |> in
  if sflag DPI_SESS_FLAG_FINAL_PARSER s
  then k <| parser_sess ::= bump (only_parser s) (fun n => u64 (n + 1)) |>
         <| parser_pkts ::= bump (only_parser s) (fun n => u64 (n + u32 (c_pkts s + s_pkts s))) |>
  else k.

(** asm_destroy of both caches *)
Definition destroy_caches a th : option (sthread T) :=
  s ← sessions th !! a;
  '(c, freed) ← Asm.asm_destroy (Tcp.asm_cache (Tcp.client (tcp s)));
  '(d, freed') ← Asm.asm_destroy (Tcp.asm_cache (Tcp.server (tcp s)));
  let s := upd_twing true (fun y => y <| Tcp.asm_cache := c |>) (upd_twing false (fun y => y <| Tcp.asm_cache := d |>) s) in
  Some (leave s (foldl Tcp.dpi_asm_remove (enter a s th) (freed ++ freed')) th).

Definition end_logs a th : option (sthread T) :=
  s ← sessions th !! a;
  if Tcp.term_reason (tcp s) =? DPI_SESS_TERM_VOLUME then Some th
  else
    th ← dpi_session_end_log a 0 false th;
    if sflag DPI_SESS_FLAG_XFF s then dpi_session_end_log a 0 true th else Some th.

(** ep_mac of a session *)
Definition sess_ep_mac s : list Z := if sflag DPI_SESS_FLAG_INGRESS s then mac (dserver s) else mac (dclient s).
Definition dpi_session_release a th : option (sthread T) :=
  s ← sessions th !! a;
  let mesh := is_mesh (sess_ep_mac s) in
  let th := if TimerWheel.timer_wheel_entry_is_active (th_timer th) (Tcp.tick_entry a)
            then th <| th_timer ::= fun t => TimerWheel.timer_wheel_entry_remove t (Tcp.tick_entry a) |> else th in
  m ← Meter.dpi_meter_session_dec (meters th) (meter_sess s);
  let th := th <| meters := m |> <| stats ::= fun w => Stats.dpi_dec_stats_session g_ep_map w (stats_sess s) |> in
  th ← (if s_proto s =? IPPROTO_TCP then on_session a Tcp.tcp_scan_detection_release th else Some th);
  th ← end_logs a th;
  th ← destroy_caches a th;
  let th := th <| purged ::= fun l => l ++ [a] |> in
  let th := set_smap (sflag DPI_SESS_FLAG_IPV4 s) mesh (fun m => (RcuMap.rcu_map_del m a).1) th in
  Some (th <| counter ::= count_released s |> <| sessions ::= delete a |>).

(** term_reason has two bits. *)
Definition dpi_session_term_reason a (term : Z) th : sthread T :=
  th <| sessions ::= alter (fun s => s <| tcp ::= fun t => t <| Tcp.term_reason := term mod 4 |> |>) a |>.
Definition dpi_session_delete a (reason : Z) th : option (sthread T) :=
  let th := dpi_session_term_reason a reason th in
  let th := th <| th_timer ::= fun t => TimerWheel.timer_wheel_entry_remove t (Tcp.ts_entry a) |> in
  dpi_session_release a th.

(** ** Trackers *)

(** if (s == NULL) { create, count on the meters }: the session or NULL *)
Definition meter_session a p th : option (sthread T * Z) :=
  s ← sessions th !! a;
  '(m, ms, act) ← Meter.dpi_meter_session_inc tc (meters th) p (meter_sess s);
  Some (put_session a (s <| meter_flags := Meter.meter_flags ms |>) (th <| meters := m |>), act).
Definition open_session (alloc to_server : bool) ep x th : option (pctx * sthread T * Z) :=
  '(x, th, a) ← dpi_session_create alloc to_server ep x th;
  if a =? NULL then Some (x, th, NULL)
  else
    '(th, act) ← meter_session a (pk x) th;
    if negb (act =? Meter.DPI_METER_ACTION_NONE) then
      th ← dpi_session_delete a DPI_SESS_TERM_VOLUME th;
      Some (x <| pk ::= fun p => dpi_set_action p DPI_ACTION_DROP |>, th, NULL)
    else Some (x <| psess := a |>, th, a).

Definition refresh x th : option (sthread T) := on_session (psess x) Tcp.dpi_session_timer_refresh th.
(** p->raw.seq = p->this_wing->next_seq; p->this_wing->next_seq = p->raw.seq + p->raw.len *)
Definition track_seq x th : option (pctx * sthread T) :=
  s ← sessions th !! psess x;
  let q := Tcp.next_seq (if side x then Tcp.client (tcp s) else Tcp.server (tcp s)) in
  Some (x <| pk ::= fun p => p <| raw_seq := q |> |>,
        put_session (psess x) (upd_twing (side x) (fun w => w <| Tcp.next_seq := u32 (q + raw_len (pk x)) |>) s) th).
Definition session_flag (f : Z) a th : sthread T := th <| sessions ::= alter (set_sflag f) a |>.

Definition udp_mid_session_direction ep p : bool :=
  let ingress := pflag DPI_PKT_FLAG_INGRESS p in
  match Parser.dpi_ep_app_map_lookup (ep_io ep) (if ingress then dport p else sport p) (ip_proto p) with
  | Some _ => ingress
  | None => negb ingress
  end.
Definition server_port (prt : Z) : bool :=
  (prt =? DHCP_SERVER_PORT) || (prt =? DNS_SERVER_PORT) || (prt =? DNS_MC_SERVER_PORT).
Definition udp_to_server ep p : bool :=
  if server_port (dport p) then true else if server_port (sport p) then false else udp_mid_session_direction ep p.

Definition dpi_udp_tracker (alloc : bool) ep x th : option (pctx * sthread T) :=
  if psess x =? NULL then
    '(x, th, a) ← open_session alloc (udp_to_server ep (pk x)) ep x th;
    if a =? NULL then Some (x, th) else track_seq x th
  else th ← refresh x th; track_seq x th.

Definition dpi_ip_tracker (alloc : bool) ep x th : option (pctx * sthread T) :=
  if psess x =? NULL then
    '(x, th, a) ← open_session alloc true ep x th;
    if a =? NULL then Some (x, th) else track_seq x (session_flag DPI_SESS_FLAG_SKIP_PARSER a th)
  else th ← refresh x th; track_seq x th.

(** dpi_threat_trigger on a packet with a session *)
Definition session_threat (idx : Z) x th : option (pctx * sthread T) :=
  s ← sessions th !! psess x;
  let '(w, p) := Tcp.threat_trigger tc idx (enter (psess x) s th) (pk x) in
  Some (x <| pk := p |>, leave s w th).

Definition upd_client (f : dwing -> dwing) a th : sthread T := th <| sessions ::= alter (upd_wing true f) a |>.
Definition forget_echo (d : dwing) : dwing := d <| icmp_echo_hash := 0 |> <| icmp_echo_seq := 0 |>.
Definition dpi_icmp_tunneling_check x th : option (pctx * sthread T) :=
  let p := pk x in
  let a := psess x in
  s ← sessions th !! a;
  type ← ld8 (pkt p) (l4 p);
  let c := dclient s in
  if icmp_times c =? ICMP_TUNNEL_REPORTED then Some (x, th)
  else if type =? ICMP_ECHO then
    data ← mem p (raw_ptr p) (raw_len p);
    seq ← ld16 (pkt p) (l4 p + 6);
    Some (x, upd_client (fun d => d <| icmp_echo_hash := sdbm_hash data |> <| icmp_echo_seq := seq |>) a th)
  else if type =? ICMP_ECHOREPLY then
    data ← mem p (raw_ptr p) (raw_len p);
    seq ← ld16 (pkt p) (l4 p + 6);
    if (icmp_echo_seq c =? seq) && negb (icmp_echo_hash c =? 0) then
      if icmp_echo_hash c =? sdbm_hash data then Some (x, upd_client (fun d => forget_echo (d <| icmp_times := 0 |>)) a th)
      else
        let n := u8 (icmp_times c + 1) in
        if n =? ICMP_TUNNEL_THRESHOD then
          '(x, th) ← session_threat DPI_THRT_ICMP_TUNNELING x (upd_client (fun d => d <| icmp_times := ICMP_TUNNEL_REPORTED |>) a th);
          Some (x, upd_client forget_echo a th)
        else Some (x, upd_client (fun d => forget_echo (d <| icmp_times := n |>)) a th)
    else Some (x, th)
  else Some (x, th).

(** The header embedded in a destination unreachable message is looked up as a packet of
    the opposite direction. *)
Definition embedded p (proto sp dp : Z) : packet :=
  p <| ip_proto := proto |> <| flags ::= fun f => Z.lxor f DPI_PKT_FLAG_INGRESS |> <| sport := ntohs sp |> <| dport := ntohs dp |>
    <| l3 := u16 (l4 p + 8) |>.
Definition lookup_embedded ep p (proto sp dp : Z) th : option (sthread T * Z) :=
  '(th, _, a, _) ← dpi_session_lookup (ep_mac ep) (embedded p proto sp dp) th;
  Some (th, if a =? NULL then -1 else 0).
Definition dpi_parse_embed_icmp ep p th : option (sthread T * Z) :=
  let icmp_len := u16 (len p - l4 p) in
  let iph := l4 p + 8 in
  if icmp_len <? 8 + 20 then Some (th, -1)
  else
    v ← ld8 (pkt p) iph;
    if negb (Z.shiftr v 4 =? 4) then Some (th, -1)
    else
      tot ← ld16 (pkt p) (iph + 2);
      let iph_len := get_iph_len v in
      if (iph_len <? 20) || (ntohs tot <? iph_len) then Some (th, -1)
      else if icmp_len <? 8 + iph_len + 4 then Some (th, -1)
      else
        proto ← ld8 (pkt p) (iph + 9);
        sp ← ld16 (pkt p) (iph + iph_len);
        dp ← ld16 (pkt p) (iph + iph_len + 2);
        lookup_embedded ep p proto sp dp th.

(** The offset from ip6h behind the extension headers or -1, and the protocol *)
Definition dpi_parse_ipv6_ext4embed_icmp p (ip6h ptr end_ : Z) : option (Z * Z) :=
  type ← ld8 (pkt p) (ip6h + 6);
  '(_, offset, proto) ← Packet.ext_loop (Z.to_nat end_) (p <| l3 := ip6h |>) ptr end_ type false;
  Some (offset, proto).
Definition dpi_parse_embed_icmpv6 ep p th : option (sthread T * Z) :=
  let icmp6_len := u16 (len p - l4 p) in
  let ip6h := l4 p + 8 in
  if icmp6_len <? 8 + 40 then Some (th, -1)
  else
    '(offset, proto) ← dpi_parse_ipv6_ext4embed_icmp p ip6h (ip6h + 40) (len p);
    if offset <? 0 then Some (th, -1)
    else if icmp6_len <? 8 + 40 + offset + 4 then Some (th, -1)
    else
      sp ← ld16 (pkt p) (ip6h + 40 + offset);
      dp ← ld16 (pkt p) (ip6h + 40 + offset + 2);
      lookup_embedded ep p proto sp dp th.

(** [junk] is ipv4 of dpi_meter_packet_inc, which is not set for IPv6 (Meter.v). *)
Definition icmp_flood (junk : bool) ep x th : option (pctx * sthread T * Z) :=
  if thrt_enable (tc DPI_THRT_ICMP_FLOOD) && dpi_is_client_pkt (pk x) then
    '(m, p, act) ← Meter.dpi_meter_packet_inc tc junk (meters th) Meter.DPI_METER_ICMP_FLOOD (pk x) (ep_mac ep);
    Some (x <| pk := p |>, th <| meters := m |>, act)
  else Some (x, th, Meter.DPI_METER_ACTION_NONE).
Definition icmp_session (alloc : bool) ep x th : option (pctx * sthread T * Z) :=
  if psess x =? NULL then
    '(x, th, a) ← open_session alloc (dpi_is_client_pkt (pk x)) ep x th;
    if a =? NULL then Some (x, th, NULL)
    else Some (x, session_flag DPI_SESS_FLAG_SKIP_PARSER a (upd_client (fun d => forget_echo d <| icmp_times := 0 |>) a th), a)
  else th ← refresh x th; Some (x, th, psess x).
Definition icmp_unreachable p (type : Z) : bool :=
  if ip_proto p =? IPPROTO_ICMP then type =? ICMP_DEST_UNREACH else type =? ICMP6_DST_UNREACH.
Definition dpi_icmp_tracker (alloc junk : bool) ep x th : option (pctx * sthread T) :=
  let p := pk x in
  type ← ld8 (pkt p) (l4 p);
  if icmp_unreachable p type then
    '(th, r) ← (if ip_proto p =? IPPROTO_ICMP then dpi_parse_embed_icmp ep p th else dpi_parse_embed_icmpv6 ep p th);
    Some (x <| pk := dpi_set_action p (if r <? 0 then DPI_ACTION_DROP else DPI_ACTION_BYPASS) |>, th)
  else
    '(x, th, act) ← icmp_flood junk ep x th;
    if negb (act =? Meter.DPI_METER_ACTION_NONE) then Some (x, th)
    else
      '(x, th, a) ← icmp_session alloc ep x th;
      if a =? NULL then Some (x, th)
      else
        '(x, th) ← (if (PING_DEATH_LENGTH <? raw_len (pk x)) && dpi_is_client_pkt (pk x)
                    then session_threat DPI_THRT_PING_DEATH x th else Some (x, th));
        '(x, th) ← dpi_icmp_tunneling_check x th;
        track_seq x th.

(** The switch of dpi_pkt_proto_tracker for the protocols other than TCP *)
Definition dpi_pkt_proto_tracker (alloc junk : bool) ep x th : option (pctx * sthread T) :=
  match class_of (ip_proto (pk x)) with
  | PTcp => None
  | PUdp => dpi_udp_tracker alloc ep x th
  | PIcmp => dpi_icmp_tracker alloc junk ep x th
  | PIp => dpi_ip_tracker alloc ep x th
  end.

(** ** The packet and its session *)

Definition mask_flag (b : bool) (f : Z) s : dpi_session T :=
  s <| tcp ::= fun t => t <| Tcp.sess_flags ::= fun g => if b then FLAGS_SET g f else FLAGS_UNSET 16 g f |> |>.
(** p->session = dpi_session_lookup(): the session found counts the packet. *)
Definition find_session ep p th : option (pctx * sthread T) :=
  '(th, p, a, c) ← dpi_session_lookup (ep_mac ep) p th;
  if a =? NULL then Some (PCtx p NULL false, th)
  else
    s ← sessions th !! a;
    let s := mask_flag (is_mesh (ep_mac ep)) DPI_SESS_FLAG_PROXYMESH (mask_flag (ep_tap ep) DPI_SESS_FLAG_TAP (count_packet c p s)) in
    Some (PCtx p a c, put_session a s th).

(** Threat and action of packet and session *)
Definition merge_verdict x th : option (pctx * sthread T) :=
  if psess x =? NULL then Some (x, th)
  else
    s ← sessions th !! psess x;
    let p := pk x in
    let '(s, p) := if Tcp.sess_severity (tcp s) <? severity p
      then (s <| tcp ::= fun t => t <| Tcp.sess_severity := severity p |> <| Tcp.sess_threat := threat_id p |> |>,
            p <| flags ::= fun f => FLAGS_SET f DPI_PKT_FLAG_LOG_MID |>)
      else (s, p) in
    Some (x <| pk := dpi_set_action p (Tcp.sess_action (tcp s)) |>, put_session (psess x) s th).

Definition start_logs a p th : option (sthread T) :=
  '(th, r) ← dpi_session_start_log a false th;
  if r =? 0 then
    let th := session_flag DPI_SESS_FLAG_START_LOGGED a th in
    if pflag DPI_PKT_FLAG_LOG_XFF p then '(th, _) ← dpi_session_start_log a true th; Some th else Some th
  else Some th.
Definition mid_logs a p th : option (sthread T) :=
  let v (f : Z) := Z.b2z (pflag f p) in
  if pflag DPI_PKT_FLAG_LOG_XFF p then
    th ← (if pflag DPI_PKT_FLAG_LOG_MID p then dpi_session_mid_log a (v DPI_PKT_FLAG_LOG_VIOLATE) false th else Some th);
    dpi_session_mid_log a (v DPI_PKT_FLAG_LOG_XFF_VIO) true th
  else dpi_session_mid_log a (v DPI_PKT_FLAG_LOG_VIOLATE) false th.
Definition mid_due s p (now : Z) : bool :=
  FLAGS_TEST (flags p) (Z.lor (Z.lor DPI_PKT_FLAG_LOG_MID DPI_PKT_FLAG_LOG_VIOLATE) (Z.lor DPI_PKT_FLAG_LOG_XFF DPI_PKT_FLAG_LOG_XFF_VIO)) ||
  (DPI_CONNECT_REPORT_INTERVAL <=? u32 (now - last_report s)) ||
  (s_proto s =? IPPROTO_UDP) && (only_parser s =? Parser.DPI_PARSER_DNS) &&
  (DPI_CONNECT_REPORT_INTERVAL_SHORT <=? u32 (now - last_report s)).
Definition ping_scan s p : bool := match class_of (ip_proto p) with PIcmp => s_pkts s =? 0 | _ => false end.
Definition dpi_pkt_log ep x th : option (sthread T) :=
  if psess x =? NULL then Some th
  else
    s ← sessions th !! psess x;
    let p := pk x in
    if negb (sflag DPI_SESS_FLAG_SURE_PARSER s) then Some th
    else if negb (sflag DPI_SESS_FLAG_START_LOGGED s) then
      if ping_scan s p || (is_mesh (ep_mac ep) && negb (sflag DPI_SESS_FLAG_INGRESS s) && (s_pkts s =? 0)) then Some th
      else start_logs (psess x) p th
    else if mid_due s p (tick th) then mid_logs (psess x) p th
    else Some th.

(** Packet action to session action; returns the action. *)
Definition set_sess_action (act : Z) a th : sthread T :=
  th <| sessions ::= alter (fun s => s <| tcp ::= fun t => t <| Tcp.sess_action := act |> |>) a |>.
Definition session_action ep x th : Z * sthread T :=
  let p := pk x in
  let act := action p in
  let found := negb (psess x =? NULL) in
  let on (b : bool) (v : Z) := if b && found then set_sess_action v (psess x) th else th in
  if act =? DPI_ACTION_NONE then (act, th)
  else if ep_tap ep then (act, on (act =? DPI_ACTION_BYPASS) DPI_ACTION_BYPASS)
  else if (act =? DPI_ACTION_DROP) || (act =? DPI_ACTION_RESET) then (act, on (ip_proto p =? IPPROTO_TCP) DPI_ACTION_BLOCK)
  else if act =? DPI_ACTION_BYPASS then (DPI_ACTION_ALLOW, on true DPI_ACTION_BYPASS)
  else if act =? DPI_ACTION_BLOCK then (DPI_ACTION_DROP, on true DPI_ACTION_BLOCK)
  else (act, th).

(** dpi_post_cache_packet of a packet that is not of TCP *)
Definition dpi_post_cache_packet x th : option (sthread T) :=
  s ← sessions th !! psess x;
  let s := upd_twing (side x) (fun w => w <| Tcp.asm_seq := Tcp.next_seq w |>) s in
  let w := if side x then Tcp.client (tcp s) else Tcp.server (tcp s) in
  '(c, freed) ← Asm.asm_flush (clips th) (Tcp.asm_cache w) (Tcp.asm_seq w);
  let s := upd_twing (side x) (fun w => w <| Tcp.asm_cache := c |>) s in
  Some (leave s (foldl Tcp.dpi_asm_remove (enter (psess x) s th) freed) th).

(** dpi_inspect_ethernet on a packet that is not of TCP.  [inspect] is what the parsers, the
    re-evaluation of the policy and the pattern match do to the packet and its session. *)
Definition dpi_inspect_ethernet (inspect : pctx -> option (dpi_session T) -> packet * option (dpi_session T))
    (alloc junk : bool) ep p th : option (Z * sthread T) :=
  '(x, th) ← find_session ep p th;
  '(x, th) ← dpi_pkt_proto_tracker alloc junk ep x th;
  '(x, th) ← merge_verdict x th;
  let '(p, o) := inspect x (sessions th !! psess x) in
  let x := x <| pk := p |> in
  let th := match o with Some s => put_session (psess x) s th | None => th end in
  th ← dpi_pkt_log ep x th;
  th ← (if negb (Packet.dpi_is_action_final (ep_tap ep) (action p)) && negb (psess x =? NULL) then dpi_post_cache_packet x th else Some th);
  Some (session_action ep x th).

(** ** Requests of the control thread *)

Definition DP_MSG_SIZE : Z := 8192.
Definition SESSIONS_PER_MSG : Z := (DP_MSG_SIZE - 4 - 4) / sizeof_DPMsgSession.
Definition netify_session_log (l : DPMsgSession) : DPMsgSession :=
  l <| l_ID ::= htonl |> <| l_EtherType ::= htons |> <| l_ClientPort ::= htons |> <| l_ServerPort ::= htons |>
    <| l_ClientPkts ::= htonl |> <| l_ClientBytes ::= htonl |> <| l_ClientAsmPkts ::= htonl |> <| l_ClientAsmBytes ::= htonl |>
    <| l_ServerPkts ::= htonl |> <| l_ServerBytes ::= htonl |> <| l_ServerAsmPkts ::= htonl |> <| l_ServerAsmBytes ::= htonl |>
    <| l_Application ::= htons |> <| l_Age ::= htonl |> <| l_Idle ::= htons |> <| l_Life ::= htons |> <| l_PolicyId ::= htonl |>
    <| l_ThreatID ::= htonl |> <| l_XffApp ::= htons |> <| l_XffPort ::= htons |>.

(** What is sent: Length and Sessions before htons, and the entries *)
Record sessions_msg := SessionsMsg { msg_length : Z; msg_sessions : Z; msg_entries : list DPMsgSession }.
Definition send_sessions (buf : list DPMsgSession) : sessions_msg :=
  let count := Z.of_nat (length buf) in
  SessionsMsg (u16 (4 + 4 + sizeof_DPMsgSession * count)) (u16 count) buf.
(** RCU_MAP_ITR_FOR_EACH: the iterator keeps the next node, so the current one may be deleted. *)
Definition nodes_of (m : RcuMap.rcu_map) : list Z := RcuMap.node <$> RcuMap.map m.
(** [buf] is what is in th_dp_msg. *)
Fixpoint list_map (net : bool) (l : list Z) th (buf : list DPMsgSession) (sent : list sessions_msg) :
    option (list DPMsgSession * list sessions_msg) :=
  match l with
  | [] => Some (buf, sent)
  | a :: l =>
      s ← sessions th !! a;
      let log := dpi_session_log a s th in
      let buf := buf ++ [if net then netify_session_log log else log] in
      if Z.of_nat (length buf) =? SESSIONS_PER_MSG then list_map net l th [] (sent ++ [send_sessions buf])
      else list_map net l th buf sent
  end.
Definition dpi_list_session th : option (list sessions_msg) :=
  '(buf, sent) ← list_map true (nodes_of (smap th true false)) th [] [];
  '(buf, sent) ← list_map true (nodes_of (smap th true true)) th buf sent;
  '(buf, sent) ← list_map false (nodes_of (smap th false false)) th buf sent;
  '(buf, sent) ← list_map false (nodes_of (smap th false true)) th buf sent;
  Some (match buf with [] => sent | _ => sent ++ [send_sessions buf] end).

Fixpoint clear_map (g_sess_id_to_clear : Z) (l : list Z) th : option (sthread T) :=
  match l with
  | [] => Some th
  | a :: l =>
      s ← sessions th !! a;
      if g_sess_id_to_clear =? 0 then th ← dpi_session_delete a DPI_SESS_TERM_NORMAL th; clear_map g_sess_id_to_clear l th
      else if g_sess_id_to_clear =? id s then dpi_session_delete a DPI_SESS_TERM_NORMAL th
      else clear_map g_sess_id_to_clear l th
  end.
Definition dpi_clear_session (sid : Z) th : option (sthread T) :=
  th ← clear_map sid (nodes_of (smap th true false)) th;
  th ← clear_map sid (nodes_of (smap th true true)) th;
  th ← clear_map sid (nodes_of (smap th false false)) th;
  clear_map sid (nodes_of (smap th false true)) th.

Fixpoint del_map (m : list Z) (l : list Z) th : option (sthread T) :=
  match l with
  | [] => Some th
  | a :: l =>
      s ← sessions th !! a;
      if bool_decide (sess_ep_mac s = m) then th ← dpi_session_delete a DPI_SESS_TERM_NORMAL th; del_map m l th
      else del_map m l th
  end.
Definition dpi_session_delete_by_mac (m : list Z) th : option (sthread T) :=
  th ← del_map m (nodes_of (smap th true false)) th;
  th ← del_map m (nodes_of (smap th true true)) th;
  th ← del_map m (nodes_of (smap th false false)) th;
  del_map m (nodes_of (smap th false true)) th.

(** ** Timers

    dpi_session_timeout releases the session of the entry.  The other two callbacks are set
    on sessions of TCP alone. *)
Definition run_session_cb (cb : Tcp.sess_cb) (n : Z) th : sthread T :=
  match cb with
  | Tcp.dpi_session_timeout =>
      match dpi_session_release (n / 2) th with Some th => th | None => th <| fault := true |> end
  | _ => th <| fault := true |>
  end.
End ops.

(** The thread of dpi_timeout: the callbacks need the maps of endpoints and the reports. *)
#[export] Instance session_world T `{!OrderedTree T} g_ep_map connect_report : TimerWheel.TimerWorld (sthread T) Z Tcp.sess_cb := {|
  TimerWheel.wheel := th_timer;
  TimerWheel.wheel_upd f w := w <| th_timer ::= f |>;
  TimerWheel.run_callback := run_session_cb g_ep_map connect_report;
  TimerWheel.wheel_wheel_upd f w := eq_refl
|}.
End Session.
