(* ===== verification/SessionLaw.v ===== *)
(** * dpi/dpi_session.c: the session table

    The invariant of the sessions of a thread (Session.v): sessions, maps, timers, counters
    and meters agree.  Every operation keeps it and none touches a session that is not
    there.  Sessions of TCP are left out: no session of the invariant is one. *)

From S2P Require Import Prelude Helper Tree Asm RcuMap TimerWheel Wire Frag Packet Stats Meter Tcp PolicyRules PolicyLookup Parser Reports Session.
Import Helper.Bytes Helper.Hash Wire.Wire.

Module SessionLaw.
Import Reports.Connect Session.Session.
#[local] Existing Instances Tcp.eta_session Tcp.eta_wing Tcp.eta_world PolicyRules.eta_desc PolicyLookup.eta_pworld Meter.mkey_eq_dec Meter.eta_mthread TimerWheel.eta_entry TimerWheel.eta_wheel.

(** ** Flags *)

Lemma test_land f m b : Z.land m b = b -> FLAGS_TEST (Z.land f m) b = FLAGS_TEST f b.
Proof. intros H. unfold FLAGS_TEST. by rewrite <- Z.land_assoc, H. Qed.
Lemma land_set f b m : Z.land b m = 0 -> Z.land (FLAGS_SET f b) m = Z.land f m.
Proof. intros H. unfold FLAGS_SET. by rewrite Z.land_lor_distr_l, H, Z.lor_0_r. Qed.
Lemma land_unset f b m w : Z.land (Z.lnot b mod 2 ^ w) m = m -> Z.land (FLAGS_UNSET w f b) m = Z.land f m.
Proof. intros H. unfold FLAGS_UNSET. by rewrite <- Z.land_assoc, H. Qed.

(** The flags of a session that do not change: IPV4, INGRESS and FAKE_EP *)
Definition FIXED : Z := 0x91.

Section law.
Context {T : Type} `{!OrderedTree T}.
Context (tc : Z -> threat_conf) (e : PolicyRules.env) (g_ep_map : Z -> option Z) (connect_report : list report -> DPMsgSession -> Z -> Z -> Z).
Implicit Types (s : dpi_session T) (th : sthread T) (p : packet) (a : Z) (x : pctx) (ep : pkt_ep) (k : skey).
Implicit Types (ss : gmap Z (dpi_session T)) (dl : gmap Z Z).

(** ** Keys *)

(** What a map compares of a key *)
Definition canon (v4 mesh : bool) k : skey :=
  let i (l : list Z) := if v4 then take 4 l else l in
  if mesh then SKey (i (kc_ip k)) (kc_port k) [] 0 (k_proto k) 0
  else SKey (i (kc_ip k)) (kc_port k) (i (ks_ip k)) (ks_port k) (k_proto k) (Z.land (k_flags k) SESS_FLAGS_FOR_LOOKUP).
Definition keyof (v4 mesh : bool) ss a : option skey := s ← ss !! a; Some (canon v4 mesh (key_of s)).

Lemma match_canon v4 mesh ss a k : match_of v4 mesh ss a k = bool_decide (keyof v4 mesh ss a = Some (canon v4 mesh k)).
Proof.
  unfold match_of, keyof. destruct (ss !! a) as [s|]; [|done]. cbn [mbind option_bind].
  apply eq_true_iff_eq. rewrite bool_decide_eq_true.
  destruct mesh, v4; unfold session4_proxymesh_match, session6_proxymesh_match, session4_match, session6_match, ip4_eq, ip6_eq, canon, key_of;
    cbn [kc_ip kc_port ks_ip ks_port k_proto k_flags];
    rewrite ?andb_true_iff, ?bool_decide_eq_true, ?Z.eqb_eq; (split; [|intros [=]; by split_and!]);
    intros; destruct_and!; congruence.
Qed.

Lemma hash_canon v4 mesh k : hash_of v4 mesh (canon v4 mesh k) = hash_of v4 mesh k.
Proof. destruct v4, mesh; unfold hash_of, session4_hash, session4_proxymesh_hash; cbn [canon kc_ip kc_port ks_ip ks_port]; by rewrite ?take_idemp. Qed.

Definition cmatch (v4 mesh : bool) ss a k : bool := bool_decide (keyof v4 mesh ss a = Some k).
Lemma lookup_canon v4 mesh ss m k :
  RcuMap.rcu_map_lookup (match_of v4 mesh ss) (hash_of v4 mesh) m k =
  RcuMap.rcu_map_lookup (cmatch v4 mesh ss) (hash_of v4 mesh) m (canon v4 mesh k).
Proof.
  unfold RcuMap.rcu_map_lookup, RcuMap.cds_lfht_lookup. rewrite hash_canon.
  erewrite find_first_ext; [done|]. intros y _. by rewrite match_canon.
Qed.

(** ** Counting sessions *)

Definition count (P : dpi_session T -> bool) ss : Z := map_fold (fun _ s n => Z.b2z (P s) + n) 0 ss.
Implicit Types P : dpi_session T -> bool.

Lemma count_insert P ss a s : ss !! a = None -> count P (<[a := s]> ss) = Z.b2z (P s) + count P ss.
Proof. intros H. unfold count. rewrite map_fold_insert_L; [done| |done]. intros. lia. Qed.
Lemma count_delete P ss a s : ss !! a = Some s -> count P ss = Z.b2z (P s) + count P (delete a ss).
Proof. intros H. rewrite <- (insert_delete_id ss a s H) at 1. apply count_insert, lookup_delete_eq. Qed.
Lemma count_replace P ss a s s' : ss !! a = Some s -> count P (<[a := s']> ss) = count P ss - Z.b2z (P s) + Z.b2z (P s').
Proof.
  intros H. rewrite (count_delete P ss a s H), <- (insert_delete_eq ss a s'), count_insert by apply lookup_delete_eq. lia.
Qed.
Lemma count_bounds P ss : 0 <= count P ss <= Z.of_nat (size ss).
Proof.
  induction ss as [|a s ss H IH] using map_ind; [done|]. rewrite count_insert, map_size_insert_None by done.
  destruct (P s); simpl; lia.
Qed.
Lemma count_pos P ss a s : ss !! a = Some s -> P s = true -> 0 < count P ss.
Proof. intros H HP. rewrite (count_delete P ss a s H), HP. pose proof (count_bounds P (delete a ss)). simpl. lia. Qed.

(** ** What stays of a session *)

Definition v4_of s : bool := sflag DPI_SESS_FLAG_IPV4 s.
Definition mesh_of s : bool := is_mesh (sess_ep_mac s).
(** On the session meter *)
Definition on_meter s : bool := sflag DPI_SESS_FLAG_INGRESS s && FLAGS_TEST (meter_flags s) Meter.DPI_SESS_METER_FLAG_IP_SESSION.
Definition client_cache s := Tcp.asm_cache (Tcp.client (tcp s)).
Definition server_cache s := Tcp.asm_cache (Tcp.server (tcp s)).

(** [m]: the meter as well *)
Record alike_but (m : bool) s s' : Prop := {
  al_flags : Z.land (sflags s') FIXED = Z.land (sflags s) FIXED;
  al_proto : s_proto s' = s_proto s;
  al_macs : mac (dclient s') = mac (dclient s) /\ mac (dserver s') = mac (dserver s);
  al_client : ip (dclient s') = ip (dclient s) /\ port (dclient s') = port (dclient s);
  al_server : mesh_of s = false -> ip (dserver s') = ip (dserver s) /\ port (dserver s') = port (dserver s);
  al_meter : m = true -> meter_flags s' = meter_flags s;
  al_caches : client_cache s' = client_cache s /\ server_cache s' = server_cache s
}.

Abbreviation alike := (alike_but true).

Lemma alike_flag m s s' f : alike_but m s s' -> Z.land FIXED f = f -> sflag f s' = sflag f s.
Proof. intros A Hf. unfold sflag. by rewrite <- (test_land _ FIXED), (al_flags _ _ _ A), test_land. Qed.
Lemma alike_v4 m s s' : alike_but m s s' -> v4_of s' = v4_of s.
Proof. intros A. by eapply alike_flag. Qed.
Lemma alike_ep m s s' : alike_but m s s' -> sess_ep_mac s' = sess_ep_mac s.
Proof. intros A. unfold sess_ep_mac. destruct (al_macs _ _ _ A) as [-> ->]. by rewrite (alike_flag _ _ _ _ A). Qed.
Lemma alike_mesh m s s' : alike_but m s s' -> mesh_of s' = mesh_of s.
Proof. intros A. unfold mesh_of. by rewrite (alike_ep _ _ _ A). Qed.
Lemma alike_on_meter s s' : alike s s' -> on_meter s' = on_meter s.
Proof. intros A. unfold on_meter. by rewrite (alike_flag _ _ _ _ A), (al_meter _ _ _ A eq_refl). Qed.
Lemma alike_meter_key m s s' : alike_but m s s' -> Meter.sess_key (meter_sess s') = Meter.sess_key (meter_sess s).
Proof.
  intros A. unfold Meter.sess_key, meter_sess. cbn [Meter.server_mac Meter.client_ip Meter.s_flags].
  destruct (al_macs _ _ _ A) as [_ ->], (al_client _ _ _ A) as [-> _]. f_equal. by apply (alike_flag _ _ _ DPI_SESS_FLAG_IPV4 A).
Qed.
Lemma alike_canon m v4 s s' : alike_but m s s' -> canon v4 (mesh_of s) (key_of s') = canon v4 (mesh_of s) (key_of s).
Proof.
  intros A. unfold canon, key_of. cbn [kc_ip kc_port ks_ip ks_port k_proto k_flags].
  destruct (al_client _ _ _ A) as [-> ->]. rewrite (al_proto _ _ _ A).
  destruct (mesh_of s) eqn:E; [done|]. destruct (al_server _ _ _ A E) as [-> ->]. f_equal.
  change SESS_FLAGS_FOR_LOOKUP with (Z.land FIXED SESS_FLAGS_FOR_LOOKUP). by rewrite !Z.land_assoc, (al_flags _ _ _ A).
Qed.
Lemma alike_refl s : alike s s.
Proof. by constructor. Qed.
Lemma alike_trans s1 s2 s3 : alike s1 s2 -> alike s2 s3 -> alike s1 s3.
Proof.
  intros A B. pose proof (alike_mesh _ _ _ A) as M.
  destruct A as [F1 P1 [M1 M2] [C1 C2] S1 G1 [K1 K2]], B as [F2 P2 [M3 M4] [C3 C4] S2 G2 [K3 K4]].
  constructor; try (split; congruence); try congruence.
  - intros E. destruct (S1 E), (S2 ltac:(congruence)). split; congruence.
  - intros _. by rewrite G2, G1.
Qed.

(** ** The invariant *)

Record sok a s : Prop := {
  so_pos : 0 < a;
  so_proto : s_proto s <> IPPROTO_TCP;
  so_caches : ot_rep (Asm.tree (client_cache s)) [] /\ ot_rep (Asm.tree (server_cache s)) []
}.
Definition session_tmo s : Z := timeout_of (class_of (s_proto s)).
Definition ts_of th a : TimerWheel.timer_entry Tcp.sess_cb := TimerWheel.entry (th_timer th) (Tcp.ts_entry a).
Definition in_class (c : pclass) s : bool := bool_decide (class_of (s_proto s) = c).
Definition metered_as (k : Meter.mkey) s : bool := on_meter s && bool_decide (Meter.sess_key (meter_sess s) = k).

(** [dl] are the deadlines on the wheel, [mc] what the session meters count. *)
Record sinv th dl (mc : Meter.mkey -> Z) : Prop := {
  si_ok a s : sessions th !! a = Some s -> sok a s;
  si_map v4 mesh : RcuMap.wf (hash_of v4 mesh) (keyof v4 mesh (sessions th)) (smap th v4 mesh);
  si_on v4 mesh a : a ∈ nodes_of (smap th v4 mesh) <-> exists s, sessions th !! a = Some s /\ v4_of s = v4 /\ mesh_of s = mesh;
  si_dl n : is_Some (dl !! n) <-> exists a, n = Tcp.ts_entry a /\ is_Some (sessions th !! a);
  si_timer a s : sessions th !! a = Some s ->
    TimerWheel.callback (ts_of th a) = Some Tcp.dpi_session_timeout /\ TimerWheel.timeout (ts_of th a) = session_tmo s /\
    TimerWheel.timer_wheel_entry_is_active (th_timer th) (Tcp.tick_entry a) = false;
  si_cur : cur_sess (counter th) = u32 (count (fun _ => true) (sessions th));
  si_class c : cur_n_sess (counter th) c = u32 (count (in_class c) (sessions th));
  si_meter : Meter.mhist tc (meters th) mc;
  si_metered mk : mc mk = count (metered_as mk) (sessions th);
  si_tick : Meter.tick (meters th) = tick th;
  si_fault : fault th = false
}.

(** The fields the invariant is about *)
Record same th th' : Prop := {
  sm_sessions : sessions th' = sessions th; sm_map : smap th' = smap th; sm_timer : th_timer th' = th_timer th;
  sm_counter : counter th' = counter th; sm_meters : meters th' = meters th; sm_tick : tick th' = tick th; sm_fault : fault th' = fault th
}.
Lemma same_refl th : same th th.
Proof. done. Qed.
Lemma same_trans t1 t2 t3 : same t1 t2 -> same t2 t3 -> same t1 t3.
Proof. intros [] []. constructor; congruence. Qed.
Lemma sinv_same th th' dl mc : same th th' -> sinv th dl mc -> sinv th' dl mc.
Proof.
  intros [E1 E2 E3 E4 E5 E6 E7] []. constructor; unfold ts_of; rewrite ?E1, ?E2, ?E3, ?E4, ?E5, ?E6, ?E7; done.
Qed.

Lemma alike_sok m a s s' : alike_but m s s' -> sok a s -> sok a s'.
Proof.
  intros A [H1 H2 H3]. constructor; [done|by rewrite (al_proto _ _ _ A)|].
  by destruct (al_caches _ _ _ A) as [-> ->].
Qed.
Lemma count_alike P ss a s s' : ss !! a = Some s -> P s' = P s -> count P (<[a := s']> ss) = count P ss.
Proof. intros H HP. rewrite (count_replace P ss a s s' H), HP. lia. Qed.

(** A session may change in all that its key and its timer do not look at, with the meters *)
Lemma put_but b th dl mc mc' m a s s' : sinv th dl mc -> sessions th !! a = Some s -> alike_but b s s' ->
  Meter.mhist tc m mc' -> (forall mk, mc' mk = count (metered_as mk) (<[a := s']> (sessions th))) -> Meter.tick m = tick th ->
  sinv (put_session a s' (th <| meters := m |>)) dl mc'.
Proof.
  intros I Hs A HM Hmc Htk. pose proof (alike_v4 _ _ _ A) as Hv. pose proof (alike_mesh _ _ _ A) as Hm.
  assert (Hsome : forall b, is_Some (<[a := s']> (sessions th) !! b) <-> is_Some (sessions th !! b)).
  { intros c. destruct (decide (a = c)) as [->|?]; [|by rewrite lookup_insert_ne]. rewrite lookup_insert_eq, Hs. by split; eexists. }
  constructor; cbn [put_session sessions smap th_timer counter meters tick fault set ts_of]; try done.
  - intros c t. rewrite lookup_insert_Some. intros [[<- <-]|[_ Hc]]; [eapply alike_sok; [done|]|]; by apply (si_ok _ _ _ I).
  - intros v4 mesh. eapply RcuMap.wf_ext; [apply (si_map _ _ _ I)|]. intros c Hc. unfold keyof.
    destruct (decide (a = c)) as [->|?]; [|by rewrite lookup_insert_ne]. rewrite lookup_insert_eq, Hs. cbn [mbind option_bind]. f_equal.
    apply (si_on _ _ _ I) in Hc as (t & Ht & _ & Em). rewrite Hs in Ht. injection Ht as <-. rewrite <- Em. by eapply alike_canon.
  - intros v4 mesh c. rewrite (si_on _ _ _ I). destruct (decide (a = c)) as [->|?]; [|by rewrite lookup_insert_ne].
    rewrite lookup_insert_eq, Hs. split; intros (t & [= <-] & ? & ?); (eexists; split; [done|]); split; congruence.
  - intros n. rewrite (si_dl _ _ _ I). by setoid_rewrite Hsome.
  - intros c t. rewrite lookup_insert_Some. intros [[<- <-]|[_ Hc]]; [|by apply (si_timer _ _ _ I)].
    destruct (si_timer _ _ _ I a s Hs) as (H1 & H2 & H3).
    split_and!; [exact H1|unfold session_tmo; rewrite (al_proto _ _ _ A); exact H2|exact H3].
  - rewrite (count_alike _ _ a s s'); [apply (si_cur _ _ _ I)|done|done].
  - intros c. rewrite (count_alike _ _ a s s'); [apply (si_class _ _ _ I)|done|]. unfold in_class. by rewrite (al_proto _ _ _ A).
  - apply (si_fault _ _ _ I).
Qed.
Lemma put_alike th dl mc a s s' : sinv th dl mc -> sessions th !! a = Some s -> alike s s' -> sinv (put_session a s' th) dl mc.
Proof.
  intros I Hs A. assert (E : th = th <| meters := meters th |>) by by destruct th. rewrite E at 1.
  eapply (put_but true _ _ mc); [done|done|done|apply I| |apply I].
  intros mk. rewrite (count_alike _ _ a s s'); [apply (si_metered _ _ _ I)|done|]. unfold metered_as.
  by rewrite (alike_on_meter s s'), (alike_meter_key _ _ _ A).
Qed.

(** ** Changes of one session *)

Definition touched a th th' : Prop := exists s s', sessions th !! a = Some s /\ alike s s' /\ same (put_session a s' th) th'.

Lemma put_same a s th : sessions th !! a = Some s -> same (put_session a s th) th.
Proof. intros H. constructor; try done. symmetry. by apply insert_id. Qed.
Lemma touched_refl a th : is_Some (sessions th !! a) -> touched a th th.
Proof. intros [s Hs]. exists s, s. split_and!; [done|apply alike_refl|by apply put_same]. Qed.
Lemma touched_put a th s s' : sessions th !! a = Some s -> alike s s' -> touched a th (put_session a s' th).
Proof. intros H A. by exists s, s'. Qed.
Lemma touched_same a th th1 th2 : touched a th th1 -> same th1 th2 -> touched a th th2.
Proof. intros (s & s' & H & A & S) S'. exists s, s'. split_and!; [done|done|by eapply same_trans]. Qed.
Lemma same_touched a th th' : is_Some (sessions th !! a) -> same th th' -> touched a th th'.
Proof. intros H S. eapply touched_same; [by apply touched_refl|done]. Qed.
Lemma touched_some a th th' : touched a th th' ->
  exists s s', sessions th !! a = Some s /\ sessions th' !! a = Some s' /\ alike s s'.
Proof. intros (s & s' & H & A & [E _ _ _ _ _ _]). exists s, s'. rewrite E. split_and!; [done|apply lookup_insert_eq|done]. Qed.
Lemma touched_trans a t1 t2 t3 : touched a t1 t2 -> touched a t2 t3 -> touched a t1 t3.
Proof.
  intros (s1 & s2 & H1 & A1 & S1) (s2' & s3 & H2 & A2 & S2).
  rewrite (sm_sessions _ _ S1) in H2. cbn [put_session sessions set] in H2. rewrite lookup_insert_eq in H2. injection H2 as <-.
  exists s1, s3. split_and!; [done|by eapply alike_trans|]. destruct S1 as [E1 E2 E3 E4 E5 E6 E7], S2 as [F1 F2 F3 F4 F5 F6 F7].
  constructor; cbn [put_session sessions smap th_timer counter meters tick fault set] in *; try congruence.
  rewrite F1, E1. apply insert_insert_eq.
Qed.
Lemma touched_sinv a th th' dl mc : touched a th th' -> sinv th dl mc -> sinv th' dl mc.
Proof. intros (s & s' & H & A & S) I. eapply sinv_same; [done|]. by eapply put_alike. Qed.
Lemma touched_alter a th f : (forall s, sessions th !! a = Some s -> alike s (f s)) -> is_Some (sessions th !! a) ->
  touched a th (th <| sessions ::= alter f a |>).
Proof.
  intros Hf [s Hs]. exists s, (f s). split_and!; [done|by apply Hf|]. constructor; try done. cbn [put_session sessions set].
  apply map_eq. intros b. destruct (decide (a = b)) as [->|?].
  - by rewrite lookup_alter_eq, lookup_insert_eq, Hs.
  - by rewrite lookup_alter_ne, lookup_insert_ne.
Qed.

(** Outside of the fields of [alike] *)
Lemma alike_reported s : alike s (mark_reported s).
Proof. by constructor. Qed.
Lemma alike_last_report s n : alike s (s <| last_report := n |>).
Proof. by constructor. Qed.
Lemma alike_set_sflag f s : Z.land f FIXED = 0 -> alike s (set_sflag f s).
Proof. intros H. constructor; try done. by apply land_set. Qed.
Lemma alike_mask_flag b f s : Z.land f FIXED = 0 -> Z.land (Z.lnot f mod 2 ^ 16) FIXED = FIXED -> alike s (mask_flag b f s).
Proof. intros H H'. constructor; try done. cbn. destruct b; [by apply land_set|by apply land_unset]. Qed.
Lemma alike_count c p s : alike s (count_packet c p s).
Proof. by destruct c; constructor. Qed.

Lemma report_same l n v th : same th (do_report connect_report l n v th).2.
Proof. done. Qed.
Lemma end_report_same s l v v' th : same th (end_report connect_report s l v v' th).
Proof. unfold end_report. by destruct (sflag _ s). Qed.

Lemma end_log_ok a v xff th : is_Some (sessions th !! a) ->
  exists th', dpi_session_end_log connect_report a v xff th = Some th' /\ same th th'.
Proof.
  intros [s Hs]. unfold dpi_session_end_log. rewrite Hs. cbn [mbind option_bind].
  repeat (match goal with |- context [if ?b then _ else _] => destruct b | |- context [match ?o with Some _ => _ | None => _ end] => destruct o end);
    (eexists; split; [reflexivity|]); first [apply end_report_same|done].
Qed.

Lemma end_logs_ok a th : is_Some (sessions th !! a) -> exists th', end_logs connect_report a th = Some th' /\ same th th'.
Proof.
  intros [s Hs]. unfold end_logs. rewrite Hs. cbn [mbind option_bind].
  destruct (_ =? DPI_SESS_TERM_VOLUME); [by exists th|].
  destruct (end_log_ok a 0 false th) as (th1 & -> & S1); [by eexists|]. cbn [mbind option_bind].
  destruct (sflag DPI_SESS_FLAG_XFF s); [|by exists th1].
  destruct (end_log_ok a 0 true th1) as (th2 & -> & S2); [rewrite (sm_sessions _ _ S1); by eexists|].
  exists th2. split; [done|by eapply same_trans].
Qed.

(** ** Release *)

Lemma destroy_ok a s th : sessions th !! a = Some s -> sok a s ->
  exists s' th', destroy_caches a th = Some th' /\ same (put_session a s' th) th'.
Proof.
  intros Hs [_ _ [R1 R2]]. unfold destroy_caches. rewrite Hs. cbn [mbind option_bind]. unfold Asm.asm_destroy.
  destruct (ot_destroy_rep _ _ R1) as (t1 & f1 & E1 & _ & P1). destruct (ot_destroy_rep _ _ R2) as (t2 & f2 & E2 & _ & P2).
  apply Permutation_nil_r in P1 as ->. apply Permutation_nil_r in P2 as ->.
  unfold client_cache, server_cache in *. rewrite E1. cbn [mbind option_bind]. rewrite E2. cbn [mbind option_bind app foldl].
  eexists _, _. split; [reflexivity|]. by constructor.
Qed.

Lemma ts_entry_inj a b : Tcp.ts_entry a = Tcp.ts_entry b -> a = b.
Proof. unfold Tcp.ts_entry. lia. Qed.
Lemma ts_tick a b : Tcp.ts_entry a <> Tcp.tick_entry b.
Proof. unfold Tcp.ts_entry, Tcp.tick_entry. lia. Qed.

Lemma release_eq th a s m : sessions th !! a = Some s -> sok a s ->
  TimerWheel.timer_wheel_entry_is_active (th_timer th) (Tcp.tick_entry a) = false ->
  Meter.dpi_meter_session_dec (meters th) (meter_sess s) = Some m ->
  exists th', dpi_session_release g_ep_map connect_report a th = Some th' /\
    sessions th' = delete a (sessions th) /\
    (forall v4 mesh, smap th' v4 mesh = if Bool.eqb v4 (v4_of s) && Bool.eqb mesh (mesh_of s)
                                        then (RcuMap.rcu_map_del (smap th v4 mesh) a).1 else smap th v4 mesh) /\
    th_timer th' = th_timer th /\ counter th' = count_released s (counter th) /\ meters th' = m /\ tick th' = tick th /\ fault th' = fault th.
Proof.
  intros Hs O Ha Em. unfold dpi_session_release. rewrite Hs. cbn [mbind option_bind]. rewrite Ha, Em. cbn [mbind option_bind].
  rewrite (proj2 (Z.eqb_neq _ _)) by apply (so_proto _ _ O). cbn [mbind option_bind].
  match goal with |- context [end_logs _ a ?t] => set (th1 := t) end.
  destruct (end_logs_ok a th1) as (th2 & -> & [E1 E2 E3 E4 E5 E6 E7]); [by eexists|]. cbn [mbind option_bind].
  destruct (destroy_ok a s th2) as (s' & th3 & -> & [F1 F2 F3 F4 F5 F6 F7]); [by rewrite E1|done|]. cbn [mbind option_bind].
  eexists. split; [reflexivity|]. unfold set_smap.
  cbn [sessions smap th_timer counter meters tick fault set put_session] in *.
  rewrite F1, F2, F3, F4, F5, F6, F7, E1, E2, E3, E4, E5, E6, E7. unfold th1.
  cbn [sessions smap th_timer counter meters tick fault set]. split_and!; try done. by rewrite delete_insert_eq.
Qed.

Lemma nodes_del m a : RcuMap.offset m = 0 -> forall b, b ∈ nodes_of (RcuMap.rcu_map_del m a).1 <-> b ∈ nodes_of m /\ b <> a.
Proof.
  intros Ho b. unfold nodes_of, RcuMap.rcu_map_del, RcuMap.cds_lfht_del. rewrite Ho, Z.add_0_r.
  destruct (existsb _ _) eqn:E; cbn [RcuMap.map set fst].
  - rewrite !list_elem_of_fmap. setoid_rewrite elem_of_lfilter. setoid_rewrite negb_true_iff. setoid_rewrite Z.eqb_neq. naive_solver.
  - split; [|by intros [? _]]. intros Hb. split; [done|]. intros ->. apply list_elem_of_fmap in Hb as (y & -> & Hy).
    assert (existsb (fun z => RcuMap.node z =? RcuMap.node y) (RcuMap.map m) = true); [|congruence].
    apply existsb_exists. exists y. split; [by apply list_elem_of_In|apply Z.eqb_refl].
Qed.

Definition unhook a th : sthread T := th <| th_timer ::= fun t => TimerWheel.timer_wheel_entry_remove t (Tcp.ts_entry a) |>.

(** The meters after a session is taken off *)
Lemma meter_dec_ok th dl mc a s : sinv th dl mc -> sessions th !! a = Some s ->
  exists m mc', Meter.dpi_meter_session_dec (meters th) (meter_sess s) = Some m /\ Meter.mhist tc m mc' /\
    Meter.tick m = Meter.tick (meters th) /\ forall mk, mc' mk = count (metered_as mk) (delete a (sessions th)).
Proof.
  intros I Hs. pose proof (si_meter _ _ _ I) as H. destruct (Meter.mhist_ok tc _ _ H) as [M _].
  destruct (Meter.session_dec_spec (meters th) (meter_sess s) M) as (m & E & Hd).
  assert (Hc : forall mk, mc mk = Z.b2z (metered_as mk s) + count (metered_as mk) (delete a (sessions th)))
    by (intros mk; rewrite (si_metered _ _ _ I); by apply count_delete).
  change (FLAGS_TEST (Meter.s_flags _) _ && _) with (on_meter s) in Hd. destruct (on_meter s) eqn:Eo.
  - exists m, (Meter.bump (Meter.sess_key (meter_sess s)) (-1) mc). pose proof Eo as [F1 F2]%andb_true_iff.
    assert (0 < mc (Meter.sess_key (meter_sess s))).
    { rewrite (si_metered _ _ _ I). eapply count_pos; [done|]. unfold metered_as. rewrite Eo. by apply bool_decide_eq_true. }
    split_and!; [done|by eapply Meter.mh_close| |].
    + destruct Hd as [[-> _]|(y & m0 & _ & _ & C)]; [done|apply C].
    + intros mk. specialize (Hc mk). assert (Hk : metered_as mk s = bool_decide (Meter.sess_key (meter_sess s) = mk))
        by (unfold metered_as; by rewrite Eo).
      rewrite Hk in Hc. unfold Meter.bump. destruct (decide (mk = _)) as [Ek|Ek];
        [rewrite bool_decide_true in Hc by done|rewrite bool_decide_false in Hc by congruence]; cbn [Z.b2z] in Hc; lia.
  - exists m, mc. subst m. split_and!; try done. intros mk. rewrite Hc. assert (Hk : metered_as mk s = false) by (unfold metered_as; by rewrite Eo). by rewrite Hk.
Qed.

Lemma count_u32_dec P ss a s n : ss !! a = Some s -> n = u32 (count P ss) ->
  (if P s then u32 (n - 1) else n) = u32 (count P (delete a ss)).
Proof. intros H ->. rewrite (count_delete P ss a s H). destruct (P s); simpl; [rewrite u32_sub_l|]; f_equal; lia. Qed.

Lemma released_cur s n : cur_sess (count_released s n) = u32 (cur_sess n - 1).
Proof. unfold count_released. by destruct (sflag _ s). Qed.
Lemma released_class s n c : cur_n_sess (count_released s n) c = if in_class c s then u32 (cur_n_sess n c - 1) else cur_n_sess n c.
Proof.
  unfold count_released, in_class. destruct (sflag _ s); cbn [cur_n_sess set]; unfold bump;
    (destruct (decide (c = _)) as [->|?]; [by rewrite bool_decide_true|by rewrite bool_decide_false by congruence]).
Qed.

Lemma entry_unhook a th n : n <> Tcp.ts_entry a -> TimerWheel.entry (th_timer (unhook a th)) n = TimerWheel.entry (th_timer th) n.
Proof. intros H. cbn [unhook th_timer set]. by rewrite TimerWheel.entry_remove, decide_False. Qed.

(** A session whose timer has been removed is released with all that belongs to it. *)
Lemma release_spec th dl mc a s : sinv th dl mc -> sessions th !! a = Some s ->
  exists th' mc', dpi_session_release g_ep_map connect_report a (unhook a th) = Some th' /\
    sinv th' (delete (Tcp.ts_entry a) dl) mc' /\ sessions th' = delete a (sessions th) /\ th_timer th' = th_timer (unhook a th) /\ tick th' = tick th.
Proof.
  intros I Hs. destruct (meter_dec_ok _ _ _ _ _ I Hs) as (m & mc' & Em & Hm & Et & Hc).
  destruct (release_eq (unhook a th) a s m) as (th' & E & Es & Ep & Ew & Ek & Emm & Ei & Ef); [done|by apply (si_ok _ _ _ I)| |done|].
  { unfold TimerWheel.timer_wheel_entry_is_active. rewrite entry_unhook by (apply not_eq_sym, ts_tick). by destruct (si_timer _ _ _ I a s Hs) as (_ & _ & ?). }
  exists th', mc'. split_and!; [done| |done|done|done]. cbn [unhook sessions smap counter meters tick fault set] in Es, Ep, Ek, Emm, Ei, Ef.
  assert (Hdel : forall b t, sessions th' !! b = Some t <-> b <> a /\ sessions th !! b = Some t)
    by (intros b t; rewrite Es, lookup_delete_Some; naive_solver).
  assert (Hwf : forall v4 mesh, RcuMap.wf (hash_of v4 mesh) (keyof v4 mesh (sessions th)) (smap th' v4 mesh)).
  { intros v4 mesh. rewrite Ep. destruct (_ && _); [apply RcuMap.del_wf|]; apply (si_map _ _ _ I). }
  assert (Hon : forall v4 mesh b, b ∈ nodes_of (smap th' v4 mesh) <-> b <> a /\ b ∈ nodes_of (smap th v4 mesh)).
  { intros v4 mesh b. rewrite Ep. destruct (_ && _) eqn:Eh.
    - rewrite nodes_del; [naive_solver|apply (RcuMap.wf_offset _ _ _ (si_map _ _ _ I v4 mesh))].
    - split; [|by intros [_ ?]]. intros Hb. split; [|done]. intros ->. apply (si_on _ _ _ I) in Hb as (t & Ht & <- & <-).
      rewrite Hs in Ht. injection Ht as <-. by rewrite !eqb_reflx in Eh. }
  constructor.
  - intros b t [_ Hb]%Hdel. by apply (si_ok _ _ _ I).
  - intros v4 mesh. eapply RcuMap.wf_ext; [apply Hwf|]. intros b [Hne _]%Hon. unfold keyof. by rewrite Es, lookup_delete_ne.
  - intros v4 mesh b. rewrite Hon, (si_on _ _ _ I). setoid_rewrite Hdel. naive_solver.
  - intros n. rewrite lookup_delete_is_Some, (si_dl _ _ _ I). setoid_rewrite Es. setoid_rewrite lookup_delete_is_Some. split.
    + intros (Hne & b & -> & Hb). exists b. split_and!; [done|congruence|done].
    + intros (b & -> & Hne & Hb). split; [|by exists b]. intros ?%ts_entry_inj. congruence.
  - intros b t [Hne Hb]%Hdel. destruct (si_timer _ _ _ I b t Hb) as (H1 & H2 & H3). unfold ts_of, TimerWheel.timer_wheel_entry_is_active in *.
    rewrite Ew, !entry_unhook by (first [apply not_eq_sym, ts_tick|intros ?%ts_entry_inj; congruence]). done.
  - rewrite Ek, released_cur, Es. by apply (count_u32_dec (fun _ => true) _ a s _ Hs), (si_cur _ _ _ I).
  - intros c. rewrite Ek, released_class, Es. apply count_u32_dec; [done|apply (si_class _ _ _ I)].
  - by rewrite Emm.
  - intros mk. by rewrite Es.
  - rewrite Emm, Et, Ei. apply (si_tick _ _ _ I).
  - rewrite Ef. apply (si_fault _ _ _ I).
Qed.

(** The wheel is at [base], and pends [dl]. *)
Definition wheel_at base (w : TimerWheel.timer_wheel Z Tcp.sess_cb) dl : Prop := TimerWheel.inv base w dl /\ TimerWheel.current w = base.
(** [base]: the clock of the wheel.  Both clocks leave room for the timeouts. *)
Definition tick_ok base th : Prop :=
  0 <= base <= tick th /\ tick th + 3600 < 2 ^ 32 /\ tick th + 60 < base + TimerWheel.MAX_TIMER_SLOTS.

Lemma touched_tick a th th' : touched a th th' -> tick th' = tick th /\ th_timer th' = th_timer th.
Proof. intros (s & s' & _ & _ & []). done. Qed.

Lemma delete_spec base th dl mc a s r : sinv th dl mc -> wheel_at base (th_timer th) dl -> sessions th !! a = Some s ->
  exists th' mc', dpi_session_delete g_ep_map connect_report a r th = Some th' /\
    sinv th' (delete (Tcp.ts_entry a) dl) mc' /\ wheel_at base (th_timer th') (delete (Tcp.ts_entry a) dl) /\
    sessions th' = delete a (sessions th) /\ tick th' = tick th.
Proof.
  intros I V Hs. unfold dpi_session_delete. fold (unhook a (dpi_session_term_reason a r th)).
  assert (Ht : touched a th (dpi_session_term_reason a r th)) by (apply touched_alter; [by constructor|by eexists]).
  pose proof (touched_sinv _ _ _ _ _ Ht I) as I1. destruct (touched_some _ _ _ Ht) as (_ & s1 & _ & Hs1 & _).
  destruct (release_spec _ _ _ _ _ I1 Hs1) as (th' & mc' & E & I' & Es & Ew & Et). exists th', mc'.
  destruct (touched_tick _ _ _ Ht) as [Et1 Ew1]. split_and!; [done|done| | |congruence].
  - rewrite Ew. cbn [unhook th_timer set]. destruct (proj2 (si_dl _ _ _ I (Tcp.ts_entry a))) as [D HD]; [by exists a; split; [|eexists]|].
    rewrite Ew1. destruct V as [V Vc]. split; [by eapply TimerWheel.remove_inv|done].
  - rewrite Es. destruct Ht as (t & t' & Ht & _ & Sm). rewrite (sm_sessions _ _ Sm). apply delete_insert_eq.
Qed.

(** ** Lookup *)

Lemma elem_nodes m n : n ∈ nodes_of m <-> exists h, RcuMap.HNode h n ∈ RcuMap.map m.
Proof.
  unfold nodes_of. rewrite list_elem_of_fmap. split; [intros ([h n'] & -> & ?); by exists h|].
  intros [h Hh]. by exists (RcuMap.HNode h n).
Qed.

Lemma alike_learn (v4 : bool) k s : mesh_of s = true -> alike s ((if v4 then proxymesh4_learn e else proxymesh6_learn) k s).
Proof.
  intros Hm. destruct v4; unfold proxymesh4_learn, proxymesh6_learn; destruct (_ && _); try apply alike_refl; constructor; try done; congruence.
Qed.

(** [s] is in the map and has the key [k]. *)
Definition keyed (v4 mesh : bool) k s : Prop := v4_of s = v4 /\ mesh_of s = mesh /\ canon v4 mesh (key_of s) = canon v4 mesh k.

Lemma holds_keyed th dl mc v4 mesh k a : sinv th dl mc ->
  RcuMap.holds (keyof v4 mesh (sessions th)) (smap th v4 mesh) (canon v4 mesh k) a <-> exists s, sessions th !! a = Some s /\ keyed v4 mesh k s.
Proof.
  intros I. unfold RcuMap.holds, keyed. rewrite <- elem_nodes, (si_on _ _ _ I). unfold keyof. split.
  - intros [(s & Hs & Hv & Hm) Hk]. exists s. rewrite Hs in Hk. injection Hk as Hk. done.
  - intros (s & Hs & Hv & Hm & Hk). split; [by exists s|]. rewrite Hs. cbn [mbind option_bind]. by rewrite Hk.
Qed.

Lemma lookup_key_spec th dl mc v4 mesh k : sinv th dl mc ->
  let r := lookup_key e v4 mesh k th in
  (r = (NULL, th) /\ forall a s, sessions th !! a = Some s -> ~ keyed v4 mesh k s) \/
  (0 < r.1 /\ touched r.1 th r.2 /\ exists s, sessions th !! r.1 = Some s /\ keyed v4 mesh k s).
Proof.
  intros I r. unfold r, lookup_key. rewrite lookup_canon.
  destruct (RcuMap.lookup_holds (cmatch v4 mesh (sessions th)) (hash_of v4 mesh) (keyof v4 mesh (sessions th))
    ltac:(done) (smap th v4 mesh) (canon v4 mesh k) (si_map _ _ _ I v4 mesh)) as [[-> Hn]|[Hh Hp]].
  - left. split; [by rewrite andb_false_r|]. intros a s Hs Hk. apply (Hn a). apply (holds_keyed _ _ _ _ _ _ _ I). by exists s.
  - right. set (a := RcuMap.rcu_map_lookup _ _ _ _) in *. apply (holds_keyed _ _ _ _ _ _ _ I) in Hh as (s & Hs & Hk). cbn [fst snd].
    split_and!; [done| |by exists s]. rewrite (proj2 (Z.eqb_neq a NULL)) by (unfold NULL; lia). destruct mesh; cbn [andb negb].
    + apply touched_alter; [|by eexists]. intros s' Hs'. apply alike_learn. rewrite Hs in Hs'. injection Hs' as <-. apply Hk.
    + apply touched_refl. by eexists.
Qed.

Definition client_key p (sip dip : list Z) : skey := SKey sip (sport p) dip (dport p) (ip_proto p) (key_flags p (pflag DPI_PKT_FLAG_INGRESS p)).
Definition server_key p (sip dip : list Z) : skey :=
  SKey dip (dport p) sip (sport p) (ip_proto p) (key_flags p (negb (pflag DPI_PKT_FLAG_INGRESS p))).
Definition v4_pkt p : bool := eth_type p =? ETH_P_IP.

(** No session has the key of the packet from either side, or the one found has. *)
Lemma lookup_spec th dl mc emac p sip dip : sinv th dl mc -> src_ip p = Some sip -> dst_ip p = Some dip ->
  exists th' p' a c, dpi_session_lookup e emac p th = Some (th', p', a, c) /\ p' = (if c then dpi_set_client_pkt p else p) /\
    ((a = NULL /\ c = false /\ th' = th /\ forall b s, sessions th !! b = Some s ->
        ~ keyed (v4_pkt p) (is_mesh emac) (client_key p sip dip) s /\ ~ keyed (v4_pkt p) (is_mesh emac) (server_key p sip dip) s) \/
     (0 < a /\ touched a th th' /\ exists s, sessions th !! a = Some s /\
        if c then keyed (v4_pkt p) (is_mesh emac) (client_key p sip dip) s
        else keyed (v4_pkt p) (is_mesh emac) (server_key p sip dip) s /\
             forall b t, sessions th !! b = Some t -> ~ keyed (v4_pkt p) (is_mesh emac) (client_key p sip dip) t)).
Proof.
  intros I Hs Hd. unfold dpi_session_lookup. rewrite Hs, Hd. cbn [mbind option_bind]. fold (v4_pkt p) (client_key p sip dip) (server_key p sip dip).
  destruct (lookup_key_spec th dl mc (v4_pkt p) (is_mesh emac) (client_key p sip dip) I) as [[-> H1]|(Hp & Ht & s & Hs1 & Hk)].
  - cbv beta iota. replace (negb (NULL =? NULL)) with false by done.
    destruct (lookup_key_spec th dl mc (v4_pkt p) (is_mesh emac) (server_key p sip dip) I) as [[-> H2]|(Hp & Ht & s & Hs2 & Hk)].
    + eexists _, _, _, _. split_and!; [reflexivity|done|]. left. split_and!; [done|done|done|]. intros b s Hb. split; [by eapply H1|by eapply H2].
    + destruct (lookup_key e _ _ (server_key p sip dip) th) as [a th']. cbn [fst snd] in *.
      eexists _, _, _, _. split_and!; [reflexivity|done|]. right. split_and!; [done|done|]. by exists s.
  - destruct (lookup_key e _ _ (client_key p sip dip) th) as [a th']. cbn [fst snd] in *.
    rewrite (proj2 (Z.eqb_neq a NULL)) by (unfold NULL; lia). cbn [negb].
    eexists _, _, _, _. split_and!; [reflexivity|done|]. right. split_and!; [done|done|]. by exists s.
Qed.

(** ** Timers *)

Section entries.
Context (w : TimerWheel.timer_wheel Z Tcp.sess_cb) (n m : Z).

Lemma entry_start cb tmo now : 0 <= tmo < TimerWheel.MAX_TIMER_SLOTS -> exists h : Z,
  TimerWheel.entry (TimerWheel.timer_wheel_entry_start w n cb tmo now) m =
    if decide (n = m) then TimerWheel.Entry (Some cb) h tmo else TimerWheel.entry w m.
Proof.
  intros H. unfold TimerWheel.timer_wheel_entry_start. rewrite (proj2 (Z.leb_gt _ _)) by lia.
  eexists. rewrite TimerWheel.entry_insert, !TimerWheel.entry_entry_upd. rewrite (decide_True (P := n = n)) by done.
  destruct (decide (n = m)) as [<-|Hne]; reflexivity.
Qed.

Lemma entry_refresh now : exists h : Z,
  TimerWheel.entry (TimerWheel.timer_wheel_entry_refresh w n now) m =
    if decide (n = m) then TimerWheel.entry w n <| TimerWheel.expire_slot := h |> else TimerWheel.entry w m.
Proof.
  unfold TimerWheel.timer_wheel_entry_refresh. eexists.
  rewrite TimerWheel.entry_insert, !TimerWheel.entry_entry_upd, !TimerWheel.entry_remove, !(decide_True (P := n = n)) by done.
  destruct (decide (n = m)) as [<-|Hne]; [rewrite ?(decide_True (P := n = n)) by done|]; reflexivity.
Qed.
End entries.

Lemma tmo_range c : 0 < timeout_of c <= 30.
Proof. destruct c; cbn; unfold Tcp.SESS_TIMEOUT_TCP_OPEN, SESS_TIMEOUT_UDP, SESS_TIMEOUT_ICMP, SESS_TIMEOUT_IP; lia. Qed.

Lemma refresh_eq a s th : sessions th !! a = Some s ->
  exists th', on_session a Tcp.dpi_session_timer_refresh th = Some th' /\ sessions th' = sessions th /\ smap th' = smap th /\
    th_timer th' = TimerWheel.timer_wheel_entry_refresh (th_timer th) (Tcp.ts_entry a) (tick th) /\
    counter th' = counter th /\ meters th' = meters th /\ tick th' = tick th /\ fault th' = fault th.
Proof.
  intros Hs. unfold on_session. rewrite Hs. cbn [mbind option_bind]. eexists. split; [reflexivity|].
  split; [|split_and!; reflexivity]. transitivity (<[a := s]> (sessions th)); [by destruct s|by apply insert_id].
Qed.

Lemma refresh_spec base th dl mc a s : sinv th dl mc -> wheel_at base (th_timer th) dl -> tick_ok base th -> sessions th !! a = Some s ->
  exists th', on_session a Tcp.dpi_session_timer_refresh th = Some th' /\ sessions th' = sessions th /\ tick th' = tick th /\
    sinv th' (<[Tcp.ts_entry a := tick th + session_tmo s]> dl) mc /\
    wheel_at base (th_timer th') (<[Tcp.ts_entry a := tick th + session_tmo s]> dl).
Proof.
  intros I V (Hb & H32 & Hr) Hs. destruct (si_timer _ _ _ I a s Hs) as (Hcb & Htm & Hta).
  destruct (proj2 (si_dl _ _ _ I (Tcp.ts_entry a))) as [D HD]; [by exists a; split; [|eexists]|].
  pose proof (tmo_range (class_of (s_proto s))). destruct (refresh_eq a s th Hs) as (th' & E & E1 & E2 & E3 & E4 & E5 & E6 & E7).
  exists th'. split_and!; [done|done|done| |].
  - constructor; unfold ts_of; rewrite ?E1, ?E2, ?E4, ?E5, ?E6, ?E7; try apply I.
    + intros n. rewrite <- (si_dl _ _ _ I). destruct (decide (Tcp.ts_entry a = n)) as [<-|?]; [|by rewrite lookup_insert_ne].
      rewrite lookup_insert_eq, HD. by split; eexists.
    + intros b t Hbt. destruct (si_timer _ _ _ I b t Hbt) as (C1 & C2 & C3). unfold ts_of, TimerWheel.timer_wheel_entry_is_active in *. rewrite E3.
      destruct (entry_refresh (th_timer th) (Tcp.ts_entry a) (Tcp.ts_entry b) (tick th)) as (k1 & ->).
      destruct (entry_refresh (th_timer th) (Tcp.ts_entry a) (Tcp.tick_entry b) (tick th)) as (k2 & ->).
      rewrite (decide_False (P := Tcp.ts_entry a = Tcp.tick_entry b)) by apply ts_tick.
      destruct (decide (Tcp.ts_entry a = Tcp.ts_entry b)) as [->%ts_entry_inj|?]; by split_and!.
  - rewrite E3. unfold session_tmo, ts_of in *. rewrite <- Htm. destruct V as [V Vc]. split; [|done]. eapply TimerWheel.refresh_inv; [done|done|..]; rewrite ?Htm;
      unfold TimerWheel.MAX_TIMER_SLOTS in *; lia.
Qed.

(** ** Creation *)

(** The bytes a new session is made of can be read, and an endpoint that stands in for an
    unknown one is not taken for a proxy mesh by the addresses of the frame. *)
Record readable ep p (h_dest h_source sip dip : list Z) : Prop := {
  rd_dest : mem p (l2 p) 6 = Some h_dest;
  rd_source : mem p (l2 p + 6) 6 = Some h_source;
  rd_sip : src_ip p = Some sip;
  rd_dip : dst_ip p = Some dip;
  rd_fake : pflag DPI_PKT_FLAG_FAKE_EP p = true -> is_mesh h_dest = is_mesh (ep_mac ep)
}.

Section create.
Context (ts : bool) ep p (h_dest h_source sip dip : list Z) (d : PolicyRules.dpi_policy_desc) (th0 : sthread T).
Context (R : readable ep p h_dest h_source sip dip).
Let s := count_packet ts p (new_session ts ep p h_dest h_source sip dip d th0).
Definition packet_key : skey := if ts then client_key p sip dip else server_key p sip dip.

Lemma new_flags : sflags s = Z.lor (Z.lor (direction ts ep p h_dest h_source).1.1 (if ep_tap ep then DPI_SESS_FLAG_TAP else 0))
                               (if v4_pkt p then DPI_SESS_FLAG_IPV4 else 0).
Proof.
  unfold s, sflags, new_session, count_packet, v4_pkt. destruct (direction _ _ _ _ _) as [[fl cm] sm], ts; cbn [fst];
    unfold when; destruct (ep_tap ep), (eth_type p =? ETH_P_IP); cbn; by rewrite ?Z.lor_0_r.
Qed.

Lemma new_session_facts : v4_of s = v4_pkt p /\ mesh_of s = is_mesh (ep_mac ep) /\
  canon (v4_pkt p) (is_mesh (ep_mac ep)) (key_of s) = canon (v4_pkt p) (is_mesh (ep_mac ep)) packet_key /\ s_proto s = ip_proto p /\
  meter_flags s = 0 /\ sflag DPI_SESS_FLAG_TAP s = ep_tap ep /\ client_cache s = Asm.asm_init /\ server_cache s = Asm.asm_init.
Proof.
  pose proof new_flags as F. pose proof (rd_fake _ _ _ _ _ _ R) as Hf.
  assert (v4_of s = v4_pkt p) as Hv.
  { unfold v4_of, sflag. rewrite F. unfold direction.
    destruct (pflag DPI_PKT_FLAG_FAKE_EP p), (pflag DPI_PKT_FLAG_INGRESS p), ts, (ep_tap ep), (v4_pkt p); reflexivity. }
  assert (mesh_of s = is_mesh (ep_mac ep)) as Hm.
  { unfold mesh_of, sess_ep_mac, sflag. rewrite F. unfold s, new_session, count_packet, direction.
    destruct (pflag DPI_PKT_FLAG_FAKE_EP p), (pflag DPI_PKT_FLAG_INGRESS p), ts, (ep_tap ep), (v4_pkt p); cbn; try done; by apply Hf. }
  split_and!; [done|done| | | | | |].
  - unfold canon, key_of, packet_key, client_key, server_key. cbn [kc_ip kc_port ks_ip ks_port k_proto k_flags]. rewrite F.
    unfold s, new_session, count_packet, direction, key_flags.
    destruct (is_mesh (ep_mac ep)), (v4_pkt p), (pflag DPI_PKT_FLAG_FAKE_EP p), (pflag DPI_PKT_FLAG_INGRESS p), ts, (ep_tap ep); reflexivity.
  - unfold s, new_session, count_packet. by destruct (direction _ _ _ _ _) as [[? ?] ?], ts.
  - unfold s, new_session, count_packet. by destruct (direction _ _ _ _ _) as [[? ?] ?], ts.
  - unfold sflag. rewrite F. unfold direction.
    destruct (pflag DPI_PKT_FLAG_FAKE_EP p), (pflag DPI_PKT_FLAG_INGRESS p), ts, (ep_tap ep), (v4_pkt p); reflexivity.
  - unfold s, new_session, count_packet, client_cache. by destruct (direction _ _ _ _ _) as [[? ?] ?], ts.
  - unfold s, new_session, count_packet, server_cache. by destruct (direction _ _ _ _ _) as [[? ?] ?], ts.
Qed.
End create.

Lemma nodes_add v4 mesh m a k b : b ∈ nodes_of (RcuMap.rcu_map_add (hash_of v4 mesh) m a k) <-> b = a \/ b ∈ nodes_of m.
Proof.
  rewrite !elem_nodes. cbn [RcuMap.rcu_map_add RcuMap.map set]. setoid_rewrite RcuMap.add_perm. setoid_rewrite elem_of_cons. split.
  - intros (h & [[= -> ->]|Hh]); [by left|right; by exists h].
  - intros [->|[h Hh]]; [eexists; by left|exists h; by right].
Qed.

Lemma created_class n c c' : cur_n_sess (count_created c n) c' = if decide (c' = c) then u32 (cur_n_sess n c' + 1) else cur_n_sess n c'.
Proof. done. Qed.
Lemma count_u32_inc P ss a s n : ss !! a = None -> n = u32 (count P ss) ->
  (if P s then u32 (n + 1) else n) = u32 (count P (<[a := s]> ss)).
Proof. intros H ->. rewrite (count_insert P ss a s H). destruct (P s); simpl; [rewrite u32_add_l|]; f_equal; lia. Qed.

(** What dpi_session_create changes of the table *)
Record added a s th th' : Prop := {
  ad_sessions : sessions th' = <[a := s]> (sessions th);
  ad_map v4 mesh : smap th' v4 mesh = if Bool.eqb v4 (v4_of s) && Bool.eqb mesh (mesh_of s)
                                      then RcuMap.rcu_map_add (hash_of v4 mesh) (smap th v4 mesh) a (key_of s) else smap th v4 mesh;
  ad_timer : th_timer th' = TimerWheel.timer_wheel_entry_start
    (TimerWheel.timer_wheel_entry_init (TimerWheel.timer_wheel_entry_init (th_timer th) (Tcp.ts_entry a)) (Tcp.tick_entry a))
    (Tcp.ts_entry a) Tcp.dpi_session_timeout (session_tmo s) (tick th);
  ad_counter : counter th' = count_created (class_of (s_proto s)) (counter th);
  ad_meters : meters th' = meters th; ad_tick : tick th' = tick th; ad_fault : fault th' = fault th
}.

Section add.
Context (base : Z) th dl (mc : Meter.mkey -> Z) a s th'.
Context (I : sinv th dl mc) (V : wheel_at base (th_timer th) dl) (Hk : tick_ok base th).
Context (Ha : sessions th !! a = None) (O : sok a s) (Hm : on_meter s = false) (A : added a s th th').
Context (Hno : forall b t, sessions th !! b = Some t -> ~ keyed (v4_of s) (mesh_of s) (key_of s) t).

Lemma added_wf v4 mesh : RcuMap.wf (hash_of v4 mesh) (keyof v4 mesh (sessions th')) (smap th' v4 mesh).
Proof.
  assert (W : RcuMap.wf (hash_of v4 mesh) (keyof v4 mesh (sessions th')) (smap th v4 mesh)).
  { eapply RcuMap.wf_ext; [apply (si_map _ _ _ I)|]. intros b (t & Ht & _)%(si_on _ _ _ I). unfold keyof.
    rewrite (ad_sessions _ _ _ _ A), lookup_insert_ne; [done|]. congruence. }
  rewrite (ad_map _ _ _ _ A). destruct (_ && _) eqn:E; [|done]. apply andb_true_iff in E as [->%eqb_prop ->%eqb_prop].
  unfold RcuMap.rcu_map_add. rewrite <- hash_canon.
  apply (RcuMap.add_wf (hash_of (v4_of s) (mesh_of s)) _ _ (canon (v4_of s) (mesh_of s) (key_of s))); [done| |apply O|].
  - unfold keyof. by rewrite (ad_sessions _ _ _ _ A), lookup_insert_eq.
  - intros b [(t & Ht & Hv & Hme)%elem_nodes%(si_on _ _ _ I) Hkb]. apply (Hno b t Ht). split_and!; [done|done|].
    unfold keyof in Hkb. rewrite (ad_sessions _ _ _ _ A), lookup_insert_ne, Ht in Hkb by congruence. by injection Hkb.
Qed.

Lemma add_timer b t : sessions th' !! b = Some t ->
  TimerWheel.callback (ts_of th' b) = Some Tcp.dpi_session_timeout /\ TimerWheel.timeout (ts_of th' b) = session_tmo t /\
  TimerWheel.timer_wheel_entry_is_active (th_timer th') (Tcp.tick_entry b) = false.
Proof.
  intros Hb. unfold ts_of, TimerWheel.timer_wheel_entry_is_active. rewrite (ad_timer _ _ _ _ A).
  assert (0 <= session_tmo s < TimerWheel.MAX_TIMER_SLOTS) as Hr
    by (pose proof (tmo_range (class_of (s_proto s))); unfold session_tmo, TimerWheel.MAX_TIMER_SLOTS; lia).
  set (w := TimerWheel.timer_wheel_entry_init _ (Tcp.tick_entry a)).
  destruct (entry_start w (Tcp.ts_entry a) (Tcp.ts_entry b) Tcp.dpi_session_timeout _ (tick th) Hr) as (k1 & ->).
  destruct (entry_start w (Tcp.ts_entry a) (Tcp.tick_entry b) Tcp.dpi_session_timeout _ (tick th) Hr) as (k2 & ->). unfold w.
  rewrite (decide_False (P := Tcp.ts_entry a = Tcp.tick_entry b)) by apply ts_tick.
  unfold TimerWheel.timer_wheel_entry_init. rewrite !TimerWheel.entry_entry_upd.
  rewrite (ad_sessions _ _ _ _ A), lookup_insert_Some in Hb. destruct Hb as [[<- <-]|[Hne Hb]].
  - rewrite !(decide_True (P := Tcp.ts_entry a = Tcp.ts_entry a)), (decide_True (P := Tcp.tick_entry a = Tcp.tick_entry a)) by done. done.
  - destruct (si_timer _ _ _ I b t Hb) as (C1 & C2 & C3).
    rewrite !(decide_False (P := Tcp.ts_entry a = Tcp.ts_entry b)) by (intros ?%ts_entry_inj; congruence).
    rewrite (decide_False (P := Tcp.tick_entry a = Tcp.tick_entry b)) by (unfold Tcp.tick_entry; lia).
    rewrite (decide_False (P := Tcp.tick_entry a = Tcp.ts_entry b)) by (apply not_eq_sym, ts_tick).
    rewrite (decide_False (P := Tcp.ts_entry a = Tcp.tick_entry b)) by apply ts_tick. by split_and!.
Qed.

Lemma add_spec : sinv th' (<[Tcp.ts_entry a := tick th + session_tmo s]> dl) mc /\
  wheel_at base (th_timer th') (<[Tcp.ts_entry a := tick th + session_tmo s]> dl).
Proof.
  pose proof (tmo_range (class_of (s_proto s))). destruct Hk as (Hb & H32 & Hr).
  assert (Hnd : forall n, (n = Tcp.ts_entry a \/ n = Tcp.tick_entry a) -> dl !! n = None).
  { intros n Hn. destruct (dl !! n) eqn:E; [|done]. destruct (proj1 (si_dl _ _ _ I n)) as (b & -> & Hs); [by eexists|].
    destruct Hn as [?%ts_entry_inj|?%ts_tick]; [|done]. subst b. rewrite Ha in Hs. by destruct Hs. }
  split.
  - constructor; rewrite ?(ad_sessions _ _ _ _ A), ?(ad_counter _ _ _ _ A), ?(ad_meters _ _ _ _ A), ?(ad_tick _ _ _ _ A), ?(ad_fault _ _ _ _ A);
      try apply I.
    + intros b t. rewrite lookup_insert_Some. intros [[<- <-]|[_ Hbt]]; [done|by apply (si_ok _ _ _ I)].
    + intros v4 mesh. rewrite <- (ad_sessions _ _ _ _ A). apply added_wf.
    + intros v4 mesh b. rewrite (ad_map _ _ _ _ A). destruct (decide (a = b)) as [<-|Hne].
      * rewrite lookup_insert_eq. destruct (_ && _) eqn:E.
        { apply andb_true_iff in E as [->%eqb_prop ->%eqb_prop]. rewrite nodes_add. split; [intros _; by exists s|by left]. }
        split; [intros (t & Ht & _)%(si_on _ _ _ I); congruence|]. intros (t & [= <-] & <- & <-). by rewrite !eqb_reflx in E.
      * rewrite lookup_insert_ne, <- (si_on _ _ _ I) by done. destruct (_ && _); [|done]. rewrite nodes_add. naive_solver.
    + intros n. destruct (decide (Tcp.ts_entry a = n)) as [<-|Hne].
      * rewrite lookup_insert_eq. split; [intros _|by eexists]. exists a. rewrite lookup_insert_eq. by split; [|eexists].
      * rewrite lookup_insert_ne, (si_dl _ _ _ I) by done. split; intros (b & -> & Hs); exists b; (split; [done|]);
          (rewrite lookup_insert_ne in * by congruence); done.
    + intros b t Hbt. apply add_timer. by rewrite (ad_sessions _ _ _ _ A).
    + apply (count_u32_inc (fun _ => true) _ a s); [done|apply (si_cur _ _ _ I)].
    + intros c. rewrite created_class, <- (count_u32_inc (in_class c) _ a s _ Ha (si_class _ _ _ I c)). unfold in_class.
      destruct (decide (c = class_of (s_proto s))) as [->|?]; [by rewrite bool_decide_true|by rewrite bool_decide_false by congruence].
    + intros mk. rewrite (count_insert _ _ _ _ Ha), (si_metered _ _ _ I). unfold metered_as at 2. by rewrite Hm.
  - rewrite (ad_timer _ _ _ _ A). destruct V as [V0 Vc]. split; [|done]. apply TimerWheel.start_inv; try (unfold session_tmo, TimerWheel.MAX_TIMER_SLOTS in *; lia).
    + apply TimerWheel.entry_upd_off; [apply TimerWheel.entry_upd_off; [done|]|]; apply Hnd; auto.
    + apply Hnd. by left.
Qed.
End add.

(** The frame as parsed stays; verdicts, flags and the sequence number of the payload change. *)
Record framed p p' : Prop := {
  fr_pkt : pkt p' = pkt p; fr_l4 : l4 p' = l4 p; fr_raw : raw_ptr p' = raw_ptr p /\ raw_len p' = raw_len p;
  fr_proto : ip_proto p' = ip_proto p
}.
Lemma framed_refl p : framed p p.
Proof. done. Qed.
Lemma framed_trans p1 p2 p3 : framed p1 p2 -> framed p2 p3 -> framed p1 p3.
Proof. intros [? ? [? ?] ?] [? ? [? ?] ?]. constructor; try split; congruence. Qed.
Lemma framed_action p n : framed p (dpi_set_action p n).
Proof. unfold dpi_set_action. by destruct (_ && _). Qed.
Lemma framed_client (c : bool) p : framed p (if c then dpi_set_client_pkt p else p).
Proof. by destruct c. Qed.

Lemma policy_lookup_same ts ep p sip dip th d th' : policy_lookup e ts ep p sip dip th = (d, th') -> same th th'.
Proof. unfold policy_lookup. destruct (PolicyLookup.dpi_policy_lookup _ _ _ _ _ _ _ _) as [d0 w]. by intros [= _ <-]. Qed.

Lemma violate_log_ok ts ep p h_dest h_source sip dip d th : readable ep p h_dest h_source sip dip ->
  exists th', dpi_policy_violate_log connect_report ts ep p d th = Some th' /\ same th th'.
Proof.
  intros [E1 E2 E3 E4 _]. unfold dpi_policy_violate_log, dpi_session_log_from_pkt. rewrite E1, E2, E3, E4. cbn [mbind option_bind].
  destruct (if ts then (h_source, ep_mac ep) else (ep_mac ep, h_dest)) as [cm sm].
  destruct (if ts then (sport p, dport p) else (dport p, sport p)) as [cp sp]. cbn [mbind option_bind].
  eexists. split; [reflexivity|]. by destruct (pflag _ p).
Qed.

(** Refused or out of memory, or a new session *)
Lemma create_spec alloc ts ep x th h_dest h_source sip dip :
  readable ep (pk x) h_dest h_source sip dip -> ip_proto (pk x) <> IPPROTO_TCP ->
  exists x' th' a, dpi_session_create e g_ep_map connect_report alloc ts ep x th = Some (x', th', a) /\ framed (pk x) (pk x') /\ psess x' = psess x /\
    ((a = NULL /\ same th th') \/
     (sessions th !! a = None /\ side x' = ts /\ exists s, sok a s /\ on_meter s = false /\ added a s th th' /\
        v4_of s = v4_pkt (pk x) /\ mesh_of s = is_mesh (ep_mac ep) /\ s_proto s = ip_proto (pk x) /\ sflag DPI_SESS_FLAG_TAP s = ep_tap ep /\
        canon (v4_of s) (mesh_of s) (key_of s) = canon (v4_of s) (mesh_of s) (packet_key ts (pk x) sip dip))).
Proof.
  intros R Hp. pose proof R as [E1 E2 E3 E4 _]. set (p := pk x) in *. unfold dpi_session_create. fold p. rewrite E1, E2, E3, E4. cbn [mbind option_bind].
  set (q := if is_mesh (ep_mac ep) then _ else _). destruct q as [d th0] eqn:Eq.
  assert (S0 : same th th0).
  { unfold q in Eq. destruct (is_mesh (ep_mac ep)); [by injection Eq as _ <-|by eapply policy_lookup_same]. }
  clear q Eq. destruct (negb (is_mesh (ep_mac ep)) && _).
  { destruct (violate_log_ok ts ep p h_dest h_source sip dip d th0 R) as (th1 & -> & S1). cbn [mbind option_bind].
    eexists _, _, _. split_and!; [reflexivity|apply framed_action|done|]. left. split; [done|by eapply same_trans]. }
  destruct alloc; cbn [negb]; [|eexists _, _, _; split_and!; [reflexivity|done|done|]; by left].
  destruct (Frag.malloc_fresh (dom (sessions th0))) as [Hf Hpos]. rewrite (sm_sessions _ _ S0) in Hf, Hpos.
  eexists _, _, _. split_and!; [reflexivity|cbn [pk set]; apply (framed_trans _ (if ts then dpi_set_client_pkt p else p)); [apply framed_client|by destruct ts]|done|].
  right. apply not_elem_of_dom in Hf. rewrite (sm_sessions _ _ S0). split_and!; [done|done|].
  set (a := Frag.malloc (dom (sessions th))) in *. cbn [side set]. set (th1 := th0 <| counter ::= count_created (class_of (ip_proto p)) |>).
  destruct (new_session_facts ts ep p h_dest h_source sip dip d th1 R) as (Hv & Hm & Hc & Hpr & Hmf & Htp & Hcc & Hsc).
  set (s := count_packet ts p (new_session ts ep p h_dest h_source sip dip d th1)) in *. exists s.
  assert (Hkey : key_of (new_session ts ep p h_dest h_source sip dip d th1) = key_of s) by (unfold s; by destruct ts).
  split_and!; [| | |done|done|done|done|by rewrite Hv, Hm].
  - constructor; [done|congruence|]. rewrite Hcc, Hsc. split; apply ot_init_rep.
  - unfold on_meter. rewrite Hmf. apply andb_false_r.
  - destruct S0 as [Z1 Z2 Z3 Z4 Z5 Z6 Z7]. constructor.
    + transitivity (<[a := s]> (sessions th0)); [reflexivity|]. by rewrite Z1.
    + intros v4 mesh. rewrite <- Z2, Hv, Hm, <- Hkey.
      transitivity (if Bool.eqb v4 (v4_pkt p) && Bool.eqb mesh (is_mesh (ep_mac ep)) then RcuMap.rcu_map_add (hash_of (v4_pkt p) (is_mesh (ep_mac ep)))
        (smap th0 v4 mesh) a (key_of (new_session ts ep p h_dest h_source sip dip d th1)) else smap th0 v4 mesh); [reflexivity|].
      destruct (_ && _) eqn:B; [|done]. by apply andb_true_iff in B as [->%eqb_prop ->%eqb_prop].
    + rewrite <- Z3, <- Z6. unfold session_tmo. rewrite Hpr. reflexivity.
    + rewrite <- Z4, Hpr. reflexivity.
    + rewrite <- Z5. reflexivity.
    + rewrite <- Z6. reflexivity.
    + rewrite <- Z7. reflexivity.
Qed.

(** ** The session meter *)

(** Open sessions that are counted on the meter of [s] *)
Definition peers s ss : Z := count (metered_as (Meter.sess_key (meter_sess s))) ss.
Definition metered s : bool := sflag DPI_SESS_FLAG_INGRESS s && thrt_enable (tc Meter.DPI_THRT_IP_SRC_SESSION).
(** 2000 sessions of one peer at an endpoint *)
Definition over_limit s ss : bool := metered s && (2000 <=? peers s ss + 1) && negb (sflag DPI_SESS_FLAG_TAP s).

Lemma meter_session_spec th dl mc a s p : sinv th dl mc -> sessions th !! a = Some s -> on_meter s = false ->
  Z.of_nat (size (sessions th)) + 1 < 2 ^ 32 ->
  exists th' act s' mc', meter_session tc a p th = Some (th', act) /\ alike_but false s s' /\ sinv th' dl mc' /\
    sessions th' = <[a := s']> (sessions th) /\ th_timer th' = th_timer th /\ tick th' = tick th /\
    on_meter s' = metered s /\ negb (act =? Meter.DPI_METER_ACTION_NONE) = over_limit s (sessions th).
Proof.
  intros I Hs Ho Hz. pose proof (si_meter _ _ _ I) as H. destruct (Meter.mhist_ok tc _ _ H) as [M N].
  unfold meter_session. rewrite Hs. cbn [mbind option_bind].
  destruct (Meter.session_inc_spec tc (meters th) p (meter_sess s) M) as (m & ms & act & E & Hi). rewrite E. cbn [mbind option_bind].
  change (Meter.metered tc (meter_sess s)) with (metered s) in Hi. unfold over_limit. destruct (metered s) eqn:Em; rewrite ?Em.
  - destruct Hi as (m0 & m1 & A & C & Ec & -> & Ea). set (key := Meter.sess_key (meter_sess s)) in *.
    pose proof (count_bounds (metered_as key) (sessions th)) as Hb.
    pose proof (si_metered _ _ _ I key) as Hk.
    assert (Hopen : mc key + 1 < 2 ^ 32) by lia.
    pose proof (Meter.mh_open tc _ _ _ _ _ _ _ H Hopen E) as H'. fold key in H'. change (Meter.metered tc (meter_sess s)) with (metered s) in H'. rewrite Em in H'.
    destruct (N key eq_refl) as (_ & n0 & An & En). assert (m0 = n0) as -> by by eapply Meter.at_key_unique.
    rewrite En, u32_id in Ec by (unfold is_u32; lia).
    set (s' := s <| meter_flags := Meter.meter_flags (meter_sess s <| Meter.meter_flags ::= fun f => FLAGS_SET f Meter.DPI_SESS_METER_FLAG_IP_SESSION |>) |>).
    assert (A' : alike_but false s s') by by constructor.
    assert (Ho' : on_meter s' = true).
    { unfold on_meter. rewrite (alike_flag _ _ _ _ A') by done. unfold metered in Em. apply andb_true_iff in Em as [-> _]. cbn.
      unfold FLAGS_TEST, FLAGS_SET, Meter.DPI_SESS_METER_FLAG_IP_SESSION. rewrite Z.land_lor_distr_l. change (Z.land 1 1) with 1.
      destruct (Z.eqb_spec (Z.lor (Z.land (meter_flags s) 1) 1) 0) as [Hz0|]; [|done]. by apply Z.lor_eq_0_iff in Hz0 as [_ ?]. }
    eexists _, _, s', _. split_and!; [reflexivity|done| |done|done|done|done|].
    + eapply put_but; [done|done|done|exact H'| |rewrite (Meter.ch_tick _ _ _ _ C); apply (si_tick _ _ _ I)].
      intros mk. rewrite (count_replace _ _ _ _ _ Hs). unfold metered_as at 2 3. rewrite Ho, Ho', (alike_meter_key _ _ _ A').
      cbn [andb Z.b2z]. fold key. rewrite <- (si_metered _ _ _ I). unfold Meter.bump.
      destruct (decide (mk = key)) as [->|Hne]; [rewrite bool_decide_true by done|rewrite bool_decide_false by congruence]; cbn [Z.b2z]; lia.
    + rewrite Ea, Ec. unfold peers. fold key. rewrite Hk. cbn [andb]. change (FLAGS_TEST (Meter.s_flags _) _) with (sflag DPI_SESS_FLAG_TAP s).
      generalize (2000 <=? count (metered_as key) (sessions th) + 1). intros b. by destruct b, (sflag DPI_SESS_FLAG_TAP s).
  - destruct Hi as (-> & -> & ->).
    eexists _, _, s, mc. assert (E1 : s <| meter_flags := Meter.meter_flags (meter_sess s) |> = s) by by destruct s.
    assert (E2 : th <| meters := meters th |> = th) by by destruct th. rewrite E1, E2.
    split_and!; [reflexivity|by constructor| |done|done|done|done|done]. eapply put_alike; [done|done|apply alike_refl].
Qed.

(** ** Opening a session *)

(** The session at [a] is new in [th']. *)
Record opened base (ts : bool) ep p (sip dip : list Z) th dl a th' : Prop := {
  op_new : sessions th !! a = None;
  op_pos : 0 < a;
  op_sess : exists s0 s mc', sessions th' = <[a := s]> (sessions th) /\ alike_but false s0 s /\ on_meter s = metered s0 /\
    over_limit s0 (sessions th) = false /\ sflag DPI_SESS_FLAG_TAP s0 = ep_tap ep /\ v4_of s = v4_pkt p /\ mesh_of s = is_mesh (ep_mac ep) /\ s_proto s = ip_proto p /\
    canon (v4_of s) (mesh_of s) (key_of s) = canon (v4_of s) (mesh_of s) (packet_key ts p sip dip) /\
    sinv th' (<[Tcp.ts_entry a := tick th + session_tmo s]> dl) mc' /\
    wheel_at base (th_timer th') (<[Tcp.ts_entry a := tick th + session_tmo s]> dl)
}.

Lemma open_session_spec base alloc ts ep x th dl mc h_dest h_source sip dip :
  sinv th dl mc -> wheel_at base (th_timer th) dl -> tick_ok base th ->
  readable ep (pk x) h_dest h_source sip dip -> ip_proto (pk x) <> IPPROTO_TCP -> Z.of_nat (size (sessions th)) + 2 < 2 ^ 32 ->
  (forall b t, sessions th !! b = Some t -> ~ keyed (v4_pkt (pk x)) (is_mesh (ep_mac ep)) (packet_key ts (pk x) sip dip) t) ->
  exists x' th' a, open_session tc e g_ep_map connect_report alloc ts ep x th = Some (x', th', a) /\ framed (pk x) (pk x') /\ tick th' = tick th /\
    ((a = NULL /\ psess x' = psess x /\ sessions th' = sessions th /\ exists mc', sinv th' dl mc' /\ wheel_at base (th_timer th') dl) \/
     (psess x' = a /\ side x' = ts /\ opened base ts ep (pk x) sip dip th dl a th')).
Proof.
  intros I V Hk R Hp Hz Hno. unfold open_session.
  destruct (create_spec alloc ts ep x th _ _ _ _ R Hp) as (x1 & th1 & a & -> & F1 & Ep & [[-> S1]|(Ha & Hsd & s & O & Hom & Ad & Hv & Hm & Hpr & Htp & Hc)]);
    cbn [mbind option_bind].
  { cbn [Z.eqb NULL]. eexists _, _, _. split_and!; [reflexivity|done|apply S1|]. left. split_and!; [done|done|apply S1|]. exists mc.
    split; [by eapply sinv_same|]. by rewrite (sm_timer _ _ S1). }
  rewrite (proj2 (Z.eqb_neq a NULL)) by (pose proof (so_pos _ _ O); unfold NULL; lia).
  assert (Hno' : forall b t, sessions th !! b = Some t -> ~ keyed (v4_of s) (mesh_of s) (key_of s) t).
  { intros b t Hb (K1 & K2 & K3). apply (Hno b t Hb). rewrite <- Hv, <- Hm. split_and!; [done|done|by rewrite K3]. }
  destruct (add_spec base th dl mc a s th1 I V Hk Ha O Hom Ad Hno') as [I1 V1].
  assert (Hs1 : sessions th1 !! a = Some s) by (rewrite (ad_sessions _ _ _ _ Ad); apply lookup_insert_eq).
  destruct (meter_session_spec th1 _ mc a s (pk x1) I1 Hs1 Hom) as (th2 & act & s' & mc' & -> & A & I2 & Es & Ew & Et & Hmt & Hact).
  { rewrite (ad_sessions _ _ _ _ Ad), map_size_insert_None by done. lia. }
  cbn [mbind option_bind]. rewrite Hact.
  assert (Eo : over_limit s (sessions th1) = over_limit s (sessions th)).
  { unfold over_limit, peers. rewrite (ad_sessions _ _ _ _ Ad), (count_insert _ _ _ _ Ha). unfold metered_as at 1. by rewrite Hom. }
  rewrite Eo. destruct (over_limit s (sessions th)) eqn:El.
  - destruct (delete_spec base th2 _ mc' a s' DPI_SESS_TERM_VOLUME I2) as (th3 & mc3 & -> & I3 & V3 & Es3 & Et3);
      [by rewrite Ew|rewrite Es; apply lookup_insert_eq|]. cbn [mbind option_bind].
    eexists _, _, _. split_and!; [reflexivity|eapply framed_trans; [done|apply framed_action]|rewrite Et3, Et; apply Ad|]. left.
    assert (Hd : dl !! Tcp.ts_entry a = None).
    { destruct (dl !! Tcp.ts_entry a) eqn:E; [|done]. destruct (proj1 (si_dl _ _ _ I (Tcp.ts_entry a))) as (b & ->%ts_entry_inj & Hb); [by eexists|].
      rewrite Ha in Hb. by destruct Hb. }
    rewrite delete_insert_id in I3, V3 by done. split_and!; [done|done| |by exists mc3].
    rewrite Es3, Es, (ad_sessions _ _ _ _ Ad), insert_insert_eq. by apply delete_insert_id.
  - eexists _, _, _. split_and!; [reflexivity|done|rewrite Et; apply Ad|]. right. cbn [psess side set]. split_and!; [done|done|].
    constructor; [done|apply O|]. exists s, s', mc'.
    assert (Et' : session_tmo s' = session_tmo s) by (unfold session_tmo; by rewrite (al_proto _ _ _ A)).
    rewrite Es, (ad_sessions _ _ _ _ Ad), insert_insert_eq, Hmt, (alike_v4 _ _ _ A), (alike_mesh _ _ _ A), (al_proto _ _ _ A), (alike_canon _ _ _ _ A), Et', Ew.
    by split_and!.
Qed.
End law.
End SessionLaw.
