(* ===== verification/SessionRun.v ===== *)
(** * dpi/dpi_session.c: packets, timers and requests on the session table

    What the trackers of UDP, ICMP and IP, the timer wheel and the requests of the control
    thread do to the table (SessionLaw.v), over any history of a thread. *)

From S2P Require Import Prelude Helper Tree Asm RcuMap TimerWheel Wire Frag Packet Stats Meter Tcp PolicyRules PolicyLookup Parser Reports Session SessionLaw.
Import Helper.Bytes Helper.Hash Wire.Wire.

Module SessionRun.
Import Reports.Connect Session.Session SessionLaw.SessionLaw.
#[local] Existing Instances Tcp.eta_session Tcp.eta_wing Tcp.eta_world PolicyRules.eta_desc PolicyLookup.eta_pworld Meter.mkey_eq_dec Meter.eta_mthread TimerWheel.eta_entry TimerWheel.eta_wheel.

Section run.
Context {T : Type} `{!OrderedTree T}.
Context (tc : Z -> threat_conf) (e : PolicyRules.env) (g_ep_map : Z -> option Z) (connect_report : list report -> DPMsgSession -> Z -> Z -> Z).
Implicit Types (s : dpi_session T) (th : sthread T) (p : packet) (a : Z) (x : pctx) (ep : pkt_ep) (k : skey).
Implicit Types (ss : gmap Z (dpi_session T)) (dl : gmap Z Z).

(** ** Packets that were parsed *)

Definition size_of p : Z := Z.of_nat (length (pkt p)).
Record pkt_ok ep p : Prop := {
  po_l2 : 0 <= l2 p /\ l2 p + 14 <= size_of p;
  po_l3 : 0 <= l3 p /\ l3 p + (if v4_pkt p then 20 else 40) <= l4 p;
  po_len : l4 p <= len p <= size_of p /\ len p < 2 ^ 16;
  po_raw : 0 <= raw_ptr p /\ 0 <= raw_len p /\ raw_ptr p + raw_len p <= size_of p;
  po_proto : ip_proto p <> IPPROTO_TCP;
  po_icmp : class_of (ip_proto p) = PIcmp -> l4 p + 8 <= len p /\ (v4_pkt p = (ip_proto p =? IPPROTO_ICMP));
  po_bytes : bytes (pkt p);
  po_fake h : pflag DPI_PKT_FLAG_FAKE_EP p = true -> mem p (l2 p) 6 = Some h -> is_mesh h = is_mesh (ep_mac ep)
}.

Lemma mem_ok p (o n : Z) : 0 <= o -> o + n <= size_of p -> exists b, mem p o n = Some b.
Proof.
  intros H1 H2. unfold mem. unfold size_of in H2. rewrite (proj2 (Z.leb_le _ _)), (proj2 (Z.leb_le _ _)) by lia. by eexists.
Qed.
Lemma load8_ok p (o : Z) : 0 <= o < size_of p -> exists b, ld8 (pkt p) o = Some b.
Proof.
  intros H. unfold ld8. rewrite (proj2 (Z.ltb_ge _ _)) by lia. unfold size_of in H.
  destruct (pkt p !! Z.to_nat o) eqn:E; [by eexists|]. apply lookup_ge_None in E. lia.
Qed.
Lemma load16_ok p (o : Z) : 0 <= o -> o + 2 <= size_of p -> exists b, ld16 (pkt p) o = Some b.
Proof.
  intros H1 H2. unfold ld16. destruct (load8_ok p o) as [b ->]; [lia|]. destruct (load8_ok p (o + 1)) as [c ->]; [lia|]. by eexists.
Qed.

Lemma ips_ok p : 0 <= l3 p -> l3 p + (if v4_pkt p then 20 else 40) <= size_of p ->
  exists sip dip, src_ip p = Some sip /\ dst_ip p = Some dip.
Proof.
  intros H1 H2. unfold src_ip, dst_ip. fold (v4_pkt p). destruct (v4_pkt p).
  - destruct (mem_ok p (l3 p + 12) 4) as [b ->]; [lia|lia|]. destruct (mem_ok p (l3 p + 16) 4) as [c ->]; [lia|lia|]. by eexists _, _.
  - destruct (mem_ok p (l3 p + 8) 16) as [b ->]; [lia|lia|]. destruct (mem_ok p (l3 p + 24) 16) as [c ->]; [lia|lia|]. by eexists _, _.
Qed.

Lemma pkt_ok_readable ep p : pkt_ok ep p -> exists h_dest h_source sip dip, readable ep p h_dest h_source sip dip.
Proof.
  intros [H2 H3 Hl Hr Hp Hi Hb Hf]. destruct (mem_ok p (l2 p) 6) as [hd Ehd]; [lia|lia|].
  destruct (mem_ok p (l2 p + 6) 6) as [hs Ehs]; [lia|lia|]. destruct (ips_ok p) as (sip & dip & Es & Ed); [lia|lia|].
  exists hd, hs, sip, dip. constructor; try done. intros F. by apply Hf.
Qed.

(** ** The table *)

Abbreviation sinv := (SessionLaw.sinv tc).
Abbreviation alike := (alike_but true).
Definition table base th dl : Prop := exists mc, sinv th dl mc /\ wheel_at base (th_timer th) dl /\ tick_ok base th.
(** At most 1999 open sessions are counted on a meter. *)
Definition limited ss : Prop := forall mk, count (metered_as mk) ss <= 1999.

Lemma table_touched base th th' dl a : table base th dl -> touched a th th' -> table base th' dl.
Proof.
  intros (mc & I & V & K) Ht. exists mc. destruct (touched_tick _ _ _ Ht) as [E1 E2]. split_and!; [by eapply touched_sinv|by rewrite E2|].
  unfold tick_ok in *. by rewrite E1.
Qed.
Lemma table_same base th th' dl : table base th dl -> same th th' -> table base th' dl.
Proof.
  intros (mc & I & V & K) S. exists mc. split_and!; [by eapply sinv_same|by rewrite (sm_timer _ _ S)|]. unfold tick_ok in *. by rewrite (sm_tick _ _ S).
Qed.
Lemma touched_dom a th th' : touched a th th' -> dom (sessions th') = dom (sessions th).
Proof.
  intros (s & s' & Hs & _ & S). rewrite (sm_sessions _ _ S). apply dom_insert_lookup_L. by eexists.
Qed.
Lemma touched_limited a th th' : touched a th th' -> limited (sessions th) -> limited (sessions th').
Proof.
  intros (s & s' & Hs & A & S) L mk. rewrite (sm_sessions _ _ S). cbn [put_session sessions set].
  rewrite (count_alike _ _ a s s'); [apply L|done|]. unfold metered_as. by rewrite (alike_on_meter s s' A), (alike_meter_key _ _ _ A).
Qed.
Lemma opened_limited base ts ep p sip dip th dl a th' : opened tc base ts ep p sip dip th dl a th' -> ep_tap ep = false ->
  limited (sessions th) -> limited (sessions th').
Proof.
  intros [Hn _ (s0 & s & mc & -> & A & Hm & Hl & Ht & _)] Hep L mk. rewrite (count_insert _ _ _ _ Hn). specialize (L mk).
  unfold metered_as at 1. rewrite Hm. unfold over_limit, peers in Hl. rewrite Ht, Hep, andb_true_r in Hl. rewrite (alike_meter_key _ _ _ A).
  destruct (metered tc s0); cbn [andb Z.b2z] in *; [|lia].
  case_bool_decide as Ek; cbn [Z.b2z]; [|lia]. apply Z.leb_gt in Hl. rewrite Ek in Hl. lia.
Qed.

(** ** The two directions of a connection

    The key of the other direction; a session of an endpoint that stands in for an unknown
    one is ingress from both sides. *)
Definition flip (f : Z) : Z := if FLAGS_TEST f DPI_SESS_FLAG_FAKE_EP then f else Z.lxor f DPI_SESS_FLAG_INGRESS.
Definition mirror k : skey := SKey (ks_ip k) (ks_port k) (kc_ip k) (kc_port k) (k_proto k) (flip (k_flags k)).
Definition mirrored s (t : dpi_session T) : Prop := mesh_of s = false /\ mesh_of t = false /\ v4_of t = v4_of s /\
  canon (v4_of s) false (key_of t) = canon (v4_of s) false (mirror (key_of s)).
(** A connection has one session, not one for each direction. *)
Definition one_way ss : Prop := forall a b s t, ss !! a = Some s -> ss !! b = Some t -> mirrored s t -> a = b.

Lemma land_lxor f b m : Z.land (Z.lxor f b) m = Z.lxor (Z.land f m) (Z.land b m).
Proof. apply Z.bits_inj'. intros n _. rewrite Z.lxor_spec, !Z.land_spec, Z.lxor_spec. by destruct (Z.testbit f n), (Z.testbit b n), (Z.testbit m n). Qed.
Lemma flip_flip f : flip (flip f) = f.
Proof.
  unfold flip. destruct (FLAGS_TEST f DPI_SESS_FLAG_FAKE_EP) eqn:E; [by rewrite E|].
  assert (E' : FLAGS_TEST (Z.lxor f DPI_SESS_FLAG_INGRESS) DPI_SESS_FLAG_FAKE_EP = false).
  { unfold FLAGS_TEST in *. by rewrite <- E, land_lxor, Z.lxor_0_r. }
  by rewrite E', Z.lxor_assoc, Z.lxor_nilpotent, Z.lxor_0_r.
Qed.
Lemma mirror_mirror k : mirror (mirror k) = k.
Proof. destruct k. unfold mirror. cbn [kc_ip kc_port ks_ip ks_port k_proto k_flags]. by rewrite flip_flip. Qed.
Lemma flip_lookup f : Z.land (flip f) SESS_FLAGS_FOR_LOOKUP = Z.land (flip (Z.land f SESS_FLAGS_FOR_LOOKUP)) SESS_FLAGS_FOR_LOOKUP.
Proof.
  unfold flip. rewrite (test_land f SESS_FLAGS_FOR_LOOKUP DPI_SESS_FLAG_FAKE_EP) by done. destruct (FLAGS_TEST _ _).
  - by rewrite <- Z.land_assoc, Z.land_diag.
  - rewrite !land_lxor. by rewrite <- Z.land_assoc, Z.land_diag.
Qed.
Lemma mirror_canon v4 k k' : canon v4 false k = canon v4 false k' -> canon v4 false (mirror k) = canon v4 false (mirror k').
Proof.
  unfold canon, mirror. cbn [kc_ip kc_port ks_ip ks_port k_proto k_flags]. intros [= -> -> -> -> -> Hf].
  by rewrite (flip_lookup (k_flags k)), Hf, <- flip_lookup.
Qed.
Lemma mirrored_sym s t : mirrored s t -> mirrored t s.
Proof.
  intros (H1 & H2 & H3 & H4). split_and!; [done|done|done|]. rewrite H3. apply mirror_canon in H4. by rewrite mirror_mirror in H4.
Qed.
Lemma mirror_packet p sip dip : server_key p sip dip = mirror (client_key p sip dip).
Proof.
  unfold server_key, client_key, mirror, key_flags, flip. cbn [kc_ip kc_port ks_ip ks_port k_proto k_flags].
  by destruct (pflag DPI_PKT_FLAG_FAKE_EP p), (pflag DPI_PKT_FLAG_INGRESS p).
Qed.

(** No session has the addresses of the packet, from either side. *)
Definition unknown ep p th : Prop := forall sip dip b s, src_ip p = Some sip -> dst_ip p = Some dip -> sessions th !! b = Some s ->
  ~ keyed (v4_pkt p) (is_mesh (ep_mac ep)) (client_key p sip dip) s /\ ~ keyed (v4_pkt p) (is_mesh (ep_mac ep)) (server_key p sip dip) s.

Lemma mirror_packet_key ts p sip dip : mirror (packet_key ts p sip dip) = packet_key (negb ts) p sip dip.
Proof. unfold packet_key. destruct ts; cbn [negb]; rewrite mirror_packet; [done|by rewrite mirror_mirror]. Qed.

Lemma alike_mirrored m n s s' t t' : alike_but m s s' -> alike_but n t t' -> mirrored s' t' -> mirrored s t.
Proof.
  intros A B (H1 & H2 & H3 & H4). rewrite (alike_mesh _ _ _ A) in H1. rewrite (alike_mesh _ _ _ B) in H2.
  rewrite (alike_v4 _ _ _ A), (alike_v4 _ _ _ B) in *. split_and!; [done|done|done|].
  pose proof (alike_canon _ (v4_of s) _ _ A) as Ca. rewrite H1 in Ca. pose proof (alike_canon _ (v4_of s) _ _ B) as Cb. rewrite H2 in Cb.
  rewrite <- Cb, H4. by apply mirror_canon.
Qed.
Lemma touched_one_way a th th' : touched a th th' -> one_way (sessions th) -> one_way (sessions th').
Proof.
  intros (u & u' & Hu & A & S) O b c s t. rewrite (sm_sessions _ _ S). cbn [put_session sessions set]. rewrite !lookup_insert_Some.
  intros [[<- <-]|[_ Hb]] [[<- <-]|[_ Hc]] M; [done| | |by eapply O].
  - eapply O; [done|done|]. by eapply alike_mirrored; [|apply alike_refl|].
  - eapply O; [done|done|]. by eapply alike_mirrored; [apply alike_refl| |].
Qed.
Lemma opened_one_way base ts ep p sip dip th dl a th' : opened tc base ts ep p sip dip th dl a th' -> unknown ep p th ->
  src_ip p = Some sip -> dst_ip p = Some dip -> one_way (sessions th) -> one_way (sessions th').
Proof.
  intros [Hn _ (s0 & s & mc & -> & A & _ & _ & _ & Hv & Hm & _ & Hc & _)] Hu Es Ed O.
  assert (Hno : forall b t, sessions th !! b = Some t -> ~ mirrored s t).
  { intros b t Hb (M1 & M2 & M3 & M4). destruct (Hu sip dip b t Es Ed Hb) as [U1 U2]. rewrite M1 in Hc. apply mirror_canon in Hc.
    rewrite <- M4, mirror_packet_key in Hc. rewrite Hm in M1. rewrite M1 in U1, U2. rewrite Hv in M3, Hc.
    destruct ts; [apply U2|apply U1]; by split_and!. }
  intros b c u t. rewrite !lookup_insert_Some. intros [[<- <-]|[_ Hb]] [[<- <-]|[_ Hc']] M; [done| | |by eapply O].
  - by destruct (Hno c t Hc').
  - destruct (Hno b u Hb). by apply mirrored_sym.
Qed.

(** What packets keep of the sessions as a whole *)
Definition keeps ep ss ss' : Prop := (ep_tap ep = false -> limited ss -> limited ss') /\ (one_way ss -> one_way ss').
Lemma same_keeps ep ss : keeps ep ss ss.
Proof. done. Qed.
Lemma keeps_keeps ep ss1 ss2 ss3 : keeps ep ss1 ss2 -> keeps ep ss2 ss3 -> keeps ep ss1 ss3.
Proof. unfold keeps. naive_solver. Qed.
Lemma touched_keeps ep a th th' : touched a th th' -> keeps ep (sessions th) (sessions th').
Proof. intros Ht. split; [intros _; by eapply touched_limited|by eapply touched_one_way]. Qed.
Lemma opened_keeps base ts ep p sip dip th dl a th' : opened tc base ts ep p sip dip th dl a th' -> unknown ep p th ->
  src_ip p = Some sip -> dst_ip p = Some dip -> keeps ep (sessions th) (sessions th').
Proof. intros O U Es Ed. split; [by eapply opened_limited|by eapply opened_one_way]. Qed.

(** [s] has the addresses of the packet, from one of its sides. *)
Definition of_packet ep p s : Prop := exists sip dip ts, src_ip p = Some sip /\ dst_ip p = Some dip /\
  keyed (v4_pkt p) (is_mesh (ep_mac ep)) (packet_key ts p sip dip) s.
Lemma of_packet_alike m ep p s s' : alike_but m s s' -> of_packet ep p s -> of_packet ep p s'.
Proof.
  intros A (sip & dip & ts & Es & Ed & H1 & H2 & H3). exists sip, dip, ts. split_and!; [done|done|]. unfold keyed.
  rewrite (alike_v4 _ _ _ A), (alike_mesh _ _ _ A), <- H3. split_and!; [done|done|]. rewrite <- H2. by apply (alike_canon _ _ _ _ A).
Qed.

(** ** What a tracker leaves

    The session of the packet was seen at the tick, or nothing but verdicts changed. *)
Definition seen base ep p th dl a th' : Prop := exists s, sessions th' !! a = Some s /\ 0 < a /\ of_packet ep p s /\
  dom (sessions th') = {[a]} ∪ dom (sessions th) /\ table base th' (<[Tcp.ts_entry a := tick th + session_tmo s]> dl).
Record tracked base ep p th dl x' th' : Prop := {
  tr_frame : framed p (pk x');
  tr_tick : tick th' = tick th;
  tr_keeps : keeps ep (sessions th) (sessions th');
  tr_table : seen base ep p th dl (psess x') th' \/
    (dom (sessions th') = dom (sessions th) /\ table base th' dl /\ (psess x' = NULL \/ is_Some (sessions th' !! psess x')))
}.

Lemma seen_touched base ep p th dl a th' th'' : seen base ep p th dl a th' -> touched a th' th'' -> seen base ep p th dl a th''.
Proof.
  intros (s & Hs & Hp & Ho & Hd & Ht) Hto. destruct (touched_some _ _ _ Hto) as (s1 & s2 & H1 & H2 & A). rewrite Hs in H1. injection H1 as <-.
  exists s2. split_and!; [done|done|by eapply of_packet_alike|by rewrite (touched_dom _ _ _ Hto)|].
  assert (session_tmo s2 = session_tmo s) as -> by (unfold session_tmo; by rewrite (al_proto _ _ _ A)). by eapply table_touched.
Qed.

Lemma track_seq_ok x th : is_Some (sessions th !! psess x) ->
  exists x' th', track_seq x th = Some (x', th') /\ touched (psess x) th th' /\ framed (pk x) (pk x') /\ psess x' = psess x /\ side x' = side x.
Proof.
  intros [s Hs]. unfold track_seq. rewrite Hs. cbn [mbind option_bind]. eexists _, _. split_and!; [reflexivity| |done|done|done].
  eapply touched_put; [done|]. by destruct (side x); constructor.
Qed.

Lemma session_threat_ok idx x th : is_Some (sessions th !! psess x) ->
  exists x' th', session_threat tc idx x th = Some (x', th') /\ touched (psess x) th th' /\ framed (pk x) (pk x') /\ psess x' = psess x /\ side x' = side x.
Proof.
  intros [s Hs]. unfold session_threat. rewrite Hs. cbn [mbind option_bind].
  destruct (Tcp.threat_trigger tc idx (enter (psess x) s th) (pk x)) as [w p'] eqn:E. eexists _, _. split; [reflexivity|].
  unfold Tcp.threat_trigger, dpi_threat_trigger, dpi_set_action in E.
  assert (Hw : exists r sv t, w = (enter (psess x) s th) <| Tcp.sess := tcp s <| Tcp.term_reason := r |> <| Tcp.sess_severity := sv |> <| Tcp.sess_threat := t |> |>
    /\ framed (pk x) p').
  { exists (Tcp.term_reason (Tcp.sess w)), (Tcp.sess_severity (Tcp.sess w)), (Tcp.sess_threat (Tcp.sess w)).
    repeat (match type of E with context [if ?b then _ else _] => destruct b end); injection E as <- <-; (split; [by destruct s as [? ? ? ? ? ? ? ? ? ? ? ? ? ? ? []]|done]). }
  destruct Hw as (r & sv & t & -> & F). split_and!; [|done|done|done].
  exists s, (s <| tcp := tcp s <| Tcp.term_reason := r |> <| Tcp.sess_severity := sv |> <| Tcp.sess_threat := t |> |>).
  split_and!; [done|by constructor|by constructor].
Qed.

Lemma pflag_client f p : Z.land DPI_PKT_FLAG_CLIENT f = 0 -> pflag f (dpi_set_client_pkt p) = pflag f p.
Proof. intros H. unfold pflag, dpi_set_client_pkt, FLAGS_TEST. cbn [flags set]. by rewrite land_set. Qed.
Lemma pkt_ok_client ep (c : bool) p : pkt_ok ep p -> pkt_ok ep (if c then dpi_set_client_pkt p else p).
Proof. destruct c; [|done]. intros []. constructor; try done. intros h. rewrite pflag_client by done. apply po_fake0. Qed.

(** The packet as it comes to a tracker *)
Record arrived base ep x th dl : Prop := {
  ar_table : table base th dl;
  ar_pkt : pkt_ok ep (pk x);
  ar_sess : (psess x = NULL /\ unknown ep (pk x) th) \/ (0 < psess x /\ exists s, sessions th !! psess x = Some s /\ of_packet ep (pk x) s)
}.

Lemma arrived_has base ep x th dl : arrived base ep x th dl -> psess x = NULL \/ is_Some (sessions th !! psess x).
Proof. intros [_ _ [[? _]|(_ & s & Hs & _)]]; [by left|right; by eexists]. Qed.
Lemma of_packet_client ep (c : bool) p s : of_packet ep (if c then dpi_set_client_pkt p else p) s <-> of_packet ep p s.
Proof.
  destruct c; [|done]. assert (E : forall ts sip dip, packet_key ts (dpi_set_client_pkt p) sip dip = packet_key ts p sip dip).
  { intros ts sip dip. unfold packet_key, client_key, server_key, key_flags. by rewrite !pflag_client. }
  unfold of_packet. by setoid_rewrite E.
Qed.

Lemma find_session_spec base ep p th dl : table base th dl -> pkt_ok ep p ->
  exists x th', find_session e ep p th = Some (x, th') /\ arrived base ep x th' dl /\ (forall s, of_packet ep (pk x) s <-> of_packet ep p s) /\
    (th' = th \/ touched (psess x) th th').
Proof.
  intros Ht P. pose proof Ht as (mc & I & V & K). destruct (ips_ok p) as (sip & dip & Es & Ed); [apply P|destruct P as [_ H3 Hl _ _ _ _ _]; lia|].
  unfold find_session. destruct (lookup_spec tc e th dl mc (ep_mac ep) p sip dip I Es Ed) as (th' & p' & a & c & -> & -> & [(-> & -> & -> & Hn)|(Hp & Hto & s1 & Hs1 & Hk)]);
    cbn [mbind option_bind].
  - cbn [Z.eqb NULL]. eexists _, _. split_and!; [reflexivity| |done|by left]. constructor; [done|done|]. left. split; [done|].
    intros sip' dip' b s E1 E2 Hb. cbn [pk] in *. simplify_eq. by apply (Hn b).
  - rewrite (proj2 (Z.eqb_neq a NULL)) by (unfold NULL; lia). destruct (touched_some _ _ _ Hto) as (s0 & s & _ & Hs & _). rewrite Hs. cbn [mbind option_bind].
    assert (Hto' : touched a th (put_session a (mask_flag (is_mesh (ep_mac ep)) DPI_SESS_FLAG_PROXYMESH
      (mask_flag (ep_tap ep) DPI_SESS_FLAG_TAP (count_packet c (if c then dpi_set_client_pkt p else p) s))) th')).
    { eapply touched_trans; [exact Hto|]. eapply touched_put; [done|]. eapply alike_trans; [|by apply alike_mask_flag].
      eapply alike_trans; [apply alike_count|by apply alike_mask_flag]. }
    eexists _, _. split_and!; [reflexivity| |intros ?; apply of_packet_client|by right].
    constructor; [by eapply table_touched|by apply pkt_ok_client|]. right. cbn [psess pk]. split; [done|].
    destruct (touched_some _ _ _ Hto') as (t1 & s2 & H1 & H2 & A). exists s2. split; [done|]. apply of_packet_client.
    rewrite Hs1 in H1. injection H1 as <-. eapply of_packet_alike; [done|]. exists sip, dip, c. split_and!; [done|done|]. destruct c; [done|apply Hk].
Qed.

Lemma opened_seen base ts ep p sip dip th dl a th' : tick_ok base th -> tick th' = tick th -> opened tc base ts ep p sip dip th dl a th' ->
  src_ip p = Some sip -> dst_ip p = Some dip -> seen base ep p th dl a th'.
Proof.
  intros K Et [Hn Hp (s0 & s & mc & Es & _ & _ & _ & _ & Hv & Hm & _ & Hc & I & V)] E1 E2. exists s. rewrite Es.
  split_and!; [apply lookup_insert_eq|done| |apply dom_insert_L|].
  { exists sip, dip, ts. rewrite Hv, Hm in Hc. by split_and!. }
  exists mc. split_and!; [done|done|]. unfold tick_ok in *. by rewrite Et.
Qed.

(** A packet without session opens one, or is refused. *)
Lemma open_session_ok base alloc ts ep x th dl : arrived base ep x th dl -> psess x = NULL -> Z.of_nat (size (sessions th)) + 2 < 2 ^ 32 ->
  exists x' th' a, open_session tc e g_ep_map connect_report alloc ts ep x th = Some (x', th', a) /\ tracked base ep (pk x) th dl x' th' /\
    ((a = NULL /\ psess x' = NULL) \/ (psess x' = a /\ seen base ep (pk x) th dl a th')).
Proof.
  intros [(mc & I & V & K) P [[Hx Hu]|[Hx _]]] Hnull Hz; [|unfold NULL in Hnull; lia].
  destruct (pkt_ok_readable ep (pk x) P) as (hd & hs & sip & dip & R). pose proof R as [_ _ Es Ed _].
  destruct (open_session_spec tc e g_ep_map connect_report base alloc ts ep x th dl mc hd hs sip dip I V K R (po_proto _ _ P) Hz)
    as (x' & th' & a & -> & F & Et & Hc).
  { intros b t Hb. destruct (Hu sip dip b t Es Ed Hb) as [H1 H2]. unfold packet_key. by destruct ts. }
  exists x', th', a. split; [done|]. destruct Hc as [(-> & Ep & Ess & mc' & I' & V')|(Ep & Esd & O)].
  - split; [|left; split; congruence]. constructor; [done|done|rewrite Ess; apply same_keeps|]. right. rewrite Ess, Ep, Hx. split_and!; [done| |by left].
    exists mc'. split_and!; [done|done|]. unfold tick_ok in *. by rewrite Et.
  - pose proof (opened_seen _ _ _ _ _ _ _ _ _ _ K Et O Es Ed) as S. split; [|by right]. constructor; [done|done|by eapply opened_keeps|]. left. by rewrite Ep.
Qed.

Lemma refresh_ok base ep x th dl : arrived base ep x th dl -> psess x <> NULL ->
  exists th', refresh x th = Some th' /\ sessions th' = sessions th /\ tick th' = tick th /\ seen base ep (pk x) th dl (psess x) th'.
Proof.
  intros [(mc & I & V & K) P [[Hx _]|(Hp & s & Hs & Ho)]] Hn; [done|]. unfold refresh.
  destruct (refresh_spec tc base th dl mc _ s I V K Hs) as (th' & -> & Es & Et & I' & V'). exists th'. split_and!; [done|done|done|].
  exists s. rewrite Es. split_and!; [done|done|done| |].
  - apply elem_of_dom_2 in Hs. set_solver.
  - exists mc. split_and!; [done|done|]. unfold tick_ok in *. by rewrite Et.
Qed.

(** ** The trackers *)

Definition room th : Prop := Z.of_nat (size (sessions th)) + 2 < 2 ^ 32.

(** After the session was seen, only that session changes. *)
Record following base ep p th dl x th' : Prop := {
  fo_frame : framed p (pk x);
  fo_tick : tick th' = tick th;
  fo_keeps : keeps ep (sessions th) (sessions th');
  fo_seen : seen base ep p th dl (psess x) th'
}.
Lemma following_tracked base ep p th dl x th' : following base ep p th dl x th' -> tracked base ep p th dl x th'.
Proof. intros [? ? ? ?]. constructor; try done. by left. Qed.
Lemma following_step base ep p th dl x th1 x' th' : following base ep p th dl x th1 -> touched (psess x) th1 th' -> framed (pk x) (pk x') ->
  psess x' = psess x -> following base ep p th dl x' th'.
Proof.
  intros [F Et L S] Ht F' Ep. constructor.
  - by eapply framed_trans.
  - rewrite <- Et. by destruct (touched_tick _ _ _ Ht) as [-> _].
  - eapply keeps_keeps; [done|by eapply touched_keeps].
  - rewrite Ep. by eapply seen_touched.
Qed.
Lemma following_some base ep p th dl x th' : following base ep p th dl x th' -> is_Some (sessions th' !! psess x) /\ 0 < psess x.
Proof. intros [_ _ _ (s & Hs & Hp & _)]. split; [by eexists|done]. Qed.

(** The session of the packet: the new one, or the one it had *)
Lemma opened_following base alloc ts ep x th dl : arrived base ep x th dl -> psess x = NULL -> room th ->
  exists x' th' a, open_session tc e g_ep_map connect_report alloc ts ep x th = Some (x', th', a) /\
    ((a = NULL /\ tracked base ep (pk x) th dl x' th') \/ (0 < a /\ psess x' = a /\ following base ep (pk x) th dl x' th')).
Proof.
  intros Ar Hn Hr. destruct (open_session_ok base alloc ts ep x th dl Ar Hn Hr) as (x' & th' & a & E & [F Et L _] & [[-> Hx]|[Hx S]]);
    exists x', th'; eexists; (split; [done|]).
  - destruct (open_session_ok base alloc ts ep x th dl Ar Hn Hr) as (x2 & th2 & a2 & E2 & Tr & _). rewrite E in E2. injection E2 as <- <- _. by left.
  - right. split_and!; [by destruct S as (? & _ & ? & _)|done|]. constructor; try done. by rewrite Hx.
Qed.
Lemma refresh_following base ep x th dl : arrived base ep x th dl -> psess x <> NULL ->
  exists th', refresh x th = Some th' /\ following base ep (pk x) th dl x th'.
Proof.
  intros Ar Hn. destruct (refresh_ok base ep x th dl Ar Hn) as (th' & E & Es & Et & S). exists th'. split; [done|].
  constructor; [done|done|rewrite Es; apply same_keeps|done].
Qed.
Lemma seq_following base ep p th dl x th1 : following base ep p th dl x th1 ->
  exists x' th', track_seq x th1 = Some (x', th') /\ tracked base ep p th dl x' th'.
Proof.
  intros Fo. destruct (track_seq_ok x th1) as (x' & th' & E & Ht & F & Ep & _); [by eapply following_some|].
  exists x', th'. split; [done|]. apply following_tracked. by eapply following_step.
Qed.
Lemma flag_following base ep p th dl x th1 f : following base ep p th dl x th1 -> Z.land f FIXED = 0 ->
  following base ep p th dl x (session_flag f (psess x) th1).
Proof.
  intros Fo Hf. eapply following_step; [done| |done|done]. apply touched_alter; [|by eapply following_some]. intros s _. by apply alike_set_sflag.
Qed.

Lemma udp_tracker_ok base alloc ep x th dl : arrived base ep x th dl -> room th ->
  exists x' th', dpi_udp_tracker tc e g_ep_map connect_report alloc ep x th = Some (x', th') /\ tracked base ep (pk x) th dl x' th'.
Proof.
  intros Ar Hr. unfold dpi_udp_tracker. destruct (Z.eqb_spec (psess x) NULL) as [Hn|Hn].
  - destruct (opened_following base alloc (udp_to_server ep (pk x)) ep x th dl Ar Hn Hr) as (x1 & th1 & a & -> & [[-> Tr]|(Hp & Hx & Fo)]);
      cbn [mbind option_bind]; [by eexists _, _|]. rewrite (proj2 (Z.eqb_neq a NULL)) by (unfold NULL; lia). by apply seq_following.
  - destruct (refresh_following base ep x th dl Ar Hn) as (th1 & -> & Fo). cbn [mbind option_bind]. by apply seq_following.
Qed.

Lemma ip_tracker_ok base alloc ep x th dl : arrived base ep x th dl -> room th ->
  exists x' th', dpi_ip_tracker tc e g_ep_map connect_report alloc ep x th = Some (x', th') /\ tracked base ep (pk x) th dl x' th'.
Proof.
  intros Ar Hr. unfold dpi_ip_tracker. destruct (Z.eqb_spec (psess x) NULL) as [Hn|Hn].
  - destruct (opened_following base alloc true ep x th dl Ar Hn Hr) as (x1 & th1 & a & -> & [[-> Tr]|(Hp & Hx & Fo)]);
      cbn [mbind option_bind]; [by eexists _, _|]. rewrite (proj2 (Z.eqb_neq a NULL)) by (unfold NULL; lia). rewrite <- Hx.
    apply seq_following. by apply flag_following.
  - destruct (refresh_following base ep x th dl Ar Hn) as (th1 & -> & Fo). cbn [mbind option_bind]. by apply seq_following.
Qed.

(** A lookup may teach one session of a proxy mesh its server. *)
Definition learnt th th' : Prop := th' = th \/ exists a, touched a th th'.
Lemma learnt_table base th th' dl : learnt th th' -> table base th dl -> table base th' dl.
Proof. intros [->|[a Ht]] H; [done|by eapply table_touched]. Qed.

Lemma lookup_embedded_ok base ep p th dl (proto sp dp : Z) : table base th dl -> 0 <= l4 p -> l4 p + 8 < 2 ^ 16 ->
  l4 p + 8 + (if v4_pkt p then 20 else 40) <= size_of p ->
  exists th' r, lookup_embedded e ep p proto sp dp th = Some (th', r) /\ learnt th th'.
Proof.
  intros (mc & I & _) H0 H16 Hl. unfold lookup_embedded. set (q := embedded p proto sp dp).
  assert (L3 : l3 q = l4 p + 8) by (unfold q, embedded; cbn [l3 set]; apply u16_id; unfold is_u16; lia).
  destruct (ips_ok q) as (sip & dip & Es & Ed); [lia|rewrite L3; exact Hl|].
  destruct (lookup_spec tc e th dl mc (ep_mac ep) q sip dip I Es Ed) as (th' & q' & a & c & -> & _ & [(-> & _ & -> & _)|(Hp & Ht & _)]);
    cbn [mbind option_bind]; eexists _, _; (split; [reflexivity|]); [by left|right; by exists a].
Qed.

Lemma embed_icmp_ok base ep p th dl : table base th dl -> pkt_ok ep p -> v4_pkt p = true ->
  exists th' r, dpi_parse_embed_icmp e ep p th = Some (th', r) /\ learnt th th'.
Proof.
  intros Ht P E4. destruct P as [_ H3 Hl _ _ _ Hb _]. rewrite E4 in H3. unfold dpi_parse_embed_icmp. rewrite (u16_id (len p - l4 p)) by (unfold is_u16; lia).
  assert (Hno : exists th' r, Some (th, -1) = Some (th', r) /\ learnt th th') by (exists th, (-1); split; [done|by left]).
  destruct (Z.ltb_spec (len p - l4 p) (8 + 20)); [done|].
  destruct (load8_ok p (l4 p + 8)) as [v ->]; [lia|]. cbn [mbind option_bind]. destruct (negb _); [done|].
  destruct (load16_ok p (l4 p + 8 + 2)) as [tot ->]; [lia|lia|]. cbn [mbind option_bind]. destruct (_ || _) eqn:Ei; [done|].
  apply orb_false_iff in Ei as [Ei%Z.ltb_ge _]. destruct (Packet.get_iph_len_range v) as [Hr _].
  destruct (Z.ltb_spec (len p - l4 p) (8 + get_iph_len v + 4)); [done|].
  destruct (load8_ok p (l4 p + 8 + 9)) as [pr ->]; [lia|]. cbn [mbind option_bind].
  destruct (load16_ok p (l4 p + 8 + get_iph_len v)) as [sp ->]; [lia|lia|]. cbn [mbind option_bind].
  destruct (load16_ok p (l4 p + 8 + get_iph_len v + 2)) as [dp ->]; [lia|lia|]. cbn [mbind option_bind].
  eapply lookup_embedded_ok; [done|lia|lia|rewrite E4; lia].
Qed.

Lemma embed_icmpv6_ok base ep p th dl : table base th dl -> pkt_ok ep p ->
  exists th' r, dpi_parse_embed_icmpv6 e ep p th = Some (th', r) /\ learnt th th'.
Proof.
  intros Ht P. destruct P as [_ H3 Hl _ _ _ Hb _].
  assert (0 <= l4 p) by (destruct (v4_pkt p); lia). unfold dpi_parse_embed_icmpv6. rewrite (u16_id (len p - l4 p)) by (unfold is_u16; lia).
  assert (Hno : exists th' r, Some (th, -1) = Some (th', r) /\ learnt th th') by (exists th, (-1); split; [done|by left]).
  destruct (Z.ltb_spec (len p - l4 p) (8 + 40)); [done|]. unfold dpi_parse_ipv6_ext4embed_icmp.
  destruct (load8_ok p (l4 p + 8 + 6)) as [ty ->]; [lia|]. cbn [mbind option_bind].
  destruct (Packet.ext_loop_ok (Z.to_nat (len p)) (p <| l3 := l4 p + 8 |>) (l4 p + 8 + 40) (len p) ty false) as (f & r & pr & -> & Hr);
    [done|lia|cbn [pkt set]; unfold size_of in Hl; lia|lia|]. cbn [mbind option_bind]. cbn [l3 set] in Hr.
  destruct (Z.ltb_spec r 0); [done|]. destruct (Z.ltb_spec (len p - l4 p) (8 + 40 + r + 4)); [done|].
  destruct (load16_ok p (l4 p + 8 + 40 + r)) as [sp ->]; [lia|lia|]. cbn [mbind option_bind].
  destruct (load16_ok p (l4 p + 8 + 40 + r + 2)) as [dp ->]; [lia|lia|]. cbn [mbind option_bind].
  eapply lookup_embedded_ok; [done|lia|lia|destruct (v4_pkt p); lia].
Qed.

Lemma upd_client_touched f a th : is_Some (sessions th !! a) ->
  (forall d, mac (f d) = mac d /\ ip (f d) = ip d /\ port (f d) = port d) -> touched a th (upd_client f a th).
Proof.
  intros Hs Hf. apply touched_alter; [|done]. intros s _. destruct (Hf (dclient s)) as (H1 & H2 & H3).
  constructor; try done; cbn; by split.
Qed.

Lemma tunneling_ok x th : is_Some (sessions th !! psess x) -> l4 (pk x) + 8 <= size_of (pk x) -> 0 <= l4 (pk x) ->
  0 <= raw_ptr (pk x) -> raw_ptr (pk x) + raw_len (pk x) <= size_of (pk x) ->
  exists x' th', dpi_icmp_tunneling_check tc x th = Some (x', th') /\ touched (psess x) th th' /\ framed (pk x) (pk x') /\ psess x' = psess x.
Proof.
  intros Hs H8 H0 Hr Hl. pose proof Hs as [s Es]. unfold dpi_icmp_tunneling_check. rewrite Es. cbn [mbind option_bind].
  destruct (load8_ok (pk x) (l4 (pk x))) as [ty ->]; [lia|]. cbn [mbind option_bind].
  destruct (mem_ok (pk x) (raw_ptr (pk x)) (raw_len (pk x))) as [b ->]; [lia|lia|].
  destruct (load16_ok (pk x) (l4 (pk x) + 6)) as [sq ->]; [lia|lia|]. cbn [mbind option_bind].
  assert (Hone : forall f : dwing -> dwing, (forall d, mac (f d) = mac d /\ ip (f d) = ip d /\ port (f d) = port d) ->
    exists x' th', Some (x, upd_client f (psess x) th) = Some (x', th') /\ touched (psess x) th th' /\ framed (pk x) (pk x') /\ psess x' = psess x).
  { intros f Hf. eexists _, _. split_and!; [reflexivity|by apply upd_client_touched|done|done]. }
  assert (Hid : exists x' th', Some (x, th) = Some (x', th') /\ touched (psess x) th th' /\ framed (pk x) (pk x') /\ psess x' = psess x).
  { eexists _, _. split_and!; [reflexivity|by apply touched_refl|done|done]. }
  destruct (icmp_times _ =? _); [done|]. destruct (ty =? ICMP_ECHO); [by apply Hone|]. destruct (ty =? ICMP_ECHOREPLY); [|done].
  destruct (_ && _); [|done]. destruct (_ =? sdbm_hash b); [by apply Hone|]. destruct (_ =? ICMP_TUNNEL_THRESHOD); [|by apply Hone].
  set (th1 := upd_client _ (psess x) th). assert (T1 : touched (psess x) th th1) by by apply upd_client_touched.
  destruct (touched_some _ _ _ T1) as (_ & s1 & _ & Hs1 & _).
  destruct (session_threat_ok DPI_THRT_ICMP_TUNNELING x th1) as (x2 & th2 & -> & T2 & F2 & Ep2 & _); [by eexists|]. cbn [mbind option_bind].
  destruct (touched_some _ _ _ T2) as (_ & s2 & _ & Hs2 & _).
  eexists _, _. split_and!; [reflexivity| |done|done]. eapply touched_trans; [exact T1|]. eapply touched_trans; [exact T2|].
  apply upd_client_touched; [by eexists|done].
Qed.

Lemma meters_sinv th dl mc m : sinv th dl mc -> Meter.mhist tc m mc -> Meter.tick m = Meter.tick (meters th) -> sinv (th <| meters := m |>) dl mc.
Proof. intros [] H E. constructor; try done. cbn [meters set tick]. by rewrite E. Qed.

Lemma packet_inc_none junk w t p mac w' p' : Meter.dpi_meter_packet_inc tc junk w t p mac = Some (w', p', Meter.DPI_METER_ACTION_NONE) -> p' = p.
Proof.
  unfold Meter.dpi_meter_packet_inc. destruct (negb _); [by intros [= _ <-]|]. destruct (if eth_type p =? ETH_P_IP then _ else _) as [v4 i].
  destruct (Meter.meter_inc _ _ _ _ _) as [[[[w1 y] fire] create]|]; [|done]. cbn [mbind option_bind].
  destruct (Meter.fill_log _ _ _ _) as [w2|]; [|done]. cbn [mbind option_bind]. destruct fire; [|by intros [= _ <-]].
  by destruct (Meter.send_log _ _ _ _).
Qed.
Lemma packet_inc_frame junk w t p mac w' p' act : Meter.dpi_meter_packet_inc tc junk w t p mac = Some (w', p', act) -> framed p p'.
Proof.
  unfold Meter.dpi_meter_packet_inc. destruct (negb _); [by intros [= _ <- _]|]. destruct (if eth_type p =? ETH_P_IP then _ else _) as [v4 i].
  destruct (Meter.meter_inc _ _ _ _ _) as [[[[w1 y] fire] create]|]; [|done]. cbn [mbind option_bind].
  destruct (Meter.fill_log _ _ _ _) as [w2|]; [|done]. cbn [mbind option_bind]. destruct fire; [|by intros [= _ <- _]].
  destruct (Meter.send_log _ _ _ _); [|done]. cbn [mbind option_bind]. intros [= _ <- _]. apply framed_action.
Qed.

Lemma flood_ok base junk ep x th dl : arrived base ep x th dl ->
  exists x' th' act, icmp_flood tc junk ep x th = Some (x', th', act) /\ framed (pk x) (pk x') /\ psess x' = psess x /\
    sessions th' = sessions th /\ tick th' = tick th /\ table base th' dl /\ (act = Meter.DPI_METER_ACTION_NONE -> x' = x).
Proof.
  intros [(mc & I & V & K) P _]. unfold icmp_flood. destruct (_ && _).
  2:{ eexists _, _, _. split_and!; [reflexivity|done|done|done|done|by exists mc|done]. }
  pose proof (si_meter _ _ _ _ I) as H. destruct (Meter.mhist_ok tc _ _ H) as [M _].
  destruct (Meter.packet_inc_spec tc junk (meters th) Meter.DPI_METER_ICMP_FLOOD (pk x) (ep_mac ep) M) as (m & p' & act & E & Hm).
  rewrite E. cbn [mbind option_bind]. eexists _, _, _. split_and!; [reflexivity|by eapply packet_inc_frame|done|done|done| |].
  - exists mc. split_and!; [|done|done]. apply meters_sinv; [done|by eapply Meter.mh_icmp|]. destruct Hm as [->|(y & z & _ & C)]; [done|apply C].
  - intros ->. apply packet_inc_none in E as ->. by destruct x.
Qed.

Lemma arrived_same_sessions base ep x th th' dl : arrived base ep x th dl -> sessions th' = sessions th -> table base th' dl -> arrived base ep x th' dl.
Proof.
  intros [_ P S] Es Ht. constructor; [done|done|]. destruct S as [[Hx Hu]|S]; [left|right; by rewrite Es]. split; [done|].
  intros sip dip b t E1 E2 Hb. rewrite Es in Hb. by eapply Hu.
Qed.
Lemma tracked_shift base ep p th0 th dl x' th' : sessions th = sessions th0 -> tick th = tick th0 -> tracked base ep p th dl x' th' -> tracked base ep p th0 dl x' th'.
Proof.
  intros Es Et [F K L Tb]. constructor; [done|congruence|by rewrite <- Es|]. unfold seen in *. by rewrite <- Es, <- Et.
Qed.

(** The session of an ICMP packet *)
Lemma icmp_session_ok base alloc ep x th dl : arrived base ep x th dl -> room th ->
  exists x' th' a, icmp_session tc e g_ep_map connect_report alloc ep x th = Some (x', th', a) /\
    ((a = NULL /\ tracked base ep (pk x) th dl x' th') \/ (0 < a /\ following base ep (pk x) th dl x' th')).
Proof.
  intros Ar Hr. unfold icmp_session. destruct (Z.eqb_spec (psess x) NULL) as [Hn|Hn].
  - destruct (opened_following base alloc (dpi_is_client_pkt (pk x)) ep x th dl Ar Hn Hr) as (x1 & th1 & a & -> & [[-> Tr]|(Hp & Hx & Fo)]);
      cbn [mbind option_bind]; [eexists _, _, _; split; [reflexivity|]; by left|].
    rewrite (proj2 (Z.eqb_neq a NULL)) by (unfold NULL; lia). eexists _, _, _. split; [reflexivity|]. right. split; [done|]. rewrite <- Hx.
    apply flag_following; [|done]. eapply following_step; [done| |done|done]. apply upd_client_touched; [by eapply following_some|done].
  - destruct (refresh_following base ep x th dl Ar Hn) as (th1 & -> & Fo). cbn [mbind option_bind]. eexists _, _, _. split; [reflexivity|].
    right. split; [by apply (following_some _ _ _ _ _ _ _ Fo)|done].
Qed.

Lemma framed_size p p' : framed p p' -> size_of p' = size_of p.
Proof. intros F. unfold size_of. by rewrite (fr_pkt _ _ F). Qed.

(** Threats found in an ICMP packet, and its sequence number *)
Lemma icmp_checks_ok base ep p th dl x th1 : following base ep p th dl x th1 -> pkt_ok ep p -> class_of (ip_proto p) = PIcmp ->
  exists x' th', ('(x, th) ← (if (PING_DEATH_LENGTH <? raw_len (pk x)) && dpi_is_client_pkt (pk x)
                               then session_threat tc DPI_THRT_PING_DEATH x th1 else Some (x, th1));
                  '(x, th) ← dpi_icmp_tunneling_check tc x th; track_seq x th) = Some (x', th') /\ tracked base ep p th dl x' th'.
Proof.
  intros Fo P Hc.
  assert (H1 : exists x2 th2, (if (PING_DEATH_LENGTH <? raw_len (pk x)) && dpi_is_client_pkt (pk x)
    then session_threat tc DPI_THRT_PING_DEATH x th1 else Some (x, th1)) = Some (x2, th2) /\ following base ep p th dl x2 th2).
  { destruct (_ && _); [|by exists x, th1].
    destruct (session_threat_ok DPI_THRT_PING_DEATH x th1) as (x2 & th2 & E & Ht & F2 & Ep & _); [by eapply following_some|].
    exists x2, th2. split; [done|by eapply following_step]. }
  destruct H1 as (x2 & th2 & -> & Fo2). cbn [mbind option_bind].
  pose proof (fo_frame _ _ _ _ _ _ _ Fo2) as F. pose proof (framed_size _ _ F) as Esz. destruct (fr_raw _ _ F) as [R1 R2]. pose proof (fr_l4 _ _ F) as E4.
  destruct (po_icmp _ _ P Hc) as [H8 _]. pose proof (po_l3 _ _ P) as H3. pose proof (po_len _ _ P) as Hl. pose proof (po_raw _ _ P) as Hr.
  assert (0 <= l4 p) by (destruct (v4_pkt p); lia).
  destruct (tunneling_ok x2 th2) as (x3 & th3 & -> & T3 & F3 & Ep3); [by eapply following_some|lia..|]. cbn [mbind option_bind].
  apply seq_following. by eapply following_step.
Qed.

Lemma icmp_tracker_ok base alloc junk ep x th dl : arrived base ep x th dl -> room th -> class_of (ip_proto (pk x)) = PIcmp ->
  exists x' th', dpi_icmp_tracker tc e g_ep_map connect_report alloc junk ep x th = Some (x', th') /\ tracked base ep (pk x) th dl x' th'.
Proof.
  intros Ar Hr Hc. pose proof (ar_pkt _ _ _ _ _ Ar) as P. destruct (po_icmp _ _ P Hc) as [H8 E4]. pose proof (po_l3 _ _ P) as H3. pose proof (po_len _ _ P) as Hl.
  assert (0 <= l4 (pk x)) by (destruct (v4_pkt (pk x)); lia).
  unfold dpi_icmp_tracker. destruct (load8_ok (pk x) (l4 (pk x))) as [ty ->]; [lia|]. cbn [mbind option_bind]. destruct (icmp_unreachable (pk x) ty).
  - assert (Hem : exists th' r, (if ip_proto (pk x) =? IPPROTO_ICMP then dpi_parse_embed_icmp e ep (pk x) th else dpi_parse_embed_icmpv6 e ep (pk x) th)
      = Some (th', r) /\ learnt th th').
    { destruct (ip_proto (pk x) =? IPPROTO_ICMP); [eapply embed_icmp_ok|eapply embed_icmpv6_ok]; try done; apply Ar. }
    destruct Hem as (th' & r & -> & Hle). cbn [mbind option_bind]. eexists _, _. split; [reflexivity|].
    assert (Hd : dom (sessions th') = dom (sessions th)) by (destruct Hle as [->|[b Ht]]; [done|by eapply touched_dom]).
    constructor; [apply framed_action| | |].
    + destruct Hle as [->|[b Ht]]; [done|by apply (touched_tick b)].
    + destruct Hle as [->|[b Ht]]; [apply same_keeps|by eapply touched_keeps].
    + right. split_and!; [done|by eapply learnt_table; [|apply Ar]|]. cbn [psess set].
      destruct (arrived_has _ _ _ _ _ Ar) as [->|Hs]; [by left|right]. apply elem_of_dom. rewrite Hd. by apply elem_of_dom.
  - destruct (flood_ok base junk ep x th dl Ar) as (x1 & th1 & act & -> & F1 & Ep1 & Es1 & Et1 & Ht1 & Hn). cbn [mbind option_bind].
    destruct (Z.eqb_spec act Meter.DPI_METER_ACTION_NONE) as [Ea|Ea]; cbn [negb].
    2:{ eexists _, _. split; [reflexivity|]. constructor; [done|done|rewrite Es1; apply same_keeps|]. right. rewrite Es1, Ep1. split_and!; [done|done|].
        destruct (arrived_has _ _ _ _ _ Ar) as [->|Hs]; [by left|by right]. }
    rewrite (Hn Ea) in *. pose proof (arrived_same_sessions _ _ _ _ _ _ Ar Es1 Ht1) as Ar1.
    destruct (icmp_session_ok base alloc ep x th1 dl Ar1) as (x2 & th2 & a & -> & [[-> Tr]|[Hp Fo]]); [unfold room in *; by rewrite Es1| |];
      cbn [mbind option_bind].
    + cbn [Z.eqb NULL]. eexists _, _. split; [reflexivity|]. by eapply tracked_shift.
    + rewrite (proj2 (Z.eqb_neq a NULL)) by (unfold NULL; lia). destruct (icmp_checks_ok _ _ _ _ _ _ _ Fo P Hc) as (x3 & th3 & -> & Tr).
      eexists _, _. split; [reflexivity|]. by eapply tracked_shift.
Qed.

Lemma proto_tracker_ok base alloc junk ep x th dl : arrived base ep x th dl -> room th ->
  exists x' th', dpi_pkt_proto_tracker tc e g_ep_map connect_report alloc junk ep x th = Some (x', th') /\ tracked base ep (pk x) th dl x' th'.
Proof.
  intros Ar Hr. unfold dpi_pkt_proto_tracker. destruct (class_of (ip_proto (pk x))) eqn:Ec.
  - unfold class_of in Ec. pose proof (po_proto _ _ (ar_pkt _ _ _ _ _ Ar)). destruct (Z.eqb_spec (ip_proto (pk x)) IPPROTO_TCP); [done|].
    by repeat case_match.
  - by apply udp_tracker_ok.
  - by apply icmp_tracker_ok.
  - by apply ip_tracker_ok.
Qed.

(** ** Reports and verdicts *)

Lemma start_log_ok a xff th : is_Some (sessions th !! a) ->
  exists th' r, dpi_session_start_log connect_report a xff th = Some (th', r) /\ touched a th th'.
Proof.
  intros [s Hs]. unfold dpi_session_start_log. rewrite Hs. cbn [mbind option_bind].
  assert (Hid : forall r : Z, exists th' r', Some (th, r) = Some (th', r') /\ touched a th th')
    by (intros r; exists th, r; split; [done|apply touched_refl; by eexists]).
  destruct (_ && _); [apply Hid|]. destruct (if xff then _ else _) as [l|]; [|apply Hid]. destruct (sflag _ s); [apply Hid|].
  unfold do_report. set (s1 := s <| last_report := _ |>). destruct (0 <? _); (eexists _, _; split; [reflexivity|]).
  - exists s, (mark_reported s1). split_and!; [done|eapply alike_trans; [apply alike_last_report|apply alike_reported]|by constructor].
  - exists s, s1. split_and!; [done|apply alike_last_report|by constructor].
Qed.
Lemma mid_log_ok a v xff th : is_Some (sessions th !! a) ->
  exists th', dpi_session_mid_log connect_report a v xff th = Some th' /\ touched a th th'.
Proof.
  intros [s Hs]. unfold dpi_session_mid_log. rewrite Hs. cbn [mbind option_bind].
  destruct (if xff then _ else _) as [l|]; [|exists th; split; [done|apply touched_refl; by eexists]]. destruct (sflag _ s).
  { eexists. split; [reflexivity|]. eapply touched_put; [done|apply alike_last_report]. }
  unfold do_report. destruct (0 <? _); (eexists; split; [reflexivity|]).
  - eexists s, _. split_and!; [done|eapply alike_trans; [apply alike_reported|apply alike_last_report]|by constructor].
  - eexists s, _. split_and!; [done|apply alike_last_report|by constructor].
Qed.

Lemma start_logs_ok a p th : is_Some (sessions th !! a) -> exists th', start_logs connect_report a p th = Some th' /\ touched a th th'.
Proof.
  intros Hs. unfold start_logs. destruct (start_log_ok a false th Hs) as (th1 & r & -> & T1). cbn [mbind option_bind].
  destruct (r =? 0); [|by exists th1]. destruct (touched_some _ _ _ T1) as (_ & s1 & _ & H1 & _).
  assert (T2 : touched a th (session_flag DPI_SESS_FLAG_START_LOGGED a th1)).
  { eapply touched_trans; [done|]. apply touched_alter; [|by eexists]. intros s _. by apply alike_set_sflag. }
  destruct (pflag _ p); [|by eexists]. destruct (touched_some _ _ _ T2) as (_ & s2 & _ & H2 & _).
  destruct (start_log_ok a true (session_flag DPI_SESS_FLAG_START_LOGGED a th1)) as (th3 & r3 & -> & T3); [by eexists|]. cbn [mbind option_bind].
  exists th3. split; [done|by eapply touched_trans].
Qed.
Lemma mid_logs_ok a p th : is_Some (sessions th !! a) -> exists th', mid_logs connect_report a p th = Some th' /\ touched a th th'.
Proof.
  intros Hs. unfold mid_logs. destruct (pflag DPI_PKT_FLAG_LOG_XFF p); [|by apply mid_log_ok].
  assert (H1 : exists th1, (if pflag DPI_PKT_FLAG_LOG_MID p then dpi_session_mid_log connect_report a (Z.b2z (pflag DPI_PKT_FLAG_LOG_VIOLATE p)) false th else Some th)
    = Some th1 /\ touched a th th1) by (destruct (pflag DPI_PKT_FLAG_LOG_MID p); [by apply mid_log_ok|exists th; split; [done|by apply touched_refl]]).
  destruct H1 as (th1 & -> & T1). cbn [mbind option_bind]. destruct (touched_some _ _ _ T1) as (_ & s1 & _ & H1 & _).
  destruct (mid_log_ok a (Z.b2z (pflag DPI_PKT_FLAG_LOG_XFF_VIO p)) true th1) as (th2 & -> & T2); [by eexists|].
  exists th2. split; [done|by eapply touched_trans].
Qed.

(** The packet has no session, or a session that may have changed *)
Definition kept_session a th th' : Prop := (a = NULL /\ th' = th) \/ touched a th th'.
Definition has_session a th : Prop := a = NULL \/ is_Some (sessions th !! a).
Lemma kept_has a th th' : kept_session a th th' -> has_session a th'.
Proof. intros [[-> ->]|Ht]; [by left|right]. destruct (touched_some _ _ _ Ht) as (_ & s & _ & Hs & _). by eexists. Qed.
Lemma kept_session_trans a t1 t2 t3 : kept_session a t1 t2 -> kept_session a t2 t3 -> kept_session a t1 t3.
Proof. intros [[-> ->]|H1] [[E ->]|H2]; [by left|right; done|right; done|right; by eapply touched_trans]. Qed.
Lemma kept_null th a : has_session a th -> kept_session a th th.
Proof. intros [->|H]; [by left|right; by apply touched_refl]. Qed.

Lemma pkt_log_ok ep x th : has_session (psess x) th -> exists th', dpi_pkt_log connect_report ep x th = Some th' /\ kept_session (psess x) th th'.
Proof.
  intros H. unfold dpi_pkt_log. destruct (Z.eqb_spec (psess x) NULL) as [E|Hn]; [exists th; split; [done|by apply kept_null]|].
  destruct H as [?|Hs]; [done|]. pose proof Hs as [s Es]. rewrite Es. cbn [mbind option_bind].
  assert (Hid : exists th', Some th = Some th' /\ kept_session (psess x) th th') by (exists th; split; [done|right; by apply touched_refl]).
  destruct (negb _); [done|]. destruct (negb _).
  - destruct (_ || _); [done|]. destruct (start_logs_ok (psess x) (pk x) th Hs) as (th' & -> & Ht). exists th'. split; [done|by right].
  - destruct (mid_due _ _ _); [|done]. destruct (mid_logs_ok (psess x) (pk x) th Hs) as (th' & -> & Ht). exists th'. split; [done|by right].
Qed.

Lemma verdict_ok x th : has_session (psess x) th ->
  exists x' th', merge_verdict x th = Some (x', th') /\ kept_session (psess x) th th' /\ psess x' = psess x.
Proof.
  intros H. unfold merge_verdict. destruct (Z.eqb_spec (psess x) NULL) as [E|Hn]; [exists x, th; split_and!; [done|by apply kept_null|done]|].
  destruct H as [?|[s Hs]]; [done|]. rewrite Hs. cbn [mbind option_bind].
  destruct (_ <? _); (eexists _, _; split_and!; [reflexivity| |done]); right.
  - eapply touched_put; [done|by constructor].
  - eapply touched_put; [done|apply alike_refl].
Qed.

Lemma post_cache_ok base x th dl : table base th dl -> is_Some (sessions th !! psess x) ->
  exists th', dpi_post_cache_packet x th = Some th' /\ touched (psess x) th th'.
Proof.
  intros (mc & I & _) [s Hs]. destruct (si_ok _ _ _ _ I _ _ Hs) as [_ _ [R1 R2]]. unfold dpi_post_cache_packet. rewrite Hs. cbn [mbind option_bind].
  assert (C : forall c : Asm.asm T, ot_rep (Asm.tree c) [] -> forall m q, Asm.asm_flush m c q = Some (c, [])).
  { intros c R m q. unfold Asm.asm_flush, Asm.asm_count. by rewrite (ot_count_rep _ _ R). }
  unfold client_cache, server_cache in *. destruct (side x); cbn [upd_twing tcp set Tcp.client Tcp.server Tcp.asm_cache];
    (rewrite C by done); cbn [mbind option_bind foldl]; (eexists; split; [reflexivity|]); (eexists s, _; split_and!; [done| |by constructor]); by constructor.
Qed.

Lemma session_action_ok ep x th : has_session (psess x) th -> kept_session (psess x) th (session_action ep x th).2.
Proof.
  intros H. unfold session_action.
  assert (Hon : forall (b : bool) v, kept_session (psess x) th (if b && negb (psess x =? NULL) then set_sess_action v (psess x) th else th)).
  { intros b v. destruct (Z.eqb_spec (psess x) NULL) as [E|Hn]; [rewrite andb_false_r; by apply kept_null|].
    destruct b; cbn [andb negb]; [|by apply kept_null]. right. destruct H as [?|Hs]; [done|]. by apply touched_alter; [by constructor|]. }
  repeat (match goal with |- context [if ?b then (_, _) else _] => destruct b end); cbn [snd]; first [apply Hon|by apply kept_null].
Qed.

(** ** A packet *)

(** Parsers, policy and patterns leave the addresses, direction, meter and caches of a session alone. *)
Definition inspect_ok (inspect : pctx -> option (dpi_session T) -> packet * option (dpi_session T)) : Prop :=
  (forall x s s', (inspect x (Some s)).2 = Some s' -> alike s s') /\ (forall x, (inspect x None).2 = None).

(** The table after a packet: a session was seen at the tick, or the sessions are those of before. *)
Definition after base ep p th dl th' : Prop :=
  (exists a, seen base ep p th dl a th') \/ (dom (sessions th') = dom (sessions th) /\ table base th' dl).

Lemma kept_tick a th th' : kept_session a th th' -> tick th' = tick th.
Proof. intros [[_ ->]|Ht]; [done|by apply (touched_tick a)]. Qed.
Lemma kept_keeps ep a th th' : kept_session a th th' -> keeps ep (sessions th) (sessions th').
Proof. intros [[_ ->]|Ht]; [apply same_keeps|by eapply touched_keeps]. Qed.
Lemma seen_kept base ep p th dl a th' th'' : seen base ep p th dl a th' -> kept_session a th' th'' -> seen base ep p th dl a th''.
Proof. intros S [[-> ->]|Ht]; [done|by eapply seen_touched]. Qed.

Lemma tracked_has base ep p th dl x th' : tracked base ep p th dl x th' -> has_session (psess x) th'.
Proof. intros [_ _ _ [(s & Hs & _)|(_ & _ & H)]]; [right; by eexists|done]. Qed.
Lemma tracked_table base ep p th dl x th' : tracked base ep p th dl x th' -> exists dl', table base th' dl'.
Proof. intros [_ _ _ [(s & _ & _ & _ & _ & Ht)|(_ & Ht & _)]]; by eexists. Qed.
Lemma tracked_after base ep p th dl x th' th'' : tracked base ep p th dl x th' -> kept_session (psess x) th' th'' -> after base ep p th dl th''.
Proof.
  intros [_ _ _ [S|(Hd & Ht & _)]] K; [left; eexists; by eapply seen_kept|right].
  destruct K as [[_ ->]|Hto]; [done|]. split; [by rewrite (touched_dom _ _ _ Hto)|by eapply table_touched].
Qed.

Lemma kept_table base th th' dl a : table base th dl -> kept_session a th th' -> table base th' dl.
Proof. intros Ht [[_ ->]|K]; [done|by eapply table_touched]. Qed.

Lemma touched_into a ep p q th0 th th' dl base : (th = th0 \/ touched a th0 th) -> after base ep q th dl th' -> (forall b, seen base ep q th dl b th' -> seen base ep p th0 dl b th') ->
  after base ep p th0 dl th'.
Proof.
  intros Hw [[b S]|[Hd Ht]] Hs; [left; exists b; by apply Hs|right]. split; [|done]. rewrite Hd. destruct Hw as [->|Hto]; [done|by eapply touched_dom].
Qed.

Lemma inspect_ethernet_ok base inspect alloc junk ep p th dl : inspect_ok inspect -> table base th dl -> pkt_ok ep p -> room th ->
  exists act th', dpi_inspect_ethernet tc e g_ep_map connect_report inspect alloc junk ep p th = Some (act, th') /\ after base ep p th dl th' /\ tick th' = tick th /\
    keeps ep (sessions th) (sessions th').
Proof.
  intros [Hi1 Hi2] Ht P Hr. unfold dpi_inspect_ethernet.
  destruct (find_session_spec base ep p th dl Ht P) as (x & th0 & -> & Ar & F0 & Hw). cbn [mbind option_bind].
  assert (Hd0 : dom (sessions th0) = dom (sessions th) /\ tick th0 = tick th /\ keeps ep (sessions th) (sessions th0)).
  { destruct Hw as [->|Hto]; [done|]. split_and!; [by eapply touched_dom|by apply (touched_tick (psess x))|by eapply touched_keeps]. }
  destruct Hd0 as (Hd0 & Et0 & L0).
  assert (Hr0 : room th0) by (unfold room in *; by rewrite <- size_dom, Hd0, size_dom).
  destruct (proto_tracker_ok base alloc junk ep x th0 dl Ar Hr0) as (x1 & th1 & -> & Tr). cbn [mbind option_bind].
  destruct (verdict_ok x1 th1 (tracked_has _ _ _ _ _ _ _ Tr)) as (x2 & th2 & -> & K2 & Ep2). cbn [mbind option_bind].
  destruct (inspect x2 (sessions th2 !! psess x2)) as [p3 o] eqn:Ei.
  set (x3 := x2 <| pk := p3 |>). assert (Ep3 : psess x3 = psess x1) by done.
  set (th3 := match o with Some s => put_session (psess x3) s th2 | None => th2 end).
  assert (K3 : kept_session (psess x1) th2 th3).
  { pose proof (kept_has _ _ _ K2) as Hs2. unfold th3. destruct o as [s3|]; [|by apply kept_null]. rewrite Ep3.
    destruct (sessions th2 !! psess x2) as [s2|] eqn:E2.
    - right. eapply touched_put; [by rewrite <- Ep2|]. apply (Hi1 x2). by rewrite Ei.
    - pose proof (Hi2 x2) as Hc. by rewrite Ei in Hc. }
  pose proof (kept_session_trans _ _ _ _ K2 K3) as K13. destruct (pkt_log_ok ep x3 th3) as (th4 & -> & K4); [rewrite Ep3; by eapply kept_has|]. cbn [mbind option_bind].
  rewrite Ep3 in K4. pose proof (kept_session_trans _ _ _ _ K13 K4) as K14.
  assert (H5 : exists th5, (if negb (Packet.dpi_is_action_final (ep_tap ep) (action p3)) && negb (psess x3 =? NULL) then dpi_post_cache_packet x3 th4 else Some th4) = Some th5
    /\ kept_session (psess x1) th4 th5).
  { destruct (_ && negb _) eqn:Ec; [|exists th4; split; [done|apply kept_null; by eapply kept_has]]. apply andb_true_iff in Ec as [_ Hn%negb_true_iff%Z.eqb_neq].
    destruct (tracked_table _ _ _ _ _ _ _ Tr) as [dl1 T1]. destruct (kept_has _ _ _ K14) as [?|Hs]; [congruence|].
    destruct (post_cache_ok base x3 th4 dl1) as (th5 & -> & T5); [by eapply kept_table|by rewrite Ep3|]. exists th5. split; [done|right; by rewrite <- Ep3]. }
  destruct H5 as (th5 & -> & K5). cbn [mbind option_bind]. pose proof (kept_session_trans _ _ _ _ K14 K5) as K15.
  pose proof (session_action_ok ep x3 th5) as K6. rewrite Ep3 in K6. specialize (K6 (kept_has _ _ _ K15)). pose proof (kept_session_trans _ _ _ _ K15 K6) as K16.
  destruct (session_action ep x3 th5) as [act th6]. cbn [snd] in *. exists act, th6. split_and!; [done| | |].
  - eapply touched_into; [exact Hw|by eapply tracked_after|]. intros b (s & H1 & H2 & H3 & H4 & H5). exists s. rewrite <- Et0, <- Hd0. split_and!; try done. by apply F0.
  - rewrite (kept_tick _ _ _ K16), (tr_tick _ _ _ _ _ _ _ Tr). done.
  - eapply keeps_keeps; [exact L0|]. eapply keeps_keeps; [apply (tr_keeps _ _ _ _ _ _ _ Tr)|by eapply kept_keeps].
Qed.

(** ** Timeouts *)

#[local] Instance sworld : TimerWheel.TimerWorld (sthread T) Z Tcp.sess_cb := session_world T g_ep_map connect_report.

Record rolling th0 (dl0 : gmap Z Z) (now : Z) th dl : Prop := {
  ro_inv : exists mc, sinv th dl mc;
  ro_tick : tick th = tick th0;
  ro_sub n D : dl !! n = Some D -> dl0 !! n = Some D;
  ro_keep n D : dl0 !! n = Some D -> now <= D -> dl !! n = Some D;
  ro_sess a : sessions th !! a = if bool_decide (is_Some (dl0 !! Tcp.ts_entry a) /\ dl !! Tcp.ts_entry a = None) then None else sessions th0 !! a
}.

Lemma timeout_releases th dl mc n D : sinv th dl mc -> dl !! n = Some D ->
  exists a th' mc', n = Tcp.ts_entry a /\ TimerWheel.callback (TimerWheel.entry (th_timer th) n) = Some Tcp.dpi_session_timeout /\
    run_session_cb g_ep_map connect_report Tcp.dpi_session_timeout n (th <| th_timer ::= fun t => TimerWheel.timer_wheel_entry_remove t n |>) = th' /\
    sinv th' (delete n dl) mc' /\ sessions th' = delete a (sessions th) /\ tick th' = tick th /\
    th_timer th' = TimerWheel.timer_wheel_entry_remove (th_timer th) n.
Proof.
  intros I Hn. destruct (proj1 (si_dl _ _ _ _ I n)) as (a & -> & [s Hs]); [by eexists|].
  destruct (release_spec tc g_ep_map connect_report th dl mc a s I Hs) as (th' & mc' & E & I' & Es & Ew & Et). exists a, th', mc'.
  destruct (si_timer _ _ _ _ I a s Hs) as (Hcb & _). split_and!; [done|exact Hcb| |done|done|done|by rewrite Ew].
  unfold run_session_cb. replace (Tcp.ts_entry a / 2) with a by (unfold Tcp.ts_entry; rewrite Z.mul_comm, Z.div_mul; lia).
  fold (unhook a th). by rewrite E.
Qed.

Lemma session_callbacks_ok th0 dl0 base now : TimerWheel.callbacks_ok (rolling th0 dl0 now) base now.
Proof.
  intros th dl z n D fn [(mc & I) Et Hsub Hkeep Hs] Hz V Hn HD Hfn w1. cbn [TimerWheel.wheel sworld session_world] in V, Hfn.
  destruct (timeout_releases th dl mc n D I Hn) as (a & th' & mc' & -> & Hcb & Hrun & I' & Es & Et' & Ew).
  rewrite Hfn in Hcb. injection Hcb as ->.
  assert (E1 : w1 = th') by exact Hrun. rewrite E1. clear E1 w1 Hrun. exists (delete (Tcp.ts_entry a) dl). split_and!.
  - constructor; [by exists mc'|congruence| | |].
    + intros m D' [_ ?]%lookup_delete_Some. by apply Hsub.
    + intros m D' Hm Hle. rewrite lookup_delete_ne; [by apply Hkeep|]. intros <-. apply Hsub in Hn. rewrite Hm in Hn. injection Hn as ->. lia.
    + intros b. rewrite Es. destruct (decide (a = b)) as [->|Hne].
      * rewrite lookup_delete_eq, bool_decide_true; [done|]. split; [exists D; by apply Hsub|apply lookup_delete_eq].
      * rewrite (lookup_delete_ne (sessions th)) by done. rewrite Hs.
        assert (En : delete (Tcp.ts_entry a) dl !! Tcp.ts_entry b = dl !! Tcp.ts_entry b) by (rewrite lookup_delete_ne; [done|intros ?%ts_entry_inj; congruence]).
        by rewrite En.
  - cbn [TimerWheel.wheel sworld session_world]. rewrite Ew. by eapply TimerWheel.remove_inv.
  - intros m D' [Hne Hx]%lookup_delete_Some. left. split; [by apply not_eq_sym|done].
Qed.

(** dpi_timeout rolls the wheel to the tick of the thread. *)
Lemma session_roll_ok base th dl (fuel : nat) : table base th dl -> (size (TimerWheel.overdue (tick th) dl) <= fuel)%nat ->
  exists th' cnt dl', TimerWheel.timer_wheel_roll fuel (tick th) th = Some (th', cnt) /\ table (tick th) th' dl' /\ tick th' = tick th /\
    forall a, sessions th' !! a = match dl !! Tcp.ts_entry a with Some D => if D <? tick th then None else sessions th !! a | None => None end.
Proof.
  intros (mc & I & [V Vc] & (Hb & H32 & Hr)) Hf.
  destruct (TimerWheel.timer_wheel_roll_spec (rolling th dl (tick th)) base (tick th) (session_callbacks_ok th dl base (tick th))
    ltac:(intros ? ? ? [[? []] ? ? ? ?]; constructor; try done; eexists; by constructor) fuel th dl)
    as (th' & cnt & dl' & E & [(mc' & I') Et Hsub Hkeep Hs] & Hc & V'); try done; try (unfold TimerWheel.MAX_TIMER_SLOTS in *; lia).
  { constructor; try done; [by exists mc|]. intros a. rewrite bool_decide_false; [done|]. intros [[? ?] ?]. congruence. }
  cbn [TimerWheel.wheel sworld session_world] in Hc, V'.
  exists th', cnt, dl'. split_and!; [done| |done|].
  - exists mc'. split_and!; [done|by split|]. unfold tick_ok. rewrite Et. unfold TimerWheel.MAX_TIMER_SLOTS in *. lia.
  - intros a. rewrite Hs. destruct (dl !! Tcp.ts_entry a) as [D|] eqn:Ex.
    + destruct (Z.ltb_spec D (tick th)).
      * rewrite bool_decide_true; [done|]. split; [by eexists|]. destruct (dl' !! Tcp.ts_entry a) as [D'|] eqn:Ex'; [|done].
        pose proof (TimerWheel.inv_entry _ _ _ V' _ _ Ex') as [? _]. apply Hsub in Ex'. rewrite Ex in Ex'. injection Ex' as <-. lia.
      * rewrite bool_decide_false; [done|]. intros [_ Hx]. rewrite (Hkeep _ D Ex) in Hx by lia. done.
    + rewrite bool_decide_false by (by intros [[? ?] ?]). destruct (sessions th !! a) eqn:Ea; [|done].
      destruct (proj2 (si_dl _ _ _ _ I (Tcp.ts_entry a))); [exists a; split; [done|by eexists]|]. congruence.
Qed.

(** ** Requests of the control thread *)

(** The sessions of [P] are gone, the others are as they were. *)
Definition purged_by (P : dpi_session T -> bool) th th' : Prop :=
  forall a, sessions th' !! a = s ← sessions th !! a; if P s then None else Some s.
Lemma purged_by_trans P Q R th1 th2 th3 : purged_by P th1 th2 -> purged_by Q th2 th3 -> (forall s, R s = P s || Q s) -> purged_by R th1 th3.
Proof.
  intros H1 H2 HR a. rewrite H2, H1. destruct (sessions th1 !! a) as [s|]; [|done]. cbn [mbind option_bind]. rewrite HR.
  destruct (P s); cbn [mbind option_bind orb]; [done|by destruct (Q s)].
Qed.
Lemma purged_none th P : (forall a s, sessions th !! a = Some s -> P s = false) -> purged_by P th th.
Proof. intros H a. destruct (sessions th !! a) as [s|] eqn:E; [|done]. cbn [mbind option_bind]. by rewrite (H a s E). Qed.

(** Deleting what [P] holds of, among the sessions [l] *)
Definition purges base (l : list Z) P th th' : Prop := (exists dl', table base th' dl') /\ tick th' = tick th /\
  forall a, sessions th' !! a = s ← sessions th !! a; if bool_decide (a ∈ l) && P s then None else Some s.

Lemma delete_table base th dl a r : table base th dl -> is_Some (sessions th !! a) ->
  exists th', dpi_session_delete g_ep_map connect_report a r th = Some th' /\ table base th' (delete (Tcp.ts_entry a) dl) /\
    sessions th' = delete a (sessions th) /\ tick th' = tick th.
Proof.
  intros (mc & I & V & K) [s Hs]. destruct (delete_spec tc g_ep_map connect_report base th dl mc a s r I V Hs) as (th' & mc' & E & I' & V' & Es & Et).
  exists th'. split_and!; [done| |done|done]. exists mc'. split_and!; [done|done|]. unfold tick_ok in *. by rewrite Et.
Qed.

Section purge.
Context (base : Z) (P : dpi_session T -> bool) (f : list Z -> sthread T -> option (sthread T)).
Context (f_nil : forall th, f [] th = Some th).
Context (f_cons : forall a l th, f (a :: l) th = s ← sessions th !! a;
  if P s then th ← dpi_session_delete g_ep_map connect_report a DPI_SESS_TERM_NORMAL th; f l th else f l th).

Lemma purge_list l : forall th dl, table base th dl -> NoDup l -> (forall a, a ∈ l -> is_Some (sessions th !! a)) ->
  exists th', f l th = Some th' /\ purges base l P th th'.
Proof.
  induction l as [|a l IH]; intros th dl Ht Hd Hl.
  { exists th. split; [done|]. split_and!; [by exists dl|done|]. intros b. rewrite bool_decide_false by (apply not_elem_of_nil). by destruct (sessions th !! b). }
  apply NoDup_cons in Hd as [Ha Hd]. destruct (Hl a) as [s Hs]; [apply list_elem_of_here|]. rewrite f_cons, Hs. cbn [mbind option_bind].
  destruct (P s) eqn:EP.
  - destruct (delete_table base th dl a DPI_SESS_TERM_NORMAL Ht) as (th1 & -> & T1 & Es & Et1); [by eexists|]. cbn [mbind option_bind].
    destruct (IH th1 _ T1 Hd) as (th' & -> & Tb & Et & Hs'). { intros b Hb. rewrite Es, lookup_delete_ne; [by apply Hl, list_elem_of_further|]. by intros ->. }
    exists th'. split; [done|]. split_and!; [done|congruence|]. intros b. rewrite Hs', Es. destruct (decide (a = b)) as [<-|Hne].
    + rewrite lookup_delete_eq, Hs, (bool_decide_true (a ∈ a :: l)) by apply list_elem_of_here. cbn [mbind option_bind andb]. by rewrite EP.
    + rewrite lookup_delete_ne by done. destruct (sessions th !! b); [|done]. cbn [mbind option_bind].
      by rewrite (bool_decide_ext (b ∈ a :: l) (b ∈ l)) by (rewrite elem_of_cons; naive_solver).
  - destruct (IH th _ Ht Hd) as (th' & -> & Tb & Et & Hs'). { intros b Hb. by apply Hl, list_elem_of_further. }
    exists th'. split; [done|]. split_and!; [done|congruence|]. intros b. rewrite Hs'. destruct (decide (a = b)) as [<-|Hne].
    + rewrite Hs. cbn [mbind option_bind]. by rewrite EP, !andb_false_r.
    + destruct (sessions th !! b); [|done]. cbn [mbind option_bind].
      by rewrite (bool_decide_ext (b ∈ a :: l) (b ∈ l)) by (rewrite elem_of_cons; naive_solver).
Qed.

Definition home (v4 mesh : bool) s : bool := Bool.eqb (v4_of s) v4 && Bool.eqb (mesh_of s) mesh.
Lemma purge_map v4 mesh th dl : table base th dl ->
  exists th', f (nodes_of (smap th v4 mesh)) th = Some th' /\ (exists dl', table base th' dl') /\ tick th' = tick th /\
    purged_by (fun s => home v4 mesh s && P s) th th'.
Proof.
  intros Ht. pose proof Ht as (mc & I & _).
  destruct (purge_list (nodes_of (smap th v4 mesh)) th dl Ht) as (th' & E & Tb & Et & Hs).
  - apply (RcuMap.wf_nodup _ _ _ (si_map _ _ _ _ I v4 mesh)).
  - intros a (s & Hs & _)%(si_on _ _ _ _ I). by eexists.
  - exists th'. split_and!; [done|done|done|]. intros a. rewrite Hs. destruct (sessions th !! a) as [s|] eqn:Ea; [|done]. cbn [mbind option_bind].
    assert (Eh : bool_decide (a ∈ nodes_of (smap th v4 mesh)) = home v4 mesh s); [|by rewrite Eh]. apply eq_true_iff_eq.
    unfold home. rewrite bool_decide_eq_true, (si_on _ _ _ _ I), andb_true_iff, !eqb_true_iff. naive_solver.
Qed.

(** All four maps *)
Lemma purge_all th dl : table base th dl ->
  exists th', (th ← f (nodes_of (smap th true false)) th; th ← f (nodes_of (smap th true true)) th;
               th ← f (nodes_of (smap th false false)) th; f (nodes_of (smap th false true)) th) = Some th' /\
    (exists dl', table base th' dl') /\ tick th' = tick th /\ purged_by P th th'.
Proof.
  intros T0. destruct (purge_map true false th dl T0) as (t1 & -> & [d1 T1] & E1 & P1). cbn [mbind option_bind].
  destruct (purge_map true true t1 d1 T1) as (t2 & -> & [d2 T2] & E2 & P2). cbn [mbind option_bind].
  destruct (purge_map false false t2 d2 T2) as (t3 & -> & [d3 T3] & E3 & P3). cbn [mbind option_bind].
  destruct (purge_map false true t3 d3 T3) as (t4 & -> & T4 & E4 & P4). exists t4. split_and!; [done|done|congruence|].
  eapply purged_by_trans; [exact P1|eapply purged_by_trans; [exact P2|eapply purged_by_trans; [exact P3|exact P4|done]|done]|].
  intros s. unfold home. by destruct (v4_of s), (mesh_of s), (P s).
Qed.
End purge.

Lemma delete_by_mac_ok base m th dl : table base th dl ->
  exists th', dpi_session_delete_by_mac g_ep_map connect_report m th = Some th' /\ (exists dl', table base th' dl') /\ tick th' = tick th /\
    purged_by (fun s => bool_decide (sess_ep_mac s = m)) th th'.
Proof. intros Ht. apply (purge_all base (fun s => bool_decide (sess_ep_mac s = m)) (del_map g_ep_map connect_report m) ltac:(done) ltac:(done) th dl Ht). Qed.

Lemma clear_all_ok base th dl : table base th dl ->
  exists th', dpi_clear_session g_ep_map connect_report 0 th = Some th' /\ (exists dl', table base th' dl') /\ tick th' = tick th /\ sessions th' = ∅.
Proof.
  intros Ht. destruct (purge_all base (fun _ => true) (clear_map g_ep_map connect_report 0) ltac:(done) ltac:(done) th dl Ht) as (th' & E & Tb & Et & Hp).
  exists th'. split_and!; [done|done|done|]. apply map_empty. intros a. rewrite Hp. by destruct (sessions th !! a).
Qed.
End run.
End SessionRun.
