(* ===== verification/SessionThm.v ===== *)
(** * dpi/dpi_session.c: the histories of a thread

    What a data path thread does with its sessions, in any order: packets, the clock, timeouts
    and the requests of the control thread (dpi_msg.c).  The properties hold after any such
    history; their proofs apply the lemmas of SessionLaw.v and SessionRun.v. *)

From S2P Require Import Prelude Helper Tree Asm RcuMap TimerWheel Wire Frag Packet Stats Meter Tcp Fqdn PolicyRules PolicyLookup Parser Reports Session SessionLaw SessionRun.
Import Helper.Bytes Helper.Hash Wire.Wire.

Module SessionThm.
Import Reports.Connect Session.Session SessionLaw.SessionLaw SessionRun.SessionRun.
#[local] Existing Instances Tcp.eta_session Tcp.eta_wing Tcp.eta_world PolicyRules.eta_desc PolicyLookup.eta_pworld PolicyLookup.eta_thread Meter.mkey_eq_dec Meter.eta_mthread TimerWheel.eta_entry TimerWheel.eta_wheel.

Section history.
Context {T : Type} `{!OrderedTree T}.
Context (tc : Z -> threat_conf) (e : PolicyRules.env) (g_ep_map : Z -> option Z) (connect_report : list report -> DPMsgSession -> Z -> Z -> Z).
Context (inspect : pctx -> option (dpi_session T) -> packet * option (dpi_session T)).
Implicit Types (s : dpi_session T) (th : sthread T) (p : packet) (a : Z) (x : pctx) (ep : pkt_ep) (k : skey).
Implicit Types (ss : gmap Z (dpi_session T)) (dl : gmap Z Z).

Abbreviation table := (SessionRun.table tc).
#[local] Instance hworld : TimerWheel.TimerWorld (sthread T) Z Tcp.sess_cb := session_world T g_ep_map connect_report.

(** ** Fewer sessions *)

Lemma count_mono (P : dpi_session T -> bool) ss' : forall ss, ss' ⊆ ss -> count P ss' <= count P ss.
Proof.
  induction ss' as [|a s ss' Ha IH] using map_ind; intros ss Hsub; [apply count_bounds|].
  assert (Hs : ss !! a = Some s) by (eapply lookup_weaken; [apply lookup_insert_eq|done]).
  rewrite (count_insert _ _ _ _ Ha), (count_delete P ss a s Hs).
  assert (count P ss' <= count P (delete a ss)); [apply IH|lia]. apply map_subseteq_spec. intros b t Hb. apply lookup_delete_Some. split; [congruence|].
  eapply lookup_weaken; [|done]. rewrite lookup_insert_ne; [done|congruence].
Qed.
Lemma subset_keeps ss ss' : ss' ⊆ ss -> (limited ss -> limited ss') /\ (one_way ss -> one_way ss').
Proof.
  intros H. split.
  - intros L mk. pose proof (count_mono (metered_as mk) ss' ss H). specialize (L mk). lia.
  - intros O a b s t Ha Hb. apply O; by eapply lookup_weaken.
Qed.
Lemma purged_subset (P : dpi_session T -> bool) th th' : purged_by P th th' -> sessions th' ⊆ sessions th.
Proof.
  intros H. apply map_subseteq_spec. intros a s. rewrite H. destruct (sessions th !! a) as [t|]; [|done]. cbn [mbind option_bind]. by destruct (P t).
Qed.

(** ** Deleting a session by its number *)

Record cleared base (P : dpi_session T -> bool) th th' : Prop := {
  cl_table : exists dl', table base th' dl';
  cl_tick : tick th' = tick th;
  cl_sub : sessions th' ⊆ sessions th;
  cl_gone a s : sessions th !! a = Some s -> sessions th' !! a = None -> P s = true;
  cl_one a s : sessions th' !! a = Some s -> P s = true -> exists b t, sessions th !! b = Some t /\ P t = true /\ sessions th' !! b = None
}.

Lemma clear_map_ok base sid l : sid <> 0 -> forall th dl, table base th dl -> (forall a, a ∈ l -> is_Some (sessions th !! a)) ->
  exists th', clear_map g_ep_map connect_report sid l th = Some th' /\
    ((th' = th /\ forall a s, a ∈ l -> sessions th !! a = Some s -> id s <> sid) \/
     exists a s dl', a ∈ l /\ sessions th !! a = Some s /\ id s = sid /\ table base th' dl' /\ sessions th' = delete a (sessions th) /\ tick th' = tick th).
Proof.
  intros Hne th dl Ht. induction l as [|a l IH]; intros Hl; cbn [clear_map].
  { exists th. split; [done|]. left. split; [done|]. by intros a s ?%elem_of_nil. }
  destruct (Hl a) as [s Hs]; [apply list_elem_of_here|]. rewrite Hs. cbn [mbind option_bind]. rewrite (proj2 (Z.eqb_neq sid 0)) by done.
  destruct (Z.eqb_spec sid (id s)) as [Hid|Hid].
  - destruct (delete_table tc g_ep_map connect_report base th dl a DPI_SESS_TERM_NORMAL Ht) as (th' & -> & T' & Es & Et); [by eexists|].
    exists th'. split; [done|]. right. exists a, s, (delete (Tcp.ts_entry a) dl). split_and!; try done. apply list_elem_of_here.
  - destruct IH as (th' & -> & Hc); [intros b Hb; by apply Hl, list_elem_of_further|]. exists th'. split; [done|].
    destruct Hc as [[-> Hno]|(b & t & dl' & Hb & ?)]; [left|right; exists b, t, dl'; split; [by apply list_elem_of_further|done]]. split; [done|].
    intros b t [->|Hb]%elem_of_cons Hbt; [congruence|by apply (Hno b t)].
Qed.
Definition numbered (sid : Z) s : bool := id s =? sid.
Lemma cleared_map base sid v4 mesh th dl : sid <> 0 -> table base th dl ->
  exists th', clear_map g_ep_map connect_report sid (nodes_of (smap th v4 mesh)) th = Some th' /\
    cleared base (fun s => home v4 mesh s && numbered sid s) th th'.
Proof.
  intros Hne Ht. pose proof Ht as (mc & I & _).
  assert (Hon : forall a s, sessions th !! a = Some s -> a ∈ nodes_of (smap th v4 mesh) <-> home v4 mesh s = true).
  { intros a s Hs. rewrite (si_on _ _ _ _ I). unfold home. rewrite andb_true_iff, !eqb_true_iff. naive_solver. }
  destruct (clear_map_ok base sid (nodes_of (smap th v4 mesh)) Hne th dl Ht) as (th' & E & Hc).
  { intros a (s & Hs & _)%(si_on _ _ _ _ I). by eexists. }
  exists th'. split; [done|]. unfold numbered. destruct Hc as [[-> Hno]|(a & s & dl' & Ha & Hs & Hid & T' & Es & Et)].
  - constructor; [by eexists|done|done|congruence|]. intros a s Hs [Hh Hi%Z.eqb_eq]%andb_true_iff. by destruct (Hno a s); [apply (Hon a s)| |].
  - assert (HP : home v4 mesh s && (id s =? sid) = true) by (rewrite andb_true_iff, Z.eqb_eq; split; [by apply (Hon a s)|done]).
    constructor; [by eexists|done|rewrite Es; apply delete_subseteq| |].
    + intros b t Hb. rewrite Es. rewrite lookup_delete_None. intros [->|?]; [|congruence]. by simplify_eq.
    + intros b t _ _. exists a, s. split_and!; [done|done|]. rewrite Es. apply lookup_delete_eq.
Qed.
Lemma cleared_trans base (P Q R : dpi_session T -> bool) t1 t2 t3 : cleared base P t1 t2 -> cleared base Q t2 t3 -> (forall s, R s = P s || Q s) -> cleared base R t1 t3.
Proof.
  intros [_ E1 S1 G1 O1] [D2 E2 S2 G2 O2] HR. constructor; [done|congruence|by etrans| |].
  - intros a s Hs Hn. rewrite HR. destruct (sessions t2 !! a) as [s'|] eqn:E.
    + pose proof (lookup_weaken _ _ _ _ E S1). assert (s' = s) as -> by congruence. by rewrite (G2 a s E Hn), orb_true_r.
    + by rewrite (G1 a s Hs E).
  - intros a s Hs HPQ. rewrite HR in HPQ. apply orb_true_iff in HPQ as [HP|HQ].
    + destruct (O1 a s) as (b & t & Hb & Hp & Hn); [by eapply lookup_weaken|done|]. exists b, t. rewrite HR, Hp. split_and!; [done|done|].
      destruct (sessions t3 !! b) eqn:E; [|done]. pose proof (lookup_weaken _ _ _ _ E S2). congruence.
    + destruct (O2 a s Hs HQ) as (b & t & Hb & Hq & Hn). exists b, t. rewrite HR, Hq, orb_true_r. split_and!; [by eapply lookup_weaken|done|done].
Qed.
Lemma clear_one_ok base sid th dl : sid <> 0 -> table base th dl ->
  exists th', dpi_clear_session g_ep_map connect_report sid th = Some th' /\ cleared base (numbered sid) th th'.
Proof.
  intros Hne T0. unfold dpi_clear_session. destruct (cleared_map base sid true false th dl Hne T0) as (t1 & -> & C1). cbn [mbind option_bind].
  destruct (cl_table _ _ _ _ C1) as [d1 T1]. destruct (cleared_map base sid true true t1 d1 Hne T1) as (t2 & -> & C2). cbn [mbind option_bind].
  destruct (cl_table _ _ _ _ C2) as [d2 T2]. destruct (cleared_map base sid false false t2 d2 Hne T2) as (t3 & -> & C3). cbn [mbind option_bind].
  destruct (cl_table _ _ _ _ C3) as [d3 T3]. destruct (cleared_map base sid false true t3 d3 Hne T3) as (t4 & -> & C4). exists t4. split; [done|].
  eapply cleared_trans; [exact C1|eapply cleared_trans; [exact C2|eapply cleared_trans; [exact C3|exact C4|done]|done]|].
  intros s. unfold home. by destruct (v4_of s), (mesh_of s), (numbered sid s).
Qed.

(** ** Listing the sessions *)

(** What is sent of a session; the fields of an IPv6 session stay in host order. *)
Definition listed th a s : DPMsgSession := let l := dpi_session_log a s th in if v4_of s then netify_session_log l else l.
Definition list_at th a : option DPMsgSession := s ← sessions th !! a; Some (listed th a s).
Definition sent_of (ms : list sessions_msg) : list DPMsgSession := concat (msg_entries <$> ms).
Definition packed (n : nat) (m : sessions_msg) : Prop := m = send_sessions (msg_entries m) /\ length (msg_entries m) = n.

Lemma list_map_ok th (net : bool) l : (forall a, a ∈ l -> exists s, sessions th !! a = Some s /\ v4_of s = net) ->
  forall buf sent, Z.of_nat (length buf) < SESSIONS_PER_MSG -> Forall (packed (Z.to_nat SESSIONS_PER_MSG)) sent ->
  exists buf' sent', list_map net l th buf sent = Some (buf', sent') /\ sent_of sent' ++ buf' = sent_of sent ++ buf ++ omap (list_at th) l /\
    Z.of_nat (length buf') < SESSIONS_PER_MSG /\ Forall (packed (Z.to_nat SESSIONS_PER_MSG)) sent'.
Proof.
  induction l as [|a l IH]; intros Hl buf sent Hb Hs; cbn [list_map].
  { exists buf, sent. split_and!; [done|by rewrite app_nil_r|done|done]. }
  destruct (Hl a) as (s & Ha & Hv); [apply list_elem_of_here|]. rewrite Ha. cbn [mbind option_bind].
  assert (Hl' : forall b, b ∈ l -> exists s, sessions th !! b = Some s /\ v4_of s = net) by (intros b ?; by apply Hl, list_elem_of_further).
  assert (El : omap (list_at th) (a :: l) = listed th a s :: omap (list_at th) l) by (cbn; unfold list_at at 1; by rewrite Ha).
  assert (Ei : (if net then netify_session_log (dpi_session_log a s th) else dpi_session_log a s th) = listed th a s) by (unfold listed; by rewrite Hv).
  rewrite El, Ei. set (buf1 := buf ++ [listed th a s]). destruct (Z.eqb_spec (Z.of_nat (length buf1)) SESSIONS_PER_MSG) as [En|En].
  - destruct (IH Hl' [] (sent ++ [send_sessions buf1])) as (buf' & sent' & E & Hc & ? & ?); [done| |].
    { apply Forall_app. split; [done|]. apply Forall_singleton. split; [done|]. cbn [send_sessions msg_entries]. lia. }
    exists buf', sent'. split_and!; [done| |done|done]. rewrite Hc. unfold sent_of. rewrite fmap_app, concat_app. cbn. unfold buf1.
    by rewrite app_nil_r, <- !app_assoc.
  - destruct (IH Hl' buf1 sent) as (buf' & sent' & E & Hc & ? & ?); [|done|].
    { unfold buf1 in *. rewrite length_app in *. cbn [length] in *. lia. }
    exists buf', sent'. split_and!; [done| |done|done]. rewrite Hc. unfold buf1. by rewrite <- !app_assoc.
Qed.

Definition all_nodes th : list Z := nodes_of (smap th true false) ++ nodes_of (smap th true true) ++ nodes_of (smap th false false) ++ nodes_of (smap th false true).
Lemma all_nodes_perm base th dl : table base th dl -> all_nodes th ≡ₚ (map_to_list (sessions th)).*1.
Proof.
  intros (mc & I & _). pose proof (si_on _ _ _ _ I) as Hon. assert (Hnd : forall v m, NoDup (nodes_of (smap th v m))) by (intros v m; apply (RcuMap.wf_nodup _ _ _ (si_map _ _ _ _ I v m))).
  assert (Hdis : forall v m v' m' a, a ∈ nodes_of (smap th v m) -> a ∈ nodes_of (smap th v' m') -> v = v' /\ m = m').
  { intros v m v' m' a (s & Hs & <- & <-)%Hon (t & Ht & <- & <-)%Hon. rewrite Hs in Ht. by injection Ht as <-. }
  apply NoDup_Permutation.
  - unfold all_nodes. rewrite !NoDup_app. repeat setoid_rewrite elem_of_app. split_and!; try apply Hnd; intros a Ha Hb;
      repeat match type of Hb with _ \/ _ => destruct Hb as [Hb|Hb] end; by destruct (Hdis _ _ _ _ a Ha Hb).
  - apply NoDup_fst_map_to_list.
  - intros a. rewrite list_elem_of_fmap. unfold all_nodes. rewrite !elem_of_app, !Hon. split.
    + intros H. assert (exists s, sessions th !! a = Some s) as [s Hs] by (destruct H as [(? & ? & _)|[(? & ? & _)|[(? & ? & _)|(? & ? & _)]]]; by eexists).
      exists (a, s). by rewrite elem_of_map_to_list.
    + intros ([b s] & -> & Hs%elem_of_map_to_list). cbn [fst].
      assert (Hw : forall v m, v4_of s = v -> mesh_of s = m -> exists s, sessions th !! b = Some s /\ v4_of s = v /\ mesh_of s = m) by (intros; by exists s).
      destruct (v4_of s), (mesh_of s); auto.
Qed.
Lemma omap_sessions th : omap (list_at th) (map_to_list (sessions th)).*1 = (fun y => listed th y.1 y.2) <$> map_to_list (sessions th).
Proof.
  assert (H : forall y, y ∈ map_to_list (sessions th) -> list_at th y.1 = Some (listed th y.1 y.2)).
  { intros [a s] Hs%elem_of_map_to_list. unfold list_at. cbn [fst snd]. by rewrite Hs. }
  induction (map_to_list (sessions th)) as [|y l IH]; [done|]. cbn. rewrite H by apply list_elem_of_here. f_equal. apply IH. intros z Hz. by apply H, list_elem_of_further.
Qed.

Lemma list_ok base th dl : table base th dl ->
  exists ms, dpi_list_session th = Some ms /\ sent_of ms ≡ₚ ((fun y => listed th y.1 y.2) <$> map_to_list (sessions th)) /\
    Forall (fun m => exists n, (0 < n <= Z.to_nat SESSIONS_PER_MSG)%nat /\ packed n m) ms.
Proof.
  intros Ht. pose proof Ht as (mc & I & _).
  assert (Hon : forall v m a, a ∈ nodes_of (smap th v m) -> exists s, sessions th !! a = Some s /\ v4_of s = v)
    by (intros v m a (s & Hs & Hv & _)%(si_on _ _ _ _ I); by exists s).
  unfold dpi_list_session.
  destruct (list_map_ok th true _ (Hon true false) [] []) as (b1 & s1 & -> & C1 & L1 & F1); [done|done|]. cbn [mbind option_bind].
  destruct (list_map_ok th true _ (Hon true true) b1 s1 L1 F1) as (b2 & s2 & -> & C2 & L2 & F2). cbn [mbind option_bind].
  destruct (list_map_ok th false _ (Hon false false) b2 s2 L2 F2) as (b3 & s3 & -> & C3 & L3 & F3). cbn [mbind option_bind].
  destruct (list_map_ok th false _ (Hon false true) b3 s3 L3 F3) as (b4 & s4 & -> & C4 & L4 & F4). cbn [mbind option_bind].
  rewrite app_assoc in C4. rewrite C3, app_assoc, C2, app_assoc, C1 in C4.
  eexists. split; [reflexivity|]. split.
  - rewrite <- omap_sessions, <- (all_nodes_perm base th dl Ht). unfold all_nodes. rewrite !omap_app.
    assert (E : sent_of match b4 with [] => s4 | _ => s4 ++ [send_sessions b4] end = sent_of s4 ++ b4).
    { destruct b4; [by rewrite app_nil_r|]. unfold sent_of. rewrite fmap_app, concat_app. cbn. by rewrite app_nil_r. }
    rewrite E, C4. cbn. by rewrite <- !app_assoc.
  - assert (Hf : Forall (fun m => exists n, (0 < n <= Z.to_nat SESSIONS_PER_MSG)%nat /\ packed n m) s4).
    { eapply Forall_impl; [exact F4|]. intros m Hm. exists (Z.to_nat SESSIONS_PER_MSG). split; [|done]. assert (0 < SESSIONS_PER_MSG) by done. lia. }
    destruct b4 as [|y b4]; [done|]. apply Forall_app. split; [done|]. apply Forall_singleton. exists (length (y :: b4)). split; [cbn [length] in *; lia|done].
Qed.

(** ** What a thread does *)

Inductive event :=
  | EvPacket ep p (alloc junk : bool)   (** a packet that is not of TCP; calloc succeeds; see Session.v *)
  | EvTick (t : Z)                      (** the clock *)
  | EvTimeout                           (** dpi_timeout: sessions *)
  | EvMeters (fuel : nat)               (** dpi_timeout: meters *)
  | EvClear (sid : Z)                   (** dpi_clear_session *)
  | EvDelete (m : list Z)               (** dpi_session_delete_by_mac *)
  | EvList.                             (** dpi_list_session *)

Definition run (ev : event) th : option (sthread T) :=
  match ev with
  | EvPacket ep p alloc junk => '(_, th) ← dpi_inspect_ethernet tc e g_ep_map connect_report inspect alloc junk ep p th; Some th
  | EvTick t => Some (th <| tick := t |> <| meters ::= fun m => m <| Meter.tick := t |> |> <| pol ::= fun u => u <| PolicyLookup.tick := t |> |>)
  | EvTimeout => '(th, _) ← TimerWheel.timer_wheel_roll (size (sessions th)) (tick th) th; Some th
  | EvMeters fuel => m ← Meter.meter_timeout fuel (meters th); Some (th <| meters := m |>)
  | EvClear sid => dpi_clear_session g_ep_map connect_report sid th
  | EvDelete m => dpi_session_delete_by_mac g_ep_map connect_report m th
  | EvList => _ ← dpi_list_session th; Some th
  end.

(** A parsed packet of an endpoint of [E], with room for two more sessions; the clock goes
    forward, by less than the wheels hold, and is not about to wrap; a meter that times out
    has no sessions (Meter.v). *)
Definition admissible (E : pkt_ep -> Prop) (ev : event) th : Prop :=
  match ev with
  | EvPacket ep p _ _ => E ep /\ pkt_ok ep p /\ room th
  | EvTick t => tick th <= t /\ t + 3600 < 2 ^ 32 /\ t + 60 < TimerWheel.current (th_timer th) + TimerWheel.MAX_TIMER_SLOTS /\
      t + 10 < TimerWheel.current (Meter.th_timer (meters th)) + TimerWheel.MAX_TIMER_SLOTS
  | EvMeters fuel => Meter.quiet (meters th) /\ is_Some (Meter.meter_timeout fuel (meters th))
  | _ => True
  end.

(** A thread without sessions *)
Record idle (now : Z) th : Prop := {
  id_now : 0 <= now /\ now + 3600 < 2 ^ 32 /\ tick th = now;
  id_sessions : sessions th = ∅;
  id_timer : th_timer th = TimerWheel.Wheel ∅ 0 now ∅;
  id_meters : meters th = Meter.MThread ∅ (RcuMap.rcu_map_init 0) (TimerWheel.Wheel ∅ 0 now ∅) now 0 0 [] false;
  id_counter : cur_sess (counter th) = 0 /\ forall c, cur_n_sess (counter th) c = 0;
  id_fault : fault th = false
}.

Inductive shist (E : pkt_ep -> Prop) : sthread T -> Prop :=
  | sh_start now th : idle now th -> shist E (dpi_session_init th)
  | sh_step th ev th' : shist E th -> admissible E ev th -> run ev th = Some th' -> shist E th'.

(** ** The invariant of the histories *)

Record healthy (E : pkt_ep -> Prop) th dl : Prop := {
  he_table : table (TimerWheel.current (th_timer th)) th dl;
  he_one_way : one_way (sessions th);
  he_limit : (forall ep, E ep -> ep_tap ep = false) -> limited (sessions th)
}.

Lemma table_current base th dl : table base th dl -> TimerWheel.current (th_timer th) = base.
Proof. by intros (mc & _ & [_ ?] & _). Qed.
Lemma table_healthy E ep base th dl th' dl' : healthy E th dl -> table base th' dl' -> keeps ep (sessions th) (sessions th') -> E ep -> healthy E th' dl'.
Proof.
  intros [_ O L] Ht [K1 K2] He. constructor; [by rewrite (table_current _ _ _ Ht)|by apply K2|]. intros Hn. apply K1; [by apply Hn|by apply L].
Qed.
Lemma subset_healthy E base th dl th' dl' : healthy E th dl -> table base th' dl' -> sessions th' ⊆ sessions th -> healthy E th' dl'.
Proof.
  intros [_ O L] Ht Hs. destruct (subset_keeps _ _ Hs) as [K1 K2].
  constructor; [by rewrite (table_current _ _ _ Ht)|by apply K2|]. intros Hn. by apply K1, L.
Qed.

Lemma overdue_size base th dl : table base th dl -> (size (TimerWheel.overdue (tick th) dl) <= size (sessions th))%nat.
Proof.
  intros (mc & I & _). rewrite <- !size_dom. unfold size, set_size.
  cbn [compose]. etrans; [|apply Nat.eq_le_incl, (length_fmap Tcp.ts_entry (elements (dom (sessions th))))]. apply submseteq_length, NoDup_submseteq; [apply NoDup_elements|].
  intros n [D HD]%elem_of_elements%elem_of_dom. apply map_lookup_filter_Some in HD as [HD _].
  destruct (proj1 (si_dl _ _ _ _ I n)) as (a & -> & Ha); [by eexists|]. apply list_elem_of_fmap. exists a. split; [done|]. by apply elem_of_elements, elem_of_dom.
Qed.

Lemma idle_healthy E now th : idle now th -> healthy E (dpi_session_init th) ∅.
Proof.
  intros [(H0 & H32 & Ht) Hs Hw Hm [Hc Hn] Hf].
  assert (Hno : forall a, sessions (dpi_session_init th) !! a = None) by (intros a; cbn [dpi_session_init sessions set]; by rewrite Hs).
  constructor.
  - exists (fun _ => 0). cbn [dpi_session_init th_timer set tick]. rewrite Hw. cbn [TimerWheel.current]. split_and!.
    + constructor; cbn [dpi_session_init sessions smap th_timer counter meters tick fault set]; rewrite ?Hs, ?Hm, ?Hc, ?Hf, ?Ht.
      * done.
      * intros v4 mesh. constructor; simpl; [apply Forall_nil_2|constructor|by intros ? ? ?%elem_of_nil|apply Forall_nil_2|done].
      * intros v4 mesh a. cbn. split; [by intros ?%elem_of_nil|]. by intros (s & ? & _).
      * intros n. rewrite lookup_empty. split; [by intros []|]. by intros (a & _ & []).
      * done.
      * done.
      * intros c. by rewrite Hn.
      * by apply Meter.mh_start.
      * done.
      * done.
      * done.
    + split; [|done]. constructor; simpl; [lia|done| | |done].
      * intros k n. unfold TimerWheel.slot. simpl. rewrite lookup_empty. by intros ?%elem_of_nil.
      * intros k. unfold TimerWheel.slot. simpl. rewrite lookup_empty. constructor.
    + unfold tick_ok. cbn [dpi_session_init tick set]. unfold TimerWheel.MAX_TIMER_SLOTS. lia.
  - intros a b s t Ha. by rewrite Hno in Ha.
  - intros _ mk. cbn [dpi_session_init sessions set]. rewrite Hs. done.
Qed.

Lemma tick_healthy E t th dl : healthy E th dl -> admissible E (EvTick t) th ->
  exists th', run (EvTick t) th = Some th' /\ healthy E th' dl.
Proof.
  intros [(mc & I & V & K) O L] (H1 & H2 & H3 & H4). eexists. split; [reflexivity|]. constructor; [|done|done].
  exists mc. cbn [th_timer set]. split_and!; [|done|].
  - destruct I. constructor; try done. cbn [meters set]. apply Meter.mh_tick; [done|lia|lia|done].
  - unfold tick_ok in *. cbn [tick set]. lia.
Qed.
Lemma meters_healthy E fuel th dl : healthy E th dl -> admissible E (EvMeters fuel) th ->
  exists th', run (EvMeters fuel) th = Some th' /\ healthy E th' dl.
Proof.
  intros [(mc & I & V & K) O L] (Hq & m & Hm). unfold run. rewrite Hm. eexists. split; [reflexivity|]. constructor; [|done|done].
  exists mc. split_and!; [|done|done]. apply meters_sinv; [done| |].
  - eapply Meter.mh_timeout; [apply (si_meter _ _ _ _ I)|done|done].
  - destruct (Meter.mhist_ok tc _ _ (si_meter _ _ _ _ I)) as [M _]. destruct (Meter.meter_timeout_spec _ M Hq) as (n0 & H).
    destruct (H (fuel + n0)%nat ltac:(lia)) as (m2 & E2 & _ & Et & _).
    assert (m = m2) as -> by (by eapply Meter.meter_timeout_mono; [|exact Hm|exact E2]; lia). done.
Qed.

(** ** Deadlines *)

(** When the timer of a session fires, read off the wheel *)
Definition deadline th a : Z := TimerWheel.get_expire_at (ts_of th a) (TimerWheel.current (th_timer th)).

Lemma deadline_dl base th dl a D : table base th dl -> dl !! Tcp.ts_entry a = Some D -> deadline th a = D.
Proof.
  intros (mc & I & [V <-] & (H1 & H2 & H3)) HD. destruct (TimerWheel.inv_entry _ _ _ V _ _ HD) as (Hr & _).
  eapply TimerWheel.get_expire_at_spec; [done|done|..]; unfold TimerWheel.MAX_TIMER_SLOTS in *; lia.
Qed.
Lemma session_dl base th dl a : table base th dl -> is_Some (sessions th !! a) -> dl !! Tcp.ts_entry a = Some (deadline th a).
Proof.
  intros Ht Ha. pose proof Ht as (mc & I & _). destruct (proj2 (si_dl _ _ _ _ I (Tcp.ts_entry a))) as [D HD]; [by exists a|].
  by rewrite (deadline_dl _ _ _ _ _ Ht HD).
Qed.

(** What a packet does to the sessions and their deadlines: [a] is the session that was seen, or NULL. *)
Record heard ep p a th th' : Prop := {
  hd_tick : tick th' = tick th;
  hd_this : a = NULL \/ exists s, sessions th' !! a = Some s /\ of_packet ep p s /\ deadline th' a = tick th + session_tmo s;
  hd_other b : b <> a -> is_Some (sessions th' !! b) <-> is_Some (sessions th !! b);
  hd_deadline b : b <> a -> is_Some (sessions th' !! b) -> deadline th' b = deadline th b
}.
Lemma after_heard base ep p th dl th' : table base th dl -> after tc base ep p th dl th' -> tick th' = tick th -> exists a, heard ep p a th th'.
Proof.
  intros Ht [(a & s & Hs & Hp & Ho & Hd & Ht')|[Hd Ht']] Et.
  - assert (Hiff : forall b, b <> a -> is_Some (sessions th' !! b) <-> is_Some (sessions th !! b)) by (intros b Hb; rewrite <- !elem_of_dom, Hd; set_solver).
    exists a. constructor; [done| |done|].
    + right. exists s. split_and!; [done|done|]. eapply deadline_dl; [done|apply lookup_insert_eq].
    + intros b Hb Hs'. eapply deadline_dl; [done|]. rewrite lookup_insert_ne by (intros ?%ts_entry_inj; congruence).
      eapply session_dl; [done|by apply Hiff].
  - exists NULL. constructor; [done|by left| |].
    + intros b _. by rewrite <- !elem_of_dom, Hd.
    + intros b _ Hs'. eapply deadline_dl; [done|]. eapply session_dl; [done|]. by apply elem_of_dom; rewrite <- Hd; apply elem_of_dom.
Qed.

(** ** Every step returns, and the invariant holds again. *)

Context (Hinspect : inspect_ok inspect).

Lemma packet_healthy E ep p alloc junk th dl : healthy E th dl -> E ep -> pkt_ok ep p -> room th ->
  exists act th' a dl', dpi_inspect_ethernet tc e g_ep_map connect_report inspect alloc junk ep p th = Some (act, th') /\ healthy E th' dl' /\ heard ep p a th th'.
Proof.
  intros H He P R. pose proof (he_table _ _ _ H) as Ht.
  destruct (inspect_ethernet_ok tc e g_ep_map connect_report _ inspect alloc junk ep p th dl Hinspect Ht P R) as (act & th' & Er & Ha & Et & K).
  destruct (after_heard _ _ _ _ _ _ Ht Ha Et) as [a Hh]. exists act, th', a.
  destruct Ha as [(b & s & _ & _ & _ & _ & T')|[_ T']]; eexists; (split_and!; [done|by eapply table_healthy|done]).
Qed.

Lemma timeout_healthy E th dl : healthy E th dl ->
  exists th' dl', run EvTimeout th = Some th' /\ healthy E th' dl' /\ tick th' = tick th /\
    forall a, sessions th' !! a = s ← sessions th !! a; if deadline th a <? tick th then None else Some s.
Proof.
  intros H. pose proof (he_table _ _ _ H) as Ht. unfold run, hworld.
  destruct (session_roll_ok tc g_ep_map connect_report _ th dl _ Ht (overdue_size _ _ _ Ht)) as (th' & cnt & dl' & Er & T' & Et & Hs).
  unfold sworld in Er. rewrite Er.
  assert (Hs' : forall a, sessions th' !! a = s ← sessions th !! a; if deadline th a <? tick th then None else Some s).
  { intros a. rewrite Hs. destruct (sessions th !! a) as [s|] eqn:Ea; cbn [mbind option_bind].
    - by rewrite (session_dl _ _ _ a Ht ltac:(by eexists)).
    - by repeat case_match. }
  cbn [mbind option_bind]. exists th', dl'. split_and!; [done| |done|done]. eapply subset_healthy; [done|done|].
  apply map_subseteq_spec. intros a s. rewrite Hs'. destruct (sessions th !! a); [|done]. cbn [mbind option_bind]. by case_match.
Qed.

Lemma step_healthy E ev th dl : healthy E th dl -> admissible E ev th -> exists th' dl', run ev th = Some th' /\ healthy E th' dl'.
Proof.
  intros H A. pose proof (he_table _ _ _ H) as Ht. destruct ev as [ep p alloc junk|t| |fuel|sid|m|].
  - destruct A as (He & P & R). cbn [run]. destruct (packet_healthy E ep p alloc junk th dl H He P R) as (act & th' & a & dl' & -> & H' & _).
    cbn [mbind option_bind]. by exists th', dl'.
  - destruct (tick_healthy E t th dl H A) as (th' & ? & ?). by exists th', dl.
  - destruct (timeout_healthy E th dl H) as (th' & dl' & ? & ? & _). by exists th', dl'.
  - destruct (meters_healthy E fuel th dl H A) as (th' & ? & ?). by exists th', dl.
  - cbn [run]. destruct (decide (sid = 0)) as [->|Hn].
    + destruct (clear_all_ok tc g_ep_map connect_report _ th dl Ht) as (th' & -> & [dl' T'] & _ & Es). exists th', dl'. split; [done|].
      eapply subset_healthy; [done|done|]. rewrite Es. apply map_empty_subseteq.
    + destruct (clear_one_ok _ sid th dl Hn Ht) as (th' & -> & [[dl' T'] _ Hs _ _]). exists th', dl'. split; [done|by eapply subset_healthy].
  - cbn [run]. destruct (delete_by_mac_ok tc g_ep_map connect_report _ m th dl Ht) as (th' & -> & [dl' T'] & _ & Hp). exists th', dl'. split; [done|].
    eapply subset_healthy; [done|done|by eapply purged_subset].
  - cbn [run]. destruct (list_ok _ th dl Ht) as (ms & -> & _). cbn [mbind option_bind]. by exists th, dl.
Qed.

Lemma hist_healthy E th : shist E th -> exists dl, healthy E th dl.
Proof.
  induction 1 as [now th Hi|th ev th' _ [dl IH] A Er]; [exists ∅; by eapply idle_healthy|].
  destruct (step_healthy E ev th dl IH A) as (th2 & dl' & E2 & H). exists dl'. by simplify_eq.
Qed.

(** ** The properties *)

Lemma count_size ss : count (fun _ => true) ss = Z.of_nat (size ss).
Proof.
  induction ss as [|a s ss Ha IH] using map_ind; [done|]. rewrite (count_insert _ _ _ _ Ha), map_size_insert_None, IH by done. cbn [Z.b2z]. lia.
Qed.
Lemma keyed_unique th dl mc v4 mesh k a b s t : sinv tc th dl mc -> sessions th !! a = Some s -> sessions th !! b = Some t ->
  keyed v4 mesh k s -> keyed v4 mesh k t -> a = b.
Proof.
  intros I Ha Hb Ks Kt. eapply RcuMap.holds_unique; [apply (si_map _ _ _ _ I v4 mesh)|apply (holds_keyed tc _ _ _ _ _ k _ I); by exists s|].
  apply (holds_keyed tc _ _ _ _ _ k _ I). by exists t.
Qed.
Lemma lookup_plain emac p th th' p' a c : is_mesh emac = false -> dpi_session_lookup e emac p th = Some (th', p', a, c) -> th' = th.
Proof.
  intros Hm. unfold dpi_session_lookup, lookup_key. rewrite Hm. cbn [andb]. destruct (src_ip p); [|done]. destruct (dst_ip p); [|done].
  cbn [mbind option_bind]. destruct (negb _); by intros [= <- _ _ _].
Qed.

(** [q] answers [p]: addresses and ports are exchanged, and it goes the other way through the endpoint. *)
Record answers (p q : packet) : Prop := {
  an_ip : src_ip q = dst_ip p /\ dst_ip q = src_ip p;
  an_port : sport q = dport p /\ dport q = sport p;
  an_proto : eth_type q = eth_type p /\ ip_proto q = ip_proto p;
  an_in : pflag DPI_PKT_FLAG_INGRESS q = negb (pflag DPI_PKT_FLAG_INGRESS p);
  an_fake : pflag DPI_PKT_FLAG_FAKE_EP p = false /\ pflag DPI_PKT_FLAG_FAKE_EP q = false
}.
Lemma answer_keys p q sip dip : answers p q -> client_key q dip sip = server_key p sip dip /\ server_key q dip sip = client_key p sip dip.
Proof.
  intros [_ [H3 H4] [_ H6] H7 [H8 H9]]. unfold client_key, server_key, key_flags. rewrite H3, H4, H6, H7, H8, H9. by destruct (pflag _ p).
Qed.
(** The two directions have different keys. *)
Lemma keyed_apart v4 p sip dip s : pflag DPI_PKT_FLAG_FAKE_EP p = false -> keyed v4 false (client_key p sip dip) s -> ~ keyed v4 false (server_key p sip dip) s.
Proof.
  intros Hf (_ & _ & K1) (_ & _ & K2). rewrite K1 in K2. unfold canon, client_key, server_key, key_flags in K2. rewrite Hf in K2.
  cbn [k_flags] in K2. by destruct (pflag DPI_PKT_FLAG_INGRESS p).
Qed.

Lemma answer_found E th emac p q p' a c : shist E th -> is_mesh emac = false -> answers p q ->
  dpi_session_lookup e emac p th = Some (th, p', a, c) -> a <> NULL ->
  exists q', dpi_session_lookup e emac q th = Some (th, q', a, negb c).
Proof.
  intros [dl [(mc & I & _) O _]]%hist_healthy Hm An El Ha. pose proof (an_ip _ _ An) as [N1 N2].
  destruct (src_ip p) as [sip|] eqn:Es; [|unfold dpi_session_lookup in El; by rewrite Es in El].
  destruct (dst_ip p) as [dip|] eqn:Ed; [|unfold dpi_session_lookup in El; by rewrite Es, Ed in El].
  destruct (lookup_spec tc e th dl mc emac p sip dip I Es Ed) as (t1 & p1 & a1 & c1 & E1 & _ & H1). rewrite El in E1. injection E1 as <- <- <- <-.
  destruct H1 as [(-> & _)|(_ & _ & s & Hs & Hk)]; [done|].
  destruct (lookup_spec tc e th dl mc emac q dip sip I N1 N2) as (t2 & q' & b & d & E2 & _ & H2).
  pose proof (lookup_plain _ _ _ _ _ _ _ Hm E2) as ->. exists q'. rewrite E2.
  destruct (answer_keys p q sip dip An) as [K1 K2]. rewrite K1, K2 in H2. rewrite Hm in *.
  assert (Ev : v4_pkt q = v4_pkt p) by (unfold v4_pkt; by destruct (an_proto _ _ An) as [-> _]). rewrite Ev in H2. clear E2 El.
  destruct (an_fake _ _ An) as [Hf _]. pose proof (keyed_apart (v4_pkt p) p sip dip) as Hap.
  destruct c.
  - destruct H2 as [(-> & _ & _ & Hn)|(_ & _ & t & Ht & Hkt)]; [by destruct (Hn a s Hs) as [_ []]|]. destruct d; cbn [negb].
    + assert (a = b) as <-; [|simplify_eq; by destruct (Hap s Hf Hk)]. apply (O a b s t Hs Ht). destruct Hk as (V1 & M1 & C1), Hkt as (V2 & M2 & C2).
      split_and!; [done|done|congruence|]. rewrite V1, C2, mirror_packet. by apply mirror_canon.
    + destruct Hkt as [Hkt _]. by rewrite (keyed_unique _ _ _ _ _ _ _ _ _ _ I Hs Ht Hk Hkt).
  - destruct Hk as [Hk _]. destruct H2 as [(-> & _ & _ & Hn)|(_ & _ & t & Ht & Hkt)]; [by destruct (Hn a s Hs) as [[] _]|]. destruct d; cbn [negb].
    + by rewrite (keyed_unique _ _ _ _ _ _ _ _ _ _ I Hs Ht Hk Hkt).
    + destruct Hkt as [_ Hno]. by destruct (Hno a s Hs).
Qed.




(** C13: C: while no packet comes from an endpoint in tap mode, no peer has more than 1999 metered sessions open at an endpoint. *)
Theorem session_limit (E : pkt_ep -> Prop) th : shist E th -> (forall ep, E ep -> ep_tap ep = false) ->
  forall k : Meter.mkey, count (metered_as k) (sessions th) <= 1999.
Proof. intros [dl H]%hist_healthy Hn. by apply (he_limit _ _ _ H). Qed.

(** C14: C: a request to delete the sessions of an endpoint deletes exactly those whose endpoint it is, a request
    to clear all sessions leaves none, and a request to clear one by its number deletes only sessions of
    that number, and one if there is one. *)
Theorem session_requests_exact (E : pkt_ep -> Prop) th : shist E th ->
  (forall m, exists th', dpi_session_delete_by_mac g_ep_map connect_report m th = Some th' /\
     forall a, sessions th' !! a = s ← sessions th !! a; if bool_decide (sess_ep_mac s = m) then None else Some s) /\
  (exists th', dpi_clear_session g_ep_map connect_report 0 th = Some th' /\ sessions th' = ∅) /\
  (forall sid, sid <> 0 -> exists th', dpi_clear_session g_ep_map connect_report sid th = Some th' /\ sessions th' ⊆ sessions th /\
     (forall a s, sessions th !! a = Some s -> sessions th' !! a = None -> id s = sid) /\
     ((exists a s, sessions th !! a = Some s /\ id s = sid) -> exists a s, sessions th !! a = Some s /\ id s = sid /\ sessions th' !! a = None)).
Proof.
  intros [dl H]%hist_healthy. pose proof (he_table _ _ _ H) as Ht. split_and!.
  - intros m. destruct (delete_by_mac_ok tc g_ep_map connect_report _ m th dl Ht) as (th' & Er & _ & _ & Hp). by exists th'.
  - destruct (clear_all_ok tc g_ep_map connect_report _ th dl Ht) as (th' & Er & _ & _ & Hp). by exists th'.
  - intros sid Hn. destruct (clear_one_ok _ sid th dl Hn Ht) as (th' & Er & [_ _ Hs Hg Ho]). unfold numbered in *. exists th'. split_and!; [done|done| |].
    + intros a s Ha Hz. by apply Z.eqb_eq, (Hg a s).
    + intros (a & s & Ha & Hi). destruct (sessions th' !! a) as [t|] eqn:Ea; [|by exists a, s]. pose proof (lookup_weaken _ _ _ _ Ea Hs).
      destruct (Ho a t Ea) as (b & u & Hb & Hu%Z.eqb_eq & Hz); [apply Z.eqb_eq; congruence|]. by exists b, u.
Qed.

(** C15: C: a listing of the sessions sends each open session exactly once, in messages of at least 1 and at most 58
    sessions that fit the 8192 bytes of a message and state their length and number. *)
Theorem sessions_listed (E : pkt_ep -> Prop) th : shist E th ->
  exists ms, dpi_list_session th = Some ms /\ concat (msg_entries <$> ms) ≡ₚ ((fun y => listed th y.1 y.2) <$> map_to_list (sessions th)) /\
    Forall (fun m => 1 <= msg_sessions m <= 58 /\ msg_sessions m = Z.of_nat (length (msg_entries m)) /\
                     msg_length m = 8 + sizeof_DPMsgSession * msg_sessions m /\ msg_length m <= DP_MSG_SIZE) ms.
Proof.
  intros [dl H]%hist_healthy. destruct (list_ok _ th dl (he_table _ _ _ H)) as (ms & Er & Hp & Hf). exists ms. split_and!; [done|done|].
  eapply Forall_impl; [exact Hf|]. intros m (n & Hn & Em & El). change (Z.to_nat SESSIONS_PER_MSG) with 58%nat in Hn. rewrite Em. cbn [send_sessions msg_sessions msg_length msg_entries].
  rewrite El. unfold sizeof_DPMsgSession, DP_MSG_SIZE. rewrite !u16_id by (unfold is_u16; lia). lia.
Qed.
End history.

(** ** Samples

    A query from 10.0.0.1 to the name server 10.0.0.9, its answer, and a thread at 100 seconds. *)

Definition peer_mac : list Z := [2; 2; 0; 0; 0; 1].
Definition host_mac : list Z := [2; 2; 0; 0; 0; 9].
Definition udp_frame (dst src : list Z) (sip dip : list Z) (sp dp : Z) : list Z :=
  dst ++ src ++ [8; 0] ++ [69; 0; 0; 28; 0; 0; 0; 0; 64; 17; 0; 0] ++ sip ++ dip ++
  [Z.shiftr sp 8; Z.land sp 255; Z.shiftr dp 8; Z.land dp 255; 0; 8; 0; 0].
Definition udp_packet (b : list Z) (f sp dp : Z) : packet :=
  Packet b 0 f 0 14 34 42 42 ETH_P_IP sp dp IPPROTO_UDP 0 0 0 0 0 0 0 0 42 0 0 [] [].
Definition query : packet := udp_packet (udp_frame host_mac peer_mac [10; 0; 0; 1] [10; 0; 0; 9] 5000 53) DPI_PKT_FLAG_INGRESS 5000 53.
Definition answer : packet := udp_packet (udp_frame peer_mac host_mac [10; 0; 0; 9] [10; 0; 0; 1] 53 5000) 0 53 5000.
Definition name_server : pkt_ep := PktEp host_mac None false 0 (Parser.IoEp ∅ 0 0 false false false false false false).
Definition env0 : PolicyRules.env := PolicyRules.Env None None None Fqdn.dpi_fqdn_hdl_init.
Definition counters0 : counters := Counters 0 0 (fun _ => 0) (fun _ => 0) (fun _ => 0) (fun _ => 0).
Definition thread0 : sthread Tree.tree :=
  SThread _ ∅ (fun _ _ => RcuMap.rcu_map_init 0) (TimerWheel.Wheel ∅ 0 100 ∅) 100 ∅ 0 0 [] 0 0
    (Meter.MThread ∅ (RcuMap.rcu_map_init 0) (TimerWheel.Wheel ∅ 0 100 ∅) 100 0 0 [] false)
    (Stats.SWorld Stats.stats0 (fun _ => Stats.stats0)) (PolicyLookup.Thread [] (TimerWheel.Wheel ∅ 0 100 ∅) 100) 0 counters0 [] [] false.
Definition no_eps (_ : Z) : option Z := None.
Definition report_all (_ : list report) (_ : DPMsgSession) (_ _ : Z) : Z := 1.
Definition pass (x : pctx) (o : option (dpi_session Tree.tree)) : packet * option (dpi_session Tree.tree) := (pk x, o).
Definition at_server (ep : pkt_ep) : Prop := ep = name_server.
Abbreviation run0 := (run Meter.all_threats env0 no_eps report_all pass).
Abbreviation hist0 := (shist Meter.all_threats env0 no_eps report_all pass at_server).
Definition thread1 : sthread Tree.tree := default thread0 (run0 (EvPacket name_server query true false) thread0).

Lemma pass_ok : inspect_ok pass.
Proof. split; [|done]. intros x s s' [= <-]. apply alike_refl. Qed.
Lemma query_ok : pkt_ok name_server query /\ pkt_ok name_server answer.
Proof.
  split; constructor; try done; try (cbn; unfold size_of; cbn; lia); try (intros h H; discriminate H);
    apply (bool_decide_unpack _); vm_compute; exact I.
Qed.
Lemma hist_thread0 : hist0 thread0.
Proof. apply (sh_start _ _ _ _ _ _ 100 thread0). by constructor. Qed.
Lemma run_thread1 : run0 (EvPacket name_server query true false) thread0 = Some thread1.
Proof. unfold thread1. destruct (run0 _ _) eqn:E; [done|]. exfalso. revert E. vm_compute. done. Qed.
Lemma hist_thread1 : hist0 thread1.
Proof. eapply sh_step; [apply hist_thread0| |apply run_thread1]. split_and!; [done|apply query_ok|done]. Qed.


(** The query was at 100 seconds: its session lives to 130, and is gone at 160. *)
Definition thread2 : sthread Tree.tree := default thread0 (run0 (EvTick 160) thread1).
Lemma hist_thread2 : hist0 thread2.
Proof. eapply (sh_step _ _ _ _ _ _ thread1 (EvTick 160)); [apply hist_thread1| |reflexivity]. vm_compute. split_and!; (reflexivity || discriminate). Qed.

Lemma query_answered : answers query answer.
Proof. by constructor. Qed.

Lemma session_limit_witness : let k := Meter.sess_key Meter.sample_session in
  count (metered_as k) (sessions thread1) = 1 /\ count (metered_as k) (sessions thread1) <= 1999.
Proof.
  split; [vm_compute; reflexivity|].
  apply (session_limit Meter.all_threats env0 no_eps report_all pass pass_ok at_server thread1 hist_thread1). by intros ep ->.
Defined.

Lemma session_requests_exact_witness :
  exists th', dpi_session_delete_by_mac no_eps report_all host_mac thread1 = Some th' /\ sessions th' !! 1 = None.
Proof.
  destruct (session_requests_exact Meter.all_threats env0 no_eps report_all pass pass_ok at_server thread1 hist_thread1) as (H & _).
  destruct (H host_mac) as (th' & E & Hs). exists th'. split; [exact E|]. rewrite Hs. reflexivity.
Defined.

Lemma sessions_listed_witness :
  exists m, dpi_list_session thread1 = Some [m] /\ msg_sessions m = 1 /\ msg_length m = 148.
Proof.
  destruct (sessions_listed Meter.all_threats env0 no_eps report_all pass pass_ok at_server thread1 hist_thread1) as (ms & E & _ & F).
  assert (L : option_map length (dpi_list_session thread1) = Some 1%nat) by (vm_compute; reflexivity). rewrite E in L.
  destruct ms as [|m [|m' ms]]; [discriminate L| |discriminate L]. exists m. split; [exact E|]. apply Forall_singleton in F as (_ & _ & F & _).
  assert (N : option_map (fmap msg_sessions) (dpi_list_session thread1) = Some [1]) by (vm_compute; reflexivity). rewrite E in N. injection N as N.
  split; [exact N|]. rewrite F, N. reflexivity.
Defined.

End SessionThm.
